(* ===== verification/_CoqProject ===== *)
-Q . S2P
Prelude.v
Util.v
OptsParser.v
Double.v
Rounding.v
Deque.v
Serializer.v
FileSerializer.v
BufferedFile.v
Encoder.v
Bitstream.v
Bits.v
Nal.v
NalPacket.v
Avc.v
Hevc.v
Av1.v
RtmpAv1.v
Av1Syntax.v
RtmpAv1Obu.v
RtmpAv1Packet.v
RtmpHevc.v
HevcSyntax.v
HevcRecord.v
Captions.v
Interleave.v
InterleaveOrder.v
InterleaveStart.v
OutputBatch.v
Pause.v
PauseSync.v
EncoderRun.v
EncoderSync.v
EncoderGroup.v
EncoderReconfigure.v
EncoderPackets.v
VideoIo.v
VideoClock.v
GpuEncode.v
GpuClock.v
OutputState.v
OutputLifecycle.v
OutputDelay.v
Flv.v
FlvTag.v
FlvOutput.v
FlvFile.v
RtmpQueue.v
Rtmp.v
RtmpSend.v
RtmpConnect.v
RtmpDrop.v
RtmpOrder.v
RtmpShares.v
RtmpBitrate.v
Mp4Types.v
Mp4Box.v
Mp4Header.v
Mp4Entry.v
Mp4Table.v
Mp4Moov.v
Mp4Frag.v
Mp4Mux.v
Mp4Track.v
Mp4Api.v
Mp4File.v
FileName.v
Mp4Recording.v
Mp4Output.v
Mp4Split.v
Mp4Files.v
