(* ===== verification/Prelude.v ===== *)
(** * The recording and streaming path of libobs and obs-outputs

    This library models the part of the program that turns encoded packets into a
    recording or a stream, from the encoders' packets to the bytes of the file or of the
    network connection, and proves it correct. The code is C; every definition is a
    translation of the function or of the part of a function it is named after, over [Z]
    with the conversions of the code written out.

    ** The program

    The graphics thread hands each picture to the video thread (libobs/media-io/video-io.c)
    and, in a texture, to the GPU encode thread (libobs/obs-video-gpu-encode.c), which give
    it to the encoders; the encoders are also given blocks of audio, and deliver packets
    ([encoder_packet]) (libobs/obs-encoder.c). An output merges the packets of its
    encoders in the order of time (libobs/obs-output.c), adds captions to the video,
    and hands them one at a time to a muxer, at once or after a delay
    (libobs/obs-output-delay.c): the MP4/MOV output and muxer
    (plugins/obs-outputs/mp4-output.c, mp4-mux.c), the FLV one (flv-mux.c, flv-output.c),
    or the RTMP output (rtmp-stream.c), which queues FLV tags for a thread that sends them, drops frames
    when the network is slow and changes the bitrate of the encoders. The muxers
    ask the codec modules (obs-avc.c, obs-hevc.c, obs-av1.c, rtmp-av1.c, rtmp-hevc.c) for
    the packet in the form the container wants and for the configuration record of the
    decoder, and write through a [serializer]: an array in memory, a file, or the
    buffered file writer, which has a thread of its own.

    ** The files, in dependency order

    - Prelude.v: fixed-width integers, byte strings, big-endian numbers. Util.v:
      libobs/util/util_uint64.h. Double.v: C's doubles and the bits they are stored as;
      Rounding.v: bounds of their products and quotients.
    - Deque.v: libobs/util/deque.h, on memory with undefined cells.
    - Serializer.v: util/serializer.h as a class of operations ([SerializerOps]), the
      writers in a state monad, the promise made to the muxers ([AppendSerializer],
      [FileSerializer]) and array-serializer.c as an instance. FileSerializer.v:
      file-serializer.c, another instance. BufferedFile.v: buffered-file-serializer.c as a
      step relation of two threads, on files below 2^63 bytes (positions are [Z]).
    - Encoder.v: what outputs read from encoders and packets (obs-encoder.h, obs-encoder.c).
    - Bitstream.v: util/bitstream.c. Bits.v: the specification of bit-level parsers.
    - Nal.v: obs-nal.c. NalPacket.v: the loops obs-avc.c and obs-hevc.c share. Avc.v,
      Hevc.v, Av1.v: obs-avc.c, obs-hevc.c, obs-av1.c.
    - RtmpAv1.v: rtmp-av1.c; Av1Syntax.v: the syntax of the AV1 sequence header;
      RtmpAv1Obu.v: rtmp-av1.c on extra data, RtmpAv1Packet.v: on packets, made of OBUs.
    - RtmpHevc.v: rtmp-hevc.c; HevcSyntax.v: the syntax of the parameter sets of H.265;
      HevcRecord.v: rtmp-hevc.c on parameter sets.
    - Captions.v: add_caption of obs-output.c. Interleave.v: the interleaved queue of
      obs-output.c; InterleaveOrder.v: the started output; InterleaveStart.v: the start.
    - OutputBatch.v: calculate_batch_size of obs-output.c. OutputState.v: the life of an
      output (start, capture, stop, reconnection) of obs-output.c and the delay line of
      obs-output-delay.c, with the client, the implementation, the encoders and the threads
      as events ([output_event], [output_step]). OutputLifecycle.v: its invariant and what a
      lost connection leads to; OutputDelay.v: what the delay line gives, and when.
    - VideoIo.v: video-io.c, with video_sleep and output_video_data of obs-video.c;
      VideoClock.v: what its inputs are given ([clock_event], [clock_step]). GpuEncode.v:
      obs-video-gpu-encode.c and queue_frame of obs-video.c; GpuClock.v: what its encoders
      are given ([gpu_event], [gpu_step]).
    - Pause.v: the checks of frames and audio against a pause (obs-encoder.c, obs-output.c);
      PauseSync.v: the encoders of a paused output, each with its frame rate divisor. EncoderRun.v: what an encoder does with
      frames, audio and packets ([live_encoder]); EncoderSync.v: a video and an audio encoder
      that start together. EncoderGroup.v: starting and stopping encoders, and groups of them
      ([encoders]); EncoderReconfigure.v: a group whose settings change. EncoderPackets.v:
      what the callbacks of an encoder are given ([packet_event], [packet_step]).
    - Flv.v: flv-mux.c with the AMF0 encoder of librtmp; FlvTag.v: a reader of tags;
      FlvOutput.v: flv-output.c; FlvFile.v: whole FLV recordings.
    - RtmpQueue.v: the queue of rtmp-stream.c, the dropping of frames, the dynamic bitrate;
      Rtmp.v: its handlers and its send thread as steps ([rtmp_event], [rtmp_step]);
      RtmpConnect.v: its creation and connection. RtmpSend.v: what is written;
      RtmpDrop.v: which packets are dropped; RtmpOrder.v: the order of what is sent;
      RtmpBitrate.v: the target bitrate, RtmpShares.v: what each encoder is asked for.
    - Mp4Types.v to Mp4Mux.v: mp4-mux-internal.h and mp4-mux.c, in the order of the
      source (Mp4Box: boxes; Mp4Header: headers; Mp4Entry: sample descriptions; Mp4Table:
      sample tables; Mp4Moov: movie box and metadata; Mp4Frag: fragments; Mp4Mux: packets,
      tracks, API). Mp4Track.v: the history of a track; Mp4Api.v: creation and submission;
      Mp4File.v: finalisation; Mp4Recording.v: whole MP4 recordings.
    - OptsParser.v: shared/opts-parser/opts-parser.c; FileName.v: the names of recordings
      (os_generate_formatted_filename of util/platform.c, the search for a new name).
      Mp4Output.v: mp4-output.c, its handlers as steps ([mp4_out_event], [mp4_out_step]);
      Mp4Split.v: the packets of its files; Mp4Files.v: their bytes, through Mp4Recording.v.

    ** Conventions

    A C function that can reach undefined behaviour (a read or write outside a buffer, a
    null pointer, a shift by the width, a failed [assert]) returns an option, [None]
    there; the theorems prove [Some]. A C result that reports failure is an inner option
    or a bool. State is passed explicitly; buffers are lists of bytes; a pointer into a
    buffer is an offset, and the address of the buffer an argument where alignment
    decides (Nal.v). Signed and unsigned arithmetic wraps at its width.

    ** What is shown

    - Whole recordings. [recording_complete] and [finalise_layout]: the MP4 file holds
      the data of the packets where its tables say. [flv_file_complete]: the FLV file
      reads back as the tags of the packets. They rest on the theorems on tables
      ([tables_follow_packets], the round trip of stsc, with lemmas for stts and ctts), on fragments
      ([fragment_samples_located], [run_splits_into_packets], [fragment_decode_times]), on
      boxes ([moov_well_formed]), on tags ([flv_packet_roundtrip]) and on the API
      ([add_chapter_queues], the lemmas [submit_packet_queues] and [mux_create_tracks]).
    - Split recordings. [split_files_complete] and [split_files_limited]: the packets of the
      files of a recording and where it is cut; [mp4_files_recorded]: each file is one
      recording in the sense of [recording_complete]. [best_filename_fresh]: the names of the
      files.
    - Pictures. [video_shown_in_order] and [gpu_pictures_in_order]: under every interleaving
      of the two threads each period of the clock is shown or encoded once and in order, and
      with which picture; no texture is drawn into while it is queued or being encoded.
    - Encoders. [packets_from_keyframe]: what each callback of an encoder is given.
      [audio_starts_with_video]: the first frame and the first sample;
      [pauses_keep_sync]: what is encoded around pauses, and which divisors keep in step; [group_reconfigures_together]: the
      encoders of a group change their settings on the same frame.
    - Order and completeness of the packets. [interleave_in_order] and
      [started_output_delivers]. [output_lifecycle], [delay_in_order] and
      [reconnect_gives_up]: the states of an output under every sequence of events, the
      order and the time of delayed packets, the attempts to reconnect (all reported as
      failed, or one refused at once).
    - Containers and I/O. [deque_is_list]; [buffered_writer_is_file] (both threads, every
      interleaving, with the seeks of this serializer), [buffered_writer_progress] (a step, unless the
      user waits after a failed write, as the lemma [failed_write_blocks_user] shows),
      [buffered_writer_drains].
    - Codecs. The word-at-a-time search finds the first start code; packets survive the
      change of form; the configuration records say what the parameter sets say (H.264,
      HEVC, AV1); the keyframe tests and the extraction of headers.
    - Bounds: where the code truncates (the lemmas [mdhd_duration_mod] of Mp4Header.v and
      [bit_reader_wraps] of Bitstream.v).
    - Streaming. [rtmp_drops_decodable]: no frame is sent whose reference was dropped;
      [rtmp_sends_in_order]: what reaches the network; [rtmp_bitrate_bounded]: the target
      bitrate and, with the default table, the shares of the encoders.
    - Where the code departs from what it means to do, an [Example] evaluates the case.

    ** Fuel

    A loop of the code that is not structural has a fuel argument, and the caller gives
    enough: the length of the buffer where every turn consumes a byte (the unit and OBU
    loops, the reader of tags), the number of tracks where the loop counts them (6
    audio and 10 video encoders), the inputs of the video output, the count (at least one) of
    periods a picture is encoded for, the bytes of the format or one more than the files there
    are for file names, one more than the bytes in the queue of audio ([loop_fuel]), the
    smaller argument of [gcd]. The theorems conclude that a result is returned.

    ** Not modelled, and why

    Rendering, mixing, capture, scaling and compression of pictures are GPU, device and floating-point work.
    libcaption, librtmp, jansson, strftime and the file system are parameters. Threads,
    mutexes and atomic flags appear where an interleaving matters (BufferedFile.v, Rtmp.v,
    OutputState.v, VideoClock.v, GpuClock.v) and are left out where one mutex covers a whole function. In
    OutputState.v each call of libobs is one step, one reconnecting thread runs at a time, and
    the client makes its reconnect settings when it creates the output. Opening and
    closing files, memory allocation, reference counts and logging are left out, as are the
    socket loop and the shared textures of Windows (rtmp-windows.c, the _WIN32 parts of
    obs-video-gpu-encode.c), outputs of raw frames, the creation and the properties of encoders, the user
    interface, scripting and the settings store. The containers of libobs/util other than the
    deque are lists. *)

From stdpp Require Export base list numbers option strings list_numbers.

(** ** Fixed-width integers

    A C integer of width [w] is a [Z]; every conversion the code performs,
    explicitly or through a parameter or a field of a narrower type, is one of
    the functions below. *)

Definition u8 (z : Z) : Z := z `mod` 2 ^ 8.
Definition u16 (z : Z) : Z := z `mod` 2 ^ 16.
Definition u24 (z : Z) : Z := z `mod` 2 ^ 24.
Definition u32 (z : Z) : Z := z `mod` 2 ^ 32.
Definition u64 (z : Z) : Z := z `mod` 2 ^ 64.
Definition i32 (z : Z) : Z := (z + 2 ^ 31) `mod` 2 ^ 32 - 2 ^ 31.
Definition i64 (z : Z) : Z := (z + 2 ^ 63) `mod` 2 ^ 64 - 2 ^ 63.

Definition INT_MAX : Z := 2147483647.
Definition UINT16_MAX : Z := 2 ^ 16 - 1.
Definition UINT32_MAX : Z := 2 ^ 32 - 1.

(** C's [/] and [%] on signed operands truncate towards zero. *)
Notation "a /c b" := (Z.quot a b) (at level 40, left associativity) : Z_scope.

(** A byte string; every element of a well-formed one is in [0, 255]. *)
Abbreviation bytes := (list Z).

Definition is_byte (b : Z) : Prop := (0 ≤ b < 256)%Z.
Definition zlen {A} (l : list A) : Z := Z.of_nat (length l).

Arguments zlen {A} l : simpl never.
Arguments u8 z : simpl never.
Arguments u16 z : simpl never.
Arguments u32 z : simpl never.
Arguments u64 z : simpl never.
Arguments i32 z : simpl never.
Arguments i64 z : simpl never.

#[global] Instance is_byte_dec b : Decision (is_byte b).
Proof. unfold is_byte. apply _. Defined.

(** String literals of the source as bytes (without the terminator). *)
Definition str (s : string) : bytes :=
  map (fun a => Z.of_N (Ascii.N_of_ascii a)) (String.list_ascii_of_string s).

Local Open Scope Z_scope.

(** ** Lemmas on the integers *)

Lemma u8_range z : 0 ≤ u8 z < 2 ^ 8.
Proof. unfold u8; apply Z.mod_pos_bound; lia. Qed.
Lemma u16_range z : 0 ≤ u16 z < 2 ^ 16.
Proof. unfold u16; apply Z.mod_pos_bound; lia. Qed.
Lemma u32_range z : 0 ≤ u32 z < 2 ^ 32.
Proof. unfold u32; apply Z.mod_pos_bound; lia. Qed.
Lemma u64_range z : 0 ≤ u64 z < 2 ^ 64.
Proof. unfold u64; apply Z.mod_pos_bound; lia. Qed.
Lemma i32_range z : - 2 ^ 31 ≤ i32 z < 2 ^ 31.
Proof. unfold i32; pose proof (Z.mod_pos_bound (z + 2^31) (2^32)); lia. Qed.

Lemma u8_small z : 0 ≤ z < 2 ^ 8 → u8 z = z.
Proof. intros; unfold u8; apply Z.mod_small; lia. Qed.
Lemma u16_small z : 0 ≤ z < 2 ^ 16 → u16 z = z.
Proof. intros; unfold u16; apply Z.mod_small; lia. Qed.
Lemma u32_small z : 0 ≤ z < 2 ^ 32 → u32 z = z.
Proof. intros; unfold u32; apply Z.mod_small; lia. Qed.
Lemma u64_small z : 0 ≤ z < 2 ^ 64 → u64 z = z.
Proof. intros; unfold u64; apply Z.mod_small; lia. Qed.
Lemma i32_small z : - 2 ^ 31 ≤ z < 2 ^ 31 → i32 z = z.
Proof. intros; unfold i32; rewrite Z.mod_small; lia. Qed.
Lemma i64_small z : - 2 ^ 63 ≤ z < 2 ^ 63 → i64 z = z.
Proof. intros; unfold i64; rewrite Z.mod_small; lia. Qed.

Lemma u8_byte z : is_byte (u8 z).
Proof. apply u8_range. Qed.

Create HintDb ints.
#[export] Hint Resolve u8_range u16_range u32_range u64_range i32_range u8_byte : ints.

(** Narrowing conversions compose: only the innermost bits survive. *)
Lemma mod_shiftr_mod z n m k :
  0 ≤ n → 0 ≤ k → n + k ≤ m →
  Z.shiftr (z `mod` 2 ^ m) k `mod` 2 ^ n = Z.shiftr z k `mod` 2 ^ n.
Proof.
  intros. apply Z.bits_inj'. intros i Hi.
  rewrite !Z.testbit_mod_pow2, !Z.shiftr_spec, Z.testbit_mod_pow2 by lia.
  destruct (Z.ltb_spec i n); simpl; [|done].
  by rewrite (proj2 (Z.ltb_lt _ _)) by lia.
Qed.

Lemma mod_mod_pow z n m : 0 ≤ n ≤ m → (z `mod` 2 ^ m) `mod` 2 ^ n = z `mod` 2 ^ n.
Proof.
  intros. pose proof (mod_shiftr_mod z n m 0) as E. rewrite !Z.shiftr_0_r in E.
  apply E; lia.
Qed.

(** A disjoint [or] is a sum. *)
Lemma lor_high a b k : 0 ≤ k → 0 ≤ a < 2 ^ k → 0 ≤ b → Z.lor a (Z.shiftl b k) = a + b * 2 ^ k.
Proof.
  intros Hk Ha Hb. rewrite <- Z.shiftl_mul_pow2, <- Z.add_lor_land by done.
  replace (Z.land a (Z.shiftl b k)) with 0; [lia|]. symmetry.
  apply Z.bits_inj'. intros i Hi. rewrite Z.land_spec, Z.shiftl_spec, Z.bits_0 by done.
  destruct (decide (i < k)) as [|N]; [rewrite (Z.testbit_neg_r b), andb_false_r by lia; done|].
  destruct (decide (a = 0)) as [->|]; [by rewrite Z.bits_0|].
  rewrite (Z.bits_above_log2 a); [done|lia|]. apply Z.log2_lt_pow2; [lia|].
  apply Z.lt_le_trans with (2 ^ k); [lia|]. apply Z.pow_le_mono_r; lia.
Qed.

(** [wrap_small]: erases the conversions of the goal whose argument is in range. *)
Ltac wrap_small :=
  repeat match goal with
  | |- context [u8 ?z] => rewrite (u8_small z) by lia
  | |- context [u16 ?z] => rewrite (u16_small z) by lia
  | |- context [u32 ?z] => rewrite (u32_small z) by lia
  | |- context [u64 ?z] => rewrite (u64_small z) by lia
  | |- context [i32 ?z] => rewrite (i32_small z) by lia
  | |- context [i64 ?z] => rewrite (i64_small z) by lia
  end.

(** ** Lemmas on byte strings *)

Section lists.
Context {A : Type}.
Implicit Types l k : list A.

Lemma zlen_nil : zlen (@nil A) = 0.
Proof. reflexivity. Qed.
Lemma zlen_cons x l : zlen (x :: l) = 1 + zlen l.
Proof. unfold zlen; simpl; lia. Qed.
Lemma zlen_app l k : zlen (l ++ k) = zlen l + zlen k.
Proof. unfold zlen; rewrite length_app; lia. Qed.
Lemma zlen_nonneg l : 0 ≤ zlen l.
Proof. unfold zlen; lia. Qed.
Lemma zlen_to_nat l : Z.to_nat (zlen l) = length l.
Proof. unfold zlen; lia. Qed.
Lemma zlen_replicate n (x : A) : zlen (replicate n x) = Z.of_nat n.
Proof. unfold zlen; by rewrite length_replicate. Qed.
Lemma zlen_take n l : zlen (take n l) = Z.min (Z.of_nat n) (zlen l).
Proof. unfold zlen; rewrite length_take; lia. Qed.
Lemma zlen_drop n l : zlen (drop n l) = Z.max 0 (zlen l - Z.of_nat n).
Proof. unfold zlen; rewrite length_drop; lia. Qed.
End lists.

Lemma zlen_map {A B} (f : A → B) l : zlen (map f l) = zlen l.
Proof. unfold zlen; by rewrite length_map. Qed.

Create Rewrite HintDb len.
#[export] Hint Rewrite @zlen_nil @zlen_cons @zlen_app @zlen_replicate @zlen_map
  @zlen_take @zlen_drop : len.

(** [len_lia]: normalises the lengths of goal and hypotheses, then [lia]. *)
Ltac zlen_facts :=
  repeat match goal with
  | |- context [zlen ?l] =>
      lazymatch goal with H : 0 ≤ zlen l |- _ => fail | _ => pose proof (zlen_nonneg l) end
  | _ : context [zlen ?l] |- _ =>
      lazymatch goal with H : 0 ≤ zlen l |- _ => fail | _ => pose proof (zlen_nonneg l) end
  end.
Ltac len_lia := autorewrite with len in *; zlen_facts; lia.

(** [div_lia]: [lia] on goals with quotients and remainders by constants. *)
Ltac div_lia := Z.to_euclidean_division_equations; lia.

(** [sub off n l]: the [n] elements of [l] from offset [off]. *)
Definition sub {A} (off n : Z) (l : list A) : list A :=
  take (Z.to_nat n) (drop (Z.to_nat off) l).

(** [splice off k l]: [l] with the elements from [off] overwritten by [k]
    ([memcpy(l + off, k, len k)]), growing [l] when [k] runs past its end. *)
Definition splice {A} (off : Z) (k l : list A) : list A :=
  take (Z.to_nat off) l ++ k ++ drop (Z.to_nat (off + zlen k)) l.

Lemma splice_app {A} (a k b d : list A) :
  zlen k = zlen b → splice (zlen a) k (a ++ b ++ d) = a ++ k ++ d.
Proof.
  intros H. unfold splice. rewrite zlen_to_nat, take_app_length. do 2 f_equal.
  replace (Z.to_nat (zlen a + zlen k)) with (length a + length b)%nat by (unfold zlen in *; lia).
  by rewrite app_assoc, <- length_app, drop_app_length.
Qed.

Lemma sub_app_mid {A} (a b d : list A) : sub (zlen a) (zlen b) (a ++ b ++ d) = b.
Proof. unfold sub. by rewrite !zlen_to_nat, drop_app_length, take_app_length. Qed.

(** ** Big-endian numbers *)

Definition be16 (z : Z) : bytes := [u8 (Z.shiftr z 8); u8 z].
Definition be24 (z : Z) : bytes := be16 (Z.shiftr z 8) ++ [u8 z].
Definition be32 (z : Z) : bytes := be16 (Z.shiftr z 16) ++ be16 z.
Definition be64 (z : Z) : bytes := be32 (Z.shiftr z 32) ++ be32 z.

Arguments be16 z : simpl never.
Arguments be24 z : simpl never.
Arguments be32 z : simpl never.
Arguments be64 z : simpl never.

(** Only the digits that are written matter. *)
Lemma be16_shiftr_mod v k n : 0 ≤ k → k + 16 ≤ n →
  be16 (Z.shiftr (v `mod` 2 ^ n) k) = be16 (Z.shiftr v k).
Proof.
  intros. unfold be16, u8. rewrite !Z.shiftr_shiftr by lia. by rewrite !mod_shiftr_mod by lia.
Qed.
Lemma be16_mod v n : 16 ≤ n → be16 (v `mod` 2 ^ n) = be16 v.
Proof. intros. rewrite <- (Z.shiftr_0_r (v `mod` _)), be16_shiftr_mod by lia. by rewrite Z.shiftr_0_r. Qed.
Lemma be32_shiftr_mod v k n : 0 ≤ k → k + 32 ≤ n →
  be32 (Z.shiftr (v `mod` 2 ^ n) k) = be32 (Z.shiftr v k).
Proof.
  intros. unfold be32. rewrite !Z.shiftr_shiftr by lia. by rewrite !be16_shiftr_mod by lia.
Qed.
Lemma be32_mod v n : 32 ≤ n → be32 (v `mod` 2 ^ n) = be32 v.
Proof. intros. rewrite <- (Z.shiftr_0_r (v `mod` _)), be32_shiftr_mod by lia. by rewrite Z.shiftr_0_r. Qed.

Lemma be32_u32 v : be32 (u32 v) = be32 v.
Proof. unfold u32. by rewrite be32_mod by lia. Qed.

(** The value a reader of the big-endian digits [l] obtains. *)
Definition be_val (l : bytes) : Z := foldl (fun acc b => acc * 256 + b) 0 l.

Lemma shiftr_div z n : 0 ≤ n → Z.shiftr z n = z `div` 2 ^ n.
Proof. intros; by apply Z.shiftr_div_pow2. Qed.

Lemma be_val_foldl l acc :
  foldl (fun acc b => acc * 256 + b) acc l = acc * 256 ^ zlen l + be_val l.
Proof.
  unfold be_val. revert acc; induction l as [|b l IH]; intros acc; cbn [foldl].
  - change (zlen []) with 0. lia.
  - rewrite (IH (acc * 256 + b)), (IH (0 * 256 + b)), zlen_cons, Z.pow_add_r by len_lia. lia.
Qed.

Lemma be_val_app l k : be_val (l ++ k) = be_val l * 256 ^ zlen k + be_val k.
Proof. unfold be_val at 1. by rewrite foldl_app, be_val_foldl. Qed.

(** Splitting a residue at bit [n]: the recurrence every [be]-writer follows. *)
Lemma mod_split z n m k : 0 ≤ n → 0 ≤ m → k = n + m →
  Z.shiftr z n `mod` 2 ^ m * 2 ^ n + z `mod` 2 ^ n = z `mod` 2 ^ k.
Proof.
  intros ?? ->. rewrite shiftr_div, Z.pow_add_r by done.
  rewrite (Z.rem_mul_r z (2 ^ n) (2 ^ m)) by lia. lia.
Qed.

Lemma be16_val z : be_val (be16 z) = u16 z.
Proof. unfold u16. rewrite <- (mod_split z 8 8 16) by lia. done. Qed.
Lemma be24_val z : be_val (be24 z) = u24 z.
Proof.
  unfold be24, u24. rewrite be_val_app, be16_val.
  rewrite <- (mod_split z 8 16 24) by lia. done.
Qed.
Lemma be32_val z : be_val (be32 z) = u32 z.
Proof.
  unfold be32, u32. rewrite be_val_app, !be16_val.
  rewrite <- (mod_split z 16 16 32) by lia. done.
Qed.
Lemma be64_val z : be_val (be64 z) = u64 z.
Proof.
  unfold be64, u64. rewrite be_val_app, !be32_val.
  rewrite <- (mod_split z 32 32 64) by lia. done.
Qed.

Lemma be16_len z : zlen (be16 z) = 2. Proof. reflexivity. Qed.
Lemma be24_len z : zlen (be24 z) = 3. Proof. reflexivity. Qed.
Lemma be32_len z : zlen (be32 z) = 4. Proof. reflexivity. Qed.
Lemma be64_len z : zlen (be64 z) = 8. Proof. reflexivity. Qed.
#[export] Hint Rewrite be16_len be24_len be32_len be64_len : len.


(** [all_bytes]: a decidable fact on concrete data, such as that a list is one of bytes. *)
Ltac all_bytes := apply (bool_decide_unpack _); vm_compute; exact I.
