(* ===== verification/Util.v ===== *)
(** * Integer helpers: libobs/util/util_uint64.h *)

From S2P Require Import Prelude.

Local Open Scope Z_scope.

(** [util_mul_div64(num, mul, div)], the portable branch, in 64-bit arithmetic. *)
Definition util_mul_div64 (num mul div : Z) : Z :=
  let num := u64 num in let mul := u64 mul in let div := u64 div in
  let rem := num `mod` div in
  u64 (u64 ((num `div` div) * mul) + u64 (rem * mul) `div` div).

(** Splitting the dividend by [div] first gives the exact scaled value: nothing is
    lost by the two separate divisions. *)
Lemma mul_div_split num mul div : 0 < div →
  (num * mul) `div` div = (num `div` div) * mul + (num `mod` div * mul) `div` div.
Proof.
  intros. rewrite <- Z.div_add_l by lia. f_equal.
  pose proof (Z.div_mod num div ltac:(lia)). nia.
Qed.

(** The scaled value is exact whenever the factors are 32-bit and it fits. *)
Lemma util_mul_div64_exact num mul div :
  0 ≤ num < 2 ^ 64 → 0 ≤ mul < 2 ^ 32 → 0 < div < 2 ^ 32 →
  (num * mul) `div` div < 2 ^ 64 →
  util_mul_div64 num mul div = (num * mul) `div` div.
Proof.
  intros Hn Hm Hd Hfit. unfold util_mul_div64. wrap_small.
  pose proof (Z.mod_pos_bound num div ltac:(lia)) as Hr.
  assert (0 ≤ num `mod` div * mul < 2 ^ 64) by nia.
  assert (0 ≤ (num `mod` div * mul) `div` div) by (apply Z.div_pos; lia).
  assert (0 ≤ (num `div` div) * mul) by (apply Z.mul_nonneg_nonneg; [apply Z.div_pos|]; lia).
  pose proof (mul_div_split num mul div ltac:(lia)) as E.
  wrap_small. lia.
Qed.

Lemma util_mul_div64_range num mul div : 0 ≤ util_mul_div64 num mul div < 2 ^ 64.
Proof. apply u64_range. Qed.

(** Scaling is monotone: a longer duration never becomes a shorter one. *)
Lemma util_mul_div64_mono n n' mul div :
  0 ≤ n ≤ n' → n' < 2 ^ 64 → 0 ≤ mul < 2 ^ 32 → 0 < div < 2 ^ 32 →
  (n' * mul) `div` div < 2 ^ 64 →
  util_mul_div64 n mul div ≤ util_mul_div64 n' mul div.
Proof.
  intros. assert ((n * mul) `div` div ≤ (n' * mul) `div` div) by (apply Z.div_le_mono; nia).
  rewrite !util_mul_div64_exact by lia. lia.
Qed.

(** A division by zero is undefined. *)
Definition mul_div64 (num mul div : Z) : option Z :=
  if u64 div =? 0 then None else Some (util_mul_div64 num mul div).

Definition checked_div (a b : Z) : option Z := if b =? 0 then None else Some (a `div` b).

Lemma mul_div64_some num mul div : 0 < div < 2 ^ 64 →
  mul_div64 num mul div = Some (util_mul_div64 num mul div).
Proof. intros. unfold mul_div64. wrap_small. by rewrite (proj2 (Z.eqb_neq _ _)) by lia. Qed.

Lemma checked_div_some a b : b ≠ 0 → checked_div a b = Some (a `div` b).
Proof. intros. unfold checked_div. by rewrite (proj2 (Z.eqb_neq _ _)). Qed.

(** C's signed [/], undefined for a zero divisor. *)
Definition checked_quot (a b : Z) : option Z := if b =? 0 then None else Some (a /c b).
