(* ===== verification/OptsParser.v ===== *)
(** * Options in strings: shared/opts-parser/opts-parser.c

    [obs_parse_options] with [strlist_split] of libobs/util/dstr.c, and the conversions of
    the C library to which the values are given. A string is the list of its bytes, a null
    pointer is [None]. *)

From S2P Require Import Prelude.

Local Open Scope Z_scope.

(** ** The C library *)

Definition isspace (c : Z) : bool := (c =? 32) || ((9 <=? c) && (c <=? 13)).
Definition isdigit (c : Z) : bool := (48 <=? c) && (c <=? 57).

(** What is before the first [c] and what is after it. *)
Fixpoint strchr (s : bytes) (c : Z) : option (bytes * bytes) :=
  match s with
  | [] => None
  | x :: s => if x =? c then Some ([], s) else '(pre, post) ← strchr s c; Some (x :: pre, post)
  end.

Fixpoint skip_spaces (s : bytes) : bytes :=
  match s with c :: s' => if isspace c then skip_spaces s' else s | [] => [] end.

Fixpoint digits_value (acc : Z) (s : bytes) : Z :=
  match s with c :: s => if isdigit c then digits_value (acc * 10 + (c - 48)) s else acc | [] => acc end.

(** The sign and the absolute value of the number a string begins with. *)
Definition number (s : bytes) : bool * Z :=
  match skip_spaces s with
  | 45 :: s => (true, digits_value 0 s)
  | 43 :: s => (false, digits_value 0 s)
  | s => (false, digits_value 0 s)
  end.

(** Undefined when the number is not an [int]. *)
Definition atoi (s : bytes) : option Z :=
  let '(neg, v) := number s in
  let v := if neg then - v else v in
  if (- 2 ^ 31 <=? v) && (v <=? INT_MAX) then Some v else None.

(** [strtoull(s, 0, 10)]. *)
Definition strtoull (s : bytes) : Z :=
  let '(neg, v) := number s in
  if 2 ^ 64 <=? v then 2 ^ 64 - 1 else if neg then u64 (- v) else v.

(** ** The parser *)

(** The parts between the separators. *)
Fixpoint split_ch (str : bytes) (c : Z) : list bytes :=
  match str with
  | [] => [[]]
  | x :: str =>
      if x =? c then [] :: split_ch str c
      else match split_ch str c with w :: ws => (x :: w) :: ws | [] => [[x]] end
  end.

Definition is_empty (w : bytes) : bool := match w with [] => true | _ => false end.

Definition strlist_split (str : option bytes) (c : Z) (include_empty : bool) : option (list bytes) :=
  str ← str; Some (filter (λ w, negb (is_empty w) || include_empty) (split_ch str c)).

Definition SPACE : Z := 32.
Definition ASSIGN : Z := 61.

Record obs_option := mk_option { opt_name : bytes; opt_value : bytes }.

Definition getparam (param : bytes) : option obs_option :=
  '(name, value) ← strchr param ASSIGN;
  if is_empty name || is_empty value then None else Some (mk_option name value).

Definition is_none {A} (o : option A) : bool := match o with None => true | Some _ => false end.

(** The options and the words that are ignored. *)
Definition obs_parse_options (options_string : option bytes) : list obs_option * list bytes :=
  match strlist_split options_string SPACE false with
  | None => ([], [])
  | Some input_words =>
      (omap getparam input_words,
       filter (λ w, is_none (getparam w)) input_words)
  end.

(** ** Printing and parsing *)

Definition show_option (o : obs_option) : bytes := opt_name o ++ [ASSIGN] ++ opt_value o.

(** The options in a row, each with the number of spaces that follow it; between two there
    is one more. *)
Fixpoint print_options (items : list (obs_option * nat)) : bytes :=
  match items with
  | [] => []
  | [(o, n)] => show_option o ++ replicate n SPACE
  | (o, n) :: items => show_option o ++ replicate (S n) SPACE ++ print_options items
  end.

Record option_ok (o : obs_option) : Prop := {
  ok_name : opt_name o ≠ [] ∧ (SPACE ∉ opt_name o) ∧ ASSIGN ∉ opt_name o;
  ok_value : opt_value o ≠ [] ∧ SPACE ∉ opt_value o
}.

Lemma strchr_app pre c post : c ∉ pre → strchr (pre ++ c :: post) c = Some (pre, post).
Proof.
  induction pre as [|x pre IH]; intros Hn; cbn [app strchr]; [by rewrite Z.eqb_refl|].
  apply not_elem_of_cons in Hn as [Hx Hn]. destruct (Z.eqb_spec x c); [congruence|]. by rewrite IH.
Qed.

Lemma split_ch_nonempty s c : split_ch s c ≠ [].
Proof. destruct s as [|x s]; cbn; [done|]. repeat case_match; done. Qed.

Lemma split_ch_word w c : c ∉ w → split_ch w c = [w].
Proof.
  induction w as [|x w IH]; intros Hn; [done|]. cbn [split_ch]. apply not_elem_of_cons in Hn as [Hx Hn].
  destruct (Z.eqb_spec x c); [congruence|]. by rewrite IH.
Qed.

Lemma split_ch_app w c s : c ∉ w → split_ch (w ++ c :: s) c = w :: split_ch s c.
Proof.
  induction w as [|x w IH]; intros Hn; cbn [app split_ch]; [by rewrite Z.eqb_refl|].
  apply not_elem_of_cons in Hn as [Hx Hn]. destruct (Z.eqb_spec x c); [congruence|]. by rewrite IH.
Qed.

(** The words of a string, empty ones left out. *)
Definition words_of (s : bytes) : list bytes := filter (λ w, negb (is_empty w) || false) (split_ch s SPACE).

Lemma words_word w s : w ≠ [] → SPACE ∉ w → words_of (w ++ SPACE :: s) = w :: words_of s.
Proof. intros Hw Hn. unfold words_of. rewrite split_ch_app by done. rewrite filter_cons_True; [done|]. by destruct w. Qed.

Lemma words_spaces n s : words_of (replicate n SPACE ++ s) = words_of s.
Proof. induction n as [|n IH]; [done|]. exact IH. Qed.

Lemma words_last w n : w ≠ [] → SPACE ∉ w → words_of (w ++ replicate n SPACE) = [w].
Proof.
  intros Hw Hn. destruct n as [|n]; cbn [replicate].
  - rewrite app_nil_r. unfold words_of. rewrite split_ch_word, filter_cons_True; [done| |done]. by destruct w.
  - rewrite words_word by done. by rewrite <- (app_nil_r (replicate n SPACE)), words_spaces.
Qed.

Lemma show_option_word o : option_ok o → show_option o ≠ [] ∧ (SPACE ∉ show_option o) ∧ getparam (show_option o) = Some o.
Proof.
  intros [(Hn & Hs & Ha) (Hv & Hw)]. unfold show_option. split; [by destruct (opt_name o)|]. split.
  - rewrite !not_elem_of_app. split_and!; [done| |done]. by rewrite list_elem_of_singleton.
  - unfold getparam. cbn [app]. rewrite strchr_app by done. cbn. destruct o as [[|] [|]]; done.
Qed.

Lemma print_words items : Forall option_ok items.*1 → words_of (print_options items) = map show_option items.*1.
Proof.
  induction items as [|[o n] items IH]; intros Hok; [done|]. apply Forall_cons in Hok as [Ho Hok].
  destruct (show_option_word o Ho) as (Hne & Hsp & _).
  destruct items as [|i items]; [by apply words_last|].
  change (print_options ((o, n) :: i :: items)) with
    (show_option o ++ SPACE :: replicate n SPACE ++ print_options (i :: items)).
  rewrite words_word, words_spaces, IH by done. done.
Qed.

(** Options printed as name=value, with any number of spaces around them, are parsed back
    as they are, in their order, and no word is ignored. *)
Theorem options_roundtrip lead items :
  Forall option_ok items.*1 →
  obs_parse_options (Some (replicate lead SPACE ++ print_options items)) = (items.*1, []).
Proof.
  intros Hok. unfold obs_parse_options, strlist_split. cbn [mbind option_bind].
  change (filter _ (split_ch (replicate lead SPACE ++ print_options items) SPACE)) with
    (words_of (replicate lead SPACE ++ print_options items)).
  rewrite words_spaces, print_words by done. clear -Hok. induction Hok as [|o os Ho _ IH]; [done|].
  destruct (show_option_word o Ho) as (_ & _ & E). apply pair_equal_spec in IH as [IH1 IH2].
  cbn [map]. rewrite filter_cons_False by (rewrite E; by intros []). f_equal; [|exact IH2].
  cbn [omap list_omap]. rewrite E. by f_equal.
Qed.

Lemma options_roundtrip_witness :
  let items := [(mk_option (str "chunk_size") (str "2"), 0%nat); (mk_option (str "bpm") (str "a=b"), 3%nat)] in
  Forall option_ok items.*1 ∧
  obs_parse_options (Some (replicate 2 SPACE ++ print_options items)) = (items.*1, []).
Proof.
  intros items. assert (Forall option_ok items.*1) as H.
  { repeat (apply Forall_cons; split); [| |apply Forall_nil; exact I].
    - split; [split_and!|split]; [done|by apply (bool_decide_unpack _)..|done|by apply (bool_decide_unpack _)].
    - split; [split_and!|split]; [done|by apply (bool_decide_unpack _)..|done|by apply (bool_decide_unpack _)]. }
  split; [exact H|]. exact (options_roundtrip 2 items H).
Defined.

(** Words that are no options are ignored. *)
Example ignored_words_kept :
  obs_parse_options (Some (str "bpm=1 x =3 y= bpm=2")) =
    ([mk_option (str "bpm") (str "1"); mk_option (str "bpm") (str "2")], [str "x"; str "=3"; str "y="]).
Proof. vm_compute. reflexivity. Qed.

Example numbers : atoi (str " -12x") = Some (-12) ∧ atoi (str "4294967296") = None ∧
  strtoull (str "99999999999999999999") = 2 ^ 64 - 1 ∧ strtoull (str "-1") = 2 ^ 64 - 1.
Proof. by vm_compute. Qed.
