(* ===== verification/Double.v ===== *)
(** * Doubles

    C's [double]: the IEEE 754 operations of the Standard Library at precision 53, and
    the 64 bits a double is stored as, which the writers of numbers copy out. *)

From Stdlib Require Export SpecFloat.
From S2P Require Import Prelude.

Local Open Scope Z_scope.

Abbreviation double := spec_float.

Definition double_of_int (z : Z) : double := binary_normalize 53 1024 z 0 false.
Definition double_add (a b : double) : double := SFadd 53 1024 a b.
Definition double_div (a b : double) : double := SFdiv 53 1024 a b.

Definition double_mul (a b : double) : double := SFmul 53 1024 a b.
Definition double_ltb (a b : double) : bool := SFltb a b.

(** The conversion to an integer type truncates; undefined for infinities and NaN. *)
Definition double_to_int (d : double) : option Z :=
  match d with
  | S754_zero _ => Some 0
  | S754_finite s m e =>
      let n := if 0 <=? e then Zpos m * 2 ^ e else Zpos m / 2 ^ (- e) in
      Some (if s then - n else n)
  | _ => None
  end.

(** C's [float]. *)
Definition float_of_int (z : Z) : spec_float := binary_normalize 24 128 z 0 false.
Definition float_div (a b : spec_float) : spec_float := SFdiv 24 128 a b.

(** The 64 bits of the representation: the sign, the biased exponent and the fraction. *)
Definition double_to_bits (d : double) : Z :=
  let sign (s : bool) := if s then 2 ^ 63 else 0 in
  match d with
  | S754_zero s => sign s
  | S754_infinity s => sign s + 2047 * 2 ^ 52
  | S754_nan => 2047 * 2 ^ 52 + 2 ^ 51
  | S754_finite s m e =>
      sign s + (if Zpos m <? 2 ^ 52 then Zpos m else (e + 1075) * 2 ^ 52 + (Zpos m - 2 ^ 52))
  end.

(** The number whose representation the bits are. *)
Definition double_of_bits (b : Z) : double :=
  let s := 2 ^ 63 <=? b in
  let b := b `mod` 2 ^ 63 in
  let exponent := b `div` 2 ^ 52 in
  let fraction := b `mod` 2 ^ 52 in
  if exponent =? 0 then
    match fraction with Zpos m => S754_finite s m (-1074) | _ => S754_zero s end
  else if exponent =? 2047 then
    if fraction =? 0 then S754_infinity s else S754_nan
  else match fraction + 2 ^ 52 with Zpos m => S754_finite s m (exponent - 1075) | _ => S754_nan end.

Lemma digits2_log2 m : Zpos (digits2_pos m) = Z.log2 (Zpos m) + 1.
Proof.
  induction m as [m IH|m IH|]; [| |done].
  - change (digits2_pos m~1) with (Pos.succ (digits2_pos m)). rewrite Pos2Z.inj_succ, IH.
    rewrite Pos2Z.inj_xI, Z.log2_succ_double by lia. lia.
  - change (digits2_pos m~0) with (Pos.succ (digits2_pos m)). rewrite Pos2Z.inj_succ, IH.
    rewrite Pos2Z.inj_xO, Z.log2_double by lia. lia.
Qed.

(** A finite double has 53 digits, or fewer at the least exponent. *)
Lemma valid_digits s m e : valid_binary 53 1024 (S754_finite s m e) = true →
  Zpos m < 2 ^ 53 ∧ -1074 ≤ e ≤ 971 ∧ (2 ^ 52 ≤ Zpos m ∨ e = -1074).
Proof.
  intros H. change (bounded 53 1024 m e = true) in H. unfold bounded, canonical_mantissa, fexp in H.
  apply andb_prop in H as [H1 H2]. apply Z.eqb_eq in H1. apply Z.leb_le in H2.
  change (SpecFloat.emin 53 1024) with (-1074) in H1.
  rewrite digits2_log2 in H1. pose proof (Z.log2_spec (Zpos m) ltac:(lia)) as [Hlo Hhi].
  assert (Z.log2 (Zpos m) ≤ 52) as H52 by lia.
  assert (2 ^ Z.succ (Z.log2 (Zpos m)) ≤ 2 ^ 53) by (apply Z.pow_le_mono_r; lia).
  split_and!; [lia..|]. destruct (decide (Z.log2 (Zpos m) = 52)) as [E|]; [left; rewrite E in Hlo; lia|right; lia].
Qed.

(** Reading back the bits of a double. *)
Lemma double_bits_roundtrip d : valid_binary 53 1024 d = true → double_of_bits (double_to_bits d) = d.
Proof.
  destruct d as [s|s| |s m e]; [by destruct s|by destruct s|done|].
  intros H. apply valid_digits in H as (Hm & He & Hn). unfold double_of_bits, double_to_bits.
  set (x := if Zpos m <? 2 ^ 52 then Zpos m else (e + 1075) * 2 ^ 52 + (Zpos m - 2 ^ 52)).
  assert (0 ≤ x < 2 ^ 63) as Hx by (unfold x; case_match; lia).
  assert ((2 ^ 63 <=? (if s then 2 ^ 63 else 0) + x) = s) as -> by (destruct s; lia).
  assert (((if s then 2 ^ 63 else 0) + x) `mod` 2 ^ 63 = x) as ->.
  { destruct s; [|by apply Z.mod_small]. rewrite Z.add_mod, Z.mod_same, Z.add_0_l, Z.mod_mod by lia.
    by apply Z.mod_small. }
  unfold x. destruct (Z.ltb_spec (Zpos m) (2 ^ 52)) as [Hs|Hs].
  - rewrite Z.div_small, Z.mod_small by lia. simpl. by destruct Hn as [?| ->]; [lia|].
  - rewrite Z.add_comm, Z.div_add, Z.mod_add, Z.div_small, Z.mod_small by lia.
    rewrite Z.add_0_l, Z.sub_add.
    destruct (Z.eqb_spec (e + 1075) 0); [lia|]. destruct (Z.eqb_spec (e + 1075) 2047); [lia|].
    f_equal. lia.
Qed.
