(* ===== verification/Rounding.v ===== *)
(** * The rounding of doubles

    Products and quotients of doubles exceed the exact ones by less than one part in 2^52;
    integers below 2^53 are exact. *)

From S2P Require Import Prelude Double.

Local Open Scope Z_scope.

Lemma shr_1_m r : 0 ≤ shr_m r → shr_m (shr_1 r) = shr_m r `div` 2.
Proof.
  destruct r as [m b s]; cbn [shr_m]. destruct m as [|[p|p|]|p]; intros H; cbn; try done; try lia.
  - rewrite Pos2Z.inj_xI, Z.add_comm, Z.mul_comm, Z.div_add by lia. done.
  - rewrite Pos2Z.inj_xO, Z.mul_comm, Z.div_mul by lia. done.
Qed.

Lemma shr_iter p r : 0 ≤ shr_m r → shr_m (iter_pos shr_1 p r) = shr_m r `div` 2 ^ Zpos p.
Proof.
  assert (∀ p r, iter_pos shr_1 p r = Pos.iter shr_1 r p) as E.
  { clear. induction p as [p IH|p IH|]; intros r; cbn [iter_pos]; [| |done].
    - rewrite !IH. cbn [Pos.iter]. by rewrite <- !Pos.iter_swap.
    - rewrite !IH. by cbn [Pos.iter]. }
  intros Hr. rewrite E. clear E. revert r Hr. induction p as [|p IH] using Pos.peano_ind; intros r Hr.
  - cbn. by rewrite shr_1_m.
  - rewrite Pos.iter_succ, Pos2Z.inj_succ, Z.pow_succ_r by lia. rewrite shr_1_m; rewrite IH by done.
    + by rewrite Z.div_div, Z.mul_comm by lia.
    + apply Z.div_pos; lia.
Qed.

Lemma shr_record_m m l : shr_m (shr_record_of_loc m l) = m.
Proof. by destruct l as [|[]]. Qed.

(** A mantissa of more than 53 digits loses the last [k] of them. *)
Lemma shr_fexp_spec m e l k : 0 < m → Z.log2 m = 52 + k → 0 ≤ k → -1074 ≤ e →
  ∃ r, shr_fexp 53 1024 m e l = (r, e + k) ∧ shr_m r = m `div` 2 ^ k ∧ (k = 0 → r = shr_record_of_loc m l).
Proof.
  intros Hm Hl Hk He. unfold shr_fexp, fexp. change (SpecFloat.emin 53 1024) with (-1074).
  assert (Zdigits2 m = 53 + k) as -> by (destruct m as [|p|p]; [lia| |lia]; cbn [Zdigits2]; rewrite digits2_log2; lia).
  replace (Z.max (53 + k + e - 53) (-1074) - e) with k by lia.
  destruct k as [|p|p]; [| |lia]; cbn [shr].
  - eexists. split; [by rewrite Z.add_0_r|]. rewrite shr_record_m, Z.pow_0_r, Z.div_1_r. done.
  - eexists. split; [done|]. split; [|done]. by rewrite shr_iter, shr_record_m by (rewrite shr_record_m; lia).
Qed.

Lemma round_cases m l : round_nearest_even m l = m ∨ round_nearest_even m l = m + 1.
Proof. destruct l as [|[]]; cbn; auto. case_match; auto. Qed.

(** What an exact result of at least 53 digits is rounded to. *)
Lemma round_spec m e l : 2 ^ 52 ≤ m → -1074 ≤ e → ∃ (M : positive) E,
  binary_round_aux 53 1024 false m e l = (if E <=? 971 then S754_finite false M E else S754_infinity false) ∧
  2 ^ 52 ≤ Zpos M ∧ e ≤ E ∧ 2 ^ 52 * (Zpos M * 2 ^ (E - e)) ≤ (2 ^ 52 + 1) * m.
Proof.
  intros Hm He. set (k := Z.log2 m - 52).
  assert (0 ≤ k) as Hk. { unfold k. pose proof (Z.log2_le_mono (2 ^ 52) m Hm) as H. change (Z.log2 (2 ^ 52)) with 52 in H. lia. }
  destruct (shr_fexp_spec m e l k) as (r & E1 & Er & _); [lia|unfold k; lia|done..|].
  unfold binary_round_aux. rewrite E1, Er. set (m1 := m `div` 2 ^ k).
  pose proof (Z.log2_spec m ltac:(lia)) as [Hlo Hhi]. pose proof (Z.pow_pos_nonneg 2 k ltac:(lia) Hk) as Hpow.
  assert (2 ^ 52 ≤ m1 < 2 ^ 53) as Hm1.
  { replace (Z.log2 m) with (52 + k) in Hlo, Hhi by (unfold k; lia). rewrite <- Z.add_succ_l in Hhi.
    rewrite Z.pow_add_r in Hlo, Hhi by lia. unfold m1. split; [apply Z.div_le_lower_bound; lia|apply Z.div_lt_upper_bound; lia]. }
  assert (m1 * 2 ^ k ≤ m) as Hexact by (pose proof (Z.mul_div_le m (2 ^ k) Hpow); unfold m1; lia).
  set (r1 := round_nearest_even m1 _). assert (m1 ≤ r1 ≤ m1 + 1) as Hr1 by (unfold r1; destruct (round_cases m1 (loc_of_shr_record r)); lia).
  destruct (decide (r1 = 2 ^ 53)) as [E53|N53].
  - destruct (shr_fexp_spec r1 (e + k) loc_Exact 1) as (r' & E2 & Er' & _); [lia|by rewrite E53|lia|lia|].
    rewrite E2, Er', E53. change (2 ^ 53 `div` 2 ^ 1) with (Zpos (2 ^ 52)).
    exists (2 ^ 52)%positive, (e + k + 1). change (1024 - 53) with 971. split; [done|]. split; [lia|]. split; [lia|].
    replace (e + k + 1 - e) with (k + 1) by lia. rewrite Z.pow_add_r by lia. nia.
  - assert (Z.log2 r1 = 52 + 0) as El by (apply Z.log2_unique; lia).
    destruct (shr_fexp_spec r1 (e + k) loc_Exact 0) as (r' & E2 & Er' & _); [lia|done|lia|lia|].
    rewrite E2, Er'. rewrite Z.pow_0_r, Z.div_1_r. destruct r1 as [|M|M] eqn:EM; [lia| |lia].
    exists M, (e + k). rewrite Z.add_0_r. change (1024 - 53) with 971. split; [done|]. split; [lia|]. split; [lia|].
    replace (e + k - e) with k by lia. nia.
Qed.

(** ** Integers *)

Lemma iter_xO m d : Zpos (Pos.iter xO m d) = Zpos m * 2 ^ Zpos d.
Proof.
  induction d as [|d IH] using Pos.peano_ind; [by rewrite Z.pow_1_r, Pos2Z.inj_xO, Z.mul_comm|].
  rewrite Pos.iter_succ, Pos2Z.inj_xO, IH, Pos2Z.inj_succ, Z.pow_succ_r by lia. lia.
Qed.

(** A mantissa of 53 digits that is exact is kept. *)
Lemma round_exact M e : 2 ^ 52 ≤ Zpos M < 2 ^ 53 → -1074 ≤ e ≤ 971 →
  binary_round_aux 53 1024 false (Zpos M) e loc_Exact = S754_finite false M e.
Proof.
  intros HM He. assert (Z.log2 (Zpos M) = 52 + 0) as El by (apply Z.log2_unique; lia).
  destruct (shr_fexp_spec (Zpos M) e loc_Exact 0) as (r & E & Er & E0); [lia|done|lia|lia|].
  unfold binary_round_aux. rewrite E, (E0 eq_refl), Z.add_0_r. cbn [shr_record_of_loc shr_m loc_of_shr_record round_nearest_even].
  rewrite E, Z.add_0_r, (E0 eq_refl). cbn [shr_record_of_loc shr_m]. change (1024 - 53) with 971.
  by rewrite (proj2 (Z.leb_le _ _)) by lia.
Qed.

(** [a] is how far the mantissa of the integer is shifted. *)
Lemma double_of_pos z : 0 < z < 2 ^ 53 → ∃ M a,
  double_of_int z = S754_finite false M (- a) ∧ 0 ≤ a ≤ 52 ∧ Zpos M = z * 2 ^ a ∧ 2 ^ 52 ≤ Zpos M < 2 ^ 53.
Proof.
  intros Hz. destruct z as [|m|m]; [lia| |lia]. set (a := 52 - Z.log2 (Zpos m)).
  pose proof (Z.log2_spec (Zpos m) ltac:(lia)) as [Hlo Hhi].
  assert (Z.log2 (Zpos m) < 53) as H53 by (apply Z.log2_lt_pow2; lia).
  pose proof (Z.log2_nonneg (Zpos m)). assert (0 ≤ a ≤ 52) as Ha by (unfold a; lia).
  assert (2 ^ 52 ≤ Zpos m * 2 ^ a < 2 ^ 53) as HM.
  { replace (2 ^ 52) with (2 ^ Z.log2 (Zpos m) * 2 ^ a) by (rewrite <- Z.pow_add_r by lia; f_equal; unfold a; lia).
    replace (2 ^ 53) with (2 ^ Z.succ (Z.log2 (Zpos m)) * 2 ^ a) by (rewrite <- Z.pow_add_r by lia; f_equal; unfold a; lia).
    pose proof (Z.pow_pos_nonneg 2 a ltac:(lia) ltac:(lia)). nia. }
  unfold double_of_int, binary_normalize, binary_round, shl_align.
  replace (fexp 53 1024 (Zpos (digits2_pos m) + 0)) with (- a).
  2: { unfold fexp. rewrite digits2_log2. change (SpecFloat.emin 53 1024) with (-1074). unfold a. lia. }
  rewrite Z.sub_0_r. clearbody a. destruct a as [|p|p]; [| |lia].
  - exists m, 0. change (- 0) with 0. cbv iota beta. rewrite Z.pow_0_r, Z.mul_1_r in HM. rewrite round_exact by lia. split_and!; lia || done.
  - exists (Pos.iter xO m p), (Zpos p). change (- Zpos p) with (Zneg p). cbv iota beta.
    rewrite round_exact by (rewrite ?iter_xO; lia). rewrite iter_xO. split_and!; lia || done.
Qed.

(** ** Quotients and products *)

(** The value of a double in units of 2^-2000. *)
Definition units (M : positive) (E : Z) : Z := Zpos M * 2 ^ (E + 2000).

Definition eps_den : Z := 2 ^ 52.

Lemma ratio_bound cur orig : 0 < cur → cur < orig → orig < 2 ^ 50 → ∃ M E,
  double_div (double_of_int cur) (double_of_int orig) = S754_finite false M E ∧
  double_ltb (S754_finite false M E) (double_of_int 1) = true ∧ 2 ^ 52 ≤ Zpos M ∧ -500 ≤ E ∧
  eps_den * units M E * orig ≤ (eps_den + 1) * cur * 2 ^ 2000.
Proof.
  intros Hc Hlt Ho. destruct (double_of_pos cur) as (M1 & a & -> & Ha & E1 & R1); [lia|].
  destruct (double_of_pos orig) as (M2 & b & -> & Hb & E2 & R2); [lia|].
  unfold double_div, SFdiv, SFdiv_core_binary. cbn [Zdigits2 xorb]. rewrite !digits2_log2.
  rewrite (Z.log2_unique (Zpos M1) 52), (Z.log2_unique (Zpos M2) 52) by lia.
  unfold fexp. change (SpecFloat.emin 53 1024) with (-1074).
  replace (Z.max (52 + 1 + - a - (52 + 1 + - b) - 53) (-1074) `min` (- a - - b)) with (b - a - 53) by lia.
  replace (- a - - b - (b - a - 53)) with 53 by lia. rewrite Z.shiftl_mul_pow2 by lia.
  pose proof (Z.div_eucl_eq (Zpos M1 * 2 ^ 53) (Zpos M2) ltac:(lia)) as Hq.
  pose proof (Z.mod_pos_bound (Zpos M1 * 2 ^ 53) (Zpos M2) ltac:(lia)) as Hr. unfold Z.modulo in Hr.
  destruct (Z.div_eucl (Zpos M1 * 2 ^ 53) (Zpos M2)) as [q r]. cbn zeta iota beta.
  assert (2 ^ 52 ≤ q) as Hq52 by nia.
  destruct (round_spec q (b - a - 53) (new_location (Zpos M2) r)) as (M & E & ER & HM & HE & Hb2); [done|lia|].
  set (A := 2 ^ (E - (b - a - 53))) in *. assert (0 < A) as HA by (apply Z.pow_pos_nonneg; lia).
  assert (units M E = Zpos M * A * 2 ^ (b - a - 53 + 2000)) as Hu.
  { unfold units, A. rewrite <- Z.mul_assoc, <- Z.pow_add_r by lia. do 2 f_equal. lia. }
  assert (eps_den * units M E * orig ≤ (eps_den + 1) * cur * 2 ^ 2000) as Hbound.
  { rewrite Hu. unfold eps_den.
    assert (2 ^ a * 2 ^ 53 * 2 ^ (b - a - 53 + 2000) = 2 ^ b * 2 ^ 2000) as Hexp
      by (rewrite <- !Z.pow_add_r by lia; f_equal; lia).
    pose proof (Z.pow_pos_nonneg 2 b ltac:(lia) ltac:(lia)).
    assert (0 < 2 ^ (b - a - 53 + 2000)) as HW by (apply Z.pow_pos_nonneg; lia).
    set (W := 2 ^ (b - a - 53 + 2000)) in *. set (K := 2 ^ 2000) in *. clearbody W K A.
    apply (Z.mul_le_mono_pos_r _ _ (2 ^ b)); [lia|].
    assert (0 ≤ orig * 2 ^ b * W) as HW' by (apply Z.mul_nonneg_nonneg; nia).
    pose proof (Z.mul_le_mono_nonneg_r _ _ _ HW' Hb2) as B1.
    assert ((2 ^ 52 + 1) * W * (q * Zpos M2) ≤ (2 ^ 52 + 1) * W * (Zpos M1 * 2 ^ 53)) as B2
      by (apply Z.mul_le_mono_nonneg_l; lia).
    rewrite E1, E2 in B2. apply (f_equal (Z.mul ((2 ^ 52 + 1) * cur))) in Hexp. lia. }
  assert (E < -52) as Hsmall.
  { apply Z.nle_gt. intros Hge. assert (2 ^ 1948 ≤ 2 ^ (E + 2000)) as Hp by (apply Z.pow_le_mono_r; lia).
    assert (2 ^ 2000 ≤ units M E) as HU.
    { unfold units. change (2 ^ 2000) with (2 ^ (52 + 1948)). rewrite Z.pow_add_r by lia.
      apply Z.mul_le_mono_nonneg; [lia|lia|apply Z.pow_nonneg; lia|done]. }
    assert (0 < 2 ^ 2000) by (apply Z.pow_pos_nonneg; lia). set (K := 2 ^ 2000) in *. clearbody K. unfold eps_den in *. nia. }
  exists M, E. rewrite ER, (proj2 (Z.leb_le E 971)) by lia. split_and!; [done| |done|lia|done].
  unfold double_ltb, SFltb. replace (double_of_int 1) with (S754_finite false (2 ^ 52)%positive (-52)) by reflexivity.
  unfold SFcompare. by rewrite (proj2 (Z.compare_lt_iff _ _)).
Qed.

Lemma product_bound z M E v : 0 < z < 2 ^ 53 → 2 ^ 52 ≤ Zpos M → -500 ≤ E →
  double_to_int (double_mul (double_of_int z) (S754_finite false M E)) = Some v →
  0 ≤ v ∧ eps_den * (v * 2 ^ 2000) ≤ (eps_den + 1) * (z * units M E).
Proof.
  intros Hz HM HE. destruct (double_of_pos z) as (D & a & -> & Ha & ED & RD); [done|].
  unfold double_mul, SFmul. cbn [xorb].
  destruct (round_spec (Zpos (D * M)) (- a + E) loc_Exact) as (P & F & -> & HP & HF & HB); [lia|lia|].
  destruct (F <=? 971); [|done]. set (A := 2 ^ (F - (- a + E))) in *.
  assert (0 ≤ v ∧ v * 2 ^ 2000 ≤ units P F → 0 ≤ v ∧ eps_den * (v * 2 ^ 2000) ≤ (eps_den + 1) * (z * units M E)) as Hred.
  { intros [Hv HU]. split; [done|]. unfold eps_den.
    assert (units P F = Zpos P * A * 2 ^ (- a + E + 2000)) as EP.
    { unfold units, A. rewrite <- Z.mul_assoc, <- Z.pow_add_r by lia. do 2 f_equal. lia. }
    assert (z * units M E = Zpos (D * M) * 2 ^ (- a + E + 2000)) as EM.
    { unfold units. rewrite Pos2Z.inj_mul, ED. replace (E + 2000) with (a + (- a + E + 2000)) by lia.
      rewrite Z.pow_add_r by lia. lia. }
    rewrite EM. transitivity (2 ^ 52 * units P F); [lia|]. rewrite EP.
    assert (0 ≤ 2 ^ (- a + E + 2000)) as HW by (apply Z.pow_nonneg; lia).
    pose proof (Z.mul_le_mono_nonneg_r _ _ _ HW HB). lia. }
  cbn [double_to_int]. intros [= <-]. apply Hred. unfold units. destruct (Z.leb_spec 0 F).
  - split; [apply Z.mul_nonneg_nonneg; [lia|apply Z.pow_nonneg; lia]|]. rewrite Z.pow_add_r by lia. lia.
  - assert (0 < 2 ^ (- F)) as HpF by (apply Z.pow_pos_nonneg; lia). split; [apply Z.div_pos; lia|].
    replace (2 ^ 2000) with (2 ^ (- F) * 2 ^ (F + 2000)) by (rewrite <- Z.pow_add_r by lia; f_equal; lia).
    assert (0 ≤ 2 ^ (F + 2000)) as HW by (apply Z.pow_nonneg; lia).
    pose proof (Z.mul_div_le (Zpos P) (2 ^ (- F)) HpF). rewrite Z.mul_assoc. apply Z.mul_le_mono_nonneg_r; lia.
Qed.

(** [b] scaled by the ratio of [cur] to [orig], both rounded. *)
Lemma scaled_bound b cur orig v :
  0 ≤ b < 2 ^ 50 → 0 ≤ cur < orig → orig < 2 ^ 50 →
  let ratio := double_div (double_of_int cur) (double_of_int orig) in
  let scale := if double_ltb ratio (double_of_int 1) then ratio else double_of_int 1 in
  double_to_int (double_mul (double_of_int b) scale) = Some v →
  0 ≤ v ∧ v * (eps_den * eps_den) * orig ≤ (eps_den + 1) * (eps_den + 1) * b * cur.
Proof.
  intros Hb Hc Ho ratio scale. destruct (decide (cur = 0)) as [->|Hc0].
  { assert (scale = S754_zero false) as ->.
    { unfold scale, ratio. destruct (double_of_pos orig) as (M & a & -> & _); [lia|]. reflexivity. }
    intros H. assert (v = 0) as ->; [|lia]. destruct (decide (b = 0)) as [->|Hb0]; [cbn in H; congruence|].
    destruct (double_of_pos b) as (M & a & E & _); [lia|]. rewrite E in H. cbn in H. congruence. }
  destruct (ratio_bound cur orig) as (M & E & ER & El & HM & HE & HB); [lia..|].
  unfold scale, ratio. rewrite ER, El. clear scale ratio ER El. destruct (decide (b = 0)) as [->|Hb0].
  { cbn. intros [= <-]. lia. }
  intros H. apply product_bound in H as [Hv H]; [|lia|done|done]. split; [done|].
  assert (0 < 2 ^ 2000) as HK by (apply Z.pow_pos_nonneg; lia). set (K := 2 ^ 2000) in *.
  set (U := units M E) in *. clearbody K U. unfold eps_den in *. set (B := 2 ^ 52) in *.
  assert (0 < B) as HBpos by (by unfold B). clearbody B.
  apply (Z.mul_le_mono_pos_r _ _ K); [done|].
  assert (B * (v * K) * (B * orig) ≤ (B + 1) * (b * U) * (B * orig)) as S1 by (apply Z.mul_le_mono_nonneg_r; nia).
  assert ((B + 1) * b * (B * U * orig) ≤ (B + 1) * b * ((B + 1) * cur * K)) as S2 by (apply Z.mul_le_mono_nonneg_l; nia).
  lia.
Qed.

(** No more than [b] itself. *)
Lemma scaled_le b cur orig v : 0 ≤ b < 2 ^ 50 → 0 ≤ cur < orig → orig < 2 ^ 50 →
  v * (eps_den * eps_den) * orig ≤ (eps_den + 1) * (eps_den + 1) * b * cur → v ≤ b.
Proof.
  intros Hb Hc Ho H. apply Z.nlt_ge. intros Hlt. unfold eps_den in *.
  assert ((b + 1) * (2 ^ 52 * 2 ^ 52) * orig ≤ v * (2 ^ 52 * 2 ^ 52) * orig) as H1
    by (apply Z.mul_le_mono_nonneg_r; [lia|]; apply Z.mul_le_mono_nonneg_r; lia).
  assert ((2 ^ 52 + 1) * (2 ^ 52 + 1) * b * cur ≤ (2 ^ 52 + 1) * (2 ^ 52 + 1) * b * orig) as H2
    by (apply Z.mul_le_mono_nonneg_l; nia).
  assert ((b + 1) * (2 ^ 52 * 2 ^ 52) ≤ (2 ^ 52 + 1) * (2 ^ 52 + 1) * b) as H3
    by (apply (Z.mul_le_mono_pos_r _ _ orig); lia).
  lia.
Qed.

(** The parts together. *)
Lemma scaled_sum cur orig s : 0 ≤ cur < orig → orig < 2 ^ 50 → 
  s * (eps_den * eps_den) * orig ≤ (eps_den + 1) * (eps_den + 1) * orig * cur → s ≤ cur.
Proof.
  intros Hc Ho H. apply Z.nlt_ge. intros Hlt. unfold eps_den in *.
  assert (s * (2 ^ 52 * 2 ^ 52) ≤ (2 ^ 52 + 1) * (2 ^ 52 + 1) * cur) by (apply (Z.mul_le_mono_pos_r _ _ orig); lia).
  lia.
Qed.
