(* ===== verification/Deque.v ===== *)
(** * Double-ended queues: libobs/util/deque.h

    The ring buffer on its memory: cells that hold a byte or, after an allocation, nothing
    defined. [None] as a result is undefined behaviour or a failed [assert]. The theorem
    is that it implements a list of bytes. *)

From S2P Require Import Prelude.

Local Open Scope Z_scope.

(** ** Memory *)

(** A byte of an allocation; [None] until something is stored in it. *)
Abbreviation cell := (option Z).

(** [memcpy], [memmove] and [memset] at an offset of a block, and reading from it. *)
Definition store (mem : list cell) (off : Z) (src : list cell) : option (list cell) :=
  if (off <? 0) || (zlen mem <? off + zlen src) then None else Some (splice off src mem).

Definition load (mem : list cell) (off n : Z) : option (list cell) :=
  if (off <? 0) || (n <? 0) || (zlen mem <? off + n) then None else Some (sub off n mem).

(** Bytes as the cells that hold them. *)
Definition stored (l : bytes) : list cell := Some <$> l.

(** [brealloc] to a larger size. *)
Definition brealloc (mem : list cell) (n : Z) : list cell :=
  mem ++ replicate (Z.to_nat (n - zlen mem)) None.

Definition zeros (n : Z) : list cell := replicate (Z.to_nat n) (Some 0).

(** ** The structure and its operations *)

Record deque := mk_deque {
  dq_data : list cell; dq_size : Z; dq_start_pos : Z; dq_end_pos : Z; dq_capacity : Z
}.

Definition dq_set_size (dq : deque) (n : Z) : deque :=
  mk_deque (dq_data dq) n (dq_start_pos dq) (dq_end_pos dq) (dq_capacity dq).
Definition dq_set_end (dq : deque) (mem : list cell) (e : Z) : deque :=
  mk_deque mem (dq_size dq) (dq_start_pos dq) e (dq_capacity dq).
Definition dq_set_start (dq : deque) (mem : list cell) (s : Z) : deque :=
  mk_deque mem (dq_size dq) s (dq_end_pos dq) (dq_capacity dq).

Definition deque_init : deque := mk_deque [] 0 0 0 0.

Definition deque_reorder_data (dq : deque) (new_capacity : Z) : option deque :=
  if (dq_size dq =? 0) || (dq_start_pos dq =? 0) || (dq_start_pos dq <? dq_end_pos dq) then Some dq else
  let difference := u64 (new_capacity - dq_capacity dq) in
  data ← load (dq_data dq) (dq_start_pos dq) (u64 (dq_capacity dq - dq_start_pos dq));
  mem ← store (dq_data dq) (dq_start_pos dq + difference) data;
  Some (dq_set_start dq mem (u64 (dq_start_pos dq + difference))).

(** The reallocation both functions below end with. *)
Definition deque_grow (dq : deque) (new_capacity : Z) : option deque :=
  let dq := dq_set_end dq (brealloc (dq_data dq) new_capacity) (dq_end_pos dq) in
  dq ← deque_reorder_data dq new_capacity;
  Some (mk_deque (dq_data dq) (dq_size dq) (dq_start_pos dq) (dq_end_pos dq) new_capacity).

Definition deque_ensure_capacity (dq : deque) : option deque :=
  if dq_size dq <=? dq_capacity dq then Some dq else
  let new_capacity := u64 (dq_capacity dq * 2) in
  let new_capacity := if new_capacity <? dq_size dq then dq_size dq else new_capacity in
  deque_grow dq new_capacity.

Definition deque_reserve (dq : deque) (capacity : Z) : option deque :=
  if capacity <=? dq_capacity dq then Some dq else deque_grow dq capacity.

(** [src] copied to the end position, in two parts when it reaches the end of the block;
    [new_end_pos] is the end position before that. *)
Definition store_back (dq : deque) (src : list cell) (new_end_pos : Z) : option deque :=
  if dq_capacity dq <? new_end_pos then
    let back_size := u64 (dq_capacity dq - dq_end_pos dq) in
    let loop_size := u64 (zlen src - back_size) in
    mem ← store (dq_data dq) (dq_end_pos dq) (sub 0 back_size src);
    mem ← store mem 0 (sub back_size loop_size src);
    Some (dq_set_end dq mem (u64 (new_end_pos - dq_capacity dq)))
  else
    mem ← store (dq_data dq) (dq_end_pos dq) src;
    Some (dq_set_end dq mem new_end_pos).

Definition deque_upsize (dq : deque) (size : Z) : option deque :=
  let add_size := u64 (size - dq_size dq) in
  let new_end_pos := u64 (dq_end_pos dq + add_size) in
  if size <=? dq_size dq then Some dq else
  dq ← deque_ensure_capacity (dq_set_size dq size);
  store_back dq (zeros add_size) new_end_pos.

Definition deque_place (dq : deque) (position : Z) (data : list cell) : option deque :=
  let size := zlen data in
  let end_point := u64 (position + size) in
  dq ← (if dq_size dq <? end_point then deque_upsize dq end_point else Some dq);
  let position := u64 (position + dq_start_pos dq) in
  let position := if dq_capacity dq <=? position then position - dq_capacity dq else position in
  let data_end_pos := u64 (position + size) in
  if dq_capacity dq <? data_end_pos then
    let back_size := u64 (data_end_pos - dq_capacity dq) in
    let loop_size := u64 (size - back_size) in
    mem ← store (dq_data dq) position (sub 0 loop_size data);
    mem ← store mem 0 (sub loop_size back_size data);
    Some (dq_set_end dq mem (dq_end_pos dq))
  else
    mem ← store (dq_data dq) position data;
    Some (dq_set_end dq mem (dq_end_pos dq)).

(** [data] is what is copied, or the zeros of the [_zero] variant. *)
Definition push_back_cells (dq : deque) (data : list cell) : option deque :=
  let size := zlen data in
  let new_end_pos := u64 (dq_end_pos dq + size) in
  dq ← deque_ensure_capacity (dq_set_size dq (u64 (dq_size dq + size)));
  store_back dq data new_end_pos.

Definition push_front_cells (dq : deque) (data : list cell) : option deque :=
  let size := zlen data in
  dq ← deque_ensure_capacity (dq_set_size dq (u64 (dq_size dq + size)));
  if dq_size dq =? size then
    mem ← store (dq_data dq) 0 data;
    Some (mk_deque mem (dq_size dq) 0 size (dq_capacity dq))
  else if dq_start_pos dq <? size then
    let back_size := u64 (size - dq_start_pos dq) in
    mem ← (if negb (dq_start_pos dq =? 0)
           then store (dq_data dq) 0 (sub back_size (dq_start_pos dq) data) else Some (dq_data dq));
    let start_pos := u64 (dq_capacity dq - back_size) in
    mem ← store mem start_pos (sub 0 back_size data);
    Some (dq_set_start dq mem start_pos)
  else
    let start_pos := u64 (dq_start_pos dq - size) in
    mem ← store (dq_data dq) start_pos data;
    Some (dq_set_start dq mem start_pos).

Definition deque_push_back (dq : deque) (data : bytes) := push_back_cells dq (Some <$> data).
Definition deque_push_back_zero (dq : deque) (size : Z) := push_back_cells dq (zeros size).
Definition deque_push_front (dq : deque) (data : bytes) := push_front_cells dq (Some <$> data).
Definition deque_push_front_zero (dq : deque) (size : Z) := push_front_cells dq (zeros size).

(** What is copied to [data]; nothing when it is null. *)
Definition deque_peek_front (dq : deque) (data : bool) (size : Z) : option (list cell) :=
  if dq_size dq <? size then None else
  if negb data then Some [] else
  let start_size := u64 (dq_capacity dq - dq_start_pos dq) in
  if start_size <? size then
    head ← load (dq_data dq) (dq_start_pos dq) start_size;
    tail ← load (dq_data dq) 0 (size - start_size);
    Some (head ++ tail)
  else load (dq_data dq) (dq_start_pos dq) size.

Definition deque_peek_back (dq : deque) (data : bool) (size : Z) : option (list cell) :=
  if dq_size dq <? size then None else
  if negb data then Some [] else
  let back_size := if negb (dq_end_pos dq =? 0) then dq_end_pos dq else dq_capacity dq in
  if back_size <? size then
    let front_size := u64 (size - back_size) in
    let new_end_pos := u64 (dq_capacity dq - front_size) in
    tail ← load (dq_data dq) 0 back_size;
    head ← load (dq_data dq) new_end_pos front_size;
    Some (head ++ tail)
  else load (dq_data dq) (dq_end_pos dq - size) size.

Definition deque_pop_front (dq : deque) (data : bool) (size : Z) : option (list cell * deque) :=
  out ← deque_peek_front dq data size;
  let left := u64 (dq_size dq - size) in
  if left =? 0 then Some (out, mk_deque (dq_data dq) 0 0 0 (dq_capacity dq)) else
  let start_pos := u64 (dq_start_pos dq + size) in
  let start_pos := if dq_capacity dq <=? start_pos then start_pos - dq_capacity dq else start_pos in
  Some (out, mk_deque (dq_data dq) left start_pos (dq_end_pos dq) (dq_capacity dq)).

Definition deque_pop_back (dq : deque) (data : bool) (size : Z) : option (list cell * deque) :=
  out ← deque_peek_back dq data size;
  let left := u64 (dq_size dq - size) in
  if left =? 0 then Some (out, mk_deque (dq_data dq) 0 0 0 (dq_capacity dq)) else
  let end_pos := if dq_end_pos dq <=? size then u64 (dq_capacity dq - (size - dq_end_pos dq))
                 else dq_end_pos dq - size in
  Some (out, mk_deque (dq_data dq) left (dq_start_pos dq) end_pos (dq_capacity dq)).

(** The offset of the pointer returned, if it is not null. *)
Definition deque_data (dq : deque) (idx : Z) : option Z :=
  let offset := u64 (dq_start_pos dq + idx) in
  if dq_size dq <=? idx then None
  else Some (if dq_capacity dq <=? offset then offset - dq_capacity dq else offset).

(** ** The list a queue holds *)

(** The bytes from the start position on, around the end of the block. *)
Definition contents (dq : deque) : list cell :=
  take (Z.to_nat (dq_size dq)) (drop (Z.to_nat (dq_start_pos dq)) (dq_data dq) ++ dq_data dq).

(** Lookup at an integer index. *)
Definition zget {A} (l : list A) (k : Z) : option A := if 0 <=? k then l !! Z.to_nat k else None.

Section zget.
Context {A : Type}.
Implicit Types (l : list A) (k n : Z).

Lemma zget_nat l k : 0 ≤ k → zget l k = l !! Z.to_nat k.
Proof. intros. unfold zget. by rewrite (proj2 (Z.leb_le _ _)). Qed.

Lemma zget_app l1 l2 k : zget (l1 ++ l2) k = if decide (k < zlen l1) then zget l1 k else zget l2 (k - zlen l1).
Proof.
  unfold zget, zlen. case_decide; destruct (Z.leb_spec 0 k); try rewrite (proj2 (Z.leb_le 0 (k - _))) by lia.
  - apply lookup_app_l. lia.
  - done.
  - rewrite lookup_app_r by lia. f_equal. lia.
  - lia.
Qed.

Lemma zget_take l n k : zget (take (Z.to_nat n) l) k = if decide (k < n) then zget l k else None.
Proof.
  unfold zget. destruct (Z.leb_spec 0 k); [|by case_decide].
  rewrite lookup_take. repeat case_decide; done || lia.
Qed.

Lemma zget_drop l n k : 0 ≤ n → 0 ≤ k → zget (drop (Z.to_nat n) l) k = zget l (n + k).
Proof. intros. rewrite !zget_nat, lookup_drop by lia. f_equal. lia. Qed.

Lemma zget_sub l off n k : 0 ≤ off → 0 ≤ k → zget (sub off n l) k = if decide (k < n) then zget l (off + k) else None.
Proof. intros. unfold sub. rewrite zget_take. case_decide; [|done]. by apply zget_drop. Qed.

Lemma zget_splice l m off k : 0 ≤ off → off + zlen m ≤ zlen l → 0 ≤ k →
  zget (splice off m l) k = if decide (off ≤ k < off + zlen m) then zget m (k - off) else zget l k.
Proof.
  intros Ho Hl Hk. unfold splice. rewrite !zget_app, zlen_take.
  replace (Z.min (Z.of_nat (Z.to_nat off)) (zlen l)) with off by len_lia.
  repeat case_decide; try lia.
  - rewrite zget_take. by case_decide; [|lia].
  - done.
  - rewrite zget_drop by len_lia. f_equal. lia.
Qed.

Lemma zget_replicate (x : A) n k : 0 ≤ k < n → zget (replicate (Z.to_nat n) x) k = Some x.
Proof. intros. rewrite zget_nat by lia. apply lookup_replicate_2. lia. Qed.

Lemma zget_ext l1 l2 : zlen l1 = zlen l2 → (∀ k, 0 ≤ k < zlen l1 → zget l1 k = zget l2 k) → l1 = l2.
Proof.
  intros Hl H. apply list_eq. intros i. unfold zlen in *.
  destruct (decide (i < length l1)%nat) as [|N].
  - specialize (H (Z.of_nat i) ltac:(lia)). rewrite !zget_nat, Nat2Z.id in H by lia. done.
  - rewrite !lookup_ge_None_2 by lia. done.
Qed.

Lemma splice_zlen l m off : 0 ≤ off → off + zlen m ≤ zlen l → zlen (splice off m l) = zlen l.
Proof. intros. unfold splice. len_lia. Qed.

Lemma sub_zlen l off n : 0 ≤ off → 0 ≤ n → off + n ≤ zlen l → zlen (sub off n l) = n.
Proof. intros. unfold sub. len_lia. Qed.
End zget.

(** An offset past the end of the block is counted from its start. *)
Definition wrap (capacity p : Z) : Z := if p <? capacity then p else p - capacity.

(** The most bytes a queue is used for: its capacity stays below twice that. *)
Definition max_size : Z := 2 ^ 62.

(** A queue that holds [l]. *)
Record holds (dq : deque) (l : list cell) : Prop := {
  h_size : dq_size dq = zlen l;
  h_fit : zlen l ≤ dq_capacity dq;
  h_max : zlen l ≤ max_size ∧ dq_capacity dq ≤ 2 * max_size;
  h_block : zlen (dq_data dq) = dq_capacity dq;
  h_start : 0 ≤ dq_start_pos dq ∧ (dq_start_pos dq = 0 ∨ dq_start_pos dq < dq_capacity dq ∧ zlen l ≠ 0);
  h_end : dq_end_pos dq = if dq_start_pos dq + zlen l <=? dq_capacity dq then dq_start_pos dq + zlen l
                          else dq_start_pos dq + zlen l - dq_capacity dq;
  h_at : ∀ k, 0 ≤ k < zlen l → zget (dq_data dq) (wrap (dq_capacity dq) (dq_start_pos dq + k)) = zget l k
}.

Lemma holds_contents dq l : holds dq l → contents dq = l.
Proof.
  intros [Hs Hf Hm Hb Hst He Ha]. unfold contents. apply zget_ext.
  - rewrite zlen_take, zlen_app, zlen_drop. len_lia.
  - rewrite zlen_take, zlen_app, zlen_drop. intros k Hk. rewrite zget_take, zget_app, zlen_drop.
    rewrite <- Ha by lia. unfold wrap. case_decide; [|lia].
    destruct (Z.ltb_spec (dq_start_pos dq + k) (dq_capacity dq)); case_decide; try len_lia.
    + by rewrite zget_drop by lia.
    + f_equal. len_lia.
Qed.

Lemma store_ok mem off src : 0 ≤ off → off + zlen src ≤ zlen mem → store mem off src = Some (splice off src mem).
Proof. intros. unfold store. by rewrite (proj2 (Z.ltb_ge _ _)), (proj2 (Z.ltb_ge _ _)) by lia. Qed.

Lemma load_ok mem off n : 0 ≤ off → 0 ≤ n → off + n ≤ zlen mem → load mem off n = Some (sub off n mem).
Proof. intros. unfold load. by rewrite !(proj2 (Z.ltb_ge _ _)) by lia. Qed.

Ltac dq_cbn := cbn [dq_set_size dq_set_end dq_set_start dq_size dq_data dq_start_pos dq_end_pos dq_capacity].

(** [mem_cases]: the cell at an index, through the stores, with the cases on where it lies. *)
Ltac mem_cases :=
  repeat (case_decide || match goal with
    | |- context [?a <? ?b] => destruct (Z.ltb_spec a b)
    | |- context [?a <=? ?b] => destruct (Z.leb_spec a b)
    end).
Ltac mem_len := first [lia | len_lia].

Lemma grow_spec dq l s c : holds dq l → zlen l ≤ s → dq_capacity dq < c ≤ 2 * max_size →
  ∃ dq', deque_grow (dq_set_size dq s) c = Some (dq_set_size dq' s) ∧ holds dq' l ∧
    dq_capacity dq' = c ∧ dq_end_pos dq' = dq_end_pos dq.
Proof.
  intros [Hs Hf Hm Hb Hst He Ha] Hl Hc. unfold max_size in *. pose proof (zlen_nonneg l).
  assert (zlen (brealloc (dq_data dq) c) = c) as Hlen by (unfold brealloc; len_lia).
  assert (∀ k, 0 ≤ k < dq_capacity dq → zget (brealloc (dq_data dq) c) k = zget (dq_data dq) k) as Hold.
  { intros k Hk. unfold brealloc. rewrite zget_app. case_decide; [done|lia]. }
  unfold deque_grow, deque_reorder_data. cbn -[brealloc].
  set (mem := brealloc (dq_data dq) c) in *. clearbody mem.
  destruct (Z.eqb_spec s 0) as [|Ns], (Z.eqb_spec (dq_start_pos dq) 0) as [|Nst],
    (Z.ltb_spec (dq_start_pos dq) (dq_end_pos dq)) as [Hlt|Hge]; cbn [orb].
  8: {
    destruct (Z.leb_spec (dq_start_pos dq + zlen l) (dq_capacity dq)) as [|Hwrap]; [lia|].
    rewrite !(u64_small (_ - _)) by lia. rewrite load_ok by lia. cbn [mbind option_bind].
    rewrite store_ok by (rewrite ?sub_zlen; lia). cbn [mbind option_bind].
    rewrite u64_small by lia. set (p := dq_start_pos dq + (c - dq_capacity dq)) in *.
    set (d := sub (dq_start_pos dq) (dq_capacity dq - dq_start_pos dq) mem).
    assert (zlen d = dq_capacity dq - dq_start_pos dq) as Hd by (apply sub_zlen; lia).
    exists (mk_deque (splice p d mem) (zlen l) p (dq_end_pos dq) c). split; [reflexivity|]. split; [|done].
    constructor; dq_cbn; [done|lia|unfold max_size; lia|rewrite splice_zlen; lia|lia| |].
    - rewrite He. destruct (Z.leb_spec (p + zlen l) c); lia.
    - intros k Hk. rewrite zget_splice by (unfold wrap; mem_cases; lia).
      rewrite <- (Ha k Hk). unfold wrap. mem_cases; try lia.
      + unfold d. rewrite zget_sub by lia. case_decide; [|lia]. rewrite Hold by lia. f_equal. lia.
      + rewrite Hold by lia. f_equal. lia. }
  all: exists (mk_deque mem (zlen l) (dq_start_pos dq) (dq_end_pos dq) c); split; [reflexivity|]; split; [|done];
    constructor; dq_cbn;
    [done|lia|unfold max_size; lia|done|lia|
     revert He; mem_cases; intros; lia
    |intros k Hk; rewrite <- (Ha k Hk); revert He; unfold wrap; mem_cases; intros; try lia;
      rewrite Hold by lia; f_equal; lia].
Qed.

Lemma ensure_spec dq l s : holds dq l → zlen l ≤ s ≤ max_size →
  ∃ dq', deque_ensure_capacity (dq_set_size dq s) = Some (dq_set_size dq' s) ∧ holds dq' l ∧
    s ≤ dq_capacity dq' ∧ dq_end_pos dq' = dq_end_pos dq.
Proof.
  intros H Hs. pose proof H as [_ Hf Hm _ _ _ _]. pose proof (zlen_nonneg l).
  unfold deque_ensure_capacity, max_size in *. dq_cbn.
  destruct (Z.leb_spec s (dq_capacity dq)); [by exists dq|].
  rewrite u64_small by lia.
  destruct (Z.ltb_spec (dq_capacity dq * 2) s);
    [destruct (grow_spec dq l s s H) as (dq' & E & H' & Hc & He)
    |destruct (grow_spec dq l s (dq_capacity dq * 2) H) as (dq' & E & H' & Hc & He)];
    try (unfold max_size; lia); exists dq'; rewrite Hc; split_and!; done || lia.
Qed.

Lemma reserve_spec dq l c : holds dq l → c ≤ 2 * max_size →
  ∃ dq', deque_reserve dq c = Some dq' ∧ holds dq' l.
Proof.
  intros H Hc. unfold deque_reserve. destruct (Z.leb_spec c (dq_capacity dq)); [by exists dq|].
  destruct (grow_spec dq l (zlen l) c H) as (dq' & E & H' & _); [lia..|].
  exists dq'. rewrite <- (h_size dq' l H') in E. destruct dq', dq. cbn in E.
  pose proof (h_size _ _ H) as E1. pose proof (h_size _ _ H') as E2. cbn in E1, E2. by subst.
Qed.

Lemma store_back_spec dq l src : holds dq l → zlen l + zlen src ≤ dq_capacity dq → zlen l + zlen src ≤ max_size →
  ∃ dq', store_back (dq_set_size dq (zlen l + zlen src)) src (dq_end_pos dq + zlen src) = Some dq' ∧
    holds dq' (l ++ src).
Proof.
  intros [Hs Hf Hm Hb Hst He Ha] Hl Hmax. unfold store_back, max_size in *. dq_cbn.
  pose proof (zlen_nonneg l). pose proof (zlen_nonneg src).
  assert (0 ≤ dq_end_pos dq ≤ dq_capacity dq) as Hep by (rewrite He; mem_cases; lia).
  destruct (Z.ltb_spec (dq_capacity dq) (dq_end_pos dq + zlen src)) as [Hlt|Hge].
  - assert (dq_end_pos dq = dq_start_pos dq + zlen l) as He' by (rewrite He in *; revert Hlt; mem_cases; lia).
    rewrite !u64_small by lia.
    set (b := dq_capacity dq - dq_end_pos dq) in *.
    assert (zlen (sub 0 b src) = b) as Hd1 by (apply sub_zlen; lia).
    assert (zlen (sub b (zlen src - b) src) = zlen src - b) as Hd2 by (apply sub_zlen; lia).
    rewrite store_ok by lia. cbn [mbind option_bind].
    rewrite store_ok by (rewrite ?splice_zlen; lia). cbn [mbind option_bind]. eexists. split; [reflexivity|].
    constructor; dq_cbn; rewrite ?zlen_app; [lia|lia|unfold max_size; lia|rewrite !splice_zlen by (rewrite ?splice_zlen; lia); lia|lia|mem_cases; lia|].
    intros k Hk. unfold wrap. rewrite zget_splice by (rewrite ?splice_zlen; mem_cases; lia).
    rewrite zget_splice by (mem_cases; lia). rewrite zget_app, Hd1, Hd2.
    destruct (decide (k < zlen l)) as [Hkl|Hkl]; [rewrite <- Ha by lia; unfold wrap|]; mem_cases; try lia; try done.
    + rewrite zget_sub by lia. case_decide; [|lia]. f_equal. lia.
    + rewrite zget_sub by lia. case_decide; [|lia]. f_equal. lia.
  - rewrite store_ok by lia. cbn [mbind option_bind]. eexists. split; [reflexivity|].
    constructor; dq_cbn; rewrite ?zlen_app; [lia|lia|unfold max_size; lia|rewrite splice_zlen; lia|lia|rewrite He in *; revert Hge; mem_cases; lia|].
    intros k Hk. rewrite zget_splice by (unfold wrap; mem_cases; lia). rewrite zget_app.
    revert He. destruct (decide (k < zlen l)) as [Hkl|Hkl]; [rewrite <- Ha by lia|]; unfold wrap; mem_cases; intros; try lia; try done; f_equal; lia.
Qed.

(** The end position leaves room for the arithmetic on it. *)
Lemma holds_end dq l : holds dq l → 0 ≤ dq_end_pos dq ≤ dq_capacity dq.
Proof. intros [_ Hf _ _ Hst He _]. pose proof (zlen_nonneg l). rewrite He. mem_cases; lia. Qed.

Lemma zeros_zlen n : 0 ≤ n → zlen (zeros n) = n.
Proof. intros. unfold zeros. len_lia. Qed.

Lemma grow_store_back dq l src : holds dq l → zlen l + zlen src ≤ max_size →
  ∃ dq', (d ← deque_ensure_capacity (dq_set_size dq (zlen l + zlen src));
          store_back d src (u64 (dq_end_pos dq + zlen src))) = Some dq' ∧ holds dq' (l ++ src).
Proof.
  intros H Hm. pose proof (zlen_nonneg src). pose proof (zlen_nonneg l).
  destruct (ensure_spec dq l (zlen l + zlen src) H) as (d & E & Hd & Hc & He); [lia|].
  rewrite E. cbn [mbind option_bind]. pose proof (holds_end _ _ Hd). pose proof (h_max _ _ Hd).
  rewrite <- He, u64_small by (unfold max_size in *; lia). by apply store_back_spec.
Qed.

Lemma push_back_spec dq l src : holds dq l → zlen l + zlen src ≤ max_size →
  ∃ dq', push_back_cells dq src = Some dq' ∧ holds dq' (l ++ src).
Proof.
  intros H Hm. pose proof (zlen_nonneg src). pose proof (zlen_nonneg l). unfold push_back_cells.
  rewrite (h_size _ _ H), (u64_small (zlen l + _)) by (unfold max_size in *; lia).
  by apply grow_store_back.
Qed.

Lemma upsize_spec dq l n : holds dq l → 0 ≤ n ≤ max_size →
  ∃ dq', deque_upsize dq n = Some dq' ∧ holds dq' (l ++ zeros (n - zlen l)).
Proof.
  intros H Hn. pose proof (zlen_nonneg l). pose proof (h_max _ _ H). unfold deque_upsize.
  rewrite (h_size _ _ H). destruct (Z.leb_spec n (zlen l)).
  - exists dq. split; [done|]. unfold zeros. rewrite Z2Nat.nonpos by lia. by rewrite app_nil_r.
  - rewrite (u64_small (n - _)) by (unfold max_size in *; lia).
    destruct (grow_store_back dq l (zeros (n - zlen l)) H) as (dq' & E & H'); rewrite ?zeros_zlen in * by lia; [lia|].
    exists dq'. split; [|done]. by replace (zlen l + (n - zlen l)) with n in E by lia.
Qed.

(** Overwriting bytes that are there. *)
Lemma overwrite_spec dq l pos data : holds dq l → 0 ≤ pos → pos + zlen data ≤ zlen l →
  ∃ dq', deque_place dq pos data = Some dq' ∧ holds dq' (splice pos data l).
Proof.
  intros [Hs Hf Hm Hb Hst He Ha] Hp Hl. unfold deque_place, max_size in *.
  pose proof (zlen_nonneg l). pose proof (zlen_nonneg data).
  rewrite (u64_small (pos + zlen data)) by lia. rewrite (proj2 (Z.ltb_ge _ _)) by lia. cbn [mbind option_bind].
  rewrite (u64_small (pos + _)) by lia.
  set (p := if dq_capacity dq <=? pos + dq_start_pos dq then _ else _).
  assert (p = wrap (dq_capacity dq) (dq_start_pos dq + pos)) as Hpw by (unfold p, wrap; mem_cases; lia).
  assert (zlen data = 0 ∨ 0 ≤ p < dq_capacity dq) as Hpr by (rewrite Hpw; unfold wrap; mem_cases; lia).
  assert (0 ≤ p ≤ dq_capacity dq) as Hpr' by (rewrite Hpw; unfold wrap; mem_cases; lia).
  rewrite (u64_small (p + _)) by lia.
  destruct (Z.ltb_spec (dq_capacity dq) (p + zlen data)) as [Hlt|Hge].
  - rewrite (u64_small (p + _ - _)), (u64_small (zlen data - _)) by lia. set (b := p + zlen data - dq_capacity dq) in *.
    assert (zlen (sub 0 (zlen data - b) data) = zlen data - b) as Hd1 by (apply sub_zlen; lia).
    assert (zlen (sub (zlen data - b) b data) = b) as Hd2 by (apply sub_zlen; lia).
    rewrite store_ok by lia. cbn [mbind option_bind].
    rewrite store_ok by (rewrite ?splice_zlen; lia). cbn [mbind option_bind]. eexists. split; [reflexivity|].
    constructor; dq_cbn; rewrite ?splice_zlen by (rewrite ?splice_zlen; lia); [done|done|done|done|done|done|].
    intros k Hk. rewrite (zget_splice l) by lia.
    rewrite zget_splice by (rewrite ?splice_zlen; unfold wrap; mem_cases; lia).
    rewrite zget_splice by (unfold wrap; mem_cases; lia). rewrite Hd1, Hd2.
    revert Hpw. unfold wrap.
    destruct (decide (pos ≤ k < pos + zlen data)); mem_cases; intros; try lia;
      try (rewrite zget_sub by lia; case_decide; [|lia]; f_equal; lia);
      rewrite <- Ha by lia; unfold wrap; mem_cases; try lia; f_equal; lia.
  - rewrite store_ok by lia. cbn [mbind option_bind]. eexists. split; [reflexivity|].
    constructor; dq_cbn; rewrite ?splice_zlen by lia; [done|done|done|done|done|done|].
    intros k Hk. rewrite (zget_splice l) by lia.
    rewrite zget_splice by (unfold wrap; mem_cases; lia).
    revert Hpw. unfold wrap.
    destruct (decide (pos ≤ k < pos + zlen data)); mem_cases; intros; try lia; try (f_equal; lia);
      rewrite <- Ha by lia; unfold wrap; mem_cases; try lia; f_equal; lia.
Qed.

Lemma place_spec dq l pos data : holds dq l → 0 ≤ pos → pos + zlen data ≤ max_size →
  ∃ dq', deque_place dq pos data = Some dq' ∧
    holds dq' (splice pos data (l ++ zeros (pos + zlen data - zlen l))).
Proof.
  intros H Hp Hm. pose proof (zlen_nonneg l). pose proof (zlen_nonneg data).
  destruct (Z.ltb_spec (zlen l) (pos + zlen data)) as [Hlt|Hge].
  - destruct (upsize_spec dq l (pos + zlen data) H) as (d & E & Hd); [lia|].
    destruct (overwrite_spec d _ pos data Hd Hp) as (dq' & E' & H').
    { rewrite zlen_app, zeros_zlen; lia. }
    exists dq'. split; [|done]. rewrite <- E'. unfold deque_place.
    rewrite (h_size _ _ H), (h_size _ _ Hd), zlen_app, zeros_zlen by lia.
    rewrite (u64_small (pos + zlen data)) by (unfold max_size in *; lia).
    rewrite (proj2 (Z.ltb_lt _ _)), E by lia. cbn [mbind option_bind].
    by rewrite (proj2 (Z.ltb_ge _ (pos + zlen data))) by lia.
  - replace (zeros (pos + zlen data - zlen l)) with (@nil cell)
      by (unfold zeros; by rewrite Z2Nat.nonpos by lia).
    rewrite app_nil_r. by apply overwrite_spec; [..|lia].
Qed.

Lemma push_front_spec dq l src : holds dq l → zlen l + zlen src ≤ max_size →
  ∃ dq', push_front_cells dq src = Some dq' ∧ holds dq' (src ++ l).
Proof.
  intros H Hm. pose proof (zlen_nonneg src). pose proof (zlen_nonneg l). unfold push_front_cells.
  rewrite (h_size _ _ H), (u64_small (zlen l + _)) by (unfold max_size in *; lia).
  destruct (ensure_spec dq l (zlen l + zlen src) H) as (d & E & [Hs Hf Hmd Hb Hst He Ha] & Hc & _); [lia|].
  rewrite E. cbn [mbind option_bind]. dq_cbn. unfold max_size in *.
  destruct (Z.eqb_spec (zlen l + zlen src) (zlen src)) as [Hl|Hl].
  { rewrite store_ok by lia. cbn [mbind option_bind]. eexists. split; [reflexivity|].
    constructor; dq_cbn; rewrite ?zlen_app; [lia|lia|unfold max_size; lia|rewrite splice_zlen; lia|lia|mem_cases; lia|].
    intros k Hk. rewrite zget_splice by (unfold wrap; mem_cases; lia). rewrite zget_app.
    unfold wrap. mem_cases; try lia. f_equal; lia. }
  destruct (Z.ltb_spec (dq_start_pos d) (zlen src)) as [Hlt|Hge].
  - assert (dq_start_pos d + zlen l ≤ dq_capacity d) as Hflat.
    { revert He. mem_cases; intros; lia. }
    rewrite (u64_small (zlen src - _)) by lia. set (b := zlen src - dq_start_pos d).
    rewrite u64_small by lia.
    assert (zlen (sub b (dq_start_pos d) src) = dq_start_pos d) as Hd1 by (apply sub_zlen; lia).
    assert (zlen (sub 0 b src) = b) as Hd2 by (apply sub_zlen; lia).
    assert ((if negb (dq_start_pos d =? 0) then store (dq_data d) 0 (sub b (dq_start_pos d) src)
             else Some (dq_data d)) = Some (splice 0 (sub b (dq_start_pos d) src) (dq_data d))) as ->.
    { destruct (Z.eqb_spec (dq_start_pos d) 0) as [E0|]; cbn [negb]; [|by rewrite store_ok by lia].
      rewrite E0. unfold splice, sub. cbn. by rewrite drop_0. }
    cbn [mbind option_bind]. rewrite store_ok by (rewrite ?splice_zlen; lia). cbn [mbind option_bind].
    eexists. split; [reflexivity|].
    constructor; dq_cbn; rewrite ?zlen_app;
      [lia|lia|unfold max_size; lia|rewrite !splice_zlen; rewrite ?splice_zlen; lia|lia|rewrite He; mem_cases; lia|].
    intros k Hk. rewrite zget_splice by (rewrite ?splice_zlen; unfold wrap; mem_cases; lia).
    rewrite zget_splice by (unfold wrap; mem_cases; lia). rewrite zget_app, Hd1, Hd2.
    destruct (decide (k < zlen src)) as [Hks|Hks]; [|rewrite <- Ha by lia]; unfold wrap; mem_cases; try lia;
      try (rewrite zget_sub by lia; case_decide; [|lia]); f_equal; lia.
  - rewrite u64_small by lia. rewrite store_ok by lia. cbn [mbind option_bind]. eexists. split; [reflexivity|].
    constructor; dq_cbn; rewrite ?zlen_app;
      [lia|lia|unfold max_size; lia|rewrite splice_zlen; lia|lia|rewrite He; mem_cases; lia|].
    intros k Hk. rewrite zget_splice by (unfold wrap; mem_cases; lia). rewrite zget_app.
    revert He. destruct (decide (k < zlen src)) as [Hks|Hks]; [|rewrite <- Ha by lia];
      unfold wrap; mem_cases; intros; try lia; f_equal; lia.
Qed.

(** Copying out of the block. *)
Lemma peek_front_spec dq l n : holds dq l → 0 ≤ n ≤ zlen l →
  deque_peek_front dq true n = Some (sub 0 n l).
Proof.
  intros [Hs Hf Hm Hb Hst He Ha] Hn. unfold deque_peek_front, max_size in *.
  rewrite (proj2 (Z.ltb_ge _ _)) by lia. cbn [negb]. rewrite u64_small by lia.
  destruct (Z.ltb_spec (dq_capacity dq - dq_start_pos dq) n).
  - rewrite !load_ok by lia. cbn [mbind option_bind]. f_equal. apply zget_ext.
    + rewrite zlen_app, !sub_zlen; lia.
    + rewrite zlen_app, !sub_zlen by lia. intros k Hk. rewrite zget_app, sub_zlen, (zget_sub l), <- Ha by lia.
      unfold wrap. mem_cases; try lia; rewrite zget_sub by lia; case_decide; try lia; f_equal; lia.
  - rewrite load_ok by lia. f_equal. apply zget_ext; rewrite !sub_zlen by lia; [done|]. intros k Hk.
    rewrite !zget_sub, <- Ha by lia. unfold wrap. mem_cases; try lia. f_equal; lia.
Qed.

Lemma peek_back_spec dq l n : holds dq l → 0 ≤ n ≤ zlen l →
  deque_peek_back dq true n = Some (sub (zlen l - n) n l).
Proof.
  intros H Hn. pose proof (holds_end _ _ H). destruct H as [Hs Hf Hm Hb Hst He Ha].
  unfold deque_peek_back, max_size in *.
  rewrite (proj2 (Z.ltb_ge _ _)) by lia. cbn [negb].
  assert (dq_end_pos dq = 0 → zlen l = 0 ∨ dq_capacity dq = 0) as Hz by (rewrite He; mem_cases; lia).
  assert (n = 0 ∨ 0 < n) as [->|Hn0] by lia.
  { destruct (Z.eqb_spec (dq_end_pos dq) 0) as [E0|]; cbn [negb]; rewrite (proj2 (Z.ltb_ge _ 0)) by lia;
      rewrite load_ok by lia; done. }
  destruct (Z.eqb_spec (dq_end_pos dq) 0); cbn [negb]; [lia|].
  destruct (Z.ltb_spec (dq_end_pos dq) n).
  - assert (dq_capacity dq < dq_start_pos dq + zlen l) by (revert He; mem_cases; lia).
    assert (dq_end_pos dq = dq_start_pos dq + zlen l - dq_capacity dq) by (rewrite He; mem_cases; lia).
    rewrite (u64_small (n - _)) by lia. rewrite u64_small by lia.
    rewrite !load_ok by lia. cbn [mbind option_bind]. f_equal. apply zget_ext.
    + rewrite zlen_app, !sub_zlen; lia.
    + rewrite zlen_app, !sub_zlen by lia. intros k Hk. rewrite zget_app, sub_zlen, (zget_sub l) by lia.
      rewrite <- Ha by lia. unfold wrap. mem_cases; try lia; rewrite zget_sub by lia; case_decide; try lia; f_equal; lia.
  - rewrite load_ok by lia. f_equal. apply zget_ext; rewrite !sub_zlen by lia; [done|]. intros k Hk.
    rewrite !zget_sub by lia. case_decide; [|lia]. rewrite <- Ha by lia. revert He.
    unfold wrap. mem_cases; intros; try lia; f_equal; lia.
Qed.

(** What peeking copies, and nothing when the destination is null. *)
Lemma peek_front_any dq l (data : bool) n : holds dq l → 0 ≤ n ≤ zlen l →
  deque_peek_front dq data n = Some (if data then sub 0 n l else []).
Proof.
  intros H Hn. destruct data; [by apply peek_front_spec|]. unfold deque_peek_front.
  by rewrite (h_size _ _ H), (proj2 (Z.ltb_ge _ _)) by lia.
Qed.

Lemma peek_back_any dq l (data : bool) n : holds dq l → 0 ≤ n ≤ zlen l →
  deque_peek_back dq data n = Some (if data then sub (zlen l - n) n l else []).
Proof.
  intros H Hn. destruct data; [by apply peek_back_spec|]. unfold deque_peek_back.
  by rewrite (h_size _ _ H), (proj2 (Z.ltb_ge _ _)) by lia.
Qed.

Lemma holds_empty mem : zlen mem ≤ 2 * max_size → holds (mk_deque mem 0 0 0 (zlen mem)) [].
Proof.
  intros Hm. pose proof (zlen_nonneg mem). change (zlen (@nil cell)) with 0 in *.
  constructor; dq_cbn; change (zlen (@nil cell)) with 0; unfold max_size in *; try lia.
  mem_cases; lia.
Qed.

Lemma pop_front_spec dq l (data : bool) n : holds dq l → 0 ≤ n ≤ zlen l →
  ∃ dq', deque_pop_front dq data n = Some (if data then sub 0 n l else [], dq') ∧
    holds dq' (drop (Z.to_nat n) l).
Proof.
  intros H Hn. unfold deque_pop_front. rewrite (peek_front_any dq l) by done. cbn [mbind option_bind].
  destruct H as [Hs Hf Hm Hb Hst He Ha]. rewrite Hs, u64_small by (unfold max_size in *; lia).
  destruct (Z.eqb_spec (zlen l - n) 0) as [E|N].
  - eexists. split; [reflexivity|]. replace (drop (Z.to_nat n) l) with (@nil cell).
    + rewrite <- Hb. apply holds_empty. unfold max_size in *. lia.
    + symmetry. apply drop_ge. unfold zlen in *. lia.
  - unfold max_size in *. rewrite u64_small by lia. eexists. split; [reflexivity|].
    assert (zlen (drop (Z.to_nat n) l) = zlen l - n) as Hdl by len_lia.
    constructor; dq_cbn; rewrite ?Hdl; [lia|lia|unfold max_size; lia|done|mem_cases; lia|rewrite He; mem_cases; lia|].
    intros k Hk. rewrite zget_drop, <- Ha by lia. unfold wrap. mem_cases; try lia; f_equal; lia.
Qed.

Lemma pop_back_spec dq l (data : bool) n : holds dq l → 0 ≤ n ≤ zlen l →
  ∃ dq', deque_pop_back dq data n = Some (if data then sub (zlen l - n) n l else [], dq') ∧
    holds dq' (take (Z.to_nat (zlen l - n)) l).
Proof.
  intros H Hn. unfold deque_pop_back. rewrite (peek_back_any dq l) by done. cbn [mbind option_bind].
  destruct H as [Hs Hf Hm Hb Hst He Ha]. rewrite Hs, u64_small by (unfold max_size in *; lia).
  destruct (Z.eqb_spec (zlen l - n) 0) as [E|N].
  - eexists. split; [reflexivity|]. replace (take (Z.to_nat (zlen l - n)) l) with (@nil cell).
    + rewrite <- Hb. apply holds_empty. unfold max_size in *. lia.
    + by rewrite E.
  - unfold max_size in *.
    assert (u64 (dq_capacity dq - (n - dq_end_pos dq)) = dq_capacity dq - (n - dq_end_pos dq)
            ∨ n < dq_end_pos dq) as Hu
      by (destruct (Z.leb_spec (dq_end_pos dq) n); [left; apply u64_small; revert He; mem_cases; lia|lia]).
    eexists. split; [reflexivity|].
    assert (zlen (take (Z.to_nat (zlen l - n)) l) = zlen l - n) as Htl by len_lia.
    constructor; dq_cbn; rewrite ?Htl;
      [lia|lia|unfold max_size; lia|done|lia|revert He Hu; mem_cases; lia|].
    intros k Hk. rewrite zget_take, <- Ha by lia. case_decide; [done|lia].
Qed.

(** ** A queue is a list *)

(** The calls, with what they are given. *)
Inductive deque_call :=
  | PushBack (data : bytes) | PushBackZero (size : Z)
  | PushFront (data : bytes) | PushFrontZero (size : Z)
  | Place (position : Z) (data : bytes) | Upsize (size : Z) | Reserve (capacity : Z)
  | PeekFront (size : Z) | PeekBack (size : Z)
  | PopFront (data : bool) (size : Z) | PopBack (data : bool) (size : Z)
  | DataAt (idx : Z).

(** A call on the structure: what it copies out (for [deque_data], the cell pointed to). *)
Definition deque_exec (dq : deque) (c : deque_call) : option (deque * list cell) :=
  let quiet r := dq ← r; Some (dq, []) in
  match c with
  | PushBack data => quiet (deque_push_back dq data)
  | PushBackZero size => quiet (deque_push_back_zero dq size)
  | PushFront data => quiet (deque_push_front dq data)
  | PushFrontZero size => quiet (deque_push_front_zero dq size)
  | Place position data => quiet (deque_place dq position (Some <$> data))
  | Upsize size => quiet (deque_upsize dq size)
  | Reserve capacity => quiet (deque_reserve dq capacity)
  | PeekFront size => out ← deque_peek_front dq true size; Some (dq, out)
  | PeekBack size => out ← deque_peek_back dq true size; Some (dq, out)
  | PopFront data size => '(out, dq) ← deque_pop_front dq data size; Some (dq, out)
  | PopBack data size => '(out, dq) ← deque_pop_back dq data size; Some (dq, out)
  | DataAt idx => match deque_data dq idx with
                  | Some off => out ← load (dq_data dq) off 1; Some (dq, out)
                  | None => Some (dq, [])
                  end
  end.

(** The same call on a list of bytes: the list after it and what is copied out. *)
Definition list_exec (l : bytes) (c : deque_call) : bytes * bytes :=
  let zeros n := replicate (Z.to_nat n) 0 in
  match c with
  | PushBack data => (l ++ data, [])
  | PushBackZero size => (l ++ zeros size, [])
  | PushFront data => (data ++ l, [])
  | PushFrontZero size => (zeros size ++ l, [])
  | Place position data => (splice position data (l ++ zeros (position + zlen data - zlen l)), [])
  | Upsize size => (l ++ zeros (size - zlen l), [])
  | Reserve _ => (l, [])
  | PeekFront size => (l, sub 0 size l)
  | PeekBack size => (l, sub (zlen l - size) size l)
  | PopFront data size => (drop (Z.to_nat size) l, if data then sub 0 size l else [])
  | PopBack data size => (take (Z.to_nat (zlen l - size)) l, if data then sub (zlen l - size) size l else [])
  | DataAt idx => (l, sub idx 1 l)
  end.

(** No call takes more than there is, and the queue stays below [max_size]. *)
Definition call_ok (l : bytes) (c : deque_call) : bool :=
  match c with
  | PushBack data | PushFront data => zlen l + zlen data <=? max_size
  | PushBackZero size | PushFrontZero size => (0 <=? size) && (zlen l + size <=? max_size)
  | Place position data => (0 <=? position) && (position + zlen data <=? max_size)
  | Upsize size => (0 <=? size) && (size <=? max_size)
  | Reserve capacity => capacity <=? 2 * max_size
  | PeekFront size | PeekBack size | PopFront _ size | PopBack _ size => (0 <=? size) && (size <=? zlen l)
  | DataAt idx => (0 <=? idx) && (idx <=? max_size)
  end.

Fixpoint deque_run (dq : deque) (cs : list deque_call) : option (deque * list (list cell)) :=
  match cs with
  | [] => Some (dq, [])
  | c :: cs =>
      '(dq, out) ← deque_exec dq c;
      '(dq, outs) ← deque_run dq cs;
      Some (dq, out :: outs)
  end.

Fixpoint list_run (l : bytes) (cs : list deque_call) : bytes * list bytes :=
  match cs with
  | [] => (l, [])
  | c :: cs => let '(l, out) := list_exec l c in let '(l, outs) := list_run l cs in (l, out :: outs)
  end.

Fixpoint calls_fit (l : bytes) (cs : list deque_call) : bool :=
  match cs with [] => true | c :: cs => call_ok l c && calls_fit (list_exec l c).1 cs end.

Lemma fmap_sub {A B} (f : A → B) off n l : f <$> sub off n l = sub off n (f <$> l).
Proof. unfold sub. by rewrite fmap_take, fmap_drop. Qed.

Lemma fmap_splice {A B} (f : A → B) off k l : f <$> splice off k l = splice off (f <$> k) (f <$> l).
Proof. unfold splice. by rewrite !fmap_app, fmap_take, fmap_drop, zlen_map. Qed.

Lemma fmap_zeros n : Some <$> replicate (Z.to_nat n) 0 = zeros n.
Proof. unfold zeros. by rewrite fmap_replicate. Qed.

Create Rewrite HintDb cells.
#[local] Hint Rewrite @fmap_app @fmap_drop @fmap_take @fmap_sub @fmap_splice fmap_zeros @zlen_map : cells.

(** [quiet_call]: a call that copies nothing out, by its specification. *)
Ltac quiet_call E := rewrite E; cbn [mbind option_bind]; eexists; split; [reflexivity|];
  autorewrite with cells; first [assumption | done].

Lemma exec_spec dq l c : holds dq (Some <$> l) → call_ok l c = true →
  ∃ dq', deque_exec dq c = Some (dq', Some <$> (list_exec l c).2) ∧ holds dq' (Some <$> (list_exec l c).1).
Proof.
  intros H Hc. assert (∀ (m : bytes), zlen (Some <$> m) = zlen m) as Hz by (intros; apply zlen_map).
  pose proof (zlen_nonneg l). pose proof (h_size _ _ H) as Hs.
  destruct c; cbn in Hc; unfold deque_exec, deque_push_back, deque_push_back_zero, deque_push_front, deque_push_front_zero;
    cbn [list_exec fst snd].
  - destruct (push_back_spec dq _ (Some <$> data) H) as (d & E & Hd); [rewrite !Hz; lia|]. quiet_call E.
  - destruct (push_back_spec dq _ (zeros size) H) as (d & E & Hd); [rewrite Hz, zeros_zlen; lia|]. quiet_call E.
  - destruct (push_front_spec dq _ (Some <$> data) H) as (d & E & Hd); [rewrite !Hz; lia|]. quiet_call E.
  - destruct (push_front_spec dq _ (zeros size) H) as (d & E & Hd); [rewrite Hz, zeros_zlen; lia|]. quiet_call E.
  - destruct (place_spec dq _ position (Some <$> data) H) as (d & E & Hd); [lia|rewrite Hz; lia|].
    rewrite !Hz in Hd. quiet_call E.
  - destruct (upsize_spec dq _ size H) as (d & E & Hd); [lia|]. rewrite Hz in Hd. quiet_call E.
  - destruct (reserve_spec dq _ capacity H) as (d & E & Hd); [lia|]. quiet_call E.
  - rewrite (peek_front_any _ _ _ _ H) by (rewrite Hz; lia). exists dq. split; [|done].
    cbn. by rewrite fmap_sub.
  - rewrite (peek_back_any _ _ _ _ H) by (rewrite Hz; lia). exists dq. split; [|done].
    cbn. by rewrite Hz, fmap_sub.
  - destruct (pop_front_spec dq _ data size H) as (d & E & Hd); [rewrite Hz; lia|]. rewrite E. exists d.
    rewrite fmap_drop. split; [|done]. cbn. destruct data; by rewrite ?fmap_sub.
  - destruct (pop_back_spec dq _ data size H) as (d & E & Hd); [rewrite Hz; lia|]. rewrite E. exists d.
    rewrite Hz in *. rewrite fmap_take. split; [|done]. cbn. destruct data; by rewrite ?fmap_sub.
  - exists dq. split; [|done]. unfold deque_data. rewrite Hs, Hz.
    destruct (Z.leb_spec (zlen l) idx).
    { f_equal. f_equal. unfold sub. rewrite drop_ge by (unfold zlen in *; lia). by rewrite take_nil. }
    pose proof (h_max _ _ H). pose proof (h_start _ _ H). pose proof (h_block _ _ H). unfold max_size in *.
    rewrite u64_small by lia. pose proof (h_at _ _ H idx ltac:(rewrite Hz; lia)) as Hat. unfold wrap in Hat.
    pose proof (h_fit _ _ H) as Hf. rewrite Hz in Hf.
    rewrite load_ok by (mem_cases; lia). cbn. do 2 f_equal. rewrite fmap_sub.
    apply zget_ext; rewrite !sub_zlen by (rewrite ?Hz; mem_cases; lia); [done|]. intros k Hk.
    rewrite !zget_sub by (mem_cases; lia). case_decide; [|done]. replace k with 0 by lia.
    rewrite !Z.add_0_r, <- Hat. f_equal. mem_cases; lia.
Qed.

Lemma run_spec cs dq l : holds dq (stored l) → calls_fit l cs = true →
  ∃ dq', deque_run dq cs = Some (dq', map stored (list_run l cs).2) ∧
    holds dq' (stored (list_run l cs).1).
Proof.
  revert dq l. induction cs as [|c cs IH]; intros dq l H Hc; [by exists dq|].
  cbn [calls_fit deque_run list_run] in *. apply andb_prop in Hc as [Hc Hcs].
  destruct (exec_spec dq l c H Hc) as (d & E & Hd). rewrite E. cbn [mbind option_bind].
  destruct (list_exec l c) as [l' out]. cbn [fst snd] in *.
  destruct (IH d l' Hd Hcs) as (d' & E' & Hd'). rewrite E'. cbn [mbind option_bind].
  destruct (list_run l' cs) as [l'' outs]. by exists d'.
Qed.

(** C24: A queue is a list of bytes. Whatever calls are made on a new queue, as long as none
    takes more than there is and the queue stays below 2^62 bytes, each call succeeds
    without touching memory outside the block or bytes that were never stored, copies
    out what the same call on a list gives, and the queue holds that list. *)
Theorem deque_is_list cs : calls_fit [] cs = true →
  ∃ dq, deque_run deque_init cs = Some (dq, map stored (list_run [] cs).2) ∧
    contents dq = stored (list_run [] cs).1.
Proof.
  intros Hc. destruct (run_spec cs deque_init []) as (dq & E & H); [apply (holds_empty []); done|done|].
  exists dq. split; [done|]. by apply holds_contents.
Qed.

(** Calls that wrap around the end of the block, grow it while wrapped and overwrite across the end. *)
Definition ex_calls : list deque_call :=
  [PushBack [1; 2; 3; 4; 5; 6; 7; 8]; PopFront true 5; PushBack [9; 10; 11; 12]; PeekBack 6;
   PushBack [13; 14; 15; 16; 17]; Place 3 [20; 21; 22]; PushFront [30; 31]; DataAt 1; PopBack true 3;
   PushFrontZero 2; Upsize 14; Reserve 40; PopFront false 4].

Lemma deque_is_list_witness : calls_fit [] ex_calls = true ∧
  ∃ dq, deque_run deque_init ex_calls = Some (dq, map stored (list_run [] ex_calls).2) ∧
    contents dq = stored (list_run [] ex_calls).1.
Proof. split; [vm_compute; reflexivity|]. apply deque_is_list. vm_compute. reflexivity. Defined.

Example ex_calls_copied : (list_run [] ex_calls).2 =
  [[]; [1; 2; 3; 4; 5]; []; [7; 8; 9; 10; 11; 12]; []; []; []; [31]; [15; 16; 17]; []; []; []; []].
Proof. vm_compute. reflexivity. Qed.
