(* ===== verification/Serializer.v ===== *)
(** * Serializers: libobs/util/serializer.h and libobs/util/array-serializer.c

    [SerializerOps] is the table of function pointers of [struct serializer]
    (one instance per kind of target), [W S] the state monad every writer of the
    muxers runs in, and the [s_w*] functions the inline helpers of the header.

    [AppendSerializer] is what the muxers rely on: writing at the end appends,
    [serializer_get_pos] at the end is the length, and seeking back, overwriting
    and seeking to the end again patches bytes in place. The growable array of
    array-serializer.c is proved to be such a serializer.

    [runs] and [emits] are the specification language of the muxers' writers:
    [emits p m bs a] says that [m], started at the end of a target that holds
    [p] bytes, appends exactly [bs] and returns [a]. *)

From S2P Require Import Prelude.

Local Open Scope Z_scope.

(** ** The interface (serializer.h) *)

Inductive serialize_seek_type :=
  SERIALIZE_SEEK_START | SERIALIZE_SEEK_CURRENT | SERIALIZE_SEEK_END.

(** The [write], [seek] and [get_pos] function pointers. *)
Class SerializerOps (S : Type) := {
  op_write : bytes → S → Z * S;
  op_seek : Z → serialize_seek_type → S → Z * S;
  op_get_pos : S → Z
}.

(** A computation that may use the serializer; [None] is undefined behaviour of
    the C code (a null or out-of-range dereference). *)
Definition W (S A : Type) : Type := S → option (A * S).

Definition ret {S A} (a : A) : W S A := λ s, Some (a, s).
Definition bind {S A B} (m : W S A) (k : A → W S B) : W S B :=
  λ s, match m s with Some (a, s') => k a s' | None => None end.
Definition deref {S A} (o : option A) : W S A :=
  λ s, match o with Some a => Some (a, s) | None => None end.

Declare Scope serializer_scope.
Delimit Scope serializer_scope with ser.
Notation "x <- m ;; k" := (bind m (λ x, k))
  (at level 100, m at next level, right associativity) : serializer_scope.
Notation "m ;;; k" := (bind m (λ _, k))
  (at level 100, right associativity) : serializer_scope.
Notation "'let*' p ':=' m 'in' k" := (bind m (λ p, k))
  (at level 10, p strict pattern, m at level 100, k at level 200) : serializer_scope.
Notation "'when' c 'do' m" := (if c then m else ret tt)
  (at level 95, c at level 90, m at level 95) : serializer_scope.
Local Open Scope serializer_scope.

(** [for_each xs f]: a [for] loop over the elements of an array. *)
Fixpoint for_each {S A} (xs : list A) (f : A → W S unit) : W S unit :=
  match xs with
  | [] => ret tt
  | x :: xs' => f x ;;; for_each xs' f
  end.

Section writers.
Context {S : Type} `{SerializerOps S}.

(** Nothing is written for a null or empty buffer. *)
Definition s_write (data : bytes) : W S Z :=
  match data with
  | [] => ret 0
  | _ => λ s, Some (op_write data s)
  end.

(** A call of [s_write] whose result is discarded, as in all of the muxers. *)
Definition s_put (data : bytes) : W S unit := s_write data ;;; ret tt.

Definition serializer_seek (offset : Z) (seek_type : serialize_seek_type) : W S Z :=
  λ s, Some (op_seek offset seek_type s).

Definition serializer_get_pos : W S Z := λ s, Some (op_get_pos s, s).

Definition s_w8 (v : Z) : W S unit := s_put [u8 v].

Definition s_wl16 (v : Z) : W S unit :=
  let v := u16 v in s_w8 v ;;; s_w8 (Z.shiftr v 8).
Definition s_wl24 (v : Z) : W S unit :=
  let v := u32 v in s_w8 v ;;; s_wl16 (Z.shiftr v 8).
Definition s_wl32 (v : Z) : W S unit :=
  let v := u32 v in s_wl16 v ;;; s_wl16 (Z.shiftr v 16).
Definition s_wl64 (v : Z) : W S unit :=
  let v := u64 v in s_wl32 v ;;; s_wl32 (Z.shiftr v 32).

Definition s_wb16 (v : Z) : W S unit :=
  let v := u16 v in s_w8 (Z.shiftr v 8) ;;; s_w8 v.
Definition s_wb24 (v : Z) : W S unit :=
  let v := u32 v in s_wb16 (Z.shiftr v 8) ;;; s_w8 v.
Definition s_wb32 (v : Z) : W S unit :=
  let v := u32 v in s_wb16 (Z.shiftr v 16) ;;; s_wb16 v.
Definition s_wb64 (v : Z) : W S unit :=
  let v := u64 v in s_wb32 (Z.shiftr v 32) ;;; s_wb32 v.
End writers.

(** ** The growable array (array-serializer.c) *)

(** [struct array_output_data]: [bytes] is the array's [num] elements. *)
Record array_output_data := mk_array_output { ao_bytes : bytes; cur_pos : Z }.

Definition array_output_serializer_init : array_output_data := mk_array_output [] 0.

Definition array_output_serializer_reset (_ : array_output_data) : array_output_data :=
  mk_array_output [] 0.

Definition array_output_write (data : bytes) (o : array_output_data) : Z * array_output_data :=
  let num := zlen (ao_bytes o) in
  let size := zlen data in
  if cur_pos o <? num then
    (* overwrite from [cur_pos], extending the array when the data runs past it *)
    (size, mk_array_output (splice (cur_pos o) data (ao_bytes o)) (cur_pos o + size))
  else
    (size, mk_array_output (ao_bytes o ++ data) (cur_pos o + size)).

(** The position reported is the length of the array, whatever [cur_pos] is. *)
Definition array_output_get_pos (o : array_output_data) : Z := zlen (ao_bytes o).

Definition array_output_seek (offset : Z) (seek_type : serialize_seek_type)
    (o : array_output_data) : Z * array_output_data :=
  let new_pos := u64 (match seek_type with
                      | SERIALIZE_SEEK_START => offset
                      | SERIALIZE_SEEK_CURRENT => cur_pos o + offset
                      | SERIALIZE_SEEK_END => zlen (ao_bytes o) - offset
                      end) in
  if zlen (ao_bytes o) <? new_pos then (-1, o)
  else (i64 new_pos, mk_array_output (ao_bytes o) new_pos).

#[export] Instance array_ops : SerializerOps array_output_data := {
  op_write := array_output_write;
  op_seek := array_output_seek;
  op_get_pos := array_output_get_pos
}.

(** ** What a muxer relies on *)

(** Targets hold less than 2^63 bytes: offsets are [int64_t]. *)
Definition MAX_POS : Z := 2 ^ 63.

Class AppendSerializer (S : Type) `{SerializerOps S} := {
  (** [at_pos s c p]: [s] holds the bytes [c] and is positioned at offset [p]. *)
  at_pos : S → bytes → Z → Prop;
  write_at s c p data :
    at_pos s c p → 0 ≤ p ≤ zlen c → data ≠ [] →
    at_pos (op_write data s).2 (splice p data c) (p + zlen data);
  seek_at s c p q :
    at_pos s c p → 0 ≤ q ≤ zlen c → q < MAX_POS →
    at_pos (op_seek q SERIALIZE_SEEK_START s).2 c q;
  pos_at_end s c : at_pos s c (zlen c) → op_get_pos s = zlen c
}.

(** A file, whose position is reported exactly wherever it is. *)
Class FileSerializer (S : Type) `{AppendSerializer S} :=
  pos_at s c p : at_pos s c p → op_get_pos s = p.

#[export] Program Instance array_append : AppendSerializer array_output_data := {
  at_pos o c p := ao_bytes o = c ∧ cur_pos o = p
}.
Next Obligation.
  intros [arr pos] c p data [? ?] Hp _; simpl in *; subst.
  unfold array_output_write; simpl. destruct (Z.ltb_spec p (zlen c)); [done|].
  replace p with (zlen c) by lia. unfold splice. simpl. split; [|done].
  rewrite firstn_all2, drop_ge, app_nil_r; [done|unfold zlen in *; lia..].
Qed.
Next Obligation.
  intros [arr pos] c p q [? ?] Hq Hmax; simpl in *; subst. unfold MAX_POS in *.
  unfold array_output_seek; simpl. wrap_small. by rewrite (proj2 (Z.ltb_ge _ _)) by lia.
Qed.
Next Obligation. by intros [arr pos] c [? ?]; simpl in *; subst. Qed.

(** ** The specification of writers *)

Section spec.
Context {S : Type} `{AppendSerializer S}.

Definition at_end (s : S) (c : bytes) : Prop := at_pos s c (zlen c).

(** [puts m bs]: [m] writes [bs] at the cursor, over as many bytes or at the end. *)
Definition puts (m : W S unit) (bs : bytes) : Prop :=
  ∀ s a b d, at_pos s (a ++ b ++ d) (zlen a) → zlen b = zlen bs ∨ b = [] ∧ d = [] →
    ∃ s', m s = Some (tt, s') ∧ at_pos s' (a ++ bs ++ d) (zlen a + zlen bs).

Lemma puts_seq m1 m2 b1 b2 : puts m1 b1 → puts m2 b2 → puts (m1 ;;; m2) (b1 ++ b2).
Proof.
  intros P1 P2 s a b d Hs Hb.
  assert (∃ x y, b = x ++ y ∧ (zlen x = zlen b1 ∨ x = [] ∧ y ++ d = []) ∧
                 (zlen y = zlen b2 ∨ y = [] ∧ d = [])) as (x & y & -> & Hx & Hy).
  { destruct Hb as [Hb|[-> ->]]; [|by exists [], []; auto].
    exists (take (length b1) b), (drop (length b1) b).
    rewrite take_drop. split; [done|]. split; left; unfold zlen in *;
      rewrite ?length_take, ?length_drop; rewrite length_app in Hb; lia. }
  rewrite <- app_assoc in Hs. destruct (P1 s a x (y ++ d) Hs Hx) as (s1 & E1 & H1).
  rewrite (app_assoc a) in H1. rewrite <- zlen_app in H1.
  destruct (P2 s1 (a ++ b1) y d H1 Hy) as (s2 & E2 & H2).
  exists s2. unfold bind. rewrite E1, E2. split; [done|].
  rewrite <- !app_assoc in *. by rewrite !zlen_app, Z.add_assoc in *.
Qed.

Lemma puts_w8 v : puts (s_w8 v) [u8 v].
Proof.
  intros s a b d Hs Hb. unfold s_w8, s_put, bind, s_write, ret.
  assert (a ++ [u8 v] ++ d = splice (zlen a) [u8 v] (a ++ b ++ d)) as ->.
  { destruct Hb as [Hb|[-> ->]]; [rewrite splice_app; [done|len_lia]|].
    rewrite !app_nil_r. unfold splice.
    rewrite zlen_to_nat, firstn_all, drop_ge; [done|unfold zlen; simpl; lia]. }
  apply (write_at s _ _ [u8 v]) in Hs; [|split; len_lia|done].
  destruct (op_write _ s); simpl in *. eauto.
Qed.

Lemma puts_put data : puts (s_put data) data.
Proof.
  intros s a b d Hs Hb. unfold s_put, bind, s_write, ret. destruct data as [|x data].
  - exists s. split; [done|]. destruct Hb as [Hb|[-> ->]].
    + assert (b = []) as -> by (destruct b; [done|exfalso; len_lia]). by rewrite zlen_nil, Z.add_0_r.
    + by rewrite zlen_nil, Z.add_0_r.
  - assert (a ++ (x :: data) ++ d = splice (zlen a) (x :: data) (a ++ b ++ d)) as E.
    { destruct Hb as [Hb|[-> ->]]; [by rewrite splice_app|].
      rewrite !app_nil_r. unfold splice.
      rewrite zlen_to_nat, firstn_all, drop_ge, app_nil_r; [done|unfold zlen; lia]. }
    apply (write_at s _ _ (x :: data)) in Hs; [|split; len_lia|done].
    rewrite E. destruct (op_write _ s); simpl in *. eauto.
Qed.

Lemma puts_ret : puts (ret tt) [].
Proof.
  intros s a b d Hs Hb. exists s. split; [done|]. rewrite zlen_nil, Z.add_0_r.
  destruct Hb as [Hb|[-> ->]]; [|done]. by destruct b; [|exfalso; len_lia].
Qed.

Lemma puts_eq m bs bs' : puts m bs' → bs = bs' → puts m bs.
Proof. by intros ? ->. Qed.

(** Each fixed-width writer puts the corresponding big-endian digits. *)
Lemma puts_wb16 v : puts (s_wb16 v) (be16 v).
Proof.
  eapply puts_eq; [apply puts_seq; apply puts_w8|]. unfold be16, u8, u16.
  by rewrite mod_shiftr_mod, mod_mod_pow by lia.
Qed.
Lemma puts_wb24 v : puts (s_wb24 v) (be24 v).
Proof.
  eapply puts_eq; [apply puts_seq; [apply puts_wb16|apply puts_w8]|].
  unfold be24, u32. rewrite be16_shiftr_mod by lia. unfold u8. by rewrite mod_mod_pow by lia.
Qed.
Lemma puts_wb32 v : puts (s_wb32 v) (be32 v).
Proof.
  eapply puts_eq; [apply puts_seq; apply puts_wb16|].
  unfold be32, u32. by rewrite be16_shiftr_mod, be16_mod by lia.
Qed.
Lemma puts_wb64 v : puts (s_wb64 v) (be64 v).
Proof.
  eapply puts_eq; [apply puts_seq; apply puts_wb32|].
  unfold be64, u64. by rewrite be32_shiftr_mod, be32_mod by lia.
Qed.

(** From a target holding [b] bytes and then [pre], [m] returns [a] and leaves
    those [b] bytes followed by [post]. *)
Definition runs {A} (b : Z) (pre : bytes) (m : W S A) (post : bytes) (a : A) : Prop :=
  zlen pre ≤ zlen post ∧
  ∀ s c, zlen c = b → at_end s (c ++ pre) → b + zlen post < MAX_POS →
    ∃ s', m s = Some (a, s') ∧ at_end s' (c ++ post).

(** [m], run at the end of a target of [p] bytes, appends [bs] and returns [a]. *)
Definition emits {A} (p : Z) (m : W S A) (bs : bytes) (a : A) : Prop := runs p [] m bs a.

Lemma runs_ret {A} b pre (a : A) : runs b pre (ret a) pre a.
Proof. split; [lia|]. intros s; eauto. Qed.

Lemma runs_bind {A B} b pre mid post (m : W S A) (k : A → W S B) x a :
  runs b pre m mid x → runs b mid (k x) post a → runs b pre (bind m k) post a.
Proof.
  intros [L1 R1] [L2 R2]; split; [lia|]. intros s c Hc Hs Hp.
  destruct (R1 s c Hc Hs) as (s' & E & Hs'); [lia|].
  unfold bind. rewrite E. by apply R2.
Qed.

(** A writer run after [pre] keeps [pre] (frame rule). *)
Lemma runs_frame {A} b pre p bs (m : W S A) a :
  p = b + zlen pre → emits p m bs a → runs b pre m (pre ++ bs) a.
Proof.
  intros -> [_ R]; split; [len_lia|]. intros s c Hc Hs Hp.
  rewrite app_assoc. apply R; [len_lia| by rewrite app_nil_r | len_lia].
Qed.

Lemma runs_seq {A B} b pre p bs post (m : W S A) (k : A → W S B) x a :
  p = b + zlen pre → emits p m bs x → runs b (pre ++ bs) (k x) post a →
  runs b pre (bind m k) post a.
Proof. intros ? E ?. eapply runs_bind; [by eapply runs_frame|done]. Qed.

Lemma emits_seq {A B} p q bs bs' (m : W S A) (k : A → W S B) x a :
  emits p m bs x → q = p + zlen bs → emits q (k x) bs' a →
  emits p (bind m k) (bs ++ bs') a.
Proof.
  intros E -> E'. eapply (runs_seq _ [] p bs); [by change (zlen []) with 0; lia|done|].
  by eapply runs_frame.
Qed.

Lemma emits_eq {A} p (m : W S A) bs bs' a : emits p m bs' a → bs = bs' → emits p m bs a.
Proof. by intros ? ->. Qed.

Lemma emits_get_pos p : emits p serializer_get_pos [] p.
Proof.
  split; [lia|]. intros s c Hc Hs _. exists s. split; [|done].
  rewrite app_nil_r in Hs. unfold serializer_get_pos. by rewrite (pos_at_end _ _ Hs), Hc.
Qed.

Lemma emits_ret {A} p (a : A) : emits p (ret a) [] a.
Proof. apply runs_ret. Qed.

Lemma emits_deref {A} p (o : option A) a : o = Some a → emits p (deref o) [] a.
Proof. intros ->. apply runs_ret. Qed.

Lemma emits_puts p m bs : puts m bs → emits p m bs tt.
Proof.
  intros P; split; [len_lia|]. intros s c Hc Hs Hp. unfold at_end in *.
  rewrite app_nil_r in Hs.
  destruct (P s c [] []) as (s' & E & Hs'); [by rewrite !app_nil_r|by auto|].
  exists s'. rewrite app_nil_r in Hs'. by rewrite zlen_app.
Qed.

Lemma emits_put p data : emits p (s_put data) data tt.
Proof.
  split; [len_lia|]. intros s c Hc Hs Hp. rewrite app_nil_r in Hs. unfold at_end in *.
  destruct data as [|x data]; [rewrite app_nil_r; eexists; split; [reflexivity|done]|].
  unfold s_put, bind, s_write, ret.
  apply (write_at s c (zlen c) (x :: data)) in Hs; [|split; len_lia|done].
  destruct (op_write _ s) as [n s']; simpl in *. exists s'; split; [done|].
  rewrite zlen_app. replace (splice _ _ _) with (c ++ x :: data) in Hs; [done|].
  unfold splice. rewrite zlen_to_nat, firstn_all, drop_ge, app_nil_r; [done|unfold zlen; lia].
Qed.

(** Seeking back, overwriting and returning to the end. *)
Lemma runs_patch {B} b x y z m bs (k : W S B) post a :
  puts m bs → zlen y = zlen bs → runs b (x ++ bs ++ z) k post a →
  runs b (x ++ y ++ z)
    (serializer_seek (b + zlen x) SERIALIZE_SEEK_START ;;; m ;;;
     serializer_seek (b + zlen (x ++ y ++ z)) SERIALIZE_SEEK_START ;;; k) post a.
Proof.
  intros P Hy [L R]. split; [revert L; rewrite !zlen_app, Hy; done|].
  intros s c Hc Hs Hp. unfold at_end in Hs.
  assert (b + zlen (x ++ y ++ z) < MAX_POS) by (revert L; rewrite !zlen_app, Hy; lia).
  eapply (seek_at _ _ _ (b + zlen x)) in Hs; [|split; len_lia|len_lia].
  unfold bind, serializer_seek. destruct (op_seek _ _ s) as [n1 s1]; simpl in Hs.
  rewrite (app_assoc c x) in Hs. replace (b + zlen x) with (zlen (c ++ x)) in Hs by len_lia.
  destruct (P _ _ _ _ Hs) as (s2 & -> & Hs2); [by left|].
  rewrite <- app_assoc in Hs2.
  eapply (seek_at _ _ _ (b + zlen (x ++ y ++ z))) in Hs2; [|split; len_lia|done].
  destruct (op_seek _ _ s2) as [n3 s3]; simpl in Hs2.
  apply R; [done| |done]. unfold at_end.
  by replace (zlen (c ++ x ++ bs ++ z)) with (b + zlen (x ++ y ++ z)) by len_lia.
Qed.
End spec.

Create HintDb emits.
#[export] Hint Resolve emits_get_pos emits_ret puts_w8 puts_wb16 puts_wb24 puts_wb32
  puts_wb64 emits_puts emits_put : emits.

(** A writer run at the end of a growable array appends what it emits to it. *)
Lemma emits_array_at {A} (m : W array_output_data A) b bs a :
  emits (zlen b) m bs a → zlen (b ++ bs) < MAX_POS →
  m (mk_array_output b (zlen b)) = Some (a, mk_array_output (b ++ bs) (zlen (b ++ bs))).
Proof.
  intros [_ R] Hl. destruct (R (mk_array_output b (zlen b)) b eq_refl) as (s & E & Hs);
    [rewrite app_nil_r; split; reflexivity|len_lia|].
  destruct s as [b' c], Hs as [Hb Hc]. simpl in Hb, Hc. subst. exact E.
Qed.

(** In particular on a fresh one. *)
Lemma emits_array {A} (m : W array_output_data A) bs a :
  emits 0 m bs a → zlen bs < MAX_POS →
  m array_output_serializer_init = Some (a, mk_array_output bs (zlen bs)).
Proof. exact (emits_array_at m [] bs a). Qed.

(** ** Overwriting part of a file *)

Section overwrites.
Context {S : Type} `{FileSerializer S}.

(** [m] replaces the bytes at the cursor by [bs], as many, and ends after them. *)
Definition overwrites {A} (m : W S A) (bs : bytes) : Prop :=
  ∀ s a b d, at_pos s (a ++ b ++ d) (zlen a) → zlen b = zlen bs → zlen (a ++ b ++ d) < MAX_POS →
    ∃ r s', m s = Some (r, s') ∧ at_pos s' (a ++ bs ++ d) (zlen a + zlen bs).

Lemma overwrites_puts m bs : puts m bs → overwrites m bs.
Proof. intros P s a b d Hs Hb _. destruct (P s a b d Hs) as (s' & E & Hs'); [by left|eauto]. Qed.

(** A seek within the file. *)
Lemma seek_to s c p q : at_pos s c p → 0 ≤ q ≤ zlen c → q < MAX_POS →
  ∃ r s', serializer_seek q SERIALIZE_SEEK_START s = Some (r, s') ∧ at_pos s' c q.
Proof.
  intros Hs Hq Hm. apply (seek_at _ _ _ q) in Hs; [|done..]. unfold serializer_seek.
  destruct (op_seek q _ s) as [r s']. eauto.
Qed.
End overwrites.
