(* ===== verification/FileSerializer.v ===== *)
(** * Files: libobs/util/file-serializer.c

    [FILE] is the C library's stream on a disk with room: its contents and its
    position. Opening, closing and renaming (the safe variant writes to a temporary
    file first) are left to the operating system. The output serializer is a
    [FileSerializer]. *)

From S2P Require Import Prelude Serializer.

Local Open Scope Z_scope.

Record FILE := mk_FILE { f_bytes : bytes; f_pos : Z }.

(** The contents up to [pos], with zeros beyond the end of the file. *)
Definition padded (pos : Z) (bs : bytes) : bytes :=
  bs ++ replicate (Z.to_nat (pos - zlen bs)) 0.

(** The contents [bs] with [data] written at [pos]; writing nothing changes nothing. *)
Definition overwrite (pos : Z) (data bs : bytes) : bytes :=
  match data with [] => bs | _ => splice pos data (padded pos bs) end.

Definition fwrite (data : bytes) (f : FILE) : Z * FILE :=
  (zlen data, mk_FILE (overwrite (f_pos f) data (f_bytes f)) (f_pos f + zlen data)).

Definition fread (size : Z) (f : FILE) : bytes * FILE :=
  let data := sub (f_pos f) size (f_bytes f) in (data, mk_FILE (f_bytes f) (f_pos f + zlen data)).

(** [os_fseeki64] fails before the start of the file. *)
Definition os_fseeki64 (offset : Z) (origin : serialize_seek_type) (f : FILE) : Z * FILE :=
  let base := match origin with
              | SERIALIZE_SEEK_START => 0
              | SERIALIZE_SEEK_CURRENT => f_pos f
              | SERIALIZE_SEEK_END => zlen (f_bytes f)
              end in
  if base + offset <? 0 then (-1, f) else (0, mk_FILE (f_bytes f) (base + offset)).

Definition file_input_read (size : Z) (f : FILE) : bytes * FILE := fread size f.

Definition file_input_seek (offset : Z) (seek_type : serialize_seek_type) (f : FILE) : Z * FILE :=
  let '(r, f) := os_fseeki64 offset seek_type f in
  if r =? -1 then (-1, f) else (f_pos f, f).

Definition file_input_get_pos (f : FILE) : Z := f_pos f.

Definition file_output_write (data : bytes) (f : FILE) : Z * FILE := fwrite data f.

Definition file_output_seek (offset : Z) (seek_type : serialize_seek_type) (f : FILE) : Z * FILE :=
  let '(r, f) := os_fseeki64 offset seek_type f in
  if r =? -1 then (-1, f) else (f_pos f, f).

Definition file_output_get_pos (f : FILE) : Z := f_pos f.

(** A file opened for writing is empty. *)
Definition file_output_serializer_init : FILE := mk_FILE [] 0.

#[export] Instance file_ops : SerializerOps FILE := {
  op_write := file_output_write;
  op_seek := file_output_seek;
  op_get_pos := file_output_get_pos
}.

Lemma padded_within pos bs : pos ≤ zlen bs → padded pos bs = bs.
Proof.
  intros. unfold padded. replace (Z.to_nat (pos - zlen bs)) with 0%nat by lia. apply app_nil_r.
Qed.

#[export] Program Instance file_append : AppendSerializer FILE := {
  at_pos f c p := f_bytes f = c ∧ f_pos f = p
}.
Next Obligation.
  intros [bs pos] c p data [? ?] Hp Hd; simpl in *; subst. unfold overwrite. destruct data; [done|].
  by rewrite padded_within by lia.
Qed.
Next Obligation.
  intros [bs pos] c p q [? ?] Hq _; simpl in *; subst.
  unfold file_output_seek, os_fseeki64. rewrite Z.add_0_l. by rewrite (proj2 (Z.ltb_ge _ _)) by lia.
Qed.
Next Obligation. by intros [bs pos] c [? ?]. Qed.

#[export] Instance file_file : FileSerializer FILE.
Proof. by intros [bs pos] c p [? ?]. Qed.

(** Consecutive writes are one write. *)
Lemma overwrite_app pos a b bs : 0 ≤ pos →
  overwrite pos (a ++ b) bs = overwrite (pos + zlen a) b (overwrite pos a bs).
Proof.
  intros Hpos. destruct a as [|x a]; [by rewrite zlen_nil, Z.add_0_r|].
  destruct b as [|y b]; [by rewrite app_nil_r|].
  unfold overwrite. cbn [app]. change (x :: a ++ y :: b) with ((x :: a) ++ y :: b).
  set (c := padded pos bs). set (k := x :: a). set (l := y :: b).
  assert (pos ≤ zlen c) as Hc.
  { unfold c, padded. rewrite zlen_app, zlen_replicate. pose proof (zlen_nonneg bs). lia. }
  pose proof (zlen_nonneg k). pose proof (zlen_nonneg l).
  assert (zlen (take (Z.to_nat pos) c) = pos) as Ht by (rewrite zlen_take; lia).
  rewrite (padded_within (pos + zlen k) (splice pos k c)).
  2: { unfold splice. rewrite !zlen_app, Ht. pose proof (zlen_nonneg (drop (Z.to_nat (pos + zlen k)) c)). lia. }
  set (h := take (Z.to_nat pos) c ++ k). set (d := drop (Z.to_nat (pos + zlen k)) c).
  assert (splice pos k c = h ++ d) as -> by (unfold splice, h; by rewrite <- app_assoc).
  assert (length h = Z.to_nat (pos + zlen k)) as Hh.
  { unfold h. rewrite length_app. unfold zlen in *. lia. }
  unfold splice. rewrite <- Hh, take_app_length.
  replace (Z.to_nat (pos + zlen k + zlen l)) with (length h + length l)%nat by (unfold zlen in *; lia).
  rewrite <- drop_drop, drop_app_length. unfold d. rewrite drop_drop. unfold h. rewrite <- !app_assoc.
  do 3 f_equal. rewrite zlen_app. f_equal. unfold zlen in *. lia.
Qed.
