(* ===== verification/BufferedFile.v ===== *)
(** * The buffered file writer: libobs/util/buffered-file-serializer.c

    Writes are queued by the thread that uses the serializer and carried out by an
    I/O thread, which merges consecutive ones into chunks. Both threads are modelled
    as the steps between their synchronisation points: everything done under
    [data_mutex] is one step, so the interleavings of the steps are those of the
    program. The last theorems say that the writer is a file: whatever the
    interleaving, the file ends up as if every call had been carried out at once.
    Positions are those of a file below 2^63 bytes, where the [uint64_t] of the code does
    not wrap, and are integers here. *)

From stdpp Require Import relations.
From S2P Require Import Prelude Serializer FileSerializer.

Local Open Scope Z_scope.
Set Warnings "-clear-no-such-hyp".

(** [struct io_header] and the data that follows it in the deque. *)
Record io_entry := mk_entry { seek_offset : Z; entry_data : bytes }.

Definition header_size : Z := 16.
Definition entry_size (e : io_entry) : Z := header_size + zlen (entry_data e).

(** The bytes held by the deque. *)
Definition deque_size (es : list io_entry) : Z := foldr (λ e n, entry_size e + n) 0 es.

(** The variables of the I/O thread. *)
Record io_locals := mk_locals {
  chunk : bytes;
  want_seek : bool;
  force_flush_chunk : bool;
  current_seek_position : Z;
  next_seek_position : Z
}.

(** Where the threads are: the user waits in [file_output_write] with data left to
    queue or closes the serializer; the I/O thread waits for the event, is about to
    fetch writes, is about to flush its chunk, or has ended. *)
Inductive user_pc := U_IDLE | U_WRITE (remaining : bytes) | U_WAIT (remaining : bytes) | U_CLOSING | U_CLOSED.
Inductive io_pc := T_WAIT | T_FETCH | T_FLUSH | T_EXIT.

(** [struct io_buffer] with the threads. *)
Record io_buffer := mk_io {
  data : list io_entry;
  next_pos : Z;
  shutdown_requested : bool;
  output_error : bool;
  buffer_space_available : bool;
  new_data_available : bool;
  output_file : FILE;
  user : user_pc;
  thread : io_pc;
  locals : io_locals
}.

Section writer.
Context (buffer_size chunk_size : Z).

(** ** The user's side *)

(** [while (remaining && num_chunks--)]: the entries pushed, the data left, the next
    position. *)
Fixpoint push_chunks (num_chunks : nat) (remaining : bytes) (pos : Z) : list io_entry * bytes * Z :=
  match num_chunks, remaining with
  | S n, _ :: _ =>
      let next_chunk_size := Z.min (zlen remaining) chunk_size in
      let '(es, rest, pos') :=
        push_chunks n (drop (Z.to_nat next_chunk_size) remaining) (pos + next_chunk_size) in
      (mk_entry pos (take (Z.to_nat next_chunk_size) remaining) :: es, rest, pos')
  | _, _ => ([], remaining, pos)
  end.

Definition set_user (u : user_pc) (io : io_buffer) : io_buffer :=
  mk_io (data io) (next_pos io) (shutdown_requested io) (output_error io) (buffer_space_available io)
    (new_data_available io) (output_file io) u (thread io) (locals io).

(** One iteration of the loop of [file_output_write]; [capacity] is that of the
    deque, which grows as needed. *)
Definition write_iteration (capacity : Z) (remaining : bytes) (io : io_buffer) : io_buffer :=
  if output_error io then set_user U_IDLE io
  else
    let next_chunk_size := Z.min (zlen remaining) chunk_size in
    let cap := Z.max capacity buffer_size in
    let free_space := cap - deque_size (data io) in
    if free_space <? next_chunk_size + header_size then
      mk_io (data io) (next_pos io) (shutdown_requested io) (output_error io) false (new_data_available io)
        (output_file io) (U_WAIT remaining) (thread io) (locals io)
    else
      let num_chunks := free_space `div` (next_chunk_size + header_size) in
      let '(es, rest, pos) := push_chunks (Z.to_nat num_chunks) remaining (next_pos io) in
      mk_io (data io ++ es) pos (shutdown_requested io) (output_error io) (buffer_space_available io) true
        (output_file io) (match rest with [] => U_IDLE | _ => U_WRITE rest end) (thread io) (locals io).

(** [SERIALIZE_SEEK_END] counts back from the position, not from the end. *)
Definition file_output_seek (offset : Z) (seek_type : serialize_seek_type) (io : io_buffer) : Z * io_buffer :=
  if output_error io then (-1, io)
  else
    let pos := match seek_type with
               | SERIALIZE_SEEK_START => offset
               | SERIALIZE_SEEK_CURRENT => next_pos io + offset
               | SERIALIZE_SEEK_END => next_pos io - offset
               end in
    (pos, mk_io (data io) pos (shutdown_requested io) (output_error io) (buffer_space_available io)
            (new_data_available io) (output_file io) (user io) (thread io) (locals io)).

Definition file_output_get_pos (io : io_buffer) : Z := if output_error io then -1 else next_pos io.

(** ** The I/O thread *)

(** The innermost loop: writes are taken into the chunk until the queue is empty, a
    write is not contiguous to the chunk, or there is no room for it. *)
Fixpoint fetch_writes (q : list io_entry) (l : io_locals) : list io_entry * io_locals :=
  match q with
  | [] => ([], l)
  | e :: q' =>
      let must_seek := negb (seek_offset e =? current_seek_position l) in
      if must_seek && (negb (zlen (chunk l) =? 0) || want_seek l) then
        (q, mk_locals (chunk l) (want_seek l) true (current_seek_position l) (next_seek_position l))
      else
        let l := if must_seek
                 then mk_locals (chunk l) true (force_flush_chunk l) (seek_offset e) (seek_offset e)
                 else l in
        if chunk_size <? zlen (entry_data e) + zlen (chunk l) then
          (q, mk_locals (chunk l) (want_seek l) true (current_seek_position l) (next_seek_position l))
        else
          fetch_writes q' (mk_locals (chunk l ++ entry_data e) (want_seek l) (force_flush_chunk l)
            (current_seek_position l + zlen (entry_data e)) (next_seek_position l))
  end.

(** The part under the lock: fetch, signal, and decide whether to flush. *)
Definition fetch_step (io : io_buffer) : io_buffer :=
  let shutting_down := shutdown_requested io in
  let '(q, l) := fetch_writes (data io) (locals io) in
  let used := zlen (chunk l) in
  if negb (force_flush_chunk l) && ((used =? 0) || (used <? 65536) && negb shutting_down) then
    mk_io q (next_pos io) (shutdown_requested io) (output_error io) true false (output_file io) (user io)
      (if shutting_down then T_EXIT else T_WAIT) l
  else
    mk_io q (next_pos io) (shutdown_requested io) (output_error io) true (new_data_available io)
      (output_file io) (user io) T_FLUSH l.

(** [if (want_seek)]: the file and the variables when the chunk is about to be written. *)
Definition seek_chunk (l : io_locals) (file : FILE) : FILE * io_locals :=
  if want_seek l
  then ((os_fseeki64 (next_seek_position l) SERIALIZE_SEEK_START file).2,
        mk_locals (chunk l) false (force_flush_chunk l) (next_seek_position l + zlen (chunk l)) (next_seek_position l))
  else (file, l).

(** Seeking and writing the chunk, without the lock. *)
Definition flush_step (io : io_buffer) : io_buffer :=
  let '(file, l) := seek_chunk (locals io) (output_file io) in
  match chunk l with
  | [] => mk_io (data io) (next_pos io) (shutdown_requested io) (output_error io) (buffer_space_available io)
            (new_data_available io) file (user io) T_FETCH
            (mk_locals [] (want_seek l) false (current_seek_position l) (next_seek_position l))
  | _ => mk_io (data io) (next_pos io) (shutdown_requested io) (output_error io) (buffer_space_available io)
            (new_data_available io) (fwrite (chunk l) file).2 (user io) T_FETCH
            (mk_locals [] (want_seek l) false (current_seek_position l) (next_seek_position l))
  end.

(** Waking up resets the event. *)
Definition wake_thread (io : io_buffer) : io_buffer :=
  mk_io (data io) (next_pos io) (shutdown_requested io) (output_error io) (buffer_space_available io) false
    (output_file io) (user io) T_FETCH (locals io).

(** [fwrite] wrote [bytes_written] bytes only: the thread ends. *)
Definition fail_step (bytes_written : nat) (io : io_buffer) : io_buffer :=
  let '(file, l) := seek_chunk (locals io) (output_file io) in
  mk_io (data io) (next_pos io) (shutdown_requested io) true (buffer_space_available io)
    (new_data_available io) (fwrite (take bytes_written (chunk l)) file).2 (user io) T_EXIT l.

Inductive io_step : io_buffer → io_buffer → Prop :=
| io_wake io : thread io = T_WAIT → new_data_available io = true → io_step io (wake_thread io)
| io_fetch io : thread io = T_FETCH → io_step io (fetch_step io)
| io_flush io : thread io = T_FLUSH → io_step io (flush_step io).

(** ** The two threads *)

(** What the user of the serializer calls. *)
Inductive call := C_WRITE (bs : bytes) | C_SEEK (offset : Z) (seek_type : serialize_seek_type) | C_FREE.

Inductive step : option call → io_buffer → io_buffer → Prop :=
| s_write io bs : user io = U_IDLE → bs ≠ [] → step (Some (C_WRITE bs)) io (set_user (U_WRITE bs) io)
| s_seek io offset ty : user io = U_IDLE →
    step (Some (C_SEEK offset ty)) io (file_output_seek offset ty io).2
| s_free io : user io = U_IDLE →
    step (Some C_FREE) io (mk_io (data io) (next_pos io) true (output_error io) (buffer_space_available io)
      (new_data_available io) (output_file io) U_CLOSING (thread io) (locals io))
| s_iteration io remaining capacity : user io = U_WRITE remaining → deque_size (data io) ≤ capacity →
    step None io (write_iteration capacity remaining io)
| s_resume io remaining : user io = U_WAIT remaining → buffer_space_available io = true →
    step None io (mk_io (data io) (next_pos io) (shutdown_requested io) (output_error io) false
      (new_data_available io) (output_file io) (U_WRITE remaining) (thread io) (locals io))
| s_signal io : user io = U_CLOSING →
    step None io (mk_io (data io) (next_pos io) (shutdown_requested io) (output_error io)
      (buffer_space_available io) true (output_file io) U_CLOSED (thread io) (locals io))
| s_io io io' : io_step io io' → step None io io'
| s_fail io bytes_written : thread io = T_FLUSH → (bytes_written < length (chunk (locals io)))%nat →
    step None io (fail_step bytes_written io).

(** The sizes the serializer works with: 0 asks for the default. *)
Definition DEFAULT_BUF_SIZE : Z := 256 * 1048576.
Definition DEFAULT_CHUNK_SIZE : Z := 1048576.
Definition io_sizes (max_bufsize chunk_size : Z) : Z * Z :=
  (if negb (max_bufsize =? 0) then max_bufsize else DEFAULT_BUF_SIZE,
   if negb (chunk_size =? 0) then chunk_size else DEFAULT_CHUNK_SIZE).

Definition buffered_file_serializer_init : io_buffer :=
  mk_io [] 0 false false false false file_output_serializer_init U_IDLE T_WAIT (mk_locals [] false false 0 0).

(** [run cs io]: the calls [cs] may lead to [io]. *)
Inductive run : list call → io_buffer → Prop :=
| run_init : run [] buffered_file_serializer_init
| run_call cs io io' c : run cs io → step (Some c) io io' → run (cs ++ [c]) io'
| run_tau cs io io' : run cs io → step None io io' → run cs io'.
End writer.

(** ** The contents on their way to the file *)

(** The writes of the queue carried out in order. *)
Definition replay (es : list io_entry) (bs : bytes) : bytes :=
  foldl (λ bs e, overwrite (seek_offset e) (entry_data e) bs) bs es.

Lemma replay_app es es' bs : replay (es ++ es') bs = replay es' (replay es bs).
Proof. unfold replay. apply foldl_app. Qed.

(** Where the chunk begins. *)
Definition chunk_start (l : io_locals) (file : FILE) : Z :=
  if want_seek l then next_seek_position l else f_pos file.

(** The data the user still has to queue. *)
Definition unqueued (u : user_pc) : bytes :=
  match u with U_WRITE r | U_WAIT r => r | _ => [] end.

(** The file when everything on its way has arrived. *)
Definition settled_bytes (io : io_buffer) : bytes :=
  overwrite (next_pos io) (unqueued (user io))
    (replay (data io) (overwrite (chunk_start (locals io) (output_file io)) (chunk (locals io)) (f_bytes (output_file io)))).

(** ** The sequential file *)

(** What a seek of the buffered writer is on a file: one from the end goes back from the
    position, not from the end. *)
Definition seek_meant (offset : Z) (ty : serialize_seek_type) : Z * serialize_seek_type :=
  match ty with
  | SERIALIZE_SEEK_END => (- offset, SERIALIZE_SEEK_CURRENT)
  | _ => (offset, ty)
  end.

(** The calls carried out at once on a file (file-serializer.c). *)
Definition call_spec (f : FILE) (c : call) : FILE :=
  match c with
  | C_WRITE bs => (file_output_write bs f).2
  | C_SEEK offset ty => let '(offset, ty) := seek_meant offset ty in (FileSerializer.file_output_seek offset ty f).2
  | C_FREE => f
  end.

Definition file_spec (cs : list call) : FILE := foldl call_spec file_output_serializer_init cs.

(** No seek goes before the start of the file. *)
Definition call_ok (f : FILE) (c : call) : Prop :=
  match c with
  | C_SEEK offset SERIALIZE_SEEK_START => 0 ≤ offset
  | C_SEEK offset SERIALIZE_SEEK_CURRENT => 0 ≤ f_pos f + offset
  | C_SEEK offset SERIALIZE_SEEK_END => 0 ≤ f_pos f - offset
  | _ => True
  end.

Fixpoint calls_ok (f : FILE) (cs : list call) : Prop :=
  match cs with
  | [] => True
  | c :: cs => call_ok f c ∧ calls_ok (call_spec f c) cs
  end.

Lemma calls_ok_snoc f cs c : calls_ok f (cs ++ [c]) → calls_ok f cs ∧ call_ok (foldl call_spec f cs) c.
Proof.
  revert f; induction cs as [|d cs IH]; intros f; simpl; [intros [? _]; done|].
  intros [? Hc]. apply IH in Hc as [? ?]. done.
Qed.

Section proofs.
Context (buffer_size chunk_size : Z).
Hypothesis (Hchunk : 0 < chunk_size) (Hbuffer : chunk_size + header_size ≤ buffer_size).

Definition entry_ok (e : io_entry) : Prop :=
  0 ≤ seek_offset e ∧ 0 < zlen (entry_data e) ≤ chunk_size.

Definition locals_ok (l : io_locals) (file : FILE) : Prop :=
  0 ≤ chunk_start l file ∧ zlen (chunk l) ≤ chunk_size ∧
  current_seek_position l = chunk_start l file + zlen (chunk l).

(** *** Fetching *)

Lemma zlen_zero {A} (l : list A) : zlen l = 0 → l = [].
Proof. destruct l; [done|]. intros. exfalso. len_lia. Qed.

Lemma fetch_writes_spec file q l :
  Forall entry_ok q → locals_ok l file →
  let '(q', l') := fetch_writes chunk_size q l in
  replay q' (overwrite (chunk_start l' file) (chunk l') (f_bytes file)) =
    replay q (overwrite (chunk_start l file) (chunk l) (f_bytes file)) ∧
  Forall entry_ok q' ∧ locals_ok l' file ∧
  (force_flush_chunk l' = false → q' = [] ∧ force_flush_chunk l = false) ∧
  (length q' ≤ length q)%nat ∧
  (q ≠ [] → chunk l = [] → want_seek l = false → chunk l' ≠ [] ∧ (length q' < length q)%nat) ∧
  (chunk l ≠ [] → chunk l' ≠ []) ∧ (chunk l' = [] → want_seek l' = want_seek l).
Proof.
  revert l; induction q as [|e q IH]; intros l HF Hl; cbn [fetch_writes]; [split_and!; naive_solver|].
  apply Forall_cons in HF as [[He0 He] HF]. destruct Hl as (Hp & Hc & Hcur).
  assert (∀ b, locals_ok (mk_locals (chunk l) (want_seek l) b (current_seek_position l) (next_seek_position l)) file)
    as Hforce by (by intros b).
  destruct (negb (seek_offset e =? current_seek_position l)) eqn:Es; cbn [andb].
  - destruct (Z.eqb_spec (zlen (chunk l)) 0) as [Ez|Nz]; cbn [negb orb].
    + apply zlen_zero in Ez. destruct (want_seek l) eqn:Ew; cbn [orb].
      * split; [unfold chunk_start; by rewrite Ew|]. split; [by constructor|]. split; [apply Hforce|].
        split_and!; naive_solver.
      * cbn [chunk want_seek force_flush_chunk current_seek_position next_seek_position]. rewrite Ez, app_nil_l.
        rewrite (proj2 (Z.ltb_ge _ _)) by (rewrite zlen_nil; lia).
        set (l1 := mk_locals _ _ _ _ _). assert (locals_ok l1 file) as Hl1.
        { unfold locals_ok, l1, chunk_start. cbn. lia. }
        assert (chunk l1 ≠ []) as Hne.
        { unfold l1; cbn. intros C. rewrite C in He. change (zlen []) with 0 in He. lia. }
        specialize (IH l1 HF Hl1). destruct (fetch_writes chunk_size q l1) as [q' l'].
        destruct IH as (-> & ? & ? & H4 & ? & _ & H6 & H7). specialize (H6 Hne).
        split; [done|]. split; [done|]. split; [done|]. split; [done|]. split; [simpl; lia|].
        split; [intros _ _ _; split; [done|simpl; lia]|]. split; done.
    + split; [done|]. split; [by constructor|]. split; [apply Hforce|].
      split_and!; try naive_solver. intros _ C. by rewrite C in Nz.
  - apply negb_false_iff, Z.eqb_eq in Es. destruct (Z.ltb_spec chunk_size (zlen (entry_data e) + zlen (chunk l))) as [Hbig|Hfit].
    + split; [done|]. split; [by constructor|]. split; [apply Hforce|].
      split_and!; try naive_solver. intros _ C. rewrite C in Hbig. change (zlen []) with 0 in Hbig. lia.
    + set (l1 := mk_locals _ _ _ _ _).
      assert (chunk_start l1 file = chunk_start l file) as Ep by done.
      assert (locals_ok l1 file) as Hl1.
      { unfold locals_ok. rewrite Ep. cbn [l1 chunk current_seek_position]. rewrite zlen_app. lia. }
      assert (chunk l1 ≠ []) as Hne.
      { cbn. intros C. apply app_nil in C as [_ C]. rewrite C in He. change (zlen []) with 0 in He. lia. }
      specialize (IH l1 HF Hl1). destruct (fetch_writes chunk_size q l1) as [q' l'].
      destruct IH as (-> & ? & ? & H4 & ? & _ & H6 & H7). specialize (H6 Hne).
      split; [|split; [done|split; [done|split; [done|split; [simpl; lia|]]]]].
      * rewrite Ep. cbn [l1 chunk]. rewrite overwrite_app by done. rewrite <- Hcur, <- Es. done.
      * split; [intros _ _ _; split; [done|simpl; lia]|]. split; done.
Qed.

(** *** Queueing *)

Lemma push_chunks_spec n rem pos bs : 0 ≤ pos →
  let '(es, rest, pos') := push_chunks chunk_size n rem pos in
  overwrite pos' rest (replay es bs) = overwrite pos rem bs ∧
  pos' + zlen rest = pos + zlen rem ∧ 0 ≤ pos' ∧ Forall entry_ok es ∧ (n ≠ O → rem ≠ [] → es ≠ []).
Proof.
  revert rem pos bs; induction n as [|n IH]; intros rem pos bs Hp; cbn [push_chunks].
  - by repeat split.
  - destruct rem as [|b rem]; [by repeat split|]. set (r := b :: rem).
    assert (0 < zlen r) as Hr by (unfold r; len_lia).
    set (m := Z.min (zlen r) chunk_size). assert (0 < m ≤ chunk_size ∧ m ≤ zlen r) as [Hm Hm'] by (unfold m; lia).
    specialize (IH (drop (Z.to_nat m) r) (pos + m) (overwrite pos (take (Z.to_nat m) r) bs) ltac:(lia)).
    destruct (push_chunks chunk_size n (drop (Z.to_nat m) r) (pos + m)) as [[es rest] pos'].
    destruct IH as (E & Hz & Hp' & HF & _).
    assert (zlen (take (Z.to_nat m) r) = m) as Ht by (rewrite zlen_take; lia).
    split; [|split; [|split; [done|split; [|done]]]].
    + change (replay (?e :: es) bs) with (replay es (overwrite (seek_offset e) (entry_data e) bs)).
      cbn [seek_offset entry_data]. rewrite E. rewrite <- (take_drop (Z.to_nat m) r) at 3.
      rewrite overwrite_app by done. by rewrite Ht.
    + rewrite Hz, zlen_drop. lia.
    + constructor; [|done]. split; cbn [seek_offset entry_data]; lia.
Qed.

(** ** The invariant *)

(** The data: everything on its way completes the sequential file. *)
Record flow (io : io_buffer) (f : FILE) : Prop := {
  fl_bytes : settled_bytes io = f_bytes f;
  fl_pos : next_pos io + zlen (unqueued (user io)) = f_pos f;
  fl_next : 0 ≤ next_pos io;
  fl_entries : Forall entry_ok (data io);
  fl_locals : locals_ok (locals io) (output_file io)
}.

(** The control: what the flags and events say about the threads. *)
Record control (io : io_buffer) : Prop := {
  ct_shutdown : shutdown_requested io = match user io with U_CLOSING | U_CLOSED => true | _ => false end;
  ct_error : output_error io = true → thread io = T_EXIT;
  ct_writing : ∀ r, user io = U_WRITE r ∨ user io = U_WAIT r → r ≠ [];
  ct_sleep : thread io = T_WAIT → new_data_available io = false → data io = [] ∧ user io ≠ U_CLOSED;
  ct_full : ∀ r, user io = U_WAIT r → buffer_space_available io = true ∨ data io ≠ [];
  ct_force : thread io = T_WAIT ∨ thread io = T_FETCH → force_flush_chunk (locals io) = false;
  ct_exit : thread io = T_EXIT → output_error io = false →
    shutdown_requested io = true ∧ data io = [] ∧ chunk (locals io) = []
}.

Lemma flow_fetch io f : flow io f → flow (fetch_step chunk_size io) f.
Proof.
  intros [Hb Hp Hn He Hl]. unfold fetch_step.
  pose proof (fetch_writes_spec (output_file io) (data io) (locals io) He Hl) as Hs.
  destruct (fetch_writes chunk_size (data io) (locals io)) as [q l]. destruct Hs as (Hr & He' & Hl' & _).
  destruct (_ && _); (split; [|done..]); unfold settled_bytes in *; cbn [next_pos user data locals output_file]; by rewrite Hr.
Qed.

Lemma chunk_written l file : locals_ok l file →
  let file' := if want_seek l then (os_fseeki64 (next_seek_position l) SERIALIZE_SEEK_START file).2 else file in
  f_pos file' = chunk_start l file ∧ f_bytes file' = f_bytes file.
Proof.
  intros (Hp & _). unfold chunk_start in *. destruct (want_seek l); [|done].
  unfold os_fseeki64. rewrite Z.add_0_l, (proj2 (Z.ltb_ge _ _)) by lia. done.
Qed.

Lemma flow_flush io f : flow io f → flow (flush_step io) f.
Proof.
  intros [Hb Hp Hn He Hl]. unfold flush_step. destruct (chunk_written _ _ Hl) as [Ep Eb].
  destruct Hl as (Hl1 & Hl2 & Hl3). set (l := locals io) in *. set (P := chunk_start l (output_file io)) in *.
  assert (∀ file cur nx, f_pos file = P + zlen (chunk l) → cur = P + zlen (chunk l) →
    locals_ok (mk_locals [] false false cur nx) file) as Hok.
  { intros file cur nx E1 ->. pose proof (zlen_nonneg (chunk l)). unfold locals_ok, chunk_start. cbn. change (zlen []) with 0. lia. }
  assert (∀ file nx, f_pos file = P + zlen (chunk l) → f_bytes file = overwrite P (chunk l) (f_bytes (output_file io)) →
    overwrite (next_pos io) (unqueued (user io)) (replay (data io)
      (overwrite (chunk_start (mk_locals [] false false (P + zlen (chunk l)) nx) file) [] (f_bytes file))) = f_bytes f) as Hset.
  { intros file nx E1 E2. unfold settled_bytes in Hb. fold l P in Hb. cbn [overwrite]. by rewrite E2. }
  unfold seek_chunk. fold l. destruct (want_seek l) eqn:Ew.
  - assert (next_seek_position l = P) as En by (unfold P, chunk_start; by rewrite Ew). rewrite En in *.
    cbn [chunk want_seek force_flush_chunk current_seek_position next_seek_position].
    destruct (chunk l) as [|b c] eqn:Ec; (split; cbn [next_pos user data locals output_file]; try done);
      first [apply Hset|apply Hok]; cbn [fwrite snd f_pos f_bytes overwrite]; rewrite ?Ep, ?Eb; change (zlen []) with 0; rewrite ?Z.add_0_r; done.
  - assert (current_seek_position l = P + zlen (chunk l)) as En by done. rewrite En in *.
    destruct (chunk l) as [|b c] eqn:Ec; (split; cbn [next_pos user data locals output_file]; try done); rewrite ?Ew;
      first [apply Hset|apply Hok]; cbn [fwrite snd f_pos f_bytes overwrite]; rewrite ?Ep, ?Eb; change (zlen []) with 0; rewrite ?Z.add_0_r; done.
Qed.

Lemma flow_iteration io f capacity r : output_error io = false → user io = U_WRITE r →
  flow io f → flow (write_iteration buffer_size chunk_size capacity r io) f.
Proof.
  intros Herr Hu [Hb Hp Hn He Hl]. unfold settled_bytes in Hb. rewrite Hu in Hb, Hp. cbn [unqueued] in Hb, Hp.
  unfold write_iteration. rewrite Herr. destruct (_ <? _); [by split|].
  set (n := Z.to_nat _). set (base := replay (data io) _) in Hb.
  pose proof (push_chunks_spec n r (next_pos io) base Hn) as Hs.
  destruct (push_chunks chunk_size n r (next_pos io)) as [[es rest] pos]. destruct Hs as (Er & Ez & Hn' & He' & _).
  assert (unqueued (match rest with [] => U_IDLE | _ => U_WRITE rest end) = rest) as Eu by (by destruct rest).
  split; cbn [next_pos user data locals output_file]; rewrite ?Eu.
  - unfold settled_bytes. cbn [next_pos user data locals output_file]. rewrite Eu, replay_app.
    fold base. by rewrite Er.
  - lia.
  - done.
  - by apply Forall_app.
  - done.
Qed.

Lemma seek_spec io f off ty : output_error io = false → call_ok f (C_SEEK off ty) → next_pos io = f_pos f →
  ∃ pos, (file_output_seek off ty io).2 =
      mk_io (data io) pos (shutdown_requested io) (output_error io) (buffer_space_available io)
        (new_data_available io) (output_file io) (user io) (thread io) (locals io) ∧
    call_spec f (C_SEEK off ty) = mk_FILE (f_bytes f) pos ∧ 0 ≤ pos.
Proof.
  intros Herr Hc Hp. unfold file_output_seek, call_spec, seek_meant, FileSerializer.file_output_seek, os_fseeki64.
  rewrite Herr. destruct ty; cbn [call_ok] in Hc;
    rewrite (proj2 (Z.ltb_ge _ _)) by lia; eexists; split; try reflexivity; cbn; rewrite ?Hp; split; done || lia.
Qed.

(** A call advances the sequential file; a step of the threads does not. *)
Lemma flow_call io io' f c : output_error io = false → call_ok f c →
  flow io f → step buffer_size chunk_size (Some c) io io' → flow io' (call_spec f c).
Proof.
  intros Herr Hc [Hb Hp Hn He Hl] Hs. inversion Hs as [? bs Hu Hne|? off ty Hu|? Hu| | | | |]; subst;
    unfold settled_bytes in Hb; rewrite Hu in Hb, Hp; cbn [unqueued overwrite] in Hb, Hp;
    change (zlen []) with 0 in Hp; rewrite Z.add_0_r in Hp.
  - split; [| |done..].
    + unfold settled_bytes. cbn [set_user next_pos user data locals output_file unqueued call_spec file_output_write fwrite snd f_bytes].
      by rewrite Hb, Hp.
    + cbn. by rewrite Hp.
  - destruct (seek_spec io f off ty Herr Hc Hp) as (pos & -> & -> & Hpos).
    split; cbn [next_pos user data locals output_file f_pos f_bytes]; try done.
    + unfold settled_bytes. cbn [next_pos user data locals output_file]. rewrite Hu. exact Hb.
    + rewrite Hu. cbn [unqueued]. change (zlen []) with 0. lia.
  - split; try done. cbn. change (zlen []) with 0. lia.
Qed.

(** *** Control *)

Lemma not_error io : control io → thread io ≠ T_EXIT → output_error io = false.
Proof. intros [_ He _ _ _ _ _] Ht. destruct (output_error io); [|done]. by destruct Ht; apply He. Qed.

Lemma control_fetch io f : control io → thread io = T_FETCH → flow io f → control (fetch_step chunk_size io).
Proof.
  intros Hctl Ht [_ _ _ He Hl]. pose proof (not_error io Hctl ltac:(by rewrite Ht)) as Herr.
  destruct Hctl as [H1 _ H3 _ H5 H6 _].
  unfold fetch_step. pose proof (fetch_writes_spec (output_file io) (data io) (locals io) He Hl) as Hs.
  destruct (fetch_writes chunk_size (data io) (locals io)) as [q l].
  destruct Hs as (_ & _ & _ & Hforce & _).
  destruct (force_flush_chunk l) eqn:Ef; cbn [negb andb].
  - split; cbn; try done; try congruence; [by intros r _; left|by intros [?|?]].
  - destruct (Hforce eq_refl) as [-> _].
    destruct ((zlen (chunk l) =? 0) || (zlen (chunk l) <? 65536) && negb (shutdown_requested io)) eqn:Eu.
    + destruct (shutdown_requested io) eqn:Es; (split; cbn; try done; try congruence).
      * by intros r _; left.
      * intros _ _. rewrite andb_false_r, orb_false_r in Eu. split; [done|]. split; [done|]. by apply zlen_zero, Z.eqb_eq.
      * intros _ _. split; [done|]. intros C. by rewrite C in H1.
      * by intros r _; left.
    + split; cbn; try done; try congruence. by intros r _; left.
Qed.

Lemma control_flush io : control io → thread io = T_FLUSH → control (flush_step io).
Proof.
  intros Hctl Ht. pose proof (not_error io Hctl ltac:(by rewrite Ht)) as Herr.
  destruct Hctl as [H1 _ H3 _ H5 _ _]. unfold flush_step.
  destruct (seek_chunk _ _) as [file l].
  destruct (chunk l); split; cbn; try done; congruence.
Qed.

Lemma deque_size_pos es : Forall entry_ok es → 0 ≤ deque_size es.
Proof.
  induction 1 as [|e es [_ He] _ IH]; [done|]. cbn [deque_size foldr]. fold (deque_size es).
  unfold entry_size, header_size. lia.
Qed.

Lemma control_iteration io capacity r : control io → user io = U_WRITE r →
  (output_error io = false → Forall entry_ok (data io) ∧ 0 ≤ next_pos io) → deque_size (data io) ≤ capacity →
  control (write_iteration buffer_size chunk_size capacity r io).
Proof.
  intros Hctl Hu Hent Hcap. pose proof (ct_writing io Hctl r ltac:(by left)) as Hr.
  destruct Hctl as [H1 H2 H3 H4 H5 H6 H7]. rewrite Hu in H1. unfold write_iteration.
  destruct (output_error io) eqn:Herr.
  { split; cbn; try done; try naive_solver; try congruence. }
  destruct (Hent eq_refl) as [He Hn].
  assert (0 < zlen r) as Hlr by (destruct r; [done|len_lia]). unfold header_size in *.
  set (m := Z.min (zlen r) chunk_size). assert (0 < m ≤ chunk_size) as Hm by (unfold m; lia).
  destruct (Z.ltb_spec (Z.max capacity buffer_size - deque_size (data io)) (m + 16)) as [Hfull|Hroom].
  - assert (data io ≠ []) as Hne.
    { intros C. rewrite C in Hfull. cbn [deque_size foldr] in Hfull. lia. }
    split; cbn; try done; try naive_solver; try congruence.
  - set (num := _ `div` _). assert (1 ≤ num) as Hnum by (unfold num; apply Z.div_le_lower_bound; lia).
    pose proof (push_chunks_spec (Z.to_nat num) r (next_pos io) [] Hn) as Hs.
    destruct (push_chunks chunk_size (Z.to_nat num) r (next_pos io)) as [[es rest] pos].
    destruct Hs as (_ & _ & _ & _ & Hes). specialize (Hes ltac:(lia) Hr).
    split; cbn; try done.
    + rewrite H1. by destruct rest.
    + intros r' [E|E]; destruct rest; simplify_eq; done.
    + intros r' E. destruct rest; simplify_eq.
    + intros Ht _. by destruct (H7 Ht eq_refl) as (C & _); rewrite H1 in C.
Qed.

Lemma control_step o io io' : control io → (output_error io = false → ∃ f, flow io f) →
  step buffer_size chunk_size o io io' → control io'.
Proof.
  intros Hctl Hfl Hs.
  inversion Hs as [? bs Hu Hne|? off ty Hu|? Hu|? r cap Hu Hcap|? r Hu Hsp|? Hu|? ? Hio|? n Ht Hlen]; subst; clear Hs.
  - destruct Hctl as [H1 H2 H3 H4 H5 H6 H7]. rewrite Hu in *. split; cbn; try done; try naive_solver.
  - unfold file_output_seek. destruct (output_error io) eqn:Herr; [exact Hctl|].
    destruct Hctl as [H1 H2 H3 H4 H5 H6 H7]. rewrite Herr in *. split; cbn; done.
  - destruct Hctl as [H1 H2 H3 H4 H5 H6 H7]. rewrite Hu in *. split; cbn; try done; try naive_solver.
  - apply control_iteration; [done..| |done]. intros Herr. destruct (Hfl Herr) as [f [_ _ Hn He _]]. done.
  - destruct Hctl as [H1 H2 H3 H4 H5 H6 H7]. rewrite Hu in *. split; cbn; try done; try naive_solver.
  - destruct Hctl as [H1 H2 H3 H4 H5 H6 H7]. rewrite Hu in *. split; cbn; try done; try naive_solver.
  - inversion Hio as [? Ht Hev|? Ht|? Ht]; subst; clear Hio.
    + pose proof (not_error io Hctl ltac:(by rewrite Ht)) as Herr.
      destruct Hctl as [H1 H2 H3 H4 H5 H6 H7]. split; cbn; try done; try naive_solver; try congruence.
    + pose proof (not_error io Hctl ltac:(by rewrite Ht)) as Herr. destruct (Hfl Herr) as [f Hf].
      by eapply control_fetch.
    + by apply control_flush.
  - unfold fail_step. destruct (seek_chunk _ _) as [file l].
    destruct Hctl as [H1 H2 H3 H4 H5 H6 H7]. split; cbn; try done; try naive_solver.
Qed.

Lemma flow_tau io io' f : step buffer_size chunk_size None io io' → control io → output_error io' = false →
  flow io f → flow io' f.
Proof.
  intros Hs Hctl Herr Hf. inversion Hs as [| | |? r cap Hu Hcap|? r Hu Hsp|? Hu|? ? Hio|? n Ht Hlen]; subst; clear Hs.
  - apply flow_iteration; [|done..]. revert Herr. unfold write_iteration. by destruct (output_error io) eqn:E; [cbn; rewrite E|].
  - destruct Hf as [Hb Hp Hn He Hl]. unfold settled_bytes in Hb. rewrite Hu in Hb, Hp.
    split; [exact Hb|exact Hp|done..].
  - destruct Hf as [Hb Hp Hn He Hl]. unfold settled_bytes in Hb. rewrite Hu in Hb, Hp.
    split; [exact Hb|exact Hp|done..].
  - inversion Hio; subst; [by destruct Hf|by apply flow_fetch|by apply flow_flush].
  - revert Herr. unfold fail_step. by destruct (seek_chunk _ _).
Qed.

Lemma step_error o io io' : step buffer_size chunk_size o io io' → output_error io' = false → output_error io = false.
Proof.
  intros Hs. inversion Hs as [| | | | | |? ? Hio|? n ? ?]; subst; cbn; try done.
  - unfold file_output_seek. by destruct (output_error io) eqn:E; cbn; rewrite ?E.
  - unfold write_iteration. destruct (output_error io) eqn:E; [cbn; by rewrite E|done].
  - inversion Hio; subst; [done| |].
    + unfold fetch_step. destruct (fetch_writes _ _ _). by destruct (_ && _).
    + unfold flush_step. destruct (seek_chunk _ _) as [file l]. by destruct (chunk l).
  - unfold fail_step. by destruct (seek_chunk _ _).
Qed.

(** The invariant of every run. *)
Lemma run_inv cs io : run buffer_size chunk_size cs io → calls_ok file_output_serializer_init cs →
  control io ∧ (output_error io = false → flow io (file_spec cs)).
Proof.
  induction 1 as [|cs io io' c Hr IH Hs|cs io io' Hr IH Hs]; intros Hc.
  - split; [split; cbn; try done; try naive_solver|]. intros _. split; cbn; try done. unfold locals_ok, chunk_start; cbn. change (zlen []) with 0. lia.
  - apply calls_ok_snoc in Hc as [Hc1 Hc2]. destruct (IH Hc1) as [Hctl Hfl]. split.
    + eapply control_step; [done| |done]. eauto.
    + intros Herr. pose proof (step_error _ _ _ Hs Herr) as Herr'. unfold file_spec. rewrite foldl_app.
      eapply flow_call; [done..| |done]. by apply Hfl.
  - destruct (IH Hc) as [Hctl Hfl]. split.
    + eapply control_step; [done| |done]. eauto.
    + intros Herr. eapply flow_tau; [done..|]. apply Hfl. by eapply step_error.
Qed.
End proofs.

(** ** The writer is a file *)

Section claims.
Context (buffer_size chunk_size : Z).

Lemma closed_file cs io :
  0 < chunk_size → chunk_size + header_size ≤ buffer_size →
  run buffer_size chunk_size cs io → calls_ok file_output_serializer_init cs →
  user io = U_CLOSED → thread io = T_EXIT → output_error io = false →
  f_bytes (output_file io) = f_bytes (file_spec cs).
Proof.
  intros Hc Hb Hr Hok Hu Ht Herr. destruct (run_inv _ _ Hc Hb cs io Hr Hok) as [Hctl Hfl].
  destruct (Hfl Herr) as [E _ _ _ _]. destruct (ct_exit io Hctl Ht Herr) as (_ & Ed & Ec).
  revert E. unfold settled_bytes. by rewrite Hu, Ed, Ec.
Qed.

(** C20: Whatever the interleaving of the user's calls and the I/O thread, once the
    serializer is freed and the thread has ended without an I/O error, the file holds
    exactly what the same calls, carried out one after the other, write to a plain
    file: nothing is lost, duplicated or reordered, also where the user seeks back
    and overwrites. A seek from the end is, on that file, one back from the position, which
    is what the buffered writer does; no seek goes before the start of the file. *)
Theorem buffered_writer_is_file cs io :
  0 < chunk_size → chunk_size + header_size ≤ buffer_size →
  run buffer_size chunk_size cs io → calls_ok file_output_serializer_init cs →
  user io = U_CLOSED → thread io = T_EXIT → output_error io = false →
  f_bytes (output_file io) = f_bytes (file_spec cs).
Proof. intros. by apply (closed_file cs). Qed.


(** The steps left to the I/O thread when nothing more is queued. *)
Definition io_work (io : io_buffer) : nat :=
  match thread io with
  | T_WAIT => 2 * length (data io) + 4
  | T_FETCH =>
      2 * length (data io) +
      (match chunk (locals io) with [] => if want_seek (locals io) then 3 else 1 | _ => 3 end)
  | T_FLUSH => 2 * length (data io) + 2
  | T_EXIT => 0
  end.

Lemma fetch_work cs io :
  0 < chunk_size → chunk_size + header_size ≤ buffer_size → run buffer_size chunk_size cs io →
  calls_ok file_output_serializer_init cs → output_error io = false → thread io = T_FETCH →
  shutdown_requested io = true → (io_work (fetch_step chunk_size io) < io_work io)%nat.
Proof.
  intros Hc Hb Hr Hok Herr Ht Hsd. destruct (run_inv _ _ Hc Hb cs io Hr Hok) as [Hctl Hfl].
  destruct (Hfl Herr) as [_ _ _ He Hl]. pose proof (ct_force io Hctl ltac:(by right)) as Hforce.
  unfold io_work at 2. rewrite Ht. unfold fetch_step.
  pose proof (fetch_writes_spec chunk_size (output_file io) (data io) (locals io) He Hl) as Hs.
  destruct (data io) as [|e q0] eqn:Ed.
  - cbn [fetch_writes]. rewrite Hforce, Hsd. cbn [negb andb orb length].
    destruct (chunk (locals io)) as [|c0 ch] eqn:Ech; [destruct (want_seek (locals io)); change (zlen []) with 0; cbn; lia|].
    destruct (_ || _); cbn; lia.
  - destruct (fetch_writes chunk_size (e :: q0) (locals io)) as [q l].
    destruct Hs as (_ & _ & _ & _ & Hle & Hlt & _). rewrite Hsd.
    destruct (chunk (locals io)) eqn:Ec.
    + destruct (want_seek (locals io)) eqn:Ew; [|destruct (Hlt ltac:(done) eq_refl eq_refl) as [_ ?]];
        (destruct (_ && _); cbn [io_work thread data length] in *; lia).
    + destruct (_ && _); cbn [io_work thread data length] in *; lia.
Qed.

Lemma flush_work io : thread io = T_FLUSH → (io_work (flush_step io) < io_work io)%nat.
Proof.
  intros Ht. unfold io_work at 2. rewrite Ht. unfold flush_step.
  unfold seek_chunk. destruct (want_seek (locals io)) eqn:Ew; cbn [chunk want_seek].
  - destruct (chunk (locals io)); cbn; lia.
  - destruct (chunk (locals io)); cbn; rewrite ?Ew; lia.
Qed.

Lemma drain cs io :
  0 < chunk_size → chunk_size + header_size ≤ buffer_size → run buffer_size chunk_size cs io →
  calls_ok file_output_serializer_init cs → output_error io = false → user io = U_CLOSED →
  ∃ io', rtc (io_step chunk_size) io io' ∧ run buffer_size chunk_size cs io' ∧
    user io' = U_CLOSED ∧ thread io' = T_EXIT ∧ output_error io' = false.
Proof.
  intros Hc Hb Hr Hok Herr Hu. remember (io_work io) as w eqn:Ew.
  revert io Hr Herr Hu Ew. induction (lt_wf w) as [w _ IH]. intros io Hr Herr Hu ->.
  destruct (run_inv _ _ Hc Hb cs io Hr Hok) as [Hctl _].
  pose proof (ct_shutdown io Hctl) as Hsd. rewrite Hu in Hsd.
  assert (∀ io1, io_step chunk_size io io1 → user io1 = U_CLOSED → output_error io1 = false →
    (io_work io1 < io_work io)%nat →
    ∃ io', rtc (io_step chunk_size) io io' ∧ run buffer_size chunk_size cs io' ∧
      user io' = U_CLOSED ∧ thread io' = T_EXIT ∧ output_error io' = false) as Hnext.
  { intros io1 Hs Hu1 He1 Hw. destruct (IH _ Hw io1) as (io' & ? & ?); [|done..|].
    - eapply run_tau; [exact Hr|by apply s_io].
    - exists io'. split; [by eapply rtc_l|done]. }
  destruct (thread io) eqn:Et.
  - destruct (new_data_available io) eqn:En; [|by destruct (ct_sleep io Hctl Et En)].
    apply (Hnext (wake_thread io)); [by apply io_wake|done|done|].
    unfold io_work. rewrite Et. cbn. destruct (chunk (locals io)); [destruct (want_seek (locals io))|]; lia.
  - apply (Hnext (fetch_step chunk_size io)); [by apply io_fetch| | |by eapply fetch_work].
    all: unfold fetch_step; destruct (fetch_writes _ _ _); by destruct (_ && _).
  - apply (Hnext (flush_step io)); [by apply io_flush| | |by apply flush_work].
    all: unfold flush_step; destruct (seek_chunk _ _) as [file l]; by destruct (chunk l).
  - exists io. by split_and!; [apply rtc_refl|..].
Qed.

(** C27: Closing the serializer completes the file: once the user has closed it, the I/O
    thread, left to run without an I/O error, ends after finitely many steps, and
    the file then holds everything that was written (with seeks as in
    [buffered_writer_is_file]). *)
Theorem buffered_writer_drains cs io :
  0 < chunk_size → chunk_size + header_size ≤ buffer_size → run buffer_size chunk_size cs io →
  calls_ok file_output_serializer_init cs → output_error io = false → user io = U_CLOSED →
  ∃ io', rtc (io_step chunk_size) io io' ∧ thread io' = T_EXIT ∧
    f_bytes (output_file io') = f_bytes (file_spec cs).
Proof.
  intros Hc Hb Hr Hok Herr Hu. destruct (drain cs io) as (io' & Hs & Hr' & Hu' & Ht' & He'); [done..|].
  exists io'. split; [done|]. split; [done|]. by apply (closed_file cs).
Qed.
End claims.

(** ** Examples *)

(** Six bytes, the second one rewritten, with room for two small entries only: the
    last write has to wait until the I/O thread makes room. *)
Definition ex_calls : list call :=
  [C_WRITE [1; 2; 3; 4; 5; 6]; C_SEEK 1 SERIALIZE_SEEK_START; C_WRITE [9]; C_FREE].

Definition ex_write (bs : bytes) (io : io_buffer) : io_buffer := set_user (U_WRITE bs) io.
Definition ex_iterate (r : bytes) (io : io_buffer) : io_buffer := write_iteration 40 4 (deque_size (data io)) r io.
Definition ex_resume (r : bytes) (io : io_buffer) : io_buffer :=
  mk_io (data io) (next_pos io) (shutdown_requested io) (output_error io) false (new_data_available io)
    (output_file io) (U_WRITE r) (thread io) (locals io).
Definition ex_free (io : io_buffer) : io_buffer :=
  mk_io (data io) (next_pos io) true (output_error io) (buffer_space_available io)
    (new_data_available io) (output_file io) U_CLOSING (thread io) (locals io).
Definition ex_signal (io : io_buffer) : io_buffer :=
  mk_io (data io) (next_pos io) (shutdown_requested io) (output_error io) (buffer_space_available io) true
    (output_file io) U_CLOSED (thread io) (locals io).

Definition ex_blocked : io_buffer :=
  fetch_step 4 (wake_thread (ex_iterate [9] (ex_write [9] (file_output_seek 1 SERIALIZE_SEEK_START
    (ex_iterate [1; 2; 3; 4; 5; 6] (ex_write [1; 2; 3; 4; 5; 6] buffered_file_serializer_init))).2))).
Definition ex_closed : io_buffer :=
  ex_signal (ex_free (fetch_step 4 (flush_step (fetch_step 4 (flush_step
    (ex_iterate [9] (ex_resume [9] ex_blocked))))))).
Definition ex_ended : io_buffer :=
  fetch_step 4 (flush_step (fetch_step 4 (wake_thread ex_closed))).

Lemma ex_blocked_run : run 40 4 (take 3 ex_calls) ex_blocked.
Proof.
  eapply run_tau; [|apply s_io, io_fetch; vm_compute; reflexivity].
  eapply run_tau; [|apply s_io, io_wake; vm_compute; reflexivity].
  eapply run_tau; [|apply s_iteration; [vm_compute; reflexivity|reflexivity]].
  change (take 3 ex_calls) with ((([] ++ [C_WRITE [1; 2; 3; 4; 5; 6]]) ++ [C_SEEK 1 SERIALIZE_SEEK_START]) ++ [C_WRITE [9]]).
  eapply run_call; [|apply s_write; [vm_compute; reflexivity|done]].
  eapply run_call; [|apply s_seek; vm_compute; reflexivity].
  eapply run_tau; [|apply s_iteration; [vm_compute; reflexivity|reflexivity]].
  eapply run_call; [|apply s_write; [vm_compute; reflexivity|done]]. apply run_init.
Qed.

Lemma ex_closed_run : run 40 4 ex_calls ex_closed.
Proof.
  eapply run_tau; [|apply s_signal; vm_compute; reflexivity].
  change ex_calls with (take 3 ex_calls ++ [C_FREE]).
  eapply run_call; [|apply s_free; vm_compute; reflexivity].
  do 2 (eapply run_tau; [|apply s_io, io_fetch; vm_compute; reflexivity];
        eapply run_tau; [|apply s_io, io_flush; vm_compute; reflexivity]).
  eapply run_tau; [|apply s_iteration; [vm_compute; reflexivity|reflexivity]].
  eapply run_tau; [|apply s_resume; vm_compute; reflexivity]. apply ex_blocked_run.
Qed.

Lemma ex_ended_run : run 40 4 ex_calls ex_ended.
Proof.
  eapply run_tau; [|apply s_io, io_fetch; vm_compute; reflexivity].
  eapply run_tau; [|apply s_io, io_flush; vm_compute; reflexivity].
  eapply run_tau; [|apply s_io, io_fetch; vm_compute; reflexivity].
  eapply run_tau; [|apply s_io, io_wake; vm_compute; reflexivity]. apply ex_closed_run.
Qed.

Lemma buffered_writer_is_file_witness : f_bytes (output_file ex_ended) = [1; 9; 3; 4; 5; 6].
Proof. refine (buffered_writer_is_file 40 4 ex_calls ex_ended _ _ ex_ended_run _ _ _ _); done. Defined.


Lemma buffered_writer_drains_witness :
  ∃ io', rtc (io_step 4) ex_closed io' ∧ thread io' = T_EXIT ∧
    f_bytes (output_file io') = [1; 9; 3; 4; 5; 6].
Proof. refine (buffered_writer_drains 40 4 ex_calls ex_closed _ _ ex_closed_run _ _ _); done. Defined.

(** The same calls through both serializers: a seek by 1 from the end, at position 1 of 3. *)
Example seek_end_differs :
  f_bytes (file_spec [C_WRITE [1; 2; 3]; C_SEEK 1 SERIALIZE_SEEK_START; C_SEEK 1 SERIALIZE_SEEK_END; C_WRITE [9]]) =
    [9; 2; 3] ∧
  f_bytes (file_output_write [9] (FileSerializer.file_output_seek 1 SERIALIZE_SEEK_END (mk_FILE [1; 2; 3] 1)).2).2 =
    [1; 2; 3; 0; 9].
Proof. split; vm_compute; reflexivity. Qed.

(** ** A failed write *)

(** The user filled the queue and waits for room; the I/O thread, which had signalled
    before the queue was filled again, fails to write its chunk. *)
Definition ex_failed : io_buffer :=
  fail_step 1 (ex_iterate [8; 8; 8; 8] (ex_write [8; 8; 8; 8] (ex_iterate [9] (ex_resume [9] ex_blocked)))).

Lemma ex_failed_run :
  run 40 4 (take 3 ex_calls ++ [C_WRITE [8; 8; 8; 8]]) ex_failed.
Proof.
  eapply run_tau; [|apply s_fail; [vm_compute; reflexivity|vm_compute; lia]].
  eapply run_tau; [|apply s_iteration; [vm_compute; reflexivity|reflexivity]].
  eapply run_call; [|apply s_write; [vm_compute; reflexivity|done]].
  eapply run_tau; [|apply s_iteration; [vm_compute; reflexivity|reflexivity]].
  eapply run_tau; [|apply s_resume; vm_compute; reflexivity]. apply ex_blocked_run.
Qed.

Lemma dead_state bs cs io rest o io' :
  user io = U_WAIT rest → thread io = T_EXIT → buffer_space_available io = false → ¬ step bs cs o io io'.
Proof.
  intros Hu Ht Hsp Hs. inversion Hs as [| | | | | |? ? Hio|]; subst; try congruence.
  inversion Hio; congruence.
Qed.

(** An I/O error can leave the caller of the serializer waiting for ever: the I/O
    thread ends without signalling that there is room, so a write that waits for room
    at that moment is never woken up and cannot report the error. *)
Theorem failed_write_blocks_user :
  ∃ cs io rest, run 40 4 cs io ∧ user io = U_WAIT rest ∧ output_error io = true ∧
    ∀ o io', ¬ step 40 4 o io io'.
Proof.
  exists (take 3 ex_calls ++ [C_WRITE [8; 8; 8; 8]]), ex_failed, [8; 8; 8; 8].
  split; [apply ex_failed_run|]. split; [done|]. split; [done|].
  intros o io'. by apply (dead_state _ _ _ [8; 8; 8; 8]).
Qed.
