(* ===== verification/Encoder.v ===== *)
(** * Encoders and encoded packets: libobs/obs-encoder.h and obs-encoder.c

    [obs_encoder] holds what the outputs read from an encoder; the accessors
    below are those of obs-encoder.c. A [null] encoder pointer is [None]. *)

From S2P Require Import Prelude.

Local Open Scope Z_scope.

(** ** Audio and video descriptions (media-io/audio-io.h, media-io/video-io.h) *)

Inductive speaker_layout :=
  SPEAKERS_UNKNOWN | SPEAKERS_MONO | SPEAKERS_STEREO | SPEAKERS_2POINT1
| SPEAKERS_4POINT0 | SPEAKERS_4POINT1 | SPEAKERS_5POINT1 | SPEAKERS_7POINT1.

Definition get_audio_channels (speakers : speaker_layout) : Z :=
  match speakers with
  | SPEAKERS_MONO => 1
  | SPEAKERS_STEREO => 2
  | SPEAKERS_2POINT1 => 3
  | SPEAKERS_4POINT0 => 4
  | SPEAKERS_4POINT1 => 5
  | SPEAKERS_5POINT1 => 6
  | SPEAKERS_7POINT1 => 8
  | SPEAKERS_UNKNOWN => 0
  end.

Inductive video_colorspace :=
  VIDEO_CS_DEFAULT | VIDEO_CS_601 | VIDEO_CS_709 | VIDEO_CS_SRGB
| VIDEO_CS_2100_PQ | VIDEO_CS_2100_HLG.

Inductive video_range_type := VIDEO_RANGE_DEFAULT | VIDEO_RANGE_PARTIAL | VIDEO_RANGE_FULL.

Inductive video_format :=
  VIDEO_FORMAT_NONE | VIDEO_FORMAT_I420 | VIDEO_FORMAT_NV12 | VIDEO_FORMAT_YVYU | VIDEO_FORMAT_YUY2
| VIDEO_FORMAT_UYVY | VIDEO_FORMAT_RGBA | VIDEO_FORMAT_BGRA | VIDEO_FORMAT_BGRX | VIDEO_FORMAT_Y800
| VIDEO_FORMAT_I444 | VIDEO_FORMAT_BGR3 | VIDEO_FORMAT_I422 | VIDEO_FORMAT_I40A | VIDEO_FORMAT_I42A
| VIDEO_FORMAT_YUVA | VIDEO_FORMAT_AYUV | VIDEO_FORMAT_I010 | VIDEO_FORMAT_P010 | VIDEO_FORMAT_I210
| VIDEO_FORMAT_I412 | VIDEO_FORMAT_YA2L | VIDEO_FORMAT_P216 | VIDEO_FORMAT_P416 | VIDEO_FORMAT_V210
| VIDEO_FORMAT_R10L.

(** [struct video_output_info], the fields the muxers read. *)
Record video_t := mk_video {
  vi_format : video_format;
  vi_width : Z; vi_height : Z; fps_num : Z; fps_den : Z;
  colorspace : video_colorspace; range : video_range_type
}.

(** [struct audio_output_info]; an open output has
    [channels = get_audio_channels(info->speakers)]. *)
Record audio_t := mk_audio { samples_per_sec : Z; speakers : speaker_layout }.

Definition audio_output_get_channels (a : audio_t) : Z := get_audio_channels (speakers a).
Definition audio_output_get_sample_rate (a : audio_t) : Z := samples_per_sec a.

(** ** Encoders *)

Inductive obs_encoder_type := OBS_ENCODER_AUDIO | OBS_ENCODER_VIDEO.

#[global] Instance obs_encoder_type_eq_dec : EqDecision obs_encoder_type.
Proof. solve_decision. Defined.

(** The settings of an encoder the muxers read ([obs_data_get_int],
    [obs_data_get_json_with_defaults]). *)
Record encoder_settings := mk_settings {
  set_bitrate : Z; set_codec_type : Z; set_json : bytes
}.

(** [enc_ptr] is the address, the identity pointer comparisons test. The [media]
    pointer is a video or an audio output according to the type of the encoder. *)
Record obs_encoder := mk_encoder {
  enc_ptr : Z;
  enc_type : obs_encoder_type;
  enc_name : option bytes;
  enc_id : option bytes;
  enc_codec : string;
  enc_extra_data : option bytes;
  enc_settings : option encoder_settings;
  enc_video_media : option video_t;
  enc_fps_override : option video_t;
  enc_audio_media : option audio_t;
  enc_scaled_width : Z;
  enc_scaled_height : Z;
  enc_samplerate : Z;
  enc_framesize : Z;
  enc_timebase_num : Z;
  enc_timebase_den : Z
}.

Section accessors.
Implicit Types e : option obs_encoder.

Definition obs_encoder_get_name e : option bytes := e ≫= enc_name.
Definition obs_encoder_get_id e : option bytes := e ≫= enc_id.
Definition obs_encoder_get_settings e : option encoder_settings := e ≫= enc_settings.
Definition obs_encoder_get_codec e : option string := enc_codec <$> e.
Definition obs_encoder_get_type e : obs_encoder_type :=
  match e with Some e => enc_type e | None => OBS_ENCODER_AUDIO end.

(** [get_extra_data] of the encoder's implementation; [None] is [false]. *)
Definition obs_encoder_get_extra_data e : option bytes := e ≫= enc_extra_data.

Definition obs_encoder_video e : option video_t :=
  match e with
  | Some e =>
      match enc_type e with
      | OBS_ENCODER_VIDEO =>
          match enc_fps_override e with Some v => Some v | None => enc_video_media e end
      | OBS_ENCODER_AUDIO => None
      end
  | None => None
  end.

Definition obs_encoder_audio e : option audio_t :=
  match e with
  | Some e =>
      match enc_type e with OBS_ENCODER_AUDIO => enc_audio_media e | _ => None end
  | None => None
  end.

Definition obs_encoder_get_width e : Z :=
  match e with
  | Some e =>
      match enc_type e, enc_video_media e with
      | OBS_ENCODER_VIDEO, Some m =>
          if negb (enc_scaled_width e =? 0) then enc_scaled_width e else vi_width m
      | _, _ => 0
      end
  | None => 0
  end.

Definition obs_encoder_get_height e : Z :=
  match e with
  | Some e =>
      match enc_type e, enc_video_media e with
      | OBS_ENCODER_VIDEO, Some m =>
          if negb (enc_scaled_height e =? 0) then enc_scaled_height e else vi_height m
      | _, _ => 0
      end
  | None => 0
  end.

Definition obs_encoder_get_sample_rate e : Z :=
  match e with
  | Some e =>
      match enc_type e, enc_audio_media e with
      | OBS_ENCODER_AUDIO, Some m =>
          if negb (enc_samplerate e =? 0) then enc_samplerate e
          else audio_output_get_sample_rate m
      | _, _ => 0
      end
  | None => 0
  end.

Definition obs_encoder_get_frame_size e : Z :=
  match e with
  | Some e => match enc_type e with OBS_ENCODER_AUDIO => enc_framesize e | _ => 0 end
  | None => 0
  end.
End accessors.

(** ** Packets *)

(** [struct encoder_packet]. [pkt_data] stands for the [data]/[size] pair and
    [pkt_encoder] for the address of the encoder. *)
Record encoder_packet := mk_packet {
  pkt_data : bytes;
  pkt_pts : Z;
  pkt_dts : Z;
  pkt_timebase_num : Z;
  pkt_timebase_den : Z;
  pkt_type : obs_encoder_type;
  pkt_keyframe : bool;
  pkt_dts_usec : Z;
  pkt_sys_dts_usec : Z;
  pkt_priority : Z;
  pkt_drop_priority : Z;
  pkt_track_idx : Z;
  pkt_encoder : Z
}.

Definition pkt_size (p : encoder_packet) : Z := zlen (pkt_data p).

(** The packet with its timestamps replaced. *)
Definition pkt_set_ts (p : encoder_packet) (pts dts dts_usec : Z) : encoder_packet :=
  mk_packet (pkt_data p) pts dts (pkt_timebase_num p) (pkt_timebase_den p) (pkt_type p)
    (pkt_keyframe p) dts_usec (pkt_sys_dts_usec p) (pkt_priority p) (pkt_drop_priority p)
    (pkt_track_idx p) (pkt_encoder p).

Definition pkt_set_track_idx (p : encoder_packet) (i : Z) : encoder_packet :=
  mk_packet (pkt_data p) (pkt_pts p) (pkt_dts p) (pkt_timebase_num p) (pkt_timebase_den p)
    (pkt_type p) (pkt_keyframe p) (pkt_dts_usec p) (pkt_sys_dts_usec p) (pkt_priority p)
    (pkt_drop_priority p) i (pkt_encoder p).

(** [packet_dts_usec] of obs-internal.h: C's truncating 64-bit division. *)
Definition packet_dts_usec (p : encoder_packet) : Z :=
  i64 (pkt_dts p * 1000000) /c pkt_timebase_den p.
