(* ===== verification/Bitstream.v ===== *)
(** * Bit reader: libobs/util/bitstream.c *)

From S2P Require Import Prelude.

Local Open Scope Z_scope.

(** [struct bitstream_reader]: [pos] is the current byte, [subPos] the mask of the
    next bit of it; both are of type [uint8_t]. *)
Record bitstream_reader := mk_reader { bs_buf : bytes; bs_pos : Z; bs_subPos : Z }.

Definition bitstream_reader_init (data : bytes) : bitstream_reader := mk_reader data 0 128.

(** Past the end of the buffer every bit reads as 0. *)
Definition bitstream_reader_read_bit (r : bitstream_reader) : Z * bitstream_reader :=
  match (if 0 <=? bs_pos r then bs_buf r !! Z.to_nat (bs_pos r) else None) with
  | None => (0, r)
  | Some b =>
      let bit := if Z.land b (bs_subPos r) =? bs_subPos r then 1 else 0 in
      let sub := Z.shiftr (bs_subPos r) 1 in
      (bit, if sub =? 0 then mk_reader (bs_buf r) (u8 (bs_pos r + 1)) 128
            else mk_reader (bs_buf r) (bs_pos r) sub)
  end.

(** The loop of [bitstream_reader_read_bits]: [res <<= 1; res |= bit] in 8 bits. *)
Fixpoint read_bits_loop (n : nat) (res : Z) (r : bitstream_reader) : Z * bitstream_reader :=
  match n with
  | O => (res, r)
  | S n =>
      let '(bit, r) := bitstream_reader_read_bit r in
      read_bits_loop n (Z.lor (u8 (Z.shiftl res 1)) bit) r
  end.

Definition bitstream_reader_read_bits (bits : Z) (r : bitstream_reader) : Z * bitstream_reader :=
  read_bits_loop (Z.to_nat bits) 0 r.

Definition bitstream_reader_r8 (r : bitstream_reader) : Z * bitstream_reader :=
  bitstream_reader_read_bits 8 r.

Definition bitstream_reader_r16 (r : bitstream_reader) : Z * bitstream_reader :=
  let '(b, r) := bitstream_reader_read_bits 8 r in
  let '(c, r) := bitstream_reader_read_bits 8 r in
  (Z.lor (u16 (Z.shiftl b 8)) c, r).

(** ** The bits still to be read *)

(** The eight bits of a byte, most significant first. *)
Definition byte_bits (b : Z) : list bool :=
  map (λ i, Z.testbit b (Z.of_nat i)) [7; 6; 5; 4; 3; 2; 1; 0]%nat.

(** The position of the mask [subPos] in the byte: 128 is bit 0. *)
Definition sub_index (sub : Z) : nat := Z.to_nat (7 - Z.log2 sub).

Definition bits_of (r : bitstream_reader) : list bool :=
  drop (sub_index (bs_subPos r)) (concat (map byte_bits (drop (Z.to_nat (bs_pos r)) (bs_buf r)))).

(** A reader between two calls, of a buffer its position can run through: the mask is
    a single bit and the position a byte of the buffer, or the end of it with the mask
    reset. *)
Definition reader_ok (r : bitstream_reader) : Prop :=
  (0 ≤ bs_pos r ≤ zlen (bs_buf r) ∧ zlen (bs_buf r) < 256) ∧
  (∃ k, 0 ≤ k ≤ 7 ∧ bs_subPos r = 2 ^ k) ∧
  (bs_pos r = zlen (bs_buf r) → bs_subPos r = 128).

Lemma init_ok data : zlen data < 256 → reader_ok (bitstream_reader_init data).
Proof. split; simpl; [len_lia|]. split; [by exists 7|done]. Qed.

Lemma mask_bit b k : 0 ≤ k → (Z.land b (2 ^ k) =? 2 ^ k) = Z.testbit b k.
Proof.
  intros Hk. destruct (Z.testbit b k) eqn:E.
  - apply Z.eqb_eq, Z.bits_inj'. intros i Hi. rewrite Z.land_spec.
    destruct (decide (i = k)) as [->|N].
    + by rewrite E, Z.pow2_bits_true by done.
    + rewrite (Z.pow2_bits_false k i) by lia. by rewrite andb_false_r.
  - apply Z.eqb_neq. intros C. apply (f_equal (λ z, Z.testbit z k)) in C.
    by rewrite Z.land_spec, E, Z.pow2_bits_true in C by done.
Qed.

Lemma byte_bits_drop b k : 0 ≤ k ≤ 7 →
  drop (Z.to_nat (7 - k)) (byte_bits b) =
  Z.testbit b k :: drop (S (Z.to_nat (7 - k))) (byte_bits b).
Proof.
  intros Hk. apply drop_S. unfold byte_bits.
  assert (k = 0 ∨ k = 1 ∨ k = 2 ∨ k = 3 ∨ k = 4 ∨ k = 5 ∨ k = 6 ∨ k = 7) as Hc by lia.
  by repeat destruct Hc as [->|Hc]; [..|subst].
Qed.

(** One bit is consumed by each read, and it is the next one. *)
Lemma read_bit_spec r : reader_ok r →
  reader_ok (bitstream_reader_read_bit r).2 ∧
  match bits_of r with
  | [] => bitstream_reader_read_bit r = (0, r)
  | b :: l => (bitstream_reader_read_bit r).1 = Z.b2z b ∧
              bits_of (bitstream_reader_read_bit r).2 = l
  end.
Proof.
  destruct r as [buf pos sub]. intros ([[H0 H1] H256] & (k & Hk & Hs) & He); simpl in *; subst sub.
  unfold bitstream_reader_read_bit; simpl. rewrite (proj2 (Z.leb_le 0 pos)) by lia.
  unfold bits_of, sub_index; simpl. rewrite Z.log2_pow2 by lia.
  destruct (buf !! Z.to_nat pos) as [b|] eqn:Eb.
  - pose proof (lookup_lt_Some _ _ _ Eb) as Hlt.
    rewrite (drop_S _ _ _ Eb). cbn [map concat]. rewrite mask_bit by lia.
    rewrite drop_app_le by (simpl; lia). rewrite byte_bits_drop by lia. cbn [app].
    assert (1 ≤ k → Z.shiftr (2 ^ k) 1 = 2 ^ (k - 1)) as Hshift.
    { intros. rewrite Z.shiftr_div_pow2, Z.pow_sub_r by lia. done. }
    destruct (decide (k = 0)) as [->|N].
    + assert (u8 (pos + 1) = pos + 1) as Hu by (apply u8_small; unfold zlen in *; lia).
      simpl. rewrite Hu. split; [split; simpl; [unfold zlen in *; lia|split; [by exists 7|done]]|].
      split; [by destruct (Z.testbit b 0)|].
      by replace (Z.to_nat (pos + 1)) with (S (Z.to_nat pos)) by lia.
    + rewrite Hshift by lia.
      rewrite (proj2 (Z.eqb_neq _ 0)) by (pose proof (Z.pow_pos_nonneg 2 (k - 1)); lia).
      simpl. rewrite Z.log2_pow2 by lia. split; [split; simpl; [lia|split]|].
      * exists (k - 1). split; [lia|done].
      * unfold zlen; lia.
      * split; [by destruct (Z.testbit b k)|]. rewrite (drop_S _ _ _ Eb). cbn [map concat].
        replace (Z.to_nat (7 - (k - 1))) with (S (Z.to_nat (7 - k))) by lia.
        by rewrite drop_app_le by (simpl; lia).
  - apply lookup_ge_None in Eb.
    assert (2 ^ k = 128) as Ek by (apply He; unfold zlen in *; lia).
    rewrite (drop_ge buf) by lia. simpl. rewrite drop_nil.
    split; [|done]. split; simpl; [lia|]. split; [eauto|done].
Qed.

(** The value of a list of bits, most significant first. *)
Definition bits_val (l : list bool) : Z := foldl (λ acc b, acc * 2 + Z.b2z b) 0 l.

Lemma lor_shift1 res b : Z.lor (u8 (Z.shiftl res 1)) (Z.b2z b) = u8 (res * 2 + Z.b2z b).
Proof.
  unfold u8. apply Z.bits_inj'. intros i Hi.
  rewrite Z.lor_spec, !Z.testbit_mod_pow2 by lia.
  rewrite Z.shiftl_mul_pow2 by lia. change (2 ^ 1) with 2.
  destruct (decide (i = 0)) as [->|].
  - rewrite !Z.bit0_odd, Z.odd_add, Z.odd_mul, andb_false_r. by destruct b.
  - replace i with (Z.succ (i - 1)) by lia.
    rewrite (Z.mul_comm res), Z.testbit_succ_r, Z.double_bits_succ by lia.
    assert (Z.testbit (Z.b2z b) (Z.succ (i - 1)) = false) as ->.
    { destruct b; simpl; [|by rewrite Z.bits_0]. change 1 with (2 ^ 0). apply Z.pow2_bits_false. lia. }
    by rewrite orb_false_r.
Qed.

Lemma u8_idem_lin x c : u8 (u8 x * 2 + c) = u8 (x * 2 + c).
Proof. unfold u8. rewrite <- Zplus_mod_idemp_l, Zmult_mod_idemp_l, Zplus_mod_idemp_l. done. Qed.

Lemma bits_val_foldl l acc : u8 (foldl (λ acc b, acc * 2 + Z.b2z b) (u8 acc) l) =
  u8 (foldl (λ acc b, acc * 2 + Z.b2z b) acc l).
Proof.
  revert acc; induction l as [|b l IH]; intros acc; cbn [foldl].
  - unfold u8. by rewrite Zmod_mod.
  - rewrite <- IH, u8_idem_lin. apply IH.
Qed.

(** Reading [n] bits yields the next [n] bits of the buffer, most significant first,
    modulo 2^8, with zeros once the buffer is exhausted. *)
Lemma read_bits_loop_spec n res r : reader_ok r → 0 ≤ res < 256 →
  let '(v, r') := read_bits_loop n res r in
  reader_ok r' ∧ bits_of r' = drop n (bits_of r) ∧
  v = u8 (foldl (λ acc b, acc * 2 + Z.b2z b) res
            (take n (bits_of r) ++ replicate (n - length (bits_of r)) false)).
Proof.
  revert res r; induction n as [|n IH]; intros res r Hr Hres; cbn [read_bits_loop].
  - simpl. split; [done|]. split; [done|]. by rewrite u8_small by lia.
  - destruct (read_bit_spec r Hr) as [Hok Hb].
    destruct (bitstream_reader_read_bit r) as [bit r1]; simpl in Hok, Hb.
    assert (∃ b l, bit = Z.b2z b ∧ bits_of r1 = l ∧
      take (S n) (bits_of r) ++ replicate (S n - length (bits_of r)) false =
      b :: take n l ++ replicate (n - length l) false ∧ drop (S n) (bits_of r) = drop n l)
      as (b & l & -> & Hl & Ht & Hd).
    { destruct (bits_of r) as [|b l] eqn:Eb.
      - injection Hb as -> ->. exists false, []. rewrite Eb, drop_nil, Nat.sub_0_r.
        split; [done|]. split; [done|]. by destruct n.
      - destruct Hb as [-> ->]. by exists b, l. }
    rewrite lor_shift1. specialize (IH (u8 (res * 2 + Z.b2z b)) r1 Hok (u8_range _)).
    destruct (read_bits_loop n _ r1) as [v r']. destruct IH as (? & E2 & ->).
    split; [done|]. split; [by rewrite E2, Hl, Hd|].
    rewrite Ht, Hl. cbn [foldl]. apply bits_val_foldl.
Qed.

Lemma read_bits_spec n r : reader_ok r →
  let '(v, r') := bitstream_reader_read_bits n r in
  reader_ok r' ∧ bits_of r' = drop (Z.to_nat n) (bits_of r) ∧
  v = u8 (bits_val (take (Z.to_nat n) (bits_of r) ++
                    replicate (Z.to_nat n - length (bits_of r)) false)).
Proof. intros. by apply read_bits_loop_spec. Qed.

Lemma bits_val_foldl_acc l acc : foldl (λ acc b, acc * 2 + Z.b2z b) acc l = acc * 2 ^ zlen l + bits_val l.
Proof.
  unfold bits_val. revert acc; induction l as [|b l IH]; intros acc; cbn [foldl].
  - change (zlen []) with 0. lia.
  - rewrite (IH (acc * 2 + Z.b2z b)), (IH (0 * 2 + Z.b2z b)), zlen_cons, Z.pow_add_r by len_lia. lia.
Qed.

Lemma bits_val_app l k : bits_val (l ++ k) = bits_val l * 2 ^ zlen k + bits_val k.
Proof. unfold bits_val at 1. by rewrite foldl_app, bits_val_foldl_acc. Qed.

Lemma bits_val_range l : 0 ≤ bits_val l < 2 ^ zlen l.
Proof.
  induction l as [|b l IH]; [done|]. change (b :: l) with ([b] ++ l).
  rewrite bits_val_app, zlen_app, Z.pow_add_r by len_lia. change (zlen [b]) with 1.
  destruct b; [change (bits_val [true]) with 1|change (bits_val [false]) with 0]; lia.
Qed.

(** The next [n] bits, zeros past the end of the buffer. *)
Definition next_bits (n : nat) (r : bitstream_reader) : list bool :=
  take n (bits_of r) ++ replicate (n - length (bits_of r)) false.

Lemma next_bits_len n r : zlen (next_bits n r) = Z.of_nat n.
Proof. unfold next_bits, zlen. rewrite length_app, length_take, length_replicate. lia. Qed.

Lemma read_byte_spec r : reader_ok r →
  let '(v, r') := bitstream_reader_read_bits 8 r in
  reader_ok r' ∧ bits_of r' = drop 8 (bits_of r) ∧ v = bits_val (next_bits 8 r).
Proof.
  intros Hr. pose proof (read_bits_spec 8 r Hr) as Hs.
  destruct (bitstream_reader_read_bits 8 r) as [v r']. destruct Hs as (H1 & H2 & ->).
  split; [done|]. split; [done|]. change (Z.to_nat 8) with 8%nat. fold (next_bits 8 r).
  pose proof (bits_val_range (next_bits 8 r)) as Hb. rewrite next_bits_len in Hb. by apply u8_small.
Qed.

(** The bit reader reads a 16-bit number as the next sixteen bits of the buffer, most
    significant first, at any bit position and across byte boundaries, with zeros
    once the buffer (of less than 256 bytes) is exhausted; it then stands sixteen bits
    further. *)
Theorem r16_next_bits r : reader_ok r →
  let '(v, r') := bitstream_reader_r16 r in
  v = bits_val (next_bits 16 r) ∧ bits_of r' = drop 16 (bits_of r) ∧ reader_ok r'.
Proof.
  intros Hr. unfold bitstream_reader_r16. pose proof (read_byte_spec r Hr) as H1.
  destruct (bitstream_reader_read_bits 8 r) as [b r1]. destruct H1 as (Hr1 & E1 & ->).
  pose proof (read_byte_spec r1 Hr1) as H2.
  destruct (bitstream_reader_read_bits 8 r1) as [c r2]. destruct H2 as (Hr2 & E2 & ->).
  split; [|split; [by rewrite E2, E1, drop_drop|done]].
  assert (next_bits 16 r = next_bits 8 r ++ next_bits 8 r1) as ->.
  { unfold next_bits. rewrite E1, length_drop. destruct (le_gt_dec (length (bits_of r)) 8) as [Hle|Hgt].
    - rewrite (firstn_all2 (bits_of r)), (firstn_all2 (n:=8)), (drop_ge (bits_of r)) by (done || lia).
      rewrite take_nil, app_nil_l, <- app_assoc, <- replicate_add. do 2 f_equal. lia.
    - replace (8 - length (bits_of r))%nat with 0%nat by lia. rewrite app_nil_r, app_assoc.
      rewrite <- (take_drop 8 (take 16 (bits_of r))), take_take, skipn_firstn_comm. do 2 f_equal. lia. }
  pose proof (bits_val_range (next_bits 8 r)) as B1. pose proof (bits_val_range (next_bits 8 r1)) as B2.
  rewrite next_bits_len in B1, B2. rewrite bits_val_app, next_bits_len.
  rewrite Z.shiftl_mul_pow2, u16_small by lia. change (Z.of_nat 8) with 8 in *.
  apply Z.bits_inj'. intros i Hi. rewrite Z.lor_spec, <- Z.shiftl_mul_pow2 by lia.
  destruct (decide (i < 8)).
  - rewrite Z.shiftl_spec_low by lia. rewrite Z.shiftl_mul_pow2 by lia. cbn [orb].
    rewrite <- (Z.mod_pow2_bits_low (_ + _) 8) by lia. rewrite (Z.add_comm (_ * _)), Z.mod_add by lia.
    by rewrite Z.mod_small by lia.
  - rewrite (Z.bits_above_log2 (bits_val (next_bits 8 r1)) i), orb_false_r.
    + rewrite Z.shiftl_spec by lia. rewrite Z.shiftl_mul_pow2 by lia.
      replace i with ((i - 8) + 8) at 2 by lia. rewrite <- Z.div_pow2_bits by lia.
      rewrite (Z.add_comm (_ * _)), Z.div_add, Z.div_small by lia. done.
    + lia.
    + destruct (decide (bits_val (next_bits 8 r1) = 0)) as [->|]; [simpl; lia|]. apply Z.log2_lt_pow2; [lia|].
      apply (Z.lt_le_trans _ (2 ^ 8)); [lia|]. apply Z.pow_le_mono_r; lia.
Qed.

Lemma r16_next_bits_witness :
  let r := (bitstream_reader_read_bits 3 (bitstream_reader_init [165; 60; 255])).2 in
  let '(v, r') := bitstream_reader_r16 r in
  v = bits_val (next_bits 16 r) ∧ bits_of r' = drop 16 (bits_of r) ∧ reader_ok r'.
Proof.
  refine (r16_next_bits (bitstream_reader_read_bits 3 (bitstream_reader_init [165; 60; 255])).2 _).
  split; [all_bytes|]. split; [by exists 4|done].
Defined.

(** ** Long buffers *)

Lemma read_bits_loop_add n k res r :
  read_bits_loop (n + k) res r =
  let '(v, r') := read_bits_loop n res r in read_bits_loop k v r'.
Proof.
  revert res r; induction n as [|n IH]; intros res r; [done|]. cbn [Nat.add read_bits_loop].
  destruct (bitstream_reader_read_bit r) as [bit r']. apply IH.
Qed.

(** Eight bits from a byte boundary inside the buffer. *)
Lemma read_whole_byte res data pos : 0 ≤ pos < zlen data →
  (read_bits_loop 8 res (mk_reader data pos 128)).2 = mk_reader data (u8 (pos + 1)) 128.
Proof.
  intros Hp. destruct (lookup_lt_is_Some_2 data (Z.to_nat pos)) as [b Hb]; [unfold zlen in *; lia|].
  do 8 (cbn [read_bits_loop]; unfold bitstream_reader_read_bit at 1; cbn [bs_pos bs_buf bs_subPos];
        rewrite (proj2 (Z.leb_le 0 pos)), Hb by lia;
        match goal with |- context [Z.shiftr ?m 1] => let v := eval vm_compute in (Z.shiftr m 1) in change (Z.shiftr m 1) with v end;
        cbn [Z.eqb]).
  done.
Qed.

Lemma read_whole_bytes n res data : 256 ≤ zlen data →
  (read_bits_loop (8 * n) res (bitstream_reader_init data)).2 = mk_reader data (u8 (Z.of_nat n)) 128.
Proof.
  intros Hd. revert res; induction n as [|n IH]; intros res; [done|].
  replace (8 * S n)%nat with (8 * n + 8)%nat by lia. rewrite read_bits_loop_add.
  specialize (IH res). destruct (read_bits_loop (8 * n) res _) as [v r]. cbn [snd] in IH. subst r.
  rewrite read_whole_byte by (pose proof (u8_range (Z.of_nat n)); lia). f_equal.
  unfold u8. rewrite Zplus_mod_idemp_l. f_equal. lia.
Qed.

(** The position of the bit reader is a [uint8_t], so a buffer of 256 bytes or more
    is never exhausted: after 256 bytes the reader is back at the first one, in the
    state it was initialised in. *)
Theorem bit_reader_wraps data : 256 ≤ zlen data →
  (bitstream_reader_read_bits 2048 (bitstream_reader_init data)).2 = bitstream_reader_init data.
Proof. intros Hd. by apply (read_whole_bytes 256 0 data). Qed.

Lemma bit_reader_wraps_witness :
  256 ≤ zlen (replicate 300 7) ∧
  (bitstream_reader_read_bits 2048 (bitstream_reader_init (replicate 300 7))).2 =
    bitstream_reader_init (replicate 300 7).
Proof.
  assert (256 ≤ zlen (replicate 300 7)) as Hd by (vm_compute; discriminate).
  split; [exact Hd|]. exact (bit_reader_wraps (replicate 300 7) Hd).
Defined.
