(* ===== verification/Bits.v ===== *)
(** * Bits and bit readers

    What the bit-level parsers of rtmp-av1.c and rtmp-hevc.c have in common: a
    number as a list of bits, and the specification [reads m bits a] of a parser
    that consumes exactly [bits] and returns [a], for any reader that implements
    [BitReader]. *)

From S2P Require Import Prelude Serializer Bitstream.

Local Open Scope Z_scope.
Local Open Scope serializer_scope.

(** ** Numbers as bits, most significant first *)

Definition zbits (n : nat) (v : Z) : list bool :=
  map (λ i, Z.testbit v (Z.of_nat i)) (rev (seq 0 n)).

(** The bits of a buffer. *)
Definition all_bits (buf : bytes) : list bool := concat (map (zbits 8) buf).

Lemma zbits_S n v : zbits (S n) v = Z.testbit v (Z.of_nat n) :: zbits n v.
Proof. unfold zbits. by rewrite seq_S, rev_app_distr. Qed.

Lemma zbits_length n v : length (zbits n v) = n.
Proof. unfold zbits. by rewrite length_map, length_rev, length_seq. Qed.

Lemma zbits_zlen n v : zlen (zbits n v) = Z.of_nat n.
Proof. unfold zlen. by rewrite zbits_length. Qed.

Lemma zbits_lookup n v i : (i < n)%nat → zbits n v !! i = Some (Z.testbit v (Z.of_nat (n - 1 - i))).
Proof.
  revert i; induction n as [|n IH]; intros i Hi; [lia|]. rewrite zbits_S.
  destruct i as [|i]; [by replace (S n - 1 - 0)%nat with n by lia|].
  cbn. rewrite IH by lia. do 3 f_equal. lia.
Qed.

Lemma mod_pow2_succ v n : 0 ≤ n → v `mod` 2 ^ (n + 1) = Z.b2z (Z.testbit v n) * 2 ^ n + v `mod` 2 ^ n.
Proof.
  intros Hn. rewrite Z.pow_add_r, Z.rem_mul_r by (try apply Z.pow_nonzero; lia).
  rewrite (Z.testbit_spec' v n) by lia. change (2 ^ 1) with 2. lia.
Qed.

Lemma bits_val_zbits n v : bits_val (zbits n v) = v `mod` 2 ^ Z.of_nat n.
Proof.
  induction n as [|n IH]; [by rewrite Z.mod_1_r|].
  rewrite zbits_S. change (?b :: ?l) with ([b] ++ l). rewrite bits_val_app, IH, zbits_zlen.
  rewrite Nat2Z.inj_succ, <- Z.add_1_r, mod_pow2_succ by lia.
  by destruct (Z.testbit v (Z.of_nat n)).
Qed.

Lemma zbits_val n v : 0 ≤ v < 2 ^ Z.of_nat n → bits_val (zbits n v) = v.
Proof. intros. rewrite bits_val_zbits. by apply Z.mod_small. Qed.

Lemma zbits_bits_val l : zbits (length l) (bits_val l) = l.
Proof.
  induction l as [|b l IH]; [done|]. cbn [length]. rewrite zbits_S.
  change (b :: l) with ([b] ++ l). rewrite bits_val_app. change (bits_val [b]) with (0 * 2 + Z.b2z b).
  change (zlen l) with (Z.of_nat (length l)). pose proof (bits_val_range l) as Hr.
  change (zlen l) with (Z.of_nat (length l)) in Hr.
  assert (∀ i, (i < length l)%nat →
    Z.testbit ((0 * 2 + Z.b2z b) * 2 ^ Z.of_nat (length l) + bits_val l) (Z.of_nat i) = Z.testbit (bits_val l) (Z.of_nat i)) as Hlow.
  { intros i Hi. rewrite <- (Z.mod_pow2_bits_low (_ + _) (Z.of_nat (length l))) by lia.
    rewrite (Z.add_comm _ (bits_val l)), Z.mod_add, Z.mod_small by (try apply Z.pow_nonzero; lia). done. }
  set (w := (0 * 2 + Z.b2z b) * 2 ^ Z.of_nat (length l) + bits_val l) in *.
  assert (Z.testbit w (Z.of_nat (length l)) = b) as ->.
  { unfold w. rewrite Z.testbit_odd, Z.shiftr_div_pow2, Z.div_add_l, (Z.div_small (bits_val l)) by (try apply Z.pow_nonzero; lia).
    by destruct b. }
  cbn [app]. f_equal. rewrite <- IH at 2. unfold zbits. apply map_ext_in. intros i Hi.
  apply in_rev, in_seq in Hi. apply Hlow. lia.
Qed.

Lemma all_bits_cons b buf : all_bits (b :: buf) = zbits 8 b ++ all_bits buf.
Proof. reflexivity. Qed.

Lemma all_bits_app x y : all_bits (x ++ y) = all_bits x ++ all_bits y.
Proof. unfold all_bits. by rewrite map_app, concat_app. Qed.

Lemma all_bits_length buf : length (all_bits buf) = (8 * length buf)%nat.
Proof.
  induction buf as [|b buf IH]; [done|]. rewrite all_bits_cons, length_app, IH, zbits_length. simpl. lia.
Qed.

Lemma all_bits_lookup buf i :
  all_bits buf !! i =
    (λ b, Z.testbit b (Z.of_nat (7 - i `mod` 8))) <$> buf !! (i `div` 8)%nat.
Proof.
  revert i; induction buf as [|b buf IH]; intros i; [done|]. rewrite all_bits_cons.
  destruct (decide (i < 8)%nat) as [Hi|Hi].
  - rewrite lookup_app_l by (rewrite zbits_length; lia).
    rewrite zbits_lookup, Nat.mod_small, Nat.div_small by lia. done.
  - rewrite lookup_app_r by (rewrite zbits_length; lia). rewrite zbits_length, IH.
    assert (i `mod` 8 = (i - 8) `mod` 8 ∧ i `div` 8 = S ((i - 8) `div` 8))%nat as [-> ->]; [|done].
    replace i with (i - 8 + 1 * 8)%nat at 1 3 by lia.
    rewrite Nat.Div0.mod_add, Nat.div_add by lia. split; lia.
Qed.

(** The bytes of a list of bits with its trailing bits. *)
Definition pack_bits (l : list bool) : bytes :=
  let l := l ++ true :: replicate (7 - length l `mod` 8) false in
  map (λ i, bits_val (take 8 (drop (8 * i) l))) (seq 0 (length l / 8)).

(** ** Readers *)

(** [ahead g l]: the bits [l] are the next ones the reader delivers; [read_bits n] reads
    [n] of them as a number. *)
Class BitReader (G : Type) := {
  ahead : G → list bool → Prop;
  read_bits : Z → W G Z
}.

(** A parser that consumes exactly [bits] and returns [a]. *)
Definition reads `{BitReader G} {A} (m : W G A) (bits : list bool) (a : A) : Prop :=
  ∀ g rest, ahead g (bits ++ rest) → ∃ g', m g = Some (a, g') ∧ ahead g' rest.

(** The interface: numbers of up to 32 bits are read as they were written. *)
Class BitReaderSpec (G : Type) `{BitReader G} := {
  reads_bits n v : (n ≤ 32)%nat → 0 ≤ v < 2 ^ Z.of_nat n → reads (read_bits (Z.of_nat n)) (zbits n v) v
}.

(** One bit. *)
Definition flag (b : bool) : list bool := [b].

Section rules.
Context `{BitReader G}.

Lemma reads_ret {A} (a : A) : reads (ret a) [] a.
Proof. intros g rest Hg. by exists g. Qed.

Lemma reads_bind {A B} (m : W G A) (k : A → W G B) l1 l2 a b :
  reads m l1 a → reads (k a) l2 b → reads (bind m k) (l1 ++ l2) b.
Proof.
  intros Hm Hk g rest Hg. rewrite <- app_assoc in Hg. destruct (Hm g _ Hg) as (g1 & E & H1).
  destruct (Hk g1 _ H1) as (g2 & E2 & H2). exists g2. split; [|done]. unfold bind. by rewrite E.
Qed.

Lemma reads_eq {A} (m : W G A) l l' a : reads m l a → l = l' → reads m l' a.
Proof. by intros ? <-. Qed.

Lemma reads_bind_nil {A B} (m : W G A) (k : A → W G B) l a b :
  reads m l a → reads (k a) [] b → reads (bind m k) l b.
Proof. intros. rewrite <- (app_nil_r l). by eapply reads_bind. Qed.

Lemma reads_when (c : bool) (m : W G unit) l :
  (c = true → reads m l tt) → (c = false → l = []) → reads (if c then m else ret tt) l tt.
Proof. intros H1 H2. destruct c; [by apply H1|]. rewrite H2 by done. apply reads_ret. Qed.

Context `{!BitReaderSpec G}.

Lemma reads_num n v : 0 ≤ n ≤ 32 → 0 ≤ v < 2 ^ n → reads (read_bits n) (zbits (Z.to_nat n) v) v.
Proof.
  intros Hn Hv. pose proof (reads_bits (G:=G) (Z.to_nat n) v) as R.
  rewrite Z2Nat.id in R by lia. apply R; [lia|done].
Qed.

Lemma reads_bit1 b : reads (read_bits 1) (flag b) (Z.b2z b).
Proof.
  eapply reads_eq; [apply (reads_num 1 (Z.b2z b)); [lia|destruct b; cbn; lia]|]. by destruct b.
Qed.

Lemma reads_list l : (length l ≤ 32)%nat → reads (read_bits (zlen l)) l (bits_val l).
Proof.
  intros Hl. eapply reads_eq; [apply (reads_num (zlen l) (bits_val l)); [unfold zlen; lia|apply bits_val_range]|].
  by rewrite zlen_to_nat, zbits_bits_val.
Qed.
End rules.

Create HintDb reads.
#[export] Hint Resolve reads_ret : reads.
