(* ===== verification/Nal.v ===== *)
(** * NAL units in a byte stream: libobs/obs-nal.c

    Pointers into the packet are offsets into its bytes; [base] is the address of
    offset 0, which only decides where the aligned word loop starts. [None] is a
    read outside the buffer. *)

From S2P Require Import Prelude.

Local Open Scope Z_scope.

(** [m[i]]. *)
Definition rd (m : bytes) (i : Z) : option Z :=
  if 0 <=? i then m !! Z.to_nat i else None.

(** [n] bytes copied from offset [off]. *)
Definition read_bytes (off n : Z) (data : bytes) : option bytes :=
  if off + n <=? zlen data then Some (sub off n data) else None.

(** [p[0] == 0 && p[1] == 0 && p[2] == 1], each byte read only when needed. *)
Definition code_at (m : bytes) (p : Z) : option bool :=
  b0 ← rd m p;
  if b0 =? 0 then
    b1 ← rd m (p + 1);
    if b1 =? 0 then b2 ← rd m (p + 2); Some (b2 =? 1) else Some false
  else Some false.

(** [for (; p < stop; p++) if (...) return p;]: the boolean tells a return from the
    end of the loop. [n] bounds the iterations. *)
Fixpoint byte_loop (n : nat) (m : bytes) (p stop : Z) : option (bool * Z) :=
  match n with
  | O => Some (false, p)
  | S n =>
      if p <? stop then
        c ← code_at m p;
        if (c : bool) then Some (true, p) else byte_loop n m (p + 1) stop
      else Some (false, p)
  end.

(** [*(const uint32_t * )p] on a little-endian machine. *)
Definition load32 (m : bytes) (p : Z) : option Z :=
  b0 ← rd m p; b1 ← rd m (p + 1); b2 ← rd m (p + 2); b3 ← rd m (p + 3);
  Some (b0 + b1 * 2 ^ 8 + b2 * 2 ^ 16 + b3 * 2 ^ 24).

(** [(x - 0x01010101) & (~x) & 0x80808080]. *)
Definition zero_byte_flags (x : Z) : Z :=
  Z.land (Z.land (u32 (x - 16843009)) (u32 (Z.lnot x))) 2155905152.

(** The two tests inside the word loop: the offset to return, if any. *)
Definition word_check (m : bytes) (p : Z) : option (option Z) :=
  p1 ← rd m (p + 1);
  first ← (if p1 =? 0 then
             p0 ← rd m p; p2 ← rd m (p + 2);
             if (p0 =? 0) && (p2 =? 1) then Some (Some p)
             else p3 ← rd m (p + 3);
                  if (p2 =? 0) && (p3 =? 1) then Some (Some (p + 1)) else Some None
           else Some None);
  match first with
  | Some r => Some (Some r)
  | None =>
      p3 ← rd m (p + 3);
      if p3 =? 0 then
        p2 ← rd m (p + 2); p4 ← rd m (p + 4);
        if (p2 =? 0) && (p4 =? 1) then Some (Some (p + 2))
        else p5 ← rd m (p + 5);
             if (p4 =? 0) && (p5 =? 1) then Some (Some (p + 3)) else Some None
      else Some None
  end.

Fixpoint word_loop (n : nat) (m : bytes) (p stop : Z) : option (bool * Z) :=
  match n with
  | O => Some (false, p)
  | S n =>
      if p <? stop then
        x ← load32 m p;
        if negb (zero_byte_flags x =? 0) then
          r ← word_check m p;
          match r with
          | Some q => Some (true, q)
          | None => word_loop n m (p + 4) stop
          end
        else word_loop n m (p + 4) stop
      else Some (false, p)
  end.

Definition ff_avc_find_startcode_internal (base : Z) (m : bytes) (p end_ : Z) : option Z :=
  let a := p + 4 - Z.land (base + p) 3 in
  let end1 := end_ - 3 in
  '(found, p) ← byte_loop (Z.to_nat (Z.min a end1 - p)) m p (Z.min a end1);
  if (found : bool) then Some p else
  let end2 := end1 - 3 in
  '(found, p) ← word_loop (Z.to_nat (end2 - p)) m p end2;
  if (found : bool) then Some p else
  let end3 := end2 + 3 in
  '(found, p) ← byte_loop (Z.to_nat (end3 - p)) m p end3;
  if (found : bool) then Some p else
  Some (end3 + 3).

(** The zero byte before a three-byte start code belongs to it. *)
Definition obs_nal_find_startcode (base : Z) (m : bytes) (p end_ : Z) : option Z :=
  out ← ff_avc_find_startcode_internal base m p end_;
  if (p <? out) && (out <? end_) then
    b ← rd m (out - 1);
    Some (if b =? 0 then out - 1 else out)
  else Some out.

(** ** The reference definition: scan byte by byte *)

Definition is_code (m : bytes) (p : Z) : bool :=
  bool_decide (rd m p = Some 0 ∧ rd m (p + 1) = Some 0 ∧ rd m (p + 2) = Some 1).

(** The first start code of [[p, p + n)], or [dflt]. *)
Fixpoint scan_code (n : nat) (m : bytes) (p dflt : Z) : Z :=
  match n with
  | O => dflt
  | S n => if is_code m p then p else scan_code n m (p + 1) dflt
  end.

Definition first_startcode (m : bytes) (p end_ : Z) : Z :=
  scan_code (Z.to_nat (end_ - 3 - p)) m p end_.

Lemma rd_some m i : 0 ≤ i < zlen m → ∃ b, rd m i = Some b.
Proof.
  intros. unfold rd. rewrite (proj2 (Z.leb_le _ _)) by lia.
  apply lookup_lt_is_Some_2. unfold zlen in *; lia.
Qed.

Lemma rd_byte m i b : Forall is_byte m → rd m i = Some b → is_byte b.
Proof.
  intros Hm. unfold rd. destruct (0 <=? i); [|done]. by apply Forall_lookup_1.
Qed.

Lemma code_at_spec m p : 0 ≤ p → p + 2 < zlen m → code_at m p = Some (is_code m p).
Proof.
  intros. unfold code_at, is_code.
  destruct (rd_some m p) as [b0 E0]; [lia|]. destruct (rd_some m (p + 1)) as [b1 E1]; [lia|].
  destruct (rd_some m (p + 2)) as [b2 E2]; [lia|]. rewrite E0, E1, E2. simpl.
  destruct (Z.eqb_spec b0 0), (Z.eqb_spec b1 0), (Z.eqb_spec b2 1); simpl; f_equal; symmetry;
    (apply bool_decide_eq_true || apply bool_decide_eq_false); intuition congruence.
Qed.

(** No start code begins in [[p, q)]. *)
Definition none (m : bytes) (p q : Z) : Prop := ∀ j, p ≤ j < q → is_code m j = false.

Lemma none_app m p q r : none m p q → none m q r → none m p r.
Proof. intros N1 N2 j Hj. destruct (decide (j < q)); [apply N1|apply N2]; lia. Qed.

Lemma none_succ m p q : is_code m p = false → none m (p + 1) q → none m p q.
Proof. intros C N j Hj. destruct (decide (j = p)) as [->|]; [done|apply N; lia]. Qed.

Lemma scan_none n m p q d : none m p q → p ≤ q → n = Z.to_nat (q - p) → scan_code n m p d = d.
Proof.
  revert p; induction n as [|n IH]; intros p N Hq Hn; [done|]. cbn [scan_code].
  rewrite N by lia. apply IH; [|lia..]. intros j Hj. apply N; lia.
Qed.

Lemma scan_found n m p q d :
  none m p q → is_code m q = true → p ≤ q < p + Z.of_nat n → scan_code n m p d = q.
Proof.
  revert p; induction n as [|n IH]; intros p N C Hq; [lia|]. cbn [scan_code].
  destruct (decide (p = q)) as [->|]; [by rewrite C|].
  rewrite N by lia. apply IH; [|done|lia]. intros j Hj. apply N; lia.
Qed.

(** The outcome of a loop over [[p, stop)] that may overshoot the end by [k]. *)
Definition scanned (m : bytes) (p stop k : Z) (r : option (bool * Z)) : Prop :=
  ∃ q, p ≤ q ∧ none m p q ∧
    ((r = Some (true, q) ∧ is_code m q = true ∧ q < stop + k) ∨
     (r = Some (false, q) ∧ stop ≤ q ≤ Z.max p (stop + k))).

(** A byte loop finds the first code of its range or runs to its end. *)
Lemma byte_loop_spec n m p stop :
  n = Z.to_nat (stop - p) → 0 ≤ p → stop + 2 ≤ zlen m →
  scanned m p stop 0 (byte_loop n m p stop).
Proof.
  revert p; induction n as [|n IH]; intros p Hn Hp Hs; cbn [byte_loop].
  - exists p. split; [lia|]. split; [intros j; lia|]. right. split; [done|lia].
  - rewrite (proj2 (Z.ltb_lt _ _)) by lia. rewrite code_at_spec by lia. simpl.
    destruct (is_code m p) eqn:C.
    + exists p. split; [lia|]. split; [intros j; lia|]. left. split; [done|]. split; [done|lia].
    + destruct (IH (p + 1)) as (q & Hq & N & R); [lia..|]. exists q. split; [lia|].
      split; [by apply none_succ|]. destruct R as [R|[R ?]]; [by left|right; split; [done|lia]].
Qed.

(** ** The word test *)

(** If no flag is set then no byte of the word is zero. *)
Lemma zero_byte_flags_0 b0 b1 b2 b3 :
  is_byte b0 → is_byte b1 → is_byte b2 → is_byte b3 →
  zero_byte_flags (b0 + b1 * 2 ^ 8 + b2 * 2 ^ 16 + b3 * 2 ^ 24) = 0 →
  b0 ≠ 0 ∧ b1 ≠ 0 ∧ b2 ≠ 0 ∧ b3 ≠ 0.
Proof.
  intros H0 H1 H2 H3 E. unfold is_byte in *.
  set (x := b0 + b1 * 2 ^ 8 + b2 * 2 ^ 16 + b3 * 2 ^ 24) in *.
  assert (∀ k, k ∈ [7; 15; 23; 31] →
    Z.testbit (x - 16843009) k = true → Z.testbit x k = false → False) as Hflag.
  { intros k Hk T F. apply (f_equal (λ z, Z.testbit z k)) in E. revert E.
    unfold zero_byte_flags, u32.
    repeat (apply elem_of_cons in Hk as [->|Hk]; [|]); [..|by apply elem_of_nil in Hk];
      rewrite !Z.land_spec, !Z.testbit_mod_pow2, Z.lnot_spec, T, F by lia; done. }
  assert (∀ y k, 0 ≤ k → (y `div` 2 ^ k) `mod` 2 = 1 → Z.testbit y k = true) as T1
    by (intros; by apply Z.testbit_true).
  assert (∀ y k, 0 ≤ k → (y `div` 2 ^ k) `mod` 2 = 0 → Z.testbit y k = false) as T0
    by (intros; by apply Z.testbit_false).
  assert (b0 ≠ 0); [|assert (b1 ≠ 0); [|assert (b2 ≠ 0); [|assert (b3 ≠ 0); [|done]]]]; intros ->.
  - apply (Hflag 7); [repeat constructor|apply T1|apply T0]; unfold x; div_lia.
  - apply (Hflag 15); [repeat constructor|apply T1|apply T0]; unfold x; div_lia.
  - apply (Hflag 23); [repeat constructor|apply T1|apply T0]; unfold x; div_lia.
  - apply (Hflag 31); [repeat constructor|apply T1|apply T0]; unfold x; div_lia.
Qed.

(** The tests of a word: the first code beginning in its four bytes. *)
Lemma word_check_spec m p : 0 ≤ p → p + 5 < zlen m →
  ∃ r, word_check m p = Some r ∧
    match r with
    | Some q => p ≤ q < p + 4 ∧ none m p q ∧ is_code m q = true
    | None => none m p (p + 4)
    end.
Proof.
  intros Hp Hl. unfold word_check.
  destruct (rd_some m p) as [b0 E0]; [lia|]. destruct (rd_some m (p + 1)) as [b1 E1]; [lia|].
  destruct (rd_some m (p + 2)) as [b2 E2]; [lia|]. destruct (rd_some m (p + 3)) as [b3 E3]; [lia|].
  destruct (rd_some m (p + 4)) as [b4 E4]; [lia|]. destruct (rd_some m (p + 5)) as [b5 E5]; [lia|].
  assert (∀ q x y z, rd m q = Some x → rd m (q + 1) = Some y → rd m (q + 2) = Some z →
    is_code m q = bool_decide (x = 0 ∧ y = 0 ∧ z = 1)) as C.
  { intros q x y z X Y Z'. unfold is_code. apply bool_decide_ext. rewrite X, Y, Z'. intuition congruence. }
  pose proof (C p _ _ _ E0 E1 E2) as C0.
  pose proof (C (p + 1) b1 b2 b3 E1 ltac:(by rewrite <- Z.add_assoc) ltac:(by rewrite <- Z.add_assoc)) as C1.
  pose proof (C (p + 2) b2 b3 b4 E2 ltac:(by rewrite <- Z.add_assoc) ltac:(by rewrite <- Z.add_assoc)) as C2.
  pose proof (C (p + 3) b3 b4 b5 E3 ltac:(by rewrite <- Z.add_assoc) ltac:(by rewrite <- Z.add_assoc)) as C3.
  rewrite E0, E1, E2, E3, E4, E5. simpl.
  assert (∀ q, p ≤ q ≤ p + 4 → (p < q → is_code m p = false) → (p + 1 < q → is_code m (p + 1) = false) →
    (p + 2 < q → is_code m (p + 2) = false) → (p + 3 < q → is_code m (p + 3) = false) → none m p q) as N.
  { intros q Hq N0 N1 N2 N3 j Hj.
    assert (j = p ∨ j = p + 1 ∨ j = p + 2 ∨ j = p + 3) as [->|[->|[->| ->]]] by lia; auto with lia. }
  repeat match goal with
  | |- context [if ?c then _ else _] => destruct c eqn:?; simpl
  end; eexists; (split; [reflexivity|]); simpl;
    try (split; [lia|split]);
    try (apply N; [lia|intros ?; first
      [exfalso; lia|rewrite ?C0, ?C1, ?C2, ?C3; apply bool_decide_eq_false; lia]..]);
    rewrite ?C0, ?C1, ?C2, ?C3; apply bool_decide_eq_true; lia.
Qed.

(** A word without a zero byte begins no start code. *)
Lemma word_skip m p x : Forall is_byte m → 0 ≤ p → p + 5 < zlen m →
  load32 m p = Some x → zero_byte_flags x = 0 → none m p (p + 4).
Proof.
  intros Hm Hp Hl. unfold load32.
  destruct (rd_some m p) as [b0 E0]; [lia|]. destruct (rd_some m (p + 1)) as [b1 E1]; [lia|].
  destruct (rd_some m (p + 2)) as [b2 E2]; [lia|]. destruct (rd_some m (p + 3)) as [b3 E3]; [lia|].
  rewrite E0, E1, E2, E3. simpl. intros [= <-] F.
  apply zero_byte_flags_0 in F as (? & ? & ? & ?); eauto using rd_byte.
  intros j Hj. apply bool_decide_eq_false.
  assert (j = p ∨ j = p + 1 ∨ j = p + 2 ∨ j = p + 3) as [->|[->|[->| ->]]] by lia; intuition congruence.
Qed.

Lemma word_loop_spec n m p stop : Forall is_byte m →
  (n = 0%nat → stop ≤ p) → stop - p ≤ 4 * Z.of_nat n → 0 ≤ p → stop + 6 ≤ zlen m →
  scanned m p stop 3 (word_loop n m p stop).
Proof.
  intros Hm. revert p; induction n as [|n IH]; intros p H0 Hn Hp Hs; cbn [word_loop].
  - exists p. split; [lia|]. split; [intros j; lia|]. right. split; [done|lia].
  - destruct (Z.ltb_spec p stop) as [Hlt|Hge]; [|
      exists p; split; [lia|]; split; [intros j; lia|]; right; split; [done|lia]].
    assert (none m p (p + 4) → scanned m p stop 3 (word_loop n m (p + 4) stop)) as Hnext.
    { intros N. destruct (IH (p + 4)) as (q & Hq & N' & R); [lia..|]. exists q.
      split; [lia|]. split; [by apply (none_app m p (p + 4))|].
      destruct R as [R|[R ?]]; [by left|right; split; [done|lia]]. }
    destruct (rd_some m p) as [b0 E0]; [lia|]. destruct (rd_some m (p + 1)) as [b1 E1]; [lia|].
    destruct (rd_some m (p + 2)) as [b2 E2]; [lia|]. destruct (rd_some m (p + 3)) as [b3 E3]; [lia|].
    destruct (load32 m p) as [x|] eqn:El; [|unfold load32 in El; by rewrite E0, E1, E2, E3 in El].
    simpl. destruct (Z.eqb_spec (zero_byte_flags x) 0) as [F|F]; simpl.
    + apply Hnext. eapply word_skip; eauto; lia.
    + destruct (word_check_spec m p) as (r & -> & Hr); [lia..|]. simpl. destruct r as [q|]; [|by apply Hnext].
      destruct Hr as (? & ? & ?). exists q. split; [lia|]. split; [done|]. left. split; [done|]. split; [done|lia].
Qed.

(** The optimised search is the byte-by-byte one: it never reads outside the buffer
    and its result does not depend on the alignment of the packet. *)
Lemma find_startcode_internal_spec base m p end_ :
  Forall is_byte m → 0 ≤ p ≤ end_ → end_ ≤ zlen m →
  ff_avc_find_startcode_internal base m p end_ = Some (first_startcode m p end_).
Proof.
  intros Hm Hp He. unfold ff_avc_find_startcode_internal, first_startcode.
  set (a := p + 4 - Z.land (base + p) 3). set (e := end_ - 3).
  replace (end_ - 3 - 3) with (e - 3) by lia. replace (e - 3 + 3) with e by lia.
  assert (∀ q, p ≤ q < e → none m p q → is_code m q = true →
    scan_code (Z.to_nat (e - p)) m p end_ = q) as Hfound.
  { intros q Hq N C. apply scan_found; [done..|lia]. }
  destruct (byte_loop_spec (Z.to_nat (Z.min a e - p)) m p (Z.min a e)) as (q1 & H1 & N1 & R1); [lia..|].
  destruct R1 as [(-> & C & ?)|[-> B1]]; simpl; [f_equal; symmetry; apply Hfound; [lia|done..]|].
  destruct (word_loop_spec (Z.to_nat (e - 3 - q1)) m q1 (e - 3)) as (q2 & H2 & N2 & R2); [done|lia..|].
  pose proof (none_app _ _ _ _ N1 N2) as N12.
  destruct R2 as [(-> & C & ?)|[-> B2]]; simpl; [f_equal; symmetry; apply Hfound; [lia|done..]|].
  destruct (byte_loop_spec (Z.to_nat (e - q2)) m q2 e) as (q3 & H3 & N3 & R3); [lia..|].
  pose proof (none_app _ _ _ _ N12 N3) as N123.
  destruct R3 as [(-> & C & ?)|[-> B3]]; simpl; [f_equal; symmetry; apply Hfound; [lia|done..]|].
  f_equal. rewrite scan_none with (q := Z.max p e); [lia| |lia..].
  intros j Hj. apply N123. lia.
Qed.

(** The start code at or after [p] with the zero byte before it, or [end_]. *)
Definition startcode_from (m : bytes) (p end_ : Z) : Z :=
  let out := first_startcode m p end_ in
  if (p <? out) && (out <? end_) && bool_decide (rd m (out - 1) = Some 0) then out - 1 else out.

Lemma first_startcode_range m p end_ : p ≤ end_ → p ≤ first_startcode m p end_ ≤ end_.
Proof.
  unfold first_startcode. remember (Z.to_nat (end_ - 3 - p)) as n eqn:En.
  assert (p + Z.of_nat n ≤ end_ ∨ n = 0%nat) as Hn by lia. clear En.
  revert p Hn; induction n as [|n IH]; intros p Hn Hp; cbn [scan_code]; [lia|].
  destruct (is_code m p); [lia|]. destruct (IH (p + 1)); lia.
Qed.

Lemma startcode_from_range m p end_ : p ≤ end_ → p ≤ startcode_from m p end_ ≤ end_.
Proof.
  intros Hp. pose proof (first_startcode_range m p end_ Hp). unfold startcode_from.
  destruct (Z.ltb_spec p (first_startcode m p end_)); simpl; [|lia].
  by repeat case_match; lia.
Qed.

Lemma find_startcode_spec base m p end_ :
  Forall is_byte m → 0 ≤ p ≤ end_ → end_ ≤ zlen m →
  obs_nal_find_startcode base m p end_ = Some (startcode_from m p end_).
Proof.
  intros Hm Hp He. unfold obs_nal_find_startcode, startcode_from.
  rewrite find_startcode_internal_spec by done. simpl.
  pose proof (first_startcode_range m p end_ ltac:(lia)).
  destruct ((p <? _) && (_ <? end_)) eqn:E; simpl; [|done].
  destruct (rd_some m (first_startcode m p end_ - 1)) as [b Eb]; [lia|]. rewrite Eb. simpl. f_equal.
  destruct (Z.eqb_spec b 0) as [->|]; [by rewrite bool_decide_eq_true_2|].
  by rewrite bool_decide_eq_false_2 by congruence.
Qed.

(** ** Walking the units of a packet

    The loop every parser of obs-avc.c is built on: skip the zero bytes and the 1 of
    a start code, find the end of the unit, process it, go on from there. *)

(** [while (nal_start < end && !*(nal_start++))]. *)
Fixpoint skip_loop (n : nat) (m : bytes) (p end_ : Z) : option Z :=
  match n with
  | O => Some p
  | S n =>
      if p <? end_ then
        b ← rd m p; if b =? 0 then skip_loop n m (p + 1) end_ else Some (p + 1)
      else Some p
  end.

Definition skip_to_nal (m : bytes) (p end_ : Z) : option Z :=
  skip_loop (Z.to_nat (end_ - p)) m p end_.

(** [body st codestart start end] processes a unit: it updates the state ([inl]) or
    returns from the function ([inr]). [None] is out of fuel or a bad read. *)
Fixpoint nal_loop {St R} (fuel : nat) (base : Z) (m : bytes) (end_ : Z)
    (body : St → Z → Z → Z → option (St + R)) (st : St) (p : Z) : option (St + R) :=
  match fuel with
  | O => None
  | S fuel =>
      ns ← skip_to_nal m p end_;
      if ns =? end_ then Some (inl st) else
      ne ← obs_nal_find_startcode base m ns end_;
      r ← body st p ns ne;
      match r with
      | inr r => Some (inr r)
      | inl st => nal_loop fuel base m end_ body st ne
      end
  end.

Definition for_each_nal {St R} (base : Z) (m : bytes)
    (body : St → Z → Z → Z → option (St + R)) (st : St) : option (St + R) :=
  p ← obs_nal_find_startcode base m 0 (zlen m);
  nal_loop (S (length m)) base m (zlen m) body st p.

(** A unit: its start code, its first byte, its end. *)
Record nal_unit := mk_nal { nu_code : Z; nu_start : Z; nu_end : Z }.

(** Consecutive units of [m] from [p] to at most [end_]. *)
Fixpoint units_ok (m : bytes) (p end_ : Z) (us : list nal_unit) : Prop :=
  match us with
  | [] => True
  | u :: us =>
      nu_code u = p ∧ p < nu_start u < end_ ∧ nu_start u ≤ nu_end u ≤ end_ ∧
      nu_end u = startcode_from m (nu_start u) end_ ∧ units_ok m (nu_end u) end_ us
  end.

Fixpoint fold_units {St R} (body : St → Z → Z → Z → option (St + R)) (us : list nal_unit)
    (st : St) : option (St + R) :=
  match us with
  | [] => Some (inl st)
  | u :: us =>
      r ← body st (nu_code u) (nu_start u) (nu_end u);
      match r with inr r => Some (inr r) | inl st => fold_units body us st end
  end.

Lemma skip_loop_spec n m p end_ :
  n = Z.to_nat (end_ - p) → 0 ≤ p ≤ end_ → end_ ≤ zlen m →
  ∃ q, skip_loop n m p end_ = Some q ∧ p ≤ q ≤ end_ ∧ (p < end_ → p < q).
Proof.
  revert p; induction n as [|n IH]; intros p Hn Hp He; cbn [skip_loop].
  - exists p. split; [done|lia].
  - rewrite (proj2 (Z.ltb_lt _ _)) by lia. destruct (rd_some m p) as [b ->]; [lia|]. simpl.
    destruct (b =? 0); [|exists (p + 1); split; [done|lia]].
    destruct (IH (p + 1)) as (q & -> & ? & ?); [lia..|]. exists q. split; [done|lia].
Qed.

(** Whatever is done with them, the loop visits the same units, stays inside the
    packet and terminates. *)
Lemma nal_loop_units fuel base m p :
  Forall is_byte m → 0 ≤ p ≤ zlen m → zlen m - p < Z.of_nat fuel →
  ∃ us, units_ok m p (zlen m) us ∧
    ∀ St R (body : St → Z → Z → Z → option (St + R)) st,
      nal_loop fuel base m (zlen m) body st p = fold_units body us st.
Proof.
  intros Hm. revert p; induction fuel as [|fuel IH]; intros p Hp Hf; [lia|].
  cbn [nal_loop].
  destruct (skip_loop_spec (Z.to_nat (zlen m - p)) m p (zlen m)) as (ns & Es & Hns & Hpr); [done|lia..|].
  unfold skip_to_nal. destruct (Z.eqb_spec ns (zlen m)) as [En|Nn].
  - exists []. split; [done|]. intros. rewrite Es. simpl. by rewrite (proj2 (Z.eqb_eq _ _)).
  - pose proof (startcode_from_range m ns (zlen m) ltac:(lia)) as Hne.
    destruct (IH (startcode_from m ns (zlen m))) as (us & Hus & Hfold); [lia..|].
    exists (mk_nal p ns (startcode_from m ns (zlen m)) :: us). split.
    + simpl. repeat split; [lia..|done].
    + intros. rewrite Es. simpl. rewrite (proj2 (Z.eqb_neq _ _)) by done.
      rewrite find_startcode_spec by (done || lia). simpl.
      destruct (body _ _ _ _) as [[st'|r]|]; simpl; [apply Hfold|done..].
Qed.

Lemma for_each_nal_units base m : Forall is_byte m →
  ∃ us, units_ok m (startcode_from m 0 (zlen m)) (zlen m) us ∧
    ∀ St R (body : St → Z → Z → Z → option (St + R)) st,
      for_each_nal base m body st = fold_units body us st.
Proof.
  intros Hm. unfold for_each_nal.
  rewrite find_startcode_spec by (done || len_lia). cbn [mbind option_bind].
  pose proof (startcode_from_range m 0 (zlen m) (zlen_nonneg m)).
  apply nal_loop_units; [done|lia|unfold zlen in *; lia].
Qed.

(** The units of a packet, as the loop visits them. *)
Definition nal_units (base : Z) (m : bytes) : option (list nal_unit) :=
  r ← for_each_nal base m
        (λ us p ns ne, Some (inl (us ++ [mk_nal p ns ne]) : list nal_unit + Empty_set)) [];
  match r with inl us => Some us | inr e => match (e : Empty_set) with end end.

Lemma fold_units_collect us acc :
  fold_units (λ us p ns ne, Some (inl (us ++ [mk_nal p ns ne]) : list nal_unit + Empty_set)) us acc =
  Some (inl (acc ++ us)).
Proof.
  revert acc; induction us as [|u us IH]; intros acc; [by rewrite app_nil_r|]. cbn [fold_units mbind option_bind].
  rewrite IH, <- app_assoc. by destruct u.
Qed.

(** Every loop over a packet folds its body over the same list of units. *)
Lemma nal_units_spec base m : Forall is_byte m →
  ∃ us, nal_units base m = Some us ∧ units_ok m (startcode_from m 0 (zlen m)) (zlen m) us ∧
    ∀ St R (body : St → Z → Z → Z → option (St + R)) st,
      for_each_nal base m body st = fold_units body us st.
Proof.
  intros Hm. destruct (for_each_nal_units base m Hm) as (us & Hok & Hf). exists us.
  split; [|done]. unfold nal_units. by rewrite Hf, fold_units_collect.
Qed.

(** [m[u.start .. u.end]]. *)
Definition unit_bytes (m : bytes) (u : nal_unit) : bytes := sub (nu_start u) (nu_end u - nu_start u) m.
(** The unit with its start code. *)
Definition unit_slice (m : bytes) (u : nal_unit) : bytes := sub (nu_code u) (nu_end u - nu_code u) m.

Lemma sub_len {A} o n (m : list A) : 0 ≤ o → 0 ≤ n → o + n ≤ zlen m → zlen (sub o n m) = n.
Proof. intros. unfold sub. rewrite zlen_take, zlen_drop. lia. Qed.

Lemma sub_app_sub {A} o a b (m : list A) : 0 ≤ o → 0 ≤ a → 0 ≤ b → o + a + b ≤ zlen m →
  sub o a m ++ sub (o + a) b m = sub o (a + b) m.
Proof.
  intros. unfold sub. replace (Z.to_nat (o + a)) with (Z.to_nat o + Z.to_nat a)%nat by lia.
  rewrite <- drop_drop, Z2Nat.inj_add by lia. by rewrite take_take_drop.
Qed.

Lemma sub_all {A} (m : list A) o : o = 0 → sub o (zlen m) m = m.
Proof. intros ->. unfold sub. by rewrite zlen_to_nat, drop_0, firstn_all. Qed.

(** The units follow each other without a gap, up to the end of the packet. *)
Lemma units_ok_concat m p us : 0 ≤ p → units_ok m p (zlen m) us →
  ∃ q, p ≤ q ∧ (us = [] → q = p) ∧ (q ≤ zlen m ∨ us = []) ∧ concat (map (unit_slice m) us) = sub p (q - p) m.
Proof.
  intros Hp. revert p Hp; induction us as [|u us IH]; intros p Hp; simpl.
  - intros _. exists p. rewrite Z.sub_diag. by auto with lia.
  - intros (E & ? & ? & ? & Hus). destruct (IH (nu_end u)) as (q & ? & Hn & Hq & ->); [lia|done|].
    exists q. assert (q ≤ zlen m) by (destruct Hq as [|Hnil]; [lia|rewrite (Hn Hnil); lia]).
    split; [lia|]. split; [done|]. split; [by left|].
    unfold unit_slice. rewrite E. replace (nu_end u) with (p + (nu_end u - p)) at 2 by lia.
    rewrite sub_app_sub by lia. f_equal. lia.
Qed.

Lemma units_ok_lens m p us : 0 ≤ p → units_ok m p (zlen m) us →
  Forall (λ u, 0 ≤ nu_start u < zlen m ∧ nu_start u ≤ nu_end u ≤ zlen m ∧ 0 ≤ nu_code u < nu_start u) us.
Proof.
  intros Hp. revert p Hp; induction us as [|u us IH]; intros p Hp; simpl; [constructor|].
  intros (E & ? & ? & ? & Hus). constructor; [lia|]. apply (IH (nu_end u)); [lia|done].
Qed.

Lemma units_range base m us : Forall is_byte m → nal_units base m = Some us →
  Forall (λ u, 0 ≤ nu_start u < zlen m ∧ nu_start u ≤ nu_end u ≤ zlen m ∧ 0 ≤ nu_code u < nu_start u) us.
Proof.
  intros Hm E. destruct (nal_units_spec base m Hm) as (us' & E' & Hok & _).
  rewrite E in E'. injection E' as <-. eapply units_ok_lens; [|exact Hok].
  apply startcode_from_range, zlen_nonneg.
Qed.

(** C30: The word-at-a-time start-code search of libobs returns the first start code
    of the range, or the end when none begins before [end - 3]; it never reads
    outside the buffer and the alignment of the packet ([base]) does not matter. *)
Theorem startcode_search_first base m p end_ :
  Forall is_byte m → 0 ≤ p ≤ end_ → end_ ≤ zlen m →
  ∃ q, ff_avc_find_startcode_internal base m p end_ = Some q ∧
    ((p ≤ q < end_ - 3 ∧ is_code m q = true ∧ ∀ j, p ≤ j < q → is_code m j = false) ∨
     (q = end_ ∧ ∀ j, p ≤ j < end_ - 3 → is_code m j = false)).
Proof.
  intros Hm Hp He. rewrite find_startcode_internal_spec by done. eexists; split; [done|].
  unfold first_startcode. destruct (byte_loop_spec (Z.to_nat (end_ - 3 - p)) m p (end_ - 3)
    eq_refl ltac:(lia) ltac:(lia)) as (q & Hq & N & [(_ & C & ?)|(_ & Hr)]).
  - left. rewrite (scan_found _ m p q) by (done || lia). split; [lia|done].
  - right. assert (none m p (Z.max p (end_ - 3))) as N' by (intros j Hj; apply N; lia).
    rewrite (scan_none _ m p (Z.max p (end_ - 3))) by (done || lia). split; [done|].
    intros j Hj. apply N'. lia.
Qed.

Lemma startcode_search_first_witness :
  ∃ q, ff_avc_find_startcode_internal 2 [5; 6; 0; 0; 1; 9; 8; 7; 6] 0 9 = Some q ∧
    ((0 ≤ q < 9 - 3 ∧ is_code [5; 6; 0; 0; 1; 9; 8; 7; 6] q = true ∧
      ∀ j, 0 ≤ j < q → is_code [5; 6; 0; 0; 1; 9; 8; 7; 6] j = false) ∨
     (q = 9 ∧ ∀ j, 0 ≤ j < 9 - 3 → is_code [5; 6; 0; 0; 1; 9; 8; 7; 6] j = false)).
Proof. apply (startcode_search_first 2 [5; 6; 0; 0; 1; 9; 8; 7; 6] 0 9); [all_bytes|lia|done]. Defined.
