(* ===== verification/NalPacket.v ===== *)
(** * Packets of NAL units

    What obs-avc.c and obs-hevc.c have in common: both turn an Annex B packet into a
    length-prefixed one with [serialize_*_data] and split it with
    [obs_extract_*_headers]; the loops are the same up to the classification of a
    unit by its first byte, which is a parameter here. *)

From S2P Require Import Prelude Serializer Encoder Nal.

Local Open Scope Z_scope.
Local Open Scope serializer_scope.

(** The body of the loop of [serialize_avc_data]/[serialize_hevc_data]: [compute]
    updates the keyframe flag and the priority from the first byte of the unit. *)
Definition serialize_nal_unit {S} `{SerializerOps S} (compute : Z → bool → Z → bool * Z)
    (data : bytes) (st : bool * Z) (nal_start nal_end : Z) : W S (bool * Z) :=
  b <- deref (rd data nal_start) ;;
  let '(key, prio) := compute b st.1 st.2 in
  let nal_size := nal_end - nal_start in
  s_wb32 (u32 nal_size) ;;;
  s_put (sub nal_start nal_size data) ;;;
  ret (key, prio).

Definition serialize_nal_data {S} `{SerializerOps S} (compute : Z → bool → Z → bool * Z)
    (base : Z) (data : bytes) (is_keyframe : bool) (priority : Z) : W S (bool * Z) := λ s,
  r ← for_each_nal base data
        (λ '(st, s) _ ns ne,
          r ← serialize_nal_unit compute data st ns ne s; Some (inl r : (bool * Z) * S + Empty_set))
        ((is_keyframe, priority), s);
  match r with inl r => Some r | inr e => match (e : Empty_set) with end end.

(** [long ref = 1], 8 bytes in memory. *)
Definition ref_one : bytes := [1; 0; 0; 0; 0; 0; 0; 0].

(** The packet with its data, keyframe flag and priorities replaced. *)
Definition pkt_set_nal (p : encoder_packet) (data : bytes) (key : bool) (prio : Z) : encoder_packet :=
  mk_packet data (pkt_pts p) (pkt_dts p) (pkt_timebase_num p) (pkt_timebase_den p) (pkt_type p)
    key (pkt_dts_usec p) (pkt_sys_dts_usec p) prio prio (pkt_track_idx p) (pkt_encoder p).

(** [obs_parse_avc_packet]/[obs_parse_hevc_packet]: the serialized data follows the
    reference count of the packet. *)
Definition parse_nal_packet (compute : Z → bool → Z → bool * Z) (base : Z) (src : encoder_packet) :
    option encoder_packet :=
  '((key, prio), output) ←
    (s_put ref_one ;;;
     serialize_nal_data compute base (pkt_data src) (pkt_keyframe src) (pkt_priority src))
      array_output_serializer_init;
  Some (pkt_set_nal src (drop (length ref_one) (ao_bytes output)) key prio).

(** [obs_parse_*_packet_priority]. *)
Definition nal_packet_priority (compute : Z → bool → Z → bool * Z) (base : Z) (packet : encoder_packet) :
    option Z :=
  let data := pkt_data packet in
  r ← for_each_nal base data
        (λ priority _ ns _,
          b ← rd data ns;
          Some (inl (compute b false priority).2 : Z + Empty_set))
        (pkt_priority packet);
  match r with inl p => Some p | inr e => match (e : Empty_set) with end end.

Inductive unit_class := UNIT_HEADER | UNIT_SEI | UNIT_OTHER.

#[global] Instance unit_class_eq_dec : EqDecision unit_class.
Proof. solve_decision. Defined.

(** [obs_extract_*_headers]: [new_packet], [header] and [sei]; the loop also ends when
    [nal_end == end]. *)
Definition extract_nal_headers (class : Z → unit_class) (base : Z) (packet : bytes) :
    option (bytes * bytes * bytes) :=
  r ← for_each_nal base packet
        (λ '(new_packet, header, sei) codestart ns ne,
          b ← rd packet ns;
          let unit := sub codestart (ne - codestart) packet in
          let st := match class b with
                    | UNIT_HEADER => (new_packet, header ++ unit, sei)
                    | UNIT_SEI => (new_packet, header, sei ++ unit)
                    | UNIT_OTHER => (new_packet ++ unit, header, sei)
                    end in
          Some (if ne =? zlen packet then inr st else inl st))
        ([], [], []);
  Some (match r with inl st => st | inr st => st end).

(** ** What a packet holds *)

Section units.
Context (data : bytes).

Definition unit_byte (u : nal_unit) : Z := default 0 (rd data (nu_start u)).
(** A unit in a length-prefixed stream. *)
Definition avcc_unit (u : nal_unit) : bytes :=
  be32 (zlen (unit_bytes data u)) ++ unit_bytes data u.
Definition avcc (us : list nal_unit) : bytes := concat (map avcc_unit us).

(** The flags collected from the units, in order. *)
Definition units_flags (compute : Z → bool → Z → bool * Z) (st : bool * Z) (us : list nal_unit) : bool * Z :=
  foldl (λ st u, compute (unit_byte u) st.1 st.2) st us.

Definition unit_in (u : nal_unit) : Prop :=
  0 ≤ nu_start u < zlen data ∧ nu_start u ≤ nu_end u ≤ zlen data ∧ 0 ≤ nu_code u < nu_start u.

Lemma unit_rd u : unit_in u → rd data (nu_start u) = Some (unit_byte u).
Proof. intros [H _]. unfold unit_byte. by destruct (rd_some data _ H) as [b ->]. Qed.

Lemma unit_bytes_len u : unit_in u → zlen (unit_bytes data u) = nu_end u - nu_start u.
Proof. intros (? & ? & ?). unfold unit_bytes. apply sub_len; lia. Qed.

Lemma avcc_cons u us : avcc (u :: us) = avcc_unit u ++ avcc us.
Proof. reflexivity. Qed.

Lemma avcc_unit_len u : unit_in u → zlen (avcc_unit u) = 4 + (nu_end u - nu_start u).
Proof. intros H. unfold avcc_unit. by rewrite zlen_app, unit_bytes_len, be32_len by done. Qed.

Lemma avcc_len p us : 0 ≤ p ≤ zlen data → units_ok data p (zlen data) us →
  zlen (avcc us) ≤ 5 * (zlen data - p).
Proof.
  revert p; induction us as [|u us IH]; intros p Hp; [intros _; change (avcc []) with (@nil Z); len_lia|].
  intros (E & ? & ? & ? & Hus). specialize (IH (nu_end u) ltac:(lia) Hus).
  rewrite avcc_cons, zlen_app, avcc_unit_len by (unfold unit_in; lia). lia.
Qed.
End units.

Section serialize.
Context {S : Type} `{AppendSerializer S} (compute : Z → bool → Z → bool * Z) (data : bytes).

Lemma emits_nal_unit p st u : unit_in data u → zlen data < 2 ^ 32 →
  emits p (serialize_nal_unit compute data st (nu_start u) (nu_end u)) (avcc_unit data u)
    (compute (unit_byte data u) st.1 st.2).
Proof.
  intros Hu Hl. unfold serialize_nal_unit.
  eapply emits_eq.
  { eapply emits_seq; [apply emits_deref, unit_rd, Hu|reflexivity|].
    destruct (compute _ _ _) as [key prio]. eapply emits_seq; [eauto with emits|reflexivity|].
    eapply emits_seq; [eauto with emits|reflexivity|apply emits_ret]. }
  unfold avcc_unit. rewrite unit_bytes_len, app_nil_r by done. cbn [app]. unfold u32, unit_bytes.
  by rewrite be32_mod by lia.
Qed.

Lemma emits_nal_units p st us :
  Forall (unit_in data) us → zlen data < 2 ^ 32 →
  emits p
    (λ s, r ← fold_units (λ '(st, s) _ ns ne,
             r ← serialize_nal_unit compute data st ns ne s; Some (inl r : (bool * Z) * S + Empty_set))
           us (st, s);
          match r with inl r => Some r | inr e => match (e : Empty_set) with end end)
    (avcc data us) (units_flags data compute st us).
Proof.
  intros Hus Hl. revert p st; induction Hus as [|u us Hu Hus IH]; intros p st; [apply emits_ret|].
  pose proof (emits_nal_unit p st u Hu Hl) as Eu.
  specialize (IH (p + zlen (avcc_unit data u)) (compute (unit_byte data u) st.1 st.2)).
  pose proof (emits_seq _ _ _ _ (serialize_nal_unit compute data st (nu_start u) (nu_end u))
    (λ st s, r ← fold_units (λ '(st, s) _ ns ne,
           r ← serialize_nal_unit compute data st ns ne s; Some (inl r : (bool * Z) * S + Empty_set))
         us (st, s);
        match r with inl r => Some r | inr e => match (e : Empty_set) with end end)
    _ _ Eu eq_refl IH) as [L R].
  split; [done|].
  intros s c Hc Hs Hp. destruct (R s c Hc Hs Hp) as (s' & E & Hs'). exists s'. split; [|done].
  etrans; [|exact E]. unfold bind. cbn [fold_units mbind option_bind].
  by destruct (serialize_nal_unit _ _ _ _ _ s) as [[st1 s1]|].
Qed.

Lemma emits_nal_data base p k pr us :
  Forall is_byte data → nal_units base data = Some us → zlen data < 2 ^ 32 →
  emits p (serialize_nal_data compute base data k pr) (avcc data us) (units_flags data compute (k, pr) us).
Proof.
  intros Hb Hu Hl. destruct (nal_units_spec base data Hb) as (us' & E' & Hok & Hf).
  rewrite Hu in E'. injection E' as <-.
  pose proof (emits_nal_units p (k, pr) us (units_range _ _ _ Hb Hu) Hl) as [L R]. split; [done|].
  intros s c Hc Hs Hp. destruct (R s c Hc Hs Hp) as (s' & E & Hs'). exists s'. split; [|done].
  etrans; [|exact E]. unfold serialize_nal_data. by rewrite Hf.
Qed.
End serialize.

(** The parsed packet: its units length-prefixed, its flags collected. *)
Lemma parse_nal_packet_spec compute base src us :
  Forall is_byte (pkt_data src) → zlen (pkt_data src) < 2 ^ 32 →
  nal_units base (pkt_data src) = Some us →
  parse_nal_packet compute base src =
    let st := units_flags (pkt_data src) compute (pkt_keyframe src, pkt_priority src) us in
    Some (pkt_set_nal src (avcc (pkt_data src) us) st.1 st.2).
Proof.
  intros Hb Hl Hu. unfold parse_nal_packet.
  destruct (nal_units_spec base (pkt_data src) Hb) as (us' & E' & Hok & _).
  rewrite Hu in E'. injection E' as <-.
  pose proof (startcode_from_range (pkt_data src) 0 _ (zlen_nonneg (pkt_data src))) as Hs.
  pose proof (avcc_len (pkt_data src) (startcode_from (pkt_data src) 0 (zlen (pkt_data src))) us
    Hs Hok) as Ha.
  rewrite (emits_array _ (ref_one ++ avcc (pkt_data src) us)
    (units_flags (pkt_data src) compute (pkt_keyframe src, pkt_priority src) us)).
  - simpl. by destruct (units_flags _ _ _ _).
  - eapply emits_seq; [apply emits_put|reflexivity|]. by apply emits_nal_data.
  - rewrite zlen_app. change (zlen ref_one) with 8. unfold MAX_POS in *. lia.
Qed.

(** ** Reading the results back *)

(** A reader of a length-prefixed stream. *)
Fixpoint read_avcc (fuel : nat) (bs : bytes) : option (list bytes) :=
  match bs, fuel with
  | [], _ => Some []
  | _, O => None
  | _, S fuel =>
      let n := be_val (take 4 bs) in
      if zlen bs <? 4 + n then None else
      l ← read_avcc fuel (drop (Z.to_nat (4 + n)) bs); Some (sub 4 n bs :: l)
  end.

Lemma read_avcc_spec data us fuel :
  Forall (unit_in data) us → zlen data < 2 ^ 32 → (length us ≤ fuel)%nat →
  read_avcc fuel (avcc data us) = Some (map (unit_bytes data) us).
Proof.
  intros Hus Hl. revert fuel. induction Hus as [|u us Hu Hus IH]; intros fuel Hf; [by destruct fuel|].
  destruct fuel as [|fuel]; simpl in Hf; [lia|].
  rewrite avcc_cons. unfold avcc_unit. pose proof (unit_bytes_len data u Hu) as Hn.
  set (b := unit_bytes data u) in *.
  assert (0 ≤ zlen b < 2 ^ 32) by (destruct Hu as (? & ? & ?); lia).
  assert (∃ x l, (be32 (zlen b) ++ b) ++ avcc data us = x :: l) as (x & l & E).
  { unfold be32, be16; cbn [app]; eauto. }
  cbn [read_avcc]. rewrite E, <- E. rewrite <- app_assoc.
  rewrite (take_app_le (be32 _) _ 4), firstn_all2 by done. rewrite be32_val. wrap_small.
  rewrite (proj2 (Z.ltb_ge _ _)) by len_lia.
  pose proof (sub_app_mid (be32 (zlen b)) b (avcc data us)) as Hmid.
  rewrite be32_len in Hmid. rewrite Hmid.
  replace (Z.to_nat (4 + zlen b)) with (length (be32 (zlen b) ++ b))
    by (rewrite length_app; unfold zlen; simpl; lia).
  rewrite (app_assoc (be32 _)), drop_app_length, IH by lia. done.
Qed.

(** ** Extraction *)

(** [units_ok] lists end where the last unit does. *)
Lemma units_ok_end_nil m p us : units_ok m p (zlen m) us → zlen m ≤ p → us = [].
Proof. destruct us; [done|]. simpl. lia. Qed.

Section extract.
Context (class : Z → unit_class) (m : bytes).

Definition of_class (c : unit_class) (us : list nal_unit) : list nal_unit :=
  filter (λ u, class (unit_byte m u) = c) us.

(** The slices of the units of one class, with their start codes. *)
Definition class_slices (c : unit_class) (us : list nal_unit) : bytes :=
  concat (map (unit_slice m) (of_class c us)).

Lemma class_slices_cons c u us :
  class_slices c (u :: us) =
  (if decide (class (unit_byte m u) = c) then unit_slice m u else []) ++ class_slices c us.
Proof. unfold class_slices, of_class. rewrite filter_cons. by case_decide. Qed.

(** The three outputs of the extraction select units by class. *)
Lemma extract_fold p us a b c :
  0 ≤ p → units_ok m p (zlen m) us → Forall (unit_in m) us →
  ∃ r, fold_units (λ '(new_packet, header, sei) codestart ns ne,
          b ← rd m ns;
          let unit := sub codestart (ne - codestart) m in
          let st := match class b with
                    | UNIT_HEADER => (new_packet, header ++ unit, sei)
                    | UNIT_SEI => (new_packet, header, sei ++ unit)
                    | UNIT_OTHER => (new_packet ++ unit, header, sei)
                    end in
          Some (if ne =? zlen m then inr st else inl st)) us (a, b, c) = Some r ∧
    (match r with inl st => st | inr st => st end) =
      (a ++ class_slices UNIT_OTHER us, b ++ class_slices UNIT_HEADER us, c ++ class_slices UNIT_SEI us).
Proof.
  intros Hp. revert p Hp a b c; induction us as [|u us IH]; intros p Hp a b c Hok HF.
  - eexists. split; [done|]. unfold class_slices. simpl. by rewrite !app_nil_r.
  - inversion_clear HF as [|? ? Hin HF']. cbn [fold_units]. rewrite (unit_rd m u Hin).
    cbn [mbind option_bind]. destruct Hok as (E & ? & ? & ? & Hok).
    change (sub (nu_code u) (nu_end u - nu_code u) m) with (unit_slice m u). cbv zeta.
    rewrite !class_slices_cons.
    destruct (class (unit_byte m u)) eqn:Ec; cbn [decide decide_rel unit_class_eq_dec unit_class_rec];
      repeat (rewrite decide_True by done || rewrite decide_False by done); rewrite ?app_nil_l, !app_assoc;
      (destruct (Z.eqb_spec (nu_end u) (zlen m)) as [En|_];
       [apply units_ok_end_nil in Hok as ->; [|lia]; eexists; (split; [done|]); unfold class_slices; simpl;
        by rewrite ?app_nil_r|apply (IH (nu_end u)); [lia|done..]]).
Qed.

Lemma extract_nal_headers_spec base us : Forall is_byte m → nal_units base m = Some us →
  extract_nal_headers class base m =
    Some (class_slices UNIT_OTHER us, class_slices UNIT_HEADER us, class_slices UNIT_SEI us).
Proof.
  intros Hb Hu. destruct (nal_units_spec base _ Hb) as (us' & E' & Hok & Hf).
  rewrite Hu in E'. injection E' as <-. unfold extract_nal_headers. rewrite Hf.
  destruct (extract_fold _ us [] [] [] (proj1 (startcode_from_range m 0 _ (zlen_nonneg m))) Hok
    (units_range _ _ _ Hb Hu)) as (r & Er & E).
  etrans; [exact (f_equal (λ o, r ← o; Some (match r with inl st => st | inr st => st end)) Er)|].
  simpl. by rewrite E.
Qed.
End extract.
