(* ===== verification/Avc.v ===== *)
(** * H.264 packets and headers: libobs/obs-avc.c

    Functions that walk the units of a packet are [for_each_nal] with the body of
    their loop; the state is what the C code keeps in locals and out parameters.
    [base] is the address of the packet (see Nal.v) and [None] undefined behaviour.
    Reading the end of a unit ([nal_end]) has no effect, so [for_each_nal] does it
    before the body also where the source does it after. *)

From S2P Require Import Prelude Serializer Encoder Bitstream Nal NalPacket.

Local Open Scope Z_scope.
Local Open Scope serializer_scope.

Definition OBS_NAL_SLICE : Z := 1.
Definition OBS_NAL_SLICE_IDR : Z := 5.
Definition OBS_NAL_SEI : Z := 6.
Definition OBS_NAL_SPS : Z := 7.
Definition OBS_NAL_PPS : Z := 8.

(** [nal_start[0] & 0x1F]. *)
Definition nal_type (b : Z) : Z := Z.land b 31.

Definition obs_avc_keyframe (base : Z) (data : bytes) : option bool :=
  r ← for_each_nal base data
        (λ _ _ ns _,
          b ← rd data ns;
          let type := nal_type b in
          if (type =? OBS_NAL_SLICE_IDR) || (type =? OBS_NAL_SLICE) then
            Some (inr (type =? OBS_NAL_SLICE_IDR))
          else Some (inl tt)) tt;
  Some (match r with inr k => k | inl _ => false end).

Definition obs_avc_find_startcode := obs_nal_find_startcode.

(** [b] is the first byte of the unit. *)
Definition compute_avc_keyframe_priority (b : Z) (is_keyframe : bool) (priority : Z) : bool * Z :=
  let type := nal_type b in
  let is_keyframe := if type =? OBS_NAL_SLICE_IDR then true else is_keyframe in
  let new_priority := Z.shiftr b 5 in
  (is_keyframe, if priority <? new_priority then new_priority else priority).

Definition serialize_avc_data {S} `{SerializerOps S} :=
  serialize_nal_data (S:=S) compute_avc_keyframe_priority.

Definition obs_parse_avc_packet := parse_nal_packet compute_avc_keyframe_priority.

Definition obs_parse_avc_packet_priority := nal_packet_priority compute_avc_keyframe_priority.

Definition has_start_code (data : bytes) : option bool :=
  d0 ← rd data 0;
  if negb (d0 =? 0) then Some false else
  d1 ← rd data 1;
  if negb (d1 =? 0) then Some false else
  d2 ← rd data 2;
  if d2 =? 1 then Some true else
  if d2 =? 0 then d3 ← rd data 3; Some (d3 =? 1) else Some false.

(** The last SPS and the last PPS: [(sps, pps)], [None] is a null pointer. *)
Definition get_sps_pps (base : Z) (data : bytes) : option (option bytes * option bytes) :=
  r ← for_each_nal base data
        (λ '(sps, pps) _ ns ne,
          b ← rd data ns;
          let type := nal_type b in
          let unit := sub ns (ne - ns) data in
          Some (inl (if type =? OBS_NAL_SPS then (Some unit, pps)
                     else if type =? OBS_NAL_PPS then (sps, Some unit)
                     else (sps, pps)) : (option bytes * option bytes) + Empty_set))
        (None, None);
  match r with inl p => Some p | inr e => match (e : Empty_set) with end end.

(** [while (i < 32 && !bitstream_reader_read_bits(gb, 1)) i++]. *)
Fixpoint golomb_zeros (n : nat) (i : Z) (gb : bitstream_reader) : Z * bitstream_reader :=
  match n with
  | O => (i, gb)
  | S n =>
      let '(bit, gb) := bitstream_reader_read_bits 1 gb in
      if bit =? 0 then golomb_zeros n (i + 1) gb else (i, gb)
  end.

(** [1 << i] of an [int] is undefined for 31 and more; the result is a [uint8_t]. *)
Definition get_ue_golomb (gb : bitstream_reader) : option (Z * bitstream_reader) :=
  let '(i, gb) := golomb_zeros 32 0 gb in
  if 31 <=? i then None else
  let '(v, gb) := bitstream_reader_read_bits i gb in
  Some (u8 (v + Z.shiftl 1 i - 1), gb).

(** The emulation-prevention bytes are dropped. *)
Fixpoint extract_rbsp (sps : bytes) : bytes :=
  match sps with
  | a :: (b :: (c :: rest) as tl2) as tl =>
      if (a =? 0) && (b =? 0) && (c =? 3) then a :: b :: extract_rbsp rest
      else a :: extract_rbsp tl
  | _ => sps
  end.

(** [(chroma_format_idc, bit_depth_luma, bit_depth_chroma)]. *)
Definition get_sps_high_params (sps : bytes) : option (Z * Z * Z) :=
  let gb := bitstream_reader_init (extract_rbsp sps) in
  let '(_, gb) := bitstream_reader_read_bits 24 gb in
  '(_, gb) ← get_ue_golomb gb;
  '(chroma_format_idc, gb) ← get_ue_golomb gb;
  let gb := if chroma_format_idc =? 3 then (bitstream_reader_read_bits 1 gb).2 else gb in
  '(bit_depth_luma, gb) ← get_ue_golomb gb;
  '(bit_depth_chroma, _) ← get_ue_golomb gb;
  Some (chroma_format_idc, bit_depth_luma, bit_depth_chroma).

Definition is_high_profile (profile_idc : Z) : bool :=
  (profile_idc =? 100) || (profile_idc =? 110) || (profile_idc =? 122) || (profile_idc =? 244).

(** The AVCDecoderConfigurationRecord. *)
Definition write_avc_record {S} `{SerializerOps S} (sps pps : bytes) : W S unit :=
  s_w8 1 ;;;
  s_put (sub 1 3 sps) ;;;
  s_w8 255 ;;;
  s_w8 225 ;;;
  s_wb16 (u16 (zlen sps)) ;;;
  s_put sps ;;;
  s_w8 1 ;;;
  s_wb16 (u16 (zlen pps)) ;;;
  s_put pps ;;;
  profile_idc <- deref (rd sps 1) ;;
  when is_high_profile profile_idc do (
    let* (chroma, luma, chroma_depth) := deref (get_sps_high_params (drop 1 sps)) in
    s_w8 (Z.lor 252 chroma) ;;;
    s_w8 (Z.lor 248 luma) ;;;
    s_w8 (Z.lor 248 chroma_depth) ;;;
    s_w8 0).

(** The header built from extra data; [[]] is a result of size 0. *)
Definition obs_parse_avc_header (base : Z) (data : bytes) : option bytes :=
  if zlen data <=? 6 then Some [] else
  c ← has_start_code data;
  if negb c then Some data else
  '(sps, pps) ← get_sps_pps base data;
  match sps, pps with
  | Some sps, Some pps =>
      if zlen sps <? 4 then Some [] else
      '(_, output) ← write_avc_record sps pps array_output_serializer_init;
      Some (ao_bytes output)
  | _, _ => Some []
  end.

Definition avc_class (b : Z) : unit_class :=
  let type := nal_type b in
  if (type =? OBS_NAL_SPS) || (type =? OBS_NAL_PPS) then UNIT_HEADER
  else if type =? OBS_NAL_SEI then UNIT_SEI
  else UNIT_OTHER.

Definition obs_extract_avc_headers := extract_nal_headers avc_class.

(** ** What a packet holds *)

Section units.
Context (data : bytes).

Definition unit_type (u : nal_unit) : Z := nal_type (unit_byte data u).
Definition is_idr (u : nal_unit) : bool := unit_type u =? OBS_NAL_SLICE_IDR.
Definition is_slice (u : nal_unit) : bool := is_idr u || (unit_type u =? OBS_NAL_SLICE).

(** The highest [nal_ref_idc] of the units, at least [p]. *)
Definition units_priority (p : Z) (us : list nal_unit) : Z :=
  foldl (λ p u, Z.max p (Z.shiftr (unit_byte data u) 5)) p us.

Lemma avc_flags k p us :
  units_flags data compute_avc_keyframe_priority (k, p) us =
  (k || existsb is_idr us, units_priority p us).
Proof.
  revert k p; induction us as [|u us IH]; intros k p; [simpl; by rewrite orb_false_r|].
  unfold units_flags, units_priority in *. cbn [foldl existsb fst snd].
  unfold compute_avc_keyframe_priority at 2. fold (unit_type u). fold (is_idr u).
  rewrite orb_assoc.
  replace (if is_idr u then true else k) with (k || is_idr u) by (by destruct k, (is_idr u)).
  replace (if p <? Z.shiftr (unit_byte data u) 5 then Z.shiftr (unit_byte data u) 5 else p)
    with (Z.max p (Z.shiftr (unit_byte data u) 5))
    by (destruct (Z.ltb_spec p (Z.shiftr (unit_byte data u) 5)); lia).
  apply IH.
Qed.
End units.

(** C32: Length-prefixed packets round-trip: whatever Annex B packet the encoder
    delivers, [obs_parse_avc_packet] succeeds and a reader of 4-byte length prefixes
    gets back exactly the payloads of its NAL units, in order; the packet becomes a
    keyframe iff it was one or holds an IDR slice, and its drop priority is the
    highest reference priority of its units. *)
Theorem avc_packet_roundtrip base src :
  Forall is_byte (pkt_data src) → zlen (pkt_data src) < 2 ^ 32 →
  ∃ us p, nal_units base (pkt_data src) = Some us ∧
    obs_parse_avc_packet base src = Some p ∧
    read_avcc (length us) (pkt_data p) = Some (map (unit_bytes (pkt_data src)) us) ∧
    pkt_keyframe p = pkt_keyframe src || existsb (is_idr (pkt_data src)) us ∧
    pkt_drop_priority p = units_priority (pkt_data src) (pkt_priority src) us.
Proof.
  intros Hb Hl. destruct (nal_units_spec base _ Hb) as (us & Hu & _ & _).
  eexists us, _. split; [done|]. split; [by apply parse_nal_packet_spec|]. rewrite avc_flags.
  split; [|done]. apply read_avcc_spec; [by eapply units_range|done..].
Qed.

(** [obs_avc_keyframe] tells whether the first slice unit of the packet is an
    IDR slice (a packet without slices is not a keyframe), for every packet. *)
Theorem avc_keyframe_first_slice base data :
  Forall is_byte data →
  ∃ us, nal_units base data = Some us ∧
    obs_avc_keyframe base data =
      Some (match filter (λ u, is_slice data u = true) us with
            | u :: _ => is_idr data u
            | [] => false
            end).
Proof.
  intros Hb. destruct (nal_units_spec base _ Hb) as (us & Hu & _ & Hf). exists us.
  split; [done|]. unfold obs_avc_keyframe. rewrite Hf.
  pose proof (units_range _ _ _ Hb Hu) as HF. clear Hu Hf.
  induction HF as [|u us Hin _ IH]; [done|].
  cbn [fold_units mbind option_bind]. rewrite (unit_rd data u Hin). cbn [mbind option_bind].
  change (nal_type (unit_byte data u)) with (unit_type data u).
  change (unit_type data u =? OBS_NAL_SLICE_IDR) with (is_idr data u).
  change (is_idr data u || (unit_type data u =? OBS_NAL_SLICE)) with (is_slice data u).
  destruct (is_slice data u) eqn:E.
  - by rewrite filter_cons_True.
  - rewrite filter_cons_False by congruence. exact IH.
Qed.

(** [obs_extract_avc_headers] partitions the packet: SPS/PPS units go to the
    header, SEI units to the SEI data and everything else to the new packet, each in
    order and with its start code, and the units cover the packet without gaps from
    the first start code to the end of the last unit. *)
Theorem avc_extract_partition base m :
  Forall is_byte m →
  ∃ us q, nal_units base m = Some us ∧
    obs_extract_avc_headers base m =
      Some (class_slices avc_class m UNIT_OTHER us, class_slices avc_class m UNIT_HEADER us,
            class_slices avc_class m UNIT_SEI us) ∧
    concat (map (unit_slice m) us) =
      sub (startcode_from m 0 (zlen m)) (q - startcode_from m 0 (zlen m)) m.
Proof.
  intros Hb. destruct (nal_units_spec base _ Hb) as (us & Hu & Hok & _).
  pose proof (startcode_from_range m 0 _ (zlen_nonneg m)) as Hs.
  destruct (units_ok_concat m _ us (proj1 Hs) Hok) as (q & _ & _ & _ & Hq).
  exists us, q. split; [done|]. split; [|done]. by apply extract_nal_headers_spec.
Qed.

(** ** The decoder configuration record *)

Section record.
Context (data : bytes).

Definition is_sps (u : nal_unit) : bool := unit_type data u =? OBS_NAL_SPS.
Definition is_pps (u : nal_unit) : bool := unit_type data u =? OBS_NAL_PPS.

(** The payload of the last unit of a kind. *)
Definition last_unit (f : nal_unit → bool) (us : list nal_unit) : option bytes :=
  unit_bytes data <$> last (filter (λ u, f u = true) us).

Lemma last_unit_cons f u us :
  last_unit f (u :: us) =
  match last_unit f us with
  | Some b => Some b
  | None => if f u then Some (unit_bytes data u) else None
  end.
Proof.
  unfold last_unit. rewrite filter_cons. destruct (f u) eqn:E; case_decide; try congruence.
  - rewrite last_cons. by destruct (last _).
  - by destruct (last _).
Qed.

Lemma sps_pps_fold us a b : Forall (unit_in data) us →
  fold_units (λ '(sps, pps) (_ ns ne : Z),
        b ← rd data ns;
        let type := nal_type b in
        let unit := sub ns (ne - ns) data in
        Some (inl (if type =? OBS_NAL_SPS then (Some unit, pps)
                   else if type =? OBS_NAL_PPS then (sps, Some unit)
                   else (sps, pps)) : (option bytes * option bytes) + Empty_set)) us (a, b) =
  Some (inl (match last_unit is_sps us with Some x => Some x | None => a end,
             match last_unit is_pps us with Some x => Some x | None => b end)).
Proof.
  intros HF. revert a b; induction HF as [|u us Hin _ IH]; intros a b; [done|].
  cbn [fold_units]. rewrite (unit_rd data u Hin). cbn [mbind option_bind].
  rewrite !last_unit_cons. set (ls := last_unit is_sps us) in *. set (lp := last_unit is_pps us) in *.
  unfold is_sps, is_pps.
  change (nal_type (unit_byte data u)) with (unit_type data u).
  destruct (Z.eqb_spec (unit_type data u) OBS_NAL_SPS) as [->|];
    [|destruct (Z.eqb_spec (unit_type data u) OBS_NAL_PPS)]; rewrite IH;
    by destruct ls, lp.
Qed.

Lemma get_sps_pps_spec base us :
  Forall is_byte data → nal_units base data = Some us →
  get_sps_pps base data = Some (last_unit is_sps us, last_unit is_pps us).
Proof.
  intros Hb Hu. destruct (nal_units_spec base _ Hb) as (us' & E & _ & Hf).
  rewrite Hu in E. injection E as <-. unfold get_sps_pps. rewrite Hf.
  etrans; [exact (f_equal (λ o, r ← o; match r with inl p => Some p | inr e => match (e : Empty_set) with end end)
    (sps_pps_fold us None None (units_range _ _ _ Hb Hu)))|].
  simpl. by destruct (last_unit is_sps us), (last_unit is_pps us).
Qed.
End record.

(** The bytes added for the high profiles. *)
Definition record_ext (sps : bytes) : option bytes :=
  profile_idc ← rd sps 1;
  if is_high_profile profile_idc then
    '(chroma, luma, chroma_depth) ← get_sps_high_params (drop 1 sps);
    Some [u8 (Z.lor 252 chroma); u8 (Z.lor 248 luma); u8 (Z.lor 248 chroma_depth); 0]
  else Some [].

(** A reader of the record: profile bytes, SPS, PPS, extension. *)
Definition read_avc_record (r : bytes) : option (bytes * bytes * bytes * bytes) :=
  let n := be_val (sub 6 2 r) in
  let rest := drop (Z.to_nat (8 + n)) r in
  let k := be_val (sub 1 2 rest) in
  if bool_decide (sub 0 1 r = [1] ∧ sub 4 2 r = [255; 225] ∧ sub 0 1 rest = [1]) then
    Some (sub 1 3 r, sub 8 n r, sub 3 k rest, drop (Z.to_nat (3 + k)) rest)
  else None.

Definition avc_record (sps pps ext : bytes) : bytes :=
  [1] ++ sub 1 3 sps ++ [255; 225] ++ be16 (zlen sps) ++ sps ++ [1] ++ be16 (zlen pps) ++ pps ++ ext.

Lemma sub_prefix {A} o n (a b k : list A) : zlen a = o → zlen b = n → sub o n (a ++ b ++ k) = b.
Proof. intros <- <-. apply sub_app_mid. Qed.

Lemma drop_prefix {A} n (a k : list A) : zlen a = n → drop (Z.to_nat n) (a ++ k) = k.
Proof. intros <-. by rewrite zlen_to_nat, drop_app_length. Qed.

Lemma read_avc_record_spec sps pps ext : 4 ≤ zlen sps < 2 ^ 16 → zlen pps < 2 ^ 16 →
  read_avc_record (avc_record sps pps ext) = Some (sub 1 3 sps, sps, pps, ext).
Proof.
  intros Hs Hp. pose proof (sub_len 1 3 sps ltac:(lia) ltac:(lia) ltac:(lia)) as H3.
  pose proof (zlen_nonneg pps).
  set (r := avc_record sps pps ext). set (prof := sub 1 3 sps) in *.
  assert (sub 6 2 r = be16 (zlen sps)) as E6.
  { unfold r, avc_record. fold prof. rewrite (app_assoc [1]), (app_assoc ([1] ++ prof)).
    apply sub_prefix; len_lia. }
  assert (be_val (sub 6 2 r) = zlen sps) as En by (rewrite E6, be16_val; wrap_small; done).
  assert (drop (Z.to_nat (8 + zlen sps)) r = [1] ++ be16 (zlen pps) ++ pps ++ ext) as Er.
  { unfold r, avc_record. fold prof.
    rewrite (app_assoc [1] prof), (app_assoc ([1] ++ prof)), (app_assoc (([1] ++ prof) ++ _)),
      (app_assoc ((([1] ++ prof) ++ _) ++ _)). apply drop_prefix. len_lia. }
  assert (be_val (sub 1 2 ([1] ++ be16 (zlen pps) ++ pps ++ ext)) = zlen pps) as Ek.
  { rewrite sub_prefix by done. rewrite be16_val. by wrap_small. }
  unfold read_avc_record. rewrite En, Er, Ek.
  rewrite bool_decide_eq_true_2.
  - do 4 f_equal.
    + apply (sub_prefix 1 3 [1]); [done|len_lia].
    + unfold r, avc_record. fold prof.
      rewrite (app_assoc [1] prof), (app_assoc ([1] ++ prof)), (app_assoc (([1] ++ prof) ++ _)).
      apply sub_prefix; len_lia.
    + rewrite app_assoc. apply sub_prefix; len_lia.
    + rewrite (app_assoc [1]), (app_assoc ([1] ++ _)). apply drop_prefix. len_lia.
  - split; [done|]. split; [|done]. unfold r, avc_record. fold prof. rewrite (app_assoc [1]).
    apply sub_prefix; len_lia.
Qed.

Lemma u8_lor c x : 0 ≤ c < 256 → 0 ≤ x < 256 → u8 (Z.lor c x) = Z.lor c x.
Proof.
  intros. apply u8_small. split; [apply Z.lor_nonneg; lia|].
  destruct (decide (Z.lor c x = 0)) as [->|]; [lia|].
  apply Z.log2_lt_pow2; [pose proof (proj2 (Z.lor_nonneg c x)); lia|].
  rewrite Z.log2_lor by lia.
  apply Z.max_lub_lt;
    [destruct (decide (c = 0)) as [->|]|destruct (decide (x = 0)) as [->|]]; try done;
    apply Z.log2_lt_pow2; lia.
Qed.

Section record_writer.
Context {S : Type} `{AppendSerializer S}.

Lemma emits_avc_record sps pps ext : record_ext sps = Some ext →
  emits 0 (write_avc_record sps pps) (avc_record sps pps ext) tt.
Proof.
  unfold record_ext, write_avc_record. destruct (rd sps 1) as [profile|] eqn:Ep; [|done].
  cbn [mbind option_bind]. intros Hx. eapply emits_eq.
  - do 9 (eapply emits_seq; [eauto with emits|reflexivity|]).
    eapply emits_seq; [by apply emits_deref|reflexivity|].
    destruct (is_high_profile profile); [|injection Hx as <-; apply emits_ret].
    destruct (get_sps_high_params (drop 1 sps)) as [[[c l] d]|] eqn:Eh; [|done]. simpl in Hx.
    injection Hx as <-. eapply emits_eq.
    { eapply emits_seq; [by apply emits_deref|reflexivity|].
      do 3 (eapply emits_seq; [eauto with emits|reflexivity|]). eauto with emits. }
    done.
  - unfold avc_record. unfold u16. by rewrite !be16_mod by lia.
Qed.
End record_writer.

(** A computation that cannot complete whatever the target. *)
Definition stuck {S A} (m : W S A) : Prop := ∀ s, m s = None.

Lemma stuck_bind {S A B} (m : W S A) (k : A → W S B) : (∀ x, stuck (k x)) → stuck (bind m k).
Proof. intros K s. unfold bind. destruct (m s) as [[x s']|]; [apply K|done]. Qed.

Lemma stuck_head {S A B} (m : W S A) (k : A → W S B) : stuck m → stuck (bind m k).
Proof. intros M s. unfold bind. by rewrite M. Qed.

Lemma avc_record_stuck {S} `{SerializerOps S} sps pps :
  record_ext sps = None → stuck (write_avc_record (S:=S) sps pps).
Proof.
  unfold record_ext, write_avc_record. intros Hx. do 9 (apply stuck_bind; intros _).
  destruct (rd sps 1) as [profile|]; [|by apply stuck_head].
  intros s. unfold bind at 1. simpl in *.
  destruct (is_high_profile profile); [|done].
  destruct (get_sps_high_params (drop 1 sps)) as [[[c l] d]|]; [done|]. reflexivity.
Qed.

(** C33: The header built from Annex B extra data is a well-formed
    AVCDecoderConfigurationRecord: a reader gets back the three profile bytes and the
    last SPS and PPS of the data, followed by the high-profile extension; it is
    empty when there is no SPS or PPS or the SPS is shorter than 4 bytes. The
    function is undefined exactly when the high-profile fields are. *)
Theorem avc_header_record base data :
  Forall is_byte data → 6 < zlen data → has_start_code data = Some true →
  ∃ us, nal_units base data = Some us ∧
    match last_unit data (is_sps data) us, last_unit data (is_pps data) us with
    | Some sps, Some pps =>
        4 ≤ zlen sps < 2 ^ 16 → zlen pps < 2 ^ 16 →
        match record_ext sps with
        | Some ext => ∃ r, obs_parse_avc_header base data = Some r ∧
                           read_avc_record r = Some (sub 1 3 sps, sps, pps, ext)
        | None => obs_parse_avc_header base data = None
        end
    | _, _ => obs_parse_avc_header base data = Some []
    end.
Proof.
  intros Hb Hl Hc. destruct (nal_units_spec base _ Hb) as (us & Hu & _ & _). exists us.
  split; [done|]. unfold obs_parse_avc_header.
  rewrite (proj2 (Z.leb_gt _ _)), Hc, (get_sps_pps_spec data base us) by done. cbn [mbind option_bind negb].
  destruct (last_unit data (is_sps data) us) as [sps|]; [|done].
  destruct (last_unit data (is_pps data) us) as [pps|]; [|done].
  intros Hs Hp. rewrite (proj2 (Z.ltb_ge _ _)) by lia.
  destruct (record_ext sps) as [ext|] eqn:Ex.
  - assert (zlen ext ≤ 4) as Hext.
    { revert Ex. unfold record_ext. destruct (rd sps 1); [|done]. simpl. case_match; [|by intros [= <-]].
      destruct (get_sps_high_params _) as [[[? ?] ?]|]; [|done]. by intros [= <-]. }
    rewrite (emits_array _ _ _ (emits_avc_record sps pps ext Ex)).
    + eexists. split; [done|]. by apply read_avc_record_spec.
    + pose proof (sub_len 1 3 sps). unfold avc_record, MAX_POS. len_lia.
  - by rewrite (avc_record_stuck sps pps Ex).
Qed.

(** ** Emulation prevention *)

(** The encoder's side (H.264 7.4.1): after two zero bytes, a byte of at most 3 is
    preceded by a 3. [z] counts the zeros just written. *)
Fixpoint escape_rbsp (z : nat) (l : bytes) : bytes :=
  match l with
  | [] => []
  | b :: l =>
      if (2 <=? z)%nat && (b <=? 3) then 3 :: b :: escape_rbsp (if b =? 0 then 1%nat else 0%nat) l
      else b :: escape_rbsp (if b =? 0 then S z else 0%nat) l
  end.

Lemma extract_cons_nz a l : a ≠ 0 → extract_rbsp (a :: l) = a :: extract_rbsp l.
Proof.
  intros Ha. destruct l as [|b [|c l]]; [done..|]. cbn [extract_rbsp].
  by rewrite (proj2 (Z.eqb_neq a 0)).
Qed.

Lemma extract_0_nz b l : b ≠ 0 → extract_rbsp (0 :: b :: l) = 0 :: extract_rbsp (b :: l).
Proof.
  intros Hb. destruct l as [|c l]; [done|]. cbn [extract_rbsp].
  by rewrite (proj2 (Z.eqb_neq b 0)).
Qed.

Lemma extract_00 c l : c ≠ 3 → extract_rbsp (0 :: 0 :: c :: l) = 0 :: extract_rbsp (0 :: c :: l).
Proof. intros Hc. cbn [extract_rbsp]. by rewrite (proj2 (Z.eqb_neq c 3)). Qed.

Lemma extract_escape_zeros l z : Forall is_byte l → (z ≤ 2)%nat →
  extract_rbsp (replicate z 0 ++ escape_rbsp z l) = replicate z 0 ++ l.
Proof.
  intros Hl. revert z. induction Hl as [|b l Hb Hl IH]; intros z Hz.
  - by destruct z as [|[|[|z]]]; [..|lia].
  - unfold is_byte in Hb. cbn [escape_rbsp].
    pose proof (IH 0%nat ltac:(lia)) as IH0. pose proof (IH 1%nat ltac:(lia)) as IH1.
    pose proof (IH 2%nat ltac:(lia)) as IH2. cbn [replicate app] in IH0, IH1, IH2.
    assert (z = 0 ∨ z = 1 ∨ z = 2)%nat as [->|[->| ->]] by lia;
      cbn [Nat.leb andb replicate app]; destruct (Z.eqb_spec b 0) as [->|Nz].
    + exact IH1.
    + by rewrite extract_cons_nz, IH0.
    + exact IH2.
    + by rewrite extract_0_nz, extract_cons_nz, IH0.
    + change (0 <=? 3) with true. cbv iota. change (extract_rbsp (0 :: 0 :: 3 :: ?x)) with (0 :: 0 :: extract_rbsp x).
      by rewrite IH1.
    + destruct (Z.leb_spec b 3).
      * change (extract_rbsp (0 :: 0 :: 3 :: ?x)) with (0 :: 0 :: extract_rbsp x).
        by rewrite extract_cons_nz, IH0.
      * by rewrite extract_00, extract_0_nz, extract_cons_nz, IH0 by lia.
Qed.

(** Dropping emulation-prevention bytes inverts the insertion an H.264 encoder
    performs, for every payload: the SPS parser sees the original RBSP. *)
Theorem rbsp_roundtrip l : Forall is_byte l → extract_rbsp (escape_rbsp 0 l) = l.
Proof. intros Hl. exact (extract_escape_zeros l 0 Hl ltac:(lia)). Qed.

(** ** Exp-Golomb codes *)

Lemma read_one r b l : reader_ok r → bits_of r = b :: l →
  ∃ r', bitstream_reader_read_bits 1 r = (Z.b2z b, r') ∧ reader_ok r' ∧ bits_of r' = l.
Proof.
  intros Hr Hb. pose proof (read_bits_spec 1 r Hr) as Hs.
  destruct (bitstream_reader_read_bits 1 r) as [v r']. destruct Hs as (Hok & Hd & ->).
  exists r'. rewrite Hb in *. split; [|done]. f_equal. by destruct b.
Qed.

Lemma golomb_zeros_spec k n i r l : reader_ok r → (k < n)%nat →
  bits_of r = replicate k false ++ true :: l →
  ∃ r', golomb_zeros n i r = (i + Z.of_nat k, r') ∧ reader_ok r' ∧ bits_of r' = l.
Proof.
  revert n i r; induction k as [|k IH]; intros n i r Hr Hn Hb; (destruct n as [|n]; [lia|]); cbn [golomb_zeros].
  - destruct (read_one r _ _ Hr Hb) as (r' & -> & Hok & Hl). simpl. exists r'.
    split; [f_equal; lia|done].
  - destruct (read_one r _ _ Hr Hb) as (r' & -> & Hok & Hl). simpl.
    destruct (IH n (i + 1) r' Hok ltac:(lia) Hl) as (r2 & -> & H2). exists r2.
    split; [f_equal; lia|done].
Qed.

(** [get_ue_golomb] decodes an Exp-Golomb code: [k] zero bits, a one and [k] more
    bits [w] give 2^k + w - 1, reduced to the [uint8_t] the function returns, and
    exactly the bits of the code are consumed. *)
Theorem ue_golomb_decodes k w rest r :
  (k ≤ 30)%nat → length w = k → reader_ok r →
  bits_of r = replicate k false ++ true :: w ++ rest →
  ∃ r', get_ue_golomb r = Some (u8 (2 ^ Z.of_nat k + bits_val w - 1), r') ∧ bits_of r' = rest.
Proof.
  intros Hk Hw Hr Hb. unfold get_ue_golomb.
  destruct (golomb_zeros_spec k 32 0 r _ Hr ltac:(lia) Hb) as (r1 & -> & Hok & H1).
  rewrite Z.add_0_l, (proj2 (Z.leb_gt _ _)) by lia.
  pose proof (read_bits_spec (Z.of_nat k) r1 Hok) as Hs.
  destruct (bitstream_reader_read_bits (Z.of_nat k) r1) as [v r2]. destruct Hs as (_ & Hd & ->).
  rewrite Nat2Z.id, H1, <- Hw in *. rewrite take_app_length, drop_app_length in *.
  exists r2. split; [|done].
  replace (length w - length (w ++ rest))%nat with 0%nat by (rewrite length_app; lia).
  simpl. rewrite app_nil_r. do 2 f_equal.
  rewrite Z.shiftl_mul_pow2, Z.mul_1_l by lia. unfold u8.
  rewrite <- (Zminus_mod_idemp_l (_ + _)), Zplus_mod_idemp_l, Zminus_mod_idemp_l. f_equal. lia.
Qed.

(** ** Concrete packets *)

(** SPS (profile 100, Exp-Golomb fields 0, 1, 0, 0), PPS, SEI and an IDR slice. *)
Definition ex_packet : bytes :=
  [0; 0; 0; 1; 103; 100; 0; 31; 172; 128; 0; 0; 0; 1; 104; 206; 60; 128;
   0; 0; 1; 6; 5; 1; 0; 0; 1; 101; 136; 132; 33].

Definition ex_src : encoder_packet :=
  mk_packet ex_packet 0 0 1 30 OBS_ENCODER_VIDEO false 0 0 0 0 0 0.

Lemma avc_packet_roundtrip_witness :
  ∃ us p, nal_units 1 ex_packet = Some us ∧ obs_parse_avc_packet 1 ex_src = Some p ∧
    read_avcc (length us) (pkt_data p) = Some (map (unit_bytes ex_packet) us) ∧
    pkt_keyframe p = false || existsb (is_idr ex_packet) us ∧
    pkt_drop_priority p = units_priority ex_packet 0 us.
Proof. apply (avc_packet_roundtrip 1 ex_src); [all_bytes|done]. Defined.

Lemma avc_keyframe_first_slice_witness :
  ∃ us, nal_units 0 ex_packet = Some us ∧
    obs_avc_keyframe 0 ex_packet =
      Some (match filter (λ u, is_slice ex_packet u = true) us with
            | u :: _ => is_idr ex_packet u
            | [] => false
            end).
Proof. apply (avc_keyframe_first_slice 0 ex_packet). all_bytes. Defined.

Lemma avc_extract_partition_witness :
  ∃ us q, nal_units 3 ex_packet = Some us ∧
    obs_extract_avc_headers 3 ex_packet =
      Some (class_slices avc_class ex_packet UNIT_OTHER us, class_slices avc_class ex_packet UNIT_HEADER us,
            class_slices avc_class ex_packet UNIT_SEI us) ∧
    concat (map (unit_slice ex_packet) us) =
      sub (startcode_from ex_packet 0 (zlen ex_packet)) (q - startcode_from ex_packet 0 (zlen ex_packet)) ex_packet.
Proof. apply (avc_extract_partition 3 ex_packet). all_bytes. Defined.

Lemma avc_header_record_witness :
  has_start_code ex_packet = Some true ∧
  ∃ us, nal_units 0 ex_packet = Some us ∧
    match last_unit ex_packet (is_sps ex_packet) us, last_unit ex_packet (is_pps ex_packet) us with
    | Some sps, Some pps =>
        4 ≤ zlen sps < 2 ^ 16 → zlen pps < 2 ^ 16 →
        match record_ext sps with
        | Some ext => ∃ r, obs_parse_avc_header 0 ex_packet = Some r ∧
                           read_avc_record r = Some (sub 1 3 sps, sps, pps, ext)
        | None => obs_parse_avc_header 0 ex_packet = None
        end
    | _, _ => obs_parse_avc_header 0 ex_packet = Some []
    end.
Proof.
  split; [reflexivity|]. apply (avc_header_record 0 ex_packet); [all_bytes|done|reflexivity].
Defined.

Lemma rbsp_roundtrip_witness : extract_rbsp (escape_rbsp 0 [66; 0; 0; 0; 0; 0; 3; 0; 0; 1]) =
  [66; 0; 0; 0; 0; 0; 3; 0; 0; 1].
Proof. apply rbsp_roundtrip. all_bytes. Defined.

Lemma ue_golomb_decodes_witness :
  ∃ r', get_ue_golomb (bitstream_reader_init [44]) = Some (u8 (2 ^ Z.of_nat 2 + bits_val [false; true] - 1), r') ∧
        bits_of r' = [true; false; false].
Proof.
  apply (ue_golomb_decodes 2 [false; true] [true; false; false]); [lia|done|by apply init_ok|reflexivity].
Defined.

(** An Exp-Golomb code cut off by the end of the SPS runs past the defined range
    of [1 << i]: the exhausted reader supplies zero bits and [i] reaches 32, so
    extra data with a truncated high-profile SPS has undefined behaviour. *)
Theorem avc_truncated_sps_undefined :
  obs_parse_avc_header 0 [0; 0; 0; 1; 103; 100; 0; 31; 0; 0; 0; 1; 104; 206] = None.
Proof. vm_compute. reflexivity. Qed.
