(* ===== verification/Hevc.v ===== *)
(** * HEVC packets: libobs/obs-hevc.c *)

From S2P Require Import Prelude Serializer Encoder Nal NalPacket.

Local Open Scope Z_scope.

(** [enum] of obs-hevc.h, the values that are tested. *)
Definition OBS_HEVC_NAL_BLA_W_LP : Z := 16.
Definition OBS_HEVC_NAL_RSV_IRAP_VCL23 : Z := 23.
Definition OBS_HEVC_NAL_VPS : Z := 32.
Definition OBS_HEVC_NAL_SPS : Z := 33.
Definition OBS_HEVC_NAL_PPS : Z := 34.
Definition OBS_HEVC_NAL_SEI_PREFIX : Z := 39.
Definition OBS_HEVC_NAL_SEI_SUFFIX : Z := 40.

Definition OBS_NAL_PRIORITY_DISPOSABLE : Z := 0.
Definition OBS_NAL_PRIORITY_HIGH : Z := 2.
Definition OBS_NAL_PRIORITY_HIGHEST : Z := 3.

(** [(nal_start[0] & 0x7F) >> 1]. *)
Definition hevc_type (b : Z) : Z := Z.shiftr (Z.land b 127) 1.

Definition obs_hevc_keyframe (base : Z) (data : bytes) : option bool :=
  r ← for_each_nal base data
        (λ _ _ ns _,
          b ← rd data ns;
          let type := hevc_type b in
          if type <=? OBS_HEVC_NAL_RSV_IRAP_VCL23 then Some (inr (OBS_HEVC_NAL_BLA_W_LP <=? type))
          else Some (inl tt)) tt;
  Some (match r with inr k => k | inl _ => false end).

(** The [switch] on the type of the unit, [b] its first byte: IRAP pictures (BLA, IDR,
    CRA and the reserved types 22 and 23), then reference pictures (odd types up to
    9); the rest is disposable. *)
Definition compute_hevc_keyframe_priority (b : Z) (is_keyframe : bool) (priority : Z) : bool * Z :=
  let type := hevc_type b in
  let '(is_keyframe, new_priority) :=
    if bool_decide (type ∈ [16; 17; 18; 19; 20; 21; 22; 23]) then (true, OBS_NAL_PRIORITY_HIGHEST)
    else if bool_decide (type ∈ [1; 3; 5; 7; 9]) then (is_keyframe, OBS_NAL_PRIORITY_HIGH)
    else if bool_decide (type ∈ [0; 2; 4; 6; 8]) then (is_keyframe, OBS_NAL_PRIORITY_DISPOSABLE)
    else (is_keyframe, OBS_NAL_PRIORITY_DISPOSABLE) in
  (is_keyframe, if new_priority <? priority then priority else new_priority).

Definition serialize_hevc_data {S} `{SerializerOps S} :=
  serialize_nal_data (S:=S) compute_hevc_keyframe_priority.

Definition obs_parse_hevc_packet := parse_nal_packet compute_hevc_keyframe_priority.

Definition obs_parse_hevc_packet_priority := nal_packet_priority compute_hevc_keyframe_priority.

Definition hevc_class (b : Z) : unit_class :=
  let type := hevc_type b in
  if (type =? OBS_HEVC_NAL_VPS) || (type =? OBS_HEVC_NAL_SPS) || (type =? OBS_HEVC_NAL_PPS) then UNIT_HEADER
  else if (type =? OBS_HEVC_NAL_SEI_PREFIX) || (type =? OBS_HEVC_NAL_SEI_SUFFIX) then UNIT_SEI
  else UNIT_OTHER.

Definition obs_extract_hevc_headers := extract_nal_headers hevc_class.

(** ** Properties *)

Section units.
Context (data : bytes).

Definition is_irap (u : nal_unit) : bool :=
  let t := hevc_type (unit_byte data u) in (16 <=? t) && (t <=? 23).
Definition is_vcl (u : nal_unit) : bool := hevc_type (unit_byte data u) <=? 23.

Lemma hevc_type_nonneg b : 0 ≤ b → 0 ≤ hevc_type b.
Proof. intros. unfold hevc_type. apply Z.shiftr_nonneg, Z.land_nonneg. lia. Qed.

(** The key flag is set by IRAP units and never cleared. *)
Lemma compute_hevc_key b k p :
  (compute_hevc_keyframe_priority b k p).1 = k || ((16 <=? hevc_type b) && (hevc_type b <=? 23)).
Proof.
  unfold compute_hevc_keyframe_priority. set (t := hevc_type b).
  destruct ((16 <=? t) && (t <=? 23)) eqn:E.
  - rewrite bool_decide_eq_true_2; [by rewrite orb_true_r|].
    assert (t = 16 ∨ t = 17 ∨ t = 18 ∨ t = 19 ∨ t = 20 ∨ t = 21 ∨ t = 22 ∨ t = 23) as Ht by lia.
    rewrite !elem_of_cons. tauto.
  - rewrite bool_decide_eq_false_2; [|rewrite !elem_of_cons, elem_of_nil; lia]. rewrite orb_false_r.
    by repeat case_bool_decide.
Qed.

(** The priority never decreases. *)
Lemma compute_hevc_priority b k p : p ≤ (compute_hevc_keyframe_priority b k p).2.
Proof.
  unfold compute_hevc_keyframe_priority. destruct (if bool_decide _ then _ else _) as [k' n].
  simpl. destruct (Z.ltb_spec n p); lia.
Qed.

Lemma hevc_flags_key k p us :
  (units_flags data compute_hevc_keyframe_priority (k, p) us).1 = k || existsb is_irap us.
Proof.
  revert k p; induction us as [|u us IH]; intros k p; [simpl; by rewrite orb_false_r|].
  unfold units_flags in *. cbn [foldl existsb fst snd].
  rewrite (surjective_pairing (compute_hevc_keyframe_priority _ _ _)), IH, compute_hevc_key.
  by rewrite orb_assoc.
Qed.
End units.

(** C36: HEVC packets round-trip like AVC ones: the length-prefixed packet holds the
    payloads of the NAL units in order, it is a keyframe iff it was one or some unit is
    an IRAP picture, and extraction partitions the same units into headers (VPS, SPS,
    PPS), SEI and the rest. *)
Theorem hevc_packet_roundtrip base src :
  Forall is_byte (pkt_data src) → zlen (pkt_data src) < 2 ^ 32 →
  ∃ us p, nal_units base (pkt_data src) = Some us ∧
    obs_parse_hevc_packet base src = Some p ∧
    read_avcc (length us) (pkt_data p) = Some (map (unit_bytes (pkt_data src)) us) ∧
    pkt_keyframe p = pkt_keyframe src || existsb (is_irap (pkt_data src)) us ∧
    obs_extract_hevc_headers base (pkt_data src) =
      Some (class_slices hevc_class (pkt_data src) UNIT_OTHER us,
            class_slices hevc_class (pkt_data src) UNIT_HEADER us,
            class_slices hevc_class (pkt_data src) UNIT_SEI us).
Proof.
  intros Hb Hl. destruct (nal_units_spec base _ Hb) as (us & Hu & _ & _).
  eexists us, _. split; [done|]. split; [by apply parse_nal_packet_spec|].
  split; [apply read_avcc_spec; [by eapply units_range|done..]|].
  split; [apply hevc_flags_key|]. by apply extract_nal_headers_spec.
Qed.

(** VPS, SPS, a prefix SEI and an IDR slice. *)
Definition ex_hevc : encoder_packet :=
  mk_packet [0; 0; 0; 1; 64; 1; 12; 0; 0; 1; 66; 1; 1; 0; 0; 1; 78; 1; 5; 0; 0; 1; 38; 1; 175]
    0 0 1 30 OBS_ENCODER_VIDEO false 0 0 0 0 0 0.

Lemma hevc_packet_roundtrip_witness :
  ∃ us p, nal_units 0 (pkt_data ex_hevc) = Some us ∧
    obs_parse_hevc_packet 0 ex_hevc = Some p ∧
    read_avcc (length us) (pkt_data p) = Some (map (unit_bytes (pkt_data ex_hevc)) us) ∧
    pkt_keyframe p = pkt_keyframe ex_hevc || existsb (is_irap (pkt_data ex_hevc)) us ∧
    obs_extract_hevc_headers 0 (pkt_data ex_hevc) =
      Some (class_slices hevc_class (pkt_data ex_hevc) UNIT_OTHER us,
            class_slices hevc_class (pkt_data ex_hevc) UNIT_HEADER us,
            class_slices hevc_class (pkt_data ex_hevc) UNIT_SEI us).
Proof. apply (hevc_packet_roundtrip 0 ex_hevc); [all_bytes|done]. Defined.
