(* ===== verification/Av1.v ===== *)
(** * AV1 packets: libobs/obs-av1.c

    [None] is undefined behaviour: a read outside the packet, or a shift that the
    [int] it is performed in cannot hold. *)

From S2P Require Import Prelude Nal.

Local Open Scope Z_scope.

Definition OBS_OBU_SEQUENCE_HEADER : Z := 1.
Definition OBS_OBU_FRAME_HEADER : Z := 3.
Definition OBS_OBU_METADATA : Z := 5.
Definition OBS_OBU_FRAME : Z := 6.
Definition METADATA_TYPE_ITUT_T35 : Z := 4.

(** [(leb128_byte & 0x7f) << (i * 7)], computed in a 32-bit [int]. *)
Definition leb_shift (byte i : Z) : option Z :=
  let v := Z.land byte 127 in
  if 32 <=? i * 7 then None
  else if Z.shiftl v (i * 7) <? 2 ^ 31 then Some (Z.shiftl v (i * 7)) else None.

(** The loop from iteration [8 - n]: [(value, len)]. *)
Fixpoint leb_loop (n : nat) (buf : bytes) (off size i value len : Z) : option (Z * Z) :=
  match n with
  | O => Some (value, len)
  | S n =>
      if size <? 1 then Some (value, len) else
      leb128_byte ← rd buf (off + i);
      part ← leb_shift leb128_byte i;
      let value := Z.lor value part in
      if Z.land leb128_byte 128 =? 0 then Some (value, len + 1)
      else leb_loop n buf off (size - 1) (i + 1) value (len + 1)
  end.

Definition leb128 (buf : bytes) (off size : Z) : option (Z * Z) := leb_loop 8 buf off size 0 0 0.

Definition get_bits (val n count : Z) : Z :=
  Z.land (Z.shiftr val (8 - n - count)) (Z.shiftl 1 (count - 1) * 2 - 1).

(** [(obu_start, obu_size, obu_type)] of the OBU at offset [buf]; sizes are [size_t]. *)
Definition parse_obu_header (data : bytes) (buf size : Z) : option (Z * Z * Z) :=
  if size <? 1 then Some (0, 0, 0) else
  b ← rd data buf;
  let obu_type := get_bits b 1 4 in
  let extension_flag := get_bits b 5 1 in
  let has_size_field := get_bits b 6 1 in
  let obu_start := if extension_flag =? 0 then 1 else 2 in
  if has_size_field =? 0 then Some (obu_start, u64 (size - 1), obu_type)
  else '(obu_size, size_len) ← leb128 data (buf + obu_start) (u64 (size - obu_start));
       Some (obu_start + size_len, obu_size, obu_type).

(** [n] bounds the iterations: a 64-bit value has at most ten 7-bit groups. *)
Fixpoint uleb_loop (n : nat) (val b : Z) : bytes :=
  match n with
  | O => [b]
  | S n => if 0 <? val then Z.lor b 128 :: uleb_loop n (Z.shiftr val 7) (Z.land val 127) else [b]
  end.

Definition encode_uleb128 (val : Z) : bytes :=
  uleb_loop 9 (Z.shiftr (u64 val) 7) (Z.land (u64 val) 127).

Definition metadata_obu (source_buffer : bytes) (metadata_type : Z) : bytes :=
  let obu_header_byte := Z.lor (Z.shiftl OBS_OBU_METADATA 3) (Z.shiftl 1 1) in
  let size_field := 1 + zlen source_buffer + 1 in
  [obu_header_byte] ++ encode_uleb128 size_field ++ [u8 metadata_type] ++ source_buffer ++ [128].

Definition metadata_obu_itu_t35 (itut_t35_buffer : bytes) : bytes :=
  metadata_obu itut_t35_buffer METADATA_TYPE_ITUT_T35.

(** [while (start < end)]: an OBU has at least one byte, so [fuel] is the length. *)
Fixpoint av1_keyframe_loop (fuel : nat) (data : bytes) (start : Z) : option bool :=
  match fuel with
  | O => if start <? zlen data then None else Some false
  | S fuel =>
      if start <? zlen data then
        '(obu_start, obu_size, obu_type) ← parse_obu_header data start (zlen data - start);
        if negb (obu_size =? 0) && ((obu_type =? OBS_OBU_FRAME) || (obu_type =? OBS_OBU_FRAME_HEADER)) then
          val ← rd data (start + obu_start);
          if get_bits val 0 1 =? 0 then Some (get_bits val 1 2 =? 0) else Some false
        else av1_keyframe_loop fuel data (start + obu_start + obu_size)
      else Some false
  end.

Definition obs_av1_keyframe (data : bytes) : option bool :=
  av1_keyframe_loop (length data) data 0.

(** [(new_packet, header)]. *)
Fixpoint av1_extract_loop (fuel : nat) (packet : bytes) (start : Z) (new_packet header : bytes) :
    option (bytes * bytes) :=
  match fuel with
  | O => if start <? zlen packet then None else Some (new_packet, header)
  | S fuel =>
      if start <? zlen packet then
        '(obu_start, obu_size, obu_type) ← parse_obu_header packet start (zlen packet - start);
        obu ← read_bytes start (obu_start + obu_size) packet;
        let header :=
          if (obu_type =? OBS_OBU_METADATA) || (obu_type =? OBS_OBU_SEQUENCE_HEADER)
          then header ++ obu else header in
        av1_extract_loop fuel packet (start + obu_start + obu_size) (new_packet ++ obu) header
      else Some (new_packet, header)
  end.

Definition obs_extract_av1_headers (packet : bytes) : option (bytes * bytes) :=
  av1_extract_loop (length packet) packet 0 [] [].

(** ** The variable-length size field *)

(** The buffer from [off] on. *)
Definition from (off : Z) (data : bytes) : bytes := drop (Z.to_nat off) data.

Lemma rd_from data off x l : 0 ≤ off → from off data = x :: l → rd data off = Some x.
Proof.
  intros Ho E. unfold rd, from in *. rewrite (proj2 (Z.leb_le _ _)) by lia.
  rewrite <- (Nat.add_0_r (Z.to_nat off)), <- lookup_drop, E. done.
Qed.

Lemma from_add data off n l k : 0 ≤ off → from off data = l ++ k → zlen l = n → from (off + n) data = k.
Proof.
  intros Ho E <-. pose proof (zlen_nonneg l). unfold from in *.
  rewrite Z2Nat.inj_add, zlen_to_nat, <- drop_drop, E by lia. apply drop_app_length.
Qed.

(** Seven bits and the continuation bit. *)
Lemma group_bits b : 0 ≤ b < 128 →
  Z.land (Z.lor b 128) 127 = b ∧ Z.land (Z.lor b 128) 128 = 128 ∧ Z.land b 127 = b ∧ Z.land b 128 = 0.
Proof.
  intros Hb.
  assert (forallb (λ b, (Z.land (Z.lor b 128) 127 =? b) && (Z.land (Z.lor b 128) 128 =? 128) &&
    (Z.land b 127 =? b) && (Z.land b 128 =? 0)) (seqZ 0 128) = true) as F by (vm_compute; reflexivity).
  rewrite forallb_forall in F. specialize (F b).
  rewrite <- list_elem_of_In, elem_of_seqZ in F. specialize (F ltac:(lia)). lia.
Qed.

(** Reading the groups [b], [val] back from iteration [i] on. *)
Lemma leb_loop_uleb n k val b buf off size i value len rest :
  0 ≤ off → 0 ≤ i → Z.of_nat k + i = 8 → 0 ≤ b < 128 → 0 ≤ val < 128 ^ Z.of_nat n →
  0 ≤ value < 2 ^ (7 * i) → (0 < i → 0 < b + 128 * val) → (b + 128 * val) * 2 ^ (7 * i) < 2 ^ 31 →
  from (off + i) buf = uleb_loop n val b ++ rest → zlen (uleb_loop n val b) ≤ size →
  leb_loop k buf off size i value len =
    Some (value + (b + 128 * val) * 2 ^ (7 * i), len + zlen (uleb_loop n val b)).
Proof.
  intros Ho. revert k val b size i value len. induction n as [|n IH];
    intros k val b size i value len Hi Hk Hb Hval Hv Hpos Hmax Hbuf Hsize.
  all: assert (i ≤ 4) as Hi4 by
    (destruct (decide (i ≤ 4)); [done|]; assert (2 ^ 35 ≤ 2 ^ (7 * i)) by (apply Z.pow_le_mono_r; lia); nia).
  all: destruct k as [|k]; [lia|]; cbn [leb_loop uleb_loop] in *.
  all: assert (0 < 2 ^ (7 * i)) by (apply Z.pow_pos_nonneg; lia).
  all: assert (∀ x, 0 ≤ x < 128 → x ≤ b + 128 * val → Z.land x 127 = x → leb_shift x i = Some (Z.shiftl x (7 * i))) as Hshift
    by (intros x Hx Hxb Hx7; unfold leb_shift; rewrite Hx7, (proj2 (Z.leb_gt _ _)) by lia;
        rewrite (Z.mul_comm i 7), (proj2 (Z.ltb_lt _ _)); [done|rewrite Z.shiftl_mul_pow2 by lia; nia]).
  - assert (val = 0) as -> by (simpl in Hval; lia).
    rewrite (proj2 (Z.ltb_ge _ _)) by len_lia. rewrite (rd_from buf (off + i) _ _ ltac:(lia) Hbuf). simpl mbind.
    destruct (group_bits b Hb) as (_ & _ & H7 & H8).
    rewrite Hshift by lia. simpl mbind. rewrite H8, lor_high by lia. simpl. do 3 f_equal. lia.
  - destruct (group_bits b Hb) as (H1 & H2 & H7 & H8).
    destruct (Z.ltb_spec 0 val) as [Hpv|Hzv].
    + cbn [app] in Hbuf. rewrite zlen_cons in Hsize.
      rewrite (proj2 (Z.ltb_ge _ _)) by len_lia. rewrite (rd_from buf (off + i) _ _ ltac:(lia) Hbuf). simpl mbind.
      assert (leb_shift (Z.lor b 128) i = Some (Z.shiftl b (7 * i))) as ->.
      { rewrite <- (Hshift b) by lia. unfold leb_shift. by rewrite H1, H7. }
      simpl mbind. rewrite H2, lor_high by lia. cbv iota. change (128 =? 0) with false. cbv iota.
      rewrite zlen_cons.
      assert (Z.shiftr val 7 = val `div` 128) as Es by (by rewrite Z.shiftr_div_pow2).
      assert (Z.land val 127 = val `mod` 128) as El by (change 127 with (Z.ones 7); by rewrite Z.land_ones).
      pose proof (Z.div_mod val 128 ltac:(lia)) as Hdm. pose proof (Z.mod_pos_bound val 128 ltac:(lia)).
      rewrite (IH k (Z.shiftr val 7) (Z.land val 127) (size - 1) (i + 1)).
      * rewrite Es, El. replace (7 * (i + 1)) with (7 + 7 * i) by lia. rewrite Z.pow_add_r by lia.
        do 2 f_equal; [|lia]. change (2 ^ 7) with 128.
        replace (val `mod` 128 + 128 * (val `div` 128)) with val by lia. lia.
      * lia.
      * lia.
      * rewrite El. lia.
      * rewrite Es. rewrite Nat2Z.inj_succ, Z.pow_succ_r in Hval by lia.
        split; [apply Z.div_pos; lia|]. apply Z.div_lt_upper_bound; lia.
      * replace (7 * (i + 1)) with (7 + 7 * i) by lia. rewrite Z.pow_add_r by lia. change (2 ^ 7) with 128. nia.
      * rewrite Es, El. lia.
      * rewrite Es, El. replace (val `mod` 128 + 128 * (val `div` 128)) with val by lia.
        replace (7 * (i + 1)) with (7 + 7 * i) by lia. rewrite Z.pow_add_r by lia. change (2 ^ 7) with 128. nia.
      * rewrite Z.add_assoc. apply (from_add _ _ 1 [Z.lor b 128]); [lia|exact Hbuf|done].
      * lia.
    + assert (val = 0) as -> by lia.
      rewrite (proj2 (Z.ltb_ge _ _)) by len_lia. rewrite (rd_from buf (off + i) _ _ ltac:(lia) Hbuf). simpl mbind.
      rewrite Hshift by lia. simpl mbind. rewrite H8, lor_high by lia. simpl. do 3 f_equal. lia.
Qed.

Lemma leb128_encode v buf off size rest :
  0 ≤ v < 2 ^ 31 → 0 ≤ off → from off buf = encode_uleb128 v ++ rest → zlen (encode_uleb128 v) ≤ size →
  leb128 buf off size = Some (v, zlen (encode_uleb128 v)).
Proof.
  intros Hv Ho Hb Hs. unfold leb128, encode_uleb128 in *. rewrite u64_small in * by lia.
  pose proof (Z.div_mod v 128 ltac:(lia)) as Hdm. pose proof (Z.mod_pos_bound v 128 ltac:(lia)).
  assert (Z.shiftr v 7 = v `div` 128) as Es by (by rewrite Z.shiftr_div_pow2).
  assert (Z.land v 127 = v `mod` 128) as El by (change 127 with (Z.ones 7); by rewrite Z.land_ones).
  rewrite Es, El in *.
  rewrite (leb_loop_uleb 9 8 (v `div` 128) (v `mod` 128) buf off size 0 0 0 rest).
  - change (2 ^ (7 * 0)) with 1. do 2 f_equal. lia.
  - done.
  - lia.
  - lia.
  - lia.
  - split; [apply Z.div_pos; lia|]. apply Z.div_lt_upper_bound; [lia|]. simpl. lia.
  - simpl. lia.
  - lia.
  - change (2 ^ (7 * 0)) with 1. lia.
  - by rewrite Z.add_0_r.
  - done.
Qed.

(** ** Streams of OBUs *)

(** An OBU with a size field and without extension. *)
Record obu := mk_obu { ob_type : Z; ob_payload : bytes }.

Definition enc_obu (o : obu) : bytes :=
  [Z.lor (Z.shiftl (ob_type o) 3) 2] ++ encode_uleb128 (zlen (ob_payload o)) ++ ob_payload o.

Definition obu_ok (o : obu) : Prop := 0 ≤ ob_type o < 16 ∧ zlen (ob_payload o) < 2 ^ 31.

Definition enc_obus (os : list obu) : bytes := concat (map enc_obu os).

(** The header byte of an OBU. *)
Lemma obu_byte t : 0 ≤ t < 16 →
  let b := Z.lor (Z.shiftl t 3) 2 in
  get_bits b 1 4 = t ∧ get_bits b 5 1 = 0 ∧ get_bits b 6 1 = 1.
Proof.
  intros Ht.
  assert (forallb (λ t, let b := Z.lor (Z.shiftl t 3) 2 in
    (get_bits b 1 4 =? t) && (get_bits b 5 1 =? 0) && (get_bits b 6 1 =? 1)) (seqZ 0 16) = true) as F
    by (vm_compute; reflexivity).
  rewrite forallb_forall in F. specialize (F t).
  rewrite <- list_elem_of_In, elem_of_seqZ in F. specialize (F ltac:(lia)). simpl in *. lia.
Qed.

Lemma enc_obu_len o : zlen (enc_obu o) = 1 + zlen (encode_uleb128 (zlen (ob_payload o))) + zlen (ob_payload o).
Proof. unfold enc_obu. len_lia. Qed.

Lemma parse_obu_spec data start o rest :
  0 ≤ start → obu_ok o → zlen data < 2 ^ 63 → from start data = enc_obu o ++ rest →
  parse_obu_header data start (zlen data - start) =
    Some (1 + zlen (encode_uleb128 (zlen (ob_payload o))), zlen (ob_payload o), ob_type o).
Proof.
  intros Hs [Ht Hl] Hd Hf. pose proof (zlen_nonneg (ob_payload o)) as Hp.
  assert (zlen (from start data) = Z.max 0 (zlen data - start)) as Hlen.
  { unfold from. rewrite zlen_drop. lia. }
  rewrite Hf, zlen_app, enc_obu_len in Hlen. pose proof (zlen_nonneg rest).
  pose proof (zlen_nonneg (encode_uleb128 (zlen (ob_payload o)))).
  unfold parse_obu_header. rewrite (proj2 (Z.ltb_ge _ _)) by lia.
  unfold enc_obu in Hf. rewrite <- !app_assoc in Hf. cbn [app] in Hf.
  rewrite (rd_from data start _ _ Hs Hf). simpl mbind.
  destruct (obu_byte (ob_type o) Ht) as (E1 & E2 & E3). rewrite E1, E2, E3.
  change (0 =? 0) with true. change (1 =? 0) with false. cbv iota.
  rewrite (u64_small (zlen data - start - 1)) by lia.
  rewrite (leb128_encode (zlen (ob_payload o)) data (start + 1) _ (ob_payload o ++ rest)).
  - done.
  - lia.
  - lia.
  - apply (from_add _ _ 1 [Z.lor (Z.shiftl (ob_type o) 3) 2]); [done|exact Hf|done].
  - lia.
Qed.

Definition is_av1_header (o : obu) : bool :=
  (ob_type o =? OBS_OBU_METADATA) || (ob_type o =? OBS_OBU_SEQUENCE_HEADER).

Lemma read_from data start l rest :
  0 ≤ start → from start data = l ++ rest → read_bytes start (zlen l) data = Some l ∨ l = [].
Proof.
  intros Hs E. destruct l as [|x l]; [by right|left].
  assert (zlen (from start data) = Z.max 0 (zlen data - start)) as Hlen.
  { unfold from. rewrite zlen_drop. lia. }
  rewrite E, zlen_app in Hlen. pose proof (zlen_nonneg rest). rewrite zlen_cons in *. pose proof (zlen_nonneg l).
  unfold read_bytes. rewrite (proj2 (Z.leb_le _ _)) by len_lia. f_equal.
  unfold sub, from in *. rewrite E. replace (Z.to_nat (1 + zlen l)) with (length (x :: l)) by (unfold zlen; simpl; lia).
  apply take_app_length.
Qed.

Lemma extract_loop_spec fuel data start os np h :
  0 ≤ start → Forall obu_ok os → zlen data < 2 ^ 63 → from start data = enc_obus os →
  (length os ≤ fuel)%nat →
  av1_extract_loop fuel data start np h =
    Some (np ++ enc_obus os, h ++ enc_obus (filter (λ o, is_av1_header o = true) os)).
Proof.
  intros Hs HF Hd. revert fuel start np h Hs. induction HF as [|o os Ho _ IH]; intros fuel start np h Hs Hf Hfuel.
  - assert (zlen data ≤ start) as Hend.
    { assert (zlen (from start data) = Z.max 0 (zlen data - start)) as Hlen by (unfold from; rewrite zlen_drop; lia).
      rewrite Hf in Hlen. change (zlen (enc_obus [])) with 0 in Hlen. lia. }
    rewrite !app_nil_r. destruct fuel; cbn [av1_extract_loop]; by rewrite (proj2 (Z.ltb_ge _ _)) by lia.
  - destruct fuel as [|fuel]; [simpl in *; lia|]. cbn [av1_extract_loop].
    assert (from start data = enc_obu o ++ enc_obus os) as Hf' by done.
    assert (zlen (from start data) = Z.max 0 (zlen data - start)) as Hlen by (unfold from; rewrite zlen_drop; lia).
    rewrite Hf', zlen_app, enc_obu_len in Hlen.
    pose proof (zlen_nonneg (enc_obus os)). pose proof (zlen_nonneg (ob_payload o)).
    pose proof (zlen_nonneg (encode_uleb128 (zlen (ob_payload o)))).
    rewrite (proj2 (Z.ltb_lt _ _)) by lia.
    rewrite (parse_obu_spec data start o (enc_obus os)) by done. cbn [mbind option_bind].
    rewrite <- enc_obu_len. destruct (read_from data start (enc_obu o) (enc_obus os) Hs Hf') as [->|E].
    2: { apply (f_equal zlen) in E. rewrite enc_obu_len in E. change (zlen []) with 0 in E. lia. }
    cbn [mbind option_bind].
    replace (start + (1 + zlen (encode_uleb128 (zlen (ob_payload o)))) + zlen (ob_payload o))
      with (start + zlen (enc_obu o)) by (rewrite enc_obu_len; lia).
    rewrite IH.
    + rewrite <- app_assoc. rewrite filter_cons.
      change ((ob_type o =? OBS_OBU_METADATA) || (ob_type o =? OBS_OBU_SEQUENCE_HEADER)) with (is_av1_header o).
      destruct (is_av1_header o) eqn:Eh; case_decide; try congruence.
      f_equal. f_equal. by rewrite <- app_assoc.
    + pose proof (zlen_nonneg (enc_obu o)). lia.
    + by apply (from_add _ _ _ (enc_obu o)).
    + simpl in Hfuel. lia.
Qed.

Lemma enc_obus_len os : (length os ≤ length (enc_obus os))%nat.
Proof.
  induction os as [|o os IH]; [done|]. unfold enc_obus in *. cbn [map concat length].
  rewrite length_app. assert (1 ≤ length (enc_obu o))%nat; [|lia]. unfold enc_obu. simpl. lia.
Qed.

(** [obs_extract_av1_headers] on a well-formed AV1 packet (a sequence of OBUs with
    size fields): it terminates without reading outside the packet, returns the packet
    unchanged as the new packet and, as the header, exactly the sequence-header and
    metadata OBUs, in order. *)
Theorem av1_extract_headers os :
  Forall obu_ok os → zlen (enc_obus os) < 2 ^ 63 →
  obs_extract_av1_headers (enc_obus os) =
    Some (enc_obus os, enc_obus (filter (λ o, is_av1_header o = true) os)).
Proof.
  intros HF Hl. unfold obs_extract_av1_headers.
  rewrite (extract_loop_spec _ _ 0 os [] []); [done|lia|done|done| |apply enc_obus_len].
  unfold from. by rewrite drop_0.
Qed.

(** The first frame or frame header with a payload decides. *)
Definition is_frame (o : obu) : bool :=
  negb (zlen (ob_payload o) =? 0) && ((ob_type o =? OBS_OBU_FRAME) || (ob_type o =? OBS_OBU_FRAME_HEADER)).

Definition frame_is_key (o : obu) : bool :=
  match ob_payload o with
  | b :: _ => (get_bits b 0 1 =? 0) && (get_bits b 1 2 =? 0)
  | [] => false
  end.

Lemma keyframe_loop_spec fuel data start os :
  0 ≤ start → Forall obu_ok os → zlen data < 2 ^ 63 → from start data = enc_obus os →
  (length os ≤ fuel)%nat →
  av1_keyframe_loop fuel data start =
    Some (match filter (λ o, is_frame o = true) os with o :: _ => frame_is_key o | [] => false end).
Proof.
  intros Hs HF Hd. revert fuel start Hs. induction HF as [|o os Ho _ IH]; intros fuel start Hs Hf Hfuel;
    assert (zlen (from start data) = Z.max 0 (zlen data - start)) as Hlen
      by (unfold from; rewrite zlen_drop; lia).
  - rewrite Hf in Hlen. change (zlen (enc_obus [])) with 0 in Hlen.
    destruct fuel; cbn [av1_keyframe_loop]; by rewrite (proj2 (Z.ltb_ge _ _)) by lia.
  - destruct fuel as [|fuel]; [simpl in *; lia|]. cbn [av1_keyframe_loop].
    assert (from start data = enc_obu o ++ enc_obus os) as Hf' by done.
    rewrite Hf', zlen_app, enc_obu_len in Hlen.
    pose proof (zlen_nonneg (enc_obus os)). pose proof (zlen_nonneg (ob_payload o)).
    pose proof (zlen_nonneg (encode_uleb128 (zlen (ob_payload o)))).
    rewrite (proj2 (Z.ltb_lt _ _)) by lia.
    rewrite (parse_obu_spec data start o (enc_obus os)) by done. cbn [mbind option_bind].
    rewrite filter_cons. fold (is_frame o). destruct (is_frame o) eqn:Ef; case_decide; try congruence.
    + unfold is_frame in Ef. unfold frame_is_key. destruct (ob_payload o) as [|b l] eqn:Ep; [done|].
      rewrite (rd_from data _ b (l ++ enc_obus os)); [|lia|].
      * simpl mbind. by destruct (get_bits b 0 1 =? 0).
      * unfold enc_obu in Hf'. rewrite Ep, <- !app_assoc in Hf'.
        replace (start + (1 + zlen (encode_uleb128 (zlen (b :: l))))) with
          (start + zlen ([Z.lor (Z.shiftl (ob_type o) 3) 2] ++ encode_uleb128 (zlen (b :: l)))) by len_lia.
        eapply from_add; [done| |reflexivity]. rewrite Hf'. by rewrite <- app_assoc.
    + apply IH; [lia| |simpl in *; lia].
      replace (start + (1 + zlen (encode_uleb128 (zlen (ob_payload o)))) + zlen (ob_payload o))
        with (start + zlen (enc_obu o)) by (rewrite enc_obu_len; lia).
      by apply (from_add _ _ _ (enc_obu o)).
Qed.

(** [obs_av1_keyframe] looks at the first non-empty frame or frame-header OBU of a
    well-formed packet and reports whether it shows a key frame. *)
Theorem av1_keyframe_first_frame os :
  Forall obu_ok os → zlen (enc_obus os) < 2 ^ 63 →
  obs_av1_keyframe (enc_obus os) =
    Some (match filter (λ o, is_frame o = true) os with o :: _ => frame_is_key o | [] => false end).
Proof.
  intros HF Hl. apply keyframe_loop_spec; [lia|done..| |apply enc_obus_len].
  unfold from. by rewrite drop_0.
Qed.

(** The metadata OBU built around caption or user data is a well-formed OBU: the
    parser of the same file reads back type 5 and a payload of the metadata type, the
    data and the trailing bits, for any data below 2^31 - 2 bytes. *)
Theorem metadata_obu_parses src type rest :
  zlen src + 2 < 2 ^ 31 → zlen (metadata_obu src type ++ rest) < 2 ^ 63 →
  let data := metadata_obu src type ++ rest in
  ∃ start, parse_obu_header data 0 (zlen data) = Some (start, 2 + zlen src, OBS_OBU_METADATA) ∧
    read_bytes start (2 + zlen src) data = Some (u8 type :: src ++ [128]).
Proof.
  intros Hl Hd. cbv zeta.
  set (o := mk_obu OBS_OBU_METADATA (u8 type :: src ++ [128])).
  assert (zlen (ob_payload o) = 2 + zlen src) as Hp by (simpl; len_lia).
  assert (metadata_obu src type = enc_obu o) as E.
  { unfold metadata_obu, enc_obu. rewrite Hp. by replace (1 + zlen src + 1) with (2 + zlen src) by lia. }
  rewrite E in *. assert (obu_ok o) as Ho by (split; [done|lia]).
  pose proof (parse_obu_spec (enc_obu o ++ rest) 0 o rest ltac:(lia) Ho Hd eq_refl) as P.
  rewrite Z.sub_0_r, Hp in P. eexists. split; [exact P|].
  set (h := [Z.lor (Z.shiftl (ob_type o) 3) 2] ++ encode_uleb128 (zlen (ob_payload o))).
  pose proof (sub_app_mid h (ob_payload o) rest) as Hm.
  assert (enc_obu o ++ rest = h ++ ob_payload o ++ rest) as Es.
  { unfold enc_obu, h. by rewrite <- !app_assoc. }
  rewrite Es in *. rewrite <- Hp. replace (1 + zlen (encode_uleb128 (zlen (ob_payload o)))) with (zlen h)
    by (unfold h; len_lia).
  unfold read_bytes. rewrite (proj2 (Z.leb_le _ _)), Hm by len_lia. done.
Qed.

(** An OBU without a size field but with an extension byte is given one byte too
    many ([size - 1] does not subtract the extension), so extracting the headers of
    such a packet reads past its end. *)
Theorem av1_extension_overread :
  parse_obu_header [52; 0; 7; 7] 0 4 = Some (2, 3, OBS_OBU_FRAME) ∧
  obs_extract_av1_headers [52; 0; 7; 7] = None.
Proof. split; reflexivity. Qed.

(** A sequence header, metadata and a key frame. *)
Definition ex_obus : list obu :=
  [mk_obu 2 []; mk_obu 1 [0; 0; 0; 74]; mk_obu 5 (4 :: replicate 130 9); mk_obu 6 [16; 0; 1]].

Lemma ex_obus_ok : Forall obu_ok ex_obus.
Proof. repeat (constructor; [split; [simpl; lia|done]|]). constructor. Qed.

Lemma av1_extract_headers_witness :
  obs_extract_av1_headers (enc_obus ex_obus) =
    Some (enc_obus ex_obus, enc_obus (filter (λ o, is_av1_header o = true) ex_obus)).
Proof. apply av1_extract_headers; [apply ex_obus_ok|done]. Defined.

Lemma av1_keyframe_first_frame_witness :
  obs_av1_keyframe (enc_obus ex_obus) =
    Some (match filter (λ o, is_frame o = true) ex_obus with o :: _ => frame_is_key o | [] => false end).
Proof. apply av1_keyframe_first_frame; [apply ex_obus_ok|done]. Defined.

Lemma metadata_obu_parses_witness :
  let data := metadata_obu [1; 2; 3] 4 ++ [18; 0] in
  ∃ start, parse_obu_header data 0 (zlen data) = Some (start, 2 + zlen [1; 2; 3], OBS_OBU_METADATA) ∧
    read_bytes start (2 + zlen [1; 2; 3]) data = Some (u8 4 :: [1; 2; 3] ++ [128]).
Proof. apply (metadata_obu_parses [1; 2; 3] 4 [18; 0]); done. Defined.
