(* ===== verification/RtmpAv1.v ===== *)
(** * AV1 for the muxers: plugins/obs-outputs/rtmp-av1.c

    The configuration record built from the extra data of an encoder, and the packets
    as they are queued. [None] is undefined behaviour or a failed [assert]; a negative
    result of a C function is an inner [None]. *)

From S2P Require Import Prelude Serializer Encoder Nal NalPacket Bitstream Bits Av1.

Local Open Scope Z_scope.
Local Open Scope serializer_scope.

(** ** The bit reader *)

(** [Av1GetBitContext]: the memory from [buffer] on, [index] and [size_in_bits];
    [size_in_bits_plus8] is 8 more. *)
Record Av1GetBitContext := mk_gb { gb_buffer : bytes; gb_index : Z; gb_size_in_bits : Z }.

(** A null buffer has no memory behind it. *)
Definition init_get_bits_xe (buffer : bytes) (bit_size : Z) : Z * Av1GetBitContext :=
  if (INT_MAX - 64 * 8 <=? bit_size) || (bit_size <? 0) then (-1, mk_gb [] 0 0)
  else (0, mk_gb buffer 0 bit_size).

Definition init_get_bits := init_get_bits_xe.

Definition init_get_bits8 (buffer : bytes) (byte_size : Z) : Z * Av1GetBitContext :=
  let byte_size := if (INT_MAX / 8 <? byte_size) || (byte_size <? 0) then -1 else byte_size in
  init_get_bits buffer (byte_size * 8).

(** The index stops eight bits past the end. *)
Definition get_bit1 : W Av1GetBitContext Z := λ s,
  b ← rd (gb_buffer s) (Z.shiftr (gb_index s) 3);
  let result := u8 (Z.shiftl b (Z.land (gb_index s) 7)) in
  let result := Z.shiftr result (8 - 1) in
  let index := if gb_index s <? gb_size_in_bits s + 8 then gb_index s + 1 else gb_index s in
  Some (result, mk_gb (gb_buffer s) index (gb_size_in_bits s)).

Fixpoint get_bits_loop (n : nat) (out : Z) : W Av1GetBitContext Z :=
  match n with
  | O => ret out
  | S n => bit <- get_bit1 ;; get_bits_loop n (Z.lor (u32 (Z.shiftl out 1)) bit)
  end.

Definition get_bits (n : Z) : W Av1GetBitContext Z := get_bits_loop (Z.to_nat n) 0.
Definition skip_bits (n : Z) : W Av1GetBitContext unit := get_bits n ;;; ret tt.

(** A flag. *)
Definition get_flag : W Av1GetBitContext bool := b <- get_bits 1 ;; ret (negb (b =? 0)).

Definition get_bits_count (s : Av1GetBitContext) : Z := gb_index s.
Definition get_bits_left (s : Av1GetBitContext) : Z := gb_size_in_bits s - get_bits_count s.

Fixpoint leb128_loop (n : nat) (i value : Z) : W Av1GetBitContext Z :=
  match n with
  | O => ret value
  | S n =>
      byte <- get_bits 8 ;;
      let value := Z.lor value (Z.shiftl (Z.land byte 127) (i * 7)) in
      if Z.land byte 128 =? 0 then ret value else leb128_loop n (i + 1) value
  end.

Definition leb128 : W Av1GetBitContext Z := leb128_loop 8 0 0.

(** [while (get_bits_left(gb))]; a loop that does not end is undefined. *)
Fixpoint uvlc_loop (fuel : nat) (leading_zeros : Z) : W Av1GetBitContext Z := λ s,
  if get_bits_left s =? 0 then Some (leading_zeros, s) else
  match fuel with
  | O => None
  | S fuel =>
      (bit <- get_bits 1 ;;
       if negb (bit =? 0) then ret leading_zeros else uvlc_loop fuel (leading_zeros + 1)) s
  end.

Definition uvlc : W Av1GetBitContext unit := λ s,
  (leading_zeros <- uvlc_loop (Z.to_nat (Z.abs (get_bits_left s)) + 16) 0 ;;
   if 32 <=? leading_zeros then ret tt else skip_bits leading_zeros) s.

(** ** OBU headers *)

(** [(len, obu_size, start_pos, type)]. *)
Definition parse_obu_header (buf : bytes) (buf_size : Z) : option (option (Z * Z * Z * Z)) :=
  let '(r, gb) := init_get_bits8 buf (Z.min buf_size (2 + 8)) in
  if r <? 0 then Some None else
  fst <$>
  (forbidden <- get_bits 1 ;;
   if negb (forbidden =? 0) then ret None else
   type <- get_bits 4 ;;
   extension_flag <- get_bits 1 ;;
   has_size_flag <- get_bits 1 ;;
   skip_bits 1 ;;;
   when negb (extension_flag =? 0) do (get_bits 3 ;;; get_bits 2 ;;; skip_bits 3) ;;;
   obu_size <- (if negb (has_size_flag =? 0) then leb128 else ret (buf_size - 1 - extension_flag)) ;;
   (λ gb,
     if get_bits_left gb <? 0 then Some (None, gb) else
     let start_pos := get_bits_count gb /c 8 in
     let size := u64 (obu_size + start_pos) in
     if u64 buf_size <? size then Some (None, gb)
     else if INT_MAX <? size then None
     else Some (Some (size, obu_size, start_pos, type), gb))) gb.

Definition AV1_OBU_SEQUENCE_HEADER : Z := 1.
Definition AV1_OBU_TEMPORAL_DELIMITER : Z := 2.
Definition AV1_OBU_FRAME_HEADER : Z := 3.
Definition AV1_OBU_TILE_GROUP : Z := 4.
Definition AV1_OBU_METADATA : Z := 5.
Definition AV1_OBU_FRAME : Z := 6.
Definition AV1_OBU_REDUNDANT_FRAME_HEADER : Z := 7.
Definition AV1_OBU_TILE_LIST : Z := 8.

Definition FF_PROFILE_AV1_MAIN : Z := 0.
Definition FF_PROFILE_AV1_HIGH : Z := 1.
Definition FF_PROFILE_AV1_PROFESSIONAL : Z := 2.

(** [while (size > 0 && buf[size - 1] == 0) size--]. *)
Fixpoint strip_zeros (size : nat) (buf : bytes) : option Z :=
  match size with
  | O => Some 0
  | S n => v ← rd buf (Z.of_nat n); if v =? 0 then strip_zeros n buf else Some (Z.of_nat size)
  end.

(** The number of trailing zeros of a nonzero number (utils.h). *)
Definition ctz32 (v : Z) : Z := Z.log2 (Z.land v (- v)).

Definition get_obu_bit_length (buf : bytes) (size type : Z) : option (option Z) :=
  if (type =? AV1_OBU_TILE_GROUP) || (type =? AV1_OBU_TILE_LIST) || (type =? AV1_OBU_FRAME) then
    Some (if INT_MAX / 8 <? size then None else Some (size * 8))
  else
    size ← strip_zeros (Z.to_nat size) buf;
    if size =? 0 then Some (Some 0) else
    v ← rd buf (size - 1);
    if INT_MAX / 8 <? size then Some None else
    let size := size * 8 in
    Some (Some (if negb (v =? 0) then size - (ctz32 v + 1) else size)).

(** ** The sequence header *)

Record AV1SequenceParameters := mk_seq {
  sp_profile : Z; sp_level : Z; sp_tier : Z; sp_bitdepth : Z; sp_monochrome : Z;
  sp_chroma_subsampling_x : Z; sp_chroma_subsampling_y : Z; sp_chroma_sample_position : Z;
  sp_color_description_present_flag : Z; sp_color_primaries : Z; sp_transfer_characteristics : Z;
  sp_matrix_coefficients : Z; sp_color_range : Z
}.

(** After [memset]. *)
Definition seq_zero : AV1SequenceParameters := mk_seq 0 0 0 0 0 0 0 0 0 0 0 0 0.

(** The subsampling part: [(x, y, position)] from the profile and the bit depth. *)
Definition parse_subsampling (profile : Z) (twelve_bit : bool) : W Av1GetBitContext (Z * Z * Z) :=
  xy <- (if profile =? FF_PROFILE_AV1_MAIN then ret (1, 1)
         else if profile =? FF_PROFILE_AV1_HIGH then ret (0, 0)
         else if twelve_bit then
           x <- get_bits 1 ;;
           y <- (if negb (x =? 0) then get_bits 1 else ret 0) ;;
           ret (x, y)
         else ret (1, 0)) ;;
  position <- (if negb (xy.1 =? 0) && negb (xy.2 =? 0) then get_bits 2 else ret 0) ;;
  ret (xy.1, xy.2, position).

Definition parse_color_config (seq_params : AV1SequenceParameters) :
    W Av1GetBitContext AV1SequenceParameters :=
  let profile := sp_profile seq_params in
  high_bitdepth <- get_flag ;;
  twelve_bit <- (if (profile =? FF_PROFILE_AV1_PROFESSIONAL) && high_bitdepth then get_flag else ret false) ;;
  let bitdepth := 8 + Z.b2z high_bitdepth * 2 + Z.b2z twelve_bit * 2 in
  monochrome <- (if profile =? FF_PROFILE_AV1_HIGH then ret false else get_flag) ;;
  color_description_present_flag <- get_flag ;;
  color <- (if (color_description_present_flag : bool) then
              primaries <- get_bits 8 ;;
              transfer <- get_bits 8 ;;
              matrix <- get_bits 8 ;;
              ret (primaries, transfer, matrix)
            else ret (2, 2, 2)) ;;
  let '(primaries, transfer, matrix) := color in
  let params x y position range :=
    mk_seq profile (sp_level seq_params) (sp_tier seq_params) bitdepth (Z.b2z monochrome) x y position
      (Z.b2z color_description_present_flag) primaries transfer matrix range in
  if (monochrome : bool) then
    range <- get_bits 1 ;;
    ret (params 1 1 0 range)
  else
    r <- (if (primaries =? 1) && (transfer =? 13) && (matrix =? 0) then
            ret (0, 0, sp_chroma_sample_position seq_params, sp_color_range seq_params)
          else
            range <- get_bits 1 ;;
            xyp <- parse_subsampling profile twelve_bit ;;
            ret (xyp, range)) ;;
    let '(x, y, position, range) := r in
    skip_bits 1 ;;;
    ret (params x y position range).

(** One operating point: [(seq_level_idx, seq_tier)]; [delay_length] is
    [buffer_delay_length_minus_1 + 1] when the decoder model is present. *)
Definition parse_operating_point (delay_length : option Z) (display_delay : bool) :
    W Av1GetBitContext (Z * Z) :=
  skip_bits 12 ;;;
  seq_level_idx <- get_bits 5 ;;
  seq_tier <- (if 7 <? seq_level_idx then get_bits 1 else ret 0) ;;
  (match delay_length with
   | Some n =>
       present <- get_flag ;;
       when (present : bool) do (skip_bits n ;;; skip_bits n ;;; skip_bits 1)
   | None => ret tt
   end) ;;;
  (if display_delay then
     present <- get_flag ;;
     when (present : bool) do skip_bits 4
   else ret tt) ;;;
  ret (seq_level_idx, seq_tier).

(** The first point decides; [n] more follow. *)
Fixpoint skip_operating_points (n : nat) (delay_length : option Z) (display_delay : bool) :
    W Av1GetBitContext unit :=
  match n with
  | O => ret tt
  | S n => parse_operating_point delay_length display_delay ;;; skip_operating_points n delay_length display_delay
  end.

(** [timing_info_present_flag] and what follows it: [buffer_delay_length_minus_1 + 1]. *)
Definition parse_timing_info : W Av1GetBitContext (option Z) :=
  timing <- get_flag ;;
  if (timing : bool) then
    skip_bits 32 ;;;
    skip_bits 32 ;;;
    equal <- get_flag ;;
    when (equal : bool) do uvlc ;;;
    model <- get_flag ;;
    if (model : bool) then
      len <- get_bits 5 ;;
      skip_bits 32 ;;;
      skip_bits 10 ;;;
      ret (Some (len + 1))
    else ret None
  else ret None.

Definition parse_operating_points : W Av1GetBitContext (Z * Z) :=
  delay_length <- parse_timing_info ;;
  initial_display_delay <- get_flag ;;
  operating_points_cnt_minus_1 <- get_bits 5 ;;
  first <- parse_operating_point delay_length initial_display_delay ;;
  skip_operating_points (Z.to_nat operating_points_cnt_minus_1) delay_length initial_display_delay ;;;
  ret first.

(** The tools a full header lists after the frame size. *)
Definition skip_tools : W Av1GetBitContext unit :=
  skip_bits 4 ;;;
  enable_order_hint <- get_flag ;;
  when (enable_order_hint : bool) do skip_bits 2 ;;;
  choose <- get_flag ;;
  force <- (if (choose : bool) then ret 2 else get_bits 1) ;;
  when negb (force =? 0) do (
    choose_mv <- get_flag ;;
    when negb choose_mv do skip_bits 1) ;;;
  when (enable_order_hint : bool) do skip_bits 3.

Definition parse_sequence_bits : W Av1GetBitContext AV1SequenceParameters :=
  profile <- get_bits 3 ;;
  skip_bits 1 ;;;
  reduced <- get_flag ;;
  level_tier <- (if (reduced : bool) then level <- get_bits 5 ;; ret (level, 0) else parse_operating_points) ;;
  frame_width_bits_minus_1 <- get_bits 4 ;;
  frame_height_bits_minus_1 <- get_bits 4 ;;
  skip_bits (frame_width_bits_minus_1 + 1) ;;;
  skip_bits (frame_height_bits_minus_1 + 1) ;;;
  (if negb reduced then
     frame_ids <- get_flag ;;
     when (frame_ids : bool) do skip_bits 7
   else ret tt) ;;;
  skip_bits 3 ;;;
  (if negb reduced then skip_tools else ret tt) ;;;
  skip_bits 3 ;;;
  params <- parse_color_config (mk_seq profile level_tier.1 level_tier.2 0 0 0 0 0 0 0 0 0 0) ;;
  skip_bits 1 ;;;
  ret params.

Definition parse_sequence_header (buf : bytes) (size : Z) : option (option AV1SequenceParameters) :=
  size_bits ← get_obu_bit_length buf size AV1_OBU_SEQUENCE_HEADER;
  match size_bits with
  | None => Some None
  | Some size_bits =>
      let '(r, gb) := init_get_bits buf size_bits in
      if r <? 0 then Some None else
      '(params, gb) ← parse_sequence_bits gb;
      Some (if negb (get_bits_left gb =? 0) then None else Some params)
  end.

(** ** The configuration record *)

(** [while (size > 0)]: [(seq_params, nb_seq, seq, meta)]; an OBU has at least one byte. *)
Fixpoint av1_header_loop (fuel : nat) (buf : bytes) (nb_seq : Z) (sp : AV1SequenceParameters)
    (seq meta : bytes) : option (option (AV1SequenceParameters * Z * bytes * bytes)) :=
  match buf, fuel with
  | [], _ => Some (Some (sp, nb_seq, seq, meta))
  | _, O => None
  | _, S fuel =>
      if INT_MAX <? zlen buf then None else
      r ← parse_obu_header buf (zlen buf);
      match r with
      | None => Some None
      | Some (len, obu_size, start_pos, type) =>
          let rest := drop (Z.to_nat len) buf in
          let unit := take (Z.to_nat len) buf in
          if type =? AV1_OBU_SEQUENCE_HEADER then
            if (obu_size =? 0) || (1 <? nb_seq + 1) then Some None else
            r ← parse_sequence_header (drop (Z.to_nat start_pos) buf) obu_size;
            match r with
            | None => Some None
            | Some sp => av1_header_loop fuel rest (nb_seq + 1) sp unit meta
            end
          else if type =? AV1_OBU_METADATA then
            if obu_size =? 0 then Some None else av1_header_loop fuel rest nb_seq sp seq unit
          else av1_header_loop fuel rest nb_seq sp seq meta
      end
  end.

Definition av1header (sp : AV1SequenceParameters) : bytes :=
  [Z.lor (Z.shiftl 1 7) 1;
   u8 (Z.lor (Z.shiftl (sp_profile sp) 5) (sp_level sp));
   u8 (Z.lor (Z.lor (Z.lor (Z.lor (Z.lor (Z.lor
     (Z.shiftl (sp_tier sp) 7)
     (Z.shiftl (Z.b2z (8 <? sp_bitdepth sp)) 6))
     (Z.shiftl (Z.b2z (sp_bitdepth sp =? 12)) 5))
     (Z.shiftl (sp_monochrome sp) 4))
     (Z.shiftl (sp_chroma_subsampling_x sp) 3))
     (Z.shiftl (sp_chroma_subsampling_y sp) 2))
     (sp_chroma_sample_position sp));
   0].

(** The header built from extra data; [[]] is a result of size 0. *)
Definition obs_parse_av1_header (data : bytes) : option bytes :=
  b ← rd data 0;
  if negb (Z.land b 128 =? 0) then
    let config_record_version := Z.land b 127 in
    Some (if negb (config_record_version =? 1) || (zlen data <? 4) then [] else data)
  else
    r ← av1_header_loop (length data) data 0 seq_zero [] [];
    match r with
    | None => Some []
    | Some (sp, nb_seq, seq, meta) =>
        if nb_seq =? 0 then Some [] else
        '(_, output) ← (s_put (av1header sp) ;;; s_put seq ;;; s_put meta) array_output_serializer_init;
        Some (ao_bytes output)
    end.

(** ** Packets *)

(** [buf] is the payload of a frame; a packet that has a priority keeps it. *)
Definition compute_av1_keyframe_priority (buf : bytes) (is_keyframe : bool) (priority : Z) :
    option (bool * Z) :=
  if negb (priority =? 0) then Some (is_keyframe, priority) else
  fst <$>
  (show_existing_frame <- get_bit1 ;;
   if negb (show_existing_frame =? 0) then ret (is_keyframe, priority) else
   type <- get_bits 2 ;;
   show_frame <- get_bit1 ;;
   ret (if type =? 0 then (true, 3)
        else if type =? 1 then (is_keyframe, if negb (show_frame =? 0) then 1 else 2)
        else if type =? 2 then (is_keyframe, 3)
        else (is_keyframe, 2))) (init_get_bits8 buf 1).2.

Definition is_dropped_obu (type : Z) : bool :=
  (type =? AV1_OBU_TEMPORAL_DELIMITER) || (type =? AV1_OBU_REDUNDANT_FRAME_HEADER) || (type =? AV1_OBU_TILE_LIST).

(** [while (buf < end)]; the loop also ends at a malformed OBU. *)
Fixpoint serialize_av1_loop {S} `{SerializerOps S} (fuel : nat) (buf : bytes) (st : bool * Z) : W S (bool * Z) :=
  match buf, fuel with
  | [], _ => ret st
  | _, O => deref None
  | _, Datatypes.S fuel =>
      if INT_MAX <? zlen buf then deref None else
      r <- deref (parse_obu_header buf (zlen buf)) ;;
      match r with
      | None => ret st
      | Some (len, _, start_pos, type) =>
          let rest := drop (Z.to_nat len) buf in
          if is_dropped_obu type then serialize_av1_loop fuel rest st
          else
            st <- (if (type =? AV1_OBU_FRAME) || (type =? AV1_OBU_FRAME_HEADER)
                   then deref (compute_av1_keyframe_priority (drop (Z.to_nat start_pos) buf) st.1 st.2)
                   else ret st) ;;
            s_put (take (Z.to_nat len) buf) ;;;
            serialize_av1_loop fuel rest st
      end
  end.

Definition serialize_av1_data {S} `{SerializerOps S} (data : bytes) (is_keyframe : bool) (priority : Z) :
    W S (bool * Z) :=
  serialize_av1_loop (length data) data (is_keyframe, priority).

Definition obs_parse_av1_packet (src : encoder_packet) : option encoder_packet :=
  '((key, prio), output) ←
    (s_put ref_one ;;;
     serialize_av1_data (pkt_data src) (pkt_keyframe src) (pkt_priority src)) array_output_serializer_init;
  Some (pkt_set_nal src (drop (length ref_one) (ao_bytes output)) key prio).

(** ** What the bit reader reads *)

#[export] Instance av1_reader : BitReader Av1GetBitContext := {
  ahead g l :=
    0 ≤ gb_index g ≤ gb_size_in_bits g ∧ gb_size_in_bits g ≤ 8 * zlen (gb_buffer g) ∧
    Forall is_byte (gb_buffer g) ∧
    l = take (Z.to_nat (gb_size_in_bits g - gb_index g)) (drop (Z.to_nat (gb_index g)) (all_bits (gb_buffer g)));
  read_bits := get_bits
}.

Lemma byte_bit b i : is_byte b → 0 ≤ i < 8 →
  Z.shiftr (u8 (Z.shiftl b i)) 7 = Z.b2z (Z.testbit b (7 - i)).
Proof.
  intros Hb Hi. unfold u8. apply Z.bits_inj'. intros k Hk.
  rewrite Z.shiftr_spec by done. destruct (decide (k = 0)) as [->|N].
  - rewrite Z.mod_pow2_bits_low, Z.shiftl_spec, Z.b2z_bit0 by lia. f_equal; lia.
  - rewrite Z.mod_pow2_bits_high by lia. destruct (Z.testbit b (7 - i)); cbn [Z.b2z]; [|by rewrite Z.bits_0].
    symmetry. change 1 with (2 ^ 0). apply Z.pow2_bits_false. lia.
Qed.

Lemma get_bit1_ahead g b l : ahead g (b :: l) → ∃ g', get_bit1 g = Some (Z.b2z b, g') ∧ ahead g' l.
Proof.
  destruct g as [buf i size]. intros (Hi & Hs & Hb & E). cbn [gb_buffer gb_index gb_size_in_bits] in *.
  destruct (decide (i = size)) as [->|N]; [by rewrite Z.sub_diag in E|].
  assert (all_bits buf !! Z.to_nat i = Some b) as Hl.
  { replace (Z.to_nat (size - i)) with (S (Z.to_nat (size - i - 1))) in E by lia.
    destruct (drop (Z.to_nat i) (all_bits buf)) as [|b' l'] eqn:Ed; [done|]. injection E as <- _.
    rewrite <- (Nat.add_0_r (Z.to_nat i)), <- lookup_drop, Ed. done. }
  rewrite all_bits_lookup in Hl.
  destruct (buf !! (Z.to_nat i `div` 8)%nat) as [v|] eqn:Ev; [|done]. apply (inj Some) in Hl.
  assert (Z.shiftr i 3 = Z.of_nat (Z.to_nat i `div` 8)) as Ei.
  { rewrite Z.shiftr_div_pow2, Nat2Z.inj_div, Z2Nat.id by lia. done. }
  assert (Z.land i 7 = i `mod` 8) as Em by (change 7 with (Z.ones 3); by rewrite Z.land_ones).
  exists (mk_gb buf (i + 1) size). split.
  - unfold get_bit1. cbn [gb_buffer gb_index gb_size_in_bits].
    rewrite Ei. unfold rd. rewrite (proj2 (Z.leb_le _ _)), Nat2Z.id, Ev by lia. cbn [mbind option_bind].
    rewrite (proj2 (Z.ltb_lt _ _)) by lia. rewrite Em. change (8 - 1) with 7.
    rewrite byte_bit by (eapply Forall_lookup_1; done) || (apply Z.mod_pos_bound; lia).
    do 3 f_equal. rewrite <- Hl. do 2 f_equal.
    pose proof (Nat.mod_upper_bound (Z.to_nat i) 8 ltac:(lia)).
    rewrite Nat2Z.inj_sub, Nat2Z.inj_mod, Z2Nat.id by lia. lia.
  - split; cbn; [lia|]. split; [lia|]. split; [done|].
    replace (Z.to_nat (size - i)) with (S (Z.to_nat (size - (i + 1)))) in E by lia.
    replace (Z.to_nat (i + 1)) with (S (Z.to_nat i)) by lia.
    rewrite (drop_S _ b) in E by (rewrite all_bits_lookup, Ev; cbn; by f_equal). by injection E.
Qed.

Lemma lor_bit out b : 0 ≤ out → out * 2 + 1 < 2 ^ 32 → Z.lor (u32 (Z.shiftl out 1)) (Z.b2z b) = out * 2 + Z.b2z b.
Proof.
  intros. rewrite Z.shiftl_mul_pow2 by lia. change (2 ^ 1) with 2. wrap_small.
  rewrite <- Z.add_lor_land. replace (Z.land (out * 2) (Z.b2z b)) with 0; [lia|].
  symmetry. apply Z.bits_inj'. intros k Hk. rewrite Z.land_spec, Z.bits_0.
  destruct (decide (k = 0)) as [->|N].
  - rewrite Z.bit0_odd, Z.odd_mul, andb_false_r. done.
  - rewrite (Z.bits_above_log2 (Z.b2z b)), andb_false_r; [done|by destruct b|].
    assert (Z.log2 (Z.b2z b) = 0) as -> by (by destruct b). lia.
Qed.

Lemma get_bits_loop_ahead l out g rest : 0 ≤ out → (out + 1) * 2 ^ zlen l ≤ 2 ^ 32 →
  ahead g (l ++ rest) →
  ∃ g', get_bits_loop (length l) out g = Some (out * 2 ^ zlen l + bits_val l, g') ∧ ahead g' rest.
Proof.
  revert out g; induction l as [|b l IH]; intros out g Ho Hmax Hg.
  - exists g. split; [|done]. cbn [get_bits_loop length]. unfold ret. do 2 f_equal.
    change (bits_val []) with 0. change (zlen []) with 0. lia.
  - cbn [app] in Hg. destruct (get_bit1_ahead g b _ Hg) as (g1 & E1 & H1).
    cbn [length get_bits_loop]. unfold bind at 1. rewrite E1.
    rewrite zlen_cons, Z.pow_add_r in Hmax by len_lia. change (2 ^ 1) with 2 in Hmax.
    assert (1 ≤ 2 ^ zlen l) by (pose proof (Z.pow_pos_nonneg 2 (zlen l)); len_lia).
    assert (0 ≤ Z.b2z b ≤ 1) by (destruct b; cbn; lia).
    rewrite lor_bit by nia. destruct (IH (out * 2 + Z.b2z b) g1) as (g2 & E2 & H2); [lia|nia|done|].
    exists g2. split; [|done]. rewrite E2. do 2 f_equal. change (b :: l) with ([b] ++ l).
    rewrite bits_val_app, zlen_app, Z.pow_add_r by len_lia. change (zlen [b]) with 1.
    change (bits_val [b]) with (0 * 2 + Z.b2z b). lia.
Qed.

#[export] Instance av1_reader_spec : BitReaderSpec Av1GetBitContext.
Proof.
  constructor. intros n v Hn Hv g rest Hg. cbn [read_bits av1_reader]. unfold get_bits. rewrite Nat2Z.id.
  destruct (get_bits_loop_ahead (zbits n v) 0 g rest) as (g' & E & H'); [lia| |done|].
  { rewrite zbits_zlen, Z.add_0_l, Z.mul_1_l. apply Z.pow_le_mono_r; lia. }
  exists g'. rewrite zbits_length, zbits_val in E by done. split; [exact E|done].
Qed.
