(* ===== verification/Av1Syntax.v ===== *)
(** * The sequence header of AV1

    The values an encoder codes in a sequence header (AV1 specification, 5.5), their
    bits, and the parameters a decoder derives from them; [parse_sequence_header] of
    rtmp-av1.c inverts this syntax, whatever the trailing bits. *)

From S2P Require Import Prelude Serializer Bitstream Bits Nal RtmpAv1.

Local Open Scope Z_scope.
Local Open Scope serializer_scope.

(** ** The syntax of a sequence header (AV1 specification, 5.5)

    The values an encoder codes, their bits, and the parameters a decoder derives. *)

Record op_point := mk_point {
  pt_idc : Z; pt_level : Z; pt_tier : bool; pt_model : option (Z * Z * bool); pt_delay : option Z
}.

(** [n] is the length of the delay fields when there is a decoder model. *)
Definition point_ok (n : option Z) (p : op_point) : Prop :=
  0 ≤ pt_idc p < 2 ^ 12 ∧ 0 ≤ pt_level p < 2 ^ 5 ∧
  (∀ n' a b c, n = Some n' → pt_model p = Some (a, b, c) → 0 ≤ a < 2 ^ n' ∧ 0 ≤ b < 2 ^ n') ∧
  (∀ d, pt_delay p = Some d → 0 ≤ d < 2 ^ 4).

Definition point_bits (n : option Z) (display_delay : bool) (p : op_point) : list bool :=
  zbits 12 (pt_idc p) ++ zbits 5 (pt_level p) ++
  (if 7 <? pt_level p then flag (pt_tier p) else []) ++
  (match n with
   | Some n =>
       match pt_model p with
       | Some (a, b, c) => flag true ++ zbits (Z.to_nat n) a ++ zbits (Z.to_nat n) b ++ flag c
       | None => flag false
       end
   | None => []
   end) ++
  (if display_delay then
     match pt_delay p with Some d => flag true ++ zbits 4 d | None => flag false end
   else []).

Definition point_params (p : op_point) : Z * Z :=
  (pt_level p, if 7 <? pt_level p then Z.b2z (pt_tier p) else 0).

(** [ti_ticks] are the bits after the leading one of the [uvlc] code. *)
Record timing_info := mk_timing {
  ti_tick : Z; ti_scale : Z; ti_ticks : option (list bool); ti_model : option (Z * Z * Z)
}.

Definition timing_ok (t : timing_info) : Prop :=
  0 ≤ ti_tick t < 2 ^ 32 ∧ 0 ≤ ti_scale t < 2 ^ 32 ∧
  (∀ w, ti_ticks t = Some w → (length w < 32)%nat) ∧
  (∀ l a b, ti_model t = Some (l, a, b) → 0 ≤ l < 2 ^ 5 ∧ 0 ≤ a < 2 ^ 32 ∧ 0 ≤ b < 2 ^ 10).

Definition timing_bits (t : option timing_info) : list bool :=
  match t with
  | None => flag false
  | Some t =>
      flag true ++ zbits 32 (ti_tick t) ++ zbits 32 (ti_scale t) ++
      (match ti_ticks t with
       | Some w => flag true ++ (replicate (length w) false ++ flag true ++ w)
       | None => flag false
       end) ++
      (match ti_model t with
       | Some (l, a, b) => flag true ++ zbits 5 l ++ zbits 32 a ++ zbits 10 b
       | None => flag false
       end)
  end.

Definition delay_length (t : option timing_info) : option Z :=
  match t with
  | Some t => match ti_model t with Some (l, _, _) => Some (l + 1) | None => None end
  | None => None
  end.

(** [fh_screen]: the forced value of the screen content tools, if not chosen per frame;
    [fh_mv]: likewise for the integer motion vectors. *)
Record full_header := mk_full {
  fh_timing : option timing_info; fh_display_delay : bool; fh_first : op_point; fh_rest : list op_point;
  fh_frame_ids : option Z; fh_compounds : Z; fh_order : option (Z * Z);
  fh_screen : option bool; fh_mv : option bool
}.

Definition full_ok (h : full_header) : Prop :=
  (∀ t, fh_timing h = Some t → timing_ok t) ∧
  point_ok (delay_length (fh_timing h)) (fh_first h) ∧
  Forall (point_ok (delay_length (fh_timing h))) (fh_rest h) ∧ (length (fh_rest h) < 32)%nat ∧
  (∀ i, fh_frame_ids h = Some i → 0 ≤ i < 2 ^ 7) ∧ 0 ≤ fh_compounds h < 2 ^ 4 ∧
  (∀ a b, fh_order h = Some (a, b) → 0 ≤ a < 2 ^ 2 ∧ 0 ≤ b < 2 ^ 3).

Definition points_bits (h : full_header) : list bool :=
  timing_bits (fh_timing h) ++ flag (fh_display_delay h) ++
  zbits 5 (Z.of_nat (length (fh_rest h))) ++
  point_bits (delay_length (fh_timing h)) (fh_display_delay h) (fh_first h) ++
  concat (map (point_bits (delay_length (fh_timing h)) (fh_display_delay h)) (fh_rest h)).

Definition tools_bits (h : full_header) : list bool :=
  zbits 4 (fh_compounds h) ++
  flag (match fh_order h with Some _ => true | None => false end) ++
  (match fh_order h with Some (a, _) => zbits 2 a | None => [] end) ++
  flag (match fh_screen h with Some _ => false | None => true end) ++
  (match fh_screen h with Some b => flag b | None => [] end) ++
  (if match fh_screen h with Some b => b | None => true end
   then flag (match fh_mv h with Some _ => false | None => true end) ++
        match fh_mv h with Some b => flag b | None => [] end
   else []) ++
  (match fh_order h with Some (_, b) => zbits 3 b | None => [] end).

(** [cc_x], [cc_y] are coded for 12-bit professional streams only. *)
Record color_config := mk_color {
  cc_high : bool; cc_twelve : bool; cc_mono : bool; cc_description : option (Z * Z * Z);
  cc_range : bool; cc_x : bool; cc_y : bool; cc_position : Z; cc_separate : bool
}.

Definition color_ok (c : color_config) : Prop :=
  (∀ a b m, cc_description c = Some (a, b, m) → 0 ≤ a < 2 ^ 8 ∧ 0 ≤ b < 2 ^ 8 ∧ 0 ≤ m < 2 ^ 8) ∧
  0 ≤ cc_position c < 2 ^ 2.

Section color.
Context (profile : Z) (c : color_config).

Definition cc_is_twelve : bool :=
  if (profile =? FF_PROFILE_AV1_PROFESSIONAL) && cc_high c then cc_twelve c else false.
Definition cc_is_mono : bool := if profile =? FF_PROFILE_AV1_HIGH then false else cc_mono c.
Definition cc_colors : Z * Z * Z := default (2, 2, 2) (cc_description c).
Definition cc_is_srgb : bool := (cc_colors.1.1 =? 1) && (cc_colors.1.2 =? 13) && (cc_colors.2 =? 0).

Definition cc_sub : bool * bool :=
  if profile =? FF_PROFILE_AV1_MAIN then (true, true)
  else if profile =? FF_PROFILE_AV1_HIGH then (false, false)
  else if cc_is_twelve then (cc_x c, cc_x c && cc_y c)
  else (true, false).

Definition color_bits : list bool :=
  flag (cc_high c) ++
  (if (profile =? FF_PROFILE_AV1_PROFESSIONAL) && cc_high c then flag (cc_twelve c) else []) ++
  (if profile =? FF_PROFILE_AV1_HIGH then [] else flag (cc_mono c)) ++
  flag (match cc_description c with Some _ => true | None => false end) ++
  (match cc_description c with Some (a, b, m) => zbits 8 a ++ zbits 8 b ++ zbits 8 m | None => [] end) ++
  (if cc_is_mono then flag (cc_range c)
   else
     (if cc_is_srgb then []
      else flag (cc_range c) ++
           (if (profile =? FF_PROFILE_AV1_MAIN) || (profile =? FF_PROFILE_AV1_HIGH) then []
            else if cc_is_twelve then flag (cc_x c) ++ (if cc_x c then flag (cc_y c) else [])
            else []) ++
           (if cc_sub.1 && cc_sub.2 then zbits 2 (cc_position c) else [])) ++
     flag (cc_separate c)).

Definition color_params (level tier : Z) : AV1SequenceParameters :=
  let '(a, b, m) := cc_colors in
  let '(x, y, position, range) :=
    if cc_is_mono then (1, 1, 0, Z.b2z (cc_range c))
    else if cc_is_srgb then (0, 0, 0, 0)
    else (Z.b2z cc_sub.1, Z.b2z cc_sub.2, if cc_sub.1 && cc_sub.2 then cc_position c else 0, Z.b2z (cc_range c)) in
  mk_seq profile level tier (8 + Z.b2z (cc_high c) * 2 + Z.b2z cc_is_twelve * 2) (Z.b2z cc_is_mono) x y position
    (Z.b2z (match cc_description c with Some _ => true | None => false end)) a b m range.
End color.

(** [sh_body]: a reduced header codes the level only. *)
Record seq_header := mk_header {
  sh_profile : Z; sh_still : bool; sh_body : Z + full_header;
  sh_width_bits : nat; sh_height_bits : nat; sh_width : Z; sh_height : Z;
  sh_filters : Z; sh_restoration : Z; sh_color : color_config; sh_film_grain : bool
}.

Definition header_ok (h : seq_header) : Prop :=
  0 ≤ sh_profile h < 2 ^ 3 ∧
  (match sh_body h with inl level => 0 ≤ level < 2 ^ 5 | inr f => full_ok f end) ∧
  (sh_width_bits h < 16)%nat ∧ (sh_height_bits h < 16)%nat ∧
  0 ≤ sh_width h < 2 ^ Z.of_nat (S (sh_width_bits h)) ∧ 0 ≤ sh_height h < 2 ^ Z.of_nat (S (sh_height_bits h)) ∧
  0 ≤ sh_filters h < 2 ^ 3 ∧ 0 ≤ sh_restoration h < 2 ^ 3 ∧ color_ok (sh_color h).

Definition header_bits (h : seq_header) : list bool :=
  zbits 3 (sh_profile h) ++ flag (sh_still h) ++
  flag (match sh_body h with inl _ => true | inr _ => false end) ++
  (match sh_body h with inl level => zbits 5 level | inr f => points_bits f end) ++
  zbits 4 (Z.of_nat (sh_width_bits h)) ++ zbits 4 (Z.of_nat (sh_height_bits h)) ++
  zbits (S (sh_width_bits h)) (sh_width h) ++ zbits (S (sh_height_bits h)) (sh_height h) ++
  (match sh_body h with
   | inl _ => []
   | inr f => match fh_frame_ids f with Some i => flag true ++ zbits 7 i | None => flag false end
   end) ++
  zbits 3 (sh_filters h) ++
  (match sh_body h with inl _ => [] | inr f => tools_bits f end) ++
  zbits 3 (sh_restoration h) ++
  color_bits (sh_profile h) (sh_color h) ++
  flag (sh_film_grain h).

Definition header_params (h : seq_header) : AV1SequenceParameters :=
  let '(level, tier) := match sh_body h with inl level => (level, 0) | inr f => point_params (fh_first f) end in
  color_params (sh_profile h) (sh_color h) level tier.

(** ** The parser inverts the syntax *)

Lemma reads_get n v : 0 ≤ n ≤ 32 → 0 ≤ v < 2 ^ n → reads (get_bits n) (zbits (Z.to_nat n) v) v.
Proof. exact (reads_num (G:=Av1GetBitContext) n v). Qed.

Lemma reads_skip n v : 0 ≤ n ≤ 32 → 0 ≤ v < 2 ^ n → reads (skip_bits n) (zbits (Z.to_nat n) v) tt.
Proof. intros. eapply reads_bind_nil; [by apply reads_get|apply reads_ret]. Qed.

Lemma reads_skip_list n l : (length l ≤ 32)%nat → n = zlen l → reads (skip_bits n) l tt.
Proof. intros Hl ->. eapply reads_bind_nil; [exact (reads_list (G:=Av1GetBitContext) l Hl)|apply reads_ret]. Qed.

Lemma reads_get1 b : reads (get_bits 1) (flag b) (Z.b2z b).
Proof. exact (reads_bit1 (G:=Av1GetBitContext) b). Qed.

Lemma reads_skip1 b : reads (skip_bits 1) (flag b) tt.
Proof. eapply reads_bind_nil; [apply reads_get1|apply reads_ret]. Qed.

Lemma reads_flag b : reads get_flag (flag b) b.
Proof. eapply reads_bind_nil; [apply reads_get1|]. by destruct b; apply reads_ret. Qed.

Lemma left_ahead g l : ahead g l → get_bits_left g = zlen l.
Proof.
  intros (Hi & Hs & _ & ->). unfold get_bits_left, get_bits_count, zlen.
  rewrite length_take, length_drop, all_bits_length. unfold zlen in *. lia.
Qed.

Lemma uvlc_loop_spec k fuel z : (k < fuel)%nat →
  reads (uvlc_loop fuel z) (replicate k false ++ flag true) (z + Z.of_nat k).
Proof.
  revert fuel z; induction k as [|k IH]; intros fuel z Hf g rest Hg; (destruct fuel as [|fuel]; [lia|]);
    cbn [uvlc_loop]; rewrite (left_ahead g _ Hg).
  - change (replicate 0 false ++ flag true) with (flag true) in *.
    rewrite (proj2 (Z.eqb_neq _ _)) by (unfold flag; len_lia).
    eapply (reads_bind_nil _ _ (flag true)); [apply reads_get1| |exact Hg]. cbn. rewrite Z.add_0_r. apply reads_ret.
  - change (replicate (S k) false ++ flag true) with (flag false ++ (replicate k false ++ flag true)) in *.
    rewrite (proj2 (Z.eqb_neq _ _)) by (unfold flag; len_lia).
    eapply reads_bind; [apply (reads_get1 false)| |exact Hg]. cbn [Z.b2z Z.eqb negb].
    replace (z + Z.of_nat (S k)) with (z + 1 + Z.of_nat k) by lia. apply IH. lia.
Qed.

Lemma reads_uvlc w : (length w < 32)%nat → reads uvlc (replicate (length w) false ++ flag true ++ w) tt.
Proof.
  intros Hw g rest Hg. unfold uvlc. rewrite app_assoc in Hg.
  eapply reads_bind; [apply (uvlc_loop_spec (length w) _ 0)| |exact Hg].
  - rewrite (left_ahead g _ Hg). unfold flag. rewrite !zlen_app, zlen_replicate. unfold zlen. lia.
  - cbv beta. rewrite (proj2 (Z.leb_gt _ _)) by lia. apply reads_skip_list; [lia|done].
Qed.

Ltac rd :=
  lazymatch goal with
  | |- reads (bind _ _) (_ ++ _) _ => eapply reads_bind; [rd|cbv beta iota]
  | |- reads (ret _) _ _ => apply reads_ret
  | |- reads (get_bits 1) (flag _) _ => apply reads_get1
  | |- reads (skip_bits 1) (flag _) _ => apply reads_skip1
  | |- reads get_flag _ _ => apply reads_flag
  | |- reads (get_bits _) _ _ => apply reads_get; lia
  | |- reads (skip_bits _) _ _ => apply reads_skip; lia
  end.

Lemma reads_point n dd p : point_ok n p → (∀ n', n = Some n' → 0 < n' ≤ 32) →
  reads (parse_operating_point n dd) (point_bits n dd p) (point_params p).
Proof.
  intros (H1 & H2 & H3 & H4) Hn. unfold parse_operating_point, point_bits. do 2 rd.
  apply (reads_bind _ _ _ _ (if 7 <? pt_level p then Z.b2z (pt_tier p) else 0)).
  { destruct (7 <? pt_level p); [apply reads_get1|apply reads_ret]. }
  cbv beta. eapply reads_bind.
  { destruct n as [n|]; [|apply reads_ret]. specialize (Hn n eq_refl).
    destruct (pt_model p) as [[[a b] c]|] eqn:Em; [|eapply reads_bind_nil; [apply reads_flag|apply reads_ret]].
    destruct (H3 n a b c eq_refl eq_refl). rd. do 2 rd. apply reads_skip1. }
  cbv beta. eapply reads_bind_nil; [|unfold point_params; apply reads_ret].
  destruct dd; [|apply reads_ret].
  destruct (pt_delay p) as [d|] eqn:Ed; [|eapply reads_bind_nil; [apply reads_flag|apply reads_ret]].
  specialize (H4 d eq_refl). rd. by apply reads_skip.
Qed.

Lemma reads_points n dd ps : Forall (point_ok n) ps → (∀ n', n = Some n' → 0 < n' ≤ 32) →
  reads (skip_operating_points (length ps) n dd) (concat (map (point_bits n dd) ps)) tt.
Proof.
  intros Hps Hn. induction Hps as [|p ps Hp _ IH]; [apply reads_ret|].
  eapply reads_bind; [by apply reads_point|exact IH].
Qed.

Lemma reads_timing t : (∀ t', t = Some t' → timing_ok t') →
  reads parse_timing_info (timing_bits t) (delay_length t).
Proof.
  intros Hok. unfold parse_timing_info, timing_bits, delay_length.
  destruct t as [t|]; [|eapply reads_bind_nil; [apply reads_flag|apply reads_ret]].
  destruct (Hok t eq_refl) as (H1 & H2 & H3 & H4). do 3 rd.
  destruct (ti_ticks t) as [w|].
  - specialize (H3 w eq_refl). eapply reads_eq; [|by rewrite <- app_assoc].
    rd. eapply reads_bind; [by apply reads_uvlc|]. cbv beta.
    destruct (ti_model t) as [[[l a] b]|]; [|eapply reads_bind_nil; [apply reads_flag|apply reads_ret]].
    destruct (H4 l a b eq_refl) as (? & ? & ?). do 3 rd. eapply reads_bind_nil; [rd|apply reads_ret].
  - rd. eapply (reads_bind _ _ []); [apply reads_ret|]. cbv beta.
    destruct (ti_model t) as [[[l a] b]|]; [|eapply reads_bind_nil; [apply reads_flag|apply reads_ret]].
    destruct (H4 l a b eq_refl) as (? & ? & ?). do 3 rd. eapply reads_bind_nil; [rd|apply reads_ret].
Qed.

Lemma reads_full_points h : full_ok h →
  reads parse_operating_points (points_bits h) (point_params (fh_first h)).
Proof.
  intros (Ht & H1 & H2 & H3 & _). unfold parse_operating_points, points_bits.
  assert (∀ n, delay_length (fh_timing h) = Some n → 0 < n ≤ 32) as Hn.
  { unfold delay_length. destruct (fh_timing h) as [t|]; [|done]. destruct (Ht t eq_refl) as (_ & _ & _ & H4).
    destruct (ti_model t) as [[[l a] b]|]; [|done]. intros n [= <-]. destruct (H4 l a b eq_refl). lia. }
  eapply reads_bind; [by apply reads_timing|]. cbv beta. do 2 rd.
  eapply reads_bind; [by apply reads_point|]. cbv beta. eapply reads_bind_nil; [|apply reads_ret].
  rewrite Nat2Z.id. by apply reads_points.
Qed.

Lemma reads_tools h : full_ok h → reads skip_tools (tools_bits h) tt.
Proof.
  intros (_ & _ & _ & _ & _ & H5 & H6). unfold skip_tools, tools_bits. do 2 rd.
  eapply reads_bind. { destruct (fh_order h) as [[a b]|]; [|apply reads_ret]. destruct (H6 a b eq_refl). by apply reads_skip. }
  cbv beta. rd.
  apply (reads_bind _ _ _ _ (match fh_screen h with Some b => Z.b2z b | None => 2 end)).
  { destruct (fh_screen h) as [b|]; [apply reads_get1|apply reads_ret]. }
  cbv beta. eapply reads_bind.
  - assert (negb ((match fh_screen h with Some b => Z.b2z b | None => 2 end) =? 0) =
      match fh_screen h with Some b => b | None => true end) as -> by (by destruct (fh_screen h) as [[]|]).
    destruct (match fh_screen h with Some b => b | None => true end); [|apply reads_ret].
    rd. destruct (fh_mv h) as [b|]; [apply reads_skip1|apply reads_ret].
  - cbv beta. destruct (fh_order h) as [[a b]|]; [|apply reads_ret]. destruct (H6 a b eq_refl). by apply reads_skip.
Qed.

Lemma reads_subsampling profile c : 0 ≤ cc_position c < 2 ^ 2 →
  reads (parse_subsampling profile (cc_is_twelve profile c))
    ((if (profile =? FF_PROFILE_AV1_MAIN) || (profile =? FF_PROFILE_AV1_HIGH) then []
      else if cc_is_twelve profile c then flag (cc_x c) ++ (if cc_x c then flag (cc_y c) else [])
      else []) ++
     (if (cc_sub profile c).1 && (cc_sub profile c).2 then zbits 2 (cc_position c) else []))
    (Z.b2z (cc_sub profile c).1, Z.b2z (cc_sub profile c).2,
     if (cc_sub profile c).1 && (cc_sub profile c).2 then cc_position c else 0).
Proof.
  intros Hp. unfold parse_subsampling.
  apply (reads_bind _ _ _ _ (Z.b2z (cc_sub profile c).1, Z.b2z (cc_sub profile c).2)).
  - unfold cc_sub. destruct (profile =? FF_PROFILE_AV1_MAIN); [apply reads_ret|].
    destruct (profile =? FF_PROFILE_AV1_HIGH); [apply reads_ret|]. cbn [orb].
    destruct (cc_is_twelve profile c); [|apply reads_ret]. rd.
    destruct (cc_x c); cbn [Z.b2z Z.eqb negb].
    + eapply reads_bind_nil; [apply reads_get1|]. apply reads_ret.
    + eapply (reads_bind _ _ []); apply reads_ret.
  - cbv beta. cbn [fst snd]. assert (∀ b, negb (Z.b2z b =? 0) = b) as E by (by intros []). rewrite !E.
    eapply reads_bind_nil; [|apply reads_ret].
    destruct ((cc_sub profile c).1 && (cc_sub profile c).2); [by apply (reads_get 2)|apply reads_ret].
Qed.

Lemma reads_color profile c level tier : color_ok c →
  reads (parse_color_config (mk_seq profile level tier 0 0 0 0 0 0 0 0 0 0)) (color_bits profile c)
    (color_params profile c level tier).
Proof.
  intros [Hd Hp]. unfold parse_color_config, color_bits, color_params.
  cbn [sp_profile sp_level sp_tier sp_chroma_sample_position sp_color_range]. rd.
  apply (reads_bind _ _ _ _ (cc_is_twelve profile c)).
  { unfold cc_is_twelve. destruct (_ && _); [apply reads_flag|apply reads_ret]. }
  cbv beta. apply (reads_bind _ _ _ _ (cc_is_mono profile c)).
  { unfold cc_is_mono. destruct (profile =? FF_PROFILE_AV1_HIGH); [apply reads_ret|apply reads_flag]. }
  cbv beta. rd. apply (reads_bind _ _ _ _ (cc_colors c)).
  { unfold cc_colors. destruct (cc_description c) as [[[a b] m]|]; [|apply reads_ret].
    destruct (Hd a b m eq_refl) as (? & ? & ?). do 2 rd. eapply reads_bind_nil; [rd|apply reads_ret]. }
  cbv beta. fold (cc_is_mono profile c). unfold cc_is_srgb. destruct (cc_colors c) as [[a b] m]. cbn [fst snd].
  destruct (cc_is_mono profile c).
  - eapply reads_bind_nil; [apply reads_get1|]. apply reads_ret.
  - destruct ((a =? 1) && (b =? 13) && (m =? 0)).
    + eapply (reads_bind _ _ []); [apply reads_ret|]. cbv beta iota.
      eapply reads_bind_nil; [apply reads_skip1|]. apply reads_ret.
    + eapply reads_bind.
      { rd. eapply reads_bind_nil; [by apply reads_subsampling|]. apply reads_ret. }
      cbv beta iota. eapply reads_bind_nil; [apply reads_skip1|]. apply reads_ret.
Qed.

Lemma reads_sequence h : header_ok h → reads parse_sequence_bits (header_bits h) (header_params h).
Proof.
  intros (H1 & H2 & H3 & H4 & H5 & H6 & H7 & H8 & H9). unfold parse_sequence_bits, header_bits, header_params.
  assert (∀ n : nat, (n < 16)%nat → 0 ≤ Z.of_nat n < 2 ^ 4 ∧ 0 ≤ Z.of_nat n + 1 ≤ 32 ∧
    Z.to_nat (Z.of_nat n + 1) = S n ∧ Z.of_nat (S n) = Z.of_nat n + 1) as Hn by (intros; lia).
  destruct (Hn _ H3) as (W1 & W2 & W3 & W4). destruct (Hn _ H4) as (V1 & V2 & V3 & V4). rewrite W4 in H5. rewrite V4 in H6.
  do 3 rd.
  apply (reads_bind _ _ _ _ (match sh_body h with inl level => (level, 0) | inr f => point_params (fh_first f) end)).
  { destruct (sh_body h) as [level|f]; [eapply reads_bind_nil; [rd|apply reads_ret]|by apply reads_full_points]. }
  cbv beta. do 2 rd. rewrite <- W3, <- V3.
  eapply reads_bind; [by apply reads_skip|]. cbv beta. eapply reads_bind; [by apply reads_skip|]. cbv beta.
  eapply reads_bind.
  { destruct (sh_body h) as [level|f]; [apply reads_ret|]. cbn [negb].
    destruct H2 as (_ & _ & _ & _ & Hi & _).
    destruct (fh_frame_ids f) as [i|]; [|eapply reads_bind_nil; [apply reads_flag|apply reads_ret]].
    specialize (Hi i eq_refl). rd. by apply reads_skip. }
  cbv beta. rd. eapply reads_bind.
  { destruct (sh_body h) as [level|f]; [apply reads_ret|]. by apply reads_tools. }
  cbv beta. rd.
  destruct (match sh_body h with inl level => (level, 0) | inr f => point_params (fh_first f) end) as [level tier].
  eapply reads_bind; [by apply reads_color|]. cbv beta. eapply reads_bind_nil; [apply reads_skip1|apply reads_ret].
Qed.

(** *** The trailing bits *)

Lemma ctz_byte v : 0 < v < 256 →
  0 ≤ ctz32 v < 8 ∧ zbits 8 v = take (Z.to_nat (7 - ctz32 v)) (zbits 8 v) ++ true :: replicate (Z.to_nat (ctz32 v)) false.
Proof.
  intros Hv.
  assert (forallb (λ v, (0 <=? ctz32 v) && (ctz32 v <? 8) && bool_decide (zbits 8 v =
    take (Z.to_nat (7 - ctz32 v)) (zbits 8 v) ++ true :: replicate (Z.to_nat (ctz32 v)) false)) (seqZ 1 255) = true) as F
    by (vm_compute; reflexivity).
  rewrite forallb_forall in F. specialize (F v). rewrite <- list_elem_of_In, elem_of_seqZ in F.
  specialize (F ltac:(lia)). rewrite !andb_true_iff in F. destruct F as [[F1 F2] F3].
  apply bool_decide_eq_true_1 in F3. split; [lia|exact F3].
Qed.

Lemma last_true_unique (x y : list bool) a b :
  x ++ true :: replicate a false = y ++ true :: replicate b false → x = y ∧ a = b.
Proof.
  intros E. apply (f_equal reverse) in E. rewrite !reverse_app, !reverse_cons, !reverse_replicate, <- !app_assoc in E.
  cbn [app] in E. revert b E. induction a as [|a IH]; intros [|b] E; cbn in E; try done.
  - injection E as E. by apply (inj reverse) in E.
  - injection E as E. destruct (IH b E) as [-> ->]. done.
Qed.

Lemma zero_tail (buf : bytes) :
  (∃ pre v j, buf = pre ++ v :: replicate j 0 ∧ v ≠ 0) ∨ buf = replicate (length buf) 0.
Proof.
  induction buf as [|b buf IH]; [by right|]. destruct IH as [(pre & v & j & -> & Hv)|E].
  - left. exists (b :: pre), v, j. done.
  - destruct (decide (b = 0)) as [->|N]; [right; by rewrite E at 1|]. left. exists [], b, (length buf). by rewrite E at 1.
Qed.

Lemma strip_zeros_spec pre v j rest : v ≠ 0 →
  strip_zeros (length (pre ++ v :: replicate j 0)) (pre ++ v :: replicate j 0 ++ rest) = Some (zlen pre + 1).
Proof.
  intros Hv. assert (∀ (l k : bytes) x, rd (l ++ x :: k) (Z.of_nat (length l)) = Some x) as Hrd.
  { intros l k x. unfold rd. rewrite (proj2 (Z.leb_le _ _)), Nat2Z.id by lia.
    by rewrite lookup_app_r, Nat.sub_diag by lia. }
  revert rest. induction j as [|j IH]; intros rest.
  - cbn [replicate app]. rewrite length_app, Nat.add_1_r. cbn [strip_zeros]. rewrite Hrd. cbn [mbind option_bind].
    rewrite (proj2 (Z.eqb_neq _ _)) by done. f_equal. unfold zlen. lia.
  - rewrite replicate_S_end. replace (length (pre ++ v :: replicate j 0 ++ [0]))
      with (S (length (pre ++ v :: replicate j 0))) by (rewrite !length_app; cbn; rewrite length_app; cbn; lia).
    cbn [strip_zeros]. rewrite <- app_assoc.
    replace (rd _ _) with (Some 0); [cbn [mbind option_bind]; apply (IH ([0] ++ rest))|].
    symmetry. change (pre ++ v :: replicate j 0 ++ [0] ++ rest) with (pre ++ (v :: replicate j 0) ++ 0 :: rest).
    rewrite (app_assoc pre). apply Hrd.
Qed.

(** The payload of the OBU: the coded bits and the trailing bits. *)
Definition sequence_payload (h : seq_header) (payload : bytes) : Prop :=
  Forall is_byte payload ∧ ∃ k, all_bits payload = header_bits h ++ true :: replicate k false.

Lemma all_bits_zeros j : all_bits (replicate j 0) = replicate (8 * j) false.
Proof.
  induction j as [|j IH]; [done|]. cbn [replicate]. rewrite all_bits_cons, IH.
  replace (8 * S j)%nat with (8 + 8 * j)%nat by lia. by rewrite replicate_add.
Qed.

Lemma bit_length_spec bits payload k rest :
  Forall is_byte payload → all_bits payload = bits ++ true :: replicate k false → zlen payload < 2 ^ 27 →
  get_obu_bit_length (payload ++ rest) (zlen payload) AV1_OBU_SEQUENCE_HEADER = Some (Some (zlen bits)).
Proof.
  intros Hb E Hl. destruct (zero_tail payload) as [(pre & v & j & Ep & Hv)|Ez].
  2: { exfalso. assert (length bits < length (all_bits payload))%nat as Hlt by (rewrite E, length_app; cbn; lia).
       rewrite Ez, all_bits_zeros in E.
       apply (f_equal (λ l, l !! length bits)) in E. rewrite lookup_app_r, Nat.sub_diag in E by lia. cbn in E.
       rewrite all_bits_length in Hlt. rewrite lookup_replicate_2 in E by lia. done. }
  assert (is_byte v) as Hvb. { rewrite Ep in Hb. apply Forall_app in Hb as [_ Hb]. by inversion Hb. }
  destruct (ctz_byte v) as [Hc Hz]; [unfold is_byte in Hvb; lia|].
  rewrite Ep, all_bits_app, all_bits_cons, all_bits_zeros, Hz in E.
  assert (all_bits pre ++ take (Z.to_nat (7 - ctz32 v)) (zbits 8 v) = bits) as Ebits.
  { apply (last_true_unique _ _ (Z.to_nat (ctz32 v) + 8 * j) k).
    rewrite <- E, replicate_add, <- !app_assoc. done. }
  unfold get_obu_bit_length. change ((_ || _) || _) with false. cbv iota.
  replace (Z.to_nat (zlen payload)) with (length payload) by (unfold zlen; lia).
  rewrite Ep at 1 2. rewrite <- app_assoc. cbn [app]. rewrite strip_zeros_spec by done. cbn [mbind option_bind].
  pose proof (zlen_nonneg pre). rewrite (proj2 (Z.eqb_neq _ _)) by lia.
  rewrite Z.add_simpl_r.
  assert (rd (payload ++ rest) (zlen pre) = Some v) as ->.
  { rewrite Ep, <- app_assoc. unfold rd. rewrite (proj2 (Z.leb_le _ _)) by lia. rewrite zlen_to_nat.
    by rewrite lookup_app_r, Nat.sub_diag by lia. }
  cbn [mbind option_bind]. assert (zlen pre < zlen payload) by (rewrite Ep; len_lia).
  change (INT_MAX / 8) with 268435455. rewrite (proj2 (Z.ltb_ge _ _)) by lia.
  rewrite (proj2 (Z.eqb_neq v 0)) by done. cbn [negb]. do 2 f_equal.
  rewrite <- Ebits. unfold zlen. rewrite length_app, all_bits_length, length_take, zbits_length. lia.
Qed.

Lemma parse_sequence_spec h payload rest :
  header_ok h → sequence_payload h payload → Forall is_byte rest → zlen payload < 2 ^ 27 →
  parse_sequence_header (payload ++ rest) (zlen payload) = Some (Some (header_params h)).
Proof.
  intros Hok (Hb & k & E) Hrest Hl. unfold parse_sequence_header.
  rewrite (bit_length_spec (header_bits h) payload k) by done. cbn [mbind option_bind].
  assert (zlen (header_bits h) < 8 * zlen payload) as Hlen.
  { unfold zlen. pose proof (all_bits_length payload) as Ea. rewrite E, length_app, length_cons in Ea. lia. }
  pose proof (zlen_nonneg (header_bits h)). unfold init_get_bits, init_get_bits_xe.
  change (INT_MAX - 64 * 8) with 2147483135.
  rewrite (proj2 (Z.leb_gt _ _)), (proj2 (Z.ltb_ge _ _)) by lia. cbn [orb Z.ltb].
  change (0 <? 0) with false. cbv iota.
  destruct (reads_sequence h Hok (mk_gb (payload ++ rest) 0 (zlen (header_bits h))) []) as (g & Eg & Hg).
  - rewrite app_nil_r. cbn [ahead av1_reader gb_buffer gb_index gb_size_in_bits].
    pose proof (zlen_nonneg rest).
    split; [lia|]. split; [rewrite zlen_app; lia|]. split; [by apply Forall_app|].
    rewrite Z.sub_0_r, zlen_to_nat, drop_0, all_bits_app, E, <- app_assoc. by rewrite take_app_length.
  - rewrite Eg. cbn [mbind option_bind]. by rewrite (left_ahead g [] Hg).
Qed.
