(* ===== verification/RtmpAv1Obu.v ===== *)
(** * Streams of OBUs through rtmp-av1.c

    The OBU headers are parsed as they were written; the configuration record made from
    extra data. *)

From S2P Require Import Prelude Serializer Encoder Nal NalPacket Bitstream Bits Av1 RtmpAv1 Av1Syntax.

Local Open Scope Z_scope.
Local Open Scope serializer_scope.

(** ** OBUs *)

Lemma reads_byte b : is_byte b → reads (get_bits 8) (zbits 8 b) b.
Proof. intros Hb. apply (reads_get 8); [lia|exact Hb]. Qed.

(** Reading the groups [b], [val] of a [leb128] number back from iteration [i] on. *)
Lemma reads_uleb n k val b i value :
  0 ≤ i → (n < k)%nat → 0 ≤ b < 128 → 0 ≤ val < 128 ^ Z.of_nat n → 0 ≤ value < 2 ^ (7 * i) →
  reads (leb128_loop k i value) (all_bits (uleb_loop n val b)) (value + (b + 128 * val) * 2 ^ (7 * i)).
Proof.
  revert k val b i value. induction n as [|n IH]; intros k val b i value Hi Hk Hb Hval Hv;
    (destruct k as [|k]; [lia|]); destruct (group_bits b Hb) as (H1 & H2 & H7 & H8); cbn [leb128_loop uleb_loop].
  - assert (val = 0) as -> by (simpl in Hval; lia). rewrite all_bits_cons, app_nil_r.
    eapply reads_bind_nil; [apply reads_byte; unfold is_byte; lia|].
    rewrite H7, H8, (Z.mul_comm i 7), lor_high by lia.
    change (0 =? 0) with true. cbv iota. replace (b + 128 * 0) with b by lia. apply reads_ret.
  - destruct (Z.ltb_spec 0 val) as [Hpv|Hzv]; rewrite all_bits_cons.
    + eapply reads_bind.
      { apply reads_byte. unfold is_byte. pose proof (lor_high b 1 7) as E. change (Z.shiftl 1 7) with 128 in E.
        rewrite E; lia. }
      rewrite H1, H2, (Z.mul_comm i 7), lor_high by lia. change (128 =? 0) with false. cbv iota.
      assert (Z.shiftr val 7 = val `div` 128) as Es by (by rewrite Z.shiftr_div_pow2).
      assert (Z.land val 127 = val `mod` 128) as El by (change 127 with (Z.ones 7); by rewrite Z.land_ones).
      pose proof (Z.div_mod val 128 ltac:(lia)) as Hdm. pose proof (Z.mod_pos_bound val 128 ltac:(lia)).
      assert (2 ^ (7 * (i + 1)) = 128 * 2 ^ (7 * i)) as Ep.
      { replace (7 * (i + 1)) with (7 + 7 * i) by lia. by rewrite Z.pow_add_r by lia. }
      replace (value + (b + 128 * val) * 2 ^ (7 * i)) with
        (value + b * 2 ^ (7 * i) + (Z.land val 127 + 128 * Z.shiftr val 7) * 2 ^ (7 * (i + 1)))
        by (rewrite Es, El, Ep; replace (val `mod` 128 + 128 * (val `div` 128)) with val by lia; lia).
      apply IH; [lia|lia|lia| |rewrite Ep; nia].
      rewrite Es. rewrite Nat2Z.inj_succ, Z.pow_succ_r in Hval by lia.
      split; [apply Z.div_pos; lia|]. apply Z.div_lt_upper_bound; lia.
    + assert (val = 0) as -> by lia. rewrite app_nil_r.
      eapply reads_bind_nil; [apply reads_byte; unfold is_byte; lia|].
      rewrite H7, H8, (Z.mul_comm i 7), lor_high by lia.
      change (0 =? 0) with true. cbv iota. replace (b + 128 * 0) with b by lia. apply reads_ret.
Qed.

(** A number below 2^31 has at most five groups. *)
Lemma uleb_short n val b : 0 ≤ val < 128 ^ Z.of_nat n → ∀ m, (n ≤ m)%nat → uleb_loop m val b = uleb_loop n val b.
Proof.
  revert val b; induction n as [|n IH]; intros val b Hv m Hm.
  - assert (val = 0) as -> by (simpl in Hv; lia). by destruct m.
  - destruct m as [|m]; [lia|]. cbn [uleb_loop]. destruct (Z.ltb_spec 0 val); [|done]. f_equal.
    apply IH; [|lia]. rewrite Z.shiftr_div_pow2 by lia. change (2 ^ 7) with 128.
    rewrite Nat2Z.inj_succ, Z.pow_succ_r in Hv by lia.
    split; [apply Z.div_pos; lia|]. apply Z.div_lt_upper_bound; lia.
Qed.

Lemma uleb_len n val b : 1 ≤ zlen (uleb_loop n val b) ≤ 1 + Z.of_nat n.
Proof.
  revert val b; induction n as [|n IH]; intros val b; cbn [uleb_loop]; [len_lia|].
  destruct (0 <? val); [|len_lia]. specialize (IH (Z.shiftr val 7) (Z.land val 127)). len_lia.
Qed.

Lemma encode_uleb_4 v : 0 ≤ v < 2 ^ 31 →
  encode_uleb128 v = uleb_loop 4 (Z.shiftr v 7) (Z.land v 127) ∧
  0 ≤ Z.shiftr v 7 < 128 ^ 4 ∧ 0 ≤ Z.land v 127 < 128 ∧ Z.land v 127 + 128 * Z.shiftr v 7 = v.
Proof.
  intros Hv. unfold encode_uleb128. rewrite u64_small by lia.
  assert (Z.shiftr v 7 = v `div` 128) as Es by (by rewrite Z.shiftr_div_pow2).
  assert (Z.land v 127 = v `mod` 128) as El by (change 127 with (Z.ones 7); by rewrite Z.land_ones).
  pose proof (Z.div_mod v 128 ltac:(lia)). pose proof (Z.mod_pos_bound v 128 ltac:(lia)).
  assert (0 ≤ Z.shiftr v 7 < 128 ^ 4).
  { rewrite Es. split; [apply Z.div_pos; lia|]. apply Z.div_lt_upper_bound; lia. }
  split; [by apply uleb_short; [|lia]|]. rewrite El, Es in *. lia.
Qed.

Lemma encode_uleb_len v : 0 ≤ v < 2 ^ 31 → 1 ≤ zlen (encode_uleb128 v) ≤ 5.
Proof. intros Hv. destruct (encode_uleb_4 v Hv) as (-> & _). pose proof (uleb_len 4 (Z.shiftr v 7) (Z.land v 127)). lia. Qed.

Lemma reads_leb128 v : 0 ≤ v < 2 ^ 31 → reads leb128 (all_bits (encode_uleb128 v)) v.
Proof.
  intros Hv. destruct (encode_uleb_4 v Hv) as (-> & H1 & H2 & E).
  pose proof (reads_uleb 4 8 (Z.shiftr v 7) (Z.land v 127) 0 0) as R.
  rewrite E in R. change (2 ^ (7 * 0)) with 1 in R. rewrite Z.add_0_l, Z.mul_1_r in R. apply R; lia || done.
Qed.

Lemma obu_byte_bits t : 0 ≤ t < 16 → let b := Z.lor (Z.shiftl t 3) 2 in
  Z.land b 128 = 0 ∧ zbits 8 b = flag false ++ zbits 4 t ++ flag false ++ flag true ++ flag false.
Proof.
  intros Ht.
  assert (forallb (λ t, let b := Z.lor (Z.shiftl t 3) 2 in (Z.land b 128 =? 0) &&
    bool_decide (zbits 8 b = flag false ++ zbits 4 t ++ flag false ++ flag true ++ flag false)) (seqZ 0 16) = true) as F
    by (vm_compute; reflexivity).
  rewrite forallb_forall in F. specialize (F t). rewrite <- list_elem_of_In, elem_of_seqZ in F.
  specialize (F ltac:(lia)). cbv zeta in *. rewrite andb_true_iff, bool_decide_eq_true in F. destruct F; split; [lia|done].
Qed.

(** The bytes of an OBU before its payload. *)
Definition obu_head (o : obu) : bytes :=
  Z.lor (Z.shiftl (ob_type o) 3) 2 :: encode_uleb128 (zlen (ob_payload o)).

Lemma enc_obu_head o : enc_obu o = obu_head o ++ ob_payload o.
Proof. unfold enc_obu, obu_head. by rewrite app_assoc. Qed.

Lemma obu_head_len o : obu_ok o → 2 ≤ zlen (obu_head o) ≤ 6.
Proof.
  intros [_ Hl]. unfold obu_head. rewrite zlen_cons.
  pose proof (encode_uleb_len (zlen (ob_payload o)) (conj (zlen_nonneg _) Hl)). lia.
Qed.

Lemma init_bytes_ahead buf n : Forall is_byte buf → 0 ≤ n ≤ zlen buf → n ≤ 10 →
  init_get_bits8 buf n = (0, mk_gb buf 0 (n * 8)) ∧ ahead (mk_gb buf 0 (n * 8)) (take (Z.to_nat (n * 8)) (all_bits buf)).
Proof.
  intros Hb Hn H10. split.
  - unfold init_get_bits8, init_get_bits, init_get_bits_xe. change (INT_MAX / 8) with 268435455.
    change (INT_MAX - 64 * 8) with 2147483135.
    rewrite (proj2 (Z.ltb_ge _ _)), (proj2 (Z.ltb_ge n 0)) by lia. cbn [orb]. cbv iota.
    by rewrite (proj2 (Z.leb_gt _ _)), (proj2 (Z.ltb_ge (n * 8) 0)) by lia.
  - cbn [ahead av1_reader gb_buffer gb_index gb_size_in_bits]. rewrite Z.sub_0_r, drop_0. repeat split; lia || done.
Qed.

(** The reader has exactly the bits [bits ++ rest] ahead; its position after [bits]. *)
Lemma ahead_count g l : ahead g l → get_bits_count g = gb_size_in_bits g - zlen l.
Proof. intros Hg. apply left_ahead in Hg. unfold get_bits_left in Hg. lia. Qed.

(** [reads] does not say that the size is kept: every reader only moves the index. *)
Definition sized {A} (m : W Av1GetBitContext A) : Prop :=
  ∀ g a g', m g = Some (a, g') → gb_size_in_bits g' = gb_size_in_bits g.

Lemma sized_ret {A} (a : A) : sized (ret a).
Proof. by intros g a' g' [= _ <-]. Qed.

Lemma sized_bind {A B} (m : W Av1GetBitContext A) (k : A → W Av1GetBitContext B) :
  sized m → (∀ a, sized (k a)) → sized (bind m k).
Proof.
  intros Hm Hk g b g'. unfold bind. destruct (m g) as [[a g1]|] eqn:E; [|done].
  intros E2. rewrite (Hk _ _ _ _ E2). by apply (Hm _ _ _ E).
Qed.

Lemma sized_get_bits n : sized (get_bits n).
Proof.
  unfold get_bits. assert (∀ k out, sized (get_bits_loop k out)) as H; [|apply H].
  induction k as [|k IH]; intros out; [apply sized_ret|].
  apply sized_bind; [|intros; apply IH]. intros g a g'. unfold get_bit1.
  destruct (rd _ _); [|done]. by intros [= _ <-].
Qed.

Lemma sized_leb128 : sized leb128.
Proof.
  unfold leb128. assert (∀ k i v, sized (leb128_loop k i v)) as H; [|apply H].
  induction k as [|k IH]; intros i v; [apply sized_ret|].
  apply sized_bind; [apply sized_get_bits|]. intros b. cbv zeta. case_match; [apply sized_ret|apply IH].
Qed.

Lemma read_step {A B} (m : W Av1GetBitContext A) (k : A → W Av1GetBitContext B) l a g rest :
  reads m l a → sized m → ahead g (l ++ rest) →
  ∃ g', bind m k g = k a g' ∧ ahead g' rest ∧ gb_size_in_bits g' = gb_size_in_bits g.
Proof.
  intros Hr Hs Hg. destruct (Hr g rest Hg) as (g' & E & Hg'). exists g'. unfold bind. rewrite E.
  split; [done|]. split; [done|]. by apply (Hs _ _ _ E).
Qed.

Definition head_bits (o : obu) : list bool :=
  flag false ++ zbits 4 (ob_type o) ++ flag false ++ flag true ++ flag false ++
  all_bits (encode_uleb128 (zlen (ob_payload o))).

Lemma head_bits_spec o : obu_ok o → all_bits (obu_head o) = head_bits o.
Proof.
  intros [Ht _]. destruct (obu_byte_bits (ob_type o) Ht) as [_ Hz]. cbv zeta in Hz.
  unfold obu_head, head_bits. rewrite all_bits_cons, Hz, <- !app_assoc. done.
Qed.

Lemma head_window o rest n : obu_ok o → zlen (obu_head o) ≤ n →
  ∃ tail, take (Z.to_nat (n * 8)) (all_bits (enc_obu o ++ rest)) = head_bits o ++ tail.
Proof.
  intros Ho Hn. eexists. rewrite enc_obu_head, <- app_assoc, all_bits_app, take_app.
  rewrite (take_ge (all_bits (obu_head o))), head_bits_spec; [reflexivity|done|].
  rewrite all_bits_length. unfold zlen in Hn. lia.
Qed.

Ltac step R S :=
  match goal with
  | Hg : ahead ?g _ |- context [bind ?m ?k ?g] =>
      let g' := fresh "g" in let E := fresh "E" in let Hg' := fresh "Hg" in let Hs := fresh "Hs" in
      destruct (read_step m k _ _ g _ R S Hg) as (g' & E & Hg' & Hs); rewrite E; clear E Hg;
      cbn [Z.b2z Z.eqb negb]
  end.

(** The header of an OBU with a size field is parsed as it was written. *)
Lemma rtmp_obu_spec o rest :
  obu_ok o → Forall is_byte (enc_obu o ++ rest) → zlen (enc_obu o ++ rest) ≤ INT_MAX →
  parse_obu_header (enc_obu o ++ rest) (zlen (enc_obu o ++ rest)) =
    Some (Some (zlen (enc_obu o), zlen (ob_payload o), zlen (obu_head o), ob_type o)).
Proof.
  intros Ho Hb Hl. pose proof Ho as [Ht Hp]. pose proof (obu_head_len o Ho) as Hh.
  pose proof (zlen_nonneg (ob_payload o)) as Hp0. pose proof (zlen_nonneg rest) as Hr0.
  assert (zlen (enc_obu o) = zlen (obu_head o) + zlen (ob_payload o)) as Eo by (rewrite enc_obu_head; len_lia).
  assert (zlen (enc_obu o ++ rest) = zlen (enc_obu o) + zlen rest) as Elen by apply zlen_app.
  destruct (head_window o rest (Z.min (zlen (enc_obu o ++ rest)) 10) Ho ltac:(lia)) as (tail & Ew).
  destruct (init_bytes_ahead (enc_obu o ++ rest) (Z.min (zlen (enc_obu o ++ rest)) 10)) as [Ei Hg]; [done|lia|lia|].
  unfold parse_obu_header. change (2 + 8) with 10. rewrite Ei. change (0 <? 0) with false. cbv iota.
  rewrite Ew in Hg. unfold head_bits in Hg. rewrite <- !app_assoc in Hg.
  step (reads_get1 false) (sized_get_bits 1).
  step (reads_get 4 (ob_type o) ltac:(lia) ltac:(lia)) (sized_get_bits 4).
  step (reads_get1 false) (sized_get_bits 1).
  step (reads_get1 true) (sized_get_bits 1).
  cbn [Z.b2z Z.eqb negb].
  step (reads_skip1 false) (sized_bind _ (λ _, ret tt) (sized_get_bits 1) (λ _, sized_ret tt)).
  step (reads_ret (G:=Av1GetBitContext) tt) (sized_ret tt).
  step (reads_leb128 (zlen (ob_payload o)) ltac:(lia)) sized_leb128.
  assert (zlen tail = Z.min (zlen (enc_obu o ++ rest)) 10 * 8 - zlen (obu_head o) * 8) as Et.
  { clear Hg0. apply (f_equal length) in Ew. rewrite length_take, length_app, <- head_bits_spec, !all_bits_length in Ew by done.
    unfold zlen in *. lia. }
  rewrite (left_ahead _ _ Hg0), (ahead_count _ _ Hg0), Hs5, Hs4, Hs3, Hs2, Hs1, Hs0, Hs, Et by done.
  cbn [gb_size_in_bits]. rewrite (proj2 (Z.ltb_ge _ 0)) by len_lia.
  replace (Z.min _ 10 * 8 - _) with (zlen (obu_head o) * 8) by lia. rewrite Z.quot_mul by lia.
  unfold INT_MAX in *. rewrite !u64_small by lia. rewrite !(proj2 (Z.ltb_ge _ _)) by lia.
  cbn [fmap option_fmap option_map fst]. by rewrite Eo, (Z.add_comm (zlen (ob_payload o))).
Qed.

(** The first iteration of a loop over OBUs. *)
Lemma enc_obu_split o rest : obu_ok o →
  take (Z.to_nat (zlen (enc_obu o))) (enc_obu o ++ rest) = enc_obu o ∧
  drop (Z.to_nat (zlen (enc_obu o))) (enc_obu o ++ rest) = rest ∧
  drop (Z.to_nat (zlen (obu_head o))) (enc_obu o ++ rest) = ob_payload o ++ rest ∧
  ∃ b l, enc_obu o ++ rest = b :: l.
Proof.
  intros Ho. rewrite !zlen_to_nat, take_app_length, drop_app_length.
  split; [done|]. split; [done|]. split; [|by unfold enc_obu; cbn; eauto].
  by rewrite enc_obu_head, <- app_assoc, drop_app_length.
Qed.

Lemma bytes_suffix (l k : bytes) :
  Forall is_byte (l ++ k) ∧ zlen (l ++ k) ≤ INT_MAX → Forall is_byte k ∧ zlen k ≤ INT_MAX.
Proof. intros [Hb Hl]. apply Forall_app in Hb as [_ Hb]. split; [done|]. len_lia. Qed.

(** The metadata OBU a loop ends with. *)
Definition is_metadata (o : obu) : bool := ob_type o =? AV1_OBU_METADATA.
Definition last_metadata (meta : bytes) (os : list obu) : bytes :=
  foldl (λ m o, if is_metadata o then enc_obu o else m) meta os.

Lemma last_metadata_filter os :
  last_metadata [] os = from_option enc_obu [] (last (filter (λ o, is_metadata o = true) os)).
Proof.
  induction os as [|o os IH] using rev_ind; [done|]. unfold last_metadata in *.
  rewrite foldl_app, filter_app, filter_cons, filter_nil, IH. cbn [foldl].
  destruct (is_metadata o) eqn:E; case_decide; try congruence; [by rewrite last_snoc|by rewrite app_nil_r].
Qed.

Definition plain_obu (o : obu) : Prop :=
  obu_ok o ∧ ob_type o ≠ AV1_OBU_SEQUENCE_HEADER ∧ (is_metadata o = true → ob_payload o ≠ []).

Lemma enc_obus_cons o os rest : enc_obus (o :: os) ++ rest = enc_obu o ++ (enc_obus os ++ rest).
Proof. unfold enc_obus. cbn [map concat]. by rewrite app_assoc. Qed.

Lemma header_loop_plain os fuel rest nb sp seq meta :
  Forall plain_obu os → Forall is_byte (enc_obus os ++ rest) ∧ zlen (enc_obus os ++ rest) ≤ INT_MAX →
  av1_header_loop (length os + fuel) (enc_obus os ++ rest) nb sp seq meta =
    av1_header_loop fuel rest nb sp seq (last_metadata meta os).
Proof.
  intros Hos. revert meta. induction Hos as [|o os (Ho & Ht & Hm) _ IH]; intros meta Hb; [done|].
  rewrite enc_obus_cons in *. pose proof (rtmp_obu_spec o _ Ho (proj1 Hb) (proj2 Hb)) as P.
  destruct (enc_obu_split o (enc_obus os ++ rest) Ho) as (Et & Ed & _ & b & l & Eb).
  cbn [length Nat.add av1_header_loop]. rewrite Eb. rewrite <- Eb.
  rewrite (proj2 (Z.ltb_ge _ _)), P by tauto. cbn [mbind option_bind].
  rewrite (proj2 (Z.eqb_neq _ _)), Et, Ed by done.
  apply bytes_suffix in Hb. cbn [last_metadata foldl]. unfold is_metadata in *.
  destruct (ob_type o =? AV1_OBU_METADATA); [|by apply IH].
  rewrite (proj2 (Z.eqb_neq _ _)); [by apply IH|].
  intros E. apply (Hm eq_refl). destruct (ob_payload o); [done|]. len_lia.
Qed.

(** One sequence header among other OBUs. *)
Lemma header_loop_seq fuel o rest sp meta h :
  obu_ok o → ob_type o = AV1_OBU_SEQUENCE_HEADER → header_ok h → sequence_payload h (ob_payload o) →
  zlen (ob_payload o) < 2 ^ 27 →
  Forall is_byte (enc_obu o ++ rest) ∧ zlen (enc_obu o ++ rest) ≤ INT_MAX →
  av1_header_loop (S fuel) (enc_obu o ++ rest) 0 sp [] meta =
    av1_header_loop fuel rest 1 (header_params h) (enc_obu o) meta.
Proof.
  intros Ho Ht Hok Hpay Hl Hb. pose proof (rtmp_obu_spec o _ Ho (proj1 Hb) (proj2 Hb)) as P.
  destruct (enc_obu_split o rest Ho) as (Et & Ed & Ep & b & l & Eb).
  cbn [av1_header_loop]. rewrite Eb. rewrite <- Eb.
  rewrite (proj2 (Z.ltb_ge _ _)), P by tauto. cbn [mbind option_bind].
  rewrite Ht, Et, Ed, Ep. cbn [Z.eqb AV1_OBU_SEQUENCE_HEADER Pos.eqb].
  rewrite (proj2 (Z.eqb_neq _ _)).
  - change (1 <? 0 + 1) with false. cbn [orb].
    rewrite (parse_sequence_spec h) by (try apply (bytes_suffix (enc_obu o)); done). done.
  - intros E. destruct Hpay as (_ & k & Eq). destruct (ob_payload o); [|len_lia].
    by destruct (header_bits h).
Qed.

(** ** The configuration record *)

(** A reader of the record: profile, level, tier, high bit depth, twelve bits, monochrome,
    subsampling and chroma position, then the OBUs. *)
Definition read_av1C (r : bytes) : option (Z * Z * Z * bool * bool * bool * bool * bool * Z * bytes) :=
  match r with
  | b0 :: b1 :: b2 :: b3 :: obus =>
      if (b0 =? 129) && (b3 =? 0) then
        Some (Z.shiftr b1 5, Z.land b1 31, Z.shiftr b2 7, Z.testbit b2 6, Z.testbit b2 5, Z.testbit b2 4,
              Z.testbit b2 3, Z.testbit b2 2, Z.land b2 3, obus)
      else None
  | _ => None
  end.

Lemma record_byte1 p l : 0 ≤ p < 8 → 0 ≤ l < 32 → let b := u8 (Z.lor (Z.shiftl p 5) l) in
  Z.shiftr b 5 = p ∧ Z.land b 31 = l.
Proof.
  intros Hp Hl.
  assert (forallb (λ p, forallb (λ l, let b := u8 (Z.lor (Z.shiftl p 5) l) in
    (Z.shiftr b 5 =? p) && (Z.land b 31 =? l)) (seqZ 0 32)) (seqZ 0 8) = true) as F by (vm_compute; reflexivity).
  rewrite forallb_forall in F. specialize (F p). rewrite <- list_elem_of_In, elem_of_seqZ in F.
  specialize (F ltac:(lia)). rewrite forallb_forall in F. specialize (F l).
  rewrite <- list_elem_of_In, elem_of_seqZ in F. specialize (F ltac:(lia)). cbv zeta in *. lia.
Qed.

Lemma record_byte2 t hb tb m x y pos :
  0 ≤ t < 2 → 0 ≤ m < 2 → 0 ≤ x < 2 → 0 ≤ y < 2 → 0 ≤ pos < 4 →
  let b := u8 (Z.lor (Z.lor (Z.lor (Z.lor (Z.lor (Z.lor (Z.shiftl t 7) (Z.shiftl (Z.b2z hb) 6))
    (Z.shiftl (Z.b2z tb) 5)) (Z.shiftl m 4)) (Z.shiftl x 3)) (Z.shiftl y 2)) pos) in
  Z.shiftr b 7 = t ∧ Z.testbit b 6 = hb ∧ Z.testbit b 5 = tb ∧ Z.testbit b 4 = (m =? 1) ∧
  Z.testbit b 3 = (x =? 1) ∧ Z.testbit b 2 = (y =? 1) ∧ Z.land b 3 = pos.
Proof.
  intros Ht Hm Hx Hy Hp.
  assert (t = 0 ∨ t = 1) as [->| ->] by lia; assert (m = 0 ∨ m = 1) as [->| ->] by lia;
    assert (x = 0 ∨ x = 1) as [->| ->] by lia; assert (y = 0 ∨ y = 1) as [->| ->] by lia;
    assert (pos = 0 ∨ pos = 1 ∨ pos = 2 ∨ pos = 3) as [->|[->|[->| ->]]] by lia; destruct hb, tb; by vm_compute.
Qed.

Lemma header_params_ok h : header_ok h → let p := header_params h in
  0 ≤ sp_profile p < 8 ∧ 0 ≤ sp_level p < 32 ∧ 0 ≤ sp_tier p < 2 ∧ 0 ≤ sp_monochrome p < 2 ∧
  0 ≤ sp_chroma_subsampling_x p < 2 ∧ 0 ≤ sp_chroma_subsampling_y p < 2 ∧ 0 ≤ sp_chroma_sample_position p < 4.
Proof.
  intros (Hp & Hb & _ & _ & _ & _ & _ & _ & _ & Hc). cbv zeta.
  assert (∀ b, 0 ≤ Z.b2z b < 2) as Hbit by (by intros []).
  assert (∃ level tier, 0 ≤ level < 32 ∧ 0 ≤ tier < 2 ∧
    header_params h = color_params (sh_profile h) (sh_color h) level tier) as (level & tier & Hl & Ht & ->).
  { unfold header_params. destruct (sh_body h) as [level|f]; [exists level, 0; repeat split; lia|].
    destruct Hb as (_ & (_ & H2 & _) & _). unfold point_params.
    eexists _, _. split; [exact H2|]. split; [|reflexivity].
    destruct (7 <? pt_level (fh_first f)); [apply Hbit|lia]. }
  unfold color_params. destruct (cc_colors (sh_color h)) as [[a b] m].
  destruct (cc_sub (sh_profile h) (sh_color h)) as [[] []];
    destruct (cc_is_mono (sh_profile h) (sh_color h)), (cc_is_srgb (sh_color h)); cbn; repeat split; lia.
Qed.

Lemma read_record h obus : header_ok h → let p := header_params h in
  read_av1C (av1header p ++ obus) =
    Some (sp_profile p, sp_level p, sp_tier p, 8 <? sp_bitdepth p, sp_bitdepth p =? 12, sp_monochrome p =? 1,
          sp_chroma_subsampling_x p =? 1, sp_chroma_subsampling_y p =? 1, sp_chroma_sample_position p, obus).
Proof.
  intros Hok. destruct (header_params_ok h Hok) as (H1 & H2 & H3 & H4 & H5 & H6 & H7). cbv zeta in *.
  set (p := header_params h) in *. unfold av1header, read_av1C. cbn [app].
  destruct (record_byte1 _ _ H1 H2) as [-> ->].
  destruct (record_byte2 _ (8 <? sp_bitdepth p) (sp_bitdepth p =? 12) _ _ _ _ H3 H4 H5 H6 H7)
    as (-> & -> & -> & -> & -> & -> & ->). done.
Qed.

(** Extra data made of OBUs is not taken for a configuration record. *)
Lemma first_byte_low os : Forall obu_ok os → os ≠ [] → ∃ b, rd (enc_obus os) 0 = Some b ∧ Z.land b 128 = 0.
Proof.
  intros Hos Hne. destruct Hos as [|o os [Ht _] _]; [done|]. eexists. split; [reflexivity|].
  by destruct (obu_byte_bits _ Ht).
Qed.

Lemma last_metadata_len meta os : zlen (last_metadata meta os) ≤ zlen meta + zlen (enc_obus os).
Proof.
  revert meta; induction os as [|o os IH]; intros meta; [cbn; len_lia|].
  cbn [last_metadata foldl]. change (foldl _ ?m os) with (last_metadata m os).
  pose proof (IH (if is_metadata o then enc_obu o else meta)) as H. unfold enc_obus in *. cbn [map concat].
  destruct (is_metadata o); len_lia.
Qed.

Lemma header_emits sp seq meta : zlen seq + zlen meta ≤ 2 ^ 40 →
  (s_put (av1header sp) ;;; s_put seq ;;; s_put meta) array_output_serializer_init =
    Some (tt, mk_array_output (av1header sp ++ seq ++ meta) (zlen (av1header sp ++ seq ++ meta))).
Proof.
  intros Hl. apply emits_array; [|unfold av1header, MAX_POS; len_lia].
  eapply emits_seq; [apply emits_put|reflexivity|]. eapply emits_seq; [apply emits_put|reflexivity|apply emits_put].
Qed.

(** C37: The configuration record made from the extra data of an AV1 encoder (OBUs with
    exactly one sequence header, whatever its coded fields): four bytes from which a reader
    gets back the profile, level, tier, bit depth, monochrome, subsampling and chroma
    position coded in the sequence header, then that OBU, then the last metadata OBU. *)
Theorem av1_config_record pre o post h :
  Forall plain_obu pre → Forall plain_obu post →
  obu_ok o → ob_type o = AV1_OBU_SEQUENCE_HEADER → zlen (ob_payload o) < 2 ^ 27 →
  header_ok h → sequence_payload h (ob_payload o) →
  Forall is_byte (enc_obus (pre ++ o :: post)) → zlen (enc_obus (pre ++ o :: post)) ≤ INT_MAX →
  ∃ r, obs_parse_av1_header (enc_obus (pre ++ o :: post)) = Some r ∧
    let p := header_params h in
    read_av1C r =
      Some (sp_profile p, sp_level p, sp_tier p, 8 <? sp_bitdepth p, sp_bitdepth p =? 12, sp_monochrome p =? 1,
            sp_chroma_subsampling_x p =? 1, sp_chroma_subsampling_y p =? 1, sp_chroma_sample_position p,
            enc_obu o ++ from_option enc_obu [] (last (filter (λ o, is_metadata o = true) (pre ++ post)))).
Proof.
  intros Hpre Hpost Ho Ht Hl Hok Hpay Hb Hmax.
  set (data := enc_obus (pre ++ o :: post)) in *.
  assert (data = enc_obus pre ++ (enc_obu o ++ (enc_obus post ++ []))) as E.
  { unfold data, enc_obus. rewrite map_app, concat_app. cbn [map concat]. by rewrite app_nil_r. }
  assert (∃ k, length data = length pre + S (length post + k))%nat as [k Ek].
  { exists (length data - length pre - S (length post))%nat. pose proof (enc_obus_len (pre ++ o :: post)) as H.
    fold data in H. rewrite length_app in H. cbn in H. lia. }
  unfold obs_parse_av1_header.
  destruct (first_byte_low (pre ++ o :: post)) as (b & Er & Eb).
  { apply Forall_app. split; [|constructor; [done|]]; (eapply Forall_impl; [eassumption|]); by intros u [Hu _]. }
  { by destruct pre. }
  fold data in Er. rewrite Er. cbn [mbind option_bind]. rewrite Eb. cbn [Z.eqb negb].
  rewrite Ek, E. assert (Forall is_byte data ∧ zlen data ≤ INT_MAX) as Hd by done. rewrite E in Hd.
  rewrite (header_loop_plain pre) by done. apply bytes_suffix in Hd.
  rewrite (header_loop_seq _ o _ _ _ h) by done. apply bytes_suffix in Hd.
  rewrite (header_loop_plain post) by done.
  replace (av1_header_loop k [] _ _ _ _) with (Some (Some (header_params h, 1, enc_obu o,
    last_metadata (last_metadata [] pre) post))) by (by destruct k).
  cbn [mbind option_bind]. change (1 =? 0) with false. cbv iota.
  rewrite header_emits.
  - eexists. split; [reflexivity|]. cbn [ao_bytes]. rewrite read_record by done.
    rewrite <- last_metadata_filter. unfold last_metadata. by rewrite foldl_app.
  - pose proof (last_metadata_len [] pre). pose proof (last_metadata_len (last_metadata [] pre) post).
    unfold INT_MAX in *. rewrite E in Hmax. len_lia.
Qed.

(** ** Concrete streams *)

Definition ex_color : color_config := mk_color true false false (Some (9, 16, 9)) false false false 2 false.
Definition ex_full : full_header :=
  mk_full (Some (mk_timing 1 60 (Some [true]) (Some (9, 5, 3)))) true (mk_point 0 9 true (Some (3, 4, false)) (Some 7))
    [mk_point 1 4 false None None] (Some 21) 3 (Some (1, 6)) None (Some true).
Definition ex_seq_header : seq_header := mk_header 0 false (inr ex_full) 10 10 1919 1079 5 6 ex_color false.

Definition ex_seq_payload : bytes := pack_bits (header_bits ex_seq_header).
Definition ex_seq_obu : obu := mk_obu 1 ex_seq_payload.



Lemma ex_header_ok : header_ok ex_seq_header.
Proof.
  repeat split; cbn; try lia; try (intros; simplify_eq/=; repeat split; lia).
  constructor; [|constructor]. repeat split; cbn; try lia; intros; simplify_eq/=.
Qed.

Lemma av1_config_record_witness :
  ∃ r, obs_parse_av1_header (enc_obus ([mk_obu 2 []] ++ ex_seq_obu :: [mk_obu 5 [4; 1; 128]])) = Some r ∧
    let p := header_params ex_seq_header in
    read_av1C r =
      Some (sp_profile p, sp_level p, sp_tier p, 8 <? sp_bitdepth p, sp_bitdepth p =? 12, sp_monochrome p =? 1,
            sp_chroma_subsampling_x p =? 1, sp_chroma_subsampling_y p =? 1, sp_chroma_sample_position p,
            enc_obu ex_seq_obu ++
            from_option enc_obu [] (last (filter (λ o, is_metadata o = true) ([mk_obu 2 []] ++ [mk_obu 5 [4; 1; 128]])))).
Proof.
  apply (av1_config_record [mk_obu 2 []] ex_seq_obu [mk_obu 5 [4; 1; 128]] ex_seq_header).
  - constructor; [|constructor]. done.
  - constructor; [|constructor]. done.
  - done.
  - done.
  - done.
  - apply ex_header_ok.
  - split; [all_bytes|]. exists (7 - length (header_bits ex_seq_header) `mod` 8)%nat. vm_compute. reflexivity.
  - all_bytes.
  - by vm_compute.
Defined.
