(* ===== verification/RtmpAv1Packet.v ===== *)
(** * The packets queued for AV1: obs_parse_av1_packet of rtmp-av1.c

    Packets of OBUs in every form the syntax allows: with an extension or without, with a
    size field of any length (AV1, 5.3.1 and 4.10.5) or, as the last, without one. *)

From S2P Require Import Prelude Serializer Encoder Nal NalPacket Bitstream Bits Av1 RtmpAv1 Av1Syntax RtmpAv1Obu.

Local Open Scope Z_scope.
Local Open Scope serializer_scope.

(** ** OBUs *)

(** Bytes of seven bits each, the last one marked by its high bit being 0. *)
Fixpoint leb_ok (l : bytes) : Prop :=
  match l with
  | [] => False
  | [b] => 0 ≤ b < 128
  | b :: l => 128 ≤ b < 256 ∧ leb_ok l
  end.
Definition leb_value (l : bytes) : Z := foldr (λ b v, b mod 128 + 128 * v) 0 l.

Definition given {A} (o : option A) : bool := match o with Some _ => true | None => false end.

(** [un_ext] is the extension byte, [un_size] the size field. *)
Record obu_unit := mk_unit {
  un_type : Z; un_ext : option Z; un_reserved : bool; un_size : option bytes; un_payload : bytes
}.

Definition header_byte (u : obu_unit) : Z :=
  8 * un_type u + (if given (un_ext u) then 4 else 0) + (if given (un_size u) then 2 else 0) + Z.b2z (un_reserved u).
Definition unit_head (u : obu_unit) : bytes :=
  header_byte u :: match un_ext u with Some e => [e] | None => [] end ++ default [] (un_size u).
Definition enc_unit (u : obu_unit) : bytes := unit_head u ++ un_payload u.
Definition enc_units (us : list obu_unit) : bytes := concat (map enc_unit us).

(** The header is well formed. *)
Definition head_ok (u : obu_unit) : Prop :=
  0 ≤ un_type u < 16 ∧ (∀ e, un_ext u = Some e → is_byte e) ∧
  (∀ l, un_size u = Some l → leb_ok l ∧ (length l ≤ 8)%nat).

Definition is_frame (u : obu_unit) : bool := (un_type u =? AV1_OBU_FRAME) || (un_type u =? AV1_OBU_FRAME_HEADER).

(** The size field holds the size of the payload, and a frame is not empty. *)
Definition unit_ok (u : obu_unit) : Prop :=
  head_ok u ∧ (∀ l, un_size u = Some l → leb_value l = zlen (un_payload u)) ∧ (is_frame u = true → un_payload u ≠ []).

(** What a packet ends with: nothing, or a malformed OBU, whose forbidden bit is set or
    whose payload is cut off. *)
Definition packet_end (tail : bytes) : Prop :=
  tail = [] ∨ (∃ b l, tail = b :: l ∧ Z.testbit b 7 = true) ∨
  (∃ u l rest, head_ok u ∧ un_size u = Some l ∧ tail = unit_head u ++ rest ∧ zlen rest < leb_value l).

Fixpoint units_ok (us : list obu_unit) (tail : bytes) : Prop :=
  match us with
  | [] => packet_end tail
  | u :: us => unit_ok u ∧ (un_size u = None → us = [] ∧ tail = []) ∧ units_ok us tail
  end.

(** ** Their headers are parsed *)

Lemma leb_byte b : 0 ≤ b < 256 →
  Z.land b 127 = b `mod` 128 ∧ (Z.land b 128 = 0 ↔ b < 128).
Proof.
  intros Hb. split; [change 127 with (Z.ones 7); by rewrite Z.land_ones|].
  assert (forallb (λ b, eqb (Z.land b 128 =? 0) (b <? 128)) (seqZ 0 256) = true) as F by (vm_compute; reflexivity).
  rewrite forallb_forall in F. specialize (F b). rewrite <- list_elem_of_In, elem_of_seqZ in F.
  specialize (F ltac:(lia)). apply eqb_prop in F. lia.
Qed.

Lemma leb_bytes l : leb_ok l → Forall is_byte l.
Proof.
  induction l as [|b l IH]; [done|]. destruct l as [|c l]; cbn [leb_ok].
  - intros H. constructor; [unfold is_byte; lia|constructor].
  - intros [H1 H2]. constructor; [unfold is_byte; lia|by apply IH].
Qed.

Lemma leb_range l : 0 ≤ leb_value l < 128 ^ zlen l.
Proof.
  induction l as [|b l IH]; [done|]. rewrite zlen_cons, Z.pow_add_r by len_lia. cbn [leb_value foldr] in *.
  unfold leb_value in *. pose proof (Z.mod_pos_bound b 128 ltac:(lia)). change (128 ^ 1) with 128. lia.
Qed.

Lemma reads_leb l k i value : leb_ok l → (length l ≤ k)%nat → 0 ≤ i → 0 ≤ value < 2 ^ (7 * i) →
  reads (leb128_loop k i value) (all_bits l) (value + leb_value l * 2 ^ (7 * i)).
Proof.
  revert k i value. induction l as [|b l IH]; intros k i value Hok Hk Hi Hv; [done|].
  destruct k as [|k]; [cbn in Hk; lia|]. cbn [leb128_loop]. rewrite all_bits_cons.
  assert (is_byte b) as Hb by (pose proof (leb_bytes _ Hok) as Hf; by inversion Hf).
  destruct (leb_byte b Hb) as [H7 H8]. pose proof (Z.mod_pos_bound b 128 ltac:(lia)).
  change (leb_value (b :: l)) with (b `mod` 128 + 128 * leb_value l).
  assert (2 ^ (7 * (i + 1)) = 128 * 2 ^ (7 * i)) as Ep.
  { replace (7 * (i + 1)) with (7 + 7 * i) by lia. by rewrite Z.pow_add_r by lia. }
  destruct l as [|c l].
  - cbn [leb_ok] in Hok. rewrite app_nil_r. eapply reads_bind_nil; [by apply reads_byte|].
    rewrite (proj2 (Z.eqb_eq _ _) (proj2 H8 ltac:(lia))), H7, (Z.mul_comm i 7), lor_high by lia.
    change (leb_value []) with 0. rewrite Z.mul_0_r, Z.add_0_r. apply reads_ret.
  - destruct Hok as [Hlo Hok]. eapply reads_bind; [by apply reads_byte|].
    rewrite (proj2 (Z.eqb_neq _ _)) by (intros E; apply H8 in E; lia).
    rewrite H7, (Z.mul_comm i 7), lor_high by lia.
    replace (value + (b `mod` 128 + 128 * leb_value (c :: l)) * 2 ^ (7 * i)) with
      (value + b `mod` 128 * 2 ^ (7 * i) + leb_value (c :: l) * 2 ^ (7 * (i + 1))) by (rewrite Ep; lia).
    apply IH; [done|cbn in Hk |- *; lia|lia|rewrite Ep; nia].
Qed.

Lemma header_bits u : 0 ≤ un_type u < 16 → is_byte (header_byte u) ∧ Z.testbit (header_byte u) 7 = false ∧
  zbits 8 (header_byte u) =
    flag false ++ zbits 4 (un_type u) ++ flag (given (un_ext u)) ++ flag (given (un_size u)) ++
    flag (un_reserved u).
Proof.
  intros Ht. unfold header_byte. set (t := un_type u) in *.
  generalize (given (un_ext u)) as e, (given (un_size u)) as z, (un_reserved u) as r. clearbody t. intros e z r.
  assert (forallb (λ t, forallb (λ e, forallb (λ z, forallb (λ r,
    let b := 8 * t + (if (e : bool) then 4 else 0) + (if (z : bool) then 2 else 0) + Z.b2z r in
    (0 <=? b) && (b <? 256) && negb (Z.testbit b 7) &&
    bool_decide (zbits 8 b = flag false ++ zbits 4 t ++ flag e ++ flag z ++ flag r))
    [true; false]) [true; false]) [true; false]) (seqZ 0 16) = true) as F by (vm_compute; reflexivity).
  rewrite forallb_forall in F. specialize (F t). rewrite <- list_elem_of_In, elem_of_seqZ in F. specialize (F ltac:(lia)).
  rewrite forallb_forall in F. specialize (F e ltac:(destruct e; cbn; auto)).
  rewrite forallb_forall in F. specialize (F z ltac:(destruct z; cbn; auto)).
  rewrite forallb_forall in F. specialize (F r ltac:(destruct r; cbn; auto)). cbv zeta in F.
  rewrite !andb_true_iff, negb_true_iff, bool_decide_eq_true in F. destruct F as [[[H1 H2] H3] H4].
  split_and!; [unfold is_byte; lia|done|done].
Qed.

(** The extension. *)
Lemma reads_extension e : reads (get_bits 3 ;;; get_bits 2 ;;; skip_bits 3) (zbits 8 e) tt.
Proof.
  change (zbits 8 e) with
    ([Z.testbit e 7; Z.testbit e 6; Z.testbit e 5] ++ [Z.testbit e 4; Z.testbit e 3] ++
     [Z.testbit e 2; Z.testbit e 1; Z.testbit e 0]).
  eapply reads_bind; [exact (reads_list (G:=Av1GetBitContext) [_; _; _] ltac:(cbn; lia))|].
  eapply reads_bind; [exact (reads_list (G:=Av1GetBitContext) [_; _] ltac:(cbn; lia))|].
  by apply reads_skip_list; [cbn; lia|].
Qed.

(** The extension, when the header has one. *)
Definition extension_bits (e : option Z) : list bool := from_option (zbits 8) [] e.
Definition extension : W Av1GetBitContext unit := get_bits 3 ;;; get_bits 2 ;;; skip_bits 3.

Lemma sized_skip n : sized (skip_bits n).
Proof. apply sized_bind; [apply sized_get_bits|]. intros. apply sized_ret. Qed.

Lemma reads_extension_given (e : option Z) : reads (when negb (Z.b2z (given e) =? 0) do extension) (extension_bits e) tt.
Proof. destruct e as [e|]; [apply reads_extension|apply reads_ret]. Qed.

Lemma sized_extension_given (e : option Z) : sized (when negb (Z.b2z (given e) =? 0) do extension).
Proof.
  destruct e as [e|]; [|apply sized_ret]. apply sized_bind; [apply sized_get_bits|]. intros _.
  apply sized_bind; [apply sized_get_bits|]. intros _. apply sized_skip.
Qed.

(** The size that the header gives, [n] when it gives none. *)
Definition size_or (n : Z) (u : obu_unit) : Z := from_option leb_value n (un_size u).
Definition size_bits (u : obu_unit) : list bool := all_bits (default [] (un_size u)).

Lemma reads_size n u : head_ok u →
  reads (if negb (Z.b2z (given (un_size u)) =? 0) then leb128 else ret n) (size_bits u) (size_or n u).
Proof.
  intros (_ & _ & Hs). unfold size_bits, size_or. destruct (un_size u) as [l|]; cbn; [|apply reads_ret].
  destruct (Hs l eq_refl) as [Hok Hl]. pose proof (reads_leb l 8 0 0 Hok Hl) as R.
  change (2 ^ (7 * 0)) with 1 in R. rewrite Z.add_0_l, Z.mul_1_r in R. apply R; lia.
Qed.

Lemma sized_size (c : bool) n : sized (if c then leb128 else ret n).
Proof. destruct c; [apply sized_leb128|apply sized_ret]. Qed.

Lemma size_or_range n u : head_ok u → 0 ≤ n < 2 ^ 56 → 0 ≤ size_or n u < 2 ^ 56.
Proof.
  intros (_ & _ & Hs) Hn. unfold size_or. destruct (un_size u) as [l|]; [|done]. cbn.
  destruct (Hs l eq_refl) as [_ Hl]. pose proof (leb_range l). change (2 ^ 56) with (128 ^ 8).
  pose proof (Z.pow_le_mono_r 128 (zlen l) 8 ltac:(lia)). unfold zlen in *. lia.
Qed.

Lemma unit_head_len u : head_ok u →
  zlen (unit_head u) = 1 + Z.b2z (given (un_ext u)) + zlen (default [] (un_size u)) ∧ zlen (unit_head u) ≤ 10.
Proof.
  intros (_ & _ & Hs).
  assert (zlen (default [] (un_size u)) ≤ 8) as H8.
  { destruct (un_size u) as [l|]; [|done]. destruct (Hs l eq_refl) as [_ Hl]. cbn. unfold zlen. lia. }
  unfold unit_head. rewrite zlen_cons, zlen_app. destruct (un_ext u); cbn [given Z.b2z]; len_lia.
Qed.

Lemma unit_head_bits u : head_ok u → all_bits (unit_head u) =
  flag false ++ zbits 4 (un_type u) ++ flag (given (un_ext u)) ++ flag (given (un_size u)) ++ flag (un_reserved u) ++
  extension_bits (un_ext u) ++ size_bits u.
Proof.
  intros [Ht _]. destruct (header_bits u Ht) as (_ & _ & E). unfold unit_head. rewrite all_bits_cons, E, all_bits_app, <- !app_assoc.
  destruct (un_ext u) as [e|]; [|done]. by rewrite all_bits_cons, app_nil_r.
Qed.

(** The bits that the reader has ahead are those of the header and some more. *)
Lemma unit_window u rest : head_ok u → let n := Z.min (zlen (unit_head u ++ rest)) 10 in
  ∃ tail, take (Z.to_nat (n * 8)) (all_bits (unit_head u ++ rest)) = all_bits (unit_head u) ++ tail ∧
    zlen tail = n * 8 - zlen (unit_head u) * 8.
Proof.
  intros Hu n. pose proof (unit_head_len u Hu) as [_ Hh]. pose proof (zlen_nonneg rest).
  assert (zlen (unit_head u) ≤ n) as Hn by (subst n; len_lia).
  eexists. rewrite all_bits_app, take_app, (take_ge (all_bits (unit_head u))); [split; [reflexivity|]|].
  - subst n. unfold zlen in *. rewrite length_take, !all_bits_length, length_app in *. lia.
  - rewrite all_bits_length. unfold zlen in *. lia.
Qed.

(** A header is parsed as it was written, and an OBU refused whose payload is cut off. *)
Lemma parse_unit_head u rest : head_ok u → Forall is_byte (unit_head u ++ rest) → zlen (unit_head u ++ rest) ≤ INT_MAX →
  parse_obu_header (unit_head u ++ rest) (zlen (unit_head u ++ rest)) =
    let size := size_or (zlen rest) u in
    Some (if zlen rest <? size then None else Some (size + zlen (unit_head u), size, zlen (unit_head u), un_type u)).
Proof.
  intros Hu Hb Hl. pose proof (unit_head_len u Hu) as [Hh H10]. pose proof (zlen_nonneg rest) as Hr.
  pose proof (unit_head_bits u Hu) as Ebits. pose proof (zlen_nonneg (default [] (un_size u))) as Hd.
  destruct (unit_window u rest Hu) as (tail & Ew & Et). cbv zeta in *.
  set (data := unit_head u ++ rest) in *. assert (zlen data = zlen (unit_head u) + zlen rest) as Elen by apply zlen_app.
  assert (0 ≤ Z.b2z (given (un_ext u)) ≤ 1) as Hx by (by destruct (given _)).
  destruct (init_bytes_ahead data (Z.min (zlen data) 10)) as [Ei Hg]; [done|lia|lia|].
  unfold parse_obu_header. change (2 + 8) with 10. rewrite Ei. change (0 <? 0) with false. cbv iota.
  rewrite Ew, Ebits in Hg. rewrite <- !app_assoc in Hg.
  step (reads_get1 false) (sized_get_bits 1).
  step (reads_get 4 (un_type u) ltac:(destruct Hu; lia) ltac:(destruct Hu; lia)) (sized_get_bits 4).
  step (reads_get1 (given (un_ext u))) (sized_get_bits 1).
  step (reads_get1 (given (un_size u))) (sized_get_bits 1).
  step (reads_skip1 (un_reserved u)) (sized_skip 1).
  step (reads_extension_given (un_ext u)) (sized_extension_given (un_ext u)).
  step (reads_size (zlen data - 1 - Z.b2z (given (un_ext u))) u Hu)
    (sized_size (negb (Z.b2z (given (un_size u)) =? 0)) (zlen data - 1 - Z.b2z (given (un_ext u)))).
  assert (size_or (zlen data - 1 - Z.b2z (given (un_ext u))) u = size_or (zlen rest) u) as ->.
  { unfold size_or. destruct (un_size u); [done|]. cbn in *. rewrite zlen_nil in *. lia. }
  rewrite (left_ahead _ _ Hg0), (ahead_count _ _ Hg0), Hs5, Hs4, Hs3, Hs2, Hs1, Hs0, Hs, Et by done.
  cbn [gb_size_in_bits]. rewrite (proj2 (Z.ltb_ge _ 0)) by len_lia.
  replace (Z.min _ 10 * 8 - _) with (zlen (unit_head u) * 8) by lia. rewrite Z.quot_mul by lia.
  unfold INT_MAX in *. pose proof (size_or_range (zlen rest) u Hu ltac:(lia)) as Hsz.
  rewrite !u64_small by lia.
  destruct (Z.ltb_spec (zlen rest) (size_or (zlen rest) u)); [by rewrite (proj2 (Z.ltb_lt _ _)) by lia|].
  rewrite !(proj2 (Z.ltb_ge _ _)) by lia. done.
Qed.

(** An OBU of the packet and what follows it. *)
Lemma parse_unit u rest : unit_ok u → (un_size u = None → rest = []) →
  Forall is_byte (enc_unit u ++ rest) ∧ zlen (enc_unit u ++ rest) ≤ INT_MAX →
  parse_obu_header (enc_unit u ++ rest) (zlen (enc_unit u ++ rest)) =
    Some (Some (zlen (enc_unit u), zlen (un_payload u), zlen (unit_head u), un_type u)).
Proof.
  intros (Hu & Hs & _) Hn [Hb Hl]. unfold enc_unit in *. rewrite <- app_assoc in *.
  rewrite parse_unit_head by done. cbv zeta.
  assert (size_or (zlen (un_payload u ++ rest)) u = zlen (un_payload u)) as ->.
  { unfold size_or. destruct (un_size u) as [l|] eqn:E; [by apply Hs|]. by rewrite (Hn eq_refl), app_nil_r. }
  rewrite (proj2 (Z.ltb_ge _ _)) by len_lia. by rewrite zlen_app, Z.add_comm.
Qed.

Lemma parse_end tail : packet_end tail → Forall is_byte tail ∧ zlen tail ≤ INT_MAX →
  tail = [] ∨ parse_obu_header tail (zlen tail) = Some None.
Proof.
  intros [->|[(b & l & -> & Hbit)|(u & l & rest & Hu & El & -> & Hc)]] [Hb Hl]; [by left|right..].
  - pose proof (zlen_nonneg l). assert (zlen (b :: l) = 1 + zlen l) as El by apply zlen_cons.
    destruct (init_bytes_ahead (b :: l) (Z.min (zlen (b :: l)) 10)) as [Ei Hg]; [done|lia|lia|].
    unfold parse_obu_header. change (2 + 8) with 10. rewrite Ei. change (0 <? 0) with false. cbv iota.
    assert (∃ tail, take (Z.to_nat (Z.min (zlen (b :: l)) 10 * 8)) (all_bits (b :: l)) = flag true ++ tail) as [tail Ew].
    { replace (Z.to_nat (Z.min (zlen (b :: l)) 10 * 8)) with
        (S (Z.to_nat (Z.min (zlen (b :: l)) 10 * 8 - 1))) by lia.
      eexists. rewrite all_bits_cons, (zbits_S 7). cbn [app take]. change (Z.of_nat 7) with 7. rewrite Hbit. reflexivity. }
    rewrite Ew in Hg. step (reads_get1 true) (sized_get_bits 1). done.
  - rewrite parse_unit_head by done. cbv zeta. unfold size_or. rewrite El. cbn [from_option].
    by rewrite (proj2 (Z.ltb_lt _ _)).
Qed.

(** ** The loop over the packet *)

Lemma enc_units_cons u us tail : enc_units (u :: us) ++ tail = enc_unit u ++ (enc_units us ++ tail).
Proof. unfold enc_units. cbn [map concat]. by rewrite app_assoc. Qed.

Lemma enc_unit_split u rest :
  take (Z.to_nat (zlen (enc_unit u))) (enc_unit u ++ rest) = enc_unit u ∧
  drop (Z.to_nat (zlen (enc_unit u))) (enc_unit u ++ rest) = rest ∧
  drop (Z.to_nat (zlen (unit_head u))) (enc_unit u ++ rest) = un_payload u ++ rest ∧
  ∃ b l, enc_unit u ++ rest = b :: l.
Proof.
  rewrite !zlen_to_nat, take_app_length, drop_app_length.
  split; [done|]. split; [done|]. split; [|by unfold enc_unit, unit_head; cbn; eauto].
  unfold enc_unit. by rewrite <- app_assoc, drop_app_length.
Qed.

Lemma enc_units_len us : (length us ≤ length (enc_units us))%nat.
Proof.
  induction us as [|u us IH]; [done|]. pose proof (enc_units_cons u us []) as E. rewrite !app_nil_r in E. rewrite E, length_app.
  enough (1 ≤ length (enc_unit u))%nat by (cbn [length]; lia). unfold enc_unit, unit_head. cbn. lia.
Qed.

Definition is_kept (u : obu_unit) : bool := negb (is_dropped_obu (un_type u)).

(** The keyframe flag and the priority after a frame whose payload starts with [b]:
    [show_existing_frame], the frame type in two bits and [show_frame]. *)
Definition frame_flags (st : bool * Z) (b : Z) : bool * Z :=
  if negb (st.2 =? 0) || Z.testbit b 7 then st else
  match Z.testbit b 6, Z.testbit b 5 with
  | false, false => (true, 3)                                  (* key frame *)
  | false, true => (st.1, if Z.testbit b 4 then 1 else 2)      (* inter frame *)
  | true, false => (st.1, 3)                                   (* intra-only frame *)
  | true, true => (st.1, 2)                                    (* switch frame *)
  end.

Definition obu_flags (st : bool * Z) (u : obu_unit) : bool * Z :=
  if is_frame u then from_option (frame_flags st) st (head (un_payload u)) else st.

Lemma reads_bit_step b : reads get_bit1 (flag b) (Z.b2z b).
Proof. intros g rest Hg. apply get_bit1_ahead. exact Hg. Qed.

Lemma compute_priority_spec b l key prio : Forall is_byte (b :: l) →
  compute_av1_keyframe_priority (b :: l) key prio = Some (frame_flags (key, prio) b).
Proof.
  intros Hb. unfold compute_av1_keyframe_priority, frame_flags. cbn [fst snd].
  destruct (prio =? 0); cbn [negb orb]; [|done].
  destruct (init_bytes_ahead (b :: l) 1 Hb) as [Ei Hg]; [len_lia|lia|]. rewrite Ei. cbn [snd].
  replace (take (Z.to_nat (1 * 8)) (all_bits (b :: l))) with
    (flag (Z.testbit b 7) ++ [Z.testbit b 6; Z.testbit b 5] ++ flag (Z.testbit b 4) ++
     [Z.testbit b 3; Z.testbit b 2; Z.testbit b 1; Z.testbit b 0]) in Hg by reflexivity.
  destruct (reads_bit_step _ _ _ Hg) as (g1 & E1 & H1). unfold bind at 1. rewrite E1.
  destruct (Z.testbit b 7); [done|]. cbn [Z.b2z Z.eqb negb].
  pose proof (reads_get 2 (bits_val [Z.testbit b 6; Z.testbit b 5]) ltac:(lia) (bits_val_range _)) as R.
  destruct (reads_eq _ _ _ _ R (zbits_bits_val [_; _]) g1 _ H1) as (g2 & E2 & H2). unfold bind at 1. rewrite E2.
  destruct (reads_bit_step _ _ _ H2) as (g3 & E3 & H3). unfold bind at 1. rewrite E3.
  destruct (Z.testbit b 6), (Z.testbit b 5), (Z.testbit b 4); reflexivity.
Qed.

Lemma dropped_no_frame u : is_dropped_obu (un_type u) = true → is_frame u = false.
Proof.
  unfold is_dropped_obu, is_frame. intros H. apply orb_true_iff in H as [H|H]; [apply orb_true_iff in H as [H|H]|];
    by apply Z.eqb_eq in H as ->.
Qed.

(** The keyframe flag and the priority are taken from the first byte of a frame. *)
Lemma emits_frame_flags {S} `{AppendSerializer S} u rest p st :
  unit_ok u → Forall is_byte (un_payload u ++ rest) →
  emits p (if (un_type u =? AV1_OBU_FRAME) || (un_type u =? AV1_OBU_FRAME_HEADER)
           then deref (compute_av1_keyframe_priority (un_payload u ++ rest) st.1 st.2) else ret st) [] (obu_flags st u).
Proof.
  intros (_ & _ & Hf) Hb. unfold obu_flags. fold (is_frame u). destruct (is_frame u); [|apply emits_ret].
  destruct (un_payload u) as [|b l] eqn:Epay; [by destruct (Hf eq_refl)|]. cbn [from_option head].
  apply emits_deref. change ((b :: l) ++ rest) with (b :: (l ++ rest)).
  rewrite compute_priority_spec; [by destruct st|]. exact Hb.
Qed.

Lemma emits_serialize_loop {S} `{AppendSerializer S} us tail : units_ok us tail → ∀ p fuel st,
  Forall is_byte (enc_units us ++ tail) ∧ zlen (enc_units us ++ tail) ≤ INT_MAX → (length us + length tail ≤ fuel)%nat →
  emits p (serialize_av1_loop fuel (enc_units us ++ tail) st)
    (enc_units (filter (λ u, is_kept u = true) us)) (foldl obu_flags st us).
Proof.
  induction us as [|u us IH]; intros Hok p fuel st Hb Hfuel.
  - change (enc_units [] ++ tail) with tail in *. destruct (parse_end tail Hok Hb) as [->|Et].
    + destruct fuel; apply emits_ret.
    + destruct tail as [|b tail]; [destruct fuel; apply emits_ret|].
      destruct fuel as [|fuel]; [cbn in Hfuel; lia|].
      cbn [serialize_av1_loop]. rewrite (proj2 (Z.ltb_ge _ _)), Et by tauto.
      eapply emits_eq; [eapply emits_seq; [by apply emits_deref|reflexivity|apply emits_ret]|]. by rewrite app_nil_r.
  - destruct fuel as [|fuel]; [cbn in Hfuel; lia|]. destruct Hok as (Hu & Hn & Hus).
    rewrite enc_units_cons in *.
    assert (un_size u = None → enc_units us ++ tail = []) as Hn' by (intros E; by destruct (Hn E) as [-> ->]).
    pose proof (parse_unit u _ Hu Hn' Hb) as P. pose proof (bytes_suffix _ _ Hb) as Hb'.
    assert (Forall is_byte (un_payload u ++ (enc_units us ++ tail))) as Hp.
    { destruct Hb as [Hb _]. unfold enc_unit in Hb. rewrite <- app_assoc in Hb. by apply Forall_app in Hb as [_ Hb]. }
    destruct (enc_unit_split u (enc_units us ++ tail)) as (Et & Ed & Ep & b & l & Eb).
    cbn [serialize_av1_loop]. rewrite Eb. rewrite <- Eb. rewrite (proj2 (Z.ltb_ge _ _)), P by tauto.
    eapply emits_eq; [eapply emits_seq; [by apply emits_deref|reflexivity|]|reflexivity].
    cbv beta iota. rewrite Et, Ed, Ep, filter_cons. cbn [foldl].
    assert (is_dropped_obu (un_type u) = negb (is_kept u)) as Edrop by (unfold is_kept; by rewrite negb_involutive).
    rewrite Edrop. destruct (is_kept u) eqn:Ek; cbn [negb] in *; case_decide; try congruence.
    2: { replace (obu_flags st u) with st; [apply IH; [done..|cbn in Hfuel; lia]|].
      unfold obu_flags. by rewrite (dropped_no_frame u Edrop). }
    eapply (emits_seq _ _ [] (enc_unit u ++ enc_units (filter (λ u, is_kept u = true) us)) _ _ (obu_flags st u));
      [by apply emits_frame_flags|reflexivity|].
    cbv beta. eapply emits_seq; [apply emits_put|reflexivity|]. apply IH; [done..|cbn in Hfuel; lia].
Qed.

(** A packet that has a priority keeps its flags. *)
Lemma flags_kept st us : st.2 ≠ 0 → foldl obu_flags st us = st.
Proof.
  intros Hp. induction us as [|u us IH]; [done|]. cbn [foldl]. replace (obu_flags st u) with st; [done|].
  unfold obu_flags. destruct (is_frame u), (un_payload u); cbn; [done| |done..].
  unfold frame_flags. by rewrite (proj2 (Z.eqb_neq _ _)).
Qed.

(** The first byte of each frame. *)
Definition frame_bytes (us : list obu_unit) : list Z :=
  omap (λ u, if is_frame u then head (un_payload u) else None) us.

Lemma flags_first st us :
  foldl obu_flags st us =
    from_option (frame_flags st) st (head (filter (λ b, Z.testbit b 7 = false) (frame_bytes us))).
Proof.
  destruct (decide (st.2 = 0)) as [Hp|Hp].
  2: { rewrite flags_kept by done. destruct (head _) as [b|]; [|done]. cbn. unfold frame_flags.
       by rewrite (proj2 (Z.eqb_neq _ _)). }
  induction us as [|u us IH]; [done|]. cbn [foldl frame_bytes omap list_omap]. unfold obu_flags at 2.
  destruct (is_frame u); [|exact IH]. destruct (un_payload u) as [|b l]; [exact IH|]. cbn [head from_option].
  rewrite filter_cons. case_decide as Hb; cbn [head from_option].
  - apply flags_kept. unfold frame_flags. rewrite Hp, Hb. cbn [Z.eqb negb orb].
    destruct (Z.testbit b 6), (Z.testbit b 5), (Z.testbit b 4); done.
  - replace (frame_flags st b) with st; [exact IH|]. unfold frame_flags.
    apply not_false_is_true in Hb. by rewrite Hb, orb_true_r.
Qed.

(** C39: The packet queued for an AV1 stream: exactly the OBUs of the encoder's packet but
    the temporal delimiters, redundant frame headers and tile lists, byte for byte and in
    order, up to the end of the packet or an OBU whose forbidden bit is set or whose
    payload is cut off. The OBUs are any that the syntax allows, with or without an
    extension, their size fields of any length, the last OBU with or without one; an OBU of
    a frame is not empty. (An empty frame at the end, or a header cut off by the end of the
    packet, is read past: [av1_empty_frame_overread], [av1_truncated_header_overread].)
    A packet without a priority gets the keyframe flag and the priority of the first frame
    that is not a repeat; one with a priority keeps both. *)
Theorem av1_packet_obus src us tail :
  pkt_data src = enc_units us ++ tail → units_ok us tail →
  Forall is_byte (pkt_data src) → zlen (pkt_data src) ≤ INT_MAX →
  ∃ p, obs_parse_av1_packet src = Some p ∧
    pkt_data p = enc_units (filter (λ u, is_kept u = true) us) ∧
    (pkt_keyframe p, pkt_priority p) =
      from_option (frame_flags (pkt_keyframe src, pkt_priority src)) (pkt_keyframe src, pkt_priority src)
        (head (filter (λ b, Z.testbit b 7 = false) (frame_bytes us))) ∧
    pkt_drop_priority p = pkt_priority p.
Proof.
  intros Ed Hus Hb Hl. unfold obs_parse_av1_packet, serialize_av1_data. rewrite Ed in *.
  set (st := (pkt_keyframe src, pkt_priority src)). set (data := enc_units us ++ tail) in *.
  rewrite (emits_array _ (ref_one ++ enc_units (filter (λ u, is_kept u = true) us)) (foldl obu_flags st us)).
  - cbn [mbind option_bind]. destruct (foldl obu_flags st us) as [key prio] eqn:E. rewrite flags_first in E.
    eexists. split; [reflexivity|]. cbn [pkt_data pkt_set_nal pkt_keyframe pkt_priority pkt_drop_priority ao_bytes].
    rewrite drop_app_length. split; [done|]. by rewrite E.
  - eapply emits_seq; [apply emits_put|reflexivity|]. apply emits_serialize_loop; [done..|].
    unfold data. rewrite length_app. pose proof (enc_units_len us). lia.
  - rewrite zlen_app. change (zlen ref_one) with 8. unfold MAX_POS, INT_MAX in *.
    assert (zlen (enc_units (filter (λ u, is_kept u = true) us)) ≤ zlen (enc_units us)); [|unfold data in *; len_lia].
    clear. induction us as [|u us IH]; [done|]. rewrite filter_cons.
    case_decide; unfold enc_units in *; cbn [map concat]; len_lia.
Qed.

Ltac head_by_eval := split_and!; intros; simplify_eq/=; unfold is_byte; split_and?; done || lia.
Ltac unit_by_eval := split; [head_by_eval|split; intros; simplify_eq/=; done].

(** A temporal delimiter, a repeated frame, an inter frame with an extension and a size
    field longer than needed, a tile list, and a frame whose payload is cut off. *)
Definition ex_units : list obu_unit :=
  [mk_unit 2 None false (Some [0]) []; mk_unit 3 None true (Some [1]) [128];
   mk_unit 6 (Some 40) false (Some [130; 0]) [48; 1]; mk_unit 8 None false (Some [1]) [5]].
Definition ex_cut : bytes := [50; 9; 16; 1].
Definition ex_av1_src : encoder_packet :=
  mk_packet (enc_units ex_units ++ ex_cut) 0 0 1 30 OBS_ENCODER_VIDEO false 0 0 0 0 0 0.

Lemma av1_packet_obus_witness :
  ∃ p, obs_parse_av1_packet ex_av1_src = Some p ∧
    pkt_data p = enc_units (filter (λ u, is_kept u = true) ex_units) ∧
    (pkt_keyframe p, pkt_priority p) =
      from_option (frame_flags (pkt_keyframe ex_av1_src, pkt_priority ex_av1_src))
        (pkt_keyframe ex_av1_src, pkt_priority ex_av1_src)
        (head (filter (λ b, Z.testbit b 7 = false) (frame_bytes ex_units))) ∧
    pkt_drop_priority p = pkt_priority p.
Proof.
  apply (av1_packet_obus ex_av1_src ex_units ex_cut).
  - reflexivity.
  - cbn [units_ok ex_units]. split_and!; [unit_by_eval|done|unit_by_eval|done|unit_by_eval|done|unit_by_eval|done|].
    right. right. exists (mk_unit 6 None false (Some [9]) []), [9], [16; 1].
    split_and!; [head_by_eval|done..].
  - all_bytes.
  - by vm_compute.
Defined.

(** A frame without payload at the end of a packet: the byte after the packet is read. *)
Lemma av1_empty_frame_overread :
  obs_parse_av1_packet (mk_packet (enc_units [mk_unit 6 None false (Some [0]) []]) 0 0 1 30 OBS_ENCODER_VIDEO false 0 0 0 0 0 0) = None.
Proof. reflexivity. Qed.

(** A header cut off by the end of the packet: the size field is read past it. *)
Lemma av1_truncated_header_overread : parse_obu_header [18] 1 = None.
Proof. reflexivity. Qed.
