(* ===== verification/RtmpHevc.v ===== *)
(** * HEVC configuration records: plugins/obs-outputs/rtmp-hevc.c

    The record built from the parameter sets in the extra data of an encoder. [None] is
    undefined behaviour (a read outside a buffer, a shift by the width of its operand);
    a negative result of a C function is an inner [None]. *)

From S2P Require Import Prelude Serializer Nal NalPacket Bitstream Bits Avc Hevc.

Local Open Scope Z_scope.
Local Open Scope serializer_scope.

(** ** The bit reader *)

(** [HevcGetBitContext]: the memory from [buffer] on, the 64-bit cache whose topmost
    [bits_left] bits are the next ones, and [index], the position of the bits after them. *)
Record HevcGetBitContext := mk_hgb {
  hb_buffer : bytes; hb_cache : Z; hb_bits_left : Z; hb_index : Z; hb_size_in_bits : Z
}.

(** The shift into the sign bit of an [int] wraps around. *)
Definition rb32 (m : bytes) (ptr : Z) : option Z :=
  b0 ← rd m ptr; b1 ← rd m (ptr + 1); b2 ← rd m (ptr + 2); b3 ← rd m (ptr + 3);
  Some (u32 (Z.shiftl b0 24 + Z.shiftl b1 16 + Z.shiftl b2 8 + b3)).

Definition refill_32 : W HevcGetBitContext unit := λ s,
  w ← rb32 (hb_buffer s) (Z.shiftr (hb_index s) 3);
  if 32 <? hb_bits_left s then None else
  Some (tt, mk_hgb (hb_buffer s) (Z.lor (hb_cache s) (u64 (Z.shiftl w (32 - hb_bits_left s))))
              (hb_bits_left s + 32) (hb_index s + 32) (hb_size_in_bits s)).

Definition get_val (n : Z) : W HevcGetBitContext Z := λ s,
  if (n <? 1) || (63 <? n) then None else
  Some (Z.shiftr (hb_cache s) (64 - n),
        mk_hgb (hb_buffer s) (u64 (Z.shiftl (hb_cache s) n)) (u32 (hb_bits_left s - n)) (hb_index s) (hb_size_in_bits s)).

(** A null buffer has no memory behind it: filling the cache reads through it. *)
Definition init_get_bits_xe (buffer : bytes) (bit_size : Z) : option (Z * HevcGetBitContext) :=
  let '(r, buffer, bit_size) :=
    if (INT_MAX - 64 * 8 <=? bit_size) || (bit_size <? 0) then (-1, [], 0) else (0, buffer, bit_size) in
  '(_, s) ← refill_32 (mk_hgb buffer 0 0 0 bit_size);
  Some (r, s).

Definition init_get_bits := init_get_bits_xe.

Definition init_get_bits8 (buffer : bytes) (byte_size : Z) : option (Z * HevcGetBitContext) :=
  let byte_size := if (INT_MAX / 8 <? byte_size) || (byte_size <? 0) then -1 else byte_size in
  init_get_bits buffer (byte_size * 8).

Definition refill_for (n : Z) : W HevcGetBitContext unit := λ s,
  (if hb_bits_left s <? n then refill_32 else ret tt) s.

Definition get_bits (n : Z) : W HevcGetBitContext Z :=
  refill_for n ;;; tmp <- get_val n ;; ret (u32 tmp).

Definition skip_bits (n : Z) : W HevcGetBitContext unit := get_bits n ;;; ret tt.

(** A flag. *)
Definition get_flag : W HevcGetBitContext bool := b <- get_bits 1 ;; ret (negb (b =? 0)).

Definition get_bits_count (s : HevcGetBitContext) : Z := i32 (hb_index s - hb_bits_left s).
Definition get_bits_left (s : HevcGetBitContext) : Z := hb_size_in_bits s - get_bits_count s.

Definition get_bits_long (n : Z) : W HevcGetBitContext Z := if n =? 0 then ret 0 else get_bits n.
Definition skip_bits_long (n : Z) : W HevcGetBitContext unit := get_bits_long n ;;; ret tt.

Definition get_bits64 (n : Z) : W HevcGetBitContext Z :=
  if n <=? 32 then get_bits_long n
  else high <- get_bits_long (n - 32) ;; low <- get_bits_long 32 ;; ret (Z.lor (u64 (Z.shiftl high 32)) low).

(** [__builtin_clz] (utils.h) of a nonzero number. *)
Definition clz32 (v : Z) : Z := 31 - Z.log2 v.
Definition ilog2 (x : Z) : Z := 31 - clz32 (Z.lor x 1).

(** The lowest bits of the cache, not the next ones; only used for [n] up to 25. *)
Definition show_val (s : HevcGetBitContext) (n : Z) : Z := u32 (Z.land (hb_cache s) (Z.shiftl 1 n - 1)).
Definition show_bits (n : Z) : W HevcGetBitContext Z := refill_for n ;;; λ s, Some (show_val s n, s).

Definition show_bits_long (n : Z) : W HevcGetBitContext Z :=
  if n <=? 25 then show_bits n else λ s, '(v, _) ← get_bits_long n s; Some (v, s).

Definition get_ue_golomb_long : W HevcGetBitContext Z :=
  buf <- show_bits_long 32 ;;
  let log := 31 - ilog2 buf in
  skip_bits_long log ;;;
  v <- get_bits_long (log + 1) ;;
  ret (u32 (v - 1)).

Definition get_se_golomb_long : W HevcGetBitContext Z :=
  buf <- get_ue_golomb_long ;;
  let sign := Z.land buf 1 - 1 in
  ret (i32 (Z.lxor (Z.shiftr buf 1) sign + 1)).

Definition skip_ue : W HevcGetBitContext unit := get_ue_golomb_long ;;; ret tt.
Definition skip_se : W HevcGetBitContext unit := get_se_golomb_long ;;; ret tt.

(** [n] iterations of a loop whose body only reads. *)
Fixpoint repeat_m {S} (n : nat) (m : W S unit) : W S unit :=
  match n with O => ret tt | Datatypes.S n => m ;;; repeat_m n m end.

(** ** The record *)

Record HVCCNALUnitArray := mk_hvcc_array {
  array_completeness : Z; NAL_unit_type : Z; numNalus : Z; nalUnitData : array_output_data
}.

Record HEVCDecoderConfigurationRecord := mk_hvcc {
  general_profile_space : Z;
  general_tier_flag : Z;
  general_profile_idc : Z;
  general_profile_compatibility_flags : Z;
  general_constraint_indicator_flags : Z;
  general_level_idc : Z;
  min_spatial_segmentation_idc : Z;
  parallelismType : Z;
  chromaFormat : Z;
  bitDepthLumaMinus8 : Z;
  bitDepthChromaMinus8 : Z;
  avgFrameRate : Z;
  constantFrameRate : Z;
  numTemporalLayers : Z;
  temporalIdNested : Z;
  lengthSizeMinusOne : Z;
  numOfArrays : Z;
  arrays : list HVCCNALUnitArray
}.

Record HVCCProfileTierLevel := mk_ptl {
  profile_space : Z; tier_flag : Z; profile_idc : Z; profile_compatibility_flags : Z;
  constraint_indicator_flags : Z; level_idc : Z
}.

Definition OBS_NB_ARRAYS : nat := 5.
Definition OBS_HEVC_MAX_VPS_COUNT : Z := 16.
Definition OBS_HEVC_MAX_SPS_COUNT : Z := 16.
Definition OBS_HEVC_MAX_PPS_COUNT : Z := 64.

(** [HVCC init]. *)
Definition hvcc_init : HEVCDecoderConfigurationRecord :=
  mk_hvcc 0 0 0 (2 ^ 32 - 1) (2 ^ 48 - 1) 0 (4096 + 1) 0 0 0 0 0 0 0 0 3 0
    (replicate OBS_NB_ARRAYS (mk_hvcc_array 0 0 0 array_output_serializer_init)).

Definition hvcc_update_ptl (h : HEVCDecoderConfigurationRecord) (p : HVCCProfileTierLevel) :
    HEVCDecoderConfigurationRecord :=
  mk_hvcc (profile_space p)
    (Z.max (general_tier_flag h) (tier_flag p))
    (Z.max (general_profile_idc h) (profile_idc p))
    (Z.land (general_profile_compatibility_flags h) (profile_compatibility_flags p))
    (Z.land (general_constraint_indicator_flags h) (constraint_indicator_flags p))
    (if general_tier_flag h <? tier_flag p then level_idc p else Z.max (general_level_idc h) (level_idc p))
    (min_spatial_segmentation_idc h) (parallelismType h) (chromaFormat h) (bitDepthLumaMinus8 h)
    (bitDepthChromaMinus8 h) (avgFrameRate h) (constantFrameRate h) (numTemporalLayers h)
    (temporalIdNested h) (lengthSizeMinusOne h) (numOfArrays h) (arrays h).

(** The fields of the record after the profile, tier and level. *)
Definition hvcc_set_layers (h : HEVCDecoderConfigurationRecord) (layers nested : Z) :=
  mk_hvcc (general_profile_space h) (general_tier_flag h) (general_profile_idc h)
    (general_profile_compatibility_flags h) (general_constraint_indicator_flags h) (general_level_idc h)
    (min_spatial_segmentation_idc h) (parallelismType h) (chromaFormat h) (bitDepthLumaMinus8 h)
    (bitDepthChromaMinus8 h) (avgFrameRate h) (constantFrameRate h) layers nested
    (lengthSizeMinusOne h) (numOfArrays h) (arrays h).

Definition hvcc_set_format (h : HEVCDecoderConfigurationRecord) (chroma luma_depth chroma_depth : Z) :=
  mk_hvcc (general_profile_space h) (general_tier_flag h) (general_profile_idc h)
    (general_profile_compatibility_flags h) (general_constraint_indicator_flags h) (general_level_idc h)
    (min_spatial_segmentation_idc h) (parallelismType h) chroma luma_depth chroma_depth
    (avgFrameRate h) (constantFrameRate h) (numTemporalLayers h) (temporalIdNested h)
    (lengthSizeMinusOne h) (numOfArrays h) (arrays h).

Definition hvcc_set_parallel (h : HEVCDecoderConfigurationRecord) (segmentation parallelism : Z) :=
  mk_hvcc (general_profile_space h) (general_tier_flag h) (general_profile_idc h)
    (general_profile_compatibility_flags h) (general_constraint_indicator_flags h) (general_level_idc h)
    segmentation parallelism (chromaFormat h) (bitDepthLumaMinus8 h) (bitDepthChromaMinus8 h)
    (avgFrameRate h) (constantFrameRate h) (numTemporalLayers h) (temporalIdNested h)
    (lengthSizeMinusOne h) (numOfArrays h) (arrays h).

Definition hvcc_set_arrays (h : HEVCDecoderConfigurationRecord) (n : Z) (l : list HVCCNALUnitArray) :=
  mk_hvcc (general_profile_space h) (general_tier_flag h) (general_profile_idc h)
    (general_profile_compatibility_flags h) (general_constraint_indicator_flags h) (general_level_idc h)
    (min_spatial_segmentation_idc h) (parallelismType h) (chromaFormat h) (bitDepthLumaMinus8 h)
    (bitDepthChromaMinus8 h) (avgFrameRate h) (constantFrameRate h) (numTemporalLayers h)
    (temporalIdNested h) (lengthSizeMinusOne h) n l.

(** ** Parameter sets *)

(** The NAL unit header is copied, emulation prevention is undone in the rest, and 64
    zero bytes follow: [(dst, dst_len)]. *)
Definition ff_nal_unit_extract_rbsp (src : bytes) (header_len : Z) : bytes * Z :=
  let dst := take (Z.to_nat header_len) src ++ extract_rbsp (drop (Z.to_nat header_len) src) in
  (dst ++ replicate 64 0, zlen dst).

Definition nal_unit_parse_header : W HevcGetBitContext Z :=
  skip_bits 1 ;;;
  nal_type <- get_bits 6 ;;
  skip_bits 9 ;;;
  ret nal_type.

(** The flags of the sub-layers: [(profile, level)] each. *)
Fixpoint sub_layer_flags (n : nat) : W HevcGetBitContext (list (bool * bool)) :=
  match n with
  | O => ret []
  | S n =>
      profile <- get_flag ;;
      level <- get_flag ;;
      l <- sub_layer_flags n ;;
      ret ((profile, level) :: l)
  end.

Definition skip_sub_layer (f : bool * bool) : W HevcGetBitContext unit :=
  when f.1 do (skip_bits_long 32 ;;; skip_bits_long 32 ;;; skip_bits 24) ;;;
  when f.2 do skip_bits 8.

Definition hvcc_parse_ptl (hvcc : HEVCDecoderConfigurationRecord) (max_sub_layers_minus1 : Z) :
    W HevcGetBitContext HEVCDecoderConfigurationRecord :=
  space <- get_bits 2 ;;
  tier <- get_bits 1 ;;
  idc <- get_bits 5 ;;
  compatibility <- get_bits_long 32 ;;
  constraints <- get_bits64 48 ;;
  level <- get_bits 8 ;;
  let hvcc := hvcc_update_ptl hvcc (mk_ptl space tier idc compatibility constraints level) in
  fl <- sub_layer_flags (Z.to_nat max_sub_layers_minus1) ;;
  when 0 <? max_sub_layers_minus1 do repeat_m (Z.to_nat (8 - max_sub_layers_minus1)) (skip_bits 2) ;;;
  for_each fl skip_sub_layer ;;;
  ret hvcc.

Definition hvcc_parse_vps (hvcc : HEVCDecoderConfigurationRecord) :
    W HevcGetBitContext HEVCDecoderConfigurationRecord :=
  skip_bits 12 ;;;
  vps_max_sub_layers_minus1 <- get_bits 3 ;;
  let hvcc := hvcc_set_layers hvcc (Z.max (numTemporalLayers hvcc) (u8 (vps_max_sub_layers_minus1 + 1)))
                (temporalIdNested hvcc) in
  skip_bits 17 ;;;
  hvcc_parse_ptl hvcc vps_max_sub_layers_minus1.

Definition HEVC_MAX_SHORT_TERM_REF_PIC_SETS : Z := 64.

(** One coefficient list of size index [i]. *)
Definition skip_scaling_list (i : Z) : W HevcGetBitContext unit :=
  present <- get_flag ;;
  if negb present then skip_ue
  else
    let num_coeffs := Z.min 64 (Z.shiftl 1 (4 + Z.shiftl i 1)) in
    when 1 <? i do skip_se ;;;
    repeat_m (Z.to_nat num_coeffs) skip_se.

Definition skip_scaling_list_data : W HevcGetBitContext unit :=
  for_each [0; 1; 2; 3] (λ i, repeat_m (if i =? 3 then 2 else 6) (skip_scaling_list i)).

(** The delta flags of a predicted set: the number of entries. *)
Fixpoint rps_delta_flags (n : nat) (num_delta_pocs : Z) : W HevcGetBitContext Z :=
  match n with
  | O => ret num_delta_pocs
  | S n =>
      used_by_curr_pic <- get_flag ;;
      use_delta <- (if negb used_by_curr_pic then get_flag else ret false) ;;
      rps_delta_flags n (if used_by_curr_pic || use_delta then u32 (num_delta_pocs + 1) else num_delta_pocs)
  end.

(** [num_delta_pocs] with the entry of the set [rps_idx] added. *)
Definition parse_rps (rps_idx num_rps : Z) (num_delta_pocs : list Z) :
    W HevcGetBitContext (option (list Z)) :=
  inter <- (if negb (rps_idx =? 0) then get_flag else ret false) ;;
  if (inter : bool) then
    if num_rps <=? rps_idx then ret None else
    skip_bits 1 ;;;
    skip_ue ;;;
    prev <- deref (rd num_delta_pocs (rps_idx - 1)) ;;
    n <- rps_delta_flags (S (Z.to_nat prev)) 0 ;;
    ret (Some (num_delta_pocs ++ [n]))
  else
    num_negative_pics <- get_ue_golomb_long ;;
    num_positive_pics <- get_ue_golomb_long ;;
    left <- (λ gb, Some (get_bits_left gb, gb)) ;;
    if u64 left <? u64 ((num_positive_pics + num_negative_pics) * 2) then ret None else
    repeat_m (Z.to_nat num_negative_pics) (skip_ue ;;; skip_bits 1) ;;;
    repeat_m (Z.to_nat num_positive_pics) (skip_ue ;;; skip_bits 1) ;;;
    ret (Some (num_delta_pocs ++ [u32 (num_negative_pics + num_positive_pics)])).

Fixpoint parse_rps_loop (n : nat) (i num_rps : Z) (num_delta_pocs : list Z) :
    W HevcGetBitContext (option (list Z)) :=
  match n with
  | O => ret (Some num_delta_pocs)
  | S n =>
      r <- parse_rps i num_rps num_delta_pocs ;;
      match r with
      | None => ret None
      | Some num_delta_pocs => parse_rps_loop n (i + 1) num_rps num_delta_pocs
      end
  end.

Definition skip_sub_layer_hrd_parameters (cpb_cnt_minus1 : Z) (sub_pic_hrd_params_present_flag : bool) :
    W HevcGetBitContext unit :=
  repeat_m (S (Z.to_nat cpb_cnt_minus1)) (
    skip_ue ;;;
    skip_ue ;;;
    when sub_pic_hrd_params_present_flag do (skip_ue ;;; skip_ue) ;;;
    skip_bits 1).

(** The common part of the HRD parameters: the NAL, VCL and sub-picture flags. *)
Definition parse_hrd_common (cprms_present_flag : bool) : W HevcGetBitContext (bool * bool * bool) :=
  if cprms_present_flag then
    nal <- get_flag ;;
    vcl <- get_flag ;;
    if (nal || vcl : bool) then
      sub_pic <- get_flag ;;
      when (sub_pic : bool) do skip_bits 19 ;;;
      skip_bits 8 ;;;
      when (sub_pic : bool) do skip_bits 4 ;;;
      skip_bits 15 ;;;
      ret (nal, vcl, sub_pic)
    else ret (nal, vcl, false)
  else ret (false, false, false).

(** The sub-layers; [false] is the result -1. *)
Fixpoint skip_hrd_layers (n : nat) (fl : bool * bool * bool) : W HevcGetBitContext bool :=
  match n with
  | O => ret true
  | S n =>
      fixed_general <- get_flag ;;
      fixed_within_cvs <- (if negb fixed_general then get_flag else ret false) ;;
      low_delay <- (if (fixed_within_cvs : bool) then skip_ue ;;; ret false else get_flag) ;;
      cpb_cnt_minus1 <- (if negb low_delay then get_ue_golomb_long else ret 0) ;;
      if 31 <? cpb_cnt_minus1 then ret false else
      when fl.1.1 do skip_sub_layer_hrd_parameters cpb_cnt_minus1 fl.2 ;;;
      when fl.1.2 do skip_sub_layer_hrd_parameters cpb_cnt_minus1 fl.2 ;;;
      skip_hrd_layers n fl
  end.

Definition skip_hrd_parameters (cprms_present_flag : bool) (max_sub_layers_minus1 : Z) : W HevcGetBitContext bool :=
  fl <- parse_hrd_common cprms_present_flag ;;
  skip_hrd_layers (S (Z.to_nat max_sub_layers_minus1)) fl.

(** A part of the syntax that is there when its flag is set. *)
Definition optional {S} (flag : W S bool) (m : W S unit) : W S unit :=
  present <- flag ;;
  when (present : bool) do m.

(** The result of the HRD parameters is not looked at. *)
Definition hvcc_parse_vui (hvcc : HEVCDecoderConfigurationRecord) (max_sub_layers_minus1 : Z) :
    W HevcGetBitContext HEVCDecoderConfigurationRecord :=
  optional get_flag (
    aspect_ratio_idc <- get_bits 8 ;;
    when aspect_ratio_idc =? 255 do skip_bits_long 32) ;;;
  optional get_flag (skip_bits 1) ;;;
  optional get_flag (skip_bits 4 ;;; optional get_flag (skip_bits 24)) ;;;
  optional get_flag (skip_ue ;;; skip_ue) ;;;
  skip_bits 3 ;;;
  optional get_flag (repeat_m 4 skip_ue) ;;;
  optional get_flag (
    skip_bits_long 32 ;;;
    skip_bits_long 32 ;;;
    optional get_flag skip_ue ;;;
    optional get_flag (skip_hrd_parameters true max_sub_layers_minus1 ;;; ret tt)) ;;;
  restriction <- get_flag ;;
  if (restriction : bool) then
    skip_bits 3 ;;;
    min_spatial <- get_ue_golomb_long ;;
    let hvcc := hvcc_set_parallel hvcc (Z.min (min_spatial_segmentation_idc hvcc) (u16 min_spatial))
                  (parallelismType hvcc) in
    repeat_m 4 skip_ue ;;;
    ret hvcc
  else ret hvcc.

(** The part of an SPS up to the bit depths: the record, [log2_max_pic_order_cnt_lsb_minus4]
    and [sps_max_sub_layers_minus1]. *)
Definition parse_sps_head (hvcc : HEVCDecoderConfigurationRecord) :
    W HevcGetBitContext (HEVCDecoderConfigurationRecord * Z * Z) :=
  skip_bits 4 ;;;
  sps_max_sub_layers_minus1 <- get_bits 3 ;;
  nested <- get_bits 1 ;;
  let hvcc := hvcc_set_layers hvcc (Z.max (numTemporalLayers hvcc) (u8 (sps_max_sub_layers_minus1 + 1))) nested in
  hvcc <- hvcc_parse_ptl hvcc sps_max_sub_layers_minus1 ;;
  skip_ue ;;;
  chroma <- get_ue_golomb_long ;;
  when u8 chroma =? 3 do skip_bits 1 ;;;
  skip_ue ;;;
  skip_ue ;;;
  optional get_flag (repeat_m 4 skip_ue) ;;;
  luma_depth <- get_ue_golomb_long ;;
  chroma_depth <- get_ue_golomb_long ;;
  log2_max_pic_order_cnt_lsb_minus4 <- get_ue_golomb_long ;;
  ret (hvcc_set_format hvcc (u8 chroma) (u8 luma_depth) (u8 chroma_depth),
       log2_max_pic_order_cnt_lsb_minus4, sps_max_sub_layers_minus1).

(** From the sub-layer ordering information to the PCM parameters. *)
Definition skip_sps_coding (sps_max_sub_layers_minus1 : Z) : W HevcGetBitContext unit :=
  all <- get_flag ;;
  repeat_m (if (all : bool) then S (Z.to_nat sps_max_sub_layers_minus1) else 1) (repeat_m 3 skip_ue) ;;;
  repeat_m 6 skip_ue ;;;
  optional get_flag (optional get_flag skip_scaling_list_data) ;;;
  skip_bits 1 ;;;
  skip_bits 1 ;;;
  optional get_flag (skip_bits 4 ;;; skip_bits 4 ;;; skip_ue ;;; skip_ue ;;; skip_bits 1).

(** The long-term reference pictures; [false] is the result -1. *)
Definition skip_long_term_refs (log2_max_pic_order_cnt_lsb_minus4 : Z) : W HevcGetBitContext bool :=
  present <- get_flag ;;
  if negb present then ret true else
  num_long_term_ref_pics_sps <- get_ue_golomb_long ;;
  if 31 <? num_long_term_ref_pics_sps then ret false else
  let len := Z.min (i32 (u32 (log2_max_pic_order_cnt_lsb_minus4 + 4))) 16 in
  repeat_m (Z.to_nat num_long_term_ref_pics_sps) (skip_bits (u32 len) ;;; skip_bits 1) ;;;
  ret true.

Definition hvcc_parse_sps (hvcc : HEVCDecoderConfigurationRecord) :
    W HevcGetBitContext (option HEVCDecoderConfigurationRecord) :=
  head <- parse_sps_head hvcc ;;
  let '(hvcc, log2_max_pic_order_cnt_lsb_minus4, sps_max_sub_layers_minus1) := head in
  skip_sps_coding sps_max_sub_layers_minus1 ;;;
  num_short_term_ref_pic_sets <- get_ue_golomb_long ;;
  if HEVC_MAX_SHORT_TERM_REF_PIC_SETS <? num_short_term_ref_pic_sets then ret None else
  rps <- parse_rps_loop (Z.to_nat num_short_term_ref_pic_sets) 0 num_short_term_ref_pic_sets [] ;;
  match rps with
  | None => ret None
  | Some _ =>
      long_term <- skip_long_term_refs log2_max_pic_order_cnt_lsb_minus4 ;;
      if negb long_term then ret None else
      skip_bits 1 ;;;
      skip_bits 1 ;;;
      vui <- get_flag ;;
      hvcc <- (if (vui : bool) then hvcc_parse_vui hvcc sps_max_sub_layers_minus1 else ret hvcc) ;;
      ret (Some hvcc)
  end.

Definition hvcc_parse_pps (hvcc : HEVCDecoderConfigurationRecord) :
    W HevcGetBitContext HEVCDecoderConfigurationRecord :=
  skip_ue ;;;
  skip_ue ;;;
  skip_bits 7 ;;;
  skip_ue ;;;
  skip_ue ;;;
  skip_se ;;;
  skip_bits 2 ;;;
  optional get_flag skip_ue ;;;
  skip_se ;;;
  skip_se ;;;
  skip_bits 4 ;;;
  tiles_enabled_flag <- get_flag ;;
  entropy_coding_sync_enabled_flag <- get_flag ;;
  ret (hvcc_set_parallel hvcc (min_spatial_segmentation_idc hvcc)
         (if entropy_coding_sync_enabled_flag && tiles_enabled_flag then 0
          else if entropy_coding_sync_enabled_flag then 3
          else if tiles_enabled_flag then 2
          else 1)).

(** ** Collecting the NAL units *)

(** [nal_size] is written as 16 bits, the unit in full. *)
Definition hvcc_array_add_nal_unit (nal_buf : bytes) (nal_type ps_array_completeness : Z)
    (array : HVCCNALUnitArray) : option HVCCNALUnitArray :=
  '(_, data) ← (s_wb16 (zlen nal_buf) ;;; s_put nal_buf) (nalUnitData array);
  Some (mk_hvcc_array
    (if (nal_type =? OBS_HEVC_NAL_VPS) || (nal_type =? OBS_HEVC_NAL_SPS) || (nal_type =? OBS_HEVC_NAL_PPS)
     then ps_array_completeness else array_completeness array)
    nal_type (u16 (numNalus array + 1)) data).

Definition hvcc_add_nal_unit (nal_buf : bytes) (ps_array_completeness : Z)
    (hvcc : HEVCDecoderConfigurationRecord) (array_idx : nat) : option (option HEVCDecoderConfigurationRecord) :=
  let '(rbsp_buf, rbsp_size) := ff_nal_unit_extract_rbsp nal_buf 2 in
  '(r, gbc) ← init_get_bits8 rbsp_buf (i32 rbsp_size);
  if r <? 0 then Some None else
  '(nal_type, gbc) ← nal_unit_parse_header gbc;
  array ← arrays hvcc !! array_idx;
  array ← hvcc_array_add_nal_unit nal_buf nal_type ps_array_completeness array;
  let hvcc := hvcc_set_arrays hvcc (if numNalus array =? 1 then u8 (numOfArrays hvcc + 1) else numOfArrays hvcc)
                (<[array_idx := array]> (arrays hvcc)) in
  fst <$>
  (if nal_type =? OBS_HEVC_NAL_VPS then hvcc <- hvcc_parse_vps hvcc ;; ret (Some hvcc)
   else if nal_type =? OBS_HEVC_NAL_SPS then hvcc_parse_sps hvcc
   else if nal_type =? OBS_HEVC_NAL_PPS then hvcc <- hvcc_parse_pps hvcc ;; ret (Some hvcc)
   else ret (Some hvcc)) gbc.

Definition array_idx_to_type : list Z :=
  [OBS_HEVC_NAL_VPS; OBS_HEVC_NAL_SPS; OBS_HEVC_NAL_PPS; OBS_HEVC_NAL_SEI_PREFIX; OBS_HEVC_NAL_SEI_SUFFIX].

(** The units with their lengths before them: the array and its size. *)
Definition length_prefixed_nals (base : Z) (data : bytes) : option bytes :=
  r ← for_each_nal base data
        (λ nals _ ns ne,
          '(_, nals) ← (s_wb32 (u32 (ne - ns)) ;;; s_put (sub ns (ne - ns) data)) nals;
          Some (inl nals : array_output_data + Empty_set))
        array_output_serializer_init;
  match r with inl nals => Some (ao_bytes nals) | inr e => match (e : Empty_set) with end end.

(** [while (end - buf > 4)]: each iteration takes the length and at most the rest. *)
Fixpoint hvcc_loop (fuel : nat) (buf : bytes) (hvcc : HEVCDecoderConfigurationRecord) :
    option (option HEVCDecoderConfigurationRecord) :=
  if zlen buf <=? 4 then Some (Some hvcc) else
  match fuel with
  | O => None
  | S fuel =>
      len ← rb32 buf 0;
      let buf := drop 4 buf in
      if INT_MAX <? zlen buf then None else
      let len := Z.min len (u32 (zlen buf)) in
      b ← rd buf 0;
      let type := Z.land (Z.shiftr b 1) 63 in
      r ← match list_find (λ t, t = type) array_idx_to_type with
          | Some (i, _) => hvcc_add_nal_unit (take (Z.to_nat len) buf) 1 hvcc i
          | None => Some (Some hvcc)
          end;
      match r with
      | None => Some None
      | Some hvcc => hvcc_loop fuel (drop (Z.to_nat len) buf) hvcc
      end
  end.

(** The fixed part of the record. *)
Definition write_hvcc_head (hvcc : HEVCDecoderConfigurationRecord) : W array_output_data unit :=
  s_w8 1 ;;;
  s_w8 (Z.lor (Z.lor (Z.shiftl (general_profile_space hvcc) 6) (Z.shiftl (general_tier_flag hvcc) 5))
          (general_profile_idc hvcc)) ;;;
  s_wb32 (general_profile_compatibility_flags hvcc) ;;;
  s_wb32 (u32 (Z.shiftr (general_constraint_indicator_flags hvcc) 16)) ;;;
  s_wb16 (u16 (general_constraint_indicator_flags hvcc)) ;;;
  s_w8 (general_level_idc hvcc) ;;;
  s_wb16 (Z.lor (min_spatial_segmentation_idc hvcc) 61440) ;;;
  s_w8 (Z.lor (parallelismType hvcc) 252) ;;;
  s_w8 (Z.lor (chromaFormat hvcc) 252) ;;;
  s_w8 (Z.lor (bitDepthLumaMinus8 hvcc) 248) ;;;
  s_w8 (Z.lor (bitDepthChromaMinus8 hvcc) 248) ;;;
  s_wb16 (avgFrameRate hvcc) ;;;
  s_w8 (Z.lor (Z.lor (Z.lor (Z.shiftl (constantFrameRate hvcc) 6) (Z.shiftl (numTemporalLayers hvcc) 3))
                (Z.shiftl (temporalIdNested hvcc) 2)) (lengthSizeMinusOne hvcc)) ;;;
  s_w8 (numOfArrays hvcc).

Definition write_hvcc_array (array : HVCCNALUnitArray) : W array_output_data unit :=
  when negb (numNalus array =? 0) do (
    s_w8 (Z.lor (Z.shiftl (array_completeness array) 7) (Z.land (NAL_unit_type array) 63)) ;;;
    s_wb16 (numNalus array) ;;;
    s_put (ao_bytes (nalUnitData array))).

Definition write_hvcc (hvcc : HEVCDecoderConfigurationRecord) : W array_output_data unit :=
  write_hvcc_head hvcc ;;;
  for_each (arrays hvcc) write_hvcc_array.

(** The fields adjusted before the record is written. *)
Definition hvcc_finish (hvcc : HEVCDecoderConfigurationRecord) : HEVCDecoderConfigurationRecord :=
  let seg := if 4096 <? min_spatial_segmentation_idc hvcc then 0 else min_spatial_segmentation_idc hvcc in
  hvcc_set_parallel hvcc seg (if seg =? 0 then 0 else parallelismType hvcc).

(** There is at least one VPS, SPS and PPS, and not too many. *)
Definition counts_ok (hvcc : HEVCDecoderConfigurationRecord) : bool :=
  let count i := from_option numNalus 0 (arrays hvcc !! i) in
  negb ((count 0%nat =? 0) || (OBS_HEVC_MAX_VPS_COUNT <? count 0%nat) ||
        (count 1%nat =? 0) || (OBS_HEVC_MAX_SPS_COUNT <? count 1%nat) ||
        (count 2%nat =? 0) || (OBS_HEVC_MAX_PPS_COUNT <? count 2%nat)).

(** [size > 3] and [size > 4] guard the two forms. *)
Definition has_start_code (data : bytes) : bool :=
  match data with
  | 0 :: 0 :: 1 :: _ :: _ => true
  | 0 :: 0 :: 0 :: 1 :: _ :: _ => true
  | _ => false
  end.

(** What is stored in [*header], if anything is, and the size returned. When the
    parameter sets cannot be used the size is that of the length-prefixed units. *)
Definition obs_parse_hevc_header (base : Z) (data : bytes) : option (option bytes * Z) :=
  if negb (has_start_code data) then Some (Some data, zlen data) else
  if zlen data <? 6 then Some (None, 0) else
  nals ← length_prefixed_nals base data;
  let size := zlen nals in
  if size =? 0 then Some (None, 0) else
  r ← hvcc_loop (length nals) nals hvcc_init;
  match r with
  | None => Some (None, size)
  | Some hvcc =>
      if negb (counts_ok hvcc) then Some (None, size) else
      '(_, output) ← write_hvcc (hvcc_finish hvcc) array_output_serializer_init;
      Some (Some (ao_bytes output), zlen (ao_bytes output))
  end.

(** ** What the bit reader reads *)

(** The bits from [pos] on. *)
Definition bits_from (buf : bytes) (pos : Z) : list bool := drop (Z.to_nat pos) (all_bits buf).

(** Between two reads: the cache holds the bits from [pos] to [index], and the 64 bytes
    of padding are never needed for more than what a read looks ahead. *)
Record cached (g : HevcGetBitContext) (pos : Z) : Prop := {
  c_bytes : Forall is_byte (hb_buffer g);
  c_pos : 0 ≤ pos;
  c_index : hb_index g = pos + hb_bits_left g ∧ (8 | hb_index g) ∧ hb_index g ≤ 8 * zlen (hb_buffer g);
  c_left : 0 ≤ hb_bits_left g ≤ 63;
  c_cache : hb_cache g =
    bits_val (take (Z.to_nat (hb_bits_left g)) (bits_from (hb_buffer g) pos)) * 2 ^ (64 - hb_bits_left g);
  c_size : hb_size_in_bits g + 64 ≤ 8 * zlen (hb_buffer g) ∧ 8 * zlen (hb_buffer g) < 2 ^ 31
}.

#[export] Instance hevc_reader : BitReader HevcGetBitContext := {
  ahead g l := ∃ pos, cached g pos ∧ pos ≤ hb_size_in_bits g ∧
    l = take (Z.to_nat (hb_size_in_bits g - pos)) (bits_from (hb_buffer g) pos);
  read_bits := get_bits_long
}.

Lemma bits_val_4 b0 b1 b2 b3 : is_byte b0 → is_byte b1 → is_byte b2 → is_byte b3 →
  bits_val (all_bits [b0; b1; b2; b3]) = Z.shiftl b0 24 + Z.shiftl b1 16 + Z.shiftl b2 8 + b3.
Proof.
  unfold is_byte. intros. rewrite !all_bits_cons. change (all_bits []) with (@nil bool).
  rewrite !bits_val_app, !zlen_app, !zbits_zlen, !zbits_val by lia. change (zlen []) with 0.
  change (bits_val []) with 0. rewrite !Z.shiftl_mul_pow2 by lia. lia.
Qed.

Lemma rb32_spec m ptr : Forall is_byte m → 0 ≤ ptr → ptr + 4 ≤ zlen m →
  rb32 m ptr = Some (bits_val (take 32 (bits_from m (8 * ptr)))).
Proof.
  intros Hb Hp Hl.
  destruct (drop (Z.to_nat ptr) m) as [|b0 [|b1 [|b2 [|b3 l]]]] eqn:E;
    try (apply (f_equal zlen) in E; rewrite zlen_drop in E; len_lia).
  assert (∀ i x, 0 ≤ i → drop (Z.to_nat ptr) m !! Z.to_nat i = Some x → rd m (ptr + i) = Some x) as Hrd.
  { intros i x Hi Hx. rewrite lookup_drop in Hx. unfold rd. rewrite (proj2 (Z.leb_le _ _)) by lia.
    by replace (Z.to_nat (ptr + i)) with (Z.to_nat ptr + Z.to_nat i)%nat by lia. }
  rewrite E in Hrd. assert (rd m ptr = Some b0) as E0 by (rewrite <- (Z.add_0_r ptr); by apply Hrd).
  unfold rb32. rewrite E0, (Hrd 1 b1), (Hrd 2 b2), (Hrd 3 b3) by done. cbn [mbind option_bind].
  assert (Forall is_byte (b0 :: b1 :: b2 :: b3 :: l)) as Hb'.
  { rewrite <- E. by apply Forall_drop. }
  inversion_clear Hb' as [|? ? H0 Hb1]. inversion_clear Hb1 as [|? ? H1 Hb2].
  inversion_clear Hb2 as [|? ? H2 Hb3]. inversion_clear Hb3 as [|? ? H3 _].
  unfold bits_from. replace (Z.to_nat (8 * ptr)) with (8 * Z.to_nat ptr)%nat by lia.
  assert (drop (8 * Z.to_nat ptr) (all_bits m) = all_bits (drop (Z.to_nat ptr) m)) as ->.
  { rewrite <- (take_drop (Z.to_nat ptr) m) at 1. rewrite all_bits_app, drop_app_ge.
    - rewrite all_bits_length, length_take_le by (unfold zlen in Hl; lia). by rewrite Nat.sub_diag, drop_0.
    - rewrite all_bits_length, length_take. lia. }
  rewrite E. change (take 32 (all_bits (b0 :: b1 :: b2 :: b3 :: l))) with (all_bits [b0; b1; b2; b3]).
  rewrite bits_val_4 by done. unfold is_byte in *. rewrite !Z.shiftl_mul_pow2 by lia. by rewrite u32_small by lia.
Qed.

Lemma bits_from_len buf pos : 0 ≤ pos → zlen (bits_from buf pos) = Z.max 0 (8 * zlen buf - pos).
Proof. intros Hp. unfold bits_from. rewrite zlen_drop. unfold zlen. rewrite all_bits_length. lia. Qed.

Lemma bits_from_drop buf pos n : 0 ≤ pos → 0 ≤ n → drop (Z.to_nat n) (bits_from buf pos) = bits_from buf (pos + n).
Proof. intros. unfold bits_from. rewrite drop_drop. f_equal. lia. Qed.

(** The first [a + b] bits as a number. *)
Lemma bits_val_split a b l : 0 ≤ a → 0 ≤ b → a + b ≤ zlen l →
  bits_val (take (Z.to_nat (a + b)) l) =
    bits_val (take (Z.to_nat a) l) * 2 ^ b + bits_val (take (Z.to_nat b) (drop (Z.to_nat a) l)).
Proof.
  intros Ha Hb Hl. rewrite Z2Nat.inj_add, <- take_take_drop, bits_val_app by lia. do 3 f_equal.
  rewrite zlen_take, zlen_drop. lia.
Qed.

Lemma take_len {A} n (l : list A) : 0 ≤ n ≤ zlen l → zlen (take (Z.to_nat n) l) = n.
Proof. intros. rewrite zlen_take. lia. Qed.

Lemma refill_spec g pos : cached g pos → hb_bits_left g < 32 → hb_index g + 32 ≤ 8 * zlen (hb_buffer g) →
  ∃ g', refill_32 g = Some (tt, g') ∧ cached g' pos ∧ hb_bits_left g' = hb_bits_left g + 32 ∧
    hb_buffer g' = hb_buffer g ∧ hb_size_in_bits g' = hb_size_in_bits g.
Proof.
  intros [Hb Hp (Hi & [k Hk] & Hi3) Hl Hc Hs] Hlt Hroom. unfold refill_32.
  assert (Z.shiftr (hb_index g) 3 = k) as -> by (rewrite Z.shiftr_div_pow2 by lia; change (2 ^ 3) with 8; rewrite Hk; apply Z.div_mul; lia).
  rewrite rb32_spec by (done || lia). cbn [mbind option_bind].
  rewrite (proj2 (Z.ltb_ge _ _)) by lia. eexists. split; [reflexivity|]. cbn.
  split; [|done]. pose proof (bits_from_len (hb_buffer g) (8 * k) ltac:(lia)) as Hlen.
  set (w := take 32 (bits_from (hb_buffer g) (8 * k))).
  assert (zlen w = 32) as Hw by (unfold w; rewrite zlen_take; lia).
  pose proof (bits_val_range w) as Hr. rewrite Hw in Hr.
  constructor; cbn; [done|done| |lia| |done].
  - split; [lia|]. split; [|lia]. exists (k + 4). lia.
  - rewrite u64_small, Z.lor_comm.
    2: { rewrite Z.shiftl_mul_pow2 by lia. pose proof (Z.pow_le_mono_r 2 (32 - hb_bits_left g) 32).
         pose proof (Z.pow_pos_nonneg 2 (32 - hb_bits_left g)). split; [nia|].
         apply Z.lt_le_trans with (2 ^ 32 * 2 ^ 32); [|done]. nia. }
    rewrite Hc, <- (Z.shiftl_mul_pow2 _ (64 - hb_bits_left g)), lor_high by
      (try (pose proof (bits_val_range (take (Z.to_nat (hb_bits_left g)) (bits_from (hb_buffer g) pos)))); try lia;
       rewrite Z.shiftl_mul_pow2 by lia; pose proof (Z.pow_pos_nonneg 2 (32 - hb_bits_left g));
       replace (64 - hb_bits_left g) with (32 + (32 - hb_bits_left g)) by lia; rewrite Z.pow_add_r by lia; nia).
    rewrite bits_val_split; [|lia|lia|rewrite bits_from_len; lia].
    rewrite bits_from_drop, <- Hi, Hk, (Z.mul_comm k 8) by lia. change (Z.to_nat 32) with 32%nat. fold w.
    replace (64 - hb_bits_left g) with (32 + (32 - hb_bits_left g)) by lia.
    replace (64 - (hb_bits_left g + 32)) with (32 - hb_bits_left g) by lia.
    rewrite Z.shiftl_mul_pow2, Z.pow_add_r by lia. lia.
Qed.

Lemma get_val_spec g pos n : cached g pos → 1 ≤ n ≤ hb_bits_left g → n ≤ 32 →
  ∃ g', get_val n g = Some (bits_val (take (Z.to_nat n) (bits_from (hb_buffer g) pos)), g') ∧
    cached g' (pos + n) ∧ hb_buffer g' = hb_buffer g ∧ hb_size_in_bits g' = hb_size_in_bits g.
Proof.
  intros [Hb Hp (Hi & Hd & Hi3) Hl Hc Hs] Hn Hn32. unfold get_val.
  rewrite (proj2 (Z.ltb_ge _ _)), (proj2 (Z.ltb_ge _ _)) by lia. cbn [orb].
  rewrite Hc. set (bl := hb_bits_left g) in *. set (l := bits_from (hb_buffer g) pos) in *.
  assert (zlen l = 8 * zlen (hb_buffer g) - pos) as Hll by (unfold l; rewrite bits_from_len; lia).
  pose proof (bits_val_split n (bl - n) l ltac:(lia) ltac:(lia) ltac:(lia)) as E.
  replace (n + (bl - n)) with bl in E by lia. rewrite E.
  set (A := bits_val (take (Z.to_nat n) l)). set (B := bits_val (take (Z.to_nat (bl - n)) (drop (Z.to_nat n) l))).
  assert (0 ≤ A < 2 ^ n) as HA.
  { pose proof (bits_val_range (take (Z.to_nat n) l)) as R. by rewrite take_len in R by lia. }
  assert (0 ≤ B < 2 ^ (bl - n)) as HB.
  { pose proof (bits_val_range (take (Z.to_nat (bl - n)) (drop (Z.to_nat n) l))) as R.
    rewrite take_len in R by (rewrite zlen_drop; lia). done. }
  assert (bits_val (take (Z.to_nat (bl - n)) (drop (Z.to_nat n) l)) = B) as EB by done.
  clearbody A B bl. eexists.
  assert (2 ^ (64 - n) = 2 ^ (bl - n) * 2 ^ (64 - bl)) as E1 by (rewrite <- Z.pow_add_r by lia; f_equal; lia).
  assert (2 ^ 64 = 2 ^ n * 2 ^ (64 - n)) as E2 by (rewrite <- Z.pow_add_r by lia; f_equal; lia).
  pose proof (Z.pow_pos_nonneg 2 (64 - bl) ltac:(lia) ltac:(lia)).
  pose proof (Z.pow_pos_nonneg 2 (bl - n) ltac:(lia) ltac:(lia)).
  pose proof (Z.pow_pos_nonneg 2 n ltac:(lia) ltac:(lia)).
  split.
  { f_equal. f_equal. rewrite Z.shiftr_div_pow2, E1, Z.div_mul_cancel_r, Z.div_add_l by lia.
    rewrite (Z.div_small B) by lia. lia. }
  cbn. split; [|done]. constructor; cbn; [done|lia| | | |done].
  - rewrite u32_small by lia. split; [lia|done].
  - rewrite u32_small by lia. lia.
  - rewrite u32_small by lia. rewrite <- bits_from_drop by lia. fold l. rewrite EB, Z.shiftl_mul_pow2 by lia. unfold u64.
    replace ((A * 2 ^ (bl - n) + B) * 2 ^ (64 - bl) * 2 ^ n) with (B * (2 ^ (64 - bl) * 2 ^ n) + A * 2 ^ 64)
      by (rewrite E2, E1; ring).
    rewrite Z.mod_add, Z.mod_small by (try done; rewrite E2, E1; nia).
    rewrite <- Z.pow_add_r by lia. do 2 f_equal. lia.
Qed.

Lemma get_bits_spec g pos n : cached g pos → 1 ≤ n ≤ 32 → pos + n ≤ hb_size_in_bits g + 32 →
  ∃ g', get_bits n g = Some (bits_val (take (Z.to_nat n) (bits_from (hb_buffer g) pos)), g') ∧
    cached g' (pos + n) ∧ hb_buffer g' = hb_buffer g ∧ hb_size_in_bits g' = hb_size_in_bits g.
Proof.
  intros Hg Hn Hend. unfold get_bits, refill_for, bind.
  assert (∃ g1, (if hb_bits_left g <? n then refill_32 else ret tt) g = Some (tt, g1) ∧ cached g1 pos ∧
    n ≤ hb_bits_left g1 ∧ hb_buffer g1 = hb_buffer g ∧ hb_size_in_bits g1 = hb_size_in_bits g)
    as (g1 & -> & H1 & Hl & Eb1 & Es1).
  { pose proof Hg as [_ Hp (Hi & _ & Hi3) Hl _ Hs]. destruct (Z.ltb_spec (hb_bits_left g) n).
    - destruct (refill_spec g pos) as (g1 & -> & H1 & Hl1 & E1 & E2); [done|lia|lia|].
      exists g1. split; [done|]. split; [done|]. split; [lia|done].
    - exists g. done. }
  rewrite <- Eb1, <- Es1 in *.
  destruct (get_val_spec g1 pos n H1) as (g2 & -> & H2 & E1 & E2); [lia|lia|].
  exists g2. split; [|done]. unfold ret. do 2 f_equal. apply u32_small.
  pose proof (bits_val_range (take (Z.to_nat n) (bits_from (hb_buffer g1) pos))) as R.
  destruct H1 as [_ ? ? _ _ ?]. rewrite take_len in R by (rewrite bits_from_len; lia).
  pose proof (Z.pow_le_mono_r 2 n 32). lia.
Qed.

Lemma ahead_split g pos n l1 rest : cached g pos → pos ≤ hb_size_in_bits g →
  l1 ++ rest = take (Z.to_nat (hb_size_in_bits g - pos)) (bits_from (hb_buffer g) pos) → n = zlen l1 →
  pos + n ≤ hb_size_in_bits g ∧ take (Z.to_nat n) (bits_from (hb_buffer g) pos) = l1 ∧
  rest = take (Z.to_nat (hb_size_in_bits g - (pos + n))) (bits_from (hb_buffer g) (pos + n)).
Proof.
  intros [_ Hp _ _ _ Hs] Hpos E ->. pose proof (f_equal zlen E) as El.
  rewrite zlen_app, take_len in El by (rewrite bits_from_len; lia).
  pose proof (zlen_nonneg rest). split; [lia|]. pose proof (zlen_nonneg l1).
  pose proof (take_app_length l1 rest) as Et. pose proof (drop_app_length l1 rest) as Ed. rewrite E in Et, Ed. split.
  - rewrite <- Et at 2. rewrite take_take, zlen_to_nat. f_equal. unfold zlen in *. lia.
  - rewrite <- bits_from_drop, zlen_to_nat by lia. rewrite <- Ed, skipn_firstn_comm. f_equal. unfold zlen in *. lia.
Qed.

#[export] Instance hevc_reader_spec : BitReaderSpec HevcGetBitContext.
Proof.
  constructor. intros n v Hn Hv g rest (pos & Hc & Hpos & E). cbn [read_bits hevc_reader]. unfold get_bits_long.
  destruct (Z.eqb_spec (Z.of_nat n) 0) as [Hz|Hz].
  - assert (n = 0%nat) as -> by lia. exists g. change (2 ^ Z.of_nat 0) with 1 in Hv.
    assert (v = 0) as -> by lia. split; [done|]. exists pos. done.
  - destruct (ahead_split g pos (Z.of_nat n) _ _ Hc Hpos E) as (Hend & Et & Er); [by rewrite zbits_zlen|].
    destruct (get_bits_spec g pos (Z.of_nat n) Hc) as (g' & -> & Hc' & Eb & Es); [lia|lia|].
    exists g'. rewrite Et, zbits_val by done. split; [done|]. exists (pos + Z.of_nat n). by rewrite Eb, Es.
Qed.
