(* ===== verification/HevcSyntax.v ===== *)
(** * The parameter sets of HEVC

    The syntax of VPS, SPS and PPS (H.265, 7.3) as far as rtmp-hevc.c reads it, as sets
    of bit strings indexed by the values that matter for the configuration record, and
    the proof that the parsers of rtmp-hevc.c accept them with exactly these values. *)

From S2P Require Import Prelude Serializer Bitstream Bits Nal RtmpHevc.

Local Open Scope Z_scope.
Local Open Scope serializer_scope.

(** ** Reading single fields *)

Lemma get_bits_long_pos n : n ≠ 0 → get_bits_long n = get_bits n.
Proof. intros. unfold get_bits_long. by rewrite (proj2 (Z.eqb_neq _ _)). Qed.

Lemma reads_long n v : 0 ≤ n ≤ 32 → 0 ≤ v < 2 ^ n → reads (get_bits_long n) (zbits (Z.to_nat n) v) v.
Proof. exact (reads_num (G:=HevcGetBitContext) n v). Qed.

Lemma reads_hget n v : 1 ≤ n ≤ 32 → 0 ≤ v < 2 ^ n → reads (get_bits n) (zbits (Z.to_nat n) v) v.
Proof. intros. rewrite <- get_bits_long_pos by lia. apply reads_long; [lia|done]. Qed.

Lemma reads_hbit b : reads (get_bits 1) (flag b) (Z.b2z b).
Proof. exact (reads_bit1 (G:=HevcGetBitContext) b). Qed.

Lemma reads_hflag b : reads get_flag (flag b) b.
Proof. eapply reads_bind_nil; [apply reads_hbit|]. destruct b; apply (reads_ret (G:=HevcGetBitContext)). Qed.

Lemma reads_hlist l : (1 ≤ length l ≤ 32)%nat → reads (get_bits (zlen l)) l (bits_val l).
Proof.
  intros Hl. rewrite <- get_bits_long_pos by (unfold zlen; lia).
  exact (reads_list (G:=HevcGetBitContext) l (proj2 Hl)).
Qed.

(** ** Exp-Golomb codes *)

(** The code of [v]: as many zeros as [v + 1] has bits after its leading one, then [v + 1]. *)
Definition ue_bits (v : Z) : list bool :=
  let k := Z.to_nat (Z.log2 (v + 1)) in replicate k false ++ zbits (S k) (v + 1).

Definition ue_range (v : Z) : Prop := 0 ≤ v < 2 ^ 32 - 1.

Lemma bits_val_zeros k l : bits_val (replicate k false ++ l) = bits_val l.
Proof.
  rewrite bits_val_app. assert (bits_val (replicate k false) = 0) as ->; [|lia].
  induction k as [|k IH]; [done|]. change (replicate (S k) false) with ([false] ++ replicate k false).
  rewrite bits_val_app, IH. change (bits_val [false]) with 0. lia.
Qed.

(** The 32 bits ahead start with the code: their logarithm is the number of its zeros. *)
Lemma golomb_log (k : nat) w : (k ≤ 31)%nat → zlen w = 31 - Z.of_nat k →
  31 - ilog2 (bits_val (replicate k false ++ true :: w)) = Z.of_nat k.
Proof.
  intros Hk Hw. unfold ilog2, clz32. rewrite bits_val_zeros. change (true :: w) with ([true] ++ w).
  rewrite bits_val_app. change (bits_val [true]) with 1. pose proof (bits_val_range w) as Hr. rewrite Hw in *.
  set (v := 1 * 2 ^ (31 - Z.of_nat k) + bits_val w).
  assert (Z.log2 v = 31 - Z.of_nat k) as Hv.
  { apply Z.log2_unique; [lia|]. unfold v. rewrite Z.pow_succ_r by lia. lia. }
  rewrite Z.log2_lor by (unfold v; lia). change (Z.log2 1) with 0. rewrite Hv. lia.
Qed.

Lemma show_32 g l : ahead g l →
  ∃ tail, 32 ≤ zlen (l ++ tail) ∧
    show_bits_long 32 g = Some (bits_val (take 32 (l ++ tail)), g).
Proof.
  intros (pos & Hc & Hpos & ->).
  exists (drop (Z.to_nat (hb_size_in_bits g - pos)) (bits_from (hb_buffer g) pos)).
  rewrite take_drop. pose proof Hc as [_ Hp _ _ _ Hs]. split; [rewrite bits_from_len; lia|].
  unfold show_bits_long. change (32 <=? 25) with false. cbv iota. rewrite get_bits_long_pos by done.
  destruct (get_bits_spec g pos 32 Hc) as (g' & -> & _); [lia|lia|]. done.
Qed.

Lemma reads_ue v : ue_range v → reads get_ue_golomb_long (ue_bits v) v.
Proof.
  intros Hv g rest Hg. unfold ue_range in Hv.
  destruct (show_32 g _ Hg) as (tail & Hl & E).
  unfold get_ue_golomb_long. unfold bind at 1. rewrite E. clear E.
  pose proof (Z.log2_spec (v + 1) ltac:(lia)) as Hlog. pose proof (Z.log2_nonneg (v + 1)) as Hk0.
  assert (Z.log2 (v + 1) < 32) as Hk by (apply Z.log2_lt_pow2; lia).
  unfold ue_bits in Hg, Hl |- *. set (k := Z.to_nat (Z.log2 (v + 1))) in *.
  assert (Z.log2 (v + 1) = Z.of_nat k) as Ek by lia. rewrite Ek in Hlog.
  assert (zbits (S k) (v + 1) = true :: zbits k (v + 1)) as Ez.
  { rewrite zbits_S. f_equal. rewrite Z.testbit_odd, Z.shiftr_div_pow2 by lia.
    rewrite <- (Zdiv_unique (v + 1) (2 ^ Z.of_nat k) 1 (v + 1 - 2 ^ Z.of_nat k)); [done| |lia].
    rewrite Z.pow_succ_r in Hlog by lia. lia. }
  assert (take 32 ((replicate k false ++ zbits (S k) (v + 1)) ++ rest ++ tail) =
    replicate k false ++ true :: take (31 - k) (zbits k (v + 1) ++ rest ++ tail)) as Et.
  { rewrite Ez, <- !app_assoc. cbn [app]. rewrite take_app, length_replicate, take_ge by (rewrite length_replicate; lia).
    f_equal. replace (32 - k)%nat with (S (31 - k)) by lia. done. }
  rewrite <- (app_assoc _ rest tail) in Hl |- *. rewrite Et, golomb_log; [|lia|].
  2: { rewrite zlen_take. rewrite <- (app_assoc (replicate _ _)), Ez, !zlen_app, zlen_replicate, zlen_cons in Hl.
       rewrite !zlen_app in *. lia. }
  rewrite <- app_assoc in Hg.
  assert (reads (skip_bits_long (Z.of_nat k) ;;; (v <- get_bits_long (Z.of_nat k + 1) ;; ret (u32 (v - 1))))
    (replicate k false ++ zbits (S k) (v + 1)) v) as R; [|rewrite app_assoc in Hg; exact (R g rest Hg)].
  eapply reads_bind.
  - eapply reads_bind_nil; [|apply reads_ret]. eapply reads_eq; [apply (reads_long (Z.of_nat k) 0); [lia|]|].
    + split; [lia|]. apply Z.pow_pos_nonneg; lia.
    + rewrite Nat2Z.id. clear. induction k as [|k IH]; [done|]. rewrite zbits_S, IH, Z.bits_0. done.
  - cbv beta. eapply reads_bind_nil.
    + eapply reads_eq; [apply (reads_long (Z.of_nat k + 1) (v + 1)); [lia|rewrite Z.add_1_r; lia]|].
      f_equal. lia.
    + replace v with (u32 (v + 1 - 1)) at 2 by (rewrite u32_small by lia; lia). apply reads_ret.
Qed.

(** ** Sets of bit strings *)

Definition bits_set := list bool → Prop.

Definition eps : bits_set := λ l, l = [].
Definition anybits (n : nat) : bits_set := λ l, length l = n.
Definition just (x : list bool) : bits_set := λ l, l = x.
Definition ue : bits_set := λ l, ∃ v, ue_range v ∧ l = ue_bits v.
Definition catset (A B : bits_set) : bits_set := λ l, ∃ x y, l = x ++ y ∧ A x ∧ B y.
Infix "+++" := catset (at level 60, right associativity).
(** A flag and what follows it when it is set. *)
Definition opt (A : bits_set) : bits_set := λ l, l = [false] ∨ ∃ x, l = true :: x ∧ A x.
Fixpoint rep (n : nat) (A : bits_set) : bits_set :=
  match n with O => eps | S n => A +++ rep n A end.
Fixpoint concat_set {A} (f : A → bits_set) (xs : list A) : bits_set :=
  match xs with [] => eps | x :: xs => f x +++ concat_set f xs end.

(** *** Profile, tier and level (7.3.3) *)

Record ptl := mk_ptl_syntax {
  p_space : Z; p_tier : bool; p_idc : Z; p_compatibility : Z; p_constraints : Z; p_level : Z
}.

Definition ptl_ok (p : ptl) : Prop :=
  0 ≤ p_space p < 2 ^ 2 ∧ 0 ≤ p_idc p < 2 ^ 5 ∧ 0 ≤ p_compatibility p < 2 ^ 32 ∧
  0 ≤ p_constraints p < 2 ^ 48 ∧ 0 ≤ p_level p < 2 ^ 8.

Definition sub_layer_set (f : bool * bool) : bits_set :=
  (if f.1 then anybits 32 +++ anybits 32 +++ anybits 24 else eps) +++ (if f.2 then anybits 8 else eps).

(** [n] is the number of sub-layers minus 1. *)
Definition ptl_set (p : ptl) (n : nat) : bits_set :=
  just (zbits 2 (p_space p) ++ flag (p_tier p) ++ zbits 5 (p_idc p) ++ zbits 32 (p_compatibility p) ++
      zbits 48 (p_constraints p) ++ zbits 8 (p_level p)) +++
  λ l, ∃ fl : list (bool * bool), length fl = n ∧
    (just (concat (map (λ f, flag f.1 ++ flag f.2) fl)) +++
     (if (0 <? n)%nat then rep (8 - n) (anybits 2) else eps) +++
     concat_set sub_layer_set fl) l.

Definition hvcc_ptl (p : ptl) : HVCCProfileTierLevel :=
  mk_ptl (p_space p) (Z.b2z (p_tier p)) (p_idc p) (p_compatibility p) (p_constraints p) (p_level p).

(** *** VPS (7.3.2.1), up to the profile *)

Definition vps_set (layers : nat) (p : ptl) : bits_set :=
  anybits 12 +++ just (zbits 3 (Z.of_nat layers)) +++ anybits 17 +++ ptl_set p layers.

(** *** SPS (7.3.2.2) *)

Definition scaling_list_set (i : Z) : bits_set :=
  λ l, (∃ x, l = false :: x ∧ ue x) ∨
       (∃ x, l = true :: x ∧ ((if 1 <? i then ue else eps) +++ rep (Z.to_nat (Z.min 64 (2 ^ (4 + 2 * i)))) ue) x).

Definition scaling_lists_set : bits_set :=
  rep 6 (scaling_list_set 0) +++ rep 6 (scaling_list_set 1) +++ rep 6 (scaling_list_set 2) +++
  rep 2 (scaling_list_set 3).

(** The flags of a predicted reference picture set with [n] entries to look at, of
    which [k] remain. *)
Fixpoint delta_flags (n k : nat) : bits_set :=
  match n with
  | O => λ l, l = [] ∧ k = O
  | S n => λ l, (∃ x, l = true :: x ∧ ∃ k', k = S k' ∧ delta_flags n k' x) ∨
                (∃ x, l = false :: true :: x ∧ ∃ k', k = S k' ∧ delta_flags n k' x) ∨
                (∃ x, l = false :: false :: x ∧ delta_flags n k x)
  end.

(** The set number [idx] with [k] entries; [prev] is the size of the one before. *)
Definition rps_set (idx prev k : nat) : bits_set :=
  λ l, (∃ neg pos x, (neg + pos = k)%nat ∧ l = (if (idx =? 0)%nat then [] else [false]) ++ x ∧
          (just (ue_bits (Z.of_nat neg)) +++ just (ue_bits (Z.of_nat pos)) +++
           rep neg (ue +++ anybits 1) +++ rep pos (ue +++ anybits 1)) x) ∨
       (idx ≠ 0%nat ∧ ∃ x, l = true :: x ∧ (anybits 1 +++ ue +++ delta_flags (S prev) k) x).

(** The sets from [idx] on, with [ks] entries each. *)
Fixpoint rps_sets (idx prev : nat) (ks : list nat) : bits_set :=
  match ks with
  | [] => eps
  | k :: ks => rps_set idx prev k +++ rps_sets (S idx) k ks
  end.

(** *** VUI and HRD parameters (E.2.1, E.2.2) *)

Definition sub_hrd_set (cpbs : nat) (sub_pic : bool) : bits_set :=
  rep (S cpbs) (ue +++ ue +++ (if sub_pic then ue +++ ue else eps) +++ anybits 1).

(** The rate of a sub-layer whose [fixed_pic_rate_general_flag] is 0 (the parser is out of
    step otherwise, [general_rate_missed] of HevcRecord.v): either
    [fixed_pic_rate_within_cvs_flag] and a duration or [low_delay_hrd_flag]. *)
Definition rate_set (low : bool) : bits_set :=
  λ l, l = [false; false; low] ∨ low = false ∧ ∃ x, l = false :: true :: x ∧ ue x.

(** [cpbs] is the number of CPBs minus 1, coded unless the delay is low. *)
Definition hrd_layer_set (nal vcl sub_pic : bool) : bits_set :=
  λ l, ∃ (low : bool) (cpbs : nat), (cpbs ≤ 31)%nat ∧ (low = true → cpbs = O) ∧
    (rate_set low +++ (if low then eps else just (ue_bits (Z.of_nat cpbs))) +++
     (if nal then sub_hrd_set cpbs sub_pic else eps) +++
     (if vcl then sub_hrd_set cpbs sub_pic else eps)) l.

Definition hrd_set (layers : nat) : bits_set :=
  λ l, ∃ nal vcl sub_pic : bool, (sub_pic = true → nal || vcl = true) ∧
    (just (flag nal ++ flag vcl) +++
     (if nal || vcl
      then just (flag sub_pic) +++ (if sub_pic then anybits 19 else eps) +++ anybits 8 +++
           (if sub_pic then anybits 4 else eps) +++ anybits 15
      else eps) +++ rep (S layers) (hrd_layer_set nal vcl sub_pic)) l.

(** [seg] is [min_spatial_segmentation_idc], when it is coded. *)
Definition vui_set (layers : nat) (seg : option Z) : bits_set :=
  opt (λ l, ∃ idc, 0 ≤ idc ≤ 255 ∧ (just (zbits 8 idc) +++ (if idc =? 255 then anybits 32 else eps)) l) +++
  opt (anybits 1) +++
  opt (anybits 4 +++ opt (anybits 24)) +++
  opt (ue +++ ue) +++
  anybits 3 +++
  opt (rep 4 ue) +++
  opt (anybits 32 +++ anybits 32 +++ opt ue +++ opt (hrd_set layers)) +++
  match seg with
  | Some v => just (flag true) +++ anybits 3 +++ just (ue_bits v) +++ rep 4 ue
  | None => just (flag false)
  end.

Record sps_values := mk_sps {
  s_layers : nat; s_nested : bool; s_ptl : ptl; s_chroma : Z; s_luma_depth : Z; s_chroma_depth : Z;
  s_poc_bits : Z; s_seg : option (option Z)
}.

(** [s_seg]: there is a VUI, and [min_spatial_segmentation_idc] in it. Bit depths are
    below 16, the most the record can hold. *)
Definition sps_ok (v : sps_values) : Prop :=
  (s_layers v ≤ 6)%nat ∧ ptl_ok (s_ptl v) ∧ 0 ≤ s_chroma v ≤ 3 ∧ 0 ≤ s_luma_depth v ≤ 7 ∧
  0 ≤ s_chroma_depth v ≤ 7 ∧ 0 ≤ s_poc_bits v ≤ 12 ∧
  (∀ seg, s_seg v = Some (Some seg) → 0 ≤ seg ≤ 4095).

(** Up to the bit depths. *)
Definition sps_head_set (v : sps_values) : bits_set :=
  anybits 4 +++ just (zbits 3 (Z.of_nat (s_layers v))) +++ just (flag (s_nested v)) +++
  ptl_set (s_ptl v) (s_layers v) +++
  ue +++ just (ue_bits (s_chroma v)) +++ (if s_chroma v =? 3 then anybits 1 else eps) +++ ue +++ ue +++
  opt (rep 4 ue) +++
  just (ue_bits (s_luma_depth v)) +++ just (ue_bits (s_chroma_depth v)) +++ just (ue_bits (s_poc_bits v)).

(** From the sub-layer ordering information to the PCM parameters. *)
Definition sps_coding_set (layers : nat) : bits_set :=
  (λ l, ∃ all : bool, (just (flag all) +++ rep (if all then S layers else 1) (rep 3 ue)) l) +++
  rep 6 ue +++ opt (opt scaling_lists_set) +++ anybits 1 +++ anybits 1 +++
  opt (anybits 4 +++ anybits 4 +++ ue +++ ue +++ anybits 1).

Definition short_term_set : bits_set :=
  λ l, ∃ ks, (length ks ≤ 64)%nat ∧ Forall (λ k, (k ≤ 16)%nat) ks ∧
     (just (ue_bits (Z.of_nat (length ks))) +++ rps_sets 0 0 ks) l.

Definition long_term_set (poc_bits : Z) : bits_set :=
  opt (λ l, ∃ n : nat, (n ≤ 31)%nat ∧
     (just (ue_bits (Z.of_nat n)) +++ rep n (anybits (Z.to_nat (poc_bits + 4)) +++ anybits 1)) l).

Definition sps_set (v : sps_values) : bits_set :=
  sps_head_set v +++ sps_coding_set (s_layers v) +++ short_term_set +++ long_term_set (s_poc_bits v) +++
  anybits 1 +++ anybits 1 +++
  match s_seg v with
  | Some seg => just (flag true) +++ vui_set (s_layers v) seg
  | None => just (flag false)
  end.

(** *** PPS (7.3.2.3), up to the parallelism flags *)

Definition pps_set (tiles sync : bool) : bits_set :=
  ue +++ ue +++ anybits 7 +++ ue +++ ue +++ ue +++ anybits 2 +++ opt ue +++ ue +++ ue +++ anybits 4 +++
  just (flag tiles ++ flag sync).

(** ** The parsers accept the syntax *)

Definition accepts {A} (m : W HevcGetBitContext A) (L : bits_set) (a : A) : Prop := ∀ l, L l → reads m l a.

Lemma acc_bind {A B} (m : W HevcGetBitContext A) (k : A → W HevcGetBitContext B) L M a b :
  accepts m L a → accepts (k a) M b → accepts (bind m k) (L +++ M) b.
Proof. intros Hm Hk l (x & y & -> & Hx & Hy). eapply reads_bind; [by apply Hm|by apply Hk]. Qed.

Lemma acc_ret {A} (a : A) : accepts (ret a) eps a.
Proof. intros l ->. apply reads_ret. Qed.

Lemma acc_last {A B} (m : W HevcGetBitContext A) (k : A → W HevcGetBitContext B) L a b :
  accepts m L a → accepts (k a) eps b → accepts (bind m k) L b.
Proof. intros Hm Hk l Hl. eapply reads_bind_nil; [by apply Hm|by apply Hk]. Qed.

Lemma acc_first {A B} (m : W HevcGetBitContext A) (k : A → W HevcGetBitContext B) L a b :
  accepts m eps a → accepts (k a) L b → accepts (bind m k) L b.
Proof. intros Hm Hk l Hl. apply (reads_bind _ _ [] l a b); [by apply Hm|by apply Hk]. Qed.

Lemma acc_just {A} (m : W HevcGetBitContext A) x a : reads m x a → accepts m (just x) a.
Proof. by intros Hm l ->. Qed.

Lemma acc_skip n k : n = Z.of_nat k → (1 ≤ k ≤ 32)%nat → accepts (skip_bits n) (anybits k) tt.
Proof.
  intros -> Hk l <-. eapply reads_bind_nil; [exact (reads_hlist l Hk)|apply reads_ret].
Qed.

Lemma acc_skip_long n k : n = Z.of_nat k → (1 ≤ k ≤ 32)%nat → accepts (skip_bits_long n) (anybits k) tt.
Proof. intros -> Hk. unfold skip_bits_long. rewrite get_bits_long_pos by lia. by apply acc_skip. Qed.

Lemma acc_ue v : ue_range v → accepts get_ue_golomb_long (just (ue_bits v)) v.
Proof. intros Hv. by apply acc_just, reads_ue. Qed.

Lemma acc_skip_ue : accepts skip_ue ue tt.
Proof. intros l (v & Hv & ->). eapply reads_bind_nil; [by apply reads_ue|apply reads_ret]. Qed.

Lemma acc_skip_se : accepts skip_se ue tt.
Proof.
  intros l (v & Hv & ->). eapply reads_bind_nil; [|apply reads_ret].
  eapply reads_bind_nil; [by apply reads_ue|apply reads_ret].
Qed.

Lemma acc_flag (b : bool) : accepts get_flag (just (flag b)) b.
Proof. apply acc_just, reads_hflag. Qed.

Lemma acc_opt m L : accepts m L tt → accepts (optional get_flag m) (opt L) tt.
Proof.
  intros Hm l [->|(x & -> & Hx)].
  - eapply reads_bind_nil; [apply (reads_hflag false)|apply reads_ret].
  - change (true :: x) with (flag true ++ x). eapply reads_bind; [apply (reads_hflag true)|by apply Hm].
Qed.

Lemma acc_rep n m L : accepts m L tt → accepts (repeat_m n m) (rep n L) tt.
Proof. intros Hm. induction n as [|n IH]; [apply acc_ret|]. by eapply acc_bind. Qed.

Lemma acc_when (c : bool) m L : (c = true → accepts m L tt) → accepts (if c then m else ret tt) (if c then L else eps) tt.
Proof. intros Hm. destruct c; [by apply Hm|apply acc_ret]. Qed.

Lemma acc_concat {A} (xs : list A) f F : (∀ x, accepts (f x) (F x) tt) → accepts (for_each xs f) (concat_set F xs) tt.
Proof. intros Hf. induction xs as [|x xs IH]; [apply acc_ret|]. eapply acc_bind; [apply Hf|exact IH]. Qed.

Lemma acc_deref {A} (o : option A) a : o = Some a → accepts (deref o) eps a.
Proof. intros -> l ->. apply reads_ret. Qed.

(** [acc]: walks a parser and its syntax in parallel. *)
Ltac acc :=
  lazymatch goal with
  | |- accepts (bind _ _) (_ +++ _) _ => first [eapply acc_bind; [solve [acc]|cbv beta iota; acc]|idtac]
  | |- accepts skip_ue _ _ => apply acc_skip_ue
  | |- accepts skip_se _ _ => apply acc_skip_se
  | |- accepts (skip_bits _) _ _ => apply acc_skip; lia
  | |- accepts (skip_bits_long _) _ _ => apply acc_skip_long; lia
  | |- accepts (optional get_flag _) _ _ => apply acc_opt; acc
  | |- accepts (repeat_m _ _) (rep _ _) _ => apply acc_rep; acc
  | |- accepts (ret _) _ _ => apply acc_ret
  | |- accepts (if ?c then _ else ret tt) (if ?c then _ else eps) _ => apply acc_when; intros _; acc
  | |- accepts get_flag (just (flag _)) _ => apply acc_flag
  | _ => idtac
  end.

(** *** Profile, tier and level *)

Lemma acc_sub_layer_flags fl :
  accepts (sub_layer_flags (length fl)) (just (concat (map (λ f, flag f.1 ++ flag f.2) fl))) fl.
Proof.
  apply acc_just. induction fl as [|[a b] fl IH]; [apply reads_ret|]. cbn [length sub_layer_flags map concat].
  rewrite <- app_assoc. eapply reads_bind; [apply reads_hflag|]. eapply reads_bind; [apply reads_hflag|].
  eapply reads_bind_nil; [exact IH|apply reads_ret].
Qed.

Lemma zbits_split a b v : 0 ≤ v → zbits (a + b) v = zbits a (Z.shiftr v (Z.of_nat b)) ++ zbits b v.
Proof.
  intros Hv. induction a as [|a IH]; [done|]. cbn [Nat.add]. rewrite !zbits_S, IH, Z.shiftr_spec by lia.
  cbn [app]. do 2 f_equal. lia.
Qed.

Lemma reads_48 v : 0 ≤ v < 2 ^ 48 → reads (get_bits64 48) (zbits 48 v) v.
Proof.
  intros Hv. change (get_bits64 48) with (high <- get_bits_long 16 ;; low <- get_bits_long 32 ;;
    ret (S:=HevcGetBitContext) (Z.lor (u64 (Z.shiftl high 32)) low)).
  rewrite (zbits_split 16 32) by lia. change (Z.of_nat 32) with 32.
  assert (0 ≤ Z.shiftr v 32 < 2 ^ 16) as Hh.
  { rewrite Z.shiftr_div_pow2 by lia. split; [apply Z.div_pos; lia|]. apply Z.div_lt_upper_bound; lia. }
  eapply reads_bind; [by apply (reads_long 16)|]. cbv beta.
  pose proof (Z.mod_pos_bound v (2 ^ 32) ltac:(lia)) as Hl.
  assert (zbits 32 v = zbits 32 (v `mod` 2 ^ 32)) as ->.
  { apply list_eq_same_length with 32%nat; [by rewrite zbits_length|by rewrite zbits_length|].
    intros i x y Hi. rewrite !zbits_lookup by lia. intros [= <-] [= <-].
    by rewrite Z.mod_pow2_bits_low by lia. }
  eapply reads_bind_nil; [by apply (reads_long 32)|].
  assert (Z.lor (u64 (Z.shiftl (Z.shiftr v 32) 32)) (v `mod` 2 ^ 32) = v) as ->; [|apply reads_ret].
  rewrite u64_small by (rewrite Z.shiftl_mul_pow2 by lia; lia).
  rewrite Z.lor_comm, lor_high by lia. rewrite Z.shiftr_div_pow2 by lia.
  pose proof (Z.div_mod v (2 ^ 32)). lia.
Qed.

Lemma acc_ptl hvcc p n : ptl_ok p → (n ≤ 6)%nat →
  accepts (hvcc_parse_ptl hvcc (Z.of_nat n)) (ptl_set p n) (hvcc_update_ptl hvcc (hvcc_ptl p)).
Proof.
  intros (H1 & H2 & H3 & H4 & H5) Hn l (x & y & -> & -> & fl & Hfl & Hy).
  unfold hvcc_parse_ptl. rewrite <- !app_assoc.
  eapply reads_bind; [by apply (reads_hget 2)|]. eapply reads_bind; [apply reads_hbit|].
  eapply reads_bind; [by apply (reads_hget 5)|]. eapply reads_bind; [by apply (reads_long 32)|].
  eapply reads_bind; [by apply reads_48|]. eapply reads_bind; [by apply (reads_hget 8)|].
  cbv beta zeta. fold (hvcc_ptl p). revert y Hy. change (∀ y, ?L y → reads ?m y ?a) with (accepts m L a).
  rewrite Nat2Z.id. subst n. eapply acc_bind; [apply acc_sub_layer_flags|]. cbv beta.
  eapply acc_bind.
  - destruct fl as [|f fl]; [apply acc_ret|]. rewrite (proj2 (Z.ltb_lt _ _)) by (cbn; lia). cbn [Nat.ltb Nat.leb length].
    replace (Z.to_nat (8 - Z.of_nat (S (length fl)))) with (8 - S (length fl))%nat by lia. acc.
  - cbv beta. eapply acc_last; [|apply acc_ret]. apply acc_concat. intros [a b].
    unfold skip_sub_layer, sub_layer_set. cbn [fst snd]. acc.
Qed.

Lemma acc_get3 n : (n ≤ 6)%nat → accepts (get_bits 3) (just (zbits 3 (Z.of_nat n))) (Z.of_nat n).
Proof. intros. apply acc_just, (reads_hget 3); lia. Qed.

Lemma acc_vps hvcc n p : (n ≤ 6)%nat → ptl_ok p →
  accepts (hvcc_parse_vps hvcc) (vps_set n p)
    (hvcc_update_ptl (hvcc_set_layers hvcc (Z.max (numTemporalLayers hvcc) (Z.of_nat n + 1)) (temporalIdNested hvcc))
       (hvcc_ptl p)).
Proof.
  intros Hn Hp. unfold hvcc_parse_vps, vps_set. acc. eapply acc_bind; [by apply acc_get3|]. cbv beta zeta. acc.
  rewrite u8_small by lia. by apply acc_ptl.
Qed.

Lemma acc_pps hvcc tiles sync :
  accepts (hvcc_parse_pps hvcc) (pps_set tiles sync)
    (hvcc_set_parallel hvcc (min_spatial_segmentation_idc hvcc)
       (if sync && tiles then 0 else if sync then 3 else if tiles then 2 else 1)).
Proof.
  unfold hvcc_parse_pps, pps_set. acc. intros l ->.
  eapply reads_bind; [apply reads_hflag|]. eapply reads_bind_nil; [apply reads_hflag|]. apply reads_ret.
Qed.

(** *** SPS *)

Lemma acc_scaling_list i : 0 ≤ i ≤ 3 → accepts (skip_scaling_list i) (scaling_list_set i) tt.
Proof.
  intros Hi l [(x & -> & Hx)|(x & -> & Hx)].
  - eapply (reads_bind _ _ (flag false)); [apply reads_hflag|]. by apply acc_skip_ue.
  - eapply (reads_bind _ _ (flag true)); [apply reads_hflag|]. cbv beta. cbn [negb].
    revert x Hx. change (∀ y, ?L y → reads ?m y ?a) with (accepts m L a).
    assert (Z.shiftl 1 (4 + Z.shiftl i 1) = 2 ^ (4 + 2 * i)) as ->.
    { by assert (i = 0 ∨ i = 1 ∨ i = 2 ∨ i = 3) as [->|[->|[->| ->]]] by lia. }
    acc.
Qed.

Lemma acc_scaling_lists : accepts skip_scaling_list_data scaling_lists_set tt.
Proof.
  unfold skip_scaling_list_data, scaling_lists_set. cbn [for_each].
  do 3 (eapply acc_bind; [apply acc_rep, acc_scaling_list; lia|cbv beta]).
  eapply acc_last; [apply acc_rep, acc_scaling_list; lia|apply acc_ret].
Qed.

Lemma acc_delta_flags n k c : 0 ≤ c → c + Z.of_nat n < 2 ^ 32 →
  accepts (rps_delta_flags n c) (delta_flags n k) (c + Z.of_nat k).
Proof.
  revert k c; induction n as [|n IH]; intros k c Hc Hn l Hl; cbn [rps_delta_flags delta_flags] in *.
  - destruct Hl as [-> ->]. rewrite Z.add_0_r. apply reads_ret.
  - destruct Hl as [(x & -> & k' & -> & Hx)|[(x & -> & k' & -> & Hx)|(x & -> & Hx)]].
    + eapply (reads_bind _ _ (flag true)); [apply reads_hflag|]. cbn [negb].
      eapply (reads_bind _ _ []); [apply reads_ret|]. cbn [orb]. rewrite u32_small by lia.
      replace (c + Z.of_nat (S k')) with (c + 1 + Z.of_nat k') by lia. apply IH; [lia|lia|done].
    + eapply (reads_bind _ _ (flag false)); [apply reads_hflag|]. cbn [negb].
      eapply (reads_bind _ _ (flag true)); [apply reads_hflag|]. cbn [orb]. rewrite u32_small by lia.
      replace (c + Z.of_nat (S k')) with (c + 1 + Z.of_nat k') by lia. apply IH; [lia|lia|done].
    + eapply (reads_bind _ _ (flag false)); [apply reads_hflag|]. cbn [negb].
      eapply (reads_bind _ _ (flag false)); [apply reads_hflag|]. cbn [orb]. apply IH; [lia|lia|done].
Qed.

Lemma rep_length n A k l : (∀ x, A x → (k ≤ length x)%nat) → rep n A l → (n * k ≤ length l)%nat.
Proof.
  intros HA. revert l; induction n as [|n IH]; intros l Hl; cbn in *; [lia|].
  destruct Hl as (x & y & -> & Hx & Hy). specialize (IH y Hy). specialize (HA x Hx). rewrite length_app. lia.
Qed.

Lemma pair_length x : (ue +++ anybits 1) x → (2 ≤ length x)%nat.
Proof.
  intros (a & b & -> & (v & _ & ->) & Hb). unfold anybits in Hb. rewrite length_app, Hb. unfold ue_bits.
  rewrite length_app, zbits_length. lia.
Qed.

Lemma hleft_ahead g l : ahead g l → get_bits_left g = zlen l.
Proof.
  intros (pos & [_ Hp (Hi & _ & _) Hl _ Hs] & Hpos & ->). unfold get_bits_left, get_bits_count.
  rewrite Hi, take_len by (rewrite bits_from_len; lia). rewrite i32_small; lia.
Qed.

(** The sizes read so far; only the last one is looked at. *)
Definition rps_sizes (idx prev : nat) (ds : list Z) : Prop :=
  length ds = idx ∧ (idx ≠ 0%nat → ds !! (idx - 1)%nat = Some (Z.of_nat prev)).

Lemma reads_rps idx prev k num ds l : (idx < num)%nat → (prev ≤ 16)%nat → (k ≤ 16)%nat → rps_sizes idx prev ds →
  rps_set idx prev k l → reads (parse_rps (Z.of_nat idx) (Z.of_nat num) ds) l (Some (ds ++ [Z.of_nat k])).
Proof.
  intros Hidx Hprev Hk [Hlen Hds] [(neg & pos & x & Hsum & -> & Hx)|(Hne & x & -> & Hx)]; unfold parse_rps.
  - eapply (reads_bind _ _ _ _ false).
    { destruct (Nat.eqb_spec idx 0) as [->|N]; [apply reads_ret|].
      rewrite (proj2 (Z.eqb_neq _ _)) by lia. apply (reads_hflag false). }
    cbv beta iota. destruct Hx as (? & ? & -> & -> & x2 & x3 & -> & -> & Hx3).
    eapply reads_bind; [apply reads_ue; unfold ue_range; lia|]. eapply reads_bind; [apply reads_ue; unfold ue_range; lia|].
    intros g rest Hg. unfold bind at 1. rewrite (hleft_ahead g _ Hg).
    assert (2 * k ≤ length x3)%nat as Hmin.
    { destruct Hx3 as (a & b & -> & Ha & Hb). pose proof (rep_length _ _ _ _ pair_length Ha).
      pose proof (rep_length _ _ _ _ pair_length Hb). rewrite length_app. lia. }
    assert (zlen (x3 ++ rest) < 2 ^ 31) as Hmax.
    { destruct Hg as (p & [_ Hp _ _ _ Hs] & Hpos & E). rewrite E, take_len; [lia|]. rewrite bits_from_len; lia. }
    rewrite (proj2 (Z.ltb_ge _ _)).
    2: { rewrite !u64_small by (unfold zlen in *; rewrite ?length_app in *; lia). unfold zlen. rewrite length_app. lia. }
    revert g rest Hg Hmax. intros g rest Hg _. revert g rest Hg. change (reads ?m x3 ?a) with (reads m x3 a).
    rewrite !Nat2Z.id. rewrite u32_small by lia. replace (Z.of_nat neg + Z.of_nat pos) with (Z.of_nat k) by lia.
    refine ((_ : accepts _ _ _) x3 Hx3). eapply acc_bind.
    { apply acc_rep. acc. }
    cbv beta. eapply acc_last; [|apply acc_ret]. apply acc_rep. acc.
  - eapply (reads_bind _ _ (flag true) _ true).
    { rewrite (proj2 (Z.eqb_neq _ _)) by lia. apply reads_hflag. }
    cbv beta iota. rewrite (proj2 (Z.leb_gt _ _)) by lia. refine ((_ : accepts _ _ _) x Hx). acc.
    eapply acc_first.
    { apply acc_deref. unfold rd. rewrite (proj2 (Z.leb_le _ _)) by lia.
      replace (Z.to_nat (Z.of_nat idx - 1)) with (idx - 1)%nat by lia. by apply Hds. }
    cbv beta. rewrite Nat2Z.id. eapply acc_last; [apply (acc_delta_flags _ k 0); lia|]. apply acc_ret.
Qed.

Lemma acc_rps_loop ks idx prev num ds : (idx + length ks ≤ num)%nat → (prev ≤ 16)%nat → Forall (λ k, (k ≤ 16)%nat) ks →
  rps_sizes idx prev ds →
  accepts (parse_rps_loop (length ks) (Z.of_nat idx) (Z.of_nat num) ds) (rps_sets idx prev ks)
    (Some (ds ++ map Z.of_nat ks)).
Proof.
  intros Hn Hp Hks. revert idx prev ds Hn Hp.
  induction Hks as [|k ks Hk _ IH]; intros idx prev ds Hn Hp Hds; cbn [length parse_rps_loop rps_sets map] in *.
  - rewrite app_nil_r. apply acc_ret.
  - intros l (x & y & -> & Hx & Hy). eapply reads_bind; [by apply (reads_rps idx prev k num ds); [lia|..]|].
    cbv beta iota. replace (Z.of_nat idx + 1) with (Z.of_nat (S idx)) by lia.
    replace (ds ++ Z.of_nat k :: map Z.of_nat ks) with ((ds ++ [Z.of_nat k]) ++ map Z.of_nat ks) by (by rewrite <- app_assoc).
    apply (IH (S idx) k); [lia|lia| |done]. destruct Hds as [Hl _]. split; [rewrite length_app; cbn; lia|].
    intros _. rewrite lookup_app_r by lia. replace (S idx - 1 - length ds)%nat with 0%nat by lia. done.
Qed.

(** *** VUI *)

Lemma acc_sub_hrd cpbs sub_pic : accepts (skip_sub_layer_hrd_parameters (Z.of_nat cpbs) sub_pic) (sub_hrd_set cpbs sub_pic) tt.
Proof. unfold skip_sub_layer_hrd_parameters, sub_hrd_set. rewrite Nat2Z.id. acc. Qed.

(** What follows the rate of a sub-layer. *)
Lemma hrd_layer_tail (low : bool) cpbs (nal vcl sub_pic : bool) (k : W HevcGetBitContext bool) x y :
  (cpbs ≤ 31)%nat → (low = true → cpbs = O) →
  ((if low then eps else just (ue_bits (Z.of_nat cpbs))) +++
   (if nal then sub_hrd_set cpbs sub_pic else eps) +++ (if vcl then sub_hrd_set cpbs sub_pic else eps)) x →
  reads k y true →
  reads (cpb_cnt_minus1 <- (if negb low then get_ue_golomb_long else ret 0) ;;
         if 31 <? cpb_cnt_minus1 then ret false else
         when nal do skip_sub_layer_hrd_parameters cpb_cnt_minus1 sub_pic ;;;
         when vcl do skip_sub_layer_hrd_parameters cpb_cnt_minus1 sub_pic ;;;
         k) (x ++ y) true.
Proof.
  intros Hc Hlow (c & r & -> & Hc' & n & v & -> & Hn & Hv) Hk. rewrite <- !app_assoc.
  apply (reads_bind _ _ c _ (Z.of_nat cpbs)).
  - destruct low; cbn [negb]; [rewrite (Hlow eq_refl), Hc'; apply reads_ret|].
    rewrite Hc'. apply reads_ue. unfold ue_range. lia.
  - cbv beta. rewrite (proj2 (Z.ltb_ge _ _)) by lia.
    eapply reads_bind; [refine ((_ : accepts _ _ _) n Hn); apply acc_when; intros _; apply acc_sub_hrd|].
    eapply reads_bind; [refine ((_ : accepts _ _ _) v Hv); apply acc_when; intros _; apply acc_sub_hrd|exact Hk].
Qed.

Lemma acc_hrd_layers n nal vcl sub_pic :
  accepts (skip_hrd_layers n (nal, vcl, sub_pic)) (rep n (hrd_layer_set nal vcl sub_pic)) true.
Proof.
  induction n as [|n IH]; [apply acc_ret|]. cbn [skip_hrd_layers rep fst snd].
  intros l (x & y & -> & (low & cpbs & Hc & Hlow & x1 & x2 & -> & Hr & Hx2) & Hy). rewrite <- app_assoc.
  pose proof (hrd_layer_tail low cpbs nal vcl sub_pic _ x2 y Hc Hlow Hx2 (IH y Hy)) as Htail.
  destruct Hr as [->|(-> & v & -> & Hv)].
  - change ([false; false; low] ++ ?l) with (flag false ++ flag false ++ flag low ++ l).
    eapply reads_bind; [apply reads_hflag|]. cbn [negb]. eapply reads_bind; [apply reads_hflag|]. cbv beta iota.
    eapply reads_bind; [apply reads_hflag|exact Htail].
  - change ((false :: true :: v) ++ ?l) with (flag false ++ flag true ++ v ++ l).
    eapply reads_bind; [apply reads_hflag|]. cbn [negb]. eapply reads_bind; [apply reads_hflag|]. cbv beta iota.
    eapply reads_bind; [eapply reads_bind_nil; [by apply acc_skip_ue|apply reads_ret]|exact Htail].
Qed.

Lemma acc_hrd n : accepts (skip_hrd_parameters true (Z.of_nat n)) (hrd_set n) true.
Proof.
  intros l (nal & vcl & sub_pic & Hsub & x & y & -> & -> & c & z & -> & Hc & Hz).
  unfold skip_hrd_parameters. rewrite Nat2Z.id, app_assoc. apply (reads_bind _ _ _ _ (nal, vcl, sub_pic)).
  - unfold parse_hrd_common. rewrite <- app_assoc. eapply reads_bind; [apply reads_hflag|]. eapply reads_bind; [apply reads_hflag|].
    cbv beta. destruct (nal || vcl) eqn:E.
    + refine ((_ : accepts _ _ _) c Hc). acc.
      eapply acc_last; [acc|apply acc_ret].
    + rewrite Hc. destruct sub_pic; [by specialize (Hsub eq_refl)|]. apply reads_ret.
  - by apply acc_hrd_layers.
Qed.

Lemma acc_vui hvcc n seg : (∀ v, seg = Some v → 0 ≤ v ≤ 4095) →
  accepts (hvcc_parse_vui hvcc (Z.of_nat n)) (vui_set n seg)
    (match seg with
     | Some v => hvcc_set_parallel hvcc (Z.min (min_spatial_segmentation_idc hvcc) v) (parallelismType hvcc)
     | None => hvcc
     end).
Proof.
  intros Hseg. unfold hvcc_parse_vui, vui_set. eapply acc_bind.
  { apply acc_opt. intros l (idc & Hi & x & y & -> & -> & Hy).
    eapply reads_bind; [apply (reads_hget 8); lia|]. refine ((_ : accepts _ _ _) y Hy). acc. }
  cbv beta. acc. eapply acc_bind.
  { acc. eapply acc_last; [apply acc_hrd|apply acc_ret]. }
  cbv beta. destruct seg as [v|].
  - specialize (Hseg v eq_refl). acc. eapply acc_bind; [apply acc_ue; unfold ue_range; lia|]. cbv beta zeta.
    rewrite u16_small by lia. eapply acc_last; [acc|apply acc_ret].
  - eapply acc_last; [apply acc_flag|apply acc_ret].
Qed.

(** *** The whole SPS *)

(** The record after an SPS. *)
Definition sps_base (hvcc : HEVCDecoderConfigurationRecord) (v : sps_values) : HEVCDecoderConfigurationRecord :=
  hvcc_set_format
    (hvcc_update_ptl
       (hvcc_set_layers hvcc (Z.max (numTemporalLayers hvcc) (Z.of_nat (s_layers v) + 1)) (Z.b2z (s_nested v)))
       (hvcc_ptl (s_ptl v)))
    (s_chroma v) (s_luma_depth v) (s_chroma_depth v).

Definition sps_hvcc (hvcc : HEVCDecoderConfigurationRecord) (v : sps_values) : HEVCDecoderConfigurationRecord :=
  let h := sps_base hvcc v in
  match s_seg v with
  | Some (Some seg) => hvcc_set_parallel h (Z.min (min_spatial_segmentation_idc h) seg) (parallelismType h)
  | _ => h
  end.

Lemma acc_sps_head hvcc v : sps_ok v →
  accepts (parse_sps_head hvcc) (sps_head_set v) (sps_base hvcc v, s_poc_bits v, Z.of_nat (s_layers v)).
Proof.
  intros (Hn & Hp & Hc & Hl & Hd & Hb & _). unfold parse_sps_head, sps_head_set. acc.
  eapply acc_bind; [by apply acc_get3|]. cbv beta. eapply acc_bind; [apply acc_just, reads_hbit|]. cbv beta zeta.
  rewrite u8_small by lia. eapply acc_bind; [by apply acc_ptl|]. cbv beta. acc.
  eapply acc_bind; [apply acc_ue; unfold ue_range; lia|]. cbv beta. rewrite (u8_small (s_chroma v)) by lia. acc.
  eapply acc_bind; [apply acc_ue; unfold ue_range; lia|]. cbv beta.
  eapply acc_bind; [apply acc_ue; unfold ue_range; lia|]. cbv beta.
  eapply acc_last; [apply acc_ue; unfold ue_range; lia|]. cbv beta. rewrite !u8_small by lia. apply acc_ret.
Qed.

Lemma acc_sps_coding n : accepts (skip_sps_coding (Z.of_nat n)) (sps_coding_set n) tt.
Proof.
  intros l (x & y & -> & (all & a & b & -> & -> & Hb) & Hy). unfold skip_sps_coding. rewrite <- app_assoc.
  eapply reads_bind; [apply reads_hflag|]. cbv beta. rewrite Nat2Z.id.
  eapply reads_bind; [refine ((_ : accepts _ _ _) b Hb); acc|].
  refine ((_ : accepts _ _ _) y Hy). acc. eapply acc_bind; [|cbv beta; acc].
  apply acc_opt, acc_opt, acc_scaling_lists.
Qed.

Lemma acc_long_term b : 0 ≤ b ≤ 12 → accepts (skip_long_term_refs b) (long_term_set b) true.
Proof.
  intros Hb l [->|(x & -> & n & Hn & Hx)]; unfold skip_long_term_refs.
  - eapply reads_bind_nil; [apply (reads_hflag false)|apply reads_ret].
  - change (true :: x) with (flag true ++ x). eapply reads_bind; [apply (reads_hflag true)|]. cbn [negb].
    refine ((_ : accepts _ _ _) x Hx). eapply acc_bind; [apply acc_ue; unfold ue_range; lia|]. cbv beta.
    rewrite (proj2 (Z.ltb_ge _ _)), Nat2Z.id by lia. cbv zeta. rewrite (u32_small (b + 4)), i32_small by lia.
    rewrite Z.min_l, u32_small by lia. eapply acc_last; [|apply acc_ret]. acc.
Qed.

Lemma acc_sps hvcc v : sps_ok v → accepts (hvcc_parse_sps hvcc) (sps_set v) (Some (sps_hvcc hvcc v)).
Proof.
  intros Hok. pose proof Hok as (Hn & _ & _ & _ & _ & Hb & Hseg). unfold hvcc_parse_sps, sps_set.
  eapply acc_bind; [by apply acc_sps_head|]. cbv beta iota. eapply acc_bind; [apply acc_sps_coding|]. cbv beta.
  intros l (x & y & -> & (ks & Hl & Hks & a & b & -> & -> & Hx) & Hy). rewrite <- app_assoc.
  eapply reads_bind; [apply reads_ue; unfold ue_range; lia|]. cbv beta.
  rewrite (proj2 (Z.ltb_ge _ _)), Nat2Z.id by (unfold HEVC_MAX_SHORT_TERM_REF_PIC_SETS; lia).
  eapply reads_bind; [apply (acc_rps_loop ks 0 0 (length ks) []); [lia|lia|done|done|exact Hx]|]. cbv beta iota.
  refine ((_ : accepts _ _ _) y Hy). eapply acc_bind; [by apply acc_long_term|]. cbn [negb]. acc.
  unfold sps_hvcc. destruct (s_seg v) as [seg|].
  - eapply acc_bind; [apply acc_flag|]. cbv beta iota.
    eapply acc_last; [apply acc_vui; intros s ->; by apply Hseg|apply acc_ret].
  - eapply acc_last; [apply acc_flag|]. cbv beta iota. eapply acc_first; apply acc_ret.
Qed.
