(* ===== verification/HevcRecord.v ===== *)
(** * The HEVC configuration record

    [obs_parse_hevc_header] on extra data whose NAL units follow the syntax of
    HevcSyntax.v: the parameter sets are parsed with the values they code, collected in
    the arrays of the record, and written so that a reader gets all of it back. *)

From S2P Require Import Prelude Serializer Bitstream Bits Nal NalPacket Avc Hevc RtmpHevc HevcSyntax.

Local Open Scope Z_scope.
Local Open Scope serializer_scope.

(** ** NAL units *)

(** A unit of type [t] whose payload, escaped after the two header bytes, starts with
    bits of [L]. *)
Definition nal_of (t : Z) (L : bits_set) (nal : bytes) : Prop :=
  ∃ h0 h1 payload x y, nal = h0 :: h1 :: escape_rbsp 0 payload ∧
    is_byte h0 ∧ is_byte h1 ∧ Forall is_byte payload ∧ Z.land (Z.shiftr h0 1) 63 = t ∧
    all_bits payload = x ++ y ∧ L x ∧ zlen nal < 2 ^ 16.

(** The units that matter, with the values they code. *)
Inductive hevc_unit :=
  | U_VPS (layers : nat) (p : ptl)
  | U_SPS (v : sps_values)
  | U_PPS (tiles sync : bool)
  | U_SEI (suffix : bool)
  | U_OTHER (t : Z).

Definition unit_type (u : hevc_unit) : Z :=
  match u with
  | U_VPS _ _ => OBS_HEVC_NAL_VPS | U_SPS _ => OBS_HEVC_NAL_SPS | U_PPS _ _ => OBS_HEVC_NAL_PPS
  | U_SEI suffix => if suffix then OBS_HEVC_NAL_SEI_SUFFIX else OBS_HEVC_NAL_SEI_PREFIX
  | U_OTHER t => t
  end.

Definition unit_ok (u : hevc_unit) (nal : bytes) : Prop :=
  match u with
  | U_VPS n p => (n ≤ 6)%nat ∧ ptl_ok p ∧ nal_of OBS_HEVC_NAL_VPS (vps_set n p) nal
  | U_SPS v => sps_ok v ∧ nal_of OBS_HEVC_NAL_SPS (sps_set v) nal
  | U_PPS tiles sync => nal_of OBS_HEVC_NAL_PPS (pps_set tiles sync) nal
  | U_SEI suffix => nal_of (unit_type u) eps nal
  | U_OTHER t => ¬ (t ∈ array_idx_to_type) ∧
      (∃ b l, nal = b :: l ∧ is_byte b ∧ Forall is_byte l ∧ Z.land (Z.shiftr b 1) 63 = t ∧ zlen nal < 2 ^ 16)
  end.

(** What a unit changes in the fields of the record. *)
Definition unit_fields (h : HEVCDecoderConfigurationRecord) (u : hevc_unit) : HEVCDecoderConfigurationRecord :=
  match u with
  | U_VPS n p =>
      hvcc_update_ptl (hvcc_set_layers h (Z.max (numTemporalLayers h) (Z.of_nat n + 1)) (temporalIdNested h))
        (hvcc_ptl p)
  | U_SPS v => sps_hvcc h v
  | U_PPS tiles sync =>
      hvcc_set_parallel h (min_spatial_segmentation_idc h)
        (if sync && tiles then 0 else if sync then 3 else if tiles then 2 else 1)
  | _ => h
  end.

Definition unit_index (u : hevc_unit) : option nat :=
  match u with
  | U_VPS _ _ => Some 0%nat | U_SPS _ => Some 1%nat | U_PPS _ _ => Some 2%nat
  | U_SEI suffix => Some (if suffix then 4%nat else 3%nat)
  | U_OTHER _ => None
  end.

(** ** The arrays *)

Definition array_data (nals : list bytes) : bytes := concat (map (λ n, be16 (zlen n) ++ n) nals).

Definition array_of (c t : Z) (nals : list bytes) : HVCCNALUnitArray :=
  match nals with
  | [] => mk_hvcc_array 0 0 0 array_output_serializer_init
  | _ => mk_hvcc_array c t (zlen nals) (mk_array_output (array_data nals) (zlen (array_data nals)))
  end.

Definition arrays_of (ls : list (list bytes)) : list HVCCNALUnitArray :=
  zip_with (λ ct nals, array_of ct.1 ct.2 nals)
    [(1, OBS_HEVC_NAL_VPS); (1, OBS_HEVC_NAL_SPS); (1, OBS_HEVC_NAL_PPS);
     (0, OBS_HEVC_NAL_SEI_PREFIX); (0, OBS_HEVC_NAL_SEI_SUFFIX)] ls.

Definition used (nals : list bytes) : Z := match nals with [] => 0 | _ => 1 end.
Definition count_arrays (ls : list (list bytes)) : Z := foldr (λ l n, used l + n) 0 ls.

(** The record with the fields of [h] and the units [ls] collected. *)
Definition with_units (h : HEVCDecoderConfigurationRecord) (ls : list (list bytes)) :=
  hvcc_set_arrays h (count_arrays ls) (arrays_of ls).

Lemma array_data_snoc nals nal : array_data (nals ++ [nal]) = array_data nals ++ be16 (zlen nal) ++ nal.
Proof. unfold array_data. by rewrite map_app, concat_app; cbn; rewrite app_nil_r. Qed.

(** Bounds that keep the array sizes and the counts in range. *)
Definition small_units (nals : list bytes) : Prop :=
  Forall (λ n, zlen n < 2 ^ 16) nals ∧ zlen nals < 2 ^ 16.

Lemma array_data_len nals : Forall (λ n, zlen n < 2 ^ 16) nals → zlen (array_data nals) ≤ 2 ^ 17 * zlen nals.
Proof.
  intros H. induction H as [|n l Hn _ IH]; [done|]. unfold array_data in *. cbn [map concat].
  rewrite zlen_cons, !zlen_app, be16_len. lia.
Qed.

Lemma array_add c t nals nal :
  c = (if (t =? OBS_HEVC_NAL_VPS) || (t =? OBS_HEVC_NAL_SPS) || (t =? OBS_HEVC_NAL_PPS) then 1 else 0) →
  small_units (nals ++ [nal]) →
  hvcc_array_add_nal_unit nal t 1 (array_of c t nals) = Some (array_of c t (nals ++ [nal])).
Proof.
  intros Hc [Hs Hn]. unfold hvcc_array_add_nal_unit.
  pose proof (array_data_len _ Hs) as Hl. rewrite array_data_snoc in Hl. rewrite zlen_app in Hn.
  assert (nalUnitData (array_of c t nals) = mk_array_output (array_data nals) (zlen (array_data nals))) as -> by (by destruct nals).
  rewrite (emits_array_at _ _ (be16 (zlen nal) ++ nal) tt).
  - cbn [mbind option_bind].
    assert (u16 (numNalus (array_of c t nals) + 1) = zlen (nals ++ [nal])) as ->.
    { replace (numNalus (array_of c t nals)) with (zlen nals) by (by destruct nals). rewrite zlen_app.
      apply u16_small. change (zlen [nal]) with 1 in *. len_lia. }
    rewrite <- array_data_snoc. unfold array_of at 2. destruct (nals ++ [nal]) as [|n l] eqn:E; [by destruct nals|].
    do 2 f_equal. rewrite Hc. destruct (_ || _); [done|]. by destruct nals.
  - eapply emits_seq; [eauto with emits|reflexivity|apply emits_put].
  - revert Hl Hn. rewrite !zlen_app. change (zlen [nal]) with 1. unfold MAX_POS. lia.
Qed.

(** ** One unit *)

(** The reader on a unit: its two header bytes and its payload. *)
Lemma init_unit h0 h1 payload : is_byte h0 → is_byte h1 → Forall is_byte payload → zlen payload < 2 ^ 27 →
  ∃ g, init_get_bits8 ((h0 :: h1 :: payload) ++ replicate 64 0) (zlen (h0 :: h1 :: payload)) = Some (0, g) ∧
    ahead g (zbits 8 h0 ++ zbits 8 h1 ++ all_bits payload).
Proof.
  intros H0 H1 Hp Hl. set (m := h0 :: h1 :: payload). assert (zlen m = 2 + zlen payload) as Hm by (unfold m; len_lia).
  pose proof (zlen_nonneg payload). assert (zlen (m ++ replicate 64 0) = zlen m + 64) as Hlen by len_lia.
  unfold init_get_bits8, init_get_bits, init_get_bits_xe. change (INT_MAX / 8) with 268435455.
  change (INT_MAX - 64 * 8) with 2147483135.
  rewrite (proj2 (Z.ltb_ge 268435455 _)), (proj2 (Z.ltb_ge (zlen m) 0)) by lia. cbn [orb]. cbv iota.
  rewrite (proj2 (Z.leb_gt _ _)), (proj2 (Z.ltb_ge (zlen m * 8) 0)) by lia. cbn [orb].
  set (g0 := mk_hgb (m ++ replicate 64 0) 0 0 0 (zlen m * 8)).
  assert (cached g0 0) as Hc.
  { constructor; cbn [hb_buffer hb_cache hb_bits_left hb_index hb_size_in_bits g0]; [|lia| |lia|done|lia].
    - apply Forall_app. split; [by constructor; [|constructor]|]. apply Forall_replicate. by unfold is_byte.
    - split; [done|]. split; [by exists 0|]. lia. }
  destruct (refill_spec g0 0 Hc) as (g & -> & Hg & _ & Eb & Es); [done|cbn [g0 hb_buffer hb_index]; lia|].
  exists g. split; [done|]. exists 0. split; [done|]. rewrite Eb, Es. cbn [g0 hb_buffer hb_size_in_bits].
  split; [lia|]. rewrite Z.sub_0_r. unfold bits_from. rewrite drop_0, all_bits_app.
  replace (Z.to_nat (zlen m * 8)) with (length (all_bits m)) by (rewrite all_bits_length; unfold zlen; lia).
  by rewrite take_app_length.
Qed.

Lemma header_bits_byte b : is_byte b → zbits 8 b = flag (Z.testbit b 7) ++ zbits 6 (Z.land (Z.shiftr b 1) 63) ++ flag (Z.testbit b 0).
Proof.
  intros Hb.
  assert (forallb (λ b, bool_decide (zbits 8 b =
    flag (Z.testbit b 7) ++ zbits 6 (Z.land (Z.shiftr b 1) 63) ++ flag (Z.testbit b 0))) (seqZ 0 256) = true) as F
    by (vm_compute; reflexivity).
  rewrite forallb_forall in F. specialize (F b). rewrite <- list_elem_of_In, elem_of_seqZ in F.
  unfold is_byte in Hb. specialize (F ltac:(lia)). by apply bool_decide_eq_true_1 in F.
Qed.

Lemma reads_unit_header h0 h1 : is_byte h0 →
  reads nal_unit_parse_header (zbits 8 h0 ++ zbits 8 h1) (Z.land (Z.shiftr h0 1) 63).
Proof.
  intros H0. rewrite header_bits_byte, <- !app_assoc by done. unfold nal_unit_parse_header.
  eapply reads_bind; [by apply (acc_skip 1 1); [|lia|]|]. eapply reads_bind.
  - apply (reads_hget 6); [lia|]. change 63 with (Z.ones 6). rewrite Z.land_ones by lia. by apply Z.mod_pos_bound.
  - eapply reads_bind_nil; [|apply reads_ret]. apply (acc_skip 9 9); [done|lia|].
    unfold anybits. by rewrite length_app, zbits_length.
Qed.

Lemma escape_length_le z l : (length l ≤ length (escape_rbsp z l))%nat.
Proof.
  revert z; induction l as [|b l IH]; intros z; [done|]. cbn [escape_rbsp].
  destruct (_ && _); cbn [length]; pose proof (IH (if b =? 0 then 1%nat else 0%nat));
    pose proof (IH (if b =? 0 then S z else 0%nat)); lia.
Qed.

(** The parser a unit is given to, with the type the reader finds. *)
Definition parse_unit (t : Z) (h : HEVCDecoderConfigurationRecord) : W HevcGetBitContext (option HEVCDecoderConfigurationRecord) :=
  if t =? OBS_HEVC_NAL_VPS then h <- hvcc_parse_vps h ;; ret (Some h)
  else if t =? OBS_HEVC_NAL_SPS then hvcc_parse_sps h
  else if t =? OBS_HEVC_NAL_PPS then h <- hvcc_parse_pps h ;; ret (Some h)
  else ret (Some h).

Lemma add_unit t L nal h h' i a a' :
  nal_of t L nal → arrays h !! i = Some a → hvcc_array_add_nal_unit nal t 1 a = Some a' →
  accepts (parse_unit t (hvcc_set_arrays h (if numNalus a' =? 1 then u8 (numOfArrays h + 1) else numOfArrays h)
                           (<[i := a']> (arrays h)))) L (Some h') →
  hvcc_add_nal_unit nal 1 h i = Some (Some h').
Proof.
  intros (h0 & h1 & payload & x & y & -> & H0 & H1 & Hp & <- & Ebits & Hx & Hlen) Ha Ha' Hacc.
  unfold hvcc_add_nal_unit, ff_nal_unit_extract_rbsp.
  change (drop (Z.to_nat 2) (h0 :: h1 :: ?l)) with l. change (take (Z.to_nat 2) (h0 :: h1 :: ?l)) with [h0; h1].
  pose proof (extract_escape_zeros payload 0 Hp ltac:(lia)) as Er. cbn [replicate app] in Er. rewrite Er.
  change ([h0; h1] ++ payload) with (h0 :: h1 :: payload).
  assert (zlen payload < 2 ^ 16) as Hpl.
  { pose proof (escape_length_le 0 payload). rewrite !zlen_cons in Hlen. unfold zlen in *. lia. }
  destruct (init_unit h0 h1 payload H0 H1 Hp ltac:(lia)) as (g & Eg & Hg).
  rewrite i32_small by (rewrite !zlen_cons; pose proof (zlen_nonneg payload); lia).
  rewrite Eg. cbn [mbind option_bind]. change (0 <? 0) with false. cbv iota. rewrite app_assoc in Hg.
  destruct (reads_unit_header h0 h1 H0 g _ Hg) as (g1 & -> & Hg1). cbn [mbind option_bind].
  rewrite Ha. cbn [mbind option_bind]. rewrite Ha'. cbn [mbind option_bind].
  rewrite Ebits in Hg1. destruct (Hacc x Hx g1 y Hg1) as (g2 & E2 & _).
  unfold parse_unit in E2. by rewrite E2.
Qed.

(** ** Sequences of units *)

Definition collect (ls : list (list bytes)) (u : hevc_unit * bytes) : list (list bytes) :=
  match unit_index u.1 with Some i => alter (λ l, l ++ [u.2]) i ls | None => ls end.

Lemma used_snoc l x : used (l ++ [x]) = 1.
Proof. by destruct l. Qed.

Lemma numNalus_of c t l : numNalus (array_of c t l) = zlen l.
Proof. by destruct l. Qed.

(** The class of the arrays: completeness and type. *)
Definition array_kind (i : nat) : Z * Z :=
  match i with
  | 0%nat => (1, OBS_HEVC_NAL_VPS) | 1%nat => (1, OBS_HEVC_NAL_SPS) | 2%nat => (1, OBS_HEVC_NAL_PPS)
  | 3%nat => (0, OBS_HEVC_NAL_SEI_PREFIX) | _ => (0, OBS_HEVC_NAL_SEI_SUFFIX)
  end.

Lemma arrays_add ls i nals nal : length ls = 5%nat → ls !! i = Some nals →
  let a := array_of (array_kind i).1 (array_kind i).2 in
  let ls' := alter (λ l, l ++ [nal]) i ls in
  arrays_of ls !! i = Some (a nals) ∧ <[i := a (nals ++ [nal])]> (arrays_of ls) = arrays_of ls' ∧
  (if numNalus (a (nals ++ [nal])) =? 1 then u8 (count_arrays ls + 1) else count_arrays ls) = count_arrays ls'.
Proof.
  intros Hl Hi. destruct ls as [|l0 [|l1 [|l2 [|l3 [|l4 [|]]]]]]; try done.
  assert (∀ l : list bytes, 0 ≤ used l ≤ 1) as Hu by (by intros []).
  cbv zeta. rewrite numNalus_of, zlen_app. change (zlen [nal]) with 1.
  pose proof (Hu l0). pose proof (Hu l1). pose proof (Hu l2). pose proof (Hu l3). pose proof (Hu l4).
  assert ((zlen nals + 1 =? 1) = (used nals =? 0)) as -> by (destruct nals; [done|]; rewrite zlen_cons; cbn; len_lia).
  destruct i as [|[|[|[|[|i]]]]]; cbn in Hi; try done; injection Hi as <-;
    (split; [reflexivity|split; [reflexivity|]]); cbn [count_arrays foldr alter list_alter];
    rewrite used_snoc; (case_match eqn:E; [rewrite u8_small by lia; lia|lia]).
Qed.

Lemma unit_index_type u i : unit_index u = Some i →
  list_find (λ t, t = unit_type u) array_idx_to_type = Some (i, unit_type u) ∧
  (array_kind i).2 = unit_type u ∧ (i < 5)%nat ∧
  (array_kind i).1 = (if (unit_type u =? OBS_HEVC_NAL_VPS) || (unit_type u =? OBS_HEVC_NAL_SPS) ||
                         (unit_type u =? OBS_HEVC_NAL_PPS) then 1 else 0).
Proof. destruct u as [| | |[]|]; intros [= <-]; repeat split; lia. Qed.

Lemma acc_unit u h n l : match u with U_SPS v => sps_ok v | U_VPS k p => (k ≤ 6)%nat ∧ ptl_ok p | U_OTHER _ => False | _ => True end →
  accepts (parse_unit (unit_type u) (hvcc_set_arrays h n l))
    (match u with U_VPS k p => vps_set k p | U_SPS v => sps_set v | U_PPS a b => pps_set a b | _ => eps end)
    (Some (hvcc_set_arrays (unit_fields h u) n l)).
Proof.
  destruct u as [k p|v|a b|suffix|t]; intros Hu; try done; unfold parse_unit; cbn [unit_type].
  - eapply acc_last; [apply acc_vps; tauto|]. apply acc_ret.
  - change (OBS_HEVC_NAL_SPS =? OBS_HEVC_NAL_VPS) with false. change (OBS_HEVC_NAL_SPS =? OBS_HEVC_NAL_SPS) with true. cbv iota.
    replace (hvcc_set_arrays (unit_fields h (U_SPS v)) n l) with (sps_hvcc (hvcc_set_arrays h n l) v); [by apply acc_sps|].
    cbn [unit_fields]. unfold sps_hvcc. by destruct (s_seg v) as [[]|].
  - eapply acc_last; [apply acc_pps|]. apply acc_ret.
  - destruct suffix; apply acc_ret.
Qed.

Definition small_all (ls : list (list bytes)) : Prop := length ls = 5%nat ∧ Forall small_units ls.

(** One iteration of the loop over the length-prefixed units. *)
Lemma unit_step u nal h ls : unit_ok u nal → length ls = 5%nat → Forall small_units (collect ls (u, nal)) →
  match list_find (λ t, t = unit_type u) array_idx_to_type with
  | Some (i, _) => hvcc_add_nal_unit nal 1 (with_units h ls) i
  | None => Some (Some (with_units h ls))
  end = Some (Some (with_units (unit_fields h u) (collect ls (u, nal)))).
Proof.
  intros Hu Hl Hs. unfold collect in *. cbn [fst snd] in *. destruct (unit_index u) as [i|] eqn:Ei.
  - destruct (unit_index_type u i Ei) as (-> & Ek & Hi & Ec).
    destruct (lookup_lt_is_Some_2 ls i ltac:(lia)) as [nals Hn].
    destruct (arrays_add ls i nals nal Hl Hn) as (Ea & Eins & Ecount).
    assert (small_units (nals ++ [nal])) as Hsm.
    { eapply Forall_lookup_1; [exact Hs|]. by rewrite list_lookup_alter_eq, Hn. }
    pose proof (array_add (array_kind i).1 (array_kind i).2 nals nal) as Eadd. rewrite Ek in *.
    eapply add_unit; [|exact Ea|apply Eadd; [exact Ec|done]|].
    2: { cbn [arrays with_units hvcc_set_arrays numOfArrays]. rewrite Eins. cbv zeta in Ecount. rewrite Ecount.
         apply (acc_unit u h). destruct u; [split; apply Hu|apply Hu|done..]. }
    destruct u; [apply Hu|apply Hu|exact Hu|exact Hu|done].
  - destruct u as [| | |[]|t]; try done. cbn [unit_type unit_fields]. destruct Hu as [Hnot _].
    assert (list_find (λ t', t' = t) array_idx_to_type = None) as ->; [|done].
    apply list_find_None, Forall_forall. by intros x Hx ->.
Qed.

(** Units with their lengths before them. *)
Definition prefixed (nals : list bytes) : bytes := concat (map (λ n, be32 (zlen n) ++ n) nals).

Lemma rb32_be32 z l : rb32 (be32 z ++ l) 0 = Some (u32 z).
Proof.
  rewrite <- (be32_val z). unfold be32, be16, rb32, rd. cbn [app]. simpl.
  set (b0 := u8 _). set (b1 := u8 (Z.shiftr z 16)). set (b2 := u8 (Z.shiftr z 8)). set (b3 := u8 z).
  pose proof (u8_range (Z.shiftr (Z.shiftr z 16) 8)). fold b0 in H.
  pose proof (u8_range (Z.shiftr z 16)). pose proof (u8_range (Z.shiftr z 8)). pose proof (u8_range z).
  fold b1 in H0. fold b2 in H1. fold b3 in H2. clearbody b0 b1 b2 b3.
  rewrite !Z.shiftl_mul_pow2 by lia. rewrite u32_small by lia. f_equal. unfold be_val. cbn [foldl]. lia.
Qed.

(** The first byte of a unit gives its type. *)
Lemma unit_first u nal : unit_ok u nal → ∃ b l, nal = b :: l ∧ Z.land (Z.shiftr b 1) 63 = unit_type u ∧ zlen nal < 2 ^ 16.
Proof.
  assert (∀ t L, nal_of t L nal → ∃ b l, nal = b :: l ∧ Z.land (Z.shiftr b 1) 63 = t ∧ zlen nal < 2 ^ 16) as Hn.
  { intros t L (h0 & h1 & payload & x & y & -> & _ & _ & _ & <- & _ & _ & Hl). by eexists _, _. }
  destruct u; cbn [unit_ok unit_type]; intros H.
  - by eapply Hn, H.
  - by eapply Hn, H.
  - by eapply Hn, H.
  - by eapply Hn, H.
  - destruct H as (_ & b & l & -> & _ & _ & <- & Hl). by eexists _, _.
Qed.

Lemma prefixed_cons nal nals : prefixed (nal :: nals) = be32 (zlen nal) ++ (nal ++ prefixed nals).
Proof. unfold prefixed. cbn [map concat]. by rewrite <- app_assoc. Qed.

Lemma hvcc_loop_units units fuel h ls :
  Forall (λ u, unit_ok u.1 u.2) units → length ls = 5%nat →
  (∀ k, Forall small_units (foldl collect ls (take k units))) →
  zlen (prefixed (map snd units)) ≤ INT_MAX → (length units ≤ fuel)%nat →
  hvcc_loop fuel (prefixed (map snd units)) (with_units h ls) =
    Some (Some (with_units (foldl unit_fields h (map fst units)) (foldl collect ls units))).
Proof.
  intros Hu. revert fuel h ls. induction Hu as [|[u nal] units Hu _ IH]; intros fuel h ls Hl Hs Hmax Hf.
  - by destruct fuel.
  - destruct fuel as [|fuel]; [cbn in Hf; lia|]. cbn [map fst snd] in *.
    destruct (unit_first u nal Hu) as (b & l & -> & Et & Hlen).
    rewrite prefixed_cons in *. pose proof (zlen_nonneg (prefixed (map snd units))).
    cbn [hvcc_loop]. rewrite (proj2 (Z.leb_gt _ 4)) by len_lia.
    rewrite rb32_be32. cbn [mbind option_bind].
    change (drop 4 (be32 ?z ++ ?k)) with k. rewrite (proj2 (Z.ltb_ge _ _)) by len_lia.
    rewrite !u32_small by (unfold INT_MAX in *; len_lia). rewrite Z.min_l by len_lia.
    change (rd ((b :: l) ++ ?k) 0) with (Some b). cbn [mbind option_bind].
    rewrite zlen_to_nat, take_app_length, drop_app_length, Et.
    rewrite (unit_step u (b :: l) h ls Hu Hl).
    + cbn [mbind option_bind foldl]. apply IH; [|intros k; apply (Hs (S k))|len_lia|cbn in Hf; lia].
      unfold collect. cbn [fst snd]. destruct (unit_index u); [by rewrite length_alter|done].
    + apply (Hs 1%nat).
Qed.

Definition short_units (m : Z) (l : list bytes) : Prop := Forall (λ n, zlen n < 2 ^ 16) l ∧ zlen l ≤ m.

Lemma collect_small units ls m : Forall (λ u, unit_ok u.1 u.2) units →
  Forall (short_units m) ls → Forall (short_units (m + zlen units)) (foldl collect ls units).
Proof.
  intros Hu. revert ls m. induction Hu as [|[u nal] units Hu _ IH]; intros ls m Hls.
  - rewrite zlen_nil, Z.add_0_r. done.
  - cbn [foldl]. destruct (unit_first u nal Hu) as (_ & _ & _ & _ & Hn).
    rewrite zlen_cons, Z.add_assoc. apply IH. unfold collect. cbn [fst snd].
    assert (∀ l, short_units m l → short_units (m + 1) l) as Hw by (intros l [? ?]; split; [done|lia]).
    destruct (unit_index u) as [i|]; [|by eapply Forall_impl].
    apply Forall_lookup. intros j l Hj.
    destruct (decide (i = j)) as [<-|N].
    + rewrite list_lookup_alter_eq in Hj. destruct (ls !! i) as [l0|] eqn:E; [|done]. injection Hj as <-.
      eapply Forall_lookup_1 in Hls as [H1 H2]; [|exact E]. split; [|len_lia].
      apply Forall_app. split; [done|]. by repeat constructor.
    + rewrite list_lookup_alter_ne in Hj by done. eapply Forall_lookup_1 in Hls; [|exact Hj]. by apply Hw.
Qed.

Lemma collected_small units k : Forall (λ u, unit_ok u.1 u.2) units → zlen units < 2 ^ 16 →
  Forall small_units (foldl collect (replicate 5 []) (take k units)).
Proof.
  intros Hu Hl. pose proof (collect_small (take k units) (replicate 5 []) 0) as H.
  eapply Forall_impl; [apply H; [by apply Forall_take|]|].
  - apply Forall_replicate. split; [constructor|done].
  - cbv beta. intros l [H1 H2]. split; [done|]. rewrite zlen_take in H2. lia.
Qed.

(** The units of Annex B data, with their lengths before them. *)
Lemma emits_units data us o : Forall (unit_in data) us → zlen data < 2 ^ 32 →
  zlen (prefixed (map (unit_bytes data) us)) + zlen o < MAX_POS →
  fold_units (λ nals _ ns ne,
      '(_, nals) ← (s_wb32 (u32 (ne - ns)) ;;; s_put (sub ns (ne - ns) data)) nals;
      Some (inl nals : array_output_data + Empty_set)) us (mk_array_output o (zlen o)) =
    Some (inl (mk_array_output (o ++ prefixed (map (unit_bytes data) us)) (zlen (o ++ prefixed (map (unit_bytes data) us))))).
Proof.
  intros Hus Hl. revert o. induction Hus as [|u us Hu _ IH]; intros o Hmax; [by rewrite app_nil_r|].
  cbn [map] in *. rewrite prefixed_cons in *. cbn [fold_units].
  rewrite (emits_array_at _ o (be32 (zlen (unit_bytes data u)) ++ unit_bytes data u) tt).
  - cbn [mbind option_bind]. rewrite IH by len_lia. do 3 f_equal; by rewrite <- !app_assoc.
  - eapply emits_seq; [|reflexivity|apply emits_put]. rewrite unit_bytes_len by done.
    eapply emits_eq; [eauto with emits|]. unfold u32. by rewrite be32_mod by lia.
  - len_lia.
Qed.

Lemma prefixed_nals_spec base data us : Forall is_byte data → zlen data < 2 ^ 32 → nal_units base data = Some us →
  length_prefixed_nals base data = Some (prefixed (map (unit_bytes data) us)).
Proof.
  intros Hb Hl Hu. destruct (nal_units_spec base data Hb) as (us' & E' & Hok & Hf).
  rewrite Hu in E'. injection E' as <-. unfold length_prefixed_nals. rewrite Hf.
  pose proof (units_range base data us Hb Hu) as Hr.
  assert (prefixed (map (unit_bytes data) us) = avcc data us) as Ea.
  { unfold prefixed, avcc. by rewrite map_map. }
  pose proof (startcode_from_range data 0 _ (zlen_nonneg data)) as Hs.
  pose proof (avcc_len data (startcode_from data 0 (zlen data)) us Hs Hok) as Ha.
  etrans; [exact (f_equal (λ o, r ← o; match r with inl nals => Some (ao_bytes nals) | inr e => match (e : Empty_set) with end end)
    (emits_units data us [] Hr Hl ltac:(rewrite Ea; change (zlen []) with 0; unfold MAX_POS; lia)))|].
  reflexivity.
Qed.

(** ** Reading the record back *)

Record hvcC := mk_hvcC {
  r_space : Z; r_tier : bool; r_idc : Z; r_compatibility : Z; r_constraints : Z; r_level : Z;
  r_segmentation : Z; r_parallelism : Z; r_chroma : Z; r_luma_depth : Z; r_chroma_depth : Z;
  r_layers : Z; r_nested : bool; r_length_size : Z;
  (** completeness, type and units of each array *)
  r_arrays : list (bool * Z * list bytes)
}.

Fixpoint read_nals (n : nat) (bs : bytes) : option (list bytes * bytes) :=
  match n with
  | O => Some ([], bs)
  | S n =>
      let len := be_val (take 2 bs) in
      if zlen bs <? 2 + len then None else
      '(l, rest) ← read_nals n (drop (Z.to_nat (2 + len)) bs);
      Some (sub 2 len bs :: l, rest)
  end.

Fixpoint read_arrays (n : nat) (bs : bytes) : option (list (bool * Z * list bytes) * bytes) :=
  match n, bs with
  | O, _ => Some ([], bs)
  | S n, b :: bs =>
      '(nals, bs) ← read_nals (Z.to_nat (be_val (take 2 bs))) (drop 2 bs);
      '(l, bs) ← read_arrays n bs;
      Some ((Z.testbit b 7, Z.land b 63, nals) :: l, bs)
  | _, [] => None
  end.

Definition read_hvcC (r : bytes) : option hvcC :=
  version ← rd r 0; b1 ← rd r 1; level ← rd r 12; par ← rd r 15; chroma ← rd r 16;
  luma ← rd r 17; chroma_depth ← rd r 18; b21 ← rd r 21; n ← rd r 22;
  '(arrays, rest) ← read_arrays (Z.to_nat n) (drop 23 r);
  if negb (version =? 1) || negb (zlen rest =? 0) then None else
  Some (mk_hvcC (Z.shiftr b1 6) (Z.testbit b1 5) (Z.land b1 31) (be_val (sub 2 4 r)) (be_val (sub 6 6 r)) level
          (Z.land (be_val (sub 13 2 r)) 4095) (Z.land par 3) (Z.land chroma 3) (Z.land luma 7) (Z.land chroma_depth 7)
          (Z.land (Z.shiftr b21 3) 7) (Z.testbit b21 2) (Z.land b21 3) arrays).

Lemma read_nals_spec nals rest : Forall (λ n, zlen n < 2 ^ 16) nals →
  read_nals (length nals) (array_data nals ++ rest) = Some (nals, rest).
Proof.
  intros Hn. induction Hn as [|n nals Hn _ IH]; [done|].
  assert (array_data (n :: nals) ++ rest = be16 (zlen n) ++ n ++ (array_data nals ++ rest)) as ->.
  { unfold array_data. cbn [map concat]. by rewrite <- !app_assoc. }
  cbn [length read_nals]. change (take 2 (be16 ?z ++ ?l)) with (be16 z). rewrite be16_val.
  pose proof (zlen_nonneg n). rewrite u16_small by lia. rewrite (proj2 (Z.ltb_ge _ _)) by len_lia.
  pose proof (sub_app_mid (be16 (zlen n)) n (array_data nals ++ rest)) as Hm. rewrite be16_len in Hm. rewrite Hm.
  replace (Z.to_nat (2 + zlen n)) with (length (be16 (zlen n) ++ n)) by (rewrite length_app; change (length (be16 _)) with 2%nat; unfold zlen; lia).
  rewrite app_assoc, drop_app_length, IH. done.
Qed.

(** The bytes of an array with its header. *)
Definition array_bytes (kind : Z * Z) (nals : list bytes) : bytes :=
  match nals with
  | [] => []
  | _ => u8 (Z.lor (Z.shiftl kind.1 7) (Z.land kind.2 63)) :: be16 (zlen nals) ++ array_data nals
  end.

Lemma emits_hvcc_array p c t nals :
  emits (S:=array_output_data) p (write_hvcc_array (array_of c t nals)) (array_bytes (c, t) nals) tt.
Proof.
  unfold write_hvcc_array. destruct nals as [|n nals]; [apply emits_ret|].
  rewrite numNalus_of. rewrite (proj2 (Z.eqb_neq _ _)) by len_lia. cbn [negb array_of array_bytes fst snd array_completeness
    NAL_unit_type nalUnitData ao_bytes numNalus].
  eapply emits_eq.
  { eapply emits_seq; [eauto with emits|reflexivity|].
    eapply emits_seq; [eauto with emits|reflexivity|apply emits_put]. }
  reflexivity.
Qed.

Definition arrays_bytes (ls : list (list bytes)) : bytes :=
  concat (zip_with array_bytes (map array_kind (seq 0 5)) ls).

Lemma emits_arrays p ls : length ls = 5%nat →
  emits p (for_each (arrays_of ls) write_hvcc_array) (arrays_bytes ls) tt.
Proof.
  intros Hl. destruct ls as [|l0 [|l1 [|l2 [|l3 [|l4 [|]]]]]]; try done.
  unfold arrays_of, arrays_bytes. cbn [zip_with map seq concat for_each fst snd array_kind].
  do 5 (eapply emits_seq; [apply emits_hvcc_array|reflexivity|]). apply emits_ret.
Qed.

(** What a reader makes of the collected units: the arrays that are not empty. *)
Definition arrays_read (ls : list (list bytes)) : list (bool * Z * list bytes) :=
  concat (zip_with (λ kind nals, match nals with [] => [] | _ => [(negb (kind.1 =? 0), kind.2, nals)] end)
            (map array_kind (seq 0 5)) ls).

Lemma array_head c t : (c = 0 ∨ c = 1) → t ∈ array_idx_to_type → let b := u8 (Z.lor (Z.shiftl c 7) (Z.land t 63)) in
  Z.testbit b 7 = negb (c =? 0) ∧ Z.land b 63 = t.
Proof.
  intros Hc Ht. cbv zeta. unfold array_idx_to_type in Ht. rewrite !elem_of_cons, elem_of_nil in Ht.
  destruct Hc as [->| ->]; destruct Ht as [->|[->|[->|[->|[->|[]]]]]]; by vm_compute.
Qed.

Lemma read_array_step n kind nals rest l bs : (kind.1 = 0 ∨ kind.1 = 1) → kind.2 ∈ array_idx_to_type →
  small_units nals → nals ≠ [] → read_arrays n rest = Some (l, bs) →
  read_arrays (S n) (array_bytes kind nals ++ rest) = Some ((negb (kind.1 =? 0), kind.2, nals) :: l, bs).
Proof.
  intros Hc Ht [Hs Hn] Hne Hr. destruct nals as [|x nals']; [done|]. set (nals := x :: nals') in *.
  assert (array_bytes kind nals ++ rest = u8 (Z.lor (Z.shiftl kind.1 7) (Z.land kind.2 63)) ::
    be16 (zlen nals) ++ (array_data nals ++ rest)) as -> by (unfold array_bytes, nals; cbn [app]; by rewrite <- app_assoc).
  cbn [read_arrays].
  change (take 2 (be16 ?z ++ ?l)) with (be16 z). change (drop 2 (be16 ?z ++ ?l)) with l.
  pose proof (zlen_nonneg nals). rewrite be16_val, u16_small, zlen_to_nat, read_nals_spec by (done || lia).
  cbn [mbind option_bind]. rewrite Hr. cbn [mbind option_bind].
  by destruct (array_head _ _ Hc Ht) as [-> ->].
Qed.

Lemma count_nonneg ls : 0 ≤ count_arrays ls.
Proof. induction ls as [|[|x l] ls IH]; [done|exact IH|]. change (0 ≤ 1 + count_arrays ls). lia. Qed.

Lemma read_arrays_spec ls : length ls = 5%nat → Forall small_units ls →
  read_arrays (Z.to_nat (count_arrays ls)) (arrays_bytes ls) = Some (arrays_read ls, []).
Proof.
  intros Hl Hs. unfold arrays_bytes, arrays_read.
  assert (∀ kinds ls, Forall (λ k : Z * Z, (k.1 = 0 ∨ k.1 = 1) ∧ k.2 ∈ array_idx_to_type) kinds → length kinds = length ls →
    Forall small_units ls →
    read_arrays (Z.to_nat (count_arrays ls)) (concat (zip_with array_bytes kinds ls)) =
      Some (concat (zip_with (λ kind nals, match nals with [] => [] | _ => [(negb (kind.1 =? 0), kind.2, nals)] end) kinds ls), []))
    as H.
  { clear. intros kinds ls Hk. revert ls. induction Hk as [|k kinds [Hc Ht] _ IH]; intros [|nals ls] Hl Hs; try done.
    inversion_clear Hs as [|? ? Hn Hls]. injection Hl as Hl. specialize (IH ls Hl Hls).
    pose proof (count_nonneg ls) as H0.
    cbn [zip_with concat]. destruct nals as [|x nals]; [exact IH|].
    change (count_arrays ((x :: nals) :: ls)) with (1 + count_arrays ls).
    rewrite Z2Nat.inj_add by lia. apply read_array_step; [done..|exact IH]. }
  apply H; [all_bytes|done|done].
Qed.

(** *** The fixed part *)

Definition head_bytes (h : HEVCDecoderConfigurationRecord) : bytes :=
  [1; u8 (Z.lor (Z.lor (Z.shiftl (general_profile_space h) 6) (Z.shiftl (general_tier_flag h) 5)) (general_profile_idc h))] ++
  be32 (general_profile_compatibility_flags h) ++
  (be32 (Z.shiftr (general_constraint_indicator_flags h) 16) ++ be16 (general_constraint_indicator_flags h)) ++
  [u8 (general_level_idc h)] ++
  be16 (Z.lor (min_spatial_segmentation_idc h) 61440) ++
  [u8 (Z.lor (parallelismType h) 252); u8 (Z.lor (chromaFormat h) 252); u8 (Z.lor (bitDepthLumaMinus8 h) 248);
   u8 (Z.lor (bitDepthChromaMinus8 h) 248)] ++
  be16 (avgFrameRate h) ++
  [u8 (Z.lor (Z.lor (Z.lor (Z.shiftl (constantFrameRate h) 6) (Z.shiftl (numTemporalLayers h) 3))
               (Z.shiftl (temporalIdNested h) 2)) (lengthSizeMinusOne h));
   u8 (numOfArrays h)].

Lemma emits_head p h : emits p (write_hvcc_head h) (head_bytes h) tt.
Proof.
  unfold write_hvcc_head. eapply emits_eq.
  - do 13 (eapply emits_seq; [eauto with emits|reflexivity|]). eauto with emits.
  - unfold head_bytes. unfold u32, u16. by rewrite be32_mod, be16_mod by lia.
Qed.

(** The ranges in which nothing is lost. *)
Record fields_ok (h : HEVCDecoderConfigurationRecord) : Prop := {
  f_space : 0 ≤ general_profile_space h < 4;
  f_tier : general_tier_flag h = 0 ∨ general_tier_flag h = 1;
  f_idc : 0 ≤ general_profile_idc h < 32;
  f_compat : 0 ≤ general_profile_compatibility_flags h < 2 ^ 32;
  f_constraints : 0 ≤ general_constraint_indicator_flags h < 2 ^ 48;
  f_level : 0 ≤ general_level_idc h < 256;
  f_seg : 0 ≤ min_spatial_segmentation_idc h < 4096;
  f_par : 0 ≤ parallelismType h < 4;
  f_chroma : 0 ≤ chromaFormat h < 4;
  f_luma : 0 ≤ bitDepthLumaMinus8 h < 8;
  f_chroma_depth : 0 ≤ bitDepthChromaMinus8 h < 8;
  f_rate : constantFrameRate h = 0;
  f_layers : 0 ≤ numTemporalLayers h < 8;
  f_nested : temporalIdNested h = 0 ∨ temporalIdNested h = 1;
  f_length : lengthSizeMinusOne h = 3;
  f_arrays : 0 ≤ numOfArrays h ≤ 5
}.

Definition fields_read (h : HEVCDecoderConfigurationRecord) (arrays : list (bool * Z * list bytes)) : hvcC :=
  mk_hvcC (general_profile_space h) (general_tier_flag h =? 1) (general_profile_idc h)
    (general_profile_compatibility_flags h) (general_constraint_indicator_flags h) (general_level_idc h)
    (min_spatial_segmentation_idc h) (parallelismType h) (chromaFormat h) (bitDepthLumaMinus8 h)
    (bitDepthChromaMinus8 h) (numTemporalLayers h) (temporalIdNested h =? 1) (lengthSizeMinusOne h) arrays.

(** A field or-ed with ones above it. *)
Lemma masked_field w n k v : 0 ≤ n → 0 ≤ k → 0 ≤ v < 2 ^ n → v + k * 2 ^ n < 2 ^ w →
  Z.land (Z.lor v (Z.shiftl k n) `mod` 2 ^ w) (Z.ones n) = v.
Proof.
  intros. rewrite lor_high by lia. rewrite Z.mod_small by nia.
  rewrite Z.land_ones, Z.mod_add, Z.mod_small by lia. done.
Qed.

Lemma head_byte1 s t i : 0 ≤ s < 4 → t = 0 ∨ t = 1 → 0 ≤ i < 32 →
  let b := u8 (Z.lor (Z.lor (Z.shiftl s 6) (Z.shiftl t 5)) i) in
  Z.shiftr b 6 = s ∧ Z.testbit b 5 = (t =? 1) ∧ Z.land b 31 = i.
Proof.
  intros Hs Ht Hi.
  assert (forallb (λ s, forallb (λ t, forallb (λ i,
    let b := u8 (Z.lor (Z.lor (Z.shiftl s 6) (Z.shiftl t 5)) i) in
    (Z.shiftr b 6 =? s) && eqb (Z.testbit b 5) (t =? 1) && (Z.land b 31 =? i))
    (seqZ 0 32)) [0; 1]) (seqZ 0 4) = true) as F by (vm_compute; reflexivity).
  rewrite forallb_forall in F. specialize (F s). rewrite <- list_elem_of_In, elem_of_seqZ in F.
  specialize (F ltac:(lia)). rewrite forallb_forall in F. specialize (F t ltac:(cbn; lia)).
  rewrite forallb_forall in F. specialize (F i). rewrite <- list_elem_of_In, elem_of_seqZ in F.
  specialize (F ltac:(lia)). cbv zeta in *. rewrite !andb_true_iff, eqb_true_iff in F. lia || (repeat split; lia || tauto).
Qed.

Lemma head_byte21 l n : 0 ≤ l < 8 → n = 0 ∨ n = 1 →
  let b := u8 (Z.lor (Z.lor (Z.lor (Z.shiftl 0 6) (Z.shiftl l 3)) (Z.shiftl n 2)) 3) in
  Z.land (Z.shiftr b 3) 7 = l ∧ Z.testbit b 2 = (n =? 1) ∧ Z.land b 3 = 3.
Proof.
  intros Hl Hn.
  assert (l = 0 ∨ l = 1 ∨ l = 2 ∨ l = 3 ∨ l = 4 ∨ l = 5 ∨ l = 6 ∨ l = 7) as Hc by lia.
  destruct Hn as [->| ->]; repeat (destruct Hc as [->|Hc]; [by vm_compute|]); subst l; by vm_compute.
Qed.

Lemma read_head h rest arrays : fields_ok h → read_arrays (Z.to_nat (numOfArrays h)) rest = Some (arrays, []) →
  read_hvcC (head_bytes h ++ rest) = Some (fields_read h arrays).
Proof.
  intros [] Hr. unfold read_hvcC.
  change (rd (head_bytes h ++ rest) 0) with (Some 1).
  change (rd (head_bytes h ++ rest) 1) with
    (Some (u8 (Z.lor (Z.lor (Z.shiftl (general_profile_space h) 6) (Z.shiftl (general_tier_flag h) 5)) (general_profile_idc h)))).
  change (rd (head_bytes h ++ rest) 12) with (Some (u8 (general_level_idc h))).
  change (rd (head_bytes h ++ rest) 15) with (Some (u8 (Z.lor (parallelismType h) (Z.shiftl 63 2)))).
  change (rd (head_bytes h ++ rest) 16) with (Some (u8 (Z.lor (chromaFormat h) (Z.shiftl 63 2)))).
  change (rd (head_bytes h ++ rest) 17) with (Some (u8 (Z.lor (bitDepthLumaMinus8 h) (Z.shiftl 31 3)))).
  change (rd (head_bytes h ++ rest) 18) with (Some (u8 (Z.lor (bitDepthChromaMinus8 h) (Z.shiftl 31 3)))).
  change (rd (head_bytes h ++ rest) 22) with (Some (u8 (numOfArrays h))).
  change (rd (head_bytes h ++ rest) 21) with (Some (u8 (Z.lor (Z.lor (Z.lor (Z.shiftl (constantFrameRate h) 6)
    (Z.shiftl (numTemporalLayers h) 3)) (Z.shiftl (temporalIdNested h) 2)) (lengthSizeMinusOne h)))).
  change (drop 23 (head_bytes h ++ rest)) with rest.
  change (sub 2 4 (head_bytes h ++ rest)) with (be32 (general_profile_compatibility_flags h)).
  change (sub 6 6 (head_bytes h ++ rest)) with
    (be32 (Z.shiftr (general_constraint_indicator_flags h) 16) ++ be16 (general_constraint_indicator_flags h)).
  change (sub 13 2 (head_bytes h ++ rest)) with (be16 (Z.lor (min_spatial_segmentation_idc h) (Z.shiftl 15 12))).
  cbn [mbind option_bind]. rewrite (u8_small (numOfArrays h)), Hr by lia. cbn [mbind option_bind].
  change (negb (1 =? 1) || negb (zlen [] =? 0)) with false. cbv iota. f_equal. unfold fields_read.
  destruct (head_byte1 (general_profile_space h) (general_tier_flag h) (general_profile_idc h)) as (-> & -> & ->); [done..|].
  rewrite f_rate0, f_length0.
  destruct (head_byte21 (numTemporalLayers h) (temporalIdNested h)) as (-> & -> & ->); [done..|].
  rewrite be_val_app, !be32_val, !be16_val. unfold u8, u16, u32.
  change 3 with (Z.ones 2) at 1 2. change 7 with (Z.ones 3). change 4095 with (Z.ones 12).
  rewrite !masked_field by lia.
  rewrite (Z.mod_small (general_profile_compatibility_flags h)), (Z.mod_small (general_level_idc h)) by lia.
  rewrite be16_len. change (256 ^ 2) with (2 ^ 16). rewrite (mod_split _ 16 32 48) by lia.
  by rewrite (Z.mod_small (general_constraint_indicator_flags h)) by lia.
Qed.

(** ** The record of an encoder *)

Definition is_sei (suffix : bool) (u : hevc_unit) : bool :=
  match u with U_SEI s => eqb s suffix | _ => false end.
Definition is_parameter_set (u : hevc_unit) : bool :=
  match u with U_SEI _ | U_OTHER _ => false | _ => true end.

Definition seis (suffix : bool) (units : list (hevc_unit * bytes)) : list bytes :=
  map snd (filter (λ u, is_sei suffix u.1 = true) units).

Lemma seis_cons suffix u nal units :
  seis suffix ((u, nal) :: units) = (if is_sei suffix u then [nal] else []) ++ seis suffix units.
Proof. unfold seis. rewrite filter_cons. cbn [fst]. by destruct (is_sei suffix u); case_decide. Qed.

Lemma seis_fields units h : Forall (λ u : hevc_unit * bytes, is_parameter_set u.1 = false) units →
  foldl unit_fields h (map fst units) = h.
Proof.
  intros Hu. induction Hu as [|[u nal] units Hu _ IH]; [done|]. cbn [map foldl fst].
  by replace (unit_fields h u) with h by (by destruct u).
Qed.

Lemma seis_collect units l0 l1 l2 l3 l4 : Forall (λ u : hevc_unit * bytes, is_parameter_set u.1 = false) units →
  foldl collect [l0; l1; l2; l3; l4] units = [l0; l1; l2; l3 ++ seis false units; l4 ++ seis true units].
Proof.
  intros Hu. revert l3 l4. induction Hu as [|[u nal] units Hu _ IH]; intros l3 l4.
  - unfold seis. rewrite filter_nil. by rewrite !app_nil_r.
  - rewrite !seis_cons. cbn [foldl fst snd]. destruct u as [| | |[]|]; try done; unfold collect; cbn; rewrite IH;
      by rewrite <- ?app_assoc.
Qed.

(** The fields after a VPS, an SPS and a PPS. *)
Definition fields_of (n : nat) (p : ptl) (v : sps_values) (tiles sync : bool) : HEVCDecoderConfigurationRecord :=
  hvcc_finish (unit_fields (unit_fields (unit_fields hvcc_init (U_VPS n p)) (U_SPS v)) (U_PPS tiles sync)).

(** The same, as values: the tighter of the profiles, the highest level of the highest
    tier, the rest from the SPS. *)
Definition expected (n : nat) (p : ptl) (v : sps_values) (tiles sync : bool) (arrays : list (bool * Z * list bytes)) : hvcC :=
  let q := s_ptl v in
  let seg := match s_seg v with Some (Some seg) => seg | _ => 0 end in
  mk_hvcC (p_space q) (p_tier p || p_tier q) (Z.max (p_idc p) (p_idc q))
    (Z.land (p_compatibility p) (p_compatibility q)) (Z.land (p_constraints p) (p_constraints q))
    (if p_tier q && negb (p_tier p) then p_level q else Z.max (p_level p) (p_level q))
    seg
    (if seg =? 0 then 0 else match tiles, sync with true, true => 0 | false, true => 3 | true, false => 2 | false, false => 1 end)
    (s_chroma v) (s_luma_depth v) (s_chroma_depth v)
    (Z.max (Z.of_nat n) (Z.of_nat (s_layers v)) + 1) (s_nested v) 3 arrays.

Lemma land_ones_l n v : 0 ≤ n → 0 ≤ v < 2 ^ n → Z.land (2 ^ n - 1) v = v.
Proof. intros. rewrite Z.land_comm, Z.sub_1_r, <- Z.ones_equiv, Z.land_ones by lia. by apply Z.mod_small. Qed.

Lemma land_range a b n : 0 ≤ n → 0 ≤ a < 2 ^ n → 0 ≤ b → 0 ≤ Z.land a b < 2 ^ n.
Proof.
  intros Hn Ha Hb. split; [apply Z.land_nonneg; lia|].
  destruct (decide (Z.land a b = 0)) as [->|N]; [lia|]. apply Z.log2_lt_pow2; [pose proof (proj2 (Z.land_nonneg a b)); lia|].
  apply Z.le_lt_trans with (Z.min (Z.log2 a) (Z.log2 b)); [apply Z.log2_land; lia|].
  destruct (decide (a = 0)) as [->|]; [by rewrite Z.land_0_l in N|].
  apply Z.le_lt_trans with (Z.log2 a); [lia|]. apply Z.log2_lt_pow2; lia.
Qed.

Lemma fields_expected n p v tiles sync arrs k l : (n ≤ 6)%nat → ptl_ok p → sps_ok v → 0 ≤ k ≤ 5 →
  let h := hvcc_set_arrays (fields_of n p v tiles sync) k l in
  fields_ok h ∧ fields_read h arrs = expected n p v tiles sync arrs.
Proof.
  intros Hn (P1 & P2 & P3 & P4 & P5) (Hl & (Q1 & Q2 & Q3 & Q4 & Q5) & Hc & Hd & He & Hb & Hseg) Hk.
  set (seg := match s_seg v with Some (Some seg) => seg | _ => 0 end).
  assert (0 ≤ seg ≤ 4095) as Hs.
  { unfold seg. destruct (s_seg v) as [[s|]|] eqn:E; [by apply Hseg|lia..]. }
  assert (∀ b, (b : bool) = true ∨ b = false) as Hbool by (by intros []; auto).
  assert (fields_of n p v tiles sync = mk_hvcc (p_space (s_ptl v)) (Z.b2z (p_tier p || p_tier (s_ptl v)))
    (Z.max (p_idc p) (p_idc (s_ptl v))) (Z.land (p_compatibility p) (p_compatibility (s_ptl v)))
    (Z.land (p_constraints p) (p_constraints (s_ptl v)))
    (if p_tier (s_ptl v) && negb (p_tier p) then p_level (s_ptl v) else Z.max (p_level p) (p_level (s_ptl v)))
    seg (if seg =? 0 then 0 else match tiles, sync with true, true => 0 | false, true => 3 | true, false => 2 | false, false => 1 end)
    (s_chroma v) (s_luma_depth v) (s_chroma_depth v) 0 0 (Z.max (Z.of_nat n) (Z.of_nat (s_layers v)) + 1)
    (Z.b2z (s_nested v)) 3 0 (arrays hvcc_init)) as ->.
  { unfold fields_of, hvcc_finish, seg. cbn [unit_fields]. unfold sps_hvcc, sps_base.
    assert (∀ s, 0 ≤ s ≤ 4095 → (if 4096 <? Z.min (4096 + 1) s then 0 else Z.min (4096 + 1) s) = s) as Emin.
    { intros s H. rewrite Z.min_r by lia. by rewrite (proj2 (Z.ltb_ge _ _)) by lia. }
    assert (∀ x, 0 ≤ x → Z.max 0 x = x) as Emax by lia.
    destruct p as [a1 [] a3 a4 a5 a6], v as [ly b [q1 [] q3 q4 q5 q6] c1 c2 c3 c4 [[s|]|]], tiles, sync; cbn in *;
    rewrite ?Emin by lia; cbv -[Z.max Z.land Z.eqb Z.of_nat Z.add]; rewrite ?Emax by lia;
    change (4294967296 + -1) with (2 ^ 32 - 1); change (281474976710656 + -1) with (2 ^ 48 - 1);
    rewrite !land_ones_l by lia; rewrite Z.add_max_distr_r; done. }
  split.
  - constructor; cbn [general_profile_space general_tier_flag general_profile_idc general_profile_compatibility_flags
      general_constraint_indicator_flags general_level_idc min_spatial_segmentation_idc parallelismType chromaFormat
      bitDepthLumaMinus8 bitDepthChromaMinus8 constantFrameRate numTemporalLayers temporalIdNested lengthSizeMinusOne
      numOfArrays hvcc_set_arrays]; try lia.
    + destruct (p_tier p), (p_tier (s_ptl v)); cbn; lia.
    + by apply land_range; [|lia..].
    + by apply land_range; [|lia..].
    + case_match; lia.
    + destruct (seg =? 0), tiles, sync; lia.
    + destruct (s_nested v); cbn; lia.
  - unfold fields_read, expected. fold seg. cbn.
    by destruct (p_tier p || p_tier (s_ptl v)), (s_nested v).
Qed.

(** The array of an Annex B packet's units is not larger than five times the packet. *)
Lemma prefixed_small base data us : Forall is_byte data → nal_units base data = Some us →
  zlen (prefixed (map (unit_bytes data) us)) ≤ 5 * zlen data ∧ zlen us ≤ zlen data.
Proof.
  intros Hb Hu. destruct (nal_units_spec base data Hb) as (us' & E' & Hok & _). rewrite Hu in E'. injection E' as <-.
  pose proof (startcode_from_range data 0 _ (zlen_nonneg data)) as Hs.
  assert (prefixed (map (unit_bytes data) us) = avcc data us) as -> by (unfold prefixed, avcc; by rewrite map_map).
  pose proof (avcc_len data (startcode_from data 0 (zlen data)) us Hs Hok). split; [lia|].
  enough (∀ p, 0 ≤ p ≤ zlen data → units_ok data p (zlen data) us → zlen us ≤ zlen data - p) as He
    by (specialize (He _ Hs Hok); lia).
  clear. induction us as [|u us IH]; intros p Hp; [change (zlen []) with 0; lia|].
  intros (E & ? & ? & ? & Hus). specialize (IH (nu_end u) ltac:(lia) Hus). rewrite zlen_cons. lia.
Qed.

Lemma prefixed_count nals : (length nals ≤ length (prefixed nals))%nat.
Proof.
  induction nals as [|x l IH]; [done|]. rewrite prefixed_cons, length_app. change (length (be32 _)) with 4%nat.
  rewrite length_app. cbn [length]. lia.
Qed.

Lemma emits_record h ls : length ls = 5%nat →
  emits 0 (write_hvcc (with_units h ls)) (head_bytes (with_units h ls) ++ arrays_bytes ls) tt.
Proof. intros Hl. eapply emits_seq; [apply emits_head|reflexivity|]. by apply emits_arrays. Qed.

Lemma array_bytes_len kind l : Forall (λ n, zlen n < 2 ^ 16) l → zlen (array_bytes kind l) ≤ 3 + 2 ^ 17 * zlen l.
Proof.
  intros Hs. pose proof (array_data_len l Hs). unfold array_bytes. destruct l as [|x l]; [len_lia|].
  rewrite zlen_cons, zlen_app, be16_len. lia.
Qed.

Lemma record_len h ls : length ls = 5%nat → Forall small_units ls →
  zlen (head_bytes h ++ arrays_bytes ls) < MAX_POS.
Proof.
  intros Hl Hs. destruct ls as [|l0 [|l1 [|l2 [|l3 [|l4 [|]]]]]]; try done. unfold arrays_bytes. cbn [map seq zip_with concat].
  rewrite !Forall_cons in Hs. destruct Hs as ([H0 ?] & [H1 ?] & [H2 ?] & [H3 ?] & [H4 ?] & _).
  pose proof (array_bytes_len (array_kind 0) _ H0). pose proof (array_bytes_len (array_kind 1) _ H1).
  pose proof (array_bytes_len (array_kind 2) _ H2). pose proof (array_bytes_len (array_kind 3) _ H3).
  pose proof (array_bytes_len (array_kind 4) _ H4). rewrite !zlen_app. change (zlen (head_bytes h)) with 23.
  change (zlen []) with 0. unfold MAX_POS. lia.
Qed.

(** C38: The configuration record made from the extra data of an HEVC encoder (below 64 KB:
    a VPS, an SPS and a PPS that follow the H.265 syntax, then SEI and other units): a reader
    gets back the profile, tier and level that cover both the VPS and the SPS, the
    segmentation, parallelism, chroma format, bit depths and layers they code, the three
    parameter sets as they were, and the prefix and suffix SEI units in order. Two legal
    cases are left out: HRD parameters in the VUI of the SPS have
    fixed_pic_rate_general_flag 0 (with 1 the parser is out of step, [general_rate_missed]),
    and bit depths are at most 15, the most the field of the record can hold. *)
Theorem hevc_config_record base data us n p v tiles sync vps sps pps rest :
  Forall is_byte data → has_start_code data = true → 6 ≤ zlen data < 2 ^ 16 →
  nal_units base data = Some us → map (unit_bytes data) us = vps :: sps :: pps :: map snd rest →
  unit_ok (U_VPS n p) vps → unit_ok (U_SPS v) sps → unit_ok (U_PPS tiles sync) pps →
  Forall (λ u : hevc_unit * bytes, unit_ok u.1 u.2 ∧ is_parameter_set u.1 = false) rest →
  let other t nals := match nals with [] => [] | _ => [(false, t, nals)] end in
  ∃ r, obs_parse_hevc_header base data = Some (Some r, zlen r) ∧
    read_hvcC r = Some (expected n p v tiles sync
      ([(true, OBS_HEVC_NAL_VPS, [vps]); (true, OBS_HEVC_NAL_SPS, [sps]); (true, OBS_HEVC_NAL_PPS, [pps])] ++
       other OBS_HEVC_NAL_SEI_PREFIX (seis false rest) ++ other OBS_HEVC_NAL_SEI_SUFFIX (seis true rest))).
Proof.
  intros Hb Hc Hl Hu Hmap Hv Hs Hp Hrest other. apply Forall_and in Hrest as [Hro Hrp].
  destruct (prefixed_small base data us Hb Hu) as [Hsize Hcount].
  set (units := (U_VPS n p, vps) :: (U_SPS v, sps) :: (U_PPS tiles sync, pps) :: rest).
  assert (Forall (λ u, unit_ok u.1 u.2) units) as Hunits by (do 3 (constructor; [done|]); done).
  assert (zlen units < 2 ^ 16) as Hn.
  { apply (f_equal zlen) in Hmap. rewrite zlen_map in Hmap. unfold units. rewrite !zlen_cons, zlen_map in *. lia. }
  change (vps :: sps :: pps :: map snd rest) with (map snd units) in Hmap.
  unfold obs_parse_hevc_header. rewrite Hc, (proj2 (Z.ltb_ge _ _)) by lia. cbn [negb].
  rewrite (prefixed_nals_spec base data us) by (done || lia). cbn [mbind option_bind]. rewrite Hmap in *.
  destruct (unit_first _ _ Hv) as (b0 & l0 & E0 & _).
  rewrite (proj2 (Z.eqb_neq _ _)).
  2: { unfold units. cbn [map snd]. rewrite prefixed_cons, E0. len_lia. }
  change hvcc_init with (with_units hvcc_init (replicate 5 [])) at 1.
  rewrite (hvcc_loop_units units); [|done|done|by intros k; apply collected_small|unfold INT_MAX; lia|].
  2: { rewrite <- (length_map snd). apply prefixed_count. }
  pose proof (collected_small units (length units) Hunits Hn) as Hsmall. rewrite firstn_all in Hsmall.
  unfold units in *. cbn [map fst foldl replicate] in *. rewrite seis_fields in * by done.
  change (collect (collect (collect [[]; []; []; []; []] _) _) _) with [[vps]; [sps]; [pps]; []; []] in *.
  rewrite seis_collect in * by done. cbn [app] in *. cbn [mbind option_bind].
  set (ls := [[vps]; [sps]; [pps]; seis false rest; seis true rest]) in *.
  change (negb (counts_ok (with_units ?h ls))) with false. cbv iota.
  change (hvcc_finish (with_units _ ls)) with (with_units (fields_of n p v tiles sync) ls).
  rewrite (emits_array _ _ _ (emits_record (fields_of n p v tiles sync) ls eq_refl)) by by apply record_len.
  eexists. split; [reflexivity|]. cbn [ao_bytes].
  destruct (fields_expected n p v tiles sync (arrays_read ls) (count_arrays ls) (arrays_of ls)) as [Hf Er];
    [apply Hv|apply Hv|apply Hs| |].
  { split; [apply count_nonneg|]. unfold ls. cbn. by destruct (seis false rest), (seis true rest). }
  pose proof (read_head _ (arrays_bytes ls) (arrays_read ls) Hf (read_arrays_spec ls eq_refl Hsmall)) as Eread.
  rewrite Er in Eread. etrans; [exact Eread|]. do 2 f_equal.
  unfold arrays_read, ls, other. cbn. by destruct (seis false rest), (seis true rest).
Qed.

(** ** Missing parameter sets *)

Lemma collect_none i units ls : Forall (λ u : hevc_unit * bytes, unit_index u.1 ≠ Some i) units →
  foldl collect ls units !! i = ls !! i.
Proof.
  intros Hu. revert ls. induction Hu as [|[u nal] units Hu _ IH]; intros ls; [done|]. cbn [foldl fst] in *.
  rewrite IH. unfold collect. cbn [fst snd]. destruct (unit_index u) as [j|]; [|done].
  apply list_lookup_alter_ne. congruence.
Qed.

Lemma collect_length units ls : length (foldl collect ls units) = length ls.
Proof.
  revert ls; induction units as [|[u nal] units IH]; intros ls; [done|]. cbn [foldl]. rewrite IH.
  unfold collect. cbn [fst snd]. destruct (unit_index u); [by rewrite length_alter|done].
Qed.

Lemma counts_missing h ls i : length ls = 5%nat → (i < 3)%nat → ls !! i = Some [] → counts_ok (with_units h ls) = false.
Proof.
  intros Hl Hi E. destruct ls as [|l0 [|l1 [|l2 [|l3 [|l4 [|]]]]]]; try done.
  unfold counts_ok, with_units. cbn [arrays hvcc_set_arrays arrays_of zip_with lookup list_lookup from_option fst snd].
  rewrite !numNalus_of. destruct i as [|[|[|]]]; [..|lia]; injection E as ->; change (zlen [] =? 0) with true;
    rewrite ?orb_true_r; done.
Qed.

(** Extra data without a VPS, an SPS or a PPS: no header is stored, but the size
    returned is that of the length-prefixed units, not 0, for any data that has a unit. *)
Theorem hevc_incomplete_size base data us units i :
  Forall is_byte data → has_start_code data = true → 6 ≤ zlen data < 2 ^ 16 →
  nal_units base data = Some us → map (unit_bytes data) us = map snd units → units ≠ [] →
  Forall (λ u, unit_ok u.1 u.2) units → (i < 3)%nat → Forall (λ u, unit_index u.1 ≠ Some i) units →
  obs_parse_hevc_header base data = Some (None, zlen (prefixed (map snd units))) ∧
  0 < zlen (prefixed (map snd units)).
Proof.
  intros Hb Hc Hl Hu Hmap Hne Hunits Hi Hmiss.
  destruct (prefixed_small base data us Hb Hu) as [Hsize Hcount].
  assert (zlen units < 2 ^ 16) as Hn.
  { apply (f_equal zlen) in Hmap. rewrite !zlen_map in Hmap. lia. }
  assert (0 < zlen (prefixed (map snd units))) as Hpos.
  { destruct units as [|u units]; [done|]. cbn [map]. rewrite prefixed_cons. len_lia. }
  split; [|done]. rewrite Hmap in Hsize. unfold obs_parse_hevc_header. rewrite Hc, (proj2 (Z.ltb_ge _ _)) by lia. cbn [negb].
  rewrite (prefixed_nals_spec base data us) by (done || lia). cbn [mbind option_bind]. rewrite Hmap.
  rewrite (proj2 (Z.eqb_neq _ _)) by lia.
  change hvcc_init with (with_units hvcc_init (replicate 5 [])) at 1.
  rewrite (hvcc_loop_units units); [|done|done|by intros k; apply collected_small|unfold INT_MAX; lia|].
  2: { rewrite <- (length_map snd). apply prefixed_count. }
  cbn [mbind option_bind]. rewrite (counts_missing _ _ i); [done|by rewrite collect_length|done|].
  rewrite collect_none by done. by destruct i as [|[|[|]]]; [..|lia].
Qed.

(** ** Concrete parameter sets *)

Definition ex_ptl : ptl := mk_ptl_syntax 0 false 1 1610612736 158329674399744 93.

Definition ex_ptl_bits : list bool :=
  (zbits 2 0 ++ flag false ++ zbits 5 1 ++ zbits 32 1610612736 ++ zbits 48 158329674399744 ++ zbits 8 93) ++
  [] ++ [] ++ [].

Definition ex_vps_bits : list bool := replicate 12 false ++ zbits 3 0 ++ replicate 17 true ++ ex_ptl_bits.

Definition ex_sps : sps_values := mk_sps 0 true ex_ptl 1 2 2 4 (Some (Some 5)).

Definition ex_sps_bits : list bool :=
  (replicate 4 false ++ zbits 3 0 ++ flag true ++ ex_ptl_bits ++ ue_bits 0 ++ ue_bits 1 ++ [] ++ ue_bits 1919 ++
   ue_bits 1079 ++ [false] ++ ue_bits 2 ++ ue_bits 2 ++ ue_bits 4) ++
  ((flag true ++ (ue_bits 4 ++ ue_bits 2 ++ ue_bits 0 ++ []) ++ []) ++
   (ue_bits 0 ++ ue_bits 3 ++ ue_bits 0 ++ ue_bits 3 ++ ue_bits 1 ++ ue_bits 1 ++ []) ++
   [false] ++ [true] ++ [true] ++ [false]) ++
  (ue_bits 1 ++ ([] ++ ue_bits 1 ++ ue_bits 0 ++ ((ue_bits 0 ++ [true]) ++ []) ++ []) ++ []) ++
  [false] ++ [true] ++ [true] ++
  flag true ++
  [false] ++ [false] ++ [false] ++ [false] ++ replicate 3 false ++ [false] ++ [false] ++
  flag true ++ replicate 3 false ++ ue_bits 5 ++ (ue_bits 0 ++ ue_bits 0 ++ ue_bits 15 ++ ue_bits 15 ++ []).

Definition ex_pps_bits : list bool :=
  ue_bits 0 ++ ue_bits 0 ++ replicate 7 false ++ ue_bits 0 ++ ue_bits 0 ++ ue_bits 0 ++ replicate 2 false ++
  [false] ++ ue_bits 0 ++ ue_bits 0 ++ replicate 4 false ++ (flag false ++ flag true).

(** HRD parameters with [fixed_pic_rate_general_flag] 1, whose duration is read as
    [low_delay_hrd_flag]: the flag that follows them is 0 and is read as 1. *)
Definition ex_hrd_bits : list bool := [false; false] ++ [true] ++ ue_bits 0 ++ ue_bits 0 ++ [false].

Example general_rate_missed :
  ('(r, gb) ← init_get_bits8 (pack_bits ex_hrd_bits ++ replicate 64 0) 1;
   fst <$> (skip_hrd_parameters true 0 ;;; get_flag) gb) = Some true.
Proof. vm_compute. reflexivity. Qed.

Definition ex_nal (t : Z) (bits : list bool) : bytes := Z.shiftl t 1 :: 1 :: escape_rbsp 0 (pack_bits bits).

Definition ex_vps : bytes := ex_nal OBS_HEVC_NAL_VPS ex_vps_bits.
Definition ex_sps_nal : bytes := ex_nal OBS_HEVC_NAL_SPS ex_sps_bits.
Definition ex_pps : bytes := ex_nal OBS_HEVC_NAL_PPS ex_pps_bits.
Definition ex_sei : bytes := [78; 1; 5; 1; 7; 128].

Definition ex_hevc : bytes :=
  [0; 0; 0; 1] ++ ex_vps ++ [0; 0; 0; 1] ++ ex_sps_nal ++ [0; 0; 0; 1] ++ ex_pps ++ [0; 0; 1] ++ ex_sei.

(** [syn]: a bit string written in the order of the syntax belongs to it. *)
Ltac syn :=
  lazymatch goal with
  | |- (_ +++ _) (_ ++ _) => refine (ex_intro _ _ (ex_intro _ _ (conj eq_refl (conj _ _)))); syn
  | |- just _ _ => reflexivity
  | |- eps _ => reflexivity
  | |- anybits _ _ => reflexivity
  | |- ue (ue_bits ?v) => exists v; split; [unfold ue_range; lia|reflexivity]
  | |- opt _ [false] => left; reflexivity
  | |- rep _ _ _ => cbn [rep]; syn
  | |- concat_set _ _ _ => cbn [concat_set]; syn
  | _ => idtac
  end.

Lemma ex_ptl_ok : ptl_ok ex_ptl ∧ ptl_set ex_ptl 0 ex_ptl_bits.
Proof.
  split; [repeat split; cbn; lia|]. unfold ptl_set, ex_ptl_bits. syn. exists []. split; [done|]. cbn [Nat.ltb Nat.leb]. syn.
Qed.

Lemma ex_nal_of t L bits : L bits → 0 ≤ t < 64 → Forall is_byte (pack_bits bits) →
  take (length bits) (all_bits (pack_bits bits)) = bits → zlen (ex_nal t bits) < 2 ^ 16 → nal_of t L (ex_nal t bits).
Proof.
  intros HL Ht Hb Et Hl. exists (Z.shiftl t 1), 1, (pack_bits bits), bits, (drop (length bits) (all_bits (pack_bits bits))).
  assert (Z.shiftl t 1 = t * 2) as Es by (by rewrite Z.shiftl_mul_pow2).
  split; [done|]. rewrite Es. split; [unfold is_byte; lia|]. split; [done|]. split; [done|]. split.
  { rewrite Z.shiftr_div_pow2, Z.div_mul by lia. change 63 with (Z.ones 6). rewrite Z.land_ones by lia. by apply Z.mod_small. }
  split; [by rewrite <- Et at 2; rewrite take_drop|]. done.
Qed.

Lemma ex_vps_ok : unit_ok (U_VPS 0 ex_ptl) ex_vps.
Proof.
  split; [lia|]. split; [apply ex_ptl_ok|]. apply ex_nal_of; [|done|all_bytes|by vm_compute..].
  unfold ex_vps_bits, vps_set. syn. apply ex_ptl_ok.
Qed.

Lemma ex_sps_ok : unit_ok (U_SPS ex_sps) ex_sps_nal.
Proof.
  split. { repeat split; try apply ex_ptl_ok; cbn in *; simplify_eq; cbn; lia. }
  apply ex_nal_of; [|done|all_bytes|by vm_compute..].
  unfold ex_sps_bits, sps_set. syn.
  - unfold sps_head_set. syn. apply ex_ptl_ok.
  - unfold sps_coding_set. syn. exists true. change (s_layers ex_sps) with 0%nat. syn.
  - exists [1%nat]. split; [cbn; lia|]. split; [by repeat constructor; lia|]. syn. cbn [rps_sets]. syn.
    left. exists 1%nat, 0%nat, (ue_bits 1 ++ ue_bits 0 ++ ((ue_bits 0 ++ [true]) ++ []) ++ []).
    split; [done|]. split; [done|]. syn.
  - left. reflexivity.
  - unfold vui_set. syn.
Qed.

Lemma ex_pps_ok : unit_ok (U_PPS false true) ex_pps.
Proof. apply ex_nal_of; [|done|all_bytes|by vm_compute..]. unfold ex_pps_bits, pps_set. syn. Qed.

Lemma ex_sei_ok : unit_ok (U_SEI false) ex_sei.
Proof.
  exists 78, 1, [5; 1; 7; 128], [], (all_bits [5; 1; 7; 128]).
  split; [done|]. split; [done|]. split; [done|]. split; [all_bytes|]. split; [done|]. split; [done|]. by split.
Qed.

Definition ex_hevc_units : list nal_unit := default [] (nal_units 0 ex_hevc).

Lemma hevc_config_record_witness :
  let other t nals := match nals with [] => [] | _ => [(false, t, nals)] end in
  ∃ r, obs_parse_hevc_header 0 ex_hevc = Some (Some r, zlen r) ∧
    read_hvcC r = Some (expected 0 ex_ptl ex_sps false true
      ([(true, OBS_HEVC_NAL_VPS, [ex_vps]); (true, OBS_HEVC_NAL_SPS, [ex_sps_nal]); (true, OBS_HEVC_NAL_PPS, [ex_pps])] ++
       other OBS_HEVC_NAL_SEI_PREFIX (seis false [(U_SEI false, ex_sei)]) ++
       other OBS_HEVC_NAL_SEI_SUFFIX (seis true [(U_SEI false, ex_sei)]))).
Proof.
  apply (hevc_config_record 0 ex_hevc ex_hevc_units 0 ex_ptl ex_sps false true ex_vps ex_sps_nal ex_pps
    [(U_SEI false, ex_sei)]).
  - all_bytes.
  - by vm_compute.
  - by vm_compute.
  - by vm_compute.
  - by vm_compute.
  - apply ex_vps_ok.
  - apply ex_sps_ok.
  - apply ex_pps_ok.
  - constructor; [|constructor]. split; [apply ex_sei_ok|done].
Defined.

(** The same without the PPS. *)
Definition ex_no_pps : bytes := [0; 0; 0; 1] ++ ex_vps ++ [0; 0; 0; 1] ++ ex_sps_nal.

Lemma hevc_incomplete_size_witness :
  obs_parse_hevc_header 0 ex_no_pps = Some (None, zlen (prefixed [ex_vps; ex_sps_nal])) ∧
  0 < zlen (prefixed [ex_vps; ex_sps_nal]).
Proof.
  apply (hevc_incomplete_size 0 ex_no_pps (default [] (nal_units 0 ex_no_pps))
    [(U_VPS 0 ex_ptl, ex_vps); (U_SPS ex_sps, ex_sps_nal)] 2).
  - all_bytes.
  - by vm_compute.
  - by vm_compute.
  - by vm_compute.
  - by vm_compute.
  - done.
  - constructor; [apply ex_vps_ok|]. constructor; [apply ex_sps_ok|constructor].
  - lia.
  - by repeat constructor.
Defined.
