(* ===== verification/Captions.v ===== *)
(** * Captions in video packets: add_caption of libobs/obs-output.c

    The caption track of a video encoder and the packet a caption is appended to.
    Rendering a caption is the work of libcaption (deps/libcaption), a parameter.
    Timestamps are doubles: the IEEE 754 operations of the Standard Library. *)

From S2P Require Import Prelude Double Encoder Nal Av1.

Local Open Scope Z_scope.

(** ** The track *)

Record caption_text := mk_caption { cap_text : bytes; display_duration : double }.

(** [caption_head] is the head of the list [captions]; [caption_data] is the contents of
    the queue, three bytes for each pair of characters. *)
Record caption_track_data := mk_ctrack {
  captions : list caption_text;
  caption_timestamp : double;
  last_caption_timestamp : double;
  caption_data : bytes
}.

(** What the code uses of libcaption: the parity check, the payload of the message made
    of closed-caption pairs [(cc_type, data)], the payloads of the messages made of a
    text, and the rendering of messages as the contents of an SEI NAL unit. *)
Record libcaption := mk_libcaption {
  eia608_parity_varify : Z → Z;
  cea708_payload : list (Z * Z) → bytes;
  text_payloads : bytes → list bytes;
  sei_render : list bytes → bytes
}.

Section captions.
Context (lib : libcaption).

(** The payload of the first message. *)
Definition extract_buffer_from_sei (sei : list bytes) : bytes := default [] (head sei).

Definition nal_start : bytes := [0; 0; 0; 1].

(** The NAL unit header of the first unit, whose start code has three or four bytes. *)
Definition first_nal_header (data : bytes) : option (option (Z * Z)) :=
  b3 ← read_bytes 0 3 data;
  index ← (if bool_decide (b3 = drop 1 nal_start) then Some (Some 3)
           else b4 ← read_bytes 0 4 data;
                Some (if bool_decide (b4 = nal_start) then Some 4 else None));
  match index with
  | None => Some None
  | Some i => h0 ← rd data i; h1 ← rd data (i + 1); Some (Some (h0, h1))
  end.

(** [while (ctrack->caption_data.size > 0)]: the pairs added to the message. *)
Fixpoint cc_pairs (data : bytes) : option (list (Z * Z)) :=
  match data with
  | [] => Some []
  | b0 :: b1 :: b2 :: data =>
      l ← cc_pairs data;
      let captionData := u16 (Z.shiftl b1 8 + b2) in
      if negb (Z.land b0 3 =? 0) || (captionData =? 32896) || (captionData =? 0)
         || (eia608_parity_varify lib captionData =? 0)
      then Some l else Some ((Z.land b0 3, captionData) :: l)
  | _ => None
  end.

(** The messages of the next caption, and the track without it. *)
Definition next_sei (ctrack : caption_track_data) : option (list bytes * caption_track_data) :=
  let rest texts data :=
    mk_ctrack texts (caption_timestamp ctrack) (last_caption_timestamp ctrack) data in
  if 0 <? zlen (caption_data ctrack) then
    l ← cc_pairs (caption_data ctrack);
    Some ([cea708_payload lib l], rest (captions ctrack) [])
  else
    match captions ctrack with
    | c :: texts => Some (text_payloads lib (cap_text c), rest texts (caption_data ctrack))
    | [] => Some ([], ctrack)
    end.

Definition pkt_set_data (p : encoder_packet) (data : bytes) : encoder_packet :=
  mk_packet data (pkt_pts p) (pkt_dts p) (pkt_timebase_num p) (pkt_timebase_den p) (pkt_type p)
    (pkt_keyframe p) (pkt_dts_usec p) (pkt_sys_dts_usec p) (pkt_priority p) (pkt_drop_priority p)
    (pkt_track_idx p) (pkt_encoder p).

(** The bytes appended to a packet of a codec that carries captions; [h0] and [h1] are
    the header of the first unit of an HEVC packet. *)
Definition caption_bytes (codec : string) (h0 h1 : Z) (sei : list bytes) : option bytes :=
  if bool_decide (codec = "h264"%string) then Some (nal_start ++ sei_render lib sei)
  else if bool_decide (codec = "hevc"%string) then
    let first_byte := u8 (Z.lor (Z.shiftl 40 1) (Z.land 1 h0)) in
    Some (drop 1 nal_start ++ [first_byte; h1] ++ drop 1 (sei_render lib sei))
  else if bool_decide (codec = "av1"%string) then
    Some (metadata_obu (extract_buffer_from_sei sei) METADATA_TYPE_ITUT_T35)
  else None.

(** [codec] is the codec of the packet's encoder. The result is [false] when the packet
    is left as it is. *)
Definition add_caption (codec : string) (ctrack : caption_track_data) (out : encoder_packet) :
    option (bool * caption_track_data * encoder_packet) :=
  if 1 <? pkt_priority out then Some (false, ctrack, out) else
  hdr ← (if bool_decide (codec = "hevc"%string) then first_nal_header (pkt_data out) else Some (Some (0, 0)));
  match hdr with
  | None => Some (false, ctrack, out)
  | Some (h0, h1) =>
      '(sei, ctrack) ← next_sei ctrack;
      Some (match caption_bytes codec h0 h1 sei with
            | Some tail => (true, ctrack, pkt_set_data out (pkt_data out ++ tail))
            | None => (false, ctrack, out)
            end)
  end.

(** The captions due with a video packet. *)
Definition send_captions (codec : string) (ctrack : caption_track_data) (out : encoder_packet) :
    option (caption_track_data * encoder_packet) :=
  let frame_timestamp :=
    double_div (double_of_int (i64 (pkt_pts out * pkt_timebase_num out)))
      (double_of_int (pkt_timebase_den out)) in
  '(ctrack, out) ←
    match captions ctrack with
    | c :: _ =>
        if SFleb (caption_timestamp ctrack) frame_timestamp then
          '(added, ctrack, out) ← add_caption codec ctrack out;
          Some (if (added : bool)
                then mk_ctrack (captions ctrack) (double_add frame_timestamp (display_duration c))
                       (last_caption_timestamp ctrack) (caption_data ctrack)
                else ctrack, out)
        else Some (ctrack, out)
    | [] => Some (ctrack, out)
    end;
  if (0 <? zlen (caption_data ctrack)) && SFltb (last_caption_timestamp ctrack) frame_timestamp then
    let ctrack := mk_ctrack (captions ctrack) (caption_timestamp ctrack) frame_timestamp (caption_data ctrack) in
    '(_, ctrack, out) ← add_caption codec ctrack out;
    Some (ctrack, out)
  else Some (ctrack, out).

(** ** A caption only adds to the data of the packet *)

Definition extends (p q : encoder_packet) : Prop :=
  ∃ tail, q = pkt_set_data p (pkt_data p ++ tail).

Lemma extends_refl p : extends p p.
Proof. exists []. destruct p. unfold pkt_set_data. cbn. by rewrite app_nil_r. Qed.

Lemma extends_trans p q r : extends p q → extends q r → extends p r.
Proof. intros [t ->] [t' ->]. exists (t ++ t'). unfold pkt_set_data. cbn. by rewrite app_assoc. Qed.

Lemma extends_data p tail : extends p (pkt_set_data p (pkt_data p ++ tail)).
Proof. by exists tail. Qed.

#[local] Hint Resolve extends_refl extends_data : core.

Lemma add_caption_extends codec ctrack out b ctrack' out' :
  add_caption codec ctrack out = Some (b, ctrack', out') → extends out out'.
Proof.
  unfold add_caption. destruct (1 <? pkt_priority out); [by intros [= _ _ <-]|].
  destruct (if bool_decide (codec = "hevc"%string) then _ else _) as [[[h0 h1]|]|]; cbn [mbind option_bind];
    [|by intros [= _ _ <-]|done].
  destruct (next_sei ctrack) as [[sei c]|]; cbn [mbind option_bind]; [|done].
  destruct (caption_bytes _ _ _ _); intros [= _ _ <-]; auto.
Qed.

Lemma send_captions_extends codec ctrack out ctrack' out' :
  send_captions codec ctrack out = Some (ctrack', out') → extends out out'.
Proof.
  unfold send_captions. set (ts := double_div _ _).
  destruct (match captions ctrack with [] => _ | _ => _ end) as [[c p]|] eqn:E; cbn; [|done].
  assert (extends out p) as Hp.
  { revert E. destruct (captions ctrack); [by intros [= <- <-]|]. destruct (SFleb _ _); [|by intros [= <- <-]].
    destruct (add_caption codec ctrack out) as [[[b c'] p']|] eqn:Ea; cbn; [|done]. intros [= _ <-].
    by eapply add_caption_extends. }
  destruct (_ && _); [|by intros [= <- <-]].
  destruct (add_caption _ _ p) as [[[b c'] p']|] eqn:Ea; cbn; [|done]. intros [= _ <-].
  eapply extends_trans; [done|]. by eapply add_caption_extends.
Qed.
End captions.
