(* ===== verification/Interleave.v ===== *)
(** * Interleaving of packets: libobs/obs-output.c

    The queue in which an encoded output merges the packets of its encoders, from
    [reset_packet_data] to the packets handed to the output. [None] is undefined behaviour
    or a failed [assert]. Time stamps of [os_gettime_ns], packet callbacks and libcaption
    are given by an environment. *)

From S2P Require Import Prelude Encoder Captions.

Local Open Scope Z_scope.

(** ** The output *)

Definition MAX_OUTPUT_VIDEO_ENCODERS : nat := 10.
Definition MAX_OUTPUT_AUDIO_ENCODERS : nat := 6.

Record encoder_packet_time := mk_ept { ept_pts : Z; ept_cts : Z; ept_fer : Z; ept_ferc : Z; ept_pir : Z }.

Inductive keyframe_group_track_status :=
  | KEYFRAME_TRACK_STATUS_NOT_SEEN | KEYFRAME_TRACK_STATUS_SEEN | KEYFRAME_TRACK_STATUS_SKIPPED.

#[export] Instance keyframe_group_track_status_eq_dec : EqDecision keyframe_group_track_status.
Proof. solve_decision. Defined.

Record keyframe_group_data := mk_group {
  group_id : Z; group_pts : Z; required_tracks : Z; seen_on_track : list keyframe_group_track_status
}.

(** What does not change while the output is active. *)
Record output_conf := mk_conf {
  video_encoders : list (option obs_encoder);
  audio_encoders : list (option obs_encoder);
  interleaver_max_batch_size : Z
}.

(** The rest of [struct obs_output] that the interleaver uses; [sent] are the calls of
    [info.encoded_packet], the last one first. *)
Record obs_output := mk_output {
  received_video : list bool;
  received_audio : bool;
  keyframe_group_tracking : list keyframe_group_data;
  video_offsets : list Z;
  audio_offsets : list Z;
  highest_audio_ts : Z;
  highest_video_ts : list Z;
  interleaved_packets : list encoder_packet;
  encoder_packet_times : list (list encoder_packet_time);
  caption_tracks : list (option caption_track_data);
  total_frames : Z;
  clock_reads : nat;
  sent : list encoder_packet
}.

(** A callback may change the packet and its times. *)
Definition packet_callback : Type :=
  encoder_packet → option encoder_packet_time → encoder_packet * option encoder_packet_time.

Record output_env := mk_env {
  os_gettime_ns : nat → Z;
  pkt_callbacks : list packet_callback;
  env_captions : libcaption
}.

(** Updates of one field. *)
Section updates.
Implicit Types o : obs_output.

Definition set_received o v a : obs_output :=
  mk_output v a (keyframe_group_tracking o) (video_offsets o) (audio_offsets o) (highest_audio_ts o)
    (highest_video_ts o) (interleaved_packets o) (encoder_packet_times o) (caption_tracks o)
    (total_frames o) (clock_reads o) (sent o).
Definition set_groups o g : obs_output :=
  mk_output (received_video o) (received_audio o) g (video_offsets o) (audio_offsets o) (highest_audio_ts o)
    (highest_video_ts o) (interleaved_packets o) (encoder_packet_times o) (caption_tracks o)
    (total_frames o) (clock_reads o) (sent o).
Definition set_offsets o v a : obs_output :=
  mk_output (received_video o) (received_audio o) (keyframe_group_tracking o) v a (highest_audio_ts o)
    (highest_video_ts o) (interleaved_packets o) (encoder_packet_times o) (caption_tracks o)
    (total_frames o) (clock_reads o) (sent o).
Definition set_highest o v a : obs_output :=
  mk_output (received_video o) (received_audio o) (keyframe_group_tracking o) (video_offsets o) (audio_offsets o) a
    v (interleaved_packets o) (encoder_packet_times o) (caption_tracks o)
    (total_frames o) (clock_reads o) (sent o).
Definition set_packets o q : obs_output :=
  mk_output (received_video o) (received_audio o) (keyframe_group_tracking o) (video_offsets o) (audio_offsets o)
    (highest_audio_ts o) (highest_video_ts o) q (encoder_packet_times o) (caption_tracks o)
    (total_frames o) (clock_reads o) (sent o).
Definition set_times o t : obs_output :=
  mk_output (received_video o) (received_audio o) (keyframe_group_tracking o) (video_offsets o) (audio_offsets o)
    (highest_audio_ts o) (highest_video_ts o) (interleaved_packets o) t (caption_tracks o)
    (total_frames o) (clock_reads o) (sent o).
Definition set_frames o c n : obs_output :=
  mk_output (received_video o) (received_audio o) (keyframe_group_tracking o) (video_offsets o) (audio_offsets o)
    (highest_audio_ts o) (highest_video_ts o) (interleaved_packets o) (encoder_packet_times o) c
    n (clock_reads o) (sent o).
Definition set_sent o n s : obs_output :=
  mk_output (received_video o) (received_audio o) (keyframe_group_tracking o) (video_offsets o) (audio_offsets o)
    (highest_audio_ts o) (highest_video_ts o) (interleaved_packets o) (encoder_packet_times o) (caption_tracks o)
    (total_frames o) n s.
End updates.

(** An element of an array. *)
Definition at_idx {A} (l : list A) (i : Z) : option A := if 0 <=? i then l !! Z.to_nat i else None.
Definition put_idx {A} (l : list A) (i : Z) (x : A) : list A := <[Z.to_nat i := x]> l.

Definition is_video (p : encoder_packet) : bool :=
  match pkt_type p with OBS_ENCODER_VIDEO => true | OBS_ENCODER_AUDIO => false end.

Definition has_encoder (e : option obs_encoder) : bool := match e with Some _ => true | None => false end.

(** ** Receiving packets *)

(** The place of the packet's encoder in the array of its type. *)
Definition get_encoder_index (c : output_conf) (pkt : encoder_packet) : option Z :=
  let encoders := if is_video pkt then video_encoders c else audio_encoders c in
  '(i, _) ← list_find (λ e, enc_ptr <$> e = Some (pkt_encoder pkt)) encoders;
  Some (Z.of_nat i).

Definition check_received (o : obs_output) (out : encoder_packet) : obs_output :=
  if is_video out then set_received o (put_idx (received_video o) (pkt_track_idx out) true) (received_audio o)
  else set_received o (received_video o) true.

(** The offset of a packet's track. *)
Definition track_offset (o : obs_output) (out : encoder_packet) : option Z :=
  if is_video out then at_idx (video_offsets o) (pkt_track_idx out)
  else at_idx (audio_offsets o) (pkt_track_idx out).

(** The packet and the time entry with their offset subtracted. *)
Definition apply_interleaved_packet_offset (o : obs_output) (out : encoder_packet)
    (packet_time : option encoder_packet_time) : option (encoder_packet * option encoder_packet_time) :=
  offset ← track_offset o out;
  let out := pkt_set_ts out (i64 (pkt_pts out - offset)) (i64 (pkt_dts out - offset)) (pkt_dts_usec out) in
  Some (pkt_set_ts out (pkt_pts out) (pkt_dts out) (packet_dts_usec out),
        (λ t, mk_ept (i64 (ept_pts t - offset)) (ept_cts t) (ept_fer t) (ept_ferc t) (ept_pir t)) <$> packet_time).

(** Every other video track, and audio for a video packet, is past the packet. *)
Definition has_higher_opposing_ts (c : output_conf) (o : obs_output) (packet : encoder_packet) : bool :=
  let has_higher :=
    forallb (λ '(i, (e, h)),
      negb (has_encoder e) || (is_video packet && (Z.of_nat i =? pkt_track_idx packet)) || (pkt_dts_usec packet <? h))
      (imap pair (zip (video_encoders c) (highest_video_ts o))) in
  if is_video packet then has_higher && (pkt_dts_usec packet <? highest_audio_ts o) else has_higher.

Definition set_higher_ts (o : obs_output) (packet : encoder_packet) : option obs_output :=
  if is_video packet then
    h ← at_idx (highest_video_ts o) (pkt_track_idx packet);
    Some (if h <? pkt_dts_usec packet
          then set_highest o (put_idx (highest_video_ts o) (pkt_track_idx packet) (pkt_dts_usec packet))
                 (highest_audio_ts o)
          else o)
  else Some (if highest_audio_ts o <? pkt_dts_usec packet
             then set_highest o (highest_video_ts o) (pkt_dts_usec packet) else o).

(** ** Sending *)

(** The entry of the packet's time, taken out of the array. *)
Fixpoint take_ept (pts : Z) (l : list encoder_packet_time) :
    option encoder_packet_time * list encoder_packet_time :=
  match l with
  | [] => (None, [])
  | t :: l =>
      if ept_pts t =? pts then (Some t, l)
      else let '(r, l) := take_ept pts l in (r, t :: l)
  end.

(** The registered callbacks, each after a reading of the clock. *)
Fixpoint run_callbacks (env : output_env) (cbs : list packet_callback) (reads : nat) (out : encoder_packet)
    (ept : option encoder_packet_time) : nat * encoder_packet :=
  match cbs with
  | [] => (reads, out)
  | cb :: cbs =>
      let ept := (λ t, mk_ept (ept_pts t) (ept_cts t) (ept_fer t) (ept_ferc t) (os_gettime_ns env reads)) <$> ept in
      let '(out, ept) := cb out ept in
      run_callbacks env cbs (S reads) out ept
  end.

(** The encoder of a packet among those of the output. *)
Definition packet_encoder (c : output_conf) (out : encoder_packet) : option obs_encoder :=
  '(_, e) ← list_find (λ e, enc_ptr <$> e = Some (pkt_encoder out)) (video_encoders c);
  e.

(** The part of [send_interleaved] for video: captions and the time entry. *)
Definition send_video_part (c : output_conf) (env : output_env) (o : obs_output) (out : encoder_packet) :
    option (obs_output * encoder_packet * option encoder_packet_time) :=
  track ← at_idx (caption_tracks o) (pkt_track_idx out);
  ctrack ← track;
  e ← packet_encoder c out;
  '(ctrack, out) ← send_captions (env_captions env) (enc_codec e) ctrack out;
  times ← at_idx (encoder_packet_times o) (pkt_track_idx out);
  let '(ept, times) := take_ept (pkt_pts out) times in
  let o := set_frames o (put_idx (caption_tracks o) (pkt_track_idx out) (Some ctrack)) (i32 (total_frames o + 1)) in
  Some (set_times o (put_idx (encoder_packet_times o) (pkt_track_idx out) times), out, ept).

Definition send_interleaved (c : output_conf) (env : output_env) (o : obs_output) : option obs_output :=
  match interleaved_packets o with
  | [] => None
  | out :: q =>
      let o := set_packets o q in
      '(o, out, ept) ← (if is_video out then send_video_part c env o out else Some (o, out, None));
      let '(reads, out) := run_callbacks env (pkt_callbacks env) (clock_reads o) out ept in
      Some (set_sent o reads (out :: sent o))
  end.

(** ** Finding packets *)

(** The index of the first and the last packet of a track; [None] is -1. *)
Definition of_track (type : obs_encoder_type) (idx : Z) (p : encoder_packet) : bool :=
  bool_decide (pkt_type p = type) && (pkt_track_idx p =? idx).

Fixpoint find_first_packet_type_idx (q : list encoder_packet) (type : obs_encoder_type) (idx : Z) : option Z :=
  match q with
  | [] => None
  | p :: q => if of_track type idx p then Some 0 else Z.succ <$> find_first_packet_type_idx q type idx
  end.

Fixpoint find_last_packet_type_idx (q : list encoder_packet) (type : obs_encoder_type) (idx : Z) : option Z :=
  match q with
  | [] => None
  | p :: q =>
      match find_last_packet_type_idx q type idx with
      | Some i => Some (i + 1)
      | None => if of_track type idx p then Some 0 else None
      end
  end.

Definition find_first_packet_type (q : list encoder_packet) type idx : option encoder_packet :=
  find_first_packet_type_idx q type idx ≫= at_idx q.
Definition find_last_packet_type (q : list encoder_packet) type idx : option encoder_packet :=
  find_last_packet_type_idx q type idx ≫= at_idx q.

(** ** Where to start *)

Definition INT64_MAX : Z := 2 ^ 63 - 1.
Definition INT64_MIN : Z := - 2 ^ 63.
Definition DARRAY_INVALID : Z := 2 ^ 64 - 1.

(** The loop over the packets: [(closest_diff, video_idx, idx)]. *)
Fixpoint closest_loop (q : list encoder_packet) (i : Z) (video : option (Z * encoder_packet))
    (st : Z * Z * Z) : option (Z * Z * Z) :=
  match q with
  | [] => Some st
  | p :: q =>
      let '(closest_diff, video_idx, idx) := st in
      st ← (if is_video p then
              Some (closest_diff, if bool_decide (fst <$> video = Some i) then i else video_idx, idx)
            else
              '(_, first_video) ← video;
              let diff := Z.abs (i64 (pkt_dts_usec p - pkt_dts_usec first_video)) in
              Some (if diff <? closest_diff then (diff, video_idx, i) else st));
      closest_loop q (i + 1) video st
  end.

(** The first audio packet from an index on. *)
Definition first_audio_from (q : list encoder_packet) (idx : Z) : option encoder_packet :=
  snd <$> list_find (λ p, is_video p = false) (drop (Z.to_nat idx) q).

(** The audio encoders are looked at whether they are there or not. *)
Fixpoint priming_loop (q : list encoder_packet) (n : nat) (i idx : Z) : Z :=
  match n with
  | O => idx
  | S n =>
      priming_loop q n (i + 1)
        (match find_first_packet_type_idx q OBS_ENCODER_AUDIO i with
         | Some audio_idx => if audio_idx <? idx then audio_idx else idx
         | None => idx
         end)
  end.

Definition get_interleaved_start_idx (o : obs_output) : option Z :=
  let q := interleaved_packets o in
  let first_video :=
    i ← find_first_packet_type_idx q OBS_ENCODER_VIDEO 0; p ← at_idx q i; Some (i, p) in
  '(_, video_idx, idx) ← closest_loop q 0 first_video (INT64_MAX, DARRAY_INVALID, 0);
  let idx := if video_idx <? idx then video_idx else idx in
  a ← first_audio_from q idx;
  Some (if pkt_pts a <=? 0 then priming_loop q MAX_OUTPUT_AUDIO_ENCODERS 0 idx else idx).

Definition get_encoder_duration (e : obs_encoder) : Z :=
  i64 (i64 (enc_timebase_num e * 1000000) /c enc_timebase_den e * enc_framesize e).

(** The loop over the audio encoders: [(max_idx, diff, max_diff, max_audio_duration_usec,
    audio_encoders)], or [None] when an encoder has no packet. *)
Fixpoint premature_loop (q : list encoder_packet) (encs : list (option obs_encoder)) (i : Z)
    (video : encoder_packet) (st : Z * Z * Z * Z * Z) : option (Z * Z * Z * Z * Z) :=
  match encs with
  | [] => Some st
  | None :: encs => premature_loop q encs (i + 1) video st
  | Some e :: encs =>
      let '(max_idx, diff, max_diff, max_audio_duration_usec, audio_encoders) := st in
      audio_idx ← find_first_packet_type_idx q OBS_ENCODER_AUDIO i;
      audio ← at_idx q audio_idx;
      let diff := i64 (pkt_dts_usec audio - pkt_dts_usec video) in
      premature_loop q encs (i + 1) video
        (Z.max max_idx audio_idx, diff, Z.max max_diff diff,
         Z.max max_audio_duration_usec (get_encoder_duration e), audio_encoders + 1)
  end.

(** The number of packets to discard; [None] is -1. *)
Definition prune_premature_packets (c : output_conf) (o : obs_output) : obs_output * option Z :=
  let q := interleaved_packets o in
  match find_first_packet_type_idx q OBS_ENCODER_VIDEO 0 with
  | None => (o, None)
  | Some video_idx =>
      match at_idx q video_idx with
      | None => (o, None)
      | Some video =>
          let duration_usec := i64 (pkt_timebase_num video * 1000000) /c pkt_timebase_den video in
          match premature_loop q (audio_encoders c) 0 video (video_idx, 0, 0, 0, 0) with
          | None => (set_received o (received_video o) false, None)
          | Some (max_idx, diff, _, max_audio_duration_usec, audio_encoders) =>
              let duration_usec :=
                if (1 <? audio_encoders) && (duration_usec <? max_audio_duration_usec)
                then max_audio_duration_usec else duration_usec in
              (o, Some (if duration_usec <? diff then max_idx + 1 else 0))
          end
      end
  end.

(** ** Discarding *)

(** The packets before the index, with the time entries of their tracks popped. *)
Fixpoint discard_packets (n : nat) (q : list encoder_packet) (times : list (list encoder_packet_time)) :
    option (list encoder_packet * list (list encoder_packet_time)) :=
  match n, q with
  | O, _ => Some (q, times)
  | S n, p :: q =>
      times ← (if is_video p then
                 l ← at_idx times (pkt_track_idx p);
                 match l with [] => None | _ :: l => Some (put_idx times (pkt_track_idx p) l) end
               else Some times);
      discard_packets n q times
  | S _, [] => None
  end.

Definition discard_to_idx (o : obs_output) (idx : Z) : option obs_output :=
  '(q, times) ← discard_packets (Z.to_nat idx) (interleaved_packets o) (encoder_packet_times o);
  Some (set_times (set_packets o q) times).

(** The result [false] is [None]. *)
Definition prune_interleaved_packets (c : output_conf) (o : obs_output) : option (obs_output * bool) :=
  let '(o, prune_start) := prune_premature_packets c o in
  match prune_start with
  | None => Some (o, false)
  | Some n =>
      start_idx ← (if negb (n =? 0) then Some n else get_interleaved_start_idx o);
      o ← (if negb (start_idx =? 0) then discard_to_idx o start_idx else Some o);
      Some (o, true)
  end.

(** The packets before the first one at or after a time. *)
Definition discard_unused_audio_packets (o : obs_output) (dts_usec : Z) : option obs_output :=
  let q := interleaved_packets o in
  let idx := match list_find (λ p, dts_usec ≤ pkt_dts_usec p) q with
             | Some (i, _) => Z.of_nat i
             | None => zlen q
             end in
  if negb (idx =? 0) then discard_to_idx o idx else Some o.

(** ** Starting *)

(** The first packet of each encoder of a type, or the index of an encoder without one. *)
Fixpoint first_packets (q : list encoder_packet) (type : obs_encoder_type) (encs : list (option obs_encoder))
    (i : Z) : Z + list (option encoder_packet) :=
  match encs with
  | [] => inr []
  | None :: encs =>
      match first_packets q type encs (i + 1) with inl j => inl j | inr l => inr (None :: l) end
  | Some _ :: encs =>
      match find_first_packet_type q type i with
      | None => inl i
      | Some p =>
          match first_packets q type encs (i + 1) with inl j => inl j | inr l => inr (Some p :: l) end
      end
  end.

(** The first packets; a track without one has to be received again. The result
    [found_video] is [false] without a video encoder. *)
Definition get_audio_and_video_packets (c : output_conf) (o : obs_output) :
    obs_output * option (list (option encoder_packet) * list (option encoder_packet)) :=
  let q := interleaved_packets o in
  match first_packets q OBS_ENCODER_VIDEO (video_encoders c) 0 with
  | inl i => (set_received o (put_idx (received_video o) i false) (received_audio o), None)
  | inr video =>
      match first_packets q OBS_ENCODER_AUDIO (audio_encoders c) 0 with
      | inl _ => (set_received o (received_video o) false, None)
      | inr audio => (o, if existsb has_encoder (video_encoders c) then Some (video, audio) else None)
      end
  end.

(** The index of the first encoder of an array. *)
Definition first_encoder_index (encs : list (option obs_encoder)) : option Z :=
  '(i, _) ← list_find (λ e, has_encoder e = true) encs; Some (Z.of_nat i).

(** There is audio at or after the first video packet, on every audio track. *)
Definition audio_past_video (c : output_conf) (q : list encoder_packet) (video : encoder_packet) : option bool :=
  foldr (λ '(i, e) r,
    ok ← r;
    if has_encoder e
    then a ← find_last_packet_type q OBS_ENCODER_AUDIO (Z.of_nat i);
         Some ((pkt_dts_usec video <=? pkt_dts_usec a) && ok)
    else Some ok) (Some true) (imap pair (audio_encoders c)).

Definition new_video_offsets (video : list (option encoder_packet)) (offsets : list Z) : list Z :=
  zip_with (λ p off, from_option pkt_pts off p) video offsets.
Definition new_audio_offsets (audio : list (option encoder_packet)) (offsets : list Z) : list Z :=
  zip_with (λ p off, match p with Some p => if 0 <? pkt_dts p then pkt_dts p else off | None => off end)
    audio offsets.

(** The offsets from the first packets, applied to the queue. *)
Definition start_offsets (o : obs_output) (video audio : list (option encoder_packet)) (first_audio : encoder_packet) :
    option obs_output :=
  let o := set_offsets o (new_video_offsets video (video_offsets o)) (new_audio_offsets audio (audio_offsets o)) in
  let o := set_highest o (highest_video_ts o) (i64 (highest_audio_ts o - pkt_dts_usec first_audio)) in
  q ← mapM (λ p, fst <$> apply_interleaved_packet_offset o p None) (interleaved_packets o);
  Some (set_packets o q).

Definition initialize_interleaved_packets (c : output_conf) (o : obs_output) : option (obs_output * bool) :=
  match first_encoder_index (audio_encoders c), first_encoder_index (video_encoders c) with
  | Some first_audio_idx, Some first_video_idx =>
      match get_audio_and_video_packets c o with
      | (o, None) => Some (o, false)
      | (o, Some (video, audio)) =>
          first_video ← at_idx video first_video_idx ≫= id;
          ok ← audio_past_video c (interleaved_packets o) first_video;
          if negb ok then Some (set_received o (received_video o) false, false) else
          start_idx ← get_interleaved_start_idx o;
          '(o, r) ← (if negb (start_idx =? 0) then
                       o ← discard_to_idx o start_idx; Some (get_audio_and_video_packets c o)
                     else Some (o, Some (video, audio)));
          match r with
          | None => Some (o, false)
          | Some (video, audio) =>
              first_audio ← at_idx audio first_audio_idx ≫= id;
              o ← start_offsets o video audio first_audio;
              Some (o, true)
          end
      end
  | _, _ => Some (o, false)
  end.

(** ** Ordering *)

Fixpoint insert_packet (out : encoder_packet) (q : list encoder_packet) : list encoder_packet :=
  match q with
  | [] => [out]
  | cur :: q' =>
      let same := pkt_dts_usec out =? pkt_dts_usec cur in
      if same && is_video out && is_video cur && (pkt_track_idx cur <? pkt_track_idx out)
      then cur :: insert_packet out q'
      else if same && is_video out then out :: q
      else if pkt_dts_usec out <? pkt_dts_usec cur then out :: q
      else cur :: insert_packet out q'
  end.

Definition insert_interleaved_packet (o : obs_output) (out : encoder_packet) : obs_output :=
  set_packets o (insert_packet out (interleaved_packets o)).

Definition resort_interleaved_packets (o : obs_output) : option obs_output :=
  foldl (λ r p, o ← r; o ← set_higher_ts o p; Some (insert_interleaved_packet o p))
    (Some (set_packets o [])) (interleaved_packets o).

(** ** Keyframes of encoder groups *)

Definition purge_encoder_group_keyframe_data (d : keyframe_group_data) : bool :=
  Z.of_nat (length (filter (λ s, s ≠ KEYFRAME_TRACK_STATUS_NOT_SEEN) (seen_on_track d))) =? required_tracks d.

Definition group_see (d : keyframe_group_data) (track : Z) (s : keyframe_group_track_status) : keyframe_group_data :=
  mk_group (group_id d) (group_pts d) (required_tracks d) (put_idx (seen_on_track d) track s).

(** The entries from the current one on; [id] and [n] are the packet's group and the
    number of its encoders that are started. *)
Fixpoint align_loop (l : list keyframe_group_data) (packet : encoder_packet) (id n : Z) : list keyframe_group_data :=
  let insert :=
    mk_group id (pkt_pts packet) n
      (put_idx (replicate MAX_OUTPUT_VIDEO_ENCODERS KEYFRAME_TRACK_STATUS_NOT_SEEN) (pkt_track_idx packet)
         KEYFRAME_TRACK_STATUS_SEEN) in
  match l with
  | [] => [insert]
  | d :: l =>
      if pkt_pts packet <? group_pts d then insert :: d :: l
      else if negb (group_id d =? id) then d :: align_loop l packet id n
      else if group_pts d <? pkt_pts packet then
        let d := group_see d (pkt_track_idx packet) KEYFRAME_TRACK_STATUS_SKIPPED in
        if purge_encoder_group_keyframe_data d then align_loop l packet id n else d :: align_loop l packet id n
      else
        let d := group_see d (pkt_track_idx packet) KEYFRAME_TRACK_STATUS_SEEN in
        if purge_encoder_group_keyframe_data d then l else d :: l
  end.

(** [group] is the group of the packet's encoder: its address and [num_encoders_started]. *)
Definition check_encoder_group_keyframe_alignment (o : obs_output) (packet : encoder_packet)
    (group : option (Z * Z)) : obs_output :=
  match group with
  | Some (id, n) =>
      if pkt_keyframe packet && is_video packet
      then set_groups o (align_loop (keyframe_group_tracking o) packet id n) else o
  | None => o
  end.

(** ** A packet arrives *)

Definition apply_ept_offsets (o : obs_output) : obs_output :=
  set_times o (zip_with (λ l off,
    map (λ t, mk_ept (i64 (ept_pts t - off)) (ept_cts t) (ept_fer t) (ept_ferc t) (ept_pir t)) l)
    (encoder_packet_times o) (video_offsets o)).

Fixpoint count_streamable (c : output_conf) (o : obs_output) (q : list encoder_packet) : Z :=
  match q with
  | [] => 0
  | p :: q => if has_higher_opposing_ts c o p then 1 + count_streamable c o q else 0
  end.
Definition count_streamable_frames (c : output_conf) (o : obs_output) : Z :=
  count_streamable c o (interleaved_packets o).

(** Every video encoder has been received. *)
Definition all_received_video (c : output_conf) (o : obs_output) : bool :=
  forallb (λ '(e, r), negb (has_encoder e) || r) (zip (video_encoders c) (received_video o)).

Definition was_started (c : output_conf) (o : obs_output) : bool := received_audio o && all_received_video c o.

(** Started output: one packet, and one more when more are ready than a batch holds. *)
Definition send_streamable (c : output_conf) (env : output_env) (o : obs_output) : option obs_output :=
  let streamable := count_streamable_frames c o in
  if streamable =? 0 then Some o else
  o ← send_interleaved c env o;
  if interleaver_max_batch_size c <? streamable - 1 then send_interleaved c env o else Some o.

(** Output that has just received its last missing track. *)
Definition start_interleaved (c : output_conf) (env : output_env) (o : obs_output) : option obs_output :=
  '(o, pruned) ← prune_interleaved_packets c o;
  if negb pruned then Some o else
  '(o, initialized) ← initialize_interleaved_packets c o;
  if negb initialized then Some o else
  o ← resort_interleaved_packets o;
  send_interleaved c env (apply_ept_offsets o).

(** The output is active. *)
Definition interleave_packets (c : output_conf) (env : output_env) (o : obs_output) (packet : encoder_packet)
    (packet_time : option encoder_packet_time) (group : option (Z * Z)) : option obs_output :=
  i ← get_encoder_index c packet;
  let packet := pkt_set_track_idx packet i in
  received ← (if is_video packet then at_idx (received_video o) i else Some true);
  if negb received && negb (pkt_keyframe packet) then discard_unused_audio_packets o (pkt_dts_usec packet) else
  let o := check_encoder_group_keyframe_alignment o packet group in
  let started := was_started c o in
  '(o, out) ←
    (if started then
       '(out, packet_time) ← apply_interleaved_packet_offset o packet packet_time;
       Some (o, packet_time, out)
     else Some (check_received o packet, packet_time, packet)) ≫=
    (λ '(o, packet_time, out),
       times ← match packet_time with
               | Some t => l ← at_idx (encoder_packet_times o) i; Some (put_idx (encoder_packet_times o) i (l ++ [t]))
               | None => Some (encoder_packet_times o)
               end;
       Some (set_times o times, out));
  let o := insert_interleaved_packet o out in
  if negb (was_started c o) then Some o
  else if negb started then start_interleaved c env o
  else
    o ← set_higher_ts o out;
    send_streamable c env o.

(** Before the encoders start; what was sent is counted from here. *)
Definition reset_packet_data (o : obs_output) : obs_output :=
  mk_output (replicate MAX_OUTPUT_VIDEO_ENCODERS false) false (keyframe_group_tracking o)
    (replicate MAX_OUTPUT_VIDEO_ENCODERS 0) (replicate MAX_OUTPUT_AUDIO_ENCODERS 0) 0
    (replicate MAX_OUTPUT_VIDEO_ENCODERS INT64_MIN) [] (replicate MAX_OUTPUT_VIDEO_ENCODERS [])
    (caption_tracks o) (total_frames o) (clock_reads o) [].
