(* ===== verification/InterleaveOrder.v ===== *)
(** * The order of interleaved packets

    A started output hands on every packet it is given, in the order of the relative
    timestamps, as long as the timestamps of each video track, and of audio, do not go
    backwards. *)

From stdpp Require Import sorting.
From S2P Require Import Prelude Double Encoder Captions Interleave.

Local Open Scope Z_scope.

(** ** Arrays *)

Section arrays.
Context {A : Type}.
Implicit Types l : list A.

Lemma at_idx_some l i : 0 ≤ i < zlen l → is_Some (at_idx l i).
Proof. intros. unfold at_idx. rewrite (proj2 (Z.leb_le _ _)) by lia. apply lookup_lt_is_Some. unfold zlen in *. lia. Qed.

Lemma at_idx_lookup l (i : nat) : at_idx l (Z.of_nat i) = l !! i.
Proof. unfold at_idx. rewrite (proj2 (Z.leb_le _ _)) by lia. by rewrite Nat2Z.id. Qed.

Lemma put_idx_length l i x : length (put_idx l i x) = length l.
Proof. apply length_insert. Qed.

Lemma at_put l i j x : 0 ≤ i < zlen l → at_idx (put_idx l i x) j = if j =? i then Some x else at_idx l j.
Proof.
  intros Hi. unfold at_idx, put_idx. destruct (Z.eqb_spec j i) as [->|N].
  - rewrite (proj2 (Z.leb_le _ _)) by lia. apply list_lookup_insert_eq. unfold zlen in *. lia.
  - destruct (Z.leb_spec 0 j); [|done]. apply list_lookup_insert_ne. lia.
Qed.
End arrays.

(** ** What identifies a packet from its arrival to the output *)

Definition packet_key (p : encoder_packet) : obs_encoder_type * Z * Z * Z * Z :=
  (pkt_type p, pkt_track_idx p, pkt_pts p, pkt_dts p, pkt_dts_usec p).

Definition before (p q : encoder_packet) : Prop := pkt_dts_usec p ≤ pkt_dts_usec q.
#[export] Instance before_dec : RelDecision before. Proof. intros p q. unfold before. apply _. Defined.
#[export] Instance before_preorder : PreOrder before.
Proof. split; [intros p|intros p q r]; unfold before; lia. Qed.

(** Packet callbacks that leave the timing and the track of a packet alone. *)
Definition callbacks_keep (env : output_env) : Prop :=
  Forall (λ cb : packet_callback, ∀ p t, packet_key (cb p t).1 = packet_key p) (pkt_callbacks env).

(** A packet of one of the output's encoders, numbered as in the arrays; an HEVC packet
    has a start code and a NAL unit header. *)
Record from_encoder (c : output_conf) (p : encoder_packet) : Prop := {
  f_index : get_encoder_index c p = Some (pkt_track_idx p);
  f_data : 6 ≤ zlen (pkt_data p)
}.

(** The caption data come in triples. *)
Definition ctrack_ok (t : caption_track_data) : Prop := (3 | zlen (caption_data t)).

Record conf_ok (c : output_conf) : Prop := {
  c_video : length (video_encoders c) = MAX_OUTPUT_VIDEO_ENCODERS;
  c_audio : length (audio_encoders c) = MAX_OUTPUT_AUDIO_ENCODERS;
  c_batch : 0 ≤ interleaver_max_batch_size c
}.

(** The arrays have their sizes and a video encoder has a caption track. *)
Record arrays_ok (c : output_conf) (o : obs_output) : Prop := {
  a_received : length (received_video o) = MAX_OUTPUT_VIDEO_ENCODERS;
  a_voffsets : length (video_offsets o) = MAX_OUTPUT_VIDEO_ENCODERS;
  a_aoffsets : length (audio_offsets o) = MAX_OUTPUT_AUDIO_ENCODERS;
  a_highest : length (highest_video_ts o) = MAX_OUTPUT_VIDEO_ENCODERS;
  a_times : length (encoder_packet_times o) = MAX_OUTPUT_VIDEO_ENCODERS;
  a_captions : ∀ i e, video_encoders c !! i = Some (Some e) → ∃ t, caption_tracks o !! i = Some (Some t) ∧ ctrack_ok t
}.

(** The highest timestamp of the packet's track: audio tracks share one. *)
Definition highest_of (o : obs_output) (p : encoder_packet) : option Z :=
  if is_video p then at_idx (highest_video_ts o) (pkt_track_idx p) else Some (highest_audio_ts o).

(** Nothing can come before a time any more. *)
Record past (c : output_conf) (o : obs_output) (t : Z) : Prop := {
  p_queue : Forall (λ p, t ≤ pkt_dts_usec p) (interleaved_packets o);
  p_video : ∀ i e h, video_encoders c !! i = Some (Some e) → highest_video_ts o !! i = Some h → t ≤ h;
  p_audio : t ≤ highest_audio_ts o
}.

(** A started output: the queue is sorted, and nothing that is sent is ahead of a packet
    that waits or may still come. *)
Record running (c : output_conf) (o : obs_output) : Prop := {
  r_arrays : arrays_ok c o;
  r_started : was_started c o = true;
  r_from : Forall (from_encoder c) (interleaved_packets o);
  r_sorted : StronglySorted before (interleaved_packets o);
  r_high : Forall (λ p, ∀ h, highest_of o p = Some h → pkt_dts_usec p ≤ h) (interleaved_packets o);
  r_sent : StronglySorted before (rev (sent o));
  r_past : Forall (λ s, past c o (pkt_dts_usec s)) (sent o)
}.

(** ** Insertion *)

Lemma insert_perm p q : insert_packet p q ≡ₚ p :: q.
Proof.
  induction q as [|x q IH]; [done|]. cbn [insert_packet].
  repeat case_match; try done; rewrite IH; apply perm_swap.
Qed.

Lemma insert_sorted p q : StronglySorted before q → StronglySorted before (insert_packet p q).
Proof.
  induction 1 as [|x q Hq IH Hx]; [repeat constructor|]. cbn [insert_packet].
  assert (before x p → Forall (before x) (insert_packet p q)) as Hins.
  { intros Hp. rewrite insert_perm. by constructor. }
  assert (before p x → StronglySorted before (p :: x :: q)) as Hfront.
  { intros Hp. constructor; [by constructor|]. constructor; [done|].
    eapply Forall_impl; [done|]. intros y. by apply (transitivity Hp). }
  unfold before in *.
  destruct (Z.eqb_spec (pkt_dts_usec p) (pkt_dts_usec x)) as [E|N]; cbn [andb];
    destruct (is_video p), (is_video x), (Z.ltb_spec (pkt_track_idx x) (pkt_track_idx p));
    destruct (Z.ltb_spec (pkt_dts_usec p) (pkt_dts_usec x)); cbn [andb];
    first [apply Hfront; lia | constructor; [done|apply Hins; lia] | lia].
Qed.

(** ** Captions never fail *)

Lemma cc_pairs_some lib data : (3 | zlen data) → is_Some (cc_pairs lib data).
Proof.
  intros Hd. remember (length data) as n eqn:E. assert (length data ≤ n)%nat as Hn by lia. clear E.
  revert data Hd Hn. induction n as [|n IH]; intros data Hd Hn.
  { destruct data; [done|cbn in Hn; lia]. }
  destruct data as [|b0 [|b1 [|b2 data]]]; [done|destruct Hd as [k Hk]; len_lia..|].
  destruct (IH data) as [l E].
  - destruct Hd as [k Hk]. exists (k - 1). len_lia.
  - cbn in Hn. lia.
  - cbn [cc_pairs]. rewrite E. cbn [mbind option_bind]. case_match; eauto.
Qed.

Lemma first_nal_header_some data : 6 ≤ zlen data → is_Some (first_nal_header data).
Proof.
  intros Hd. assert (∀ i, 0 ≤ i < 6 → is_Some (Nal.rd data i)) as Hrd.
  { intros i Hi. apply (at_idx_some (A := Z)). lia. }
  unfold first_nal_header, Nal.read_bytes. rewrite !(proj2 (Z.leb_le _ _)) by lia. cbn [mbind option_bind].
  destruct (Hrd 3 ltac:(lia)) as [b3 E3], (Hrd 4 ltac:(lia)) as [b4 E4], (Hrd 5 ltac:(lia)) as [b5 E5].
  repeat case_bool_decide; cbn [mbind option_bind]; [| |by eauto];
    change (3 + 1) with 4; change (4 + 1) with 5; rewrite ?E3, ?E4, ?E5; cbn; eauto.
Qed.

Lemma add_caption_some lib codec t p : ctrack_ok t → 6 ≤ zlen (pkt_data p) →
  ∃ b t' p', add_caption lib codec t p = Some (b, t', p') ∧ ctrack_ok t' ∧ extends p p'.
Proof.
  intros Ht Hp.
  assert (∃ sei t', next_sei lib t = Some (sei, t') ∧ ctrack_ok t') as (sei & t' & E & Ht').
  { unfold next_sei. destruct (0 <? zlen (caption_data t)) eqn:E0.
    - destruct (cc_pairs_some lib _ Ht) as [l E]. rewrite E. cbn. do 2 eexists. split; [done|]. by exists 0.
    - destruct (captions t); eauto. }
  assert (∃ hdr, (if bool_decide (codec = "hevc"%string) then first_nal_header (pkt_data p)
                  else Some (Some (0, 0))) = Some hdr) as [hdr Eh].
  { case_bool_decide; [|eauto]. destruct (first_nal_header_some _ Hp). eauto. }
  destruct (add_caption lib codec t p) as [[[b t1] p']|] eqn:Ea.
  - exists b, t1, p'. split; [done|]. split; [|by eapply add_caption_extends].
    revert Ea. unfold add_caption. rewrite Eh, E. destruct (1 <? pkt_priority p); [by intros [= _ <- _]|].
    cbn [mbind option_bind]. destruct hdr as [[h0 h1]|]; [|by intros [= _ <- _]].
    destruct (caption_bytes _ _ _ _ _); by intros [= _ <- _].
  - exfalso. revert Ea. unfold add_caption. rewrite Eh, E. destruct (1 <? pkt_priority p); [done|].
    cbn [mbind option_bind]. by destruct hdr as [[h0 h1]|].
Qed.

Lemma extends_len p q : extends p q → zlen (pkt_data p) ≤ zlen (pkt_data q).
Proof. intros [t ->]. cbn. len_lia. Qed.

Lemma extends_key p q : extends p q → packet_key q = packet_key p.
Proof. by intros [t ->]. Qed.

Lemma send_captions_some lib codec t p : ctrack_ok t → 6 ≤ zlen (pkt_data p) →
  ∃ t' p', send_captions lib codec t p = Some (t', p') ∧ ctrack_ok t' ∧ packet_key p' = packet_key p.
Proof.
  intros Ht Hp. unfold send_captions. set (ts := double_div _ _). clearbody ts.
  assert (∃ t1 p1,
    match captions t with
    | [] => Some (t, p)
    | c :: _ =>
        if SpecFloat.SFleb (caption_timestamp t) ts then
          '(added, t', out) ← add_caption lib codec t p;
          Some (if (added : bool)
                then mk_ctrack (captions t') (double_add ts (display_duration c))
                       (last_caption_timestamp t') (caption_data t')
                else t', out)
        else Some (t, p)
    end = Some (t1, p1) ∧ ctrack_ok t1 ∧ extends p p1) as (t1 & p1 & E & Ht1 & Hp1).
  { destruct (captions t); [exists t, p; split_and!; [done..|apply extends_refl]|].
    destruct (SpecFloat.SFleb _ _); [|exists t, p; split_and!; [done..|apply extends_refl]].
    destruct (add_caption_some lib codec t p Ht Hp) as (b & t' & p' & E & Ht' & Hp'). rewrite E. cbn.
    do 2 eexists. split; [done|]. split; [by destruct b|done]. }
  rewrite E. cbn [mbind option_bind].
  destruct (_ && _); [|exists t1, p1; split_and!; [done..|by apply extends_key]].
  destruct (add_caption_some lib codec (mk_ctrack (captions t1) (caption_timestamp t1) ts (caption_data t1)) p1)
    as (b & t' & p' & E' & Ht' & Hp'); [done|apply extends_len in Hp1; lia|].
  rewrite E'. cbn. do 2 eexists. split; [done|]. split; [done|].
  by rewrite (extends_key _ _ Hp'), (extends_key _ _ Hp1).
Qed.

(** ** Sending *)

(** The index of a packet's encoder is in range and the encoder is there. *)
Lemma index_video c p i : is_video p = true → get_encoder_index c p = Some i →
  ∃ e, at_idx (video_encoders c) i = Some (Some e) ∧ packet_encoder c p = Some e.
Proof.
  unfold get_encoder_index, packet_encoder. intros ->.
  destruct (list_find _ _) as [[k e]|] eqn:E; cbn; [|done]. intros [= <-].
  apply list_find_Some in E as (E & Hp & _). destruct e as [e|]; [|done].
  exists e. by rewrite at_idx_lookup.
Qed.

Lemma index_range c p i : conf_ok c → get_encoder_index c p = Some i →
  if is_video p then 0 ≤ i < Z.of_nat MAX_OUTPUT_VIDEO_ENCODERS else 0 ≤ i < Z.of_nat MAX_OUTPUT_AUDIO_ENCODERS.
Proof.
  intros [Hv Ha _]. unfold get_encoder_index.
  destruct (list_find _ _) as [[k e]|] eqn:E; cbn; [|done]. intros [= <-].
  apply list_find_Some in E as (E & _ & _). apply lookup_lt_Some in E. destruct (is_video p); lia.
Qed.

Lemma run_callbacks_key env cbs reads out ept :
  Forall (λ cb : packet_callback, ∀ p t, packet_key (cb p t).1 = packet_key p) cbs →
  packet_key (run_callbacks env cbs reads out ept).2 = packet_key out.
Proof.
  intros H. revert reads out ept. induction H as [|cb cbs Hcb _ IH]; intros; [done|]. cbn [run_callbacks].
  match goal with |- context [cb out ?t] => pose proof (Hcb out t) as E; destruct (cb out t) as [out' ept'] end.
  by rewrite IH.
Qed.

(** Everything but the queue, the time entries, the captions, the counters and what was sent. *)
Definition same_tracks (o o' : obs_output) : Prop :=
  received_video o' = received_video o ∧ received_audio o' = received_audio o ∧
  video_offsets o' = video_offsets o ∧ audio_offsets o' = audio_offsets o ∧
  highest_audio_ts o' = highest_audio_ts o ∧ highest_video_ts o' = highest_video_ts o.

Lemma take_ept_total pts l : ∃ r l', take_ept pts l = (r, l').
Proof. destruct (take_ept pts l); eauto. Qed.

Lemma send_spec c env o p q : conf_ok c → callbacks_keep env → arrays_ok c o →
  interleaved_packets o = p :: q → from_encoder c p →
  ∃ o' s, send_interleaved c env o = Some o' ∧ packet_key s = packet_key p ∧ sent o' = s :: sent o ∧
    interleaved_packets o' = q ∧ same_tracks o o' ∧ arrays_ok c o'.
Proof.
  intros Hc Hcb Ha Hq [Hi Hd]. unfold send_interleaved. rewrite Hq. destruct (is_video p) eqn:Hv.
  - destruct (index_video c p _ Hv Hi) as (e & Ee & Ep). pose proof (index_range c p _ Hc Hi) as Hr.
    rewrite Hv in Hr. set (i := pkt_track_idx p) in *. destruct Ha as [H1 H2 H3 H4 H5 H6].
    rewrite <- (Z2Nat.id i), at_idx_lookup in Ee by lia.
    destruct (H6 _ _ Ee) as (t & Et & Ht).
    assert (at_idx (caption_tracks o) i = Some (Some t)) as Et' by (rewrite <- (Z2Nat.id i), at_idx_lookup by lia; done).
    destruct (send_captions_some (env_captions env) (enc_codec e) t p Ht Hd) as (t' & p' & Es & Ht' & Hk).
    destruct (at_idx_some (encoder_packet_times o) i) as [l El]; [unfold zlen; rewrite H5; lia|].
    unfold send_video_part. cbn [set_packets caption_tracks encoder_packet_times]. fold i.
    rewrite Et'. cbn [mbind option_bind]. rewrite Ep. cbn [mbind option_bind]. rewrite Es. cbn [mbind option_bind].
    assert (pkt_track_idx p' = i) as -> by (unfold packet_key in Hk; by injection Hk).
    rewrite El. cbn [mbind option_bind]. destruct (take_ept (pkt_pts p') l) as [r l']. cbn [mbind option_bind].
    match goal with |- context [run_callbacks env ?a ?b ?x ?y] =>
      pose proof (run_callbacks_key env a b x y Hcb) as Hs; destruct (run_callbacks env a b x y) as [reads s] end.
    cbn [snd] in Hs. eexists _, s. split; [reflexivity|]. cbn. split; [by rewrite Hs|]. split_and!; [done..|].
    constructor; cbn; try done; [by rewrite put_idx_length|].
    intros j e' Hj. destruct (H6 j e' Hj) as (tj & Etj & Htj).
    assert (length (caption_tracks o) > Z.to_nat i)%nat as Hlen by (by apply lookup_lt_Some in Et).
    rewrite <- at_idx_lookup, at_put, at_idx_lookup by (unfold zlen; lia).
    destruct (Z.eqb_spec (Z.of_nat j) i); eauto.
  - cbn [mbind option_bind].
    match goal with |- context [run_callbacks env ?a ?b ?x ?y] =>
      pose proof (run_callbacks_key env a b x y Hcb) as Hs; destruct (run_callbacks env a b x y) as [reads s] end.
    cbn [snd] in Hs. eexists _, s. split; [reflexivity|]. split; [done|]. split_and!; [done..|].
    by destruct Ha.
Qed.

(** ** The packet at the head is not ahead of anything *)

Lemma higher_video c o p i e h : has_higher_opposing_ts c o p = true →
  video_encoders c !! i = Some (Some e) → highest_video_ts o !! i = Some h →
  (is_video p = true ∧ Z.of_nat i = pkt_track_idx p) ∨ pkt_dts_usec p < h.
Proof.
  intros H He Hh. unfold has_higher_opposing_ts in H.
  assert (forallb (λ '(i, (e, h)),
    negb (has_encoder e) || (is_video p && (Z.of_nat i =? pkt_track_idx p)) || (pkt_dts_usec p <? h))
    (imap pair (zip (video_encoders c) (highest_video_ts o))) = true) as Hf
    by (destruct (is_video p); [by apply andb_prop in H as [H _]|done]).
  rewrite forallb_forall in Hf.
  specialize (Hf (i, (Some e, h))). cbn in Hf. destruct (is_video p); cbn in Hf.
  - assert (((Z.of_nat i =? pkt_track_idx p) || (pkt_dts_usec p <? h)) = true) as Hb.
    { apply Hf. apply list_elem_of_In, list_elem_of_lookup. exists i.
      by rewrite list_lookup_imap, lookup_zip_with, He, Hh. }
    apply orb_prop in Hb as [Hb|Hb]; [left|right]; lia.
  - right. assert ((pkt_dts_usec p <? h) = true) as Hb; [|lia].
    apply Hf. apply list_elem_of_In, list_elem_of_lookup. exists i.
    by rewrite list_lookup_imap, lookup_zip_with, He, Hh.
Qed.

Lemma higher_past c o p q : has_higher_opposing_ts c o p = true → arrays_ok c o →
  (∀ h, highest_of o p = Some h → pkt_dts_usec p ≤ h) → Forall (before p) q →
  past c (set_packets o q) (pkt_dts_usec p).
Proof.
  intros H Ha Hown Hq. constructor; cbn; [done| |].
  - intros i e h He Hh. destruct (higher_video _ _ _ _ _ _ H He Hh) as [[Hv Hi]|]; [|lia].
    apply Hown. unfold highest_of. by rewrite Hv, <- Hi, at_idx_lookup.
  - unfold has_higher_opposing_ts in H. unfold highest_of in Hown.
    destruct (is_video p); [apply andb_prop in H as [_ H]; lia|by apply Hown].
Qed.

(** [past] only looks at the queue and the highest timestamps. *)
Lemma past_same c o o' t : same_tracks o o' → past c (set_packets o (interleaved_packets o')) t → past c o' t.
Proof. intros (_ & _ & _ & _ & E1 & E2) [H1 H2 H3]. constructor; [done|by rewrite E2|by rewrite E1]. Qed.

Lemma past_tail c o p q t : interleaved_packets o = p :: q → past c o t → past c (set_packets o q) t.
Proof. intros E [H1 H2 H3]. rewrite E in H1. inversion_clear H1. by constructor. Qed.

Lemma highest_same o o' p : same_tracks o o' → highest_of o' p = highest_of o p.
Proof. intros (_ & _ & _ & _ & E1 & E2). unfold highest_of. by rewrite E1, E2. Qed.

Lemma was_started_same c o o' : same_tracks o o' → was_started c o' = was_started c o.
Proof. intros (E1 & E2 & _). unfold was_started, all_received_video. by rewrite E1, E2. Qed.

(** Sending the head of the queue, when it is not ahead of anything. *)
Lemma send_running c env o p q : conf_ok c → callbacks_keep env → running c o →
  interleaved_packets o = p :: q → past c (set_packets o q) (pkt_dts_usec p) →
  ∃ o' s, send_interleaved c env o = Some o' ∧ packet_key s = packet_key p ∧ sent o' = s :: sent o ∧
    interleaved_packets o' = q ∧ same_tracks o o' ∧ running c o'.
Proof.
  intros Hc Hcb [Ha Hst Hf Hso Hh Hse Hp] Hq Hpast.
  assert (Forall (from_encoder c) (p :: q)) as Hfq by (by rewrite <- Hq). inversion_clear Hfq as [|? ? Hfp Hfq'].
  destruct (send_spec c env o p q Hc Hcb Ha Hq Hfp) as (o' & s & E & Ek & Es & Eq & Hsame & Ha').
  assert (pkt_dts_usec s = pkt_dts_usec p) as Ed by (unfold packet_key in Ek; by injection Ek).
  exists o', s. split_and!; [done..|]. rewrite Hq in *. inversion_clear Hso as [|? ? Hso' Hbefore].
  inversion_clear Hh as [|? ? Hhp Hh']. constructor.
  - done.
  - by rewrite (was_started_same _ _ _ Hsame).
  - by rewrite Eq.
  - by rewrite Eq.
  - rewrite Eq. eapply Forall_impl; [exact Hh'|]. intros x Hx h. rewrite (highest_same _ _ _ Hsame). apply Hx.
  - rewrite Es. cbn [rev]. apply StronglySorted_app_2; [|done|repeat constructor].
    intros a b Hin ->%list_elem_of_singleton. apply list_elem_of_In, in_rev, list_elem_of_In in Hin.
    rewrite Forall_forall in Hp. destruct (Hp a Hin) as [H1 _ _]. rewrite Hq in H1. inversion_clear H1.
    unfold before. lia.
  - rewrite Es. constructor.
    + rewrite Ed. apply (past_same c o); [done|]. by rewrite Eq.
    + eapply Forall_impl; [exact Hp|]. intros x Hx. apply (past_same c o); [done|]. rewrite Eq.
      by eapply past_tail.
Qed.

Lemma higher_same c o o' p : same_tracks o o' → has_higher_opposing_ts c o' p = has_higher_opposing_ts c o p.
Proof. intros (_ & _ & _ & _ & E1 & E2). unfold has_higher_opposing_ts. by rewrite E1, E2. Qed.

(** The packets sent and those that wait. *)
Definition all_packets (o : obs_output) : list encoder_packet := sent o ++ interleaved_packets o.

Lemma sent_keys o o' p q s : interleaved_packets o = p :: q → packet_key s = packet_key p →
  sent o' = s :: sent o → interleaved_packets o' = q →
  map packet_key (all_packets o') ≡ₚ map packet_key (all_packets o).
Proof.
  intros Hq Hk Hs Hq'. unfold all_packets. rewrite Hq, Hs, Hq', !map_app. cbn [map app]. rewrite Hk.
  apply Permutation_middle.
Qed.

Lemma same_tracks_trans o o1 o2 : same_tracks o o1 → same_tracks o1 o2 → same_tracks o o2.
Proof. unfold same_tracks. intuition congruence. Qed.

Lemma same_tracks_refl o : same_tracks o o.
Proof. done. Qed.

Lemma send_head c env o p q : conf_ok c → callbacks_keep env → running c o →
  interleaved_packets o = p :: q → has_higher_opposing_ts c o p = true →
  ∃ o', send_interleaved c env o = Some o' ∧ interleaved_packets o' = q ∧ same_tracks o o' ∧ running c o' ∧
    map packet_key (all_packets o') ≡ₚ map packet_key (all_packets o).
Proof.
  intros Hc Hcb Hr Hq Hh. pose proof (r_sorted _ _ Hr) as Hso. pose proof (r_high _ _ Hr) as Hhi.
  rewrite Hq in Hso, Hhi. inversion_clear Hso. inversion_clear Hhi.
  destruct (send_running c env o p q Hc Hcb Hr Hq) as (o' & s & E & Hk & Hs & Hq' & Hsame & Hr').
  { apply higher_past; [done|apply Hr|done..]. }
  exists o'. split_and!; [done..|]. by eapply sent_keys.
Qed.

Lemma streamable_nonneg c o q : 0 ≤ count_streamable c o q.
Proof. induction q; cbn; [done|]. case_match; lia. Qed.

Lemma send_streamable_running c env o : conf_ok c → callbacks_keep env → running c o →
  ∃ o', send_streamable c env o = Some o' ∧ same_tracks o o' ∧ running c o' ∧
    map packet_key (all_packets o') ≡ₚ map packet_key (all_packets o).
Proof.
  intros Hc Hcb Hr. unfold send_streamable, count_streamable_frames.
  destruct (interleaved_packets o) as [|p q] eqn:Hq; [by exists o|]. cbn [count_streamable].
  destruct (has_higher_opposing_ts c o p) eqn:Hh; [|by exists o].
  pose proof (streamable_nonneg c o q). destruct (Z.eqb_spec (1 + count_streamable c o q) 0); [lia|].
  destruct (send_head c env o p q Hc Hcb Hr Hq Hh) as (o1 & E & Hq1 & Hs1 & Hr1 & Hk1).
  rewrite E. cbn [mbind option_bind].
  destruct (Z.ltb_spec (interleaver_max_batch_size c) (1 + count_streamable c o q - 1)); [|by exists o1].
  pose proof (c_batch _ Hc). destruct q as [|p2 q]; [cbn in *; lia|]. cbn [count_streamable] in *.
  destruct (has_higher_opposing_ts c o p2) eqn:Hh2; [|lia].
  destruct (send_head c env o1 p2 q Hc Hcb Hr1 Hq1) as (o2 & E2 & Hq2 & Hs2 & Hr2 & Hk2).
  { by rewrite (higher_same c o). }
  exists o2. split_and!; [done|by eapply same_tracks_trans|done|by rewrite Hk2].
Qed.

(** ** Arrivals *)

(** A packet as the interleaver is given it, with its time and its encoder's group. *)
Definition arrival : Type := encoder_packet * option encoder_packet_time * option (Z * Z).

Fixpoint interleave_run (c : output_conf) (env : output_env) (o : obs_output) (l : list arrival) : option obs_output :=
  match l with
  | [] => Some o
  | (p, t, g) :: l => o ← interleave_packets c env o p t g; interleave_run c env o l
  end.

(** The packet with its track and the timestamps relative to the start. *)
Definition relative (c : output_conf) (o : obs_output) (p : encoder_packet) : option encoder_packet :=
  i ← get_encoder_index c p;
  '(out, _) ← apply_interleaved_packet_offset o (pkt_set_track_idx p i) None;
  Some out.

(** Timestamps do not go backwards: each packet comes at or after the highest timestamp
    of its video track, or of audio. *)
Fixpoint timely (c : output_conf) (o : obs_output) (l : list arrival) : bool :=
  match l with
  | [] => true
  | (p, _, _) :: l =>
      match relative c o p with
      | Some out =>
          match highest_of o out, set_higher_ts o out with
          | Some h, Some o => (h <=? pkt_dts_usec out) && (6 <=? zlen (pkt_data p)) && timely c o l
          | _, _ => false
          end
      | None => false
      end
  end.

Lemma offset_some c o p i t : conf_ok c → arrays_ok c o → get_encoder_index c p = Some i →
  ∃ out t', apply_interleaved_packet_offset o (pkt_set_track_idx p i) t = Some (out, t') ∧
    relative c o p = Some out ∧ pkt_track_idx out = i ∧ pkt_type out = pkt_type p ∧
    pkt_encoder out = pkt_encoder p ∧ pkt_data out = pkt_data p.
Proof.
  intros Hc Ha Hi. pose proof (index_range c p i Hc Hi) as Hr.
  assert (is_Some (track_offset o (pkt_set_track_idx p i))) as [off Eo].
  { unfold track_offset. cbn. change (is_video (pkt_set_track_idx p i)) with (is_video p).
    destruct (is_video p); apply at_idx_some; unfold zlen;
      rewrite ?(a_voffsets _ _ Ha), ?(a_aoffsets _ _ Ha); lia. }
  unfold relative. rewrite Hi. cbn [mbind option_bind]. unfold apply_interleaved_packet_offset. rewrite Eo.
  cbn. do 2 eexists. done.
Qed.

Lemma index_same c p q : pkt_type q = pkt_type p → pkt_encoder q = pkt_encoder p →
  get_encoder_index c q = get_encoder_index c p.
Proof. intros E1 E2. unfold get_encoder_index, is_video. by rewrite E1, E2. Qed.

(** A received video track whose encoder is there. *)
Lemma received_here c o p i : conf_ok c → arrays_ok c o → was_started c o = true →
  get_encoder_index c p = Some i → is_video p = true → at_idx (received_video o) i = Some true.
Proof.
  intros Hc Ha Hs Hi Hv. destruct (index_video c p i Hv Hi) as (e & Ee & _).
  pose proof (index_range c p i Hc Hi) as Hr. rewrite Hv in Hr.
  destruct (at_idx_some (received_video o) i) as [b Eb]; [unfold zlen; rewrite (a_received _ _ Ha); lia|].
  rewrite Eb. f_equal. unfold was_started in Hs. apply andb_prop in Hs as [_ Hs].
  unfold all_received_video in Hs. rewrite forallb_forall in Hs.
  assert (i = Z.of_nat (Z.to_nat i)) as Ei by lia. rewrite Ei, at_idx_lookup in Ee. rewrite Ei, at_idx_lookup in Eb.
  specialize (Hs (Some e, b)). apply Hs. apply list_elem_of_In, list_elem_of_lookup. exists (Z.to_nat i).
  by rewrite lookup_zip_with, Ee, Eb.
Qed.

(** ** The highest timestamps *)

(** The state after [set_higher_ts], on any packet of a track that exists. *)
Definition raised (o o' : obs_output) (p : encoder_packet) : Prop :=
  interleaved_packets o' = interleaved_packets o ∧ sent o' = sent o ∧
  received_video o' = received_video o ∧ received_audio o' = received_audio o ∧
  video_offsets o' = video_offsets o ∧ audio_offsets o' = audio_offsets o ∧
  encoder_packet_times o' = encoder_packet_times o ∧ caption_tracks o' = caption_tracks o ∧
  length (highest_video_ts o') = length (highest_video_ts o) ∧
  (∀ q h, highest_of o q = Some h → ∃ h', highest_of o' q = Some h' ∧ h ≤ h') ∧
  (∀ i h, highest_video_ts o !! i = Some h → ∃ h', highest_video_ts o' !! i = Some h' ∧ h ≤ h') ∧
  highest_audio_ts o ≤ highest_audio_ts o' ∧
  (∀ h, highest_of o' p = Some h → pkt_dts_usec p ≤ h).

Lemma put_grows l i j (x y h : Z) : at_idx l i = Some x → x < y → at_idx l j = Some h →
  ∃ h', at_idx (put_idx l i y) j = Some h' ∧ h ≤ h'.
Proof.
  intros Hi Hx Hj. assert (0 ≤ i < zlen l).
  { unfold at_idx in Hi. destruct (Z.leb_spec 0 i); [|done]. apply lookup_lt_Some in Hi. unfold zlen. lia. }
  rewrite at_put by done. destruct (Z.eqb_spec j i) as [->|]; [|exists h; split; [done|lia]].
  exists y. split; [done|]. assert (x = h) by congruence. lia.
Qed.

Lemma set_higher_spec o p h : highest_of o p = Some h → ∃ o', set_higher_ts o p = Some o' ∧ raised o o' p.
Proof.
  unfold highest_of, set_higher_ts. destruct (is_video p) eqn:Hv.
  - intros E. rewrite E. cbn [mbind option_bind]. eexists. split; [reflexivity|].
    destruct (Z.ltb_spec h (pkt_dts_usec p)) as [Hlt|Hge].
    + assert (0 ≤ pkt_track_idx p < zlen (highest_video_ts o)).
      { unfold at_idx in E. destruct (Z.leb_spec 0 (pkt_track_idx p)); [|done].
        apply lookup_lt_Some in E. unfold zlen. lia. }
      unfold raised, highest_of. cbn. rewrite put_idx_length. split_and!; try done.
      * intros q h' E'. destruct (is_video q); [|exists h'; split; [done|lia]]. by eapply put_grows.
      * intros i h' E'. rewrite <- at_idx_lookup in E'. setoid_rewrite <- at_idx_lookup. by eapply put_grows.
      * intros h'. rewrite Hv, at_put, Z.eqb_refl by done. intros [= <-]. done.
    + unfold raised, highest_of. split_and!; try done.
      * intros q h' E'. exists h'. split; [done|lia].
      * intros i h' E'. exists h'. split; [done|lia].
      * intros h'. rewrite Hv, E. intros [= <-]. done.
  - intros [= <-]. eexists. split; [reflexivity|].
    destruct (Z.ltb_spec (highest_audio_ts o) (pkt_dts_usec p)) as [Hlt|Hge];
      unfold raised, highest_of; cbn; split_and!; try done.
    all: try (intros h'; rewrite Hv; intros [= <-]; lia); try lia.
    all: try (intros i h' E'; exists h'; split; [done|lia]).
    intros q h'; destruct (is_video q); intros E'; [exists h'; split; [done|lia]|].
    injection E' as <-. eexists. split; [reflexivity|lia].
Qed.

Lemma relative_same c o o' p : same_tracks o o' → relative c o' p = relative c o p.
Proof.
  intros (_ & _ & E1 & E2 & _). unfold relative, apply_interleaved_packet_offset, track_offset. by rewrite E1, E2.
Qed.

Lemma set_higher_same o o' p : same_tracks o o' →
  match set_higher_ts o p, set_higher_ts o' p with
  | Some r, Some r' => same_tracks r r'
  | None, None => True
  | _, _ => False
  end.
Proof.
  intros (E1 & E2 & E3 & E4 & E5 & E6). unfold set_higher_ts. rewrite E5, E6.
  destruct (is_video p); [destruct (at_idx _ _); cbn; [|done]|]; case_match; unfold same_tracks; cbn;
    split_and!; congruence.
Qed.

Lemma timely_same c o o' l : same_tracks o o' → timely c o' l = timely c o l.
Proof.
  revert o o'. induction l as [|[[p t] g] l IH]; intros o o' H; [done|]. cbn [timely].
  rewrite (relative_same c o o' p H). destruct (relative c o p) as [out|]; [|done].
  rewrite (highest_same o o' out H). pose proof (set_higher_same o o' out H) as Hs.
  destruct (highest_of o out); [|done].
  destruct (set_higher_ts o out), (set_higher_ts o' out); try done. by rewrite (IH _ _ Hs).
Qed.

Lemma groups_only o p g : ∃ x, check_encoder_group_keyframe_alignment o p g = set_groups o x.
Proof.
  assert (o = set_groups o (keyframe_group_tracking o)) as E by (by destruct o).
  unfold check_encoder_group_keyframe_alignment. destruct g as [[id n]|]; [|by eauto].
  case_match; [eauto|by eauto].
Qed.

(** A packet put in the queue of a started output, with its track's timestamp raised. *)
Lemma insert_running c o out h o' : arrays_ok c o → was_started c o = true → running c o →
  from_encoder c out → highest_of o out = Some h → sent o = [] ∨ h ≤ pkt_dts_usec out →
  (is_video out = true → ∃ i e, video_encoders c !! i = Some (Some e) ∧ pkt_track_idx out = Z.of_nat i) →
  set_higher_ts (insert_interleaved_packet o out) out = Some o' →
  running c o'.
Proof.
  intros Ha Hst [_ _ Hf Hso Hh Hse Hp] Hfo Eh Hle Hiv E.
  destruct (set_higher_spec (insert_interleaved_packet o out) out h Eh) as (o1 & E1 & Hraised).
  rewrite E in E1. injection E1 as <-.
  destruct Hraised as (Rq & Rs & Rv & Ra & Rvo & Rao & Rt & Rc & Rlen & Rh & Rhv & Rha & Rown).
  cbn in Rq, Rs, Rv, Ra, Rvo, Rao, Rt, Rc, Rlen, Rhv, Rha.
  constructor.
  - destruct Ha. constructor; rewrite ?Rv, ?Rvo, ?Rao, ?Rlen, ?Rt, ?Rc; done.
  - unfold was_started, all_received_video in *. by rewrite Rv, Ra.
  - rewrite Rq, insert_perm. by constructor.
  - rewrite Rq. by apply insert_sorted.
  - rewrite Rq, insert_perm. constructor; [exact Rown|].
    rewrite Forall_forall in *. intros x Hx h' Hh'.
    destruct (highest_of o x) as [h0|] eqn:E0.
    + destruct (Rh x h0 E0) as (h1 & E1 & Hle1). assert (h' = h1) as -> by congruence.
      specialize (Hh x Hx h0 E0). lia.
    + exfalso. unfold highest_of in *. destruct (is_video x); [|done]. unfold at_idx in *.
      destruct (0 <=? pkt_track_idx x); [|done]. apply lookup_ge_None in E0. apply lookup_lt_Some in Hh'. lia.
  - by rewrite Rs.
  - rewrite Rs. destruct Hle as [Hnil|Hle]; [by rewrite Hnil|].
    eapply Forall_impl; [exact Hp|]. intros s [H1 H2 H3]. constructor.
    + rewrite Rq, insert_perm. constructor; [|done]. unfold highest_of in Eh.
      destruct (is_video out); [|injection Eh as <-; lia].
      destruct (Hiv eq_refl) as (iv & ev & Hi1 & Hi2). rewrite Hi2, at_idx_lookup in Eh.
      specialize (H2 _ _ _ Hi1 Eh). lia.
    + intros i e h1 He Hh1. destruct (highest_video_ts o !! i) as [h0|] eqn:E0.
      * destruct (Rhv i h0 E0) as (h2 & E2 & Hle2). assert (h1 = h2) as -> by congruence.
        specialize (H2 _ _ _ He E0). lia.
      * apply lookup_ge_None in E0. apply lookup_lt_Some in Hh1. lia.
    + lia.
Qed.

Lemma arrive_running c env o p t g out h : conf_ok c → callbacks_keep env → running c o →
  relative c o p = Some out → highest_of o out = Some h → h ≤ pkt_dts_usec out → 6 ≤ zlen (pkt_data p) →
  ∃ o1 o', set_higher_ts o out = Some o1 ∧ interleave_packets c env o p t g = Some o' ∧ running c o' ∧
    same_tracks o1 o' ∧ map packet_key (all_packets o') ≡ₚ map packet_key (all_packets o ++ [out]).
Proof.
  intros Hc Hcb Hr Erel Eh Hle Hd. pose proof (r_arrays _ _ Hr) as Ha.
  destruct (set_higher_spec o out h Eh) as (o1 & E1 & Hraised). exists o1.
  assert (∃ i, get_encoder_index c p = Some i) as [i Hi].
  { unfold relative in Erel. destruct (get_encoder_index c p); [by eauto|done]. }
  unfold interleave_packets. rewrite Hi. cbn [mbind option_bind].
  assert (∃ rc, (if is_video (pkt_set_track_idx p i) then at_idx (received_video o) i else Some true) = Some rc
           ∧ rc = true) as (rc & Erc & ->).
  { change (is_video (pkt_set_track_idx p i)) with (is_video p). destruct (is_video p) eqn:Hv; [|by eauto].
    eexists. split; [|reflexivity]. by apply (received_here c o p i Hc Ha (r_started _ _ Hr)). }
  rewrite Erc. cbn [mbind option_bind negb andb].
  destruct (groups_only o (pkt_set_track_idx p i) g) as [x Ex]. rewrite Ex.
  change (was_started c (set_groups o x)) with (was_started c o). rewrite (r_started _ _ Hr).
  destruct (offset_some c (set_groups o x) p i t Hc) as (out' & t' & Eo & Erel' & Hti & Hty & Hen & Hda); [by destruct Ha|done|].
  rewrite Eo. cbn [mbind option_bind].
  assert (out' = out) as -> by (change (relative c (set_groups o x) p) with (relative c o p) in Erel'; congruence).
  pose proof (index_range c p i Hc Hi) as Hrange.
  assert (∃ tm, (match t' with
                 | Some t0 => l ← at_idx (encoder_packet_times (set_groups o x)) i;
                              Some (put_idx (encoder_packet_times (set_groups o x)) i (l ++ [t0]))
                 | None => Some (encoder_packet_times (set_groups o x))
                 end) = Some tm ∧ length tm = MAX_OUTPUT_VIDEO_ENCODERS) as (tm & Etm & Hlen).
  { cbn. destruct t'; [|eexists; split; [reflexivity|apply Ha]].
    destruct (at_idx_some (encoder_packet_times o) i) as [l El].
    { unfold zlen. rewrite (a_times _ _ Ha). unfold MAX_OUTPUT_VIDEO_ENCODERS, MAX_OUTPUT_AUDIO_ENCODERS in *.
      destruct (is_video p); lia. }
    rewrite El. cbn. eexists. split; [reflexivity|]. rewrite put_idx_length. apply Ha. }
  rewrite Etm. cbn [mbind option_bind].
  set (o2 := set_times (set_groups o x) tm).
  change (was_started c (insert_interleaved_packet o2 out)) with (was_started c o). rewrite (r_started _ _ Hr).
  cbn [negb].
  assert (same_tracks (insert_interleaved_packet o out) (insert_interleaved_packet o2 out)) as Hs12 by done.
  destruct (set_higher_spec (insert_interleaved_packet o2 out) out h Eh) as (o3 & E3 & R3).
  rewrite E3. cbn [mbind option_bind].
  assert (arrays_ok c o2 ∧ running c o2) as [Ha2 Hr2].
  { assert (arrays_ok c o2) as Ha2 by (destruct Ha; by constructor). split; [done|].
    destruct Hr as [_ H2 H3 H4 H5 H6 H7]. constructor; try done.
    eapply Forall_impl; [exact H7|]. intros s [P1 P2 P3]. by constructor. }
  assert (running c o3) as Hr3.
  { apply (insert_running c o2 out h); try done; [| |by right|].
    - apply (r_started _ _ Hr).
    - constructor; [|by rewrite Hda]. rewrite Hti. rewrite (index_same c p out); done.
    - intros Hv.
      assert (is_video p = true) as Hvp by (unfold is_video in *; by rewrite <- Hty).
      destruct (index_video c p i Hvp Hi) as (e & Ee & _). rewrite Hvp in Hrange.
      exists (Z.to_nat i), e. split; [|lia]. by rewrite <- at_idx_lookup, Z2Nat.id by lia. }
  destruct (send_streamable_running c env o3 Hc Hcb Hr3) as (o' & E' & Hs' & Hr' & Hk').
  exists o'. split_and!; [done|done|done| |].
  - eapply same_tracks_trans; [|exact Hs'].
    pose proof (set_higher_same o (insert_interleaved_packet o2 out) out ltac:(done)) as Hsame.
    by rewrite E1, E3 in Hsame.
  - rewrite Hk'. destruct R3 as (Rq & Rs & _). unfold all_packets. rewrite Rq, Rs.
    cbn [insert_interleaved_packet set_packets interleaved_packets sent]. change (sent o2) with (sent o).
    change (interleaved_packets o2) with (interleaved_packets o). rewrite insert_perm.
    rewrite !map_app. cbn [map app]. rewrite <- app_assoc. by rewrite <- Permutation_cons_append.
Qed.

(** ** A started output *)

(** What arrives, as it is queued. *)
Definition relatives (c : output_conf) (o : obs_output) (l : list arrival) : list encoder_packet :=
  omap (λ a, relative c o a.1.1) l.

Lemma relatives_same c o o' l : same_tracks o o' → relatives c o' l = relatives c o l.
Proof.
  intros H. unfold relatives. induction l as [|a l IH]; [done|]. cbn. by rewrite (relative_same c o o' _ H), IH.
Qed.

Lemma relatives_raised c o o1 p l : set_higher_ts o p = Some o1 → relatives c o1 l = relatives c o l.
Proof.
  intros E. destruct (highest_of o p) as [h|] eqn:Eh.
  - destruct (set_higher_spec o p h Eh) as (o2 & E2 & (_ & _ & _ & _ & R1 & R2 & _)).
    assert (o2 = o1) as -> by congruence. unfold relatives. induction l as [|a l IH]; [done|]. cbn. rewrite IH.
    unfold relative, apply_interleaved_packet_offset, track_offset. by rewrite R1, R2.
  - exfalso. unfold highest_of, set_higher_ts in *. destruct (is_video p); [by rewrite Eh in E|done].
Qed.

Lemma run_running c env l : conf_ok c → callbacks_keep env → ∀ o, running c o → timely c o l = true →
  ∃ o', interleave_run c env o l = Some o' ∧ running c o' ∧
    map packet_key (all_packets o') ≡ₚ map packet_key (all_packets o ++ relatives c o l).
Proof.
  intros Hc Hcb. induction l as [|[[p t] g] l IH]; intros o Hr Ht.
  { exists o. split; [done|]. split; [done|]. cbn. by rewrite app_nil_r. }
  cbn [timely interleave_run] in *. destruct (relative c o p) as [out|] eqn:Erel; [|done].
  destruct (highest_of o out) as [h|] eqn:Eh; [|done].
  destruct (set_higher_ts o out) as [o1|] eqn:E1; [|done].
  apply andb_prop in Ht as [Ht Hl]. apply andb_prop in Ht as [Hle Hd].
  destruct (arrive_running c env o p t g out h Hc Hcb Hr Erel Eh ltac:(lia) ltac:(lia))
    as (o1' & o2 & E1' & E2 & Hr2 & Hs2 & Hk2).
  assert (o1' = o1) as -> by congruence. rewrite E2. cbn [mbind option_bind].
  destruct (IH o2 Hr2) as (o' & E' & Hr' & Hk'); [by rewrite (timely_same c o1)|].
  exists o'. split; [done|]. split; [done|]. rewrite Hk', !map_app, Hk2, (relatives_same c o1 o2) by done.
  rewrite (relatives_raised c o o1 out) by done. cbn. rewrite Erel, !map_app. cbn [map]. by rewrite <- app_assoc.
Qed.

(** C23: A started output, with any number of video tracks: as long as the timestamps of each
    video track, and of audio as a whole, do not go backwards, no call fails, what is
    handed on stays in the order of the relative timestamps, and each packet that arrives
    is handed on or waits, exactly once. *)
Theorem started_output_delivers c env o l :
  conf_ok c → callbacks_keep env → running c o → timely c o l = true →
  ∃ o', interleave_run c env o l = Some o' ∧ StronglySorted before (rev (sent o')) ∧
    map packet_key (sent o' ++ interleaved_packets o') ≡ₚ
    map packet_key (sent o ++ interleaved_packets o ++ relatives c o l).
Proof.
  intros Hc Hcb Hr Ht. destruct (run_running c env l Hc Hcb o Hr Ht) as (o' & E & Hr' & Hk).
  exists o'. split_and!; [done|apply Hr'|]. unfold all_packets in Hk. by rewrite <- app_assoc in Hk.
Qed.

(** ** Example: two video tracks and audio *)

Definition ex_pad (n : nat) (l : list (option obs_encoder)) : list (option obs_encoder) :=
  take n (l ++ replicate n None).

Definition ex_enc (ptr : Z) (type : obs_encoder_type) (codec : string) (framesize : Z) : obs_encoder :=
  mk_encoder ptr type None None codec None None None None None 0 0 48000 framesize 1 48000.

Definition ex_aac : obs_encoder := ex_enc 2 OBS_ENCODER_AUDIO "aac" 1024.

Definition ex_two_video : output_conf :=
  mk_conf (ex_pad MAX_OUTPUT_VIDEO_ENCODERS [Some (ex_enc 1 OBS_ENCODER_VIDEO "h264" 0); Some (ex_enc 4 OBS_ENCODER_VIDEO "h264" 0)])
    (ex_pad MAX_OUTPUT_AUDIO_ENCODERS [Some ex_aac]) 4.

Definition ex_lib : libcaption := mk_libcaption (λ _, 1) (λ _, []) (λ t, [t]) (λ l, concat l).

(** The second callback marks the packet. *)
Definition ex_env : output_env :=
  mk_env Z.of_nat [λ p t, (p, t); λ p t, (pkt_set_data p (pkt_data p ++ [99]), t)] ex_lib.

Definition ex_tracks : list (option caption_track_data) :=
  replicate MAX_OUTPUT_VIDEO_ENCODERS
    (Some (mk_ctrack [mk_caption [72; 105] (double_of_int 2)] (double_of_int 0) (double_of_int 0) [])).

(** Started, with the offsets of the tracks set and nothing queued. *)
Definition ex_started : obs_output :=
  mk_output (replicate MAX_OUTPUT_VIDEO_ENCODERS true) true [] (replicate MAX_OUTPUT_VIDEO_ENCODERS 100)
    (replicate MAX_OUTPUT_AUDIO_ENCODERS 40) 0 (replicate MAX_OUTPUT_VIDEO_ENCODERS 0) []
    (replicate MAX_OUTPUT_VIDEO_ENCODERS []) ex_tracks 0 0 [].

(** A packet in milliseconds, with its system time in microseconds. *)
Definition ex_pkt (type : obs_encoder_type) (enc dts sys : Z) (key : bool) : arrival :=
  (mk_packet [0; 0; 0; 1; 101; 136] dts dts 1 1000 type key sys sys 0 0 0 enc,
   match type with OBS_ENCODER_VIDEO => Some (mk_ept dts 1 2 3 0) | OBS_ENCODER_AUDIO => None end, None).

Definition ex_three_tracks : list arrival :=
  [ex_pkt OBS_ENCODER_VIDEO 1 133 0 true; ex_pkt OBS_ENCODER_AUDIO 2 61 0 false; ex_pkt OBS_ENCODER_VIDEO 4 133 0 true;
   ex_pkt OBS_ENCODER_AUDIO 2 82 0 false; ex_pkt OBS_ENCODER_VIDEO 4 166 0 false; ex_pkt OBS_ENCODER_VIDEO 1 166 0 false;
   ex_pkt OBS_ENCODER_AUDIO 2 103 0 false; ex_pkt OBS_ENCODER_VIDEO 1 199 0 false].

Lemma ex_callbacks : callbacks_keep ex_env.
Proof. unfold callbacks_keep, ex_env. cbn. by repeat constructor. Qed.

Lemma ex_tracks_ok i : (i < MAX_OUTPUT_VIDEO_ENCODERS)%nat → ∃ t, ex_tracks !! i = Some (Some t) ∧ ctrack_ok t.
Proof. intros Hi. eexists. split; [by apply lookup_replicate_2|]. by exists 0. Qed.

Lemma ex_started_running : running ex_two_video ex_started.
Proof.
  constructor; try (by constructor). constructor; [done..|]. intros i e Hi. apply ex_tracks_ok.
  apply lookup_lt_Some in Hi. exact Hi.
Qed.

Lemma started_output_delivers_witness :
  ∃ o', interleave_run ex_two_video ex_env ex_started ex_three_tracks = Some o' ∧
    StronglySorted before (rev (sent o')) ∧
    map packet_key (sent o' ++ interleaved_packets o') ≡ₚ
    map packet_key (sent ex_started ++ interleaved_packets ex_started ++ relatives ex_two_video ex_started ex_three_tracks).
Proof.
  apply started_output_delivers; [by constructor|apply ex_callbacks|apply ex_started_running|].
  vm_compute. reflexivity.
Defined.
