(* ===== verification/InterleaveStart.v ===== *)
(** * The start of an interleaved output

    From the reset of the output to its first packet: waiting for every track, pruning,
    and the offsets that make the timestamps relative. Outputs with one video encoder;
    with several the flags of the tracks can be set without the output being started. *)

From stdpp Require Import sorting.
From S2P Require Import Prelude Double Encoder Captions Interleave InterleaveOrder.

Local Open Scope Z_scope.

(** ** Searches in the queue *)

Lemma at_idx_cons {A} (x : A) l k : 0 ≤ k → at_idx (x :: l) (k + 1) = at_idx l k.
Proof.
  intros. unfold at_idx. rewrite !(proj2 (Z.leb_le _ _)) by lia.
  by replace (Z.to_nat (k + 1)) with (S (Z.to_nat k)) by lia.
Qed.

Lemma find_first_spec q type i :
  match find_first_packet_type_idx q type i with
  | Some k => 0 ≤ k < zlen q ∧ ∃ p, at_idx q k = Some p ∧ of_track type i p = true
  | None => Forall (λ p, of_track type i p = false) q
  end.
Proof.
  induction q as [|x q IH]; [constructor|]. cbn [find_first_packet_type_idx].
  destruct (of_track type i x) eqn:E; [split; [len_lia|by exists x]|].
  destruct (find_first_packet_type_idx q type i) as [k|]; cbn; [|by constructor].
  destruct IH as (Hk & p & Hp & Ht). split; [len_lia|]. exists p. split; [|done].
  unfold Z.succ. by rewrite at_idx_cons by lia.
Qed.

Lemma find_last_some q type i : Exists (λ p, of_track type i p = true) q →
  ∃ p, find_last_packet_type q type i = Some p.
Proof.
  intros H.
  assert (∃ k p, find_last_packet_type_idx q type i = Some k ∧ 0 ≤ k ∧ at_idx q k = Some p) as (k & p & E & _ & Ep).
  { induction q as [|x q IH]; [by inversion H|]. cbn [find_last_packet_type_idx].
    destruct (find_last_packet_type_idx q type i) as [k|] eqn:E.
    - destruct (decide (Exists (λ p, of_track type i p = true) q)) as [Hq|Hq].
      + destruct (IH Hq) as (k' & p & [= <-] & Hk & Hp). exists (k + 1), p. split_and!; [done|lia|]. by rewrite at_idx_cons.
      + exfalso. clear IH H. revert k E. induction q as [|y q IHq]; [done|]. cbn [find_last_packet_type_idx]. intros k.
        assert (¬ Exists (λ p, of_track type i p = true) q) as Hn by (intros Hx; apply Hq; by constructor).
        destruct (find_last_packet_type_idx q type i); [intros _; by eapply (IHq Hn)|].
        destruct (of_track type i y) eqn:Ey; [|done]. destruct Hq. by constructor.
    - assert (of_track type i x = true) as ->; [|exists 0, x; split_and!; done].
      inversion H as [? ? Hx|? ? Hx]; subst; [done|]. destruct (IH Hx) as (k & p & [=] & _). }
  exists p. unfold find_last_packet_type. by rewrite E.
Qed.

Lemma at_idx_in {A} (l : list A) k x : at_idx l k = Some x → x ∈ l.
Proof. unfold at_idx. destruct (0 <=? k); [|done]. apply list_elem_of_lookup_2. Qed.

(** A packet of a track is in the queue. *)
Definition track_queued (q : list encoder_packet) type i : Prop := Exists (λ p, of_track type i p = true) q.

Lemma find_first_queued q type i k : find_first_packet_type_idx q type i = Some k → track_queued q type i.
Proof.
  intros E. pose proof (find_first_spec q type i) as H. rewrite E in H. destruct H as (_ & p & Hp & Ht).
  apply Exists_exists. exists p. split; [by eapply at_idx_in|done].
Qed.

Lemma find_first_none q type i : find_first_packet_type_idx q type i = None → ¬ track_queued q type i.
Proof.
  intros E H. pose proof (find_first_spec q type i) as Hf. rewrite E in Hf.
  apply Exists_exists in H as (p & Hp & Ht). rewrite Forall_forall in Hf. rewrite Hf in Ht; done.
Qed.

Lemma first_packets_spec q type encs i :
  match first_packets q type encs i with
  | inl j => (∃ e, encs !! Z.to_nat (j - i) = Some (Some e)) ∧ i ≤ j ∧ ¬ track_queued q type j
  | inr l => length l = length encs ∧
      ∀ (k : nat) e, encs !! k = Some (Some e) →
        ∃ p, l !! k = Some (Some p) ∧ track_queued q type (i + Z.of_nat k)
  end.
Proof.
  revert i. induction encs as [|x encs IH]; intros i; [by split|]. cbn [first_packets].
  destruct x as [e|].
  - unfold find_first_packet_type. pose proof (find_first_spec q type i) as Hf.
    destruct (find_first_packet_type_idx q type i) as [k|] eqn:E; cbn.
    + destruct Hf as (_ & p & Ep & _). rewrite Ep. pose proof (find_first_queued _ _ _ _ E) as Hq.
      specialize (IH (i + 1)). destruct (first_packets q type encs (i + 1)) as [j|l].
      * destruct IH as ([e' He] & Hij & Hn). split_and!; [|lia|done]. exists e'.
        by replace (Z.to_nat (j - i)) with (S (Z.to_nat (j - (i + 1)))) by lia.
      * destruct IH as [Hl IH]. split; [by cbn; rewrite Hl|]. intros [|k'] e' He.
        -- exists p. split; [done|]. by rewrite Z.add_0_r.
        -- destruct (IH k' e' He) as (p' & Hp' & Hq'). exists p'. split; [done|].
           by replace (i + Z.of_nat (S k')) with (i + 1 + Z.of_nat k') by lia.
    + split_and!; [|lia|by apply find_first_none]. exists e. by rewrite Z.sub_diag.
  - specialize (IH (i + 1)). destruct (first_packets q type encs (i + 1)) as [j|l].
    + destruct IH as ([e' He] & Hij & Hn). split_and!; [|lia|done]. exists e'.
      by replace (Z.to_nat (j - i)) with (S (Z.to_nat (j - (i + 1)))) by lia.
    + destruct IH as [Hl IH]. split; [by cbn; rewrite Hl|]. intros [|k'] e' He; [done|].
      destruct (IH k' e' He) as (p' & Hp' & Hq'). exists p'. split; [done|].
      by replace (i + Z.of_nat (S k')) with (i + 1 + Z.of_nat k') by lia.
Qed.

(** ** Time entries and discarding *)

(** A time entry for each queued packet of a video track. *)
Definition times_match (q : list encoder_packet) (times : list (list encoder_packet_time)) : Prop :=
  ∀ i l, at_idx times i = Some l → length l = length (filter (λ p, of_track OBS_ENCODER_VIDEO i p = true) q).

Lemma of_video p i : of_track OBS_ENCODER_VIDEO i p = is_video p && (pkt_track_idx p =? i).
Proof. unfold of_track, is_video. destruct (pkt_type p); cbn; done. Qed.

Lemma of_audio p i : of_track OBS_ENCODER_AUDIO i p = negb (is_video p) && (pkt_track_idx p =? i).
Proof. unfold of_track, is_video. destruct (pkt_type p); cbn; done. Qed.

Lemma discard_spec c n q times : conf_ok c → Forall (from_encoder c) q →
  length times = MAX_OUTPUT_VIDEO_ENCODERS → times_match q times → (n ≤ length q)%nat →
  ∃ times', discard_packets n q times = Some (drop n q, times') ∧
    length times' = MAX_OUTPUT_VIDEO_ENCODERS ∧ times_match (drop n q) times'.
Proof.
  intros Hc. revert q times. induction n as [|n IH]; intros q times Hf Hl Ht Hn.
  { exists times. by destruct q. }
  destruct q as [|p q]; [cbn in Hn; lia|]. cbn [discard_packets drop].
  inversion_clear Hf as [|? ? [Hp _] Hf']. cbn in Hn.
  destruct (is_video p) eqn:Hv.
  - pose proof (index_range c p _ Hc Hp) as Hr. rewrite Hv in Hr.
    destruct (at_idx_some times (pkt_track_idx p)) as [l El]; [unfold zlen; rewrite Hl; lia|].
    rewrite El. cbn [mbind option_bind]. pose proof (Ht _ _ El) as Hlen.
    rewrite filter_cons_True in Hlen by (by rewrite of_video, Hv, Z.eqb_refl).
    destruct l as [|t0 l]; [done|]. cbn [mbind option_bind]. apply IH; [done|by rewrite put_idx_length| |lia].
    intros i l' Hi. rewrite at_put in Hi by (unfold zlen; rewrite Hl; lia).
    destruct (Z.eqb_spec i (pkt_track_idx p)) as [->|N].
    + injection Hi as <-. cbn in Hlen. lia.
    + rewrite (Ht _ _ Hi), filter_cons_False; [done|]. rewrite of_video, Hv. cbn. rewrite (proj2 (Z.eqb_neq _ _)); [done|lia].
  - cbn [mbind option_bind]. apply IH; [done|done| |lia]. intros i l Hi.
    rewrite (Ht _ _ Hi), filter_cons_False; [done|]. by rewrite of_video, Hv.
Qed.

(** ** Output that waits for its tracks *)

(** One video encoder, the first one, and at least one audio encoder. *)
Record single_video (c : output_conf) : Prop := {
  s_video : ∀ i e, video_encoders c !! i = Some (Some e) → i = 0%nat;
  s_first : ∃ e, video_encoders c !! 0%nat = Some (Some e);
  s_audio : existsb has_encoder (audio_encoders c) = true
}.

(** The queue before the start. *)
Record queue_ok (c : output_conf) (o : obs_output) : Prop := {
  q_arrays : arrays_ok c o;
  q_from : Forall (from_encoder c) (interleaved_packets o);
  q_times : times_match (interleaved_packets o) (encoder_packet_times o);
  q_sent : sent o = []
}.

(** A video track that counts as received has a packet in the queue. *)
Record waiting (c : output_conf) (o : obs_output) : Prop := {
  w_queue : queue_ok c o;
  w_not : was_started c o = false;
  w_video : received_video o !! 0%nat = Some true → track_queued (interleaved_packets o) OBS_ENCODER_VIDEO 0
}.

(** The output is started exactly when audio and the video track have been received. *)
Lemma started_single c o : single_video c → arrays_ok c o → conf_ok c →
  was_started c o = received_audio o && bool_decide (received_video o !! 0%nat = Some true).
Proof.
  intros [Hs [e He] _] Ha Hc. unfold was_started. f_equal. unfold all_received_video.
  pose proof (a_received _ _ Ha) as Hl. pose proof (c_video _ Hc) as Hv.
  destruct (received_video o) as [|b r]; [done|]. destruct (video_encoders c) as [|x l] eqn:E; [done|].
  cbn in He. injection He as ->. cbn [zip forallb zip_with].
  assert (forallb (λ '(e, r), negb (has_encoder e) || r) (zip l r) = true) as Hrest.
  { rewrite forallb_forall. intros [y b'] Hin. apply list_elem_of_In, list_elem_of_lookup in Hin as [k Hk].
    rewrite lookup_zip_with in Hk. destruct (l !! k) as [y'|] eqn:Ek; [|done]. cbn in Hk.
    destruct (r !! k); [|done]. injection Hk as <- <-. destruct y' as [e'|]; [|done].
    specialize (Hs (S k) e' Ek). done. }
  change (zip_with pair l r) with (zip l r). rewrite Hrest, andb_true_r. cbn [has_encoder negb orb].
  change ((b :: r) !! 0%nat) with (Some b). by destruct b; case_bool_decide.
Qed.

Lemma audio_encoder_at c : single_video c → ∃ k e, audio_encoders c !! k = Some (Some e).
Proof.
  intros [_ _ H]. apply existsb_exists in H as (x & Hin & Hx). destruct x as [e|]; [|done].
  apply list_elem_of_In, list_elem_of_lookup in Hin as [k Hk]. eauto.
Qed.

Lemma queued_index q type i : track_queued q type i → ∃ k p, find_first_packet_type_idx q type i = Some k ∧
  0 ≤ k < zlen q ∧ at_idx q k = Some p ∧ of_track type i p = true.
Proof.
  intros H. pose proof (find_first_spec q type i) as Hf.
  destruct (find_first_packet_type_idx q type i) as [k|] eqn:E.
  - destruct Hf as (Hk & p & Hp & Ht). eauto 10.
  - exfalso. by eapply find_first_none.
Qed.

(** ** Where to start *)

Lemma closest_loop_spec q i v d0 v0 x0 :
  ∃ d v' x, closest_loop q i (Some v) (d0, v0, x0) = Some (d, v', x) ∧
    (x = x0 ∨ ∃ p, at_idx q (x - i) = Some p ∧ is_video p = false ∧ i ≤ x) ∧ (v' = v0 ∨ i ≤ v').
Proof.
  revert i d0 v0 x0. induction q as [|p q IH]; intros i d0 v0 x0; [do 3 eexists; split_and!; [done|by left|by left]|].
  cbn [closest_loop].
  assert (∀ x y, (x = y ∨ ∃ p', at_idx q (x - (i + 1)) = Some p' ∧ is_video p' = false ∧ i + 1 ≤ x) →
    x = y ∨ ∃ p', at_idx (p :: q) (x - i) = Some p' ∧ is_video p' = false ∧ i ≤ x) as Hshift.
  { intros x y [->|(p' & E & Hp' & Hle)]; [by left|]. right. exists p'. split_and!; [|done|lia].
    rewrite <- E, <- (at_idx_cons p q) by lia. f_equal. lia. }
  destruct (is_video p) eqn:Hv; cbn [mbind option_bind].
  - destruct (IH (i + 1) d0 (if bool_decide (fst <$> Some v = Some i) then i else v0) x0)
      as (d & v' & x & E & Hx & Hv'). exists d, v', x. split_and!; [done|by apply Hshift|].
    destruct Hv' as [->|]; [case_bool_decide; [right; lia|by left]|right; lia].
  - destruct v as [vi vp]. cbn [mbind option_bind].
    destruct (Z.abs _ <? d0).
    + destruct (IH (i + 1) (Z.abs (i64 (pkt_dts_usec p - pkt_dts_usec vp))) v0 i) as (d & v' & x & E & Hx & Hv').
      exists d, v', x. split_and!; [done| |destruct Hv'; [by left|right; lia]].
      destruct (Hshift x i Hx) as [->|]; [|by right]. right. exists p. rewrite Z.sub_diag. split_and!; [done|done|lia].
    + destruct (IH (i + 1) d0 v0 x0) as (d & v' & x & E & Hx & Hv').
      exists d, v', x. split_and!; [done|by apply Hshift|destruct Hv'; [by left|right; lia]].
Qed.

Lemma priming_loop_range q n i idx : 0 ≤ idx → 0 ≤ priming_loop q n i idx ≤ idx.
Proof.
  revert i idx. induction n as [|n IH]; intros i idx Hi; cbn [priming_loop]; [lia|].
  pose proof (find_first_spec q OBS_ENCODER_AUDIO i) as Hf.
  destruct (find_first_packet_type_idx q OBS_ENCODER_AUDIO i) as [a|]; [|by apply IH].
  destruct Hf as [Ha _]. destruct (Z.ltb_spec a idx); [|by apply IH].
  pose proof (IH (i + 1) a ltac:(lia)). lia.
Qed.

Lemma first_audio_some q idx k p : 0 ≤ idx ≤ k → at_idx q k = Some p → is_video p = false →
  ∃ a, first_audio_from q idx = Some a.
Proof.
  intros Hk Hp Hv. unfold first_audio_from.
  destruct (list_find (λ p, is_video p = false) (drop (Z.to_nat idx) q)) as [[j a]|] eqn:E; [cbn; eauto|].
  exfalso. apply list_find_None in E. rewrite Forall_lookup in E. unfold at_idx in Hp.
  rewrite (proj2 (Z.leb_le _ _)) in Hp by lia. apply (E (Z.to_nat k - Z.to_nat idx)%nat p); [|done].
  rewrite lookup_drop. by replace (Z.to_nat idx + (Z.to_nat k - Z.to_nat idx))%nat with (Z.to_nat k) by lia.
Qed.

Lemma at_idx_range {A} (l : list A) k x : at_idx l k = Some x → 0 ≤ k < zlen l.
Proof.
  unfold at_idx. destruct (Z.leb_spec 0 k); [|done]. intros E. apply lookup_lt_Some in E. unfold zlen. lia.
Qed.

Lemma start_idx_some o a k : track_queued (interleaved_packets o) OBS_ENCODER_VIDEO 0 →
  at_idx (interleaved_packets o) k = Some a → is_video a = false →
  ∃ idx, get_interleaved_start_idx o = Some idx ∧ 0 ≤ idx < zlen (interleaved_packets o).
Proof.
  intros Hv Ha Hna. destruct (queued_index _ _ _ Hv) as (kv & pv & Ekv & Hkv & Epv & _).
  unfold get_interleaved_start_idx. rewrite Ekv. cbn [mbind option_bind]. rewrite Epv. cbn [mbind option_bind].
  destruct (closest_loop_spec (interleaved_packets o) 0 (kv, pv) INT64_MAX DARRAY_INVALID 0)
    as (d & v & x & E & Hx & Hv'). rewrite E. cbn [mbind option_bind].
  pose proof (at_idx_range _ _ _ Ha) as Hk.
  assert (∃ k' a', 0 ≤ x ≤ k' ∧ at_idx (interleaved_packets o) k' = Some a' ∧ is_video a' = false)
    as (k' & a' & Hxk & Ha' & Hna').
  { destruct Hx as [->|(p & Ep & Hp & Hx0)]; [exists k, a; split_and!; [lia..|done|done]|].
    exists x, p. rewrite Z.sub_0_r in Ep. split_and!; [lia..|done|done]. }
  pose proof (at_idx_range _ _ _ Ha') as Hk'.
  set (idx := if v <? x then v else x).
  assert (0 ≤ idx ≤ k') as Hidx.
  { unfold idx. destruct (Z.ltb_spec v x); [|lia]. unfold DARRAY_INVALID in *. lia. }
  destruct (first_audio_some _ _ _ _ Hidx Ha' Hna') as [fa Efa]. rewrite Efa. cbn [mbind option_bind].
  eexists. split; [reflexivity|]. destruct (pkt_pts fa <=? 0); [|lia].
  pose proof (priming_loop_range (interleaved_packets o) MAX_OUTPUT_AUDIO_ENCODERS 0 idx ltac:(lia)). lia.
Qed.

(** Pruning ahead of the start: the number of packets is in range. *)
Lemma premature_spec q encs i v : ∀ st, 0 ≤ i →
  match premature_loop q encs i v st with
  | Some (m, _, _, _, n) => st.1.1.1.1 ≤ m ≤ Z.max st.1.1.1.1 (zlen q - 1) ∧
      (existsb has_encoder encs = true → ∃ j, track_queued q OBS_ENCODER_AUDIO j)
  | None => True
  end.
Proof.
  revert i. induction encs as [|[e|] encs IH]; intros i st Hi; cbn [premature_loop].
  - destruct st as [[[[m d] md] mx] n]. cbn. split; [lia|done].
  - destruct st as [[[[m d] md] mx] n]. pose proof (find_first_spec q OBS_ENCODER_AUDIO i) as Hf.
    destruct (find_first_packet_type_idx q OBS_ENCODER_AUDIO i) as [a|] eqn:E; cbn [mbind option_bind]; [|done].
    destruct Hf as (Ha & p & Ep & _). rewrite Ep. cbn [mbind option_bind].
    match goal with |- context [premature_loop q encs (i + 1) v ?st'] => specialize (IH (i + 1) st' ltac:(lia)) end.
    destruct (premature_loop _ _ _ _ _) as [[[[[m' ?] ?] ?] ?]|]; [|done]. cbn in *. split; [lia|].
    intros _. exists i. by eapply find_first_queued.
  - specialize (IH (i + 1) st ltac:(lia)). destruct (premature_loop _ _ _ _ _) as [[[[[m' ?] ?] ?] ?]|]; [|done].
    cbn. done.
Qed.

(** ** Pruning and the first packets *)

Lemma same_arrays c o o' : same_tracks o o' → caption_tracks o' = caption_tracks o →
  length (encoder_packet_times o') = MAX_OUTPUT_VIDEO_ENCODERS → arrays_ok c o → arrays_ok c o'.
Proof. intros (E1 & E2 & E3 & E4 & E5 & E6) Ec Hl []. constructor; rewrite ?E1, ?E3, ?E4, ?E6, ?Ec; done. Qed.

Lemma discard_to_spec c o idx : conf_ok c → queue_ok c o → 0 ≤ idx ≤ zlen (interleaved_packets o) →
  ∃ o', discard_to_idx o idx = Some o' ∧ interleaved_packets o' = drop (Z.to_nat idx) (interleaved_packets o) ∧
    same_tracks o o' ∧ queue_ok c o'.
Proof.
  intros Hc [Ha Hf Ht Hs] Hi. unfold discard_to_idx.
  destruct (discard_spec c (Z.to_nat idx) (interleaved_packets o) (encoder_packet_times o) Hc Hf) as (times & E & Hl & Hm);
    [apply Ha|done|unfold zlen in *; lia|].
  rewrite E. cbn [mbind option_bind]. eexists. split; [reflexivity|]. split_and!; [done..|].
  constructor; cbn; [|by apply Forall_drop|done|done].
  by apply (same_arrays c o).
Qed.

Lemma set_received_queue c o v a : queue_ok c o → length v = MAX_OUTPUT_VIDEO_ENCODERS → queue_ok c (set_received o v a).
Proof. intros [[] ? ? ?] Hv. by constructor; [constructor|..]. Qed.

Lemma audio_queued_at q j : track_queued q OBS_ENCODER_AUDIO j → ∃ k a, at_idx q k = Some a ∧ is_video a = false.
Proof.
  intros H. destruct (queued_index _ _ _ H) as (k & a & _ & _ & Ea & Hta). exists k, a. split; [done|].
  rewrite of_audio in Hta. by destruct (is_video a).
Qed.

Lemma prune_spec c o : conf_ok c → single_video c → queue_ok c o →
  track_queued (interleaved_packets o) OBS_ENCODER_VIDEO 0 →
  ∃ o' b, prune_interleaved_packets c o = Some (o', b) ∧ queue_ok c o' ∧
    if b : bool then same_tracks o o'
    else received_audio o' = false ∧ track_queued (interleaved_packets o') OBS_ENCODER_VIDEO 0.
Proof.
  intros Hc Hs Hq Hv. destruct (queued_index _ _ _ Hv) as (kv & pv & Ekv & Hkv & Epv & _).
  unfold prune_interleaved_packets, prune_premature_packets. rewrite Ekv, Epv.
  pose proof (premature_spec (interleaved_packets o) (audio_encoders c) 0 pv (kv, 0, 0, 0, 0) ltac:(lia)) as Hp.
  destruct (premature_loop _ _ _ _ _) as [[[[[m d] md] mx] n]|]; cbn [negb].
  2: { do 2 eexists. split; [reflexivity|]. split; [|done]. apply set_received_queue; [done|apply Hq]. }
  cbn in Hp. destruct Hp as [Hm Ha]. destruct (Ha (s_audio _ Hs)) as [j Hj].
  destruct (audio_queued_at _ _ Hj) as (k & a & Ea & Hna).
  set (dur := if (1 <? n) && _ then mx else _). clearbody dur.
  assert (∃ idx, (if negb ((if dur <? d then m + 1 else 0) =? 0) then Some (if dur <? d then m + 1 else 0)
                  else get_interleaved_start_idx o) = Some idx ∧ 0 ≤ idx ≤ zlen (interleaved_packets o)) as (idx & E & Hidx).
  { destruct (Z.eqb_spec (if dur <? d then m + 1 else 0) 0); cbn [negb].
    - destruct (start_idx_some o a k Hv Ea Hna) as (idx & E & Hidx). exists idx. split; [done|lia].
    - eexists. split; [reflexivity|]. destruct (dur <? d); lia. }
  rewrite E. cbn [mbind option_bind].
  destruct (Z.eqb_spec idx 0); cbn [negb mbind option_bind]; [by exists o, true|].
  destruct (discard_to_spec c o idx Hc Hq Hidx) as (o' & E' & _ & Hsame & Hq'). rewrite E'. cbn [mbind option_bind].
  by exists o', true.
Qed.

(** The first packets are there, or the flag of a missing track is reset. *)
Lemma get_packets_spec c o : conf_ok c → single_video c → queue_ok c o →
  ∃ o' r, get_audio_and_video_packets c o = (o', r) ∧ queue_ok c o' ∧
    match r with
    | Some (video, audio) => o' = o ∧
        length video = MAX_OUTPUT_VIDEO_ENCODERS ∧ length audio = MAX_OUTPUT_AUDIO_ENCODERS ∧
        (∃ p, at_idx video 0 = Some (Some p)) ∧ track_queued (interleaved_packets o) OBS_ENCODER_VIDEO 0 ∧
        (∀ (k : nat) e, audio_encoders c !! k = Some (Some e) →
          (∃ p, at_idx audio (Z.of_nat k) = Some (Some p)) ∧
          track_queued (interleaved_packets o) OBS_ENCODER_AUDIO (Z.of_nat k))
    | None => waiting c o'
    end.
Proof.
  intros Hc Hs Hq. pose proof (q_arrays _ _ Hq) as Ha. unfold get_audio_and_video_packets.
  pose proof (first_packets_spec (interleaved_packets o) OBS_ENCODER_VIDEO (video_encoders c) 0) as Hv.
  destruct (s_first _ Hs) as [e0 He0].
  destruct (first_packets _ OBS_ENCODER_VIDEO _ _) as [j|video].
  - destruct Hv as ([e He] & Hj & _). apply (s_video _ Hs) in He. assert (j = 0) as -> by lia.
    assert (queue_ok c (set_received o (put_idx (received_video o) 0 false) (received_audio o))) as Hq'.
    { apply set_received_queue; [done|]. rewrite put_idx_length. apply Ha. }
    do 2 eexists. split; [reflexivity|]. split; [done|].
    assert (put_idx (received_video o) 0 false !! 0%nat = Some false) as E0.
    { apply list_lookup_insert_eq. pose proof (a_received _ _ Ha) as Hl. rewrite Hl. unfold MAX_OUTPUT_VIDEO_ENCODERS. lia. }
    constructor; [done| |].
    + rewrite (started_single c _ Hs (q_arrays _ _ Hq') Hc). cbn. rewrite E0. by rewrite andb_false_r.
    + cbn. by rewrite E0.
  - destruct Hv as [Hlv Hv]. destruct (Hv 0%nat e0 He0) as (pv & Epv & Hqv).
    pose proof (first_packets_spec (interleaved_packets o) OBS_ENCODER_AUDIO (audio_encoders c) 0) as Hau.
    destruct (first_packets _ OBS_ENCODER_AUDIO _ _) as [j|audio].
    + do 2 eexists. split; [reflexivity|].
      assert (queue_ok c (set_received o (received_video o) false)) as Hq' by (apply set_received_queue; [done|apply Ha]).
      split; [done|]. constructor; [done|done|]. intros _. exact Hqv.
    + destruct Hau as [Hla Hau]. assert (existsb has_encoder (video_encoders c) = true) as ->.
      { apply existsb_exists. exists (Some e0). split; [|done]. apply list_elem_of_In. by apply list_elem_of_lookup_2 with 0%nat. }
      exists o, (Some (video, audio)). split_and!; [done|done|done|rewrite Hlv; apply Hc|rewrite Hla; apply Hc|by exists pv|exact Hqv|].
      intros k e He. destruct (Hau k e He) as (p & Ep & Hqp). split; [exists p; by rewrite at_idx_lookup|].
      by rewrite Z.add_0_l in Hqp.
Qed.

(** ** The offsets *)

Lemma audio_past_some c q v :
  (∀ (k : nat) e, audio_encoders c !! k = Some (Some e) → track_queued q OBS_ENCODER_AUDIO (Z.of_nat k)) →
  ∃ b, audio_past_video c q v = Some b.
Proof.
  intros H. unfold audio_past_video.
  assert (∀ l : list (nat * option obs_encoder),
    (∀ k e, (k, Some e) ∈ l → track_queued q OBS_ENCODER_AUDIO (Z.of_nat k)) →
    ∃ b, foldr (λ '(i, e) r, ok ← r;
      if has_encoder e
      then a ← find_last_packet_type q OBS_ENCODER_AUDIO (Z.of_nat i);
           Some ((pkt_dts_usec v <=? pkt_dts_usec a) && ok)
      else Some ok) (Some true) l = Some b) as Hl.
  { induction l as [|[k e] l IH]; intros Hin; [by exists true|]. cbn [foldr].
    destruct IH as [b E]; [intros; apply (Hin k0 e0); by right|]. rewrite E. cbn [mbind option_bind].
    destruct e as [e|]; cbn [has_encoder]; [|by eauto].
    destruct (find_last_some q OBS_ENCODER_AUDIO (Z.of_nat k)) as [a Ea]; [apply (Hin k e); by left|].
    rewrite Ea. cbn. by eauto. }
  apply Hl. intros k e Hin. apply list_elem_of_lookup in Hin as [j Hj]. rewrite list_lookup_imap in Hj.
  destruct (audio_encoders c !! j) as [x|] eqn:E; [|done]. cbn in Hj. injection Hj as -> ->. by apply (H _ e).
Qed.

Lemma apply_offset_some c o p : conf_ok c → arrays_ok c o → from_encoder c p →
  ∃ out, apply_interleaved_packet_offset o p None = Some (out, None) ∧ from_encoder c out ∧
    ∀ type i, of_track type i out = of_track type i p.
Proof.
  intros Hc Ha [Hi Hd]. unfold apply_interleaved_packet_offset.
  assert (is_Some (track_offset o p)) as [off Eo].
  { pose proof (index_range c p _ Hc Hi) as Hr. unfold track_offset.
    destruct (is_video p); apply at_idx_some; unfold zlen; rewrite ?(a_voffsets _ _ Ha), ?(a_aoffsets _ _ Ha); lia. }
  rewrite Eo. cbn [mbind option_bind]. eexists. split; [reflexivity|]. done.
Qed.

(** Making a queue relative keeps its packets, up to their timestamps. *)
Lemma relative_queue c o q : conf_ok c → arrays_ok c o → Forall (from_encoder c) q →
  ∃ q', mapM (λ p, fst <$> apply_interleaved_packet_offset o p None) q = Some q' ∧
    Forall (from_encoder c) q' ∧ (∀ type i, track_queued q type i → track_queued q' type i).
Proof.
  intros Hc Ha. induction 1 as [|p q Hp _ IH]; [by exists []|].
  destruct IH as (q' & E & Hf & Ht).
  destruct (apply_offset_some c o p Hc Ha Hp) as (out & Eo & Hout & Htr).
  exists (out :: q'). split; [|split; [by constructor|]].
  - cbn [mapM]. rewrite Eo. cbn [fmap option_fmap option_map fst mbind option_bind]. by rewrite E.
  - intros type i H. inversion H as [? ? Hx|? ? Hx]; subst; [apply Exists_cons_hd; by rewrite Htr|].
    apply Exists_cons_tl. by apply Ht.
Qed.

(** The output with its offsets, before the queue is sorted again. *)
Record ready (c : output_conf) (o : obs_output) : Prop := {
  y_arrays : arrays_ok c o;
  y_started : was_started c o = true;
  y_from : Forall (from_encoder c) (interleaved_packets o);
  y_video : track_queued (interleaved_packets o) OBS_ENCODER_VIDEO 0;
  y_audio : ∃ j, track_queued (interleaved_packets o) OBS_ENCODER_AUDIO j;
  y_sent : sent o = []
}.

Lemma start_offsets_spec c o video audio fa : conf_ok c → queue_ok c o → was_started c o = true →
  length video = MAX_OUTPUT_VIDEO_ENCODERS → length audio = MAX_OUTPUT_AUDIO_ENCODERS →
  track_queued (interleaved_packets o) OBS_ENCODER_VIDEO 0 →
  (∃ j, track_queued (interleaved_packets o) OBS_ENCODER_AUDIO j) →
  ∃ o', start_offsets o video audio fa = Some o' ∧ ready c o'.
Proof.
  intros Hc [Ha Hf Ht Hs] Hst Hlv Hla Hv [j Hj]. unfold start_offsets.
  set (o1 := set_highest _ _ _).
  assert (arrays_ok c o1) as Ha1.
  { destruct Ha as [H1 H2 H3 H4 H5 H6].
    constructor; cbn; try done; unfold new_video_offsets, new_audio_offsets;
      rewrite length_zip_with_l_eq; [done|lia|done|lia]. }
  destruct (relative_queue c o1 (interleaved_packets o1) Hc Ha1 Hf) as (q' & E & Hf' & Ht').
  rewrite E. cbn [mbind option_bind]. eexists. split; [reflexivity|].
  constructor; cbn; [by destruct Ha1|done|done|by apply Ht'|exists j; by apply Ht'|done].
Qed.

Lemma first_encoder_spec encs (k : nat) e : encs !! k = Some (Some e) →
  ∃ (j : nat) e', first_encoder_index encs = Some (Z.of_nat j) ∧ encs !! j = Some (Some e').
Proof.
  intros H. unfold first_encoder_index.
  destruct (list_find (λ e, has_encoder e = true) encs) as [[j x]|] eqn:E.
  - apply list_find_Some in E as (E & Hx & _). destruct x as [e'|]; [|done]. cbn. eauto.
  - apply list_find_None in E. rewrite Forall_lookup in E. by specialize (E k _ H).
Qed.

Lemma initialize_spec c o : conf_ok c → single_video c → queue_ok c o → was_started c o = true →
  ∃ o' b, initialize_interleaved_packets c o = Some (o', b) ∧
    if b : bool then ready c o' else waiting c o'.
Proof.
  intros Hc Hs Hq Hst. unfold initialize_interleaved_packets.
  destruct (audio_encoder_at c Hs) as (ka & ea & Hka).
  destruct (first_encoder_spec _ _ _ Hka) as (ja & ea' & Eja & Hja). rewrite Eja.
  destruct (s_first _ Hs) as [ev Hev].
  destruct (first_encoder_spec _ _ _ Hev) as (jv & ev' & Ejv & Hjv). rewrite Ejv.
  pose proof (s_video _ Hs _ _ Hjv) as ->.
  destruct (get_packets_spec c o Hc Hs Hq) as (o1 & r & E & Hq1 & Hr). rewrite E.
  destruct r as [[video audio]|]; [|by exists o1, false].
  destruct Hr as (-> & Hlv & Hla & [pv Epv] & Hqv & Hqa). change (Z.of_nat 0) with 0. rewrite Epv. cbn [mbind option_bind id].
  destruct (audio_past_some c (interleaved_packets o) pv) as [ok Eok]; [intros; by eapply Hqa|].
  rewrite Eok. cbn [mbind option_bind]. destruct ok; cbn [negb].
  2: { do 2 eexists. split; [reflexivity|]. constructor; [|done|done]. apply set_received_queue; [done|apply Hq]. }
  destruct (Hqa _ _ Hja) as [_ Hqj]. destruct (audio_queued_at _ _ Hqj) as (k & a & Ek & Hna).
  destruct (start_idx_some o a k Hqv Ek Hna) as (idx & Eidx & Hidx). rewrite Eidx. cbn [mbind option_bind].
  assert (∃ o2 r, (if negb (idx =? 0) then o ← discard_to_idx o idx; Some (get_audio_and_video_packets c o)
                   else Some (o, Some (video, audio))) = Some (o2, r) ∧
    match r with
    | None => waiting c o2
    | Some (video, audio) => queue_ok c o2 ∧ was_started c o2 = true ∧
        length video = MAX_OUTPUT_VIDEO_ENCODERS ∧ length audio = MAX_OUTPUT_AUDIO_ENCODERS ∧
        track_queued (interleaved_packets o2) OBS_ENCODER_VIDEO 0 ∧
        (∃ j, track_queued (interleaved_packets o2) OBS_ENCODER_AUDIO j) ∧
        (∃ p, at_idx audio (Z.of_nat ja) = Some (Some p))
    end) as (o2 & r & E2 & Hr2).
  { destruct (Z.eqb_spec idx 0); cbn [negb].
    - do 2 eexists. split; [reflexivity|]. split_and!; [done..|by eexists|by eapply Hqa].
    - destruct (discard_to_spec c o idx Hc Hq ltac:(lia)) as (o2 & E2 & _ & Hsame & Hq2). rewrite E2. cbn [mbind option_bind].
      destruct (get_packets_spec c o2 Hc Hs Hq2) as (o3 & r & E3 & Hq3 & Hr3). exists o3, r. rewrite E3. split; [done|].
      destruct r as [[v' a']|]; [|done]. destruct Hr3 as (-> & ? & ? & _ & ? & Hqa3).
      split_and!; [done|by rewrite (was_started_same c o)|done|done|done|eexists; by eapply Hqa3|by eapply Hqa3]. }
  rewrite E2. cbn [mbind option_bind]. destruct r as [[v' a']|]; [|by exists o2, false].
  destruct Hr2 as (Hq2 & Hst2 & Hlv2 & Hla2 & Hv2 & Ha2 & [fa Efa]). rewrite Efa. cbn [mbind option_bind id].
  destruct (start_offsets_spec c o2 v' a' fa Hc Hq2 Hst2 Hlv2 Hla2 Hv2 Ha2) as (o3 & E3 & Hr3).
  rewrite E3. cbn [mbind option_bind]. by exists o3, true.
Qed.

(** ** Sorting the queue again *)

Lemma set_higher_insert o p : set_higher_ts (insert_interleaved_packet o p) p =
  (λ o', insert_interleaved_packet o' p) <$> set_higher_ts o p.
Proof.
  unfold set_higher_ts. cbn [insert_interleaved_packet set_packets highest_video_ts highest_audio_ts].
  destruct (is_video p); [destruct (at_idx _ _); [|done]|]; cbn [mbind option_bind fmap option_fmap option_map]; by case_match.
Qed.

Lemma highest_some c o p : conf_ok c → arrays_ok c o → from_encoder c p → ∃ h, highest_of o p = Some h.
Proof.
  intros Hc Ha [Hi _]. pose proof (index_range c p _ Hc Hi) as Hr. unfold highest_of. destruct (is_video p); [|by eauto].
  apply at_idx_some. unfold zlen. rewrite (a_highest _ _ Ha). lia.
Qed.

Lemma resort_loop c l : conf_ok c → ∀ o, running c o → sent o = [] → Forall (from_encoder c) l →
  ∃ o', foldl (λ r p, o ← r; o ← set_higher_ts o p; Some (insert_interleaved_packet o p)) (Some o) l = Some o' ∧
    running c o' ∧ sent o' = [] ∧ interleaved_packets o' ≡ₚ interleaved_packets o ++ l.
Proof.
  intros Hc. induction l as [|p l IH]; intros o Hr Hs Hf; [exists o; by rewrite app_nil_r|].
  inversion_clear Hf as [|? ? Hp Hf']. cbn [foldl mbind option_bind].
  destruct (highest_some c o p Hc (r_arrays _ _ Hr) Hp) as [h Eh].
  destruct (set_higher_spec o p h Eh) as (o1 & E1 & R1). rewrite E1. cbn [mbind option_bind].
  assert (set_higher_ts (insert_interleaved_packet o p) p = Some (insert_interleaved_packet o1 p)) as E2
    by (by rewrite set_higher_insert, E1).
  destruct (IH (insert_interleaved_packet o1 p)) as (o' & E' & Hr' & Hs' & Hq'); [| |done|].
  - apply (insert_running c o p h); [apply Hr|apply Hr|done|done|done|by left| |done].
    intros Hv. destruct (index_video c p _ Hv (f_index _ _ Hp)) as (e & Ee & _).
    pose proof (index_range c p _ Hc (f_index _ _ Hp)) as Hrange. rewrite Hv in Hrange.
    exists (Z.to_nat (pkt_track_idx p)), e. split; [|lia]. by rewrite <- at_idx_lookup, Z2Nat.id by lia.
  - by destruct R1 as (_ & Rs & _); cbn; rewrite Rs.
  - exists o'. split_and!; [done..|]. rewrite Hq'. cbn [insert_interleaved_packet set_packets interleaved_packets].
    destruct R1 as (Rq & _). rewrite Rq, insert_perm. apply Permutation_middle.
Qed.

Lemma track_queued_perm q q' type i : q ≡ₚ q' → track_queued q type i → track_queued q' type i.
Proof. intros E. unfold track_queued. by rewrite E. Qed.

(** A started output that has sent nothing sends the first packet of its queue. *)
Lemma first_past c o p q : single_video c → running c o → interleaved_packets o = p :: q →
  track_queued (interleaved_packets o) OBS_ENCODER_VIDEO 0 →
  (∃ j, track_queued (interleaved_packets o) OBS_ENCODER_AUDIO j) → past c (set_packets o q) (pkt_dts_usec p).
Proof.
  intros Hs Hr Hq Hv [j Hj]. pose proof (r_sorted _ _ Hr) as Hso. pose proof (r_high _ _ Hr) as Hh.
  rewrite Hq in *. inversion_clear Hso as [|? ? _ Hall].
  assert (∀ x, x ∈ p :: q → pkt_dts_usec p ≤ pkt_dts_usec x) as Hmin.
  { intros x [->|Hx]%elem_of_cons; [done|]. rewrite Forall_forall in Hall. by apply Hall. }
  rewrite Forall_forall in Hh. constructor; cbn; [done| |].
  - intros i e h He Hi. pose proof (s_video _ Hs _ _ He) as ->.
    apply Exists_exists in Hv as (x & Hx & Htx). rewrite of_video in Htx. apply andb_prop in Htx as [Hvx Hix].
    specialize (Hh x Hx h). specialize (Hmin x Hx). unfold highest_of in Hh. rewrite Hvx in Hh.
    replace (pkt_track_idx x) with (Z.of_nat 0) in Hh by lia. rewrite at_idx_lookup in Hh. specialize (Hh Hi). lia.
  - apply Exists_exists in Hj as (x & Hx & Htx). rewrite of_audio in Htx. apply andb_prop in Htx as [Hvx _].
    specialize (Hh x Hx (highest_audio_ts o)). specialize (Hmin x Hx). unfold highest_of in Hh.
    destruct (is_video x); [done|]. specialize (Hh eq_refl). lia.
Qed.

Lemma ready_runs c env o : conf_ok c → single_video c → callbacks_keep env → ready c o →
  ∃ o' o'', resort_interleaved_packets o = Some o' ∧
    send_interleaved c env (apply_ept_offsets o') = Some o'' ∧ running c o''.
Proof.
  intros Hc Hs Hcb [Ha Hst Hf Hv [j Hj] Hse]. unfold resort_interleaved_packets.
  assert (running c (set_packets o [])) as Hr0.
  { constructor; cbn; [by destruct Ha|done|done|constructor|constructor|by rewrite Hse; constructor|by rewrite Hse]. }
  destruct (resort_loop c (interleaved_packets o) Hc _ Hr0 Hse Hf) as (o1 & E1 & Hr1 & Hs1 & Hq1).
  cbn [set_packets interleaved_packets app] in Hq1. exists o1.
  assert (running c (apply_ept_offsets o1)) as Hr2.
  { destruct Hr1 as [Ha1 H2 H3 H4 H5 H6 H7]. constructor; try done.
    - destruct Ha1 as [B1 B2 B3 B4 B5 B6]. constructor; try done. cbn. by rewrite length_zip_with, B5, B2.
    - cbn. rewrite Hs1. constructor. }
  destruct (interleaved_packets o1) as [|p q] eqn:Eq1.
  { apply Permutation_nil_l in Hq1. rewrite <- Hq1 in Hv. by inversion Hv. }
  destruct (send_running c env (apply_ept_offsets o1) p q Hc Hcb Hr2) as (o' & s & E' & _ & _ & _ & _ & Hr').
  { done. }
  { apply (first_past c _ p q Hs Hr2).
    - done.
    - cbn. rewrite Eq1. by eapply track_queued_perm.
    - exists j. cbn. rewrite Eq1. by eapply track_queued_perm. }
  by exists o'.
Qed.

Lemma start_spec c env o : conf_ok c → single_video c → callbacks_keep env → queue_ok c o → was_started c o = true →
  track_queued (interleaved_packets o) OBS_ENCODER_VIDEO 0 →
  ∃ o', start_interleaved c env o = Some o' ∧ (waiting c o' ∨ running c o').
Proof.
  intros Hc Hs Hcb Hq Hst Hv. unfold start_interleaved.
  destruct (prune_spec c o Hc Hs Hq Hv) as (o1 & b & E1 & Hq1 & Hb). rewrite E1. cbn [mbind option_bind].
  destruct b; cbn [negb].
  2: { exists o1. split; [done|]. left. destruct Hb as [Hra Hvq]. constructor; [done| |done].
       unfold was_started. by rewrite Hra. }
  destruct (initialize_spec c o1 Hc Hs Hq1) as (o2 & b & E2 & Hb2); [by rewrite (was_started_same c o)|].
  rewrite E2. cbn [mbind option_bind]. destruct b; cbn [negb]; [|by exists o2; auto].
  destruct (ready_runs c env o2 Hc Hs Hcb Hb2) as (o3 & o4 & E3 & E4 & Hr4).
  rewrite E3. cbn [mbind option_bind]. exists o4. by auto.
Qed.

(** ** A packet arrives before the start *)

(** A packet of one of the encoders, long enough for its headers; video packets come with
    their times. *)
Definition arrival_ok (c : output_conf) (a : arrival) : bool :=
  let '(p, t, _) := a in
  match get_encoder_index c p with Some _ => true | None => false end && (6 <=? zlen (pkt_data p))
  && Bool.eqb (is_video p) (match t with Some _ => true | None => false end).

Lemma video_index c p i : conf_ok c → single_video c → get_encoder_index c p = Some i → is_video p = true → i = 0.
Proof.
  intros Hc Hs Hi Hv. destruct (index_video c p i Hv Hi) as (e & Ee & _).
  pose proof (at_idx_range _ _ _ Ee). assert (i = Z.of_nat (Z.to_nat i)) as Ei by lia.
  rewrite Ei, at_idx_lookup in Ee. apply (s_video _ Hs) in Ee. lia.
Qed.

Lemma discard_unused_spec c o t : conf_ok c → queue_ok c o →
  ∃ o', discard_unused_audio_packets o t = Some o' ∧ same_tracks o o' ∧ queue_ok c o'.
Proof.
  intros Hc Hq. unfold discard_unused_audio_packets.
  set (idx := match list_find _ _ with Some _ => _ | None => _ end).
  assert (0 ≤ idx ≤ zlen (interleaved_packets o)) as Hi.
  { unfold idx. destruct (list_find _ _) as [[k x]|] eqn:E; [|pose proof (zlen_nonneg (interleaved_packets o)); lia].
    apply list_find_Some in E as (E & _). apply lookup_lt_Some in E. unfold zlen. lia. }
  clearbody idx. destruct (Z.eqb_spec idx 0); cbn [negb]; [by exists o|].
  destruct (discard_to_spec c o idx Hc Hq Hi) as (o' & E & _ & Hsame & Hq'). by exists o'.
Qed.

(** A packet queued with its time entry. *)
Lemma queue_packet c o p t times : conf_ok c → queue_ok c o → from_encoder c p →
  (match t with
   | Some t => l ← at_idx (encoder_packet_times o) (pkt_track_idx p);
               Some (put_idx (encoder_packet_times o) (pkt_track_idx p) (l ++ [t]))
   | None => Some (encoder_packet_times o)
   end) = Some times → (is_video p = match t with Some _ => true | None => false end) →
  queue_ok c (insert_interleaved_packet (set_times o times) p).
Proof.
  intros Hc [Ha Hf Ht Hs] Hp E Hv.
  assert (∀ i l, at_idx times i = Some l →
    length l = length (filter (λ p, of_track OBS_ENCODER_VIDEO i p = true) (p :: interleaved_packets o))) as Hm.
  { destruct t as [t|].
    - destruct (at_idx (encoder_packet_times o) (pkt_track_idx p)) as [l0|] eqn:El; [|done].
      cbn in E. injection E as <-. intros i l Hi.
      rewrite at_put in Hi by (by eapply at_idx_range).
      destruct (Z.eqb_spec i (pkt_track_idx p)) as [->|N].
      + injection Hi as <-. rewrite filter_cons_True by (by rewrite of_video, Hv, Z.eqb_refl).
        rewrite length_app, (Ht _ _ El). cbn. lia.
      + rewrite filter_cons_False; [by apply Ht|]. rewrite of_video. rewrite (proj2 (Z.eqb_neq _ _)) by lia.
        by rewrite andb_false_r.
    - injection E as <-. intros i l Hi. rewrite filter_cons_False; [by apply Ht|]. by rewrite of_video, Hv. }
  assert (length times = MAX_OUTPUT_VIDEO_ENCODERS) as Hl.
  { destruct t as [t|]; [|injection E as <-; apply Ha].
    destruct (at_idx (encoder_packet_times o) (pkt_track_idx p)); [|done]. cbn in E. injection E as <-.
    rewrite put_idx_length. apply Ha. }
  constructor; cbn; [|rewrite insert_perm; by constructor| |done].
  - destruct Ha. by constructor.
  - intros i l Hi. rewrite (Hm i l Hi). apply Permutation_length. by rewrite insert_perm.
Qed.

Lemma arrive_waiting c env o p t g : conf_ok c → single_video c → callbacks_keep env → waiting c o →
  arrival_ok c (p, t, g) = true →
  ∃ o', interleave_packets c env o p t g = Some o' ∧ (waiting c o' ∨ running c o').
Proof.
  intros Hc Hs Hcb [Hq Hnot Hwv] Hok. unfold arrival_ok in Hok.
  destruct (get_encoder_index c p) as [i|] eqn:Hi; [|done]. cbn [andb] in Hok. apply andb_prop in Hok as [Hd Hvt].
  apply Bool.eqb_prop in Hvt. unfold interleave_packets. rewrite Hi. cbn [mbind option_bind].
  pose proof (index_range c p i Hc Hi) as Hr. pose proof (q_arrays _ _ Hq) as Ha.
  set (p1 := pkt_set_track_idx p i). assert (is_video p1 = is_video p) as Hv1 by done.
  assert (from_encoder c p1) as Hf1 by (constructor; [by rewrite (index_same c p)|cbn; lia]).
  assert (∃ rc, (if is_video p1 then at_idx (received_video o) i else Some true) = Some rc) as [rc Erc].
  { rewrite Hv1. destruct (is_video p); [|by eauto]. apply at_idx_some. unfold zlen. rewrite (a_received _ _ Ha). lia. }
  rewrite Erc. cbn [mbind option_bind].
  destruct (negb rc && negb (pkt_keyframe p1)) eqn:Edisc.
  - apply andb_prop in Edisc as [Erc' _]. destruct rc; [done|].
    destruct (discard_unused_spec c o (pkt_dts_usec p1) Hc Hq) as (o' & E & Hsame & Hq'). exists o'. split; [done|].
    left. constructor; [done|by rewrite (was_started_same c o)|].
    destruct Hsame as (-> & _). rewrite Hv1 in Erc. destruct (is_video p) eqn:Hv; [|done].
    pose proof (video_index c p i Hc Hs Hi Hv) as ->. change 0 with (Z.of_nat 0) in Erc.
    rewrite at_idx_lookup in Erc. by rewrite Erc.
  - clear Edisc. destruct (groups_only o p1 g) as [x Ex]. rewrite Ex.
    change (was_started c (set_groups o x)) with (was_started c o). rewrite Hnot. cbn [mbind option_bind].
    set (o1 := check_received (set_groups o x) p1).
    assert (queue_ok c o1) as Hq1.
    { destruct Hq as [[] ? ? ?]. unfold o1, check_received. destruct (is_video p1); constructor; try done;
        constructor; try done. cbn. by rewrite put_idx_length. }
    assert (encoder_packet_times o1 = encoder_packet_times o ∧ interleaved_packets o1 = interleaved_packets o) as [Et Eq]
      by (unfold o1, check_received; by destruct (is_video p1)).
    assert (∃ times, (match t with
      | Some t => l ← at_idx (encoder_packet_times o1) i; Some (put_idx (encoder_packet_times o1) i (l ++ [t]))
      | None => Some (encoder_packet_times o1)
      end) = Some times) as [times Etimes].
    { rewrite Et. destruct t as [t|]; [|by eauto]. rewrite Hvt in Hr.
      destruct (at_idx_some (encoder_packet_times o) i) as [l El]; [unfold zlen; rewrite (a_times _ _ Ha); lia|].
      rewrite El. cbn. by eauto. }
    rewrite Etimes. cbn [mbind option_bind].
    assert (queue_ok c (insert_interleaved_packet (set_times o1 times) p1)) as Hq2.
    { apply (queue_packet c o1 p1 t times); done. }
    set (o2 := insert_interleaved_packet (set_times o1 times) p1) in *.
    assert (received_video o2 !! 0%nat = Some true → track_queued (interleaved_packets o2) OBS_ENCODER_VIDEO 0) as Hw2.
    { intros Hrv. unfold o2. cbn. eapply track_queued_perm; [symmetry; apply insert_perm|].
      destruct (is_video p) eqn:Hv.
      - apply Exists_cons_hd. rewrite of_video, Hv1. pose proof (video_index c p i Hc Hs Hi Hv) as ->. done.
      - apply Exists_cons_tl. rewrite Eq. apply Hwv. revert Hrv. unfold o2, o1, check_received. rewrite Hv1. done. }
    destruct (was_started c o2) eqn:Hst2; cbn [negb].
    + destruct (start_spec c env o2 Hc Hs Hcb Hq2 Hst2) as (o' & E & Ho'); [|by exists o'].
      apply Hw2. rewrite (started_single c o2 Hs (q_arrays _ _ Hq2) Hc) in Hst2.
      apply andb_prop in Hst2 as [_ Hb]. by apply bool_decide_eq_true in Hb.
    + exists o2. split; [done|]. left. by constructor.
Qed.

(** ** From the reset of the output *)

(** What is asked of the encoders: packets are well formed, and once the output is started
    the timestamps of the video track, and of audio, do not go backwards. *)
Fixpoint in_order (c : output_conf) (env : output_env) (o : obs_output) (l : list arrival) : bool :=
  match l with
  | [] => true
  | (p, t, g) :: l =>
      arrival_ok c (p, t, g) && (negb (was_started c o) || timely c o [(p, t, g)]) &&
      match interleave_packets c env o p t g with Some o => in_order c env o l | None => true end
  end.

Lemma arrive_spec c env o p t g : conf_ok c → single_video c → callbacks_keep env → waiting c o ∨ running c o →
  arrival_ok c (p, t, g) = true → (was_started c o = true → timely c o [(p, t, g)] = true) →
  ∃ o', interleave_packets c env o p t g = Some o' ∧ (waiting c o' ∨ running c o') ∧
    (running c o → running c o' ∧
      map packet_key (all_packets o') ≡ₚ map packet_key (all_packets o ++ relatives c o [(p, t, g)]) ∧
      ∀ l, relatives c o' l = relatives c o l).
Proof.
  intros Hc Hs Hcb [Hw|Hr] Hok Ht.
  - destruct (arrive_waiting c env o p t g Hc Hs Hcb Hw Hok) as (o' & E & Ho'). exists o'. split_and!; [done..|].
    intros Hr. pose proof (r_started _ _ Hr) as H1. by rewrite (w_not _ _ Hw) in H1.
  - specialize (Ht (r_started _ _ Hr)). cbn [timely] in Ht.
    destruct (relative c o p) as [out|] eqn:Erel; [|done]. destruct (highest_of o out) as [h|] eqn:Eh; [|done].
    destruct (set_higher_ts o out) as [o1|] eqn:E1; [|done]. rewrite andb_true_r in Ht. apply andb_prop in Ht as [Hle Hd].
    destruct (arrive_running c env o p t g out h Hc Hcb Hr Erel Eh ltac:(lia) ltac:(lia))
      as (o1' & o' & E1' & E & Hr' & Hs1 & Hk).
    exists o'. split_and!; [done|by right|]. intros _. split_and!; [done| |].
    + cbn. by rewrite Erel.
    + intros l. assert (o1' = o1) as -> by congruence.
      rewrite (relatives_same c o1 o' l Hs1). by rewrite (relatives_raised c o o1 out l E1).
Qed.

Lemma start_run_spec c env l : conf_ok c → single_video c → callbacks_keep env → ∀ o, waiting c o ∨ running c o →
  in_order c env o l = true →
  ∃ o', interleave_run c env o l = Some o' ∧ (waiting c o' ∨ running c o') ∧
    (running c o → map packet_key (all_packets o') ≡ₚ map packet_key (all_packets o ++ relatives c o l)).
Proof.
  intros Hc Hs Hcb. induction l as [|[[p t] g] l IH]; intros o Ho Hin.
  { exists o. split_and!; [done..|]. intros _. cbn. by rewrite app_nil_r. }
  cbn [in_order interleave_run] in *. apply andb_prop in Hin as [Hin Hl]. apply andb_prop in Hin as [Hok Ht].
  destruct (arrive_spec c env o p t g Hc Hs Hcb Ho Hok) as (o1 & E1 & Ho1 & Hrun).
  { intros Hst. by rewrite Hst in Ht. }
  rewrite E1 in *. cbn [mbind option_bind]. destruct (IH o1 Ho1 Hl) as (o' & E & Ho' & Hk').
  exists o'. split_and!; [done..|]. intros Hr. destruct (Hrun Hr) as (Hr1 & Hk1 & Hrel). specialize (Hk' Hr1).
  rewrite Hk', !map_app, Hk1, Hrel. change ((p, t, g) :: l) with ([(p, t, g)] ++ l).
  unfold relatives. rewrite omap_app, !map_app. by rewrite <- app_assoc.
Qed.

Lemma in_order_app c env l1 l2 o o1 : in_order c env o (l1 ++ l2) = true → interleave_run c env o l1 = Some o1 →
  in_order c env o l1 = true ∧ in_order c env o1 l2 = true.
Proof.
  revert o. induction l1 as [|[[p t] g] l1 IH]; intros o Hin E; [by injection E as ->|].
  cbn [app in_order interleave_run] in *. apply andb_prop in Hin as [Hh Hl]. rewrite Hh.
  destruct (interleave_packets c env o p t g) as [o'|]; [|done]. by apply IH.
Qed.

Lemma in_order_prefix c env l1 l2 o : in_order c env o (l1 ++ l2) = true → in_order c env o l1 = true.
Proof.
  revert o. induction l1 as [|[[p t] g] l1 IH]; intros o Hin; [done|]. cbn [app in_order] in *.
  apply andb_prop in Hin as [Hh Hl]. rewrite Hh. destruct (interleave_packets c env o p t g); [by apply IH|done].
Qed.

(** A video encoder has a caption track, whose data are pairs of characters. *)
Definition captions_ok (c : output_conf) (o : obs_output) : Prop :=
  ∀ i e, video_encoders c !! i = Some (Some e) → ∃ t, caption_tracks o !! i = Some (Some t) ∧ ctrack_ok t.

Lemma reset_waiting c o : conf_ok c → single_video c → captions_ok c o → waiting c (reset_packet_data o).
Proof.
  intros Hc Hs Hcap. constructor; [|done|done]. constructor; [|constructor| |done].
  - constructor; [done..|exact Hcap].
  - intros i l Hi. apply at_idx_in in Hi. by apply (elem_of_replicate MAX_OUTPUT_VIDEO_ENCODERS []) in Hi as [-> _].
Qed.

(** C3: From the reset of an output with one video encoder and any number of audio encoders,
    whatever packets arrive, as long as they are well formed and the timestamps of the
    started output do not go backwards: no call fails, the packets are handed on in the
    order of their relative timestamps, and from the moment the output is started
    every packet that arrives is either handed on or still waits in the queue, exactly
    once, with the offsets of its track subtracted. *)
Theorem interleave_in_order c env o l1 l2 :
  conf_ok c → single_video c → callbacks_keep env → captions_ok c o →
  in_order c env (reset_packet_data o) (l1 ++ l2) = true →
  ∃ o1 o2, interleave_run c env (reset_packet_data o) l1 = Some o1 ∧ interleave_run c env o1 l2 = Some o2 ∧
    StronglySorted before (rev (sent o2)) ∧
    (was_started c o1 = true →
      map packet_key (sent o2 ++ interleaved_packets o2) ≡ₚ
      map packet_key (sent o1 ++ interleaved_packets o1 ++ relatives c o1 l2)).
Proof.
  intros Hc Hs Hcb Hcap Hin. pose proof (reset_waiting c o Hc Hs Hcap) as Hw.
  destruct (start_run_spec c env l1 Hc Hs Hcb _ (or_introl Hw) (in_order_prefix _ _ _ _ _ Hin)) as (o1 & E1 & Ho1 & _).
  destruct (in_order_app _ _ _ _ _ _ Hin E1) as [_ Hin2].
  destruct (start_run_spec c env l2 Hc Hs Hcb o1 Ho1 Hin2) as (o2 & E2 & Ho2 & Hk2).
  exists o1, o2. split_and!; [done..| |].
  - destruct Ho2 as [Hw2|Hr2]; [|apply Hr2]. rewrite (q_sent _ _ (w_queue _ _ Hw2)). constructor.
  - intros Hst. destruct Ho1 as [Hw1|Hr1]; [by rewrite (w_not _ _ Hw1) in Hst|].
    specialize (Hk2 Hr1). unfold all_packets in Hk2. by rewrite <- app_assoc in Hk2.
Qed.

(** ** Examples *)

Definition ex_conf (audio : list (option obs_encoder)) : output_conf :=
  mk_conf (ex_pad MAX_OUTPUT_VIDEO_ENCODERS [Some (ex_enc 1 OBS_ENCODER_VIDEO "h264" 0)])
    (ex_pad MAX_OUTPUT_AUDIO_ENCODERS audio) 4.

Definition ex_output : obs_output :=
  mk_output [] false [] [] [] 0 [] [] [] ex_tracks 0 0 [].

Definition ex_v := ex_pkt OBS_ENCODER_VIDEO 1.
Definition ex_a := ex_pkt OBS_ENCODER_AUDIO.

(** A video packet that is not a keyframe is dropped; the output starts with the audio
    packet that follows the keyframe. *)
Definition ex_before : list arrival :=
  [ex_v 100 1000000 false; ex_a 2 40 1010000 false; ex_v 133 1033000 true; ex_a 2 61 1031000 false; ex_a 2 82 1052000 false].
Definition ex_after : list arrival :=
  [ex_v 166 1066000 false; ex_a 2 103 1073000 false; ex_a 2 124 1094000 false; ex_v 199 1099000 false; ex_v 232 1132000 false].

Lemma ex_conf_ok a : conf_ok (ex_conf [Some a]).
Proof. by constructor. Qed.

Lemma ex_single a : single_video (ex_conf [Some a]).
Proof.
  constructor; [|by eexists|done]. intros i e.
  do 10 (destruct i as [|i]; [by intros [=]|]). done.
Qed.

Lemma ex_captions c : length (video_encoders c) = MAX_OUTPUT_VIDEO_ENCODERS → captions_ok c ex_output.
Proof.
  intros Hl i e Hi. apply lookup_lt_Some in Hi. rewrite Hl in Hi. by apply ex_tracks_ok.
Qed.

Lemma interleave_in_order_witness :
  ∃ o1 o2, interleave_run (ex_conf [Some ex_aac]) ex_env (reset_packet_data ex_output) ex_before = Some o1 ∧
    interleave_run (ex_conf [Some ex_aac]) ex_env o1 ex_after = Some o2 ∧
    StronglySorted before (rev (sent o2)) ∧
    (was_started (ex_conf [Some ex_aac]) o1 = true →
      map packet_key (sent o2 ++ interleaved_packets o2) ≡ₚ
      map packet_key (sent o1 ++ interleaved_packets o1 ++ relatives (ex_conf [Some ex_aac]) o1 ex_after)).
Proof.
  apply interleave_in_order; [apply ex_conf_ok|apply ex_single|apply ex_callbacks|by apply ex_captions|].
  vm_compute. reflexivity.
Defined.

(** The run of the witness: the timestamps handed on. *)
Example ex_interleaved :
  option_map (λ o, (was_started (ex_conf [Some ex_aac]) o,
                    map (λ p, (is_video p, pkt_dts_usec p)) (rev (sent o))))
    (interleave_run (ex_conf [Some ex_aac]) ex_env (reset_packet_data ex_output) (ex_before ++ ex_after)) =
  Some (true, [(true, 0); (false, 0); (false, 21000); (true, 33000); (false, 42000); (false, 63000)]).
Proof. vm_compute. reflexivity. Qed.

(** With a second audio encoder the order is lost: a packet only waits for the other video
    tracks, and a video packet for the audio track that is furthest, so a packet of
    the track that lags is handed on after later ones, though no encoder goes backwards. *)
Definition ex_two_audio : output_conf := ex_conf [Some ex_aac; Some (ex_enc 3 OBS_ENCODER_AUDIO "aac" 1024)].

Definition ex_lagging : list arrival :=
  [ex_v 133 1033000 true; ex_a 2 61 1031000 false; ex_a 3 61 1031500 false; ex_a 2 82 1052000 false;
   ex_a 3 82 1052500 false; ex_v 166 1066000 false; ex_a 2 103 1073000 false; ex_v 199 1099000 false;
   ex_a 2 124 1094000 false; ex_v 232 1132000 false; ex_a 2 145 1115000 false; ex_a 2 166 1136000 false;
   ex_a 3 103 1073500 false; ex_v 265 1165000 false; ex_a 2 187 1157000 false].

Example two_audio_tracks_out_of_order :
  option_map (λ o, map (λ p, (is_video p, pkt_track_idx p, pkt_dts_usec p)) (rev (sent o)))
    (interleave_run ex_two_audio ex_env (reset_packet_data ex_output) ex_lagging) =
  Some [(true, 0, 0); (false, 1, 0); (false, 0, 0); (false, 1, 21000); (false, 0, 21000); (true, 0, 33000);
        (false, 0, 42000); (false, 0, 63000); (false, 1, 42000); (true, 0, 66000); (false, 0, 84000)].
Proof. vm_compute. reflexivity. Qed.

(** The first audio track is 500 ms ahead of the video, the second one 1 ms: only the
    difference of the last track is compared, [max_diff] is not, and nothing is pruned. *)
Example max_diff_unused :
  let q := [(ex_v 0 1000000 true).1.1; pkt_set_track_idx (ex_a 3 1 1001000 false).1.1 1; (ex_a 2 500 1500000 false).1.1] in
  (prune_premature_packets ex_two_audio (set_packets (reset_packet_data ex_output) q)).2 = Some 0 ∧
  (prune_premature_packets (ex_conf [Some ex_aac]) (set_packets (reset_packet_data ex_output) q)).2 = Some 3.
Proof. vm_compute. done. Qed.

(** Two video encoders. The second track's first packet is not a keyframe: the keyframe of
    the first track and the audio before it are discarded, but the first track still
    counts as received. When the keyframe of the second track comes every flag is set,
    pruning finds no packet of the first track, and from then on the output counts as
    started: no offset was ever set, and the queued keyframe keeps its system time. *)
Definition ex_unset : list arrival :=
  [ex_pkt OBS_ENCODER_VIDEO 1 100 1000000 true; ex_a 2 100 1000500 false;
   ex_pkt OBS_ENCODER_VIDEO 4 120 1020000 false; ex_a 2 121 1021000 false;
   ex_pkt OBS_ENCODER_VIDEO 4 130 1030000 true; ex_a 2 142 1042000 false].

Example started_without_offsets :
  option_map (λ o, (was_started ex_two_video o, existsb (λ x, negb (x =? 0)) (video_offsets o ++ audio_offsets o),
                    map (λ p, (is_video p, pkt_dts_usec p)) (interleaved_packets o)))
    (interleave_run ex_two_video ex_env (reset_packet_data ex_output) ex_unset) =
  Some (true, false, [(false, 142000); (false, 1021000); (true, 1030000)]).
Proof. vm_compute. reflexivity. Qed.
