(* ===== verification/OutputBatch.v ===== *)
(** * The size of a batch of the interleaver: calculate_batch_size of libobs/obs-output.c

    How many packets may wait for those of another encoder: what fits into twice the
    longest interval between the packets of an encoder. *)

From S2P Require Import Prelude Util Encoder Interleave.

Local Open Scope Z_scope.

Section batch.
(** [frame_rate_divisor] of the encoders, and the frame rate of [obs_get_video_info]. *)
Context (frame_rate_divisor : obs_encoder → Z) (ovi_fps_num ovi_fps_den : Z).

Definition obs_encoder_get_frame_rate_divisor (e : obs_encoder) : Z :=
  match enc_type e with OBS_ENCODER_VIDEO => frame_rate_divisor e | OBS_ENCODER_AUDIO => 0 end.

(** The interval between two packets, in nanoseconds. *)
Definition video_interval (e : obs_encoder) : option Z :=
  let den := u32 (ovi_fps_den * obs_encoder_get_frame_rate_divisor e) in
  mul_div64 1000000000 den ovi_fps_num.

Definition audio_interval (e : obs_encoder) : option Z :=
  mul_div64 1000000000 (obs_encoder_get_frame_size (Some e)) (obs_encoder_get_sample_rate (Some e)).

Definition encoder_intervals (c : output_conf) : option (list Z) :=
  v ← mapM video_interval (omap id (video_encoders c));
  a ← mapM audio_interval (omap id (audio_encoders c));
  Some (v ++ a).

Definition largest (intervals : list Z) : Z :=
  foldl (λ largest_interval i, if largest_interval <? i then i else largest_interval) 0 intervals.

(** One turn of the last loop. *)
Definition add_interval (largest_interval batch i : Z) : option Z :=
  num ← checked_div (u64 (largest_interval * 2)) i;
  Some (u64 (batch + num)).

(** [batch] is [interleaver_max_batch_size], to which the function adds. *)
Definition calculate_batch_size (c : output_conf) (batch : Z) : option Z :=
  intervals ← encoder_intervals c;
  foldl (λ batch i, batch ← batch; add_interval (largest intervals) batch i) (Some batch) intervals.
End batch.

(** ** The result *)

Lemma largest_above l : ∀ m, m ≤ foldl (λ m i, if m <? i then i else m) m l ∧
  Forall (λ i, i ≤ foldl (λ m i, if m <? i then i else m) m l) l.
Proof.
  induction l as [|i l IH]; intros m; cbn [foldl]; [split; [lia|constructor]|].
  destruct (IH (if m <? i then i else m)) as [Hm Hl]. destruct (Z.ltb_spec m i); (split; [lia|constructor; [lia|done]]).
Qed.

(** The sum the loop computes. *)
Definition batch_sum (m : Z) (l : list Z) : Z := foldr (λ i s, (2 * m) `div` i + s) 0 l.

Lemma batch_loop m l : 0 ≤ m < 2 ^ 62 → Forall (λ i, 0 < i ≤ m) l → ∀ b, 0 ≤ b → b + batch_sum m l < 2 ^ 64 →
  foldl (λ batch i, batch ← batch; add_interval m batch i) (Some b) l =
    Some (b + batch_sum m l).
Proof.
  intros Hm. induction 1 as [|i l Hi Hl IH]; intros b Hb Hs; [cbn; by rewrite Z.add_0_r|].
  change (batch_sum m (i :: l)) with ((2 * m) `div` i + batch_sum m l) in *. cbn [foldl]. change (Some b ≫= λ batch, add_interval m batch i) with (add_interval m b i).
  assert (0 ≤ batch_sum m l) as Hp.
  { clear -Hl Hm. unfold batch_sum. induction Hl as [|j l Hj Hl IH]; cbn [foldr]; [done|].
    pose proof (Z.div_pos (2 * m) j ltac:(lia) ltac:(lia)). lia. }
  assert (0 ≤ (2 * m) `div` i) by (apply Z.div_pos; lia).
  assert (add_interval m b i = Some (b + (2 * m) `div` i)) as ->.
  { unfold add_interval. rewrite (u64_small (m * 2)), checked_div_some, (Z.mul_comm m 2) by lia. cbn [mbind option_bind].
    by rewrite u64_small by lia. }
  rewrite IH by lia. f_equal. lia.
Qed.

Lemma largest_below l m k : m < k → Forall (λ i, 0 < i < k) l → foldl (λ m i, if m <? i then i else m) m l < k.
Proof. intros Hm Hl. revert m Hm. induction Hl as [|i l Hi Hl IH]; intros m Hm; cbn [foldl]; [done|]. apply IH. case_match; lia. Qed.

Lemma batch_sum_two m l : Forall (λ i, 0 < i ≤ m) l → 2 * zlen l ≤ batch_sum m l.
Proof.
  unfold zlen. induction 1 as [|i l Hi Hl IH]; cbn [length]; [done|].
  change (batch_sum m (i :: l)) with ((2 * m) `div` i + batch_sum m l).
  pose proof (Z.div_le_lower_bound (2 * m) i 2 ltac:(lia) ltac:(lia)). lia.
Qed.

(** An encoder has room for all the packets of twice the longest interval: for two at
    least, the encoder with that interval for two exactly. *)
Theorem batch_size divisor num den c l b :
  encoder_intervals divisor num den c = Some l → Forall (λ i, 0 < i < 2 ^ 62) l → 0 ≤ b →
  b + batch_sum (largest l) l < 2 ^ 64 →
  calculate_batch_size divisor num den c b = Some (b + batch_sum (largest l) l) ∧
  2 * zlen l ≤ batch_sum (largest l) l.
Proof.
  intros El Hl Hb Hs. unfold calculate_batch_size. rewrite El. cbn [mbind option_bind].
  destruct (largest_above l 0) as [H0 Hle]. fold (largest l) in H0, Hle.
  assert (Forall (λ i, 0 < i ≤ largest l) l) as Hr.
  { apply Forall_forall. intros i Hi. rewrite Forall_forall in Hl, Hle. specialize (Hl i Hi). specialize (Hle i Hi).
    cbn in Hle. lia. }
  pose proof (largest_below l 0 (2 ^ 62) ltac:(lia) Hl) as Hm. fold (largest l) in Hm.
  split; [apply batch_loop; (lia || done)|by apply batch_sum_two].
Qed.

(** Video at 30 frames per second with audio of 1024 samples at 48 kHz. *)
Definition ex_batch_video : obs_encoder :=
  mk_encoder 1 OBS_ENCODER_VIDEO None None "h264" None None None None None 0 0 0 0 1 30.
Definition ex_batch_audio : obs_encoder :=
  mk_encoder 2 OBS_ENCODER_AUDIO None None "aac" None None None None
    (Some (mk_audio 48000 SPEAKERS_STEREO)) 0 0 48000 1024 1 48000.
Definition ex_batch_conf : output_conf := mk_conf [Some ex_batch_video; None] [Some ex_batch_audio] 0.

Example batch_first_session : calculate_batch_size (λ _, 1) 30 1 ex_batch_conf 0 = Some 5.
Proof. vm_compute. reflexivity. Qed.

(** It is never set to zero: the second session of an output begins with the size of the
    first. *)
Example batch_second_session : calculate_batch_size (λ _, 1) 30 1 ex_batch_conf 5 = Some 10.
Proof. vm_compute. reflexivity. Qed.

(** An encoder that is not yet connected to the audio has no sample rate. *)
Example batch_no_rate : calculate_batch_size (λ _, 1) 30 1
  (mk_conf [Some ex_batch_video] [Some (mk_encoder 2 OBS_ENCODER_AUDIO None None "aac" None None None None None 0 0 0 1024 1 1)] 0) 0 = None.
Proof. vm_compute. reflexivity. Qed.
