(* ===== verification/Pause.v ===== *)
(** * Pausing: libobs/obs-encoder.c and obs-output.c

    The pause of an output is a pair of times, shared by the encoders of the output: video
    frames and audio samples from the first to the second are left out. Here are the checks
    that the encoders (and the outputs of raw frames) make on what they receive, the
    functions of obs-output.c that set the times, and what is left out. *)

From S2P Require Import Prelude Util Encoder Deque.

Local Open Scope Z_scope.

(** ** State *)

(** [struct pause_data]; [ts_start] and [ts_end] are zero when there is none. *)
Record pause_data := mk_pause { last_video_ts : Z; ts_start : Z; ts_end : Z; ts_offset : Z }.

(** [pause_reset]. *)
Definition pause_reset (p : pause_data) : pause_data := mk_pause 0 0 0 0.

(** A pointer into a block of audio. *)
Record plane := mk_plane { pl_block : list cell; pl_off : Z }.

(** [memcpy] from the pointer; [None] outside the block. *)
Definition plane_load (p : plane) (off n : Z) : option (list cell) := load (pl_block p) (pl_off p + off) n.

(** [struct audio_data]; [ad_data] holds the pointers before the first null one. *)
Record audio_data := mk_audio_data { ad_data : list plane; ad_frames : Z; ad_timestamp : Z }.

Definition sizeof_float : Z := 4.

(** [audio_frames_to_ns] and [ns_to_audio_frames] of media-io/audio-io.h; a rate of zero is
    a division by zero. *)
Definition audio_frames_to_ns (sample_rate frames : Z) : option Z := mul_div64 frames 1000000000 sample_rate.
Definition ns_to_audio_frames (sample_rate ns : Z) : Z := util_mul_div64 ns sample_rate 1000000000.

(** ** The checks *)

Section checks.
Implicit Types p : pause_data.

(** The result tells whether the frame is ignored. *)
Definition video_pause_check_internal p (ts : Z) : pause_data * bool :=
  let p := mk_pause ts (ts_start p) (ts_end p) (ts_offset p) in
  if ts_start p =? 0 then (p, false) else
  if ts =? ts_end p then (mk_pause ts 0 0 (ts_offset p), false) else
  (p, ts_start p <=? ts).

Definition video_pause_check p (timestamp : Z) : pause_data * bool := video_pause_check_internal p timestamp.

Definition pause_audio p (data : audio_data) (sample_rate : Z) : audio_data :=
  let cutoff_frames := ns_to_audio_frames sample_rate (u64 (ts_start p - ad_timestamp data)) in
  mk_audio_data (ad_data data) (u32 cutoff_frames) (ad_timestamp data).

Definition plane_advance (n : Z) (p : plane) : plane := mk_plane (pl_block p) (pl_off p + n).

Definition unpause_audio p (data : audio_data) (sample_rate : Z) : pause_data * audio_data :=
  let cutoff_frames := ns_to_audio_frames sample_rate (u64 (ts_end p - ad_timestamp data)) in
  (mk_pause (last_video_ts p) 0 0 (ts_offset p),
   mk_audio_data (plane_advance (cutoff_frames * sizeof_float) <$> ad_data data)
     (u32 (ad_frames data - u32 cutoff_frames)) (ts_start p)).

Definition audio_pause_check_internal p (data : audio_data) (sample_rate : Z) : option (pause_data * audio_data * bool) :=
  if ts_start p =? 0 then Some (p, data, false) else
  ns ← audio_frames_to_ns sample_rate (ad_frames data);
  let end_ts := u64 (ad_timestamp data + ns) in
  if ad_timestamp data <=? ts_start p then
    if ts_start p <=? end_ts then
      let data := pause_audio p data sample_rate in
      Some (p, data, ad_frames data =? 0)
    else Some (p, data, false)
  else if (ad_timestamp data <=? ts_end p) && (ts_end p <=? end_ts) then
    let '(p, data) := unpause_audio p data sample_rate in
    Some (p, data, ad_frames data =? 0)
  else Some (p, data, true).

Definition audio_pause_check p (data : audio_data) (sample_rate : Z) : option (pause_data * audio_data * bool) :=
  '(p, data, ignore_audio) ← audio_pause_check_internal p data sample_rate;
  Some (p, mk_audio_data (ad_data data) (ad_frames data) (u64 (ad_timestamp data - ts_offset p)), ignore_audio).

(** ** Setting the times: obs-output.c *)

Definition end_pause p (ts : Z) : pause_data :=
  if ts_end p =? 0 then mk_pause (last_video_ts p) (ts_start p) ts (u64 (ts_offset p + u64 (ts - ts_start p)))
  else p.

(** [interval] is [obs->video.video_frame_interval_ns], [now] what [os_gettime_ns] says;
    [None] is a division by zero. *)
Definition get_closest_v_ts p (interval now : Z) : option Z :=
  let i2 := u64 (interval * 2) in
  n ← checked_div (u64 (u64 (now - last_video_ts p) + i2)) interval;
  Some (u64 (last_video_ts p + u64 (n * interval))).

Definition pause_can_start p : bool := (ts_start p =? 0) && (ts_end p =? 0).
Definition pause_can_stop p : bool := negb (ts_start p =? 0) && (ts_end p =? 0).

Definition start_pause p (ts : Z) : pause_data := mk_pause (last_video_ts p) ts (ts_end p) (ts_offset p).

(** What [obs_encoded_output_pause] and [obs_raw_output_pause] do with one of the encoders,
    or the output. *)
Definition may_change (pause : bool) p : bool := if pause then pause_can_start p else pause_can_stop p.
Definition change_pause (pause : bool) (ts : Z) p : pause_data := if pause then start_pause p ts else end_pause p ts.

Definition obs_raw_output_pause p (interval now : Z) (pause : bool) : option (pause_data * bool) :=
  closest_v_ts ← get_closest_v_ts p interval now;
  Some (if may_change pause p then (change_pause pause closest_v_ts p, true) else (p, false)).
End checks.

(** ** Pausing an output *)

(** The encoders of an output: the [paused] flag and the state of the pause. *)
Record paused_encoder := mk_paused { pe_paused : bool; pe_pause : pause_data }.

Definition set_paused (pause : bool) (ts : Z) (e : paused_encoder) : paused_encoder :=
  mk_paused pause (change_pause pause ts (pe_pause e)).

(** The slots that are not null. *)
Definition present {A} (slots : list (option A)) : list A := omap (λ s, s) slots.

Definition all_may_change (pause : bool) (slots : list (option paused_encoder)) : bool :=
  forallb (λ e, may_change pause (pe_pause e)) (present slots).

Definition set_all_paused (pause : bool) (ts : Z) (slots : list (option paused_encoder)) : list (option paused_encoder) :=
  map (λ s, set_paused pause ts <$> s) slots.

Definition obs_encoded_output_pause (venc aenc : list (option paused_encoder)) (interval now : Z) (pause : bool) :
    option (list (option paused_encoder) * list (option paused_encoder) * bool) :=
  match present venc with
  | [] => Some (venc, aenc, false)
  | first_venc :: _ =>
      closest_v_ts ← get_closest_v_ts (pe_pause first_venc) interval now;
      if all_may_change pause venc && all_may_change pause aenc then
        Some (set_all_paused pause closest_v_ts venc, set_all_paused pause closest_v_ts aenc, true)
      else Some (venc, aenc, false)
  end.

(** What [obs_output_pause] looks at and changes of an output; [po_signals] are the signals
    sent, [true] for "pause". *)
Record pausing_output := mk_po {
  po_can_pause : bool;
  po_active : bool;
  po_encoded : bool;
  po_paused : bool;
  po_pause : pause_data;
  po_video : list (option paused_encoder);
  po_audio : list (option paused_encoder);
  po_signals : list bool
}.

Definition po_change (o : pausing_output) (interval now : Z) (pause : bool) : option (pausing_output * bool) :=
  if po_encoded o then
    '(venc, aenc, success) ← obs_encoded_output_pause (po_video o) (po_audio o) interval now pause;
    Some (mk_po (po_can_pause o) (po_active o) (po_encoded o) (po_paused o) (po_pause o) venc aenc (po_signals o), success)
  else
    '(p, success) ← obs_raw_output_pause (po_pause o) interval now pause;
    Some (mk_po (po_can_pause o) (po_active o) (po_encoded o) (po_paused o) p (po_video o) (po_audio o) (po_signals o), success).

Definition obs_output_pause (o : pausing_output) (interval now : Z) (pause : bool) : option (pausing_output * bool) :=
  if negb (po_can_pause o) then Some (o, false) else
  if negb (po_active o) then Some (o, false) else
  if bool_decide (po_paused o = pause) then Some (o, true) else
  '(o, success) ← po_change o interval now pause;
  if (success : bool) then
    Some (mk_po (po_can_pause o) (po_active o) (po_encoded o) pause (po_pause o) (po_video o) (po_audio o)
      (po_signals o ++ [pause]), true)
  else Some (o, false).
