(* ===== verification/PauseSync.v ===== *)
(** * What a pause leaves out

    A session of an output: its encoders receive the frames of the video clock, every one or,
    with a frame rate divisor, every second, third and so on, and blocks of the audio clock,
    each at its own pace, while the client pauses and resumes the output.
    The theorem is that the frames left out are those of the pauses, and that what is kept
    of the audio is as long as what is kept of the video, but for an encoder with a divisor
    that is not given the frame a pause ends at. *)

From S2P Require Import Prelude Util Encoder Deque Pause.

Local Open Scope Z_scope.

Section session.
(** The interval of frames, the sample rate, the most samples in a block of audio, and the
    times of the first frame and of the first sample, all in nanoseconds. *)
Context (interval rate block_max t0 a0 : Z).

Definition frame_time (n : Z) : Z := t0 + n * interval.

(** The time of the block that begins with sample [n], as the audio thread counts it. *)
Definition block_time (n : Z) : Z := a0 + (n * 1000000000) `div` rate.

(** An encoder with the number of frames or samples it has received, the times of the frames
    it has kept, and the ranges of samples. A video encoder is given every [vt_divisor]-th
    frame, from the first. *)
Record video_track := mk_vt { vt_divisor : Z; vt_enc : paused_encoder; vt_seen : Z; vt_kept : list Z }.
Record audio_track := mk_at { at_enc : paused_encoder; at_seen : Z; at_kept : list (Z * Z) }.

(** The pauses, the last one first; the end of one that goes on is [None]. *)
Record session := mk_session {
  vts : list video_track; ats : list audio_track; pauses : list (Z * option Z)
}.

Definition see_frame (v : video_track) : video_track :=
  let ts := frame_time (vt_divisor v * vt_seen v) in
  let '(p, ignore_frame) := video_pause_check (pe_pause (vt_enc v)) ts in
  mk_vt (vt_divisor v) (mk_paused (pe_paused (vt_enc v)) p) (vt_seen v + 1)
    (if ignore_frame then vt_kept v else vt_kept v ++ [ts]).

(** A block of [frames] samples of four bytes. *)
Definition see_block (a : audio_track) (frames : Z) : option audio_track :=
  let data := mk_audio_data [mk_plane [] 0] frames (block_time (at_seen a)) in
  '(p, data, ignore_audio) ← audio_pause_check (pe_pause (at_enc a)) data rate;
  let kept := match ad_data data with
    | pl :: _ => [(at_seen a + pl_off pl `div` sizeof_float, ad_frames data)] | [] => [] end in
  Some (mk_at (mk_paused (pe_paused (at_enc a)) p) (at_seen a + frames)
    (if (ignore_audio : bool) then at_kept a else at_kept a ++ kept)).

Inductive session_event :=
  | S_FRAME (i : nat)
  | S_AUDIO (j : nat) (frames : Z)
  | S_PAUSE (pause : bool) (now : Z).

(** The number of the frame of the clock after the last one received. *)
Definition after_last (v : video_track) : Z := vt_divisor v * (vt_seen v - 1) + 1.

(** The clock [now] against what has been received: no encoder is more than an interval
    ahead of it, and the first video encoder has had a frame, and none of the future. *)
Definition clock_ok (st : session) (now : Z) : bool :=
  (now <? 2 ^ 60) &&
  forallb (λ v, frame_time (after_last v) <=? now + interval) (vts st) &&
  forallb (λ a, block_time (at_seen a) <=? now + interval) (ats st) &&
  match vts st with
  | v :: _ => (1 <=? vt_seen v) && (frame_time (vt_divisor v * (vt_seen v - 1)) <=? now)
  | [] => false
  end.

(** A pause lasts longer than a block of audio. *)
Definition long_enough (s e : Z) : bool := (block_max * 1000000000) `div` rate + 1 <? e - s.

Definition note_pause (ps : list (Z * option Z)) (pause : bool) (ts : Z) : option (list (Z * option Z)) :=
  if pause then Some ((ts, None) :: ps)
  else match ps with
       | (s, _) :: ps => if long_enough s ts then Some ((s, Some ts) :: ps) else None
       | [] => None
       end.

Definition set_vt (v : video_track) (e : paused_encoder) : video_track := mk_vt (vt_divisor v) e (vt_seen v) (vt_kept v).
Definition set_at (a : audio_track) (e : paused_encoder) : audio_track := mk_at e (at_seen a) (at_kept a).

Definition do_pause (st : session) (pause : bool) (now : Z) : option session :=
  first ← head (vts st);
  ts ← get_closest_v_ts (pe_pause (vt_enc first)) interval now;
  '(venc, aenc, success) ← obs_encoded_output_pause (map (Some ∘ vt_enc) (vts st)) (map (Some ∘ at_enc) (ats st))
    interval now pause;
  if (success : bool) then
    ps ← note_pause (pauses st) pause ts;
    Some (mk_session (zip_with set_vt (vts st) (present venc)) (zip_with set_at (ats st) (present aenc)) ps)
  else Some st.

Definition session_step (st : session) (ev : session_event) : option session :=
  match ev with
  | S_FRAME i =>
      v ← vts st !! i;
      if frame_time (vt_divisor v * vt_seen v) <? 2 ^ 61 then Some (mk_session (<[i := see_frame v]> (vts st)) (ats st) (pauses st))
      else None
  | S_AUDIO j frames =>
      a ← ats st !! j;
      if (0 <? frames) && (frames <=? block_max) && (block_time (at_seen a + frames) <? 2 ^ 61) then
        a' ← see_block a frames;
        Some (mk_session (vts st) (<[j := a']> (ats st)) (pauses st))
      else None
  | S_PAUSE pause now => if clock_ok st now then do_pause st pause now else None
  end.

Fixpoint session_run (st : session) (evs : list session_event) : option session :=
  match evs with
  | [] => Some st
  | ev :: evs => st ← session_step st ev; session_run st evs
  end.

(** A video encoder for each divisor and [na] audio encoders that have just been started. *)
Definition new_encoder : paused_encoder := mk_paused false (pause_reset (mk_pause 0 0 0 0)).
Definition session_start (divisors : list Z) (na : nat) : session :=
  mk_session (map (λ d, mk_vt d new_encoder 0 []) divisors) (replicate na (mk_at new_encoder 0 [])) [].

(** ** The specification *)

(** Whether a time lies in a pause. *)
Definition within (t : Z) (q : Z * option Z) : bool :=
  (q.1 <=? t) && match q.2 with Some e => t <? e | None => true end.
Definition in_pause (ps : list (Z * option Z)) (t : Z) : bool := existsb (within t) ps.

(** How much of the time before [t] a pause takes, and how much is left. *)
Definition overlap (t : Z) (q : Z * option Z) : Z :=
  Z.max 0 (match q.2 with Some e => Z.min t e | None => t end - q.1).
Definition lost_time (ps : list (Z * option Z)) (t : Z) : Z := foldr (λ q s, overlap t q + s) 0 ps.
Definition active_time (ps : list (Z * option Z)) (t : Z) : Z := t - lost_time ps t.

Definition kept_samples (l : list (Z * Z)) : Z := foldr (λ r s, r.2 + s) 0 l.

(** An encoder of every [d]-th frame is given the frame of that time. *)
Definition seen_by (d t : Z) : Prop := ∃ k, t = frame_time (d * k).

(** Each pause ends, or begins, at a frame the encoder is given. *)
Definition ends_seen (d : Z) (ps : list (Z * option Z)) : Prop :=
  Forall (λ q, match q.2 with Some e => seen_by d e | None => True end) ps.
Definition starts_seen (d : Z) (ps : list (Z * option Z)) : Prop := Forall (λ q, seen_by d q.1) ps.

(** ** Invariant *)

Hypothesis interval_range : 0 < interval < 2 ^ 40.
Hypothesis rate_range : 0 < rate < 2 ^ 20.
Hypothesis block_range : 0 < block_max < 2 ^ 31.
Hypothesis starts : 0 < t0 < 2 ^ 60 ∧ 0 < a0 < 2 ^ 60.

Definition on_grid (t : Z) : Prop := ∃ k, t = frame_time k.

(** The pauses that are over. *)
Definition done_before (ps : list (Z * option Z)) (t : Z) : Prop :=
  Forall (λ q, ∃ e, q.2 = Some e ∧ q.1 ≤ e ≤ t) ps.

Definition total (ps : list (Z * option Z)) : Z :=
  foldr (λ q s, match q.2 with Some e => e - q.1 | None => 0 end + s) 0 ps.

Fixpoint pauses_ok (ps : list (Z * option Z)) : Prop :=
  match ps with
  | [] => True
  | (s, oe) :: ps =>
      on_grid s ∧ t0 < s < 2 ^ 61 ∧ done_before ps s ∧ pauses_ok ps ∧
      match oe with Some e => on_grid e ∧ s < e < 2 ^ 61 ∧ long_enough s e = true | None => True end
  end.

(** Where an encoder that receives what comes at [t] is. *)
Inductive phase (p : pause_data) (ps : list (Z * option Z)) (t : Z) : Prop :=
  | running : ts_start p = 0 → ts_end p = 0 → done_before ps t → phase p ps t
  | pausing s oe ps' : ps = (s, oe) :: ps' → ts_start p = s → ts_end p = default 0 oe → done_before ps' t →
      match oe with Some e => t ≤ e | None => True end → phase p ps t.

Lemma done_mono ps t t' : t ≤ t' → done_before ps t → done_before ps t'.
Proof. intros Ht Hd. eapply Forall_impl; [exact Hd|]. intros q (e & E & H). exists e. split; [done|lia]. Qed.

Lemma lost_done ps t : done_before ps t → lost_time ps t = total ps.
Proof.
  induction 1 as [|[s oe] ps (e & E & H) Hps IH]; [done|]. cbn in E, H. subst oe.
  unfold lost_time, total in *. cbn. rewrite IH. unfold overlap. cbn. lia.
Qed.

Lemma in_pause_done ps t : done_before ps t → in_pause ps t = false.
Proof.
  induction 1 as [|[s oe] ps (e & E & H) Hps IH]; [done|]. cbn in E, H. subst oe.
  unfold in_pause in *. cbn [existsb]. rewrite IH. unfold within. cbn.
  destruct (Z.ltb_spec t e); [lia|]. by rewrite andb_false_r.
Qed.

Lemma total_le ps t : pauses_ok ps → done_before ps t → t0 ≤ t → 0 ≤ total ps ≤ t - t0.
Proof.
  revert t. induction ps as [|[s oe] ps IH]; intros t Hok Hd Ht; [cbn; lia|].
  destruct Hok as (_ & Hs & Hds & Hok & _). inversion_clear Hd as [|?? (e & E & H) Hd']. cbn in E, H. subst oe.
  specialize (IH s Hok Hds ltac:(lia)). unfold total in *. cbn [foldr]. cbn. lia.
Qed.

Lemma frame_time_succ n : frame_time (n + 1) = frame_time n + interval.
Proof. unfold frame_time. lia. Qed.

(** Two times of frames are at least an interval apart, those of every [d]-th one [d]. *)
Lemma grid_step n t : on_grid t → frame_time n < t → frame_time (n + 1) ≤ t.
Proof. intros [k ->]. unfold frame_time. intros H. assert (n < k) by nia. nia. Qed.

Lemma seen_step d n t : 1 ≤ d → seen_by d t → frame_time (d * (n - 1)) < t → frame_time (d * n) ≤ t.
Proof. intros Hd [k ->]. unfold frame_time. intros H. assert (d * (n - 1) < d * k) by nia. assert (n - 1 < k) by nia. nia. Qed.

Lemma seen_every t : on_grid t → seen_by 1 t.
Proof. intros [k ->]. exists k. by rewrite Z.mul_1_l. Qed.

(** The time chosen is that of a frame, more than one interval ahead. *)
Lemma closest_ahead p n now : last_video_ts p = frame_time n → 0 ≤ n → frame_time n ≤ now < 2 ^ 60 →
  ∃ c, get_closest_v_ts p interval now = Some c ∧ on_grid c ∧ now + interval < c ≤ now + 2 * interval.
Proof.
  intros El Hn Hnow. unfold get_closest_v_ts. rewrite El.
  assert (0 < frame_time n) by (unfold frame_time; nia).
  rewrite (u64_small (interval * 2)), (u64_small (now - _)), (u64_small (now - _ + _)), checked_div_some by lia.
  cbn [mbind option_bind]. set (q := (now - frame_time n + interval * 2) `div` interval).
  assert (now - frame_time n + interval < q * interval ≤ now - frame_time n + interval * 2) as Hq.
  { unfold q. pose proof (Z.div_mod (now - frame_time n + interval * 2) interval ltac:(lia)).
    pose proof (Z.mod_pos_bound (now - frame_time n + interval * 2) interval ltac:(lia)). lia. }
  rewrite (u64_small (q * interval)), u64_small by lia. eexists. split; [done|]. split; [|lia].
  exists (n + q). unfold frame_time. lia.
Qed.

(** ** A frame *)

Lemma active_done ps t : done_before ps t → active_time ps t = t - total ps.
Proof. intros H. unfold active_time. by rewrite lost_done. Qed.

Lemma active_cons q ps t : active_time (q :: ps) t = active_time ps t - overlap t q.
Proof. unfold active_time, lost_time. cbn. lia. Qed.

Lemma next_frame d n : 1 ≤ d → frame_time (d * (n - 1) + 1) ≤ frame_time (d * n).
Proof. unfold frame_time. nia. Qed.

(** The frame at the end of the pause is not one of the encoder. *)
Definition stuck (d : Z) (p : pause_data) (ps : list (Z * option Z)) : Prop :=
  ∃ s e ps', ps = (s, Some e) :: ps' ∧ ts_start p = s ∧ ts_end p = e ∧ ¬ seen_by d e.

(** Where a pause that [p] is in lies; [n] is the number of frames received. *)
Lemma pausing_before d n p ps s oe : 1 ≤ d → 0 ≤ n → ps = (s, oe) :: tail ps → pauses_ok ps → ts_end p = default 0 oe →
  match oe with Some e => frame_time (d * (n - 1) + 1) ≤ e | None => True end → done_before (tail ps) (frame_time (d * n)) →
  in_pause ps (frame_time (d * n)) = (s <=? frame_time (d * n)) && match oe with Some e => frame_time (d * n) <? e | None => true end ∧
  0 < s ∧ match oe with Some e => on_grid e ∧ s < e ∧ (seen_by d e → frame_time (d * n) ≤ e) | None => True end.
Proof.
  intros Hd Hn -> Hok Ee Hoe Hdone. cbn [tail] in *. destruct Hok as (_ & Hs & _ & _ & Hoe').
  split_and!; [|lia|].
  - unfold in_pause. cbn [existsb]. pose proof (in_pause_done (tail ps) _ Hdone) as E. unfold in_pause in E. rewrite E.
    by rewrite orb_false_r.
  - destruct oe as [e|]; [|done]. destruct Hoe' as (Hg & Hse & _). split_and!; [done|lia|]. intros Hse'.
    apply (seen_step d n e Hd Hse'). unfold frame_time in *. nia.
Qed.

(** The check ignores the frames of the pauses, and only them, unless it misses the end of
    one. *)
Lemma frame_checked d p ps n : 1 ≤ d → pauses_ok ps → phase p ps (frame_time (d * (n - 1) + 1)) → 0 ≤ n →
  ∃ p' ign, video_pause_check p (frame_time (d * n)) = (p', ign) ∧ ts_offset p' = ts_offset p ∧
    last_video_ts p' = frame_time (d * n) ∧
    (stuck d p' ps ∨ ign = in_pause ps (frame_time (d * n)) ∧ phase p' ps (frame_time (d * n + 1))).
Proof.
  intros Hd Hok Hp Hn. pose proof (next_frame d n Hd) as Hu. pose proof (frame_time_succ (d * n)) as Hnext.
  set (t := frame_time (d * n)) in *. assert (0 < t) by (unfold t, frame_time; nia).
  unfold video_pause_check, video_pause_check_internal. cbn [ts_start ts_end ts_offset last_video_ts].
  destruct Hp as [Es Ee Hdone|s oe ps' -> Es Ee Hdone Hoe]; rewrite Es.
  - rewrite Z.eqb_refl, (in_pause_done ps t) by (by eapply done_mono). do 2 eexists. split; [reflexivity|]. split_and!; [done..|].
    right. split; [done|]. apply running; cbn; [done|done|]. eapply done_mono; [|exact Hdone]. lia.
  - pose proof (done_mono ps' (frame_time (d * (n - 1) + 1)) t ltac:(lia) Hdone) as Hdt. pose proof (done_mono ps' (frame_time (d * (n - 1) + 1)) (frame_time (d * n + 1)) ltac:(lia) Hdone) as Hdt'.
    destruct (pausing_before d n p ((s, oe) :: ps') s oe) as (Hin & Hs & Hoe'); [done..|]. fold t in Hin, Hoe'. rewrite Hin.
    rewrite (proj2 (Z.eqb_neq s 0)), Ee by lia. destruct oe as [e|]; cbn [from_option id].
    + destruct Hoe' as (Hge & Hse & Hseen). destruct (Z.eqb_spec t e) as [->|N].
      * rewrite Z.ltb_irrefl, andb_false_r. do 2 eexists. split; [reflexivity|]. split_and!; [done..|]. right. split; [done|].
        apply running; [done|done|]. constructor; [|done]. exists e. split; [done|cbn; lia].
      * destruct (Z.ltb_spec t e) as [Hlt|Hge'].
        -- rewrite andb_true_r. do 2 eexists. split; [reflexivity|]. split_and!; [done..|]. right. split; [done|].
           apply (pausing _ _ _ s (Some e) ps'); [done..|]. by apply (grid_step (d * n)).
        -- do 2 eexists. split; [reflexivity|]. split_and!; [done..|]. left. exists s, e, ps'. split_and!; [done..|].
           intros Hsb. specialize (Hseen Hsb). lia.
    + rewrite (proj2 (Z.eqb_neq t 0)), andb_true_r by lia. do 2 eexists. split; [reflexivity|]. split_and!; [done..|].
      right. split; [done|]. by apply (pausing _ _ _ s None ps').
Qed.

(** It goes on ignoring them. *)
Lemma frame_stuck d p ps n : stuck d p ps → pauses_ok ps →
  ∃ p' ign, video_pause_check p (frame_time (d * n)) = (p', ign) ∧ last_video_ts p' = frame_time (d * n) ∧ stuck d p' ps.
Proof.
  intros (s & e & ps' & -> & Es & Ee & Hn) (_ & Hs & _). unfold video_pause_check, video_pause_check_internal.
  cbn [ts_start ts_end ts_offset]. rewrite (proj2 (Z.eqb_neq (ts_start p) 0)), (proj2 (Z.eqb_neq _ (ts_end p))).
  - do 2 eexists. split; [reflexivity|]. split; [done|]. by exists s, e, ps'.
  - intros E. apply Hn. exists n. congruence.
  - lia.
Qed.

(** How much time is in no pause, from one frame to the next. *)
Lemma active_checked d p ps n : 1 ≤ d → pauses_ok ps → phase p ps (frame_time (d * (n - 1) + 1)) → 0 ≤ n →
  ends_seen d ps → starts_seen d ps →
  active_time ps (frame_time (d * (n + 1))) =
    active_time ps (frame_time (d * n)) + if in_pause ps (frame_time (d * n)) then 0 else d * interval.
Proof.
  intros Hd Hok Hp Hn Hends Hstarts. pose proof (next_frame d n Hd) as Hu.
  assert (frame_time (d * (n + 1)) = frame_time (d * n) + d * interval) as E1 by (unfold frame_time; lia).
  pose proof (λ t H, seen_step d (n + 1) t Hd H) as Hstep. rewrite Z.add_simpl_r, E1 in Hstep. rewrite E1.
  set (t := frame_time (d * n)) in *. assert (0 < d * interval) by nia.
  destruct Hp as [Es Ee Hdone|s oe ps' -> Es Ee Hdone Hoe].
  - pose proof (done_mono ps (frame_time (d * (n - 1) + 1)) t ltac:(lia) Hdone) as Hdt. rewrite (in_pause_done ps t) by done.
    rewrite !active_done; [lia|done|]. by apply (done_mono _ t); [lia|].
  - pose proof (done_mono ps' (frame_time (d * (n - 1) + 1)) t ltac:(lia) Hdone) as Hdt.
    destruct (pausing_before d n p ((s, oe) :: ps') s oe) as (Hin & Hs & Hoe'); [done..|]. fold t in Hin, Hoe'. rewrite Hin.
    apply Forall_cons in Hends as [He _]. apply Forall_cons in Hstarts as [Hst _]. cbn in He, Hst.
    rewrite !active_cons, !active_done by (done || by apply (done_mono _ t); [lia|]). unfold overlap. cbn [fst snd].
    destruct oe as [e|].
    + destruct Hoe' as (_ & Hse & Hseen). specialize (Hseen He).
      destruct (Z.leb_spec s t), (Z.ltb_spec t e); cbn [andb]; try lia.
      * specialize (Hstep e He ltac:(lia)). lia.
      * specialize (Hstep s Hst ltac:(lia)). lia.
    + destruct (Z.leb_spec s t); cbn [andb]; [lia|]. specialize (Hstep s Hst ltac:(lia)). lia.
Qed.

(** What is true of a video encoder that has not missed the end of a pause: it has kept the
    frames that are in no pause, and they last as long as the time that is in none. *)
Record video_kept ps (v : video_track) : Prop := {
  vk_phase : phase (pe_pause (vt_enc v)) ps (frame_time (after_last v));
  vk_offset : ts_offset (pe_pause (vt_enc v)) = total ps;
  vk_kept : vt_kept v =
    filter (λ t, in_pause ps t = false) ((λ k, frame_time (vt_divisor v * k)) <$> seqZ 0 (vt_seen v));
  vk_length : ends_seen (vt_divisor v) ps → starts_seen (vt_divisor v) ps →
    zlen (vt_kept v) * (vt_divisor v * interval) = active_time ps (frame_time (vt_divisor v * vt_seen v)) - t0
}.

Record video_ok ps (v : video_track) : Prop := {
  vo_divisor : 1 ≤ vt_divisor v;
  vo_seen : 0 ≤ vt_seen v;
  vo_last : 0 < vt_seen v → last_video_ts (pe_pause (vt_enc v)) = frame_time (vt_divisor v * (vt_seen v - 1));
  vo_state : stuck (vt_divisor v) (pe_pause (vt_enc v)) ps ∨ video_kept ps v
}.

Lemma frame_ok ps v : pauses_ok ps → video_ok ps v → video_ok ps (see_frame v).
Proof.
  intros Hok [Hd Hs Hl [Hst|[Hp Ho Hk Hn]]]; unfold see_frame.
  - destruct (frame_stuck _ _ _ (vt_seen v) Hst Hok) as (p' & ign & E & Hl' & Hst'). rewrite E.
    constructor; cbn [vt_divisor vt_seen vt_enc vt_kept pe_pause]; [done|lia| |by left]. intros _. by rewrite Z.add_simpl_r.
  - destruct (frame_checked _ _ _ _ Hd Hok Hp Hs) as (p' & ign & E & Ho' & Hl' & Hcase). rewrite E.
    constructor; cbn [vt_divisor vt_seen vt_enc vt_kept pe_pause]; [done|lia|intros _; by rewrite Z.add_simpl_r|].
    destruct Hcase as [?|[-> Hp']]; [by left|right].
    constructor; cbn [vt_divisor vt_seen vt_enc vt_kept pe_pause]; [|congruence| |].
    + unfold after_last. cbn [vt_divisor vt_seen]. by rewrite Z.add_simpl_r.
    + rewrite seqZ_app, fmap_app, filter_app, <- Hk, Z.add_0_l by lia. change (seqZ (vt_seen v) 1) with [Z.of_nat 0 + vt_seen v].
      rewrite Z.add_0_l. cbn [fmap list_fmap]. rewrite filter_cons, filter_nil.
      destruct (in_pause ps (frame_time (vt_divisor v * vt_seen v))); [by rewrite app_nil_r|done].
    + intros He Hst. rewrite (active_checked _ _ _ _ Hd Hok Hp Hs He Hst). specialize (Hn He Hst).
      destruct (in_pause ps (frame_time (vt_divisor v * vt_seen v))); [lia|].
      rewrite zlen_app. change (zlen [frame_time (vt_divisor v * vt_seen v)]) with 1. lia.
Qed.

(** ** A block of audio *)

Lemma block_time_bounds n : n * 1000000000 - rate < (block_time n - a0) * rate ≤ n * 1000000000.
Proof.
  unfold block_time. pose proof (Z.div_mod (n * 1000000000) rate ltac:(lia)).
  pose proof (Z.mod_pos_bound (n * 1000000000) rate ltac:(lia)). lia.
Qed.

(** The duration of a block, as the check computes it. *)
Definition block_ns (f : Z) : Z := (f * 1000000000) `div` rate.

Lemma block_ns_computed f : 0 ≤ f < 2 ^ 31 → audio_frames_to_ns rate f = Some (block_ns f) ∧ 0 ≤ block_ns f < 2 ^ 61.
Proof.
  intros. assert (0 ≤ block_ns f < 2 ^ 61) as Hb.
  { unfold block_ns. split; [apply Z.div_pos; lia|]. apply Z.div_lt_upper_bound; nia. }
  unfold audio_frames_to_ns. rewrite mul_div64_some, util_mul_div64_exact by (unfold block_ns in *; lia). done.
Qed.

Lemma block_time_end n f : block_time n + block_ns f ≤ block_time (n + f) ≤ block_time n + block_ns f + 1.
Proof.
  unfold block_time, block_ns. pose proof (Z.div_mod (n * 1000000000) rate ltac:(lia)).
  pose proof (Z.mod_pos_bound (n * 1000000000) rate ltac:(lia)).
  pose proof (Z.div_mod (f * 1000000000) rate ltac:(lia)).
  pose proof (Z.mod_pos_bound (f * 1000000000) rate ltac:(lia)).
  pose proof (Z.div_mod ((n + f) * 1000000000) rate ltac:(lia)).
  pose proof (Z.mod_pos_bound ((n + f) * 1000000000) rate ltac:(lia)). nia.
Qed.

(** The samples of [d] nanoseconds: how many the checks cut. *)
Definition samples_of (d : Z) : Z := (d * rate) `div` 1000000000.

Lemma samples_computed d : 0 ≤ d < 2 ^ 61 → ns_to_audio_frames rate d = samples_of d ∧ 0 ≤ samples_of d.
Proof.
  intros. assert (0 ≤ samples_of d < 2 ^ 64).
  { unfold samples_of. split; [apply Z.div_pos; nia|]. apply Z.div_lt_upper_bound; nia. }
  unfold ns_to_audio_frames. rewrite util_mul_div64_exact by (unfold samples_of in *; lia). unfold samples_of in *. lia.
Qed.

Lemma samples_bounds d : d * rate - 1000000000 < samples_of d * 1000000000 ≤ d * rate.
Proof.
  unfold samples_of. pose proof (Z.div_mod (d * rate) 1000000000 ltac:(lia)).
  pose proof (Z.mod_pos_bound (d * rate) 1000000000 ltac:(lia)). lia.
Qed.

Lemma samples_le d f : 0 ≤ f → d ≤ block_ns f → samples_of d ≤ f.
Proof.
  intros Hf Hd. pose proof (samples_bounds d).
  assert (block_ns f * rate ≤ f * 1000000000).
  { unfold block_ns. pose proof (Z.div_mod (f * 1000000000) rate ltac:(lia)).
    pose proof (Z.mod_pos_bound (f * 1000000000) rate ltac:(lia)). lia. }
  nia.
Qed.

(** The cut at [x] in the block that begins with sample [n] is within a sample of [x]. *)
Lemma cut_bounds n x : (x - a0) * rate - 1000000000 < (n + samples_of (x - block_time n)) * 1000000000 < (x - a0) * rate + rate.
Proof. pose proof (samples_bounds (x - block_time n)). pose proof (block_time_bounds n). lia. Qed.

(** How far the samples kept are from the time that is in no pause. *)
Definition audio_error ps (n kept : Z) (p : pause_data) : Prop :=
  let off := total (if decide (ts_start p = 0) then ps else tail ps) in
  let m := if decide (ts_start p = 0) then zlen ps else zlen (tail ps) in
  if decide (ts_start p = 0) then Z.abs (kept * 1000000000 - (n * 1000000000 - rate * off)) ≤ 2000000000 * m
  else if decide (block_time n < ts_start p) then
    Z.abs (kept * 1000000000 - (n * 1000000000 - rate * off)) ≤ 2000000000 * m
  else Z.abs (kept * 1000000000 - rate * (ts_start p - a0 - off)) ≤ 2000000000 * m + 1000000000.

Record audio_ok ps (a : audio_track) : Prop := {
  ao_seen : 0 ≤ at_seen a;
  ao_phase : phase (pe_pause (at_enc a)) ps (block_time (at_seen a));
  ao_offset : ts_offset (pe_pause (at_enc a)) = total ps;
  ao_error : audio_error ps (at_seen a) (kept_samples (at_kept a)) (pe_pause (at_enc a))
}.

Lemma kept_samples_snoc l r : kept_samples (l ++ [r]) = kept_samples l + r.2.
Proof. induction l as [|q l IH]; cbn in *; unfold kept_samples in *; cbn; lia. Qed.

(** What the check does with a block: it lies before the start of the pause, reaches it, lies
    in the pause, or reaches its end. *)
Section block.
Context (p : pause_data) (n f : Z).
Hypothesis block : 0 ≤ n ∧ 0 < f ≤ block_max ∧ block_time (n + f) < 2 ^ 61.

#[local] Abbreviation T := (block_time n).
#[local] Abbreviation data := (mk_audio_data [mk_plane [] 0] f T).

Lemma block_times : 0 < T ∧ 0 ≤ block_ns f ∧ T + block_ns f ≤ block_time (n + f) < 2 ^ 61 ∧
  block_time (n + f) ≤ T + block_ns f + 1.
Proof.
  pose proof (block_time_end n f). destruct (block_ns_computed f ltac:(lia)) as [_ Hb]. split_and!; try lia.
  unfold block_time. pose proof (Z.div_pos (n * 1000000000) rate ltac:(lia) ltac:(lia)). lia.
Qed.

Lemma check_free : ts_start p = 0 →
  audio_pause_check_internal p data rate = Some (p, data, false).
Proof. intros E. unfold audio_pause_check_internal. by rewrite E. Qed.

Lemma check_end_ts : ts_start p ≠ 0 → audio_pause_check_internal p data rate =
  let d := data in
  if T <=? ts_start p then
    if ts_start p <=? T + block_ns f then
      Some (p, pause_audio p d rate, ad_frames (pause_audio p d rate) =? 0) else Some (p, d, false)
  else if (T <=? ts_end p) && (ts_end p <=? T + block_ns f) then
    Some ((unpause_audio p d rate).1, (unpause_audio p d rate).2, ad_frames (unpause_audio p d rate).2 =? 0)
  else Some (p, d, true).
Proof.
  intros E. unfold audio_pause_check_internal. rewrite (proj2 (Z.eqb_neq _ _) E). pose proof block_times.
  destruct (block_ns_computed f ltac:(lia)) as [Ef _]. cbn [ad_frames ad_timestamp]. rewrite Ef.
  cbn [mbind option_bind]. by rewrite u64_small by lia.
Qed.

Lemma check_start : ts_start p ≠ 0 → T ≤ ts_start p ≤ T + block_ns f →
  ∃ d, audio_pause_check_internal p data rate = Some (p, d, ad_frames d =? 0) ∧
    ad_frames d = samples_of (ts_start p - T) ∧ ad_data d = [mk_plane [] 0].
Proof.
  intros E H. rewrite check_end_ts by done. cbn zeta. rewrite !(proj2 (Z.leb_le _ _)) by lia.
  eexists. split; [reflexivity|]. cbn [pause_audio ad_frames ad_data]. split; [|done]. pose proof block_times.
  cbn [ad_timestamp]. rewrite u64_small by lia. destruct (samples_computed (ts_start p - T) ltac:(lia)) as [-> Hn].
  pose proof (samples_le (ts_start p - T) f ltac:(lia) ltac:(lia)). by rewrite u32_small by lia.
Qed.

Lemma check_end : ts_start p ≠ 0 → ts_start p < T → T ≤ ts_end p ≤ T + block_ns f →
  ∃ d, audio_pause_check_internal p data rate =
      Some (mk_pause (last_video_ts p) 0 0 (ts_offset p), d, ad_frames d =? 0) ∧
    ad_frames d = f - samples_of (ts_end p - T) ∧ ad_data d = [mk_plane [] (samples_of (ts_end p - T) * sizeof_float)].
Proof.
  intros E Hs He. rewrite check_end_ts by done. cbn zeta. rewrite (proj2 (Z.leb_gt _ _)), !(proj2 (Z.leb_le _ _)) by lia.
  pose proof block_times. destruct (samples_computed (ts_end p - T) ltac:(lia)) as [En Hn].
  pose proof (samples_le (ts_end p - T) f ltac:(lia) ltac:(lia)).
  eexists. split; [reflexivity|]. cbn [unpause_audio ad_frames ad_data ad_timestamp snd].
  rewrite (u64_small (ts_end p - T)), En, (u32_small (samples_of _)), u32_small by lia. done.
Qed.

End block.

(** What the encoder keeps of a block, from what the check says. *)
Lemma see_block_eq a f p d (ign : bool) o :
  audio_pause_check_internal (pe_pause (at_enc a)) (mk_audio_data [mk_plane [] 0] f (block_time (at_seen a))) rate = Some (p, d, ign) →
  ad_data d = [mk_plane [] o] →
  see_block a f = Some (mk_at (mk_paused (pe_paused (at_enc a)) p) (at_seen a + f)
    (if ign then at_kept a else at_kept a ++ [(at_seen a + o `div` sizeof_float, ad_frames d)])).
Proof. intros E Ed. unfold see_block, audio_pause_check. rewrite E. cbn. by rewrite Ed. Qed.

Lemma kept_after l r (ign : bool) :
  kept_samples (if ign then l else l ++ [r]) = kept_samples l + if ign then 0 else r.2.
Proof. destruct ign; [lia|apply kept_samples_snoc]. Qed.

(** The error of an encoder that is in a pause, or at its edges. *)
Lemma error_running ps n k p : ts_start p = 0 →
  audio_error ps n k p ↔ Z.abs (k * 1000000000 - (n * 1000000000 - rate * total ps)) ≤ 2000000000 * zlen ps.
Proof. intros E. unfold audio_error. by rewrite E. Qed.

Lemma error_before ps q n k p : ts_start p ≠ 0 → block_time n < ts_start p →
  audio_error (q :: ps) n k p ↔ Z.abs (k * 1000000000 - (n * 1000000000 - rate * total ps)) ≤ 2000000000 * zlen ps.
Proof. intros E H. unfold audio_error. destruct (decide (ts_start p = 0)); [done|]. by case_decide. Qed.

Lemma error_inside ps q n k p : ts_start p ≠ 0 → ts_start p ≤ block_time n →
  audio_error (q :: ps) n k p ↔
  Z.abs (k * 1000000000 - rate * (ts_start p - a0 - total ps)) ≤ 2000000000 * zlen ps + 1000000000.
Proof. intros E H. unfold audio_error. destruct (decide (ts_start p = 0)); [done|]. case_decide; [lia|done]. Qed.

(** A block that does not touch the edges of a pause. *)
Lemma error_passes ps n f k p s oe ps' : ts_start p = s → s ≠ 0 → ps = (s, oe) :: ps' → 0 ≤ f →
  block_time (n + f) ≤ s → block_time n < s → audio_error ps n k p → audio_error ps (n + f) (k + f) p.
Proof.
  intros E Hs -> Hf Ht Hn He. rewrite error_before in He by lia. pose proof (block_time_bounds (n + f)).
  destruct (decide (block_time (n + f) < s)); [rewrite error_before by lia; lia|].
  rewrite error_inside, E by lia. assert (block_time (n + f) = s) by lia. subst s. nia.
Qed.

(** A block that reaches the start of a pause: what is before it is kept. *)
Lemma error_cut ps n f k p s oe ps' : ts_start p = s → s ≠ 0 → ps = (s, oe) :: ps' →
  block_time n ≤ s ≤ block_time (n + f) → audio_error ps n k p →
  audio_error ps (n + f) (k + samples_of (s - block_time n)) p.
Proof.
  intros E Hs -> Ht He. rewrite error_inside, E by lia. pose proof (cut_bounds n s).
  destruct (decide (block_time n < s)); [rewrite error_before in He by lia; nia|].
  rewrite error_inside, E in He by lia. assert (block_time n = s) as -> by lia.
  rewrite Z.sub_diag. change (samples_of 0) with 0. lia.
Qed.

(** A block that reaches the end of a pause: what is after it is kept. *)
Lemma error_resume ps n f k p p' s e ps' : ts_start p = s → s ≠ 0 → ps = (s, Some e) :: ps' → ts_start p' = 0 →
  s ≤ block_time n → audio_error ps n k p →
  audio_error ps (n + f) (k + (f - samples_of (e - block_time n))) p'.
Proof.
  intros E Hs -> E' Ht He. rewrite error_running by done. rewrite error_inside, E in He by lia.
  pose proof (cut_bounds n e). rewrite zlen_cons. change (total ((s, Some e) :: ps')) with (e - s + total ps'). nia.
Qed.

Lemma error_ignored ps n f k p s oe ps' : ts_start p = s → s ≠ 0 → ps = (s, oe) :: ps' →
  s ≤ block_time n ≤ block_time (n + f) → audio_error ps n k p → audio_error ps (n + f) k p.
Proof. intros E Hs -> Ht He. rewrite error_inside in He by lia. by rewrite error_inside by lia. Qed.

Lemma long_enough_block s e n f : long_enough s e = true → 0 < f ≤ block_max → block_time n ≤ s → block_time (n + f) < e.
Proof.
  unfold long_enough. intros H Hf Hn. apply Z.ltb_lt in H. pose proof (block_time_end n f).
  assert (block_ns f ≤ (block_max * 1000000000) `div` rate) by (unfold block_ns; apply Z.div_le_mono; lia). lia.
Qed.

(** The result of the check, with what is kept counted. *)
Definition seen_block ps (a : audio_track) (f : Z) : Prop :=
  ∃ a', see_block a f = Some a' ∧ audio_ok ps a'.

Lemma seen_intro ps a f p d (ign : bool) o : audio_ok ps a → 0 < f →
  audio_pause_check_internal (pe_pause (at_enc a)) (mk_audio_data [mk_plane [] 0] f (block_time (at_seen a))) rate = Some (p, d, ign) →
  ad_data d = [mk_plane [] o] →
  ts_offset p = ts_offset (pe_pause (at_enc a)) → phase p ps (block_time (at_seen a + f)) →
  audio_error ps (at_seen a + f) (kept_samples (at_kept a) + if ign then 0 else ad_frames d) p → seen_block ps a f.
Proof.
  intros Ha Hf E Ed Ho Hp He. pose proof (ao_seen _ _ Ha). pose proof (ao_offset _ _ Ha). eexists. split; [by eapply see_block_eq|].
  constructor; cbn [at_seen at_enc at_kept pe_pause]; [lia|done|congruence|].
  by rewrite kept_after.
Qed.

Lemma kept_zero z : (if z =? 0 then 0 else z) = z.
Proof. destruct (Z.eqb_spec z 0); lia. Qed.

Lemma block_in_pause ps a f s oe ps' : pauses_ok ps → audio_ok ps a → ps = (s, oe) :: ps' →
  ts_start (pe_pause (at_enc a)) = s → ts_end (pe_pause (at_enc a)) = default 0 oe →
  done_before ps' (block_time (at_seen a)) → match oe with Some e => block_time (at_seen a) ≤ e | None => True end →
  0 < f ≤ block_max → block_time (at_seen a + f) < 2 ^ 61 → seen_block ps a f.
Proof.
  intros Hok Ha -> Es Ee Hd Hoe Hf Hb. pose proof (ao_seen _ _ Ha) as Hn.
  set (p := pe_pause (at_enc a)) in *. pose proof (ao_error _ _ Ha) as He. fold p in He.
  destruct Hok as (_ & Hs & _ & _ & Hoe'). pose proof (block_times (at_seen a) f ltac:(lia)) as Ht.
  pose proof (done_mono ps' (block_time (at_seen a)) (block_time (at_seen a + f)) ltac:(lia) Hd) as Hd'.
  assert (∀ q, ts_start q = s → ts_end q = default 0 oe → match oe with Some e => block_time (at_seen a + f) ≤ e | None => True end →
    phase q ((s, oe) :: ps') (block_time (at_seen a + f))) as Hph by (intros q E1 E2 H; by apply (pausing _ _ _ s oe ps')).
  pose proof (check_end_ts p (at_seen a) f ltac:(lia) ltac:(lia)) as Ec. cbn zeta in Ec. rewrite Es in Ec.
  destruct (Z.leb_spec (block_time (at_seen a)) s) as [H1|H1].
  - destruct (Z.leb_spec s (block_time (at_seen a) + block_ns f)) as [H2|H2].
    + destruct (check_start p (at_seen a) f ltac:(lia) ltac:(lia) ltac:(lia)) as (d & E & Ef & Edd).
      apply (seen_intro _ a f p d (ad_frames d =? 0) 0); [done|lia|done|done|done|apply Hph; [done|done|]|].
      * destruct oe as [e|]; [|done]. destruct Hoe' as (_ & _ & Hl). pose proof (long_enough_block s e (at_seen a) f Hl ltac:(lia) ltac:(lia)). lia.
      * rewrite kept_zero, Ef, Es. by apply (error_cut _ _ _ _ _ s oe ps'); [|lia| |lia|].
    + eapply (seen_intro _ a f p _ false 0); [done|lia|done|done|done|apply Hph; [done|done|]|].
      * destruct oe as [e|]; [lia|done].
      * by apply (error_passes _ _ _ _ _ s oe ps'); [|lia| |lia|lia|lia|].
  - assert (audio_pause_check_internal p (mk_audio_data [mk_plane [] 0] f (block_time (at_seen a))) rate =
        Some (p, mk_audio_data [mk_plane [] 0] f (block_time (at_seen a)), true) →
      match oe with Some e => block_time (at_seen a + f) ≤ e | None => True end → seen_block ((s, oe) :: ps') a f) as Hin.
    { intros E Hr. eapply (seen_intro _ a f p _ true 0); [done|lia|exact E|done|done|by apply Hph|].
      rewrite Z.add_0_r. by apply (error_ignored _ _ _ _ _ s oe ps'); [|lia| |lia|]. }
    destruct oe as [e|]; cbn in Ee; rewrite Ee in Ec.
    + rewrite (proj2 (Z.leb_le (block_time (at_seen a)) e)), andb_true_l in Ec by lia.
      destruct (Z.leb_spec e (block_time (at_seen a) + block_ns f)) as [H2|H2]; [|apply Hin; [done|lia]].
      destruct (check_end p (at_seen a) f ltac:(lia) ltac:(lia) ltac:(lia) ltac:(lia)) as (d & E & Ef & Edd).
      eapply (seen_intro _ a f _ d (ad_frames d =? 0)); [done|lia|done|done|done| |].
      { apply running; [done|done|]. constructor; [|done]. exists e. split; [done|cbn; lia]. }
      rewrite kept_zero, Ef, Ee. by apply (error_resume _ _ _ _ p _ s e ps'); [|lia| | |lia|].
    + rewrite (proj2 (Z.leb_gt (block_time (at_seen a)) 0)) in Ec by lia. by apply Hin.
Qed.

Lemma block_ok ps a f : pauses_ok ps → audio_ok ps a → 0 < f ≤ block_max → block_time (at_seen a + f) < 2 ^ 61 →
  seen_block ps a f.
Proof.
  intros Hok Ha Hf Hb. destruct (ao_phase _ _ Ha) as [Es Ee Hd|s oe ps' Eps Es Ee Hd Hoe]; [|by eapply block_in_pause].
  pose proof (ao_seen _ _ Ha) as Hn. pose proof (block_times (at_seen a) f ltac:(lia)) as Ht. pose proof (ao_error _ _ Ha) as He.
  eapply (seen_intro ps a f _ _ false 0); [done|lia|by apply check_free|done|done| |].
  - apply running; [done|done|]. apply (done_mono _ (block_time (at_seen a))); [lia|done].
  - rewrite error_running in He by done. rewrite error_running by done. cbn [ad_frames]. lia.
Qed.

(** ** A pause *)

(** How the history changes. *)
Inductive history_change ps c : list (Z * option Z) → Prop :=
  | history_start : history_change ps c ((c, None) :: ps)
  | history_stop s ps' : ps = (s, None) :: ps' → s < c → history_change ps c ((s, Some c) :: ps').

Lemma phase_change p ps t c (pause : bool) ps' : pauses_ok ps → phase p ps t → t < c → on_grid c → t0 < c < 2 ^ 61 →
  ts_offset p = total ps → may_change pause p = true → note_pause ps pause c = Some ps' →
  phase (change_pause pause c p) ps' t ∧ pauses_ok ps' ∧ ts_offset (change_pause pause c p) = total ps' ∧
  last_video_ts (change_pause pause c p) = last_video_ts p ∧ history_change ps c ps' ∧
  (if pause then ts_start p = 0 else ts_start p ≠ 0) ∧ ts_start (change_pause pause c p) ≠ 0.
Proof.
  intros Hok Hp Ht Hg Hc Ho Hm Hn. destruct pause; cbn [may_change change_pause note_pause] in *.
  - unfold pause_can_start in Hm. rewrite andb_true_iff, !Z.eqb_eq in Hm. destruct Hm as [Es Ee].
    destruct Hp as [_ _ Hd|s oe ps0 -> Es' _ _ _]; [|destruct Hok; lia]. simplify_eq.
    assert (pauses_ok ((c, None) :: ps)) by (cbn; split_and!; (done || lia || by apply (done_mono _ t); [lia|])).
    split_and!; [|done|done|done|constructor|done|cbn; lia].
    by apply (pausing _ _ _ c None ps).
  - unfold pause_can_stop in Hm. rewrite andb_true_iff, negb_true_iff, Z.eqb_eq, Z.eqb_neq in Hm. destruct Hm as [Es Ee].
    destruct Hp as [Es' _ _|s oe ps0 -> Es' Ee' Hd Hoe]; [lia|]. destruct Hok as (Hgs & Hs & Hds & Hok & Hoe').
    subst s. destruct oe as [e|]; [cbn in Ee'; lia|]. destruct (long_enough (ts_start p) c) eqn:El; [|done]. simplify_eq.
    assert (ts_start p < c) as Hsc.
    { unfold long_enough in El. apply Z.ltb_lt in El.
      pose proof (Z.div_pos (block_max * 1000000000) rate ltac:(lia) ltac:(lia)). lia. }
    pose proof (total_le ps0 (ts_start p) Hok Hds ltac:(lia)) as Htot. cbn in Ho.
    unfold end_pause. rewrite Ee, Z.eqb_refl. cbn [ts_start ts_end ts_offset last_video_ts].
    assert (pauses_ok ((ts_start p, Some c) :: ps0)) by (cbn; split_and!; (done || lia)).
    split_and!; [|done| |done|by apply history_stop|done|lia].
    + apply (pausing _ _ _ (ts_start p) (Some c) ps0); [done|done|done|done|lia].
    + rewrite Ho, (u64_small (c - _)), u64_small by (unfold total in *; lia). cbn. unfold total in *. lia.
Qed.

Lemma history_same ps c ps' t : history_change ps c ps' →
  (t < c → in_pause ps' t = in_pause ps t) ∧ (t ≤ c → active_time ps' t = active_time ps t).
Proof.
  intros H. destruct H as [|s ps0 -> Hs].
  - split; intros Ht; [|rewrite active_cons; unfold overlap; cbn; lia].
    unfold in_pause. cbn [existsb]. unfold within at 1. cbn. destruct (Z.leb_spec c t); [lia|done].
  - rewrite !active_cons. unfold in_pause, overlap. cbn [existsb]. unfold within at 1 3. cbn.
    split; intros Ht; [by rewrite (proj2 (Z.ltb_lt t c))|lia].
Qed.

(** What an encoder is given of the new history: nothing less of the old one, and the time
    of the change. *)
Lemma history_seen d ps c ps' : history_change ps c ps' → ends_seen d ps' → starts_seen d ps' →
  ends_seen d ps ∧ starts_seen d ps ∧ seen_by d c.
Proof.
  intros H He Hs. destruct H as [|s ps0 -> _]; apply Forall_cons in He as [He1 He], Hs as [Hs1 Hs]; cbn in *.
  - done.
  - split_and!; [by constructor|by constructor|done].
Qed.

Lemma filter_same (f g : Z → bool) l : Forall (λ t, f t = g t) l →
  filter (λ t, f t = false) l = filter (λ t, g t = false) l.
Proof. induction 1 as [|t l E Hl IH]; [done|]. rewrite !filter_cons, E, IH. done. Qed.

Lemma stuck_stays d p ps (pause : bool) : stuck d p ps → pauses_ok ps → may_change pause p = false.
Proof.
  intros (s & e & ps' & -> & Es & Ee & _) (_ & Hs & _ & _ & _ & He & _).
  destruct pause; cbn; unfold pause_can_start, pause_can_stop; rewrite Es, Ee, ?(proj2 (Z.eqb_neq s 0)), ?(proj2 (Z.eqb_neq e 0)) by lia; done.
Qed.

Lemma video_paused ps v c (pause : bool) ps' : pauses_ok ps → video_ok ps v → frame_time (after_last v) < c → on_grid c →
  t0 < c < 2 ^ 61 → may_change pause (pe_pause (vt_enc v)) = true → note_pause ps pause c = Some ps' →
  video_ok ps' (set_vt v (set_paused pause c (vt_enc v))) ∧ pauses_ok ps'.
Proof.
  intros Hok [Hd Hs Hl [Hst|[Hp Ho Hk Hn]]] Ht Hg Hc Hm Hps.
  { rewrite (stuck_stays _ _ _ pause Hst Hok) in Hm. done. }
  destruct (phase_change _ _ _ _ _ _ Hok Hp Ht Hg Hc Ho Hm Hps) as (Hp' & Hok' & Ho' & Hl' & Hh & _ & _).
  split; [|done]. constructor; cbn [set_vt vt_divisor vt_seen vt_enc vt_kept set_paused pe_pause]; [done|done| |right].
  { intros H. rewrite Hl'. by apply Hl. }
  constructor; cbn [set_vt vt_divisor vt_seen vt_enc vt_kept set_paused pe_pause]; [done|done| |].
  - rewrite Hk. apply filter_same. rewrite Forall_fmap. apply Forall_forall. intros k Hin.
    apply elem_of_seqZ in Hin. cbn. symmetry. apply (history_same ps c ps' _ Hh). unfold after_last, frame_time in *. nia.
  - intros He Hst. destruct (history_seen _ _ _ _ Hh He Hst) as (He0 & Hst0 & Hsc). rewrite (Hn He0 Hst0).
    rewrite (proj2 (history_same ps c ps' _ Hh)); [done|]. apply (seen_step _ _ _ Hd Hsc). unfold after_last, frame_time in *. lia.
Qed.

Lemma audio_paused ps a c (pause : bool) ps' : pauses_ok ps → audio_ok ps a → block_time (at_seen a) < c → on_grid c →
  t0 < c < 2 ^ 61 → may_change pause (pe_pause (at_enc a)) = true → note_pause ps pause c = Some ps' →
  audio_ok ps' (set_at a (set_paused pause c (at_enc a))).
Proof.
  intros Hok [Hs Hp Ho He] Ht Hg Hc Hm Hps.
  destruct (phase_change _ _ _ _ _ _ Hok Hp Ht Hg Hc Ho Hm Hps) as (Hp' & Hok' & Ho' & Hl' & Hh & Hst & Hst').
  constructor; cbn [set_at at_seen at_enc at_kept set_paused pe_pause]; [done|done|done|].
  destruct pause; cbn [note_pause] in Hps.
  - simplify_eq. rewrite error_running in He by done. cbn [change_pause] in *. by rewrite error_before.
  - cbn [change_pause] in *. assert (ts_start (end_pause (pe_pause (at_enc a)) c) = ts_start (pe_pause (at_enc a))) as Es.
    { unfold end_pause. by destruct (_ =? 0). }
    destruct Hh as [|s ps0 -> Hsc]; [by destruct ps as [|[]]; repeat case_match|].
    destruct (decide (block_time (at_seen a) < ts_start (pe_pause (at_enc a)))).
    + rewrite error_before in He by done. rewrite error_before; rewrite ?Es; done.
    + rewrite error_inside in He by lia. rewrite error_inside; rewrite ?Es; (done || lia).
Qed.

(** ** The session *)

Record session_ok (st : session) : Prop := {
  so_pauses : pauses_ok (pauses st);
  so_video : Forall (video_ok (pauses st)) (vts st);
  so_audio : Forall (audio_ok (pauses st)) (ats st)
}.

Lemma present_some {A B} (f : A → B) l : present (map (Some ∘ f) l) = map f l.
Proof. induction l as [|x l IH]; [done|]. cbn. by f_equal. Qed.

Lemma present_paused {A} (f : A → paused_encoder) pause c (l : list A) :
  present (set_all_paused pause c (map (Some ∘ f) l)) = map (set_paused pause c ∘ f) l.
Proof. induction l as [|x l IH]; [done|]. cbn. by f_equal. Qed.

Lemma zip_with_map {A B} (g : A → B → A) (f : A → B) l : zip_with g l (map f l) = map (λ x, g x (f x)) l.
Proof. induction l as [|x l IH]; [done|]. cbn. by f_equal. Qed.

Lemma all_may_change_spec {A} (f : A → paused_encoder) pause l : all_may_change pause (map (Some ∘ f) l) = true →
  Forall (λ x, may_change pause (pe_pause (f x)) = true) l.
Proof.
  unfold all_may_change. rewrite present_some. induction l as [|x l IH]; cbn; [constructor|].
  rewrite andb_true_iff. intros [H1 H2]. constructor; [done|by apply IH].
Qed.

Lemma forallb_Forall {A} (f : A → bool) l : forallb f l = true → Forall (λ x, f x = true) l.
Proof. induction l as [|x l IH]; cbn; [constructor|]. rewrite andb_true_iff. intros []. constructor; auto. Qed.

(** What the clock says of the time chosen. *)
Lemma clock_ahead st now v vs : session_ok st → clock_ok st now = true → vts st = v :: vs →
  ∃ c, get_closest_v_ts (pe_pause (vt_enc v)) interval now = Some c ∧ on_grid c ∧ t0 < c < 2 ^ 61 ∧
    Forall (λ v, frame_time (after_last v) < c) (vts st) ∧ Forall (λ a, block_time (at_seen a) < c) (ats st).
Proof.
  intros [_ Hv _] Hc Ev. unfold clock_ok in Hc. rewrite Ev in Hc. rewrite !andb_true_iff, Z.ltb_lt in Hc.
  destruct Hc as [[[Hnow Hvs] Has] [H1 H2]]. rewrite Z.leb_le in H1, H2. rewrite <- Ev in Hvs.
  assert (video_ok (pauses st) v) as Hok by (rewrite Ev in Hv; by inversion Hv).
  destruct (closest_ahead (pe_pause (vt_enc v)) (vt_divisor v * (vt_seen v - 1)) now) as (c & E & Hg & Hr); [by apply (vo_last _ _ Hok); lia|pose proof (vo_divisor _ _ Hok); nia|lia|].
  exists c. split_and!; [done|done| |lia| |].
  - pose proof (vo_divisor _ _ Hok). unfold frame_time in H2. nia.
  - eapply Forall_impl; [apply forallb_Forall, Hvs|]. cbn. intros x H. apply Z.leb_le in H. lia.
  - eapply Forall_impl; [apply forallb_Forall, Has|]. cbn. intros x H. apply Z.leb_le in H. lia.
Qed.

Lemma do_pause_ok st pause now st' : session_ok st → clock_ok st now = true → do_pause st pause now = Some st' → session_ok st'.
Proof.
  intros Hok Hc E. unfold do_pause in E. destruct (vts st) as [|v vs] eqn:Ev; [done|].
  destruct (clock_ahead _ _ _ _ Hok Hc Ev) as (c & Ec & Hg & Hr & Hv & Ha). rewrite <- Ev in E.
  assert (head (vts st) = Some v) as Eh by (by rewrite Ev). rewrite Eh in E. cbn [mbind option_bind] in E.
  rewrite Ec in E. cbn [mbind option_bind] in E. unfold obs_encoded_output_pause in E.
  assert (present (map (Some ∘ vt_enc) (vts st)) = vt_enc v :: map vt_enc vs) as Ep by (by rewrite present_some, Ev).
  rewrite Ep, Ec in E. cbn [mbind option_bind] in E.
  destruct (all_may_change _ _ && all_may_change _ _) eqn:Em; [|by simplify_eq/=]. cbn [mbind option_bind] in E.
  apply andb_true_iff in Em as [Emv Ema]. apply all_may_change_spec in Emv, Ema.
  destruct (note_pause (pauses st) pause c) as [ps|] eqn:Eps; [|done]. cbn in E. rewrite !present_paused, !zip_with_map in E.
  simplify_eq. destruct Hok as [Hps Hvo Hao]. constructor; cbn [pauses vts ats].
  - rewrite Ev in Hvo, Hv, Emv. inversion_clear Hvo. inversion_clear Hv. inversion_clear Emv. by eapply video_paused.
  - rewrite Forall_map. rewrite Forall_forall in *. intros x Hx. eapply video_paused; eauto.
  - rewrite Forall_map. rewrite Forall_forall in *. intros x Hx. eapply audio_paused; eauto.
Qed.

Lemma session_step_ok st ev st' : session_ok st → session_step st ev = Some st' → session_ok st'.
Proof.
  intros Hok E. destruct ev as [i|j f|pause now]; cbn [session_step] in E.
  - destruct (vts st !! i) as [v|] eqn:Ev; [|done]. cbn [mbind option_bind] in E. case_match; [|done]. simplify_eq.
    destruct Hok as [Hps Hv Ha]. constructor; cbn [pauses vts ats]; [done| |done].
    apply Forall_insert; [done|]. apply frame_ok; [done|]. by eapply Forall_lookup_1.
  - destruct (ats st !! j) as [a|] eqn:Ea; [|done]. cbn [mbind option_bind] in E. case_match eqn:Eg; [|done].
    rewrite !andb_true_iff, !Z.ltb_lt, Z.leb_le in Eg. destruct Hok as [Hps Hv Ha].
    destruct (block_ok _ a f Hps ltac:(by eapply Forall_lookup_1) ltac:(lia) ltac:(lia)) as (a' & Ea' & Hok').
    rewrite Ea' in E. cbn in E. simplify_eq. constructor; cbn [pauses vts ats]; [done|done|]. by apply Forall_insert.
  - case_match eqn:Ec; [|done]. by eapply do_pause_ok.
Qed.

Lemma session_run_ok evs : ∀ st st', session_ok st → session_run st evs = Some st' → session_ok st'.
Proof.
  induction evs as [|ev evs IH]; intros st st' Hok E; cbn in E; [by simplify_eq|].
  destruct (session_step st ev) as [st1|] eqn:E1; [|done]. eapply IH, E. by eapply session_step_ok.
Qed.

Lemma session_start_ok divisors na : Forall (λ d, 1 ≤ d) divisors → session_ok (session_start divisors na).
Proof.
  intros Hd. constructor; cbn [pauses vts ats session_start]; [done| |].
  - rewrite Forall_map. eapply Forall_impl; [exact Hd|]. intros d H1. constructor; cbn; [done|done|lia|right].
    constructor; cbn; [by apply running; [done|done|apply Forall_nil]|done|done|]. intros _ _.
    unfold active_time, frame_time, lost_time, zlen. cbn. lia.
  - apply Forall_replicate. constructor; [done|by apply running; [done|done|apply Forall_nil]|done|].
    apply error_running; [done|]. unfold zlen. cbn. lia.
Qed.

(** Every pause begins and ends at a frame of the clock. *)
Lemma all_seen ps : pauses_ok ps → ends_seen 1 ps ∧ starts_seen 1 ps.
Proof.
  induction ps as [|[s oe] ps IH]; [split; constructor|]. intros (Hs & _ & _ & Hok & Hoe). destruct (IH Hok) as [He Hst].
  split; (constructor; [cbn|done]); [|by apply seen_every]. destruct oe as [e|]; [|done]. destruct Hoe as [Hg _]. by apply seen_every.
Qed.

Lemma not_stuck d p ps : stuck d p ps → ends_seen d ps → False.
Proof. intros (s & e & ps' & -> & _ & _ & Hn) He. apply Forall_cons in He as [He _]. by apply Hn. Qed.

(** The samples kept, against the clock. *)
Lemma audio_kept ps a : pauses_ok ps → audio_ok ps a →
  Z.abs (kept_samples (at_kept a) * 1000000000 - rate * (active_time ps (block_time (at_seen a)) - a0)) ≤ 2000000000 * (zlen ps + 1).
Proof.
  intros Hok [Hs Hp _ He]. pose proof (block_time_bounds (at_seen a)).
  destruct Hp as [Es Ee Hd|s oe ps' -> Es Ee Hd Hoe].
  - rewrite active_done by done. rewrite error_running in He by done. nia.
  - destruct Hok as (_ & Hr & _ & _ & Hoe'). rewrite active_cons, active_done by done. rewrite zlen_cons.
    destruct (decide (block_time (at_seen a) < ts_start (pe_pause (at_enc a)))).
    + rewrite error_before in He by lia.
      replace (overlap (block_time (at_seen a)) (s, oe)) with 0 by (unfold overlap; destruct oe; cbn; lia). nia.
    + rewrite error_inside, Es in He by lia.
      replace (overlap (block_time (at_seen a)) (s, oe)) with (block_time (at_seen a) - s) by (unfold overlap; destruct oe; cbn; lia). nia.
Qed.


(** The code never fails: a step is refused only when it is not one of the environment. *)
Lemma session_takes_frames st i v : vts st !! i = Some v → frame_time (vt_divisor v * vt_seen v) < 2 ^ 61 →
  ∃ st', session_step st (S_FRAME i) = Some st'.
Proof. intros E H. cbn. rewrite E. cbn. rewrite (proj2 (Z.ltb_lt _ _)) by done. eauto. Qed.

Lemma session_takes_blocks st j a f : session_ok st → ats st !! j = Some a → 0 < f ≤ block_max →
  block_time (at_seen a + f) < 2 ^ 61 → ∃ st', session_step st (S_AUDIO j f) = Some st'.
Proof.
  intros [Hps _ Ha] E Hf Ht. destruct (block_ok _ a f Hps ltac:(by eapply Forall_lookup_1) Hf Ht) as (a' & Ea & _).
  cbn. rewrite E. cbn. rewrite !(proj2 (Z.ltb_lt _ _)), (proj2 (Z.leb_le _ _)) by lia. cbn. rewrite Ea. cbn. eauto.
Qed.
End session.

(** Sixty frames a second, audio at 48 kHz, encoders of every and of every third frame: five
    frames, a pause of nine, and more. *)
Definition ex_round : list session_event := [S_FRAME 1; S_FRAME 0; S_AUDIO 0 1024; S_FRAME 0; S_AUDIO 0 1024; S_FRAME 0].
Definition ex_session : list session_event :=
  ex_round ++ ex_round ++ [S_FRAME 1; S_FRAME 0; S_FRAME 0; S_PAUSE true 1120000000] ++
  ex_round ++ ex_round ++ [S_FRAME 1; S_FRAME 0; S_FRAME 0; S_FRAME 0; S_PAUSE false 1270000000] ++
  ex_round ++ ex_round ++ ex_round ++ ex_round.


(** ** Pauses that never end *)

(** A pause that begins and ends within one block of audio: the check waits for its end,
    which is past, and ignores every later block. *)
Lemma missed_end_ignores p data rate ns : ts_start p ≠ 0 → ts_start p < ad_timestamp data → ts_end p < ad_timestamp data →
  audio_frames_to_ns rate (ad_frames data) = Some ns →
  ∃ data', audio_pause_check p data rate = Some (p, data', true).
Proof.
  intros E Hs He Hn. unfold audio_pause_check, audio_pause_check_internal. rewrite (proj2 (Z.eqb_neq _ _) E), Hn.
  cbn [mbind option_bind]. rewrite !(proj2 (Z.leb_gt _ _)) by lia. cbn. eauto.
Qed.

(** The client pauses and resumes at once: both times are 1116666662, in the block that
    begins at 1106666666. What the encoder receives after that block is ignored for good. *)
Definition ex_block (n : Z) : audio_data := mk_audio_data [mk_plane [] 0] 1024 (block_time 48000 1000000000 n).

Example short_pause_silences :
  obs_encoded_output_pause [Some (mk_paused false (mk_pause 1083333330 0 0 0))] [Some (mk_paused false (mk_pause 0 0 0 0))]
    16666666 1090000000 true =
    Some ([Some (mk_paused true (mk_pause 1083333330 1116666662 0 0))], [Some (mk_paused true (mk_pause 0 1116666662 0 0))], true) ∧
  obs_encoded_output_pause [Some (mk_paused true (mk_pause 1083333330 1116666662 0 0))] [Some (mk_paused true (mk_pause 0 1116666662 0 0))]
    16666666 1095000000 false =
    Some ([Some (mk_paused false (mk_pause 1083333330 1116666662 1116666662 0))],
          [Some (mk_paused false (mk_pause 0 1116666662 1116666662 0))], true) ∧
  (audio_pause_check (mk_pause 0 1116666662 1116666662 0) (ex_block 5120) 48000 ≫= λ r, Some (r.1.1, ad_frames r.1.2, r.2)) =
    Some (mk_pause 0 1116666662 1116666662 0, 479, false) ∧
  ∀ n, 6144 ≤ n → ∃ data, audio_pause_check (mk_pause 0 1116666662 1116666662 0) (ex_block n) 48000 =
    Some (mk_pause 0 1116666662 1116666662 0, data, true).
Proof.
  split_and!; [vm_compute; reflexivity..|]. intros n Hn.
  assert (1128000000 ≤ block_time 48000 1000000000 n).
  { unfold block_time. pose proof (Z.div_le_mono (6144 * 1000000000) (n * 1000000000) 48000 ltac:(lia) ltac:(lia)).
    assert ((6144 * 1000000000) `div` 48000 = 128000000) by reflexivity. lia. }
  eapply missed_end_ignores; cbn [ts_start ts_end ad_timestamp ex_block]; [lia..|reflexivity].
Qed.

(** An encoder that is given every second frame, between which the pause ends, never sees a
    frame of that time: it ignores all that follow. *)
Lemma missed_frame_ignores p ts : ts_start p ≠ 0 → ts_start p ≤ ts → ts ≠ ts_end p →
  video_pause_check p ts = (mk_pause ts (ts_start p) (ts_end p) (ts_offset p), true).
Proof.
  intros E Hs He. unfold video_pause_check, video_pause_check_internal. cbn [ts_start ts_end ts_offset].
  by rewrite (proj2 (Z.eqb_neq _ _) E), (proj2 (Z.eqb_neq _ _) He), (proj2 (Z.leb_le _ _)) by lia.
Qed.

Example half_rate_never_resumes :
  obs_encoded_output_pause [Some (mk_paused true (mk_pause 200 200 0 0))] [] 10 215 false =
    Some ([Some (mk_paused false (mk_pause 200 200 230 30))], [], true) ∧
  ∀ n p, 10 ≤ n → ts_start p = 200 → ts_end p = 230 →
    ∃ p', video_pause_check p (20 * n) = (p', true) ∧ ts_start p' = 200 ∧ ts_end p' = 230.
Proof.
  split; [vm_compute; reflexivity|]. intros n p Hn Es Ee.
  rewrite missed_frame_ignores by lia. eexists. split; [reflexivity|]. done.
Qed.

(** The first block after a pause gets the time of its start, from which the length of the
    pause is then subtracted: it comes before the block of before the pause. *)
Example resumed_block_early :
  (audio_pause_check (mk_pause 0 1116666662 1266666656 149999994) (ex_block 12288) 48000 ≫= λ r,
    Some (ad_timestamp r.1.2, ad_frames r.1.2)) = Some (966666668, 513).
Proof. vm_compute. reflexivity. Qed.

(** The samples skipped are counted as four bytes each, whatever the format: for samples of
    two bytes the data that remains lies outside the block. *)
Example resumed_block_outside :
  let block := mk_audio_data [mk_plane (replicate 2048 (Some 0)) 0] 1024 (block_time 48000 1000000000 12288) in
  (audio_pause_check (mk_pause 0 1116666662 1266666656 149999994) block 48000 ≫= λ r,
    pl ← head (ad_data r.1.2); plane_load pl 0 (ad_frames r.1.2 * 2)) = None.
Proof. vm_compute. reflexivity. Qed.
