(* ===== verification/EncoderRun.v ===== *)
(** * Running an encoder: libobs/obs-encoder.c

    What an encoder does with the frames and the blocks of audio it is given, and with the
    packets its implementation returns; starting and stopping; groups of encoders. The
    implementation (the plugin) is a parameter: a state and the functions [encode], [update]
    and [get_sei_data]. *)

From S2P Require Import Prelude Util Encoder Deque Interleave Pause.

Local Open Scope Z_scope.

(** ** State *)

Definition MAX_AV_PLANES : nat := 8.

(** [struct video_data] and [struct encoder_frame]; [fr_linesize] is that of every plane. *)
Record video_data := mk_video_data { vd_data : list (list cell); vd_linesize : list Z; vd_timestamp : Z }.
Record encoder_frame := mk_frame {
  fr_data : list (list cell); fr_linesize : list Z; fr_frames : Z; fr_pts : Z
}.

(** [struct encoder_callback]: [cb_id] is the pair of the function and its parameter. *)
Record encoder_callback := mk_cb { sent_first_packet : bool; cb_id : Z }.

(** What is set before the encoder runs. [ec_id] stands for the address of the encoder,
    [ec_paired] for the encoders of [paired_encoders], [ec_outputs] for the outputs. *)
Record encoder_conf := mk_ec {
  ec_id : Z;
  ec_type : obs_encoder_type;
  ec_timebase_num : Z;
  ec_timebase_den : Z;
  ec_frame_rate_divisor : Z;
  ec_samplerate : Z;
  ec_planes : nat;
  ec_blocksize : Z;
  ec_framesize : Z;
  ec_framesize_bytes : Z;
  ec_paired : list Z;
  ec_outputs : list Z
}.

Record encoder_clock := mk_clock {
  cur_pts : Z;
  first_received : bool;
  offset_usec : Z;
  first_raw_ts : Z;
  start_ts : Z;
  frame_rate_divisor_counter : Z
}.

(** The part of an encoder in a group; [encoder_group] names the group. *)
Record encoder_member := mk_member {
  encoder_group : option Z;
  last_reconfigure_request : Z;
  last_handled_reconfigure_request : Z;
  reconfigure_requested : bool
}.

(** [le_data] is [context.data]; [le_connected] that the encoder is connected to its media.
    [le_encoded], [le_delivered] and [le_stopped] record the frames given to the
    implementation, the packets given to the callbacks, and the outputs stopped. *)
Record live_encoder (impl : Type) := mk_live {
  le_conf : encoder_conf;
  le_clock : encoder_clock;
  le_member : encoder_member;
  le_paused : paused_encoder;
  le_audio_input : list deque;
  le_callbacks : list encoder_callback;
  le_packet_times : list encoder_packet_time;
  le_encoded_frames : Z;
  le_data : option impl;
  le_active : bool;
  le_initialized : bool;
  le_connected : bool;
  le_encoded : list encoder_frame;
  le_delivered : list (Z * encoder_packet * option encoder_packet_time);
  le_stopped : list Z
}.
Arguments mk_live {impl}.
Arguments le_conf {impl}. Arguments le_clock {impl}. Arguments le_member {impl}. Arguments le_paused {impl}.
Arguments le_audio_input {impl}. Arguments le_callbacks {impl}. Arguments le_packet_times {impl}.
Arguments le_encoded_frames {impl}. Arguments le_data {impl}. Arguments le_active {impl}.
Arguments le_initialized {impl}. Arguments le_connected {impl}. Arguments le_encoded {impl}.
Arguments le_delivered {impl}. Arguments le_stopped {impl}.

(** [struct obs_encoder_group]. *)
Record obs_encoder_group := mk_group {
  destroy_on_stop : bool;
  group_encoders : list Z;
  num_encoders_started : Z;
  start_timestamp : Z;
  frame_rate_divisors_lcm : Z;
  reconfigure_request : Z;
  next_pts : Z;
  encoders_updated_next_pts : Z;
  encoders_reconfigured : Z;
  reconfigure_again : bool
}.

Section run.
Context {impl : Type}.
(** [encode] is given the packet with the time base set; it returns the packet, whether it
    is one, and whether it succeeded. *)
Context (encode : impl → encoder_frame → encoder_packet → impl * encoder_packet * bool * bool).
Context (update : impl → impl) (get_sei_data : impl → option bytes).
Implicit Types e : live_encoder impl.

Definition set_conf e c : live_encoder impl :=
  mk_live c (le_clock e) (le_member e) (le_paused e) (le_audio_input e) (le_callbacks e) (le_packet_times e)
    (le_encoded_frames e) (le_data e) (le_active e) (le_initialized e) (le_connected e) (le_encoded e) (le_delivered e) (le_stopped e).
Definition set_clock e c : live_encoder impl :=
  mk_live (le_conf e) c (le_member e) (le_paused e) (le_audio_input e) (le_callbacks e) (le_packet_times e)
    (le_encoded_frames e) (le_data e) (le_active e) (le_initialized e) (le_connected e) (le_encoded e) (le_delivered e) (le_stopped e).
Definition set_member e m : live_encoder impl :=
  mk_live (le_conf e) (le_clock e) m (le_paused e) (le_audio_input e) (le_callbacks e) (le_packet_times e)
    (le_encoded_frames e) (le_data e) (le_active e) (le_initialized e) (le_connected e) (le_encoded e) (le_delivered e) (le_stopped e).
Definition set_le_paused e p : live_encoder impl :=
  mk_live (le_conf e) (le_clock e) (le_member e) p (le_audio_input e) (le_callbacks e) (le_packet_times e)
    (le_encoded_frames e) (le_data e) (le_active e) (le_initialized e) (le_connected e) (le_encoded e) (le_delivered e) (le_stopped e).
Definition set_audio_input e b : live_encoder impl :=
  mk_live (le_conf e) (le_clock e) (le_member e) (le_paused e) b (le_callbacks e) (le_packet_times e)
    (le_encoded_frames e) (le_data e) (le_active e) (le_initialized e) (le_connected e) (le_encoded e) (le_delivered e) (le_stopped e).
Definition set_callbacks e c : live_encoder impl :=
  mk_live (le_conf e) (le_clock e) (le_member e) (le_paused e) (le_audio_input e) c (le_packet_times e)
    (le_encoded_frames e) (le_data e) (le_active e) (le_initialized e) (le_connected e) (le_encoded e) (le_delivered e) (le_stopped e).
Definition set_packet_times e t : live_encoder impl :=
  mk_live (le_conf e) (le_clock e) (le_member e) (le_paused e) (le_audio_input e) (le_callbacks e) t
    (le_encoded_frames e) (le_data e) (le_active e) (le_initialized e) (le_connected e) (le_encoded e) (le_delivered e) (le_stopped e).
Definition set_encoded_frames e n : live_encoder impl :=
  mk_live (le_conf e) (le_clock e) (le_member e) (le_paused e) (le_audio_input e) (le_callbacks e) (le_packet_times e)
    n (le_data e) (le_active e) (le_initialized e) (le_connected e) (le_encoded e) (le_delivered e) (le_stopped e).
Definition set_data e d : live_encoder impl :=
  mk_live (le_conf e) (le_clock e) (le_member e) (le_paused e) (le_audio_input e) (le_callbacks e) (le_packet_times e)
    (le_encoded_frames e) d (le_active e) (le_initialized e) (le_connected e) (le_encoded e) (le_delivered e) (le_stopped e).
Definition set_connection e (active initialized connected : bool) : live_encoder impl :=
  mk_live (le_conf e) (le_clock e) (le_member e) (le_paused e) (le_audio_input e) (le_callbacks e) (le_packet_times e)
    (le_encoded_frames e) (le_data e) active initialized connected (le_encoded e) (le_delivered e) (le_stopped e).
Definition set_encoded e l : live_encoder impl :=
  mk_live (le_conf e) (le_clock e) (le_member e) (le_paused e) (le_audio_input e) (le_callbacks e) (le_packet_times e)
    (le_encoded_frames e) (le_data e) (le_active e) (le_initialized e) (le_connected e) l (le_delivered e) (le_stopped e).
Definition set_delivered e l : live_encoder impl :=
  mk_live (le_conf e) (le_clock e) (le_member e) (le_paused e) (le_audio_input e) (le_callbacks e) (le_packet_times e)
    (le_encoded_frames e) (le_data e) (le_active e) (le_initialized e) (le_connected e) (le_encoded e) l (le_stopped e).
Definition set_stopped e l : live_encoder impl :=
  mk_live (le_conf e) (le_clock e) (le_member e) (le_paused e) (le_audio_input e) (le_callbacks e) (le_packet_times e)
    (le_encoded_frames e) (le_data e) (le_active e) (le_initialized e) (le_connected e) (le_encoded e) (le_delivered e) l.

Definition set_cur_pts e v := let c := le_clock e in
  set_clock e (mk_clock v (first_received c) (offset_usec c) (first_raw_ts c) (start_ts c) (frame_rate_divisor_counter c)).
Definition set_first_received e (off : Z) := let c := le_clock e in
  set_clock e (mk_clock (cur_pts c) true off (first_raw_ts c) (start_ts c) (frame_rate_divisor_counter c)).
Definition set_first_raw e (ts : Z) := let c := le_clock e in
  set_clock e (mk_clock (cur_pts c) true (offset_usec c) ts (start_ts c) (frame_rate_divisor_counter c)).
Definition set_start_ts e (ts : Z) := let c := le_clock e in
  set_clock e (mk_clock (cur_pts c) (first_received c) (offset_usec c) (first_raw_ts c) ts (frame_rate_divisor_counter c)).
Definition set_divisor_counter e (n : Z) := let c := le_clock e in
  set_clock e (mk_clock (cur_pts c) (first_received c) (offset_usec c) (first_raw_ts c) (start_ts c) n).
Definition set_reconfigure_requested e (b : bool) := let m := le_member e in
  set_member e (mk_member (encoder_group m) (last_reconfigure_request m) (last_handled_reconfigure_request m) b).

(** ** Delivering packets *)

Definition get_sei (d : impl) : option bytes := get_sei_data d.

Definition with_data (packet : encoder_packet) (data : bytes) : encoder_packet :=
  mk_packet data (pkt_pts packet) (pkt_dts packet) (pkt_timebase_num packet) (pkt_timebase_den packet) (pkt_type packet)
    (pkt_keyframe packet) (pkt_dts_usec packet) (pkt_sys_dts_usec packet) (pkt_priority packet) (pkt_drop_priority packet)
    (pkt_track_idx packet) (pkt_encoder packet).

(** The packet the callback gets, if any, and the callback. *)
Definition send_first_video_packet (d : impl) (cb : encoder_callback) (packet : encoder_packet) :
    encoder_callback * option encoder_packet :=
  if negb (pkt_keyframe packet) then (cb, None) else
  match get_sei d with
  | Some ((_ :: _) as sei) => (mk_cb true (cb_id cb), Some (with_data packet (sei ++ pkt_data packet)))
  | _ => (mk_cb true (cb_id cb), Some packet)
  end.

Definition send_packet e (d : impl) (cb : encoder_callback) (packet : encoder_packet) : encoder_callback * option encoder_packet :=
  if bool_decide (ec_type (le_conf e) = OBS_ENCODER_VIDEO) && negb (sent_first_packet cb)
  then send_first_video_packet d cb packet
  else (cb, Some packet).

(** The loop over the callbacks, from the last one to the first. *)
Definition send_packets e (d : impl) (packet : encoder_packet) (packet_time : option encoder_packet_time) : live_encoder impl :=
  let sent := (λ cb, send_packet e d cb packet) <$> le_callbacks e in
  let given := omap (λ r, (λ p, (cb_id r.1, p, packet_time)) <$> r.2) (rev sent) in
  set_delivered (set_callbacks e (fst <$> sent)) (le_delivered e ++ given).

(** ** Connections *)

(** Releasing the paired encoders. *)
Definition unpair e : live_encoder impl :=
  let c := le_conf e in
  set_conf e (mk_ec (ec_id c) (ec_type c) (ec_timebase_num c) (ec_timebase_den c) (ec_frame_rate_divisor c) (ec_samplerate c)
    (ec_planes c) (ec_blocksize c) (ec_framesize c) (ec_framesize_bytes c) [] (ec_outputs c)).

(** [obs_encoder_shutdown]; [audio_input_buffer] is freed later, when the encoder is
    initialised. *)
Definition obs_encoder_shutdown e : live_encoder impl :=
  match le_data e with
  | Some _ => unpair (set_clock (set_data e None) (mk_clock (cur_pts (le_clock e)) false 0 (first_raw_ts (le_clock e)) 0 0))
  | None => e
  end.

Definition reset_group (g : obs_encoder_group) : obs_encoder_group :=
  mk_group (destroy_on_stop g) (group_encoders g) 0 0 1 0 0 0 0 false.

Definition leave_group (g : obs_encoder_group) : obs_encoder_group :=
  let n := u32 (num_encoders_started g - 1) in
  if n =? 0 then reset_group g
  else mk_group (destroy_on_stop g) (group_encoders g) n (start_timestamp g) (frame_rate_divisors_lcm g)
         (reconfigure_request g) (next_pts g) (encoders_updated_next_pts g) (encoders_reconfigured g) (reconfigure_again g).

(** The functions below act on an encoder with its group, if it has one. *)
Implicit Types g : option obs_encoder_group.

Definition remove_connection e g (shutdown : bool) : live_encoder impl * option obs_encoder_group :=
  let e := set_connection e (le_active e) (le_initialized e) false in
  let g := leave_group <$> g in
  let e := if shutdown then obs_encoder_shutdown e else e in
  (set_connection e false false false, g).

Definition full_stop e g : live_encoder impl * option obs_encoder_group :=
  let e := set_stopped e (le_stopped e ++ ec_outputs (le_conf e)) in
  let e := set_callbacks e [] in
  remove_connection e g false.

(** Taking the time of a packet out of [encoder_packet_times], the last one that matches. *)
Fixpoint find_time (pts : Z) (l : list encoder_packet_time) : option (encoder_packet_time * list encoder_packet_time) :=
  match l with
  | [] => None
  | t :: l =>
      match find_time pts l with
      | Some (t', l') => Some (t', t :: l')
      | None => if ept_pts t =? pts then Some (t, l) else None
      end
  end.

(** [dts_usec] and [sys_dts_usec] of a packet. *)
Definition set_usec e (pkt : encoder_packet) : encoder_packet :=
  let c := le_clock e in
  let dts := i64 (u64 (u64 (start_ts c `div` 1000 + packet_dts_usec pkt) - offset_usec c)) in
  let sys := i64 (u64 (dts + ts_offset (pe_pause (le_paused e)) `div` 1000)) in
  mk_packet (pkt_data pkt) (pkt_pts pkt) (pkt_dts pkt) (pkt_timebase_num pkt) (pkt_timebase_den pkt) (pkt_type pkt)
    (pkt_keyframe pkt) dts sys (pkt_priority pkt) (pkt_drop_priority pkt) (pkt_track_idx pkt) (pkt_encoder pkt).

Definition is_video_packet (pkt : encoder_packet) : bool := bool_decide (pkt_type pkt = OBS_ENCODER_VIDEO).

Definition send_off_received e (d : impl) (pkt : encoder_packet) : live_encoder impl :=
  let e := if first_received (le_clock e) then e else set_first_received e (packet_dts_usec pkt) in
  let pkt := set_usec e pkt in
  let found := if is_video_packet pkt then find_time (pkt_pts pkt) (le_packet_times e) else None in
  let e := match found with Some (_, l) => set_packet_times e l | None => e end in
  let e := send_packets e d pkt (fst <$> found) in
  if is_video_packet pkt then set_encoded_frames e (u32 (le_encoded_frames e + 1)) else e.

Definition send_off_encoder_packet e g (d : impl) (success received : bool) (pkt : encoder_packet) :
    live_encoder impl * option obs_encoder_group :=
  if negb success then full_stop e g
  else if received then (send_off_received e d pkt, g)
  else (e, g).

(** The packet given to the implementation, [{0}] but for the time base and the encoder; audio is the first value of the enumeration. *)
Definition blank_packet (c : encoder_conf) : encoder_packet :=
  mk_packet [] 0 0 (u32 (ec_timebase_num c * ec_frame_rate_divisor c)) (ec_timebase_den c) OBS_ENCODER_AUDIO false 0 0 0 0 0 (ec_id c).

(** [frame_cts] is the time of a frame of video; [fer] and [ferc] are the clock before and
    after the call. The result is false after a failure. [None]: no [context.data]. *)
Definition do_encode e g (frame : encoder_frame) (frame_cts : option Z) (fer ferc : Z) :
    option (live_encoder impl * option obs_encoder_group * bool) :=
  d ← le_data e;
  let requested := reconfigure_requested (le_member e) in
  let e := if requested then set_reconfigure_requested e false else e in
  let d := if requested then update d else d in
  let '(d, pkt, received, success) := encode d frame (blank_packet (le_conf e)) in
  let e := set_encoded (set_data e (Some d)) (le_encoded e ++ [frame]) in
  let e := match frame_cts with
    | Some cts => set_packet_times e (le_packet_times e ++ [mk_ept (fr_pts frame) cts fer (if success then ferc else 0) 0])
    | None => e
    end in
  let '(e, g) := send_off_encoder_packet e g d success received pkt in
  Some (e, g, success).

(** ** Groups *)

Definition encoder_group_new_reconfigure_request (g : obs_encoder_group) : obs_encoder_group :=
  mk_group (destroy_on_stop g) (group_encoders g) (num_encoders_started g) (start_timestamp g) (frame_rate_divisors_lcm g)
    (u64 (reconfigure_request g + 1)) (next_pts g) 0 0 false.

(** The frames of an encoder are this far apart. *)
Definition pts_step (c : encoder_conf) : Z := u32 (ec_timebase_num c * ec_frame_rate_divisor c).

(** [next_pts] of an encoder: its next frame, rounded up to one that all encoders have. *)
Definition aligned_next_pts (c : encoder_conf) (pts : Z) (gr : obs_encoder_group) : option Z :=
  let overall_timestep := u32 (ec_timebase_num c * frame_rate_divisors_lcm gr) in
  let next := i64 (pts + pts_step c) in
  if overall_timestep =? 0 then None else
  Some (if bool_decide (Z.rem next overall_timestep = 0) then next
        else i64 (i64 (next /c overall_timestep + 1) * overall_timestep)).

Definition handle_encoder_group_reconfigure_request e (gr : obs_encoder_group) : option (live_encoder impl * obs_encoder_group) :=
  let m := le_member e in
  let new_reconfigure_request := negb (last_reconfigure_request m =? reconfigure_request gr) in
  if negb new_reconfigure_request && (encoders_updated_next_pts gr =? num_encoders_started gr) &&
     (cur_pts (le_clock e) =? next_pts gr) && negb (last_handled_reconfigure_request m =? last_reconfigure_request m)
  then
    let n := u32 (encoders_reconfigured gr + 1) in
    let gr := mk_group (destroy_on_stop gr) (group_encoders gr) (num_encoders_started gr) (start_timestamp gr)
      (frame_rate_divisors_lcm gr) (reconfigure_request gr) (next_pts gr) (encoders_updated_next_pts gr) n (reconfigure_again gr) in
    let e := set_member e (mk_member (encoder_group m) (last_reconfigure_request m) (last_reconfigure_request m) true) in
    Some (e, if (n =? zlen (group_encoders gr)) && reconfigure_again gr then encoder_group_new_reconfigure_request gr else gr)
  else if new_reconfigure_request || (cur_pts (le_clock e) =? next_pts gr) then
    next ← aligned_next_pts (le_conf e) (cur_pts (le_clock e)) gr;
    Some (set_member e (mk_member (encoder_group m) (reconfigure_request gr) (last_handled_reconfigure_request m) (reconfigure_requested m)),
          mk_group (destroy_on_stop gr) (group_encoders gr) (num_encoders_started gr) (start_timestamp gr)
            (frame_rate_divisors_lcm gr) (reconfigure_request gr) (Z.max (next_pts gr) next)
            (if new_reconfigure_request then u32 (encoders_updated_next_pts gr + 1) else encoders_updated_next_pts gr)
            (encoders_reconfigured gr) (reconfigure_again gr))
  else Some (e, gr).

Definition handle_group e g : option (live_encoder impl * option obs_encoder_group) :=
  match g with
  | Some gr => '(e, gr) ← handle_encoder_group_reconfigure_request e gr; Some (e, Some gr)
  | None => Some (e, None)
  end.

(** [obs_encoder_update] on an encoder whose settings are already changed and whose
    implementation has an [update]. *)
Definition obs_encoder_update e g : live_encoder impl * option obs_encoder_group :=
  match le_data e with
  | None => (e, g)
  | Some d =>
      if negb (le_active e) then (set_data e (Some (update d)), g) else
      match g with
      | None => (set_reconfigure_requested e true, None)
      | Some gr =>
          let first_reconfigure_request := reconfigure_request gr =? 0 in
          let all_encoders_reconfigured := encoders_reconfigured gr =? zlen (group_encoders gr) in
          let current_encoder_reconfigured := last_handled_reconfigure_request (le_member e) =? reconfigure_request gr in
          (e, Some (if first_reconfigure_request || all_encoders_reconfigured then encoder_group_new_reconfigure_request gr
                    else if current_encoder_reconfigured then
                      mk_group (destroy_on_stop gr) (group_encoders gr) (num_encoders_started gr) (start_timestamp gr)
                        (frame_rate_divisors_lcm gr) (reconfigure_request gr) (next_pts gr) (encoders_updated_next_pts gr)
                        (encoders_reconfigured gr) true
                    else gr))
      end
  end.

(** ** Video *)

(** Whether a paired encoder that still exists has not yet had audio of that time. Of a
    paired encoder only the clock is read; the encoder may be another implementation's. *)
Definition waits_for (ts : Z) (paired : option encoder_clock) : bool :=
  match paired with
  | None => false
  | Some p => negb (first_received p) || (ts <? first_raw_ts p)
  end.

Definition receive_video e g (paired : list (option encoder_clock)) (frame : video_data) (fer ferc : Z) :
    option (live_encoder impl * option obs_encoder_group) :=
  let ts := vd_timestamp frame in
  let not_ready := match g with
    | Some gr => (start_ts (le_clock e) =? 0) && negb (start_timestamp gr =? ts) | None => false end in
  if not_ready then Some (e, g) else
  if negb (first_received (le_clock e)) && existsb (waits_for ts) paired then Some (e, g) else
  let '(p, ignore_frame) := video_pause_check (pe_pause (le_paused e)) ts in
  let e := set_le_paused e (mk_paused (pe_paused (le_paused e)) p) in
  if ignore_frame then Some (e, g) else
  '(e, g) ← handle_group e g;
  let e := if start_ts (le_clock e) =? 0 then set_start_ts e ts else e in
  let enc_frame := mk_frame (vd_data frame) (vd_linesize frame) 1 (cur_pts (le_clock e)) in
  '(e, g, success) ← do_encode e g enc_frame (Some ts) fer ferc;
  Some (if success : bool then set_cur_pts e (i64 (cur_pts (le_clock e) + pts_step (le_conf e))) else e, g).

(** ** Audio *)

Definition clear_audio e : live_encoder impl :=
  set_audio_input e (replicate (ec_planes (le_conf e)) deque_init ++ drop (ec_planes (le_conf e)) (le_audio_input e)).

(** Pushing [n] bytes of each of the first planes, from [off] on. *)
Fixpoint push_planes (planes : nat) (bufs : list deque) (data : list plane) (off n : Z) : option (list deque) :=
  match planes, bufs, data with
  | O, _, _ => Some bufs
  | S planes, b :: bufs, p :: data =>
      cells ← plane_load p off n;
      b ← push_back_cells b cells;
      bufs ← push_planes planes bufs data off n;
      Some (b :: bufs)
  | _, _, _ => None
  end.

Definition push_back_audio e (data : list plane) (size offset_size : Z) : option (live_encoder impl) :=
  if size <=? offset_size then Some e else
  bufs ← push_planes (ec_planes (le_conf e)) (le_audio_input e) data offset_size (u64 (size - offset_size));
  Some (set_audio_input e bufs).

Definition calc_offset_size (c : encoder_conf) (v_start_ts a_start_ts : Z) : Z :=
  let offset := util_mul_div64 (u64 (v_start_ts - a_start_ts)) (ec_samplerate c) 1000000000 in
  u64 (offset * ec_blocksize c).

(** The blocks of the queues are taken as the data, from their beginning. *)
Definition start_from_buffer e (v_start_ts : Z) : option (live_encoder impl) :=
  first ← head (le_audio_input e);
  let size := dq_size first in
  let audio := (λ dq, mk_plane (dq_data dq) 0) <$> le_audio_input e in
  let e := set_audio_input e (replicate MAX_AV_PLANES deque_init) in
  let first_raw_ts := first_raw_ts (le_clock e) in
  let offset_size := if first_raw_ts <? v_start_ts then calc_offset_size (le_conf e) v_start_ts first_raw_ts else 0 in
  push_back_audio e audio size offset_size.

(** [paired] is the first paired encoder, if it exists. The result tells whether the encoder
    may encode. *)
Definition buffer_audio e (paired : option encoder_clock) (data : audio_data) : option (live_encoder impl * bool) :=
  let c := le_conf e in
  let size := u64 (ad_frames data * ec_blocksize c) in
  let push e offset_size (success : bool) :=
    e ← push_back_audio e (ad_data data) size offset_size; Some (e, success) in
  if negb (start_ts (le_clock e) =? 0) then push e 0 true else
  match paired with
  | None => push (set_start_ts e (ad_timestamp data)) 0 true
  | Some v =>
      let v_start_ts := start_ts v in
      if v_start_ts =? 0 then push e 0 false else
      ns ← mul_div64 (ad_frames data) 1000000000 (ec_samplerate c);
      let end_ts := u64 (ad_timestamp data + ns) in
      if end_ts <=? v_start_ts then push e 0 false else
      let offset_size := if ad_timestamp data <? v_start_ts then calc_offset_size c v_start_ts (ad_timestamp data) else 0 in
      let e := if ad_timestamp data <=? v_start_ts then clear_audio e else e in
      let e := set_start_ts e v_start_ts in
      e ← (if v_start_ts <? ad_timestamp data then start_from_buffer e v_start_ts else Some e);
      push e offset_size true
  end.

(** Popping [n] bytes of each of the first planes. *)
Fixpoint pop_planes (planes : nat) (bufs : list deque) (n : Z) : option (list (list cell) * list deque) :=
  match planes, bufs with
  | O, _ => Some ([], bufs)
  | S planes, b :: bufs =>
      '(out, b) ← deque_pop_front b true n;
      '(outs, bufs) ← pop_planes planes bufs n;
      Some (out :: outs, b :: bufs)
  | _, [] => None
  end.

Definition send_audio_data e g : option (live_encoder impl * option obs_encoder_group * bool) :=
  let c := le_conf e in
  '(outs, bufs) ← pop_planes (ec_planes c) (le_audio_input e) (ec_framesize_bytes c);
  let e := set_audio_input e bufs in
  let enc_frame := mk_frame outs (replicate (length outs) (u32 (ec_framesize_bytes c))) (u32 (ec_framesize c)) (cur_pts (le_clock e)) in
  '(e, g, success) ← do_encode e g enc_frame None 0 0;
  if (success : bool) then Some (set_cur_pts e (i64 (cur_pts (le_clock e) + ec_framesize c)), g, true)
  else Some (e, g, false).

Fixpoint send_audio_loop (fuel : nat) e g : option (live_encoder impl * option obs_encoder_group) :=
  first ← head (le_audio_input e);
  if dq_size first <? ec_framesize_bytes (le_conf e) then Some (e, g) else
  match fuel with
  | O => None
  | S fuel =>
      '(e, g, success) ← send_audio_data e g;
      if (success : bool) then send_audio_loop fuel e g else Some (e, g)
  end.

(** Every turn takes a frame out of the buffer. *)
Definition loop_fuel e : nat :=
  match le_audio_input e with first :: _ => S (Z.to_nat (dq_size first)) | [] => O end.

Definition receive_audio e g (paired : option encoder_clock) (audio : audio_data) :
    option (live_encoder impl * option obs_encoder_group) :=
  let e := if first_received (le_clock e) then e else clear_audio (set_first_raw e (ad_timestamp audio)) in
  '(p, audio, ignore_audio) ← audio_pause_check (pe_pause (le_paused e)) audio (ec_samplerate (le_conf e));
  let e := set_le_paused e (mk_paused (pe_paused (le_paused e)) p) in
  if (ignore_audio : bool) then Some (e, g) else
  '(e, success) ← buffer_audio e paired audio;
  if (success : bool) then send_audio_loop (loop_fuel e) e g else Some (e, g).
End run.
