(* ===== verification/EncoderSync.v ===== *)
(** * Audio and video start together

    A video and an audio encoder paired with each other, given frames and blocks of audio in
    any order: the video waits for the audio, the audio starts with the first frame of the
    video, and no sample after that is lost. *)

From stdpp Require Import sets.
From S2P Require Import Prelude Util Encoder Deque Interleave Pause PauseSync EncoderRun.

Local Open Scope Z_scope.

(** ** The queues of samples *)

(** A queue that holds [l], from the beginning of its block if [zero]. *)
Definition queue (zero : bool) (dq : deque) (l : list cell) : Prop :=
  holds dq l ∧ (zero = true → dq_start_pos dq = 0).

Lemma ensure_start dq dq' : dq_start_pos dq = 0 → deque_ensure_capacity dq = Some dq' → dq_start_pos dq' = 0.
Proof.
  intros Hs. unfold deque_ensure_capacity, deque_grow, deque_reorder_data.
  destruct (_ <=? _); [congruence|]. cbn [dq_set_end dq_start_pos dq_size dq_end_pos]. rewrite Hs, Z.eqb_refl, orb_true_r.
  cbn. by intros [= <-].
Qed.

Lemma store_back_start dq src n dq' : store_back dq src n = Some dq' → dq_start_pos dq' = dq_start_pos dq.
Proof.
  unfold store_back. destruct (_ <? _); intros E.
  - destruct (store _ _ _) as [mem|]; [|done]. cbn in E. destruct (store _ _ _); [|done]. by simplify_eq/=.
  - destruct (store _ _ _); [|done]. by simplify_eq/=.
Qed.

Lemma queue_push zero dq l cells : queue zero dq l → zlen l + zlen cells ≤ max_size →
  ∃ dq', push_back_cells dq cells = Some dq' ∧ queue zero dq' (l ++ cells).
Proof.
  intros [H Hz] Hm. destruct (push_back_spec dq l cells H Hm) as (dq' & E & H'). exists dq'. split; [done|].
  split; [done|]. intros ->. specialize (Hz eq_refl). unfold push_back_cells in E.
  destruct (deque_ensure_capacity _) as [d|] eqn:Ed; [|done]. cbn in E.
  rewrite (store_back_start _ _ _ _ E). eapply ensure_start; [|exact Ed]. done.
Qed.

Lemma queue_weaken zero dq l : queue zero dq l → queue false dq l.
Proof. intros [H _]. by split. Qed.

Lemma queue_init zero : queue zero deque_init [].
Proof. split; [|done]. by apply (holds_empty []). Qed.

(** The block of a queue that has never been read is what it holds. *)
Lemma queue_block dq l : queue true dq l → load (dq_data dq) 0 (zlen l) = Some l.
Proof.
  intros [H Hz]. specialize (Hz eq_refl). pose proof (zlen_nonneg l). pose proof (h_fit _ _ H). pose proof (h_block _ _ H).
  rewrite load_ok by lia. f_equal. assert (zlen (sub 0 (zlen l) (dq_data dq)) = zlen l) as El by (apply sub_zlen; lia).
  apply zget_ext; [done|]. rewrite El. intros k Hk. rewrite zget_sub by lia. rewrite decide_True by lia.
  rewrite <- (h_at _ _ H) by done. f_equal. unfold wrap. rewrite Hz. destruct (Z.ltb_spec (0 + k) (dq_capacity dq)); lia.
Qed.

(** ** The queues of all planes *)

Definition queues (zero : bool) (planes : nat) (bufs : list deque) (ls : list (list cell)) : Prop :=
  Forall2 (queue zero) (take planes bufs) ls ∧ length ls = planes.

Lemma queues_weaken zero n bufs ls : queues zero n bufs ls → queues false n bufs ls.
Proof. intros [H E]. split; [|done]. eapply Forall2_impl; [exact H|]. intros ??. apply queue_weaken. Qed.

Lemma queues_init zero n k : (n ≤ k)%nat → queues zero n (replicate k deque_init) (replicate n []).
Proof.
  intros H. split; [|apply length_replicate]. rewrite take_replicate, Nat.min_l by done.
  apply Forall2_replicate. apply queue_init.
Qed.

(** The lengths of what the queues hold. *)
Definition all_len (n : Z) (ls : list (list cell)) : Prop := Forall (λ l, zlen l = n) ls.

Lemma push_planes_spec zero off m : ∀ n bufs data ls cells, queues zero n bufs ls →
  Forall2 (λ p c, plane_load p off m = Some c) (take n data) cells → length cells = n →
  (∀ l c, l ∈ ls → c ∈ cells → zlen l + zlen c ≤ max_size) →
  ∃ bufs', push_planes n bufs data off m = Some bufs' ∧ queues zero n bufs' (zip_with (++) ls cells) ∧ length bufs' = length bufs.
Proof.
  induction n as [|n IH]; intros bufs data ls cells [Hq El] Hd Ec Hm.
  - exists bufs. destruct ls; [|done]. split_and!; [done| |done]. split; [constructor|done].
  - destruct ls as [|l ls]; [done|]. destruct bufs as [|b bufs]; [by inversion Hq|]. destruct cells as [|c cells]; [done|].
    destruct data as [|p data]; [by inversion Hd|]. cbn [take] in Hq, Hd.
    apply Forall2_cons in Hq as [Hb Hq]. apply Forall2_cons in Hd as [Hp Hd]. cbn [push_planes]. rewrite Hp. cbn [mbind option_bind].
    destruct (queue_push zero b l c Hb) as (b' & -> & Hb'); [apply Hm; set_solver|]. cbn [mbind option_bind].
    destruct (IH bufs data ls cells) as (bufs' & -> & [Hq' El'] & Hlen); [by split; [|cbn in El; lia]|done|cbn in Ec; lia| |].
    { intros l' c' H1 H2. apply Hm; set_solver. }
    exists (b' :: bufs'). split; [done|]. split; [|cbn; lia]. split; [by constructor|]. cbn in *. lia.
Qed.

Lemma pop_planes_spec m : ∀ n bufs ls, queues false n bufs ls → 0 ≤ m → Forall (λ l, m ≤ zlen l) ls →
  ∃ bufs', pop_planes n bufs m = Some (sub 0 m <$> ls, bufs') ∧ queues false n bufs' (drop (Z.to_nat m) <$> ls) ∧
    length bufs' = length bufs.
Proof.
  induction n as [|n IH]; intros bufs ls [Hq El] Hm Hl.
  - exists bufs. destruct ls; [|done]. split_and!; [done| |done]. split; [constructor|done].
  - destruct ls as [|l ls]; [done|]. destruct bufs as [|b bufs]; [by inversion Hq|]. cbn [take] in Hq.
    apply Forall2_cons in Hq as [[Hb _] Hq]. apply Forall_cons in Hl as [Hl Hls]. cbn [pop_planes].
    destruct (pop_front_spec b l true m Hb ltac:(lia)) as (b' & -> & Hb'). cbn [mbind option_bind].
    destruct (IH bufs ls) as (bufs' & -> & [Hq' El'] & Hlen); [by split; [|cbn in El; lia]|done|done|].
    exists (b' :: bufs'). split; [done|]. split; [|cbn; lia]. split; [constructor; [by split|done]|]. cbn in *. lia.
Qed.

(** ** Encoding a frame *)

Section encoding.
Context {impl : Type}.
Context (encode : impl → encoder_frame → encoder_packet → impl * encoder_packet * bool * bool).
Context (update : impl → impl) (get_sei_data : impl → option bytes).
Implicit Types e : live_encoder impl.

(** What encoding a frame leaves as it was; [ok] is that it succeeded. *)
Record encoded_as e e' (frame : encoder_frame) (ok : bool) : Prop := {
  ea_conf : le_conf e' = le_conf e;
  ea_input : le_audio_input e' = le_audio_input e;
  ea_paused : le_paused e' = le_paused e;
  ea_data : is_Some (le_data e');
  ea_encoded : le_encoded e' = le_encoded e ++ [frame];
  ea_pts : cur_pts (le_clock e') = cur_pts (le_clock e);
  ea_raw : first_raw_ts (le_clock e') = first_raw_ts (le_clock e);
  ea_start : start_ts (le_clock e') = start_ts (le_clock e);
  ea_first : first_received (le_clock e) = true → first_received (le_clock e') = true;
  ea_connected : le_connected e' = ok && le_connected e
}.

Lemma do_encode_spec e g frame cts fer ferc : is_Some (le_data e) →
  ∃ e' g' ok, do_encode encode update get_sei_data e g frame cts fer ferc = Some (e', g', ok) ∧ encoded_as e e' frame ok ∧
    (g = None → g' = None).
Proof.
  intros [d Ed]. unfold do_encode. rewrite Ed. cbn [mbind option_bind].
  destruct (encode _ _ _) as [[[d' pkt] received] ok]. unfold send_off_encoder_packet.
  destruct ok; cbn [negb]; [destruct received|].
  - eexists _, _, _. split; [reflexivity|]. split; [|done]. unfold send_off_received, send_packets.
    destruct (reconfigure_requested _), cts; cbn; destruct (first_received (le_clock e)) eqn:Ef; cbn; rewrite ?Ef;
      (destruct (is_video_packet _); [destruct (find_time _ _) as [[]|]|]); constructor; cbn; eauto.
  - eexists _, _, _. split; [reflexivity|]. split; [|done].
    destruct (reconfigure_requested _), cts; constructor; cbn; eauto.
  - unfold full_stop, remove_connection. eexists _, _, _. split; [reflexivity|]. split; [|by intros ->].
    destruct (reconfigure_requested _), cts; constructor; cbn; eauto.
Qed.

(** ** The frames of audio *)

Definition zip_app (ls ks : list (list cell)) : list (list cell) := zip_with (++) ls ks.

(** The samples of every plane in the frames that have been encoded. *)
Definition encoded_planes (n : nat) (l : list encoder_frame) : list (list cell) :=
  foldl (λ acc fr, zip_app acc (fr_data fr)) (replicate n []) l.

Lemma encoded_snoc n l fr : encoded_planes n (l ++ [fr]) = zip_app (encoded_planes n l) (fr_data fr).
Proof. unfold encoded_planes. by rewrite foldl_snoc. Qed.

Lemma zip_app_assoc ls ks js : zip_app (zip_app ls ks) js = zip_app ls (zip_app ks js).
Proof.
  revert ks js. induction ls as [|l ls IH]; intros [|k ks] [|j js]; try done. cbn. by rewrite app_assoc, IH.
Qed.

Lemma zip_app_split m ls : zip_app (sub 0 m <$> ls) (drop (Z.to_nat m) <$> ls) = ls.
Proof. induction ls as [|l ls IH]; [done|]. cbn. unfold zip_app in IH. rewrite IH. f_equal. apply take_drop. Qed.

Lemma zip_app_nil n ls : length ls = n → zip_app (replicate n []) ls = ls.
Proof. revert ls. induction n as [|n IH]; intros [|l ls] E; [done..|]. cbn. f_equal. apply IH. cbn in E. lia. Qed.

Lemma zip_app_length ls ks : length ks = length ls → length (zip_app ls ks) = length ls.
Proof. intros. unfold zip_app. rewrite length_zip_with. lia. Qed.

Lemma zip_app_len n m ls ks : all_len n ls → all_len m ks → all_len (n + m) (zip_app ls ks).
Proof.
  intros H. revert ks. induction H as [|l ls Hl Hls IH]; intros ks Hk; [constructor|].
  destruct Hk as [|k ks Hk Hks]; [constructor|]. constructor; [rewrite zlen_app; lia|by apply IH].
Qed.

(** The encoder while it encodes: [heard] are the samples it has received, from the [j]-th
    on encoded or waiting. *)
Record encoding_ok e (heard : list (list cell)) (skip : Z) (waiting : Z) : Prop := {
  eo_data : is_Some (le_data e);
  eo_planes : (0 < ec_planes (le_conf e) ≤ length (le_audio_input e))%nat;
  eo_frame : 0 < ec_framesize_bytes (le_conf e) ∧ 0 < ec_blocksize (le_conf e) ∧ ec_framesize_bytes (le_conf e) = ec_blocksize (le_conf e) * ec_framesize (le_conf e);
  eo_frames : Forall (λ fr, length (fr_data fr) = ec_planes (le_conf e) ∧
    all_len (ec_framesize_bytes (le_conf e)) (fr_data fr)) (le_encoded e);
  eo_queues : ∃ conts, queues false (ec_planes (le_conf e)) (le_audio_input e) conts ∧ all_len waiting conts ∧
    zip_app (encoded_planes (ec_planes (le_conf e)) (le_encoded e)) conts = drop (Z.to_nat skip) <$> heard;
  eo_pts : le_connected e = true →
    fr_pts <$> le_encoded e = (λ k, k * ec_framesize (le_conf e)) <$> seqZ 0 (zlen (le_encoded e)) ∧
    cur_pts (le_clock e) = zlen (le_encoded e) * ec_framesize (le_conf e)
}.

Lemma encoded_length n l : Forall (λ fr, length (fr_data fr) = n) l → length (encoded_planes n l) = n.
Proof.
  induction l as [|fr l IH] using rev_ind; intros H; [apply length_replicate|]. rewrite encoded_snoc.
  apply Forall_app in H as [H1 H2]. inversion_clear H2. rewrite zip_app_length; rewrite IH by done; done.
Qed.

Lemma encoded_len n m l : Forall (λ fr, length (fr_data fr) = n ∧ all_len m (fr_data fr)) l →
  all_len (zlen l * m) (encoded_planes n l).
Proof.
  induction l as [|fr l IH] using rev_ind; intros H; [by apply Forall_replicate|]. rewrite encoded_snoc, zlen_app.
  apply Forall_app in H as [H1 H2]. inversion_clear H2 as [|? ? [_ H3] _]. replace ((_ + _) * m) with (zlen l * m + m) by (unfold zlen; cbn; lia).
  apply zip_app_len; [by apply IH|done].
Qed.

(** How many samples are encoded or waiting. *)
Lemma encoding_count e heard skip w n : encoding_ok e heard skip w → all_len n heard → length heard = ec_planes (le_conf e) → 0 ≤ skip →
  zlen (le_encoded e) * ec_framesize_bytes (le_conf e) + w = Z.max 0 (n - skip).
Proof.
  intros [_ Hp _ Hf (conts & [_ El] & Hw & Ez) _] Hn Eh Hs. pose proof (encoded_len _ _ _ Hf) as He.
  pose proof (zip_app_len _ _ _ _ He Hw) as Hz. rewrite Ez in Hz. destruct heard as [|l heard]; [cbn in Eh; lia|].
  inversion_clear Hz as [|? ? H1 _]. inversion_clear Hn as [|? ? H2 _]. rewrite <- H1. autorewrite with len. lia.
Qed.

(** What receiving audio leaves as it was. *)
Record audio_same e e' : Prop := {
  as_conf : le_conf e' = le_conf e;
  as_paused : le_paused e' = le_paused e;
  as_raw : first_raw_ts (le_clock e') = first_raw_ts (le_clock e);
  as_start : start_ts (le_clock e') = start_ts (le_clock e);
  as_first : first_received (le_clock e) = true → first_received (le_clock e') = true;
  as_length : length (le_audio_input e') = length (le_audio_input e);
  as_connected : le_connected e' = true → le_connected e = true
}.

Lemma audio_same_refl e : audio_same e e.
Proof. by constructor. Qed.

Lemma audio_same_trans e1 e2 e3 : audio_same e1 e2 → audio_same e2 e3 → audio_same e1 e3.
Proof. intros [] []. constructor; (congruence || eauto). Qed.

Section sending.
Context (heard : list (list cell)) (skip n : Z).
Hypothesis heard_range : all_len n heard ∧ n ≤ 2 ^ 60 ∧ 0 ≤ skip.

Lemma send_audio_data_spec e w : encoding_ok e heard skip w → length heard = ec_planes (le_conf e) →
  ec_framesize_bytes (le_conf e) ≤ w →
  ∃ e' ok, send_audio_data encode update get_sei_data e None = Some (e', None, ok) ∧ audio_same e e' ∧
    encoding_ok e' heard skip (w - ec_framesize_bytes (le_conf e)) ∧ (ok = false → le_connected e' = false).
Proof.
  intros He Eh Hw. destruct heard_range as (Hn & Hn' & Hs). pose proof (encoding_count _ _ _ _ _ He Hn Eh Hs) as Hcount.
  destruct He as [Hd Hp (Hfb & Hbs & Efb) Hfr (conts & Hq & Hcw & Ez) Hpts]. set (c := le_conf e) in *.
  assert (Forall (λ l, ec_framesize_bytes c ≤ zlen l) conts) as Hc by (eapply Forall_impl; [exact Hcw|]; cbn; intros; lia).
  unfold send_audio_data. fold c. destruct (pop_planes_spec (ec_framesize_bytes c) _ _ _ Hq ltac:(lia) Hc) as (bufs & -> & Hq' & Hlen).
  cbn [mbind option_bind]. set (e1 := set_audio_input e bufs). set (fr := mk_frame _ _ _ _).
  destruct (do_encode_spec e1 None fr None 0 0 Hd) as (e2 & g & ok & -> & Ha & Hg). rewrite (Hg eq_refl).
  cbn [mbind option_bind]. destruct Ha as [Hac Hai Hap Had Hae Hapt Har Has Haf Hak]. cbn in Hac, Hai, Hap, Hae, Hapt, Har, Has, Haf, Hak.
  assert (length (fr_data fr) = ec_planes c ∧ all_len (ec_framesize_bytes c) (fr_data fr)) as Hfd.
  { split; [cbn; rewrite length_fmap; apply Hq|]. cbn. apply Forall_fmap. eapply Forall_impl; [exact Hc|].
    intros l Hl. cbn in *. apply sub_zlen; lia. }
  set (e3 := if ok then set_cur_pts e2 (i64 (cur_pts (le_clock e2) + ec_framesize c)) else e2).
  assert (le_conf e3 = c ∧ le_audio_input e3 = bufs ∧ le_paused e3 = le_paused e ∧ le_data e3 = le_data e2 ∧
    le_encoded e3 = le_encoded e ++ [fr] ∧ first_raw_ts (le_clock e3) = first_raw_ts (le_clock e) ∧
    start_ts (le_clock e3) = start_ts (le_clock e) ∧ (first_received (le_clock e) = true → first_received (le_clock e3) = true) ∧
    le_connected e3 = ok && le_connected e) as (E1 & E2 & E3 & E4 & E5 & E6 & E7 & E8 & E9).
  { unfold e3. destruct ok; cbn; rewrite ?Hac, ?Hai, ?Hap, ?Hae, ?Har, ?Has, ?Hak; split_and!; auto. }
  exists e3, ok. split; [by destruct ok|]. split; [constructor; rewrite ?E1, ?E2, ?E9; try done; destruct ok; done|].
  split; [|intros ->; by rewrite E9].
  constructor; rewrite ?E1, ?E2, ?E4, ?E5; [done|lia|done| | |].
  - apply Forall_app. split; [done|]. by constructor.
  - exists (drop (Z.to_nat (ec_framesize_bytes c)) <$> conts). split; [done|]. split.
    + apply Forall_fmap. eapply Forall_impl; [exact Hcw|]. intros l Hl. cbn in *. rewrite zlen_drop. lia.
    + rewrite encoded_snoc, zip_app_assoc. cbn [fr_data fr]. by rewrite zip_app_split.
  - rewrite E9. intros [-> Hk]%andb_true_iff. destruct (Hpts Hk) as [Hp1 Hp2]. unfold e3. cbn. rewrite Hapt.
    rewrite fmap_app, Hp1, Hp2, zlen_app. change (zlen [fr]) with 1. pose proof (zlen_nonneg (le_encoded e)).
    rewrite seqZ_app, fmap_app by lia. cbn. rewrite Hp2. split; [done|]. rewrite i64_small by nia. lia.
Qed.

Lemma send_loop_spec fuel : ∀ e w, encoding_ok e heard skip w → length heard = ec_planes (le_conf e) → w < Z.of_nat fuel →
  ∃ e' w', send_audio_loop encode update get_sei_data fuel e None = Some (e', None) ∧ audio_same e e' ∧
    encoding_ok e' heard skip w' ∧ (le_connected e' = true → w' < ec_framesize_bytes (le_conf e)).
Proof.
  induction fuel as [|fuel IH]; intros e w He Eh Hf.
  - exfalso. destruct (eo_queues _ _ _ _ He) as (conts & [_ El] & Hw & _). pose proof (eo_planes _ _ _ _ He).
    destruct conts as [|l conts]; [cbn in El; lia|]. inversion_clear Hw. pose proof (zlen_nonneg l). lia.
  - cbn [send_audio_loop]. destruct (eo_queues _ _ _ _ He) as (conts & [Hq El] & Hw & Ez). pose proof (eo_planes _ _ _ _ He) as Hp.
    destruct (le_audio_input e) as [|b bufs] eqn:Eb; [cbn in Hp; lia|]. destruct conts as [|l conts]; [cbn in El; lia|].
    destruct (ec_planes (le_conf e)) as [|k] eqn:Ek; [lia|]. cbn [take] in Hq. apply Forall2_cons in Hq as [[Hb _] _].
    inversion_clear Hw as [|? ? Hl _]. cbn [mbind option_bind head]. rewrite (h_size _ _ Hb), Hl.
    destruct (Z.ltb_spec w (ec_framesize_bytes (le_conf e))) as [H|H].
    { exists e, w. split; [done|]. split; [apply audio_same_refl|]. split; [done|lia]. }
    rewrite <- Ek in Eh. destruct (send_audio_data_spec e w He Eh H) as (e1 & ok & -> & Hs & He1 & Hok). cbn [mbind option_bind].
    destruct ok; [|exists e1, (w - ec_framesize_bytes (le_conf e)); split_and!; [done|done|done|by rewrite Hok]].
    pose proof (eo_frame _ _ _ _ He). rewrite <- (as_conf _ _ Hs) in Eh.
    destruct (IH e1 _ He1 Eh ltac:(lia)) as (e2 & w2 & -> & Hs2 & He2 & Hw2). exists e2, w2.
    split; [done|]. split; [by eapply audio_same_trans|]. split; [done|]. by rewrite <- (as_conf _ _ Hs).
Qed.
End sending.
End encoding.

(** ** Receiving audio *)

(** Blocks that hold [datas], of [s] bytes each. *)
Definition blocks_hold (s : Z) (n : nat) (data : list plane) (datas : list (list cell)) : Prop :=
  Forall2 (λ p d, ∀ off, 0 ≤ off < s → plane_load p off (s - off) = Some (drop (Z.to_nat off) d)) (take n data) datas.

Lemma load_from mem l off : load mem 0 (zlen l) = Some l → 0 ≤ off < zlen l →
  load mem off (zlen l - off) = Some (drop (Z.to_nat off) l).
Proof.
  unfold load, sub. intros E Ho. destruct ((_ || _) || _) eqn:E1; [done|].
  rewrite !orb_false_iff, !Z.ltb_ge in E1. rewrite !(proj2 (Z.ltb_ge _ _)) by lia. cbn [orb].
  injection E as E. cbn [Z.to_nat] in E. rewrite drop_0 in E.
  transitivity (Some (drop (Z.to_nat off) (take (Z.to_nat (zlen l)) mem))); [|by rewrite E].
  f_equal. rewrite skipn_firstn_comm. f_equal. lia.
Qed.

Lemma blocks_of_data s datas : all_len s datas →
  blocks_hold s (length datas) ((λ d, mk_plane d 0) <$> datas) datas.
Proof.
  intros H. unfold blocks_hold. rewrite firstn_all2 by (rewrite length_fmap; lia).
  apply Forall2_fmap_l. apply Forall_Forall2_diag. eapply Forall_impl; [exact H|]. intros d Hd off Ho. cbn in Hd.
  unfold plane_load. cbn [pl_block pl_off]. rewrite Z.add_0_l, <- Hd. apply load_from; [|lia].
  rewrite load_ok by (pose proof (zlen_nonneg d); lia). f_equal. unfold sub. rewrite drop_0, take_ge by (unfold zlen; lia). done.
Qed.

Lemma blocks_of_queues s n bufs ls : queues true n bufs ls → all_len s ls →
  blocks_hold s n ((λ dq, mk_plane (dq_data dq) 0) <$> bufs) ls.
Proof.
  intros [Hq _] Hl. unfold blocks_hold. rewrite <- fmap_take. apply Forall2_fmap_l.
  induction Hq as [|dq l bufs' ls' H Hq IH]; [constructor|]. inversion_clear Hl. constructor; [|by apply IH].
  intros off Ho. unfold plane_load. cbn [pl_block pl_off]. rewrite Z.add_0_l. subst s. apply load_from; [by apply queue_block|lia].
Qed.

Lemma zip_app_empty ls ks : length ks = length ls → all_len 0 ks → zip_app ls ks = ls.
Proof.
  revert ks. induction ls as [|l ls IH]; intros [|k ks] E H; try done. inversion_clear H as [|? ? Hk Hks].
  cbn. f_equal; [|apply IH; [cbn in E; lia|done]]. destruct k; [by rewrite app_nil_r|rewrite zlen_cons in Hk; pose proof (zlen_nonneg k); lia].
Qed.

Lemma drop_all_len s off ls : all_len s ls → 0 ≤ off → all_len (Z.max 0 (s - off)) (drop (Z.to_nat off) <$> ls).
Proof. intros H Ho. apply Forall_fmap. eapply Forall_impl; [exact H|]. intros l Hl. cbn in *. rewrite zlen_drop. lia. Qed.

Section pushing.
Context {impl : Type}.
Implicit Types e : live_encoder impl.

Lemma push_audio_spec zero e data datas conts w s off : queues zero (ec_planes (le_conf e)) (le_audio_input e) conts →
  all_len w conts → blocks_hold s (ec_planes (le_conf e)) data datas → all_len s datas → length datas = ec_planes (le_conf e) →
  0 ≤ off → 0 ≤ w → 0 ≤ s → w + s ≤ 2 ^ 61 →
  ∃ bufs, push_back_audio e data s off = Some (set_audio_input e bufs) ∧ length bufs = length (le_audio_input e) ∧
    queues zero (ec_planes (le_conf e)) bufs (zip_app conts (drop (Z.to_nat off) <$> datas)).
Proof.
  intros Hq Hw Hb Hs El Ho Hw0 Hs0 Hm. unfold push_back_audio. pose proof (drop_all_len s off datas Hs Ho) as Hd.
  destruct (Z.leb_spec s off) as [H|H].
  - exists (le_audio_input e). split; [by destruct e|]. split; [done|]. rewrite zip_app_empty; [done| |].
    + rewrite length_fmap, El. symmetry. apply Hq.
    + by rewrite Z.max_l in Hd by lia.
  - rewrite u64_small by lia.
    destruct (push_planes_spec zero off (s - off) _ _ data _ (drop (Z.to_nat off) <$> datas) Hq) as (bufs & E & Hq' & Hl).
    + apply Forall2_fmap_r. eapply Forall2_impl; [exact Hb|]. intros p d Hp. apply Hp. lia.
    + by rewrite length_fmap.
    + intros l c Hl Hc. unfold all_len in *. rewrite Forall_forall in Hw, Hd. rewrite (Hw l Hl), (Hd c Hc).
      change max_size with (2 ^ 62). lia.
    + rewrite E. cbn. exists bufs. split; [done|]. split; [done|]. done.
Qed.

Lemma offset_computed (c : encoder_conf) (v t : Z) : 0 < ec_samplerate c < 2 ^ 20 → 0 < ec_blocksize c < 2 ^ 16 → 0 ≤ v - t < 2 ^ 60 →
  samples_of (ec_samplerate c) (v - t) * ec_blocksize c < 2 ^ 62 →
  calc_offset_size c v t = samples_of (ec_samplerate c) (v - t) * ec_blocksize c ∧ 0 ≤ samples_of (ec_samplerate c) (v - t).
Proof.
  intros Hr Hb Hd Hs. unfold calc_offset_size. rewrite (u64_small (v - t)) by lia.
  destruct (samples_computed (ec_samplerate c) Hr (v - t) ltac:(lia)) as [E H]. unfold ns_to_audio_frames in E. rewrite E.
  rewrite u64_small by nia. done.
Qed.
End pushing.

(** ** A video and an audio encoder *)

(** A frame of the video, and a block of audio with the samples of every plane. *)
Inductive media_event :=
  | M_VIDEO (frame : video_data) (fer ferc : Z)
  | M_AUDIO (frames : Z) (datas : list (list cell)).

Section media.
Context {implV implA : Type}.
Context (encodeV : implV → encoder_frame → encoder_packet → implV * encoder_packet * bool * bool).
Context (updateV : implV → implV) (seiV : implV → option bytes).
Context (encodeA : implA → encoder_frame → encoder_packet → implA * encoder_packet * bool * bool).
Context (updateA : implA → implA) (seiA : implA → option bytes).
(** The sample rate and the time of the first sample. *)
Context (rate a0 : Z).

(** The encoders, and how many samples there have been. *)
Record media := mk_media { m_video : live_encoder implV; m_audio : live_encoder implA; m_samples : Z }.

Definition block_at (n frames : Z) (datas : list (list cell)) : audio_data :=
  mk_audio_data ((λ d, mk_plane d 0) <$> datas) frames (block_time rate a0 n).

Definition media_step (st : media) (ev : media_event) : option media :=
  match ev with
  | M_VIDEO frame fer ferc =>
      r ← receive_video encodeV updateV seiV (m_video st) None [Some (le_clock (m_audio st))] frame fer ferc;
      Some (mk_media r.1 (m_audio st) (m_samples st))
  | M_AUDIO frames datas =>
      r ← receive_audio encodeA updateA seiA (m_audio st) None (Some (le_clock (m_video st))) (block_at (m_samples st) frames datas);
      Some (mk_media (m_video st) r.1 (m_samples st + frames))
  end.

Fixpoint media_run (st : media) (evs : list media_event) : option media :=
  match evs with
  | [] => Some st
  | ev :: evs => st ← media_step st ev; media_run st evs
  end.

(** Frames have a time, blocks the size of their samples, and there are not too many. *)
Definition event_ok (c : encoder_conf) (n : Z) (ev : media_event) : bool :=
  match ev with
  | M_VIDEO frame _ _ => (0 <? vd_timestamp frame) && (vd_timestamp frame <? 2 ^ 59)
  | M_AUDIO frames datas =>
      (0 <? frames) && (frames <? 2 ^ 31) && bool_decide (length datas = ec_planes c) &&
      forallb (λ d, zlen d =? frames * ec_blocksize c) datas &&
      (block_time rate a0 (n + frames) <? 2 ^ 59) && ((n + frames) * ec_blocksize c <=? 2 ^ 59)
  end.

Definition samples_after (n : Z) (ev : media_event) : Z := match ev with M_VIDEO _ _ _ => n | M_AUDIO frames _ => n + frames end.

Fixpoint events_ok (c : encoder_conf) (n : Z) (evs : list media_event) : bool :=
  match evs with [] => true | ev :: evs => event_ok c n ev && events_ok c (samples_after n ev) evs end.

(** All samples, plane by plane. *)
Definition hear (heard : list (list cell)) (ev : media_event) : list (list cell) :=
  match ev with M_VIDEO _ _ _ => heard | M_AUDIO _ datas => zip_app heard datas end.
Definition heard_of (c : encoder_conf) (evs : list media_event) : list (list cell) :=
  foldl hear (replicate (ec_planes c) []) evs.

(** An encoder that has just been started, with no pause. *)
Record fresh {impl : Type} (e : live_encoder impl) : Prop := {
  fr_clock : cur_pts (le_clock e) = 0 ∧ first_received (le_clock e) = false ∧ start_ts (le_clock e) = 0;
  fr_nothing : le_encoded e = [];
  fr_pause : ts_start (pe_pause (le_paused e)) = 0 ∧ ts_offset (pe_pause (le_paused e)) = 0;
  fr_open : is_Some (le_data e);
  fr_input : le_audio_input e = replicate MAX_AV_PLANES deque_init
}.

Context (c : encoder_conf).
Hypothesis clock_range : 0 < rate < 2 ^ 20 ∧ 0 < a0 < 2 ^ 59.
Hypothesis conf_range : ec_samplerate c = rate ∧ (0 < ec_planes c ≤ MAX_AV_PLANES)%nat ∧ 0 < ec_blocksize c < 2 ^ 16 ∧
  0 < ec_framesize c ∧ ec_framesize_bytes c = ec_blocksize c * ec_framesize c.

(** The first sample kept is within a sample of the first frame. *)
Definition starts_at (v n skip : Z) : Prop :=
  0 ≤ skip ≤ n ∧ (v - a0) * rate - 1000000000 < skip * 1000000000 < (v - a0) * rate + rate.

Record audio_state (v : encoder_clock) (a : live_encoder implA) (n : Z) (heard : list (list cell)) : Prop := {
  au_conf : le_conf a = c;
  au_pause : ts_start (pe_pause (le_paused a)) = 0 ∧ ts_offset (pe_pause (le_paused a)) = 0;
  au_heard : length heard = ec_planes c ∧ all_len (n * ec_blocksize c) heard ∧ 0 ≤ n;
  au_planes : length (le_audio_input a) = MAX_AV_PLANES;
  au_state :
    (start_ts (le_clock a) = 0 ∧ le_encoded a = [] ∧ cur_pts (le_clock a) = 0 ∧ is_Some (le_data a) ∧
      queues true (ec_planes c) (le_audio_input a) heard) ∨
    (0 < n ∧ start_ts (le_clock a) = start_ts v ∧ start_ts v ≠ 0 ∧
      ∃ skip w, starts_at (start_ts v) n skip ∧ encoding_ok a heard (skip * ec_blocksize c) w ∧
        (le_connected a = true → w < ec_framesize_bytes c))
}.

(** When the first block is noted. *)
Definition audio_noted (a : live_encoder implA) (n : Z) : Prop :=
  if decide (n = 0) then first_received (le_clock a) = false
  else first_received (le_clock a) = true ∧ first_raw_ts (le_clock a) = a0.

Record video_state (v : live_encoder implV) (n : Z) : Prop := {
  vs_pause : ts_start (pe_pause (le_paused v)) = 0;
  vs_open : is_Some (le_data v);
  vs_start : (start_ts (le_clock v) = 0 ∧ first_received (le_clock v) = false ∧ le_encoded v = []) ∨
             (a0 ≤ start_ts (le_clock v) < 2 ^ 59 ∧ 0 < n ∧ le_encoded v ≠ [])
}.

Lemma drop_0_all (ls : list (list cell)) : drop (Z.to_nat 0) <$> ls = ls.
Proof. induction ls as [|l ls IH]; [done|]. cbn in *. by rewrite IH. Qed.

Lemma drop_zip_app k m ls ks : all_len m ls → 0 ≤ k ≤ m →
  zip_app (drop (Z.to_nat k) <$> ls) ks = drop (Z.to_nat k) <$> zip_app ls ks.
Proof.
  intros H Hk. revert ks. induction H as [|l ls Hl Hls IH]; intros [|k' ks]; try done. cbn. unfold zip_app in IH. rewrite IH.
  f_equal. rewrite drop_app_le; [done|]. unfold zlen in Hl. lia.
Qed.

Lemma drop_zip_past k m ls ks : all_len m ls → length ls = length ks → 0 ≤ m → 0 ≤ k →
  drop (Z.to_nat (m + k)) <$> zip_app ls ks = drop (Z.to_nat k) <$> ks.
Proof.
  intros H E Hm Hk. revert ks E. induction H as [|l ls Hl Hls IH]; intros [|k' ks] E; try done. cbn. unfold zip_app in IH.
  rewrite IH by (cbn in E; lia). f_equal. rewrite drop_app_ge by (unfold zlen in Hl; lia). f_equal. unfold zlen in Hl. lia.
Qed.

(** What an event of audio is. *)
Lemma event_audio n frames datas : 0 ≤ n → event_ok c n (M_AUDIO frames datas) = true →
  0 < frames < 2 ^ 31 ∧ length datas = ec_planes c ∧ all_len (frames * ec_blocksize c) datas ∧
  a0 ≤ block_time rate a0 n ∧ block_time rate a0 n + block_ns rate frames < 2 ^ 59 ∧
  0 ≤ n * ec_blocksize c ∧ n * ec_blocksize c + frames * ec_blocksize c ≤ 2 ^ 59.
Proof.
  intros Hn. cbn [event_ok]. rewrite !andb_true_iff, !Z.ltb_lt, Z.leb_le. intros [[[[[H1 H2] H3] H4] H5] H6].
  apply bool_decide_eq_true in H3. apply forallb_Forall in H4. pose proof (block_time_end rate a0 (proj1 clock_range) n frames).
  split; [lia|]. split; [done|]. split; [eapply Forall_impl; [exact H4|]; cbn; intros; lia|].
  split; [unfold block_time; pose proof (Z.div_pos (n * 1000000000) rate ltac:(lia) ltac:(lia)); lia|]. nia.
Qed.

Lemma begin_ok (a : live_encoder implA) heard k w conts : le_conf a = c → is_Some (le_data a) → le_encoded a = [] →
  cur_pts (le_clock a) = 0 → length (le_audio_input a) = MAX_AV_PLANES →
  queues false (ec_planes c) (le_audio_input a) conts → all_len w conts → conts = drop (Z.to_nat k) <$> heard →
  encoding_ok a heard k w.
Proof.
  intros Ec Hd Ee Ep El Hq Hw E. constructor; rewrite ?Ec, ?Ee, ?El; [done|lia|lia|constructor| |].
  - exists conts. split; [done|]. split; [done|]. rewrite <- E. apply zip_app_nil. apply Hq.
  - intros _. by rewrite Ep.
Qed.

(** What [receive_audio] does once the pause and the first block are dealt with. *)
Definition buffered_ok (v : encoder_clock) (n : Z) (heard : list (list cell)) (a a' : live_encoder implA) (ok : bool) : Prop :=
  le_conf a' = c ∧ le_paused a' = le_paused a ∧ length (le_audio_input a') = MAX_AV_PLANES ∧
  first_received (le_clock a') = true ∧ first_raw_ts (le_clock a') = a0 ∧
  if ok then start_ts (le_clock a') = start_ts v ∧ start_ts v ≠ 0 ∧
    ∃ skip w, starts_at (start_ts v) n skip ∧ encoding_ok a' heard (skip * ec_blocksize c) w
  else start_ts (le_clock a') = 0 ∧ le_encoded a' = [] ∧ cur_pts (le_clock a') = 0 ∧ is_Some (le_data a') ∧
    queues true (ec_planes c) (le_audio_input a') heard.

#[local] Arguments zip_app : simpl never.
#[local] Arguments encoded_planes : simpl never.
#[local] Arguments block_at : simpl never.

Lemma skip_range v n skip : starts_at v n skip → 0 ≤ skip * ec_blocksize c ≤ n * ec_blocksize c.
Proof. intros [H _]. split; [apply Z.mul_nonneg_nonneg|apply Z.mul_le_mono_nonneg_r]; lia. Qed.

Section block.
Context (v : encoder_clock) (a : live_encoder implA) (n : Z) (heard : list (list cell)) (frames : Z) (datas : list (list cell)).
Hypothesis Ha : audio_state v a n heard.
Hypothesis Hv : start_ts v = 0 ∨ a0 ≤ start_ts v < 2 ^ 59 ∧ 0 < n.
Hypothesis Hev : event_ok c n (M_AUDIO frames datas) = true.
Hypothesis Hfirst : first_received (le_clock a) = true ∧ first_raw_ts (le_clock a) = a0.

Let data := block_at n frames datas.
Let size := frames * ec_blocksize c.

Lemma push_block zero (e : live_encoder implA) conts w off : le_conf e = c → queues zero (ec_planes c) (le_audio_input e) conts → all_len w conts →
  0 ≤ off → 0 ≤ w ≤ 2 ^ 60 → ∃ bufs, push_back_audio e (ad_data data) size off = Some (set_audio_input e bufs) ∧
    length bufs = length (le_audio_input e) ∧ queues zero (ec_planes c) bufs (zip_app conts (drop (Z.to_nat off) <$> datas)).
Proof.
  intros Ec Hq Hw Ho Hw0. destruct (event_audio n frames datas) as (Hf & El & Hd & _ & _ & Hn & Hs); [apply Ha|done|].
  assert (0 ≤ size ≤ 2 ^ 59) as Hsz by (unfold size; split; [apply Z.mul_nonneg_nonneg|]; lia).
  pose proof (push_audio_spec zero e (ad_data data) datas conts w size off) as P. rewrite Ec in P.
  apply P; [done|done| |done|done|lia|lia|lia|lia]. rewrite <- El. by apply blocks_of_data.
Qed.

Lemma buffered_running : start_ts (le_clock a) ≠ 0 → ∃ a', buffer_audio a (Some v) data = Some (a', true) ∧
  buffered_ok v (n + frames) (zip_app heard datas) a a' true.
Proof.
  intros Hs. destruct (event_audio n frames datas) as (Hf & El & Hd & _ & _ & Hn & Hb); [apply Ha|done|].
  destruct Ha as [Ec Hp (Eh & Hh & Hn0) Hpl [(Es & _)|(Hn1 & Es & Hs0 & skip & w & Hst & He & Hw)]]; [done|].
  pose proof (skip_range _ _ _ Hst) as Hk.
  pose proof (encoding_count _ _ _ _ _ He Hh ltac:(by rewrite Ec) (proj1 Hk)) as Hc.
  destruct (eo_queues _ _ _ _ He) as (conts & Hq & Hcw & Ez). rewrite Ec in Hq, Ez, Hc.
  assert (0 ≤ w ≤ 2 ^ 60) as Hwr.
  { split; [destruct Hq as [_ Eq]; destruct conts as [|l conts]; [cbn in Eq; lia|inversion_clear Hcw; pose proof (zlen_nonneg l); lia]|].
    pose proof (Z.mul_nonneg_nonneg _ _ (zlen_nonneg (le_encoded a)) (Z.lt_le_incl _ _ (proj1 (eo_frame _ _ _ _ He)))) as Hz.
    rewrite Ec in Hz. lia. }
  destruct (push_block false a conts w 0 Ec Hq Hcw ltac:(lia) Hwr) as (bufs & E & Elen & Hq'). rewrite drop_0_all in Hq'.
  unfold buffer_audio. rewrite (proj2 (Z.eqb_neq _ _) Hs). cbn [negb]. rewrite Ec.
  change (ad_frames data * ec_blocksize c) with size. rewrite u64_small by (unfold size; lia). rewrite E. cbn [mbind option_bind].
  eexists. split; [done|]. unfold buffered_ok. cbn. split_and!; [done|done|lia|apply Hfirst|apply Hfirst|done|done|].
  exists skip, (w + size). split; [unfold starts_at in *; lia|].
  destruct He as [H1 H2 H3 H4 H5 H6]. constructor; cbn; rewrite ?Ec, ?Elen, ?Hpl in *; try done.
  exists (zip_app conts datas). split; [done|]. split; [by apply zip_app_len|].
    rewrite <- zip_app_assoc, Ez. by apply (drop_zip_app _ (n * ec_blocksize c)).
Qed.
(** The encoder before the audio starts. *)
Hypothesis Hidle : start_ts (le_clock a) = 0.

Lemma idle_facts : le_conf a = c ∧ le_encoded a = [] ∧ cur_pts (le_clock a) = 0 ∧ is_Some (le_data a) ∧
  queues true (ec_planes c) (le_audio_input a) heard ∧ length heard = ec_planes c ∧ all_len (n * ec_blocksize c) heard ∧ 0 ≤ n ∧
  length (le_audio_input a) = MAX_AV_PLANES.
Proof. destruct Ha as [Ec Hp (Eh & Hh & Hn0) Hpl [(Es & E1 & E2 & E3 & E4)|(Hn1 & Es & Hs0 & _)]].
  - split_and!; assumption.
  - exfalso. apply Hs0. by rewrite <- Es.
Qed.

Let t := block_time rate a0 n.

Lemma buffered_early : start_ts v = 0 ∨ t + block_ns rate frames ≤ start_ts v →
  ∃ a', buffer_audio a (Some v) data = Some (a', false) ∧ buffered_ok v (n + frames) (zip_app heard datas) a a' false.
Proof.
  intros Hearly. destruct idle_facts as (Ec & Ee & Ep & Hd & Hq & Eh & Hh & Hn & Hpl).
  destruct (event_audio n frames datas Hn Hev) as (Hf & El & Hdl & Ht & Hte & Hnb & Hb).
  destruct (push_block true a heard (n * ec_blocksize c) 0 Ec Hq Hh ltac:(lia) ltac:(lia)) as (bufs & E & Elen & Hq').
  rewrite drop_0_all in Hq'. unfold buffer_audio. rewrite Hidle, Ec. cbn [negb Z.eqb].
  change (ad_frames data * ec_blocksize c) with size. rewrite (u64_small size) by (unfold size; lia). rewrite E.
  cbn [mbind option_bind]. eexists. split.
  - destruct (Z.eqb_spec (start_ts v) 0) as [E0|E0]; [done|]. destruct Hearly as [?|Hearly]; [done|].
    cbn [ad_frames ad_timestamp data block_at]. rewrite (proj1 conf_range).
    destruct (block_ns_computed rate (proj1 clock_range) frames ltac:(lia)) as [En Hns].
    unfold audio_frames_to_ns in En. change (ad_frames data) with frames. rewrite En. cbn [mbind option_bind].
    change (ad_timestamp data) with t. rewrite u64_small by (unfold t; lia). rewrite (proj2 (Z.leb_le _ _)) by lia. done.
  - unfold buffered_ok. cbn. split_and!; try done; try apply Hfirst. lia.
Qed.

(** The block holds the time the video starts at. *)
Lemma buffered_start : start_ts v ≠ 0 → t ≤ start_ts v < t + block_ns rate frames →
  ∃ a', buffer_audio a (Some v) data = Some (a', true) ∧ buffered_ok v (n + frames) (zip_app heard datas) a a' true.
Proof.
  intros E0 Hin. destruct idle_facts as (Ec & Ee & Ep & Hd & Hq & Eh & Hh & Hn & Hpl).
  destruct (event_audio n frames datas Hn Hev) as (Hf & El & Hdl & Ht & Hte & Hnb & Hb).
  set (k := samples_of rate (start_ts v - t)).
  assert (k ≤ frames) as Hk by (apply samples_le; [apply clock_range|lia|lia]).
  assert (0 ≤ k) as Hk0 by (unfold k, samples_of; apply Z.div_pos; [apply Z.mul_nonneg_nonneg|]; lia).
  assert (k * ec_blocksize c ≤ size) as Hks by (unfold size; apply Z.mul_le_mono_nonneg_r; lia).
  set (off := if t <? start_ts v then calc_offset_size c (start_ts v) t else 0).
  assert (off = k * ec_blocksize c) as Eoff.
  { unfold off. destruct (Z.ltb_spec t (start_ts v)) as [H|H].
    - pose proof (offset_computed c (start_ts v) t) as P. rewrite (proj1 conf_range) in P. fold k in P.
      apply P; unfold size in Hks; unfold t in *; lia.
    - unfold k. replace (start_ts v - t) with 0 by lia. done. }
  set (e1 := set_start_ts (clear_audio a) (start_ts v)).
  assert (queues false (ec_planes c) (le_audio_input e1) (replicate (ec_planes c) [])) as Hq1.
  { unfold e1, clear_audio. cbn. rewrite Ec. apply (queues_weaken true). split; [|apply length_replicate].
    rewrite take_app_length' by (by rewrite length_replicate). apply Forall2_replicate. apply queue_init. }
  assert (length (le_audio_input e1) = MAX_AV_PLANES) as Hl1.
  { unfold e1, clear_audio. cbn. rewrite Ec, length_app, length_replicate, length_drop. lia. }
  destruct (push_block false e1 (replicate (ec_planes c) []) 0 off Ec Hq1 ltac:(by apply Forall_replicate) ltac:(lia) ltac:(lia))
    as (bufs & E & Elen & Hq2).
  rewrite zip_app_nil in Hq2 by (by rewrite length_fmap).
  unfold buffer_audio. rewrite Hidle, Ec. cbn [negb Z.eqb]. rewrite (proj2 (Z.eqb_neq _ _) E0).
  destruct (block_ns_computed rate (proj1 clock_range) frames ltac:(lia)) as [En Hns]. unfold audio_frames_to_ns in En.
  rewrite (proj1 conf_range). change (ad_frames data) with frames. change (frames * ec_blocksize c) with size. rewrite En. cbn [mbind option_bind].
  change (ad_timestamp data) with t. rewrite (u64_small (t + _)) by (unfold t; lia). rewrite (u64_small size) by (unfold size; lia).
  rewrite (proj2 (Z.leb_gt (t + _) _)), (proj2 (Z.leb_le t _)), (proj2 (Z.ltb_ge (start_ts v) t)) by lia.
  cbv iota. fold off e1. cbn [mbind option_bind]. rewrite E. cbn [mbind option_bind]. eexists. split; [done|]. unfold buffered_ok. cbn -[e1].
  split_and!; [done|done|cbn -[e1]; lia|apply Hfirst|apply Hfirst|done|done|].
  exists (n + k), (Z.max 0 (size - off)). split.
  { split; [lia|]. unfold k. apply cut_bounds. apply clock_range. }
  apply (begin_ok _ _ _ _ (drop (Z.to_nat off) <$> datas)); [done|done|done|done|cbn -[e1]; lia|done|by apply drop_all_len; [|lia]|].
  rewrite Eoff, Z.mul_add_distr_r. symmetry. apply drop_zip_past; [done|lia|lia|lia].
Qed.

Lemma first_queue : ∃ b, head (le_audio_input a) = Some b ∧ dq_size b = n * ec_blocksize c.
Proof.
  destruct idle_facts as (Ec & Ee & Ep & Hd & [Hq _] & Eh & Hh & Hn & Hpl). destruct conf_range as (_ & Hp & _).
  destruct (le_audio_input a) as [|b bufs]; [done|]. exists b. split; [done|].
  destruct (ec_planes c); [lia|]. destruct heard as [|l ls]; [done|]. cbn [take] in Hq.
  apply Forall2_cons in Hq as [[Hb _] _]. inversion_clear Hh as [|? ? Hl _]. by rewrite (h_size _ _ Hb).
Qed.

Definition buffered_skip : Z := samples_of rate (start_ts v - a0).

Lemma late_skip : start_ts v ≠ 0 → start_ts v < t → 0 ≤ buffered_skip ≤ n ∧ starts_at (start_ts v) n buffered_skip.
Proof.
  intros E0 Hlt. destruct Hv as [?|[Hvr Hn0]]; [done|]. destruct idle_facts as (_ & _ & _ & _ & _ & _ & _ & Hn & _).
  assert (0 ≤ buffered_skip ≤ n) as H.
  { unfold buffered_skip. split.
    - unfold samples_of. apply Z.div_pos; [apply Z.mul_nonneg_nonneg|]; lia.
    - apply samples_le; [apply clock_range|lia|]. unfold block_ns. unfold t, block_time in Hlt. lia. }
  split; [done|]. split; [done|]. pose proof (cut_bounds rate a0 (proj1 clock_range) 0 (start_ts v)) as B.
  replace (block_time rate a0 0) with a0 in B by (unfold block_time; rewrite Z.mul_0_l, Z.div_0_l by lia; lia).
  unfold buffered_skip. lia.
Qed.

(** What was received before the block becomes the beginning. *)
Lemma start_from_buffer_ok : start_ts v ≠ 0 → start_ts v < t → ∃ bufs,
  start_from_buffer (set_start_ts a (start_ts v)) (start_ts v) = Some (set_audio_input (set_start_ts a (start_ts v)) bufs) ∧
  length bufs = MAX_AV_PLANES ∧
  queues false (ec_planes c) bufs (drop (Z.to_nat (buffered_skip * ec_blocksize c)) <$> heard).
Proof.
  intros E0 Hlt. destruct idle_facts as (Ec & Ee & Ep & Hd & Hq & Eh & Hh & Hn & Hpl).
  destruct (event_audio n frames datas Hn Hev) as (Hf & El & Hdl & Ht & Hte & Hnb & Hb).
  destruct (late_skip E0 Hlt) as [Hk _]. destruct Hv as [?|[Hvr Hn0]]; [done|].
  assert (buffered_skip * ec_blocksize c ≤ n * ec_blocksize c) as Hks by (apply Z.mul_le_mono_nonneg_r; lia).
  destruct first_queue as (b & Eb & Es). unfold start_from_buffer.
  assert (∀ b, first_raw_ts (le_clock (set_audio_input (set_start_ts a (start_ts v)) b)) = a0) as Hraw by (intros; apply Hfirst).
  change (le_audio_input (set_start_ts a (start_ts v))) with (le_audio_input a).
  rewrite Eb. cbn [mbind option_bind]. rewrite Es, Hraw.
  set (off := if a0 <? start_ts v then calc_offset_size _ (start_ts v) a0 else 0).
  assert (off = buffered_skip * ec_blocksize c) as Eoff.
  { unfold off. cbn. rewrite Ec. destruct (Z.ltb_spec a0 (start_ts v)) as [H|H].
    - pose proof (offset_computed c (start_ts v) a0) as P. rewrite (proj1 conf_range) in P. fold buffered_skip in P. apply P; lia.
    - unfold buffered_skip. replace (start_ts v - a0) with 0 by lia. done. }
  set (e2 := set_audio_input _ _).
  assert (le_conf e2 = c) as Ec2 by done.
  pose proof (push_audio_spec false e2 ((λ dq, mk_plane (dq_data dq) 0) <$> le_audio_input a) heard (replicate (ec_planes c) []) 0 (n * ec_blocksize c) off) as P.
  rewrite Ec2 in P. destruct P as (bufs & E & Elen & Hq2).
  - apply (queues_weaken false), queues_init. lia.
  - by apply Forall_replicate.
  - by apply blocks_of_queues.
  - done.
  - done.
  - rewrite Eoff. apply Z.mul_nonneg_nonneg; lia.
  - lia.
  - lia.
  - lia.
  - rewrite zip_app_nil in Hq2 by (by rewrite length_fmap). rewrite E. exists bufs. split; [done|]. split; [by rewrite Elen|].
    by rewrite <- Eoff.
Qed.

Lemma buffered_late : start_ts v ≠ 0 → start_ts v < t →
  ∃ a', buffer_audio a (Some v) data = Some (a', true) ∧ buffered_ok v (n + frames) (zip_app heard datas) a a' true.
Proof.
  intros E0 Hlt. destruct idle_facts as (Ec & Ee & Ep & Hd & Hq & Eh & Hh & Hn & Hpl).
  destruct (event_audio n frames datas Hn Hev) as (Hf & El & Hdl & Ht & Hte & Hnb & Hb).
  destruct (late_skip E0 Hlt) as [Hk Hst]. destruct (start_from_buffer_ok E0 Hlt) as (bufs & Eb & Elen & Hqb).
  set (k := buffered_skip * ec_blocksize c) in *.
  assert (0 ≤ k ≤ n * ec_blocksize c) as Hks.
  { unfold k. split; [apply Z.mul_nonneg_nonneg|apply Z.mul_le_mono_nonneg_r]; lia. }
  set (e1 := set_start_ts a (start_ts v)) in *.
  pose proof (drop_all_len (n * ec_blocksize c) k heard Hh ltac:(lia)) as Hw.
  destruct (push_block false (set_audio_input e1 bufs) (drop (Z.to_nat k) <$> heard) (Z.max 0 (n * ec_blocksize c - k)) 0 Ec Hqb Hw
    ltac:(lia) ltac:(lia)) as (bufs2 & E & Elen2 & Hq2). rewrite drop_0_all in Hq2.
  unfold buffer_audio. rewrite Hidle, Ec. cbn [negb Z.eqb]. rewrite (proj2 (Z.eqb_neq _ _) E0).
  destruct (block_ns_computed rate (proj1 clock_range) frames ltac:(lia)) as [En Hns]. unfold audio_frames_to_ns in En.
  rewrite (proj1 conf_range). change (ad_frames data) with frames. change (frames * ec_blocksize c) with size. rewrite En. cbn [mbind option_bind].
  change (ad_timestamp data) with t. rewrite (u64_small (t + _)) by (unfold t; lia). rewrite (u64_small size) by (unfold size; lia).
  rewrite (proj2 (Z.leb_gt (t + _) _)), (proj2 (Z.leb_gt t _)), (proj2 (Z.ltb_lt (start_ts v) t)), (proj2 (Z.ltb_ge t _)) by lia.
  cbv iota. fold e1. rewrite Eb. cbn [mbind option_bind]. rewrite E. cbn [mbind option_bind].
  eexists. split; [done|]. unfold buffered_ok. cbn -[e1].
  split_and!; [done|done|cbn -[e1] in Elen2; lia|apply Hfirst|apply Hfirst|done|done|].
  exists buffered_skip, (Z.max 0 (n * ec_blocksize c - k) + size). split; [unfold starts_at in *; lia|].
  apply (begin_ok _ _ _ _ (zip_app (drop (Z.to_nat k) <$> heard) datas)); [done|done|done|done|cbn -[e1] in Elen2 |- *; lia|done|by apply zip_app_len|].
  by apply (drop_zip_app _ (n * ec_blocksize c)).
Qed.

Lemma buffered_idle : ∃ a' ok, buffer_audio a (Some v) data = Some (a', ok) ∧
  buffered_ok v (n + frames) (zip_app heard datas) a a' ok.
Proof.
  destruct (Z.eq_dec (start_ts v) 0) as [E0|E0]; [destruct buffered_early as (a' & ?); [by left|by exists a', false]|].
  destruct (Z.lt_ge_cases (start_ts v) t); [destruct buffered_late as (a' & ?); [done|done|by exists a', true]|].
  destruct (Z.lt_ge_cases (start_ts v) (t + block_ns rate frames)).
  - destruct buffered_start as (a' & ?); [done|lia|by exists a', true].
  - destruct buffered_early as (a' & ?); [by right|by exists a', false].
Qed.
End block.

Lemma all_len_0 k ls : all_len 0 ls → length ls = k → ls = replicate k [].
Proof.
  intros H <-. induction H as [|l ls Hl Hls IH]; [done|]. cbn. rewrite <- IH. f_equal.
  destruct l; [done|]. rewrite zlen_cons in Hl. pose proof (zlen_nonneg l). lia.
Qed.

(** The first block is noted and the queues, empty anyway, are cleared. *)
Lemma noted v a n heard : audio_state v a n heard → audio_noted a n →
  let a1 := if first_received (le_clock a) then a else clear_audio (set_first_raw a (block_time rate a0 n)) in
  audio_state v a1 n heard ∧ first_received (le_clock a1) = true ∧ first_raw_ts (le_clock a1) = a0.
Proof.
  intros Ha Hn. unfold audio_noted in Hn. destruct (decide (n = 0)) as [->|N].
  - rewrite Hn. destruct Ha as [Ec Hp (Eh & Hh & Hn0) Hpl Hst]. cbn zeta.
    assert (block_time rate a0 0 = a0) as Et by (unfold block_time; rewrite Z.mul_0_l, Z.div_0_l by lia; lia).
    split; [|by cbn]. constructor; cbn; [done|done|by split_and!| |].
    + rewrite Ec, length_app, length_replicate, length_drop. lia.
    + destruct Hst as [(Es & Ee & Ep & Hd & _)|(Hn1 & _)]; [left; split_and!; try done|lia].
      rewrite Ec, (all_len_0 (ec_planes c) heard) by done. split; [|apply length_replicate].
      rewrite take_app_length' by (by rewrite length_replicate). apply Forall2_replicate, queue_init.
  - destruct Hn as [Hn1 Hn2]. by rewrite Hn1.
Qed.

Lemma no_pause_audio (p : pause_data) (data : audio_data) : ts_start p = 0 → ts_offset p = 0 → 0 ≤ ad_timestamp data < 2 ^ 64 →
  audio_pause_check p data rate = Some (p, data, false).
Proof.
  intros Es Eo Ht. unfold audio_pause_check, audio_pause_check_internal. rewrite Es, Z.eqb_refl. cbn [mbind option_bind].
  rewrite Eo, Z.sub_0_r, u64_small by lia. by destruct data.
Qed.

(** The queues tell how often the loop can turn. *)
Lemma loop_fuel_enough (a : live_encoder implA) heard skip w : encoding_ok a heard skip w → w < Z.of_nat (loop_fuel a).
Proof.
  intros He. destruct (eo_queues _ _ _ _ He) as (conts & [Hq El] & Hw & _). pose proof (eo_planes _ _ _ _ He) as Hp.
  unfold loop_fuel. destruct (le_audio_input a) as [|b bufs]; [cbn in Hp; lia|]. destruct (ec_planes (le_conf a)); [lia|].
  destruct conts as [|l conts]; [done|]. cbn [take] in Hq. apply Forall2_cons in Hq as [[Hb _] _]. inversion_clear Hw as [|? ? Hl _].
  rewrite (h_size _ _ Hb). pose proof (zlen_nonneg l). lia.
Qed.

Lemma audio_received v a n heard frames datas : audio_state v a n heard → audio_noted a n →
  start_ts v = 0 ∨ a0 ≤ start_ts v < 2 ^ 59 ∧ 0 < n → event_ok c n (M_AUDIO frames datas) = true →
  ∃ a', receive_audio encodeA updateA seiA a None (Some v) (block_at n frames datas) = Some (a', None) ∧
    audio_state v a' (n + frames) (zip_app heard datas) ∧ audio_noted a' (n + frames).
Proof.
  intros Ha0 Hnt Hv Hev. destruct (noted _ _ _ _ Ha0 Hnt) as [Ha Hfirst]. unfold receive_audio.
  change (ad_timestamp (block_at n frames datas)) with (block_time rate a0 n).
  set (a1 := if first_received (le_clock a) then a else _) in *.
  destruct (event_audio n frames datas) as (Hf & El & Hdl & Ht & Hte & Hnb & Hb); [apply Ha|done|].
  rewrite (au_conf _ _ _ _ Ha), (proj1 conf_range), no_pause_audio; [|apply Ha|apply Ha|].
  2: { change (ad_timestamp _) with (block_time rate a0 n). destruct (block_ns_computed rate (proj1 clock_range) frames); lia. }
  cbn [mbind option_bind]. replace (set_le_paused a1 _) with a1 by (by destruct a1 as [? ? ? [] ]).
  assert (∃ a2 ok, buffer_audio a1 (Some v) (block_at n frames datas) = Some (a2, ok) ∧
    buffered_ok v (n + frames) (zip_app heard datas) a1 a2 ok) as (a2 & ok & -> & E1 & E2 & E3 & E4 & E5 & E6).
  { destruct (Z.eq_dec (start_ts (le_clock a1)) 0) as [E|E]; [by apply buffered_idle|].
    destruct (buffered_running v a1 n heard frames datas) as (a2 & ?); [done..|by exists a2, true]. }
  cbn [mbind option_bind].
  assert (length (zip_app heard datas) = ec_planes c ∧ all_len ((n + frames) * ec_blocksize c) (zip_app heard datas) ∧ 0 ≤ n + frames) as Hh.
  { destruct (au_heard _ _ _ _ Ha) as (Eh & Hh & Hn). rewrite zip_app_length by lia. split_and!; [done| |lia].
    rewrite Z.mul_add_distr_r. by apply zip_app_len. }
  assert (audio_noted a2 (n + frames) ∧ ts_start (pe_pause (le_paused a2)) = 0 ∧ ts_offset (pe_pause (le_paused a2)) = 0) as (Hnt2 & Hp2).
  { pose proof (au_heard _ _ _ _ Ha) as (_ & _ & Hn). unfold audio_noted. rewrite decide_False by lia. rewrite E2. split; [done|apply Ha]. }
  destruct ok; cbn [mbind option_bind].
  - destruct E6 as (Es & Es0 & skip & w & Hst & He). destruct Hh as (Hh1 & Hh2 & Hh3).
    destruct (send_loop_spec encodeA updateA seiA (zip_app heard datas) (skip * ec_blocksize c) ((n + frames) * ec_blocksize c)
      ltac:(split_and!; [done|lia|apply (skip_range _ _ _ Hst)]) (loop_fuel a2) a2 w He ltac:(by rewrite E1)
      ltac:(by eapply loop_fuel_enough)) as (a3 & w3 & -> & Hs & He3 & Hw3).
    exists a3. split; [done|]. split; [constructor|].
    + by rewrite (as_conf _ _ Hs).
    + by rewrite (as_paused _ _ Hs).
    + done.
    + by rewrite (as_length _ _ Hs).
    + right. rewrite (as_start _ _ Hs). split_and!; [|done|done|].
      { pose proof (au_heard _ _ _ _ Ha) as (_ & _ & Hn). lia. }
      exists skip, w3. split; [done|]. split; [done|]. by rewrite <- E1.
    + unfold audio_noted in *. destruct (decide (n + frames = 0)); [pose proof (au_heard _ _ _ _ Ha) as (_ & _ & Hn); lia|].
      split; [apply (as_first _ _ Hs), E4|by rewrite (as_raw _ _ Hs)].
  - exists a2. split; [done|]. split; [|done]. by constructor; auto.
Qed.

(** ** Receiving video *)

Lemma audio_state_video v v' a n heard : audio_state v a n heard → (start_ts v ≠ 0 → start_ts v' = start_ts v) → audio_state v' a n heard.
Proof.
  intros [Ec Hp Hh Hpl Hst] Hv. constructor; try done. destruct Hst as [?|(Hn & Es & Es0 & H)]; [by left|right].
  rewrite (Hv Es0). by split_and!.
Qed.

Lemma video_received v a n frame fer ferc : video_state v n → audio_noted a n → 0 ≤ n → 0 < vd_timestamp frame < 2 ^ 59 →
  ∃ v', receive_video encodeV updateV seiV v None [Some (le_clock a)] frame fer ferc = Some (v', None) ∧ video_state v' n ∧
    (start_ts (le_clock v) ≠ 0 → start_ts (le_clock v') = start_ts (le_clock v)).
Proof.
  intros [Hp Hd Hs] Hn Hn0 Ht. unfold receive_video. set (ts := vd_timestamp frame) in *.
  destruct (negb (first_received (le_clock v)) && existsb (waits_for ts) [Some (le_clock a)]) eqn:Ew.
  { exists v. split; [done|]. by split. }
  unfold video_pause_check, video_pause_check_internal. cbn [ts_start ts_end ts_offset]. rewrite Hp, Z.eqb_refl.
  cbn [handle_group mbind option_bind]. set (v1 := set_le_paused v _).
  set (v2 := if start_ts (le_clock v1) =? 0 then set_start_ts v1 ts else v1).
  assert (start_ts (le_clock v2) = (if start_ts (le_clock v) =? 0 then ts else start_ts (le_clock v)) ∧ is_Some (le_data v2) ∧
    pe_pause (le_paused v2) = mk_pause ts 0 (ts_end (pe_pause (le_paused v))) (ts_offset (pe_pause (le_paused v)))) as (E2 & Hd2 & Ep2).
  { unfold v2, v1. cbn. by destruct (start_ts (le_clock v) =? 0). }
  set (fr := mk_frame _ _ _ _). destruct (do_encode_spec encodeV updateV seiV v2 None fr (Some ts) fer ferc Hd2) as (v3 & g & ok & -> & He & Hg).
  rewrite (Hg eq_refl). cbn [mbind option_bind].
  set (v4 := if ok then set_cur_pts v3 _ else v3).
  assert (start_ts (le_clock v4) = start_ts (le_clock v2) ∧ is_Some (le_data v4) ∧ le_paused v4 = le_paused v2 ∧ le_encoded v4 ≠ []) as (E4 & Hd4 & Ep4 & Ee4).
  { destruct He as [H1 H2 H3 H4 H5 H6 H7 H8 H9 H10]. unfold v4. destruct ok; cbn; rewrite ?H5, ?H8, ?H3; split_and!; try done; by destruct (le_encoded v2). }
  exists v4. split; [done|]. rewrite E4, E2. split.
  - constructor; [by rewrite Ep4, Ep2|done|]. rewrite E4, E2. right.
    destruct Hs as [(Es & Ef & Ee)|(Es & Hn1 & Ee)].
    + rewrite Es, Z.eqb_refl. rewrite Ef in Ew. cbn in Ew. rewrite orb_false_r in Ew. apply orb_false_iff in Ew as [Ew1 Ew2].
      apply negb_false_iff in Ew1. apply Z.ltb_ge in Ew2. unfold audio_noted in Hn. destruct (decide (n = 0)); [congruence|].
      destruct Hn as [_ Hn]. split_and!; [lia|lia|lia|done].
    + rewrite (proj2 (Z.eqb_neq _ _)) by lia. by split_and!; [lia..|].
  - intros N. by rewrite (proj2 (Z.eqb_neq _ _) N).
Qed.

(** ** The run *)

Definition media_ok (st : media) (heard : list (list cell)) : Prop :=
  audio_state (le_clock (m_video st)) (m_audio st) (m_samples st) heard ∧ audio_noted (m_audio st) (m_samples st) ∧
  video_state (m_video st) (m_samples st).

Lemma media_step_ok st heard ev : media_ok st heard → event_ok c (m_samples st) ev = true →
  ∃ st', media_step st ev = Some st' ∧ media_ok st' (hear heard ev) ∧ m_samples st' = samples_after (m_samples st) ev.
Proof.
  intros (Ha & Hn & Hv) Hev. pose proof (au_heard _ _ _ _ Ha) as (_ & _ & Hn0). destruct ev as [frame fer ferc|frames datas]; cbn [media_step].
  - cbn [event_ok] in Hev. rewrite andb_true_iff, !Z.ltb_lt in Hev.
    destruct (video_received (m_video st) (m_audio st) (m_samples st) frame fer ferc Hv Hn Hn0 Hev) as (v' & -> & Hv' & Hs).
    eexists. split; [done|]. split; [|done]. split_and!; cbn; [by eapply audio_state_video|done|done].
  - assert (start_ts (le_clock (m_video st)) = 0 ∨ a0 ≤ start_ts (le_clock (m_video st)) < 2 ^ 59 ∧ 0 < m_samples st) as Hs.
    { destruct (vs_start _ _ Hv) as [[? _]|(? & ? & _)]; [by left|by right]. }
    destruct (audio_received _ _ _ _ _ _ Ha Hn Hs Hev) as (a' & -> & Ha' & Hn'). eexists. split; [done|]. split; [|done].
    split_and!; cbn; [done|done|]. destruct Hv as [H1 H2 H3]. constructor; [done|done|].
    destruct (event_audio _ _ _ Hn0 Hev) as (Hf & _). destruct H3 as [?|(? & ? & ?)]; [by left|right]. split_and!; (done || lia).
Qed.

Lemma media_run_ok evs : ∀ st heard, media_ok st heard → events_ok c (m_samples st) evs = true →
  ∃ st', media_run st evs = Some st' ∧ media_ok st' (foldl hear heard evs).
Proof.
  induction evs as [|ev evs IH]; intros st heard Hok Hev; [by exists st|]. cbn [events_ok] in Hev.
  apply andb_true_iff in Hev as [He Hev]. destruct (media_step_ok st heard ev Hok He) as (st1 & E1 & Hok1 & En).
  rewrite <- En in Hev. destruct (IH _ _ Hok1 Hev) as (st2 & E2 & Hok2). exists st2. cbn. rewrite E1. cbn. by split.
Qed.

Lemma fresh_ok v a : fresh v → fresh a → le_conf a = c → media_ok (mk_media v a 0) (replicate (ec_planes c) []).
Proof.
  intros [(V1 & V2 & V3) V4 [V5 V6] V7 V8] [(A1 & A2 & A3) A4 [A5 A6] A7 A8] Ec. split_and!; cbn.
  - constructor; [done|done| |by rewrite A8, length_replicate|].
    + split_and!; [by rewrite length_replicate|by apply Forall_replicate|done].
    + left. split_and!; try done. rewrite A8. apply queues_init. lia.
  - unfold audio_noted. by rewrite decide_True.
  - constructor; [done|done|]. left. by split_and!.
Qed.

(** C15: Whatever the order in which frames and blocks of audio arrive and whatever the
    implementations answer, the video encoder encodes nothing before the first block of
    audio, and the audio encoder nothing before the first frame that is encoded. Its first
    sample is less than a sample away from that frame, and from there on every sample is
    encoded or waiting, in order; while encoding succeeds less than a frame waits, and the
    time stamps of the frames count their samples. *)
Theorem audio_starts_with_video v a evs : fresh v → fresh a → le_conf a = c → events_ok c 0 evs = true →
  ∃ st, media_run (mk_media v a 0) evs = Some st ∧
    let v_start := start_ts (le_clock (m_video st)) in
    let a_start := start_ts (le_clock (m_audio st)) in
    let encoded := le_encoded (m_audio st) in
    (v_start = 0 ↔ le_encoded (m_video st) = []) ∧ (v_start ≠ 0 → a0 ≤ v_start) ∧
    (a_start = 0 → encoded = []) ∧
    (a_start ≠ 0 → a_start = v_start ∧ ∃ skip waiting,
      starts_at v_start (m_samples st) skip ∧
      waiting = contents <$> take (ec_planes c) (le_audio_input (m_audio st)) ∧
      zip_app (encoded_planes (ec_planes c) encoded) waiting = drop (Z.to_nat (skip * ec_blocksize c)) <$> heard_of c evs ∧
      (le_connected (m_audio st) = true → Forall (λ l, zlen l < ec_framesize_bytes c) waiting ∧
        fr_pts <$> encoded = (λ k, k * ec_framesize c) <$> seqZ 0 (zlen encoded))).
Proof.
  intros Hv Ha Ec Hev. destruct (media_run_ok evs (mk_media v a 0) _ (fresh_ok v a Hv Ha Ec) Hev) as (st & E & (Has & _ & Hvs)).
  exists st. split; [done|]. cbn zeta. split; [|split; [|split]].
  - destruct (vs_start _ _ Hvs) as [(? & _ & ?)|(? & _ & ?)]; split; (done || lia).
  - destruct (vs_start _ _ Hvs) as [(? & _)|(? & _)]; lia.
  - intros E0. destruct (au_state _ _ _ _ Has) as [(_ & ? & _)|(_ & Es & Es0 & _)]; [done|congruence].
  - intros N. destruct (au_state _ _ _ _ Has) as [(? & _)|(_ & Es & Es0 & skip & w & Hst & He & Hw)]; [done|]. split; [done|].
    destruct (eo_queues _ _ _ _ He) as (conts & [Hq El] & Hcw & Ez). pose proof (eo_pts _ _ _ _ He) as Hpts.
    rewrite (au_conf _ _ _ _ Has) in *. exists skip, conts. split; [done|]. split.
    { clear -Hq. induction Hq as [|dq l dqs ls [H _] Hq IH]; [done|]. cbn. f_equal; [by rewrite (holds_contents dq l)|done]. }
    split; [done|]. intros Hk. split; [|apply Hpts, Hk]. eapply Forall_impl; [exact Hcw|]. intros l Hl. cbn in Hl. rewrite Hl. auto.
Qed.
End media.

(** ** An example *)

(** An implementation that makes a packet of every frame. *)
Definition ex_encode (type : obs_encoder_type) (d : unit) (frame : encoder_frame) (pkt : encoder_packet) : unit * encoder_packet * bool * bool :=
  (d, mk_packet [fr_frames frame] (fr_pts frame) (fr_pts frame) (pkt_timebase_num pkt) (pkt_timebase_den pkt) type true 0 0 0 0 0 (pkt_encoder pkt),
   true, true).

Definition ex_live (c : encoder_conf) : live_encoder unit :=
  mk_live c (mk_clock 0 false 0 0 0 0) (mk_member None 0 0 false) (mk_paused false (mk_pause 0 0 0 0))
    (replicate MAX_AV_PLANES deque_init) [mk_cb false 1] [] 0 (Some ()) true true true [] [] [].
Definition ex_video_conf : encoder_conf := mk_ec 1 OBS_ENCODER_VIDEO 1 60 1 0 0 0 0 0 [2] [].
(** Two planes of one byte a sample at 1 kHz, frames of four samples. *)
Definition ex_audio_conf : encoder_conf := mk_ec 2 OBS_ENCODER_AUDIO 1 1000 0 1000 2 1 4 4 [1] [].

(** A block of samples numbered from [n], the second plane a hundred higher. *)
Definition ex_samples (n frames : Z) : media_event :=
  M_AUDIO frames [Some <$> seqZ n frames; Some <$> seqZ (100 + n) frames].
Definition ex_frame (ts : Z) : media_event := M_VIDEO (mk_video_data [] [] ts) 0 0.

(** The first sample is at 5000000; the frame at 4000000 is too early, the one at 9500000
    comes when ten samples are there. *)
Definition ex_media : list media_event :=
  [ex_frame 4000000; ex_samples 0 5; ex_samples 5 5; ex_frame 9500000; ex_samples 10 5; ex_frame 26000000; ex_samples 15 5].

Lemma audio_starts_with_video_witness : ∃ st,
  media_run (ex_encode OBS_ENCODER_VIDEO) id (λ _, None) (ex_encode OBS_ENCODER_AUDIO) id (λ _, None) 1000 5000000
    (mk_media (ex_live ex_video_conf) (ex_live ex_audio_conf) 0) ex_media = Some st ∧
  fr_data <$> le_encoded (m_audio st) = [[Some <$> [4; 5; 6; 7]; Some <$> [104; 105; 106; 107]];
    [Some <$> [8; 9; 10; 11]; Some <$> [108; 109; 110; 111]]; [Some <$> [12; 13; 14; 15]; Some <$> [112; 113; 114; 115]];
    [Some <$> [16; 17; 18; 19]; Some <$> [116; 117; 118; 119]]] ∧
  start_ts (le_clock (m_video st)) = 9500000 ∧
  (start_ts (le_clock (m_video st)) ≠ 0 → 5000000 ≤ start_ts (le_clock (m_video st))).
Proof.
  destruct (audio_starts_with_video (ex_encode OBS_ENCODER_VIDEO) id (λ _, None) (ex_encode OBS_ENCODER_AUDIO) id (λ _, None)
    1000 5000000 ex_audio_conf) with (v := ex_live ex_video_conf) (a := ex_live ex_audio_conf) (evs := ex_media) as (st & E & _ & H & _).
  - split; split; reflexivity.
  - unfold MAX_AV_PLANES. cbn. lia.
  - constructor; cbn; (by split_and!) || by eexists.
  - constructor; cbn; (by split_and!) || by eexists.
  - reflexivity.
  - vm_compute. reflexivity.
  - exists st. split; [exact E|]. vm_compute in E. injection E as <-. split; [reflexivity|]. split; [reflexivity|exact H].
Defined.
