(* ===== verification/EncoderReconfigure.v ===== *)
(** * The encoders of a group are reconfigured on the same frame

    Each encoder of a group gets its frames on its own, at its own rate, while the settings
    of any of them are changed. A change becomes a request; the theorem is that all encoders
    carry out a request on frames with one time stamp, each once, and none passes it. *)

From stdpp Require Import gmap.
From S2P Require Import Prelude Util Encoder Deque Interleave Pause EncoderRun EncoderSync EncoderGroup.

Local Open Scope Z_scope.

(** ** Counting *)

Section count.
Context {A : Type} (f : A → bool).

Definition count (l : list A) : Z := foldr (λ x s, (if f x then 1 else 0) + s) 0 l.

Lemma count_cons x l : count (x :: l) = (if f x then 1 else 0) + count l.
Proof. done. Qed.

Lemma count_range l : 0 ≤ count l ≤ zlen l.
Proof. induction l as [|x l IH]; [done|]. unfold count, zlen in *. cbn. destruct (f x); lia. Qed.

Lemma count_insert l i x y : l !! i = Some x →
  count (<[i := y]> l) = count l - (if f x then 1 else 0) + (if f y then 1 else 0).
Proof.
  revert i. induction l as [|z l IH]; intros [|i] E; try done; cbn in E.
  - simplify_eq. change (<[0%nat:=y]> (x :: l)) with (y :: l). rewrite !count_cons. lia.
  - change (<[S i:=y]> (z :: l)) with (z :: <[i:=y]> l). rewrite !count_cons, (IH i E). lia.
Qed.

Lemma count_all l : count l = zlen l ↔ Forall (λ x, f x = true) l.
Proof.
  induction l as [|x l IH]; [by split; [constructor|]|]. pose proof (count_range l). rewrite Forall_cons, <- IH.
  unfold count, zlen in *. cbn. destruct (f x); split; [split; [done|lia]|intros [_ ?]; lia|lia|intros [? _]; done].
Qed.

Lemma count_none l : count l = 0 ↔ Forall (λ x, f x = false) l.
Proof.
  induction l as [|x l IH]; [by split; [constructor|]|]. pose proof (count_range l). rewrite Forall_cons, <- IH.
  unfold count, zlen in *. cbn. destruct (f x); split; [lia|intros [? _]; done|split; [done|lia]|intros [_ ?]; lia].
Qed.
End count.

(** ** A group *)

Inductive group_event :=
  | G_FRAME (i : nat) (paired : list (option encoder_clock)) (frame : video_data) (fer ferc : Z)
  | G_UPDATE (i : nat).

Definition event_index (ev : group_event) : nat := match ev with G_FRAME i _ _ _ _ => i | G_UPDATE i => i end.

(** An implementation that remembers whether it was updated since the last frame, and the
    time stamps of the frames before which it was. *)
Record watched (impl : Type) := mk_watched { w_impl : impl; w_updated : bool; w_pts : list Z }.
Arguments mk_watched {impl}. Arguments w_impl {impl}. Arguments w_updated {impl}. Arguments w_pts {impl}.

Section group.
Context {impl : Type}.
Context (encode : impl → encoder_frame → encoder_packet → impl * encoder_packet * bool * bool).
Context (update : impl → impl) (sei : impl → option bytes).

Definition watch_encode (d : watched impl) (frame : encoder_frame) (pkt : encoder_packet) : watched impl * encoder_packet * bool * bool :=
  let '(d', pkt, received, success) := encode (w_impl d) frame pkt in
  (mk_watched d' false (if w_updated d then w_pts d ++ [fr_pts frame] else w_pts d), pkt, received, success).
Definition watch_update (d : watched impl) : watched impl := mk_watched (update (w_impl d)) true (w_pts d).
Definition watch_sei (d : watched impl) : option bytes := sei (w_impl d).

Record group_state := mk_gs { gs_encoders : list (live_encoder (watched impl)); gs_group : obs_encoder_group }.

Definition handled (e : live_encoder (watched impl)) : Z := last_handled_reconfigure_request (le_member e).
Definition requested (e : live_encoder (watched impl)) : Z := last_reconfigure_request (le_member e).
Definition pts (e : live_encoder (watched impl)) : Z := cur_pts (le_clock e).

Definition group_step (st : group_state) (ev : group_event) : option group_state :=
  e ← gs_encoders st !! event_index ev;
  '(e', g) ← match ev with
    | G_FRAME _ paired frame fer ferc => receive_video watch_encode watch_update watch_sei e (Some (gs_group st)) paired frame fer ferc
    | G_UPDATE _ => Some (obs_encoder_update watch_update e (Some (gs_group st)))
    end;
  gr ← g;
  Some (mk_gs (<[event_index ev := e']> (gs_encoders st)) gr).

Fixpoint group_run (st : group_state) (evs : list group_event) : option group_state :=
  match evs with
  | [] => Some st
  | ev :: evs => st ← group_step st ev; group_run st evs
  end.

(** The implementations do not fail. *)
Hypothesis encodes : ∀ d frame pkt, (encode d frame pkt).2 = true.

(** ** A frame *)

(** The numerator of the time base, and the common multiple of the divisors. *)
Context (tb multiple : Z).
Hypothesis timebase : 0 < tb ∧ 0 < multiple ∧ tb * multiple < 2 ^ 32.

Definition divisor_ok (c : encoder_conf) : Prop :=
  ec_timebase_num c = tb ∧ 0 < ec_frame_rate_divisor c ∧ (ec_frame_rate_divisor c | multiple).

Lemma step_value c : divisor_ok c → pts_step c = tb * ec_frame_rate_divisor c ∧ 0 < pts_step c < 2 ^ 32 ∧ (pts_step c | tb * multiple).
Proof.
  intros (E & Hd & Hm). unfold pts_step. rewrite E. pose proof (Z.divide_pos_le _ _ (proj1 (proj2 timebase)) Hm).
  assert (tb * ec_frame_rate_divisor c ≤ tb * multiple) by (apply Z.mul_le_mono_nonneg_l; lia).
  assert (0 < tb * ec_frame_rate_divisor c) by (apply Z.mul_pos_pos; lia).
  rewrite u32_small by lia. split_and!; [done|lia|lia|]. by apply Z.mul_divide_mono_l.
Qed.

(** The time stamp asked for: the first common one that the encoder has yet to reach. *)
Lemma aligned_spec c p gr : divisor_ok c → frame_rate_divisors_lcm gr = multiple → 0 ≤ p < 2 ^ 61 → (pts_step c | p) →
  ∃ x, aligned_next_pts c p gr = Some x ∧ (tb * multiple | x) ∧ p + pts_step c ≤ x ≤ p + pts_step c + tb * multiple.
Proof.
  intros Hc El Hp Hd. destruct (step_value c Hc) as (Es & Hs & Hm). destruct Hc as (Etb & _). unfold aligned_next_pts. rewrite Etb, El.
  assert (0 < tb * multiple) by (apply Z.mul_pos_pos; lia).
  rewrite (u32_small (tb * multiple)), (i64_small (p + _)) by lia. rewrite (proj2 (Z.eqb_neq _ _)) by lia.
  set (o := tb * multiple) in *. set (n := p + pts_step c) in *. rewrite Z.rem_mod_nonneg, Z.quot_div_nonneg by lia.
  pose proof (Z.div_mod n o ltac:(lia)) as Ediv. pose proof (Z.mod_pos_bound n o ltac:(lia)).
  pose proof (Z.div_pos n o ltac:(lia) ltac:(lia)).
  case_bool_decide as E.
  - exists n. split; [done|]. split; [|lia]. exists (n `div` o). lia.
  - assert (n `div` o ≤ n) by (apply Z.div_le_upper_bound; nia).
    assert ((n `div` o + 1) * o = n - n `mod` o + o) as Eo by lia.
    rewrite (i64_small (n `div` o + 1)), Eo, i64_small by lia. eexists. split; [done|]. split; [|lia].
    exists (n `div` o + 1). lia.
Qed.

(** What [handle_encoder_group_reconfigure_request] does. *)
Inductive handle_result e gr : live_encoder (watched impl) → obs_encoder_group → Prop :=
  | handle_now e' gr' : requested e = reconfigure_request gr → encoders_updated_next_pts gr = num_encoders_started gr →
      pts e = next_pts gr → handled e ≠ requested e →
      requested e' = requested e → handled e' = requested e →
      gr' = (let gr1 := mk_group (destroy_on_stop gr) (group_encoders gr) (num_encoders_started gr) (start_timestamp gr)
              (frame_rate_divisors_lcm gr) (reconfigure_request gr) (next_pts gr) (encoders_updated_next_pts gr)
              (u32 (encoders_reconfigured gr + 1)) (reconfigure_again gr) in
             if (encoders_reconfigured gr1 =? zlen (group_encoders gr)) && reconfigure_again gr
             then encoder_group_new_reconfigure_request gr1 else gr1) →
      handle_result e gr e' gr'
  | handle_later e' gr' x : requested e ≠ reconfigure_request gr ∨ pts e = next_pts gr →
      ¬ (requested e = reconfigure_request gr ∧ encoders_updated_next_pts gr = num_encoders_started gr ∧
         pts e = next_pts gr ∧ handled e ≠ requested e) →
      aligned_next_pts (le_conf e) (pts e) gr = Some x →
      requested e' = reconfigure_request gr → handled e' = handled e →
      gr' = mk_group (destroy_on_stop gr) (group_encoders gr) (num_encoders_started gr) (start_timestamp gr)
              (frame_rate_divisors_lcm gr) (reconfigure_request gr) (Z.max (next_pts gr) x)
              (if decide (requested e = reconfigure_request gr) then encoders_updated_next_pts gr
               else u32 (encoders_updated_next_pts gr + 1))
              (encoders_reconfigured gr) (reconfigure_again gr) →
      handle_result e gr e' gr'
  | handle_nothing e' : requested e = reconfigure_request gr → pts e ≠ next_pts gr →
      requested e' = requested e → handled e' = handled e → handle_result e gr e' gr.

Lemma handle_spec e gr x : aligned_next_pts (le_conf e) (pts e) gr = Some x →
  ∃ e' gr', handle_encoder_group_reconfigure_request e gr = Some (e', gr') ∧ handle_result e gr e' gr' ∧
    le_conf e' = le_conf e ∧ le_clock e' = le_clock e ∧ le_data e' = le_data e.
Proof.
  intros Ex. unfold handle_encoder_group_reconfigure_request, pts in *. fold (requested e) (handled e).
  destruct (Z.eqb_spec (requested e) (reconfigure_request gr)) as [Er|Er]; cbn [negb andb orb].
  - destruct (Z.eqb_spec (encoders_updated_next_pts gr) (num_encoders_started gr)) as [Eu|Eu];
      destruct (Z.eqb_spec (cur_pts (le_clock e)) (next_pts gr)) as [Ep|Ep];
      destruct (Z.eqb_spec (handled e) (requested e)) as [Eh|Eh]; cbn [negb andb]; rewrite ?Ex; cbn [mbind option_bind];
      (eexists _, _; split; [reflexivity|]; split; [|done]).
    all: try (by apply handle_nothing).
    all: try (eapply (handle_later _ _ _ _ x); [by right|unfold pts; tauto|done|done|done|by rewrite decide_True]).
    apply handle_now; done.
  - rewrite Ex. cbn [mbind option_bind]. eexists _, _. split; [reflexivity|]. split; [|done].
    eapply (handle_later _ _ _ _ x); [by left|tauto|done|done|done|by rewrite decide_False].
Qed.

(** The request is carried out when it is handled. *)
Lemma handle_reconfigure e gr e' gr' : handle_encoder_group_reconfigure_request e gr = Some (e', gr') →
  reconfigure_requested (le_member e) = false →
  reconfigure_requested (le_member e') = negb (handled e' =? handled e) ∧ le_active e' = le_active e.
Proof.
  unfold handle_encoder_group_reconfigure_request, handled. intros E Er.
  case_match eqn:E1.
  - simplify_eq. cbn. rewrite !andb_true_iff in E1. destruct E1 as [_ E1]. by rewrite Z.eqb_sym in E1.
  - case_match; [destruct (aligned_next_pts _ _ _); cbn in E; [|done]|]; simplify_eq; cbn; rewrite Z.eqb_refl; done.
Qed.

(** What an encoder that encodes has. *)
Record running (e : live_encoder (watched impl)) (w : list Z) : Prop := {
  ru_data : ∃ d, le_data e = Some (mk_watched d false w);
  ru_requested : reconfigure_requested (le_member e) = false;
  ru_active : le_active e = true
}.

Lemma send_off_same e d pkt : let e' := send_off_received watch_sei e d pkt in
  le_conf e' = le_conf e ∧ le_data e' = le_data e ∧ le_member e' = le_member e ∧ le_active e' = le_active e ∧ pts e' = pts e.
Proof. unfold send_off_received. destruct (first_received (le_clock e)), (is_video_packet pkt); cbn; repeat case_match; done. Qed.

Lemma encode_watched e g frame cts fer ferc d w : le_data e = Some (mk_watched d false w) → le_active e = true →
  ∃ e', do_encode watch_encode watch_update watch_sei e g frame cts fer ferc = Some (e', g, true) ∧
    running e' (if reconfigure_requested (le_member e) then w ++ [fr_pts frame] else w) ∧
    le_conf e' = le_conf e ∧ requested e' = requested e ∧ handled e' = handled e ∧ pts e' = pts e.
Proof.
  intros Ed Ea. unfold do_encode. rewrite Ed. cbn [mbind option_bind].
  set (u := reconfigure_requested (le_member e)). set (d1 := if u then _ else _). unfold watch_encode.
  destruct (encode (w_impl d1) frame _) as [[[d2 pkt] received] ok] eqn:Ee.
  pose proof (encodes (w_impl d1) frame (blank_packet (le_conf (if u then set_reconfigure_requested e false else e)))) as Hok.
  rewrite Ee in Hok. cbn in Hok. subst ok. cbn [send_off_encoder_packet negb].
  set (e1 := set_encoded _ _). set (e2 := match cts with Some _ => _ | None => _ end).
  assert (running e2 (if u then w ++ [fr_pts frame] else w) ∧ le_conf e2 = le_conf e ∧ requested e2 = requested e ∧
    handled e2 = handled e ∧ pts e2 = pts e) as (H1 & H2 & H3 & H4 & H5).
  { unfold e2, e1, d1, u in *. destruct cts, (reconfigure_requested (le_member e)) eqn:Er;
      (split; [constructor; [eexists; reflexivity|cbn; done|done]|done]). }
  destruct received; [|by exists e2].
  destruct (send_off_same e2 (mk_watched d2 false (if w_updated d1 then w_pts d1 ++ [fr_pts frame] else w_pts d1)) pkt) as (S1 & S2 & S3 & S4 & S5).
  eexists. split; [reflexivity|]. unfold requested, handled in *. rewrite S1, S3, S5. split; [|done].
  destruct H1 as [(d3 & H11) H12 H13]. constructor; [exists d3; congruence|congruence|congruence].
Qed.

(** A frame either changes nothing of this, or the request is looked at, carried out before
    the frame when it is handled, and the time stamp advances. *)
Lemma frame_cases e gr paired frame fer ferc w x : running e w → aligned_next_pts (le_conf e) (pts e) gr = Some x →
  ∃ e' gr', receive_video watch_encode watch_update watch_sei e (Some gr) paired frame fer ferc = Some (e', Some gr') ∧ le_conf e' = le_conf e ∧
    ((running e' w ∧ gr' = gr ∧ requested e' = requested e ∧ handled e' = handled e ∧ pts e' = pts e) ∨
     (∃ e1, handle_result e gr e1 gr' ∧ running e' (if handled e' =? handled e then w else w ++ [pts e]) ∧
       requested e' = requested e1 ∧ handled e' = handled e1 ∧ pts e' = i64 (pts e + pts_step (le_conf e)))).
Proof.
  intros [(d & Hd) Hq Ha] Ex. unfold receive_video.
  destruct (_ && _); [exists e, gr; split_and!; try done; left; split; [|done]; constructor; eauto|].
  destruct (_ && _); [exists e, gr; split_and!; try done; left; split; [|done]; constructor; eauto|].
  destruct (video_pause_check _ _) as [p [|]]; [eexists _, gr; split_and!; [reflexivity|done|left; split; [|done]; constructor; cbn; eauto]|].
  set (e0 := set_le_paused e _).
  destruct (handle_spec e0 gr x Ex) as (e1 & gr' & Eh & Hr & Ec & Ek & Ed). cbn [handle_group]. rewrite Eh. cbn [mbind option_bind].
  destruct (handle_reconfigure _ _ _ _ Eh Hq) as [Hq1 Ha1].
  set (e2 := if start_ts (le_clock e1) =? 0 then set_start_ts e1 _ else e1).
  assert (le_conf e2 = le_conf e ∧ le_data e2 = Some (mk_watched d false w) ∧ le_active e2 = true ∧
    le_member e2 = le_member e1 ∧ pts e2 = pts e) as (Ec2 & Ed2 & Ea2 & Em2 & Ep2).
  { unfold e2. assert (pts e1 = pts e) by (unfold pts; by rewrite Ek). assert (le_data e1 = Some (mk_watched d false w)) by (by rewrite Ed).
    assert (le_active e1 = true) by (by rewrite Ha1). destruct (start_ts (le_clock e1) =? 0); split_and!; done. }
  set (fr := mk_frame _ _ _ _). destruct (encode_watched e2 (Some gr') fr (Some (vd_timestamp frame)) fer ferc d w Ed2 Ea2)
    as (e3 & -> & [Hd3 Hq3 Ha3] & Ec3 & Er3 & Eh3 & Ep3). cbn [mbind option_bind].
  eexists _, gr'. split; [reflexivity|]. cbn [le_conf set_cur_pts set_clock]. split; [congruence|]. right. exists e1.
  assert (requested e2 = requested e1 ∧ handled e2 = handled e1) as [Er2 Eh2] by (unfold requested, handled; by rewrite Em2).
  split; [by destruct Hr; econstructor|]. change (handled (set_cur_pts e3 _)) with (handled e3). change (requested (set_cur_pts e3 _)) with (requested e3).
  rewrite Eh3, Eh2. split; [|split_and!; [congruence|done|]].
  - rewrite Em2, Hq1 in Hd3. change (handled e0) with (handled e) in Hd3. change (fr_pts fr) with (pts e2) in Hd3. rewrite Ep2 in Hd3.
    constructor; [|done|done]. by destruct (handled e1 =? handled e).
  - unfold pts. cbn [le_clock set_cur_pts set_clock cur_pts]. fold (pts e3). by rewrite Ep3, Ep2, Ec3, Ec2.
Qed.

(** ** The invariant *)

(** The encoders, and what each has to do with the last request [r]: it has yet to see it,
    it has asked for a time stamp, or it has carried it out, at [next]. [hist] are the time
    stamps of the earlier requests. *)
Context (total : Z).
Hypothesis total_range : 0 ≤ total < 2 ^ 32.

Inductive phase (r next updated : Z) (hist : list Z) (e : live_encoder (watched impl)) : list Z → Prop :=
  | phase_none : r = 0 → requested e = r → handled e = r → phase r next updated hist e hist
  | phase_unseen : 0 < r → requested e = r - 1 → handled e = r - 1 → phase r next updated hist e hist
  | phase_asked : 0 < r → requested e = r → handled e = r - 1 → pts e ≤ next → phase r next updated hist e hist
  | phase_done : 0 < r → requested e = r → handled e = r → updated = total → next < pts e → phase r next updated hist e (hist ++ [next]).

Record encoder_ok (n r next updated : Z) (hist : list Z) (e : live_encoder (watched impl)) : Prop := {
  ek_conf : divisor_ok (le_conf e);
  ek_pts : 0 ≤ pts e ≤ n * 2 ^ 32;
  ek_step : (pts_step (le_conf e) | pts e);
  ek_hist : Forall (λ p, p < pts e) hist;
  ek_phase : ∃ w, running e w ∧ phase r next updated hist e w
}.

Definition has_asked (r : Z) (e : live_encoder (watched impl)) : bool := negb (r =? 0) && (requested e =? r).
Definition has_done (r : Z) (e : live_encoder (watched impl)) : bool := negb (r =? 0) && (handled e =? r).

Record group_ok (n : Z) (hist : list Z) (es : list (live_encoder (watched impl))) (gr : obs_encoder_group) : Prop := {
  gk_total : zlen es = total;
  gk_started : num_encoders_started gr = total;
  gk_members : zlen (group_encoders gr) = total;
  gk_lcm : frame_rate_divisors_lcm gr = multiple;
  gk_request : 0 ≤ reconfigure_request gr ≤ n;
  gk_hist : zlen hist = Z.max 0 (reconfigure_request gr - 1);
  gk_next : 0 ≤ next_pts gr ≤ (n + 2) * 2 ^ 32;
  gk_aligned : (tb * multiple | next_pts gr);
  gk_updated : encoders_updated_next_pts gr = count (has_asked (reconfigure_request gr)) es;
  gk_done : encoders_reconfigured gr = count (has_done (reconfigure_request gr)) es;
  gk_all : Forall (encoder_ok n (reconfigure_request gr) (next_pts gr) (encoders_updated_next_pts gr) hist) es
}.

Lemma encoder_mono n r next upd hist n' next' upd' e : encoder_ok n r next upd hist e → n ≤ n' → next ≤ next' →
  (next' = next ∧ upd' = upd) ∨ upd ≠ total → encoder_ok n' r next' upd' hist e.
Proof.
  intros [Hc Hp Hs Hh (w & Hw & Hph)] Hn Hx Ho. constructor; try done; [lia|]. exists w. split; [done|].
  destruct Hph; [by apply phase_none|by apply phase_unseen|apply phase_asked; (done || lia)|].
  destruct Ho as [[-> ->]|]; [by apply phase_done|done].
Qed.

(** Before anything was asked, and when all have carried out the last request, a new one
    starts afresh. *)
Lemma new_request n n' hist es gr : group_ok n hist es gr → n + 1 ≤ n' → n' < 2 ^ 28 →
  reconfigure_request gr = 0 ∨ encoders_reconfigured gr = total →
  ∃ hist', group_ok n' hist' es (encoder_group_new_reconfigure_request gr).
Proof.
  intros [G1 G2 G3 G4 G5 GH G6 G7 G8 G9 G10] Hn Hn' Hr. set (r := reconfigure_request gr) in *.
  assert (u64 (r + 1) = r + 1) as Er by (apply u64_small; lia).
  assert (∃ hist', zlen hist' = r ∧ Forall (λ e, requested e = r ∧ handled e = r ∧ divisor_ok (le_conf e) ∧ 0 ≤ pts e ≤ n * 2 ^ 32 ∧
    (pts_step (le_conf e) | pts e) ∧ Forall (λ p, p < pts e) hist' ∧ running e hist') es) as (hist' & Hl & Hall).
  { destruct (Z.eq_dec r 0) as [E|N].
    - exists hist. split; [lia|]. eapply Forall_impl; [exact G10|]. intros e [Hc Hp Hs Hh (w & Hw & Hph)].
      inversion Hph; subst; try lia. split_and!; (done || lia).
    - destruct Hr as [?|Hr]; [done|]. exists (hist ++ [next_pts gr]). split; [autorewrite with len; cbn; lia|]. rewrite G9, <- G1 in Hr. apply count_all in Hr.
      eapply Forall_impl; [apply Forall_and; split; [exact G10|exact Hr]|].
      cbn. intros e [[Hc Hp Hs Hh (w & Hw & Hph)] Hd]. unfold has_done in Hd. rewrite andb_true_iff, Z.eqb_eq in Hd.
      inversion Hph; subst; try lia. split_and!; try done; try lia. apply Forall_app. split; [done|]. by constructor. }
  exists hist'. assert (count (has_asked (r + 1)) es = 0 ∧ count (has_done (r + 1)) es = 0) as [C1 C2].
  { split; apply count_none; (eapply Forall_impl; [exact Hall|]); intros e (H1 & H2 & _); unfold has_asked, has_done; lia. }
  constructor; cbn; fold r; rewrite ?Er; try done; try lia.
  eapply Forall_impl; [exact Hall|]. intros e (H1 & H2 & H3 & H4 & H5 & H6 & H7). constructor; try done; [lia|].
  exists hist'. split; [done|]. apply phase_unseen; lia.
Qed.

(** ** The steps *)

Lemma insert_same_ok n hist es gr i e e' gr' : group_ok n hist es gr → es !! i = Some e → gr' = gr →
  requested e' = requested e → handled e' = handled e →
  encoder_ok (n + 1) (reconfigure_request gr) (next_pts gr) (encoders_updated_next_pts gr) hist e' →
  group_ok (n + 1) hist (<[i := e']> es) gr'.
Proof.
  intros [G1 G2 G3 G4 G5 GH G6 G7 G8 G9 G10] Ei -> Er Eh He.
  constructor; try done; try lia; rewrite ?(count_insert _ _ _ _ _ Ei).
  - unfold zlen in *. by rewrite length_insert.
  - unfold has_asked at 2 3. rewrite Er. lia.
  - unfold has_done at 2 3. rewrite Eh. lia.
  - apply Forall_insert; [|done]. eapply Forall_impl; [exact G10|]. intros x Hx. eapply encoder_mono; [exact Hx|lia|lia|by left].
Qed.

(** Encoder [i] asks for the time stamp [x]. *)
Lemma asked_ok n hist es gr i e e' x gr' : group_ok n hist es gr → es !! i = Some e → encoders_updated_next_pts gr ≠ total ∨ reconfigure_request gr = 0 →
  requested e' = reconfigure_request gr → handled e' = handled e → (tb * multiple | x) → x ≤ (n + 3) * 2 ^ 32 →
  (requested e = reconfigure_request gr ∨ 0 < reconfigure_request gr) →
  gr' = mk_group (destroy_on_stop gr) (group_encoders gr) (num_encoders_started gr) (start_timestamp gr)
          (frame_rate_divisors_lcm gr) (reconfigure_request gr) (Z.max (next_pts gr) x)
          (if decide (requested e = reconfigure_request gr) then encoders_updated_next_pts gr
           else u32 (encoders_updated_next_pts gr + 1))
          (encoders_reconfigured gr) (reconfigure_again gr) →
  encoder_ok (n + 1) (reconfigure_request gr) (next_pts gr') (encoders_updated_next_pts gr') hist e' →
  group_ok (n + 1) hist (<[i := e']> es) gr'.
Proof.
  intros [G1 G2 G3 G4 G5 GH G6 G7 G8 G9 G10] Ei Hu Er Eh Hx Hxr Hr0 Eg He'. set (r := reconfigure_request gr) in *.
  pose proof (count_range (has_asked r) es) as Hc. rewrite G1 in Hc.
  assert (encoders_updated_next_pts gr' = encoders_updated_next_pts gr +
    (if decide (requested e = r) then 0 else 1)) as Eu.
  { rewrite Eg. cbn. case_decide; [lia|]. rewrite u32_small; lia. }
  rewrite Eg in *. clear Eg gr'. constructor; cbn [encoders_updated_next_pts next_pts reconfigure_request num_encoders_started group_encoders
    frame_rate_divisors_lcm encoders_reconfigured] in *; fold r; try done; try lia; rewrite ?(count_insert _ _ _ _ _ Ei).
  - unfold zlen in *. by rewrite length_insert.
  - destruct (Z.max_spec (next_pts gr) x) as [[_ ->]|[_ ->]]; done.
  - rewrite Eu, G8. unfold has_asked at 3 4. rewrite Er, Z.eqb_refl. case_decide as E; [rewrite E, Z.eqb_refl; lia|].
    rewrite (proj2 (Z.eqb_neq _ _) E), (proj2 (Z.eqb_neq r 0)); cbn; lia.
  - unfold has_done at 2 3. rewrite Eh. lia.
  - rewrite Eu in *. apply Forall_insert; [|done]. eapply Forall_impl; [exact G10|]. intros y Hy.
    destruct Hu as [Hu|Hu]; [eapply encoder_mono; [exact Hy|lia|lia|by right]|].
    destruct Hy as [Hc1 Hp Hs Hh (w & Hw & Hph)]. constructor; try done; [lia|]. exists w. split; [done|].
    assert (w = hist ∧ requested y = r ∧ handled y = r) as (-> & ? & ?) by (destruct Hph; (done || lia)). by apply phase_none.
Qed.

Lemma group_mono n n' hist es gr : group_ok n hist es gr → n ≤ n' → group_ok n' hist es gr.
Proof.
  intros [G1 G2 G3 G4 G5 GH G6 G7 G8 G9 G10] Hn. constructor; try done; try lia. eapply Forall_impl; [exact G10|].
  intros x Hx. eapply encoder_mono; [exact Hx|lia|lia|by left].
Qed.

Lemma group_again n hist es gr b : group_ok n hist es gr →
  group_ok n hist es (mk_group (destroy_on_stop gr) (group_encoders gr) (num_encoders_started gr) (start_timestamp gr)
    (frame_rate_divisors_lcm gr) (reconfigure_request gr) (next_pts gr) (encoders_updated_next_pts gr) (encoders_reconfigured gr) b).
Proof. by intros []. Qed.

(** Encoder [i] carries out the request. *)
Lemma done_ok n hist es gr i e e' gr' : group_ok n hist es gr → es !! i = Some e → n + 2 < 2 ^ 28 → 0 < reconfigure_request gr →
  encoders_updated_next_pts gr = total → requested e = reconfigure_request gr → requested e' = reconfigure_request gr →
  handled e ≠ reconfigure_request gr → handled e' = reconfigure_request gr →
  encoder_ok (n + 1) (reconfigure_request gr) (next_pts gr) total hist e' →
  gr' = (let gr1 := mk_group (destroy_on_stop gr) (group_encoders gr) (num_encoders_started gr) (start_timestamp gr)
          (frame_rate_divisors_lcm gr) (reconfigure_request gr) (next_pts gr) (encoders_updated_next_pts gr)
          (u32 (encoders_reconfigured gr + 1)) (reconfigure_again gr) in
         if (encoders_reconfigured gr1 =? zlen (group_encoders gr)) && reconfigure_again gr
         then encoder_group_new_reconfigure_request gr1 else gr1) →
  ∃ hist', group_ok (n + 2) hist' (<[i := e']> es) gr'.
Proof.
  intros Hg Ei Hn Hr0 Hu Er Er' Eh Eh' He'. set (gr1 := mk_group _ _ _ _ _ _ _ _ _ _). intros ->.
  assert (group_ok (n + 1) hist (<[i := e']> es) gr1) as Hg1.
  { destruct Hg as [G1 G2 G3 G4 G5 GH G6 G7 G8 G9 G10]. assert (zlen (<[i:=e']> es) = total) as El by (unfold zlen in *; by rewrite length_insert).
    assert (count (has_done (reconfigure_request gr)) (<[i:=e']> es) = encoders_reconfigured gr + 1) as Ed.
    { rewrite (count_insert _ _ _ _ _ Ei), G9. unfold has_done at 2 3. rewrite Eh', Z.eqb_refl, (proj2 (Z.eqb_neq _ _) Eh), (proj2 (Z.eqb_neq (reconfigure_request gr) 0)); cbn; lia. }
    pose proof (count_range (has_done (reconfigure_request gr)) (<[i:=e']> es)) as Hc. rewrite El in Hc.
    pose proof (count_range (has_done (reconfigure_request gr)) es).
    unfold gr1. constructor; cbn; try done; try lia.
    - rewrite G8, (count_insert _ _ _ _ _ Ei). unfold has_asked at 3 4. rewrite Er, Er'. lia.
    - rewrite Ed, u32_small by lia. done.
    - rewrite Hu in *. apply Forall_insert; [|done]. eapply Forall_impl; [exact G10|].
      intros x Hx. eapply encoder_mono; [exact Hx|lia|lia|by left]. }
  cbn [encoders_reconfigured gr1]. destruct (_ && _) eqn:E; [|exists hist; eapply group_mono; [exact Hg1|lia]].
  eapply new_request; [exact Hg1|lia|lia|right]. rewrite andb_true_iff, Z.eqb_eq in E. cbn. rewrite <- (gk_members _ _ _ _ Hg). apply E.
Qed.

Lemma unseen_left n hist es gr i e : group_ok n hist es gr → es !! i = Some e → requested e ≠ reconfigure_request gr →
  encoders_updated_next_pts gr ≠ total.
Proof.
  intros Hg Ei Hne Eu. rewrite (gk_updated _ _ _ _ Hg), <- (gk_total _ _ _ _ Hg), count_all in Eu.
  pose proof (proj1 (Forall_lookup _ _) Eu _ _ Ei) as H. cbn in H. unfold has_asked in H. rewrite andb_true_iff, Z.eqb_eq in H. by destruct H.
Qed.

Lemma next_multiple d p q : 0 < d → (d | q) → (d | p) → p < q → p + d ≤ q.
Proof. intros Hd [a ->] [b ->] H. assert (b < a) by (apply (Z.mul_lt_mono_pos_r d); lia). nia. Qed.

Lemma group_frame_ok n hist es gr i e paired frame fer ferc : group_ok n hist es gr → es !! i = Some e → 0 ≤ n → n + 2 < 2 ^ 28 →
  ∃ e' gr' hist', receive_video watch_encode watch_update watch_sei e (Some gr) paired frame fer ferc = Some (e', Some gr') ∧
    group_ok (n + 2) hist' (<[i := e']> es) gr'.
Proof.
  intros Hg Ei Hn0 Hn. pose proof (proj1 (Forall_lookup _ _) (gk_all _ _ _ _ Hg) _ _ Ei) as He.
  pose proof He as [Hc Hp Hs Hh (w & Hw & Hph)]. destruct (step_value _ Hc) as (_ & Hst & Hsm).
  destruct (aligned_spec _ (pts e) gr Hc (gk_lcm _ _ _ _ Hg) ltac:(lia) Hs) as (x & Ex & Hxd & Hx).
  pose proof (proj2 (proj2 timebase)).
  destruct (frame_cases e gr paired frame fer ferc w x Hw Ex) as (e' & gr' & -> & Ec & [(Hw' & -> & Er & Eh & Ep)|(e1 & Hr & Hw' & Er & Eh & Ep)]).
  - eexists _, _, hist. split; [reflexivity|]. eapply group_mono; [eapply insert_same_ok; try done|lia].
    constructor; rewrite ?Ec, ?Ep; try done; [lia|]. exists w. split; [done|].
    destruct Hph; [apply phase_none|apply phase_unseen|apply phase_asked|apply phase_done]; (done || congruence).
  - assert (pts e' = pts e + pts_step (le_conf e)) as Ep' by (rewrite Ep; apply i64_small; lia). clear Ep.
    assert (∀ next upd w', 0 ≤ n → running e' w' → phase (reconfigure_request gr) next upd hist e' w' →
      encoder_ok (n + 1) (reconfigure_request gr) next upd hist e') as He'.
    { intros next upd w' _ Hr' Hph'. constructor; rewrite ?Ec, ?Ep'; try done; [lia| | |].
      - by apply Z.divide_add_r.
      - eapply Forall_impl; [exact Hh|]. cbn. intros; lia.
      - by exists w'. }
    pose proof (gk_request _ _ _ _ Hg) as Hrr. pose proof (gk_next _ _ _ _ Hg) as Hnn.
    destruct Hr as [e1 gr' Rr Ru Rp Rh Rr1 Rh1 Rg|e1 gr' x' Ro Rn Rx Rr1 Rh1 Rg|e1 Rr Rp Rr1 Rh1].
    + assert (w = hist ∧ 0 < reconfigure_request gr) as [-> Hr0].
      { destruct Hph; (done || lia || congruence). }
      rewrite (gk_started _ _ _ _ Hg) in Ru. rewrite (proj2 (Z.eqb_neq _ _)) in Hw' by congruence.
      destruct (done_ok n hist es gr i e e' gr') as (hist' & Hg'); try done; try congruence.
      { eapply He'; [done|exact Hw'|]. rewrite Rp. apply phase_done; (done || congruence || lia). }
      eexists _, _, hist'. by split.
    + assert (w = hist ∧ (encoders_updated_next_pts gr ≠ total ∨ reconfigure_request gr = 0) ∧
        (requested e = reconfigure_request gr ∨ 0 < reconfigure_request gr)) as (-> & Hu & Hr0).
      { pose proof (gk_started _ _ _ _ Hg) as Gs. destruct Hph.
        - split_and!; [done|by right|by left].
        - split_and!; [done|left|by right]. eapply unseen_left; [done..|lia].
        - split_and!; [done|left|by right]. destruct Ro as [?|Ro]; [done|]. rewrite Gs in Rn. intros Eu. apply Rn. split_and!; (done || lia).
        - destruct Ro; (done || lia). }
      eexists _, _, hist. split; [reflexivity|]. eapply group_mono; [|instantiate (1 := n + 1); lia].
      rewrite (proj2 (Z.eqb_eq _ _)) in Hw' by congruence. rewrite Rx in Ex. injection Ex as ->.
      eapply asked_ok; try done; try congruence; try lia.
      eapply He'; [done|exact Hw'|]. subst gr'. cbn [next_pts]. destruct (Z.eq_dec (reconfigure_request gr) 0) as [E|E].
      * destruct Hph; try lia. apply phase_none; (done || congruence).
      * assert (handled e = reconfigure_request gr - 1).
        { destruct Hph; lia. }
        apply phase_asked; (done || congruence || lia).
    + eexists _, _, hist. split; [reflexivity|]. eapply group_mono; [|instantiate (1 := n + 1); lia].
      rewrite (proj2 (Z.eqb_eq _ _)) in Hw' by congruence.
      eapply insert_same_ok; try done; try congruence.
      eapply He'; [done|exact Hw'|]. destruct Hph as [? ? ?|? ? ?|? ? ? Hle|? ? ? Hu Hlt].
      * apply phase_none; (done || congruence).
      * lia.
      * apply phase_asked; [done|congruence|congruence|]. rewrite Ep'. apply next_multiple; [lia| |done|lia].
        etransitivity; [exact Hsm|apply (gk_aligned _ _ _ _ Hg)].
      * apply phase_done; (done || congruence || lia).
Qed.

Lemma update_ok n hist es gr i e : group_ok n hist es gr → es !! i = Some e → n + 2 < 2 ^ 28 →
  ∃ gr' hist', obs_encoder_update watch_update e (Some gr) = (e, Some gr') ∧ group_ok (n + 2) hist' es gr'.
Proof.
  intros Hg Ei Hn. pose proof (proj1 (Forall_lookup _ _) (gk_all _ _ _ _ Hg) _ _ Ei) as [_ _ _ _ (w & [(d & Ed) _ Ea] & _)].
  unfold obs_encoder_update. rewrite Ed, Ea. cbn [negb].
  destruct (_ || _) eqn:Eo.
  - destruct (new_request n (n + 2) hist es gr Hg) as (hist' & Hg'); [lia|lia| |eexists _, hist'; by split].
    apply orb_true_iff in Eo as [Eo|Eo]; apply Z.eqb_eq in Eo; [by left|right]. by rewrite Eo, (gk_members _ _ _ _ Hg).
  - eexists _, hist. split; [reflexivity|]. eapply group_mono; [|instantiate (1 := n); lia].
    destruct (last_handled_reconfigure_request _ =? _); [by apply group_again|done].
Qed.

Lemma group_step_ok n hist st ev : group_ok n hist (gs_encoders st) (gs_group st) → 0 ≤ n → n + 2 < 2 ^ 28 →
  (event_index ev < length (gs_encoders st))%nat →
  ∃ st' hist', group_step st ev = Some st' ∧ group_ok (n + 2) hist' (gs_encoders st') (gs_group st') ∧
    length (gs_encoders st') = length (gs_encoders st).
Proof.
  intros Hg Hn0 Hn Hi. destruct (lookup_lt_is_Some_2 _ _ Hi) as [e Ei]. unfold group_step. rewrite Ei. cbn [mbind option_bind].
  destruct ev as [i paired frame fer ferc|i]; cbn [event_index] in *.
  - destruct (group_frame_ok n hist _ _ i e paired frame fer ferc Hg Ei Hn0 Hn) as (e' & gr' & hist' & -> & Hg').
    eexists _, hist'. split; [reflexivity|]. split; [done|]. cbn. by rewrite length_insert.
  - destruct (update_ok n hist _ _ i e Hg Ei Hn) as (gr' & hist' & -> & Hg').
    eexists _, hist'. split; [reflexivity|]. cbn. rewrite length_insert, list_insert_id by done. by split.
Qed.

Lemma group_run_ok evs : ∀ n hist st, group_ok n hist (gs_encoders st) (gs_group st) → 0 ≤ n → n + 2 * zlen evs < 2 ^ 28 →
  Forall (λ ev, (event_index ev < length (gs_encoders st))%nat) evs →
  ∃ st' n' hist', group_run st evs = Some st' ∧ group_ok n' hist' (gs_encoders st') (gs_group st') ∧
    length (gs_encoders st') = length (gs_encoders st).
Proof.
  induction evs as [|ev evs IH]; intros n hist st Hg Hn0 Hn Hi; [by exists st, n, hist|].
  apply Forall_cons in Hi as [Hi Hs]. autorewrite with len in Hn. pose proof (zlen_nonneg evs).
  destruct (group_step_ok n hist st ev Hg Hn0 ltac:(lia) Hi) as (st1 & hist1 & E1 & Hg1 & El).
  destruct (IH (n + 2) hist1 st1 Hg1 ltac:(lia) ltac:(lia)) as (st2 & n2 & hist2 & E2 & Hg2 & El2); [by rewrite El|].
  exists st2, n2, hist2. cbn. rewrite E1. cbn. split_and!; (done || congruence).
Qed.

(** ** The theorem *)

(** The encoders of a group that have all started, and none of which has had a frame. *)
Definition just_started (st : group_state) : Prop :=
  zlen (gs_encoders st) = total ∧ num_encoders_started (gs_group st) = total ∧ zlen (group_encoders (gs_group st)) = total ∧
  frame_rate_divisors_lcm (gs_group st) = multiple ∧ reconfigure_request (gs_group st) = 0 ∧ next_pts (gs_group st) = 0 ∧
  encoders_updated_next_pts (gs_group st) = 0 ∧ encoders_reconfigured (gs_group st) = 0 ∧
  Forall (λ e, divisor_ok (le_conf e) ∧ running e [] ∧ requested e = 0 ∧ handled e = 0 ∧ pts e = 0) (gs_encoders st).

Lemma just_started_ok st : just_started st → group_ok 0 [] (gs_encoders st) (gs_group st).
Proof.
  intros (H1 & H2 & H3 & H4 & H5 & H6 & H7 & H8 & H9). constructor; rewrite ?H5, ?H6, ?H7, ?H8; try done.
  - by apply Z.divide_0_r.
  - symmetry. apply count_none, Forall_true. done.
  - symmetry. apply count_none, Forall_true. done.
  - eapply Forall_impl; [exact H9|]. intros e (Hc & Hr & Hq & Hh & Hp). constructor; rewrite ?Hp; try done.
    + by apply Z.divide_0_r.
    + exists []. split; [done|]. by apply phase_none.
Qed.

Lemma running_same e w w' : running e w → running e w' → w = w'.
Proof. intros [(? & E1) _ _] [(? & E2) _ _]. congruence. Qed.

(** What the invariant says of two encoders. *)
Lemma same_frames n hist es gr e1 e2 w1 w2 k p : group_ok n hist es gr → e1 ∈ es → e2 ∈ es → running e1 w1 → running e2 w2 →
  w1 !! k = Some p → p < pts e1 ∧ (p < pts e2 ↔ w2 !! k = Some p).
Proof.
  intros Hg H1 H2 R1 R2 Hk. pose proof (gk_all _ _ _ _ Hg) as Hall. rewrite Forall_forall in Hall.
  apply Hall in H1 as [_ _ _ Hh1 (w1' & R1' & Ph1)]. pose proof H2 as He2. apply Hall in H2 as [_ _ _ Hh2 (w2' & R2' & Ph2)].
  rewrite (running_same _ _ _ R1 R1') in *. rewrite (running_same _ _ _ R2 R2') in *. clear w1 w2 R1 R2.
  destruct (decide (k < length hist)%nat) as [Hl|Hl].
  - assert (hist !! k = Some p) as Hp.
    { destruct Ph1; try done. by rewrite lookup_app_l in Hk. }
    assert (p < pts e1 ∧ p < pts e2) as [? ?].
    { rewrite Forall_forall in Hh1, Hh2. split; [apply Hh1|apply Hh2]; by eapply list_elem_of_lookup_2. }
    split; [done|]. split; [|done]. intros _. destruct Ph2; try done. by rewrite lookup_app_l.
  - destruct Ph1 as [| | |Hr0 Hr1 Hd1 Hu Hlt]; [apply lookup_lt_Some in Hk; lia..|].
    assert (k = length hist) as -> by (apply lookup_lt_Some in Hk; rewrite length_app in Hk; cbn in Hk; lia).
    rewrite list_lookup_middle in Hk by done. injection Hk as <-. split; [done|]. destruct Ph2 as [? ? ?|? ? ?|? ? ? ?|? ? ? ? ?].
    + lia.
    + exfalso. apply list_elem_of_lookup in He2 as [i Ei]. by eapply unseen_left; [exact Hg|exact Ei|lia|].
    + rewrite (lookup_ge_None_2 hist) by lia. split; [lia|done].
    + rewrite list_lookup_middle by done. split; done.
Qed.

Lemma counted n hist es gr e w : group_ok n hist es gr → e ∈ es → running e w →
  zlen w = handled e ∧ (requested e = reconfigure_request gr → next_pts gr < pts e → handled e = reconfigure_request gr).
Proof.
  intros Hg He R. pose proof (gk_all _ _ _ _ Hg) as Hall. pose proof (gk_hist _ _ _ _ Hg) as Hl. rewrite Forall_forall in Hall.
  apply Hall in He as [_ _ _ _ (w' & R' & Ph)]. rewrite (running_same _ _ _ R R'). clear R R' w.
  destruct Ph; autorewrite with len; change (zlen [next_pts gr]) with 1; lia.
Qed.

End group.

(** ** An example *)

(** An encoder of every frame and one of every second frame. Each is changed once; the
    second change comes while the first request is on its way. *)
Definition ex_grouped (id : Z) (divisor : Z) : live_encoder (watched unit) :=
  mk_live (mk_ec id OBS_ENCODER_VIDEO 1 60 divisor 0 0 0 0 0 [] []) (mk_clock 0 false 0 0 0 0) (mk_member (Some 9) 0 0 false)
    (mk_paused false (mk_pause 0 0 0 0)) [] [] [] 0 (Some (mk_watched () false [])) true true true [] [] [].
Definition ex_group_state : group_state := mk_gs [ex_grouped 1 1; ex_grouped 2 2] (mk_group false [1; 2] 2 1 2 0 0 0 0 false).
Definition ex_group_frame (i : nat) (ts : Z) : group_event := G_FRAME i [] (mk_video_data [] [] ts) 0 0.
Definition ex_group_events : list group_event :=
  [ex_group_frame 0 1; ex_group_frame 1 1; G_UPDATE 0; ex_group_frame 0 2; ex_group_frame 0 3; ex_group_frame 1 3;
   G_UPDATE 1; ex_group_frame 0 4; ex_group_frame 0 5; ex_group_frame 1 5; ex_group_frame 1 7; ex_group_frame 0 6;
   G_UPDATE 1; ex_group_frame 0 7; ex_group_frame 1 9; ex_group_frame 0 8; ex_group_frame 0 9; ex_group_frame 1 11;
   ex_group_frame 0 10; ex_group_frame 0 11; ex_group_frame 0 12; ex_group_frame 0 13; ex_group_frame 1 13].


(** ** Joining a group *)

Definition join_all (gr : obs_encoder_group) (cs : list encoder_conf) : option obs_encoder_group :=
  foldl (λ r c, gr ← r; fst <$> join_group c gr) (Some gr) cs.

Section joining.
Context (bound : Z).
Hypothesis bound_range : 0 < bound ≤ 46340.

Definition multiple_ok (gr : obs_encoder_group) : Prop :=
  frame_rate_divisors_lcm gr = 0 ∨ 0 < frame_rate_divisors_lcm gr ∧ (frame_rate_divisors_lcm gr | bound).

Lemma join_step c gr : multiple_ok gr → 0 < ec_frame_rate_divisor c → (ec_frame_rate_divisor c | bound) →
  0 ≤ num_encoders_started gr < 2 ^ 32 - 1 →
  ∃ gr', fst <$> join_group c gr = Some gr' ∧ multiple_ok gr' ∧ num_encoders_started gr' = num_encoders_started gr + 1 ∧
    group_encoders gr' = group_encoders gr ∧ frame_rate_divisors_lcm gr' ≠ 0 ∧
    (frame_rate_divisors_lcm gr ≠ 0 → (frame_rate_divisors_lcm gr | frame_rate_divisors_lcm gr')) ∧
    (ec_frame_rate_divisor c | frame_rate_divisors_lcm gr').
Proof.
  intros Hm Hd Hb Hn. unfold join_group. set (d := if frame_rate_divisors_lcm gr =? 0 then 1 else _).
  assert (0 < d ∧ (d | bound)) as [Hd0 Hdb].
  { unfold d. destruct Hm as [->|[? ?]]; [split; [done|apply Z.divide_1_l]|]. by rewrite (proj2 (Z.eqb_neq _ _)) by lia. }
  pose proof (Z.divide_pos_le _ _ (proj1 bound_range) Hb). pose proof (Z.divide_pos_le _ _ (proj1 bound_range) Hdb).
  assert (d * ec_frame_rate_divisor c < 2 ^ 31) by nia.
  rewrite !i32_small, lcm_spec by lia. cbn [mbind option_bind fmap option_fmap option_map fst].
  pose proof (Z.lcm_least _ _ _ Hdb Hb) as Hl. pose proof (Z.lcm_nonneg d (ec_frame_rate_divisor c)).
  assert (Z.lcm d (ec_frame_rate_divisor c) ≠ 0) by (rewrite Z.lcm_eq_0; lia).
  pose proof (Z.divide_pos_le _ _ (proj1 bound_range) Hl). eexists. split; [reflexivity|]. unfold multiple_ok. cbn. rewrite !u32_small by lia.
  split_and!; try done; [right; split; [lia|done]| |apply Z.divide_lcm_r].
  intros N. replace (frame_rate_divisors_lcm gr) with d by (unfold d; by rewrite (proj2 (Z.eqb_neq _ _) N)). apply Z.divide_lcm_l.
Qed.

(** When encoders have joined a group one after the other, its multiple is one of each of
    their divisors, as [just_started] wants it. *)
Lemma join_all_spec cs : ∀ gr, multiple_ok gr → Forall (λ c, 0 < ec_frame_rate_divisor c ∧ (ec_frame_rate_divisor c | bound)) cs →
  0 ≤ num_encoders_started gr → num_encoders_started gr + zlen cs < 2 ^ 32 →
  ∃ gr', join_all gr cs = Some gr' ∧ multiple_ok gr' ∧ num_encoders_started gr' = num_encoders_started gr + zlen cs ∧
    group_encoders gr' = group_encoders gr ∧
    (frame_rate_divisors_lcm gr ≠ 0 → (frame_rate_divisors_lcm gr | frame_rate_divisors_lcm gr')) ∧
    Forall (λ c, (ec_frame_rate_divisor c | frame_rate_divisors_lcm gr')) cs.
Proof.
  induction cs as [|c cs IH]; intros gr Hm Hc Hn Hz.
  { exists gr. split_and!; try done. autorewrite with len. lia. }
  apply Forall_cons in Hc as [[Hd Hb] Hcs]. autorewrite with len in *. pose proof (zlen_nonneg cs).
  destruct (join_step c gr Hm Hd Hb ltac:(lia)) as (gr1 & E1 & Hm1 & En1 & Eg1 & Hl0 & Hl1 & Hd1).
  destruct (IH gr1 Hm1 Hcs) as (gr2 & E2 & Hm2 & En2 & Eg2 & Hl2 & Hd2); [lia..|].
  exists gr2. unfold join_all in *. cbn. rewrite E1. split_and!; [done|done|lia|congruence| |].
  - intros N. etransitivity; eauto.
  - constructor; [|done]. etransitivity; eauto.
Qed.
End joining.

(** ** A group that is started again *)

(** Stopping resets the requests of the group and keeps those of the encoder. *)
Lemma stop_keeps_requests {impl} (e : live_encoder impl) gr cb e' g' b : obs_encoder_stop e (Some gr) cb = (e', g', b) →
  le_member e' = le_member e.
Proof. unfold obs_encoder_stop, remove_connection, obs_encoder_shutdown, unpair. intros E. repeat case_match; simplify_eq; done. Qed.

(** The encoders of the example, with one request carried out while the group last ran. *)
Definition ex_stale (e : live_encoder (watched unit)) : live_encoder (watched unit) := set_member e (mk_member (Some 9) 1 1 false).
Definition ex_restarted : group_state := mk_gs (ex_stale <$> gs_encoders ex_group_state) (gs_group ex_group_state).
Definition updates (evs : list group_event) : option (list (option (list Z))) :=
  (λ st, (λ e, w_pts <$> le_data e) <$> gs_encoders st) <$> group_run (ex_encode OBS_ENCODER_VIDEO) id (λ _, None) ex_restarted evs.
Definition ex_run (n : nat) : list group_event := mjoin (replicate n [ex_group_frame 0 1; ex_group_frame 1 1; ex_group_frame 0 2]).

(** Without any request they are updated; with one before the first frame they never are,
    and neither is any later request carried out. *)
Example restarted_updates_unasked : updates (ex_run 5) = Some [Some [2]; Some [2]].
Proof. vm_compute. reflexivity. Qed.

Example restarted_loses_updates : updates ([G_UPDATE 0] ++ ex_run 20 ++ [G_UPDATE 0; G_UPDATE 1] ++ ex_run 20) = Some [Some []; Some []].
Proof. vm_compute. reflexivity. Qed.

(** ** Leaving a group *)

Definition ex_encoders : encoders unit := mk_encoders {[ 1 := ex_live ex_video_conf ]} {[ 9 := obs_encoder_group_create ]} [].

(** An encoder put into a group, taken out of it, and the group destroyed: the encoder still
    refers to it. *)
Definition ex_leave : option (encoders unit) :=
  let e := set_connection (ex_live ex_video_conf) false false false in
  s ← fst <$> obs_encoder_set_group (put_encoder ex_encoders 1 e) 1 (Some 9);
  s ← fst <$> obs_encoder_set_group s 1 None;
  obs_encoder_group_destroy s 9.

Example left_group_dangles :
  (λ s, (all_groups s !! 9, (λ e, (encoder_group (le_member e), group_of s e)) <$> all_encoders s !! 1)) <$> ex_leave =
  Some (None, Some (Some 9, None)).
Proof. vm_compute. reflexivity. Qed.
