(* ===== verification/EncoderPackets.v ===== *)
(** * What the callbacks of an encoder are given

    Outputs come and go while an encoder runs. The theorem is that each gets the packets the
    encoder delivers while it is there: of a video encoder from the next keyframe on, with the
    SEI data of the encoder in front of it, of an audio encoder all of them. *)

From S2P Require Import Prelude Util Encoder Deque Interleave Pause EncoderRun EncoderGroup.

Local Open Scope Z_scope.

Section packets.
Context {impl : Type} (sei : impl → option bytes).
Implicit Types e : live_encoder impl.

(** ** The calls *)

(** [pk_log] has the packets delivered, with the SEI data of the encoder at that time;
    [pk_joined] for each callback how many packets, and how many deliveries to all callbacks,
    there were when it was added. *)
Record packet_state := mk_pk {
  pk_encoder : live_encoder impl;
  pk_group : option obs_encoder_group;
  pk_log : list (encoder_packet * option bytes);
  pk_joined : Z → nat * nat
}.

Inductive packet_event :=
  | P_SEND (d : impl) (success received : bool) (pkt : encoder_packet)
  | P_START (cb : Z)
  | P_STOP (cb : Z).

(** The packet as the callbacks get it. *)
Definition sent_packet e (pkt : encoder_packet) : encoder_packet :=
  set_usec (if first_received (le_clock e) then e else set_first_received e (packet_dts_usec pkt)) pkt.

Definition packet_step (st : packet_state) (ev : packet_event) : option packet_state :=
  let e := pk_encoder st in
  match ev with
  | P_SEND d success received pkt =>
      let '(e', g) := send_off_encoder_packet sei e (pk_group st) d success received pkt in
      Some (mk_pk e' g (if success && received then pk_log st ++ [(sent_packet e pkt, get_sei sei d)] else pk_log st) (pk_joined st))
  | P_START cb =>
      '(e', g, _) ← obs_encoder_start_internal e (pk_group st) cb;
      Some (mk_pk e' g (pk_log st)
        (match get_callback_idx e cb with
         | None => λ c, if c =? cb then (length (pk_log st), length (le_delivered e)) else pk_joined st c
         | Some _ => pk_joined st end))
  | P_STOP cb =>
      let '(e', g, _) := obs_encoder_stop e (pk_group st) cb in Some (mk_pk e' g (pk_log st) (pk_joined st))
  end.

Fixpoint packet_run (st : packet_state) (evs : list packet_event) : option packet_state :=
  match evs with
  | [] => Some st
  | ev :: evs => st ← packet_step st ev; packet_run st evs
  end.

(** ** What a callback is to be given *)

Definition with_sei (s : option bytes) (pkt : encoder_packet) : encoder_packet :=
  match s with Some ((_ :: _) as s) => with_data pkt (s ++ pkt_data pkt) | _ => pkt end.

Fixpoint from_keyframe (log : list (encoder_packet * option bytes)) : list encoder_packet :=
  match log with
  | [] => []
  | (pkt, s) :: log => if pkt_keyframe pkt then with_sei s pkt :: (fst <$> log) else from_keyframe log
  end.

Definition has_keyframe (log : list (encoder_packet * option bytes)) : bool := existsb (λ x, pkt_keyframe x.1) log.

Definition stream (type : obs_encoder_type) (log : list (encoder_packet * option bytes)) : list encoder_packet :=
  match type with OBS_ENCODER_VIDEO => from_keyframe log | OBS_ENCODER_AUDIO => fst <$> log end.

Definition given_to (cb : Z) (l : list (Z * encoder_packet * option encoder_packet_time)) : list encoder_packet :=
  omap (λ x, if x.1.1 =? cb then Some x.1.2 else None) l.

Lemma from_keyframe_snoc log x : from_keyframe (log ++ [x]) =
  from_keyframe log ++ (if has_keyframe log then [x.1] else if pkt_keyframe x.1 then [with_sei x.2 x.1] else []).
Proof.
  unfold has_keyframe. induction log as [|[p s] log IH]; cbn; [by destruct x as [p s]; cbn; destruct (pkt_keyframe p)|].
  destruct (pkt_keyframe p); cbn; [by rewrite fmap_app|done].
Qed.

(** One callback is given what [send_packet] says. *)
Definition sends e (d : impl) (pkt : encoder_packet) (c : encoder_callback) : encoder_callback * option encoder_packet :=
  send_packet sei e d c pkt.

Lemma sends_id e d pkt c : cb_id (sends e d pkt c).1 = cb_id c.
Proof. unfold sends, send_packet, send_first_video_packet. repeat case_match; done. Qed.

Lemma given_app cb l l' : given_to cb (l ++ l') = given_to cb l ++ given_to cb l'.
Proof. apply omap_app. Qed.

(** Of the deliveries of one packet a callback gets its own. *)
Definition deliveries e (d : impl) (pkt : encoder_packet) (t : option encoder_packet_time) (cbs : list encoder_callback) :=
  omap (λ r : encoder_callback * option encoder_packet, (λ p, (cb_id r.1, p, t)) <$> r.2) (rev (sends e d pkt <$> cbs)).

Lemma deliveries_cons e d pkt t c cbs : deliveries e d pkt t (c :: cbs) =
  deliveries e d pkt t cbs ++ option_list ((λ p, (cb_id c, p, t)) <$> (sends e d pkt c).2).
Proof.
  unfold deliveries. cbn. rewrite omap_app. f_equal. cbn. rewrite sends_id. by destruct (sends e d pkt c).2.
Qed.

Lemma given_none e d pkt t cbs cb : cb ∉ cb_id <$> cbs → given_to cb (deliveries e d pkt t cbs) = [].
Proof.
  induction cbs as [|c cbs IH]; intros Hn; [done|]. rewrite fmap_cons, not_elem_of_cons in Hn. destruct Hn as [Hn1 Hn2].
  rewrite deliveries_cons, given_app, IH by done. destruct (sends e d pkt c).2; cbn; [|done].
  by rewrite (proj2 (Z.eqb_neq _ _)) by done.
Qed.

Lemma given_one e d pkt t cbs c : NoDup (cb_id <$> cbs) → c ∈ cbs → given_to (cb_id c) (deliveries e d pkt t cbs) = option_list (sends e d pkt c).2.
Proof.
  induction cbs as [|c1 cbs IH]; intros Hn Hc; [by apply elem_of_nil in Hc|]. rewrite fmap_cons in Hn. apply NoDup_cons in Hn as [Hn1 Hn2].
  rewrite deliveries_cons, given_app. apply elem_of_cons in Hc as [->|Hc].
  - rewrite given_none by done. destruct (sends e d pkt c1).2; cbn; [|done]. by rewrite Z.eqb_refl.
  - rewrite IH by done. assert (cb_id c1 ≠ cb_id c) as Hne by (intros E; apply Hn1; rewrite E; apply list_elem_of_fmap; by exists c).
    destruct (sends e d pkt c1).2; cbn; [|by rewrite app_nil_r]. rewrite (proj2 (Z.eqb_neq _ _)) by done. by rewrite app_nil_r.
Qed.

(** ** The invariant *)

Record callback_ok (st : packet_state) (c : encoder_callback) : Prop := {
  cb_range : ((pk_joined st (cb_id c)).1 ≤ length (pk_log st) ∧ (pk_joined st (cb_id c)).2 ≤ length (le_delivered (pk_encoder st)))%nat;
  cb_given : given_to (cb_id c) (drop (pk_joined st (cb_id c)).2 (le_delivered (pk_encoder st))) =
    stream (ec_type (le_conf (pk_encoder st))) (drop (pk_joined st (cb_id c)).1 (pk_log st));
  cb_sent : ec_type (le_conf (pk_encoder st)) = OBS_ENCODER_VIDEO → sent_first_packet c = has_keyframe (drop (pk_joined st (cb_id c)).1 (pk_log st))
}.

Record packets_ok (st : packet_state) : Prop := {
  po_distinct : NoDup (cb_id <$> le_callbacks (pk_encoder st));
  po_all : Forall (callback_ok st) (le_callbacks (pk_encoder st))
}.

Lemma stream_snoc type log x : stream type (log ++ [x]) = stream type log ++
  match type with
  | OBS_ENCODER_AUDIO => [x.1]
  | OBS_ENCODER_VIDEO => if has_keyframe log then [x.1] else if pkt_keyframe x.1 then [with_sei x.2 x.1] else []
  end.
Proof. destruct type; cbn; [by rewrite fmap_app|apply from_keyframe_snoc]. Qed.

Lemma has_keyframe_snoc log x : has_keyframe (log ++ [x]) = has_keyframe log || pkt_keyframe x.1.
Proof. unfold has_keyframe. rewrite existsb_app. cbn. by rewrite orb_false_r. Qed.

(** What a callback is sent, and what it knows then. *)
Lemma sends_spec e d pkt c log : (ec_type (le_conf e) = OBS_ENCODER_VIDEO → sent_first_packet c = has_keyframe log) →
  option_list (sends e d pkt c).2 = match ec_type (le_conf e) with
    | OBS_ENCODER_AUDIO => [pkt]
    | OBS_ENCODER_VIDEO => if has_keyframe log then [pkt] else if pkt_keyframe pkt then [with_sei (get_sei sei d) pkt] else []
    end ∧
  (ec_type (le_conf e) = OBS_ENCODER_VIDEO → sent_first_packet (sends e d pkt c).1 = has_keyframe log || pkt_keyframe pkt).
Proof.
  intros Hs. unfold sends, send_packet. destruct (ec_type (le_conf e)) eqn:Et; [by rewrite bool_decide_eq_false_2|].
  rewrite bool_decide_eq_true_2, Hs by done. cbn [andb]. destruct (has_keyframe log) eqn:Ek; cbn [negb].
  - split; [done|]. intros _. cbn. by apply Hs.
  - unfold send_first_video_packet. destruct (pkt_keyframe pkt); cbn [negb]; [|split; [done|intros _; cbn; by rewrite Hs]].
    destruct (get_sei sei d) as [[|b s]|]; by split.
Qed.
Lemma received_spec e d pkt : let e' := send_off_received sei e d pkt in
  ∃ t, le_conf e' = le_conf e ∧ le_callbacks e' = (λ c, (sends e d (sent_packet e pkt) c).1) <$> le_callbacks e ∧
    le_delivered e' = le_delivered e ++ deliveries e d (sent_packet e pkt) t (le_callbacks e).
Proof.
  unfold send_off_received, sent_packet. set (e1 := if first_received (le_clock e) then e else _).
  assert (le_conf e1 = le_conf e ∧ le_callbacks e1 = le_callbacks e ∧ le_delivered e1 = le_delivered e) as (E1 & E2 & E3) by (unfold e1; by case_match).
  set (p := set_usec e1 pkt). cbn zeta.
  assert (∀ e2, le_conf e2 = le_conf e → ∀ c, send_packet sei e2 d c p = sends e d p c) as Es by (intros e2 E c; unfold sends, send_packet; by rewrite E).
  set (found := if is_video_packet p then find_time _ _ else None). exists (fst <$> found).
  set (e2 := match found with Some (_, l) => set_packet_times e1 l | None => e1 end).
  assert (le_conf e2 = le_conf e ∧ le_callbacks e2 = le_callbacks e ∧ le_delivered e2 = le_delivered e) as (F1 & F2 & F3).
  { unfold e2. destruct found as [[]|]; by rewrite <- E1, <- E2, <- E3. }
  assert ((λ cb, send_packet sei e2 d cb p) <$> le_callbacks e2 = sends e d p <$> le_callbacks e) as Em.
  { rewrite F2. apply list_fmap_ext. intros i c _. by apply Es. }
  unfold send_packets. rewrite Em. clearbody e2 found. unfold deliveries.
  destruct (is_video_packet p); (split; [exact F1|split; [symmetry; apply (list_fmap_compose (sends e d p) fst)|exact (f_equal (λ l, l ++ _) F3)]]).
Qed.

Lemma callback_idx_none e cb : get_callback_idx e cb = None → cb ∉ cb_id <$> le_callbacks e.
Proof.
  unfold get_callback_idx. intros E H. apply list_elem_of_fmap in H as (c & -> & Hc). apply fmap_None, list_find_None in E.
  rewrite Forall_forall in E. by eapply E.
Qed.

Lemma callbacks_same st st' : packets_ok st → le_callbacks (pk_encoder st') = le_callbacks (pk_encoder st) →
  le_delivered (pk_encoder st') = le_delivered (pk_encoder st) → ec_type (le_conf (pk_encoder st')) = ec_type (le_conf (pk_encoder st)) →
  pk_log st' = pk_log st → pk_joined st' = pk_joined st → packets_ok st'.
Proof.
  intros [P1 P2] E1 E2 E3 E4 E5. constructor; rewrite E1; [done|]. eapply Forall_impl; [exact P2|].
  intros c [C1 C2 C3]. constructor; rewrite ?E2, ?E3, ?E4, ?E5; done.
Qed.

Lemma callbacks_fewer st st' l : packets_ok st → le_callbacks (pk_encoder st') = l → sublist l (le_callbacks (pk_encoder st)) →
  le_delivered (pk_encoder st') = le_delivered (pk_encoder st) → ec_type (le_conf (pk_encoder st')) = ec_type (le_conf (pk_encoder st)) →
  pk_log st' = pk_log st → pk_joined st' = pk_joined st → packets_ok st'.
Proof.
  intros [P1 P2] E1 Hs E2 E3 E4 E5. constructor; rewrite E1.
  - eapply sublist_NoDup; [exact P1|]. by apply fmap_sublist.
  - rewrite Forall_forall in *. intros c Hc. destruct (P2 c) as [C1 C2 C3]; [by eapply sublist_subseteq|].
    constructor; rewrite ?E2, ?E3, ?E4, ?E5; done.
Qed.

Lemma send_ok st d success received pkt st' : packets_ok st → packet_step st (P_SEND d success received pkt) = Some st' →
  packets_ok st' ∧ ec_type (le_conf (pk_encoder st')) = ec_type (le_conf (pk_encoder st)).
Proof.
  intros Hok. unfold packet_step, send_off_encoder_packet. destruct success; cbn [negb].
  2: { unfold full_stop, remove_connection. intros E. simplify_eq. split; [|done]. eapply (callbacks_fewer st _ []); try done. apply sublist_nil_l. }
  destruct received; cbn [andb]; [|intros E; simplify_eq; split; [by eapply callbacks_same|done]].
  destruct (received_spec (pk_encoder st) d pkt) as (t & R1 & R2 & R3). intros E. simplify_eq. cbn [pk_encoder]. split; [|by rewrite R1].
  destruct Hok as [P1 P2]. set (p := sent_packet (pk_encoder st) pkt) in *. constructor; cbn [pk_encoder pk_log pk_joined].
  - rewrite R2, <- list_fmap_compose. erewrite list_fmap_ext; [exact P1|]. intros i c _. apply sends_id.
  - rewrite R2. apply Forall_fmap. rewrite Forall_forall in *. intros c Hc. destruct (P2 c Hc) as [[C0 C1] C2 C3].
    destruct (sends_spec (pk_encoder st) d p c (drop (pk_joined st (cb_id c)).1 (pk_log st)) C3) as [S1 S2].
    unfold compose. constructor; cbn [pk_encoder pk_log pk_joined]; rewrite sends_id, ?R1, ?R3.
    + rewrite !length_app. lia.
    + rewrite !drop_app_le, given_app, C2, stream_snoc by lia. f_equal. rewrite given_one by done. exact S1.
    + intros Et. rewrite drop_app_le, has_keyframe_snoc by lia. by apply S2.
Qed.

Lemma start_ok st cb st' : packets_ok st → packet_step st (P_START cb) = Some st' →
  packets_ok st' ∧ ec_type (le_conf (pk_encoder st')) = ec_type (le_conf (pk_encoder st)).
Proof.
  intros Hok. unfold packet_step. destruct (obs_encoder_start_internal _ _ _) as [[[e' g'] b]|] eqn:Es; cbn; [|done]. intros E. simplify_eq.
  assert (le_delivered e' = le_delivered (pk_encoder st) ∧ ec_type (le_conf e') = ec_type (le_conf (pk_encoder st)) ∧
    (le_callbacks e' = le_callbacks (pk_encoder st) ∨
     get_callback_idx (pk_encoder st) cb = None ∧ le_callbacks e' = le_callbacks (pk_encoder st) ++ [mk_cb false cb])) as (H1 & H2 & H3).
  { unfold obs_encoder_start_internal, add_connection in Es. destruct (le_data (pk_encoder st)); [|simplify_eq; by split_and!; auto].
    destruct (get_callback_idx (pk_encoder st) cb) eqn:Ei; destruct (bool_decide _); destruct (pk_group st) as [gr|]; cbn in Es;
      try match type of Es with context [join_group ?c ?g] => destruct (join_group c g) as [[]|] end; cbn in Es; simplify_eq; split_and!; auto. }
  split; [|done]. destruct Hok as [P1 P2]. set (joined := match get_callback_idx _ _ with Some _ => _ | None => _ end).
  assert (∀ c, c ∈ le_callbacks (pk_encoder st) → joined (cb_id c) = pk_joined st (cb_id c)) as Hj.
  { intros c Hc. unfold joined. destruct (get_callback_idx (pk_encoder st) cb) eqn:Ei; [done|].
    rewrite (proj2 (Z.eqb_neq _ _)); [done|]. intros E. apply (callback_idx_none _ _ Ei). rewrite <- E. apply list_elem_of_fmap. by exists c. }
  assert (Forall (callback_ok (mk_pk e' g' (pk_log st) joined)) (le_callbacks (pk_encoder st))) as Hold.
  { rewrite Forall_forall in *. intros c Hc. destruct (P2 c Hc) as [C1 C2 C3]. constructor; cbn; rewrite ?H1, ?H2, ?(Hj c Hc); done. }
  destruct H3 as [H3|[Ei H3]]; constructor; cbn; rewrite H3; try done.
  - rewrite fmap_app. apply NoDup_app. split; [done|]. split; [|apply NoDup_singleton]. intros x Hx Hx'. cbn in Hx'.
    apply list_elem_of_singleton in Hx' as ->. by apply (callback_idx_none _ _ Ei).
  - apply Forall_app. split; [done|]. apply Forall_singleton. unfold joined. rewrite Ei. constructor; cbn; rewrite ?H1, ?Z.eqb_refl; cbn; [lia| |].
    + rewrite !drop_all. by destruct (ec_type (le_conf e')).
    + intros _. by rewrite drop_all.
Qed.

Lemma stop_ok st cb st' : packets_ok st → packet_step st (P_STOP cb) = Some st' →
  packets_ok st' ∧ ec_type (le_conf (pk_encoder st')) = ec_type (le_conf (pk_encoder st)).
Proof.
  intros Hok. cbn. destruct (obs_encoder_stop _ _ _) as [[e' g'] b] eqn:Es. intros E. simplify_eq.
  unfold obs_encoder_stop in Es. set (e1 := match get_callback_idx (pk_encoder st) cb with Some _ => set_callbacks _ _ | None => _ end) in Es.
  assert (sublist (le_callbacks e1) (le_callbacks (pk_encoder st)) ∧ le_delivered e1 = le_delivered (pk_encoder st) ∧ le_conf e1 = le_conf (pk_encoder st)) as (H1 & H2 & H3).
  { unfold e1. destruct (get_callback_idx _ _) as [i|]; [|done]. split; [|done]. cbn. rewrite <- delete_take_drop. apply sublist_delete. }
  assert (le_callbacks e' = le_callbacks e1 ∧ le_delivered e' = le_delivered e1 ∧ ec_type (le_conf e') = ec_type (le_conf e1)) as (G1 & G2 & G3).
  { unfold remove_connection, obs_encoder_shutdown, unpair in Es. repeat case_match; simplify_eq; done. }
  split; [|cbn; congruence]. eapply (callbacks_fewer st); try done; cbn; congruence.
Qed.
Lemma packet_run_ok evs : ∀ st st', packets_ok st → packet_run st evs = Some st' →
  packets_ok st' ∧ ec_type (le_conf (pk_encoder st')) = ec_type (le_conf (pk_encoder st)).
Proof.
  induction evs as [|ev evs IH]; intros st st' Hok E; cbn in E; [by simplify_eq|].
  destruct (packet_step st ev) as [st1|] eqn:E1; cbn in E; [|done].
  assert (packets_ok st1 ∧ ec_type (le_conf (pk_encoder st1)) = ec_type (le_conf (pk_encoder st))) as [Hok1 Et1].
  { destruct ev; [by eapply send_ok|by eapply start_ok|by eapply stop_ok]. }
  destruct (IH _ _ Hok1 E) as [Hok2 Et2]. split; [done|congruence].
Qed.

(** Without a group every call returns. *)
Lemma packet_run_returns evs : ∀ st, pk_group st = None → is_Some (packet_run st evs).
Proof.
  induction evs as [|ev evs IH]; intros st Hg; [by eexists|]. cbn.
  assert (∃ st1, packet_step st ev = Some st1 ∧ pk_group st1 = None) as (st1 & -> & H1); [|by apply IH].
  destruct ev as [d success received pkt|cb|cb]; cbn.
  - unfold send_off_encoder_packet, full_stop, remove_connection. rewrite Hg.
    destruct success, received; cbn; eexists; by split.
  - unfold obs_encoder_start_internal, add_connection. rewrite Hg.
    destruct (le_data (pk_encoder st)); [|cbn; eexists; by split]. destruct (bool_decide _); cbn; eexists; by split.
  - unfold obs_encoder_stop, remove_connection. rewrite Hg. destruct (get_callback_idx _ _); [destruct (bool_decide _)|]; cbn; eexists; by split.
Qed.

(** C13: However the callbacks of an encoder come and go and whatever its implementation
    returns, each callback has been given, since it was added, the packets the encoder
    delivered since then, all of them and in order: of an audio encoder from the first, of a
    video encoder from the first keyframe on, which has the SEI data of the encoder in front
    of its own. *)
Theorem packets_from_keyframe st evs : le_callbacks (pk_encoder st) = [] →
  (pk_group st = None → is_Some (packet_run st evs)) ∧
  ∀ st', packet_run st evs = Some st' →
    NoDup (cb_id <$> le_callbacks (pk_encoder st')) ∧
    ∀ c, c ∈ le_callbacks (pk_encoder st') → let '(n, m) := pk_joined st' (cb_id c) in
      given_to (cb_id c) (drop m (le_delivered (pk_encoder st'))) = stream (ec_type (le_conf (pk_encoder st))) (drop n (pk_log st')).
Proof.
  intros H0. split; [intros Hg; by apply packet_run_returns|]. intros st' E.
  destruct (packet_run_ok evs st st') as [[P1 P2] Et]; [by constructor; rewrite H0; constructor|done|].
  split; [done|]. rewrite Forall_forall in P2. intros c Hc. destruct (P2 c Hc) as [_ C _]. rewrite Et in C.
  by destruct (pk_joined st' (cb_id c)).
Qed.
End packets.

(** ** An example *)

Definition ex_packet (b : Z) (key : bool) : encoder_packet := mk_packet [b] b b 1 60 OBS_ENCODER_VIDEO key 0 0 0 0 0 1.
Definition ex_running : live_encoder unit :=
  mk_live (mk_ec 1 OBS_ENCODER_VIDEO 1 60 1 0 0 0 0 0 [] []) (mk_clock 0 false 0 0 5000 0) (mk_member None 0 0 false)
    (mk_paused false (mk_pause 0 0 0 0)) [] [] [] 0 (Some ()) false true false [] [] [].
Definition ex_send (b : Z) (key : bool) : packet_event (impl := unit) := P_SEND () true true (ex_packet b key).

(** The second callback joins between two keyframes. *)
Definition ex_joins : list (packet_event (impl := unit)) :=
  [P_START 7; ex_send 1 true; ex_send 2 false; P_START 8; ex_send 3 false; ex_send 4 true; ex_send 5 false].

Lemma packets_from_keyframe_witness : ∃ st,
  packet_run (λ _, Some [100]) (mk_pk ex_running None [] (λ _, (0%nat, 0%nat))) ex_joins = Some st ∧
  (λ p, (pkt_data p, pkt_dts_usec p)) <$> given_to 7 (le_delivered (pk_encoder st)) =
    [([100; 1], 5); ([2], 16672); ([3], 33339); ([4], 50005); ([5], 66672)] ∧
  pkt_data <$> given_to 8 (le_delivered (pk_encoder st)) = [[100; 4]; [5]] ∧
  NoDup (cb_id <$> le_callbacks (pk_encoder st)).
Proof.
  destruct (packets_from_keyframe (λ _ : unit, Some [100]) (mk_pk ex_running None [] (λ _, (0%nat, 0%nat))) ex_joins eq_refl) as [Hr H].
  destruct (Hr eq_refl) as [st E]. exists st. split; [exact E|]. destruct (H st E) as [Hn _].
  vm_compute in E. injection E as <-. split; [reflexivity|]. split; [reflexivity|exact Hn].
Defined.
