(* ===== verification/VideoIo.v ===== *)
(** * The video output: libobs/media-io/video-io.c

    The cache between the graphics thread, which submits pictures, and the video thread,
    which gives them to the inputs (encoders and raw outputs), with the connection of inputs.
    The scaler (swscale) and the conversion of a picture into the format of the output are
    parameters. *)

From S2P Require Import Prelude Util Deque Encoder EncoderRun.

Local Open Scope Z_scope.

Definition MAX_CONVERT_BUFFERS : Z := 3.
Definition MAX_CACHE_SIZE : nat := 16.

#[global] Instance video_format_eq_dec : EqDecision video_format.
Proof. solve_decision. Defined.
#[global] Instance video_colorspace_eq_dec : EqDecision video_colorspace.
Proof. solve_decision. Defined.
#[global] Instance video_range_type_eq_dec : EqDecision video_range_type.
Proof. solve_decision. Defined.

(** [struct video_scale_info]. *)
Record video_scale_info := mk_vsi {
  vs_format : video_format; vs_width : Z; vs_height : Z; vs_range : video_range_type; vs_colorspace : video_colorspace
}.

Record cached_frame_info := mk_cfi { cf_frame : video_data; cf_skipped : Z; cf_count : Z }.

(** The ring of frames; indices are below the size of the cache. *)
Record frame_cache := mk_ring {
  available_frames : Z; first_added : nat; last_added : nat; cache : list cached_frame_info
}.

Section video_io.
Context {scaler : Type}.
(** [video_scaler_create], from the format of the output, and [video_scaler_scale]. *)
Context (scaler_create : video_scale_info → video_scale_info → option scaler).
Context (scaler_scale : scaler → video_data → option video_data).
(** [set_gpu_converted_data] or [copy_rgbx_frame]: the planes of the picture in the format
    of the output. *)
Context (copy_frame : video_data → list (list cell)).

(** [struct video_input]; [in_callback] is the pair of the function and its parameter.
    The data of the converted frames is given by value. [in_since] records how many frames
    had been shown when it was connected, [in_got] the frames it was given. *)
Record video_input := mk_input {
  in_conversion : video_scale_info;
  in_scaler : option scaler;
  in_cur_frame : Z;
  in_divisor : Z;
  in_divisor_counter : Z;
  in_callback : Z;
  in_since : nat;
  in_got : list video_data
}.

(** [struct video_output] without a parent. [vo_shown] records the frames the video thread
    has gone through. *)
Record video_output := mk_vo {
  vo_info : video_t;
  vo_cache_size : nat;
  vo_frame_time : Z;
  vo_stop : bool;
  vo_semaphore : Z;
  vo_skipped_frames : Z;
  vo_total_frames : Z;
  vo_inputs : list video_input;
  vo_ring : frame_cache;
  vo_raw_active : bool;
  vo_gpu_refs : Z;
  vo_shown : list video_data
}.
Implicit Types v : video_output.

Definition set_stop v (stop : bool) (sem : Z) : video_output :=
  mk_vo (vo_info v) (vo_cache_size v) (vo_frame_time v) stop sem (vo_skipped_frames v) (vo_total_frames v) (vo_inputs v)
    (vo_ring v) (vo_raw_active v) (vo_gpu_refs v) (vo_shown v).
Definition set_counters v (skipped total : Z) : video_output :=
  mk_vo (vo_info v) (vo_cache_size v) (vo_frame_time v) (vo_stop v) (vo_semaphore v) skipped total (vo_inputs v)
    (vo_ring v) (vo_raw_active v) (vo_gpu_refs v) (vo_shown v).
Definition set_inputs v (inputs : list video_input) (active : bool) : video_output :=
  mk_vo (vo_info v) (vo_cache_size v) (vo_frame_time v) (vo_stop v) (vo_semaphore v) (vo_skipped_frames v) (vo_total_frames v) inputs
    (vo_ring v) active (vo_gpu_refs v) (vo_shown v).
Definition set_ring v (r : frame_cache) : video_output :=
  mk_vo (vo_info v) (vo_cache_size v) (vo_frame_time v) (vo_stop v) (vo_semaphore v) (vo_skipped_frames v) (vo_total_frames v) (vo_inputs v)
    r (vo_raw_active v) (vo_gpu_refs v) (vo_shown v).
Definition set_gpu_refs v (n : Z) : video_output :=
  mk_vo (vo_info v) (vo_cache_size v) (vo_frame_time v) (vo_stop v) (vo_semaphore v) (vo_skipped_frames v) (vo_total_frames v) (vo_inputs v)
    (vo_ring v) (vo_raw_active v) n (vo_shown v).
Definition set_shown v (l : list video_data) : video_output :=
  mk_vo (vo_info v) (vo_cache_size v) (vo_frame_time v) (vo_stop v) (vo_semaphore v) (vo_skipped_frames v) (vo_total_frames v) (vo_inputs v)
    (vo_ring v) (vo_raw_active v) (vo_gpu_refs v) l.

Definition inc_total v : video_output := set_counters v (vo_skipped_frames v) (i64 (vo_total_frames v + 1)).

(** ** Opening *)

Definition valid_video_params (info : video_t) : bool :=
  negb (vi_height info =? 0) && negb (vi_width info =? 0) && negb (fps_den info =? 0) && negb (fps_num info =? 0).

(** [blank] are the planes of [video_frame_init]. *)
Definition init_cache (blank : video_data) (cache_size : nat) : frame_cache :=
  let n := Nat.min cache_size MAX_CACHE_SIZE in
  mk_ring (Z.of_nat n) 0 0 (replicate n (mk_cfi blank 0 0)).

Definition video_output_open (info : video_t) (blank : video_data) (cache_size : nat) : option video_output :=
  if negb (valid_video_params info) then None else
  Some (mk_vo info (Nat.min cache_size MAX_CACHE_SIZE) (util_mul_div64 1000000000 (fps_den info) (fps_num info)) false 0 0 0 []
    (init_cache blank cache_size) false 0 []).

(** ** Inputs *)

Definition video_get_input_idx v (callback : Z) : option nat := fst <$> list_find (λ i, in_callback i = callback) (vo_inputs v).

Definition match_range (a b : video_range_type) : bool :=
  Bool.eqb (bool_decide (a = VIDEO_RANGE_FULL)) (bool_decide (b = VIDEO_RANGE_FULL)).

Definition collapse_space (cs : video_colorspace) : video_colorspace :=
  match cs with VIDEO_CS_SRGB => VIDEO_CS_709 | VIDEO_CS_2100_HLG => VIDEO_CS_2100_PQ | _ => cs end.

Definition match_space (a b : video_colorspace) : bool :=
  bool_decide (a = VIDEO_CS_DEFAULT) || bool_decide (b = VIDEO_CS_DEFAULT) || bool_decide (collapse_space a = collapse_space b).

Definition own_format v : video_scale_info :=
  let i := vo_info v in mk_vsi (vi_format i) (vi_width i) (vi_height i) (range i) (colorspace i).

(** The scaler of an input, if it needs one; [None] when it cannot be made. *)
Definition video_input_init v (c : video_scale_info) : option (option scaler) :=
  let i := vo_info v in
  if negb (vs_width c =? vi_width i) || negb (vs_height c =? vi_height i) || negb (bool_decide (vs_format c = vi_format i)) ||
     negb (match_range (vs_range c) (range i)) || negb (match_space (vs_colorspace c) (colorspace i))
  then Some <$> scaler_create c (own_format v)
  else Some None.

Definition reset_frames v : video_output := set_counters v 0 0.

Definition fill_size v (c : video_scale_info) : video_scale_info :=
  mk_vsi (vs_format c) (if vs_width c =? 0 then vi_width (vo_info v) else vs_width c)
    (if vs_height c =? 0 then vi_height (vo_info v) else vs_height c) (vs_range c) (vs_colorspace c).

(** The callback is not null. *)
Definition video_output_connect2 v (conversion : option video_scale_info) (frame_rate_divisor : Z) (callback : Z) : video_output * bool :=
  if frame_rate_divisor =? 0 then (v, false) else
  match video_get_input_idx v callback with
  | Some _ => (v, false)
  | None =>
      let c := fill_size v (default (own_format v) conversion) in
      match video_input_init v c with
      | None => (v, false)
      | Some s =>
          let first := bool_decide (vo_inputs v = []) in
          let v := if first && (vo_gpu_refs v =? 0) then reset_frames v else v in
          (set_inputs v (vo_inputs v ++ [mk_input c s 0 frame_rate_divisor 0 callback (length (vo_shown v)) []])
             (if first then true else vo_raw_active v), true)
      end
  end.

Definition video_output_connect v (conversion : option video_scale_info) (callback : Z) : video_output * bool :=
  video_output_connect2 v conversion 1 callback.

Definition video_output_disconnect2 v (callback : Z) : video_output * bool :=
  match video_get_input_idx v callback with
  | Some i =>
      let inputs := take i (vo_inputs v) ++ drop (S i) (vo_inputs v) in
      (set_inputs v inputs (if bool_decide (inputs = []) then false else vo_raw_active v), true)
  | None => (v, false)
  end.

(** ** The video thread *)

Definition next_index v (i : nat) : nat := if decide (S i = vo_cache_size v) then O else S i.

(** The frame the callback is given, and the buffer used. *)
Definition scale_video_output (i : video_input) (frame : video_data) : Z * option video_data :=
  match in_scaler i with
  | None => (in_cur_frame i, Some frame)
  | Some s =>
      let cur := i32 (in_cur_frame i + 1) in
      (if cur =? MAX_CONVERT_BUFFERS then 0 else cur,
       (λ r, mk_video_data (vd_data r) (vd_linesize r) (vd_timestamp frame)) <$> scaler_scale s frame)
  end.

(** What happens to one input; the result tells whether its callback is called. *)
Definition input_frame (i : video_input) (frame : video_data) : video_input * bool :=
  let skip := in_divisor_counter i in
  let counter := u32 (skip + 1) in
  let counter := if counter =? in_divisor i then 0 else counter in
  if negb (skip =? 0)
  then (mk_input (in_conversion i) (in_scaler i) (in_cur_frame i) (in_divisor i) counter (in_callback i) (in_since i) (in_got i), false)
  else
    let '(cur, out) := scale_video_output i frame in
    (mk_input (in_conversion i) (in_scaler i) cur (in_divisor i) counter (in_callback i) (in_since i)
       (in_got i ++ option_list out), bool_decide (is_Some out)).

(** The loop over the inputs. A callback may disconnect itself (an encoder that fails does):
    [failing] are those that do; the mutex is recursive. *)
Fixpoint deliver_loop (fuel i : nat) (failing : list Z) (frame : video_data) v : video_output :=
  match fuel with
  | O => v
  | S fuel =>
      match vo_inputs v !! i with
      | None => v
      | Some input =>
          let '(input', called) := input_frame input frame in
          let v := set_inputs v (<[i := input']> (vo_inputs v)) (vo_raw_active v) in
          let v := if (called : bool) && bool_decide (in_callback input ∈ failing)
                   then fst (video_output_disconnect2 v (in_callback input)) else v in
          deliver_loop fuel (S i) failing frame v
      end
  end.

(** The rest of [video_output_cur_frame]; the result is [complete]. *)
Definition finish_frame v (idx : nat) : option (video_output * bool) :=
  let r := vo_ring v in
  cfi ← cache r !! idx;
  let f := cf_frame cfi in
  let f := mk_video_data (vd_data f) (vd_linesize f) (u64 (vd_timestamp f + vo_frame_time v)) in
  let count := i32 (cf_count cfi - 1) in
  let complete := count =? 0 in
  let skipped := 0 <? cf_skipped cfi in
  let cfi := mk_cfi f (if negb complete && skipped then i32 (cf_skipped cfi - 1) else cf_skipped cfi) count in
  let cache := <[idx := cfi]> (cache r) in
  if complete then
    let first := next_index v (first_added r) in
    let available := u64 (available_frames r + 1) in
    let last := if available =? Z.of_nat (vo_cache_size v) then first else last_added r in
    Some (set_ring v (mk_ring available first last cache), true)
  else
    let v := set_ring v (mk_ring (available_frames r) (first_added r) (last_added r) cache) in
    Some (if skipped then set_counters v (i64 (vo_skipped_frames v + 1)) (vo_total_frames v) else v, false).

(** Where the video thread is: waiting for the semaphore, at the test of its loop, before
    and after the loop over the inputs of [video_output_cur_frame], or ended. *)
Inductive thread_at := T_WAIT | T_LOOP | T_TOOK (idx : nat) | T_SENT (idx : nat) | T_ENDED.

(** A step of the thread; [None] when it is blocked. *)
Definition video_thread v (t : thread_at) (failing : list Z) : option (video_output * thread_at) :=
  match t with
  | T_WAIT =>
      if vo_semaphore v =? 0 then None else
      let v := set_stop v (vo_stop v) (vo_semaphore v - 1) in
      Some (v, if vo_stop v then T_ENDED else T_LOOP)
  | T_LOOP =>
      if vo_stop v then Some (inc_total v, T_WAIT) else Some (v, T_TOOK (first_added (vo_ring v)))
  | T_TOOK idx =>
      cfi ← cache (vo_ring v) !! idx;
      let frame := cf_frame cfi in
      Some (deliver_loop (length (vo_inputs v)) 0 failing frame (set_shown v (vo_shown v ++ [frame])), T_SENT idx)
  | T_SENT idx =>
      '(v, complete) ← finish_frame v idx;
      Some (inc_total v, if (complete : bool) then T_WAIT else T_LOOP)
  | T_ENDED => None
  end.

(** ** The graphics thread *)

(** [video_output_lock_frame]: whether a frame was locked; it is the one last added. *)
Definition video_output_lock_frame v (count timestamp : Z) : option (video_output * bool) :=
  let r := vo_ring v in
  if available_frames r =? 0 then
    cfi ← cache r !! last_added r;
    let cfi := mk_cfi (cf_frame cfi) (i32 (cf_skipped cfi + count)) (i32 (cf_count cfi + count)) in
    Some (set_ring v (mk_ring (available_frames r) (first_added r) (last_added r) (<[last_added r := cfi]> (cache r))), false)
  else
    let last := if available_frames r =? Z.of_nat (vo_cache_size v) then last_added r else next_index v (last_added r) in
    cfi ← cache r !! last;
    let f := cf_frame cfi in
    let cfi := mk_cfi (mk_video_data (vd_data f) (vd_linesize f) timestamp) 0 count in
    Some (set_ring v (mk_ring (available_frames r) (first_added r) last (<[last := cfi]> (cache r))), true).

(** Writing the picture into the locked frame. *)
Definition write_frame v (picture : video_data) : option video_output :=
  let r := vo_ring v in
  cfi ← cache r !! last_added r;
  let f := cf_frame cfi in
  let cfi := mk_cfi (mk_video_data (copy_frame picture) (vd_linesize f) (vd_timestamp f)) (cf_skipped cfi) (cf_count cfi) in
  Some (set_ring v (mk_ring (available_frames r) (first_added r) (last_added r) (<[last_added r := cfi]> (cache r)))).

Definition video_output_unlock_frame v : video_output :=
  let r := vo_ring v in
  set_stop (set_ring v (mk_ring (u64 (available_frames r - 1)) (first_added r) (last_added r) (cache r))) (vo_stop v) (vo_semaphore v + 1).

(** Where the graphics thread is in [output_video_data] of obs-video.c. *)
Inductive graphics_at := G_IDLE | G_LOCKED (picture : video_data) (count : Z) | G_COPIED (picture : video_data) (count : Z).

Definition begin_output v (picture : video_data) (count : Z) : option (video_output * graphics_at) :=
  '(v, locked) ← video_output_lock_frame v count (vd_timestamp picture);
  Some (v, if (locked : bool) then G_LOCKED picture count else G_IDLE).

Definition continue_output v (g : graphics_at) : option (video_output * graphics_at) :=
  match g with
  | G_IDLE => None
  | G_LOCKED picture count => v ← write_frame v picture; Some (v, G_COPIED picture count)
  | G_COPIED picture count => Some (video_output_unlock_frame v, G_IDLE)
  end.

(** ** Stopping, and texture encoders *)

(** [video_output_stop] without the join. *)
Definition video_output_stop v : video_output :=
  if vo_stop v then v else set_stop v true (vo_semaphore v + 1).

Definition video_output_inc_texture_encoders v : video_output :=
  let n := i64 (vo_gpu_refs v + 1) in
  let v := set_gpu_refs v n in
  if (n =? 1) && negb (vo_raw_active v) then reset_frames v else v.

Definition video_output_dec_texture_encoders v : video_output := set_gpu_refs v (i64 (vo_gpu_refs v - 1)).
Definition video_output_inc_texture_frames v : video_output := inc_total v.
Definition video_output_inc_texture_skipped_frames v : video_output :=
  set_counters v (i64 (vo_skipped_frames v + 1)) (vo_total_frames v).

(** The information of an output at a fraction of the rate. *)
Definition video_output_create_with_frame_rate_divisor (info : video_t) (divisor : Z) : option video_t :=
  if (divisor =? 0) || (divisor =? 1) then None else
  Some (mk_video (vi_format info) (vi_width info) (vi_height info) (fps_num info) (u32 (fps_den info * divisor)) (colorspace info) (range info)).

Definition video_output_get_skipped_frames v : Z := u32 (vo_skipped_frames v).
Definition video_output_get_total_frames v : Z := u32 (vo_total_frames v).
Definition video_output_active v : bool := vo_raw_active v.
Definition video_output_stopped v : bool := vo_stop v.
End video_io.

(** ** The clock of the graphics thread: [video_sleep] of obs-video.c *)

(** [slept] is the result of [os_sleepto_ns], [now] that of [os_gettime_ns]. The results are
    the time of the next frame, and the time and the count of this one. *)
Definition video_sleep (p_time interval_ns : Z) (slept : bool) (now : Z) : option (Z * Z * Z) :=
  let cur_time := p_time in
  if slept then Some (u64 (cur_time + interval_ns), cur_time, 1) else
  if interval_ns =? 0 then None else
  let diff := i64 (u64 (now - cur_time)) in
  let clamped_diff := if i64 interval_ns <? diff then u64 diff else interval_ns in
  let count := i32 (clamped_diff `div` interval_ns) in
  Some (u64 (cur_time + u64 (interval_ns * u64 count)), cur_time, count).

(** Whatever the clock says, the next frame is [count] periods later, and there is one. *)
Lemma video_sleep_spec t interval slept now : 0 ≤ t → 0 < interval < 2 ^ 63 → 0 ≤ now < t + 2 ^ 31 * interval →
  t + 2 ^ 31 * interval < 2 ^ 63 →
  ∃ count, video_sleep t interval slept now = Some (t + count * interval, t, count) ∧ 1 ≤ count < 2 ^ 31 ∧
    t + count * interval ≤ Z.max (t + interval) now.
Proof.
  intros Ht Hi Hn Hb. unfold video_sleep. destruct slept.
  { exists 1. rewrite u64_small by lia. split; [by rewrite Z.mul_1_l|lia]. }
  rewrite (proj2 (Z.eqb_neq _ _)) by lia. rewrite (i64_small interval) by lia.
  assert (i64 (u64 (now - t)) = now - t) as ->.
  { unfold i64, u64. rewrite Zplus_mod_idemp_l, Z.mod_small; lia. }
  set (d := if interval <? now - t then _ else _). assert (interval ≤ d < 2 ^ 31 * interval) as Hd.
  { unfold d. destruct (Z.ltb_spec interval (now - t)); [rewrite u64_small by lia|]; lia. }
  assert (1 ≤ d `div` interval < 2 ^ 31) as Hc.
  { split; [apply Z.div_le_lower_bound; lia|apply Z.div_lt_upper_bound; lia]. }
  rewrite i32_small by lia. exists (d `div` interval).
  assert (d `div` interval * interval ≤ d) by (rewrite Z.mul_comm; apply Z.mul_div_le; lia).
  split; [|split; [done|unfold d in *; destruct (Z.ltb_spec interval (now - t)); rewrite ?u64_small in * by lia; lia]].
  rewrite (u64_small (d `div` interval)), (Z.mul_comm interval), (u64_small (_ * interval)), u64_small by lia. done.
Qed.
