(* ===== verification/VideoClock.v ===== *)
(** * The clock of the video output

    The graphics thread submits a picture for one or more periods of its clock; the video
    thread shows pictures to the inputs, at its own pace. The theorem is that the periods are
    shown one by one, in order and without a gap, each with its picture or, when the cache
    was full, with the last picture that found room, and that every input is given each
    [divisor]-th of them from its connection on. *)

From S2P Require Import Prelude Util Deque Encoder EncoderRun VideoIo.

Local Open Scope Z_scope.

(** ** The ring as a queue *)

Section ring.
Context (size : nat).

(** The index [n], at most once around. *)
Definition wrap (n : nat) : nat := if decide (n < size)%nat then n else (n - size)%nat.

Record ring_ok (r : frame_cache) (q : list cached_frame_info) : Prop := {
  ro_length : length (cache r) = size;
  ro_first : (first_added r < size)%nat;
  ro_last : (last_added r < size)%nat;
  ro_available : available_frames r = Z.of_nat size - zlen q;
  ro_fits : (length q ≤ size)%nat;
  ro_slots : ∀ k c, q !! k = Some c → cache r !! wrap (first_added r + k) = Some c
}.

Lemma wrap_lt f k : (f < size)%nat → (k < size)%nat → (wrap (f + k) < size)%nat.
Proof. unfold wrap. case_decide; lia. Qed.

Lemma wrap_inj f k j : (f < size)%nat → (k < size)%nat → (j < size)%nat → wrap (f + k) = wrap (f + j) → k = j.
Proof. unfold wrap. repeat case_decide; lia. Qed.

Lemma wrap_0 f : (f < size)%nat → wrap (f + 0) = f.
Proof. unfold wrap. case_decide; lia. Qed.

Lemma wrap_succ f k : (f < size)%nat → (k < size)%nat → wrap (f + S k) = wrap (wrap (f + 1) + k) ∨ (S k = size)%nat.
Proof. unfold wrap. repeat case_decide; lia. Qed.

(** Writing into the slot of the [k]-th frame of the queue, or into a free one. *)
Lemma ring_write r q k c : ring_ok r q → (k < length q)%nat →
  ring_ok (mk_ring (available_frames r) (first_added r) (last_added r) (<[wrap (first_added r + k) := c]> (cache r))) (<[k := c]> q).
Proof.
  intros [H1 H2 H3 H4 H5 H6] Hk. constructor; cbn; rewrite ?length_insert; unfold zlen in *; rewrite ?length_insert; try done.
  intros j c' Hj. destruct (decide (k = j)) as [<-|N].
  - rewrite list_lookup_insert_eq in Hj by lia. injection Hj as <-. rewrite list_lookup_insert_eq; [done|]. rewrite H1. apply wrap_lt; lia.
  - rewrite list_lookup_insert_ne in Hj by done. rewrite list_lookup_insert_ne; [by apply H6|].
    apply lookup_lt_Some in Hj. intros E. apply N. eapply wrap_inj; [..|exact E]; lia.
Qed.

Lemma ring_write_free r q c last : ring_ok r q → (length q < size)%nat → (last < size)%nat →
  ring_ok (mk_ring (available_frames r) (first_added r) last (<[wrap (first_added r + length q) := c]> (cache r))) q.
Proof.
  intros [H1 H2 H3 H4 H5 H6] Hk Hl. constructor; cbn; rewrite ?length_insert; try done.
  intros j c' Hj. rewrite list_lookup_insert_ne; [by apply H6|].
  apply lookup_lt_Some in Hj. intros E. eapply wrap_inj in E; lia.
Qed.

Lemma ring_push r q c : ring_ok r q → (length q < size)%nat → Z.of_nat size < 2 ^ 64 → cache r !! wrap (first_added r + length q) = Some c →
  ring_ok (mk_ring (u64 (available_frames r - 1)) (first_added r) (last_added r) (cache r)) (q ++ [c]).
Proof.
  intros [H1 H2 H3 H4 H5 H6] Hk Hz Hc. constructor; cbn; try done.
  - unfold zlen in *. rewrite length_app. cbn. rewrite u64_small; lia.
  - rewrite length_app. cbn. lia.
  - intros j c' Hj. apply lookup_app_Some in Hj as [Hj|[Hj1 Hj2]]; [by apply H6|].
    destruct (j - length q)%nat eqn:E; [|done]. injection Hj2 as <-. by replace j with (length q) by lia.
Qed.

Lemma ring_pop r q c first : ring_ok r (c :: q) → Z.of_nat size < 2 ^ 64 → first = wrap (first_added r + 1) → 
  ∀ last, (last < size)%nat → ring_ok (mk_ring (u64 (available_frames r + 1)) first last (cache r)) q.
Proof.
  intros [H1 H2 H3 H4 H5 H6] Hz -> last Hl. cbn in H5. assert (wrap (first_added r + 1) < size)%nat as Hf by (unfold wrap; case_decide; lia).
  constructor; cbn; try done.
  - autorewrite with len in H4. pose proof (zlen_nonneg q). unfold zlen in *. rewrite u64_small; lia.
  - lia.
  - intros j c' Hj. pose proof (lookup_lt_Some _ _ _ Hj). destruct (wrap_succ (first_added r) j) as [E|E]; [lia|lia| |lia].
    rewrite <- E. by apply (H6 (S j)).
Qed.

Lemma ring_head r c q : ring_ok r (c :: q) → cache r !! first_added r = Some c.
Proof. intros Hr. rewrite <- (wrap_0 (first_added r)) by apply Hr. by apply (ro_slots _ _ Hr 0). Qed.

Lemma next_index_wrap {scaler} (v : video_output (scaler := scaler)) i : vo_cache_size v = size → (i < size)%nat → next_index v i = wrap (i + 1).
Proof. intros <- Hi. unfold next_index, wrap. repeat case_decide; lia. Qed.
End ring.

(** ** The threads together *)

Section clock.
Context {scaler : Type}.
Context (scaler_create : video_scale_info → video_scale_info → option scaler).
Context (scaler_scale : scaler → video_data → option video_data).
Context (copy_frame : video_data → list (list cell)).

(** [sy_time] is the time of the next picture; [sy_log] has the pictures submitted, [None]
    for one that found no room, and for how many periods. *)
Record system := mk_system {
  sy_video : video_output (scaler := scaler);
  sy_thread : thread_at;
  sy_graphics : graphics_at;
  sy_time : Z;
  sy_log : list (option (list (list cell)) * Z)
}.

Inductive clock_event :=
  | C_OUTPUT (planes : list (list cell)) (linesize : list Z) (slept : bool) (now : Z)
  | C_CONTINUE
  | C_THREAD (failing : list Z)
  | C_CONNECT (conversion : option video_scale_info) (divisor callback : Z)
  | C_DISCONNECT (callback : Z)
  | C_STOP.

Definition enabled (st : system) (ev : clock_event) : bool :=
  match ev with
  | C_OUTPUT _ _ _ _ => match sy_graphics st with G_IDLE => true | _ => false end
  | C_CONTINUE => match sy_graphics st with G_IDLE => false | _ => true end
  | C_THREAD _ => match sy_thread st with T_WAIT => negb (vo_semaphore (sy_video st) =? 0) | T_ENDED => false | _ => true end
  | _ => true
  end.

Definition clock_step (st : system) (ev : clock_event) : option system :=
  let v := sy_video st in
  match ev with
  | C_OUTPUT planes linesize slept now =>
      '(time, ts, count) ← video_sleep (sy_time st) (vo_frame_time v) slept now;
      '(v, g) ← begin_output v (mk_video_data planes linesize ts) count;
      Some (mk_system v (sy_thread st) g time (match g with G_IDLE => sy_log st ++ [(None, count)] | _ => sy_log st end))
  | C_CONTINUE =>
      '(v, g) ← continue_output copy_frame v (sy_graphics st);
      Some (mk_system v (sy_thread st) g (sy_time st)
        (match sy_graphics st with G_COPIED p count => sy_log st ++ [(Some (copy_frame p), count)] | _ => sy_log st end))
  | C_THREAD failing =>
      '(v, t) ← video_thread scaler_scale v (sy_thread st) failing;
      Some (mk_system v t (sy_graphics st) (sy_time st) (sy_log st))
  | C_CONNECT conversion divisor callback =>
      Some (mk_system (fst (video_output_connect2 scaler_create v conversion divisor callback)) (sy_thread st) (sy_graphics st) (sy_time st) (sy_log st))
  | C_DISCONNECT callback =>
      Some (mk_system (fst (video_output_disconnect2 v callback)) (sy_thread st) (sy_graphics st) (sy_time st) (sy_log st))
  | C_STOP => Some (mk_system (video_output_stop v) (sy_thread st) (sy_graphics st) (sy_time st) (sy_log st))
  end.

(** A step that is not possible does not happen. *)
Fixpoint clock_run (st : system) (evs : list clock_event) : option system :=
  match evs with
  | [] => Some st
  | ev :: evs => if enabled st ev then st ← clock_step st ev; clock_run st evs else clock_run st evs
  end.

(** ** What is to be shown *)

Context (ft : Z).

(** [count] periods of a picture from the time [t] on. *)
Definition periods (planes : list (list cell)) (t count : Z) : list (list (list cell) * Z) :=
  (λ k, (planes, t + k * ft)) <$> seqZ 0 count.

Definition log_time (log : list (option (list (list cell)) * Z)) : Z := foldr (λ x s, x.2 + s) 0 log.
Definition log_refused (log : list (option (list (list cell)) * Z)) : Z :=
  foldr (λ x s, (match x.1 with None => x.2 | Some _ => 0 end) + s) 0 log.

Fixpoint timeline (last : list (list cell)) (t : Z) (log : list (option (list (list cell)) * Z)) : list (list (list cell) * Z) :=
  match log with
  | [] => []
  | (p, count) :: log => periods (default last p) t count ++ timeline (default last p) (t + count * ft) log
  end.

Definition last_planes (last : list (list cell)) (log : list (option (list (list cell)) * Z)) : list (list cell) :=
  foldl (λ last x, default last x.1) last log.

Lemma log_time_snoc log x : log_time (log ++ [x]) = log_time log + x.2.
Proof. unfold log_time. induction log as [|y log IH]; cbn in *; [lia|]. rewrite IH. lia. Qed.

Lemma log_refused_snoc log x : log_refused (log ++ [x]) = log_refused log + (match x.1 with None => x.2 | Some _ => 0 end).
Proof. unfold log_refused. induction log as [|y log IH]; cbn in *; [lia|]. rewrite IH. lia. Qed.

Lemma timeline_snoc log p count : ∀ last t,
  timeline last t (log ++ [(p, count)]) = timeline last t log ++ periods (default (last_planes last log) p) (t + log_time log * ft) count.
Proof.
  induction log as [|[q n] log IH]; intros last t; cbn.
  - rewrite app_nil_r. do 2 f_equal. lia.
  - rewrite IH, app_assoc. do 2 f_equal. unfold log_time. cbn. lia.
Qed.

Lemma periods_app planes t a b : 0 ≤ a → 0 ≤ b → periods planes t (a + b) = periods planes t a ++ periods planes (t + a * ft) b.
Proof.
  intros Ha Hb. unfold periods. rewrite seqZ_app by lia. rewrite fmap_app. f_equal.
  rewrite (Z.add_comm 0 a), <- fmap_add_seqZ, <- list_fmap_compose. apply list_fmap_ext. intros i x _. cbn. f_equal. lia.
Qed.

Lemma periods_cons planes t n : 1 ≤ n → periods planes t n = (planes, t) :: periods planes (t + ft) (n - 1).
Proof.
  intros Hn. replace n with (1 + (n - 1)) at 1 by lia. rewrite periods_app by lia.
  assert (periods planes t 1 = [(planes, t)]) as -> by (change (periods planes t 1) with [(planes, t + 0 * ft)]; by rewrite Z.mul_0_l, Z.add_0_r).
  cbn [app]. by rewrite Z.mul_1_l.
Qed.

(** ** The queue *)

Definition slot_periods (c : cached_frame_info) := periods (vd_data (cf_frame c)) (vd_timestamp (cf_frame c)) (cf_count c).
Definition pending (q : list cached_frame_info) := q ≫= slot_periods.
Definition skips (q : list cached_frame_info) : Z := foldr (λ c s, cf_skipped c + s) 0 q.

Lemma skips_app q q' : skips (q ++ q') = skips q + skips q'.
Proof. unfold skips. induction q as [|c q IH]; cbn in *; [lia|]. rewrite IH. lia. Qed.

(** Every frame of the queue ends at [t] at the latest. *)
Definition slot_ok (t0 t : Z) (c : cached_frame_info) : Prop :=
  let ts := vd_timestamp (cf_frame c) in
  t0 ≤ ts ∧ ts + cf_count c * ft ≤ t ∧ 1 ≤ cf_count c ∧ 0 ≤ cf_skipped c < cf_count c.

Lemma slot_mono t0 t t' c : slot_ok t0 t c → t ≤ t' → slot_ok t0 t' c.
Proof. unfold slot_ok. lia. Qed.

(** ** The inputs *)

(** The elements whose number is a multiple of [d]. *)
Definition every {A} (d : Z) (l : list A) : list A := omap id (imap (λ k x, if Z.of_nat k mod d =? 0 then Some x else None) l).

Lemma every_snoc {A} d (l : list A) x : every d (l ++ [x]) = every d l ++ (if zlen l mod d =? 0 then [x] else []).
Proof.
  unfold every. rewrite imap_app, omap_app. f_equal. cbn [imap omap list_omap compose]. rewrite Nat.add_0_r. fold (zlen l). by destruct (zlen l mod d =? 0).
Qed.

(** The frame an input gets when it is shown one. *)
Definition given (i : video_input) (frame : video_data) : option video_data :=
  match in_scaler i with
  | None => Some frame
  | Some s => (λ r, mk_video_data (vd_data r) (vd_linesize r) (vd_timestamp frame)) <$> scaler_scale s frame
  end.

Lemma scale_given i frame : (scale_video_output scaler_scale i frame).2 = given i frame.
Proof. unfold scale_video_output, given. by destruct (in_scaler i). Qed.

Record input_ok (shown : list video_data) (i : video_input (scaler := scaler)) : Prop := {
  ip_divisor : 0 < in_divisor i < 2 ^ 32;
  ip_since : (in_since i ≤ length shown)%nat;
  ip_counter : in_divisor_counter i = zlen (drop (in_since i) shown) mod in_divisor i;
  ip_got : in_got i = omap (given i) (every (in_divisor i) (drop (in_since i) shown))
}.

Lemma input_shown shown i frame : input_ok shown i → input_ok (shown ++ [frame]) (input_frame scaler_scale i frame).1.
Proof.
  intros [Hd Hs Hc Hg]. unfold input_frame. pose proof (Z.mod_pos_bound (zlen (drop (in_since i) shown)) _ (proj1 Hd)) as Hm.
  rewrite <- Hc in Hm. set (counter := u32 (in_divisor_counter i + 1)).
  assert ((if counter =? in_divisor i then 0 else counter) = (zlen (drop (in_since i) shown) + 1) mod in_divisor i) as Ec.
  { unfold counter. rewrite u32_small by lia. rewrite <- Zplus_mod_idemp_l, <- Hc.
    destruct (Z.eqb_spec (in_divisor_counter i + 1) (in_divisor i)) as [E|E]; [by rewrite E, Z.mod_same by lia|rewrite Z.mod_small; lia]. }
  assert (drop (in_since i) (shown ++ [frame]) = drop (in_since i) shown ++ [frame]) as Ed by (by apply drop_app_le).
  assert (zlen (drop (in_since i) shown ++ [frame]) = zlen (drop (in_since i) shown) + 1) as El by (by rewrite zlen_app).
  destruct (in_divisor_counter i =? 0) eqn:E0; cbn [negb].
  - destruct (scale_video_output scaler_scale i frame) as [cur out] eqn:Es. constructor; cbn [fst in_divisor in_since in_divisor_counter in_got]; rewrite ?Ed, ?El; try done.
    { rewrite length_app. lia. }
    rewrite every_snoc, <- Hc, E0, omap_app, Hg. f_equal. change (given (mk_input _ _ _ _ _ _ _ _)) with (given i). cbn.
    rewrite <- scale_given, Es. cbn. by destruct out.
  - constructor; cbn [fst in_divisor in_since in_divisor_counter in_got]; rewrite ?Ed, ?El; try done.
    { rewrite length_app. lia. }
    rewrite every_snoc, <- Hc, E0, app_nil_r, Hg. done.
Qed.
(** ** The loop over the inputs *)

Lemma set_inputs_twice (v : video_output (scaler := scaler)) l a l' a' : set_inputs (set_inputs v l a) l' a' = set_inputs v l' a'.
Proof. done. Qed.

Lemma set_inputs_id (v : video_output (scaler := scaler)) : set_inputs v (vo_inputs v) (vo_raw_active v) = v.
Proof. by destruct v. Qed.

Lemma disconnect_same (v : video_output (scaler := scaler)) cb :
  ∃ l a, (video_output_disconnect2 v cb).1 = set_inputs v l a.
Proof. unfold video_output_disconnect2. case_match; cbn; eexists _, _; [done|]. by rewrite set_inputs_id. Qed.

Lemma deliver_same fuel : ∀ i failing frame (v : video_output (scaler := scaler)),
  ∃ l a, deliver_loop scaler_scale fuel i failing frame v = set_inputs v l a.
Proof.
  induction fuel as [|fuel IH]; intros i failing frame v; cbn; [eexists _, _; by rewrite set_inputs_id|].
  destruct (vo_inputs v !! i) as [input|]; [|eexists _, _; by rewrite set_inputs_id].
  destruct (input_frame _ _ _) as [input' called]. set (v1 := set_inputs v _ _).
  destruct (called && _).
  - destruct (disconnect_same v1 (in_callback input)) as (l & a & ->). destruct (IH (S i) failing frame (set_inputs v1 l a)) as (l' & a' & ->).
    by exists l', a'.
  - destruct (IH (S i) failing frame v1) as (l' & a' & ->). by exists l', a'.
Qed.

Lemma deliver_all fuel : ∀ i frame (v : video_output (scaler := scaler)), (length (vo_inputs v) ≤ i + fuel)%nat →
  vo_inputs (deliver_loop scaler_scale fuel i [] frame v) =
  take i (vo_inputs v) ++ ((λ x, (input_frame scaler_scale x frame).1) <$> drop i (vo_inputs v)).
Proof.
  induction fuel as [|fuel IH]; intros i frame v Hl; cbn.
  { rewrite take_ge, drop_ge by lia. cbn. by rewrite app_nil_r. }
  destruct (vo_inputs v !! i) as [input|] eqn:Ei.
  - destruct (input_frame scaler_scale input frame) as [input' called] eqn:Ef. rewrite (bool_decide_eq_false_2 (_ ∈ [])) by apply not_elem_of_nil.
    rewrite andb_false_r, IH; cbn; [|rewrite length_insert; lia].
    pose proof (lookup_lt_Some _ _ _ Ei) as Hlt. rewrite (drop_S _ _ _ Ei), fmap_cons, Ef. cbn [fst].
    rewrite drop_insert_lt by lia. rewrite (take_S_r _ _ input') by (apply list_lookup_insert_eq; lia).
    rewrite take_insert_ge by lia. by rewrite <- app_assoc.
  - apply lookup_ge_None in Ei. rewrite take_ge, drop_ge by lia. cbn. by rewrite app_nil_r.
Qed.

(** Without failing callbacks every input is shown every frame. *)
Definition calm (ev : clock_event) : bool := match ev with C_THREAD (_ :: _) => false | _ => true end.
Definition divisor_fits (ev : clock_event) : bool := match ev with C_CONNECT _ d _ => (0 <=? d) && (d <? 2 ^ 32) | _ => true end.

Definition inputs_ok (v : video_output (scaler := scaler)) : Prop := Forall (input_ok (vo_shown v)) (vo_inputs v).

Lemma connect_ok (v : video_output (scaler := scaler)) conv d cb : inputs_ok v → 0 ≤ d < 2 ^ 32 →
  inputs_ok (video_output_connect2 scaler_create v conv d cb).1.
Proof.
  intros Hv Hd. unfold video_output_connect2. destruct (Z.eqb_spec d 0) as [E|E]; [done|]. case_match; [done|]. case_match; [|done].
  assert (∀ s c n, input_ok (vo_shown v) (mk_input c s 0 d 0 n (length (vo_shown v)) [])) as Hnew.
  { intros s c n. constructor; cbn; rewrite ?drop_all; try done; [lia]. }
  unfold inputs_ok. destruct (_ && _); cbn; apply Forall_app; (split; [done|by constructor]).
Qed.

Lemma disconnect_ok (v : video_output (scaler := scaler)) cb : inputs_ok v → inputs_ok (video_output_disconnect2 v cb).1.
Proof.
  intros Hv. unfold video_output_disconnect2. case_match; [|done]. unfold inputs_ok in *. cbn.
  apply Forall_app; split; [by apply Forall_take|by apply Forall_drop].
Qed.

Lemma inputs_step st ev st' : clock_step st ev = Some st' → calm ev = true → divisor_fits ev = true →
  inputs_ok (sy_video st) → inputs_ok (sy_video st').
Proof.
  intros E Hc Hd Hi. destruct ev as [planes linesize slept now| |failing|conv d cb|cb|]; cbn in E.
  - destruct (video_sleep _ _ _ _) as [[[t ts] c]|]; [|done]. cbn in E. unfold begin_output, video_output_lock_frame in E.
    repeat case_match; simplify_eq; cbn in E; destruct (_ !! _); cbn in E; simplify_eq; done.
  - unfold continue_output, write_frame in E. destruct (sy_graphics st); [done| |cbn in E; by simplify_eq].
    destruct (_ !! _); cbn in E; by simplify_eq.
  - destruct failing; [|done]. destruct (sy_thread st); cbn in E.
    + repeat case_match; cbn in E; by simplify_eq.
    + repeat case_match; cbn in E; by simplify_eq.
    + destruct (_ !! _) as [cfi|]; cbn in E; [|done]. simplify_eq. cbn [sy_video]. unfold inputs_ok.
      set (v := set_shown _ _). destruct (deliver_same (length (vo_inputs (sy_video st))) 0 [] (cf_frame cfi) v) as (l & a & El).
      rewrite deliver_all by done. rewrite El. cbn. rewrite drop_0. apply Forall_fmap. eapply Forall_impl; [exact Hi|].
      intros i Hin. by apply input_shown.
    + unfold finish_frame in E. destruct (_ !! _); cbn in E; [|done]. repeat case_match; cbn in E; by simplify_eq.
    + done.
  - simplify_eq. cbn. unfold divisor_fits in Hd. apply connect_ok; [done|lia].
  - simplify_eq. cbn. by apply disconnect_ok.
  - simplify_eq. cbn. unfold video_output_stop. by case_match.
Qed.
(** ** The invariant *)

Context (size : nat) (t0 limit : Z) (total : Z) (blank : list (list cell)).
Hypothesis size_range : (1 ≤ size ≤ MAX_CACHE_SIZE)%nat.
Hypothesis time_range : 0 ≤ t0 ≤ limit ∧ 0 < ft ∧ 0 ≤ total ∧ limit + total * ft < t0 + 2 ^ 30 * ft ∧ t0 + 2 ^ 32 * ft < 2 ^ 63.

Definition log_end (log : list (option (list (list cell)) * Z)) : Z := t0 + log_time log * ft.

(** What of the queue is still to be shown. *)
Definition rest {A} (t : thread_at) (l : list A) : list A := match t with T_SENT _ => drop 1 l | _ => l end.

Definition busy (t : thread_at) : Z := match t with T_WAIT | T_ENDED => 0 | _ => 1 end.

(** The frame being written, if any, after the queue. *)
Definition graphics_ok (r : frame_cache) (q : list cached_frame_info) (g : graphics_at) (time lend : Z) : Prop :=
  match g with
  | G_IDLE => time = lend ∧ last_added r = (if decide (q = []) then first_added r else wrap size (first_added r + (length q - 1)))
  | G_LOCKED p c | G_COPIED p c =>
      time = lend + c * ft ∧ 1 ≤ c ∧ (length q < size)%nat ∧ last_added r = wrap size (first_added r + length q) ∧
      ∃ s, cache r !! last_added r = Some s ∧ vd_timestamp (cf_frame s) = lend ∧ cf_count s = c ∧ cf_skipped s = 0 ∧
        match g with G_COPIED _ _ => vd_data (cf_frame s) = copy_frame p | _ => True end
  end.

Definition thread_ok (r : frame_cache) (q : list cached_frame_info) (t : thread_at) (stop : bool) (sem : Z) : Prop :=
  0 ≤ sem ∧ (stop = false → sem + busy t = zlen q ∧ t ≠ T_ENDED) ∧
  match t with T_TOOK i | T_SENT i => i = first_added r ∧ q ≠ [] | _ => True end.

Definition key (f : video_data) : list (list cell) * Z := (vd_data f, vd_timestamp f).

Record clock_ok (k lost : Z) (st : system) (q : list cached_frame_info) : Prop := {
  ck_size : vo_cache_size (sy_video st) = size;
  ck_ft : vo_frame_time (sy_video st) = ft;
  ck_ring : ring_ok size (vo_ring (sy_video st)) q;
  ck_time : 0 ≤ log_time (sy_log st) ∧ t0 ≤ sy_time st ≤ limit + k * ft;
  ck_graphics : graphics_ok (vo_ring (sy_video st)) q (sy_graphics st) (sy_time st) (log_end (sy_log st));
  ck_slots : Forall (slot_ok t0 (log_end (sy_log st))) q;
  ck_tail : ∀ c, last q = Some c → vd_timestamp (cf_frame c) + cf_count c * ft = log_end (sy_log st) ∧
    vd_data (cf_frame c) = last_planes blank (sy_log st);
  ck_shown : (key <$> vo_shown (sy_video st)) ++ rest (sy_thread st) (pending q) = timeline blank t0 (sy_log st);
  ck_thread : thread_ok (vo_ring (sy_video st)) q (sy_thread st) (vo_stop (sy_video st)) (vo_semaphore (sy_video st));
  ck_skipped : vo_skipped_frames (sy_video st) + skips q + lost = log_refused (sy_log st) ∧
    0 ≤ vo_skipped_frames (sy_video st) ∧ 0 ≤ lost ∧ log_refused (sy_log st) ≤ log_time (sy_log st)
}.

Lemma rest_app {A} t (l l' : list A) : l ≠ [] ∨ rest t [()] = [()] → rest t (l ++ l') = rest t l ++ l'.
Proof. intros [H|H]; destruct t; try done. by destruct l. Qed.

Lemma slot_nonempty t c : slot_ok t0 t c → slot_periods c ≠ [].
Proof. intros (_ & _ & Hc & _). unfold slot_periods. by rewrite periods_cons. Qed.

Lemma pending_nonempty t q : Forall (slot_ok t0 t) q → q ≠ [] → pending q ≠ [].
Proof. intros H N. destruct q as [|c q]; [done|]. apply Forall_cons in H as [H _]. apply slot_nonempty in H. cbn. by destruct (slot_periods c). Qed.

(** Every count is within the time of the log. *)
Lemma slot_count t c n : slot_ok t0 t c → t ≤ t0 + n * ft → cf_count c ≤ n.
Proof. intros (H1 & H2 & H3 & H4) Ht. nia. Qed.

Lemma refused_ok k lost st q' c n : clock_ok k lost st (q' ++ [c]) → sy_graphics st = G_IDLE → 1 ≤ n →
  sy_time st + n * ft ≤ limit + (k + 1) * ft → k + 1 ≤ total →
  let ring := vo_ring (sy_video st) in
  let c' := mk_cfi (cf_frame c) (i32 (cf_skipped c + n)) (i32 (cf_count c + n)) in
  clock_ok (k + 1) lost (mk_system (set_ring (sy_video st) (mk_ring (available_frames ring) (first_added ring) (last_added ring)
      (<[last_added ring := c']> (cache ring)))) (sy_thread st) G_IDLE (sy_time st + n * ft) (sy_log st ++ [(None, n)]))
    (q' ++ [c']).
Proof.
  intros [K1 K2 K3 K4 K5 K6 K7 K8 K9 K10] Eg Hn Ht Hk. rewrite Eg in K5. destruct K5 as [Et El]. rewrite decide_False in El by (by destruct q').
  rewrite length_app in *. cbn [length] in *. replace (length q' + 1 - 1)%nat with (length q') in * by lia.
  set (c' := mk_cfi _ _ _). cbn zeta.
  apply Forall_app in K6 as [K6 K6']. inversion_clear K6' as [|? ? Hcs _].
  destruct (K7 c) as [Hend Hpl]; [apply last_snoc|].
  assert (cf_count c ≤ log_time (sy_log st)) as Hcc by (eapply slot_count; [exact Hcs|unfold log_end; lia]).
  unfold log_end in *. assert (log_time (sy_log st) + n < 2 ^ 31) as Hlim by nia.
  destruct Hcs as (S1 & S2 & S3 & S4).
  assert (c' = mk_cfi (cf_frame c) (cf_skipped c + n) (cf_count c + n)) as Ec by (unfold c'; by rewrite !i32_small by lia).
  assert (ring_ok size (mk_ring (available_frames (vo_ring (sy_video st))) (first_added (vo_ring (sy_video st))) (last_added (vo_ring (sy_video st)))
    (<[last_added (vo_ring (sy_video st)):=c']> (cache (vo_ring (sy_video st))))) (q' ++ [c'])) as Hr.
  { replace (q' ++ [c']) with (<[length q' := c']> (q' ++ [c])) by (rewrite insert_app_r_alt, Nat.sub_diag by lia; done).
    rewrite El at 2. apply ring_write; [done|rewrite length_app; cbn; lia]. }
  constructor; cbn [sy_video sy_thread sy_graphics sy_time sy_log set_ring vo_cache_size vo_frame_time vo_ring vo_shown vo_stop vo_semaphore vo_skipped_frames]; try done;
    rewrite ?log_time_snoc, ?log_refused_snoc; cbn [fst snd]; try lia.
  - unfold log_end. rewrite log_time_snoc. cbn [snd]. split; [lia|]. rewrite decide_False by (by destruct q'). cbn.
    rewrite length_app. cbn. by replace (length q' + 1 - 1)%nat with (length q') by lia.
  - unfold log_end. rewrite log_time_snoc. cbn [snd]. apply Forall_app. split; [eapply Forall_impl; [exact K6|]; intros x Hx; eapply slot_mono; [exact Hx|lia]|].
    apply Forall_singleton. rewrite Ec. unfold slot_ok. cbn. lia.
  - intros x Hx. rewrite last_snoc in Hx. injection Hx as <-. unfold log_end. rewrite log_time_snoc. rewrite Ec. cbn.
    split; [lia|]. unfold last_planes. by rewrite foldl_snoc.
  - assert (pending (q' ++ [c']) = pending (q' ++ [c]) ++ periods (last_planes blank (sy_log st)) (log_end (sy_log st)) n) as ->.
    { unfold pending. rewrite !bind_app, <- app_assoc. f_equal. cbn. rewrite !app_nil_r, Ec. unfold slot_periods. cbn.
      rewrite periods_app by lia. rewrite Hpl. f_equal. f_equal. unfold log_end. lia. }
    rewrite rest_app; [|left; eapply (pending_nonempty (log_end (sy_log st))); [apply Forall_app; split; [exact K6|by apply Forall_singleton]|by destruct q']].
    rewrite app_assoc, K8, timeline_snoc. done.
  - destruct K9 as (K91 & K92 & K93). split_and!; [done| |].
    + intros E. destruct (K92 E). unfold zlen in *. rewrite length_app in *. cbn in *. split; [lia|done].
    + destruct (sy_thread st); try done; destruct K93; (split; [done|by destruct q']).
  - rewrite skips_app in *. rewrite Ec. cbn in *. lia.
Qed.
Ltac clock_fields := cbn [sy_video sy_thread sy_graphics sy_time sy_log set_ring set_stop set_counters set_inputs set_shown inc_total reset_frames fst
  vo_cache_size vo_frame_time vo_ring vo_shown vo_stop vo_semaphore vo_skipped_frames vo_inputs].

(** A frame is locked. *)
Lemma locked_ok k lost st q picture n s : clock_ok k lost st q → sy_graphics st = G_IDLE → (length q < size)%nat → 1 ≤ n →
  sy_time st + n * ft ≤ limit + (k + 1) * ft →
  let ring := vo_ring (sy_video st) in
  let last := wrap size (first_added ring + length q) in
  let s' := mk_cfi (mk_video_data (vd_data (cf_frame s)) (vd_linesize (cf_frame s)) (sy_time st)) 0 n in
  clock_ok (k + 1) lost (mk_system (set_ring (sy_video st) (mk_ring (available_frames ring) (first_added ring) last (<[last := s']> (cache ring))))
    (sy_thread st) (G_LOCKED picture n) (sy_time st + n * ft) (sy_log st)) q.
Proof.
  intros [K1 K2 K3 K4 K5 K6 K7 K8 K9 K10] Eg Hq Hn Ht ring last s'. rewrite Eg in K5. destruct K5 as [Et El].
  assert (wrap size (first_added (vo_ring (sy_video st)) + length q) < size)%nat as Hw by (apply wrap_lt; [apply K3|done]).
  constructor; clock_fields; try done; try lia.
  - by apply ring_write_free.
  - unfold graphics_ok. cbn [last_added first_added cache]. split_and!; [lia|done|done|done|].
    eexists. split; [apply list_lookup_insert_eq; unfold ring; by rewrite (ro_length _ _ _ K3)|]. unfold s'. by rewrite Et.
Qed.

(** The picture is written. *)
Lemma written_ok k lost st q picture n s : clock_ok k lost st q → sy_graphics st = G_LOCKED picture n →
  let ring := vo_ring (sy_video st) in
  cache ring !! last_added ring = Some s →
  let s' := mk_cfi (mk_video_data (copy_frame picture) (vd_linesize (cf_frame s)) (vd_timestamp (cf_frame s))) (cf_skipped s) (cf_count s) in
  clock_ok (k + 1) lost (mk_system (set_ring (sy_video st) (mk_ring (available_frames ring) (first_added ring) (last_added ring) (<[last_added ring := s']> (cache ring))))
    (sy_thread st) (G_COPIED picture n) (sy_time st) (sy_log st)) q.
Proof.
  intros [K1 K2 K3 K4 K5 K6 K7 K8 K9 K10] Eg ring Hs s'. rewrite Eg in K5. destruct K5 as (Et & Hn & Hq & El & s0 & Hs0 & Ets & Ecn & Esk & _).
  fold ring in Hs0, El. rewrite Hs in Hs0. injection Hs0 as <-.
  constructor; clock_fields; try done; try lia.
  - rewrite El at 2. apply ring_write_free; [done|done|apply K3].
  - unfold graphics_ok. cbn [last_added first_added cache]. fold ring. split_and!; [lia|done|done|done|].
    exists s'. split; [apply list_lookup_insert_eq; unfold ring; rewrite (ro_length _ _ _ K3); apply K3|done].
Qed.

(** The frame is added. *)
Lemma added_ok k lost st q picture n : clock_ok k lost st q → sy_graphics st = G_COPIED picture n →
  ∃ q', clock_ok (k + 1) lost (mk_system (video_output_unlock_frame (sy_video st)) (sy_thread st) G_IDLE (sy_time st)
    (sy_log st ++ [(Some (copy_frame picture), n)])) q'.
Proof.
  intros [K1 K2 K3 K4 K5 K6 K7 K8 K9 K10] Eg. rewrite Eg in K5. destruct K5 as (Et & Hn & Hq & El & s & Hs & Ets & Ecn & Esk & Epl).
  exists (q ++ [s]). unfold video_output_unlock_frame.
  assert (log_end (sy_log st ++ [(Some (copy_frame picture), n)]) = log_end (sy_log st) + n * ft) as Ele.
  { unfold log_end. rewrite log_time_snoc. cbn. lia. }
  constructor; clock_fields; rewrite ?Ele, ?log_time_snoc, ?log_refused_snoc; cbn [fst snd]; try done; try lia.
  - apply ring_push; [done|done|unfold MAX_CACHE_SIZE in *; lia|by rewrite <- El].
  - unfold graphics_ok. cbn [last_added first_added]. split; [lia|]. rewrite decide_False by (by destruct q). rewrite length_app. cbn.
    by replace (length q + 1 - 1)%nat with (length q) by lia.
  - apply Forall_app. split; [eapply Forall_impl; [exact K6|]; intros x Hx; eapply slot_mono; [exact Hx|nia]|].
    apply Forall_singleton. unfold slot_ok. rewrite Ets, Ecn, Esk. unfold log_end in *. nia.
  - intros c Hc. rewrite last_snoc in Hc. injection Hc as <-. rewrite Ets, Ecn, Epl. unfold last_planes. by rewrite foldl_snoc.
  - unfold pending. rewrite bind_app. cbn. rewrite app_nil_r. rewrite rest_app.
    + rewrite app_assoc. fold (pending q). rewrite K8, timeline_snoc. cbn. unfold slot_periods. by rewrite Ets, Ecn, Epl.
    + destruct K9 as (_ & _ & K9). destruct (sy_thread st); try (by right). left. eapply pending_nonempty; [exact K6|apply K9].
  - destruct K9 as (K91 & K92 & K93). split_and!; [lia| |].
    + intros E. destruct (K92 E). unfold zlen in *. rewrite length_app in *. cbn in *. split; [lia|done].
    + destruct (sy_thread st); try done; destruct K93; (split; [done|by destruct q]).
  - rewrite skips_app. cbn. rewrite Esk. lia.
Qed.

(** The inputs are shown the first frame. *)
Lemma shown_ok k lost st q failing : clock_ok k lost st q → 
  ∀ idx, sy_thread st = T_TOOK idx → ∃ v t, video_thread scaler_scale (sy_video st) (sy_thread st) failing = Some (v, t) ∧
    clock_ok (k + 1) lost (mk_system v t (sy_graphics st) (sy_time st) (sy_log st)) q.
Proof.
  intros [K1 K2 K3 K4 K5 K6 K7 K8 K9 K10] idx Et. rewrite Et in *. destruct K9 as (K91 & K92 & -> & Hq).
  destruct q as [|c q]; [done|]. cbn [video_thread]. rewrite (ring_head _ _ _ _ K3). cbn [mbind option_bind].
  set (v1 := set_shown _ _). destruct (deliver_same (length (vo_inputs (sy_video st))) 0 failing (cf_frame c) v1) as (l & a & ->).
  eexists _, _. split; [reflexivity|]. unfold v1. constructor; clock_fields; try done; try lia.
  - rewrite fmap_app, <- app_assoc, <- K8. f_equal. cbn. apply Forall_cons in K6 as [(_ & _ & Hc & _) _].
    unfold slot_periods. rewrite periods_cons by done. done.
  - split; [done|]. split; [|done]. intros E. destruct (K92 E). done.
Qed.
Lemma time_bounds k lost st q : clock_ok k lost st q → k ≤ total → log_end (sy_log st) ≤ sy_time st < t0 + 2 ^ 30 * ft.
Proof.
  intros Hck Hk. pose proof (ck_time _ _ _ _ Hck) as [_ Ht]. pose proof (ck_graphics _ _ _ _ Hck) as Hg. clear Hck.
  assert (k * ft ≤ total * ft) by (apply Z.mul_le_mono_nonneg_r; lia). split; [|lia].
  destruct (sy_graphics st) as [|p n|p n]; [destruct Hg; lia|..];
    destruct Hg as (-> & Hn & _); assert (0 ≤ n * ft) by (apply Z.mul_nonneg_nonneg; lia); lia.
Qed.

Lemma skips_nonneg t q : Forall (slot_ok t0 t) q → 0 ≤ skips q.
Proof.
  induction 1 as [|x l (_ & _ & _ & Hx) _ IH]; [done|]. change (skips (x :: l)) with (cf_skipped x + skips l). lia.
Qed.

Lemma slot_bounds t c : slot_ok t0 t c → t < t0 + 2 ^ 30 * ft → cf_count c < 2 ^ 30 ∧ ft ≤ cf_count c * ft.
Proof.
  intros (S1 & S2 & S3 & _) Ht. split.
  - apply (Z.mul_lt_mono_pos_r ft); lia.
  - assert (1 * ft ≤ cf_count c * ft) by (apply Z.mul_le_mono_nonneg_r; lia). lia.
Qed.

(** The frame being written stays where it is when the first one leaves the queue. *)
Lemma popped_graphics r c c' q g time lend avail first last : ring_ok size r (c :: q) → graphics_ok r (c :: q) g time lend →
  first = wrap size (first_added r + 1) → last = (if decide (q = []) then first else last_added r) →
  graphics_ok (mk_ring avail first last (<[first_added r := c']> (cache r))) q g time lend.
Proof.
  intros Hr Hg -> ->. pose proof (ro_fits _ _ _ Hr) as Hf. cbn in Hf. pose proof (ro_first _ _ _ Hr) as Hr1.
  assert (wrap size (first_added r + 1) < size)%nat as Hw by (unfold wrap; case_decide; lia).
  assert (∀ n, S n < size → wrap size (first_added r + S n) = wrap size (wrap size (first_added r + 1) + n))%nat as Hs.
  { intros n Hn. destruct (wrap_succ size (first_added r) n); lia. }
  destruct g as [|p n|p n].
  - destruct Hg as [? Hl]. split; [done|]. cbn [last_added first_added]. destruct (decide (q = [])) as [Eq|Eq]; [done|]. rewrite Hl. rewrite decide_False by done.
    destruct q as [|c1 q]; [done|]. cbn in *. rewrite !Nat.sub_0_r. apply Hs. lia.
  - destruct Hg as (? & ? & Hq & Hl & s & Hg). cbn [length] in *. unfold graphics_ok. cbn [last_added first_added cache].
    assert ((if decide (q = []) then wrap size (first_added r + 1) else last_added r) = last_added r) as E1.
    { case_decide as Eq; [|done]. by rewrite Hl, Eq. }
    rewrite E1. split_and!; [done|done|lia|rewrite Hl; apply Hs; lia|]. exists s. rewrite list_lookup_insert_ne; [done|].
    rewrite Hl. intros E. rewrite <- (wrap_0 size (first_added r)) in E at 1 by done. eapply wrap_inj in E; lia.
  - destruct Hg as (? & ? & Hq & Hl & s & Hg). cbn [length] in *. unfold graphics_ok. cbn [last_added first_added cache].
    assert ((if decide (q = []) then wrap size (first_added r + 1) else last_added r) = last_added r) as E1.
    { case_decide as Eq; [|done]. by rewrite Hl, Eq. }
    rewrite E1. split_and!; [done|done|lia|rewrite Hl; apply Hs; lia|]. exists s. rewrite list_lookup_insert_ne; [done|].
    rewrite Hl. intros E. rewrite <- (wrap_0 size (first_added r)) in E at 1 by done. eapply wrap_inj in E; lia.
Qed.

(** Nor does it move when the first one is changed. *)
Lemma changed_graphics r c c' q g time lend : ring_ok size r (c :: q) → graphics_ok r (c :: q) g time lend →
  graphics_ok (mk_ring (available_frames r) (first_added r) (last_added r) (<[first_added r := c']> (cache r))) (c' :: q) g time lend.
Proof.
  intros Hr Hg. pose proof (ro_fits _ _ _ Hr) as Hf. cbn in Hf. pose proof (ro_first _ _ _ Hr) as Hr1.
  destruct g as [|p n|p n]; [done|..];
    (destruct Hg as (? & ? & Hq & Hl & s & Hg); split_and!; [done..|]; exists s; cbn [last_added cache]; rewrite list_lookup_insert_ne; [done|];
     rewrite Hl; intros E; rewrite <- (wrap_0 size (first_added r)) in E at 1 by done; eapply wrap_inj in E; cbn in *; lia).
Qed.

(** A period of the first frame is over. *)
Lemma finished_ok k lost st q failing idx : clock_ok k lost st q → k ≤ total → sy_thread st = T_SENT idx →
  ∃ v t q', video_thread scaler_scale (sy_video st) (sy_thread st) failing = Some (v, t) ∧
    clock_ok (k + 1) lost (mk_system v t (sy_graphics st) (sy_time st) (sy_log st)) q'.
Proof.
  intros Hck Hk Et. destruct (time_bounds _ _ _ _ Hck Hk) as [Hend Hst].
  destruct Hck as [K1 K2 K3 K4 K5 K6 K7 K8 K9 K10]. rewrite Et in *. destruct K9 as (K91 & K92 & -> & Hq).
  destruct q as [|c q]; [done|]. cbn [video_thread]. unfold finish_frame. rewrite (ring_head _ _ _ _ K3). cbn [mbind option_bind].
  apply Forall_cons in K6 as [Hc Hcs]. pose proof Hc as (C1 & C2 & C3 & C4).
  destruct (slot_bounds _ c Hc) as [Hcc Hft]; [lia|].
  rewrite K2, (u64_small (vd_timestamp (cf_frame c) + ft)), (i32_small (cf_count c - 1)) by (unfold log_end in *; lia).
  set (f := mk_video_data _ _ _). set (r := vo_ring (sy_video st)) in *.
  assert (∀ c', ring_ok size (mk_ring (available_frames r) (first_added r) (last_added r) (<[first_added r := c']> (cache r))) (c' :: q)) as Hr.
  { intros c'. pose proof (ring_write size r (c :: q) 0 c' K3 ltac:(cbn; lia)) as H. by rewrite wrap_0 in H by apply K3. }
  assert (rest (T_SENT (first_added r)) (pending (c :: q)) = periods (vd_data (cf_frame c)) (vd_timestamp (cf_frame c) + ft) (cf_count c - 1) ++ pending q) as Erest.
  { cbn. unfold slot_periods. by rewrite periods_cons. }
  rewrite Erest in K8. destruct (Z.eqb_spec (cf_count c - 1) 0) as [E0|E0]; cbn [negb andb].
  - set (c' := mk_cfi f _ _). set (first := next_index _ _). set (last := if _ =? _ then first else _).
    assert (first = wrap size (first_added r + 1)) as Ef by (apply next_index_wrap; [done|apply K3]).
    assert (first < size)%nat as Hfs by (unfold first, next_index; rewrite K1; case_decide; [lia|]; pose proof (ro_first _ _ _ K3); lia).
    assert (u64 (available_frames r + 1) = Z.of_nat size - zlen q) as Ea.
    { pose proof (ro_available _ _ _ K3) as Ha. pose proof (ro_fits _ _ _ K3) as Hf. autorewrite with len in Ha.
      unfold zlen, MAX_CACHE_SIZE in *. cbn in Hf. rewrite u64_small; lia. }
    assert (last = if decide (q = []) then first else last_added r) as El.
    { unfold last. rewrite Ea, K1. destruct q; cbn; [by rewrite Z.sub_0_r, Z.eqb_refl|]. rewrite (proj2 (Z.eqb_neq _ _)); [done|].
      autorewrite with len. pose proof (zlen_nonneg q). lia. }
    assert (last < size)%nat as Hls by (rewrite El; case_decide; [done|apply K3]).
    eexists _, _, q. split; [reflexivity|]. constructor; clock_fields; try done; try lia.
    + by apply (ring_pop _ _ _ c' first (Hr c')); [unfold MAX_CACHE_SIZE in *; lia| |].
    + by apply (popped_graphics r c).
    + intros x Hx. apply K7. by destruct q.
    + unfold c' in K8. rewrite E0 in K8. cbn in K8. done.
    + split; [done|]. split; [|done]. intros E. destruct (K92 E) as [K921 _]. autorewrite with len in K921. cbn in *. split; [lia|done].
    + change (skips (c :: q)) with (cf_skipped c + skips q) in K10. lia.
  - set (skip := 0 <? cf_skipped c). set (c' := mk_cfi f _ _). fold r.
    assert (cf_skipped c' = cf_skipped c - (if skip then 1 else 0) ∧ cf_count c' = cf_count c - 1) as [Esk Ecn].
    { unfold c', skip. cbn. destruct (0 <? cf_skipped c); [rewrite i32_small by lia|]; lia. }
    assert (vd_timestamp (cf_frame c') = vd_timestamp (cf_frame c) + ft ∧ vd_data (cf_frame c') = vd_data (cf_frame c)) as [Ets Epl] by done.
    eexists _, _, (c' :: q). split; [reflexivity|].
    assert (0 < cf_skipped c ↔ skip = true) as Hskip by (unfold skip; by rewrite Z.ltb_lt).
    assert (log_refused (sy_log st) < 2 ^ 30) as Hlr.
    { apply (Z.mul_lt_mono_pos_r ft); [lia|]. destruct K10 as (_ & _ & _ & K10). unfold log_end in Hend.
      assert (log_refused (sy_log st) * ft ≤ log_time (sy_log st) * ft) by (apply Z.mul_le_mono_nonneg_r; lia). lia. }
    pose proof (Hr c') as Hr'. pose proof (changed_graphics r c c' q _ _ _ K3 K5) as Hg'. clearbody c' skip.
    assert (Forall (slot_ok t0 (log_end (sy_log st))) (c' :: q)) as Hs'.
    { constructor; [|done]. unfold slot_ok. rewrite Ets, Ecn, Esk. destruct skip; lia. }
    assert (∀ x, last (c' :: q) = Some x → vd_timestamp (cf_frame x) + cf_count x * ft = log_end (sy_log st) ∧
      vd_data (cf_frame x) = last_planes blank (sy_log st)) as Ht'.
    { destruct q as [|c1 q]; [|by intros x Hx; apply K7]. intros x Hx. injection Hx as <-. rewrite Ets, Ecn, Epl.
      destruct (K7 c eq_refl) as [K71 ->]. split; [lia|done]. }
    assert ((key <$> vo_shown (sy_video st)) ++ rest T_LOOP (pending (c' :: q)) = timeline blank t0 (sy_log st)) as Hp'.
    { rewrite <- K8. cbn. unfold slot_periods at 1. by rewrite Ets, Ecn, Epl. }
    assert (∀ r', thread_ok r' (c' :: q) T_LOOP (vo_stop (sy_video st)) (vo_semaphore (sy_video st))) as Hth'.
    { intros r'. split; [done|]. split; [|done]. intros E. destruct (K92 E) as [K921 _]. by split. }
    change (skips (c :: q)) with (cf_skipped c + skips q) in K10. assert (skips (c' :: q) = cf_skipped c' + skips q) as Ek by done.
    pose proof (skips_nonneg _ _ Hcs).
    destruct skip; constructor; clock_fields; rewrite ?i64_small by lia; (done || lia).
Qed.
(** ** The steps *)

Lemma thread_step_ok k lost st q failing : clock_ok k lost st q → k ≤ total → enabled st (C_THREAD failing) = true →
  ∃ v t q', video_thread scaler_scale (sy_video st) (sy_thread st) failing = Some (v, t) ∧
    clock_ok (k + 1) lost (mk_system v t (sy_graphics st) (sy_time st) (sy_log st)) q'.
Proof.
  intros Hck Hk He. destruct (sy_thread st) as [| |idx|idx|] eqn:Et; cbn in He; rewrite Et in He.
  - destruct Hck as [K1 K2 K3 K4 K5 K6 K7 K8 K9 K10]. rewrite Et in *. destruct K9 as (K91 & K92 & _).
    apply negb_true_iff in He. pose proof (proj1 (Z.eqb_neq _ _) He). cbn. rewrite He.
    eexists _, _, q. split; [reflexivity|]. constructor; clock_fields; try done; try lia.
    + by destruct (vo_stop (sy_video st)).
    + cbn. split; [lia|]. destruct (vo_stop (sy_video st)); [done|]. split; [|done]. intros _. destruct (K92 eq_refl) as [K921 _]. cbn in *. split; [lia|done].
  - destruct Hck as [K1 K2 K3 K4 K5 K6 K7 K8 K9 K10]. rewrite Et in *. destruct K9 as (K91 & K92 & _). cbn.
    destruct (vo_stop (sy_video st)) eqn:Es; (eexists _, _, q; split; [reflexivity|]; constructor; clock_fields; try done; try lia; rewrite Es).
    + by split_and!.
    + destruct (K92 eq_refl) as [K921 _]. split; [done|]. split; [done|]. split; [done|]. intros ->. cbn in *. change (zlen []) with 0 in K921. lia.
  - destruct (shown_ok k lost st q failing Hck idx Et) as (v & t & E & Hck'). rewrite Et in E. by exists v, t, q.
  - destruct (finished_ok k lost st q failing idx Hck Hk Et) as (v & t & q' & E & Hck'). rewrite Et in E. by exists v, t, q'.
  - done.
Qed.

Lemma output_step_ok k lost st q planes linesize slept now : clock_ok k lost st q → 0 ≤ k < total → sy_graphics st = G_IDLE →
  0 ≤ now ≤ limit → ∃ st' q', clock_step st (C_OUTPUT planes linesize slept now) = Some st' ∧ clock_ok (k + 1) lost st' q'.
Proof.
  intros Hck Hk Eg Hn. destruct (time_bounds _ _ _ _ Hck ltac:(lia)) as [_ Htb]. pose proof (ck_time _ _ _ _ Hck) as [_ Ht].
  destruct (video_sleep_spec (sy_time st) ft slept now) as (n & Esl & Hn1 & Hmax); [lia..|].
  assert (sy_time st + n * ft ≤ limit + (k + 1) * ft) as Hle.
  { assert (0 ≤ k * ft) by (apply Z.mul_nonneg_nonneg; lia). lia. }
  pose proof (ck_ring _ _ _ _ Hck) as Hr. pose proof (ro_available _ _ _ Hr) as Ha. pose proof (ro_fits _ _ _ Hr) as Hf.
  pose proof (ck_graphics _ _ _ _ Hck) as Hg. rewrite Eg in Hg. destruct Hg as [Et El].
  cbn. rewrite (ck_ft _ _ _ _ Hck), Esl. cbn [mbind option_bind]. unfold begin_output, video_output_lock_frame. cbn [vd_timestamp].
  destruct (Z.eqb_spec (available_frames (vo_ring (sy_video st))) 0) as [E|E].
  - assert (length q = size) as Eq by (unfold zlen in *; lia).
    destruct (last q) as [c|] eqn:Ela; [|apply last_None in Ela; subst; cbn in Eq; lia].
    apply last_Some in Ela as [q' ->]. rewrite decide_False in El by (by destruct q').
    rewrite length_app in *. cbn in El, Eq. replace (length q' + 1 - 1)%nat with (length q') in El by lia.
    assert (cache (vo_ring (sy_video st)) !! last_added (vo_ring (sy_video st)) = Some c) as ->.
    { rewrite El. apply (ro_slots _ _ _ Hr). by apply list_lookup_middle. }
    cbn [mbind option_bind]. eexists _, (q' ++ [_]). split; [reflexivity|]. eapply (refused_ok k lost st q' c n); (done || lia).
  - assert (length q < size)%nat as Hq by (unfold zlen in *; lia).
    assert ((if available_frames (vo_ring (sy_video st)) =? Z.of_nat (vo_cache_size (sy_video st)) then last_added (vo_ring (sy_video st))
      else next_index (sy_video st) (last_added (vo_ring (sy_video st)))) = wrap size (first_added (vo_ring (sy_video st)) + length q)) as ->.
    { rewrite (ck_size _ _ _ _ Hck), Ha, El. pose proof (ro_first _ _ _ Hr) as Hr1. destruct q as [|c q].
      - change (zlen []) with 0. rewrite Z.sub_0_r, Z.eqb_refl. cbn. by rewrite wrap_0.
      - rewrite (proj2 (Z.eqb_neq _ _)) by (autorewrite with len; pose proof (zlen_nonneg q); lia). rewrite decide_False by done.
        cbn in *. rewrite Nat.sub_0_r. rewrite (next_index_wrap size) by (try apply Hck; apply wrap_lt; lia).
        unfold wrap. repeat case_decide; lia. }
    destruct (lookup_lt_is_Some_2 (cache (vo_ring (sy_video st))) (wrap size (first_added (vo_ring (sy_video st)) + length q))) as [s Es].
    { rewrite (ro_length _ _ _ Hr). apply wrap_lt; [apply Hr|done]. }
    rewrite Es. cbn [mbind option_bind]. eexists _, q. split; [reflexivity|]. eapply (locked_ok k lost st q _ n s); (done || lia).
Qed.

Lemma continue_step_ok k lost st q : clock_ok k lost st q → sy_graphics st ≠ G_IDLE →
  ∃ st' q', clock_step st C_CONTINUE = Some st' ∧ clock_ok (k + 1) lost st' q'.
Proof.
  intros Hck Hg. cbn. destruct (sy_graphics st) as [|p n|p n] eqn:Eg; [done| |].
  - pose proof (ck_graphics _ _ _ _ Hck) as Hgr. rewrite Eg in Hgr. destruct Hgr as (_ & _ & _ & _ & s & Es & _).
    cbn. unfold write_frame. rewrite Es. cbn [mbind option_bind]. eexists _, q. split; [reflexivity|]. by apply written_ok.
  - cbn. destruct (added_ok k lost st q p n Hck Eg) as (q' & Hck'). eexists _, q'. by split.
Qed.

(** Connecting, disconnecting and stopping; the first connection resets the counters. *)
Lemma other_step_ok k lost st q ev : clock_ok k lost st q →
  match ev with C_CONNECT _ _ _ | C_DISCONNECT _ | C_STOP => True | _ => False end →
  ∃ st' lost', clock_step st ev = Some st' ∧ clock_ok (k + 1) lost' st' q ∧ 
    (match ev with C_CONNECT _ _ _ => False | _ => True end → lost' = lost).
Proof.
  intros [K1 K2 K3 K4 K5 K6 K7 K8 K9 K10] Hev. destruct ev as [| | |conv d cb|cb|]; try done; cbn.
  - unfold video_output_connect2. destruct (d =? 0); [|case_match; [|case_match]].
    1,2,4: eexists _, lost; split; [reflexivity|]; split; [|done]; constructor; clock_fields; (done || lia).
    destruct (_ && _).
    + eexists _, (lost + vo_skipped_frames (sy_video st)). split; [reflexivity|]. split; [|done]. constructor; clock_fields; try done; lia.
    + eexists _, lost. split; [reflexivity|]. split; [|done]. constructor; clock_fields; try done; lia.
  - destruct (disconnect_same (sy_video st) cb) as (l & a & ->). eexists _, lost. split; [reflexivity|]. split; [|done].
    constructor; clock_fields; try done; lia.
  - eexists _, lost. split; [reflexivity|]. split; [|done]. unfold video_output_stop. destruct (vo_stop (sy_video st)) eqn:Es.
    + constructor; clock_fields; try done; try lia. by rewrite Es in *.
    + constructor; clock_fields; try done; try lia. destruct K9 as (K91 & _ & K93). split; [lia|]. split; [done|exact K93].
Qed.
(** ** The run *)

Definition clock_reads (ev : clock_event) : Prop := match ev with C_OUTPUT _ _ _ now => 0 ≤ now ≤ limit | _ => True end.
Definition is_connect (ev : clock_event) : bool := match ev with C_CONNECT _ _ _ => true | _ => false end.

Lemma clock_mono k k' lost st q : clock_ok k lost st q → k ≤ k' → clock_ok k' lost st q.
Proof.
  intros [K1 K2 K3 K4 K5 K6 K7 K8 K9 K10] Hk. constructor; try done. assert (k * ft ≤ k' * ft) by (apply Z.mul_le_mono_nonneg_r; lia). lia.
Qed.

Lemma clock_step_ok k lost st q ev : clock_ok k lost st q → 0 ≤ k < total → clock_reads ev → enabled st ev = true →
  ∃ st' lost' q', clock_step st ev = Some st' ∧ clock_ok (k + 1) lost' st' q' ∧ (is_connect ev = false → lost' = lost).
Proof.
  intros Hck Hk Hn He. destruct ev as [planes linesize slept now| |failing|conv d cb|cb|].
  - cbn in He. destruct (output_step_ok k lost st q planes linesize slept now Hck Hk) as (st' & q' & E & H); [by destruct (sy_graphics st)|done|].
    by exists st', lost, q'.
  - cbn in He. destruct (continue_step_ok k lost st q Hck) as (st' & q' & E & H); [by destruct (sy_graphics st)|]. by exists st', lost, q'.
  - destruct (thread_step_ok k lost st q failing Hck ltac:(lia) He) as (v & t & q' & E & H). unfold clock_step. rewrite E. cbn [mbind option_bind].
    by eexists _, lost, q'.
  - destruct (other_step_ok k lost st q (C_CONNECT conv d cb) Hck I) as (st' & lost' & E & H & _). by exists st', lost', q.
  - destruct (other_step_ok k lost st q (C_DISCONNECT cb) Hck I) as (st' & lost' & E & H & Hl). exists st', lost', q. split_and!; [done|done|by intros; apply Hl].
  - destruct (other_step_ok k lost st q C_STOP Hck I) as (st' & lost' & E & H & Hl). exists st', lost', q. split_and!; [done|done|by intros; apply Hl].
Qed.

Lemma clock_run_ok evs : ∀ k lost st q, clock_ok k lost st q → 0 ≤ k → k + zlen evs ≤ total → Forall clock_reads evs →
  ∃ st' lost' q', clock_run st evs = Some st' ∧ clock_ok (k + zlen evs) lost' st' q' ∧
    (Forall (λ ev, is_connect ev = false) evs → lost' = lost) ∧
    (Forall (λ ev, calm ev = true ∧ divisor_fits ev = true) evs → inputs_ok (sy_video st) → inputs_ok (sy_video st')) ∧
    (Forall (λ ev, is_connect ev = true) evs → sy_log st' = sy_log st).
Proof.
  induction evs as [|ev evs IH]; intros k lost st q Hck Hk Ht Hr.
  { exists st, lost, q. split_and!; try done. eapply clock_mono; [exact Hck|]. change (zlen []) with 0. lia. }
  autorewrite with len in *. pose proof (zlen_nonneg evs). apply Forall_cons in Hr as [Hr Hrs]. cbn [clock_run].
  destruct (enabled st ev) eqn:He.
  - destruct (clock_step_ok k lost st q ev Hck ltac:(lia) Hr He) as (st1 & lost1 & q1 & E1 & Hck1 & Hl1).
    destruct (IH (k + 1) lost1 st1 q1 Hck1 ltac:(lia) ltac:(lia) Hrs) as (st2 & lost2 & q2 & E2 & Hck2 & Hl2 & Hi2 & Hg2).
    exists st2, lost2, q2. rewrite E1. cbn [mbind option_bind]. split_and!; [done|eapply clock_mono; [exact Hck2|lia]|..].
    + intros Hc. apply Forall_cons in Hc as [Hc Hcs]. rewrite Hl2 by done. by apply Hl1.
    + intros Hc Hi. apply Forall_cons in Hc as [[Hc Hd] Hcs]. apply Hi2; [done|]. by eapply inputs_step.
    + intros Hc. apply Forall_cons in Hc as [Hc Hcs]. rewrite Hg2 by done. destruct ev; try done. cbn in E1. by simplify_eq.
  - destruct (IH k lost st q Hck ltac:(lia) ltac:(lia) Hrs) as (st2 & lost2 & q2 & E2 & Hck2 & Hl2 & Hi2 & Hg2).
    exists st2, lost2, q2. split_and!; [done|eapply clock_mono; [exact Hck2|lia]|..]; intros Hc; apply Forall_cons in Hc as [Hc Hcs]; auto.
Qed.

Lemma clock_run_app evs evs' : ∀ st, clock_run st (evs ++ evs') = st' ← clock_run st evs; clock_run st' evs'.
Proof. induction evs as [|ev evs IH]; intros st; [done|]. cbn. destruct (enabled st ev); [|apply IH]. destruct (clock_step st ev); [apply IH|done]. Qed.

Lemma opened_ok info frame n v : video_output_open info frame n = Some v → size = Nat.min n MAX_CACHE_SIZE → vo_frame_time v = ft →
  vd_data frame = blank → clock_ok 0 0 (mk_system v T_WAIT G_IDLE t0 []) [].
Proof.
  unfold video_output_open. destruct (valid_video_params info); [|done]. cbn. intros E -> Hf Hb. simplify_eq. cbn in Hf.
  constructor; clock_fields; try done; try (cbn; lia).
  - constructor; cbn; rewrite ?length_replicate; change (zlen []) with 0; try done; lia.
  - cbn. unfold log_end. cbn. split; [lia|done].
Qed.

Lemma pending_skips k lost st q : clock_ok k lost st q → 0 ≤ skips q.
Proof. intros Hck. eapply skips_nonneg, (ck_slots _ _ _ _ Hck). Qed.

Lemma idle_shown k lost st q : clock_ok k lost st q → sy_thread st = T_WAIT → vo_stop (sy_video st) = false → vo_semaphore (sy_video st) = 0 →
  q = [].
Proof.
  intros Hck Et Es E0. destruct (ck_thread _ _ _ _ Hck) as (_ & H & _). rewrite Et, Es, E0 in H. destruct (H eq_refl) as [H' _].
  cbn in H'. apply length_zero_iff_nil. unfold zlen in H'. lia.
Qed.
End clock.

Section theorem.
Context {scaler : Type}.
Context (scaler_create : video_scale_info → video_scale_info → option scaler).
Context (scaler_scale : scaler → video_data → option video_data).
Context (copy_frame : video_data → list (list cell)).

(** C11: Whatever the pace of the graphics and of the video thread, whoever connects and
    disconnects and whatever the clock says, for up to 2^30 periods: the periods of the graphics clock are shown one
    by one, in order, each once and with its own time stamp, each with the picture submitted
    for it or, when that found no room, with the last one that did; once the video thread
    waits, all have been shown. The periods without a picture of their own are counted as
    skipped, all of them when the inputs are connected before the first. If no callback
    disconnects an input while a picture is given out ([calm]: one that does makes the next
    input miss it, [failing_callback_shifts]), an input gets every [divisor]-th period shown
    since it was connected, the divisor being the uint32_t it was connected with. *)
Theorem video_shown_in_order info frame n v t0 limit evs :
  video_output_open info frame n = Some v → (1 ≤ n)%nat → let ft := vo_frame_time v in
  0 ≤ t0 ≤ limit ∧ 0 < ft ∧ limit + zlen evs * ft < t0 + 2 ^ 30 * ft ∧ t0 + 2 ^ 32 * ft < 2 ^ 63 →
  Forall (clock_reads limit) evs →
  ∃ st, clock_run scaler_create scaler_scale copy_frame (mk_system v T_WAIT G_IDLE t0 []) evs = Some st ∧
    let periods := timeline ft (vd_data frame) t0 (sy_log st) in
    let idle := sy_thread st = T_WAIT ∧ vo_stop (sy_video st) = false ∧ vo_semaphore (sy_video st) = 0 in
    (sy_graphics st = G_IDLE → sy_time st = t0 + log_time (sy_log st) * ft) ∧
    (key <$> vo_shown (sy_video st)) `prefix_of` periods ∧
    (idle → key <$> vo_shown (sy_video st) = periods) ∧
    vo_skipped_frames (sy_video st) ≤ log_refused (sy_log st) ∧
    (∀ conns evs', evs = conns ++ evs' → Forall (λ ev, is_connect ev = true) conns → Forall (λ ev, is_connect ev = false) evs' →
      idle → vo_skipped_frames (sy_video st) = log_refused (sy_log st)) ∧
    (Forall (λ ev, calm ev = true ∧ divisor_fits ev = true) evs →
      Forall (λ i, in_got i = omap (given scaler_scale i) (every (in_divisor i) (drop (in_since i) (vo_shown (sy_video st)))))
        (vo_inputs (sy_video st))).
Proof.
  intros Ho Hn ft (Ht & Hft & Hl & Hm) Hr. set (size := Nat.min n MAX_CACHE_SIZE).
  assert (1 ≤ size ≤ MAX_CACHE_SIZE)%nat as Hs by (unfold size, MAX_CACHE_SIZE; lia).
  assert (0 ≤ t0 ≤ limit ∧ 0 < ft ∧ 0 ≤ zlen evs ∧ limit + zlen evs * ft < t0 + 2 ^ 30 * ft ∧ t0 + 2 ^ 32 * ft < 2 ^ 63) as Hb by (pose proof (zlen_nonneg evs); lia).
  pose proof (opened_ok copy_frame ft size t0 limit (zlen evs) (vd_data frame) Hs Hb info frame n v Ho eq_refl eq_refl eq_refl) as H0.
  destruct (clock_run_ok scaler_create scaler_scale copy_frame ft size t0 limit (zlen evs) (vd_data frame) Hs Hb evs 0 0 _ _ H0) as (st & lost & q & E & Hck & Hlost & Hin & _); [lia|lia|done|].
  exists st. split; [done|]. cbn zeta. split_and!.
  - intros Eg. pose proof (ck_graphics _ _ _ _ _ _ _ _ _ _ Hck) as Hg. rewrite Eg in Hg. apply Hg.
  - exists (rest (sy_thread st) (pending ft q)). symmetry. apply (ck_shown _ _ _ _ _ _ _ _ _ _ Hck).
  - intros (I1 & I2 & I3). rewrite <- (ck_shown _ _ _ _ _ _ _ _ _ _ Hck), I1.
    assert (q = []) as -> by (by eapply idle_shown). cbn. by rewrite app_nil_r.
  - pose proof (ck_skipped _ _ _ _ _ _ _ _ _ _ Hck). assert (0 ≤ skips q) by (by eapply pending_skips). lia.
  - intros conns evs' -> Hc Hc' (I1 & I2 & I3). rewrite clock_run_app in E. apply Forall_app in Hr as [Hr Hr']. rewrite zlen_app in *.
    pose proof (zlen_nonneg conns). pose proof (zlen_nonneg evs').
    destruct (clock_run_ok scaler_create scaler_scale copy_frame ft size t0 limit (zlen conns + zlen evs') (vd_data frame) Hs Hb conns 0 0 _ _ H0)
      as (st1 & lost1 & q1 & E1 & Hck1 & _ & _ & Hg1); [lia|lia|done|]. rewrite E1 in E. cbn [mbind option_bind] in E.
    assert (lost1 = 0) as ->.
    { pose proof (ck_skipped _ _ _ _ _ _ _ _ _ _ Hck1) as Hsk. assert (0 ≤ skips q1) by (by eapply pending_skips).
      rewrite Hg1 in Hsk by done. cbn in Hsk. lia. }
    destruct (clock_run_ok scaler_create scaler_scale copy_frame ft size t0 limit (zlen conns + zlen evs') (vd_data frame) Hs Hb evs' (zlen conns) 0 _ _ Hck1)
      as (st2 & lost2 & q2 & E2 & Hck2 & Hl2 & _); [lia|lia|done|]. rewrite E2 in E. injection E as ->.
    pose proof (ck_skipped _ _ _ _ _ _ _ _ _ _ Hck2) as Hsk. assert (q2 = []) as -> by (by eapply idle_shown). rewrite (Hl2 Hc') in Hsk.
    cbn in Hsk. lia.
  - intros Hc. apply Hin in Hc; [|by unfold video_output_open in Ho; repeat case_match; simplify_eq; constructor].
    eapply Forall_impl; [exact Hc|]. by intros i [_ _ _ ?].
Qed.
End theorem.

(** ** Examples *)

Definition ex_info : video_t := mk_video VIDEO_FORMAT_NV12 1920 1080 60 1 VIDEO_CS_709 VIDEO_RANGE_PARTIAL.
Definition ex_blank : video_data := mk_video_data [[Some 0]] [1920] 0.
Definition ex_scale (s : unit) (frame : video_data) : option video_data := Some frame.
Definition ex_submit (p : Z) (slept : bool) (now : Z) : list clock_event := [C_OUTPUT [[Some p]] [1920] slept now; C_CONTINUE; C_CONTINUE].
Definition ex_thread (n : nat) : list clock_event := replicate n (C_THREAD []).
Definition ex_open : option (video_output (scaler := unit)) := video_output_open ex_info ex_blank 2.
Definition ex_clock (evs : list clock_event) : option (system (scaler := unit)) :=
  v ← ex_open; clock_run (λ _ _, None) ex_scale vd_data (mk_system v T_WAIT G_IDLE 1000 []) evs.

(** A cache of two frames: the third picture and the fourth, which is for two periods, find
    no room. *)
Definition ex_run : list clock_event :=
  [C_CONNECT None 1 7; C_CONNECT None 2 8] ++ ex_submit 1 true 0 ++ ex_submit 2 true 0 ++ ex_submit 3 true 0 ++
  ex_submit 4 false 83334334 ++ ex_thread 9 ++ ex_submit 5 true 0 ++ ex_thread 30.

Lemma video_shown_in_order_witness : ∃ v st, ex_open = Some v ∧
  clock_run (λ _ _, None) ex_scale vd_data (mk_system v T_WAIT G_IDLE 1000 []) ex_run = Some st ∧
  key <$> vo_shown (sy_video st) = [([[Some 1]], 1000); ([[Some 2]], 16667666); ([[Some 2]], 33334332); ([[Some 2]], 50000998);
    ([[Some 2]], 66667664); ([[Some 5]], 83334330)] ∧
  vo_skipped_frames (sy_video st) = 3 ∧
  (λ i, vd_timestamp <$> in_got i) <$> vo_inputs (sy_video st) =
    [[1000; 16667666; 33334332; 50000998; 66667664; 83334330]; [1000; 33334332; 66667664]] ∧
  key <$> vo_shown (sy_video st) `prefix_of` timeline (vo_frame_time v) [[Some 0]] 1000 (sy_log st).
Proof.
  destruct ex_open as [v|] eqn:Eo; [|discriminate].
  destruct (video_shown_in_order (λ _ _, None) ex_scale vd_data ex_info ex_blank 2 v 1000 83334334 ex_run) as (st & E & _ & Hp & _).
  - exact Eo.
  - lia.
  - vm_compute in Eo. injection Eo as <-. vm_compute. repeat split; discriminate.
  - repeat (apply Forall_cons; split; [cbn; (exact I || lia)|]). apply Forall_nil. exact I.
  - exists v, st. split; [reflexivity|]. split; [exact E|]. vm_compute in Eo. injection Eo as <-. vm_compute in E. injection E as <-.
    split; [reflexivity|]. split; [reflexivity|]. split; [reflexivity|exact Hp].
Defined.

(** A callback that disconnects itself while it is called moves the inputs behind it: the
    next one is not given the frame, and its counter is not advanced. *)
Definition ex_failing : list clock_event :=
  [C_CONNECT None 1 7; C_CONNECT None 2 8; C_CONNECT None 2 9] ++ ex_submit 1 true 0 ++ [C_THREAD []; C_THREAD []; C_THREAD [7]] ++
  ex_submit 2 true 0 ++ ex_thread 30 ++ ex_submit 3 true 0 ++ ex_submit 4 true 0 ++ ex_thread 30.

Example failing_callback_shifts :
  (λ st, (λ i, (in_callback i, vd_timestamp <$> in_got i)) <$> vo_inputs (sy_video st)) <$> ex_clock ex_failing =
  Some [(8, [16667666; 50000998]); (9, [1000; 33334332])].
Proof. vm_compute. reflexivity. Qed.
