(* ===== verification/GpuEncode.v ===== *)
(** * Encoding of textures: libobs/obs-video-gpu-encode.c and obs-video.c

    The graphics thread renders each picture into a texture and queues it for the encoders
    that take textures; the GPU encode thread gives it to each of them. The functions are
    those of systems other than Windows (no shared handles and keyed mutexes to acquire).
    The encoders are those of EncoderRun.v and EncoderGroup.v; what is in a texture is a
    value of a store, so that a texture drawn into while it is queued would show. *)

From stdpp Require Import gmap.
From S2P Require Import Prelude Util Encoder Deque Interleave Pause EncoderRun EncoderGroup.

Local Open Scope Z_scope.

Definition NUM_ENCODE_TEXTURES : nat := 32.
Definition NUM_ENCODE_TEXTURE_FRAMES_TO_WAIT : Z := 1.

(** [struct obs_vframe_info] and [struct obs_tex_frame]; textures by name. *)
Record obs_vframe_info := mk_vframe { vf_timestamp : Z; vf_count : Z }.
Record obs_tex_frame := mk_tf {
  tf_tex : Z; tf_tex_uv : Z; tf_handle : Z; tf_timestamp : Z; tf_lock_key : Z; tf_count : Z; tf_released : bool
}.

Definition set_tf_count (t : obs_tex_frame) (n : Z) : obs_tex_frame :=
  mk_tf (tf_tex t) (tf_tex_uv t) (tf_handle t) (tf_timestamp t) (tf_lock_key t) n (tf_released t).

(** The part of a mix the two threads share. [gq_textures] is what the textures hold;
    [gq_convert] are the two of [convert_textures_encode]. *)
Record gpu_queue (picture : Type) := mk_gq {
  gq_avail : list obs_tex_frame;
  gq_queue : list obs_tex_frame;
  gq_semaphore : Z;
  gq_convert : Z * Z;
  gq_textures : gmap Z picture;
  gq_stop : bool;
  gq_total_frames : Z;
  gq_skipped_frames : Z
}.
Arguments mk_gq {picture}. Arguments gq_avail {picture}. Arguments gq_queue {picture}. Arguments gq_semaphore {picture}.
Arguments gq_convert {picture}. Arguments gq_textures {picture}. Arguments gq_stop {picture}.
Arguments gq_total_frames {picture}. Arguments gq_skipped_frames {picture}.

Section queue.
Context {picture : Type}.
Implicit Types g : gpu_queue picture.

(** [init_gpu_encoding]: [names] are those of the textures it creates. *)
Definition init_gpu_encoding (names : list (Z * Z)) (convert : Z * Z) (textures : gmap Z picture) : gpu_queue picture :=
  mk_gq ((λ n, mk_tf n.1 n.2 (u32 (-1)) 0 0 0 false) <$> names) [] 0 convert textures false 0 0.

(** Drawing into the textures for the encoders ([render_convert_texture]). *)
Definition render_convert_texture g (y uv : picture) : gpu_queue picture :=
  mk_gq (gq_avail g) (gq_queue g) (gq_semaphore g) (gq_convert g)
    (<[(gq_convert g).1 := y]> (<[(gq_convert g).2 := uv]> (gq_textures g))) (gq_stop g) (gq_total_frames g) (gq_skipped_frames g).

Definition gs_copy_texture (dst src : Z) (textures : gmap Z picture) : gmap Z picture :=
  match textures !! src with Some p => <[dst := p]> textures | None => textures end.

(** The result tells whether the frame is to be queued again. *)
Definition queue_frame g (raw_active : bool) (v : obs_vframe_info) : gpu_queue picture * obs_vframe_info * bool :=
  let finish g := let n := i32 (vf_count v - 1) in (g, mk_vframe (vf_timestamp v) n, negb (n =? 0)) in
  let duplicate := bool_decide (gq_avail g = []) || (negb (bool_decide (gq_queue g = [])) && (1 <? vf_count v)) in
  if duplicate then
    match last (gq_queue g) with
    | None => (g, v, false)
    | Some t =>
        finish (mk_gq (gq_avail g) (take (length (gq_queue g) - 1) (gq_queue g) ++ [set_tf_count t (i32 (tf_count t + 1))])
          (gq_semaphore g + 1) (gq_convert g) (gq_textures g) (gq_stop g) (gq_total_frames g) (gq_skipped_frames g))
    end
  else
    match gq_avail g with
    | [] => (g, v, false)
    | t :: avail =>
        let copies := raw_active || (1 <? vf_count v) in
        let textures := if copies then gs_copy_texture (tf_tex_uv t) (gq_convert g).2 (gs_copy_texture (tf_tex t) (gq_convert g).1 (gq_textures g))
                        else gq_textures g in
        let used := if copies then (tf_tex t, tf_tex_uv t) else gq_convert g in
        let convert := if copies then gq_convert g else (tf_tex t, tf_tex_uv t) in
        finish (mk_gq avail (gq_queue g ++ [mk_tf used.1 used.2 (tf_handle t) (vf_timestamp v) (tf_lock_key t) 1 true])
          (gq_semaphore g + 1) convert textures (gq_stop g) (gq_total_frames g) (gq_skipped_frames g))
    end.

(** As often as the count says; it is at least one. *)
Fixpoint encode_gpu (fuel : nat) g (raw_active : bool) (v : obs_vframe_info) : gpu_queue picture :=
  match fuel with
  | O => g
  | S fuel => let '(g, v, again) := queue_frame g raw_active v in if (again : bool) then encode_gpu fuel g raw_active v else g
  end.

(** [infos] is [vframe_info_buffer_gpu]. *)
Definition output_gpu_encoders g (raw_active texture_converted : bool) (infos : list obs_vframe_info) : gpu_queue picture * list obs_vframe_info :=
  if negb texture_converted then (g, infos) else
  match infos with
  | [] => (g, [])
  | v :: infos => (encode_gpu (Z.to_nat (vf_count v)) g raw_active v, infos)
  end.

Definition stop_gpu_encoding_thread g : gpu_queue picture :=
  mk_gq (gq_avail g) (gq_queue g) (gq_semaphore g + 1) (gq_convert g) (gq_textures g) true (gq_total_frames g) (gq_skipped_frames g).

(** ** The thread and the queue *)

(** Waiting ([wait_frames] to go), with a frame taken out, or ended. *)
Inductive gpu_thread_at := GT_WAIT (wait_frames : Z) | GT_FRAME (t : obs_tex_frame) | GT_ENDED.

(** Waiting and taking a frame out; [None] when it is blocked or the queue is empty, where
    [deque_pop_front] asserts. *)
Definition gpu_take g (wait_frames : Z) : option (gpu_queue picture * gpu_thread_at) :=
  if gq_semaphore g =? 0 then None else
  let sem := gq_semaphore g - 1 in
  if gq_stop g then
    Some (mk_gq (gq_avail g) (gq_queue g) sem (gq_convert g) (gq_textures g) (gq_stop g) (gq_total_frames g) (gq_skipped_frames g), GT_ENDED)
  else if negb (wait_frames =? 0) then
    Some (mk_gq (gq_avail g) (gq_queue g) sem (gq_convert g) (gq_textures g) (gq_stop g) (gq_total_frames g) (gq_skipped_frames g), GT_WAIT (wait_frames - 1))
  else
    match gq_queue g with
    | [] => None
    | t :: queue =>
        Some (mk_gq (gq_avail g) queue sem (gq_convert g) (gq_textures g) (gq_stop g) (i64 (gq_total_frames g + 1)) (gq_skipped_frames g), GT_FRAME t)
    end.

(** Giving the frame back, or putting it back for another period. *)
Definition gpu_give g (interval : Z) (t : obs_tex_frame) (next_key : Z) : gpu_queue picture :=
  let n := i32 (tf_count t - 1) in
  let t := mk_tf (tf_tex t) (tf_tex_uv t) (tf_handle t) (if n =? 0 then tf_timestamp t else u64 (tf_timestamp t + interval)) next_key n (tf_released t) in
  if n =? 0
  then mk_gq (gq_avail g ++ [t]) (gq_queue g) (gq_semaphore g) (gq_convert g) (gq_textures g) (gq_stop g) (gq_total_frames g) (gq_skipped_frames g)
  else mk_gq (gq_avail g) (t :: gq_queue g) (gq_semaphore g) (gq_convert g) (gq_textures g) (gq_stop g) (gq_total_frames g) (i64 (gq_skipped_frames g + 1)).
End queue.

(** ** The thread and the encoders *)

Section encode.
Context {impl picture : Type}.
(** [encode_texture] or [encode_texture2]: the pictures of the two textures, the handle, the
    time stamp and the two keys; the next key is changed. *)
Context (encode_texture : impl → picture → picture → Z → Z → Z → Z → encoder_packet → impl * encoder_packet * bool * bool * Z).
Context (update : impl → impl) (get_sei_data : impl → option bytes).
(** The planes of a picture, as recorded in [le_encoded]. *)
Context (planes : picture → picture → list (list cell)).
Implicit Types e : live_encoder impl.

(** Whether the frame is for the encoder, with the divisor counter advanced when it gets so far. *)
Definition gpu_wants e (g : option obs_encoder_group) (paired : list (option encoder_clock)) (timestamp : Z) : live_encoder impl * bool :=
  let not_ready := match g with
    | Some gr => (start_ts (le_clock e) =? 0) && negb (start_timestamp gr =? timestamp) | None => false end in
  if not_ready then (e, false) else
  if negb (first_received (le_clock e)) && existsb (waits_for timestamp) paired then (e, false) else
  let '(p, ignore_frame) := video_pause_check (pe_pause (le_paused e)) timestamp in
  let e := set_le_paused e (mk_paused (pe_paused (le_paused e)) p) in
  if ignore_frame then (e, false) else
  let skip := frame_rate_divisor_counter (le_clock e) in
  let n := u32 (skip + 1) in
  let e := set_divisor_counter e (if n =? ec_frame_rate_divisor (le_conf e) then 0 else n) in
  (e, skip =? 0).

(** The frame encoded; the result has the next key. [None]: no [context.data]. *)
Definition gpu_encode e (g : option obs_encoder_group) (t : obs_tex_frame) (y uv : picture) (lock_key next_key fer ferc : Z) :
    option (live_encoder impl * option obs_encoder_group * Z) :=
  '(e, g) ← handle_group e g;
  d ← le_data e;
  let requested := reconfigure_requested (le_member e) in
  let e := if requested then set_reconfigure_requested e false else e in
  let d := if requested then update d else d in
  let e := if start_ts (le_clock e) =? 0 then set_start_ts e (tf_timestamp t) else e in
  let pts := cur_pts (le_clock e) in
  let '(d, pkt, received, success, next_key) := encode_texture d y uv (tf_handle t) pts lock_key next_key (blank_packet (le_conf e)) in
  let e := set_encoded (set_data e (Some d)) (le_encoded e ++ [mk_frame (planes y uv) [] 1 pts]) in
  let e := if tf_timestamp t =? 0 then e
           else set_packet_times e (le_packet_times e ++ [mk_ept pts (tf_timestamp t) fer (if success then ferc else 0) 0]) in
  let '(e, g) := send_off_encoder_packet get_sei_data e g d success received pkt in
  Some (set_cur_pts e (i64 (cur_pts (le_clock e) + pts_step (le_conf e))), g, next_key).

(** One turn of the loop over the encoders: [n] of them are there, [lock_count] have encoded;
    the result has the new keys and count. *)
Definition gpu_turn (s : encoders impl) (id : Z) (n lock_count : Z) (t : obs_tex_frame) (y uv : picture) (lock_key next_key fer ferc : Z) :
    option (encoders impl * Z * Z * Z) :=
  e ← all_encoders s !! id;
  g ← group_of s e;
  let '(e1, wants) := gpu_wants e g ((λ p, le_clock <$> all_encoders s !! p) <$> ec_paired (le_conf e)) (tf_timestamp t) in
  if negb (wants : bool) then Some (put_encoder s id e1, lock_count, lock_key, next_key) else
  let lock_count := lock_count + 1 in
  let next_key := if lock_count =? n then 0 else u64 (next_key + 1) in
  '(e2, g2, next_key) ← gpu_encode e1 g t y uv lock_key next_key fer ferc;
  Some (put_encoder (put_group_of s e g2) id e2, lock_count, next_key, next_key).

Fixpoint gpu_loop (s : encoders impl) (ids : list Z) (n lock_count : Z) (t : obs_tex_frame) (y uv : picture) (lock_key next_key fer ferc : Z) :
    option (encoders impl * Z) :=
  match ids with
  | [] => Some (s, next_key)
  | id :: ids =>
      '(s, lock_count, lock_key, next_key) ← gpu_turn s id n lock_count t y uv lock_key next_key fer ferc;
      gpu_loop s ids n lock_count t y uv lock_key next_key fer ferc
  end.

(** The encoders that still exist are given the frame. *)
Definition gpu_encode_frame (s : encoders impl) (gpu_encoders : list Z) (t : obs_tex_frame) (textures : gmap Z picture) (fer ferc : Z) :
    option (encoders impl * Z) :=
  y ← textures !! tf_tex t;
  uv ← textures !! tf_tex_uv t;
  let ids := filter (λ id, is_Some (all_encoders s !! id)) gpu_encoders in
  gpu_loop s ids (zlen ids) 0 t y uv (tf_lock_key t) (tf_lock_key t) fer ferc.
End encode.
