(* ===== verification/GpuClock.v ===== *)
(** * The textures of the GPU encoders

    The graphics thread draws pictures into a few textures and queues them while the encode
    thread works through the queue. The theorem is that every period of the graphics clock
    is encoded once and in order, with the picture that was drawn for it or with the one
    before, and that no texture is drawn into while it is queued or being encoded. *)

From stdpp Require Import gmap.
From S2P Require Import Prelude Util Encoder Deque Interleave Pause EncoderRun EncoderGroup GpuEncode.

Local Open Scope Z_scope.

Section gpu.
Context {picture : Type}.
Implicit Types g : gpu_queue picture.

(** ** The threads together *)

(** [gs_due] has the pictures that are to be encoded, one for every period; [gs_shown] those
    that were. *)
Record gpu_system := mk_gpu { us_queue : gpu_queue picture; us_thread : gpu_thread_at; us_shown : list (picture * picture); us_due : list (picture * picture) }.

Inductive gpu_event :=
  | U_FRAME (y uv : picture) (raw_active : bool) (timestamp count : Z)
  | U_THREAD (interval next_key : Z)
  | U_STOP.

Definition gpu_enabled (st : gpu_system) (ev : gpu_event) : bool :=
  match ev with
  | U_THREAD _ _ => match us_thread st with GT_WAIT _ => negb (gq_semaphore (us_queue st) =? 0) | GT_FRAME _ => true | GT_ENDED => false end
  | _ => true
  end.

(** What the encoders are to be given for the periods of a picture: the one before when no
    texture is free; the picture itself when nothing is queued; otherwise it comes last. *)
Definition due (g : gpu_queue picture) (prev p : picture * picture) (count : nat) : list (picture * picture) :=
  if decide (gq_avail g = []) then replicate count prev
  else if decide (gq_queue g = []) then replicate count p
  else replicate (count - 1) prev ++ [p].

Definition contents (textures : gmap Z picture) (t : obs_tex_frame) : option (picture * picture) :=
  y ← textures !! tf_tex t; uv ← textures !! tf_tex_uv t; Some (y, uv).

Definition gpu_step (st : gpu_system) (ev : gpu_event) : option gpu_system :=
  let g := us_queue st in
  match ev with
  | U_FRAME y uv raw_active timestamp count =>
      let g' := (output_gpu_encoders (render_convert_texture g y uv) raw_active true [mk_vframe timestamp count]).1 in
      Some (mk_gpu g' (us_thread st) (us_shown st) (us_due st ++ due g (default (y, uv) (last (us_due st))) (y, uv) (Z.to_nat count)))
  | U_THREAD interval next_key =>
      match us_thread st with
      | GT_WAIT n => '(g, t) ← gpu_take g n; Some (mk_gpu g t (us_shown st) (us_due st))
      | GT_FRAME t =>
          p ← contents (gq_textures g) t;
          Some (mk_gpu (gpu_give g interval t next_key) (GT_WAIT 0) (us_shown st ++ [p]) (us_due st))
      | GT_ENDED => None
      end
  | U_STOP => Some (mk_gpu (stop_gpu_encoding_thread g) (us_thread st) (us_shown st) (us_due st))
  end.

Fixpoint gpu_run (st : gpu_system) (evs : list gpu_event) : option gpu_system :=
  match evs with
  | [] => Some st
  | ev :: evs => if gpu_enabled st ev then st ← gpu_step st ev; gpu_run st evs else gpu_run st evs
  end.

(** ** The textures *)

Definition hand (t : gpu_thread_at) : list obs_tex_frame := match t with GT_FRAME t => [t] | _ => [] end.
Definition pair_of (t : obs_tex_frame) : Z * Z := (tf_tex t, tf_tex_uv t).
Definition both (l : list (Z * Z)) : list Z := l ≫= λ n, [n.1; n.2].

(** All textures: those for drawing, those free, in the hand of the thread and queued. *)
Definition all_textures (c : Z * Z) (avail held queue : list obs_tex_frame) : list (Z * Z) :=
  c :: (pair_of <$> (avail ++ held ++ queue)).

Definition holds_picture (m : gmap Z picture) (n : Z * Z) (p : picture * picture) : Prop := m !! n.1 = Some p.1 ∧ m !! n.2 = Some p.2.

Lemma both_perm l l' : l ≡ₚ l' → both l ≡ₚ both l'.
Proof. apply bind_Permutation. Qed.

(** Drawing into the textures [c] leaves the others. *)
Lemma draw_others m c y uv l n p : NoDup (both (c :: l)) → n ∈ l → holds_picture m n p →
  holds_picture (<[c.1 := y]> (<[c.2 := uv]> m)) n p.
Proof.
  intros Hn Hl [H1 H2]. change (both (c :: l)) with (c.1 :: c.2 :: both l) in Hn. apply NoDup_cons in Hn as [N1 Hn].
  apply NoDup_cons in Hn as [N2 _]. apply not_elem_of_cons in N1 as [_ N1]. assert (n.1 ∈ both l ∧ n.2 ∈ both l) as [I1 I2].
  { split; apply list_elem_of_bind; exists n; (split; [|done]); set_solver. }
  assert (n.1 ≠ c.1 ∧ n.1 ≠ c.2 ∧ n.2 ≠ c.1 ∧ n.2 ≠ c.2) as (? & ? & ? & ?) by (split_and!; intros E; [apply N1|apply N2|apply N1|apply N2]; by rewrite <- E).
  split; rewrite !lookup_insert_ne; done.
Qed.

Lemma draw_own m c y uv l : NoDup (both (c :: l)) → holds_picture (<[c.1 := y]> (<[c.2 := uv]> m)) c (y, uv).
Proof.
  intros Hn. change (both (c :: l)) with (c.1 :: c.2 :: both l) in Hn. apply NoDup_cons in Hn as [N1 _].
  split; cbn; [by rewrite lookup_insert_eq|]. rewrite lookup_insert_ne; [by rewrite lookup_insert_eq|]. apply not_elem_of_cons in N1 as [N1 _]. done.
Qed.

(** Copying one pair of textures into another is drawing into it. *)
Lemma copy_is_draw m c d p l : NoDup (both (d :: c :: l)) → holds_picture m c p →
  gs_copy_texture d.2 c.2 (gs_copy_texture d.1 c.1 m) = <[d.1 := p.1]> (<[d.2 := p.2]> m).
Proof.
  intros Hn [H1 H2]. change (both (d :: c :: l)) with (d.1 :: d.2 :: c.1 :: c.2 :: both l) in Hn.
  apply NoDup_cons in Hn as [N1 Hn]. unfold gs_copy_texture at 2. rewrite H1. unfold gs_copy_texture.
  rewrite !not_elem_of_cons in N1. destruct N1 as (N1 & N2 & N3 & _). rewrite lookup_insert_ne, H2 by done. by apply insert_insert_ne.
Qed.

(** ** The queue *)

Definition expand (ts : list obs_tex_frame) (ps : list (picture * picture)) : list (picture * picture) :=
  concat (zip_with (λ t p, replicate (Z.to_nat (tf_count t)) p) ts ps).

Lemma expand_snoc ts ps t p : length ts = length ps →
  expand (ts ++ [t]) (ps ++ [p]) = expand ts ps ++ replicate (Z.to_nat (tf_count t)) p.
Proof. intros E. unfold expand. rewrite zip_with_app by done. rewrite concat_app. cbn. by rewrite app_nil_r. Qed.

Definition queued (m : gmap Z picture) (t : obs_tex_frame) (p : picture * picture) : Prop := holds_picture m (pair_of t) p ∧ 1 ≤ tf_count t.

Lemma queued_mono m m' ts ps : Forall2 (queued m) ts ps →
  (∀ t p, t ∈ ts → holds_picture m (pair_of t) p → holds_picture m' (pair_of t) p) → Forall2 (queued m') ts ps.
Proof.
  induction 1 as [|t p ts ps [Hp Hc] _ IH]; intros H; constructor.
  - split; [|done]. apply H; [set_solver|done].
  - apply IH. intros; apply H; [set_solver|done].
Qed.

(** [held] is the frame in the hand of the thread. *)
Record queue_ok g (held : list obs_tex_frame) (shown dues : list (picture * picture)) : Prop := {
  qo_distinct : NoDup (both (all_textures (gq_convert g) (gq_avail g) held (gq_queue g)));
  qo_pool : (2 ≤ length (gq_avail g ++ held ++ gq_queue g))%nat;
  qo_held : (length held ≤ 1)%nat;
  qo_pending : ∃ ps, Forall2 (queued (gq_textures g)) (held ++ gq_queue g) ps ∧ shown ++ expand (held ++ gq_queue g) ps = dues
}.

(** Queueing the last picture again. *)
Lemma duplicate_ok g held shown dues q t p : queue_ok g held shown dues → gq_queue g = q ++ [t] → zlen dues < 2 ^ 30 → last dues = Some p →
  queue_ok (mk_gq (gq_avail g) (q ++ [set_tf_count t (i32 (tf_count t + 1))]) (gq_semaphore g + 1) (gq_convert g) (gq_textures g) (gq_stop g)
    (gq_total_frames g) (gq_skipped_frames g)) held shown (dues ++ [p]) ∧ i32 (tf_count t + 1) = tf_count t + 1.
Proof.
  intros [Q1 Q2 Q3 (ps & Hps & Hd)] Eq Hl Hp. rewrite Eq in *. rewrite app_assoc in Hps, Hd.
  apply Forall2_app_inv_l in Hps as (ps1 & ps2 & Hps1 & Hps2 & ->). inversion Hps2 as [|? p' ? ? [Ht Hc] Hps3]; subst. inversion Hps3; subst.
  pose proof (Forall2_length _ _ _ Hps1) as El. rewrite expand_snoc in * by done.
  assert (tf_count t < 2 ^ 30) as Hcb.
  { unfold zlen in Hl. rewrite !length_app, length_replicate in Hl. lia. }
  assert (p' = p) as ->.
  { rewrite app_assoc in Hp. replace (Z.to_nat (tf_count t)) with (Z.to_nat (tf_count t) - 1 + 1)%nat in Hp by lia.
    rewrite replicate_add in Hp. change (replicate 1 p') with [p'] in Hp. rewrite app_assoc, last_snoc in Hp. by injection Hp. }
  rewrite i32_small by lia. split; [|done]. constructor; cbn; try done.
  - unfold all_textures in *. rewrite !fmap_app in *. done.
  - rewrite !length_app in *. done.
  - exists (ps1 ++ [p]). rewrite app_assoc. split; [apply Forall2_app; [done|constructor; [split; [done|cbn; lia]|done]]|].
    rewrite expand_snoc by done. cbn. rewrite <- !app_assoc. do 2 f_equal.
    rewrite Z2Nat.inj_add, replicate_add by lia. done.
Qed.

Lemma textures_perm c t avail held queue c' t' : 
  Permutation [c; pair_of t] [c'; pair_of t'] →
  all_textures c (t :: avail) held queue ≡ₚ all_textures c' avail held (queue ++ [t']).
Proof.
  intros H. unfold all_textures. rewrite !fmap_app, fmap_cons. cbn [fmap list_fmap].
  transitivity ([c; pair_of t] ++ ((pair_of <$> avail) ++ (pair_of <$> held) ++ (pair_of <$> queue))); [done|].
  rewrite H. cbn. constructor. rewrite !app_assoc. apply Permutation_cons_append.
Qed.

(** Queueing the picture that is in the textures [convert]. *)
Lemma new_ok g held shown dues t avail p (copies : bool) ts : queue_ok g held shown dues → gq_avail g = t :: avail →
  holds_picture (gq_textures g) (gq_convert g) p →
  let textures := if copies then gs_copy_texture (tf_tex_uv t) (gq_convert g).2 (gs_copy_texture (tf_tex t) (gq_convert g).1 (gq_textures g))
                  else gq_textures g in
  let used := if copies then (tf_tex t, tf_tex_uv t) else gq_convert g in
  let convert := if copies then gq_convert g else (tf_tex t, tf_tex_uv t) in
  let g' := mk_gq avail (gq_queue g ++ [mk_tf used.1 used.2 (tf_handle t) ts (tf_lock_key t) 1 true])
          (gq_semaphore g + 1) convert textures (gq_stop g) (gq_total_frames g) (gq_skipped_frames g) in
  queue_ok g' held shown (dues ++ [p]) ∧ (copies = true → holds_picture textures convert p).
Proof.
  intros [Q1 Q2 Q3 (ps & Hps & Hd)] Ea Hp. rewrite Ea in *. cbn zeta.
  assert (all_textures (gq_convert g) (t :: avail) held (gq_queue g) ≡ₚ
    pair_of t :: gq_convert g :: (pair_of <$> (avail ++ held ++ gq_queue g))) as Eperm by (apply perm_swap).
  assert (NoDup (both (pair_of t :: gq_convert g :: (pair_of <$> (avail ++ held ++ gq_queue g))))) as Hn by (by rewrite <- (both_perm _ _ Eperm)).
  change (tf_tex_uv t) with (pair_of t).2. change (tf_tex t) with (pair_of t).1.
  set (t' := mk_tf _ _ _ _ _ _ _).
  assert (∀ m, Forall2 (queued m) (held ++ gq_queue g) ps → holds_picture m (pair_of t') p →
    ∃ ps, Forall2 (queued m) (held ++ gq_queue g ++ [t']) ps ∧ shown ++ expand (held ++ gq_queue g ++ [t']) ps = dues ++ [p]) as Hpend.
  { intros m Hm Ht'. exists (ps ++ [p]). rewrite app_assoc. split; [apply Forall2_app; [done|constructor; [by split|done]]|].
    rewrite expand_snoc by (by eapply Forall2_length). rewrite app_assoc, Hd. done. }
  destruct copies.
  - rewrite (copy_is_draw _ _ _ p _ Hn Hp). set (m' := <[_ := _]> _).
    assert (holds_picture m' (pair_of t) p) as Hown by (destruct p; by eapply draw_own).
    assert (∀ n q, n ∈ gq_convert g :: (pair_of <$> (avail ++ held ++ gq_queue g)) → holds_picture (gq_textures g) n q → holds_picture m' n q) as Hoth
      by (intros n q; by eapply draw_others).
    split; [|intros _; apply Hoth; [set_solver|done]]. constructor; cbn; try done.
    + by rewrite (both_perm _ _ (textures_perm (gq_convert g) t avail held (gq_queue g) (gq_convert g) t' ltac:(done))) in Q1.
    + rewrite !length_app in *. cbn in *. lia.
    + apply Hpend; [|done]. eapply queued_mono; [exact Hps|]. intros t0 q Ht0. apply Hoth.
      apply elem_of_cons. right. apply list_elem_of_fmap. exists t0. split; [done|]. apply elem_of_app. by right.
  - assert (pair_of t' = gq_convert g) as Ept by (unfold pair_of, t'; cbn; by destruct (gq_convert g)).
    split; [|done]. constructor; cbn; try done.
    + assert ([gq_convert g; pair_of t] ≡ₚ [pair_of t; pair_of t']) as Hpm by (rewrite Ept; apply perm_swap).
      by rewrite (both_perm _ _ (textures_perm (gq_convert g) t avail held (gq_queue g) (pair_of t) t' Hpm)) in Q1.
    + rewrite !length_app in *. cbn in *. lia.
    + apply Hpend; [done|]. by rewrite Ept.
Qed.
Definition counts (l : list obs_tex_frame) : Z := foldr (λ t s, tf_count t + s) 0 l.

Lemma counts_app l l' : counts (l ++ l') = counts l + counts l'.
Proof. unfold counts. induction l as [|t l IH]; cbn in *; [lia|]. rewrite IH. lia. Qed.

Lemma dues_last g held shown dues : queue_ok g held shown dues → gq_queue g ≠ [] → ∃ p, last dues = Some p.
Proof.
  intros [_ _ _ (ps & Hps & <-)] Hq. destruct (exists_last Hq) as (q & t & Eq). rewrite Eq, app_assoc in *.
  apply Forall2_app_inv_l in Hps as (ps1 & ps2 & Hps1 & Hps2 & ->). destruct ps2 as [|p ps2]; [by inversion Hps2|].
  apply Forall2_cons in Hps2 as [[_ Hc] Hps3]. apply Forall2_nil_inv_l in Hps3 as ->.
  rewrite expand_snoc by (by eapply Forall2_length). exists p. replace (Z.to_nat (tf_count t)) with (Z.to_nat (tf_count t) - 1 + 1)%nat by lia.
  rewrite replicate_add. change (replicate 1 p) with [p]. by rewrite !app_assoc, last_snoc.
Qed.

(** What [encode_gpu] keeps and changes. *)
Definition encoded_gpu g g' held shown dues (n : Z) : Prop :=
  queue_ok g' held shown dues ∧ gq_semaphore g' = gq_semaphore g + n ∧ gq_stop g' = gq_stop g ∧
  counts (gq_queue g') = counts (gq_queue g) + n.

Lemma encoded_trans g1 g2 g3 held shown dues dues' n n' : encoded_gpu g1 g2 held shown dues n → encoded_gpu g2 g3 held shown dues' n' →
  encoded_gpu g1 g3 held shown dues' (n + n').
Proof. intros (_ & ? & ? & ?) (? & ? & ? & ?). split_and!; (done || lia || congruence). Qed.

(** One turn of its loop: the last frame again, or a new one. *)
Lemma queue_again g held shown dues p raw ts n : queue_ok g held shown dues → zlen dues < 2 ^ 30 → 1 ≤ n < 2 ^ 30 →
  gq_avail g = [] ∨ gq_queue g ≠ [] ∧ 1 < n → last dues = Some p →
  ∃ g', queue_frame g raw (mk_vframe ts n) = (g', mk_vframe ts (n - 1), negb (n - 1 =? 0)) ∧
    encoded_gpu g g' held shown (dues ++ [p]) 1 ∧ gq_queue g' ≠ [] ∧ gq_avail g' = gq_avail g ∧
    gq_textures g' = gq_textures g ∧ gq_convert g' = gq_convert g.
Proof.
  intros Hq Hl Hn Hd Hp. unfold queue_frame. cbn [vf_count vf_timestamp].
  assert (gq_queue g ≠ []) as Hne.
  { destruct Hd as [Ha|[? _]]; [|done]. intros E. pose proof (qo_pool _ _ _ _ Hq) as H1. pose proof (qo_held _ _ _ _ Hq).
    rewrite Ha, E, !length_app in H1. cbn in H1. lia. }
  assert (bool_decide (gq_avail g = []) || (negb (bool_decide (gq_queue g = [])) && (1 <? n)) = true) as ->.
  { destruct Hd as [Ha|[_ H1]]; [by rewrite bool_decide_eq_true_2|]. rewrite (bool_decide_eq_false_2 _ Hne), (proj2 (Z.ltb_lt _ _) H1). by rewrite orb_true_r. }
  destruct (exists_last Hne) as (q & t & Eq). rewrite Eq, last_snoc, length_app. cbn [length].
  replace (length q + 1 - 1)%nat with (length q) by lia. rewrite take_app_length, (i32_small (n - 1)) by lia.
  destruct (duplicate_ok g held shown dues q t p Hq Eq Hl Hp) as [Hq' Ec]. eexists. split; [reflexivity|]. split; [|split; [by destruct q|done]].
  split_and!; [exact Hq'|done|done|]. cbn [gq_queue]. rewrite Eq, !counts_app. cbn. rewrite Ec. lia.
Qed.

Lemma queue_new g held shown dues p raw ts n : queue_ok g held shown dues → 1 ≤ n < 2 ^ 30 →
  gq_avail g ≠ [] → gq_queue g = [] ∨ n = 1 → holds_picture (gq_textures g) (gq_convert g) p →
  ∃ g', queue_frame g raw (mk_vframe ts n) = (g', mk_vframe ts (n - 1), negb (n - 1 =? 0)) ∧
    encoded_gpu g g' held shown (dues ++ [p]) 1 ∧ gq_queue g' ≠ [] ∧
    (1 < n → holds_picture (gq_textures g') (gq_convert g') p).
Proof.
  intros Hq Hn Ha Hd Hp. unfold queue_frame. cbn [vf_count vf_timestamp].
  assert (bool_decide (gq_avail g = []) || (negb (bool_decide (gq_queue g = [])) && (1 <? n)) = false) as ->.
  { rewrite (bool_decide_eq_false_2 _ Ha). destruct Hd as [-> | ->]; [done|]. by rewrite andb_false_r. }
  destruct (gq_avail g) as [|t avail] eqn:Ea; [done|]. rewrite (i32_small (n - 1)) by lia.
  destruct (new_ok g held shown dues t avail p (raw || (1 <? n)) ts Hq Ea Hp) as [Hq' Hp'].
  eexists. split; [reflexivity|]. split; [|split].
  - split_and!; [exact Hq'|done|done|]. cbn. rewrite counts_app. cbn. lia.
  - cbn. by destruct (gq_queue g).
  - intros H1. apply Hp'. by rewrite (proj2 (Z.ltb_lt _ _) H1), orb_true_r.
Qed.

Lemma encode_gpu_ok c : ∀ g held shown dues p raw ts, queue_ok g held shown dues → zlen dues + Z.of_nat c < 2 ^ 30 → (1 ≤ c)%nat →
  holds_picture (gq_textures g) (gq_convert g) p →
  encoded_gpu g (encode_gpu c g raw (mk_vframe ts (Z.of_nat c))) held shown (dues ++ due g (default p (last dues)) p c) (Z.of_nat c).
Proof.
  induction c as [|c IH]; intros g held shown dues p raw ts Hq Hl Hc Hp; [lia|]. cbn [encode_gpu].
  assert (gq_avail g = [] ∨ gq_queue g ≠ [] ∧ 1 < Z.of_nat (S c) ∨ gq_avail g ≠ [] ∧ (gq_queue g = [] ∨ Z.of_nat (S c) = 1)) as Hcase.
  { destruct (decide (gq_avail g = [])); [by left|]. destruct (decide (gq_queue g = [])); [right; right; by auto|].
    destruct (decide (c = 0%nat)) as [->|]; [right; right; by auto|right; left; split; [done|lia]]. }
  assert (∀ q, Z.of_nat (S c) - 1 = Z.of_nat c ∧ zlen (dues ++ [q]) + Z.of_nat c < 2 ^ 30) as Hz by (intros q; rewrite zlen_app; change (zlen [q]) with 1; lia).
  pose proof (zlen_nonneg dues). apply or_assoc in Hcase as [Hd|[Ha Hd]].
  - assert (gq_queue g ≠ []) as Hne.
    { destruct Hd as [Ha|[? _]]; [|done]. intros E. pose proof (qo_pool _ _ _ _ Hq) as H1. pose proof (qo_held _ _ _ _ Hq).
      rewrite Ha, E, !length_app in H1. cbn in H1. lia. }
    destruct (dues_last g held shown dues Hq Hne) as [q Hl']. rewrite Hl'. cbn [default].
    destruct (queue_again g held shown dues q raw ts (Z.of_nat (S c)) Hq ltac:(lia) ltac:(lia) Hd Hl') as (g1 & -> & He & Hne1 & Ea1 & Et1 & Ec1).
    destruct (Hz q) as [-> Hz']. destruct (Z.eqb_spec (Z.of_nat c) 0) as [E0|E0]; cbn [negb].
    + replace c with 0%nat in * by lia. unfold due. destruct Hd as [Ha|[_ Hd]]; [|lia]. rewrite decide_True by done. exact He.
    + pose proof He as (Hq1 & _). pose proof (IH g1 held shown (dues ++ [q]) p raw ts Hq1 Hz' ltac:(lia) ltac:(by rewrite Et1, Ec1)) as He2.
      rewrite last_snoc in He2. unfold default, from_option, id in He2. pose proof (encoded_trans _ _ _ _ _ _ _ _ _ He He2) as He3.
      replace (Z.of_nat (S c)) with (1 + Z.of_nat c) by lia. rewrite <- app_assoc in He3. unfold due in *. rewrite Ea1 in He3.
      rewrite (decide_False (P := gq_queue g1 = [])) in He3 by done. rewrite (decide_False (P := gq_queue g = [])) by done.
      destruct (decide (gq_avail g = [])); [exact He3|]. cbn [Nat.sub]. rewrite Nat.sub_0_r. destruct c as [|c]; [lia|].
      cbn [Nat.sub replicate] in *. rewrite Nat.sub_0_r in He3. exact He3.
  - destruct (queue_new g held shown dues p raw ts (Z.of_nat (S c)) Hq ltac:(lia) Ha Hd Hp) as (g1 & -> & He & Hne1 & Hp1).
    destruct (Hz p) as [-> Hz']. destruct (Z.eqb_spec (Z.of_nat c) 0) as [E0|E0]; cbn [negb].
    + replace c with 0%nat in * by lia. unfold due. rewrite decide_False by done. cbn. by destruct (decide (gq_queue g = [])).
    + pose proof He as (Hq1 & _). pose proof (IH g1 held shown (dues ++ [p]) p raw ts Hq1 Hz' ltac:(lia) (Hp1 ltac:(lia))) as He2.
      rewrite last_snoc in He2. unfold default, from_option, id in He2. pose proof (encoded_trans _ _ _ _ _ _ _ _ _ He He2) as He3.
      replace (Z.of_nat (S c)) with (1 + Z.of_nat c) by lia. rewrite <- app_assoc in He3. unfold due in *.
      destruct Hd as [Hd|Hd]; [|lia]. rewrite (decide_False (P := gq_avail g = [])), (decide_True (P := gq_queue g = [])) by done.
      rewrite (decide_False (P := gq_queue g1 = [])) in He3 by done. destruct (decide (gq_avail g1 = [])); [exact He3|].
      replace (replicate (c - 1) p ++ [p]) with (replicate c p) in He3; [exact He3|].
      replace c with (c - 1 + 1)%nat at 1 by lia. by rewrite replicate_add.
Qed.
(** ** The steps *)

Record gpu_ok (st : gpu_system) : Prop := {
  go_queue : queue_ok (us_queue st) (hand (us_thread st)) (us_shown st) (us_due st);
  go_semaphore : 0 ≤ gq_semaphore (us_queue st);
  go_thread : gq_stop (us_queue st) = false →
    match us_thread st with
    | GT_WAIT w => 0 ≤ w ≤ 1 ∧ gq_semaphore (us_queue st) + (1 - w) = counts (gq_queue (us_queue st))
    | GT_FRAME t => gq_semaphore (us_queue st) + 2 = counts (gq_queue (us_queue st)) + tf_count t
    | GT_ENDED => False
    end
}.

(** Only these fields matter. *)
Lemma queue_ok_same g g' held shown dues : queue_ok g held shown dues → gq_avail g' = gq_avail g → gq_queue g' = gq_queue g →
  gq_convert g' = gq_convert g → gq_textures g' = gq_textures g → queue_ok g' held shown dues.
Proof. intros [Q1 Q2 Q3 Q4] E1 E2 E3 E4. constructor; rewrite ?E1, ?E2, ?E3, ?E4; done. Qed.

Lemma due_length g prev p n : (1 ≤ n)%nat → length (due g prev p n) = n.
Proof. intros Hn. unfold due. repeat case_decide; rewrite ?length_app, ?length_replicate; cbn; lia. Qed.

Lemma render_ok g held shown dues y uv : queue_ok g held shown dues →
  queue_ok (render_convert_texture g y uv) held shown dues ∧
  holds_picture (gq_textures (render_convert_texture g y uv)) (gq_convert g) (y, uv).
Proof.
  intros [Q1 Q2 Q3 (ps & Hps & Hd)]. split; [|by eapply draw_own]. constructor; cbn; try done. exists ps. split; [|done].
  eapply queued_mono; [exact Hps|]. intros t p Ht. eapply draw_others; [exact Q1|]. apply list_elem_of_fmap. exists t. split; [done|].
  apply elem_of_app. by right.
Qed.

Lemma frame_step_ok st y uv raw ts n : gpu_ok st → 1 ≤ n → zlen (us_due st) + n < 2 ^ 30 →
  ∃ st', gpu_step st (U_FRAME y uv raw ts n) = Some st' ∧ gpu_ok st' ∧ zlen (us_due st') = zlen (us_due st) + n.
Proof.
  intros [Hq Hs Ht] Hn Hl. destruct (render_ok _ _ _ _ y uv Hq) as [Hq1 Hp1].
  destruct (encode_gpu_ok (Z.to_nat n) _ _ _ _ _ raw ts Hq1 ltac:(lia) ltac:(lia) Hp1) as (Hq2 & Es & Est & Ec).
  rewrite Z2Nat.id in * by lia.
  eexists. split; [reflexivity|]. split.
  - constructor; cbn; [exact Hq2|rewrite Es; cbn; lia|]. rewrite Est, Es, Ec. cbn [render_convert_texture gq_stop gq_semaphore gq_queue].
    intros E. specialize (Ht E). destruct (us_thread st); [destruct Ht; split; lia|lia|done].
  - cbn [us_due]. rewrite zlen_app. assert (∀ g prev p, zlen (due g prev p (Z.to_nat n)) = n) as -> by (intros; unfold zlen; rewrite due_length; lia). done.
Qed.

Lemma take_ok st w : gpu_ok st → us_thread st = GT_WAIT w → gq_semaphore (us_queue st) ≠ 0 →
  ∃ g t, gpu_take (us_queue st) w = Some (g, t) ∧ gpu_ok (mk_gpu g t (us_shown st) (us_due st)).
Proof.
  intros [Hq Hs Ht] Et E0. rewrite Et in *. unfold gpu_take. rewrite (proj2 (Z.eqb_neq _ _) E0).
  destruct (gq_stop (us_queue st)) eqn:Est.
  { eexists _, _. split; [reflexivity|]. constructor; cbn; [by eapply queue_ok_same|lia|done]. }
  destruct (Ht eq_refl) as [Hw Hsem]. destruct (Z.eqb_spec w 0) as [->|Hw0]; cbn [negb].
  - destruct (gq_queue (us_queue st)) as [|t q] eqn:Eq; [cbn in Hsem; lia|].
    eexists _, _. split; [reflexivity|]. destruct Hq as [Q1 Q2 Q3 Q4]. rewrite Eq in *. constructor; cbn; [|lia|].
    + by constructor.
    + intros _. cbn in Hsem. unfold counts. lia.
  - eexists _, _. split; [reflexivity|]. constructor; cbn; [by eapply queue_ok_same|lia|]. intros _. unfold counts in *. split; lia.
Qed.

Lemma give_ok st t interval key : gpu_ok st → us_thread st = GT_FRAME t → zlen (us_due st) < 2 ^ 30 →
  ∃ p, contents (gq_textures (us_queue st)) t = Some p ∧
    gpu_ok (mk_gpu (gpu_give (us_queue st) interval t key) (GT_WAIT 0) (us_shown st ++ [p]) (us_due st)).
Proof.
  intros [[Q1 Q2 Q3 (ps & Hps & Hd)] Hs Ht] Et Hl. rewrite Et in *. cbn [hand app] in *.
  destruct ps as [|p ps]; [by inversion Hps|]. apply Forall2_cons in Hps as [[[Hp1 Hp2] Hc] Hps].
  exists p. split; [unfold contents; cbn in Hp1, Hp2; rewrite Hp1, Hp2; by destruct p|].
  assert (tf_count t < 2 ^ 30) as Hcb.
  { rewrite <- Hd in Hl. unfold expand, zlen in Hl. cbn in Hl. rewrite !length_app, length_replicate in Hl. lia. }
  assert (expand (t :: gq_queue (us_queue st)) (p :: ps) =
    p :: replicate (Z.to_nat (tf_count t - 1)) p ++ expand (gq_queue (us_queue st)) ps) as Ee.
  { unfold expand. cbn. replace (Z.to_nat (tf_count t)) with (S (Z.to_nat (tf_count t - 1))) by lia. done. }
  rewrite Ee in Hd. unfold gpu_give. rewrite i32_small by lia.
  destruct (Z.eqb_spec (tf_count t - 1) 0) as [E0|E0]; (constructor; cbn; [constructor; cbn|done|]).
  - unfold all_textures in *. rewrite !fmap_app in *. cbn in *. by rewrite <- app_assoc.
  - rewrite !length_app in *. cbn in *. lia.
  - lia.
  - exists ps. split; [done|]. rewrite <- Hd, <- app_assoc. rewrite E0. done.
  - intros E. specialize (Ht E). unfold counts in *. lia.
  - unfold all_textures in *. rewrite !fmap_app in *. exact Q1.
  - rewrite !length_app in *. exact Q2.
  - lia.
  - exists (p :: ps). split; [constructor; [split; [done|cbn; lia]|done]|]. rewrite <- Hd, <- app_assoc. done.
  - intros E. specialize (Ht E). unfold counts in *. lia.
Qed.

Lemma gpu_stop_ok st : gpu_ok st → gpu_ok (mk_gpu (stop_gpu_encoding_thread (us_queue st)) (us_thread st) (us_shown st) (us_due st)).
Proof. intros [Hq Hs Ht]. constructor; cbn; [by eapply queue_ok_same|lia|done]. Qed.

(** ** The theorem *)

Definition periods_of (ev : gpu_event) : Z := match ev with U_FRAME _ _ _ _ n => n | _ => 0 end.
Definition all_periods (evs : list gpu_event) : Z := foldr (λ ev s, periods_of ev + s) 0 evs.
Definition positive (ev : gpu_event) : Prop := match ev with U_FRAME _ _ _ _ n => 1 ≤ n | _ => True end.

Lemma all_periods_nonneg evs : Forall positive evs → 0 ≤ all_periods evs.
Proof.
  induction 1 as [|ev evs H _ IH]; [done|]. change (all_periods (ev :: evs)) with (periods_of ev + all_periods evs).
  destruct ev; cbn in *; lia.
Qed.

Lemma gpu_run_ok evs : ∀ st, gpu_ok st → Forall positive evs → zlen (us_due st) + all_periods evs < 2 ^ 30 →
  ∃ st', gpu_run st evs = Some st' ∧ gpu_ok st' ∧ zlen (us_due st') = zlen (us_due st) + all_periods evs.
Proof.
  induction evs as [|ev evs IH]; intros st Hok Hp Hl; [exists st; unfold all_periods; cbn; split_and!; [done|done|lia]|].
  apply Forall_cons in Hp as [Hp Hps]. pose proof (all_periods_nonneg _ Hps) as Hnn. change (all_periods (ev :: evs)) with (periods_of ev + all_periods evs) in *.
  cbn [gpu_run]. destruct (gpu_enabled st ev) eqn:He.
  - assert (∃ st1, gpu_step st ev = Some st1 ∧ gpu_ok st1 ∧ zlen (us_due st1) = zlen (us_due st) + periods_of ev) as (st1 & -> & Hok1 & El).
    { destruct ev as [y uv raw ts n|interval key|].
      - apply frame_step_ok; [done|done|cbn [periods_of] in *; lia].
      - cbn in *. destruct (us_thread st) as [w|t|] eqn:Et; [| |done].
        + apply negb_true_iff, Z.eqb_neq in He. destruct (take_ok st w Hok Et He) as (g & t & -> & Hok1). eexists. split; [reflexivity|]. split; [done|cbn; lia].
        + destruct (give_ok st t interval key Hok Et ltac:(lia)) as (p & -> & Hok1). eexists. split; [reflexivity|]. split; [done|cbn; lia].
      - eexists. split; [reflexivity|]. split; [by apply gpu_stop_ok|cbn; lia]. }
    cbn [mbind option_bind]. destruct (IH st1 Hok1 Hps ltac:(lia)) as (st2 & E2 & Hok2 & El2). exists st2. split_and!; [done|done|lia].
  - assert (periods_of ev = 0) as E0 by (by destruct ev). destruct (IH st Hok Hps ltac:(lia)) as (st2 & E2 & Hok2 & El2).
    exists st2. split_and!; [done|done|lia].
Qed.

(** C12: However the graphics thread and the encode thread interleave, every period of the
    graphics clock is encoded once, in order, and with the picture that is due: its own, or
    the one before when the picture is late ([due]). The thread finds in the textures what
    was drawn for them, although textures are copied into, exchanged and used again. When it
    has nothing to do, no more than the last period is left. *)
Theorem gpu_pictures_in_order names convert textures evs : NoDup (both (convert :: names)) → (2 ≤ length names)%nat →
  Forall positive evs → all_periods evs < 2 ^ 30 →
  ∃ st, gpu_run (mk_gpu (init_gpu_encoding names convert textures) (GT_WAIT NUM_ENCODE_TEXTURE_FRAMES_TO_WAIT) [] []) evs = Some st ∧
    zlen (us_due st) = all_periods evs ∧
    us_shown st `prefix_of` us_due st ∧
    (∀ w, us_thread st = GT_WAIT w → gq_stop (us_queue st) = false → gq_semaphore (us_queue st) = 0 →
      zlen (us_due st) ≤ zlen (us_shown st) + 1).
Proof.
  intros Hn Hl Hp Ht. destruct (gpu_run_ok evs (mk_gpu (init_gpu_encoding names convert textures) (GT_WAIT 1) [] [])) as (st & E & [[Q1 Q2 Q3 (ps & Hps & Hd)] Hs Hth] & El).
  - constructor; [|done|by intros _]. constructor; cbn; [| |lia|by exists []].
    + unfold all_textures. rewrite app_nil_r, <- list_fmap_compose. unfold compose, pair_of. cbn.
      assert ((λ x : Z * Z, (x.1, x.2)) <$> names = names) as -> by (clear; induction names as [|[a b] l IH]; cbn; [done|by rewrite IH]). done.
    + by rewrite app_nil_r, length_fmap.
  - done.
  - cbn. change (zlen []) with 0. lia.
  - exists st. split; [exact E|]. split; [rewrite El; cbn; change (zlen []) with 0; lia|]. split; [by eexists|].
    intros w Ew Es E0. rewrite Ew in *. destruct (Hth Es) as [Hw Hc]. rewrite <- Hd, zlen_app. cbn [hand app] in *.
    assert (zlen (expand (gq_queue (us_queue st)) ps) = counts (gq_queue (us_queue st))) as ->; [|lia].
    clear -Hps. induction Hps as [|t p ts ps [_ Hc] _ IH]; [done|]. unfold expand in *. cbn. rewrite zlen_app, IH.
    unfold zlen. rewrite length_replicate, Z2Nat.id by lia. done.
Qed.
End gpu.

(** ** Examples *)

Definition ex_names : list (Z * Z) := [(10, 11); (20, 21)].
Definition ex_gpu (evs : list (gpu_event (picture := Z))) : option gpu_system :=
  gpu_run (mk_gpu (picture := Z) (init_gpu_encoding ex_names (1, 2) ∅) (GT_WAIT NUM_ENCODE_TEXTURE_FRAMES_TO_WAIT) [] []) evs.
Definition ex_draw (p count : Z) : gpu_event (picture := Z) := U_FRAME p (100 + p) false (10 * p) count.
Definition ex_work (n : nat) : list (gpu_event (picture := Z)) := replicate n (U_THREAD 10 0).

(** Two textures. The third picture finds none free; the fourth is two periods late. *)
Definition ex_pictures : list (gpu_event (picture := Z)) := [ex_draw 1 1; ex_draw 2 1; ex_draw 3 1] ++ ex_work 3 ++ [ex_draw 4 3] ++ ex_work 20.

Lemma gpu_pictures_in_order_witness : ∃ st, ex_gpu ex_pictures = Some st ∧
  us_shown st = [(1, 101); (2, 102); (2, 102); (2, 102); (2, 102)] ∧ us_due st = us_shown st ++ [(4, 104)] ∧
  us_shown st `prefix_of` us_due st.
Proof.
  destruct (gpu_pictures_in_order ex_names (1, 2) ∅ ex_pictures) as (st & E & _ & Hp & _).
  - vm_compute. repeat (apply NoDup_cons; split; [intros H; repeat (apply elem_of_cons in H as [H|H]; [discriminate|]); by apply elem_of_nil in H|]). constructor.
  - cbn. lia.
  - repeat (apply Forall_cons; split; [cbn; (exact I || lia)|]). apply Forall_nil. exact I.
  - reflexivity.
  - exists st. split; [exact E|]. vm_compute in E. injection E as <-. split; [reflexivity|]. split; [reflexivity|exact Hp].
Defined.

(** The time stamps of late pictures are not in order: a picture that is queued after others
    were repeated for its first periods has the time of the first of them, and both periods
    of a picture for two that finds an empty queue have the same. *)
Definition ex_times (evs : list (gpu_event (picture := Z))) : option (list (Z * Z)) :=
  (λ st, (λ t, (tf_timestamp t, tf_count t)) <$> gq_queue (us_queue st)) <$>
  gpu_run (mk_gpu (picture := Z) (init_gpu_encoding (ex_names ++ [(30, 31)]) (1, 2) ∅) (GT_WAIT NUM_ENCODE_TEXTURE_FRAMES_TO_WAIT) [] []) evs.

Example late_picture_goes_back : ex_times [ex_draw 1 1; ex_draw 2 3; ex_draw 5 1] = Some [(10, 3); (20, 1); (50, 1)].
Proof. vm_compute. reflexivity. Qed.

Example late_picture_repeats_time : ex_times [ex_draw 1 2; ex_draw 3 1] = Some [(10, 1); (10, 1); (30, 1)].
Proof. vm_compute. reflexivity. Qed.
