(* ===== verification/OutputState.v ===== *)
(** * The life of an output: libobs/obs-output.c and obs-output-delay.c

    Starting, stopping, the beginning and the end of data capture, reconnection, and the
    delay line, of an output of encoded data. Each function is a step on the state of the
    output; the threads that libobs starts are steps of their own, as is a stop that waits
    for the reconnecting thread. What the implementation of the output does with the calls
    of its start and stop functions is up to the environment, which calls back
    [obs_output_begin_data_capture], [obs_output_signal_stop] and
    [obs_output_end_data_capture]. Messages popped from the delay line are handled in the
    same step. The encoders, the service and the checks before a start are arguments. *)

From S2P Require Import Prelude Double Encoder Interleave.

Local Open Scope Z_scope.

Definition OBS_OUTPUT_SUCCESS : Z := 0.
Definition OBS_OUTPUT_DISCONNECTED : Z := -5.
Definition OBS_OUTPUT_DELAY_PRESERVE : Z := 1.
Definition RECONNECT_RETRY_MAX_MSEC : Z := 15 * 60 * 1000.

(** The signals of the output. *)
Inductive output_signal :=
  | SIG_STARTING | SIG_START | SIG_STOPPING | SIG_STOP (code : Z)
  | SIG_ACTIVATE | SIG_DEACTIVATE | SIG_RECONNECT (timeout_sec : Z) | SIG_RECONNECT_SUCCESS.

(** The calls of [info.start] and [info.stop]. *)
Inductive plugin_call := CALL_START | CALL_STOP (ts : Z).

(** [struct delay_data]: the message and its time. *)
Inductive delay_msg :=
  | DELAY_MSG_PACKET (packet : encoder_packet) (packet_time : option encoder_packet_time)
  | DELAY_MSG_START
  | DELAY_MSG_STOP.
Record delay_data := mk_dd { dd_msg : delay_msg; dd_ts : Z }.

(** The callback the encoders call. *)
Inductive encoded_callback := CB_DIRECT | CB_DELAY.

(** The thread that reconnects: none, waiting, past the wait, past the start. *)
Inductive reconnect_pc := R_NONE | R_WAIT | R_START | R_FINISH.

(** A call of [obs_output_actual_stop] that joins that thread. *)
Inductive stop_pc := U_IDLE | U_JOIN (force : bool) (ts : Z) (was_reconnecting : bool).

(** [struct obs_output], the capture of data: [stopping] is that [stopping_event] is not
    signalled, [hooked] the callbacks of the output that the encoders call, [ending] that the thread that ends the
    capture has been started. *)
Record capture := mk_capture {
  active : bool;
  data_active : bool;
  stopping : bool;
  hooked : list encoded_callback;
  ending : bool;
  stop_code : Z
}.

(** The delay. *)
Record delay_line := mk_delay_line {
  delay_sec : Z;
  delay_flags : Z;
  delay_cur_flags : Z;
  delay_active : bool;
  delay_capturing : bool;
  delay_restart_refs : Z;
  active_delay_ns : Z;
  delay_queue : list delay_data
}.

(** The reconnection; [reconnect_stop] is that [reconnect_stop_event] is signalled. *)
Record reconnection := mk_reconnection {
  reconnect_retry_sec : Z;
  reconnect_retry_max : Z;
  reconnect_retry_exp : spec_float;
  reconnecting : bool;
  reconnect_stop : bool;
  reconnect_retries : Z;
  reconnect_retry_cur_msec : Z;
  rthread : reconnect_pc
}.

(** [signals], [calls] and [given] record the signals, the calls of the implementation and
    the packets given to the callback behind the delay, with the time they were pushed and
    the time they were given. *)
Record output := mk_out {
  cap : capture;
  dly : delay_line;
  rcn : reconnection;
  stopper : stop_pc;
  signals : list output_signal;
  calls : list plugin_call;
  given : list (encoder_packet * Z * Z)
}.

(** Updates of one field. *)
Section updates.
Implicit Types st : output.

Definition set_cap st x := mk_out x (dly st) (rcn st) (stopper st) (signals st) (calls st) (given st).
Definition set_dly st x := mk_out (cap st) x (rcn st) (stopper st) (signals st) (calls st) (given st).
Definition set_rcn st x := mk_out (cap st) (dly st) x (stopper st) (signals st) (calls st) (given st).
Definition set_stopper st x := mk_out (cap st) (dly st) (rcn st) x (signals st) (calls st) (given st).
Definition set_signals st x := mk_out (cap st) (dly st) (rcn st) (stopper st) x (calls st) (given st).
Definition set_calls st x := mk_out (cap st) (dly st) (rcn st) (stopper st) (signals st) x (given st).
Definition set_given st x := mk_out (cap st) (dly st) (rcn st) (stopper st) (signals st) (calls st) x.

Definition set_active st x := let c := cap st in set_cap st (mk_capture x (data_active c) (stopping c) (hooked c)
  (ending c) (stop_code c)).
Definition set_data_active st x := let c := cap st in set_cap st (mk_capture (active c) x (stopping c) (hooked c)
  (ending c) (stop_code c)).
Definition set_stopping st x := let c := cap st in set_cap st (mk_capture (active c) (data_active c) x (hooked c)
  (ending c) (stop_code c)).
Definition set_hooked st x := let c := cap st in set_cap st (mk_capture (active c) (data_active c) (stopping c) x
  (ending c) (stop_code c)).
Definition set_ending st x := let c := cap st in set_cap st (mk_capture (active c) (data_active c) (stopping c)
  (hooked c) x (stop_code c)).
Definition set_stop_code st x := let c := cap st in set_cap st (mk_capture (active c) (data_active c) (stopping c)
  (hooked c) (ending c) x).
Definition set_delay_sec st x := let d := dly st in set_dly st (mk_delay_line x (delay_flags d) (delay_cur_flags d)
  (delay_active d) (delay_capturing d) (delay_restart_refs d) (active_delay_ns d) (delay_queue d)).
Definition set_delay_flags st x := let d := dly st in set_dly st (mk_delay_line (delay_sec d) x (delay_cur_flags d)
  (delay_active d) (delay_capturing d) (delay_restart_refs d) (active_delay_ns d) (delay_queue d)).
Definition set_delay_cur_flags st x := let d := dly st in set_dly st (mk_delay_line (delay_sec d) (delay_flags d) x
  (delay_active d) (delay_capturing d) (delay_restart_refs d) (active_delay_ns d) (delay_queue d)).
Definition set_delay_active st x := let d := dly st in set_dly st (mk_delay_line (delay_sec d) (delay_flags d)
  (delay_cur_flags d) x (delay_capturing d) (delay_restart_refs d) (active_delay_ns d) (delay_queue d)).
Definition set_delay_capturing st x := let d := dly st in set_dly st (mk_delay_line (delay_sec d) (delay_flags d)
  (delay_cur_flags d) (delay_active d) x (delay_restart_refs d) (active_delay_ns d) (delay_queue d)).
Definition set_delay_restart_refs st x := let d := dly st in set_dly st (mk_delay_line (delay_sec d) (delay_flags
  d) (delay_cur_flags d) (delay_active d) (delay_capturing d) x (active_delay_ns d) (delay_queue d)).
Definition set_active_delay_ns st x := let d := dly st in set_dly st (mk_delay_line (delay_sec d) (delay_flags d)
  (delay_cur_flags d) (delay_active d) (delay_capturing d) (delay_restart_refs d) x (delay_queue d)).
Definition set_delay_queue st x := let d := dly st in set_dly st (mk_delay_line (delay_sec d) (delay_flags d)
  (delay_cur_flags d) (delay_active d) (delay_capturing d) (delay_restart_refs d) (active_delay_ns d) x).
Definition set_reconnect_retry_sec st x := let r := rcn st in set_rcn st (mk_reconnection x (reconnect_retry_max r)
  (reconnect_retry_exp r) (reconnecting r) (reconnect_stop r) (reconnect_retries r) (reconnect_retry_cur_msec r)
  (rthread r)).
Definition set_reconnect_retry_max st x := let r := rcn st in set_rcn st (mk_reconnection (reconnect_retry_sec r) x
  (reconnect_retry_exp r) (reconnecting r) (reconnect_stop r) (reconnect_retries r) (reconnect_retry_cur_msec r)
  (rthread r)).
Definition set_reconnect_retry_exp st x := let r := rcn st in set_rcn st (mk_reconnection (reconnect_retry_sec r)
  (reconnect_retry_max r) x (reconnecting r) (reconnect_stop r) (reconnect_retries r) (reconnect_retry_cur_msec r)
  (rthread r)).
Definition set_reconnecting st x := let r := rcn st in set_rcn st (mk_reconnection (reconnect_retry_sec r)
  (reconnect_retry_max r) (reconnect_retry_exp r) x (reconnect_stop r) (reconnect_retries r)
  (reconnect_retry_cur_msec r) (rthread r)).
Definition set_reconnect_stop st x := let r := rcn st in set_rcn st (mk_reconnection (reconnect_retry_sec r)
  (reconnect_retry_max r) (reconnect_retry_exp r) (reconnecting r) x (reconnect_retries r)
  (reconnect_retry_cur_msec r) (rthread r)).
Definition set_reconnect_retries st x := let r := rcn st in set_rcn st (mk_reconnection (reconnect_retry_sec r)
  (reconnect_retry_max r) (reconnect_retry_exp r) (reconnecting r) (reconnect_stop r) x (reconnect_retry_cur_msec
  r) (rthread r)).
Definition set_reconnect_retry_cur_msec st x := let r := rcn st in set_rcn st (mk_reconnection (reconnect_retry_sec
  r) (reconnect_retry_max r) (reconnect_retry_exp r) (reconnecting r) (reconnect_stop r) (reconnect_retries r) x
  (rthread r)).
Definition set_rthread st x := let r := rcn st in set_rcn st (mk_reconnection (reconnect_retry_sec r)
  (reconnect_retry_max r) (reconnect_retry_exp r) (reconnecting r) (reconnect_stop r) (reconnect_retries r)
  (reconnect_retry_cur_msec r) x).
End updates.

Coercion cap : output >-> capture.
Coercion dly : output >-> delay_line.
Coercion rcn : output >-> reconnection.

#[global] Instance encoded_callback_eq_dec : EqDecision encoded_callback.
Proof. solve_decision. Defined.
#[global] Instance reconnect_pc_eq_dec : EqDecision reconnect_pc.
Proof. solve_decision. Defined.

Implicit Types st : output.

Definition signal st (s : output_signal) : output := set_signals st (signals st ++ [s]).
Definition call st (c : plugin_call) : output := set_calls st (calls st ++ [c]).

(** ** Ending the capture *)

Definition obs_output_cleanup_delay st : output :=
  set_delay_restart_refs (set_active_delay_ns (set_delay_queue st []) 0) 0.

(** The callback is removed from the encoders, if it is the one they have. *)
Definition end_data_capture_thread st : output :=
  let encoded_callback := if active_delay_ns st =? 0 then CB_DIRECT else CB_DELAY in
  let st := set_hooked st (filter (.≠ encoded_callback) (hooked st)) in
  let st := if active_delay_ns st =? 0 then st else obs_output_cleanup_delay st in
  set_ending (set_stopping (set_active (signal st SIG_DEACTIVATE) false) false) false.

Definition obs_output_end_data_capture_internal st (signalled : bool) : output :=
  if negb (active st) || negb (data_active st) then
    if signalled then set_stopping (set_stop_code (signal st (SIG_STOP (stop_code st))) OBS_OUTPUT_SUCCESS) false else st
  else
  let wait_restart := delay_active st && negb (delay_restart_refs st =? 0) in
  let st := if delay_active st then set_delay_capturing st false else st in
  if wait_restart then set_stopping st false else
  let st := set_delay_active st false in
  let st := set_data_active st false in
  let st := if ending st then end_data_capture_thread st else st in
  let st := set_ending st true in
  if signalled then set_stop_code (signal st (SIG_STOP (stop_code st))) OBS_OUTPUT_SUCCESS else st.

Definition obs_output_end_data_capture st : output := obs_output_end_data_capture_internal st true.

(** ** Beginning it *)

(** [valid] is [can_begin_data_capture]. *)
Definition obs_output_can_begin_data_capture st (valid : bool) : output * bool :=
  if delay_active st then (st, true) else
  if active st then (st, false) else
  (if ending st then end_data_capture_thread st else st, valid).

Definition obs_output_initialize_encoders st (initialized : bool) : bool :=
  if active st then delay_active st else initialized.

Definition begin_delayed_capture st : output * bool :=
  if delay_capturing st then (st, false) else
  let st := set_delay_capturing st true in
  (if reconnecting st then set_reconnecting (signal st SIG_RECONNECT_SUCCESS) false else signal st SIG_START, true).

Definition hook_data_capture st : output :=
  if delay_sec st =? 0 then set_hooked st (hooked st ++ [CB_DIRECT]) else
  let st := set_active_delay_ns st (delay_sec st * 1000000000) in
  let st := set_delay_cur_flags st (delay_flags st) in
  set_hooked (set_delay_active st true) (hooked st ++ [CB_DELAY]).

Definition obs_output_begin_data_capture st (valid : bool) : output * bool :=
  if delay_active st then begin_delayed_capture st else
  if active st then (st, false) else
  if negb valid then (st, false) else
  let st := hook_data_capture (set_data_active st true) in
  let st := set_active (signal st SIG_ACTIVATE) true in
  (if reconnecting st then set_reconnecting (signal st SIG_RECONNECT_SUCCESS) false
   else if delay_active st then signal st SIG_STARTING
   else signal st SIG_START, true).

(** ** Starting *)

(** It waits as long as the output is stopping. *)
Definition obs_output_actual_start st : option output :=
  if stopping st then None else
  let st := call (set_stop_code st 0) CALL_START in
  Some (if delay_restart_refs st =? 0 then st else set_delay_restart_refs st (delay_restart_refs st - 1)).

Definition obs_output_delay_start st (now : Z) (valid initialized : bool) : output * bool :=
  let '(st, ok) :=
    if delay_active st then (st, true)
    else let '(st, can_begin) := obs_output_can_begin_data_capture st valid in
         (st, can_begin && obs_output_initialize_encoders st initialized) in
  if negb ok then (st, false) else
  let st := set_delay_queue st (delay_queue st ++ [mk_dd DELAY_MSG_START now]) in
  let st := set_delay_restart_refs st (delay_restart_refs st + 1) in
  if delay_active st then (signal st SIG_STARTING, true) else
  let '(st, ok) := obs_output_begin_data_capture st valid in
  if ok then (st, true) else (obs_output_cleanup_delay st, false).

(** [started] is what [info.start] returns; [None] when the call waits. *)
Definition obs_output_start st (now : Z) (service valid initialized started : bool) : option (output * bool) :=
  if negb service then Some (st, false) else
  if negb (delay_sec st =? 0) then Some (obs_output_delay_start st now valid initialized) else
  st ← obs_output_actual_start st;
  Some (if started then (signal st SIG_STARTING, true) else (st, false)).

(** ** Stopping *)

(** What follows the wait for the reconnecting thread. *)
Definition after_join st (force : bool) (ts : Z) (was_reconnecting : bool) : output :=
  let call_stop := if force && delay_active st then delay_capturing st else true in
  let st :=
    if force && delay_active st then
      let st := set_stop_code (set_delay_capturing (set_delay_active st false) false) OBS_OUTPUT_SUCCESS in
      set_stopping (obs_output_end_data_capture st) false
    else st in
  if call_stop then call st (CALL_STOP ts)
  else if was_reconnecting then
    set_stopping (signal (set_stop_code st OBS_OUTPUT_SUCCESS) (SIG_STOP OBS_OUTPUT_SUCCESS)) false
  else st.

Definition obs_output_actual_stop st (force : bool) (ts : Z) : output :=
  if stopping st && negb force then st else
  let st := set_stopping st true in
  let was_reconnecting := reconnecting st && negb (delay_active st) in
  if reconnecting st then
    let st := set_reconnect_stop st true in
    if bool_decide (rthread st = R_NONE) then after_join st force ts was_reconnecting
    else set_stopper st (U_JOIN force ts was_reconnecting)
  else after_join st force ts was_reconnecting.

Definition obs_output_force_stop st : output :=
  let st := if stopping st then st else signal (set_stop_code st 0) SIG_STOPPING in
  obs_output_actual_stop st true 0.

Definition obs_output_delay_stop st (now : Z) : output :=
  signal (set_delay_queue st (delay_queue st ++ [mk_dd DELAY_MSG_STOP now])) SIG_STOPPING.

Definition obs_output_stop st (now : Z) : output :=
  if negb (active st) && negb (reconnecting st) then st else
  if reconnecting st then obs_output_force_stop st else
  if negb (active_delay_ns st =? 0) then obs_output_delay_stop st now else
  if stopping st then st else obs_output_actual_stop (signal st SIG_STOPPING) false now.

(** ** Reconnecting *)

Definition float_mul (a b : spec_float) : spec_float := SFmul 24 128 a b.

(** The next wait; undefined when the product is not a 32-bit number. *)
Definition next_retry_msec (cur : Z) (exp : spec_float) : option Z :=
  msec ← double_to_int (float_mul (float_of_int cur) exp);
  if (0 <=? msec) && (msec <? 2 ^ 32) then
    Some (if RECONNECT_RETRY_MAX_MSEC <? msec then RECONNECT_RETRY_MAX_MSEC else msec)
  else None.

Definition output_reconnect st : option output :=
  if reconnecting st && reconnect_stop st then Some (set_reconnecting st false) else
  let st := if reconnecting st then st
            else set_reconnect_retries (set_reconnect_retry_cur_msec st (u32 (reconnect_retry_sec st * 1000))) 0 in
  if reconnect_retry_max st <=? reconnect_retries st then
    let st := set_reconnecting (set_stop_code st OBS_OUTPUT_DISCONNECTED) false in
    Some (obs_output_end_data_capture (set_delay_active st false))
  else
  let st := if reconnecting st then st else set_reconnect_stop (set_reconnecting st true) false in
  msec ← (if reconnect_retries st =? 0 then Some (reconnect_retry_cur_msec st)
          else next_retry_msec (reconnect_retry_cur_msec st) (reconnect_retry_exp st));
  let st := set_reconnect_retries (set_reconnect_retry_cur_msec st msec) (reconnect_retries st + 1) in
  let st := set_rthread (set_stop_code st OBS_OUTPUT_DISCONNECTED) R_WAIT in
  Some (signal st (SIG_RECONNECT (reconnect_retry_cur_msec st / 1000))).

(** [allowed] is what the callback of the client says. *)
Definition can_reconnect st (code : Z) (allowed : bool) : bool :=
  let reconnect_active := negb (reconnect_retry_max st =? 0) in
  if reconnect_active && negb allowed then false
  else (reconnecting st && negb (code =? OBS_OUTPUT_SUCCESS)) || (reconnect_active && (code =? OBS_OUTPUT_DISCONNECTED)).

Definition obs_output_signal_stop st (code : Z) (allowed : bool) : option output :=
  let st := set_stop_code st code in
  if can_reconnect st code allowed then
    let st := if delay_active st then set_delay_restart_refs st (delay_restart_refs st + 1) else st in
    output_reconnect (obs_output_end_data_capture_internal st false)
  else
    Some (obs_output_end_data_capture (set_reconnecting (set_delay_active st false) false)).

(** One step of the thread; [timeout] is that its wait timed out. *)
Definition reconnect_thread st (timeout : bool) : output :=
  match rthread st with
  | R_NONE => st
  | R_WAIT =>
      if reconnect_stop st then set_rthread st R_FINISH else if timeout then set_rthread st R_START else st
  | R_START => match obs_output_actual_start st with Some st => set_rthread st R_FINISH | None => st end
  | R_FINISH => set_rthread (if reconnect_stop st then set_reconnecting st false else st) R_NONE
  end.

(** ** The delay line *)

Definition push_packet st (packet : encoder_packet) (packet_time : option encoder_packet_time) (t : Z) : output :=
  set_delay_queue st (delay_queue st ++ [mk_dd (DELAY_MSG_PACKET packet packet_time) t]).

(** [None] when the start waits. *)
Definition process_delay_data st (dd : delay_data) (t : Z) : option output :=
  match dd_msg dd with
  | DELAY_MSG_PACKET packet _ =>
      Some (if negb (delay_active st) || negb (delay_capturing st) then st
            else set_given st (given st ++ [(packet, dd_ts dd, t)]))
  | DELAY_MSG_START => obs_output_actual_start st
  | DELAY_MSG_STOP => Some (obs_output_actual_stop st false (dd_ts dd))
  end.

Definition pop_packet st (t : Z) : option (output * bool) :=
  match delay_queue st with
  | [] => Some (st, false)
  | dd :: q =>
      let elapsed_time := u64 (t - dd_ts dd) in
      if negb (Z.land (delay_cur_flags st) OBS_OUTPUT_DELAY_PRESERVE =? 0) && reconnecting st
      then Some (set_active_delay_ns st elapsed_time, false)
      else if active_delay_ns st <? elapsed_time
      then st ← process_delay_data (set_delay_queue st q) dd t; Some (st, true)
      else Some (st, false)
  end.

Definition obs_output_set_delay st (sec flags : Z) : output := set_delay_flags (set_delay_sec st (u32 sec)) (u32 flags).
Definition obs_output_get_delay st : Z := delay_sec st.
Definition obs_output_get_active_delay st : Z := u32 (active_delay_ns st / 1000000000).
Definition obs_output_active st : bool := active st || reconnecting st.
Definition obs_output_set_reconnect_settings st (retry_count retry_sec : Z) : output :=
  set_reconnect_retry_sec (set_reconnect_retry_max st retry_count) retry_sec.

(** [exp] is the factor of the waits. *)
Definition obs_output_create (exp : spec_float) : output :=
  mk_out (mk_capture false false false [] false 0) (mk_delay_line 0 0 0 false false 0 0 [])
    (mk_reconnection 2 20 exp false false 0 0 R_NONE) U_IDLE [] [] [].

(** ** Steps *)

(** The calls of the client, those of the implementation, a packet of an encoder, the steps
    of the threads; [EV_POP] is a turn of the loop of [process_delay]. *)
Inductive output_event :=
  | EV_START (now : Z) (service valid initialized started : bool)
  | EV_STOP (now : Z)
  | EV_FORCE_STOP
  | EV_SET_DELAY (sec flags : Z)
  | EV_BEGIN (valid : bool)
  | EV_SIGNAL_STOP (code : Z) (allowed : bool)
  | EV_END
  | EV_PACKET (packet : encoder_packet) (packet_time : option encoder_packet_time) (t : Z)
  | EV_POP (t : Z)
  | EV_END_THREAD
  | EV_RECONNECT_THREAD (timeout : bool)
  | EV_JOINED.

#[global] Instance stop_pc_eq_dec : EqDecision stop_pc.
Proof. solve_decision. Defined.

(** Only [process_delay] does something with a packet here. *)
Definition encoder_calls st (packet : encoder_packet) (packet_time : option encoder_packet_time) (t : Z) : output :=
  foldl (λ st cb, match cb with CB_DIRECT => st | CB_DELAY => push_packet st packet packet_time t end) st (hooked st).

(** [None] when a call waits or the step is not due. Two stops do not wait for the
    reconnecting thread at the same time, and the implementation reports when no such
    thread is left. *)
Definition output_step st (ev : output_event) : option output :=
  match ev with
  | EV_START now service valid initialized started => fst <$> obs_output_start st now service valid initialized started
  | EV_STOP now => if bool_decide (stopper st = U_IDLE) then Some (obs_output_stop st now) else None
  | EV_FORCE_STOP => if bool_decide (stopper st = U_IDLE) then Some (obs_output_force_stop st) else None
  | EV_SET_DELAY sec flags => Some (obs_output_set_delay st sec flags)
  | EV_BEGIN valid => Some (obs_output_begin_data_capture st valid).1
  | EV_SIGNAL_STOP code allowed =>
      if bool_decide (rthread st = R_NONE) then obs_output_signal_stop st code allowed else None
  | EV_END => Some (obs_output_end_data_capture st)
  | EV_PACKET packet packet_time t => Some (encoder_calls st packet packet_time t)
  | EV_POP t =>
      '(st', _) ← pop_packet st t;
      if bool_decide (stopper st = U_IDLE ∨ stopper st' = stopper st) then Some st' else None
  | EV_END_THREAD => if ending st then Some (end_data_capture_thread st) else None
  | EV_RECONNECT_THREAD timeout => Some (reconnect_thread st timeout)
  | EV_JOINED =>
      match stopper st with
      | U_JOIN force ts was_reconnecting =>
          if bool_decide (rthread st = R_NONE) then Some (after_join (set_stopper st U_IDLE) force ts was_reconnecting)
          else None
      | U_IDLE => None
      end
  end.

Fixpoint output_run st (evs : list output_event) : option output :=
  match evs with
  | [] => Some st
  | ev :: evs => st ← output_step st ev; output_run st evs
  end.
