(* ===== verification/OutputLifecycle.v ===== *)
(** * The life of an output: obs-output.c

    The invariant of the capture and what a lost connection leads to. *)

From S2P Require Import Prelude Double Encoder Interleave OutputState.

Local Open Scope Z_scope.

Implicit Types st : output.

(** ** The capture *)

(** Whether the capture is announced as active, [None] when it is announced twice. *)
Definition announce (b : option bool) (s : output_signal) : option bool :=
  match s, b with
  | SIG_ACTIVATE, Some false => Some true
  | SIG_DEACTIVATE, Some true => Some false
  | SIG_ACTIVATE, _ | SIG_DEACTIVATE, _ => None
  | _, b => b
  end.
Definition announced (l : list output_signal) : option bool := foldl announce (Some false) l.
#[local] Arguments announced : simpl never.

Record life_ok st : Prop := {
  l_data : data_active st = true → active st = true;
  l_ending : ending st = true → active st = true ∧ data_active st = false;
  l_delay : delay_active st = true → data_active st = true;
  l_signals : announced (signals st) = Some (active st);
  l_retries : reconnecting st = true → 1 ≤ reconnect_retries st ≤ reconnect_retry_max st;
  l_refs : 0 ≤ delay_restart_refs st
}.

Lemma announced_snoc l s : announced (l ++ [s]) = announce (announced l) s.
Proof. unfold announced. by rewrite foldl_app. Qed.

(** The fields of a state, with everything unfolded. *)
Ltac open_output :=
  repeat match goal with
  | H : life_ok _ |- _ => destruct H
  | st : output |- _ => destruct st as [[] [] [] ? ? ? ?]
  end; cbn in *.
Ltac close_output :=
  constructor; cbn in *; rewrite ?announced_snoc in *;
  repeat match goal with H : announced _ = _ |- _ => rewrite H end; cbn;
  first [done | intros; first [congruence | lia] | intuition (congruence || lia)].

Lemma ok_end_thread st : life_ok st → ending st = true → life_ok (end_data_capture_thread st).
Proof.
  intros H He. unfold end_data_capture_thread. open_output. subst.
  destruct (l_ending0 eq_refl) as [-> ->]. case_match; close_output.
Qed.

Lemma ok_end_internal st b : life_ok st → life_ok (obs_output_end_data_capture_internal st b).
Proof.
  intros H. unfold obs_output_end_data_capture_internal.
  destruct (negb (active st) || negb (data_active st)) eqn:E.
  { destruct b; [|done]. open_output. close_output. }
  apply orb_false_iff in E as [Ha Hd]. rewrite !negb_false_iff in *.
  assert (ending st = false) as He by (destruct (ending st) eqn:He; [destruct (l_ending _ H He); congruence|done]).
  open_output. subst. repeat case_match; try done; close_output.
Qed.

Lemma ok_can_begin st valid : life_ok st → life_ok (obs_output_can_begin_data_capture st valid).1.
Proof.
  intros H. unfold obs_output_can_begin_data_capture. repeat case_match; try done. by apply ok_end_thread.
Qed.

Lemma ok_begin st valid : life_ok st → life_ok (obs_output_begin_data_capture st valid).1.
Proof.
  intros H. unfold obs_output_begin_data_capture, begin_delayed_capture, hook_data_capture. open_output.
  repeat case_match; cbn in *; subst; try done; close_output.
Qed.

Lemma ok_actual_start st st' : life_ok st → obs_output_actual_start st = Some st' → life_ok st'.
Proof.
  intros H. unfold obs_output_actual_start. destruct (stopping st); [done|]. intros [= <-].
  open_output. case_match eqn:E; close_output.
Qed.

(** A change of what the invariant does not mention. *)
Record same_life st st' : Prop := {
  y_active : active st' = active st;
  y_data : data_active st' = data_active st;
  y_ending : ending st' = ending st;
  y_delay : delay_active st' = delay_active st;
  y_announced : announced (signals st') = announced (signals st);
  y_reconnecting : reconnecting st' = reconnecting st ∨ reconnecting st' = false;
  y_retries : reconnect_retries st' = reconnect_retries st;
  y_max : reconnect_retry_max st' = reconnect_retry_max st;
  y_refs : 0 ≤ delay_restart_refs st → 0 ≤ delay_restart_refs st'
}.

Lemma ok_same st st' : life_ok st → same_life st st' → life_ok st'.
Proof.
  intros [] []. constructor; rewrite ?y_active0, ?y_data0, ?y_ending0, ?y_delay0, ?y_announced0, ?y_retries0, ?y_max0; auto.
  destruct y_reconnecting0 as [->| ->]; [done|done].
Qed.

Ltac same_life :=
  constructor; cbn; rewrite ?announced_snoc; cbn;
  repeat match goal with |- context [announced ?l] => destruct (announced l) as [[]|] end; cbn;
  first [done | by left | by right | lia].

Lemma ok_delay_start st now valid init : life_ok st → life_ok (obs_output_delay_start st now valid init).1.
Proof.
  intros H. unfold obs_output_delay_start.
  assert (∀ st1, life_ok st1 → life_ok (set_delay_restart_refs
    (set_delay_queue st1 (delay_queue st1 ++ [mk_dd DELAY_MSG_START now])) (delay_restart_refs st1 + 1))) as Hpush.
  { intros st1 H1. eapply ok_same; [exact H1|]. same_life. }
  assert (∀ st1, life_ok st1 → life_ok
    (let st := set_delay_queue st1 (delay_queue st1 ++ [mk_dd DELAY_MSG_START now]) in
     let st := set_delay_restart_refs st (delay_restart_refs st + 1) in
     if delay_active st then (signal st SIG_STARTING, true)
     else let '(st, ok) := obs_output_begin_data_capture st valid in
          if ok then (st, true) else (obs_output_cleanup_delay st, false)).1) as Hrest.
  { intros st1 H1. specialize (Hpush st1 H1). cbv zeta.
    match goal with |- life_ok (if delay_active (dly ?s) then _ else _).1 => set (st2 := s) in * end.
    destruct (delay_active st2); [eapply ok_same; [exact Hpush|same_life]|].
    pose proof (ok_begin st2 valid Hpush) as Hb. destruct (obs_output_begin_data_capture st2 valid) as [st3 ok].
    destruct ok; [done|]. cbn in *. eapply ok_same; [exact Hb|same_life]. }
  destruct (delay_active st); [by apply Hrest|].
  pose proof (ok_can_begin st valid H) as Hc. destruct (obs_output_can_begin_data_capture st valid) as [st1 b].
  cbn [fst] in Hc. destruct (negb _); [done|]. by apply Hrest.
Qed.

Lemma ok_start st now sv valid init started r : life_ok st →
  obs_output_start st now sv valid init started = Some r → life_ok r.1.
Proof.
  intros H. unfold obs_output_start. destruct (negb sv); [by intros [= <-]|].
  destruct (negb _); [intros [= <-]; by apply ok_delay_start|].
  destruct (obs_output_actual_start st) as [st1|] eqn:E; [|done]. apply ok_actual_start in E; [|done].
  cbn [mbind option_bind]. destruct started; intros [= <-]; [|done]. eapply ok_same; [exact E|same_life].
Qed.

Lemma ok_after_join st force ts was : life_ok st → life_ok (after_join st force ts was).
Proof.
  intros H. unfold after_join. cbv zeta.
  match goal with |- life_ok (if ?b then call ?s _ else _) => set (st1 := s); set (cs := b) end.
  assert (life_ok st1) as H1.
  { unfold st1. destruct (force && delay_active st); [|done].
    match goal with |- life_ok (set_stopping (obs_output_end_data_capture ?s) false) => set (st2 := s) end.
    assert (life_ok st2) as H2 by (unfold st2; open_output; close_output).
    pose proof (ok_end_internal st2 true H2) as H3. fold (obs_output_end_data_capture st2) in H3.
    eapply ok_same; [exact H3|same_life]. }
  destruct cs; [|destruct was; [|done]]; (eapply ok_same; [exact H1|same_life]).
Qed.

Lemma ok_actual_stop st force ts : life_ok st → life_ok (obs_output_actual_stop st force ts).
Proof.
  intros H. unfold obs_output_actual_stop. destruct (stopping st && negb force); [done|].
  assert (life_ok (set_stopping st true)) as H1 by (eapply ok_same; [exact H|same_life]).
  cbv zeta. destruct (reconnecting (set_stopping st true)); [|by apply ok_after_join].
  assert (life_ok (set_reconnect_stop (set_stopping st true) true)) as H2 by (eapply ok_same; [exact H1|same_life]).
  case_bool_decide; [by apply ok_after_join|]. eapply ok_same; [exact H2|same_life].
Qed.

Lemma ok_force_stop st : life_ok st → life_ok (obs_output_force_stop st).
Proof.
  intros H. unfold obs_output_force_stop. apply ok_actual_stop.
  destruct (stopping st); [done|]. eapply ok_same; [exact H|same_life].
Qed.

Lemma ok_stop st now : life_ok st → life_ok (obs_output_stop st now).
Proof.
  intros H. unfold obs_output_stop. destruct (_ && _); [done|]. destruct (reconnecting st); [by apply ok_force_stop|].
  destruct (negb _); [eapply ok_same; [exact H|same_life]|]. destruct (stopping st); [done|].
  apply ok_actual_stop. eapply ok_same; [exact H|same_life].
Qed.

Lemma ok_reconnect st st' : life_ok st → output_reconnect st = Some st' → life_ok st'.
Proof.
  intros H. unfold output_reconnect. destruct (reconnecting st && reconnect_stop st).
  { intros [= <-]. eapply ok_same; [exact H|same_life]. }
  set (st1 := if reconnecting st then st else _).
  assert (life_ok st1 ∧ (reconnecting st1 = reconnecting st) ∧ 0 ≤ reconnect_retries st1) as (H1 & Er & Hr).
  { unfold st1. destruct (reconnecting st) eqn:E; [destruct (l_retries _ H E); split_and!; [done|done|lia]|].
    split_and!; [|done|cbn; lia]. open_output. subst. close_output. }
  clearbody st1. clear H. revert Er. generalize (reconnecting st). clear st. intros b Er.
  destruct (Z.leb_spec (reconnect_retry_max st1) (reconnect_retries st1)) as [Hm|Hm].
  - intros [= <-]. apply ok_end_internal. open_output. close_output.
  - rewrite Er. cbv zeta. intros Hb. apply bind_Some in Hb as (msec & _ & [= <-]).
    destruct b; cbn in *; open_output; subst; close_output.
Qed.

Lemma ok_signal_stop st code allowed st' : life_ok st → obs_output_signal_stop st code allowed = Some st' → life_ok st'.
Proof.
  intros H. unfold obs_output_signal_stop. cbv zeta. destruct (can_reconnect _ _ _).
  - apply ok_reconnect, ok_end_internal. case_match; (eapply ok_same; [exact H|same_life]).
  - intros [= <-]. apply ok_end_internal. open_output. close_output.
Qed.

Lemma ok_pop st t r : life_ok st → pop_packet st t = Some r → life_ok r.1.
Proof.
  intros H. unfold pop_packet. destruct (delay_queue st) as [|dd q]; [by intros [= <-]|].
  destruct (_ && _); [intros [= <-]; eapply ok_same; [exact H|same_life]|].
  destruct (_ <? _); [|by intros [= <-]]. intros Hb. apply bind_Some in Hb as (st1 & E & [= <-]). cbn.
  assert (life_ok (set_delay_queue st q)) as H1 by (eapply ok_same; [exact H|same_life]).
  unfold process_delay_data in E. destruct (dd_msg dd) as [p pt| |].
  - injection E as <-. case_match; [done|]. eapply ok_same; [exact H1|same_life].
  - by eapply ok_actual_start.
  - injection E as <-. by apply ok_actual_stop.
Qed.

Lemma ok_thread st b : life_ok st → life_ok (reconnect_thread st b).
Proof.
  intros H. unfold reconnect_thread. destruct (rthread st); [done|..].
  - repeat case_match; try done; (eapply ok_same; [exact H|same_life]).
  - case_match eqn:E; [|done]. apply ok_actual_start in E; [|done]. eapply ok_same; [exact E|same_life].
  - case_match; (eapply ok_same; [exact H|same_life]).
Qed.

Lemma ok_packet st p pt t : life_ok st → life_ok (encoder_calls st p pt t).
Proof.
  unfold encoder_calls. generalize (hooked st). intros cbs. revert st. induction cbs as [|cb cbs IH]; intros st H; [done|].
  cbn [foldl]. apply IH. destruct cb; [done|]. eapply ok_same; [exact H|same_life].
Qed.

Lemma ok_step st ev st' : life_ok st → output_step st ev = Some st' → life_ok st'.
Proof.
  intros H. destruct ev; cbn [output_step].
  - destruct (obs_output_start _ _ _ _ _ _) as [r|] eqn:E; [|done]. intros [= <-]. by eapply ok_start.
  - case_bool_decide; [|done]. intros [= <-]. by apply ok_stop.
  - case_bool_decide; [|done]. intros [= <-]. by apply ok_force_stop.
  - intros [= <-]. eapply ok_same; [exact H|same_life].
  - intros [= <-]. by apply ok_begin.
  - case_bool_decide; [|done]. by apply ok_signal_stop.
  - intros [= <-]. by apply ok_end_internal.
  - intros [= <-]. by apply ok_packet.
  - destruct (pop_packet st t) as [[st1 b]|] eqn:E; [|done]. cbn [mbind option_bind].
    case_bool_decide; [|done]. intros [= <-]. by apply (ok_pop _ _ _ H) in E.
  - destruct (ending st) eqn:E; [|done]. intros [= <-]. by apply ok_end_thread.
  - intros [= <-]. by apply ok_thread.
  - destruct (stopper st); [done|]. case_bool_decide; [|done]. intros [= <-]. apply ok_after_join.
    eapply ok_same; [exact H|same_life].
Qed.

Lemma ok_run st evs st' : life_ok st → output_run st evs = Some st' → life_ok st'.
Proof.
  revert st. induction evs as [|ev evs IH]; intros st H; cbn [output_run]; [by intros [= <-]|].
  destruct (output_step st ev) as [st1|] eqn:E; [|done]. apply ok_step in E; [|done]. by apply IH.
Qed.

(** C8: Whatever the client (which makes its reconnect settings when it creates the output), the
    implementation, the encoders and the threads do, in any order, each call being a step:
    data is captured only when the output is active; its activation and its deactivation are
    announced in turn, the last one announced being its state; the thread that ends a capture
    runs for an active output that takes no more data; a delay only while data is captured;
    and a reconnecting output has made no more attempts than allowed. *)
Theorem output_lifecycle exp retries sec evs st :
  output_run (obs_output_set_reconnect_settings (obs_output_create exp) retries sec) evs = Some st →
  (data_active st = true → active st = true) ∧
  (ending st = true → active st = true ∧ data_active st = false) ∧
  (delay_active st = true → data_active st = true) ∧
  announced (signals st) = Some (active st) ∧
  (reconnecting st = true → 1 ≤ reconnect_retries st ≤ reconnect_retry_max st) ∧
  0 ≤ delay_restart_refs st.
Proof. intros H. apply ok_run in H as []; [by split_and!|by constructor]. Qed.

(** ** A connection that is lost *)

(** The attempt fails with a code: the wait times out, the implementation is started, the
    thread ends, and the failure is reported. *)
Definition attempt (code : Z) : list output_event :=
  replicate 3 (EV_RECONNECT_THREAD true) ++ [EV_SIGNAL_STOP code true].

(** The waits after the first. *)
Fixpoint retry_waits (cur : Z) (exp : spec_float) (n : nat) : option (list Z) :=
  match n with
  | O => Some []
  | S n => cur ← next_retry_msec cur exp; ws ← retry_waits cur exp n; Some (cur :: ws)
  end.

(** Capturing without a delay, with no thread about. *)
Record streaming st : Prop := {
  m_active : active st = true;
  m_data : data_active st = true;
  m_stopping : stopping st = false;
  m_hooked : hooked st = [CB_DIRECT];
  m_ending : ending st = false;
  m_delay : delay_active st = false;
  m_delay_ns : active_delay_ns st = 0;
  m_refs : delay_restart_refs st = 0;
  m_reconnecting : reconnecting st = false;
  m_thread : rthread st = R_NONE
}.

(** Inactive, with nothing left to wait for. *)
Definition at_rest st : Prop :=
  active st = false ∧ data_active st = false ∧ stopping st = false ∧ hooked st = [] ∧ ending st = false ∧
  rthread st = R_NONE ∧ delay_active st = false.

(** The implementation refuses to start: no failure is reported. *)
Definition refused_attempt : list output_event := replicate 3 (EV_RECONNECT_THREAD true).

(** Inactive but reconnecting, with no thread that would try again. *)
Definition abandoned st : Prop :=
  active st = false ∧ reconnecting st = true ∧ rthread st = R_NONE ∧ ending st = false ∧
  ∀ timeout, output_step st (EV_RECONNECT_THREAD timeout) = Some st.

(** Before an attempt. *)
Record waiting st : Prop := {
  a_active : active st = false;
  a_data : data_active st = false;
  a_stopping : stopping st = false;
  a_hooked : hooked st = [];
  a_ending : ending st = false;
  a_delay : delay_active st = false;
  a_refs : delay_restart_refs st = 0;
  a_reconnecting : reconnecting st = true;
  a_stop : reconnect_stop st = false;
  a_thread : rthread st = R_WAIT
}.

Lemma output_run_app st l l' : output_run st (l ++ l') = (st ← output_run st l; output_run st l').
Proof.
  revert st. induction l as [|ev l IH]; intros st; [done|]. cbn [app output_run].
  destruct (output_step st ev); [apply IH|done].
Qed.

Lemma output_run_cons st ev evs st' : output_step st ev = Some st' → output_run st (ev :: evs) = output_run st' evs.
Proof. intros E. cbn [output_run]. by rewrite E. Qed.

(** The steps of the thread: the implementation is started. *)
Definition retried st : output := set_rthread (call (set_stop_code st 0) CALL_START) R_NONE.

Lemma thread_retries st : waiting st → output_run st (replicate 3 (EV_RECONNECT_THREAD true)) = Some (retried st).
Proof. intros []. destruct st as [[] [] [] u sg ca gv]. cbn in *. by subst. Qed.

(** The capture is over already. *)
Lemma end_internal_inactive st : active st = false → obs_output_end_data_capture_internal st false = st.
Proof. intros E. unfold obs_output_end_data_capture_internal. by rewrite E. Qed.

Lemma end_capture_inactive st : active st = false →
  obs_output_end_data_capture st = set_stopping (set_stop_code (signal st (SIG_STOP (stop_code st))) 0) false.
Proof. intros E. unfold obs_output_end_data_capture, obs_output_end_data_capture_internal. by rewrite E. Qed.

(** A reconnecting output reports a failure. *)
Lemma signal_failure st code : waiting st → code ≠ 0 →
  output_step (retried st) (EV_SIGNAL_STOP code true) = output_reconnect (set_stop_code (retried st) code).
Proof.
  intros [] Hc. cbn [output_step]. rewrite bool_decide_true by done. unfold obs_output_signal_stop, can_reconnect.
  cbn [retried reconnecting rcn set_stop_code set_cap call set_calls set_rthread set_rcn cap reconnect_retry_max dly].
  rewrite a_reconnecting0, a_delay0. cbn [negb]. rewrite andb_false_r. change OBS_OUTPUT_SUCCESS with 0. rewrite (proj2 (Z.eqb_neq code _) Hc). cbn [negb andb orb].
  by rewrite end_internal_inactive.
Qed.

(** The two cases of a reconnecting output. *)
Lemma reconnect_again st msec : reconnecting st = true → reconnect_stop st = false →
  1 ≤ reconnect_retries st < reconnect_retry_max st →
  next_retry_msec (reconnect_retry_cur_msec st) (reconnect_retry_exp st) = Some msec →
  output_reconnect st =
    Some (signal (set_rthread (set_stop_code (set_reconnect_retries (set_reconnect_retry_cur_msec st msec)
      (reconnect_retries st + 1)) OBS_OUTPUT_DISCONNECTED) R_WAIT) (SIG_RECONNECT (msec / 1000))).
Proof.
  intros Er Es Hr Hm. unfold output_reconnect. rewrite Er, Es. cbn [andb]. cbv zeta. rewrite ?Er.
  destruct (Z.leb_spec (reconnect_retry_max st) (reconnect_retries st)); [lia|].
  destruct (Z.eqb_spec (reconnect_retries st) 0); [lia|]. by rewrite Hm.
Qed.

Lemma reconnect_over st : reconnecting st = true → reconnect_stop st = false →
  reconnect_retries st = reconnect_retry_max st →
  output_reconnect st =
    Some (obs_output_end_data_capture (set_delay_active (set_reconnecting (set_stop_code st OBS_OUTPUT_DISCONNECTED) false) false)).
Proof.
  intros Er Es Hr. unfold output_reconnect. rewrite Er, Es. cbn [andb]. cbv zeta. by rewrite ?Er, Hr, Z.leb_refl.
Qed.

(** A failed attempt: another wait, or the end. *)
Lemma attempt_again st code msec : waiting st → code ≠ 0 → 1 ≤ reconnect_retries st < reconnect_retry_max st →
  next_retry_msec (reconnect_retry_cur_msec st) (reconnect_retry_exp st) = Some msec →
  ∃ st', output_run st (attempt code) = Some st' ∧ waiting st' ∧ reconnect_retries st' = reconnect_retries st + 1 ∧
    reconnect_retry_max st' = reconnect_retry_max st ∧ reconnect_retry_exp st' = reconnect_retry_exp st ∧
    reconnect_retry_cur_msec st' = msec ∧ calls st' = calls st ++ [CALL_START] ∧
    signals st' = signals st ++ [SIG_RECONNECT (msec / 1000)].
Proof.
  intros Hw Hc Hr Hm. unfold attempt. rewrite output_run_app, thread_retries by done. cbn [mbind option_bind output_run].
  rewrite signal_failure by done. pose proof Hw as []. rewrite (reconnect_again _ msec) by done.
  eexists. split; [reflexivity|]. by split_and!.
Qed.

Lemma attempt_last st code : waiting st → code ≠ 0 → reconnect_retries st = reconnect_retry_max st →
  ∃ st', output_run st (attempt code) = Some st' ∧ at_rest st' ∧ reconnecting st' = false ∧
    calls st' = calls st ++ [CALL_START] ∧ signals st' = signals st ++ [SIG_STOP OBS_OUTPUT_DISCONNECTED].
Proof.
  intros Hw Hc Hr. unfold attempt. rewrite output_run_app, thread_retries by done. cbn [mbind option_bind output_run].
  rewrite signal_failure by done. pose proof Hw as []. rewrite reconnect_over by done. cbn [mbind option_bind].
  rewrite end_capture_inactive by done.
  eexists. split; [reflexivity|]. by split_and!.
Qed.

(** Failed attempts that are not the last. *)
Lemma attempts_go ws codes st :
  waiting st → 1 ≤ reconnect_retries st → reconnect_retry_max st = reconnect_retries st + Z.of_nat (length ws) →
  retry_waits (reconnect_retry_cur_msec st) (reconnect_retry_exp st) (length ws) = Some ws →
  (length codes ≤ length ws)%nat → Forall (.≠ 0) codes →
  ∃ st', output_run st (flat_map attempt codes) = Some st' ∧ waiting st' ∧
    reconnect_retries st' = reconnect_retries st + Z.of_nat (length codes) ∧ reconnect_retry_max st' = reconnect_retry_max st ∧
    calls st' = calls st ++ replicate (length codes) CALL_START ∧
    signals st' = signals st ++ map (λ w, SIG_RECONNECT (w / 1000)) (take (length codes) ws).
Proof.
  revert codes st. induction ws as [|w ws IH]; intros codes st Hw Hr Hm Hws Hl Hc; destruct codes as [|code codes];
    [exists st; cbn; rewrite !app_nil_r; split_and!; (done || lia)|cbn in Hl; lia|
     exists st; cbn; rewrite !app_nil_r; split_and!; (done || lia)|].
  apply Forall_cons in Hc as [Hcode Hc]. cbn [flat_map length retry_waits] in *. rewrite output_run_app.
  apply bind_Some in Hws as (msec & Hmsec & Hws). apply bind_Some in Hws as (ws' & Hws & [= <- <-]).
  destruct (attempt_again st code msec Hw Hcode ltac:(lia) Hmsec) as (st1 & -> & Hw1 & Er & Em & Ee & Ec & Ecalls & Esig).
  cbn [mbind option_bind].
  destruct (IH codes st1) as (st' & -> & Hw' & Hr' & Hm' & Hcalls & Hsig); [done|lia|lia|by rewrite Ec, Ee|lia|done|].
  exists st'. split_and!; [done|done|lia|congruence| |].
  - by rewrite Hcalls, Ecalls, <- app_assoc.
  - by rewrite Hsig, Esig, <- app_assoc.
Qed.

Lemma attempts_fail ws codes st :
  waiting st → 1 ≤ reconnect_retries st → reconnect_retry_max st = reconnect_retries st + Z.of_nat (length ws) →
  retry_waits (reconnect_retry_cur_msec st) (reconnect_retry_exp st) (length ws) = Some ws →
  length codes = S (length ws) → Forall (.≠ 0) codes →
  ∃ st', output_run st (flat_map attempt codes) = Some st' ∧ at_rest st' ∧ reconnecting st' = false ∧
    calls st' = calls st ++ replicate (length codes) CALL_START ∧
    signals st' = signals st ++ map (λ w, SIG_RECONNECT (w / 1000)) ws ++ [SIG_STOP OBS_OUTPUT_DISCONNECTED].
Proof.
  intros Hw Hr Hm Hws Hl Hc. destruct codes as [|code codes' _] using rev_ind; [done|].
  rewrite length_app, Nat.add_1_r in Hl. apply Forall_app in Hc as [Hc [Hcode _]%Forall_cons].
  rewrite flat_map_app, output_run_app. cbn [flat_map]. rewrite app_nil_r.
  destruct (attempts_go ws codes' st) as (st1 & -> & Hw1 & Hr1 & Hm1 & Hcalls & Hsig); [done..|lia|done|]. cbn [mbind option_bind].
  destruct (attempt_last st1 code Hw1 Hcode) as (st' & -> & Hrest & Hrec & Hcalls' & Hsig'); [lia|].
  exists st'. split_and!; [done..| |].
  - by rewrite Hcalls', Hcalls, <- app_assoc, length_app, replicate_add.
  - by rewrite Hsig', Hsig, <- app_assoc, take_ge by lia.
Qed.

(** The implementation refuses to start: nothing is reported, and the thread ends. *)
Lemma attempt_refused st : waiting st →
  ∃ st', output_run st refused_attempt = Some st' ∧ abandoned st' ∧ calls st' = calls st ++ [CALL_START] ∧
    signals st' = signals st.
Proof.
  intros Hw. unfold refused_attempt. rewrite thread_retries by done. eexists. split; [reflexivity|].
  pose proof Hw as []. destruct st as [[] [] [] u sg ca gv]. cbn in *. subst. repeat split.
Qed.

(** The connection of a streaming output is lost. *)
Definition lost st : output :=
  let w := u32 (reconnect_retry_sec st * 1000) in
  let st := set_ending (set_data_active (set_delay_active (set_stop_code st OBS_OUTPUT_DISCONNECTED) false) false) true in
  let st := set_reconnect_retries (set_reconnect_retry_cur_msec st w) 0 in
  let st := set_reconnect_stop (set_reconnecting st true) false in
  let st := set_reconnect_retries (set_reconnect_retry_cur_msec st w) 1 in
  signal (set_rthread (set_stop_code st OBS_OUTPUT_DISCONNECTED) R_WAIT) (SIG_RECONNECT (w / 1000)).

Lemma first_reconnect st : reconnecting st = false → 0 < reconnect_retry_max st →
  output_reconnect st =
    Some (let w := u32 (reconnect_retry_sec st * 1000) in
          let st := set_reconnect_retries (set_reconnect_retry_cur_msec st w) 0 in
          let st := set_reconnect_stop (set_reconnecting st true) false in
          let st := set_reconnect_retries (set_reconnect_retry_cur_msec st w) 1 in
          signal (set_rthread (set_stop_code st OBS_OUTPUT_DISCONNECTED) R_WAIT) (SIG_RECONNECT (w / 1000))).
Proof.
  intros Er Hm. unfold output_reconnect. rewrite Er. cbn [andb]. cbv zeta.
  change (reconnecting (set_reconnect_retries (set_reconnect_retry_cur_msec st (u32 (reconnect_retry_sec st * 1000))) 0))
    with (reconnecting st). rewrite Er.
  destruct (Z.leb_spec (reconnect_retry_max st) 0) as [?|_]; [lia|].
  change (reconnect_retry_max (set_reconnect_retries (set_reconnect_retry_cur_msec st (u32 (reconnect_retry_sec st * 1000))) 0))
    with (reconnect_retry_max st).
  by destruct (Z.leb_spec (reconnect_retry_max st) (reconnect_retries
    (set_reconnect_retries (set_reconnect_retry_cur_msec st (u32 (reconnect_retry_sec st * 1000))) 0))) as [?|_]; [cbn in *; lia|].
Qed.

Lemma signal_lost st : streaming st → 0 < reconnect_retry_max st →
  output_step st (EV_SIGNAL_STOP OBS_OUTPUT_DISCONNECTED true) = Some (lost st).
Proof.
  intros [] Hm. cbn [output_step]. rewrite bool_decide_true by done. unfold obs_output_signal_stop, can_reconnect.
  change (reconnect_retry_max (set_stop_code st OBS_OUTPUT_DISCONNECTED)) with (reconnect_retry_max st).
  change (delay_active (set_stop_code st OBS_OUTPUT_DISCONNECTED)) with (delay_active st).
  rewrite (proj2 (Z.eqb_neq (reconnect_retry_max st) 0)) by lia. cbn [negb andb]. rewrite Z.eqb_refl, orb_true_r, m_delay0.
  unfold obs_output_end_data_capture_internal.
  change (active (set_stop_code st OBS_OUTPUT_DISCONNECTED)) with (active st).
  change (data_active (set_stop_code st OBS_OUTPUT_DISCONNECTED)) with (data_active st).
  change (delay_active (set_stop_code st OBS_OUTPUT_DISCONNECTED)) with (delay_active st).
  rewrite m_active0, m_data0, m_delay0. cbn [negb orb andb]. cbv zeta.
  change (ending (set_data_active (set_delay_active (set_stop_code st OBS_OUTPUT_DISCONNECTED) false) false)) with (ending st).
  rewrite m_ending0. by rewrite first_reconnect.
Qed.

(** Without a delay. *)
Lemma end_thread_direct st : active_delay_ns st = 0 →
  end_data_capture_thread st =
    set_ending (set_stopping (set_active (signal (set_hooked st (filter (.≠ CB_DIRECT) (hooked st))) SIG_DEACTIVATE)
      false) false) false.
Proof. intros E. unfold end_data_capture_thread. rewrite E. cbn. by rewrite E. Qed.

(** What is known of a state after the loss. *)
Record after_loss st st1 : Prop := {
  o_ending : ending st1 = true;
  o_delay_ns : active_delay_ns st1 = 0;
  o_waiting : ∀ sg, waiting (set_ending (set_stopping (set_active (set_signals (set_hooked st1
    (filter (.≠ CB_DIRECT) (hooked st1))) sg) false) false) false);
  o_retries : reconnect_retries st1 = 1;
  o_max : reconnect_retry_max st1 = reconnect_retry_max st;
  o_exp : reconnect_retry_exp st1 = reconnect_retry_exp st;
  o_cur : reconnect_retry_cur_msec st1 = u32 (reconnect_retry_sec st * 1000);
  o_calls : calls st1 = calls st;
  o_signals : signals st1 = signals st ++ [SIG_RECONNECT (u32 (reconnect_retry_sec st * 1000) / 1000)]
}.

Lemma lost_after st : streaming st → after_loss st (lost st).
Proof.
  intros []. unfold lost.
  destruct st as [[] [] [] u sg ca gv]. cbn in *. subst. constructor; cbn; done.
Qed.

Lemma end_lost st : streaming st → ∃ st1, output_step (lost st) EV_END_THREAD = Some st1 ∧ waiting st1 ∧
  reconnect_retries st1 = 1 ∧ reconnect_retry_max st1 = reconnect_retry_max st ∧
  reconnect_retry_exp st1 = reconnect_retry_exp st ∧ reconnect_retry_cur_msec st1 = u32 (reconnect_retry_sec st * 1000) ∧
  calls st1 = calls st ∧
  signals st1 = (signals st ++ [SIG_RECONNECT (u32 (reconnect_retry_sec st * 1000) / 1000)]) ++ [SIG_DEACTIVATE].
Proof.
  intros Hs. pose proof (lost_after st Hs) as []. generalize dependent (lost st). intros st1. intros.
  cbn [output_step]. rewrite o_ending0, end_thread_direct by done. eexists. split; [reflexivity|].
  split_and!; [apply o_waiting0|done..|]. cbn. by rewrite o_signals0.
Qed.


(** ** Runs *)

(** [RECONNECT_RETRY_BASE_EXP], 1.5. *)
Definition ex_exp : spec_float := float_div (float_of_int 3) (float_of_int 2).
Definition ex_output (retries sec : Z) : output := obs_output_set_reconnect_settings (obs_output_create ex_exp) retries sec.
Definition ex_pkt (dts : Z) : encoder_packet :=
  mk_packet [dts] dts dts 1 30 OBS_ENCODER_VIDEO true 0 0 0 0 0 0.

(** A stream that is started, captures, and is stopped. *)
Definition ex_start : list output_event := [EV_START 0 true true true true; EV_BEGIN true].
Definition ex_stop : list output_event := [EV_STOP 7; EV_END; EV_END_THREAD].

Lemma output_lifecycle_witness : ∃ st,
  output_run (ex_output 2 1) (ex_start ++ [EV_PACKET (ex_pkt 0) None 1] ++ ex_stop) = Some st ∧
  (data_active st = true → active st = true) ∧
  (ending st = true → active st = true ∧ data_active st = false) ∧
  (delay_active st = true → data_active st = true) ∧
  announced (signals st) = Some (active st) ∧
  (reconnecting st = true → 1 ≤ reconnect_retries st ≤ reconnect_retry_max st) ∧
  0 ≤ delay_restart_refs st.
Proof.
  eexists. split; [vm_compute; reflexivity|].
  eapply (output_lifecycle ex_exp 2 1 (ex_start ++ [EV_PACKET (ex_pkt 0) None 1] ++ ex_stop)). vm_compute. reflexivity.
Defined.

Example session_signals :
  signals <$> output_run (ex_output 2 1) (ex_start ++ ex_stop) =
    Some [SIG_STARTING; SIG_ACTIVATE; SIG_START; SIG_STOPPING; SIG_STOP 0; SIG_DEACTIVATE].
Proof. vm_compute. reflexivity. Qed.


(** ** Where the code does not do what it means to *)

(** The stop signals [reconnect_stop_event] and resets [stopping_event] before it joins the
    thread that reconnects, which is past its wait and waits for [stopping_event]. *)
Example stop_waits_forever : ∃ st,
  output_run (ex_output 2 1) (ex_start ++
    [EV_SIGNAL_STOP OBS_OUTPUT_DISCONNECTED true; EV_END_THREAD; EV_RECONNECT_THREAD true; EV_STOP 9]) = Some st ∧
  stopper st = U_JOIN true 0 true ∧
  (∀ timeout, output_step st (EV_RECONNECT_THREAD timeout) = Some st) ∧ output_step st EV_JOINED = None.
Proof. eexists. split; [vm_compute; reflexivity|]. split; [reflexivity|]. split; [|reflexivity]. by intros timeout. Qed.

(** When [info.start] fails at once and reports nothing, the output goes on reconnecting
    with no thread that would try again. *)
Example failed_restart_stays : ∃ st,
  output_run (ex_output 2 1) (ex_start ++ EV_SIGNAL_STOP OBS_OUTPUT_DISCONNECTED true :: EV_END_THREAD ::
    replicate 3 (EV_RECONNECT_THREAD true)) = Some st ∧
  reconnecting st = true ∧ active st = false ∧ reconnect_retries st = 1 ∧ reconnect_retry_max st = 2 ∧
  ∀ timeout, output_step st (EV_RECONNECT_THREAD timeout) = Some st.
Proof. eexists. split; [vm_compute; reflexivity|]. split_and!; [done..|]. by intros timeout. Qed.
