(* ===== verification/OutputDelay.v ===== *)
(** * The delay line of an output: obs-output-delay.c

    The order in which it gives the packets, and the time they spend in it. *)

From S2P Require Import Prelude Double Encoder Interleave OutputState OutputLifecycle.

Local Open Scope Z_scope.

Implicit Types st : output.

(** ** The delay line *)

(** The packets in the line, with their times. *)
Definition queued_packets (q : list delay_data) : list (encoder_packet * Z) :=
  omap (λ dd, match dd_msg dd with DELAY_MSG_PACKET p _ => Some (p, dd_ts dd) | _ => None end) q.
Definition queued st : list (encoder_packet * Z) := queued_packets (delay_queue st).

(** The packets an event puts into it. *)
Definition pushes st (ev : output_event) : list (encoder_packet * Z) :=
  match ev with
  | EV_PACKET p _ t => omap (λ cb, match cb with CB_DELAY => Some (p, t) | CB_DIRECT => None end) (hooked st)
  | _ => []
  end.
Fixpoint pushed st (evs : list output_event) : list (encoder_packet * Z) :=
  match evs with
  | [] => []
  | ev :: evs => pushes st ev ++ match output_step st ev with Some st => pushed st evs | None => [] end
  end.

(** Nothing is given, and the line loses all its packets or none. *)
Definition holds st st' : Prop := given st' = given st ∧ (queued st' = queued st ∨ queued st' = []).

Lemma holds_refl st : holds st st.
Proof. split; auto. Qed.

Lemma holds_trans st1 st2 st3 : holds st1 st2 → holds st2 st3 → holds st1 st3.
Proof. intros [G1 Q1] [G2 Q2]. split; [congruence|]. destruct Q2 as [->|]; auto. Qed.

Lemma queued_app q l : queued_packets (q ++ l) = queued_packets q ++ queued_packets l.
Proof. unfold queued_packets. apply omap_app. Qed.

(** By cases on the branches of the operation. *)
Ltac by_holds :=
  repeat case_match; cbn; try apply holds_refl; split; cbn;
  unfold queued; cbn; rewrite ?queued_app; cbn; rewrite ?app_nil_r; auto.

Lemma holds_end_thread st : holds st (end_data_capture_thread st).
Proof. unfold end_data_capture_thread, obs_output_cleanup_delay. destruct st as [[] [] [] ? ? ? ?]. cbn. by_holds. Qed.

Lemma holds_end_capture st b : holds st (obs_output_end_data_capture_internal st b).
Proof.
  unfold obs_output_end_data_capture_internal. destruct (_ || _); [by_holds|].
  destruct (delay_active st && _); [by_holds|].
  set (st1 := set_data_active _ false). assert (holds st st1) as H1 by (unfold st1; destruct st as [[] [] [] ? ? ? ?]; cbn; by_holds).
  eapply holds_trans; [exact H1|]. clearbody st1.
  eapply (holds_trans _ (if ending st1 then end_data_capture_thread st1 else st1)).
  - destruct (ending st1); [apply holds_end_thread|apply holds_refl].
  - by_holds.
Qed.

Lemma holds_can_begin st valid : holds st (obs_output_can_begin_data_capture st valid).1.
Proof. unfold obs_output_can_begin_data_capture. repeat case_match; try apply holds_refl. apply holds_end_thread. Qed.

Lemma holds_begin st valid : holds st (obs_output_begin_data_capture st valid).1.
Proof.
  unfold obs_output_begin_data_capture, begin_delayed_capture, hook_data_capture.
  destruct st as [[] [] [] ? ? ? ?]. cbn. by_holds.
Qed.

Lemma holds_actual_start st st' : obs_output_actual_start st = Some st' → holds st st'.
Proof. unfold obs_output_actual_start. destruct (stopping st); [done|]. intros [= <-]. by_holds. Qed.

Lemma holds_delay_start st now valid init : holds st (obs_output_delay_start st now valid init).1.
Proof.
  unfold obs_output_delay_start.
  destruct (if delay_active st then (st, true) else _) as [st1 ok] eqn:E.
  assert (holds st st1) as H1.
  { destruct (delay_active st); [injection E as <- _; apply holds_refl|].
    pose proof (holds_can_begin st valid) as Hc. destruct (obs_output_can_begin_data_capture st valid). by injection E as <- _. }
  destruct (negb ok); [done|]. eapply holds_trans; [exact H1|]. clear E H1.
  set (st2 := set_delay_restart_refs _ _). assert (holds st1 st2) as H2 by by_holds.
  eapply holds_trans; [exact H2|]. clearbody st2.
  destruct (delay_active st2); [by_holds|]. pose proof (holds_begin st2 valid) as Hb.
  destruct (obs_output_begin_data_capture st2 valid) as [st3 []]; [done|].
  eapply holds_trans; [exact Hb|]. split; [done|by right].
Qed.

Lemma holds_start st now sv valid init started r :
  obs_output_start st now sv valid init started = Some r → holds st r.1.
Proof.
  unfold obs_output_start. destruct (negb sv); [intros [= <-]; apply holds_refl|].
  destruct (negb _); [intros [= <-]; apply holds_delay_start|].
  destruct (obs_output_actual_start st) as [st1|] eqn:E; [|done]. apply holds_actual_start in E.
  cbn [mbind option_bind]. destruct started; intros [= <-]; exact E.
Qed.

Lemma holds_after_join st force ts was : holds st (after_join st force ts was).
Proof.
  unfold after_join. set (st1 := if force && delay_active st then _ else st).
  assert (holds st st1) as H1.
  { unfold st1. destruct (force && delay_active st); [|apply holds_refl].
    match goal with |- holds _ (set_stopping (obs_output_end_data_capture ?s) false) => pose proof (holds_end_capture s true) as H end.
    exact H. }
  eapply holds_trans; [exact H1|]. clearbody st1. by_holds.
Qed.

Lemma holds_actual_stop st force ts : holds st (obs_output_actual_stop st force ts).
Proof.
  unfold obs_output_actual_stop. destruct (stopping st && negb force); [apply holds_refl|].
  destruct (reconnecting _); [|apply (holds_after_join (set_stopping st true))].
  case_bool_decide; [apply (holds_after_join (set_reconnect_stop (set_stopping st true) true))|by_holds].
Qed.

Lemma holds_stop st now : holds st (obs_output_stop st now).
Proof.
  unfold obs_output_stop. destruct (_ && _); [apply holds_refl|].
  destruct (reconnecting st).
  { unfold obs_output_force_stop. destruct (stopping st); [apply holds_actual_stop|].
    apply (holds_actual_stop (signal (set_stop_code st 0) SIG_STOPPING)). }
  destruct (negb _); [by_holds|]. destruct (stopping st); [apply holds_refl|].
  apply (holds_actual_stop (signal st SIG_STOPPING)).
Qed.

Lemma holds_reconnect st st' : output_reconnect st = Some st' → holds st st'.
Proof.
  unfold output_reconnect. destruct (_ && _); [intros [= <-]; by_holds|].
  set (st1 := if reconnecting st then st else _). assert (holds st st1) as H1 by (unfold st1; by_holds). clearbody st1.
  intros H. eapply holds_trans; [exact H1|]. clear H1. destruct (_ <=? _).
  - injection H as <-. match goal with |- holds _ (obs_output_end_data_capture ?s) => exact (holds_end_capture s true) end.
  - destruct (reconnecting st1); apply bind_Some in H as (msec & _ & [= <-]); by_holds.
Qed.

Lemma holds_signal_stop st code allowed st' : obs_output_signal_stop st code allowed = Some st' → holds st st'.
Proof.
  unfold obs_output_signal_stop. destruct (can_reconnect _ _ _).
  - intros H. apply holds_reconnect in H. eapply holds_trans; [|exact H].
    match goal with |- holds _ (obs_output_end_data_capture_internal ?s false) => pose proof (holds_end_capture s false) as He end.
    eapply holds_trans; [|exact He]. by_holds.
  - intros [= <-]. match goal with |- holds _ (obs_output_end_data_capture ?s) => exact (holds_end_capture s true) end.
Qed.

Lemma holds_thread st b : holds st (reconnect_thread st b).
Proof.
  unfold reconnect_thread. destruct (rthread st); [apply holds_refl|by_holds| |by_holds].
  destruct (obs_output_actual_start st) as [st1|] eqn:E; [exact (holds_actual_start _ _ E)|apply holds_refl].
Qed.

Definition in_order st (off : list (encoder_packet * Z)) : Prop := (given st).*1 ++ queued st `sublist_of` off.

Lemma in_order_holds st st' off : in_order st off → holds st st' → in_order st' off.
Proof.
  unfold in_order. intros H [-> [->| ->]]; [done|]. etrans; [|exact H]. apply sublist_app; [done|apply sublist_nil_l].
Qed.

Lemma in_order_push st off p pt t : in_order st off →
  in_order (encoder_calls st p pt t) (off ++ pushes st (EV_PACKET p pt t)).
Proof.
  unfold encoder_calls, pushes. generalize (hooked st). intros cbs. revert st off.
  induction cbs as [|cb cbs IH]; intros st off H; [by rewrite app_nil_r|]. cbn [foldl omap list_omap].
  destruct cb; [by apply IH|]. rewrite cons_middle, app_assoc. apply IH. unfold in_order, queued in *. cbn.
  rewrite queued_app, app_assoc. by apply sublist_app.
Qed.

Lemma in_order_pop st off t r : in_order st off → pop_packet st t = Some r → in_order r.1 off.
Proof.
  intros H. unfold pop_packet. destruct (delay_queue st) as [|dd q] eqn:Eq; [by intros [= <-]|].
  destruct (_ && _); [intros [= <-]; exact H|]. destruct (_ <? _); [|by intros [= <-]].
  intros Hb. apply bind_Some in Hb as (st1 & E & [= <-]). cbn [fst].
  assert (in_order (set_delay_queue st q) off ∧ ∀ p pt, dd_msg dd = DELAY_MSG_PACKET p pt →
    in_order (set_given (set_delay_queue st q) (given st ++ [(p, dd_ts dd, t)])) off) as [Hq Hp].
  { unfold in_order, queued in *. rewrite Eq in H. cbn [given set_delay_queue set_dly delay_queue dly set_given].
    split.
    - etrans; [|exact H]. apply sublist_app; [done|]. unfold queued_packets. cbn. case_match; [by apply sublist_cons|done..].
    - intros p pt Em. rewrite fmap_app, <- app_assoc. cbn. unfold queued_packets in *. cbn in H. by rewrite Em in H. }
  unfold process_delay_data in E. destruct (dd_msg dd) as [p pt| |] eqn:Em.
  - injection E as <-. case_match; [done|]. by eapply Hp.
  - apply holds_actual_start in E. by eapply in_order_holds.
  - injection E as <-. eapply in_order_holds; [exact Hq|]. apply holds_actual_stop.
Qed.

Lemma in_order_step st off ev st' : in_order st off → output_step st ev = Some st' →
  in_order st' (off ++ pushes st ev).
Proof.
  intros H. destruct ev; cbn [output_step]; try (rewrite app_nil_r).
  - destruct (obs_output_start _ _ _ _ _ _) as [r|] eqn:E; [|done]. intros [= <-]. apply holds_start in E.
    by eapply in_order_holds.
  - case_bool_decide; [|done]. intros [= <-]. eapply in_order_holds; [exact H|apply holds_stop].
  - case_bool_decide; [|done]. intros [= <-]. eapply in_order_holds; [exact H|].
    unfold obs_output_force_stop. destruct (stopping st); [apply holds_actual_stop|].
    apply (holds_actual_stop (signal (set_stop_code st 0) SIG_STOPPING)).
  - by intros [= <-].
  - intros [= <-]. eapply in_order_holds; [exact H|apply holds_begin].
  - case_bool_decide; [|done]. intros E. apply holds_signal_stop in E. by eapply in_order_holds.
  - intros [= <-]. eapply in_order_holds; [exact H|apply holds_end_capture].
  - intros [= <-]. by apply in_order_push.
  - destruct (pop_packet st t) as [[st1 b]|] eqn:E; [|done]. cbn [mbind option_bind].
    case_bool_decide; [|done]. intros [= <-]. by apply (in_order_pop _ _ _ _ H) in E.
  - destruct (ending st); [|done]. intros [= <-]. eapply in_order_holds; [exact H|apply holds_end_thread].
  - intros [= <-]. eapply in_order_holds; [exact H|apply holds_thread].
  - destruct (stopper st); [done|]. case_bool_decide; [|done]. intros [= <-].
    eapply in_order_holds; [exact H|]. apply (holds_after_join (set_stopper st U_IDLE)).
Qed.

Lemma in_order_run st off evs st' : in_order st off → output_run st evs = Some st' → in_order st' (off ++ pushed st evs).
Proof.
  revert st off. induction evs as [|ev evs IH]; intros st off H; cbn [output_run pushed].
  { intros [= <-]. by rewrite app_nil_r. }
  destruct (output_step st ev) as [st1|] eqn:E; [|done]. cbn [mbind option_bind]. rewrite app_assoc.
  intros Hr. apply (in_order_step _ off) in E; [|done]. by apply IH.
Qed.

(** ** The time in the delay line *)

Definition SEC : Z := 1000000000.

Section delay.
Context (sec : Z).

(** A delay of [sec] that is not preserved through a reconnection. *)
Record delay_ok st : Prop := {
  v_sec : delay_sec st = sec;
  v_flags : Z.land (delay_flags st) OBS_OUTPUT_DELAY_PRESERVE = 0;
  v_cur : Z.land (delay_cur_flags st) OBS_OUTPUT_DELAY_PRESERVE = 0;
  v_hooked : CB_DELAY ∈ hooked st → active_delay_ns st = sec * SEC ∧ active st = true ∧ sec ≠ 0;
  v_queued : queued st ≠ [] → active_delay_ns st = sec * SEC;
  v_given : Forall (λ '(_, ts, t), sec * SEC < u64 (t - ts)) (given st)
}.

Record same_delay st st' : Prop := {
  z_sec : delay_sec st' = delay_sec st;
  z_flags : delay_flags st' = delay_flags st;
  z_cur : delay_cur_flags st' = delay_cur_flags st;
  z_hooked : hooked st' = hooked st;
  z_active : active st' = active st;
  z_ns : active_delay_ns st' = active_delay_ns st;
  z_queued : queued st' = queued st;
  z_given : given st' = given st
}.

Lemma delay_same st st' : delay_ok st → same_delay st st' → delay_ok st'.
Proof.
  intros [] []. constructor; rewrite ?z_sec0, ?z_flags0, ?z_cur0, ?z_hooked0, ?z_active0, ?z_ns0, ?z_queued0, ?z_given0; done.
Qed.

Lemma same_delay_refl st : same_delay st st.
Proof. done. Qed.

Ltac by_same :=
  constructor; repeat case_match; cbn; unfold queued; cbn; rewrite ?queued_app; cbn; rewrite ?app_nil_r; done.

Lemma delay_cleanup st : delay_ok st → active st = false → delay_ok (obs_output_cleanup_delay st).
Proof.
  intros [] Ha. constructor; cbn; try done. intros H. destruct (v_hooked0 H) as (_ & ? & _). congruence.
Qed.

Lemma delay_end_thread st : delay_ok st → delay_ok (end_data_capture_thread st).
Proof.
  intros [Hs Hf Hc Hh Hq Hg]. unfold end_data_capture_thread.
  assert (CB_DELAY ∉ filter (.≠ (if active_delay_ns st =? 0 then CB_DIRECT else CB_DELAY)) (hooked st)) as Hn.
  { rewrite list_elem_of_filter. intros [Hne Hin]. destruct (Hh Hin) as (En & _ & Hz).
    destruct (Z.eqb_spec (active_delay_ns st) 0); [unfold SEC in *; lia|]. by apply Hne. }
  set (h := filter _ _) in *. cbn. destruct (active_delay_ns st =? 0); constructor; cbn; done.
Qed.

Lemma delay_end st b : delay_ok st → delay_ok (obs_output_end_data_capture_internal st b).
Proof.
  intros H. unfold obs_output_end_data_capture_internal. destruct (_ || _); [eapply delay_same; [exact H|by_same]|].
  destruct (delay_active st && _); [eapply delay_same; [exact H|by_same]|].
  set (st1 := set_data_active _ false). assert (delay_ok st1) as H1.
  { eapply delay_same; [exact H|]. unfold st1. by_same. }
  clearbody st1. set (st2 := if ending st1 then _ else st1).
  assert (delay_ok st2) as H2 by (unfold st2; destruct (ending st1); [by apply delay_end_thread|done]).
  clearbody st2. destruct b; (eapply delay_same; [exact H2|by_same]).
Qed.

Lemma delay_can_begin st valid : delay_ok st → delay_ok (obs_output_can_begin_data_capture st valid).1 ∧
  (delay_active st = false → (obs_output_can_begin_data_capture st valid).2 = true →
   active (obs_output_can_begin_data_capture st valid).1 = false).
Proof.
  intros H. unfold obs_output_can_begin_data_capture. destruct (delay_active st); [done|].
  destruct (active st) eqn:Ha; [done|]. destruct (ending st); [|done].
  split; [by apply delay_end_thread|]. done.
Qed.

Lemma delay_begin st valid : delay_ok st → delay_ok (obs_output_begin_data_capture st valid).1 ∧
  ((obs_output_begin_data_capture st valid).2 = false → (obs_output_begin_data_capture st valid).1 = st).
Proof.
  intros H. unfold obs_output_begin_data_capture, begin_delayed_capture.
  destruct (delay_active st) eqn:Hd.
  { destruct (delay_capturing st); [done|]. split; [|done]. eapply delay_same; [exact H|by_same]. }
  destruct (active st) eqn:Ha; [done|]. destruct valid; [|done]. cbn [negb fst snd]. split; [|done].
  set (st1 := set_active _ true). assert (delay_ok st1) as H1.
  { destruct H as [Hs Hf Hc Hh Hq Hg]. unfold st1, hook_data_capture.
    assert (CB_DELAY ∉ hooked st) as Hn by (intros Hin; destruct (Hh Hin) as (_ & ? & _); congruence).
    change (delay_sec (set_data_active st true)) with (delay_sec st). rewrite Hs.
    destruct (Z.eqb_spec sec 0).
    - constructor; cbn; try done. intros Hin. apply elem_of_app in Hin as [?|Hin]; [done|].
      apply list_elem_of_singleton in Hin. done.
    - constructor; cbn; rewrite ?Hs; done. }
  clearbody st1. repeat case_match; (eapply delay_same; [exact H1|by_same]).
Qed.

Lemma delay_actual_start st st' : delay_ok st → obs_output_actual_start st = Some st' → delay_ok st'.
Proof.
  intros H. unfold obs_output_actual_start. destruct (stopping st); [done|]. intros [= <-].
  eapply delay_same; [exact H|by_same].
Qed.

Lemma delay_delay_start st now valid init : delay_ok st → delay_ok (obs_output_delay_start st now valid init).1.
Proof.
  intros H. unfold obs_output_delay_start.
  destruct (if delay_active st then (st, true) else _) as [st1 ok] eqn:E.
  assert (delay_ok st1 ∧ (delay_active st1 = false → ok = true → active st1 = false)) as [H1 Ha].
  { destruct (delay_active st) eqn:Ed; [injection E as <- <-; split; [done|congruence]|].
    destruct (delay_can_begin st valid H) as [Hc Hb].
    destruct (obs_output_can_begin_data_capture st valid) as [st2 b]. injection E as <- <-. split; [done|].
    intros _ [Hv _]%andb_prop. by apply Hb. }
  destruct ok; cbn [negb]; [|done].
  set (st2 := set_delay_restart_refs _ _).
  assert (delay_ok st2) as H2 by (eapply delay_same; [exact H1|by_same]).
  change (delay_active st2) with (delay_active st1). destruct (delay_active st1) eqn:Ed.
  { eapply delay_same; [exact H2|by_same]. }
  destruct (delay_begin st2 valid H2) as [Hb Hs].
  destruct (obs_output_begin_data_capture st2 valid) as [st3 []]; [done|]. cbn [fst snd] in *.
  apply delay_cleanup; [done|]. rewrite (Hs eq_refl). by apply Ha.
Qed.

Lemma delay_start st now sv valid init started r : delay_ok st →
  obs_output_start st now sv valid init started = Some r → delay_ok r.1.
Proof.
  intros H. unfold obs_output_start. destruct (negb sv); [by intros [= <-]|].
  destruct (negb _); [intros [= <-]; by apply delay_delay_start|].
  destruct (obs_output_actual_start st) as [st1|] eqn:E; [|done]. apply delay_actual_start in E; [|done].
  cbn [mbind option_bind]. destruct started; intros [= <-]; [|done]. eapply delay_same; [exact E|by_same].
Qed.

Lemma delay_after_join st force ts was : delay_ok st → delay_ok (after_join st force ts was).
Proof.
  intros H. unfold after_join. set (st1 := if force && delay_active st then _ else st).
  assert (delay_ok st1) as H1.
  { unfold st1. destruct (force && delay_active st); [|done].
    match goal with |- delay_ok (set_stopping (obs_output_end_data_capture ?s) false) => set (st2 := s) end.
    assert (delay_ok st2) as H2 by (eapply delay_same; [exact H|unfold st2; by_same]).
    pose proof (delay_end st2 true H2) as H3. eapply delay_same; [exact H3|by_same]. }
  clearbody st1. repeat case_match; try done; (eapply delay_same; [exact H1|by_same]).
Qed.

Lemma delay_actual_stop st force ts : delay_ok st → delay_ok (obs_output_actual_stop st force ts).
Proof.
  intros H. unfold obs_output_actual_stop. destruct (stopping st && negb force); [done|].
  destruct (reconnecting _); [case_bool_decide; [apply delay_after_join|]|apply delay_after_join];
    (eapply delay_same; [exact H|by_same]).
Qed.

Lemma delay_force_stop st : delay_ok st → delay_ok (obs_output_force_stop st).
Proof.
  intros H. unfold obs_output_force_stop. apply delay_actual_stop. destruct (stopping st); [done|].
  eapply delay_same; [exact H|by_same].
Qed.

Lemma delay_stop st now : delay_ok st → delay_ok (obs_output_stop st now).
Proof.
  intros H. unfold obs_output_stop. destruct (_ && _); [done|]. destruct (reconnecting st); [by apply delay_force_stop|].
  destruct (negb _); [eapply delay_same; [exact H|by_same]|]. destruct (stopping st); [done|].
  apply delay_actual_stop. eapply delay_same; [exact H|by_same].
Qed.

Lemma delay_signal_stop st code allowed st' : delay_ok st → obs_output_signal_stop st code allowed = Some st' → delay_ok st'.
Proof.
  intros H. unfold obs_output_signal_stop. destruct (can_reconnect _ _ _).
  2:{ intros [= <-]. apply delay_end. eapply delay_same; [exact H|by_same]. }
  match goal with |- output_reconnect (obs_output_end_data_capture_internal ?s false) = _ → _ => set (st1 := s) end.
  assert (delay_ok st1) as H1 by (eapply delay_same; [exact H|unfold st1; by_same]).
  apply (delay_end _ false) in H1. revert H1. generalize (obs_output_end_data_capture_internal st1 false).
  clear. intros st H. unfold output_reconnect. destruct (_ && _); [intros [= <-]; eapply delay_same; [exact H|by_same]|].
  set (st1 := if reconnecting st then st else _). assert (delay_ok st1) as H1 by (eapply delay_same; [exact H|unfold st1; by_same]).
  clearbody st1. clear H. destruct (_ <=? _).
  - intros [= <-]. apply delay_end. eapply delay_same; [exact H1|by_same].
  - destruct (reconnecting st1); intros E; apply bind_Some in E as (msec & _ & [= <-]); (eapply delay_same; [exact H1|by_same]).
Qed.

Lemma delay_pop st t r : delay_ok st → pop_packet st t = Some r → delay_ok r.1.
Proof.
  intros H. pose proof H as [Hs Hf Hc Hh Hq Hg]. unfold pop_packet.
  destruct (delay_queue st) as [|dd q] eqn:Eq; [by intros [= <-]|]. rewrite Hc. cbn [negb Z.eqb andb].
  destruct (Z.ltb_spec (active_delay_ns st) (u64 (t - dd_ts dd))) as [Hlt|]; [|by intros [= <-]].
  intros Hb. apply bind_Some in Hb as (st1 & E & [= <-]). cbn [fst].
  unfold queued in Hq. rewrite Eq in Hq.
  assert (delay_ok (set_delay_queue st q)) as H1.
  { constructor; try done. unfold queued. cbn. intros Hne. apply Hq. unfold queued_packets. cbn. by case_match. }
  unfold process_delay_data in E. destruct (dd_msg dd) as [p pt| |] eqn:Em.
  - injection E as <-. case_match; [done|]. destruct H1. constructor; try done. cbn. apply Forall_app. split; [done|].
    constructor; [|constructor]. rewrite <- Hq; [done|]. unfold queued_packets. cbn. by rewrite Em.
  - by eapply delay_actual_start.
  - injection E as <-. by apply delay_actual_stop.
Qed.

Lemma delay_packet st p pt t : delay_ok st → delay_ok (encoder_calls st p pt t).
Proof.
  intros H. unfold encoder_calls. assert (∀ cb, cb ∈ hooked st → cb ∈ hooked st) as Hin by done. revert Hin.
  generalize (hooked st) at 1 3. intros cbs. revert st H. induction cbs as [|cb cbs IH]; intros st H Hin; [done|].
  cbn [foldl]. assert (CB_DELAY ∈ cb :: cbs → CB_DELAY ∈ hooked st) as _ by auto.
  destruct cb; [apply IH; [done|intros cb ?; apply Hin; by constructor]|].
  apply IH; [|intros cb ?; apply Hin; by constructor].
  destruct H as [Hs Hf Hc Hh Hq Hg]. constructor; try done. intros _. apply Hh, Hin. constructor.
Qed.

Definition keeps_delay (ev : output_event) : Prop := match ev with EV_SET_DELAY _ _ => False | _ => True end.

Lemma delay_step st ev st' : delay_ok st → keeps_delay ev → output_step st ev = Some st' → delay_ok st'.
Proof.
  intros H Hk. destruct ev; cbn [output_step].
  - destruct (obs_output_start _ _ _ _ _ _) as [r|] eqn:E; [|done]. intros [= <-]. by eapply delay_start.
  - case_bool_decide; [|done]. intros [= <-]. by apply delay_stop.
  - case_bool_decide; [|done]. intros [= <-]. by apply delay_force_stop.
  - done.
  - intros [= <-]. by apply delay_begin.
  - case_bool_decide; [|done]. by apply delay_signal_stop.
  - intros [= <-]. by apply delay_end.
  - intros [= <-]. by apply delay_packet.
  - destruct (pop_packet st t) as [[st1 b]|] eqn:E; [|done]. cbn [mbind option_bind].
    case_bool_decide; [|done]. intros [= <-]. by apply (delay_pop _ _ _ H) in E.
  - destruct (ending st); [|done]. intros [= <-]. by apply delay_end_thread.
  - intros [= <-]. unfold reconnect_thread. destruct (rthread st); [done|..].
    + repeat case_match; try done; (eapply delay_same; [exact H|by_same]).
    + case_match eqn:E; [|done]. apply delay_actual_start in E; [|done]. eapply delay_same; [exact E|by_same].
    + case_match; (eapply delay_same; [exact H|by_same]).
  - destruct (stopper st); [done|]. case_bool_decide; [|done]. intros [= <-]. apply delay_after_join.
    eapply delay_same; [exact H|by_same].
Qed.

Lemma delay_run st evs st' : delay_ok st → Forall keeps_delay evs → output_run st evs = Some st' → delay_ok st'.
Proof.
  revert st. induction evs as [|ev evs IH]; intros st H Hk; cbn [output_run]; [by intros [= <-]|].
  apply Forall_cons in Hk as [Hk Hks]. destruct (output_step st ev) as [st1|] eqn:E; [|done].
  apply delay_step in E; [|done..]. by apply IH.
Qed.
End delay.

(** C9: Whatever happens, the packets given to the output after the delay and those still
    waiting are packets the encoders gave, in the order they gave them, each at most once;
    and as long as the delay is not changed, and is not preserved through a reconnection, a
    packet is given only when more than the delay has passed since the encoder gave it. *)
Theorem delay_in_order exp retries sec delay flags evs st :
  let st0 := obs_output_set_delay (obs_output_set_reconnect_settings (obs_output_create exp) retries sec) delay flags in
  output_run st0 evs = Some st →
  (given st).*1 ++ queued st `sublist_of` pushed st0 evs ∧
  (Forall keeps_delay evs → Z.land (u32 flags) OBS_OUTPUT_DELAY_PRESERVE = 0 →
   Forall (λ '(_, ts, t), u32 delay * SEC < u64 (t - ts)) (given st)).
Proof.
  intros st0 Hr. split.
  - assert (in_order st0 []) as H by constructor. exact (in_order_run _ _ _ _ H Hr).
  - intros Hk Hf. assert (delay_ok (u32 delay) st0) as H.
    { constructor; try done. cbn. intros Hin. by apply elem_of_nil in Hin. }
    by destruct (delay_run _ _ _ _ H Hk Hr).
Qed.

(** ** Runs *)

(** A delay of two seconds: the start is put into the line, the implementation is started
    when it leaves it, and begins its capture; a packet follows two seconds after it. *)
Definition ex_delayed : list output_event :=
  [EV_START 0 true true true true; EV_PACKET (ex_pkt 0) None SEC; EV_POP SEC;
   EV_PACKET (ex_pkt 1) None (3 * SEC); EV_POP (3 * SEC); EV_BEGIN true; EV_POP (3 * SEC);
   EV_PACKET (ex_pkt 2) None (4 * SEC); EV_POP (4 * SEC)].

Lemma delay_in_order_witness :
  let st0 := obs_output_set_delay (ex_output 2 1) 2 0 in ∃ st,
  output_run st0 (ex_delayed) = Some st ∧ (given st).*1 = [(ex_pkt 0, SEC)] ∧
  (given st).*1 ++ queued st `sublist_of` pushed st0 (ex_delayed) ∧
  (Forall keeps_delay (ex_delayed) → Z.land (u32 0) OBS_OUTPUT_DELAY_PRESERVE = 0 →
   Forall (λ '(_, ts, t), u32 2 * SEC < u64 (t - ts)) (given st)).
Proof.
  intros st0. set (st := default st0 (output_run st0 (ex_delayed))). exists st.
  split; [vm_compute; reflexivity|]. split; [vm_compute; reflexivity|].
  apply (delay_in_order ex_exp 2 1 2 0 (ex_delayed)). vm_compute. reflexivity.
Defined.

(** ** Where the code does not do what it means to *)

(** A delayed output that stops with an error leaves [delay_capturing] set: in the next
    session the implementation cannot begin its capture and no start is announced. *)
Definition ex_error : list output_event := [EV_SIGNAL_STOP (-1) true; EV_END_THREAD].
Example delay_capturing_left : ∃ st,
  output_run (obs_output_set_delay (ex_output 2 1) 2 0) (ex_delayed ++ ex_error) = Some st ∧
  at_rest st ∧ delay_capturing st = true ∧
  (∃ st1, output_run st [EV_START 0 true true true true; EV_PACKET (ex_pkt 5) None (3 * SEC); EV_POP (3 * SEC)] = Some st1 ∧
    calls st1 = calls st ++ [CALL_START] ∧ (obs_output_begin_data_capture st1 true).2 = false) ∧
  signals <$> output_run st (ex_delayed) = Some (signals st ++ [SIG_ACTIVATE; SIG_STARTING]).
Proof.
  eexists. split; [vm_compute; reflexivity|]. split; [by split_and!|]. split; [reflexivity|].
  split; [|vm_compute; reflexivity]. eexists. split; [vm_compute; reflexivity|]. by split.
Qed.

(** A delay set between the start and the capture: the capture goes through a delay line
    that holds no start, and nothing is ever given. *)
Example delay_set_late : ∃ st,
  output_run (ex_output 2 1) [EV_START 0 true true true true; EV_SET_DELAY 2 0; EV_BEGIN true;
    EV_PACKET (ex_pkt 0) None SEC; EV_PACKET (ex_pkt 1) None (9 * SEC); EV_POP (9 * SEC)] = Some st ∧
  active st = true ∧ given st = [] ∧ queued st = [(ex_pkt 1, 9 * SEC)] ∧ delay_capturing st = false.
Proof. eexists. split; [vm_compute; reflexivity|]. by split_and!. Qed.
