(* ===== verification/Flv.v ===== *)
(** * FLV tags: plugins/obs-outputs/flv-mux.c and flv-mux.h

    The tags of the FLV file and of RTMP messages, and the metadata object with its AMF0
    encoding (librtmp/amf.c through rtmp-helpers.h). A failed [assert], a null pointer
    used and a write outside a buffer are [None]. HEVC is enabled. *)

From S2P Require Import Prelude Util Serializer Double Encoder Interleave.

Local Open Scope Z_scope.
Local Open Scope serializer_scope.

(** ** flv-mux.h *)

Inductive audio_id_t := AUDIO_CODEC_NONE | AUDIO_CODEC_AAC.
Inductive video_id_t := CODEC_NONE | CODEC_H264 | CODEC_AV1 | CODEC_HEVC.

#[export] Instance audio_id_eq_dec : EqDecision audio_id_t.
Proof. solve_decision. Defined.
#[export] Instance video_id_eq_dec : EqDecision video_id_t.
Proof. solve_decision. Defined.

Definition to_audio_type (codec : string) : audio_id_t :=
  if String.eqb codec "aac" then AUDIO_CODEC_AAC else AUDIO_CODEC_NONE.

Definition to_video_type (codec : string) : video_id_t :=
  if String.eqb codec "h264" then CODEC_H264
  else if String.eqb codec "av1" then CODEC_AV1
  else if String.eqb codec "hevc" then CODEC_HEVC
  else CODEC_NONE.

(** Undefined for a zero time base. *)
Definition get_ms_time (packet : encoder_packet) (val : Z) : option Z :=
  if pkt_timebase_den packet =? 0 then None
  else Some (i32 (i64 (val * 1000) /c pkt_timebase_den packet)).

(** ** Constants *)

Definition RTMP_PACKET_TYPE_AUDIO : Z := 8.
Definition RTMP_PACKET_TYPE_VIDEO : Z := 9.
Definition RTMP_PACKET_TYPE_INFO : Z := 18.

Definition FT_KEY : Z := Z.shiftl 1 4.
Definition FT_INTER : Z := Z.shiftl 2 4.
Definition AUDIO_HEADER_EX : Z := Z.shiftl 9 4.
Definition AUDIO_PACKETTYPE_SEQ_START : Z := 0.
Definition AUDIO_PACKETTYPE_FRAMES : Z := 1.
Definition AUDIO_PACKETTYPE_MULTITRACK : Z := 5.
Definition FRAME_HEADER_EX : Z := Z.shiftl 8 4.
Definition PACKETTYPE_SEQ_START : Z := 0.
Definition PACKETTYPE_FRAMES : Z := 1.
Definition PACKETTYPE_SEQ_END : Z := 2.
Definition PACKETTYPE_FRAMESX : Z := 3.
Definition PACKETTYPE_METADATA : Z := 4.
Definition PACKETTYPE_MULTITRACK : Z := 6.
Definition MULTITRACKTYPE_ONE_TRACK : Z := 0.
Definition DATA_TYPE_NUMBER : Z := 0.
Definition DATA_TYPE_STRING : Z := 2.
Definition DATA_TYPE_OBJECT : Z := 3.
Definition DATA_TYPE_OBJECT_END : Z := 9.

(** ** Writers *)

Section writers.
Context {S : Type} `{SerializerOps S}.

Definition c_assert (b : bool) : W S unit := deref (if b then Some tt else None).

Definition s_wbd (d : double) : W S unit := s_wb64 (double_to_bits d).

Definition s_wa4cc (id : audio_id_t) : W S unit :=
  match id with
  | AUDIO_CODEC_NONE => c_assert false
  | AUDIO_CODEC_AAC => s_w8 109 ;;; s_w8 112 ;;; s_w8 52 ;;; s_w8 97
  end.

Definition s_w4cc (id : video_id_t) : W S unit :=
  match id with
  | CODEC_NONE => c_assert false
  | CODEC_AV1 => s_w8 97 ;;; s_w8 118 ;;; s_w8 48 ;;; s_w8 49
  | CODEC_HEVC => s_w8 104 ;;; s_w8 118 ;;; s_w8 99 ;;; s_w8 49
  | CODEC_H264 => s_w8 97 ;;; s_w8 118 ;;; s_w8 99 ;;; s_w8 49
  end.

Definition s_wstring (s : bytes) : W S unit := s_wb16 (zlen s) ;;; s_put s.

Definition s_wtimestamp (t : Z) : W S unit :=
  s_wb24 (Z.land t 16777215) ;;;
  s_w8 (Z.land (u32 (Z.shiftr t 24)) 127).

Definition write_previous_tag_size_without_header (header_size : Z) : W S unit :=
  pos <- serializer_get_pos ;;
  c_assert (header_size <=? pos) ;;;
  c_assert (11 <=? pos) ;;;
  s_wb32 (u32 (u32 pos - header_size)).

Definition write_previous_tag_size : W S unit := write_previous_tag_size_without_header 0.

Definition flv_video (dts_offset : Z) (packet : encoder_packet) (is_header : bool) : W S unit :=
  pts_ms <- deref (get_ms_time packet (pkt_pts packet)) ;;
  dts_ms <- deref (get_ms_time packet (pkt_dts packet)) ;;
  let ct_offset_ms := i32 (pts_ms - dts_ms) in
  let time_ms := i32 (dts_ms - dts_offset) in
  when (negb (pkt_size packet =? 0)) do (
    s_w8 RTMP_PACKET_TYPE_VIDEO ;;;
    s_wb24 (u32 (u32 (pkt_size packet) + 5)) ;;;
    s_wb24 time_ms ;;;
    s_w8 (Z.land (Z.shiftr time_ms 24) 127) ;;;
    s_wb24 0 ;;;
    s_w8 (if pkt_keyframe packet then 23 else 39) ;;;
    s_w8 (if is_header then 0 else 1) ;;;
    s_wb24 ct_offset_ms ;;;
    s_put (pkt_data packet) ;;;
    write_previous_tag_size).

Definition flv_audio (dts_offset : Z) (packet : encoder_packet) (is_header : bool) : W S unit :=
  dts_ms <- deref (get_ms_time packet (pkt_dts packet)) ;;
  let time_ms := i32 (dts_ms - dts_offset) in
  when (negb (pkt_size packet =? 0)) do (
    s_w8 RTMP_PACKET_TYPE_AUDIO ;;;
    s_wb24 (u32 (u32 (pkt_size packet) + 2)) ;;;
    s_wb24 time_ms ;;;
    s_w8 (Z.land (Z.shiftr time_ms 24) 127) ;;;
    s_wb24 0 ;;;
    s_w8 175 ;;;
    s_w8 (if is_header then 0 else 1) ;;;
    s_put (pkt_data packet) ;;;
    write_previous_tag_size).

(** The tag [flv_packet_audio_ex] writes for a packet with data. *)
Definition write_audio_ex (packet : encoder_packet) (codec_id : audio_id_t) (time_ms type idx : Z) : W S unit :=
  let is_multitrack := 0 <? idx in
  let header_metadata_size := 5 + (if is_multitrack then 2 else 0) in
  s_w8 RTMP_PACKET_TYPE_AUDIO ;;;
  s_wb24 (u32 (u32 (pkt_size packet) + header_metadata_size)) ;;;
  s_wb24 time_ms ;;;
  s_w8 (Z.land (Z.shiftr time_ms 24) 127) ;;;
  s_wb24 0 ;;;
  s_w8 (Z.lor AUDIO_HEADER_EX (if is_multitrack then AUDIO_PACKETTYPE_MULTITRACK else type)) ;;;
  (if is_multitrack then
     s_w8 (Z.lor MULTITRACKTYPE_ONE_TRACK type) ;;; s_wa4cc codec_id ;;; s_w8 idx
   else s_wa4cc codec_id) ;;;
  s_put (pkt_data packet) ;;;
  write_previous_tag_size.

(** The length of the tag's header after its first byte. *)
Definition has_composition_time (codec_id : video_id_t) (type : Z) : bool :=
  match codec_id with CODEC_H264 | CODEC_HEVC => type =? PACKETTYPE_FRAMES | _ => false end.

(** [size] is [packet->size]: with a null [data], nothing is written for it. *)
Definition write_video_ex (packet : encoder_packet) (size : Z) (codec_id : video_id_t) (dts_offset type idx : Z) :
    W S unit :=
  dts_ms <- deref (get_ms_time packet (pkt_dts packet)) ;;
  let time_ms := i32 (dts_ms - dts_offset) in
  let is_multitrack := 0 <? idx in
  let header_metadata_size :=
    5 + (if has_composition_time codec_id type then 3 else 0) + (if is_multitrack then 2 else 0) in
  s_w8 RTMP_PACKET_TYPE_VIDEO ;;;
  s_wb24 (u32 (u32 size + header_metadata_size)) ;;;
  s_wtimestamp time_ms ;;;
  s_wb24 0 ;;;
  let frame_type := if pkt_keyframe packet then FT_KEY else FT_INTER in
  (if is_multitrack then
     s_w8 (Z.lor (Z.lor FRAME_HEADER_EX PACKETTYPE_MULTITRACK) frame_type) ;;;
     s_w8 (Z.lor MULTITRACKTYPE_ONE_TRACK type) ;;;
     s_w4cc codec_id ;;;
     s_w8 idx
   else
     s_w8 (Z.lor (Z.lor FRAME_HEADER_EX type) frame_type) ;;;
     s_w4cc codec_id) ;;;
  (when (has_composition_time codec_id type) do (
     pts_ms <- deref (get_ms_time packet (pkt_pts packet)) ;;
     s_wb24 (i32 (pts_ms - dts_ms)))) ;;;
  s_put (pkt_data packet) ;;;
  write_previous_tag_size.
End writers.

(** ** Packets *)

(** What a writer leaves in a fresh array. *)
Definition in_array (m : W array_output_data unit) : option bytes :=
  '(_, s) ← m array_output_serializer_init; Some (ao_bytes s).

Definition flv_packet_mux (packet : encoder_packet) (dts_offset : Z) (is_header : bool) : option bytes :=
  in_array (match pkt_type packet with
            | OBS_ENCODER_VIDEO => flv_video dts_offset packet is_header
            | OBS_ENCODER_AUDIO => flv_audio dts_offset packet is_header
            end).

(** [Some None] when [output] and [size] are not assigned. *)
Definition flv_packet_audio_ex (packet : encoder_packet) (codec_id : audio_id_t) (dts_offset type idx : Z) :
    option (option bytes) :=
  match pkt_type packet with
  | OBS_ENCODER_VIDEO => None
  | OBS_ENCODER_AUDIO =>
      dts_ms ← get_ms_time packet (pkt_dts packet);
      let time_ms := i32 (dts_ms - dts_offset) in
      if pkt_size packet =? 0 then Some None else
      Some <$> in_array (write_audio_ex packet codec_id time_ms type idx)
  end.

(** A packet whose [size] may not be that of its data. *)
Definition flv_packet_ex (packet : encoder_packet) (size : Z) (codec_id : video_id_t) (dts_offset type idx : Z) :
    option bytes :=
  match pkt_type packet with
  | OBS_ENCODER_AUDIO => None
  | OBS_ENCODER_VIDEO => in_array (write_video_ex packet size codec_id dts_offset type idx)
  end.

Definition flv_packet_start (packet : encoder_packet) (size : Z) (codec : video_id_t) (idx : Z) : option bytes :=
  flv_packet_ex packet size codec 0 PACKETTYPE_SEQ_START idx.

Definition flv_packet_frames (packet : encoder_packet) (codec : video_id_t) (dts_offset idx : Z) : option bytes :=
  let packet_type :=
    match codec with
    | CODEC_H264 | CODEC_HEVC =>
        if pkt_dts packet =? pkt_pts packet then PACKETTYPE_FRAMESX else PACKETTYPE_FRAMES
    | _ => PACKETTYPE_FRAMES
    end in
  flv_packet_ex packet (pkt_size packet) codec dts_offset packet_type idx.

Definition flv_packet_end (packet : encoder_packet) (codec : video_id_t) (idx : Z) : option bytes :=
  flv_packet_ex packet (pkt_size packet) codec 0 PACKETTYPE_SEQ_END idx.

Definition flv_packet_audio_start (packet : encoder_packet) (codec : audio_id_t) (idx : Z) : option (option bytes) :=
  flv_packet_audio_ex packet codec 0 AUDIO_PACKETTYPE_SEQ_START idx.

Definition flv_packet_audio_frames (packet : encoder_packet) (codec : audio_id_t) (dts_offset idx : Z) :
    option (option bytes) :=
  flv_packet_audio_ex packet codec dts_offset AUDIO_PACKETTYPE_FRAMES idx.

(** ** HDR metadata *)

Section metadata.
Context {S : Type} `{SerializerOps S}.

Definition number_property (name : string) (v : Z) : W S unit :=
  s_wstring (str name) ;;; s_w8 DATA_TYPE_NUMBER ;;; s_wbd (double_of_int v).

Definition object_end : W S unit := s_w8 0 ;;; s_w8 0 ;;; s_w8 DATA_TYPE_OBJECT_END.

(** The [colorInfo] object. *)
Definition write_color_info (bits_per_raw_sample color_primaries color_trc color_space min_luminance
    max_luminance : Z) : W S unit :=
  s_w8 DATA_TYPE_STRING ;;;
  s_wstring (str "colorInfo") ;;;
  s_w8 DATA_TYPE_OBJECT ;;;
  s_wstring (str "colorConfig") ;;;
  s_w8 DATA_TYPE_OBJECT ;;;
  number_property "bitDepth" bits_per_raw_sample ;;;
  number_property "colorPrimaries" color_primaries ;;;
  number_property "transferCharacteristics" color_trc ;;;
  number_property "matrixCoefficients" color_space ;;;
  object_end ;;;
  (when (negb (max_luminance =? 0)) do (
     s_wstring (str "hdrMdcv") ;;;
     s_w8 DATA_TYPE_OBJECT ;;;
     number_property "maxLuminance" max_luminance ;;;
     number_property "minLuminance" min_luminance ;;;
     object_end)) ;;;
  object_end.

Definition write_metadata (codec_id : video_id_t) (metadata : bytes) (idx : Z) : W S unit :=
  let is_multitrack := 0 <? idx in
  let header_metadata_size := 5 + (if is_multitrack then 2 else 0) in
  s_w8 RTMP_PACKET_TYPE_VIDEO ;;;
  s_wb24 (u32 (u32 (zlen metadata) + header_metadata_size)) ;;;
  s_wtimestamp 0 ;;;
  s_wb24 0 ;;;
  s_w8 (Z.lor FRAME_HEADER_EX (if is_multitrack then PACKETTYPE_MULTITRACK else PACKETTYPE_METADATA)) ;;;
  (if is_multitrack then
     s_w8 (Z.lor MULTITRACKTYPE_ONE_TRACK PACKETTYPE_METADATA) ;;; s_w4cc codec_id ;;; s_w8 idx
   else s_w4cc codec_id) ;;;
  s_put metadata ;;;
  write_previous_tag_size.
End metadata.

Definition flv_packet_metadata (codec_id : video_id_t) (bits_per_raw_sample color_primaries color_trc color_space
    min_luminance max_luminance idx : Z) : option bytes :=
  metadata ← in_array (write_color_info bits_per_raw_sample (u8 color_primaries) color_trc color_space
                         min_luminance max_luminance);
  in_array (write_metadata codec_id metadata idx).

(** ** AMF0 (librtmp/amf.c) *)

Definition AMF_NUMBER : Z := 0.
Definition AMF_BOOLEAN : Z := 1.
Definition AMF_STRING : Z := 2.
Definition AMF_ECMA_ARRAY : Z := 8.
Definition AMF_OBJECT_END : Z := 9.
Definition AMF_LONG_STRING : Z := 12.

Section amf.
(** [output] is what the buffer of [cap] bytes holds so far; a null result, which every
    caller goes on to write through, is [None]. *)
Context (cap : Z).
Implicit Types output : bytes.

Definition amf_byte output (b : Z) : option bytes :=
  if zlen output <? cap then Some (output ++ [b]) else None.

Definition AMF_EncodeInt16 output (nVal : Z) : option bytes :=
  if cap <? zlen output + 2 then None else Some (output ++ be16 nVal).

Definition AMF_EncodeInt32 output (nVal : Z) : option bytes :=
  if cap <? zlen output + 4 then None else Some (output ++ be32 nVal).

Definition AMF_EncodeString output (bv : bytes) : option bytes :=
  let av_len := zlen bv in
  if ((av_len <? 65536) && (cap <? zlen output + 1 + 2 + av_len)) || (cap <? zlen output + 1 + 4 + av_len)
  then None else
  output ← (if av_len <? 65536 then AMF_EncodeInt16 (output ++ [AMF_STRING]) av_len
            else AMF_EncodeInt32 (output ++ [AMF_LONG_STRING]) av_len);
  Some (output ++ bv).

Definition AMF_EncodeNumber output (dVal : double) : option bytes :=
  if cap <? zlen output + 1 + 8 then None else Some (output ++ AMF_NUMBER :: be64 (double_to_bits dVal)).

Definition AMF_EncodeBoolean output (bVal : bool) : option bytes :=
  if cap <? zlen output + 2 then None else Some (output ++ [AMF_BOOLEAN; if bVal then 1 else 0]).

(** The name of a property, which the three named encoders begin with. *)
Definition amf_name output (strName : bytes) : option bytes :=
  if cap <? zlen output + 2 + zlen strName then None else
  output ← AMF_EncodeInt16 output (zlen strName);
  Some (output ++ strName).

Definition AMF_EncodeNamedString output (strName strValue : bytes) : option bytes :=
  output ← amf_name output strName; AMF_EncodeString output strValue.

Definition AMF_EncodeNamedNumber output (strName : bytes) (dVal : double) : option bytes :=
  output ← amf_name output strName; AMF_EncodeNumber output dVal.

Definition AMF_EncodeNamedBoolean output (strName : bytes) (bVal : bool) : option bytes :=
  output ← amf_name output strName; AMF_EncodeBoolean output bVal.

Definition enc_num_val output (name : string) (val : double) := AMF_EncodeNamedNumber output (str name) val.
Definition enc_bool_val output (name : string) (val : bool) := AMF_EncodeNamedBoolean output (str name) val.
Definition enc_str_val output (name : string) (val : bytes) := AMF_EncodeNamedString output (str name) val.
Definition enc_str output (s : string) := AMF_EncodeString output (str s).
End amf.

(** ** The metadata of the stream *)

(** The item is an integer in the settings of every encoder. *)
Definition encoder_bitrate (e : option obs_encoder) : double :=
  double_of_int (match obs_encoder_get_settings e with Some s => set_bitrate s | None => 0 end).

Definition encoder_video_codec (e : option obs_encoder) : option double :=
  codec ← obs_encoder_get_codec e;
  Some (double_of_int (if String.eqb codec "h264" then 7
                       else if String.eqb codec "av1" then 1635135537
                       else if String.eqb codec "hevc" then 1752589105
                       else 0)).

Definition video_output_get_frame_rate (video : option video_t) : double :=
  match video with
  | None => double_of_int 0
  | Some v => double_div (double_of_int (fps_num v)) (double_of_int (fps_den v))
  end.

(** [audio_output_get_channels] of a pointer that may be null. *)
Definition audio_channels (audio : option audio_t) : Z :=
  match audio with Some a => audio_output_get_channels a | None => 0 end.

(** [enc += f(enc)] over the fields of the object. *)
Definition encode_all (fields : list (bytes → option bytes)) (enc : bytes) : option bytes :=
  foldl (λ r f, r ≫= f) (Some enc) fields.

Definition FLV_INFO_SIZE_OFFSET : Z := 58.

(** [obs_version] is [obs_get_version_string()], which the build generates. *)
Definition build_flv_meta_data (obs_version : bytes) (vencoder aencoder : option obs_encoder) : option bytes :=
  let video := obs_encoder_video vencoder in
  let audio := obs_encoder_audio aencoder in
  let cap := 4096 in
  let num name v := λ enc, enc_num_val cap enc name v in
  let int name v := num name (double_of_int v) in
  let bool name v := λ enc, enc_bool_val cap enc name v in
  let channels := audio_channels audio in
  videocodecid ← encoder_video_codec vencoder;
  encode_all
    [(λ enc, enc_str cap enc "@setDataFrame");
     (λ enc, enc_str cap enc "onMetaData");
     (λ enc, amf_byte cap enc AMF_ECMA_ARRAY);
     (λ enc, AMF_EncodeInt32 cap enc 20);
     int "duration" 0;
     int "fileSize" 0;
     int "width" (obs_encoder_get_width vencoder);
     int "height" (obs_encoder_get_height vencoder);
     num "videocodecid" videocodecid;
     num "videodatarate" (encoder_bitrate vencoder);
     num "framerate" (video_output_get_frame_rate video);
     int "audiocodecid" 10;
     num "audiodatarate" (encoder_bitrate aencoder);
     int "audiosamplerate" (obs_encoder_get_sample_rate aencoder);
     int "audiosamplesize" 16;
     int "audiochannels" channels;
     bool "stereo" (channels =? 2);
     bool "2.1" (channels =? 3);
     bool "3.1" (channels =? 4);
     bool "4.0" (channels =? 4);
     bool "4.1" (channels =? 5);
     bool "5.1" (channels =? 6);
     bool "7.1" (channels =? 8);
     (λ enc, enc_str_val cap enc "encoder"
               (str "obs-output module" ++ str " (libobs version " ++ obs_version ++ str ")"));
     (λ enc, amf_byte cap enc 0);
     (λ enc, amf_byte cap enc 0);
     (λ enc, amf_byte cap enc AMF_OBJECT_END)] [].

Definition flv_meta_data (obs_version : bytes) (vencoder aencoder : option obs_encoder) (write_header : bool) :
    option bytes :=
  meta_data ← build_flv_meta_data obs_version vencoder aencoder;
  in_array (
    (when write_header do (
       s_put (str "FLV") ;;;
       s_w8 1 ;;;
       s_w8 5 ;;;
       s_wb32 9 ;;;
       s_wb32 0)) ;;;
    start_pos <- serializer_get_pos ;;
    s_w8 RTMP_PACKET_TYPE_INFO ;;;
    s_wb24 (u32 (zlen meta_data)) ;;;
    s_wb32 0 ;;;
    s_wb24 0 ;;;
    s_put meta_data ;;;
    write_previous_tag_size_without_header (u32 start_pos)).

(** What is written over the two first fields of the object: the buffer has 64 bytes. *)
Definition file_info (duration_ms size : Z) : option bytes :=
  encode_all
    [(λ enc, enc_num_val 64 enc "duration" (double_div (double_of_int duration_ms) (double_of_int 1000)));
     (λ enc, enc_num_val 64 enc "fileSize" (double_of_int size))] [].
