(* ===== verification/FlvTag.v ===== *)
(** * Reading FLV tags back

    A reader of tags written from the FLV and enhanced RTMP specifications, and what it
    reads from what the functions of flv-mux.c write. *)

From S2P Require Import Prelude Util Serializer Double Encoder Interleave Flv.

Local Open Scope Z_scope.
Local Open Scope serializer_scope.

(** ** Tags *)

(** The time is in milliseconds, with the extension byte. *)
Record flv_tag := mk_tag { tag_type : Z; tag_time : Z; tag_body : bytes }.

Definition tag_bytes (t : flv_tag) : bytes :=
  tag_type t :: be24 (zlen (tag_body t)) ++ be24 (tag_time t) ++ u8 (Z.shiftr (tag_time t) 24) ::
  be24 0 ++ tag_body t ++ be32 (11 + zlen (tag_body t)).

Definition tag_ok (t : flv_tag) : Prop := zlen (tag_body t) < 2 ^ 24 ∧ 0 ≤ tag_time t < 2 ^ 31.

(** One tag and what follows it: the stream identifier is zero and the size that follows
    is that of the tag. *)
Definition read_tag (l : bytes) : option (flv_tag * bytes) :=
  let size := be_val (sub 1 3 l) in
  if (zlen l <? 15 + size) || negb (be_val (sub 8 3 l) =? 0) ||
     negb (be_val (sub (11 + size) 4 l) =? 11 + size)
  then None
  else Some (mk_tag (default 0 (l !! 0%nat)) (be_val (sub 7 1 l) * 2 ^ 24 + be_val (sub 4 3 l)) (sub 11 size l),
             drop (Z.to_nat (15 + size)) l).

Fixpoint read_tags (fuel : nat) (l : bytes) : option (list flv_tag) :=
  match l, fuel with
  | [], _ => Some []
  | _, O => None
  | _, S fuel => '(t, l) ← read_tag l; ts ← read_tags fuel l; Some (t :: ts)
  end.

Lemma tag_bytes_len t : zlen (tag_bytes t) = 15 + zlen (tag_body t).
Proof. unfold tag_bytes. len_lia. Qed.
#[export] Hint Rewrite tag_bytes_len : len.

Lemma u24_small z : 0 ≤ z < 2 ^ 24 → u24 z = z.
Proof. intros; unfold u24; apply Z.mod_small; lia. Qed.

Lemma read_tag_bytes t rest : tag_ok t → read_tag (tag_bytes t ++ rest) = Some (t, rest).
Proof.
  destruct t as [ty time body]. intros [Hb Ht]; simpl in Hb, Ht. unfold read_tag.
  pose proof (zlen_nonneg body) as H0.
  set (l := tag_bytes (mk_tag ty time body) ++ rest).
  assert (l = ty :: be24 (zlen body) ++ be24 time ++ [u8 (Z.shiftr time 24)] ++ be24 0 ++
          (body ++ be32 (11 + zlen body) ++ rest)) as Hl.
  { unfold l, tag_bytes. cbn [tag_type tag_time tag_body app]. rewrite <- ?app_assoc. cbn [app]. by rewrite <- ?app_assoc. }
  assert (sub 1 3 l = be24 (zlen body)) as E1 by (by rewrite Hl).
  assert (sub 8 3 l = be24 0) as E8 by (by rewrite Hl).
  assert (sub 7 1 l = [u8 (Z.shiftr time 24)]) as E7 by (by rewrite Hl).
  assert (sub 4 3 l = be24 time) as E4 by (by rewrite Hl).
  assert (drop 11 l = body ++ be32 (11 + zlen body) ++ rest) as Ed by (by rewrite Hl).
  assert (be_val (sub 1 3 l) = zlen body) as -> by (rewrite E1, be24_val; by apply u24_small).
  assert (sub 11 (zlen body) l = body) as ->.
  { unfold sub. change (Z.to_nat 11) with 11%nat. rewrite Ed, zlen_to_nat. apply take_app_length. }
  assert (drop (Z.to_nat (11 + zlen body)) l = be32 (11 + zlen body) ++ rest) as Ed2.
  { replace (Z.to_nat (11 + zlen body)) with (11 + length body)%nat by (unfold zlen; lia).
    rewrite <- drop_drop, Ed. apply drop_app_length. }
  assert (be_val (sub (11 + zlen body) 4 l) = 11 + zlen body) as ->.
  { unfold sub. rewrite Ed2. change (take (Z.to_nat 4) (be32 (11 + zlen body) ++ rest)) with (be32 (11 + zlen body)).
    rewrite be32_val. apply u32_small; lia. }
  assert (drop (Z.to_nat (15 + zlen body)) l = rest) as ->.
  { replace (Z.to_nat (15 + zlen body)) with (Z.to_nat (11 + zlen body) + 4)%nat by lia.
    rewrite <- drop_drop, Ed2. done. }
  rewrite E8, E7, E4, be24_val, be24_val, Z.eqb_refl.
  assert (15 + zlen body ≤ zlen l).
  { unfold l. rewrite zlen_app, tag_bytes_len. cbn [tag_body]. pose proof (zlen_nonneg rest). lia. }
  destruct (Z.ltb_spec (zlen l) (15 + zlen body)); [lia|].
  change (be_val [u8 (Z.shiftr time 24)]) with (0 * 256 + u8 (Z.shiftr time 24)). simpl (negb _ || _).
  cbv iota. replace (l !! 0%nat) with (Some ty) by (by rewrite Hl). simpl default.
  assert ((0 * 256 + u8 (Z.shiftr time 24)) * 2 ^ 24 + u24 time = time) as ->; [|by rewrite Z.eqb_refl].
  unfold u8, u24. rewrite shiftr_div by lia.
  rewrite (Z.mod_small (time `div` 2 ^ 24)) by (split; [apply Z.div_pos|apply Z.div_lt_upper_bound]; lia).
  div_lia.
Qed.

Lemma read_tags_bytes ts fuel : Forall tag_ok ts → (length ts ≤ fuel)%nat →
  read_tags fuel (concat (map tag_bytes ts)) = Some ts.
Proof.
  intros H. revert fuel. induction H as [|t ts Ht _ IH]; intros fuel Hf; [by destruct fuel|].
  simpl in Hf. destruct fuel as [|fuel]; [lia|]. cbn [map concat].
  assert (read_tags (S fuel) (tag_bytes t ++ concat (map tag_bytes ts)) =
    ('(t, l) ← read_tag (tag_bytes t ++ concat (map tag_bytes ts)); ts ← read_tags fuel l; Some (t :: ts)))
    as -> by done.
  rewrite read_tag_bytes by done. simpl. by rewrite IH by lia.
Qed.

(** ** What the bodies say *)

(** [key] is the frame type; a composition time is in milliseconds. *)
Inductive flv_body :=
  | AvcBody (key sequence_header : bool) (composition_time : Z) (data : bytes)
  | AacBody (sequence_header : bool) (data : bytes)
  | ExVideoBody (frame_type packet_type : Z) (codec : video_id_t) (track : Z) (composition_time : option Z)
      (data : bytes)
  | ExAudioBody (packet_type : Z) (codec : audio_id_t) (track : Z) (data : bytes)
  | ScriptBody (data : bytes).

Definition video_fourcc (f : bytes) : option video_id_t :=
  if bool_decide (f = str "avc1") then Some CODEC_H264
  else if bool_decide (f = str "av01") then Some CODEC_AV1
  else if bool_decide (f = str "hvc1") then Some CODEC_HEVC
  else None.

Definition audio_fourcc (f : bytes) : option audio_id_t :=
  if bool_decide (f = str "mp4a") then Some AUDIO_CODEC_AAC else None.

(** A signed number of 24 bits. *)
Definition si24 (l : bytes) : Z := (be_val l + 2 ^ 23) `mod` 2 ^ 24 - 2 ^ 23.

(** The body of an enhanced video packet after its packet type and track. *)
Definition read_ex_video (frame_type packet_type : Z) (fourcc : bytes) (track : Z) (l : bytes) : option flv_body :=
  codec ← video_fourcc fourcc;
  Some (if has_composition_time codec packet_type
        then ExVideoBody frame_type packet_type codec track (Some (si24 (take 3 l))) (drop 3 l)
        else ExVideoBody frame_type packet_type codec track None l).

Definition read_video (l : bytes) : option flv_body :=
  match l with
  | b :: l =>
      if Z.testbit b 7 then
        let frame_type := Z.land (Z.shiftr b 4) 7 in
        match Z.land b 15, l with
        | 6, t :: f0 :: f1 :: f2 :: f3 :: track :: l =>
            if Z.shiftr t 4 =? 0 then read_ex_video frame_type (Z.land t 15) [f0; f1; f2; f3] track l else None
        | 6, _ => None
        | type, f0 :: f1 :: f2 :: f3 :: l => read_ex_video frame_type type [f0; f1; f2; f3] 0 l
        | _, _ => None
        end
      else
        match Z.land b 15, l with
        | 7, t :: c2 :: c1 :: c0 :: l =>
            Some (AvcBody (Z.shiftr b 4 =? 1) (t =? 0) (si24 [c2; c1; c0]) l)
        | _, _ => None
        end
  | [] => None
  end.

Definition read_audio (l : bytes) : option flv_body :=
  match l with
  | b :: l =>
      match Z.shiftr b 4, l with
      | 10, t :: l => Some (AacBody (t =? 0) l)
      | 9, l =>
          match Z.land b 15, l with
          | 5, t :: f0 :: f1 :: f2 :: f3 :: track :: l =>
              if Z.shiftr t 4 =? 0 then
                codec ← audio_fourcc [f0; f1; f2; f3]; Some (ExAudioBody (Z.land t 15) codec track l)
              else None
          | 5, _ => None
          | type, f0 :: f1 :: f2 :: f3 :: l =>
              codec ← audio_fourcc [f0; f1; f2; f3]; Some (ExAudioBody type codec 0 l)
          | _, _ => None
          end
      | _, _ => None
      end
  | [] => None
  end.

Definition read_body (t : flv_tag) : option flv_body :=
  if tag_type t =? RTMP_PACKET_TYPE_AUDIO then read_audio (tag_body t)
  else if tag_type t =? RTMP_PACKET_TYPE_VIDEO then read_video (tag_body t)
  else if tag_type t =? RTMP_PACKET_TYPE_INFO then Some (ScriptBody (tag_body t))
  else None.

(** The tag that says [b] at [time]. *)
Definition tag_says (t : flv_tag) (time : Z) (b : flv_body) : Prop :=
  tag_ok t ∧ tag_time t = time ∧ read_body t = Some b.

(** ** What is written *)

(** The time of a tag has 31 bits: the sign of a negative one is lost. *)
Definition tag_ms (t : Z) : Z := t `mod` 2 ^ 31.

Lemma tag_ms_be24 t : be24 (tag_ms t) = be24 t.
Proof.
  unfold be24, be16, tag_ms, u8. rewrite !Z.shiftr_shiftr by lia.
  rewrite !mod_shiftr_mod by lia. by rewrite mod_mod_pow by lia.
Qed.

Lemma tag_ms_high t : u8 (Z.shiftr (tag_ms t) 24) = u8 (Z.land (Z.shiftr t 24) 127).
Proof.
  unfold u8. f_equal. apply Z.bits_inj'. intros i Hi. unfold tag_ms.
  rewrite Z.shiftr_spec, Z.land_spec, Z.shiftr_spec, Z.testbit_mod_pow2 by lia.
  change 127 with (Z.ones 7). rewrite Z.testbit_ones_nonneg by lia.
  rewrite andb_comm. f_equal. destruct (Z.ltb_spec i 7), (Z.ltb_spec (i + 24) 31); done || lia.
Qed.

Lemma be24_mask t : be24 (Z.land t 16777215) = be24 t.
Proof.
  change 16777215 with (Z.ones 24). rewrite Z.land_ones by lia.
  unfold be24, be16, u8. rewrite !Z.shiftr_shiftr by lia.
  rewrite !mod_shiftr_mod by lia. by rewrite mod_mod_pow by lia.
Qed.

Lemma si24_be24 t : - 2 ^ 23 ≤ t < 2 ^ 23 → si24 (be24 t) = t.
Proof.
  intros. unfold si24. rewrite be24_val. unfold u24.
  rewrite Zplus_mod_idemp_l, Z.mod_small; lia.
Qed.

Section writers.
Context {S : Type} `{AppendSerializer S}.

Lemma emits_tag_size_after h p : 0 ≤ h ≤ p → 11 ≤ p < 2 ^ 32 →
  emits p (write_previous_tag_size_without_header h) (be32 (p - h)) tt.
Proof.
  intros Hh Hp. unfold write_previous_tag_size_without_header.
  apply (emits_seq p p [] (be32 (p - h)) _ _ p tt); [apply emits_get_pos|len_lia|].
  apply (emits_seq p p [] (be32 (p - h)) _ _ tt tt); [|len_lia|].
  { apply emits_deref. by destruct (Z.leb_spec h p); [|lia]. }
  apply (emits_seq p p [] (be32 (p - h)) _ _ tt tt); [|len_lia|].
  { apply emits_deref. by destruct (Z.leb_spec 11 p); [|lia]. }
  eapply emits_eq; [apply emits_puts, puts_wb32|]. rewrite (u32_small p) by lia. by rewrite be32_u32.
Qed.

Lemma emits_tag_size p : 11 ≤ p < 2 ^ 32 → emits p write_previous_tag_size (be32 p) tt.
Proof. intros Hp. eapply emits_eq; [apply emits_tag_size_after; lia|]. by rewrite Z.sub_0_r. Qed.

(** The parts of a tag as the functions of flv-mux.c write them. *)
Lemma tag_bytes_written type size time body tail pos :
  size = zlen body → tail = body ++ be32 pos → pos = 11 + zlen body →
  tag_bytes (mk_tag type (tag_ms time) body) =
  [type] ++ be24 size ++ be24 time ++ [u8 (Z.land (Z.shiftr time 24) 127)] ++ be24 0 ++ tail.
Proof.
  intros -> -> ->. unfold tag_bytes. cbn [tag_type tag_time tag_body]. by rewrite tag_ms_be24, tag_ms_high.
Qed.

Lemma puts_timestamp t : puts (s_wtimestamp t) (be24 t ++ [u8 (Z.land (Z.shiftr t 24) 127)]).
Proof.
  eapply puts_eq; [apply puts_seq; [apply puts_wb24|apply puts_w8]|]. rewrite be24_mask.
  change 127 with (Z.ones 7). rewrite !Z.land_ones by lia. unfold u32. by rewrite mod_mod_pow by lia.
Qed.

Lemma puts_w4cc id : id ≠ CODEC_NONE → ∃ f, zlen f = 4 ∧ video_fourcc f = Some id ∧ puts (s_w4cc id) f.
Proof.
  intros. destruct id; [done| | |]; eexists; (split; [|split; [|by repeat (apply puts_seq || apply puts_w8)]]);
    reflexivity.
Qed.

Lemma puts_wa4cc id : id ≠ AUDIO_CODEC_NONE → ∃ f, zlen f = 4 ∧ audio_fourcc f = Some id ∧ puts (s_wa4cc id) f.
Proof.
  intros. destruct id; [done|]; eexists; (split; [|split; [|by repeat (apply puts_seq || apply puts_w8)]]);
    reflexivity.
Qed.
End writers.

Create HintDb flv.
#[export] Hint Resolve puts_w8 puts_wb16 puts_wb24 puts_wb32 puts_wb64 puts_put puts_timestamp : flv.

(** Runs the writers of a tag up to the size that ends it. *)
Ltac emits_tag :=
  repeat (eapply emits_seq; [solve [apply emits_puts; eauto with flv] | reflexivity |]);
  apply emits_tag_size.

Section packets.
Context {S : Type} `{AppendSerializer S}.
Implicit Types packet : encoder_packet.

(** The body of an AVC packet. *)
Definition avc_body packet (hdr : bool) (ct : Z) : bytes :=
  [if pkt_keyframe packet then 23 else 39; if hdr then 0 else 1] ++ be24 ct ++ pkt_data packet.

Lemma emits_flv_video off packet hdr pts dts :
  get_ms_time packet (pkt_pts packet) = Some pts → get_ms_time packet (pkt_dts packet) = Some dts →
  0 < pkt_size packet < 2 ^ 24 - 16 →
  emits 0 (flv_video off packet hdr)
    (tag_bytes (mk_tag 9 (tag_ms (i32 (dts - off))) (avc_body packet hdr (i32 (pts - dts))))) tt.
Proof.
  intros Ep Ed Hl. unfold flv_video. unfold pkt_size in *.
  eapply emits_eq.
  - eapply emits_seq; [by apply emits_deref|reflexivity|]. eapply emits_seq; [by apply emits_deref|reflexivity|].
    destruct (Z.eqb_spec (zlen (pkt_data packet)) 0); [lia|]. cbn [negb]. emits_tag. len_lia.
  - unfold avc_body. destruct (pkt_keyframe packet), hdr;
      (eapply tag_bytes_written; [wrap_small; len_lia|by rewrite <- ?app_assoc|len_lia]).
Qed.

Definition aac_body packet (hdr : bool) : bytes := [175; if hdr then 0 else 1] ++ pkt_data packet.

Lemma emits_flv_audio off packet hdr dts :
  get_ms_time packet (pkt_dts packet) = Some dts → 0 < pkt_size packet < 2 ^ 24 - 16 →
  emits 0 (flv_audio off packet hdr) (tag_bytes (mk_tag 8 (tag_ms (i32 (dts - off))) (aac_body packet hdr))) tt.
Proof.
  intros Ed Hl. unfold flv_audio. unfold pkt_size in *.
  eapply emits_eq.
  - eapply emits_seq; [by apply emits_deref|reflexivity|].
    destruct (Z.eqb_spec (zlen (pkt_data packet)) 0); [lia|]. cbn [negb]. emits_tag. len_lia.
  - unfold aac_body. destruct hdr;
      (eapply tag_bytes_written; [wrap_small; len_lia|by rewrite <- ?app_assoc|len_lia]).
Qed.

(** What names the codec, and the track when it is not the first. *)
Definition ex_head (b type idx : Z) (f : bytes) : bytes :=
  if 0 <? idx then [b; type] ++ f ++ [idx] else b :: f.

Definition audio_ex_body packet (type idx : Z) (f : bytes) : bytes :=
  ex_head (Z.lor 144 (if 0 <? idx then 5 else type)) type idx f ++ pkt_data packet.

Lemma emits_audio_ex packet id time type idx f :
  puts (s_wa4cc id) f → zlen f = 4 → 0 ≤ type < 5 → 0 ≤ idx < 256 → 0 < pkt_size packet < 2 ^ 24 - 16 →
  emits 0 (write_audio_ex packet id time type idx)
    (tag_bytes (mk_tag 8 (tag_ms time) (audio_ex_body packet type idx f))) tt.
Proof.
  intros Hf Hf4 Ht Hi Hl. unfold write_audio_ex, audio_ex_body, ex_head. unfold pkt_size in *.
  assert (u8 (Z.lor 144 type) = Z.lor 144 type ∧ u8 (Z.lor 0 type) = type) as [E1 E2].
  { assert (type = 0 ∨ type = 1 ∨ type = 2 ∨ type = 3 ∨ type = 4) as [-> |[-> |[-> |[-> | ->]]]] by lia; done. }
  assert (u8 idx = idx) as E3 by (apply u8_small; lia).
  destruct (0 <? idx).
  - eapply emits_eq.
    + repeat (eapply emits_seq; [solve [apply emits_puts; eauto with flv] | reflexivity |]).
      eapply emits_seq; [apply emits_puts, puts_seq; [apply puts_w8|apply puts_seq; [apply Hf|apply puts_w8]]|reflexivity|].
      emits_tag. len_lia.
    + change (MULTITRACKTYPE_ONE_TRACK) with 0. rewrite E2, E3. 
      eapply tag_bytes_written; [wrap_small; len_lia|cbn [app]; by rewrite <- ?app_assoc|len_lia].
  - eapply emits_eq; [emits_tag; len_lia|].
    eapply tag_bytes_written; [wrap_small; len_lia|cbn [app]; change AUDIO_HEADER_EX with 144; rewrite E1; by rewrite <- ?app_assoc|len_lia].
Qed.
(** The composition time, for the codecs and packets that have one. *)
Definition video_ex_body packet (codec : video_id_t) (type idx ct : Z) (f : bytes) : bytes :=
  ex_head (Z.lor (Z.lor 128 (if 0 <? idx then 6 else type)) (if pkt_keyframe packet then 16 else 32)) type idx f ++
  (if has_composition_time codec type then be24 ct else []) ++ pkt_data packet.

Lemma small_type_bytes type : 0 ≤ type < 6 →
  u8 (Z.lor 0 type) = type ∧
  ∀ b : bool, u8 (Z.lor (Z.lor 128 type) (if b then 16 else 32)) = Z.lor (Z.lor 128 type) (if b then 16 else 32).
Proof.
  intros. assert (type = 0 ∨ type = 1 ∨ type = 2 ∨ type = 3 ∨ type = 4 ∨ type = 5) as [-> |[-> |[-> |[-> |[-> | ->]]]]] by lia;
    (split; [done|by intros []]).
Qed.

Lemma emits_video_ex packet id off type idx f pts dts :
  get_ms_time packet (pkt_pts packet) = Some pts → get_ms_time packet (pkt_dts packet) = Some dts →
  puts (s_w4cc id) f → zlen f = 4 → 0 ≤ type < 6 → 0 ≤ idx < 256 → pkt_size packet < 2 ^ 24 - 32 →
  emits 0 (write_video_ex packet (pkt_size packet) id off type idx)
    (tag_bytes (mk_tag 9 (tag_ms (i32 (dts - off))) (video_ex_body packet id type idx (i32 (pts - dts)) f))) tt.
Proof.
  intros Ep Ed Hf Hf4 Ht Hi Hl. unfold write_video_ex, video_ex_body, ex_head. unfold pkt_size in *.
  destruct (small_type_bytes type Ht) as [E1 E2]. specialize (E2 (pkt_keyframe packet)).
  assert (u8 idx = idx) as E3 by (apply u8_small; lia). pose proof (zlen_nonneg (pkt_data packet)) as Hnn.
  assert (∀ p, emits p (if has_composition_time id type
                        then pts_ms <- deref (get_ms_time packet (pkt_pts packet)) ;; s_wb24 (i32 (pts_ms - dts))
                        else ret tt)
            (if has_composition_time id type then be24 (i32 (pts - dts)) else []) tt) as Hct.
  { intros p. destruct (has_composition_time id type); [|apply emits_ret].
    eapply emits_eq; [eapply emits_seq; [by apply emits_deref|reflexivity|apply emits_puts, puts_wb24]|done]. }
  assert (zlen (if has_composition_time id type then be24 (i32 (pts - dts)) else []) =
          if has_composition_time id type then 3 else 0) as Hlct by (by destruct (has_composition_time id type)).
  set (ctb := if has_composition_time id type then be24 (i32 (pts - dts)) else []) in *.
  change (if pkt_keyframe packet then FT_KEY else FT_INTER) with (if pkt_keyframe packet then 16 else 32).
  change FRAME_HEADER_EX with 128. change PACKETTYPE_MULTITRACK with 6. change MULTITRACKTYPE_ONE_TRACK with 0.
  destruct (0 <? idx).
  - eapply emits_eq.
    + eapply emits_seq; [by apply emits_deref|reflexivity|].
      repeat (eapply emits_seq; [solve [apply emits_puts; eauto with flv] | reflexivity |]).
      eapply emits_seq; [|reflexivity|].
      { apply emits_puts. apply puts_seq; [apply puts_w8|].
        apply puts_seq; [apply puts_w8|apply puts_seq; [apply Hf|apply puts_w8]]. }
      eapply emits_seq; [apply Hct|reflexivity|].
      emits_tag. destruct (has_composition_time id type); len_lia.
    + rewrite E1, E3.
      assert (u8 (Z.lor (Z.lor 128 6) (if pkt_keyframe packet then 16 else 32)) =
        Z.lor (Z.lor 128 6) (if pkt_keyframe packet then 16 else 32)) as -> by (by destruct (pkt_keyframe packet)).
      rewrite <- (app_assoc (be24 (i32 (dts - off)))).
      eapply tag_bytes_written; [|cbn [app]; by rewrite <- ?app_assoc|len_lia].
      destruct (has_composition_time id type); wrap_small; len_lia.
  - eapply emits_eq.
    + eapply emits_seq; [by apply emits_deref|reflexivity|].
      repeat (eapply emits_seq; [solve [apply emits_puts; eauto with flv] | reflexivity |]).
      eapply emits_seq; [apply emits_puts, puts_seq; [apply puts_w8|apply Hf]|reflexivity|].
      eapply emits_seq; [apply Hct|reflexivity|].
      emits_tag. destruct (has_composition_time id type); len_lia.
    + rewrite E2. rewrite <- (app_assoc (be24 (i32 (dts - off)))).
      eapply tag_bytes_written; [|cbn [app]; by rewrite <- ?app_assoc|len_lia].
      destruct (has_composition_time id type); wrap_small; len_lia.
Qed.
End packets.

(** ** What is read *)

Section reading.
Implicit Types packet : encoder_packet.

Lemma read_avc packet hdr ct : - 2 ^ 23 ≤ ct < 2 ^ 23 →
  read_video (avc_body packet hdr ct) = Some (AvcBody (pkt_keyframe packet) hdr ct (pkt_data packet)).
Proof.
  intros Hc. rewrite <- (si24_be24 ct Hc) at 2. unfold avc_body.
  unfold be24, be16. by destruct (pkt_keyframe packet), hdr.
Qed.

Lemma read_aac packet hdr : read_audio (aac_body packet hdr) = Some (AacBody hdr (pkt_data packet)).
Proof. by destruct hdr. Qed.

Lemma four_bytes (f : bytes) : zlen f = 4 → ∃ a b c d, f = [a; b; c; d].
Proof.
  unfold zlen. intros. destruct f as [|a [|b [|c [|d [|]]]]]; simpl in *; try lia. eauto.
Qed.

Lemma read_audio_ex packet type idx f id :
  audio_fourcc f = Some id → zlen f = 4 → type = 0 ∨ type = 1 → 0 ≤ idx →
  read_audio (audio_ex_body packet type idx f) = Some (ExAudioBody type id idx (pkt_data packet)).
Proof.
  intros Hf Hf4 Ht Hi. apply four_bytes in Hf4 as (a & b & c & d & ->).
  unfold audio_ex_body, ex_head. destruct (Z.ltb_spec 0 idx).
  - destruct Ht as [-> | ->]; cbn; by rewrite Hf.
  - replace idx with 0 by lia. destruct Ht as [-> | ->]; cbn; by rewrite Hf.
Qed.

Lemma read_video_ex packet type idx ct f id :
  video_fourcc f = Some id → zlen f = 4 → 0 ≤ type < 4 → 0 ≤ idx → - 2 ^ 23 ≤ ct < 2 ^ 23 →
  read_video (video_ex_body packet id type idx ct f) =
    Some (ExVideoBody (if pkt_keyframe packet then 1 else 2) type id idx
            (if has_composition_time id type then Some ct else None) (pkt_data packet)).
Proof.
  intros Hf Hf4 Ht Hi Hct. apply four_bytes in Hf4 as (a & b & c & d & ->).
  rewrite <- (si24_be24 ct Hct) at 2. unfold video_ex_body, ex_head.
  set (r := (if has_composition_time id type then be24 ct else []) ++ pkt_data packet).
  set (o := if has_composition_time id type then Some (si24 (be24 ct)) else None).
  assert (∀ k i, read_ex_video k type [a; b; c; d] i r = Some (ExVideoBody k type id i o (pkt_data packet))) as Hr.
  { intros k i. unfold read_ex_video. rewrite Hf. cbn [mbind option_bind]. unfold r, o.
    by destruct (has_composition_time id type). }
  assert (type = 0 ∨ type = 1 ∨ type = 2 ∨ type = 3) as Ht4 by lia. clearbody r o. clear Ht.
  destruct (Z.ltb_spec 0 idx).
  - destruct (pkt_keyframe packet), Ht4 as [-> |[-> |[-> | ->]]]; apply Hr.
  - replace idx with 0 by lia. destruct (pkt_keyframe packet), Ht4 as [-> |[-> |[-> | ->]]]; apply Hr.
Qed.
End reading.

(** ** The functions of flv-mux.c as calls *)

Inductive flv_call :=
  | Mux (packet : encoder_packet) (dts_offset : Z) (is_header : bool)
  | VideoStart (packet : encoder_packet) (codec : video_id_t) (idx : Z)
  | VideoFrames (packet : encoder_packet) (codec : video_id_t) (dts_offset idx : Z)
  | VideoEnd (packet : encoder_packet) (codec : video_id_t) (idx : Z)
  | AudioStart (packet : encoder_packet) (codec : audio_id_t) (idx : Z)
  | AudioFrames (packet : encoder_packet) (codec : audio_id_t) (dts_offset idx : Z)
  | Metadata (codec : video_id_t) (bits primaries trc space min_luminance max_luminance idx : Z).

Definition flv_write (c : flv_call) : option (option bytes) :=
  match c with
  | Mux p off hdr => Some <$> flv_packet_mux p off hdr
  | VideoStart p codec idx => Some <$> flv_packet_start p (pkt_size p) codec idx
  | VideoFrames p codec off idx => Some <$> flv_packet_frames p codec off idx
  | VideoEnd p codec idx => Some <$> flv_packet_end p codec idx
  | AudioStart p codec idx => flv_packet_audio_start p codec idx
  | AudioFrames p codec off idx => flv_packet_audio_frames p codec off idx
  | Metadata codec bits pri trc spc lo hi idx => Some <$> flv_packet_metadata codec bits pri trc spc lo hi idx
  end.

(** The [colorInfo] object of a call of [flv_packet_metadata], as the data of a packet. *)
Definition color_info (bits pri trc spc lo hi : Z) : encoder_packet :=
  mk_packet (default [] (in_array (write_color_info bits (u8 pri) trc spc lo hi))) 0 0 0 1 OBS_ENCODER_VIDEO
    false 0 0 0 0 0 0.

Definition call_packet (c : flv_call) : encoder_packet :=
  match c with
  | Mux p _ _ | VideoStart p _ _ | VideoFrames p _ _ _ | VideoEnd p _ _ | AudioStart p _ _ | AudioFrames p _ _ _ => p
  | Metadata _ bits pri trc spc lo hi _ => color_info bits pri trc spc lo hi
  end.

Definition call_offset (c : flv_call) : Z :=
  match c with Mux _ off _ | VideoFrames _ _ off _ | AudioFrames _ _ off _ => off | _ => 0 end.

Definition ms (p : encoder_packet) (t : Z) : Z := i32 (i64 (t * 1000) /c pkt_timebase_den p).

(** The time a tag should have, and the delay until the frame is shown. *)
Definition call_time (c : flv_call) : Z :=
  let p := call_packet c in tag_ms (i32 (ms p (pkt_dts p) - call_offset c)).
Definition call_delay (c : flv_call) : Z :=
  let p := call_packet c in i32 (ms p (pkt_pts p) - ms p (pkt_dts p)).

(** What the tag should say; a frame of H.264 or HEVC shown when it is decoded is of the
    packet type that has no composition time. *)
Definition call_says (c : flv_call) : flv_body :=
  let p := call_packet c in
  let frame := if pkt_keyframe p then 1 else 2 in
  match c with
  | Mux _ _ hdr =>
      match pkt_type p with
      | OBS_ENCODER_VIDEO => AvcBody (pkt_keyframe p) hdr (call_delay c) (pkt_data p)
      | OBS_ENCODER_AUDIO => AacBody hdr (pkt_data p)
      end
  | VideoStart _ codec idx => ExVideoBody frame PACKETTYPE_SEQ_START codec idx None (pkt_data p)
  | VideoFrames _ CODEC_AV1 _ idx => ExVideoBody frame PACKETTYPE_FRAMES CODEC_AV1 idx None (pkt_data p)
  | VideoFrames _ codec _ idx =>
      if pkt_dts p =? pkt_pts p
      then ExVideoBody frame PACKETTYPE_FRAMESX codec idx None (pkt_data p)
      else ExVideoBody frame PACKETTYPE_FRAMES codec idx (Some (call_delay c)) (pkt_data p)
  | VideoEnd _ codec idx => ExVideoBody frame PACKETTYPE_SEQ_END codec idx None (pkt_data p)
  | AudioStart _ codec idx => ExAudioBody AUDIO_PACKETTYPE_SEQ_START codec idx (pkt_data p)
  | AudioFrames _ codec _ idx => ExAudioBody AUDIO_PACKETTYPE_FRAMES codec idx (pkt_data p)
  | Metadata codec _ _ _ _ _ _ idx => ExVideoBody 0 PACKETTYPE_METADATA codec idx None (pkt_data p)
  end.

Definition codec_ok (c : flv_call) : bool :=
  match c with
  | Mux _ _ _ => true
  | VideoStart p codec idx | VideoFrames p codec _ idx | VideoEnd p codec idx =>
      bool_decide (pkt_type p = OBS_ENCODER_VIDEO) && negb (bool_decide (codec = CODEC_NONE)) && (0 <=? idx) && (idx <? 256)
  | AudioStart p codec idx | AudioFrames p codec _ idx =>
      bool_decide (pkt_type p = OBS_ENCODER_AUDIO) && negb (bool_decide (codec = AUDIO_CODEC_NONE)) && (0 <=? idx) && (idx <? 256)
  | Metadata codec _ _ _ _ _ _ idx => negb (bool_decide (codec = CODEC_NONE)) && (0 <=? idx) && (idx <? 256)
  end.

(** A packet of less than 16 MiB, with data unless it is an enhanced video packet, with a
    time base and a composition time that fits its field. *)
Definition call_ok (c : flv_call) : bool :=
  let p := call_packet c in
  let size := pkt_size p in
  negb (pkt_timebase_den p =? 0) && (size <? 2 ^ 24 - 32) &&
  (match c with Mux _ _ _ | AudioStart _ _ _ | AudioFrames _ _ _ _ => 0 <? size | _ => true end) &&
  (- 2 ^ 23 <=? call_delay c) && (call_delay c <? 2 ^ 23) && codec_ok c.

Lemma in_array_emits m bs : emits 0 m bs tt → zlen bs < 2 ^ 32 → in_array m = Some bs.
Proof. intros E Hl. unfold in_array. rewrite (emits_array m bs tt E) by (unfold MAX_POS; lia). done. Qed.

Lemma ms_time p t : pkt_timebase_den p ≠ 0 → get_ms_time p t = Some (ms p t).
Proof. intros. unfold get_ms_time. by rewrite (proj2 (Z.eqb_neq _ _)). Qed.

Lemma tag_says_intro type time body b :
  zlen body < 2 ^ 24 → read_body (mk_tag type (tag_ms time) body) = Some b →
  tag_says (mk_tag type (tag_ms time) body) (tag_ms time) b.
Proof. intros. split_and!; [split; [done|apply Z.mod_pos_bound; lia]|done..]. Qed.

Lemma ex_head_len b type idx f : zlen f = 4 → zlen (ex_head b type idx f) ≤ 7.
Proof. intros. unfold ex_head. case_match; len_lia. Qed.

Lemma write_ex_tag p codec off type idx : pkt_timebase_den p ≠ 0 → pkt_type p = OBS_ENCODER_VIDEO →
  codec ≠ CODEC_NONE → 0 ≤ idx < 256 → 0 ≤ type < 4 → pkt_size p < 2 ^ 24 - 32 →
  - 2 ^ 23 ≤ i32 (ms p (pkt_pts p) - ms p (pkt_dts p)) < 2 ^ 23 →
  ∃ t, flv_packet_ex p (pkt_size p) codec off type idx = Some (tag_bytes t) ∧
    tag_says t (tag_ms (i32 (ms p (pkt_dts p) - off)))
      (ExVideoBody (if pkt_keyframe p then 1 else 2) type codec idx
         (if has_composition_time codec type then Some (i32 (ms p (pkt_pts p) - ms p (pkt_dts p))) else None)
         (pkt_data p)).
Proof.
  intros Hd Ht Hc Hi Hty Hs Hct. destruct (puts_w4cc (S := array_output_data) codec Hc) as (f & Hf4 & Hff & Hp).
  eexists. unfold flv_packet_ex. rewrite Ht. unfold pkt_size in *.
  set (ct := i32 (ms p (pkt_pts p) - ms p (pkt_dts p))) in *.
  assert (zlen (video_ex_body p codec type idx ct f) < 2 ^ 24) as Hl.
  { unfold video_ex_body. rewrite !zlen_app.
    pose proof (ex_head_len (Z.lor (Z.lor 128 (if 0 <? idx then 6 else type)) (if pkt_keyframe p then 16 else 32))
      type idx f Hf4).
    assert (zlen (if has_composition_time codec type then be24 ct else []) ≤ 3) by (by destruct (has_composition_time _ _)).
    lia. }
  split.
  - apply in_array_emits; [by eapply emits_video_ex; [apply ms_time|apply ms_time|..]; try done; lia|].
    rewrite tag_bytes_len. cbn [tag_body]. fold ct. lia.
  - apply tag_says_intro; [done|]. by apply read_video_ex; [..|lia|].
Qed.

Lemma write_audio_tag p codec off type idx : pkt_timebase_den p ≠ 0 → pkt_type p = OBS_ENCODER_AUDIO →
  codec ≠ AUDIO_CODEC_NONE → 0 ≤ idx < 256 → type = 0 ∨ type = 1 → 0 < pkt_size p < 2 ^ 24 - 32 →
  ∃ t, flv_packet_audio_ex p codec off type idx = Some (Some (tag_bytes t)) ∧
    tag_says t (tag_ms (i32 (ms p (pkt_dts p) - off))) (ExAudioBody type codec idx (pkt_data p)).
Proof.
  intros Hd Ht Hc Hi Hty Hs. destruct (puts_wa4cc (S := array_output_data) codec Hc) as (f & Hf4 & Hff & Hp).
  eexists. unfold flv_packet_audio_ex. rewrite Ht, ms_time by done. cbn [mbind option_bind].
  destruct (Z.eqb_spec (pkt_size p) 0); [lia|]. unfold pkt_size in *.
  assert (zlen (audio_ex_body p type idx f) < 2 ^ 24) as Hl.
  { unfold audio_ex_body. rewrite !zlen_app.
    pose proof (ex_head_len (Z.lor 144 (if 0 <? idx then 5 else type)) type idx f Hf4). lia. }
  split.
  - erewrite in_array_emits; [done|eapply emits_audio_ex; try done; unfold pkt_size; lia|].
    rewrite tag_bytes_len. cbn [tag_body]. lia.
  - apply tag_says_intro; [done|]. apply read_audio_ex; [done..|lia].
Qed.

Lemma write_mux_tag p off hdr : pkt_timebase_den p ≠ 0 → 0 < pkt_size p < 2 ^ 24 - 32 →
  - 2 ^ 23 ≤ i32 (ms p (pkt_pts p) - ms p (pkt_dts p)) < 2 ^ 23 →
  ∃ t, flv_packet_mux p off hdr = Some (tag_bytes t) ∧
    tag_says t (tag_ms (i32 (ms p (pkt_dts p) - off))) (call_says (Mux p off hdr)).
Proof.
  intros Hd Hs Hct. unfold flv_packet_mux, call_says, call_delay. cbn [call_packet].
  destruct (pkt_type p); eexists; (split;
    [apply in_array_emits; [(apply emits_flv_audio || apply emits_flv_video); try apply ms_time; try done; lia|]
    |apply tag_says_intro]); unfold pkt_size in *.
  - rewrite tag_bytes_len. unfold aac_body. cbn [tag_body]. len_lia.
  - unfold aac_body. len_lia.
  - apply read_aac.
  - rewrite tag_bytes_len. unfold avc_body. cbn [tag_body]. len_lia.
  - unfold avc_body. len_lia.
  - by apply read_avc.
Qed.

Lemma call_ok_parts c : call_ok c = true →
  let p := call_packet c in
  pkt_timebase_den p ≠ 0 ∧ pkt_size p < 2 ^ 24 - 32 ∧
  - 2 ^ 23 ≤ i32 (ms p (pkt_pts p) - ms p (pkt_dts p)) < 2 ^ 23 ∧
  (match c with Mux _ _ _ | AudioStart _ _ _ | AudioFrames _ _ _ _ => 0 <? pkt_size p | _ => true end) = true ∧
  codec_ok c = true.
Proof.
  unfold call_ok, call_delay. rewrite !andb_true_iff, negb_true_iff, Z.eqb_neq, !Z.ltb_lt, Z.leb_le. tauto.
Qed.

Lemma video_call_ok p codec idx :
  bool_decide (pkt_type p = OBS_ENCODER_VIDEO) && negb (bool_decide (codec = CODEC_NONE)) && (0 <=? idx) && (idx <? 256) = true →
  pkt_type p = OBS_ENCODER_VIDEO ∧ codec ≠ CODEC_NONE ∧ 0 ≤ idx < 256.
Proof.
  rewrite !andb_true_iff, negb_true_iff, bool_decide_eq_true, bool_decide_eq_false, Z.leb_le, Z.ltb_lt. tauto.
Qed.

Lemma audio_call_ok p codec idx :
  bool_decide (pkt_type p = OBS_ENCODER_AUDIO) && negb (bool_decide (codec = AUDIO_CODEC_NONE)) && (0 <=? idx) && (idx <? 256) = true →
  pkt_type p = OBS_ENCODER_AUDIO ∧ codec ≠ AUDIO_CODEC_NONE ∧ 0 ≤ idx < 256.
Proof.
  rewrite !andb_true_iff, negb_true_iff, bool_decide_eq_true, bool_decide_eq_false, Z.leb_le, Z.ltb_lt. tauto.
Qed.

Lemma puts_wstring {S} `{AppendSerializer S} s : ∃ bs, puts (s_wstring s) bs ∧ zlen bs = 2 + zlen s.
Proof. eexists. split; [apply puts_seq; [apply puts_wb16|apply puts_put]|len_lia]. Qed.

Lemma puts_number {S} `{AppendSerializer S} name v :
  ∃ bs, puts (number_property name v) bs ∧ zlen bs = 11 + zlen (str name).
Proof.
  destruct (puts_wstring (str name)) as (b & P & L). eexists.
  split; [apply puts_seq; [apply P|apply puts_seq; [apply puts_w8|apply puts_wb64]]|len_lia].
Qed.

Lemma puts_object_end {S} `{AppendSerializer S} : puts object_end [0; 0; 9].
Proof. eapply puts_eq; [repeat first [apply puts_w8 | apply puts_seq]|done]. Qed.

(** The colour object is short. *)
Lemma puts_color_info {S} `{AppendSerializer S} bits pri trc spc lo hi :
  ∃ bs, puts (write_color_info bits pri trc spc lo hi) bs ∧ zlen bs ≤ 256.
Proof.
  destruct (puts_wstring (str "colorInfo")) as (b1 & P1 & L1), (puts_wstring (str "colorConfig")) as (b2 & P2 & L2),
    (puts_number "bitDepth" bits) as (b3 & P3 & L3), (puts_number "colorPrimaries" pri) as (b4 & P4 & L4),
    (puts_number "transferCharacteristics" trc) as (b5 & P5 & L5), (puts_number "matrixCoefficients" spc) as (b6 & P6 & L6),
    (puts_wstring (str "hdrMdcv")) as (b7 & P7 & L7), (puts_number "maxLuminance" hi) as (b8 & P8 & L8),
    (puts_number "minLuminance" lo) as (b9 & P9 & L9).
  vm_compute (zlen (str _)) in L1, L2, L3, L4, L5, L6, L7, L8, L9.
  unfold write_color_info. destruct (negb (hi =? 0)); (eexists; split;
    [repeat first [apply puts_w8 | apply puts_ret | apply P1 | apply P2 | apply P3 | apply P4 | apply P5 | apply P6
       | apply P7 | apply P8 | apply P9 | apply puts_object_end | apply puts_seq]
    |len_lia]).
Qed.

Lemma read_metadata f id idx m : video_fourcc f = Some id → zlen f = 4 → 0 ≤ idx →
  read_video (ex_head (Z.lor 128 (if 0 <? idx then 6 else 4)) 4 idx f ++ m) = Some (ExVideoBody 0 4 id idx None m).
Proof.
  intros Hf Hf4 Hi. apply four_bytes in Hf4 as (a & b & c & d & ->). unfold ex_head.
  assert (has_composition_time id 4 = false) as Hc by (by destruct id).
  assert (∀ k i, read_ex_video k 4 [a; b; c; d] i m = Some (ExVideoBody k 4 id i None m)) as Hr
    by (intros k i; unfold read_ex_video; rewrite Hf; cbn [mbind option_bind]; by rewrite Hc).
  destruct (Z.ltb_spec 0 idx); [apply Hr|]. replace idx with 0 by lia. apply Hr.
Qed.

Lemma emits_metadata {S} `{AppendSerializer S} id m idx f :
  puts (s_w4cc id) f → zlen f = 4 → 0 ≤ idx < 256 → zlen m < 2 ^ 24 - 32 →
  emits 0 (write_metadata id m idx)
    (tag_bytes (mk_tag 9 (tag_ms 0) (ex_head (Z.lor 128 (if 0 <? idx then 6 else 4)) 4 idx f ++ m))) tt.
Proof.
  intros Hf Hf4 Hi Hl. unfold write_metadata, ex_head. assert (u8 idx = idx) as E3 by (apply u8_small; lia).
  pose proof (zlen_nonneg m). destruct (0 <? idx).
  - eapply emits_eq.
    + repeat (eapply emits_seq; [solve [apply emits_puts; eauto with flv] | reflexivity |]).
      eapply emits_seq; [apply emits_puts, puts_seq; [apply puts_w8|apply puts_seq; [apply Hf|apply puts_w8]]|reflexivity|].
      emits_tag. len_lia.
    + rewrite E3, <- (app_assoc (be24 0)).
      eapply tag_bytes_written; [wrap_small; len_lia|cbn [app]; by rewrite <- ?app_assoc|len_lia].
  - eapply emits_eq; [emits_tag; len_lia|]. rewrite <- (app_assoc (be24 0)).
    eapply tag_bytes_written; [wrap_small; len_lia|cbn [app]; by rewrite <- ?app_assoc|len_lia].
Qed.

Lemma write_metadata_tag id bits pri trc spc lo hi idx : id ≠ CODEC_NONE → 0 ≤ idx < 256 →
  ∃ t, flv_packet_metadata id bits pri trc spc lo hi idx = Some (tag_bytes t) ∧
    tag_says t 0 (ExVideoBody 0 4 id idx None (pkt_data (color_info bits pri trc spc lo hi))).
Proof.
  intros Hid Hi. destruct (puts_w4cc (S := array_output_data) id Hid) as (f & Hf4 & Hff & Hp).
  destruct (puts_color_info (S := array_output_data) bits (u8 pri) trc spc lo hi) as (m & Pm & Lm).
  assert (in_array (write_color_info bits (u8 pri) trc spc lo hi) = Some m) as Em
    by (apply in_array_emits; [by apply emits_puts|lia]).
  unfold flv_packet_metadata, color_info. cbn [pkt_data]. rewrite Em. cbn [mbind option_bind default].
  pose proof (ex_head_len (Z.lor 128 (if 0 <? idx then 6 else 4)) 4 idx f Hf4).
  eexists. split.
  - apply in_array_emits; [apply emits_metadata; [done..|lia]|].
    rewrite tag_bytes_len. cbn [tag_body]. rewrite zlen_app. lia.
  - apply (tag_says_intro 9 0); [rewrite zlen_app; lia|]. by apply read_metadata; [..|lia].
Qed.

(** Every function of flv-mux.c writes one tag. *)
Lemma flv_write_tag c : call_ok c = true →
  ∃ t, flv_write c = Some (Some (tag_bytes t)) ∧ tag_says t (call_time c) (call_says c).
Proof.
  intros (Hd & Hs & Hct & Hp & Hok)%call_ok_parts.
  destruct c as [p off hdr|p id idx|p id off idx|p id idx|p id idx|p id off idx|id bits pri trc spc lo hi idx];
    cbn [call_packet codec_ok flv_write] in *;
    (apply video_call_ok in Hok as (Ht & Hid & Hi) || apply audio_call_ok in Hok as (Ht & Hid & Hi) || idtac);
    try apply Z.ltb_lt in Hp.
  - destruct (write_mux_tag p off hdr) as (t & -> & Ht); [done|lia|done|]. eauto.
  - destruct (write_ex_tag p id 0 PACKETTYPE_SEQ_START idx) as (t & E & Hsay); [done..|].
    unfold flv_packet_start. rewrite E. exists t. split; [done|]. destruct id; exact Hsay.
  - unfold flv_packet_frames, call_says. cbn [call_packet].
    destruct (write_ex_tag p id off PACKETTYPE_FRAMESX idx) as (t3 & E3 & H3); [done..|].
    destruct (write_ex_tag p id off PACKETTYPE_FRAMES idx) as (t1 & E1 & H1); [done..|].
    destruct id; [done|destruct (pkt_dts p =? pkt_pts p)| |destruct (pkt_dts p =? pkt_pts p)];
      rewrite ?E1, ?E3; eexists; (split; [reflexivity|]); (exact H1 || exact H3).
  - destruct (write_ex_tag p id 0 PACKETTYPE_SEQ_END idx) as (t & E & Hsay); [done..|].
    unfold flv_packet_end. rewrite E. exists t. split; [done|]. destruct id; exact Hsay.
  - destruct (write_audio_tag p id 0 AUDIO_PACKETTYPE_SEQ_START idx) as (t & E & Hsay); [done..|by left|lia|].
    unfold flv_packet_audio_start. rewrite E. exists t. by split.
  - destruct (write_audio_tag p id off AUDIO_PACKETTYPE_FRAMES idx) as (t & E & Hsay); [done..|by right|lia|].
    unfold flv_packet_audio_frames. rewrite E. exists t. by split.
  - rewrite !andb_true_iff, negb_true_iff, bool_decide_eq_false, Z.leb_le, Z.ltb_lt in Hok.
    destruct Hok as [[Hid Hi1] Hi2].
    destruct (write_metadata_tag id bits pri trc spc lo hi idx) as (t & -> & Hsay); [done|lia|]. eauto.
Qed.

(** C31: What the functions of flv-mux.c write for a packet, legacy or enhanced, first track
    or not, header, frame or end of sequence, whatever follows it, is read back as one tag
    with the time of the packet after the start of the output, modulo 2^31 milliseconds,
    and with its frame type, codec, track, composition time and data. The packet has less
    than 16 MiB and a composition time that fits its 24 bits, and is not empty in the forms
    of an audio packet and of a legacy video packet. *)
Theorem flv_packet_roundtrip c rest :
  call_ok c = true →
  ∃ bs t, flv_write c = Some (Some bs) ∧ read_tag (bs ++ rest) = Some (t, rest) ∧
    tag_time t = call_time c ∧ read_body t = Some (call_says c).
Proof.
  intros (t & E & Ht & Htime & Hb)%flv_write_tag.
  exists (tag_bytes t), t. split_and!; [done| |done..]. by apply read_tag_bytes.
Qed.

Definition ex_frame : encoder_packet :=
  mk_packet [0; 0; 0; 2; 65; 7] 3003 1001 1001 30000 OBS_ENCODER_VIDEO true 0 0 0 0 1 7.

Lemma flv_packet_roundtrip_witness :
  ∃ bs t, flv_write (VideoFrames ex_frame CODEC_HEVC 20 1) = Some (Some bs) ∧
    read_tag (bs ++ [9]) = Some (t, [9]) ∧
    tag_time t = call_time (VideoFrames ex_frame CODEC_HEVC 20 1) ∧
    read_body t = Some (call_says (VideoFrames ex_frame CODEC_HEVC 20 1)).
Proof. apply flv_packet_roundtrip. vm_compute. reflexivity. Defined.

(** The tag of the witness: 13 ms after the start, shown 67 ms later. *)
Example ex_frame_tag :
  (call_time (VideoFrames ex_frame CODEC_HEVC 20 1), call_says (VideoFrames ex_frame CODEC_HEVC 20 1)) =
  (13, ExVideoBody 1 PACKETTYPE_FRAMES CODEC_HEVC 1 (Some 67) [0; 0; 0; 2; 65; 7]).
Proof. vm_compute. reflexivity. Qed.

(** A packet before the first one that was written: its time is that of 24.8 days later. *)
Example negative_time :
  call_time (Mux (mk_packet [1] 0 0 1 1000 OBS_ENCODER_AUDIO false 0 0 0 0 0 7) 5 false) = 2 ^ 31 - 5.
Proof. vm_compute. reflexivity. Qed.

(** With no data, [flv_packet_audio_ex] leaves the pointer its caller frees unset. *)
Example empty_audio_unset p id off type idx :
  pkt_data p = [] → pkt_type p = OBS_ENCODER_AUDIO → pkt_timebase_den p ≠ 0 →
  flv_packet_audio_ex p id off type idx = Some None.
Proof.
  intros Hp Ht Hd. unfold flv_packet_audio_ex, pkt_size. rewrite Ht, Hp. cbn. by rewrite ms_time.
Qed.
