(* ===== verification/FlvOutput.v ===== *)
(** * The FLV file output: plugins/obs-outputs/flv-output.c

    The state of the output, its headers and footers, and the handlers libobs calls:
    start, a packet, stop. The file is a [FILE]; opening it and the checks of libobs
    before a start are arguments. Null pointers used, failed asserts and an uninitialised
    pointer freed are [None]. HEVC is enabled. *)

From S2P Require Import Prelude Serializer FileSerializer Double Encoder Avc Hevc RtmpAv1 RtmpHevc Interleave Flv.

Local Open Scope Z_scope.

(** ** The output *)

(** The version string, the nominal peak luminance and where the data of a packet lies. *)
Record flv_env := mk_flv_env {
  obs_version_string : bytes;
  hdr_nominal_peak_level : Z;
  address : bytes → Z
}.

(** [ended] is the code of [obs_output_signal_stop], or of [obs_output_end_data_capture]
    when it is zero. [file] is not set to null when it is closed: nothing uses it then,
    the output being inactive. *)
Record flv_output := mk_flv_output {
  file : option FILE;
  active : bool;
  stopping : bool;
  stop_ts : Z;
  sent_headers : bool;
  last_packet_ts : Z;
  audio_codec : list audio_id_t;
  video_codec : list video_id_t;
  got_first_packet : bool;
  start_dts_offset : Z;
  ended : option Z
}.

(** [bzalloc] *)
Definition flv_output_create : flv_output :=
  mk_flv_output None false false 0 false 0 (replicate MAX_OUTPUT_AUDIO_ENCODERS AUDIO_CODEC_NONE)
    (replicate MAX_OUTPUT_VIDEO_ENCODERS CODEC_NONE) false 0 None.

Section updates.
Implicit Types st : flv_output.

Definition set_file st f := mk_flv_output f (active st) (stopping st) (stop_ts st) (sent_headers st)
  (last_packet_ts st) (audio_codec st) (video_codec st) (got_first_packet st) (start_dts_offset st) (ended st).
Definition set_last st ts := mk_flv_output (file st) (active st) (stopping st) (stop_ts st) (sent_headers st)
  ts (audio_codec st) (video_codec st) (got_first_packet st) (start_dts_offset st) (ended st).
Definition set_codecs st a v := mk_flv_output (file st) (active st) (stopping st) (stop_ts st) (sent_headers st)
  (last_packet_ts st) a v (got_first_packet st) (start_dts_offset st) (ended st).
Definition set_sent_headers st := mk_flv_output (file st) (active st) (stopping st) (stop_ts st) true
  (last_packet_ts st) (audio_codec st) (video_codec st) (got_first_packet st) (start_dts_offset st) (ended st).
Definition set_start st off := mk_flv_output (file st) (active st) (stopping st) (stop_ts st) (sent_headers st)
  (last_packet_ts st) (audio_codec st) (video_codec st) true off (ended st).
End updates.

(** [fwrite] on the stream of the output. *)
Definition put st (bs : bytes) : option flv_output :=
  f ← file st; Some (set_file st (Some (fwrite bs f).2)).

(** ** Encoders of the output (obs-output.c) *)

Definition obs_output_get_video_encoder2 (c : output_conf) (idx : nat) : option obs_encoder :=
  if (idx <? MAX_OUTPUT_VIDEO_ENCODERS)%nat then mjoin (video_encoders c !! idx) else None.

Definition obs_output_get_video_encoder (c : output_conf) : option obs_encoder :=
  i ← first_encoder_index (video_encoders c); obs_output_get_video_encoder2 c (Z.to_nat i).

Definition obs_output_get_audio_encoder (c : output_conf) (idx : nat) : option obs_encoder :=
  if (idx <? MAX_OUTPUT_AUDIO_ENCODERS)%nat then mjoin (audio_encoders c !! idx) else None.

Section output.
Context (env : flv_env) (c : output_conf).
Implicit Types st : flv_output.

(** ** Packets *)

Definition write_packet st (packet : encoder_packet) (is_header : bool) : option flv_output :=
  ts ← get_ms_time packet (pkt_dts packet);
  data ← flv_packet_mux packet (if is_header then 0 else start_dts_offset st) is_header;
  put (set_last st ts) data.

(** [size] is [packet->size]. *)
Definition write_packet_ex st (packet : encoder_packet) (size : Z) (is_header is_footer : bool) (idx : nat) :
    option flv_output :=
  codec ← video_codec st !! idx;
  data ← (if is_header then flv_packet_start packet size codec (Z.of_nat idx)
          else if is_footer then flv_packet_end packet codec (Z.of_nat idx)
          else flv_packet_frames packet codec (start_dts_offset st) (Z.of_nat idx));
  put st data.

Definition write_audio_packet_ex st (packet : encoder_packet) (is_header : bool) (idx : nat) : option flv_output :=
  codec ← audio_codec st !! idx;
  data ← (if is_header then flv_packet_audio_start packet codec (Z.of_nat idx)
          else flv_packet_audio_frames packet codec (start_dts_offset st) (Z.of_nat idx));
  data ← data;
  put st data.

(** ** Headers *)

Definition write_meta_data st : option flv_output :=
  meta_data ← flv_meta_data (obs_version_string env) (obs_output_get_video_encoder c)
                (obs_output_get_audio_encoder c 0) true;
  put st meta_data.

(** A packet made by the output, with a time base of one second. *)
Definition made_packet (type : obs_encoder_type) (keyframe : bool) (data : bytes) : encoder_packet :=
  mk_packet data 0 0 0 1 type keyframe 0 0 0 0 0 0.

Definition write_audio_header st (idx : nat) : option (flv_output * bool) :=
  match obs_output_get_audio_encoder c idx with
  | None => Some (st, false)
  | Some aencoder =>
      match obs_encoder_get_extra_data (Some aencoder) with
      | None => Some (st, true)
      | Some data =>
          let packet := made_packet OBS_ENCODER_AUDIO false data in
          st ← (if (idx =? 0)%nat then write_packet st packet true
                else write_audio_packet_ex st packet true idx);
          Some (st, true)
      end
  end.

Definition write_video_header st (idx : nat) : option (flv_output * bool) :=
  match obs_output_get_video_encoder2 c idx with
  | None => Some (st, false)
  | Some vencoder =>
      match obs_encoder_get_extra_data (Some vencoder) with
      | None => Some (st, false)
      | Some header =>
          let packet data := made_packet OBS_ENCODER_VIDEO true data in
          codec ← video_codec st !! idx;
          match codec with
          | CODEC_NONE => Some (st, false)
          | CODEC_H264 =>
              data ← obs_parse_avc_header (address env header) header;
              st ← (if (idx =? 0)%nat then write_packet st (packet data) true
                    else write_packet_ex st (packet data) (zlen data) true false idx);
              Some (st, true)
          | CODEC_HEVC =>
              '(data, size) ← obs_parse_hevc_header (address env header) header;
              st ← write_packet_ex st (packet (default [] data)) size true false idx;
              Some (st, true)
          | CODEC_AV1 =>
              data ← obs_parse_av1_header header;
              st ← write_packet_ex st (packet data) (zlen data) true false idx;
              Some (st, true)
          end
      end
  end.

Definition raw_sample_bits (f : video_format) : Z :=
  match f with
  | VIDEO_FORMAT_I010 | VIDEO_FORMAT_P010 | VIDEO_FORMAT_I210 => 10
  | VIDEO_FORMAT_I412 | VIDEO_FORMAT_YA2L => 12
  | _ => 8
  end.

(** Primaries, transfer characteristics and matrix, as ISO/IEC 23091-2 numbers them. *)
Definition color_description (cs : video_colorspace) : Z * Z * Z :=
  match cs with
  | VIDEO_CS_601 => (6, 6, 6)
  | VIDEO_CS_DEFAULT | VIDEO_CS_709 => (1, 1, 1)
  | VIDEO_CS_SRGB => (1, 13, 1)
  | VIDEO_CS_2100_PQ => (9, 16, 9)
  | VIDEO_CS_2100_HLG => (9, 18, 9)
  end.

Definition is_hdr (cs : video_colorspace) : bool :=
  match cs with VIDEO_CS_2100_PQ | VIDEO_CS_2100_HLG => true | _ => false end.

Definition write_video_metadata st (idx : nat) : option (flv_output * bool) :=
  match obs_output_get_video_encoder2 c idx with
  | None => Some (st, false)
  | Some encoder =>
      match obs_encoder_video (Some encoder) with
      | None => Some (st, false)
      | Some info =>
          if negb (is_hdr (colorspace info)) then Some (st, true) else
          codec ← video_codec st !! idx;
          if bool_decide (codec = CODEC_H264) then Some (st, true) else
          let '(pri, trc, spc) := color_description (colorspace info) in
          let max_luminance :=
            if trc =? 18 then 1000 else if trc =? 16 then hdr_nominal_peak_level env else 0 in
          data ← flv_packet_metadata codec (raw_sample_bits (vi_format info)) pri trc spc 0 max_luminance
                   (Z.of_nat idx);
          st ← put st data;
          Some (st, true)
      end
  end.

(** The codecs of the encoders, up to the first track without one. *)
Fixpoint codecs {A} (to_type : string → A) (encs : list (option obs_encoder)) (old : list A) : list A :=
  match encs, old with
  | Some e :: encs, _ :: old => to_type (enc_codec e) :: codecs to_type encs old
  | _, _ => old
  end.

(** The loop over the video tracks; [false] is the early return. *)
Fixpoint write_video_headers (n : nat) (i : nat) st : option (flv_output * bool) :=
  match n with
  | O => Some (st, true)
  | S n =>
      match obs_output_get_video_encoder2 c i with
      | None => write_video_headers n (S i) st
      | Some _ =>
          '(st, ok) ← write_video_header st i;
          if negb ok then Some (st, false) else
          '(st, ok) ← write_video_metadata st i;
          if negb ok then Some (st, false) else
          write_video_headers n (S i) st
      end
  end.

(** The loop over the audio tracks from [i], which ends at the first without an encoder. *)
Fixpoint write_audio_headers (n : nat) (i : nat) st : option flv_output :=
  match n with
  | O => Some st
  | S n =>
      '(st, more) ← write_audio_header st i;
      if more : bool then write_audio_headers n (S i) st else Some st
  end.

Definition write_headers st : option flv_output :=
  let st := set_codecs st (codecs to_audio_type (audio_encoders c) (audio_codec st))
              (codecs to_video_type (video_encoders c) (video_codec st)) in
  st ← write_meta_data st;
  '(st, _) ← write_audio_header st 0;
  '(st, ok) ← write_video_headers MAX_OUTPUT_VIDEO_ENCODERS 0 st;
  if negb ok then Some st else
  write_audio_headers MAX_OUTPUT_AUDIO_ENCODERS 1 st.

(** ** Footers *)

Definition write_video_footer st (idx : nat) : option flv_output :=
  write_packet_ex st (made_packet OBS_ENCODER_VIDEO false []) 0 false true idx.

Fixpoint write_footers_from (n : nat) (i : nat) st : option flv_output :=
  match n with
  | O => Some st
  | S n =>
      match obs_output_get_video_encoder2 c i with
      | None => write_footers_from n (S i) st
      | Some _ =>
          codec ← video_codec st !! i;
          if (i =? 0)%nat && bool_decide (codec = CODEC_H264) then write_footers_from n (S i) st else
          st ← write_video_footer st i;
          write_footers_from n (S i) st
      end
  end.

Definition write_footers st : option flv_output := write_footers_from MAX_OUTPUT_VIDEO_ENCODERS 0 st.

Definition write_file_info st (duration_ms size : Z) : option flv_output :=
  f ← file st;
  buf ← file_info duration_ms size;
  put (set_file st (Some (os_fseeki64 FLV_INFO_SIZE_OFFSET SERIALIZE_SEEK_START f).2)) buf.

(** ** The handlers *)

Definition flv_output_start st (can_begin initialized opened : bool) : flv_output * bool :=
  if negb (can_begin && initialized) then (st, false) else
  let st := mk_flv_output (if opened then Some file_output_serializer_init else None) (active st) false (stop_ts st)
              false (last_packet_ts st) (audio_codec st) (video_codec st) false (start_dts_offset st) (ended st) in
  if negb opened then (st, false) else
  (mk_flv_output (file st) true (stopping st) (stop_ts st) (sent_headers st) (last_packet_ts st) (audio_codec st)
     (video_codec st) (got_first_packet st) (start_dts_offset st) (ended st), true).

Definition flv_output_stop st (ts : Z) : flv_output :=
  mk_flv_output (file st) (active st) true (ts / 1000) (sent_headers st) (last_packet_ts st) (audio_codec st)
    (video_codec st) (got_first_packet st) (start_dts_offset st) (ended st).

Definition flv_output_actual_stop st (code : Z) : option flv_output :=
  let st := mk_flv_output (file st) false (stopping st) (stop_ts st) (sent_headers st) (last_packet_ts st)
              (audio_codec st) (video_codec st) (got_first_packet st) (start_dts_offset st) (ended st) in
  st ← (match file st with
        | None => Some st
        | Some _ =>
            st ← write_footers st;
            f ← file st;
            write_file_info st (last_packet_ts st) (f_pos f)
        end);
  Some (mk_flv_output (file st) (active st) (stopping st) (stop_ts st) (sent_headers st) (last_packet_ts st)
          (audio_codec st) (video_codec st) (got_first_packet st) (start_dts_offset st) (Some code)).

Definition OBS_OUTPUT_ENCODE_ERROR : Z := -8.

(** The first packet sets the time the others are relative to. *)
Definition note_first st (packet : encoder_packet) : option flv_output :=
  if got_first_packet st then Some st else
  off ← get_ms_time packet (pkt_dts packet); Some (set_start st off).

Definition write_video_data st (packet : encoder_packet) : option flv_output :=
  st ← note_first st packet;
  let idx := Z.to_nat (pkt_track_idx packet) in
  codec ← video_codec st !! idx;
  match codec with
  | CODEC_NONE => Some st
  | _ =>
      parsed_packet ←
        match codec with
        | CODEC_HEVC => obs_parse_hevc_packet (address env (pkt_data packet)) packet
        | CODEC_AV1 => obs_parse_av1_packet packet
        | _ => obs_parse_avc_packet (address env (pkt_data packet)) packet
        end;
      if negb (bool_decide (codec = CODEC_H264)) || negb (idx =? 0)%nat
      then write_packet_ex st parsed_packet (pkt_size parsed_packet) false false idx
      else write_packet st parsed_packet false
  end.

Definition write_audio_data st (packet : encoder_packet) : option flv_output :=
  st ← note_first st packet;
  let idx := Z.to_nat (pkt_track_idx packet) in
  if negb (idx =? 0)%nat then write_audio_packet_ex st packet false idx
  else write_packet st packet false.

(** A null packet, an encoder error, is [None]. *)
Definition flv_output_data st (packet : option encoder_packet) : option flv_output :=
  if negb (active st) then Some st else
  match packet with
  | None => flv_output_actual_stop st OBS_OUTPUT_ENCODE_ERROR
  | Some packet =>
      if stopping st && (i64 (stop_ts st) <=? pkt_sys_dts_usec packet) then flv_output_actual_stop st 0 else
      st ← (if sent_headers st then Some st else st ← write_headers st; Some (set_sent_headers st));
      match pkt_type packet with
      | OBS_ENCODER_VIDEO => write_video_data st packet
      | OBS_ENCODER_AUDIO => write_audio_data st packet
      end
  end.
End output.
