(* ===== verification/FlvFile.v ===== *)
(** * FLV recordings read back

    What a recording made by flv-output.c contains: the header, the metadata with the
    duration and the size of the file, and one tag for each header, packet and footer. *)

From S2P Require Import Prelude Util Serializer FileSerializer Double Encoder Avc Hevc RtmpAv1 RtmpHevc Interleave Flv FlvTag FlvOutput.

Local Open Scope Z_scope.
Local Open Scope serializer_scope.

(** ** The metadata *)

Definition flv_header : bytes := [70; 76; 86; 1; 5; 0; 0; 0; 9; 0; 0; 0; 0].

Definition named_number (name : string) (d : double) : bytes :=
  be16 (zlen (str name)) ++ str name ++ AMF_NUMBER :: be64 (double_to_bits d).

(** Writers that only add to the buffer, and stay within it. *)
Definition adds (cap : Z) (f : bytes → option bytes) : Prop :=
  ∀ enc r, f enc = Some r → ∃ x, r = enc ++ x ∧ zlen r ≤ cap.

Lemma adds_byte cap b : adds cap (λ enc, amf_byte cap enc b).
Proof.
  intros enc r. unfold amf_byte. destruct (Z.ltb_spec (zlen enc) cap); [|done]. intros [= <-].
  eexists. split; [done|]. len_lia.
Qed.

Lemma adds_int16 cap v : adds cap (λ enc, AMF_EncodeInt16 cap enc v).
Proof.
  intros enc r. unfold AMF_EncodeInt16. destruct (Z.ltb_spec cap (zlen enc + 2)); [done|]. intros [= <-].
  eexists. split; [done|]. len_lia.
Qed.

Lemma adds_int32 cap v : adds cap (λ enc, AMF_EncodeInt32 cap enc v).
Proof.
  intros enc r. unfold AMF_EncodeInt32. destruct (Z.ltb_spec cap (zlen enc + 4)); [done|]. intros [= <-].
  eexists. split; [done|]. len_lia.
Qed.

Lemma adds_number cap d : adds cap (λ enc, AMF_EncodeNumber cap enc d).
Proof.
  intros enc r. unfold AMF_EncodeNumber. destruct (Z.ltb_spec cap (zlen enc + 1 + 8)); [done|]. intros [= <-].
  eexists. split; [done|]. len_lia.
Qed.

Lemma adds_boolean cap b : adds cap (λ enc, AMF_EncodeBoolean cap enc b).
Proof.
  intros enc r. unfold AMF_EncodeBoolean. destruct (Z.ltb_spec cap (zlen enc + 2)); [done|]. intros [= <-].
  eexists. split; [done|]. len_lia.
Qed.

Lemma adds_string cap s : adds cap (λ enc, AMF_EncodeString cap enc s).
Proof.
  intros enc r. unfold AMF_EncodeString, AMF_EncodeInt16, AMF_EncodeInt32.
  destruct (Z.ltb_spec (zlen s) 65536), (Z.ltb_spec cap (zlen enc + 1 + 2 + zlen s)),
    (Z.ltb_spec cap (zlen enc + 1 + 4 + zlen s)); try done; cbn [orb andb].
  all: case_match; [done|]; intros [= <-]; rewrite <- !app_assoc; eexists; (split; [done|]); len_lia.
Qed.

Lemma adds_name cap s : adds cap (λ enc, amf_name cap enc s).
Proof.
  intros enc r. unfold amf_name, AMF_EncodeInt16.
  destruct (Z.ltb_spec cap (zlen enc + 2 + zlen s)); [done|]. case_match; [done|]. intros [= <-].
  rewrite <- app_assoc. eexists. split; [done|]. len_lia.
Qed.

Lemma adds_bind cap f g : adds cap f → adds cap g → adds cap (λ enc, f enc ≫= g).
Proof.
  intros Hf Hg enc r. destruct (f enc) as [x|] eqn:E; [|done]. intros H.
  apply Hf in E as (y & -> & _). apply Hg in H as (z & -> & ?). rewrite <- app_assoc in *. eauto.
Qed.

Lemma encode_all_app fs1 fs2 enc : encode_all (fs1 ++ fs2) enc = encode_all fs1 enc ≫= encode_all fs2.
Proof.
  unfold encode_all. rewrite foldl_app. destruct (foldl _ (Some enc) fs1); [done|].
  induction fs2; [done|]. simpl. done.
Qed.

Lemma encode_all_adds cap fs enc r : Forall (adds cap) fs → zlen enc ≤ cap →
  encode_all fs enc = Some r → ∃ x, r = enc ++ x ∧ zlen r ≤ cap.
Proof.
  intros H. revert enc. induction H as [|f fs Hf _ IH]; intros enc Hl.
  - intros [= <-]. exists []. by rewrite app_nil_r.
  - change (f :: fs) with ([f] ++ fs). rewrite encode_all_app. change (encode_all [f] enc) with (Some enc ≫= f).
    cbn [mbind option_bind]. destruct (f enc) as [x|] eqn:E; [|done]. cbn [mbind option_bind]. intros H.
    apply Hf in E as (y & -> & Hy). apply IH in H as (z & -> & Hz); [|done].
    rewrite <- app_assoc in *. eauto.
Qed.

(** What precedes the two fields that are filled in when the file is complete. *)
Definition meta_head : bytes :=
  [2] ++ be16 13 ++ str "@setDataFrame" ++ [2] ++ be16 10 ++ str "onMetaData" ++ [8] ++ be32 20.

Definition info_fields (duration size : double) : bytes :=
  named_number "duration" duration ++ named_number "fileSize" size.

Lemma info_fields_len d s : zlen (info_fields d s) = 38.
Proof. done. Qed.

Lemma file_info_fields duration_ms size :
  file_info duration_ms size =
    Some (info_fields (double_div (double_of_int duration_ms) (double_of_int 1000)) (double_of_int size)).
Proof.
  unfold file_info. generalize (double_div (double_of_int duration_ms) (double_of_int 1000)) (double_of_int size).
  intros d s. done.
Qed.

Lemma meta_data_head version ve ae meta :
  build_flv_meta_data version ve ae = Some meta →
  ∃ rest, meta = meta_head ++ info_fields (double_of_int 0) (double_of_int 0) ++ rest ∧ zlen meta ≤ 4096.
Proof.
  unfold build_flv_meta_data. destruct (encoder_video_codec ve) as [v|]; [|done]. cbn [mbind option_bind].
  match goal with |- encode_all ?fs [] = _ → _ => rewrite <- (take_drop 6 fs) end.
  rewrite encode_all_app. cbn [take drop].
  match goal with |- (?x ≫= _) = _ → _ =>
    replace x with (Some (meta_head ++ info_fields (double_of_int 0) (double_of_int 0))) by (vm_compute; reflexivity) end.
  cbn [mbind option_bind]. intros H. apply (encode_all_adds 4096) in H as (rest & -> & Hl); [|..|done].
  - exists rest. by rewrite <- app_assoc in *.
  - repeat constructor; unfold enc_num_val, AMF_EncodeNamedNumber, enc_bool_val, AMF_EncodeNamedBoolean, enc_str_val,
      AMF_EncodeNamedString;
      first [apply adds_byte | apply adds_bind; [apply adds_name|]];
      first [apply adds_number | apply adds_boolean | apply adds_string].
Qed.

Lemma emits_meta meta : zlen meta ≤ 4096 →
  in_array ((s_put (str "FLV") ;;; s_w8 1 ;;; s_w8 5 ;;; s_wb32 9 ;;; s_wb32 0) ;;;
    start_pos <- serializer_get_pos ;;
    s_w8 RTMP_PACKET_TYPE_INFO ;;; s_wb24 (u32 (zlen meta)) ;;; s_wb32 0 ;;; s_wb24 0 ;;; s_put meta ;;;
    write_previous_tag_size_without_header (u32 start_pos)) =
  Some (flv_header ++ tag_bytes (mk_tag 18 0 meta)).
Proof.
  intros Hl. pose proof (zlen_nonneg meta). apply in_array_emits; [|rewrite zlen_app, tag_bytes_len; cbn [tag_body]; 
    change (zlen flv_header) with 13; lia].
  eapply emits_seq; [|reflexivity|].
  { apply emits_puts. eapply puts_eq; [repeat first [apply puts_put | apply puts_w8 | apply puts_wb32 | apply puts_seq]|].
    reflexivity. }
  eapply emits_eq.
  - eapply emits_seq; [apply emits_get_pos|reflexivity|].
    repeat (eapply emits_seq; [solve [apply emits_puts; eauto with flv] | reflexivity |]).
    change (zlen flv_header) with 13. change (u32 (0 + 13)) with 13.
    apply emits_tag_size_after; len_lia.
  - unfold tag_bytes. cbn [tag_type tag_time tag_body app]. change (zlen flv_header) with 13.
    rewrite !(u32_small (zlen meta)) by lia.
    match goal with |- context [be32 (?p - 13)] => replace (p - 13) with (11 + zlen meta) by len_lia end.
    done.
Qed.

Lemma flv_meta_data_tag version ve ae meta :
  build_flv_meta_data version ve ae = Some meta →
  flv_meta_data version ve ae true = Some (flv_header ++ tag_bytes (mk_tag 18 0 meta)).
Proof.
  intros E. unfold flv_meta_data. rewrite E. cbn [mbind option_bind].
  destruct (meta_data_head _ _ _ _ E) as (_ & _ & Hl). by apply emits_meta.
Qed.

(** ** Appending tags to the file *)

Definition holds_file (st : flv_output) (bs : bytes) : Prop := file st = Some (mk_FILE bs (zlen bs)).

(** The tags [ts] say what the calls [cs] should write. *)
Definition tags_say (ts : list flv_tag) (cs : list flv_call) : Prop :=
  Forall2 (λ t c, tag_says t (call_time c) (call_says c)) ts cs.

(** What is kept when only the file changes, and the time of the last packet. *)
Record same_output (st st' : flv_output) : Prop := {
  s_active : active st' = active st;
  s_stopping : stopping st' = stopping st;
  s_stop_ts : stop_ts st' = stop_ts st;
  s_headers : sent_headers st' = sent_headers st;
  s_audio : audio_codec st' = audio_codec st;
  s_video : video_codec st' = video_codec st;
  s_got : got_first_packet st' = got_first_packet st;
  s_start : start_dts_offset st' = start_dts_offset st
}.

(** The time of the last packet that [write_packet] wrote. *)
Definition last_ts (ts : Z) (cs : list flv_call) : Z :=
  foldl (λ ts c, match c with Mux p _ _ => ms p (pkt_dts p) | _ => ts end) ts cs.

(** [st'] is [st] after the calls [cs]. *)
Record wrote (st st' : flv_output) (cs : list flv_call) : Prop := {
  w_same : same_output st st';
  w_last : last_packet_ts st' = last_ts (last_packet_ts st) cs;
  w_file : ∀ bs, holds_file st bs →
    ∃ ts, tags_say ts cs ∧ holds_file st' (bs ++ concat (map tag_bytes ts))
}.

Lemma same_output_trans st1 st2 st3 : same_output st1 st2 → same_output st2 st3 → same_output st1 st3.
Proof. intros [] []. constructor; congruence. Qed.

Lemma wrote_nil st : wrote st st [].
Proof. constructor; [done|done|]. intros bs H. exists []. split; [constructor|]. by rewrite app_nil_r. Qed.

Lemma wrote_app st1 st2 st3 cs1 cs2 : wrote st1 st2 cs1 → wrote st2 st3 cs2 → wrote st1 st3 (cs1 ++ cs2).
Proof.
  intros [S1 L1 F1] [S2 L2 F2]. constructor.
  - by eapply same_output_trans.
  - unfold last_ts in *. by rewrite foldl_app, L2, L1.
  - intros bs H. apply F1 in H as (ts1 & T1 & H). apply F2 in H as (ts2 & T2 & H).
    exists (ts1 ++ ts2). split; [apply Forall2_app; assumption|]. rewrite map_app, concat_app, app_assoc. exact H.
Qed.

Lemma overwrite_end bs d : overwrite (zlen bs) d bs = bs ++ d.
Proof.
  unfold overwrite. destruct d as [|x d]; [by rewrite app_nil_r|]. rewrite padded_within by lia.
  unfold splice. rewrite zlen_to_nat, take_ge, drop_ge, app_nil_r; [done|unfold zlen; lia|lia].
Qed.

Lemma put_end st bs d : holds_file st bs →
  put st d = Some (set_file st (Some (mk_FILE (bs ++ d) (zlen (bs ++ d))))).
Proof.
  intros H. unfold put. rewrite H. cbn [mbind option_bind]. unfold fwrite. cbn [f_pos f_bytes snd].
  by rewrite overwrite_end, zlen_app.
Qed.

(** A file open at its end. *)
Definition recording (st : flv_output) : Prop := ∃ bs, holds_file st bs.

Lemma put_wrote st d c t : recording st →
  tag_says t (call_time c) (call_says c) → d = tag_bytes t →
  ∃ st', put (match c with Mux p _ _ => set_last st (ms p (pkt_dts p)) | _ => st end) d = Some st' ∧
    wrote st st' [c] ∧ recording st'.
Proof.
  intros (bs & Hb) Hsay ->. set (st0 := match c with Mux p _ _ => _ | _ => st end).
  assert (holds_file st0 bs) as Hb0 by (by destruct c). assert (same_output st st0) as Hs0 by (by destruct c).
  assert (last_packet_ts st0 = last_ts (last_packet_ts st) [c]) as Hl0 by (by destruct c).
  eexists. split; [by apply put_end|]. split; [constructor|].
  - eapply same_output_trans; [exact Hs0|done].
  - done.
  - intros bs' Hb'. assert (bs' = bs) as -> by (unfold holds_file in *; congruence).
    exists [t]. split; [constructor; [exact Hsay|constructor]|]. cbn [map concat]. by rewrite app_nil_r.
  - by eexists.
Qed.

(** The step of a function that writes one tag. *)
Definition writes (st : flv_output) (r : option flv_output) (cs : list flv_call) : Prop :=
  ∃ st', r = Some st' ∧ wrote st st' cs ∧ recording st'.

Lemma writes_nil st : recording st → writes st (Some st) [].
Proof. intros H. exists st. split_and!; [done|apply wrote_nil|done]. Qed.

Lemma writes_bind st r k cs1 cs2 :
  writes st r cs1 → (∀ st', wrote st st' cs1 → recording st' → writes st' (k st') cs2) →
  writes st (r ≫= k) (cs1 ++ cs2).
Proof.
  intros (st1 & -> & W1 & R1) Hk. destruct (Hk st1 W1 R1) as (st2 & E & W2 & R2).
  exists st2. split_and!; [done|by eapply wrote_app|done].
Qed.

Lemma write_packet_writes st p hdr :
  recording st → call_ok (Mux p (if hdr : bool then 0 else start_dts_offset st) hdr) = true →
  writes st (write_packet st p hdr) [Mux p (if hdr : bool then 0 else start_dts_offset st) hdr].
Proof.
  intros Hr Hok. destruct (flv_write_tag _ Hok) as (t & E & Hsay). cbn [flv_write] in E.
  apply call_ok_parts in Hok as (Hd & _). cbn [call_packet] in Hd.
  unfold write_packet. rewrite ms_time by done. cbn [mbind option_bind].
  destruct (flv_packet_mux _ _ _) as [bs|]; [|done]. injection E as ->. cbn [mbind option_bind].
  exact (put_wrote st _ (Mux _ _ _) t Hr Hsay eq_refl).
Qed.

Definition ex_call st p (hdr ftr : bool) codec idx : flv_call :=
  if hdr then VideoStart p codec idx else if ftr then VideoEnd p codec idx
  else VideoFrames p codec (start_dts_offset st) idx.

Lemma write_packet_ex_writes st p hdr ftr codec idx :
  recording st → video_codec st !! idx = Some codec → call_ok (ex_call st p hdr ftr codec (Z.of_nat idx)) = true →
  writes st (write_packet_ex st p (pkt_size p) hdr ftr idx) [ex_call st p hdr ftr codec (Z.of_nat idx)].
Proof.
  intros Hr Hc Hok. destruct (flv_write_tag _ Hok) as (t & E & Hsay).
  unfold write_packet_ex. rewrite Hc. cbn [mbind option_bind].
  unfold ex_call in *. destruct hdr; [|destruct ftr]; cbn [flv_write] in E;
    (match type of E with _ <$> ?x = _ => destruct x as [bs|]; [|done] end);
    injection E as ->; cbn [mbind option_bind].
  - exact (put_wrote st _ (VideoStart _ _ _) t Hr Hsay eq_refl).
  - exact (put_wrote st _ (VideoEnd _ _ _) t Hr Hsay eq_refl).
  - exact (put_wrote st _ (VideoFrames _ _ _ _) t Hr Hsay eq_refl).
Qed.

Definition audio_ex_call st p (hdr : bool) codec idx : flv_call :=
  if hdr then AudioStart p codec idx else AudioFrames p codec (start_dts_offset st) idx.

Lemma write_audio_packet_ex_writes st p hdr codec idx :
  recording st → audio_codec st !! idx = Some codec → call_ok (audio_ex_call st p hdr codec (Z.of_nat idx)) = true →
  writes st (write_audio_packet_ex st p hdr idx) [audio_ex_call st p hdr codec (Z.of_nat idx)].
Proof.
  intros Hr Hc Hok. destruct (flv_write_tag _ Hok) as (t & E & Hsay).
  unfold write_audio_packet_ex. rewrite Hc. cbn [mbind option_bind].
  unfold audio_ex_call in *. destruct hdr; cbn [flv_write] in E; rewrite E; cbn [mbind option_bind].
  - exact (put_wrote st _ (AudioStart _ _ _) t Hr Hsay eq_refl).
  - exact (put_wrote st _ (AudioFrames _ _ _ _) t Hr Hsay eq_refl).
Qed.

Definition file_start (meta : bytes) : bytes := flv_header ++ tag_bytes (mk_tag 18 0 meta).

(** What precedes the two fields, whatever they hold. *)
Lemma file_start_info rest x : ∃ a b, zlen a = 58 ∧ ∀ d s,
  file_start (meta_head ++ info_fields d s ++ rest) ++ x = a ++ info_fields d s ++ b.
Proof.
  set (n := 34 + (38 + zlen rest)).
  exists (flv_header ++ 18 :: be24 n ++ be24 0 ++ 0 :: be24 0 ++ meta_head), (rest ++ be32 (11 + n) ++ x).
  split; [reflexivity|]. intros d s.
  assert (zlen (meta_head ++ info_fields d s ++ rest) = n) as Hn by (rewrite !zlen_app; reflexivity).
  unfold file_start, tag_bytes. cbn [tag_type tag_time tag_body]. rewrite Hn.
  change (u8 (Z.shiftr 0 24)) with 0. generalize (info_fields d s). intros fields.
  repeat rewrite <- !app_assoc. cbn [app]. repeat rewrite <- !app_assoc. cbn [app]. by rewrite <- ?app_assoc.
Qed.

Lemma overwrite_mid a k b d : zlen k = zlen b → k ≠ [] → overwrite (zlen a) k (a ++ b ++ d) = a ++ k ++ d.
Proof.
  intros Hl Hk. unfold overwrite. destruct k as [|y k]; [done|].
  rewrite padded_within by len_lia. by apply splice_app.
Qed.

(** ** Outputs whose tracks are numbered without gaps *)

Definition pad {A} (n : nat) (l : list A) : list (option A) := map Some l ++ replicate (n - length l) None.

Section tracks.
Context (env : flv_env) (vs as_ : list obs_encoder) (batch : Z).
Let c : output_conf := mk_conf (pad MAX_OUTPUT_VIDEO_ENCODERS vs) (pad MAX_OUTPUT_AUDIO_ENCODERS as_) batch.

Lemma pad_lookup {A} n (l : list A) i : mjoin (pad n l !! i) = l !! i.
Proof.
  unfold pad. destruct (decide (i < length l)%nat) as [Hi|Hi].
  - rewrite lookup_app_l by (by rewrite length_map). rewrite list_lookup_fmap. by destruct (l !! i).
  - rewrite lookup_app_r by (rewrite length_map; lia). rewrite (lookup_ge_None_2 l i) by lia.
    destruct (replicate _ _ !! _) as [x|] eqn:E; [|done]. apply lookup_replicate in E as [-> _]. done.
Qed.

Lemma codecs_pad {A} (f : string → A) n l old : (length l ≤ length old)%nat →
  codecs f (pad n l) old = map (λ e, f (enc_codec e)) l ++ drop (length l) old.
Proof.
  unfold pad. generalize (n - length l)%nat. intros k. revert old. induction l as [|e l IH]; intros old Hl.
  - simpl. destruct k; [by destruct old|done].
  - destruct old as [|x old]; simpl in Hl; [lia|]. simpl. by rewrite IH by lia.
Qed.

Lemma codecs_lookup {A} (f : string → A) n l old i e : (length l ≤ length old)%nat → l !! i = Some e →
  codecs f (pad n l) old !! i = Some (f (enc_codec e)).
Proof.
  intros Hl Hi. rewrite codecs_pad by done. pose proof (lookup_lt_Some _ _ _ Hi).
  rewrite lookup_app_l by (by rewrite length_map). by rewrite list_lookup_fmap, Hi.
Qed.

(** What the headers should be; [None] when an encoder has none. *)
Definition video_header_call (i : nat) (e : obs_encoder) : option flv_call :=
  header ← enc_extra_data e;
  let packet := made_packet OBS_ENCODER_VIDEO true in
  match to_video_type (enc_codec e) with
  | CODEC_NONE => None
  | CODEC_H264 =>
      data ← obs_parse_avc_header (address env header) header;
      Some (if (i =? 0)%nat then Mux (packet data) 0 true else VideoStart (packet data) CODEC_H264 (Z.of_nat i))
  | CODEC_HEVC =>
      '(data, size) ← obs_parse_hevc_header (address env header) header;
      data ← data;
      if size =? zlen data then Some (VideoStart (packet data) CODEC_HEVC (Z.of_nat i)) else None
  | CODEC_AV1 =>
      data ← obs_parse_av1_header header; Some (VideoStart (packet data) CODEC_AV1 (Z.of_nat i))
  end.

Definition metadata_calls (i : nat) (e : obs_encoder) : option (list flv_call) :=
  info ← obs_encoder_video (Some e);
  let codec := to_video_type (enc_codec e) in
  Some (match colorspace info with
        | VIDEO_CS_2100_PQ =>
            if bool_decide (codec = CODEC_H264) then [] else
            [Metadata codec (raw_sample_bits (vi_format info)) 9 16 9 0 (hdr_nominal_peak_level env) (Z.of_nat i)]
        | VIDEO_CS_2100_HLG =>
            if bool_decide (codec = CODEC_H264) then [] else
            [Metadata codec (raw_sample_bits (vi_format info)) 9 18 9 0 1000 (Z.of_nat i)]
        | _ => []
        end).

Definition video_header_calls (i : nat) (e : obs_encoder) : option (list flv_call) :=
  hdr ← video_header_call i e; meta ← metadata_calls i e; Some (hdr :: meta).

Definition audio_header_calls (i : nat) (e : obs_encoder) : option (list flv_call) :=
  Some (match enc_extra_data e with
        | None => []
        | Some data =>
            let packet := made_packet OBS_ENCODER_AUDIO false data in
            [if (i =? 0)%nat then Mux packet 0 true
             else AudioStart packet (to_audio_type (enc_codec e)) (Z.of_nat i)]
        end).

Fixpoint calls_from (f : nat → obs_encoder → option (list flv_call)) (i : nat) (l : list obs_encoder) :
    option (list flv_call) :=
  match l with
  | [] => Some []
  | e :: l => cs ← f i e; cs' ← calls_from f (S i) l; Some (cs ++ cs')
  end.

(** The header of the first audio track, those of the video tracks and those of the
    other audio tracks. *)
Definition header_calls : option (list flv_call) :=
  first ← calls_from audio_header_calls 0 (take 1 as_);
  video ← calls_from video_header_calls 0 vs;
  others ← calls_from audio_header_calls 1 (drop 1 as_);
  Some (first ++ video ++ others).

(** The call a packet leads to, [off] being the time of the first packet. *)
Definition packet_call (off : Z) (p : encoder_packet) : option flv_call :=
  let i := Z.to_nat (pkt_track_idx p) in
  match pkt_type p with
  | OBS_ENCODER_AUDIO =>
      if (i =? 0)%nat then Some (Mux p off false) else
      e ← as_ !! i; Some (AudioFrames p (to_audio_type (enc_codec e)) off (Z.of_nat i))
  | OBS_ENCODER_VIDEO =>
      e ← vs !! i;
      match to_video_type (enc_codec e) with
      | CODEC_NONE => None
      | CODEC_H264 =>
          q ← obs_parse_avc_packet (address env (pkt_data p)) p;
          Some (if (i =? 0)%nat then Mux q off false else VideoFrames q CODEC_H264 off (Z.of_nat i))
      | CODEC_HEVC =>
          q ← obs_parse_hevc_packet (address env (pkt_data p)) p;
          Some (VideoFrames q CODEC_HEVC off (Z.of_nat i))
      | CODEC_AV1 =>
          q ← obs_parse_av1_packet p; Some (VideoFrames q CODEC_AV1 off (Z.of_nat i))
      end
  end.

(** The end of every enhanced video track. *)
Definition footer_call (i : nat) (e : obs_encoder) : option (list flv_call) :=
  let codec := to_video_type (enc_codec e) in
  Some (if (i =? 0)%nat && bool_decide (codec = CODEC_H264) then []
        else [VideoEnd (made_packet OBS_ENCODER_VIDEO false []) codec (Z.of_nat i)]).

Definition footer_calls : option (list flv_call) := calls_from footer_call 0 vs.

(** ** The loops *)

(** The tables of codecs are those of the encoders. *)
Definition tables_ok st : Prop :=
  (∀ i e, vs !! i = Some e → video_codec st !! i = Some (to_video_type (enc_codec e))) ∧
  (∀ i e, as_ !! i = Some e → audio_codec st !! i = Some (to_audio_type (enc_codec e))).

Lemma tables_same st st' cs : wrote st st' cs → tables_ok st → tables_ok st'.
Proof. intros [[] _ _] [Hv Ha]. unfold tables_ok. split; [rewrite s_video0|rewrite s_audio0]; done. Qed.

Definition writes_ok (st : flv_output) (r : option (flv_output * bool)) (cs : list flv_call) : Prop :=
  ∃ st', r = Some (st', true) ∧ wrote st st' cs ∧ recording st'.

Context (Hvs : (length vs ≤ MAX_OUTPUT_VIDEO_ENCODERS)%nat) (Has : (length as_ ≤ MAX_OUTPUT_AUDIO_ENCODERS)%nat).

Lemma get_video i : obs_output_get_video_encoder2 c i = vs !! i.
Proof.
  unfold obs_output_get_video_encoder2. cbn [c video_encoders]. rewrite pad_lookup.
  destruct (Nat.ltb_spec i MAX_OUTPUT_VIDEO_ENCODERS); [done|].
  symmetry. apply lookup_ge_None. lia.
Qed.

Lemma get_audio i : obs_output_get_audio_encoder c i = as_ !! i.
Proof.
  unfold obs_output_get_audio_encoder. cbn [c audio_encoders]. rewrite pad_lookup.
  destruct (Nat.ltb_spec i MAX_OUTPUT_AUDIO_ENCODERS); [done|].
  symmetry. apply lookup_ge_None. lia.
Qed.

Lemma write_audio_header_writes st i e cs : recording st → tables_ok st → as_ !! i = Some e →
  audio_header_calls i e = Some cs → forallb call_ok cs = true →
  writes_ok st (write_audio_header c st i) cs.
Proof.
  intros Hr [_ Ht] Hi Hcs Hok. unfold write_audio_header. rewrite get_audio, Hi.
  unfold audio_header_calls in Hcs. cbn [obs_encoder_get_extra_data mbind option_bind].
  destruct (enc_extra_data e) as [data|]; injection Hcs as <-.
  - cbn [forallb] in Hok. rewrite andb_true_r in Hok.
    destruct (i =? 0)%nat.
    + destruct (write_packet_writes st (made_packet OBS_ENCODER_AUDIO false data) true Hr Hok) as (st' & -> & W & R).
      by exists st'.
    + destruct (write_audio_packet_ex_writes st (made_packet OBS_ENCODER_AUDIO false data) true _ i Hr (Ht i e Hi) Hok)
        as (st' & -> & W & R). by exists st'.
  - exists st. split_and!; [done|apply wrote_nil|done].
Qed.

Lemma writes_to_ok st r cs : writes st r cs → writes_ok st (st' ← r; Some (st', true)) cs.
Proof. intros (st' & -> & W & R). by exists st'. Qed.

Lemma write_video_header_writes st i e x : recording st → tables_ok st → vs !! i = Some e →
  video_header_call i e = Some x → call_ok x = true → writes_ok st (write_video_header env c st i) [x].
Proof.
  intros Hr [Ht _] Hi Hx Hok. unfold write_video_header. rewrite get_video, Hi.
  unfold video_header_call in Hx. cbn [obs_encoder_get_extra_data mbind option_bind].
  destruct (enc_extra_data e) as [header|]; [|done]. cbn [mbind option_bind] in Hx |- *.
  rewrite (Ht i e Hi). cbn [mbind option_bind].
  pose proof (Ht i e Hi) as Hc. destruct (to_video_type (enc_codec e)); [done| | |].
  - destruct (obs_parse_avc_header _ _) as [data|]; [|done]. injection Hx as <-. cbn [mbind option_bind].
    apply writes_to_ok. destruct (i =? 0)%nat.
    + exact (write_packet_writes st (made_packet OBS_ENCODER_VIDEO true data) true Hr Hok).
    + exact (write_packet_ex_writes st (made_packet OBS_ENCODER_VIDEO true data) true false _ i Hr Hc Hok).
  - destruct (obs_parse_av1_header _) as [data|]; [|done]. injection Hx as <-. cbn [mbind option_bind].
    apply writes_to_ok.
    exact (write_packet_ex_writes st (made_packet OBS_ENCODER_VIDEO true data) true false _ i Hr Hc Hok).
  - destruct (obs_parse_hevc_header _ _) as [[[data|] n]|]; [|done..]. cbn [mbind option_bind] in Hx |- *.
    destruct (n =? zlen data) eqn:En; [|done]. apply Z.eqb_eq in En as ->. injection Hx as <-.
    apply writes_to_ok.
    exact (write_packet_ex_writes st (made_packet OBS_ENCODER_VIDEO true data) true false _ i Hr Hc Hok).
Qed.

Lemma put_metadata_writes st i codec bits pri trc spc hi :
  recording st → call_ok (Metadata codec bits pri trc spc 0 hi (Z.of_nat i)) = true →
  writes_ok st (data ← flv_packet_metadata codec bits pri trc spc 0 hi (Z.of_nat i);
                st ← put st data; Some (st, true)) [Metadata codec bits pri trc spc 0 hi (Z.of_nat i)].
Proof.
  intros Hr Hok. destruct (flv_write_tag _ Hok) as (t & E & Hsay). cbn [flv_write] in E.
  destruct (flv_packet_metadata _ _ _ _ _ _ _ _) as [bs|]; [|done]. injection E as ->. cbn [mbind option_bind].
  apply writes_to_ok. exact (put_wrote st _ (Metadata _ _ _ _ _ _ _ _) t Hr Hsay eq_refl).
Qed.

Lemma write_video_metadata_writes st i e cs : recording st → tables_ok st → vs !! i = Some e →
  metadata_calls i e = Some cs → forallb call_ok cs = true → writes_ok st (write_video_metadata env c st i) cs.
Proof.
  intros Hr [Ht _] Hi Hcs Hok. unfold write_video_metadata. rewrite get_video, Hi.
  unfold metadata_calls in Hcs. destruct (obs_encoder_video (Some e)) as [info|]; [|done].
  cbn [mbind option_bind] in Hcs. injection Hcs as <-. rewrite (Ht i e Hi).
  assert (writes_ok st (Some (st, true)) []) as Hn by (exists st; split_and!; [done|apply wrote_nil|done]).
  destruct (colorspace info); cbn [is_hdr negb mbind option_bind color_description]; try exact Hn.
  all: case_bool_decide; [exact Hn|]; cbn [forallb] in Hok; rewrite andb_true_r in Hok.
  all: exact (put_metadata_writes st i _ _ _ _ _ _ Hr Hok).
Qed.

Lemma forallb_app_true {A} (f : A → bool) l k : forallb f (l ++ k) = true → forallb f l = true ∧ forallb f k = true.
Proof. rewrite forallb_app. apply andb_prop. Qed.

Lemma write_video_headers_writes n i st cs : (i + n = MAX_OUTPUT_VIDEO_ENCODERS)%nat → recording st → tables_ok st →
  calls_from video_header_calls i (drop i vs) = Some cs → forallb call_ok cs = true →
  writes_ok st (write_video_headers env c n i st) cs.
Proof.
  revert i st cs. induction n as [|n IH]; intros i st cs Hn Hr Ht Hcs Hok.
  - rewrite drop_ge in Hcs by lia. injection Hcs as <-. exists st. split_and!; [done|apply wrote_nil|done].
  - cbn [write_video_headers]. rewrite get_video. destruct (vs !! i) as [e|] eqn:Hi.
    + rewrite (drop_S _ e) in Hcs by done. cbn [calls_from] in Hcs.
      apply bind_Some in Hcs as (y & Hy & Hcs). apply bind_Some in Hcs as (cs' & Hcs' & [= <-]).
      apply bind_Some in Hy as (x & Hx & Hy). apply bind_Some in Hy as (m & Hm & [= <-]).
      change ((x :: m) ++ cs') with ([x] ++ m ++ cs') in Hok |- *.
      apply forallb_app_true in Hok as [Hox Hok]. apply forallb_app_true in Hok as [Hom Hok].
      cbn [forallb] in Hox. rewrite andb_true_r in Hox.
      destruct (write_video_header_writes st i e x Hr Ht Hi Hx Hox) as (st1 & -> & W1 & R1).
      cbn [mbind option_bind negb].
      destruct (write_video_metadata_writes st1 i e m R1 (tables_same _ _ _ W1 Ht) Hi Hm Hom) as (st2 & -> & W2 & R2).
      cbn [mbind option_bind negb].
      destruct (IH (S i) st2 cs') as (st3 & -> & W3 & R3); [lia|done| |done|done|].
      { eapply tables_same; [exact W2|]. by eapply tables_same. }
      exists st3. split_and!; [done| |done]. eapply wrote_app; [exact W1|]. by eapply wrote_app.
    + apply lookup_ge_None in Hi. apply IH; [lia|done|done| |done].
      rewrite drop_ge in Hcs |- * by lia. done.
Qed.

Lemma write_audio_headers_writes n i st cs : (MAX_OUTPUT_AUDIO_ENCODERS ≤ i + n)%nat → recording st → tables_ok st →
  calls_from audio_header_calls i (drop i as_) = Some cs → forallb call_ok cs = true →
  writes st (write_audio_headers c n i st) cs.
Proof.
  revert i st cs. induction n as [|n IH]; intros i st cs Hn Hr Ht Hcs Hok.
  - rewrite drop_ge in Hcs by lia. injection Hcs as <-. by apply writes_nil.
  - cbn [write_audio_headers]. destruct (as_ !! i) as [e|] eqn:Hi.
    + rewrite (drop_S _ e) in Hcs by done. cbn [calls_from] in Hcs.
      apply bind_Some in Hcs as (x & Hx & Hcs). apply bind_Some in Hcs as (cs' & Hcs' & [= <-]).
      apply forallb_app_true in Hok as [Hox Hok].
      destruct (write_audio_header_writes st i e x Hr Ht Hi Hx Hox) as (st1 & -> & W1 & R1).
      cbn [mbind option_bind].
      destruct (IH (S i) st1 cs') as (st2 & -> & W2 & R2); [lia|done|by eapply tables_same|done|done|].
      exists st2. split_and!; [done|by eapply wrote_app|done].
    + unfold write_audio_header. rewrite get_audio, Hi. cbn [mbind option_bind].
      apply lookup_ge_None in Hi. rewrite drop_ge in Hcs by lia. injection Hcs as <-. by apply writes_nil.
Qed.

Lemma write_footers_writes n i st cs : (i + n = MAX_OUTPUT_VIDEO_ENCODERS)%nat → recording st → tables_ok st →
  calls_from footer_call i (drop i vs) = Some cs → forallb call_ok cs = true →
  writes st (write_footers_from c n i st) cs.
Proof.
  revert i st cs. induction n as [|n IH]; intros i st cs Hn Hr Ht Hcs Hok.
  - rewrite drop_ge in Hcs by lia. injection Hcs as <-. by apply writes_nil.
  - cbn [write_footers_from]. rewrite get_video. destruct (vs !! i) as [e|] eqn:Hi.
    + rewrite (drop_S _ e) in Hcs by done. cbn [calls_from] in Hcs.
      apply bind_Some in Hcs as (x & [= <-] & Hcs). apply bind_Some in Hcs as (cs' & Hcs' & [= <-]).
      rewrite (proj1 Ht i e Hi). cbn [mbind option_bind].
      destruct ((i =? 0)%nat && bool_decide (to_video_type (enc_codec e) = CODEC_H264)).
      * apply IH; [lia|done..].
      * apply forallb_app_true in Hok as [Hox Hok]. cbn [forallb] in Hox. rewrite andb_true_r in Hox.
        eapply writes_bind.
        { exact (write_packet_ex_writes st (made_packet OBS_ENCODER_VIDEO false []) false true _ i Hr (proj1 Ht i e Hi) Hox). }
        intros st' W R. apply IH; [lia|done|by eapply tables_same|done|done].
    + apply lookup_ge_None in Hi. apply IH; [lia|done|done| |done].
      rewrite drop_ge in Hcs |- * by lia. done.
Qed.

(** ** Packets *)

Definition same_tables (st st' : flv_output) : Prop :=
  audio_codec st' = audio_codec st ∧ video_codec st' = video_codec st ∧ file st' = file st.

Lemma tables_kept st st' : same_tables st st' → tables_ok st → tables_ok st'.
Proof. intros (Ea & Ev & _) [Hv Ha]. split; [rewrite Ev|rewrite Ea]; done. Qed.

Lemma packet_writes st off p x : recording st → tables_ok st → got_first_packet st = true →
  start_dts_offset st = off → packet_call off p = Some x → call_ok x = true →
  writes st (match pkt_type p with
             | OBS_ENCODER_VIDEO => write_video_data env st p
             | OBS_ENCODER_AUDIO => write_audio_data st p
             end) [x].
Proof.
  intros Hr [Hv Ha] Hg <- Hx Hok. unfold packet_call in Hx.
  unfold write_video_data, write_audio_data, note_first. rewrite Hg. cbn [mbind option_bind].
  set (i := Z.to_nat (pkt_track_idx p)) in *. destruct (pkt_type p).
  - destruct (i =? 0)%nat; cbn [negb].
    + injection Hx as <-. exact (write_packet_writes st p false Hr Hok).
    + apply bind_Some in Hx as (e & He & [= <-]).
      exact (write_audio_packet_ex_writes st p false _ i Hr (Ha i e He) Hok).
  - apply bind_Some in Hx as (e & He & Hx). pose proof (Hv i e He) as Hc. rewrite Hc. cbn [mbind option_bind].
    destruct (to_video_type (enc_codec e)); [done|..]; apply bind_Some in Hx as (q & Hq & [= <-]); rewrite Hq;
      cbn [mbind option_bind negb orb bool_decide decide_rel].
    + destruct (i =? 0)%nat; cbn [negb].
      * exact (write_packet_writes st q false Hr Hok).
      * exact (write_packet_ex_writes st q false false _ i Hr Hc Hok).
    + exact (write_packet_ex_writes st q false false _ i Hr Hc Hok).
    + exact (write_packet_ex_writes st q false false _ i Hr Hc Hok).
Qed.

Definition flv_run st (ps : list encoder_packet) : option flv_output :=
  foldl (λ r p, st ← r; flv_output_data env c st (Some p)) (Some st) ps.

(** Started: the headers are written and the first packet noted. *)
Record started (st : flv_output) (off : Z) : Prop := {
  d_active : active st = true;
  d_recording : recording st;
  d_tables : tables_ok st;
  d_headers : sent_headers st = true;
  d_got : got_first_packet st = true;
  d_start : start_dts_offset st = off;
  d_stopping : stopping st = false
}.

Lemma started_wrote st st' off cs : wrote st st' cs → recording st' → started st off → started st' off.
Proof.
  intros W R []. pose proof (tables_same _ _ _ W d_tables0). destruct W as [[] _ _]. constructor; congruence || done.
Qed.

Lemma data_writes st off p x : started st off → packet_call off p = Some x → call_ok x = true →
  writes st (flv_output_data env c st (Some p)) [x].
Proof.
  intros [Ha Hr Ht Hh Hg Ho Hs] Hx Hok. unfold flv_output_data.
  rewrite Ha, Hs, Hh. cbn [negb andb mbind option_bind]. by eapply packet_writes.
Qed.

Lemma run_writes st off ps cs : started st off → mapM (packet_call off) ps = Some cs → forallb call_ok cs = true →
  writes st (flv_run st ps) cs.
Proof.
  revert st cs. induction ps as [|p ps IH]; intros st cs Hst Hcs Hok.
  - injection Hcs as <-. apply writes_nil, Hst.
  - cbn [mapM mbind option_bind] in Hcs. apply bind_Some in Hcs as (x & Hx & Hcs).
    apply bind_Some in Hcs as (cs' & Hcs' & [= <-]). cbn [forallb] in Hok. apply andb_prop in Hok as [Hox Hok].
    destruct (data_writes st off p x Hst Hx Hox) as (st' & E & W & R).
    unfold flv_run. cbn [foldl mbind option_bind]. rewrite E.
    destruct (IH st' cs' (started_wrote _ _ _ _ W R Hst) Hcs' Hok) as (st2 & E2 & W2 & R2).
    exists st2. split_and!; [exact E2|exact (wrote_app _ _ _ [x] cs' W W2)|done].
Qed.

(** ** The headers *)

Definition fresh (st : flv_output) : Prop :=
  active st = true ∧ holds_file st [] ∧ stopping st = false ∧ sent_headers st = false ∧ got_first_packet st = false ∧
  length (audio_codec st) = MAX_OUTPUT_AUDIO_ENCODERS ∧ length (video_codec st) = MAX_OUTPUT_VIDEO_ENCODERS.

Definition meta_data : option bytes :=
  build_flv_meta_data (obs_version_string env) (obs_output_get_video_encoder c) (obs_output_get_audio_encoder c 0).

Lemma first_audio_header st cs : recording st → tables_ok st →
  calls_from audio_header_calls 0 (take 1 as_) = Some cs → forallb call_ok cs = true →
  ∃ st' b, write_audio_header c st 0 = Some (st', b) ∧ wrote st st' cs ∧ recording st'.
Proof.
  intros Hr Ht Hcs Hok. destruct (as_ !! 0%nat) as [e|] eqn:He.
  - rewrite (take_S_r as_ 0 e) in Hcs by done. cbn [take app calls_from] in Hcs.
    apply bind_Some in Hcs as (x & Hx & [= <-]). rewrite app_nil_r in *.
    destruct (write_audio_header_writes st 0 e x Hr Ht He Hx Hok) as (st' & E & W & R). eauto.
  - unfold write_audio_header. rewrite get_audio, He. exists st, false.
    apply lookup_ge_None in He. rewrite take_ge in Hcs by lia.
    assert (as_ = []) as Ha by (destruct as_; [done|simpl in He; lia]). rewrite Ha in Hcs. injection Hcs as <-.
    split_and!; [done|apply wrote_nil|done].
Qed.

Lemma write_headers_writes st hcs meta : fresh st → header_calls = Some hcs → forallb call_ok hcs = true →
  meta_data = Some meta →
  ∃ st' ts, write_headers env c st = Some st' ∧ recording st' ∧ tables_ok st' ∧ tags_say ts hcs ∧
    holds_file st' (file_start meta ++ concat (map tag_bytes ts)) ∧ active st' = true ∧
    stopping st' = false ∧ got_first_packet st' = false ∧ last_packet_ts st' = last_ts (last_packet_ts st) hcs.
Proof.
  intros (Ha & Hf & Hs & _ & Hg & Hla & Hlv) Hh Hok Hm.
  apply bind_Some in Hh as (c1 & H1 & Hh). apply bind_Some in Hh as (c2 & H2 & Hh).
  apply bind_Some in Hh as (c3 & H3 & [= <-]).
  apply forallb_app_true in Hok as [O1 Hok]. apply forallb_app_true in Hok as [O2 O3].
  unfold write_headers. set (st1 := set_codecs _ _ _).
  assert (tables_ok st1) as T1.
  { split; intros j e Hj; cbn [st1 set_codecs video_codec audio_codec]; apply codecs_lookup; done || lia. }
  unfold write_meta_data. unfold meta_data in Hm. rewrite (flv_meta_data_tag _ _ _ _ Hm). cbn [mbind option_bind].
  change (flv_header ++ tag_bytes (mk_tag 18 0 meta)) with (file_start meta).
  rewrite (put_end st1 [] (file_start meta)) by done. cbn [mbind option_bind app].
  set (st2 := set_file _ _).
  assert (recording st2) as R2 by (by eexists).
  assert (holds_file st2 (file_start meta)) as F2 by done.
  destruct (first_audio_header st2 c1 R2 T1 H1 O1) as (st3 & b & -> & W3 & R3). cbn [mbind option_bind].
  pose proof (tables_same _ _ _ W3 T1) as T3.
  destruct (write_video_headers_writes MAX_OUTPUT_VIDEO_ENCODERS 0 st3 c2) as (st4 & -> & W4 & R4); [done..|].
  cbn [mbind option_bind negb]. pose proof (tables_same _ _ _ W4 T3) as T4.
  destruct (write_audio_headers_writes MAX_OUTPUT_AUDIO_ENCODERS 1 st4 c3) as (st5 & -> & W5 & R5); [lia|done..|].
  pose proof (wrote_app _ _ _ _ _ W3 (wrote_app _ _ _ _ _ W4 W5)) as [Ws Wl Wf].
  destruct (Wf _ F2) as (ts & Hts & Hf5).
  exists st5, ts. split_and!; [done|done|by eapply tables_same|done|done| | | |done].
  - by rewrite (s_active _ _ Ws).
  - by rewrite (s_stopping _ _ Ws).
  - by rewrite (s_got _ _ Ws).
Qed.

(** The first packet: the headers, then its own tag. *)
Lemma first_data st p hcs meta x : fresh st → header_calls = Some hcs → forallb call_ok hcs = true →
  meta_data = Some meta → pkt_timebase_den p ≠ 0 →
  packet_call (ms p (pkt_dts p)) p = Some x → call_ok x = true →
  ∃ st' ts, flv_output_data env c st (Some p) = Some st' ∧ started st' (ms p (pkt_dts p)) ∧ tags_say ts (hcs ++ [x]) ∧
    holds_file st' (file_start meta ++ concat (map tag_bytes ts)) ∧
    last_packet_ts st' = last_ts (last_packet_ts st) (hcs ++ [x]).
Proof.
  intros Hfr Hh Hok Hm Hd Hx Hox.
  destruct (write_headers_writes st hcs meta Hfr Hh Hok Hm) as (st1 & ts & E1 & R1 & T1 & Hts & F1 & A1 & S1 & G1 & L1).
  destruct Hfr as (Ha & _ & Hs & Hsh & _). unfold flv_output_data. rewrite Ha, Hs, Hsh, E1.
  cbn [negb andb mbind option_bind].
  set (st2 := set_start (set_sent_headers st1) (ms p (pkt_dts p))).
  assert (match pkt_type p with
          | OBS_ENCODER_VIDEO => write_video_data env (set_sent_headers st1) p
          | OBS_ENCODER_AUDIO => write_audio_data (set_sent_headers st1) p
          end = match pkt_type p with
          | OBS_ENCODER_VIDEO => write_video_data env st2 p
          | OBS_ENCODER_AUDIO => write_audio_data st2 p
          end) as ->.
  { unfold write_video_data, write_audio_data, note_first. cbn [set_sent_headers got_first_packet st2 set_start].
    rewrite G1, ms_time by done. done. }
  destruct (packet_writes st2 (ms p (pkt_dts p)) p x) as (st3 & E3 & W3 & R3); [done..|].
  destruct (w_file _ _ _ W3 _ F1) as (ts3 & Hts3 & F3).
  exists st3, (ts ++ ts3). split_and!; [done| | | |].
  - apply (started_wrote st2 st3 _ [x]); [done..|]. constructor; try done.
  - by apply Forall2_app.
  - rewrite map_app, concat_app, app_assoc. exact F3.
  - rewrite (w_last _ _ _ W3). unfold last_ts. rewrite foldl_app. cbn [st2 set_start set_sent_headers last_packet_ts].
    by rewrite L1.
Qed.

(** ** The end *)

Lemma actual_stop_file st code bs fcs : recording st → tables_ok st → holds_file st bs →
  footer_calls = Some fcs → forallb call_ok fcs = true →
  ∃ st' ts, flv_output_actual_stop c st code = Some st' ∧ tags_say ts fcs ∧ ended st' = Some code ∧ active st' = false ∧
    f_bytes <$> file st' =
      Some (overwrite 58 (info_fields
              (double_div (double_of_int (last_ts (last_packet_ts st) fcs)) (double_of_int 1000))
              (double_of_int (zlen (bs ++ concat (map tag_bytes ts))))) (bs ++ concat (map tag_bytes ts))).
Proof.
  intros Hr Ht Hf Hcs Hok. unfold flv_output_actual_stop. cbn [file]. rewrite Hf. rewrite <- Hf.
  destruct (write_footers_writes MAX_OUTPUT_VIDEO_ENCODERS 0
    (mk_flv_output (file st) false (stopping st) (stop_ts st) (sent_headers st) (last_packet_ts st)
      (audio_codec st) (video_codec st) (got_first_packet st) (start_dts_offset st) (ended st)) fcs)
    as (st1 & E1 & [Ws Wl Wf] & R1); [done..|].
  destruct (Wf bs Hf) as (ts & Hts & F1). unfold write_footers. rewrite E1. cbn [mbind option_bind].
  rewrite F1. cbn [mbind option_bind f_pos]. unfold write_file_info. rewrite F1, file_info_fields.
  cbn [mbind option_bind]. unfold put. cbn [set_file file mbind option_bind].
  unfold os_fseeki64. destruct (Z.ltb_spec (0 + FLV_INFO_SIZE_OFFSET) 0) as [Hneg|_]; [done|].
  eexists _, ts. split_and!; [reflexivity|done|done| |].
  - cbn [active set_file]. by rewrite (s_active _ _ Ws).
  - cbn [file set_file fwrite f_bytes f_pos snd fmap option_fmap option_map]. by rewrite Wl.
Qed.

(** ** Whole recordings *)

(** The headers, the packets and the footers. *)
Definition recorded_calls (ps : list encoder_packet) : option (list flv_call) :=
  h ← header_calls;
  f ← footer_calls;
  p ← head ps;
  cs ← mapM (packet_call (ms p (pkt_dts p))) ps;
  Some (h ++ cs ++ f).

(** Every encoder has its headers, every packet is parsed, and every call can be written. *)
Definition recordable (ps : list encoder_packet) : bool :=
  match recorded_calls ps, meta_data, head ps with
  | Some cs, Some _, Some p => forallb call_ok cs && negb (pkt_timebase_den p =? 0)
  | _, _, _ => false
  end.

(** What ends the recording: a packet at the time of the stop or later, or an error. *)
Definition stops (ts : Z) (last : option encoder_packet) : bool :=
  match last with Some p => i64 (ts / 1000) <=? pkt_sys_dts_usec p | None => true end.
Definition stop_code (last : option encoder_packet) : Z :=
  match last with Some _ => 0 | None => OBS_OUTPUT_ENCODE_ERROR end.

(** Started, given packets, and stopped. *)
Definition flv_record st (ps : list encoder_packet) (ts : Z) (last : option encoder_packet) : option flv_output :=
  let '(st, ok) := flv_output_start st true true true in
  if negb ok then None else
  st ← flv_run st ps;
  flv_output_data env c (flv_output_stop st ts) last.

Lemma stop_file st off bs ts last fcs : started st off → holds_file st bs → stops ts last = true →
  footer_calls = Some fcs → forallb call_ok fcs = true →
  ∃ st' tags, flv_output_data env c (flv_output_stop st ts) last = Some st' ∧ tags_say tags fcs ∧
    ended st' = Some (stop_code last) ∧ active st' = false ∧
    f_bytes <$> file st' =
      Some (overwrite 58 (info_fields
              (double_div (double_of_int (last_ts (last_packet_ts st) fcs)) (double_of_int 1000))
              (double_of_int (zlen (bs ++ concat (map tag_bytes tags))))) (bs ++ concat (map tag_bytes tags))).
Proof.
  intros [Ha Hr Ht Hh Hg Ho Hs] Hf Hst Hcs Hok. unfold flv_output_data. cbn [flv_output_stop active]. rewrite Ha.
  cbn [negb]. destruct last as [p|]; cbn [stops] in Hst.
  - cbn [flv_output_stop stopping stop_ts andb]. rewrite Hst. by apply (actual_stop_file (flv_output_stop st ts)).
  - by apply (actual_stop_file (flv_output_stop st ts)).
Qed.

Lemma run_file st ps hcs pcs meta p : fresh st → header_calls = Some hcs → meta_data = Some meta → head ps = Some p →
  mapM (packet_call (ms p (pkt_dts p))) ps = Some pcs → pkt_timebase_den p ≠ 0 → forallb call_ok (hcs ++ pcs) = true →
  ∃ st' tags, flv_run st ps = Some st' ∧ started st' (ms p (pkt_dts p)) ∧ tags_say tags (hcs ++ pcs) ∧
    holds_file st' (file_start meta ++ concat (map tag_bytes tags)) ∧
    last_packet_ts st' = last_ts (last_packet_ts st) (hcs ++ pcs).
Proof.
  intros Hfr Hh Hm Hp Hcs Hd Hok. destruct ps as [|p' ps]; [done|]. injection Hp as ->.
  cbn [mapM] in Hcs. apply bind_Some in Hcs as (x & Hx & Hcs). apply bind_Some in Hcs as (cs & Hcs & [= <-]).
  apply forallb_app_true in Hok as [Oh Op]. cbn [forallb] in Op. apply andb_prop in Op as [Ox Ocs].
  destruct (first_data st p hcs meta x Hfr Hh Oh Hm Hd Hx Ox) as (st1 & ts & E1 & S1 & T1 & F1 & L1).
  destruct (run_writes st1 _ ps cs S1 Hcs Ocs) as (st2 & E2 & W2 & R2).
  destruct (w_file _ _ _ W2 _ F1) as (ts2 & T2 & F2).
  exists st2, (ts ++ ts2). change (x :: cs) with ([x] ++ cs). rewrite (app_assoc hcs). split_and!.
  - unfold flv_run. cbn [foldl mbind option_bind]. rewrite E1. exact E2.
  - by eapply started_wrote.
  - by apply Forall2_app.
  - rewrite map_app, concat_app, app_assoc. exact F2.
  - rewrite (w_last _ _ _ W2), L1. unfold last_ts. by rewrite !foldl_app.
Qed.
End tracks.

(** The reader of a file: its header, then its tags. *)
Definition read_flv (l : bytes) : option (list flv_tag) :=
  if bool_decide (take 13 l = flv_header) then read_tags (length l) (drop 13 l) else None.

Lemma read_file_start meta ts : zlen meta ≤ 4096 → Forall tag_ok ts →
  read_flv (file_start meta ++ concat (map tag_bytes ts)) = Some (mk_tag 18 0 meta :: ts).
Proof.
  intros Hm Hts. unfold read_flv, file_start. rewrite <- app_assoc.
  rewrite bool_decide_true by done. change (drop 13 (flv_header ++ ?x)) with x.
  change (tag_bytes (mk_tag 18 0 meta) ++ concat (map tag_bytes ts)) with (concat (map tag_bytes (mk_tag 18 0 meta :: ts))).
  apply read_tags_bytes; [constructor; [split; [cbn [tag_body]; lia|done]|done]|].
  assert (∀ l, (length l ≤ length (concat (map tag_bytes l)))%nat) as Hlen.
  { intros l. induction l as [|t l IH]; [done|]. cbn [map concat length]. rewrite length_app.
    pose proof (tag_bytes_len t). pose proof (zlen_nonneg (tag_body t)). unfold zlen in *. lia. }
  rewrite length_app. specialize (Hlen (mk_tag 18 0 meta :: ts)). lia.
Qed.

(** C4: A recording of at least one packet, with any number of tracks within the limits, once
    stopped or ended by an encoder error, is a file that reads back as the metadata tag, one
    tag for each header, one for each packet in the order of arrival, with its time (counted
    from the first packet), codec, track, flags and data, and the ends of the sequences; the
    duration and file size fields of the metadata hold the encoder's own time stamp, not
    counted from the first packet ([duration_from_zero]), of the last packet of a first track
    written in the legacy form, and the length of the file. Conditions: every encoder has its
    headers, and every packet is parsed, is not empty and fits the fields of a tag. (When
    the stop comes before the first packet an assertion fails, [stopped_before_headers]; an
    empty packet can free a pointer that is not set, [empty_audio_packet].) *)
Theorem flv_file_complete env vs as_ batch st ps ts last :
  (length vs ≤ MAX_OUTPUT_VIDEO_ENCODERS)%nat → (length as_ ≤ MAX_OUTPUT_AUDIO_ENCODERS)%nat →
  length (audio_codec st) = MAX_OUTPUT_AUDIO_ENCODERS → length (video_codec st) = MAX_OUTPUT_VIDEO_ENCODERS →
  recordable env vs as_ batch ps = true → stops ts last = true →
  ∃ st' f cs script tags,
    flv_record env vs as_ batch st ps ts last = Some st' ∧ ended st' = Some (stop_code last) ∧ active st' = false ∧
    f_bytes <$> file st' = Some f ∧ recorded_calls env vs as_ ps = Some cs ∧
    read_flv f = Some (script :: tags) ∧
    Forall2 (λ t call, tag_time t = call_time call ∧ read_body t = Some (call_says call)) tags cs ∧
    tag_type script = RTMP_PACKET_TYPE_INFO ∧
    sub 34 38 (tag_body script) =
      info_fields (double_div (double_of_int (last_ts (last_packet_ts st) cs)) (double_of_int 1000))
        (double_of_int (zlen f)).
Proof.
  intros Hvs Has Hla Hlv Hrec Hstop. unfold recordable in Hrec.
  destruct (recorded_calls env vs as_ ps) as [cs|] eqn:Hcs; [|done].
  destruct (meta_data env vs as_ batch) as [meta|] eqn:Hm; [|done]. destruct (head ps) as [p|] eqn:Hp; [|done].
  apply andb_prop in Hrec as [Hok Hd]. rewrite negb_true_iff, Z.eqb_neq in Hd.
  pose proof Hcs as Hcs'. unfold recorded_calls in Hcs'. apply bind_Some in Hcs' as (hcs & Hh & Hcs').
  apply bind_Some in Hcs' as (fcs & Hf & Hcs'). rewrite Hp in Hcs'. cbn [mbind option_bind] in Hcs'.
  apply bind_Some in Hcs' as (pcs & Hpc & [= <-]). rewrite app_assoc in Hok.
  apply forallb_app_true in Hok as [Ohp Of]. unfold flv_record.
  destruct (flv_output_start st true true true) as [st0 ok] eqn:E0. injection E0 as <- <-. cbn [negb].
  match goal with |- context [flv_run _ _ _ _ ?s _] => set (st0 := s) end.
  assert (fresh st0) as Hfr by done.
  destruct (run_file env vs as_ batch Hvs Has st0 ps hcs pcs meta p) as (st1 & tags & -> & S1 & T1 & F1 & L1);
    [done..|]. cbn [mbind option_bind].
  destruct (stop_file env vs as_ batch Hvs Has st1 _ _ ts last fcs S1 F1 Hstop Hf Of)
    as (st2 & ftags & E2 & T2 & En & Ac & F2). rewrite E2, L1 in *.
  destruct (meta_data_head _ _ _ _ Hm) as (rest & -> & Hl).
  rewrite <- app_assoc, <- concat_app, <- map_app in F2.
  destruct (file_start_info rest (concat (map tag_bytes (tags ++ ftags)))) as (a & b & La & Hab).
  rewrite Hab, <- La, overwrite_mid in F2 by done. rewrite <- Hab in F2.
  assert (tags_say (tags ++ ftags) (hcs ++ pcs ++ fcs)) as Tall by (rewrite app_assoc; by apply Forall2_app).
  set (d := double_div _ _) in F2. set (n := double_of_int _) in F2.
  eexists st2, _, _, (mk_tag 18 0 (meta_head ++ info_fields d n ++ rest)), (tags ++ ftags).
  split_and!; [done|done|done|exact F2|reflexivity| | |done|].
  - apply read_file_start.
    + revert Hl. rewrite !zlen_app. done.
    + clear -Tall. induction Tall as [|t call ? ? [Ht _]]; by constructor.
  - clear -Tall. eapply Forall2_impl; [exact Tall|]. by intros t call (_ & ? & ?).
  - cbn [tag_body]. change 34 with (zlen meta_head). change 38 with (zlen (info_fields d n)). rewrite sub_app_mid.
    unfold d, n. f_equal.
    + do 2 f_equal. unfold last_ts. by rewrite !foldl_app.
    + f_equal. rewrite Hab, !zlen_app. done.
Qed.

(** A recording of two video and two audio tracks. *)
Definition ex_flv_env : flv_env := mk_flv_env (str "31.0.0") 1000 (λ _, 0).
Definition ex_venc (ptr : Z) : obs_encoder :=
  mk_encoder ptr OBS_ENCODER_VIDEO None None "h264" (Some [1; 100; 0; 31; 255; 225; 0; 0]) (Some (mk_settings 2500 0 []))
    (Some (mk_video VIDEO_FORMAT_NV12 1920 1080 30 1 VIDEO_CS_709 VIDEO_RANGE_PARTIAL)) None None 0 0 0 0 1 30.
Definition ex_aenc (ptr : Z) : obs_encoder :=
  mk_encoder ptr OBS_ENCODER_AUDIO None None "aac" (Some [17; 144]) (Some (mk_settings 160 0 [])) None None
    (Some (mk_audio 48000 SPEAKERS_STEREO)) 0 0 0 1024 1 48000.
Definition ex_vpkt (i pts dts : Z) (key : bool) : encoder_packet :=
  mk_packet [0; 0; 0; 1; 101; 136; 128] pts dts 1 30 OBS_ENCODER_VIDEO key 0 0 0 0 i (10 + i).
Definition ex_apkt (i dts : Z) : encoder_packet :=
  mk_packet [33; 26; 15] dts dts 1 48000 OBS_ENCODER_AUDIO false 0 0 0 0 i (20 + i).
Definition ex_stop : encoder_packet :=
  mk_packet [33] 4096 4096 1 48000 OBS_ENCODER_AUDIO false 0 9000 0 0 0 20.
Definition ex_recorded : list encoder_packet :=
  [ex_vpkt 0 2 0 true; ex_vpkt 1 0 0 true; ex_apkt 0 0; ex_apkt 1 0; ex_apkt 0 1024; ex_vpkt 0 4 1 false].
Definition ex_vs : list obs_encoder := [ex_venc 10; ex_venc 11].
Definition ex_as : list obs_encoder := [ex_aenc 20; ex_aenc 21].

Lemma flv_file_complete_witness :
  ∃ st' f cs script tags,
    flv_record ex_flv_env ex_vs ex_as 0 flv_output_create ex_recorded 8000000 (Some ex_stop) = Some st' ∧
    ended st' = Some (stop_code (Some ex_stop)) ∧ active st' = false ∧
    f_bytes <$> file st' = Some f ∧ recorded_calls ex_flv_env ex_vs ex_as ex_recorded = Some cs ∧
    read_flv f = Some (script :: tags) ∧
    Forall2 (λ t call, tag_time t = call_time call ∧ read_body t = Some (call_says call)) tags cs ∧
    tag_type script = RTMP_PACKET_TYPE_INFO ∧
    sub 34 38 (tag_body script) =
      info_fields (double_div (double_of_int (last_ts (last_packet_ts flv_output_create) cs)) (double_of_int 1000))
        (double_of_int (zlen f)).
Proof.
  apply flv_file_complete; [vm_compute; lia..|reflexivity|reflexivity|vm_compute; reflexivity|vm_compute; reflexivity].
Defined.

(** What the file of the witness says: the type, the time and the body of each tag. *)
Example ex_file_tags :
  (st ← flv_record ex_flv_env ex_vs ex_as 0 flv_output_create ex_recorded 8000000 (Some ex_stop);
   f ← file st; tags ← read_flv (f_bytes f); Some (map (λ t, (tag_time t, read_body t)) (drop 1 tags))) =
  Some [(0, Some (AacBody true [17; 144]));
        (0, Some (AvcBody true true 0 [1; 100; 0; 31; 255; 225; 0; 0]));
        (0, Some (ExVideoBody 1 0 CODEC_H264 1 None [1; 100; 0; 31; 255; 225; 0; 0]));
        (0, Some (ExAudioBody 0 AUDIO_CODEC_AAC 1 [17; 144]));
        (0, Some (AvcBody true false 66 [0; 0; 0; 3; 101; 136; 128]));
        (0, Some (ExVideoBody 1 3 CODEC_H264 1 None [0; 0; 0; 3; 101; 136; 128]));
        (0, Some (AacBody false [33; 26; 15]));
        (0, Some (ExAudioBody 1 AUDIO_CODEC_AAC 1 [33; 26; 15]));
        (21, Some (AacBody false [33; 26; 15]));
        (33, Some (AvcBody true false 100 [0; 0; 0; 3; 101; 136; 128]));
        (0, Some (ExVideoBody 2 2 CODEC_H264 1 None []))].
Proof. vm_compute. reflexivity. Qed.

(** ** Recordings that go wrong *)

(** Stopped before the first packet: no header has been written, the codec of the first
    track is not known, and the assertion of [s_w4cc] fails. *)
Example stopped_before_headers :
  let st := flv_output_stop (fst (flv_output_start flv_output_create true true true)) 0 in
  flv_output_data ex_flv_env (mk_conf (pad 10 ex_vs) (pad 6 ex_as) 0) st (Some ex_stop) = None.
Proof. vm_compute. reflexivity. Qed.

(** In a file whose only video track is not H.264 the duration is that of the audio, and
    it counts from the first time stamp of the encoder, not from that of the file. *)
Example duration_from_zero :
  last_ts 0 [Mux (ex_apkt 0 480000) 10000 false; VideoFrames (ex_vpkt 0 400 400 true) CODEC_AV1 10000 0] = 10000.
Proof. vm_compute. reflexivity. Qed.

(** A packet without data on another audio track: the pointer freed is not initialised. *)
Example empty_audio_packet :
  let p := mk_packet [] 0 0 1 48000 OBS_ENCODER_AUDIO false 0 0 0 0 1 21 in
  write_audio_packet_ex (fst (flv_output_start flv_output_create true true true)) p false 1 = None.
Proof. vm_compute. reflexivity. Qed.
