(* ===== verification/RtmpQueue.v ===== *)
(** * The send queue of the RTMP output: plugins/obs-outputs/rtmp-stream.c

    Between the thread that delivers packets and the one that sends them: the queue,
    which frames are dropped when the network is slow, and the dynamic bitrate. The queue
    is the deque of packets as a list. Clock readings are arguments. *)

From S2P Require Import Prelude Double Encoder Interleave.

Local Open Scope Z_scope.

Definition OBS_NAL_PRIORITY_HIGH : Z := 2.
Definition OBS_NAL_PRIORITY_HIGHEST : Z := 3.
Definition DBR_INC_TIMER : Z := 4 * 1000000000.
Definition DBR_TRIGGER_USEC : Z := 200 * 1000.
Definition MIN_ESTIMATE_DURATION_MS : Z := 1000.
Definition MAX_ESTIMATE_DURATION_MS : Z := 2000.

Record dbr_frame := mk_frame { send_beg : Z; send_end : Z; frame_size : Z }.

(** [struct rtmp_stream], the variables of the queue and of the dropping of frames. *)
Record drop_state := mk_drop {
  packets : list encoder_packet;
  min_priority : Z;
  dropped_frames : Z;
  last_dts_usec : Z;
  congestion : spec_float;
  drop_threshold_usec : Z;
  pframe_drop_threshold_usec : Z
}.

(** The variables of the dynamic bitrate; [video_bitrates] are the settings of the video
    encoders, which it changes. *)
Record dbr_state := mk_dbr {
  dbr_frames : list dbr_frame;
  dbr_data_size : Z;
  dbr_inc_timeout : Z;
  audio_bitrate : Z;
  dbr_est_bitrate : Z;
  dbr_orig_bitrate : Z;
  dbr_prev_bitrate : Z;
  dbr_cur_bitrate : Z;
  dbr_inc : Z;
  dbr_floor_bitrate : Z;
  dbr_enabled : bool;
  dbr_interpolation_table : list (list Z);
  video_bitrates : list (option Z)
}.

Section updates.
Implicit Types (q : drop_state) (d : dbr_state).

Definition set_queue q l := mk_drop l (min_priority q) (dropped_frames q) (last_dts_usec q) (congestion q)
  (drop_threshold_usec q) (pframe_drop_threshold_usec q).
Definition set_dropping q m n := mk_drop (packets q) m n (last_dts_usec q) (congestion q)
  (drop_threshold_usec q) (pframe_drop_threshold_usec q).
Definition set_congestion q c := mk_drop (packets q) (min_priority q) (dropped_frames q) (last_dts_usec q) c
  (drop_threshold_usec q) (pframe_drop_threshold_usec q).
Definition set_last_dts q t := mk_drop (packets q) (min_priority q) (dropped_frames q) t (congestion q)
  (drop_threshold_usec q) (pframe_drop_threshold_usec q).
Definition set_measure d l n est := mk_dbr l n (dbr_inc_timeout d) (audio_bitrate d) est (dbr_orig_bitrate d)
  (dbr_prev_bitrate d) (dbr_cur_bitrate d) (dbr_inc d) (dbr_floor_bitrate d) (dbr_enabled d)
  (dbr_interpolation_table d) (video_bitrates d).
Definition set_rate d timeout prev cur := mk_dbr (dbr_frames d) (dbr_data_size d) timeout (audio_bitrate d)
  (dbr_est_bitrate d) (dbr_orig_bitrate d) prev cur (dbr_inc d) (dbr_floor_bitrate d) (dbr_enabled d)
  (dbr_interpolation_table d) (video_bitrates d).
Definition set_video_bitrates d b := mk_dbr (dbr_frames d) (dbr_data_size d) (dbr_inc_timeout d) (audio_bitrate d)
  (dbr_est_bitrate d) (dbr_orig_bitrate d) (dbr_prev_bitrate d) (dbr_cur_bitrate d) (dbr_inc d)
  (dbr_floor_bitrate d) (dbr_enabled d) (dbr_interpolation_table d) b.
End updates.

(** ** The queue *)

Definition add_packet (q : drop_state) (packet : encoder_packet) : drop_state :=
  set_queue q (packets q ++ [packet]).

Definition num_buffered_packets (q : drop_state) : Z := zlen (packets q).

Definition get_next_packet (q : drop_state) : option (encoder_packet * drop_state) :=
  match packets q with
  | [] => None
  | p :: l => Some (p, set_queue q l)
  end.

Definition free_packets (q : drop_state) : drop_state := set_queue q [].

(** Audio and packets of enough priority stay. *)
Definition kept (highest_priority : Z) (p : encoder_packet) : bool :=
  match pkt_type p with OBS_ENCODER_AUDIO => true | OBS_ENCODER_VIDEO => highest_priority <=? pkt_drop_priority p end.

Definition drop_frames (q : drop_state) (highest_priority : Z) : drop_state :=
  let '(new_buf, num_frames_dropped) :=
    foldl (λ '(new_buf, n) packet,
             if kept highest_priority packet then (new_buf ++ [packet], n) else (new_buf, i32 (n + 1)))
      ([], 0) (packets q) in
  let q := set_queue q new_buf in
  let min := if min_priority q <? highest_priority then highest_priority else min_priority q in
  set_dropping q min
    (if num_frames_dropped =? 0 then dropped_frames q else i32 (dropped_frames q + num_frames_dropped)).

(** The first video packet that is not a keyframe. *)
Definition find_first_video_packet (q : drop_state) : option encoder_packet :=
  head (filter (λ p, pkt_type p = OBS_ENCODER_VIDEO ∧ pkt_keyframe p = false) (packets q)).

(** ** The dynamic bitrate *)

Definition dbr_add_frame (d : dbr_state) (back : dbr_frame) : dbr_state :=
  let frames := dbr_frames d ++ [back] in
  let front := default back (head frames) in
  let size := u64 (dbr_data_size d + frame_size back) in
  let dur := u64 (send_end back - send_beg front) / 1000000 in
  let '(size, frames) :=
    if MAX_ESTIMATE_DURATION_MS <=? dur then (u64 (size - frame_size front), tail frames) else (size, frames) in
  let est := if MIN_ESTIMATE_DURATION_MS <=? dur then i64 (u64 (size * 1000) / dur) else 0 in
  let est := i64 (est * 8) /c 1000 in
  let est :=
    if est =? 0 then 0
    else let est := i64 (est - audio_bitrate d) in if est <? 50 then 50 else est in
  set_measure d frames size est.

Definition dbr_bitrate_lowered (d : dbr_state) (now : Z) : dbr_state * bool :=
  let prev_bitrate := dbr_prev_bitrate d in
  let '(d, est_bitrate) :=
    if negb (dbr_est_bitrate d =? 0) && (dbr_est_bitrate d <? dbr_cur_bitrate d) then
      let est := dbr_est_bitrate d /c 100 * 100 in
      (set_measure d [] 0 (dbr_est_bitrate d), if est <? 50 then 50 else est)
    else (d, 0) in
  if (est_bitrate =? 0) && (prev_bitrate =? 0) then (d, false) else
  let new_bitrate := if negb (est_bitrate =? 0) then est_bitrate else prev_bitrate in
  let new_bitrate :=
    if negb (dbr_floor_bitrate d =? 0) && (new_bitrate <? dbr_floor_bitrate d) then dbr_floor_bitrate d
    else new_bitrate in
  if new_bitrate =? dbr_cur_bitrate d then (d, false) else
  (set_rate d (u64 (now + DBR_INC_TIMER)) 0 new_bitrate, true).

(** The number of the last column, from [column], whose total is at most [cur], up to the
    first that is greater. *)
Fixpoint base_column (cur : Z) (column base : nat) (table : list (list Z)) : nat :=
  match table with
  | [] => base
  | point :: table =>
      if cur <? foldl (λ s b, i64 (s + b)) 0 point then base else base_column cur (S column) column table
  end.

(** The bitrates of the encoders, interpolated between two columns. *)
Definition interpolate (cur : Z) (base upper : list Z) : option (list Z) :=
  let deltas := zip_with (λ u b, i64 (u - b)) upper base in
  let overall_delta := foldl (λ s x, i64 (s + x)) 0 deltas in
  let remaining_bitrate := foldl (λ s b, i64 (s - b)) cur base in
  let overall_delta := if overall_delta <? 1 then 1 else overall_delta in
  let ratio := double_div (double_of_int remaining_bitrate) (double_of_int overall_delta) in
  let delta_scale := if double_ltb ratio (double_of_int 1) then ratio else double_of_int 1 in
  mapM (λ '(b, delta), x ← double_to_int (double_mul (double_of_int delta) delta_scale); Some (i64 (b + x)))
    (zip base deltas).

Definition dbr_set_bitrate (d : dbr_state) : option dbr_state :=
  let table := dbr_interpolation_table d in
  match table with
  | [] => Some d
  | _ =>
      let base := base_column (dbr_cur_bitrate d) 0 (length table - 1) table in
      let upper := if (length table <=? base + 1)%nat then (length table - 1)%nat else (base + 1)%nat in
      base ← table !! base;
      upper ← table !! upper;
      rates ← interpolate (dbr_cur_bitrate d) base upper;
      Some (set_video_bitrates d
              (imap (λ i e, match e with Some _ => rates !! i | None => None end) (video_bitrates d)))
  end.

Definition dbr_inc_bitrate (d : dbr_state) (now : Z) : dbr_state :=
  let cur := i64 (dbr_cur_bitrate d + dbr_inc d) in
  if dbr_orig_bitrate d <=? cur then set_rate d (dbr_inc_timeout d) (dbr_cur_bitrate d) (dbr_orig_bitrate d)
  else set_rate d (u64 (now + DBR_INC_TIMER)) (dbr_cur_bitrate d) cur.

(** ** Dropping *)

(** The time to try a higher bitrate; [now] are the readings of the clock, here and in
    [dbr_inc_bitrate]. *)
Definition check_increase (d : dbr_state) (now : nat → Z) : option dbr_state :=
  if dbr_inc_timeout d =? 0 then Some d
  else if dbr_inc_timeout d <=? now 0%nat
  then dbr_set_bitrate (dbr_inc_bitrate (set_rate d 0 (dbr_prev_bitrate d) (dbr_cur_bitrate d)) (now 1%nat))
  else Some d.

Definition check_to_drop_frames (q : drop_state) (d : dbr_state) (pframes : bool) (now : nat → Z) :
    option (drop_state * dbr_state) :=
  let priority := if pframes then OBS_NAL_PRIORITY_HIGHEST else OBS_NAL_PRIORITY_HIGH in
  let drop_threshold := if pframes then pframe_drop_threshold_usec q else drop_threshold_usec q in
  d ← (if negb pframes && dbr_enabled d then check_increase d now else Some d);
  if num_buffered_packets q <? 5 then
    Some (if pframes then q else set_congestion q (S754_zero false), d)
  else
  match find_first_video_packet q with
  | None => Some (q, d)
  | Some first =>
      let buffer_duration_usec := i64 (last_dts_usec q - pkt_dts_usec first) in
      let q := if pframes then q
               else set_congestion q (float_div (float_of_int buffer_duration_usec) (float_of_int drop_threshold)) in
      if dbr_enabled d then
        if pframes then Some (q, d) else
        let '(d, bitrate_changed) :=
          if DBR_TRIGGER_USEC <=? u64 buffer_duration_usec then dbr_bitrate_lowered d (now 2%nat) else (d, false) in
        d ← (if bitrate_changed : bool then dbr_set_bitrate d else Some d);
        Some (q, d)
      else Some (if drop_threshold <? buffer_duration_usec then drop_frames q priority else q, d)
  end.

(** [false] when the packet is dropped. [now] are the readings of the clock. *)
Definition add_video_packet (q : drop_state) (d : dbr_state) (packet : encoder_packet) (now : nat → Z) :
    option (drop_state * dbr_state * bool) :=
  '(q, d) ← check_to_drop_frames q d false now;
  '(q, d) ← check_to_drop_frames q d true now;
  if pkt_drop_priority packet <? min_priority q then
    Some (set_dropping q (min_priority q) (i32 (dropped_frames q + 1)), d, false)
  else
    let q := set_dropping q 0 (dropped_frames q) in
    Some (add_packet (set_last_dts q (pkt_dts_usec packet)) packet, d, true).
