(* ===== verification/Rtmp.v ===== *)
(** * The RTMP output: plugins/obs-outputs/rtmp-stream.c

    The handlers libobs calls and the send thread, as steps between the places where
    they touch what they share: the queue and the dynamic bitrate under their mutexes,
    the flags, the semaphore. The network (librtmp on a socket) is an environment: whether
    reading the socket fails and what [RTMP_Write] returns, call by call; what is written is
    recorded. Null pointers used and indices out of range are [None]. The socket loop of
    Windows is left out. *)

From S2P Require Import Prelude Double Encoder Avc Hevc RtmpAv1 RtmpHevc Interleave Flv FlvOutput RtmpQueue.

Local Open Scope Z_scope.

Record rtmp_env := mk_rtmp_env {
  flv_version : bytes;
  hdr_peak : Z;
  data_address : bytes → Z;
  main_video : option video_t;
  encoder_caps : obs_encoder → Z;
  socket_read_fails : nat → bool;
  rtmp_write_result : nat → Z
}.

(** The send thread: waiting, with a packet to send, with a measure to record, leaving
    its loop, ended. *)
Inductive send_pc :=
  | S_WAIT
  | S_SEND (packet : encoder_packet)
  | S_FRAME (frame : dbr_frame)
  | S_EXIT
  | S_END.

(** [struct rtmp_stream]. [written] are the tags given to [RTMP_Write], [popped] the
    packets the send thread has taken from the queue, [signalled] the codes given to
    [obs_output_signal_stop] ([obs_output_end_data_capture] as zero); [net] counts the
    calls to the network. *)
Record rtmp_stream := mk_rtmp {
  queue : drop_state;
  dbr : dbr_state;
  active : bool;
  disconnected : bool;
  encode_error : bool;
  stopping : bool;
  stop_ts : Z;
  shutdown_timeout_ts : Z;
  max_shutdown_time_sec : Z;
  sent_headers : bool;
  got_first_packet : bool;
  start_dts_offset : Z;
  audio_codec : list audio_id_t;
  video_codec : list video_id_t;
  total_bytes_sent : Z;
  send_sem : Z;
  pc : send_pc;
  net : nat;
  written : list bytes;
  popped : list encoder_packet;
  signalled : list Z;
  connecting : bool
}.

Section updates.
Implicit Types st : rtmp_stream.

Definition set_media st q d := mk_rtmp q d (active st) (disconnected st) (encode_error st) (stopping st) (stop_ts st)
  (shutdown_timeout_ts st) (max_shutdown_time_sec st) (sent_headers st) (got_first_packet st) (start_dts_offset st)
  (audio_codec st) (video_codec st) (total_bytes_sent st) (send_sem st) (pc st) (net st) (written st) (popped st)
  (signalled st) (connecting st).
Definition set_flags st a dis err := mk_rtmp (queue st) (dbr st) a dis err (stopping st) (stop_ts st)
  (shutdown_timeout_ts st) (max_shutdown_time_sec st) (sent_headers st) (got_first_packet st) (start_dts_offset st)
  (audio_codec st) (video_codec st) (total_bytes_sent st) (send_sem st) (pc st) (net st) (written st) (popped st)
  (signalled st) (connecting st).
Definition set_stop st s ts timeout := mk_rtmp (queue st) (dbr st) (active st) (disconnected st) (encode_error st) s ts
  timeout (max_shutdown_time_sec st) (sent_headers st) (got_first_packet st) (start_dts_offset st)
  (audio_codec st) (video_codec st) (total_bytes_sent st) (send_sem st) (pc st) (net st) (written st) (popped st)
  (signalled st) (connecting st).
Definition set_header_flag st h := mk_rtmp (queue st) (dbr st) (active st) (disconnected st) (encode_error st)
  (stopping st) (stop_ts st) (shutdown_timeout_ts st) (max_shutdown_time_sec st) h (got_first_packet st)
  (start_dts_offset st) (audio_codec st) (video_codec st) (total_bytes_sent st) (send_sem st) (pc st) (net st)
  (written st) (popped st) (signalled st) (connecting st).
Definition set_first st g off := mk_rtmp (queue st) (dbr st) (active st) (disconnected st) (encode_error st)
  (stopping st) (stop_ts st) (shutdown_timeout_ts st) (max_shutdown_time_sec st) (sent_headers st) g off
  (audio_codec st) (video_codec st) (total_bytes_sent st) (send_sem st) (pc st) (net st) (written st) (popped st)
  (signalled st) (connecting st).
Definition set_net st n w := mk_rtmp (queue st) (dbr st) (active st) (disconnected st) (encode_error st)
  (stopping st) (stop_ts st) (shutdown_timeout_ts st) (max_shutdown_time_sec st) (sent_headers st)
  (got_first_packet st) (start_dts_offset st) (audio_codec st) (video_codec st) (total_bytes_sent st) (send_sem st)
  (pc st) n w (popped st) (signalled st) (connecting st).
Definition set_total st n := mk_rtmp (queue st) (dbr st) (active st) (disconnected st) (encode_error st)
  (stopping st) (stop_ts st) (shutdown_timeout_ts st) (max_shutdown_time_sec st) (sent_headers st)
  (got_first_packet st) (start_dts_offset st) (audio_codec st) (video_codec st) n (send_sem st)
  (pc st) (net st) (written st) (popped st) (signalled st) (connecting st).
Definition set_thread st sem p l := mk_rtmp (queue st) (dbr st) (active st) (disconnected st) (encode_error st)
  (stopping st) (stop_ts st) (shutdown_timeout_ts st) (max_shutdown_time_sec st) (sent_headers st)
  (got_first_packet st) (start_dts_offset st) (audio_codec st) (video_codec st) (total_bytes_sent st) sem p
  (net st) (written st) l (signalled st) (connecting st).
Definition set_signal st code := mk_rtmp (queue st) (dbr st) (active st) (disconnected st) (encode_error st)
  (stopping st) (stop_ts st) (shutdown_timeout_ts st) (max_shutdown_time_sec st) (sent_headers st)
  (got_first_packet st) (start_dts_offset st) (audio_codec st) (video_codec st) (total_bytes_sent st) (send_sem st)
  (pc st) (net st) (written st) (popped st) (signalled st ++ [code]) (connecting st).
End updates.

Definition post st : rtmp_stream := set_thread st (send_sem st + 1) (pc st) (popped st).
Definition goto st (p : send_pc) : rtmp_stream := set_thread st (send_sem st) p (popped st).

Section stream.
Context (env : rtmp_env) (c : output_conf).
Implicit Types st : rtmp_stream.

(** ** Sending a tag *)

(** [handle_socket_read] *)
Definition read_socket st : rtmp_stream * bool :=
  (set_net st (S (net st)) (written st), socket_read_fails env (net st)).

(** [RTMP_Write] *)
Definition write_tag st (data : bytes) : rtmp_stream * Z :=
  (set_net st (S (net st)) (written st ++ [data]), rtmp_write_result env (net st)).

(** The two above around a tag, with the count of bytes where the function keeps it. *)
Definition send_tag st (data : option bytes) (count : bool) : option (rtmp_stream * Z) :=
  let '(st, failed) := read_socket st in
  if failed : bool then Some (st, -1) else
  data ← data;
  let '(st, ret) := write_tag st data in
  Some (if count then set_total st (u64 (total_bytes_sent st + zlen data)) else st, ret).

Definition send_packet st (packet : encoder_packet) (is_header : bool) : option (rtmp_stream * Z) :=
  send_tag st (flv_packet_mux packet (if is_header then 0 else i32 (start_dts_offset st)) is_header) true.

(** [size] is [packet->size]. *)
Definition send_packet_ex st (packet : encoder_packet) (size : Z) (is_header is_footer : bool) (idx : nat) :
    option (rtmp_stream * Z) :=
  send_tag st
    (codec ← video_codec st !! idx;
     if is_header then flv_packet_start packet size codec (Z.of_nat idx)
     else if is_footer then flv_packet_end packet codec (Z.of_nat idx)
     else flv_packet_frames packet codec (i32 (start_dts_offset st)) (Z.of_nat idx)) true.

Definition send_audio_packet_ex st (packet : encoder_packet) (is_header : bool) (idx : nat) :
    option (rtmp_stream * Z) :=
  send_tag st
    (codec ← audio_codec st !! idx;
     data ← (if is_header then flv_packet_audio_start packet codec (Z.of_nat idx)
             else flv_packet_audio_frames packet codec (i32 (start_dts_offset st)) (Z.of_nat idx));
     data) false.

(** ** Headers and footers *)

Definition send_meta_data st : option (rtmp_stream * bool) :=
  meta_data ← flv_meta_data (flv_version env) (obs_output_get_video_encoder c) (obs_output_get_audio_encoder c 0) false;
  let '(st, ret) := write_tag st meta_data in
  Some (st, 0 <=? ret).

Definition succeeded (r : rtmp_stream * Z) : rtmp_stream * bool := (r.1, 0 <=? r.2).

Definition send_audio_header st (idx : nat) : option (rtmp_stream * bool) :=
  match obs_output_get_audio_encoder c idx with
  | None => Some (st, true)
  | Some aencoder =>
      match obs_encoder_get_extra_data (Some aencoder) with
      | None => Some (st, false)
      | Some data =>
          let packet := made_packet OBS_ENCODER_AUDIO false data in
          succeeded <$> (if (idx =? 0)%nat then send_packet st packet true else send_audio_packet_ex st packet true idx)
      end
  end.

Definition send_video_header st (idx : nat) : option (rtmp_stream * bool) :=
  match obs_output_get_video_encoder2 c idx with
  | None => Some (st, false)
  | Some vencoder =>
      match obs_encoder_get_extra_data (Some vencoder) with
      | None => Some (st, false)
      | Some header =>
          let packet data := made_packet OBS_ENCODER_VIDEO true data in
          codec ← video_codec st !! idx;
          match codec with
          | CODEC_NONE => Some (st, false)
          | CODEC_H264 =>
              data ← obs_parse_avc_header (data_address env header) header;
              succeeded <$> (if (idx =? 0)%nat then send_packet st (packet data) true
                             else send_packet_ex st (packet data) (zlen data) true false idx)
          | CODEC_HEVC =>
              '(data, size) ← obs_parse_hevc_header (data_address env header) header;
              succeeded <$> send_packet_ex st (packet (default [] data)) size true false idx
          | CODEC_AV1 =>
              data ← obs_parse_av1_header header;
              succeeded <$> send_packet_ex st (packet data) (zlen data) true false idx
          end
      end
  end.

(** The colours are those of the main video, once the encoder's are found to be HDR. *)
Definition send_video_metadata st (idx : nat) : option (rtmp_stream * bool) :=
  match obs_output_get_video_encoder2 c idx with
  | None => Some (st, false)
  | Some encoder =>
      match obs_encoder_video (Some encoder) with
      | None => Some (st, false)
      | Some info =>
          if negb (is_hdr (colorspace info)) then Some (st, true) else
          let '(st, failed) := read_socket st in
          if failed : bool then Some (st, false) else
          codec ← video_codec st !! idx;
          if bool_decide (codec = CODEC_H264) then Some (st, true) else
          info ← main_video env;
          let '(pri, trc, spc) := color_description (colorspace info) in
          let max_luminance := if trc =? 18 then 1000 else if trc =? 16 then hdr_peak env else 0 in
          data ← flv_packet_metadata codec (raw_sample_bits (vi_format info)) pri trc spc 0 max_luminance
                   (Z.of_nat idx);
          let '(st, ret) := write_tag st data in
          Some (set_total st (u64 (total_bytes_sent st + zlen data)), 0 <=? ret)
      end
  end.

Definition send_video_footer st (idx : nat) : option (rtmp_stream * bool) :=
  succeeded <$> send_packet_ex st (made_packet OBS_ENCODER_VIDEO false []) 0 false true idx.

(** [for (i ...) { ...; if (!f(i)) return false; }] over the tracks [is]. *)
Fixpoint for_tracks (f : rtmp_stream → nat → option (rtmp_stream * bool)) (is_ : list nat) st :
    option (rtmp_stream * bool) :=
  match is_ with
  | [] => Some (st, true)
  | i :: is_ => '(st, ok) ← f st i; if ok : bool then for_tracks f is_ st else Some (st, false)
  end.

Definition send_headers st : option (rtmp_stream * bool) :=
  let st := set_header_flag st true in
  '(st, ok) ← for_tracks send_audio_header (seq 0 MAX_OUTPUT_AUDIO_ENCODERS) st;
  if negb ok then Some (st, false) else
  for_tracks (λ st i,
    match obs_output_get_video_encoder2 c i with
    | None => Some (st, true)
    | Some _ =>
        '(st, ok) ← send_video_metadata st i;
        if negb ok then Some (st, false) else send_video_header st i
    end) (seq 0 MAX_OUTPUT_VIDEO_ENCODERS) st.

Definition send_footers st : option (rtmp_stream * bool) :=
  for_tracks (λ st i,
    match obs_output_get_video_encoder2 c i with
    | None => Some (st, true)
    | Some _ =>
        codec ← video_codec st !! i;
        if (i =? 0)%nat && bool_decide (codec = CODEC_H264) then Some (st, true) else send_video_footer st i
    end) (seq 0 MAX_OUTPUT_VIDEO_ENCODERS) st.

(** ** The handlers *)

(** Once the connecting thread, if any, has ended. *)
Definition rtmp_stream_stop st (ts : Z) : rtmp_stream :=
  if stopping st && negb (ts =? 0) then st else
  let st := set_stop st (stopping st) (ts / 1000)
              (if ts =? 0 then shutdown_timeout_ts st
               else u64 (ts + u64 (max_shutdown_time_sec st) * 1000000000)) in
  if active st then
    let st := set_stop st true (stop_ts st) (shutdown_timeout_ts st) in
    if stop_ts st =? 0 then post st else st
  else set_signal st 0.

(** The packet in the form the container wants. *)
Definition new_packet st (packet : encoder_packet) : option (option encoder_packet) :=
  match pkt_type packet with
  | OBS_ENCODER_AUDIO => Some (Some packet)
  | OBS_ENCODER_VIDEO =>
      codec ← video_codec st !! Z.to_nat (pkt_track_idx packet);
      match codec with
      | CODEC_NONE => Some None
      | CODEC_H264 => Some <$> obs_parse_avc_packet (data_address env (pkt_data packet)) packet
      | CODEC_HEVC => Some <$> obs_parse_hevc_packet (data_address env (pkt_data packet)) packet
      | CODEC_AV1 => Some <$> obs_parse_av1_packet packet
      end
  end.

(** A null packet is an encoder error. [now] are the readings of the clock. *)
Definition rtmp_stream_data st (packet : option encoder_packet) (now : nat → Z) : option rtmp_stream :=
  if disconnected st || negb (active st) then Some st else
  match packet with
  | None => Some (post (set_flags st (active st) (disconnected st) true))
  | Some packet =>
      st ← (if got_first_packet st then Some st
            else off ← get_ms_time packet (pkt_dts packet); Some (set_first st true off));
      new ← new_packet st packet;
      match new with
      | None => Some st
      | Some new_packet =>
          '(q, d, added_packet) ←
            (if disconnected st then Some (queue st, dbr st, false) else
             match pkt_type packet with
             | OBS_ENCODER_VIDEO => add_video_packet (queue st) (dbr st) new_packet now
             | OBS_ENCODER_AUDIO => Some (add_packet (queue st) new_packet, dbr st, true)
             end);
          let st := set_media st q d in
          Some (if added_packet : bool then post st else st)
      end
  end.

(** ** The send thread *)

Definition can_shutdown_stream st (packet : encoder_packet) (cur_time : Z) : bool :=
  (shutdown_timeout_ts st <=? cur_time) || (i64 (stop_ts st) <=? pkt_sys_dts_usec packet).

(** From the semaphore to the packet to send. *)
Definition send_wake st (cur_time : Z) : rtmp_stream :=
  let st := set_thread st (send_sem st - 1) (pc st) (popped st) in
  if stopping st && (stop_ts st =? 0) then goto st S_EXIT else
  match get_next_packet (queue st) with
  | None => st
  | Some (packet, q) =>
      let st := set_media st q (dbr st) in
      if stopping st && can_shutdown_stream st packet cur_time then goto st S_EXIT else
      set_thread st (send_sem st) (S_SEND packet) (popped st ++ [packet])
  end.

(** The packet is sent, after the headers. *)
Definition send_one st (packet : encoder_packet) (send_beg send_end : Z) : option rtmp_stream :=
  let fail st := goto (set_flags st (active st) true (encode_error st)) S_EXIT in
  '(st, ok) ← (if sent_headers st then Some (st, true) else send_headers st);
  if negb ok then Some (fail st) else
  let idx := Z.to_nat (pkt_track_idx packet) in
  '(st, sent) ←
    match pkt_type packet with
    | OBS_ENCODER_VIDEO =>
        codec ← video_codec st !! idx;
        if negb (bool_decide (codec = CODEC_H264)) || negb (idx =? 0)%nat
        then send_packet_ex st packet (pkt_size packet) false false idx
        else send_packet st packet false
    | OBS_ENCODER_AUDIO =>
        if negb (idx =? 0)%nat then send_audio_packet_ex st packet false idx else send_packet st packet false
    end;
  if sent <? 0 then Some (fail st) else
  Some (goto st (if dbr_enabled (dbr st) then S_FRAME (mk_frame send_beg send_end (pkt_size packet)) else S_WAIT)).

(** The end of the thread. *)
Definition send_end_thread st : option rtmp_stream :=
  let error := encode_error st in
  st ← (if disconnected st then Some st else '(st, _) ← send_footers st; Some st);
  d ← (if dbr_enabled (dbr st) && negb (dbr_cur_bitrate (dbr st) =? dbr_orig_bitrate (dbr st))
       then dbr_set_bitrate (set_rate (dbr st) (dbr_inc_timeout (dbr st)) (dbr_prev_bitrate (dbr st))
                               (dbr_orig_bitrate (dbr st)))
       else Some (dbr st));
  let st := set_media st (queue st) d in
  let st := set_signal st (if negb (stopping st) then -5 else if error then OBS_OUTPUT_ENCODE_ERROR else 0) in
  let st := set_media st (free_packets (queue st)) (dbr st) in
  let st := set_stop st false (stop_ts st) (shutdown_timeout_ts st) in
  let st := set_flags st false (disconnected st) (encode_error st) in
  Some (goto (set_header_flag st false) S_END).

(** One step of the send thread; [times] are the readings of the clock it makes. *)
Definition send_step st (times : nat → Z) : option rtmp_stream :=
  match pc st with
  | S_WAIT => Some (if 0 <? send_sem st then send_wake st (times 0%nat) else st)
  | S_SEND packet => send_one st packet (times 0%nat) (times 1%nat)
  | S_FRAME frame => Some (goto (set_media st (queue st) (dbr_add_frame (dbr st) frame)) S_WAIT)
  | S_EXIT => send_end_thread st
  | S_END => Some st
  end.

(** ** Interleavings *)

(** A call of [rtmp_stream_data], a call of [rtmp_stream_stop] and a step of the thread,
    with the readings of the clock. *)
Inductive rtmp_event :=
  | EV_PACKET (packet : option encoder_packet) (now : nat → Z)
  | EV_STOP (ts : Z)
  | EV_SEND (times : nat → Z).

Definition rtmp_step st (ev : rtmp_event) : option rtmp_stream :=
  match ev with
  | EV_PACKET packet now => rtmp_stream_data st packet now
  | EV_STOP ts => Some (rtmp_stream_stop st ts)
  | EV_SEND times => send_step st times
  end.

Fixpoint rtmp_run st (evs : list rtmp_event) : option rtmp_stream :=
  match evs with
  | [] => Some st
  | ev :: evs => st ← rtmp_step st ev; rtmp_run st evs
  end.

(** The packet a call offers to the queue. *)
Definition offers st (ev : rtmp_event) : list encoder_packet :=
  match ev with
  | EV_PACKET (Some packet) _ =>
      if disconnected st || negb (active st) then []
      else match new_packet st packet with Some (Some p) => [p] | _ => [] end
  | _ => []
  end.

Fixpoint offered st (evs : list rtmp_event) : list encoder_packet :=
  match evs with
  | [] => []
  | ev :: evs => offers st ev ++ match rtmp_step st ev with Some st => offered st evs | None => [] end
  end.
End stream.
