(* ===== verification/RtmpSend.v ===== *)
(** * What the RTMP output sends: rtmp-stream.c

    The tags of the headers, of a packet and of the footers, and the functions that send
    them: whatever the network does, what they write is the beginning of what they should,
    all of it when they succeed, and nothing else of the output changes. *)

From S2P Require Import Prelude Double Encoder Avc Hevc RtmpAv1 RtmpHevc Interleave Flv FlvOutput RtmpQueue Rtmp.

Local Open Scope Z_scope.

(** Only the network, what is written and the count of bytes change. *)
Definition sent_from (st st' : rtmp_stream) (k : list bytes) : Prop :=
  ∃ n t, st' = set_total (set_net st n (written st ++ k)) t.

(** The function writes [l] or, when it fails, a beginning of it. *)
Definition outputs (st : rtmp_stream) (r : option (rtmp_stream * bool)) (l : list bytes) : Prop :=
  ∀ st' ok, r = Some (st', ok) → ∃ k, sent_from st st' k ∧ k `prefix_of` l ∧ (ok = true → k = l).

Lemma sent_from_nil st : sent_from st st [].
Proof. exists (net st), (total_bytes_sent st). destruct st. cbn. by rewrite app_nil_r. Qed.

Lemma sent_from_trans st1 st2 st3 k l : sent_from st1 st2 k → sent_from st2 st3 l → sent_from st1 st3 (k ++ l).
Proof. intros (n & t & ->) (n' & t' & ->). exists n', t'. cbn. by rewrite app_assoc. Qed.

Lemma outputs_nil st ok : outputs st (Some (st, ok)) [].
Proof. intros st' ok' [= <- <-]. exists []. split_and!; [apply sent_from_nil|done|done]. Qed.

(** A function that fails before it writes. *)
Lemma outputs_fail st l : outputs st (Some (st, false)) l.
Proof. intros st' ok' [= <- <-]. exists []. split_and!; [apply sent_from_nil|apply prefix_nil|done]. Qed.

Lemma outputs_bind st r f l1 l2 : outputs st r l1 →
  (∀ st', f (st', false) = Some (st', false)) →
  (∀ st', sent_from st st' l1 → outputs st' (f (st', true)) l2) →
  outputs st (r ≫= f) (l1 ++ l2).
Proof.
  intros Hr Hfail Hf st' ok'. destruct r as [[st1 ok1]|]; [|done]. cbn [mbind option_bind].
  destruct (Hr st1 ok1 eq_refl) as (k & S & P & E). destruct ok1.
  - rewrite (E eq_refl) in S. intros H. destruct (Hf st1 S st' ok' H) as (k' & S' & P' & E').
    exists (l1 ++ k'). split_and!; [by eapply sent_from_trans|by apply prefix_app|].
    intros ?. by rewrite E'.
  - rewrite Hfail. intros [= <- <-]. exists k. split_and!; [done|by apply prefix_app_r|done].
Qed.

Section send.
Context (env : rtmp_env) (c : output_conf).
Implicit Types st : rtmp_stream.

(** ** The tags *)

Definition audio_header_tag st (i : nat) : option bytes :=
  e ← obs_output_get_audio_encoder c i;
  data ← enc_extra_data e;
  let packet := made_packet OBS_ENCODER_AUDIO false data in
  if (i =? 0)%nat then flv_packet_mux packet 0 true
  else codec ← audio_codec st !! i; mjoin (flv_packet_audio_start packet codec (Z.of_nat i)).

(** The data of the header of a track, and its size. *)
Definition header_data (codec : video_id_t) (header : bytes) : option (bytes * Z) :=
  match codec with
  | CODEC_NONE => None
  | CODEC_H264 => data ← obs_parse_avc_header (data_address env header) header; Some (data, zlen data)
  | CODEC_HEVC =>
      '(data, size) ← obs_parse_hevc_header (data_address env header) header; Some (default [] data, size)
  | CODEC_AV1 => data ← obs_parse_av1_header header; Some (data, zlen data)
  end.

(** H.264 on the first track is in the old form. *)
Definition old_form (codec : video_id_t) (i : nat) : bool := bool_decide (codec = CODEC_H264) && (i =? 0)%nat.

Definition video_header_tag st (i : nat) : option bytes :=
  e ← obs_output_get_video_encoder2 c i;
  header ← enc_extra_data e;
  codec ← video_codec st !! i;
  '(data, size) ← header_data codec header;
  let packet := made_packet OBS_ENCODER_VIDEO true data in
  if old_form codec i then flv_packet_mux packet 0 true else flv_packet_start packet size codec (Z.of_nat i).

(** Only for a track in the enhanced form whose encoder is HDR. *)
Definition video_metadata_tag st (i : nat) : option bytes :=
  e ← obs_output_get_video_encoder2 c i;
  info ← obs_encoder_video (Some e);
  if negb (is_hdr (colorspace info)) then None else
  codec ← video_codec st !! i;
  if bool_decide (codec = CODEC_H264) then None else
  info ← main_video env;
  let '(pri, trc, spc) := color_description (colorspace info) in
  flv_packet_metadata codec (raw_sample_bits (vi_format info)) pri trc spc 0
    (if trc =? 18 then 1000 else if trc =? 16 then hdr_peak env else 0) (Z.of_nat i).

Definition video_footer_tag st (i : nat) : option bytes :=
  _ ← obs_output_get_video_encoder2 c i;
  codec ← video_codec st !! i;
  if old_form codec i then None
  else flv_packet_end (made_packet OBS_ENCODER_VIDEO false []) codec (Z.of_nat i).

Definition audio_headers st (is_ : list nat) : list bytes := flat_map (λ i, option_list (audio_header_tag st i)) is_.
Definition video_headers st (is_ : list nat) : list bytes :=
  flat_map (λ i, option_list (video_metadata_tag st i) ++ option_list (video_header_tag st i)) is_.
Definition footers st (is_ : list nat) : list bytes := flat_map (λ i, option_list (video_footer_tag st i)) is_.

Definition header_tags st : list bytes :=
  audio_headers st (seq 0 MAX_OUTPUT_AUDIO_ENCODERS) ++ video_headers st (seq 0 MAX_OUTPUT_VIDEO_ENCODERS).
Definition footer_tags st : list bytes := footers st (seq 0 MAX_OUTPUT_VIDEO_ENCODERS).

(** The tag of a packet, at its time since the first one. *)
Definition packet_tag st (packet : encoder_packet) : option bytes :=
  let i := Z.to_nat (pkt_track_idx packet) in
  let offset := i32 (start_dts_offset st) in
  match pkt_type packet with
  | OBS_ENCODER_VIDEO =>
      codec ← video_codec st !! i;
      if old_form codec i then flv_packet_mux packet offset false
      else flv_packet_frames packet codec offset (Z.of_nat i)
  | OBS_ENCODER_AUDIO =>
      if (i =? 0)%nat then flv_packet_mux packet offset false
      else codec ← audio_codec st !! i; mjoin (flv_packet_audio_frames packet codec offset (Z.of_nat i))
  end.

(** ** One tag *)

Lemma read_socket_sent st : sent_from st (read_socket env st).1 [].
Proof. exists (S (net st)), (total_bytes_sent st). destruct st. cbn. by rewrite app_nil_r. Qed.

Lemma write_tag_sent st data : sent_from st (write_tag env st data).1 [data].
Proof. exists (S (net st)), (total_bytes_sent st). by destruct st. Qed.

Lemma sent_from_total st st' k t : sent_from st st' k → sent_from st (set_total st' t) k.
Proof. intros (n & t' & ->). by exists n, t. Qed.

(** A tag that is sent was defined; the result is negative when it could not be. *)
Lemma send_tag_spec st data count st' ret : send_tag env st data count = Some (st', ret) →
  (ret = -1 ∧ sent_from st st' []) ∨ ∃ d, data = Some d ∧ sent_from st st' [d].
Proof.
  unfold send_tag. pose proof (read_socket_sent st) as R. destruct (read_socket env st) as [st1 failed].
  cbn [fst] in R. destruct failed; [intros [= <- <-]; by left|].
  destruct data as [d|]; [|done]. cbn [mbind option_bind].
  pose proof (write_tag_sent st1 d) as W. destruct (write_tag env st1 d) as [st2 ret2]. cbn [fst] in W.
  intros [= <- <-]. right. exists d. split; [done|].
  pose proof (sent_from_trans _ _ _ _ _ R W) as T. destruct count; [by apply sent_from_total|done].
Qed.

Lemma send_tag_outputs st data data' count : (∀ d, data = Some d → data' = Some d) →
  outputs st (succeeded <$> send_tag env st data count) (option_list data').
Proof.
  intros Hd st' ok. destruct (send_tag env st data count) as [[st1 ret]|] eqn:E; [|done].
  cbn. intros [= <- <-]. apply send_tag_spec in E as [[-> S]|(d & Ed & S)].
  - exists []. split_and!; [done|apply prefix_nil|done].
  - rewrite (Hd d Ed). exists [d]. by split_and!.
Qed.

(** ** The headers and the footers *)

Lemma send_audio_header_outputs st i :
  outputs st (send_audio_header env c st i) (option_list (audio_header_tag st i)).
Proof.
  unfold send_audio_header, audio_header_tag. destruct (obs_output_get_audio_encoder c i) as [e|]; [|apply outputs_nil].
  cbn [obs_encoder_get_extra_data mbind option_bind].
  destruct (enc_extra_data e) as [data|]; [|apply outputs_nil]. cbn [mbind option_bind].
  destruct (i =? 0)%nat; apply send_tag_outputs; [done|].
  intros d. destruct (audio_codec st !! i) as [codec|]; [|done]. cbn [mbind option_bind].
  by destruct (flv_packet_audio_start _ _ _) as [[]|].
Qed.

Lemma send_video_header_outputs st i :
  outputs st (send_video_header env c st i) (option_list (video_header_tag st i)).
Proof.
  unfold send_video_header, video_header_tag.
  destruct (obs_output_get_video_encoder2 c i) as [e|]; [|apply outputs_nil].
  cbn [obs_encoder_get_extra_data mbind option_bind].
  destruct (enc_extra_data e) as [header|]; [|apply outputs_nil]. cbn [mbind option_bind].
  destruct (video_codec st !! i) as [codec|] eqn:Ec; [|done]. cbn [mbind option_bind].
  destruct codec; cbn [header_data]; [apply outputs_fail| | |].
  - destruct (obs_parse_avc_header _ _) as [data|]; [|done]. cbn [mbind option_bind].
    unfold old_form. rewrite bool_decide_true by done. cbn [andb].
    destruct (i =? 0)%nat; apply send_tag_outputs; [done|]. by rewrite Ec.
  - destruct (obs_parse_av1_header _) as [data|]; [|done]. cbn [mbind option_bind].
    apply send_tag_outputs. by rewrite Ec.
  - destruct (obs_parse_hevc_header _ _) as [[data size]|]; [|done]. cbn [mbind option_bind].
    apply send_tag_outputs. by rewrite Ec.
Qed.

Lemma send_video_metadata_outputs st i :
  outputs st (send_video_metadata env c st i) (option_list (video_metadata_tag st i)).
Proof.
  unfold send_video_metadata, video_metadata_tag.
  destruct (obs_output_get_video_encoder2 c i) as [e|]; [|apply outputs_nil]. cbn [mbind option_bind].
  destruct (obs_encoder_video (Some e)) as [info|]; [|apply outputs_nil]. cbn [mbind option_bind].
  destruct (negb (is_hdr (colorspace info))); [apply outputs_nil|].
  pose proof (read_socket_sent st) as R. pose proof eq_refl : video_codec (read_socket env st).1 = video_codec st as Vc.
  destruct (read_socket env st) as [st1 failed]. cbn [fst] in R, Vc. destruct failed.
  { intros st' ok [= <- <-]. exists []. split_and!; [done|apply prefix_nil|done]. }
  rewrite Vc. destruct (video_codec st !! i) as [codec|]; [|done]. cbn [mbind option_bind].
  case_bool_decide.
  { intros st' ok [= <- <-]. by exists []. }
  destruct (main_video env) as [info'|]; [|done]. cbn [mbind option_bind].
  destruct (color_description (colorspace info')) as [[pri trc] spc].
  destruct (flv_packet_metadata _ _ _ _ _ _ _ _) as [data|]; [|done]. cbn [mbind option_bind option_list].
  pose proof (write_tag_sent st1 data) as W. destruct (write_tag env st1 data) as [st2 ret]. cbn [fst] in W.
  intros st' ok [= <- <-]. exists [data]. split_and!; [|done|done].
  apply sent_from_total. exact (sent_from_trans _ _ _ _ _ R W).
Qed.

Lemma send_video_footer_outputs st i e codec : obs_output_get_video_encoder2 c i = Some e →
  video_codec st !! i = Some codec → old_form codec i = false →
  outputs st (send_video_footer env st i) (option_list (video_footer_tag st i)).
Proof.
  intros He Hc Ho. unfold send_video_footer, video_footer_tag. rewrite He, Hc. cbn [mbind option_bind]. rewrite Ho.
  apply send_tag_outputs. by rewrite Hc.
Qed.

(** What the tags depend on does not change while they are sent. *)
Lemma sent_from_same st st' k : sent_from st st' k →
  video_codec st' = video_codec st ∧ audio_codec st' = audio_codec st ∧ start_dts_offset st' = start_dts_offset st.
Proof. by intros (n & t & ->). Qed.

Lemma header_tags_same st st' : video_codec st' = video_codec st → audio_codec st' = audio_codec st →
  header_tags st' = header_tags st ∧ footer_tags st' = footer_tags st ∧
  (∀ i, audio_header_tag st' i = audio_header_tag st i) ∧
  (∀ i, video_metadata_tag st' i = video_metadata_tag st i) ∧
  (∀ i, video_header_tag st' i = video_header_tag st i) ∧ (∀ i, video_footer_tag st' i = video_footer_tag st i).
Proof.
  intros Hv Ha.
  unfold header_tags, footer_tags, audio_headers, video_headers, footers, audio_header_tag, video_metadata_tag,
    video_header_tag, video_footer_tag. by rewrite Hv, Ha.
Qed.

(** A loop that sends the tags [g] of each track. *)
Lemma for_tracks_outputs (g : nat → list bytes) f is_ st :
  (∀ st' i, video_codec st' = video_codec st → audio_codec st' = audio_codec st → outputs st' (f st' i) (g i)) →
  outputs st (for_tracks f is_ st) (flat_map g is_).
Proof.
  revert st. induction is_ as [|i is_ IH]; intros st Hf; [apply outputs_nil|]. cbn [for_tracks flat_map].
  apply outputs_bind; [by apply Hf|done|]. intros st' S. apply IH.
  apply sent_from_same in S as (V & A & _). intros st2 j V2 A2. apply Hf; congruence.
Qed.

Lemma send_headers_outputs st :
  outputs (set_header_flag st true) (send_headers env c st) (header_tags st).
Proof.
  unfold send_headers. set (st0 := set_header_flag st true).
  apply (outputs_bind st0); [|done|].
  - apply for_tracks_outputs. intros st' i V A.
    destruct (header_tags_same st st' V A) as (_ & _ & Ea & _). rewrite <- Ea. apply send_audio_header_outputs.
  - intros st1 S1. cbn [negb]. apply sent_from_same in S1 as (V1 & A1 & _).
    change (video_codec st0) with (video_codec st) in V1. change (audio_codec st0) with (audio_codec st) in A1.
    apply for_tracks_outputs. intros st' i V A.
    destruct (header_tags_same st st') as (_ & _ & _ & Em & Eh & _); [congruence..|].
    rewrite <- Em, <- Eh. destruct (obs_output_get_video_encoder2 c i) as [e|] eqn:He; cycle 1.
    { unfold video_metadata_tag, video_header_tag. rewrite He. apply outputs_nil. }
    apply outputs_bind; [apply send_video_metadata_outputs|done|]. intros st2 S2. cbn [negb].
    apply sent_from_same in S2 as (V2 & A2 & _).
    destruct (header_tags_same st' st2 V2 A2) as (_ & _ & _ & _ & Eh2 & _). rewrite <- Eh2.
    apply send_video_header_outputs.
Qed.

Lemma send_footers_outputs st : outputs st (send_footers env c st) (footer_tags st).
Proof.
  unfold send_footers. apply for_tracks_outputs. intros st' i V A.
  destruct (header_tags_same st st' V A) as (_ & _ & _ & _ & _ & Ef). rewrite <- Ef.
  destruct (obs_output_get_video_encoder2 c i) as [e|] eqn:He; cycle 1.
  { unfold video_footer_tag. rewrite He. apply outputs_nil. }
  destruct (video_codec st' !! i) as [codec|] eqn:Hc; [|done]. cbn [mbind option_bind].
  rewrite andb_comm. change (bool_decide (codec = CODEC_H264) && (i =? 0)%nat) with (old_form codec i).
  destruct (old_form codec i) eqn:Ho.
  - unfold video_footer_tag. rewrite He, Hc. cbn [mbind option_bind]. rewrite Ho. apply outputs_nil.
  - by eapply send_video_footer_outputs.
Qed.

(** ** A packet *)

(** Before the thread leaves its loop. *)
Definition in_loop (p : send_pc) : Prop := match p with S_EXIT | S_END => False | _ => True end.

Lemma set_header_flag_true st : sent_headers st = true → set_header_flag st true = st.
Proof. destruct st. cbn. by intros ->. Qed.

(** What is to be sent with a packet. *)
Definition owed_tags st (packet : encoder_packet) : list bytes :=
  (if sent_headers st then [] else header_tags st) ++ option_list (packet_tag st packet).

(** [send_packet] and its variants, as the thread chooses between them. *)
Definition send_media st (packet : encoder_packet) : option (rtmp_stream * Z) :=
  let idx := Z.to_nat (pkt_track_idx packet) in
  match pkt_type packet with
  | OBS_ENCODER_VIDEO =>
      codec ← video_codec st !! idx;
      if negb (bool_decide (codec = CODEC_H264)) || negb (idx =? 0)%nat
      then send_packet_ex env st packet (pkt_size packet) false false idx
      else send_packet env st packet false
  | OBS_ENCODER_AUDIO =>
      if negb (idx =? 0)%nat then send_audio_packet_ex env st packet false idx else send_packet env st packet false
  end.

Lemma send_media_spec st packet st' ret : send_media st packet = Some (st', ret) →
  (ret = -1 ∧ sent_from st st' []) ∨ ∃ d, packet_tag st packet = Some d ∧ sent_from st st' [d].
Proof.
  unfold send_media, packet_tag. set (i := Z.to_nat _). destruct (pkt_type packet).
  - rewrite if_negb. destruct (i =? 0)%nat; intros H; apply send_tag_spec in H as [?|(d & Hd & S)]; auto; right;
      exists d; (split; [|done]); [done|].
    destruct (audio_codec st !! i) as [codec|]; [|done]. cbn [mbind option_bind] in *.
    by destruct (flv_packet_audio_frames _ _ _ _) as [[]|].
  - destruct (video_codec st !! i) as [codec|] eqn:Hc; [|done]. cbn [mbind option_bind].
    rewrite <- negb_andb, if_negb. change (_ && _) with (old_form codec i).
    destruct (old_form codec i); intros H; apply send_tag_spec in H as [?|(d & Hd & S)]; auto; right;
      exists d; (split; [|done]); [done|]. by rewrite Hc in Hd.
Qed.

(** The thread leaves its loop when the network fails, having written a beginning of what
    it owed; otherwise it has written it. *)
Lemma send_one_spec st packet b e st' : send_one env c st packet b e = Some st' →
  ∃ st1 k, sent_from (set_header_flag st true) st1 k ∧
    ((k `prefix_of` owed_tags st packet ∧
      st' = goto (set_flags st1 (active st1) true (encode_error st1)) S_EXIT) ∨
     (is_Some (packet_tag st packet) ∧ k = owed_tags st packet ∧ ∃ p, in_loop p ∧ (∀ q, p ≠ S_SEND q) ∧ st' = goto st1 p)).
Proof.
  unfold send_one, owed_tags.
  assert (outputs (set_header_flag st true) (if sent_headers st then Some (st, true) else send_headers env c st)
            (if sent_headers st then [] else header_tags st)) as Hh.
  { destruct (sent_headers st) eqn:E; [|apply send_headers_outputs].
    rewrite set_header_flag_true by done. apply outputs_nil. }
  destruct (if sent_headers st then Some (st, true) else _) as [[st1 ok]|]; [|done]. cbn [mbind option_bind].
  destruct (Hh st1 ok eq_refl) as (k & S & P & Ek). destruct ok; cbn [negb]; cycle 1.
  { intros [= <-]. exists st1, k. split; [done|]. left. split; [by apply prefix_app_r|done]. }
  rewrite (Ek eq_refl) in *. clear Ek P.
  fold (send_media st1 packet). destruct (send_media st1 packet) as [[st2 ret]|] eqn:E; [|done]. cbn [mbind option_bind].
  assert (packet_tag st1 packet = packet_tag st packet) as Et.
  { apply sent_from_same in S as (V & A & O). unfold packet_tag. by rewrite V, A, O. }
  apply send_media_spec in E as [[-> S2]|(d & Hd & S2)]; pose proof (sent_from_trans _ _ _ _ _ S S2) as S3.
  - intros [= <-]. eexists _, _. split; [exact S3|]. left. split; [|done]. by apply prefix_app, prefix_nil.
  - rewrite <- Et, Hd. cbn [option_list]. destruct (ret <? 0); intros [= <-]; eexists _, _; (split; [exact S3|]).
    + by left.
    + right. split_and!; [done|done|]. destruct (dbr_enabled (dbr st2)); eexists; (split; [|split; [|reflexivity]]); done.
Qed.
End send.
