(* ===== verification/RtmpConnect.v ===== *)
(** * Connecting the RTMP output: plugins/obs-outputs/rtmp-stream.c

    The creation of the output, what a new connection resets and reads from the settings,
    and the thread that connects. What librtmp returns from the connection itself is an
    argument, as are the functions of jansson that read the interpolation table. The
    texts of the settings (address, keys, interface) are left out. *)

From S2P Require Import Prelude Double Encoder Interleave Flv FlvOutput RtmpQueue Rtmp.

Local Open Scope Z_scope.

Definition OBS_OUTPUT_BAD_PATH : Z := -1.
Definition OBS_OUTPUT_DISCONNECTED : Z := -5.
Definition OBS_OUTPUT_HDR_DISABLED : Z := -9.
Definition OBS_ENCODER_CAP_DYN_BITRATE : Z := 4.
Definition OBS_ENCODER_CAP_MULTITRACK_DYN_BITRATE : Z := 64.

(** jansson: the values, [None] where the function returns a null pointer, and the value
    of an integer. *)
Record json_api := mk_json {
  json_t : Type;
  json_loads : bytes → option json_t;
  json_array_get : json_t → nat → option json_t;
  json_array_size : json_t → Z;
  json_integer : json_t → option Z
}.

(** The settings of the output. [interpolation_table_data] is set when the user gave it. *)
Record rtmp_settings := mk_rtmp_settings {
  service : bool;
  drop_threshold_ms : Z;
  pframe_drop_threshold_ms : Z;
  max_shutdown_time : Z;
  dyn_bitrate : bool;
  dyn_bitrate_floor_pct : Z;
  interpolation_table_data : option bytes;
  output_delay : Z
}.

(** [bzalloc] *)
Definition rtmp_stream_create : rtmp_stream :=
  mk_rtmp (mk_drop [] 0 0 0 (S754_zero false) 0 0)
    (mk_dbr [] 0 0 0 0 0 0 0 0 0 false [] (replicate MAX_OUTPUT_VIDEO_ENCODERS None))
    false false false false 0 0 0 false false 0
    (replicate MAX_OUTPUT_AUDIO_ENCODERS AUDIO_CODEC_NONE) (replicate MAX_OUTPUT_VIDEO_ENCODERS CODEC_NONE)
    0 0 S_END 0 [] [] [] false.

Section connect.
Context (env : rtmp_env) (c : output_conf) (json : json_api).
Implicit Types (st : rtmp_stream) (cs : rtmp_settings).

(** ** The interpolation table *)

(** The number of entries of the arrays of the encoders, and whether they differ or one is
    missing. *)
Fixpoint check_arrays (root : json_t json) (n i : nat) (all_array_size : Z) (malformed_data : bool) : Z * bool :=
  match n with
  | O => (all_array_size, malformed_data)
  | S n =>
      match obs_output_get_video_encoder2 c i with
      | None => check_arrays root n (S i) all_array_size malformed_data
      | Some _ =>
          match json_array_get json root i with
          | None => check_arrays root n (S i) all_array_size true
          | Some array =>
              let size := json_array_size json array in
              if all_array_size =? 0 then check_arrays root n (S i) size malformed_data
              else check_arrays root n (S i) all_array_size (malformed_data || negb (all_array_size =? size))
          end
      end
  end.

(** The bitrate of one track; an entry that is not an integer is left at zero. *)
Definition table_entry (root : json_t json) (i j : nat) : option Z :=
  match json_array_get json root j with
  | None => Some 0
  | Some array => entry ← json_array_get json array i; Some (default 0 (json_integer json entry))
  end.

(** The inner [None] is [false]. *)
Definition build_dbr_interpolation_table (interpolation_data : bytes) : option (option (list (list Z))) :=
  match json_loads json interpolation_data with
  | None => Some None
  | Some root =>
      let '(all_array_size, malformed_data) := check_arrays root MAX_OUTPUT_VIDEO_ENCODERS 0 0 false in
      if malformed_data : bool then Some None else
      table ← mapM (λ i, mapM (table_entry root i) (seq 0 MAX_OUTPUT_VIDEO_ENCODERS))
                (seq 0 (Z.to_nat all_array_size));
      Some (Some table)
  end.

(** ** A new connection *)

Definition encoder_setting (e : option obs_encoder) : Z :=
  match obs_encoder_get_settings e with Some s => set_bitrate s | None => 0 end.

Definition video_encoders_used : list (option obs_encoder) :=
  obs_output_get_video_encoder2 c <$> seq 0 MAX_OUTPUT_VIDEO_ENCODERS.
Definition audio_encoders_used : list (option obs_encoder) :=
  obs_output_get_audio_encoder c <$> seq 0 MAX_OUTPUT_AUDIO_ENCODERS.

Definition total_bitrate (encs : list (option obs_encoder)) : Z :=
  foldl (λ s e, i64 (s + encoder_setting e)) 0 encs.

(** The codecs of the tracks with an encoder. *)
Definition note_codecs {A} (to_type : string → A) (encs : list (option obs_encoder)) (old : list A) : list A :=
  zip_with (λ e o, match e with Some e => to_type (enc_codec e) | None => o end) encs old.

Definition is_multitrack : bool := existsb (λ e, bool_decide (is_Some e)) (tail video_encoders_used).

Definition dbr_capable : bool :=
  forallb (λ e,
    match e with
    | None => true
    | Some e =>
        negb (Z.land (encoder_caps env e) (if is_multitrack then OBS_ENCODER_CAP_MULTITRACK_DYN_BITRATE
                                           else OBS_ENCODER_CAP_DYN_BITRATE) =? 0)
    end) video_encoders_used.

(** The columns of the default table are added to those left by earlier connections. *)
Definition default_table (d : dbr_state) : list (list Z) :=
  dbr_interpolation_table d ++ [replicate MAX_OUTPUT_VIDEO_ENCODERS 0; encoder_setting <$> video_encoders_used].

(** The table the user gave, if any; when it is not well formed, the dynamic bitrate is
    disabled. *)
Definition user_table cs (enabled : bool) (table : list (list Z)) : option (bool * list (list Z)) :=
  match interpolation_table_data cs with
  | None => Some (enabled, table)
  | Some data =>
      table' ← build_dbr_interpolation_table data;
      Some (match table' with Some table' => (enabled, table') | None => (false, table) end)
  end.

Definition connect_dbr (d : dbr_state) cs : option dbr_state :=
  let orig := total_bitrate video_encoders_used in
  let floor_pct := if 100 <? dyn_bitrate_floor_pct cs then 100 else dyn_bitrate_floor_pct cs in
  let floor := if 0 <? floor_pct then i64 (orig * floor_pct) /c 100 else 0 in
  let enabled := dbr_capable && dyn_bitrate cs && (output_delay cs =? 0) in
  let table := default_table d in
  '(enabled, table) ← user_table cs enabled table;
  Some (mk_dbr [] 0 0 (total_bitrate audio_encoders_used) 0 orig (dbr_prev_bitrate d) orig (orig /c 10) floor
          enabled table (map (fmap (λ e, encoder_setting (Some e))) video_encoders_used)).

(** The send thread of an earlier connection has ended. *)
Definition init_connect st cs : option (rtmp_stream * bool) :=
  let st := set_media st (free_packets (queue st)) (dbr st) in
  if negb (service cs) then Some (st, false) else
  let drop_b := drop_threshold_ms cs in
  let drop_p := pframe_drop_threshold_ms cs in
  let drop_p := if drop_p <? drop_b + 200 then drop_b + 200 else drop_p in
  d ← connect_dbr (dbr st) cs;
  Some (mk_rtmp
          (mk_drop [] 0 0 (last_dts_usec (queue st)) (congestion (queue st)) (1000 * drop_b) (1000 * drop_p))
          d (active st) false false (stopping st) (stop_ts st) (shutdown_timeout_ts st)
          (i32 (max_shutdown_time cs)) (sent_headers st) false (start_dts_offset st)
          (note_codecs to_audio_type audio_encoders_used (audio_codec st))
          (note_codecs to_video_type video_encoders_used (video_codec st))
          0 (send_sem st) (pc st) (net st) (written st) (popped st) (signalled st) (connecting st), true).

(** The send thread is started; [false] is [OBS_OUTPUT_DISCONNECTED]. *)
Definition init_send st : option (rtmp_stream * bool) :=
  let st := set_thread st 0 S_WAIT (popped st) in
  send_meta_data env c (set_flags st true (disconnected st) (encode_error st)).

(** Whether a track other than H.264 and HEVC is HDR. *)
Definition hdr_disabled st : option bool :=
  hdr ← mapM (λ '(codec, e),
    match codec with
    | CODEC_NONE | CODEC_H264 | CODEC_HEVC => Some false
    | CODEC_AV1 => info ← obs_encoder_video e; Some (is_hdr (colorspace info))
    end) (zip (video_codec st) video_encoders_used);
  Some (existsb id hdr).

Definition set_connecting st b := mk_rtmp (queue st) (dbr st) (active st) (disconnected st) (encode_error st)
  (stopping st) (stop_ts st) (shutdown_timeout_ts st) (max_shutdown_time_sec st) (sent_headers st)
  (got_first_packet st) (start_dts_offset st) (audio_codec st) (video_codec st) (total_bytes_sent st) (send_sem st)
  (pc st) (net st) (written st) (popped st) (signalled st) b.

(** [network] is what [try_connect] returns before it starts the send thread. *)
Definition connect_thread st cs (network : Z) : option rtmp_stream :=
  '(st, ok) ← init_connect st cs;
  if negb ok then Some (set_signal st OBS_OUTPUT_BAD_PATH) else
  hdr ← hdr_disabled st;
  if hdr : bool then Some (set_signal st OBS_OUTPUT_HDR_DISABLED) else
  '(st, ret) ←
    (if network =? 0
     then '(st, ok) ← init_send st; Some (st, if ok : bool then 0 else OBS_OUTPUT_DISCONNECTED)
     else Some (st, network));
  let st := if ret =? 0 then st else set_signal st ret in
  Some (set_connecting st false).

Definition rtmp_stream_start st (can_begin initialized : bool) : rtmp_stream * bool :=
  if negb (can_begin && initialized) then (st, false) else (set_connecting st true, true).

Definition rtmp_stream_congestion st : spec_float :=
  if 0 <? min_priority (queue st) then float_of_int 1 else congestion (queue st).
End connect.
