(* ===== verification/RtmpDrop.v ===== *)
(** * What the RTMP output drops: rtmp-stream.c

    The packets offered to the queue are followed through every interleaving of the
    handlers and the send thread: a history marks those that were dropped. Among the packets
    that are kept, none can refer to one that was dropped. *)

From S2P Require Import Prelude Serializer Double Encoder NalPacket Avc Hevc RtmpAv1 RtmpHevc Interleave Flv FlvOutput RtmpQueue Rtmp RtmpSend RtmpConnect.

Local Open Scope Z_scope.

(** ** Histories *)

(** Packets in the order of arrival, with whether they are kept. *)
Implicit Types h : list (encoder_packet * bool).

Definition kept_of h : list encoder_packet := (filter (λ x, x.2 = true) h).*1.
Definition dropped_of h : list encoder_packet := (filter (λ x, x.2 = false) h).*1.

Definition is_video (p : encoder_packet) : Prop := pkt_type p = OBS_ENCODER_VIDEO.

(** Packet [j] may refer to the earlier packet [i] when it has no greater priority and no
    packet of greater priority separates them. *)
Definition may_refer (l : list encoder_packet) (j i : nat) : Prop :=
  ∃ x y, l !! j = Some x ∧ l !! i = Some y ∧ (i < j)%nat ∧ is_video x ∧ is_video y ∧
    pkt_drop_priority x ≤ pkt_drop_priority y ∧
    ∀ k z, (i < k < j)%nat → l !! k = Some z → is_video z → pkt_drop_priority z ≤ pkt_drop_priority y.

(** What a packet that is kept may refer to is kept. *)
Definition decodable h : Prop :=
  ∀ i j, may_refer h.*1 j i → h.*2 !! j = Some true → h.*2 !! i = Some true.

Definition audio_kept h : Prop := Forall (λ x, x.2 = false → is_video x.1) h.

(** After a dropped packet the queue waits for a packet of greater priority. *)
Definition waiting_for (min : Z) h : Prop :=
  ∀ i y, h !! i = Some (y, false) →
    pkt_drop_priority y < min ∨
    ∃ k z, (i < k)%nat ∧ h.*1 !! k = Some z ∧ is_video z ∧ pkt_drop_priority y < pkt_drop_priority z.

(** The mark of a packet is removed when it has not the priority. *)
Definition mark (highest : Z) (x : encoder_packet * bool) : encoder_packet * bool :=
  (x.1, x.2 && kept highest x.1).

Lemma kept_of_app h h2 : kept_of (h ++ h2) = kept_of h ++ kept_of h2.
Proof. unfold kept_of. by rewrite filter_app, fmap_app. Qed.

Lemma dropped_of_app h h2 : dropped_of (h ++ h2) = dropped_of h ++ dropped_of h2.
Proof. unfold dropped_of. by rewrite filter_app, fmap_app. Qed.

Lemma mark_fst highest h : (map (mark highest) h).*1 = h.*1.
Proof. induction h as [|x h IH]; [done|]. simpl. by f_equal. Qed.

(** Both lists, one element at a time. *)
Lemma kept_of_cons p b h : kept_of ((p, b) :: h) = if b then p :: kept_of h else kept_of h.
Proof. unfold kept_of. rewrite filter_cons. by destruct b. Qed.

Lemma dropped_of_cons p b h : dropped_of ((p, b) :: h) = if b then dropped_of h else p :: dropped_of h.
Proof. unfold dropped_of. rewrite filter_cons. by destruct b. Qed.

Lemma kept_of_mark highest h : kept_of (map (mark highest) h) = filter (kept highest) (kept_of h).
Proof.
  induction h as [|[p b] h IH]; [done|]. cbn [map]. unfold mark at 1. cbn [fst snd].
  rewrite !kept_of_cons, IH. destruct b; [|done]. rewrite filter_cons. by destruct (kept highest p).
Qed.

Lemma dropped_of_mark highest h :
  zlen (dropped_of (map (mark highest) h)) =
  zlen (dropped_of h) + zlen (filter (λ p, ¬ kept highest p) (kept_of h)).
Proof.
  induction h as [|[p b] h IH]; [done|]. cbn [map]. unfold mark at 1. cbn [fst snd].
  rewrite !dropped_of_cons, kept_of_cons. destruct b; cbn [andb]; [|rewrite !zlen_cons, IH; lia].
  rewrite filter_cons. destruct (kept highest p); cbn [andb].
  - rewrite decide_False by naive_solver. exact IH.
  - rewrite decide_True by naive_solver. rewrite !zlen_cons, IH. lia.
Qed.

(** ** Dropping from the queue *)

Lemma i32_add_l a b : i32 (i32 a + b) = i32 (a + b).
Proof.
  unfold i32. f_equal. replace ((a + 2 ^ 31) `mod` 2 ^ 32 - 2 ^ 31 + b + 2 ^ 31) with ((a + 2 ^ 31) `mod` 2 ^ 32 + b) by lia.
  rewrite Zplus_mod_idemp_l. f_equal. lia.
Qed.

Lemma i32_add_r a b : i32 (a + i32 b) = i32 (a + b).
Proof. rewrite Z.add_comm, i32_add_l. f_equal. lia. Qed.

Lemma drop_frames_spec q highest :
  drop_frames q highest =
    mk_drop (filter (kept highest) (packets q)) (Z.max (min_priority q) highest)
      (let n := i32 (zlen (filter (λ p, ¬ kept highest p) (packets q))) in
       if n =? 0 then dropped_frames q else i32 (dropped_frames q + n))
      (last_dts_usec q) (congestion q) (drop_threshold_usec q) (pframe_drop_threshold_usec q).
Proof.
  unfold drop_frames.
  assert (∀ l acc n, foldl (λ '(new_buf, n) packet,
             if kept highest packet then (new_buf ++ [packet], n) else (new_buf, i32 (n + 1)))
      (acc, i32 n) l =
      (acc ++ filter (kept highest) l, i32 (n + zlen (filter (λ p, ¬ kept highest p) l)))) as Hfold.
  { induction l as [|p l IH]; intros acc n; [by rewrite app_nil_r, Z.add_0_r|]. cbn [foldl].
    rewrite !filter_cons. destruct (kept highest p).
    - rewrite IH. rewrite decide_True by done. rewrite decide_False by naive_solver. by rewrite <- app_assoc.
    - rewrite i32_add_l, IH. rewrite decide_False by naive_solver. rewrite decide_True by naive_solver.
      rewrite zlen_cons. do 2 f_equal. lia. }
  change 0 with (i32 0) at 1. rewrite Hfold. cbn [app]. rewrite Z.add_0_l.
  unfold set_dropping, set_queue. cbn. f_equal. destruct (Z.ltb_spec (min_priority q) highest); lia.
Qed.

(** ** The invariant *)

(** [sent] has left the queue, [waiting] has not. *)
Record drop_inv (q : drop_state) (sent waiting : list (encoder_packet * bool)) : Prop := {
  i_queue : packets q = kept_of waiting;
  i_decodable : decodable (sent ++ waiting);
  i_audio : audio_kept (sent ++ waiting);
  i_waiting : waiting_for (min_priority q) (sent ++ waiting);
  i_dropped : dropped_frames q = i32 (zlen (dropped_of (sent ++ waiting)))
}.

Lemma fst_app_mark s w highest : (s ++ map (mark highest) w).*1 = (s ++ w).*1.
Proof. by rewrite !fmap_app, mark_fst. Qed.

Lemma lookup_marked s w highest i x b : (s ++ map (mark highest) w) !! i = Some (x, b) →
  ∃ b', (s ++ w) !! i = Some (x, b') ∧
    b = if decide (i < length s)%nat then b' else b' && kept highest x.
Proof.
  intros H. destruct (decide (i < length s)%nat).
  - rewrite lookup_app_l in * by done. eauto.
  - rewrite lookup_app_r in * by lia. rewrite list_lookup_fmap in H.
    destruct (w !! _) as [[y b']|]; [|done]. injection H as <- <-. eauto.
Qed.

Lemma lookup_fst h i x b : h !! i = Some (x, b) → h.*1 !! i = Some x ∧ h.*2 !! i = Some b.
Proof. intros H. by rewrite !list_lookup_fmap, H. Qed.

Lemma lookup_pair h i x : h.*1 !! i = Some x → ∃ b, h !! i = Some (x, b).
Proof. rewrite list_lookup_fmap. destruct (h !! i) as [[]|]; naive_solver. Qed.

Lemma lookup_snd h i b : h.*2 !! i = Some b → ∃ x, h !! i = Some (x, b).
Proof. rewrite list_lookup_fmap. destruct (h !! i) as [[]|]; naive_solver. Qed.

Lemma kept_video highest p : is_video p → kept highest p = (highest <=? pkt_drop_priority p).
Proof. unfold is_video, kept. by intros ->. Qed.

Lemma kept_false_video highest p : kept highest p = false → is_video p ∧ pkt_drop_priority p < highest.
Proof. unfold kept, is_video. destruct (pkt_type p); [done|]. intros ?%Z.leb_gt. done. Qed.

Lemma decodable_mark s w highest : decodable (s ++ w) → decodable (s ++ map (mark highest) w).
Proof.
  intros Hd i j Hr Hj. rewrite fst_app_mark in Hr. specialize (Hd i j Hr).
  destruct Hr as (x & y & Hx & Hy & Hij & Vx & Vy & Hp & _).
  apply lookup_snd in Hj as (x' & Hj). apply lookup_marked in Hj as (bj & Hj & Hbj).
  apply lookup_fst in Hj as [Hx' Hj]. simplify_eq.
  apply lookup_pair in Hy as (bi & Hi). destruct (lookup_fst _ _ _ _ Hi) as [_ Hbi].
  assert (bj = true) as -> by (case_decide; [done|by destruct bj]).
  specialize (Hd Hj). simplify_eq. rewrite list_lookup_fmap.
  destruct (decide (i < length s)%nat).
  - rewrite lookup_app_l in * by done. by rewrite Hi.
  - rewrite lookup_app_r in * by lia. rewrite list_lookup_fmap, Hi. cbn.
    rewrite decide_False in Hbj by lia. cbn in Hbj. rewrite kept_video in * by done.
    symmetry in Hbj. apply Z.leb_le in Hbj. f_equal. apply Z.leb_le. lia.
Qed.

Lemma audio_kept_mark s w highest : audio_kept (s ++ w) → audio_kept (s ++ map (mark highest) w).
Proof.
  unfold audio_kept. rewrite !Forall_app, Forall_map. intros [Hs Hw]. split; [done|].
  eapply Forall_impl; [exact Hw|]. intros [p b]. cbn. destruct b; [|done].
  intros _ E. by destruct (kept_false_video _ _ E).
Qed.

Lemma waiting_for_mark s w min highest : waiting_for min (s ++ w) →
  waiting_for (Z.max min highest) (s ++ map (mark highest) w).
Proof.
  intros Hw i y Hi. rewrite fst_app_mark. apply lookup_marked in Hi as (b & Hi & Hb).
  destruct b; cycle 1.
  { destruct (Hw i y Hi) as [?|?]; [left; lia|by right]. }
  case_decide; [done|]. symmetry in Hb. apply kept_false_video in Hb as [_ ?]. left; lia.
Qed.

Lemma filter_counts {A} (f : A → bool) (l : list A) : zlen (filter f l) + zlen (filter (λ x, ¬ f x) l) = zlen l.
Proof.
  induction l as [|x l IH]; [done|]. rewrite !filter_cons. destruct (f x).
  - rewrite decide_True by done. rewrite decide_False by naive_solver. rewrite !zlen_cons. lia.
  - rewrite decide_False by naive_solver. rewrite decide_True by naive_solver. rewrite !zlen_cons. lia.
Qed.

Lemma drop_frames_inv q s w highest : drop_inv q s w →
  drop_inv (drop_frames q highest) s (map (mark highest) w).
Proof.
  intros [Hq Hd Ha Hw Hn]. rewrite drop_frames_spec. constructor; cbn.
  - by rewrite kept_of_mark, Hq.
  - by apply decodable_mark.
  - by apply audio_kept_mark.
  - by apply waiting_for_mark.
  - rewrite dropped_of_app, zlen_app, dropped_of_mark, <- Hq, Z.add_assoc, <- zlen_app, <- dropped_of_app.
    rewrite Hn. case_match eqn:E; [|by rewrite i32_add_l, i32_add_r].
    apply Z.eqb_eq in E. rewrite <- i32_add_r, E. f_equal. lia.
Qed.

Lemma lookup_snoc_case {A} (l : list A) x i y : (l ++ [x]) !! i = Some y →
  (l !! i = Some y ∧ (i < length l)%nat) ∨ (i = length l ∧ y = x).
Proof.
  intros H. destruct (decide (i < length l)%nat) as [?|?].
  - left. by rewrite lookup_app_l in H.
  - right. rewrite lookup_app_r in H by lia. apply list_lookup_singleton_Some in H as [? ->]. split; [lia|done].
Qed.

(** A packet that comes last is not referred to, and refers to what may be kept when
    the queue does not wait for a greater priority. *)
Lemma decodable_snoc h p b min : decodable h → waiting_for min h →
  (b = true → is_video p → min ≤ pkt_drop_priority p) → decodable (h ++ [(p, b)]).
Proof.
  intros Hd Hw Hb i j Hr Hj. destruct Hr as (x & y & Hx & Hy & Hij & Vx & Vy & Hp & Hk).
  rewrite !fmap_app in *. cbn [fmap list_fmap fst snd] in *.
  assert (i < length h)%nat as Hi.
  { apply lookup_lt_Some in Hx. rewrite length_app, length_fmap in Hx. cbn in Hx. lia. }
  rewrite lookup_app_l in Hy by (by rewrite length_fmap). rewrite lookup_app_l by (by rewrite length_fmap).
  apply lookup_snoc_case in Hx as [[Hx Hjl]|[-> ->]]; rewrite length_fmap in *.
  - apply (Hd i j).
    + exists x, y. split_and!; try done. intros k z Hkij Hz. apply (Hk k); [done|].
      rewrite lookup_app_l; [done|]. apply lookup_lt_Some in Hz. done.
    + by rewrite lookup_app_l in Hj by (by rewrite length_fmap).
  - rewrite lookup_app_r in Hj by (by rewrite length_fmap). rewrite length_fmap, Nat.sub_diag in Hj. injection Hj as ->.
    specialize (Hb eq_refl Vx). apply lookup_pair in Hy as (c & Hc). rewrite list_lookup_fmap, Hc. cbn.
    destruct c; [done|]. exfalso. destruct (Hw _ _ Hc) as [?|(k & z & Hik & Hz & Vz & ?)]; [lia|].
    assert (k < length h)%nat by (apply lookup_lt_Some in Hz; by rewrite length_fmap in Hz).
    assert (pkt_drop_priority z ≤ pkt_drop_priority y); [|lia]. apply (Hk k); [lia| |done].
    rewrite lookup_app_l; [done|]. by rewrite length_fmap.
Qed.

Lemma waiting_for_snoc h p b min min' : waiting_for min h →
  (b = false → pkt_drop_priority p < min') →
  (min ≤ min' ∨ (is_video p ∧ min ≤ pkt_drop_priority p)) →
  waiting_for min' (h ++ [(p, b)]).
Proof.
  intros Hw Hb Hm i y Hi. rewrite fmap_app. cbn [fmap list_fmap fst].
  apply lookup_snoc_case in Hi as [[Hi Hl]|[-> [= <- <-]]]; [|left; by apply Hb].
  destruct (Hw i y Hi) as [Hy|(k & z & Hik & Hz & Vz & ?)].
  - destruct Hm as [?|[Vp ?]]; [left; lia|]. right. exists (length h), p. split_and!; [done| |done|lia].
    rewrite lookup_app_r by (by rewrite length_fmap). by rewrite length_fmap, Nat.sub_diag.
  - right. exists k, z. split_and!; try done. rewrite lookup_app_l; [done|]. by apply lookup_lt_Some in Hz.
Qed.

(** The new packet is dropped. *)
Lemma reject_inv q s w p : drop_inv q s w → is_video p → pkt_drop_priority p < min_priority q →
  drop_inv (set_dropping q (min_priority q) (i32 (dropped_frames q + 1))) s (w ++ [(p, false)]).
Proof.
  intros [Hq Hd Ha Hw Hn] Vp Hp. constructor; cbn.
  - rewrite kept_of_app, kept_of_cons, Hq. cbn. by rewrite app_nil_r.
  - rewrite app_assoc. by eapply decodable_snoc.
  - rewrite app_assoc. apply Forall_app. split; [done|]. by repeat constructor.
  - rewrite app_assoc. eapply waiting_for_snoc; [done|done|by left].
  - rewrite app_assoc, dropped_of_app, zlen_app, Hn, i32_add_l. done.
Qed.

(** It is kept. *)
Lemma accept_inv q s w p min : drop_inv q s w →
  (is_video p → min_priority q ≤ pkt_drop_priority p) →
  (min_priority q ≤ min ∨ is_video p) →
  ∀ q', packets q' = packets q ++ [p] → min_priority q' = min → dropped_frames q' = dropped_frames q →
  drop_inv q' s (w ++ [(p, true)]).
Proof.
  intros [Hq Hd Ha Hw Hn] Hp Hm q' Eq Em En. constructor.
  - rewrite Eq, kept_of_app, kept_of_cons, Hq. done.
  - rewrite app_assoc. by eapply decodable_snoc.
  - rewrite app_assoc. apply Forall_app. split; [done|]. by repeat constructor.
  - rewrite app_assoc, Em. eapply waiting_for_snoc; [done|done|]. destruct Hm; auto.
  - rewrite app_assoc, dropped_of_app, zlen_app, En, Hn, dropped_of_cons.
    change (zlen (dropped_of [])) with 0. by rewrite Z.add_0_r.
Qed.

(** The first packet of the queue leaves it. *)
Lemma kept_of_split w p l : kept_of w = p :: l →
  ∃ w1 w2, w = w1 ++ w2 ∧ kept_of w1 = [p] ∧ kept_of w2 = l.
Proof.
  induction w as [|[x b] w IH]; [done|]. rewrite kept_of_cons. destruct b.
  - intros [= <- <-]. by exists [(x, true)], w.
  - intros H. destruct (IH H) as (w1 & w2 & -> & H1 & H2). exists ((x, false) :: w1), w2.
    split_and!; [done| |done]. by rewrite kept_of_cons.
Qed.

Lemma pop_inv q s w p l : drop_inv q s w → packets q = p :: l →
  ∃ w1 w2, w = w1 ++ w2 ∧ kept_of w1 = [p] ∧ drop_inv (set_queue q l) (s ++ w1) w2.
Proof.
  intros [Hq Hd Ha Hw Hn] E. rewrite Hq in E. apply kept_of_split in E as (w1 & w2 & -> & H1 & H2).
  exists w1, w2. split_and!; [done|done|]. constructor; cbn; rewrite <- ?app_assoc; by try done.
Qed.

(** ** The handlers *)

Lemma set_congestion_inv q s w x : drop_inv q s w → drop_inv (set_congestion q x) s w.
Proof. by intros []. Qed.

Lemma check_inv q d pframes now q' d' s w : drop_inv q s w →
  check_to_drop_frames q d pframes now = Some (q', d') → ∃ w', w'.*1 = w.*1 ∧ drop_inv q' s w'.
Proof.
  intros Hi. unfold check_to_drop_frames.
  set (q1 := if pframes then q else set_congestion q (S754_zero false)).
  assert (drop_inv q1 s w) as Hi1 by (by destruct pframes; [|apply set_congestion_inv]).
  destruct (if negb pframes && dbr_enabled d then check_increase d now else Some d) as [d1|]; [|done].
  cbn [mbind option_bind]. destruct (_ <? 5); [intros [= <- <-]; by exists w|].
  destruct (find_first_video_packet q) as [first|]; [|intros [= <- <-]; by exists w].
  set (dur := i64 _). set (q2 := if pframes then q else _).
  assert (drop_inv q2 s w) as Hi2 by (by destruct pframes; [|apply set_congestion_inv]).
  destruct (dbr_enabled d1).
  - destruct pframes; [intros [= <- <-]; by exists w|].
    destruct (if DBR_TRIGGER_USEC <=? u64 dur then _ else _) as [d2 changed].
    destruct (if changed then _ else _) as [d3|]; [|done]. intros [= <- <-]. by exists w.
  - case_match; intros [= <- <-]; [|by exists w].
    eexists. split; [|by apply drop_frames_inv]. by rewrite mark_fst.
Qed.

Lemma add_video_inv q d p now q' d' added s w : drop_inv q s w → is_video p →
  add_video_packet q d p now = Some (q', d', added) → ∃ w', w'.*1 = w.*1 ++ [p] ∧ drop_inv q' s w'.
Proof.
  intros Hi Vp. unfold add_video_packet.
  destruct (check_to_drop_frames q d false now) as [[q1 d1]|] eqn:E1; [|done]. cbn [mbind option_bind].
  destruct (check_to_drop_frames q1 d1 true now) as [[q2 d2]|] eqn:E2; [|done]. cbn [mbind option_bind].
  destruct (check_inv _ _ _ _ _ _ _ _ Hi E1) as (w1 & F1 & Hi1).
  destruct (check_inv _ _ _ _ _ _ _ _ Hi1 E2) as (w2 & F2 & Hi2).
  assert (∀ b, (w2 ++ [(p, b)]).*1 = w.*1 ++ [p]) as Hf by (intros b; by rewrite fmap_app, F2, F1).
  destruct (Z.ltb_spec (pkt_drop_priority p) (min_priority q2)); intros [= <- <- <-].
  - eexists. split; [apply Hf|]. by apply reject_inv.
  - eexists. split; [apply Hf|]. eapply accept_inv; [done| | |done..]; auto.
Qed.

Lemma parse_nal_type compute base p q : parse_nal_packet compute base p = Some q → pkt_type q = pkt_type p.
Proof.
  unfold parse_nal_packet. intros H. by apply bind_Some in H as ([[key prio] out] & _ & [= <-]).
Qed.

Lemma new_packet_type env st p q : new_packet env st p = Some (Some q) → pkt_type q = pkt_type p.
Proof.
  unfold new_packet. destruct (pkt_type p) eqn:T; [intros [= ->]; done|].
  destruct (video_codec st !! _) as [[]|]; [done| | | |done]; cbn [mbind option_bind].
  - destruct (obs_parse_avc_packet _ _) as [q'|] eqn:E; [|done]. intros [= ->].
    apply parse_nal_type in E. congruence.
  - destruct (obs_parse_av1_packet p) as [q'|] eqn:E; [|done]. intros [= ->]. unfold obs_parse_av1_packet in E.
    by apply bind_Some in E as ([[key prio] out] & _ & [= <-]).
  - destruct (obs_parse_hevc_packet _ _) as [q'|] eqn:E; [|done]. intros [= ->].
    apply parse_nal_type in E. congruence.
Qed.

(** The packets offered since the connection: those taken by the send thread, those
    taken or freed at its end, those in the queue. *)
Record followed (taken : list encoder_packet) (st : rtmp_stream) (off : list encoder_packet)
    (sent gone waiting : list (encoder_packet * bool)) : Prop := {
  f_offered : off = (sent ++ gone ++ waiting).*1;
  f_inv : drop_inv (queue st) (sent ++ gone) waiting;
  f_popped : popped st = taken ++ kept_of sent;
  f_loop : in_loop (pc st) → gone = []
}.

Lemma followed_same taken st st' off s g w : followed taken st off s g w →
  queue st' = queue st → popped st' = popped st → (in_loop (pc st') → in_loop (pc st)) →
  followed taken st' off s g w.
Proof. intros [] Eq Ep Hl. constructor; rewrite ?Eq, ?Ep; auto. Qed.

Section run.
Context (env : rtmp_env) (c : output_conf).
Implicit Types (st : rtmp_stream).

Lemma data_followed taken st off s g w packet now st' : followed taken st off s g w →
  rtmp_stream_data env st packet now = Some st' →
  ∃ w', followed taken st' (off ++ offers env st (EV_PACKET packet now)) s g w'.
Proof.
  intros [Ho Hi Hp Hl]. unfold rtmp_stream_data, offers. destruct (_ || _) eqn:Ha.
  { intros [= <-]. exists w. destruct packet; rewrite app_nil_r; done. }
  destruct packet as [packet|]; [|intros [= <-]; exists w; by rewrite app_nil_r].
  destruct (if got_first_packet st then _ else _) as [st1|] eqn:E1; [|done]. cbn [mbind option_bind].
  assert (queue st1 = queue st ∧ popped st1 = popped st ∧ pc st1 = pc st ∧ video_codec st1 = video_codec st
          ∧ disconnected st1 = disconnected st) as (Q1 & P1 & C1 & V1 & D1).
  { destruct (got_first_packet st); [by injection E1 as <-|].
    destruct (get_ms_time _ _); [|done]. by injection E1 as <-. }
  replace (new_packet env st1 packet) with (new_packet env st packet) by (unfold new_packet; by rewrite V1).
  apply orb_false_iff in Ha as [Hd _]. rewrite D1, Hd.
  destruct (new_packet env st packet) as [[p|]|] eqn:En; [|intros [= <-]|done].
  2:{ exists w. rewrite app_nil_r. cbn. constructor; rewrite ?Q1, ?P1, ?C1; done. }
  apply new_packet_type in En. cbn [mbind option_bind].
  destruct (match pkt_type packet with OBS_ENCODER_AUDIO => _ | OBS_ENCODER_VIDEO => _ end)
    as [[[q d] added]|] eqn:Eq; [|done].
  cbn [mbind option_bind]. intros Est.
  assert (∃ w', w'.*1 = w.*1 ++ [p] ∧ drop_inv q (s ++ g) w') as (w' & Fw & Hi').
  { rewrite Q1 in Eq. destruct (pkt_type packet) eqn:T.
    - injection Eq as <- <- <-. exists (w ++ [(p, true)]). split; [by rewrite fmap_app|].
      eapply accept_inv; [done| | |done..]; [|by left].
      intros V. unfold is_video in V. congruence.
    - eapply add_video_inv; [exact Hi| |exact Eq]. exact En. }
  exists w'. rewrite !fmap_app in *. constructor.
  - rewrite Ho, !fmap_app, Fw, <- !app_assoc. done.
  - destruct added; injection Est as <-; done.
  - destruct added; injection Est as <-; cbn; by rewrite P1.
  - destruct added; injection Est as <-; cbn; by rewrite C1.
Qed.

Lemma sent_from_queue st st' k : sent_from st st' k →
  queue st' = queue st ∧ popped st' = popped st ∧ pc st' = pc st.
Proof. by intros (n & t & ->). Qed.

Lemma wake_followed taken st off s g w now : followed taken st off s g w → pc st = S_WAIT →
  ∃ s' g' w', followed taken (send_wake st now) off s' g' w'.
Proof.
  intros F Hpc. unfold send_wake. set (st1 := set_thread st _ _ _).
  assert (followed taken st1 off s g w) as F1 by (by apply (followed_same _ st _ off s g w)).
  destruct (stopping st1 && (stop_ts st1 =? 0)); [exists s, g, w; by apply (followed_same _ st1 _ off s g w)|].
  unfold get_next_packet. destruct (packets (queue st1)) as [|p l] eqn:E; [by do 3 eexists|].
  destruct F1 as [Ho Hi Hp Hl]. assert (g = []) as -> by (apply Hl; cbn; by rewrite Hpc).
  rewrite app_nil_r in Hi. cbn [app] in *.
  destruct (pop_inv _ _ _ _ _ Hi E) as (w1 & w2 & -> & K1 & Hi2).
  cbn [set_media stopping]. case_match.
  - exists s, w1, w2. constructor; [done|done|done|by intros []].
  - exists (s ++ w1), [], w2. constructor; cbn; rewrite ?app_nil_r; [by rewrite <- app_assoc|done| |done].
    rewrite kept_of_app, K1, app_assoc. by rewrite <- Hp.
Qed.

Lemma send_followed taken st off s g w times st' : followed taken st off s g w →
  send_step env c st times = Some st' → ∃ s' g' w', followed taken st' off s' g' w'.
Proof.
  intros F. unfold send_step. destruct (pc st) as [|packet|frame| |] eqn:Hpc.
  - destruct (0 <? send_sem st); intros [= <-]; [by eapply wake_followed|by do 3 eexists].
  - intros H. apply send_one_spec in H as (st1 & k & S & H). apply sent_from_queue in S as (Q & P & C).
    cbn in Q, P, C. exists s, g, w. eapply followed_same; [exact F|..];
      destruct H as [[_ ->]|(_ & _ & p & Hp & _ & ->)]; cbn; try done; by rewrite Hpc.
  - intros [= <-]. exists s, g, w. eapply followed_same; [exact F|done|done|]. by rewrite Hpc.
  - unfold send_end_thread. intros H.
    apply bind_Some in H as (st1 & E1 & H). apply bind_Some in H as (d & _ & [= <-]).
    assert (queue st1 = queue st ∧ popped st1 = popped st) as [Q P].
    { destruct (disconnected st); [by injection E1 as <-|].
      apply bind_Some in E1 as ([st2 ok] & E2 & [= <-]). apply send_footers_outputs in E2 as (k & S & _).
      by apply sent_from_queue in S as (? & ? & _). }
    exists s, (g ++ w), []. destruct F as [Ho [Hq Hd Ha Hw Hn] Hp _]. constructor; cbn.
    + by rewrite app_nil_r.
    + rewrite Q. constructor; cbn; rewrite ?app_nil_r, <- ?app_assoc in *; done.
    + by rewrite P.
    + by intros [].
  - intros [= <-]. by do 3 eexists.
Qed.

Lemma step_followed taken st off s g w ev st' : followed taken st off s g w →
  rtmp_step env c st ev = Some st' → ∃ s' g' w', followed taken st' (off ++ offers env st ev) s' g' w'.
Proof.
  intros F. destruct ev as [packet now|ts|times]; cbn [rtmp_step].
  - intros H. destruct (data_followed _ _ _ _ _ _ _ _ _ F H) as (w' & F'). by do 3 eexists.
  - intros [= <-]. cbn [offers]. rewrite app_nil_r. exists s, g, w. unfold rtmp_stream_stop.
    repeat case_match; by apply (followed_same _ st _ off s g w).
  - cbn [offers]. rewrite app_nil_r. intros H. by eapply send_followed.
Qed.

Lemma run_followed taken st off s g w evs st' : followed taken st off s g w →
  rtmp_run env c st evs = Some st' → ∃ s' g' w', followed taken st' (off ++ offered env c st evs) s' g' w'.
Proof.
  revert st off s g w. induction evs as [|ev evs IH]; intros st off s g w F; cbn [rtmp_run offered].
  { intros [= <-]. rewrite app_nil_r. by do 3 eexists. }
  destruct (rtmp_step env c st ev) as [st1|] eqn:E; [|done]. cbn [mbind option_bind]. intros H.
  destruct (step_followed _ _ _ _ _ _ _ _ F E) as (s1 & g1 & w1 & F1). rewrite app_assoc. by eapply IH.
Qed.

(** C5: Whatever the interleaving of the encoder's packets, of the stop and of the send
    thread, from the moment a connection starts: the packets taken to be sent and those in the
    queue are, in order, what was offered less what was dropped; no audio packet is dropped;
    a video packet that is kept can only refer to packets that are kept, when a packet
    refers to none of lower priority and to none before one of greater priority than
    theirs; and the count of dropped frames is that of the packets dropped. *)
Theorem rtmp_drops_decodable json prev cs st1 st0 ok evs st :
  init_connect env c json prev cs = Some (st1, true) →
  init_send env c st1 = Some (st0, ok) →
  rtmp_run env c st0 evs = Some st →
  ∃ sent gone waiting,
    offered env c st0 evs = (sent ++ gone ++ waiting).*1 ∧
    popped st = popped prev ++ kept_of sent ∧ packets (queue st) = kept_of waiting ∧
    (in_loop (pc st) → gone = []) ∧
    decodable (sent ++ gone ++ waiting) ∧ audio_kept (sent ++ gone ++ waiting) ∧
    dropped_frames (queue st) = i32 (zlen (dropped_of (sent ++ gone ++ waiting))).
Proof.
  intros Hc Hs Hr.
  assert (followed (popped prev) st0 [] [] [] []) as F.
  { unfold init_connect in Hc. destruct (service cs); [|done]. cbn [negb] in Hc.
    apply bind_Some in Hc as (d & _ & [= <-]). unfold init_send, send_meta_data in Hs.
    apply bind_Some in Hs as (meta & _ & Hs). cbn in Hs. injection Hs as <- _.
    constructor; [done|constructor; try done|by rewrite app_nil_r|done].
    by constructor. }
  destruct (run_followed _ _ _ _ _ _ _ _ F Hr) as (s & g & w & [Ho [Hq Hd Ha Hw Hn] Hp Hl]).
  rewrite <- app_assoc in *. exists s, g, w. by split_and!.
Qed.
End run.

(** ** Examples *)

Definition ex_json : json_api := mk_json unit (λ _, None) (λ _ _, None) (λ _, 0) (λ _, None).
Definition ex_rtmp_env : rtmp_env :=
  mk_rtmp_env (str "31.0.0") 1000 (λ _, 0) None (λ _, 4) (λ _, false) (λ _, 1).
Definition ex_rtmp_settings (floor : Z) (dyn : bool) : rtmp_settings :=
  mk_rtmp_settings true 700 900 30 dyn floor None 0.
Definition ex_rtmp_venc (ptr bitrate : Z) : obs_encoder :=
  mk_encoder ptr OBS_ENCODER_VIDEO None None "h264" (Some [1; 100; 0; 31; 255; 225; 0; 0]) (Some (mk_settings bitrate 0 []))
    (Some (mk_video VIDEO_FORMAT_NV12 1920 1080 30 1 VIDEO_CS_709 VIDEO_RANGE_PARTIAL)) None None 0 0 0 0 1 30.
Definition ex_rtmp_aenc : obs_encoder :=
  mk_encoder 20 OBS_ENCODER_AUDIO None None "aac" (Some [17; 144]) (Some (mk_settings 160 0 [])) None None
    (Some (mk_audio 48000 SPEAKERS_STEREO)) 0 0 0 1024 1 48000.
Definition ex_rtmp_conf (tracks : nat) (bitrate : Z) : output_conf :=
  mk_conf (imap (λ i _, if (i <? tracks)%nat then Some (ex_rtmp_venc (10 + Z.of_nat i) bitrate) else None) (replicate 10 tt))
    (Some ex_rtmp_aenc :: replicate 5 None) 0.

(** A frame of 100 ms: a NAL unit with the given first byte, on a track. *)
Definition ex_frame (track dts nal : Z) (key : bool) : encoder_packet :=
  mk_packet [0; 0; 0; 1; nal; 136; 128] dts dts 1 10 OBS_ENCODER_VIDEO key (dts * 100000) (dts * 100000) 0 0 track 10.
Definition ex_sound (dts : Z) : encoder_packet :=
  mk_packet [33; 26] dts dts 1 10 OBS_ENCODER_AUDIO false (dts * 100000) (dts * 100000) 0 0 0 20.

Definition I_FRAME : Z := 101.
Definition P_FRAME : Z := 65.
Definition B_FRAME : Z := 1.

Definition ex_start (c : output_conf) (cs : rtmp_settings) : option rtmp_stream :=
  '(st, _) ← init_connect ex_rtmp_env c ex_json rtmp_stream_create cs;
  '(st, _) ← init_send ex_rtmp_env c st;
  Some st.

Definition ex_put (p : encoder_packet) : rtmp_event := EV_PACKET (Some p) (λ _, 0).
Definition ex_send : rtmp_event := EV_SEND (λ _, 0).

(** The priorities of the video packets of a history and whether they are kept. *)
Definition marks (c : output_conf) (evs : list rtmp_event) : option (list Z * list Z * Z) :=
  st ← ex_start c (ex_rtmp_settings 0 false);
  st' ← rtmp_run ex_rtmp_env c st evs;
  Some (map pkt_drop_priority (offered ex_rtmp_env c st evs), map pkt_drop_priority (packets (queue st')),
        dropped_frames (queue st')).

Definition ex_slow : list rtmp_event :=
  map ex_put [ex_frame 0 0 I_FRAME true; ex_sound 0; ex_frame 0 1 B_FRAME false; ex_frame 0 2 P_FRAME false;
              ex_frame 0 4 P_FRAME false; ex_frame 0 11 B_FRAME false; ex_frame 0 12 B_FRAME false; 
              ex_frame 0 13 P_FRAME false; ex_frame 0 14 B_FRAME false; ex_frame 0 22 P_FRAME false; ex_sound 23;
              ex_frame 0 24 I_FRAME true; ex_frame 0 25 P_FRAME false].

(** The network is slow: what has less than the highest priority goes, up to the next
    keyframe. *)
Example slow_network :
  marks (ex_rtmp_conf 1 2500) ex_slow = Some ([3; 0; 0; 2; 2; 0; 0; 2; 0; 2; 0; 3; 2], [3; 0; 0; 3; 2], 8).
Proof. vm_compute. reflexivity. Qed.

Lemma rtmp_drops_decodable_witness :
  ∃ st1 st0 ok st sent gone waiting,
    init_connect ex_rtmp_env (ex_rtmp_conf 1 2500) ex_json rtmp_stream_create (ex_rtmp_settings 0 false) =
      Some (st1, true) ∧
    init_send ex_rtmp_env (ex_rtmp_conf 1 2500) st1 = Some (st0, ok) ∧
    rtmp_run ex_rtmp_env (ex_rtmp_conf 1 2500) st0 (ex_slow ++ [ex_send; ex_send]) = Some st ∧
    offered ex_rtmp_env (ex_rtmp_conf 1 2500) st0 (ex_slow ++ [ex_send; ex_send]) = (sent ++ gone ++ waiting).*1 ∧
    popped st = popped rtmp_stream_create ++ kept_of sent ∧ packets (queue st) = kept_of waiting ∧
    (in_loop (pc st) → gone = []) ∧
    decodable (sent ++ gone ++ waiting) ∧ audio_kept (sent ++ gone ++ waiting) ∧
    dropped_frames (queue st) = i32 (zlen (dropped_of (sent ++ gone ++ waiting))).
Proof.
  do 4 eexists.
  destruct (rtmp_drops_decodable ex_rtmp_env (ex_rtmp_conf 1 2500) ex_json rtmp_stream_create
    (ex_rtmp_settings 0 false) _ _ _ (ex_slow ++ [ex_send; ex_send]) _
    ltac:(vm_compute; reflexivity) ltac:(vm_compute; reflexivity) ltac:(vm_compute; reflexivity))
    as (s & g & w & H).
  exists s, g, w. do 3 (split; [vm_compute; reflexivity|]). exact H.
Defined.

(** The tracks share the priority that is waited for: a keyframe of the second ends the
    dropping, and the first keeps a frame whose reference is gone. *)
Example tracks_share_priority :
  (st ← ex_start (ex_rtmp_conf 2 2500) (ex_rtmp_settings 0 false);
   st ← rtmp_run ex_rtmp_env (ex_rtmp_conf 2 2500) st
     (map ex_put [ex_frame 0 0 I_FRAME true; ex_frame 0 1 P_FRAME false; ex_frame 0 2 P_FRAME false;
                  ex_sound 2; ex_frame 0 11 P_FRAME false; ex_frame 0 12 P_FRAME false;
                  ex_frame 1 12 I_FRAME true; ex_frame 0 13 P_FRAME false]);
   Some (map (λ p, (pkt_track_idx p, pkt_dts p, pkt_drop_priority p)) (packets (queue st)))) =
  Some [(0, 0, 3); (0, 2, 0); (1, 12, 3); (0, 13, 2)].
Proof. vm_compute. reflexivity. Qed.

(** A keyframe whose NAL units have not the highest priority is dropped too, and
    nothing but audio follows. *)
Example keyframe_dropped :
  marks (ex_rtmp_conf 1 2500)
    (map ex_put [ex_frame 0 0 37 true; ex_frame 0 1 33 false; ex_frame 0 2 33 false; ex_sound 2;
                 ex_frame 0 11 33 false; ex_frame 0 12 33 false; ex_frame 0 13 37 true; ex_frame 0 14 33 false;
                 ex_frame 0 15 37 true; ex_frame 0 16 33 false; ex_frame 0 17 37 true]) =
  Some ([1; 1; 1; 0; 1; 1; 1; 1; 1; 1; 1], [0], 10).
Proof. vm_compute. reflexivity. Qed.
