(* ===== verification/RtmpOrder.v ===== *)
(** * The order of what the RTMP output sends: rtmp-stream.c

    From the metadata of a connection to the footers of its end: what has been given to the
    network is a beginning of the headers followed by the tags of the packets taken from the
    queue, in their order; all of it as long as the network does not fail. *)

From S2P Require Import Prelude Double Encoder Interleave Flv FlvTag FlvOutput RtmpQueue Rtmp RtmpSend RtmpConnect RtmpDrop.

Local Open Scope Z_scope.

Section order.
Context (env : rtmp_env) (c : output_conf).
Implicit Types (st : rtmp_stream) (ps : list encoder_packet) (k : list bytes).

Definition packet_tags st ps : list bytes := flat_map (λ p, option_list (packet_tag st p)) ps.

(** The headers and the packets. *)
Definition owed st ps : list bytes := header_tags env c st ++ packet_tags st ps.

(** [k] is all that is owed for [ps]. *)
Definition all_sent st ps k : Prop :=
  Forall (λ p, is_Some (packet_tag st p)) ps ∧ (k = owed st ps ∨ ps = [] ∧ k = []).

(** The same in the loop of the thread, which knows whether the headers are sent. *)
Definition up_to_date st ps k : Prop :=
  Forall (λ p, is_Some (packet_tag st p)) ps ∧
  if sent_headers st then k = owed st ps else ps = [] ∧ k = [].

Definition progress st ps k (F : list bytes) : Prop :=
  match pc st with
  | S_WAIT | S_FRAME _ => up_to_date st ps k ∧ F = []
  | S_SEND p => (∃ l, ps = l ++ [p] ∧ up_to_date st l k) ∧ F = []
  | S_EXIT => k `prefix_of` owed st ps ∧ F = [] ∧ (disconnected st = false → all_sent st ps k)
  | S_END =>
      k `prefix_of` owed st ps ∧ F `prefix_of` footer_tags c st ∧ (disconnected st = false → all_sent st ps k)
  end.

(** [taken] and [w0] precede the connection. *)
Record told (taken : list encoder_packet) (w0 : list bytes) st ps k (F : list bytes) : Prop := {
  t_popped : popped st = taken ++ ps;
  t_written : written st = w0 ++ k ++ F;
  t_progress : progress st ps k F;
  t_first : got_first_packet st = false → ps = [] ∧ packets (queue st) = []
}.

(** ** What the tags depend on *)

Record same_tags st st' : Prop := {
  same_video : video_codec st' = video_codec st;
  same_audio : audio_codec st' = audio_codec st;
  same_start : start_dts_offset st' = start_dts_offset st
}.

Lemma packet_tag_same st st' p : same_tags st st' → packet_tag st' p = packet_tag st p.
Proof. intros [V A O]. unfold packet_tag. by rewrite V, A, O. Qed.

Lemma owed_same st st' ps : video_codec st' = video_codec st → audio_codec st' = audio_codec st →
  ps = [] ∨ start_dts_offset st' = start_dts_offset st →
  owed st' ps = owed st ps ∧ footer_tags c st' = footer_tags c st ∧
  (Forall (λ p, is_Some (packet_tag st' p)) ps ↔ Forall (λ p, is_Some (packet_tag st p)) ps).
Proof.
  intros V A O. unfold owed. destruct (header_tags_same env c st st' V A) as (-> & -> & _).
  destruct O as [->|O]; [by rewrite !Forall_nil|]. assert (same_tags st st') as S by done.
  assert (∀ p, packet_tag st' p = packet_tag st p) as E by (intros p; by apply packet_tag_same).
  split_and!; [|done|].
  - f_equal. unfold packet_tags. by apply flat_map_ext; intros p; rewrite E.
  - apply Forall_iff. intros p. by rewrite E.
Qed.

(** A step that changes nothing the thread's progress depends on. *)
Lemma progress_same st st' ps k F : progress st ps k F →
  pc st' = pc st → disconnected st' = disconnected st → sent_headers st' = sent_headers st →
  video_codec st' = video_codec st → audio_codec st' = audio_codec st →
  ps = [] ∨ start_dts_offset st' = start_dts_offset st → progress st' ps k F.
Proof.
  intros P C D H V A O. unfold progress, up_to_date, all_sent in *. rewrite C, D, H.
  destruct (owed_same st st' ps V A O) as (-> & -> & Hf). destruct (pc st) as [|p|f| |]; rewrite ?Hf; try done.
  destruct P as [(l & -> & P) ->]. split; [|done]. exists l. split; [done|].
  assert (l = [] ∨ start_dts_offset st' = start_dts_offset st) as O'
    by (destruct O as [O|O]; [by apply app_eq_nil in O as [_ ?]|by right]).
  destruct (owed_same st st' l V A O') as (-> & _ & ->). done.
Qed.

(** ** The steps *)

Lemma all_sent_up_to_date st ps k : up_to_date st ps k → all_sent st ps k.
Proof. intros [Hf H]. split; [done|]. destruct (sent_headers st); auto. Qed.

Lemma all_sent_prefix st ps k : all_sent st ps k → k `prefix_of` owed st ps.
Proof. intros [_ [->|[-> ->]]]; [done|apply prefix_nil]. Qed.

Lemma told_data taken w0 st ps k F packet now st' : told taken w0 st ps k F →
  rtmp_stream_data env st packet now = Some st' → told taken w0 st' ps k F.
Proof.
  intros T. pose proof T as [Tp Tw Tg Tf]. unfold rtmp_stream_data. destruct (_ || _); [by intros [= <-]|].
  destruct packet as [packet|]; [|intros [= <-]].
  2: { constructor; [done|done| |done]. eapply progress_same; [exact Tg|try done..]. by right. }
  destruct (if got_first_packet st then _ else _) as [st1|] eqn:E1; [|done]. cbn [mbind option_bind].
  assert (told taken w0 st1 ps k F ∧ got_first_packet st1 = true) as [[Tp1 Tw1 Tg1 _] G1].
  { destruct (got_first_packet st) eqn:G; [injection E1 as <-; done|].
    destruct (get_ms_time _ _); [|done]. injection E1 as <-. split; [|done]. destruct (Tf eq_refl) as [-> ?].
    constructor; [done|done| |done]. eapply progress_same; [exact Tg|try done..]. by left. }
  destruct (new_packet env st1 packet) as [[p|]|]; [|intros [= <-]|done]; cbn [mbind option_bind].
  2: { constructor; [done..|]. by rewrite G1. }
  destruct (if disconnected st1 then _ else _) as [[[q d] added]|]; [|done]. cbn [mbind option_bind].
  intros [= <-]. destruct added; (constructor; [done|done| |cbn; by rewrite G1]);
    (eapply progress_same; [exact Tg1|try done..]; by right).
Qed.

Lemma told_stop taken w0 st ps k F ts : told taken w0 st ps k F → told taken w0 (rtmp_stream_stop st ts) ps k F.
Proof.
  intros [Tp Tw Tg Tf]. unfold rtmp_stream_stop.
  repeat case_match; (constructor; [done|done| |done]); (eapply progress_same; [exact Tg|try done..]; by right).
Qed.

Lemma told_wake taken w0 st ps k F now : told taken w0 st ps k F → pc st = S_WAIT →
  ∃ ps', told taken w0 (send_wake st now) ps' k F.
Proof.
  intros [Tp Tw Tg Tf] Hpc. pose proof Tg as Tg'. unfold progress in Tg'. rewrite Hpc in Tg'. destruct Tg' as [U ->].
  assert (∀ st', popped st' = popped st → written st' = written st → pc st' = S_EXIT →
    disconnected st' = disconnected st → same_tags st st' → (got_first_packet st' = false → ps = [] ∧ packets (queue st') = []) →
    told taken w0 st' ps k []) as Hexit.
  { intros st' P W C D [V A O] G. constructor; [congruence|congruence| |done].
    destruct (owed_same st st' ps V A (or_intror O)) as (E & _ & Ef).
    apply all_sent_up_to_date in U. unfold progress, all_sent. rewrite C, E, Ef.
    split_and!; [by apply all_sent_prefix|done|by intros _]. }
  unfold send_wake. set (st1 := set_thread st _ _ _).
  assert (told taken w0 st1 ps k []) as T1.
  { constructor; [done|done| |done]. eapply progress_same; [exact Tg|try done..]. by right. }
  destruct (stopping st1 && (stop_ts st1 =? 0)); [exists ps; by apply Hexit|].
  unfold get_next_packet. destruct (packets (queue st1)) as [|p l] eqn:E; [by exists ps|].
  assert (got_first_packet st = true) as G.
  { destruct (got_first_packet st) eqn:G; [done|]. destruct (Tf eq_refl) as [_ Hq]. cbn in E. congruence. }
  case_match.
  - exists ps. apply Hexit; try done. cbn. by rewrite G.
  - exists (ps ++ [p]). constructor; [cbn; by rewrite Tp, app_assoc|done| |cbn; by rewrite G].
    unfold progress. cbn [pc set_thread]. split; [|done]. exists ps. split; [done|].
    unfold up_to_date. cbn [sent_headers set_thread set_media].
    destruct (owed_same st (set_thread (set_media st1 (set_queue (queue st1) l) (dbr st1)) (send_sem st1) (S_SEND p)
      (popped st1 ++ [p])) ps eq_refl eq_refl (or_intror eq_refl)) as (Eo & _ & Ef).
    destruct U as [Uf U]. split; [by apply Ef|]. by rewrite <- Eo in U.
Qed.

Lemma owed_snoc st l p : owed st (l ++ [p]) = owed st l ++ option_list (packet_tag st p).
Proof. unfold owed, packet_tags. rewrite flat_map_app, app_assoc. cbn [flat_map]. by rewrite app_nil_r. Qed.

Lemma told_one taken w0 st ps k F packet b e st' : told taken w0 st ps k F → pc st = S_SEND packet →
  send_one env c st packet b e = Some st' → ∃ k', told taken w0 st' ps k' F.
Proof.
  intros [Tp Tw Tg Tf] Hpc H. unfold progress in Tg. rewrite Hpc in Tg. destruct Tg as [(l & -> & U) ->].
  assert (got_first_packet st = true) as G.
  { destruct (got_first_packet st); [done|]. destruct (Tf eq_refl) as [Hl _]. by apply app_eq_nil in Hl as [_ ?]. }
  apply send_one_spec in H as (st1 & k1 & S & H). exists (k ++ k1).
  pose proof (sent_from_queue _ _ _ S) as (Q & P & _).
  assert (written st1 = written st ++ k1 ∧ disconnected st1 = disconnected st ∧ sent_headers st1 = true ∧
          got_first_packet st1 = got_first_packet st ∧ video_codec st1 = video_codec st ∧
          audio_codec st1 = audio_codec st ∧ start_dts_offset st1 = start_dts_offset st) as (W & D & Sh & G1 & V & A & O)
    by (destruct S as (n & t & ->); done).
  assert (k ++ owed_tags env c st packet = owed st (l ++ [packet])) as Eo.
  { rewrite owed_snoc. unfold owed_tags. destruct U as [_ U]. destruct (sent_headers st); [by rewrite U|].
    destruct U as [-> ->]. unfold owed. cbn [packet_tags flat_map]. by rewrite app_nil_r. }
  assert (∀ st', same_tags st1 st' → owed st' (l ++ [packet]) = owed st (l ++ [packet]) ∧
    (Forall (λ p, is_Some (packet_tag st' p)) (l ++ [packet]) ↔ Forall (λ p, is_Some (packet_tag st p)) (l ++ [packet])))
    as Hsame.
  { intros st2 [V2 A2 O2]. destruct (owed_same st st2 (l ++ [packet])) as (-> & _ & ->); [congruence..| |done].
    right. congruence. }
  destruct H as [[Pk ->]|(Ht & -> & p & Hl & Hp & ->)].
  - destruct (Hsame (goto (set_flags st1 (active st1) true (encode_error st1)) S_EXIT)) as [Eo' _]; [done|].
    constructor; cbn [popped goto set_thread set_flags written got_first_packet queue].
    + by rewrite P.
    + by rewrite W, Tw, !app_nil_r, app_assoc.
    + unfold progress. cbn [pc goto set_thread disconnected set_flags]. rewrite Eo', <- Eo.
      split_and!; [by apply prefix_app|done|done].
    + by rewrite G1, G.
  - destruct (Hsame (goto st1 p)) as [Eo' Ef']; [done|].
    constructor; cbn [popped goto set_thread written got_first_packet queue].
    + by rewrite P.
    + by rewrite W, Tw, !app_nil_r, app_assoc.
    + assert (up_to_date (goto st1 p) (l ++ [packet]) (k ++ owed_tags env c st packet)) as U'.
      { unfold up_to_date. cbn [sent_headers goto set_thread]. rewrite Sh, Eo'. split; [|exact Eo].
        apply Ef', Forall_app. split; [apply U|by constructor]. }
      unfold progress. cbn [pc goto set_thread]. destruct p; by try by destruct (Hp packet0).
    + by rewrite G1, G.
Qed.

Lemma told_end taken w0 st ps k F st' : told taken w0 st ps k F → pc st = S_EXIT →
  send_end_thread env c st = Some st' → ∃ F', told taken w0 st' ps k F'.
Proof.
  intros [Tp Tw Tg Tf] Hpc H. unfold progress in Tg. rewrite Hpc in Tg. destruct Tg as (Pk & -> & Ha).
  unfold send_end_thread in H. apply bind_Some in H as (st1 & E1 & H). apply bind_Some in H as (d & _ & [= <-]).
  assert (∃ F', sent_from st st1 F' ∧ F' `prefix_of` footer_tags c st) as (F' & S & PF).
  { destruct (disconnected st); [injection E1 as <-; exists []; split; [apply sent_from_nil|apply prefix_nil]|].
    apply bind_Some in E1 as ([st2 ok] & E2 & [= <-]). apply send_footers_outputs in E2 as (k' & S & Pk' & _). by exists k'. }
  exists F'. destruct S as (n & t & ->).
  match goal with |- told _ _ ?s _ _ _ => set (st2 := s) end.
  destruct (owed_same st st2 ps eq_refl eq_refl (or_intror eq_refl)) as (Eo & Ef & Eff).
  constructor; [done| | |intros G; by destruct (Tf G)].
  { change (written st2) with (written st ++ F'). cbn in Tw. by rewrite Tw, app_nil_r, app_assoc. }
  unfold progress. change (pc st2) with S_END. cbv iota. change (disconnected st2) with (disconnected st).
  unfold all_sent. rewrite Eo, Ef, Eff. by split_and!.
Qed.

Lemma told_step taken w0 st ps k F ev st' : told taken w0 st ps k F → rtmp_step env c st ev = Some st' →
  ∃ ps' k' F', told taken w0 st' ps' k' F'.
Proof.
  intros T. destruct ev as [packet now|ts|times]; cbn [rtmp_step].
  - intros H. do 3 eexists. by eapply told_data.
  - intros [= <-]. do 3 eexists. by apply told_stop.
  - unfold send_step. destruct (pc st) as [|packet|frame| |] eqn:Hpc.
    + destruct (0 <? send_sem st); intros [= <-]; [|by do 3 eexists].
      destruct (told_wake _ _ _ _ _ _ (times 0%nat) T Hpc) as (ps' & T'). by do 3 eexists.
    + intros H. destruct (told_one _ _ _ _ _ _ _ _ _ _ T Hpc H) as (k' & T'). by do 3 eexists.
    + intros [= <-]. do 3 eexists. destruct T as [Tp Tw Tg Tf]. constructor; [done|done| |done].
      unfold progress in *. rewrite Hpc in Tg. cbn [pc goto set_thread].
      unfold up_to_date in *. cbn [sent_headers goto set_thread set_media].
      destruct (owed_same st (goto (set_media st (queue st) (dbr_add_frame (dbr st) frame)) S_WAIT) ps eq_refl eq_refl
        (or_intror eq_refl)) as (-> & _ & ->). exact Tg.
    + intros H. destruct (told_end _ _ _ _ _ _ _ T Hpc H) as (F' & T'). by do 3 eexists.
    + intros [= <-]. by do 3 eexists.
Qed.

Lemma told_run taken w0 st ps k F evs st' : told taken w0 st ps k F → rtmp_run env c st evs = Some st' →
  ∃ ps' k' F', told taken w0 st' ps' k' F'.
Proof.
  revert st ps k F. induction evs as [|ev evs IH]; intros st ps k F T; cbn [rtmp_run].
  { intros [= <-]. by do 3 eexists. }
  destruct (rtmp_step env c st ev) as [st1|] eqn:E; [|done]. cbn [mbind option_bind].
  destruct (told_step _ _ _ _ _ _ _ _ T E) as (ps1 & k1 & F1 & T1). by eapply IH.
Qed.

(** C6: From the start of a connection (no other one being in progress), whatever the interleaving and the network: the output
    has given to the network the metadata, then a beginning of the headers of the tracks
    followed by the tags of the packets taken from the queue, in their order, and only at its
    end a beginning of the footers. Between two packets, and at the end unless the
    network failed, every packet taken was sent, after all the headers. *)
Theorem rtmp_sends_in_order json prev cs st1 st0 ok evs st :
  sent_headers prev = false →
  init_connect env c json prev cs = Some (st1, true) →
  init_send env c st1 = Some (st0, ok) →
  rtmp_run env c st0 evs = Some st →
  ∃ meta ps k F,
    flv_meta_data (flv_version env) (obs_output_get_video_encoder c) (obs_output_get_audio_encoder c 0) false = Some meta ∧
    popped st = popped prev ++ ps ∧
    written st = written prev ++ [meta] ++ k ++ F ∧
    k `prefix_of` header_tags env c st ++ packet_tags st ps ∧
    F `prefix_of` footer_tags c st ∧ (F ≠ [] → pc st = S_END) ∧
    (pc st = S_WAIT ∨ (pc st = S_EXIT ∨ pc st = S_END) ∧ disconnected st = false →
      Forall (λ p, is_Some (packet_tag st p)) ps ∧
      (k = header_tags env c st ++ packet_tags st ps ∨ ps = [] ∧ k = [])).
Proof.
  intros Hh Hc Hs Hr. unfold init_connect in Hc. destruct (service cs); [|done]. cbn [negb] in Hc.
  apply bind_Some in Hc as (d & _ & [= <-]). unfold init_send, send_meta_data in Hs.
  apply bind_Some in Hs as (meta & Hm & Hs). cbn in Hs. injection Hs as Hs _. exists meta.
  assert (told (popped prev) (written prev ++ [meta]) st0 [] [] []) as T.
  { subst st0. constructor; cbn; rewrite ?app_nil_r; try done. unfold progress, up_to_date. cbn. by rewrite Hh. }
  destruct (told_run _ _ _ _ _ _ _ _ T Hr) as (ps & k & F & [Tp Tw Tg _]). exists ps, k, F.
  rewrite <- app_assoc in Tw. unfold progress in Tg.
  assert (k `prefix_of` owed st ps ∧ F `prefix_of` footer_tags c st ∧ (F ≠ [] → pc st = S_END)) as (H1 & H2 & H3).
  { destruct (pc st) as [|p|f| |].
    - destruct Tg as [U ->]. split_and!; [by apply all_sent_prefix, all_sent_up_to_date|apply prefix_nil|done].
    - destruct Tg as [(l & -> & U) ->]. split_and!; [|apply prefix_nil|done].
      rewrite owed_snoc. by apply prefix_app_r, all_sent_prefix, all_sent_up_to_date.
    - destruct Tg as [U ->]. split_and!; [by apply all_sent_prefix, all_sent_up_to_date|apply prefix_nil|done].
    - destruct Tg as (? & -> & _). split_and!; [done|apply prefix_nil|done].
    - by destruct Tg as (? & ? & _). }
  split_and!; try done. intros [Hp|[[Hp|Hp] Hd]]; rewrite Hp in Tg.
  - by apply all_sent_up_to_date, Tg.
  - by apply Tg.
  - by apply Tg.
Qed.
End order.

(** ** Examples *)

(** Two frames and a sound sent, then a stop at once and the end of the thread. *)
Definition ex_session : list rtmp_event :=
  map ex_put [ex_frame 0 0 I_FRAME true; ex_sound 0; ex_frame 0 1 P_FRAME false] ++
  replicate 6 ex_send ++ [EV_STOP 0; ex_send; ex_send].

Lemma rtmp_sends_in_order_witness :
  ∃ st1 st0 ok st meta ps k F,
    init_connect ex_rtmp_env (ex_rtmp_conf 1 2500) ex_json rtmp_stream_create (ex_rtmp_settings 0 false) =
      Some (st1, true) ∧
    init_send ex_rtmp_env (ex_rtmp_conf 1 2500) st1 = Some (st0, ok) ∧
    rtmp_run ex_rtmp_env (ex_rtmp_conf 1 2500) st0 ex_session = Some st ∧
    flv_meta_data (flv_version ex_rtmp_env) (obs_output_get_video_encoder (ex_rtmp_conf 1 2500))
      (obs_output_get_audio_encoder (ex_rtmp_conf 1 2500) 0) false = Some meta ∧
    popped st = popped rtmp_stream_create ++ ps ∧
    written st = written rtmp_stream_create ++ [meta] ++ k ++ F ∧
    k `prefix_of` header_tags ex_rtmp_env (ex_rtmp_conf 1 2500) st ++ packet_tags st ps ∧
    F `prefix_of` footer_tags (ex_rtmp_conf 1 2500) st ∧ (F ≠ [] → pc st = S_END) ∧
    (pc st = S_WAIT ∨ (pc st = S_EXIT ∨ pc st = S_END) ∧ disconnected st = false →
      Forall (λ p, is_Some (packet_tag st p)) ps ∧
      (k = header_tags ex_rtmp_env (ex_rtmp_conf 1 2500) st ++ packet_tags st ps ∨ ps = [] ∧ k = [])).
Proof.
  do 4 eexists.
  destruct (rtmp_sends_in_order ex_rtmp_env (ex_rtmp_conf 1 2500) ex_json rtmp_stream_create
    (ex_rtmp_settings 0 false) _ _ _ ex_session _ eq_refl
    ltac:(vm_compute; reflexivity) ltac:(vm_compute; reflexivity) ltac:(vm_compute; reflexivity))
    as (meta & ps & k & F & H).
  exists meta, ps, k, F. do 3 (split; [vm_compute; reflexivity|]). exact H.
Defined.

(** What each tag given to the network says; the metadata first. *)
Example session_tags :
  (st ← ex_start (ex_rtmp_conf 1 2500) (ex_rtmp_settings 0 false);
   st ← rtmp_run ex_rtmp_env (ex_rtmp_conf 1 2500) st ex_session;
   ts ← read_tags 10 (concat (written st));
   Some (map (λ t, (tag_time t, read_body t)) (drop 1 ts), signalled st, active st)) =
  Some ([(0, Some (AacBody true [17; 144]));
         (0, Some (AvcBody true true 0 [1; 100; 0; 31; 255; 225; 0; 0]));
         (0, Some (AvcBody true false 0 [0; 0; 0; 3; 101; 136; 128]));
         (0, Some (AacBody false [33; 26]));
         (100, Some (AvcBody false false 0 [0; 0; 0; 3; 65; 136; 128]))], [0], false).
Proof. vm_compute. reflexivity. Qed.

(** The bytes of the other audio tracks are not counted. *)
Example other_audio_not_counted :
  (st ← ex_start (mk_conf (video_encoders (ex_rtmp_conf 1 2500)) (Some ex_rtmp_aenc :: Some ex_rtmp_aenc :: replicate 4 None) 0)
          (ex_rtmp_settings 0 false);
   '(st, _) ← send_audio_packet_ex ex_rtmp_env st (ex_sound 0) false 1;
   Some (total_bytes_sent st, length (written st))) = Some (0, 2%nat).
Proof. vm_compute. reflexivity. Qed.

(** When the metadata cannot be sent the failure is reported, but the thread waits and the
    output stays active. *)
Example metadata_failure :
  (st ← connect_thread (mk_rtmp_env (str "31.0.0") 1000 (λ _, 0) None (λ _, 4) (λ _, false) (λ _, -1))
          (ex_rtmp_conf 1 2500) ex_json rtmp_stream_create (ex_rtmp_settings 0 false) 0;
   Some (signalled st, active st, pc st)) = Some ([OBS_OUTPUT_DISCONNECTED], true, S_WAIT).
Proof. vm_compute. reflexivity. Qed.
