(* ===== verification/RtmpShares.v ===== *)
(** * The bitrates asked of the encoders: dbr_set_bitrate of rtmp-stream.c

    With the default table of the interpolation, each encoder is asked for a share of what
    it is configured for, all together for at most the bitrate that is set. *)

From S2P Require Import Prelude Double Rounding Encoder Interleave Flv FlvOutput RtmpQueue Rtmp RtmpSend RtmpConnect.

Local Open Scope Z_scope.

Definition sum_rates (l : list Z) : Z := foldr Z.add 0 l.

(** What an encoder is asked for; one that is not there has no bitrate. *)
Definition rate_of (r : option Z) : Z := default 0 r.

(** The columns of a connection with the settings [bs] of the encoders. *)
Definition default_columns (bs : list Z) : list (list Z) := [replicate (length bs) 0; bs].

Section shares.
Context (bs : list Z) (Hbs : Forall (λ b, 0 ≤ b) bs) (Hsum : sum_rates bs < 2 ^ 50).

(** The table has the default columns, of this connection and earlier ones with the same
    settings. *)
Record default_table_ok (d : dbr_state) : Prop := {
  t_table : ∃ n, dbr_interpolation_table d = concat (replicate (S n) (default_columns bs));
  t_rates : length (video_bitrates d) = length bs;
  t_orig : dbr_orig_bitrate d = sum_rates bs
}.

Record shares_ok (d : dbr_state) : Prop := {
  s_each : Forall2 (λ r b, 0 ≤ rate_of r ≤ b) (video_bitrates d) bs;
  s_sum : sum_rates (rate_of <$> video_bitrates d) ≤ dbr_cur_bitrate d
}.

Lemma sum_nonneg l : Forall (λ b, 0 ≤ b) l → 0 ≤ sum_rates l.
Proof. unfold sum_rates. induction 1 as [|b l ? _ IH]; cbn; lia. Qed.

Lemma total_small l s : Forall (λ b, 0 ≤ b) l → 0 ≤ s → s + sum_rates l < 2 ^ 50 →
  foldl (λ s b, i64 (s + b)) s l = s + sum_rates l.
Proof.
  intros Hl. revert s. induction Hl as [|b l Hb Hl IH]; intros s Hs Hlt; [cbn; lia|].
  pose proof (sum_nonneg l Hl). unfold sum_rates in *. cbn in *. rewrite i64_small, IH by lia. lia.
Qed.

Lemma sum_zeros n : sum_rates (replicate n 0) = 0.
Proof. unfold sum_rates. induction n; cbn; lia. Qed.

Lemma zeros_total n : foldl (λ s b, i64 (s + b)) 0 (replicate n 0) = 0.
Proof. rewrite total_small; rewrite ?sum_zeros; try done. induction n; constructor; done. Qed.

Lemma zeros_less n cur : 0 ≤ cur < 2 ^ 50 → foldl (λ s b, i64 (s - b)) cur (replicate n 0) = cur.
Proof. intros Hc. induction n as [|n IH]; [done|]. cbn. by rewrite Z.sub_0_r, i64_small by lia. Qed.

Lemma rest_small l s : Forall (λ b, 0 ≤ b) l → sum_rates l ≤ s < 2 ^ 50 → foldl (λ s b, i64 (s - b)) s l = s - sum_rates l.
Proof.
  intros Hl. revert s. induction Hl as [|b l Hb Hl IH]; intros s Hs; [cbn; lia|].
  pose proof (sum_nonneg l Hl). unfold sum_rates in *. cbn in *. rewrite i64_small, IH by lia. lia.
Qed.

(** ** The columns that are used *)

Lemma base_all cur column base table : Forall (λ point, foldl (λ s b, i64 (s + b)) 0 point ≤ cur) table → table ≠ [] →
  base_column cur column base table = (column + length table - 1)%nat.
Proof.
  intros Ht. revert column base. induction Ht as [|p table Hp Ht IH]; intros column base Hne; [done|].
  cbn [base_column]. rewrite (proj2 (Z.ltb_ge _ _)) by done. destruct table as [|p' table]; [cbn; lia|].
  rewrite IH by done. cbn. lia.
Qed.

Lemma columns_used d : default_table_ok d → 0 ≤ dbr_cur_bitrate d ≤ dbr_orig_bitrate d →
  ∃ base upper, dbr_set_bitrate d =
    (rates ← interpolate (dbr_cur_bitrate d) base upper;
     Some (set_video_bitrates d (imap (λ i e, match e with Some _ => rates !! i | None => None end) (video_bitrates d)))) ∧
    (dbr_cur_bitrate d < sum_rates bs ∧ base = replicate (length bs) 0 ∧ upper = bs ∨
     dbr_cur_bitrate d = sum_rates bs ∧ base = bs ∧ upper = bs).
Proof.
  intros [[n Ht] _ Ho] Hc. rewrite Ho in Hc. unfold dbr_set_bitrate. rewrite Ht.
  change (concat (replicate (S n) (default_columns bs))) with
    (replicate (length bs) 0 :: bs :: concat (replicate n (default_columns bs))) at 1.
  set (table := concat (replicate (S n) (default_columns bs))).
  pose proof (total_small bs 0 Hbs) as Tb. rewrite Z.add_0_l in Tb. specialize (Tb ltac:(done) Hsum).
  destruct (Z.lt_ge_cases (dbr_cur_bitrate d) (sum_rates bs)) as [Hlt|Hge].
  - exists (replicate (length bs) 0), bs. split; [|by left].
    assert (base_column (dbr_cur_bitrate d) 0 (length table - 1) table = 0%nat) as ->.
    { unfold table. cbn [replicate default_columns concat app base_column].
      by rewrite zeros_total, Tb, (proj2 (Z.ltb_ge _ 0)), (proj2 (Z.ltb_lt _ _)) by lia. }
    assert ((length table <=? 0 + 1)%nat = false) as -> by (unfold table; cbn; done). done.
  - exists bs, bs. split; [|right; split_and!; lia || done].
    assert (base_column (dbr_cur_bitrate d) 0 (length table - 1) table = length table - 1)%nat as ->.
    { apply base_all; [|done]. unfold table. apply Forall_concat, Forall_replicate. repeat constructor; [|lia].
      rewrite zeros_total. lia. }
    assert ((length table <=? length table - 1 + 1)%nat = true) as -> by (apply Nat.leb_le; lia).
    assert (table !! (length table - 1)%nat = Some bs) as ->; [|done].
    unfold table. replace (S n) with (n + 1)%nat by lia. rewrite replicate_add, concat_app.
    cbn [replicate concat app default_columns]. rewrite length_app. cbn [length].
    rewrite lookup_app_r by lia. replace (_ - _)%nat with 1%nat by lia. done.
Qed.

(** ** The shares *)

Lemma sum_scaled cur l rates : Forall2 (λ r b, r * (eps_den * eps_den) * sum_rates bs ≤ (eps_den + 1) * (eps_den + 1) * b * cur)
    rates l →
  sum_rates rates * (eps_den * eps_den) * sum_rates bs ≤ (eps_den + 1) * (eps_den + 1) * sum_rates l * cur.
Proof. induction 1 as [|r b rates l H _ IH]; unfold sum_rates in *; cbn; lia. Qed.

Lemma zip_zeros l : zip_with (λ u b, i64 (u - b)) l (replicate (length l) 0) = (λ b, i64 (b - 0)) <$> l.
Proof. induction l as [|b l IH]; [done|]. cbn. by rewrite IH. Qed.

Lemma deltas_small l : Forall (λ b, 0 ≤ b < 2 ^ 50) l → (λ b, i64 (b - 0)) <$> l = l.
Proof. induction 1 as [|b l Hb _ IH]; [done|]. cbn. rewrite IH, Z.sub_0_r, i64_small by lia. done. Qed.

Lemma each_small l : Forall (λ b, 0 ≤ b) l → sum_rates l < 2 ^ 50 → Forall (λ b, 0 ≤ b < 2 ^ 50) l.
Proof.
  induction 1 as [|b l Hb Hl IH]; intros Hs; constructor; cbn in Hs; pose proof (sum_nonneg l Hl); unfold sum_rates in *.
  - lia.
  - apply IH. lia.
Qed.

Lemma mapM_shares f l rates : Forall (λ b, 0 ≤ b < 2 ^ 50) l →
  (∀ b v, b ∈ l → f b = Some v → 0 ≤ v ≤ b) →
  mapM (λ '(b, delta), x ← f delta; Some (i64 (b + x))) (zip (replicate (length l) 0) l) = Some rates →
  Forall2 (λ r b, f b = Some r ∧ 0 ≤ r ≤ b) rates l.
Proof.
  intros Hl. revert rates. induction Hl as [|b l Hb _ IH]; intros rates Hf; [intros [= <-]; constructor|].
  cbn [length replicate zip zip_with mapM]. intros H. apply bind_Some in H as (r & Er & H).
  apply bind_Some in H as (rs & Ers & [= <-]). apply bind_Some in Er as (v & Ev & [= <-]).
  pose proof (Hf b v ltac:(by left) Ev). rewrite Z.add_0_l, i64_small by lia.
  constructor; [done|]. apply IH; [|done]. intros b' v' Hin. apply Hf. by right.
Qed.

Lemma interpolate_shares cur rates : 0 ≤ cur < sum_rates bs → interpolate cur (replicate (length bs) 0) bs = Some rates →
  Forall2 (λ r b, 0 ≤ r ≤ b) rates bs ∧ sum_rates rates ≤ cur.
Proof.
  intros Hc. pose proof (each_small bs Hbs Hsum) as Hsm. unfold interpolate.
  rewrite zip_zeros, deltas_small, zeros_less, total_small by (done || lia). rewrite Z.add_0_l, (proj2 (Z.ltb_ge _ 1)) by lia.
  set (scale := if _ : bool then _ else _).
  assert (∀ b v, b ∈ bs → double_to_int (double_mul (double_of_int b) scale) = Some v →
    0 ≤ v ≤ b ∧ v * (eps_den * eps_den) * sum_rates bs ≤ (eps_den + 1) * (eps_den + 1) * b * cur) as Hscale.
  { intros b v Hin Hv. rewrite Forall_forall in Hsm. specialize (Hsm b Hin).
    apply scaled_bound in Hv as [Hv1 Hv2]; [|lia..]. pose proof (scaled_le b cur (sum_rates bs) v). split; [lia|done]. }
  clearbody scale. intros H.
  apply (mapM_shares (λ b, double_to_int (double_mul (double_of_int b) scale))) in H; [|done|].
  2: { intros b v Hin Hv. by apply Hscale. }
  split; [by eapply Forall2_impl; [exact H|]; intros r b [_ ?]|].
  apply (scaled_sum cur (sum_rates bs)); [lia|done|]. apply sum_scaled.
  rewrite Forall2_lookup in H. apply Forall2_lookup. intros i. specialize (H i).
  inversion H as [r b [Hv _] Er Eb|]; constructor. apply Hscale; [|done]. by eapply list_elem_of_lookup_2.
Qed.

(** At the bitrate of the settings, each encoder has that of its own. *)
Lemma interpolate_full rates : interpolate (sum_rates bs) bs bs = Some rates → rates = bs.
Proof.
  pose proof (each_small bs Hbs Hsum) as Hsm. pose proof (sum_nonneg bs Hbs). unfold interpolate.
  assert (zip_with (λ u b, i64 (u - b)) bs bs = replicate (length bs) 0) as ->.
  { clear. induction bs as [|b l IH]; [done|]. cbn. by rewrite IH, Z.sub_diag. }
  rewrite zeros_total, rest_small, Z.sub_diag by (done || lia).
  change (0 <? 1) with true. cbv iota. set (scale := if _ : bool then _ else _).
  assert (scale = S754_zero false) as -> by reflexivity.
  revert Hsm. clear. revert rates. induction bs as [|b l IH]; intros rates Hl; [by intros [= <-]|].
  cbn [length replicate zip zip_with mapM]. inversion Hl as [|? ? Hb Hl']; subst. intros H.
  apply bind_Some in H as (r & Er & H). apply bind_Some in H as (rs & Ers & [= <-]). cbn in Er. injection Er as <-.
  rewrite Z.add_0_r, i64_small by lia. f_equal. by apply IH.
Qed.

Lemma rates_used (rates : list Z) (es : list (option Z)) : Forall2 (λ r b, 0 ≤ r ≤ b) rates bs → length es = length bs →
  let used := imap (λ i e, match e with Some _ => rates !! i | None => None end) es in
  Forall2 (λ r b, 0 ≤ rate_of r ≤ b) used bs ∧ sum_rates (rate_of <$> used) ≤ sum_rates rates ∧ length used = length bs.
Proof.
  clear Hbs Hsum. revert rates es. induction bs as [|b l IH]; intros rates es Hr Hl; inversion Hr as [|r ? rs ? Hrb Hrs]; subst;
    destruct es as [|e es]; try done; cbn zeta.
  cbn [imap]. destruct (IH rs es Hrs ltac:(by injection Hl)) as (H1 & H2 & H3).
  assert (∀ f g : nat → option Z → option Z, (∀ i e, f i e = g i e) → imap f es = imap g es) as Hext
    by (intros f g E; apply list_eq; intros i; rewrite !list_lookup_imap; destruct (es !! i); cbn; congruence).
  match goal with |- context [imap ?f es] => rewrite (Hext f (λ i e, match e with Some _ => rs !! i | None => None end)) end;
    [|by intros i []].
  cbv zeta in H1, H2, H3. unfold sum_rates in *. cbn [fmap list_fmap foldr length]. split_and!; [constructor; [|done]|..].
  - destruct e; cbn; lia.
  - destruct e; cbn in *; lia.
  - cbn. lia.
Qed.

(** Whatever bitrate is set. *)
Lemma dbr_set_bitrate_shares d d' : default_table_ok d → 0 ≤ dbr_cur_bitrate d ≤ dbr_orig_bitrate d →
  dbr_set_bitrate d = Some d' → default_table_ok d' ∧ shares_ok d'.
Proof.
  intros Ht Hc. destruct (columns_used d Ht Hc) as (base & upper & -> & Hcol). intros H.
  apply bind_Some in H as (rates & Hr & [= <-]).
  assert (Forall2 (λ r b, 0 ≤ r ≤ b) rates bs ∧ sum_rates rates ≤ dbr_cur_bitrate d) as [H1 H2].
  { destruct Hcol as [(Hlt & -> & ->)|(E & -> & ->)]; [apply interpolate_shares; [lia|done]|].
    rewrite E in Hr. apply interpolate_full in Hr as ->. split; [|lia].
    revert Hbs. clear. induction 1; constructor; [lia|done]. }
  destruct Ht as [Ht1 Ht2 Ht3]. destruct (rates_used rates (video_bitrates d) H1 Ht2) as (U1 & U2 & U3).
  split; constructor; try done. exact (Z.le_trans _ _ _ U2 H2).
Qed.

End shares.
