(* ===== verification/RtmpBitrate.v ===== *)
(** * The dynamic bitrate of the RTMP output: rtmp-stream.c

    The bounds of the bitrate through every interleaving of the handlers and the send
    thread, and when it falls and rises. *)

From S2P Require Import Prelude Double Encoder Interleave Flv FlvOutput RtmpQueue Rtmp RtmpSend RtmpConnect RtmpDrop RtmpShares.

Local Open Scope Z_scope.

Definition sum_sizes (frames : list dbr_frame) : Z := foldr (λ f s, frame_size f + s) 0 frames.

(** What can be asked of an encoder. *)
Definition lowest (orig : Z) : Z := Z.min 50 orig.

Section bounds.
Context (floor : Z) (bs : list Z).

Record dbr_ok (d : dbr_state) : Prop := {
  d_orig : 0 ≤ dbr_orig_bitrate d < 2 ^ 56;
  d_floor : dbr_floor_bitrate d = floor ∧ floor ≤ dbr_cur_bitrate d;
  d_lowest : lowest (dbr_orig_bitrate d) ≤ dbr_cur_bitrate d;
  d_cur : dbr_cur_bitrate d ≤ dbr_orig_bitrate d;
  d_inc : dbr_inc d = dbr_orig_bitrate d /c 10;
  d_prev : dbr_prev_bitrate d = 0 ∨ lowest (dbr_orig_bitrate d) ≤ dbr_prev_bitrate d ≤ dbr_cur_bitrate d;
  d_est : dbr_est_bitrate d = 0 ∨ 50 ≤ dbr_est_bitrate d;
  d_size : dbr_data_size d = u64 (sum_sizes (dbr_frames d))
}.

Lemma u64_add_l a b : u64 (u64 a + b) = u64 (a + b).
Proof. unfold u64. apply Zplus_mod_idemp_l. Qed.

Lemma u64_sub_l a b : u64 (u64 a - b) = u64 (a - b).
Proof. unfold u64. apply Zminus_mod_idemp_l. Qed.

Lemma sum_sizes_app l k : sum_sizes (l ++ k) = sum_sizes l + sum_sizes k.
Proof. induction l as [|f l IH]; [done|]. unfold sum_sizes in *. cbn [app foldr]. lia. Qed.

(** The settings of the encoders make their default table, and the bitrates asked are
    shares of them. *)
Definition table_ok (d : dbr_state) : Prop := (Forall (λ b, 0 ≤ b) bs ∧ sum_rates bs < 2 ^ 50) ∧ default_table_ok bs d.
Definition asked_ok (d : dbr_state) : Prop := table_ok d ∧ shares_ok bs d.

Definition same_table (d d' : dbr_state) : Prop :=
  dbr_interpolation_table d' = dbr_interpolation_table d ∧ video_bitrates d' = video_bitrates d ∧
  dbr_orig_bitrate d' = dbr_orig_bitrate d.

Lemma same_table_ok d d' : same_table d d' → table_ok d → table_ok d'.
Proof. intros (E1 & E2 & E3) [Hb [H1 H2 H3]]. split; [done|]. constructor; [by rewrite E1|congruence..]. Qed.

Lemma same_shares d d' : same_table d d' → dbr_cur_bitrate d' = dbr_cur_bitrate d → asked_ok d → asked_ok d'.
Proof.
  intros Hs Ec [Ht [H1 H2]]. split; [by eapply same_table_ok|]. destruct Hs as (_ & E2 & _).
  constructor; rewrite E2; [done|]. by rewrite Ec.
Qed.

(** A measure changes neither the bitrate nor its bounds. *)
Lemma dbr_add_frame_ok d f : dbr_ok d → dbr_ok (dbr_add_frame d f).
Proof.
  intros [Ho Hf Hl Hc Hi Hp He Hs]. unfold dbr_add_frame.
  set (frames := dbr_frames d ++ [f]). set (front := default f (head frames)).
  set (size := u64 (dbr_data_size d + frame_size f)).
  assert (size = u64 (sum_sizes frames)) as Hsize.
  { unfold size, frames. rewrite Hs, u64_add_l, sum_sizes_app. cbn. f_equal. lia. }
  assert (u64 (size - frame_size front) = u64 (sum_sizes (tail frames))) as Htail.
  { rewrite Hsize, u64_sub_l. f_equal. unfold front, frames. destruct (dbr_frames d); cbn; lia. }
  destruct (_ <=? _); (constructor; cbn [set_measure dbr_orig_bitrate dbr_floor_bitrate dbr_cur_bitrate dbr_inc
    dbr_prev_bitrate dbr_est_bitrate dbr_data_size dbr_frames]; try done).
  all: destruct (_ =? 0); [by left|right]; case_match; lia.
Qed.

Lemma dbr_set_bitrate_same d d' : dbr_set_bitrate d = Some d' → ∃ b, d' = set_video_bitrates d b.
Proof.
  unfold dbr_set_bitrate. destruct (dbr_interpolation_table d) as [|col cols] eqn:E.
  - intros [= <-]. exists (video_bitrates d). by destruct d.
  - intros H. apply bind_Some in H as (b & _ & H). apply bind_Some in H as (u & _ & H).
    apply bind_Some in H as (r & _ & [= <-]). by eexists.
Qed.

Lemma set_bitrate_asked d d' : dbr_ok d → table_ok d → dbr_set_bitrate d = Some d' → asked_ok d'.
Proof.
  intros [] [[Hb Hs] Ht] H. pose proof (sum_nonneg bs Hb). destruct Ht as [Ht1 Ht2 Ht3].
  destruct (dbr_set_bitrate_shares bs Hb Hs d d') as [? ?]; [by constructor|unfold lowest in *; lia|done|].
  by split.
Qed.

Lemma set_bitrate_ok d d' : dbr_ok d → dbr_set_bitrate d = Some d' → dbr_ok d'.
Proof. intros [] H. apply dbr_set_bitrate_same in H as (b & ->). by constructor. Qed.

Lemma dbr_add_frame_same d f : same_table d (dbr_add_frame d f) ∧ dbr_cur_bitrate (dbr_add_frame d f) = dbr_cur_bitrate d.
Proof. unfold dbr_add_frame. by destruct (if _ <=? _ then _ else _). Qed.

(** A bitrate that is said to be lowered is lower, and is tried for four seconds. *)
Lemma dbr_lowered_ok d now d' b : dbr_ok d → dbr_bitrate_lowered d now = (d', b) →
  dbr_ok d' ∧ same_table d d' ∧
  (if b then dbr_cur_bitrate d' < dbr_cur_bitrate d ∧ dbr_inc_timeout d' = u64 (now + DBR_INC_TIMER)
   else dbr_cur_bitrate d' = dbr_cur_bitrate d ∧ dbr_inc_timeout d' = dbr_inc_timeout d).
Proof.
  intros Hd. pose proof Hd as [Ho Hf Hl Hc Hi Hp He Hs]. unfold dbr_bitrate_lowered.
  set (lower := negb (dbr_est_bitrate d =? 0) && (dbr_est_bitrate d <? dbr_cur_bitrate d)).
  set (d1 := if lower then set_measure d [] 0 (dbr_est_bitrate d) else d).
  set (est := if lower then (if dbr_est_bitrate d /c 100 * 100 <? 50 then 50 else dbr_est_bitrate d /c 100 * 100) else 0).
  replace (if lower then _ else _) with (d1, est) by (unfold d1, est; by destruct lower).
  assert (dbr_ok d1) as Hd1 by (unfold d1; destruct lower; by constructor).
  assert (dbr_orig_bitrate d1 = dbr_orig_bitrate d ∧ dbr_cur_bitrate d1 = dbr_cur_bitrate d ∧
          dbr_floor_bitrate d1 = dbr_floor_bitrate d ∧ dbr_inc_timeout d1 = dbr_inc_timeout d) as (Eo & Ec & Ef & Et)
    by (unfold d1; by destruct lower).
  assert (same_table d d1) as Hst by (unfold d1; by destruct lower).
  assert (est = 0 ∨ 50 ≤ est < dbr_cur_bitrate d) as Hest.
  { unfold est, lower. destruct (Z.eqb_spec (dbr_est_bitrate d) 0); [by left|]. cbn [negb andb].
    destruct (Z.ltb_spec (dbr_est_bitrate d) (dbr_cur_bitrate d)); [|by left]. right.
    destruct (Z.ltb_spec (dbr_est_bitrate d /c 100 * 100) 50); [lia|].
    pose proof (Z.quot_rem' (dbr_est_bitrate d) 100). pose proof (Z.rem_nonneg (dbr_est_bitrate d) 100). lia. }
  destruct ((est =? 0) && (dbr_prev_bitrate d =? 0)) eqn:Ez; [intros [= <- <-]; by split_and!|].
  set (new0 := if negb (est =? 0) then est else dbr_prev_bitrate d).
  assert (lowest (dbr_orig_bitrate d) ≤ new0 ≤ dbr_cur_bitrate d) as Hn0.
  { unfold new0, lowest in *. destruct (Z.eqb_spec est 0); cbn [negb andb] in *; [|lia].
    apply Z.eqb_neq in Ez. lia. }
  rewrite Ef, Ec. set (new := if _ : bool then dbr_floor_bitrate d else new0).
  assert (lowest (dbr_orig_bitrate d) ≤ new ≤ dbr_cur_bitrate d ∧ (dbr_floor_bitrate d ≤ new ∨ dbr_floor_bitrate d = 0))
    as (Hn & Hnf).
  { unfold new. destruct (Z.eqb_spec (dbr_floor_bitrate d) 0); cbn [negb andb]; [lia|].
    destruct (Z.ltb_spec new0 (dbr_floor_bitrate d)); lia. }
  destruct (Z.eqb_spec new (dbr_cur_bitrate d)); intros [= <- <-]; [by split_and!|].
  split_and!; [|done|cbn; lia|done]. destruct Hd1 as [Ho1 Hf1 Hl1 Hc1 Hi1 Hp1 He1 Hs1].
  constructor; cbn [set_rate dbr_orig_bitrate dbr_floor_bitrate dbr_cur_bitrate dbr_inc dbr_prev_bitrate dbr_est_bitrate
    dbr_data_size dbr_frames]; rewrite ?Eo, ?Ef in *; try done; unfold lowest in *; lia.
Qed.

Lemma quot_tenth z : 0 ≤ z → 0 ≤ z /c 10 ≤ z.
Proof. intros H. rewrite Z.quot_div_nonneg by lia. div_lia. Qed.

(** A rise is by a tenth of the configured bitrate at most. *)
Lemma dbr_inc_ok d now : dbr_ok d →
  let d' := dbr_inc_bitrate d now in
  dbr_ok d' ∧ same_table d d' ∧
  dbr_cur_bitrate d ≤ dbr_cur_bitrate d' ≤ dbr_cur_bitrate d + dbr_orig_bitrate d /c 10.
Proof.
  intros [Ho Hf Hl Hc Hi Hp He Hs]. cbv zeta. unfold dbr_inc_bitrate. rewrite Hi.
  pose proof (quot_tenth (dbr_orig_bitrate d)). unfold lowest in *.
  rewrite i64_small by lia. destruct (Z.leb_spec (dbr_orig_bitrate d) (dbr_cur_bitrate d + dbr_orig_bitrate d /c 10));
    (split_and!; [constructor; cbn [set_rate dbr_orig_bitrate dbr_floor_bitrate dbr_cur_bitrate dbr_inc dbr_prev_bitrate
      dbr_est_bitrate dbr_data_size dbr_frames]; unfold lowest; try done; lia|done|cbn; lia..]).
Qed.

(** ** The handlers *)

(** How the bitrate changes in a call that reads the clock as [now]. *)
Record rate_change (d d' : dbr_state) (now : nat → Z) : Prop := {
  r_ok : dbr_ok d';
  r_orig : dbr_orig_bitrate d' = dbr_orig_bitrate d;
  r_table : table_ok d → table_ok d';
  r_fall : dbr_cur_bitrate d' < dbr_cur_bitrate d → dbr_inc_timeout d' = u64 (now 2%nat + DBR_INC_TIMER);
  r_rise : dbr_cur_bitrate d < dbr_cur_bitrate d' →
    dbr_inc_timeout d ≠ 0 ∧ dbr_inc_timeout d ≤ now 0%nat ∧
    dbr_cur_bitrate d' ≤ dbr_cur_bitrate d + dbr_orig_bitrate d /c 10
}.

Lemma rate_change_refl d now : dbr_ok d → rate_change d d now.
Proof. constructor; [done|done|done|lia..]. Qed.

(** The settings of the encoders. *)
Lemma rate_change_set d d' d2 now : rate_change d d' now → dbr_set_bitrate d' = Some d2 →
  rate_change d d2 now ∧ (asked_ok d → asked_ok d2).
Proof.
  intros [Hk Ho Ht Hf Hr] H. pose proof (set_bitrate_ok _ _ Hk H) as Hk2.
  pose proof (λ Hd, set_bitrate_asked _ _ Hk Hd H) as Ha. apply dbr_set_bitrate_same in H as (b & ->).
  split; [|intros [Hd _]; auto]. constructor; try done. intros Hd. by apply Ha, Ht.
Qed.

Lemma check_increase_change d now d' : dbr_ok d → check_increase d now = Some d' →
  rate_change d d' now ∧ (asked_ok d → asked_ok d') ∧ dbr_cur_bitrate d ≤ dbr_cur_bitrate d'.
Proof.
  intros Hd. unfold check_increase. destruct (Z.eqb_spec (dbr_inc_timeout d) 0);
    [intros [= <-]; split; [by apply rate_change_refl|split; [done|lia]]|].
  destruct (Z.leb_spec (dbr_inc_timeout d) (now 0%nat));
    [|intros [= <-]; split; [by apply rate_change_refl|split; [done|lia]]].
  intros Hset. set (d0 := set_rate d 0 (dbr_prev_bitrate d) (dbr_cur_bitrate d)) in Hset.
  assert (dbr_ok d0) as Hd0 by (destruct Hd; by constructor).
  destruct (dbr_inc_ok d0 (now 1%nat) Hd0) as (Hk & Ho & Hc). cbn in Hc.
  assert (rate_change d (dbr_inc_bitrate d0 (now 1%nat)) now) as R.
  { constructor; [done|apply Ho|by apply same_table_ok|lia|lia]. }
  destruct (rate_change_set _ _ _ _ R Hset) as [R2 Ha]. split; [done|]. split; [done|]. apply dbr_set_bitrate_same in Hset as (b & ->). cbn. lia.
Qed.

Lemma check_change q d pframes now q' d' : dbr_ok d → check_to_drop_frames q d pframes now = Some (q', d') →
  rate_change d d' now ∧ (asked_ok d → asked_ok d') ∧ (pframes = true → d' = d).
Proof.
  intros Hd. unfold check_to_drop_frames.
  destruct (if negb pframes && dbr_enabled d then check_increase d now else Some d) as [d1|] eqn:E1; [|done].
  cbn [mbind option_bind].
  assert (rate_change d d1 now ∧ (asked_ok d → asked_ok d1) ∧ dbr_cur_bitrate d ≤ dbr_cur_bitrate d1 ∧ (pframes = true → d1 = d))
    as (R1 & Ha1 & Hup & Hp).
  { destruct pframes; cbn [negb andb] in E1; [injection E1 as <-; split_and!; [by apply rate_change_refl|done|lia|done]|].
    destruct (dbr_enabled d); [|injection E1 as <-; split_and!; [by apply rate_change_refl|done|lia|done]].
    apply check_increase_change in E1 as (? & ? & ?); [by split_and!|done]. }
  destruct (_ <? 5); [intros [= _ <-]; done|].
  destruct (find_first_video_packet q) as [first|]; [|intros [= _ <-]; done].
  set (dur := i64 _). destruct (dbr_enabled d1); [|intros [= _ <-]; done].
  destruct pframes; [intros [= _ <-]; done|].
  destruct (if DBR_TRIGGER_USEC <=? u64 dur then dbr_bitrate_lowered d1 (now 2%nat) else (d1, false)) as [d2 changed] eqn:E2.
  assert (rate_change d d2 now ∧ (changed = false → asked_ok d → asked_ok d2)) as [R2 Ha2].
  { destruct (DBR_TRIGGER_USEC <=? u64 dur); [|by injection E2 as <- <-].
    destruct R1 as [Hk Ho Ht Hf Hr]. apply dbr_lowered_ok in E2 as (Hk2 & Ho2 & Hc2); [|done]. split.
    - assert (table_ok d → table_ok d2) as Ht2 by (intros Hd0; by apply (same_table_ok d1), Ht).
      destruct Ho2 as (_ & _ & Ho2).
      destruct changed; destruct Hc2 as [Hc2 Hti]; constructor; try done; try congruence; rewrite ?Hti, ?Hc2; auto.
      intros Hlt. destruct Hr as (? & ? & ?); lia.
    - intros ->. destruct Hc2 as [Hc2 _]. intros Hd0. by apply (same_shares d1), Ha1. }
  destruct (if changed then dbr_set_bitrate d2 else Some d2) as [d3|] eqn:E3; [|done].
  cbn [mbind option_bind]. intros [= _ <-].
  destruct changed; [|injection E3 as <-; by split_and!; [|apply Ha2|]].
  destruct (rate_change_set _ _ _ _ R2 E3). by split_and!.
Qed.

Section run.
Context (env : rtmp_env) (c : output_conf).
Implicit Types st : rtmp_stream.

Lemma data_change st packet now st' : dbr_ok (dbr st) → rtmp_stream_data env st packet now = Some st' →
  rate_change (dbr st) (dbr st') now ∧ (asked_ok (dbr st) → asked_ok (dbr st')).
Proof.
  intros Hd. pose proof (rate_change_refl _ now Hd) as R0. unfold rtmp_stream_data. destruct (_ || _); [intros [= <-]; auto|].
  destruct packet as [packet|]; [|intros [= <-]; auto].
  destruct (if got_first_packet st then _ else _) as [st1|] eqn:E1; [|done]. cbn [mbind option_bind].
  assert (dbr st1 = dbr st) as D1.
  { destruct (got_first_packet st); [by injection E1 as <-|]. by apply bind_Some in E1 as (off & _ & [= <-]). }
  destruct (new_packet env st1 packet) as [[p|]|]; cbn [mbind option_bind]; [|intros [= <-]; rewrite D1; auto|done].
  destruct (if disconnected st1 then _ else _) as [[[q d] added]|] eqn:E2; [|done]. cbn [mbind option_bind].
  assert (rate_change (dbr st) d now ∧ (asked_ok (dbr st) → asked_ok d)) as R.
  { rewrite D1 in E2. destruct (disconnected st1); [injection E2 as _ <- _; auto|].
    destruct (pkt_type packet); [by injection E2 as _ <- _|].
    unfold add_video_packet in E2. apply bind_Some in E2 as ([q1 d1] & C1 & E2). apply bind_Some in E2 as ([q2 d2] & C2 & E2).
    apply check_change in C1 as (R1 & A1 & _); [|done]. apply check_change in C2 as (_ & _ & C2); [|apply R1].
    rewrite (C2 eq_refl) in E2. case_match; by injection E2 as _ <- _. }
  intros [= <-]. by destruct added.
Qed.

Lemma set_thread_dbr st sem p l : dbr (set_thread st sem p l) = dbr st.
Proof. done. Qed.

(** The thread only measures, until it ends and restores the bitrate of the settings. *)
Lemma send_rate st times st' : dbr_ok (dbr st) → send_step env c st times = Some st' →
  dbr_ok (dbr st') ∧ dbr_orig_bitrate (dbr st') = dbr_orig_bitrate (dbr st) ∧
  (dbr_cur_bitrate (dbr st') = dbr_cur_bitrate (dbr st) ∨
   pc st = S_EXIT ∧ dbr_cur_bitrate (dbr st') = dbr_orig_bitrate (dbr st)) ∧
  (asked_ok (dbr st) → asked_ok (dbr st')).
Proof.
  intros Hd. unfold send_step. destruct (pc st) as [|packet|frame| |] eqn:Hpc.
  - assert (∀ now, dbr (send_wake st now) = dbr st) as E by (intros now; unfold send_wake; by repeat case_match).
    destruct (0 <? send_sem st); intros [= <-]; rewrite ?E; auto 7.
  - intros H. apply send_one_spec in H as (st1 & k & (n & t & ->) & H).
    assert (dbr st' = dbr st) as -> by (by destruct H as [[_ ->]|(_ & _ & p & _ & _ & ->)]). auto 7.
  - intros [= <-]. cbn [dbr set_thread set_media]. destruct (dbr_add_frame_same (dbr st) frame) as [Hs Ec].
    split_and!; [by apply dbr_add_frame_ok|apply Hs|by left|by apply same_shares].
  - unfold send_end_thread. intros H. apply bind_Some in H as (st1 & E1 & H). apply bind_Some in H as (d & Ed & [= <-]).
    assert (dbr st1 = dbr st) as D1.
    { destruct (disconnected st); [by injection E1 as <-|]. apply bind_Some in E1 as ([st2 ok] & E2 & [= <-]).
      by apply send_footers_outputs in E2 as (k' & (n & t & ->) & _). }
    rewrite D1 in Ed. cbn. destruct (dbr_enabled (dbr st) && _); [|injection Ed as <-; auto 7].
    set (d0 := set_rate _ _ _ _) in Ed. assert (dbr_ok d0) as Hd0.
    { destruct Hd as [Ho Hf Hl Hc Hi Hp He Hs]. constructor; cbn; try done; unfold lowest in *; lia. }
    pose proof (set_bitrate_ok _ _ Hd0 Ed).
    assert (asked_ok (dbr st) → asked_ok d).
    { intros [Ha _]. by apply (set_bitrate_asked d0); [|apply (same_table_ok (dbr st))|]. }
    apply dbr_set_bitrate_same in Ed as (b & ->). cbn. auto 7.
  - intros [= <-]. auto 7.
Qed.

Lemma step_ok st ev st' : dbr_ok (dbr st) → rtmp_step env c st ev = Some st' →
  dbr_ok (dbr st') ∧ dbr_orig_bitrate (dbr st') = dbr_orig_bitrate (dbr st) ∧ (asked_ok (dbr st) → asked_ok (dbr st')).
Proof.
  intros Hd. destruct ev as [packet now|ts|times]; cbn [rtmp_step].
  - intros H. apply data_change in H as [[] ?]; auto 7.
  - intros [= <-]. assert (dbr (rtmp_stream_stop st ts) = dbr st) as -> by (unfold rtmp_stream_stop; by repeat case_match).
    auto 7.
  - intros H. by apply send_rate in H as (? & ? & _ & ?).
Qed.

Lemma run_ok st evs st' : dbr_ok (dbr st) → rtmp_run env c st evs = Some st' →
  dbr_ok (dbr st') ∧ dbr_orig_bitrate (dbr st') = dbr_orig_bitrate (dbr st) ∧ (asked_ok (dbr st) → asked_ok (dbr st')).
Proof.
  revert st. induction evs as [|ev evs IH]; intros st Hd; cbn [rtmp_run]; [intros [= <-]; auto|].
  intros H. apply bind_Some in H as (st1 & E & H). apply step_ok in E as (Hd1 & Ho1 & Ha1); [|done].
  rewrite <- Ho1. destruct (IH st1 Hd1 H) as (? & ? & ?). auto 7.
Qed.

End run.
End bounds.

(** The floor that the settings ask for. *)
Definition floor_bitrate (orig pct : Z) : Z := if 0 <? pct then orig * Z.min pct 100 / 100 else 0.

Lemma floor_range orig pct : 0 ≤ orig < 2 ^ 56 → 0 ≤ floor_bitrate orig pct ≤ orig.
Proof. intros H. unfold floor_bitrate. destruct (Z.ltb_spec 0 pct); [|lia]. split; [apply Z.div_pos; nia|apply Z.div_le_upper_bound; nia]. Qed.

Lemma connect_dbr_ok env c json d cs d' : 0 ≤ total_bitrate (video_encoders_used c) < 2 ^ 56 →
  (dbr_prev_bitrate d = 0 ∨ Z.min 50 (total_bitrate (video_encoders_used c)) ≤ dbr_prev_bitrate d
     ≤ total_bitrate (video_encoders_used c)) →
  connect_dbr env c json d cs = Some d' →
  dbr_ok (floor_bitrate (total_bitrate (video_encoders_used c)) (dyn_bitrate_floor_pct cs)) d' ∧
  dbr_orig_bitrate d' = total_bitrate (video_encoders_used c).
Proof.
  intros Ho Hp. unfold connect_dbr. set (orig := total_bitrate (video_encoders_used c)) in *.
  pose proof (floor_range orig (dyn_bitrate_floor_pct cs) Ho) as Hf.
  intros H. apply bind_Some in H as ([en table] & _ & [= <-]). split; [|done].
  constructor; cbn [dbr_orig_bitrate dbr_floor_bitrate dbr_cur_bitrate dbr_inc dbr_prev_bitrate dbr_est_bitrate
    dbr_data_size dbr_frames]; fold orig; clearbody orig; unfold lowest; try lia; try done.
  unfold floor_bitrate in *. set (pct := dyn_bitrate_floor_pct cs) in *.
  replace (if 100 <? pct then 100 else pct) with (Z.min pct 100) by (destruct (Z.ltb_spec 100 pct); lia).
  destruct (Z.ltb_spec 0 (Z.min pct 100)), (Z.ltb_spec 0 pct); try lia.
  rewrite i64_small by nia. rewrite Z.quot_div_nonneg by nia. lia.
Qed.

(** The bitrates in the settings of the video encoders. *)
Definition configured (c : output_conf) : list Z := encoder_setting <$> video_encoders_used c.

Lemma total_configured encs : let bs := encoder_setting <$> encs in
  Forall (λ b, 0 ≤ b) bs → sum_rates bs < 2 ^ 50 → total_bitrate encs = sum_rates bs.
Proof.
  intros bs Hb Hs. transitivity (foldl (λ s b, i64 (s + b)) 0 bs); [|by rewrite total_small].
  unfold total_bitrate, bs. generalize 0. clear. induction encs as [|e encs IH]; intros z; [done|]. apply IH.
Qed.

Definition initial_rates (encs : list (option obs_encoder)) : list (option Z) :=
  map (fmap (λ e, encoder_setting (Some e))) encs.

Lemma initial_shares encs : Forall (λ b, 0 ≤ b) (encoder_setting <$> encs) →
  Forall2 (λ r b, 0 ≤ rate_of r ≤ b) (initial_rates encs) (encoder_setting <$> encs).
Proof.
  induction encs as [|e es IH]; intros Hb; [constructor|]. inversion Hb.
  constructor; [destruct e; cbn in *; lia|by apply IH].
Qed.

Lemma initial_sum encs : sum_rates (rate_of <$> initial_rates encs) = sum_rates (encoder_setting <$> encs).
Proof.
  unfold sum_rates, initial_rates. induction encs as [|e es IH]; [done|]. cbn [map fmap list_fmap foldr] in *. rewrite IH.
  by destruct e.
Qed.

Lemma connect_asked env c json d cs d' : let bs := configured c in
  Forall (λ b, 0 ≤ b) bs → sum_rates bs < 2 ^ 50 → interpolation_table_data cs = None →
  (∃ n, dbr_interpolation_table d = concat (replicate n (default_columns bs))) →
  connect_dbr env c json d cs = Some d' → asked_ok bs d'.
Proof.
  intros bs Hb Hs Hu [n Ht] H. pose proof (total_configured (video_encoders_used c) Hb Hs) as Eo. fold bs in Eo.
  unfold connect_dbr, user_table in H. rewrite Hu in H. injection H as <-.
  split; [split; [done|]|]; constructor; cbn [dbr_interpolation_table video_bitrates dbr_orig_bitrate dbr_cur_bitrate];
    rewrite ?Eo; [|done|done|..].
  - exists n. unfold default_table. rewrite Ht. replace (S n) with (n + 1)%nat by lia. by rewrite replicate_add, concat_app.
  - exact (initial_shares (video_encoders_used c) Hb).
  - apply Z.eq_le_incl. exact (initial_sum (video_encoders_used c)).
Qed.


(** ** Examples *)

(** A frame of 300 bytes. *)
Definition ex_big (dts : Z) : encoder_packet :=
  mk_packet ([0; 0; 0; 1; 65] ++ replicate 295 7) dts dts 1 10 OBS_ENCODER_VIDEO false (dts * 100000) (dts * 100000)
    0 0 0 10.

(** Half a second to send a frame; [n] tells when. *)
Definition ex_slow_send (n : nat) : rtmp_event :=
  EV_SEND (λ i, (Z.of_nat n + Z.of_nat i) * 500000000).

Definition ex_congested : list rtmp_event :=
  map ex_put (map ex_big [0; 1; 2; 3; 4; 5; 6; 7; 8; 9]) ++
  flat_map (λ n, [ex_slow_send n; ex_slow_send n; ex_slow_send n]) [0%nat; 1%nat; 2%nat] ++
  [ex_put (ex_big 10)].

Definition rates (cs : rtmp_settings) (evs : list rtmp_event) : option (Z * Z * list (option Z)) :=
  st ← ex_start (ex_rtmp_conf 1 2500) cs;
  st ← rtmp_run ex_rtmp_env (ex_rtmp_conf 1 2500) st evs;
  Some (dbr_cur_bitrate (dbr st), dbr_inc_timeout (dbr st), take 1 (video_bitrates (dbr st))).

(** The bitrate falls to what the network carries, or to the floor. *)
Example bitrate_falls : rates (ex_rtmp_settings 0 true) ex_congested = Some (50, 4000000000, [Some 50]).
Proof. vm_compute. reflexivity. Qed.

Example bitrate_floor : rates (ex_rtmp_settings 40 true) ex_congested = Some (1000, 4000000000, [Some 1000]).
Proof. vm_compute. reflexivity. Qed.

(** It rises again when the time has passed and the queue has emptied; while it has not,
    the bitrate before the rise comes back at once. *)
Example bitrate_rises :
  rates (ex_rtmp_settings 40 true)
    (ex_congested ++ replicate 21 (ex_slow_send 9) ++ [EV_PACKET (Some (ex_big 10)) (λ _, 4000000000)]) =
  Some (1250, 8000000000, [Some 1250]).
Proof. vm_compute. reflexivity. Qed.

Example bitrate_returns :
  rates (ex_rtmp_settings 40 true) (ex_congested ++ [EV_PACKET (Some (ex_big 10)) (λ _, 4000000000)]) =
  Some (1000, 8000000000, [Some 1000]).
Proof. vm_compute. reflexivity. Qed.

(** Two tracks. *)
Definition ex_two_tracks : output_conf := ex_rtmp_conf 2 2500.


(** ** What goes wrong *)

(** The bitrate to come back to is that of the last connection: when the configured bitrate
    has been reduced since, a slow network raises the bitrate above it. *)
Example stale_previous_bitrate :
  (d ← connect_dbr ex_rtmp_env (ex_rtmp_conf 1 2500) ex_json
         (set_rate (dbr rtmp_stream_create) 0 5400 6000) (ex_rtmp_settings 0 true);
   let '(d', changed) := dbr_bitrate_lowered d 0 in
   Some (dbr_orig_bitrate d', dbr_cur_bitrate d', changed : bool)) = Some (2500, 5400, true).
Proof. vm_compute. reflexivity. Qed.

(** Below the total of the first column of a table that does not start at zero, the encoders
    are given the last column, the highest bitrates. *)
Example lowest_column_missed :
  (d ← dbr_set_bitrate (mk_dbr [] 0 0 0 0 4000 0 500 400 0 true [[1000]; [4000]] [Some 4000]);
   Some (video_bitrates d)) = Some [Some 4000].
Proof. vm_compute. reflexivity. Qed.

(** The default columns of a connection follow those of the earlier ones, which are the
    ones used: after a change from 4000 and 2000 to 1000 and 2000, the first track is given
    more than it is configured for. *)
Example earlier_columns_used :
  (d ← dbr_set_bitrate (mk_dbr [] 0 0 0 0 3000 0 2000 300 0 true
         [[0; 0]; [4000; 2000]; [0; 0]; [1000; 2000]] [Some 1000; Some 2000]);
   Some (video_bitrates d)) = Some [Some 1333; Some 666].
Proof. vm_compute. reflexivity. Qed.

(** An array that is longer than that of the encoders has no entry in the others, and a table
    with an entry that is not an integer is accepted, with zero for it. *)
Definition ex_arrays (l : list (list (option Z))) : json_api :=
  mk_json (list (list (option Z)) + (list (option Z)) + option Z)
    (λ _, Some (inl (inl l)))
    (λ j i, match j with inl (inl l) => inl ∘ inr <$> l !! i | inl (inr l) => inr <$> l !! i | inr _ => None end)
    (λ j, match j with inl (inl l) => zlen l | inl (inr l) => zlen l | inr _ => 0 end)
    (λ j, match j with inr v => v | _ => None end).

Example not_integer_accepted :
  option_map (map (take 2)) <$>
    build_dbr_interpolation_table (ex_rtmp_conf 2 2500) (ex_arrays [[Some 0; None]; [Some 0; Some 500]]) [] =
  Some (Some [[0; 0]; [0; 500]]).
Proof. vm_compute. reflexivity. Qed.

Example unused_array_too_short :
  build_dbr_interpolation_table (ex_rtmp_conf 1 2500) (ex_arrays [[Some 0; Some 500]; [Some 0]]) [] = None.
Proof. vm_compute. reflexivity. Qed.
