(* ===== verification/Mp4Types.v ===== *)
(** * The data of the MP4/MOV muxer: plugins/obs-outputs/mp4-mux-internal.h

    The structures of the muxer and the tables of the header (speaker positions,
    colour information, LPCM flags, QuickTime channel layouts). *)

From S2P Require Import Prelude Encoder.

Local Open Scope Z_scope.

(** ** mp4-mux.h *)

Inductive mp4_flavor := FLAVOR_MP4 | FLAVOR_MOV | FLAVOR_CMAF.

#[global] Instance mp4_flavor_eq_dec : EqDecision mp4_flavor.
Proof. solve_decision. Defined.

(** [enum mp4_mux_flags], a bit set; one boolean per flag. *)
Record mp4_mux_flags := mk_flags {
  MP4_USE_MDTA_KEY_VALUE : bool;
  MP4_WRITE_ENCODER_INFO : bool;
  MP4_SKIP_FINALISATION : bool;
  MP4_USE_NEGATIVE_CTS : bool
}.

(** ** mp4-mux-internal.h *)

Inductive mp4_track_type := TRACK_UNKNOWN | TRACK_VIDEO | TRACK_AUDIO | TRACK_CHAPTERS.

Inductive mp4_codec :=
  CODEC_UNKNOWN
| CODEC_H264 | CODEC_HEVC | CODEC_AV1 | CODEC_PRORES
| CODEC_AAC | CODEC_OPUS | CODEC_FLAC | CODEC_ALAC
| CODEC_PCM_I16 | CODEC_PCM_I24 | CODEC_PCM_F32
| CODEC_TEXT.

#[global] Instance mp4_track_type_eq_dec : EqDecision mp4_track_type.
Proof. solve_decision. Defined.
#[global] Instance mp4_codec_eq_dec : EqDecision mp4_codec.
Proof. solve_decision. Defined.

Record chunk := mk_chunk { chk_offset : Z; chk_size : Z; chk_samples : Z }.
Record sample_delta := mk_delta { delta_count : Z; delta_delta : Z }.
Record sample_offset := mk_offset { off_count : Z; off_offset : Z }.
Record fragment_sample := mk_frag_sample { smp_size : Z; smp_offset : Z; smp_duration : Z }.

(** [struct mp4_track]; dynamic arrays and the packet deque are lists. *)
Record mp4_track := mk_track {
  trk_type : mp4_track_type;
  trk_codec : mp4_codec;
  track_id : Z;
  samples : Z;
  duration : Z;
  trk_encoder : option obs_encoder;
  timebase_num : Z;
  timebase_den : Z;
  timescale : Z;
  first_pts : Z;
  last_pts_usec : Z;
  packets : list encoder_packet;
  sample_size : Z;
  sample_sizes : list Z;
  chunks : list chunk;
  deltas : list sample_delta;
  needs_ctts : bool;
  dts_offset : Z;
  offsets : list sample_offset;
  sync_samples : list Z;
  fragment_samples : list fragment_sample
}.

(** [struct mp4_mux] without its serializer and output handles. *)
Record mp4_mux := mk_mux {
  flavor : mp4_flavor;
  flags : mp4_mux_flags;
  fragments_written : Z;
  next_frag_pts : Z;
  creation_time : Z;
  placeholder_offset : Z;
  track_ctr : Z;
  tracks : list mp4_track;
  chapter_track : option mp4_track
}.

(** What the muxer reads from the rest of the program: the version string, the
    (truncated) HDR nominal peak level, the localised name of the first chapter, and the
    address at which a buffer lives (only its alignment is used, see Nal.v). *)
Record mp4_env := mk_env {
  env_version_string : bytes;
  env_hdr_nominal_peak : Z;
  env_start_chapter : bytes;
  env_address : bytes → Z
}.

Definition UNITY_MATRIX : list Z := [65536; 0; 0; 0; 65536; 0; 0; 0; 1073741824].

(** [enum tfhd_flags], [enum trun_flags], [enum sample_flags]. *)
Definition BASE_DATA_OFFSET_PRESENT : Z := 1.
Definition DEFAULT_SAMPLE_DURATION_PRESENT : Z := 8.
Definition DEFAULT_SAMPLE_SIZE_PRESENT : Z := 16.
Definition DEFAULT_SAMPLE_FLAGS_PRESENT : Z := 32.
Definition DATA_OFFSET_PRESENT : Z := 1.
Definition FIRST_SAMPLE_FLAGS_PRESENT : Z := 4.
Definition SAMPLE_SIZE_PRESENT : Z := 512.
Definition SAMPLE_COMPOSITION_TIME_OFFSETS_PRESENT : Z := 2048.
Definition SAMPLE_FLAG_IS_NON_SYNC : Z := 65536.
Definition SAMPLE_FLAG_DEPENDS_YES : Z := 16777216.
Definition SAMPLE_FLAG_DEPENDS_NO : Z := 33554432.

(** [get_speaker_positions]: the channel map and the ISO layout, 0 when the layout
    has none. *)
Definition get_speaker_positions (layout : speaker_layout) : bytes * Z :=
  match layout with
  | SPEAKERS_MONO => ([2], 1)
  | SPEAKERS_UNKNOWN | SPEAKERS_STEREO => ([0; 1], 2)
  | SPEAKERS_2POINT1 => ([0; 1; 3], 0)
  | SPEAKERS_4POINT0 => ([0; 1; 2; 10], 4)
  | SPEAKERS_4POINT1 => ([0; 1; 2; 3; 10], 0)
  | SPEAKERS_5POINT1 => ([0; 1; 2; 3; 8; 9], 0)
  | SPEAKERS_7POINT1 => ([0; 1; 2; 3; 8; 9; 13; 14], 12)
  end.

(** [get_colour_information]: primaries, transfer, matrix, full-range flag. *)
Definition get_colour_information (info : video_t) : Z * Z * Z * Z :=
  let full_range := match range info with VIDEO_RANGE_FULL => 1 | _ => 0 end in
  match colorspace info with
  | VIDEO_CS_601 => (6, 6, 6, full_range)
  | VIDEO_CS_DEFAULT | VIDEO_CS_709 => (1, 1, 1, full_range)
  | VIDEO_CS_SRGB => (1, 13, 1, full_range)
  | VIDEO_CS_2100_PQ => (9, 16, 9, full_range)
  | VIDEO_CS_2100_HLG => (9, 18, 9, full_range)
  end.

Definition TEXT_STUB_HEADER : bytes :=
  [0; 0; 0; 1;  0; 0;  0; 0; 0; 0;
   0; 0; 0; 0;  0; 0; 0; 0;
   0; 0; 0; 0;  0; 1;  0; 0;  0; 0; 0; 0;
   0; 0; 0; 13] ++ str "ftab" ++ [0; 1;  0; 1;  0].

Definition CHAPTER_PKT_FOOTER : bytes := [0; 0; 0; 12] ++ str "encd" ++ [0; 0; 1; 0].

(** kLinearPCMFormatFlag: IsFloat 1, IsSignedInteger 4, IsPacked 8. *)
Definition get_lpcm_flags (codec : mp4_codec) : Z :=
  match codec with
  | CODEC_PCM_F32 => Z.lor 1 8
  | CODEC_PCM_I16 | CODEC_PCM_I24 => Z.lor 4 8
  | _ => 0
  end.

(** [enum channel_map_bits]. *)
Definition FL : Z := 1.
Definition FR : Z := 2.
Definition FC : Z := 4.
Definition LFE : Z := 8.
Definition RL : Z := 16.
Definition RR : Z := 32.
Definition RC : Z := 256.
Definition SL : Z := 512.
Definition SR : Z := 1024.

Definition get_mov_channel_bitmap (layout : speaker_layout) : Z :=
  let or := foldr Z.lor 0 in
  match layout with
  | SPEAKERS_MONO => FC
  | SPEAKERS_STEREO => or [FL; FR]
  | SPEAKERS_2POINT1 => or [FL; FR; LFE]
  | SPEAKERS_4POINT0 => or [FL; FR; FC; RC]
  | SPEAKERS_4POINT1 => or [FL; FR; FC; LFE; RC]
  | SPEAKERS_5POINT1 => or [FL; FR; FC; LFE; RL; RR]
  | SPEAKERS_7POINT1 => or [FL; FR; FC; LFE; RL; RR; SL; SR]
  | SPEAKERS_UNKNOWN => 0
  end.

Definition kAudioChannelLayoutTag_UseChannelBitmap : Z := 2 ^ 16.
Definition kAudioChannelLayoutTag_Mono : Z := 100 * 2 ^ 16 + 1.
Definition kAudioChannelLayoutTag_Stereo : Z := 101 * 2 ^ 16 + 2.
Definition kAudioChannelLayoutTag_DVD_4 : Z := 133 * 2 ^ 16 + 3.

Definition get_mov_channel_layout (codec : mp4_codec) (layout : speaker_layout) : Z :=
  match layout with
  | SPEAKERS_MONO => kAudioChannelLayoutTag_Mono
  | SPEAKERS_STEREO => kAudioChannelLayoutTag_Stereo
  | SPEAKERS_2POINT1 =>
      if decide (codec = CODEC_AAC) then kAudioChannelLayoutTag_DVD_4
      else kAudioChannelLayoutTag_UseChannelBitmap
  | _ => kAudioChannelLayoutTag_UseChannelBitmap
  end.

(** ** Selectors used by the writers *)

Definition is_pcm (c : mp4_codec) : bool :=
  match c with CODEC_PCM_I16 | CODEC_PCM_I24 | CODEC_PCM_F32 => true | _ => false end.
Definition is_video (t : mp4_track) : bool :=
  match trk_type t with TRACK_VIDEO => true | _ => false end.
Definition is_audio (t : mp4_track) : bool :=
  match trk_type t with TRACK_AUDIO => true | _ => false end.
Definition is_mov (m : mp4_mux) : bool :=
  match flavor m with FLAVOR_MOV => true | _ => false end.
