(* ===== verification/Mp4Box.v ===== *)
(** * ISO-BMFF boxes: the box helpers of plugins/obs-outputs/mp4-mux.c

    [write_box], [write_fullbox] and [write_box_size] as the muxer has them; the
    abstract box tree with its encoding and a reader; and the rules by which the
    writers of the other files are proved to write a tree of a given shape. *)

From S2P Require Import Prelude Serializer.

Set Warnings "-register-all".

Local Open Scope Z_scope.
Local Open Scope serializer_scope.

(** ** The helpers *)

Section helpers.
Context {S : Type} `{SerializerOps S}.

Definition write_box_size (start : Z) : W S Z :=
  end_ <- serializer_get_pos ;;
  let size := u64 (end_ - start) in
  serializer_seek start SERIALIZE_SEEK_START ;;;
  s_wb32 (u32 size) ;;;
  serializer_seek end_ SERIALIZE_SEEK_START ;;;
  ret size.

Definition write_box (size : Z) (name : bytes) : W S unit :=
  if size <=? UINT32_MAX then
    s_wb32 (u32 size) ;;; s_put name
  else
    s_wb32 1 ;;; s_put name ;;; s_wb64 size.

Definition write_fullbox (size : Z) (name : bytes) (version flags : Z) : W S unit :=
  write_box size name ;;; s_w8 version ;;; s_wb24 flags.
End helpers.

(** ** Box trees *)

(** A box: its type, its own fields, and the boxes it contains after them. *)
Inductive box_tree := Box (name : bytes) (fields : bytes) (kids : list box_tree).

Fixpoint enc (t : box_tree) : bytes :=
  match t with
  | Box name fields kids =>
      let payload := fields ++ concat (map enc kids) in
      be32 (8 + zlen payload) ++ name ++ payload
  end.

Definition enc_all (ts : list box_tree) : bytes := concat (map enc ts).

Definition box_name (t : box_tree) : bytes := let 'Box n _ _ := t in n.
Definition box_payload (t : box_tree) : bytes :=
  let 'Box _ f k := t in f ++ enc_all k.

(** The nesting of the box types, without the fields. *)
Inductive skel := Sk (name : bytes) (kids : list skel).

Fixpoint skel_of (t : box_tree) : skel :=
  match t with Box name _ kids => Sk name (map skel_of kids) end.

(** A reader of the byte stream: the first box, then the bytes after it. *)
Definition next_box (bs : bytes) : option (bytes * bytes * bytes) :=
  let size := be_val (take 4 bs) in
  if (size <? 8) || (zlen bs <? size) then None
  else Some (sub 4 4 bs, sub 8 (size - 8) bs, drop (Z.to_nat size) bs).

Fixpoint read_boxes (fuel : nat) (bs : bytes) : option (list (bytes * bytes)) :=
  match bs, fuel with
  | [], _ => Some []
  | _, O => None
  | _, S fuel =>
      '(n, payload, rest) ← next_box bs;
      l ← read_boxes fuel rest; Some ((n, payload) :: l)
  end.

Lemma enc_unfold t : enc t = be32 (8 + zlen (box_payload t)) ++ box_name t ++ box_payload t.
Proof. by destruct t. Qed.

Lemma enc_len t : zlen (box_name t) = 4 → zlen (enc t) = 8 + zlen (box_payload t).
Proof. rewrite enc_unfold. intros. len_lia. Qed.

Lemma enc_all_one t : enc_all [t] = enc t.
Proof. apply app_nil_r. Qed.

Lemma enc_leaf name fields :
  enc (Box name fields []) = be32 (8 + zlen fields) ++ name ++ fields.
Proof. cbn [enc map concat]. by rewrite app_nil_r. Qed.

(** Reading back an encoded box gives its type and payload. *)
Lemma next_box_enc t rest :
  zlen (box_name t) = 4 → zlen (enc t) < 2 ^ 32 →
  next_box (enc t ++ rest) = Some (box_name t, box_payload t, rest).
Proof.
  intros Hn Hs. rewrite enc_len in Hs by done. rewrite enc_unfold.
  set (n := box_name t) in *. set (pl := box_payload t) in *.
  pose proof (zlen_nonneg pl). pose proof (zlen_nonneg rest).
  unfold next_box. rewrite <- !app_assoc.
  rewrite (take_app_le (be32 _) _ 4) by done. rewrite firstn_all2 by done.
  rewrite be32_val. wrap_small.
  rewrite (proj2 (Z.ltb_ge _ 8)), (proj2 (Z.ltb_ge _ _)) by len_lia. simpl orb. cbv iota.
  f_equal. f_equal; [f_equal|].
  - change 4 with (zlen (be32 (8 + zlen pl))) at 1. rewrite <- Hn. apply sub_app_mid.
  - rewrite (app_assoc (be32 _) n). replace (8 + zlen pl - 8) with (zlen pl) by lia.
    replace 8 with (zlen (be32 (8 + zlen pl) ++ n)) at 1 by len_lia. apply sub_app_mid.
  - rewrite !app_assoc. replace (8 + zlen pl) with (zlen ((be32 (8 + zlen pl) ++ n) ++ pl)) at 1
      by len_lia. rewrite zlen_to_nat. apply drop_app_length.
Qed.

(** A sequence of boxes is read back as the sequence of their types and payloads. *)
Lemma read_boxes_enc ts fuel :
  Forall (λ t, zlen (box_name t) = 4 ∧ zlen (enc t) < 2 ^ 32) ts → (length ts ≤ fuel)%nat →
  read_boxes fuel (enc_all ts) = Some (map (λ t, (box_name t, box_payload t)) ts).
Proof.
  intros HF. revert fuel. induction HF as [|t ts [Hn Hs] _ IH]; intros fuel Hf.
  - by destruct fuel.
  - destruct fuel as [|fuel]; simpl in Hf; [lia|].
    assert (∃ x l, enc_all (t :: ts) = x :: l) as (x & l & E).
    { unfold enc_all; simpl. rewrite enc_unfold. unfold be32, be16; simpl. eauto. }
    cbn [read_boxes]. rewrite E, <- E. unfold enc_all; cbn [map concat].
    change (concat (map enc ts)) with (enc_all ts).
    rewrite next_box_enc by done. simpl. by rewrite IH by lia.
Qed.

(** ** Rules for writers *)

Section rules.
Context {S : Type} `{AppendSerializer S}.

(** [fldn n m]: [m] appends exactly [n] bytes. *)
Definition fldn {A} (n : Z) (m : W S A) : Prop :=
  ∀ p, 0 ≤ p → ∃ bs r, emits p m bs r ∧ zlen bs = n.

(** [fld m]: [m] appends some bytes. *)
Definition fld {A} (m : W S A) : Prop := ∀ p, 0 ≤ p → ∃ bs r, emits p m bs r.

(** [wskel m sks]: [m] appends encoded boxes of shapes [sks]. *)
Definition wskel {A} (m : W S A) (sks : list skel) : Prop :=
  ∀ p, 0 ≤ p → ∃ ts r, emits p m (enc_all ts) r ∧ map skel_of ts = sks.

(** Inside a box opened at [b]: [m] completes the box, whose fields ([openf]) or
    whose contained boxes ([openk]) are still being written. *)
Definition openf {A} (b : Z) (name : bytes) (m : W S A) (sk : skel) : Prop :=
  ∀ body, ∃ t r, runs b (be32 0 ++ name ++ body) m (enc t) r ∧ skel_of t = sk.
Definition openk {A} (b : Z) (name : bytes) (sks : list skel) (m : W S A) (sk : skel) : Prop :=
  ∀ body kids, map skel_of kids = sks →
    ∃ t r, runs b (be32 0 ++ name ++ body ++ enc_all kids) m (enc t) r ∧ skel_of t = sk.

(** *** Fields *)

Lemma fldn_fld {A} n (m : W S A) : fldn n m → fld m.
Proof. intros F p Hp. destruct (F p Hp) as (bs & r & E & _). eauto. Qed.

Lemma fldn_eq {A} n n' (m : W S A) : fldn n' m → n = n' → fldn n m.
Proof. by intros ? ->. Qed.

Lemma fldn_bind {A B} n n' (m : W S A) (k : A → W S B) :
  fldn n m → (∀ x, fldn n' (k x)) → fldn (n + n') (bind m k).
Proof.
  intros F G p Hp. destruct (F p Hp) as (bs & r & E & L).
  destruct (G r (p + zlen bs)) as (bs' & r' & E' & L'); [len_lia|].
  exists (bs ++ bs'), r'. split; [|len_lia]. by eapply emits_seq.
Qed.

Lemma fld_bind {A B} (m : W S A) (k : A → W S B) :
  fld m → (∀ x, fld (k x)) → fld (bind m k).
Proof.
  intros F G p Hp. destruct (F p Hp) as (bs & r & E).
  destruct (G r (p + zlen bs)) as (bs' & r' & E'); [len_lia|].
  exists (bs ++ bs'), r'. by eapply emits_seq.
Qed.

Lemma fldn_w8 v : fldn 1 (s_w8 v).
Proof. intros p _. exists [u8 v], tt. auto with emits. Qed.
Lemma fldn_wb16 v : fldn 2 (s_wb16 v).
Proof. intros p _. exists (be16 v), tt. auto with emits. Qed.
Lemma fldn_wb24 v : fldn 3 (s_wb24 v).
Proof. intros p _. exists (be24 v), tt. auto with emits. Qed.
Lemma fldn_wb32 v : fldn 4 (s_wb32 v).
Proof. intros p _. exists (be32 v), tt. auto with emits. Qed.
Lemma fldn_wb64 v : fldn 8 (s_wb64 v).
Proof. intros p _. exists (be64 v), tt. auto with emits. Qed.
Lemma fldn_ret {A} (a : A) : fldn 0 (ret a).
Proof. intros p _. exists [], a. auto with emits. Qed.
Lemma fld_deref {A} (o : option A) : is_Some o → fld (deref o).
Proof. intros [a ->] p _. exists [], a. by apply emits_deref. Qed.

Lemma fldn_put data : fldn (zlen data) (s_put data).
Proof. intros p _. exists data, tt. auto with emits. Qed.

Lemma fld_for_each {X} (xs : list X) (f : X → W S unit) :
  Forall (λ x, fld (f x)) xs → fld (for_each xs f).
Proof.
  induction 1 as [|x xs F _ IH]; simpl; [apply (fldn_fld 0), fldn_ret|].
  by apply fld_bind.
Qed.

Lemma fldn_for_each {X} n (xs : list X) (f : X → W S unit) :
  (∀ x, fldn n (f x)) → fldn (n * zlen xs) (for_each xs f).
Proof.
  intros F. induction xs as [|x xs IH]; simpl.
  - eapply fldn_eq; [apply fldn_ret|len_lia].
  - eapply fldn_eq; [by apply fldn_bind|len_lia].
Qed.

(** *** Boxes *)

Lemma emits_write_box p size name : 0 ≤ size ≤ UINT32_MAX →
  emits p (write_box size name) (be32 size ++ name) tt.
Proof.
  intros. unfold write_box, UINT32_MAX in *. rewrite (proj2 (Z.leb_le _ _)) by lia. wrap_small.
  eapply emits_seq; eauto with emits.
Qed.

Lemma runs_get_pos b pre : runs b pre serializer_get_pos pre (b + zlen pre).
Proof.
  rewrite <- (app_nil_r pre) at 2. eapply runs_frame; [|apply emits_get_pos]. done.
Qed.

(** The size of a box is patched in when the box is complete, and returned. *)
Lemma runs_close b name pl :
  zlen name = 4 →
  runs b (be32 0 ++ name ++ pl) (write_box_size b) (be32 (8 + zlen pl) ++ name ++ pl)
    (u64 (8 + zlen pl)).
Proof.
  intros Hn. unfold write_box_size. eapply runs_bind; [apply runs_get_pos|].
  replace (b + zlen (be32 0 ++ name ++ pl) - b) with (8 + zlen pl) by len_lia.
  pose proof (runs_patch b [] (be32 0) (name ++ pl) (s_wb32 (u32 (u64 (8 + zlen pl))))
    (be32 (8 + zlen pl)) (ret (u64 (8 + zlen pl))) (be32 (8 + zlen pl) ++ name ++ pl)
    (u64 (8 + zlen pl))) as P.
  rewrite Z.add_0_r in P. apply P; [|done|apply runs_ret].
  eapply puts_eq; [apply puts_wb32|]. unfold u32, u64. by rewrite !be32_mod by lia.
Qed.

(** Opening a box. *)
Lemma wskel_box name (k : Z → W S Z) sk : zlen name = 4 →
  (∀ b, 0 ≤ b → openf b name (k b) sk) →
  wskel (start <- serializer_get_pos ;; write_box 0 name ;;; k start) [sk].
Proof.
  intros Hn O p Hp. destruct (O p Hp []) as (t & r & R & E).
  exists [t], r. split; [|by simpl; rewrite E].
  rewrite enc_all_one.
  eapply runs_bind; [apply emits_get_pos|]. eapply runs_bind.
  - apply emits_write_box. unfold UINT32_MAX; lia.
  - by rewrite app_nil_r in R.
Qed.

Lemma wskel_fullbox name version flags (k : Z → W S Z) sk : zlen name = 4 →
  (∀ b, 0 ≤ b → openf b name (k b) sk) →
  wskel (start <- serializer_get_pos ;; write_fullbox 0 name version flags ;;; k start) [sk].
Proof.
  intros Hn O p Hp. destruct (O p Hp (u8 version :: be24 flags)) as (t & r & R & E).
  exists [t], r. split; [|by simpl; rewrite E].
  rewrite enc_all_one.
  eapply runs_bind; [apply emits_get_pos|]. unfold write_fullbox.
  eapply runs_bind; [|exact R]. rewrite app_assoc.
  eapply emits_seq; [apply emits_write_box; unfold UINT32_MAX; lia|done|].
  change (u8 version :: be24 flags) with ([u8 version] ++ be24 flags).
  eapply emits_seq; eauto with emits.
Qed.

Lemma openf_close b name : zlen name = 4 → openf b name (write_box_size b) (Sk name []).
Proof.
  intros Hn body. exists (Box name body []), (u64 (8 + zlen body)). split; [|done].
  rewrite enc_leaf. by apply runs_close.
Qed.

Lemma openk_close b name sks : zlen name = 4 → openk b name sks (write_box_size b) (Sk name sks).
Proof.
  intros Hn body kids <-. exists (Box name body kids), (u64 (8 + zlen (body ++ enc_all kids))).
  split; [|done]. by apply runs_close.
Qed.

(** Writing a field. *)
Lemma openf_field {A B} b name (m : W S A) (k : A → W S B) sk :
  0 ≤ b → fld m → (∀ x, openf b name (k x) sk) → openf b name (bind m k) sk.
Proof.
  intros Hb F O body. set (pre := be32 0 ++ name ++ body).
  destruct (F (b + zlen pre)) as (bs & x & E); [len_lia|].
  destruct (O x (body ++ bs)) as (t & r & R & Sk). exists t, r. split; [|done].
  eapply runs_seq; [reflexivity|exact E|]. unfold pre. by rewrite <- !app_assoc.
Qed.

Lemma openf_deref {A B} b name (o : option A) x (k : A → W S B) sk :
  o = Some x → openf b name (k x) sk → openf b name (bind (deref o) k) sk.
Proof. intros -> O. exact O. Qed.

(** From the fields to the contained boxes. *)
Lemma openf_openk {A} b name (m : W S A) sk : openk b name [] m sk → openf b name m sk.
Proof. intros O body. destruct (O body [] eq_refl) as (t & r & R). rewrite app_nil_r in R. eauto. Qed.

(** Writing contained boxes. *)
Lemma openk_kid {A B} b name sks sks' (m : W S A) (k : A → W S B) sk :
  0 ≤ b → wskel m sks' → (∀ x, openk b name (sks ++ sks') (k x) sk) →
  openk b name sks (bind m k) sk.
Proof.
  intros Hb F O body kids <-. set (pre := be32 0 ++ name ++ body ++ enc_all kids).
  destruct (F (b + zlen pre)) as (ts & x & E & Hts); [len_lia|].
  destruct (O x body (kids ++ ts)) as (t & r & R & Sk).
  { by rewrite map_app, Hts. }
  exists t, r. split; [|done]. eapply runs_seq; [reflexivity|exact E|].
  unfold pre. unfold enc_all in *. rewrite map_app, concat_app in R. by rewrite <- !app_assoc.
Qed.

Lemma wskel_ret {A} (a : A) : wskel (ret a) [].
Proof. intros p _. exists [], a. split; [apply emits_ret|done]. Qed.

Lemma wskel_bind {A B} (m : W S A) (k : A → W S B) s1 s2 :
  wskel m s1 → (∀ x, wskel (k x) s2) → wskel (bind m k) (s1 ++ s2).
Proof.
  intros F G p Hp. destruct (F p Hp) as (t1 & x & E1 & H1).
  destruct (G x (p + zlen (enc_all t1))) as (t2 & r & E2 & H2); [len_lia|].
  exists (t1 ++ t2), r. rewrite map_app, H1, H2. split; [|done].
  unfold enc_all in *. rewrite map_app, concat_app. by eapply emits_seq.
Qed.

Lemma wskel_bind_ret {A B} (m : W S A) (f : A → B) sks :
  wskel m sks → wskel (bind m (λ x, ret (f x))) sks.
Proof.
  intros F. rewrite <- (app_nil_r sks). apply wskel_bind; [done|]. intros; apply wskel_ret.
Qed.

Lemma wskel_eq {A} (m : W S A) s1 s2 : wskel m s2 → s1 = s2 → wskel m s1.
Proof. by intros ? ->. Qed.

Lemma wskel_for_each {X} (xs : list X) (f : X → W S unit) (sk : X → list skel) :
  Forall (λ x, wskel (f x) (sk x)) xs → wskel (for_each xs f) (concat (map sk xs)).
Proof.
  induction 1 as [|x xs F _ IH]; simpl; [apply wskel_ret|]. by apply wskel_bind.
Qed.

(** A box whose size is written up front and must match what follows. *)
Lemma wskel_sized {A} size name (k : W S A) :
  zlen name = 4 → 8 ≤ size ≤ UINT32_MAX → fldn (size - 8) k →
  wskel (write_box size name ;;; k) [Sk name []].
Proof.
  intros Hn Hs F p Hp. destruct (F (p + 8)) as (bs & r & E & L); [lia|].
  exists [Box name bs []], r. split; [|done]. rewrite enc_all_one, enc_leaf, L.
  replace (8 + (size - 8)) with size by lia. rewrite app_assoc.
  eapply emits_seq; [apply emits_write_box; lia| |exact E]. len_lia.
Qed.

Lemma bind_assoc_emits {A B C} p (m : W S A) (f : A → W S B) (g : B → W S C) bs a :
  emits p (bind m (λ x, bind (f x) g)) bs a → emits p (bind (bind m f) g) bs a.
Proof.
  intros [L R]. split; [done|]. intros s c Hc Hs Hp. destruct (R s c Hc Hs Hp) as (s' & E & Hs').
  exists s'. split; [|done]. revert E. unfold bind. by destruct (m s) as [[x s1]|].
Qed.

Lemma wskel_sized_full {A} size name version flags (k : W S A) :
  zlen name = 4 → 12 ≤ size ≤ UINT32_MAX → fldn (size - 12) k →
  wskel (write_fullbox size name version flags ;;; k) [Sk name []].
Proof.
  intros Hn Hs F p Hp.
  destruct (wskel_sized size name (s_w8 version ;;; s_wb24 flags ;;; k) Hn ltac:(lia)) with (p := p)
    as (ts & r & E & Hts); [|done|].
  - eapply fldn_eq; [apply fldn_bind; [apply fldn_w8|intros _; apply fldn_bind;
      [apply fldn_wb24|intros _; exact F]]|lia].
  - exists ts, r. split; [|done]. unfold write_fullbox. apply bind_assoc_emits.
    destruct E as [L R]. split; [done|]. intros s c Hc Hs' Hp'.
    destruct (R s c Hc Hs' Hp') as (s' & E & H'). exists s'. split; [|done]. revert E.
    unfold bind. destruct (write_box size name s) as [[[] s1]|]; [|done].
    by destruct (s_w8 version s1) as [[[] s2]|].
Qed.
Lemma emits_ext {A} p (m m' : W S A) bs a :
  (∀ s, m s = m' s) → emits p m' bs a → emits p m bs a.
Proof. intros E [L R]. split; [done|]. intros s. rewrite E. apply R. Qed.

Lemma wskel_ext {A} (m m' : W S A) sks : (∀ s, m s = m' s) → wskel m' sks → wskel m sks.
Proof.
  intros E F p Hp. destruct (F p Hp) as (ts & r & R & H'). exists ts, r. split; [|done].
  by eapply emits_ext.
Qed.

(** A value computed between the start of a box and its header. *)
Lemma wskel_pre_deref {A B} (o : option A) a (k : Z → A → W S B) sks : o = Some a →
  wskel (start <- serializer_get_pos ;; k start a) sks →
  wskel (start <- serializer_get_pos ;; x <- deref o ;; k start x) sks.
Proof. intros ->. by apply wskel_ext. Qed.

Lemma wskel_pre_ret {A B} (a : A) (k : Z → A → W S B) sks :
  wskel (start <- serializer_get_pos ;; k start a) sks →
  wskel (start <- serializer_get_pos ;; x <- ret a ;; k start x) sks.
Proof. by apply wskel_ext. Qed.

Lemma wskel_deref {A B} (o : option A) a (k : A → W S B) sks : o = Some a →
  wskel (k a) sks → wskel (x <- deref o ;; k x) sks.
Proof. intros ->. by apply wskel_ext. Qed.

Lemma wskel_ret_bind {A B} (a : A) (k : A → W S B) sks :
  wskel (k a) sks → wskel (x <- ret a ;; k x) sks.
Proof. by apply wskel_ext. Qed.

Lemma wskel_sized_ret {A B} size name (m : W S A) (b : B) (k : A → W S B) :
  (∀ x, k x = ret b) → zlen name = 4 → 8 ≤ size ≤ UINT32_MAX → fldn (size - 8) m →
  wskel (write_box size name ;;; x <- m ;; k x) [Sk name []].
Proof.
  intros E Hn Hs F. apply wskel_sized; [done..|]. eapply fldn_eq; [apply fldn_bind; [exact F|]|].
  - intros x. rewrite E. apply fldn_ret.
  - lia.
Qed.

(** *** Exact contents *)

(** [writes m t]: [m] writes exactly the box [t]. *)
Definition writes {A} (m : W S A) (t : box_tree) : Prop :=
  ∀ p, 0 ≤ p → ∃ r, emits p m (enc t) r.

(** [appends m bs]: [m] appends exactly [bs] wherever the target ends. *)
Definition appends (m : W S unit) (bs : bytes) : Prop := ∀ p, 0 ≤ p → emits p m bs tt.

(** Inside a box opened at [b], [m] appends [bs] to the fields and closes the box. *)
Definition fills {A} (b : Z) (name : bytes) (m : W S A) (bs : bytes) : Prop :=
  ∀ body, ∃ r, runs b (be32 0 ++ name ++ body) m (enc (Box name (body ++ bs) [])) r.

Lemma writes_wskel {A} (m : W S A) name fields :
  writes m (Box name fields []) → wskel m [Sk name []].
Proof.
  intros F p Hp. destruct (F p Hp) as [r E]. exists [Box name fields []], r.
  by rewrite enc_all_one.
Qed.

Lemma appends_puts m bs : puts m bs → appends m bs.
Proof. intros P p _. by apply emits_puts. Qed.
Lemma appends_put bs : appends (s_put bs) bs.
Proof. intros p _. apply emits_put. Qed.
Lemma appends_ret : appends (ret tt) [].
Proof. intros p _. apply emits_ret. Qed.

Lemma appends_seq m1 m2 b1 b2 : appends m1 b1 → appends m2 b2 → appends (m1 ;;; m2) (b1 ++ b2).
Proof.
  intros A1 A2 p Hp. eapply emits_seq; [by apply A1|done|]. apply A2. len_lia.
Qed.

Lemma appends_deref {A} (o : option A) a k bs : o = Some a → appends (k a) bs → appends (x <- deref o ;; k x) bs.
Proof. intros -> K. exact K. Qed.

Lemma appends_for_each {X} (xs : list X) (f : X → W S unit) (g : X → bytes) :
  Forall (λ x, appends (f x) (g x)) xs → appends (for_each xs f) (concat (map g xs)).
Proof. induction 1 as [|x xs F _ IH]; [apply appends_ret|]. by apply appends_seq. Qed.

Lemma appends_eq m bs bs' : appends m bs' → bs = bs' → appends m bs.
Proof. by intros ? ->. Qed.

Lemma fills_close b name : zlen name = 4 → fills b name (write_box_size b) [].
Proof.
  intros Hn body. exists (u64 (8 + zlen body)). rewrite app_nil_r, enc_leaf. by apply runs_close.
Qed.

Lemma fills_field {A} b name m bs bs' (k : W S A) :
  0 ≤ b → appends m bs → fills b name k bs' → fills b name (m ;;; k) (bs ++ bs').
Proof.
  intros Hb F K body. destruct (K (body ++ bs)) as (r & R). exists r.
  eapply runs_seq; [reflexivity|apply F; len_lia|].
  rewrite <- !app_assoc in *. exact R.
Qed.

Lemma writes_fullbox {A} name version flags (k : Z → W S A) bs : zlen name = 4 →
  (∀ b, 0 ≤ b → fills b name (k b) bs) →
  writes (start <- serializer_get_pos ;; write_fullbox 0 name version flags ;;; k start)
    (Box name (u8 version :: be24 flags ++ bs) []).
Proof.
  intros Hn F p Hp. destruct (F p Hp (u8 version :: be24 flags)) as (r & R). exists r.
  eapply runs_bind; [apply emits_get_pos|]. unfold write_fullbox.
  eapply runs_bind; [|exact R]. rewrite app_assoc.
  eapply emits_seq; [apply emits_write_box; unfold UINT32_MAX; lia|done|].
  change (u8 version :: be24 flags) with ([u8 version] ++ be24 flags).
  eapply emits_seq; eauto with emits.
Qed.

Lemma writes_sized_full size name version flags m bs :
  zlen name = 4 → size = 12 + zlen bs → size ≤ UINT32_MAX → appends m bs →
  writes (write_fullbox size name version flags ;;; m ;;; ret size)
    (Box name (u8 version :: be24 flags ++ bs) []).
Proof.
  intros Hn Hs Hm F p Hp. exists size. rewrite enc_leaf. unfold write_fullbox.
  eapply emits_eq.
  - eapply emits_seq; [|reflexivity|].
    + eapply emits_seq; [apply emits_write_box; len_lia|reflexivity|].
      eapply emits_seq; [eauto with emits|reflexivity|eauto with emits].
    + eapply emits_seq; [apply F; len_lia|reflexivity|apply emits_ret].
  - replace (8 + zlen (u8 version :: be24 flags ++ bs)) with size by len_lia.
    rewrite app_nil_r. by rewrite <- !app_assoc.
Qed.

Lemma writes_sized2 size name version flags m1 m2 b1 b2 :
  zlen name = 4 → size = 12 + zlen b1 + zlen b2 → size ≤ UINT32_MAX →
  appends m1 b1 → appends m2 b2 →
  writes (write_fullbox size name version flags ;;; m1 ;;; m2 ;;; ret size)
    (Box name (u8 version :: be24 flags ++ b1 ++ b2) []).
Proof.
  intros Hn Hs Hm F1 F2 p Hp.
  destruct (writes_sized_full size name version flags (m1 ;;; m2) (b1 ++ b2) Hn ltac:(len_lia) Hm
    (appends_seq _ _ _ _ F1 F2) p Hp) as (r & R).
  exists r. eapply emits_ext; [|exact R]. intros s. unfold bind. by repeat case_match.
Qed.

Lemma writes_ext {A} (m m' : W S A) t : (∀ s, m s = m' s) → writes m' t → writes m t.
Proof. intros E F p Hp. destruct (F p Hp) as (r & R). exists r. by eapply emits_ext. Qed.

Lemma writes_deref {A B} (o : option A) a (k : A → W S B) t :
  o = Some a → writes (k a) t → writes (x <- deref o ;; k x) t.
Proof. intros ->. by apply writes_ext. Qed.
End rules.

#[export] Hint Resolve appends_put appends_ret : emits.

(** [flds]: the bytes a sequence of plain fields appends. *)
Ltac appends_step :=
  lazymatch goal with
  | |- appends (s_w8 _) _ => apply appends_puts, puts_w8
  | |- appends (s_wb16 _) _ => apply appends_puts, puts_wb16
  | |- appends (s_wb24 _) _ => apply appends_puts, puts_wb24
  | |- appends (s_wb32 _) _ => apply appends_puts, puts_wb32
  | |- appends (s_wb64 _) _ => apply appends_puts, puts_wb64
  | |- appends (s_put _) _ => apply appends_put
  | |- appends (ret tt) _ => apply appends_ret
  | |- appends (_ ;;; _) _ => apply appends_seq
  end.
Ltac flds := repeat appends_step.

(** ** Readers of tables *)

(** [n] records of [w] bytes. *)
Fixpoint read_n {A} (n : nat) (w : nat) (f : bytes → A) (bs : bytes) : list A :=
  match n with
  | O => []
  | S n => f (take w bs) :: read_n n w f (drop w bs)
  end.

Lemma read_n_concat {A B} (xs : list A) w (f : bytes → B) (g : A → bytes) rest :
  (∀ x, length (g x) = w) →
  read_n (length xs) w f (concat (map g xs) ++ rest) = map (λ x, f (g x)) xs.
Proof.
  intros Hw. induction xs as [|x xs IH]; [done|]. cbn [length map concat read_n].
  rewrite <- (Hw x), <- app_assoc, take_app_length, drop_app_length, (Hw x), IH. done.
Qed.

(** Version, flags, entry count and entries of a table box. *)
Definition read_table {A} (w : nat) (f : bytes → A) (payload : bytes) : list A :=
  read_n (Z.to_nat (be_val (sub 4 4 payload))) w f (drop 8 payload).

Lemma read_table_spec {A B} version (xs : list A) w (f : bytes → B) (g : A → bytes) :
  (∀ x, length (g x) = w) → zlen xs < 2 ^ 32 →
  read_table w f (u8 version :: be24 0 ++ be32 (zlen xs) ++ concat (map g xs)) = map (λ x, f (g x)) xs.
Proof.
  intros Hw Hl. unfold read_table. pose proof (zlen_nonneg xs).
  change (sub 4 4 (u8 version :: be24 0 ++ be32 (zlen xs) ++ concat (map g xs))) with (be32 (zlen xs)).
  rewrite be32_val. wrap_small. rewrite zlen_to_nat.
  change (drop 8 (u8 version :: be24 0 ++ be32 (zlen xs) ++ concat (map g xs))) with (concat (map g xs)).
  rewrite <- (app_nil_r (concat _)). by apply read_n_concat.
Qed.

(** Two 32-bit numbers; three. *)
Definition read_pair (bs : bytes) : Z * Z := (be_val (take 4 bs), be_val (drop 4 bs)).
Definition read_triple (bs : bytes) : Z * Z * Z :=
  (be_val (take 4 bs), be_val (sub 4 4 bs), be_val (drop 8 bs)).

Lemma read_pair_spec a b : read_pair (be32 a ++ be32 b) = (u32 a, u32 b).
Proof. unfold read_pair. change (take 4 _) with (be32 a). change (drop 4 _) with (be32 b). by rewrite !be32_val. Qed.

Lemma read_triple_spec a b c : read_triple (be32 a ++ be32 b ++ be32 c) = (u32 a, u32 b, u32 c).
Proof.
  unfold read_triple. change (take 4 _) with (be32 a). change (drop 8 _) with (be32 c).
  change (sub 4 4 _) with (be32 b). by rewrite !be32_val.
Qed.
