(* ===== verification/Mp4Header.v ===== *)
(** * File, movie and media headers: plugins/obs-outputs/mp4-mux.c, lines 80-471

    One definition per [mp4_write_*] function, in the order of the source, each
    returning the size the function returns. [env] and [mux] are the muxer's
    environment and state, which these functions only read. *)

From S2P Require Import Prelude Util Serializer Encoder Mp4Types Mp4Box.

Local Open Scope Z_scope.
Local Open Scope serializer_scope.

(** The first video track: [for (...) if (track->type == TRACK_VIDEO) { ...; break; }]. *)
Fixpoint first_video_track (ts : list mp4_track) : option mp4_track :=
  match ts with
  | [] => None
  | t :: ts => if is_video t then Some t else first_video_track ts
  end.

Section writers.
Context {S : Type} `{SerializerOps S} (mux : mp4_mux).

Definition mp4_write_ftyp (fragmented : bool) : W S Z :=
  start <- serializer_get_pos ;;
  write_box 0 (str "ftyp") ;;;
  (if is_mov mux then
     s_put (str "qt  ") ;;;
     s_wb32 538182144 ;;;
     s_put (str "qt  ")
   else
     let negative_cts := MP4_USE_NEGATIVE_CTS (flags mux) in
     let major_brand :=
       if negative_cts then (if fragmented then str "iso6" else str "iso4") else str "isom" in
     s_put major_brand ;;;
     s_wb32 0 ;;;
     s_put major_brand ;;;
     when negb (bool_decide (major_brand = str "isom")) do s_put (str "isom") ;;;
     (if fragmented && negb (bool_decide (major_brand = str "iso6"))
      then s_put (str "iso6") else s_put (str "obs1")) ;;;
     s_put (str "iso2") ;;;
     (match first_video_track (tracks mux) with
      | Some track => when bool_decide (trk_codec track = CODEC_H264) do s_put (str "avc1")
      | None => ret tt
      end) ;;;
     s_put (str "mp41")) ;;;
  write_box_size start.

(** 16 bytes, so that it can be replaced by a 64-bit box header. *)
Definition mp4_write_free : W S Z :=
  s_wb32 16 ;;;
  s_put (if is_mov mux then str "wide" else str "free") ;;;
  s_wb64 0 ;;;
  ret 16.

Definition mp4_write_mvhd : W S Z :=
  start <- serializer_get_pos ;;
  duration <- (match first_video_track (tracks mux) with
               | Some track => deref (mul_div64 (duration track) 1000 (timebase_den track))
               | None => ret 0
               end) ;;
  let extended_ts := (UINT32_MAX <? duration) || (UINT32_MAX <? creation_time mux) in
  write_fullbox 0 (str "mvhd") (if extended_ts then 1 else 0) 0 ;;;
  (if extended_ts then
     s_wb64 (creation_time mux) ;;;
     s_wb64 (creation_time mux) ;;;
     s_wb32 1000 ;;;
     s_wb64 duration
   else
     s_wb32 (u32 (creation_time mux)) ;;;
     s_wb32 (u32 (creation_time mux)) ;;;
     s_wb32 1000 ;;;
     s_wb32 (u32 duration)) ;;;
  s_wb32 65536 ;;;
  s_wb16 256 ;;;
  s_wb16 0 ;;;
  s_wb32 0 ;;;
  s_wb32 0 ;;;
  for_each UNITY_MATRIX s_wb32 ;;;
  s_wb32 0 ;;; s_wb32 0 ;;; s_wb32 0 ;;; s_wb32 0 ;;; s_wb32 0 ;;; s_wb32 0 ;;;
  s_wb32 (track_ctr mux + 1) ;;;
  write_box_size start.

Definition mp4_write_tkhd (track : mp4_track) : W S Z :=
  start <- serializer_get_pos ;;
  duration <- deref (mul_div64 (duration track) 1000 (timebase_den track)) ;;
  let extended_ts := (UINT32_MAX <? duration) || (UINT32_MAX <? creation_time mux) in
  write_fullbox 0 (str "tkhd") (if extended_ts then 1 else 0) (Z.lor 1 2) ;;;
  (if extended_ts then
     s_wb64 (creation_time mux) ;;;
     s_wb64 (creation_time mux) ;;;
     s_wb32 (track_id track) ;;;
     s_wb32 0 ;;;
     s_wb64 duration
   else
     s_wb32 (u32 (creation_time mux)) ;;;
     s_wb32 (u32 (creation_time mux)) ;;;
     s_wb32 (track_id track) ;;;
     s_wb32 0 ;;;
     s_wb32 (u32 duration)) ;;;
  s_wb32 0 ;;;
  s_wb32 0 ;;;
  s_wb16 0 ;;;
  s_wb16 (if is_audio track then 1 else 0) ;;;
  s_wb16 (if is_audio track then 256 else 0) ;;;
  s_wb16 0 ;;;
  for_each UNITY_MATRIX s_wb32 ;;;
  (if is_audio track then
     s_wb32 0 ;;;
     s_wb32 0
   else
     s_wb32 (u32 (Z.shiftl (u32 (obs_encoder_get_width (trk_encoder track))) 16)) ;;;
     s_wb32 (u32 (Z.shiftl (u32 (obs_encoder_get_height (trk_encoder track))) 16))) ;;;
  write_box_size start.

Definition mp4_write_mdhd (track : mp4_track) : W S Z :=
  duration <- (if is_video track
               then deref (mul_div64 (duration track) (timescale track) (timebase_den track))
               else ret (duration track)) ;;
  let long := (UINT32_MAX <? duration) || (UINT32_MAX <? creation_time mux) in
  let size := if long then 44 else 32 in
  let version := if long then 1 else 0 in
  write_fullbox size (str "mdhd") version 0 ;;;
  (if version =? 1 then
     s_wb64 (creation_time mux) ;;;
     s_wb64 (creation_time mux) ;;;
     s_wb32 (timescale track) ;;;
     s_wb64 (u32 duration)
   else
     s_wb32 (u32 (creation_time mux)) ;;;
     s_wb32 (u32 (creation_time mux)) ;;;
     s_wb32 (timescale track) ;;;
     s_wb32 (u32 duration)) ;;;
  s_wb16 (if is_mov mux then 32767 else 21956) ;;;
  s_wb16 0 ;;;
  ret size.

(** A null [track] is the data handler of MOV files. *)
Definition mp4_write_hdlr (track : option mp4_track) : W S Z :=
  start <- serializer_get_pos ;;
  write_fullbox 0 (str "hdlr") 0 0 ;;;
  (if is_mov mux then s_put (match track with Some _ => str "mhlr" | None => str "dhlr" end)
   else s_wb32 0) ;;;
  s_put (match track with
         | None => str "url "
         | Some t => match trk_type t with
                     | TRACK_VIDEO => str "vide"
                     | TRACK_CHAPTERS => str "text"
                     | _ => str "soun"
                     end
         end) ;;;
  s_wb32 0 ;;;
  s_wb32 0 ;;;
  s_wb32 0 ;;;
  let handler_name := match track with
                      | None => str "OBS Data Handler"
                      | Some t => match trk_type t with
                                  | TRACK_VIDEO => str "OBS Video Handler"
                                  | TRACK_CHAPTERS => str "OBS Chapter Handler"
                                  | _ => str "OBS Audio Handler"
                                  end
                      end in
  let handler_len := zlen handler_name in
  (if is_mov mux then
     s_w8 (u8 handler_len) ;;;
     s_put handler_name
   else
     s_put handler_name ;;;
     s_w8 0) ;;;
  write_box_size start.

(** The size returned is not that of the box (20); no caller uses it. *)
Definition mp4_write_vmhd : W S Z :=
  write_fullbox 20 (str "vmhd") 0 1 ;;;
  s_wb16 0 ;;; s_wb16 0 ;;; s_wb16 0 ;;; s_wb16 0 ;;;
  ret 16.

Definition mp4_write_smhd : W S Z :=
  write_fullbox 16 (str "smhd") 0 0 ;;;
  s_wb16 0 ;;; s_wb16 0 ;;;
  ret 16.

Definition mp4_write_qt_text : W S Z :=
  start <- serializer_get_pos ;;
  write_box 0 (str "text") ;;;
  s_wb16 1 ;;;
  s_wb32 0 ;;; s_wb32 0 ;;; s_wb32 0 ;;;
  s_wb32 1 ;;;
  s_wb32 0 ;;; s_wb32 0 ;;; s_wb32 0 ;;;
  s_wb32 16384 ;;;
  s_wb16 0 ;;;
  write_box_size start.

Definition mp4_write_gmin : W S Z :=
  start <- serializer_get_pos ;;
  write_fullbox 0 (str "gmin") 0 0 ;;;
  s_wb16 64 ;;;
  s_wb16 32768 ;;; s_wb16 32768 ;;; s_wb16 32768 ;;;
  s_wb16 0 ;;;
  s_wb16 0 ;;;
  write_box_size start.

Definition mp4_write_gmhd : W S Z :=
  start <- serializer_get_pos ;;
  write_box 0 (str "gmhd") ;;;
  mp4_write_gmin ;;;
  mp4_write_qt_text ;;;
  write_box_size start.
End writers.

(** ** Shapes *)

Create HintDb shapes discriminated.

(** [leaf "name"]: a box without contained boxes. *)
Definition leaf (name : string) : skel := Sk (str name) [].

(** [field_step], [fields]: a writer of plain fields and its length. *)
Ltac field_step :=
  lazymatch goal with
  | |- fldn _ (s_w8 _) => apply fldn_w8
  | |- fldn _ (s_wb16 _) => apply fldn_wb16
  | |- fldn _ (s_wb24 _) => apply fldn_wb24
  | |- fldn _ (s_wb32 _) => apply fldn_wb32
  | |- fldn _ (s_wb64 _) => apply fldn_wb64
  | |- fldn _ (s_put _) => apply fldn_put
  | |- fldn _ (ret _) => apply fldn_ret
  | |- fldn _ (for_each _ _) => apply fldn_for_each; intros
  | |- fldn _ (bind _ _) => apply fldn_bind; [|intros]
  end.
Ltac fields := repeat field_step.

(** [fld_solve]: a writer of plain fields. *)
Ltac fld_solve := repeat
  lazymatch goal with
  | |- fld (bind _ _) => apply fld_bind; [|intros]
  | |- fld (deref _) => apply fld_deref; solve [eauto with shapes]
  | |- fld (for_each _ _) => apply fld_for_each; apply Forall_forall; intros
  | |- fld (if ?b then _ else _) => destruct b
  | |- fld (match ?o with Some _ => _ | None => _ end) => destruct o
  | |- fld (s_w8 _) => eapply fldn_fld
  | |- fld (s_wb16 _) => eapply fldn_fld
  | |- fld (s_wb24 _) => eapply fldn_fld
  | |- fld (s_wb32 _) => eapply fldn_fld
  | |- fld (s_wb64 _) => eapply fldn_fld
  | |- fld (s_put _) => eapply fldn_fld
  | |- fld (ret _) => eapply fldn_fld
  | |- fldn _ _ => field_step
  end.

(** [box_fields], [box_solve]: the fields of an open box, up to its end. *)
Ltac box_step :=
  lazymatch goal with
  | |- ∀ _, _ => intro
  | |- openf _ _ (let x := _ in _) _ => cbv zeta
  | |- openf _ _ (bind _ _) _ => apply openf_field; [assumption|cbv zeta; solve [fld_solve]|]
  end.
Ltac box_fields := repeat box_step.
Ltac box_solve := box_fields; apply openf_close; reflexivity.

(** What the muxer relies on in a track: a time base and a time scale that are not
    zero (the frame rate or the sample rate of the encoder). *)
Record track_ok (t : mp4_track) : Prop := {
  ok_den : 0 < timebase_den t < 2 ^ 32;
  ok_timescale : 0 < timescale t < 2 ^ 32
}.

Lemma first_video_track_ok ts t :
  Forall track_ok ts → first_video_track ts = Some t → track_ok t.
Proof.
  induction 1 as [|t' ts Ht _ IH]; [done|]. simpl. destruct (is_video t'); [|done]. by intros [= <-].
Qed.

Section shapes.
Context {S : Type} `{AppendSerializer S} (mux : mp4_mux).

Lemma ftyp_shape fragmented : wskel (mp4_write_ftyp mux fragmented) [leaf "ftyp"].
Proof. apply wskel_box; [done|]. box_solve. Qed.

Lemma free_emits p :
  emits p (mp4_write_free mux) (enc (Box (if is_mov mux then str "wide" else str "free") (be64 0) [])) 16.
Proof.
  unfold mp4_write_free. eapply emits_eq.
  { do 3 (eapply emits_seq; [eauto with emits|reflexivity|]). apply emits_ret. }
  by destruct (is_mov mux).
Qed.

Lemma mvhd_shape : Forall track_ok (tracks mux) → wskel (mp4_write_mvhd mux) [leaf "mvhd"].
Proof.
  intros Hok. unfold mp4_write_mvhd. destruct (first_video_track (tracks mux)) as [t|] eqn:E.
  - apply first_video_track_ok in E as [? ?]; [|done].
    eapply wskel_pre_deref; [apply mul_div64_some; lia|].
    apply wskel_fullbox; [done|]. box_solve.
  - apply (wskel_pre_ret 0). apply wskel_fullbox; [done|]. box_solve.
Qed.

Lemma tkhd_shape t : track_ok t → wskel (mp4_write_tkhd mux t) [leaf "tkhd"].
Proof.
  intros [? ?]. eapply wskel_pre_deref; [apply mul_div64_some; lia|].
  apply wskel_fullbox; [done|]. box_solve.
Qed.

Lemma mdhd_shape t : track_ok t → wskel (mp4_write_mdhd mux t) [leaf "mdhd"].
Proof.
  intros [? ?]. unfold mp4_write_mdhd.
  assert (∀ d, wskel
    (let long := (UINT32_MAX <? d) || (UINT32_MAX <? creation_time mux) in
     let size := if long then 44 else 32 in
     let version := if long then 1 else 0 in
     write_fullbox size (str "mdhd") version 0 ;;;
     (if version =? 1 then
        s_wb64 (creation_time mux) ;;; s_wb64 (creation_time mux) ;;;
        s_wb32 (timescale t) ;;; s_wb64 (u32 d)
      else
        s_wb32 (u32 (creation_time mux)) ;;; s_wb32 (u32 (creation_time mux)) ;;;
        s_wb32 (timescale t) ;;; s_wb32 (u32 d)) ;;;
     s_wb16 (if is_mov mux then 32767 else 21956) ;;;
     s_wb16 0 ;;;
     ret size) [leaf "mdhd"]) as K.
  { intros d. cbv zeta. destruct (_ || _); apply wskel_sized_full; try done;
      [change (1 =? 1) with true|change (0 =? 1) with false]; cbv iota;
      (eapply fldn_eq; [fields|reflexivity]). }
  destruct (is_video t).
  - eapply wskel_deref; [apply mul_div64_some; lia|]. apply K.
  - apply wskel_ret_bind. apply K.
Qed.

Lemma hdlr_shape t : wskel (mp4_write_hdlr mux t) [leaf "hdlr"].
Proof. apply wskel_fullbox; [done|]. box_solve. Qed.

Lemma vmhd_shape : wskel mp4_write_vmhd [leaf "vmhd"].
Proof. apply wskel_sized_full; [done..|]. eapply fldn_eq; [fields|reflexivity]. Qed.

Lemma smhd_shape : wskel mp4_write_smhd [leaf "smhd"].
Proof. apply wskel_sized_full; [done..|]. eapply fldn_eq; [fields|reflexivity]. Qed.

Lemma qt_text_shape : wskel mp4_write_qt_text [leaf "text"].
Proof. apply wskel_box; [done|]. box_solve. Qed.

Lemma gmin_shape : wskel mp4_write_gmin [leaf "gmin"].
Proof. apply wskel_fullbox; [done|]. box_solve. Qed.

Lemma gmhd_shape : wskel mp4_write_gmhd [Sk (str "gmhd") [leaf "gmin"; leaf "text"]].
Proof.
  apply wskel_box; [done|]. intros b Hb. apply openf_openk.
  apply openk_kid with [leaf "gmin"]; [done|apply gmin_shape|intros _].
  apply openk_kid with [leaf "text"]; [done|apply qt_text_shape|intros _].
  by apply openk_close.
Qed.
End shapes.

#[export] Hint Resolve ftyp_shape mvhd_shape tkhd_shape mdhd_shape hdlr_shape vmhd_shape
  smhd_shape gmhd_shape : shapes.

(** ** The media header *)

(** The duration of the media in its time scale, as [mdhd] and [tfdt] count it. *)
Definition media_duration (t : mp4_track) : Z :=
  if is_video t then util_mul_div64 (duration t) (timescale t) (timebase_den t) else duration t.

(** Time scale and duration; the fields are wider in version 1. *)
Definition read_mdhd (payload : bytes) : Z * Z :=
  if be_val (take 1 payload) =? 1 then (be_val (sub 20 4 payload), be_val (sub 24 8 payload))
  else (be_val (sub 12 4 payload), be_val (sub 16 4 payload)).

Lemma seq_assoc3 {S A} (m m1 m2 m3 : W S unit) (k : W S A) s :
  (m ;;; m1 ;;; m2 ;;; m3 ;;; k) s = (m ;;; (m1 ;;; m2 ;;; m3) ;;; k) s.
Proof. unfold bind. by repeat case_match. Qed.

(** A reader of [mdhd] gets the time scale of the track and its media duration
    modulo 2^32. The 64-bit form, chosen exactly when the duration does not fit 32
    bits, holds the truncated duration too. *)
Theorem mdhd_duration_mod {S : Type} `{AppendSerializer S} mux (t : mp4_track) : track_ok t →
  ∃ payload, writes (S:=S) (mp4_write_mdhd mux t) (Box (str "mdhd") payload []) ∧
    be_val (take 1 payload) = (if (UINT32_MAX <? media_duration t) || (UINT32_MAX <? creation_time mux) then 1 else 0) ∧
    read_mdhd payload = (timescale t, u32 (media_duration t)).
Proof.
  intros [? ?].
  set (long := (UINT32_MAX <? media_duration t) || (UINT32_MAX <? creation_time mux)).
  set (lang := if is_mov mux then 32767 else 21956).
  set (fields := if long
    then be64 (creation_time mux) ++ be64 (creation_time mux) ++ be32 (timescale t) ++ be64 (u32 (media_duration t))
    else be32 (u32 (creation_time mux)) ++ be32 (u32 (creation_time mux)) ++ be32 (timescale t) ++ be32 (u32 (media_duration t))).
  exists (u8 (if long then 1 else 0) :: be24 0 ++ fields ++ be16 lang ++ be16 0).
  split; [|split; [by destruct long|]].
  - eapply writes_ext; [|apply (writes_sized_full (if long then 44 else 32) (str "mdhd") (if long then 1 else 0) 0
      ((if (if long then 1 else 0) =? 1 then
          s_wb64 (creation_time mux) ;;; s_wb64 (creation_time mux) ;;;
          s_wb32 (timescale t) ;;; s_wb64 (u32 (media_duration t))
        else
          s_wb32 (u32 (creation_time mux)) ;;; s_wb32 (u32 (creation_time mux)) ;;;
          s_wb32 (timescale t) ;;; s_wb32 (u32 (media_duration t))) ;;; s_wb16 lang ;;; s_wb16 0)); [done| | |]].
    + intros s. rewrite <- seq_assoc3. unfold mp4_write_mdhd, long, media_duration.
      destruct (is_video t); [rewrite mul_div64_some by lia|]; reflexivity.
    + unfold fields. destruct long; reflexivity.
    + by destruct long.
    + unfold fields. destruct long; cbn [Z.eqb Pos.eqb]; flds.
  - unfold fields. destruct long.
    + change (read_mdhd _) with (be_val (be32 (timescale t)), be_val (be64 (u32 (media_duration t)))).
      rewrite be32_val, be64_val. pose proof (u32_range (media_duration t)). by wrap_small.
    + change (read_mdhd _) with (be_val (be32 (timescale t)), be_val (be32 (u32 (media_duration t)))).
      rewrite !be32_val. pose proof (u32_range (media_duration t)). by wrap_small.
Qed.

(** A recording of 2^32 + 5 units: the reader sees 5. *)
Definition ex_long_track : mp4_track :=
  mk_track TRACK_AUDIO CODEC_AAC 1 0 (2 ^ 32 + 5) None 1 48000 48000 0 0 [] 0 [] [] [] false 0 [] [] [].

Lemma mdhd_duration_mod_witness :
  ∃ payload, writes (S:=array_output_data)
      (mp4_write_mdhd (mk_mux FLAVOR_MP4 (mk_flags false false false false) 1 0 0 28 1 [ex_long_track] None) ex_long_track)
      (Box (str "mdhd") payload []) ∧
    be_val (take 1 payload) = 1 ∧ read_mdhd payload = (48000, 5).
Proof. refine (mdhd_duration_mod _ ex_long_track _). by split. Defined.
