(* ===== verification/Mp4Entry.v ===== *)
(** * Sample descriptions: plugins/obs-outputs/mp4-mux.c, lines 472-1313

    The codec-specific boxes of [stsd], one definition per function. *)

From S2P Require Import Prelude Util Serializer Encoder Nal Avc RtmpAv1 RtmpHevc Mp4Types Mp4Box Mp4Header.

Local Open Scope Z_scope.
Local Open Scope serializer_scope.

Definition rl16 (data : bytes) (off : Z) : option Z :=
  b0 ← rd data off; b1 ← rd data (off + 1); Some (u16 (Z.shiftl b1 8 + b0)).

Definition rl32 (data : bytes) (off : Z) : option Z :=
  b0 ← rd data off; b1 ← rd data (off + 1); b2 ← rd data (off + 2); b3 ← rd data (off + 3);
  Some (u32 (Z.shiftl b3 24 + Z.shiftl b2 16 + Z.shiftl b1 8 + b0)).

(** The bits of [(double)n] for an integer below 2^53. *)
Definition double_bits (n : Z) : Z :=
  if n =? 0 then 0
  else let e := Z.log2 n in (e + 1023) * 2 ^ 52 + (n * 2 ^ (52 - e) - 2 ^ 52).

(** The length byte and the name, padded to 32 bytes. *)
Definition compressor_name (enc_id : option bytes) : bytes :=
  match enc_id with
  | Some id =>
      let len := Z.min (zlen id) 31 in
      len :: take (Z.to_nat len) id ++ replicate (Z.to_nat (31 - len)) 0
  | None => replicate 32 0
  end.

Section writers.
Context {S : Type} `{SerializerOps S} (env : mp4_env) (mux : mp4_mux).
Implicit Types enc : option obs_encoder.

Definition mp4_write_avcC enc : W S Z :=
  match obs_encoder_get_extra_data enc with
  | None => ret 0
  | Some header =>
      data <- deref (obs_parse_avc_header (env_address env header) header) ;;
      let box_size := zlen data + 8 in
      write_box box_size (str "avcC") ;;;
      s_put data ;;;
      ret box_size
  end.

Definition mp4_write_hvcC enc : W S Z :=
  match obs_encoder_get_extra_data enc with
  | None => ret 0
  | Some header =>
      parsed <- deref (obs_parse_hevc_header (env_address env header) header) ;;
      let '(data, size) := parsed in
      let box_size := size + 8 in
      write_box box_size (str "hvcC") ;;;
      s_put (default [] data) ;;;
      ret box_size
  end.

Definition mp4_write_av1C enc : W S Z :=
  match obs_encoder_get_extra_data enc with
  | None => ret 0
  | Some header =>
      data <- deref (obs_parse_av1_header header) ;;
      let box_size := zlen data + 8 in
      write_box box_size (str "av1C") ;;;
      s_put data ;;;
      ret box_size
  end.

Definition mp4_write_colr enc : W S Z :=
  write_box 19 (str "colr") ;;;
  info <- deref (obs_encoder_video enc) ;;
  let '(pri, trc, spc, full_range) := get_colour_information info in
  s_put (str "nclx") ;;;
  s_wb16 pri ;;;
  s_wb16 trc ;;;
  s_wb16 spc ;;;
  s_w8 (Z.shiftl full_range 7) ;;;
  ret 19.

Definition mp4_write_pasp : W S Z :=
  write_box 16 (str "pasp") ;;;
  s_wb32 1 ;;;
  s_wb32 1 ;;;
  ret 16.

Definition mp4_write_visual_sample_entry enc : W S unit :=
  s_w8 0 ;;; s_w8 0 ;;; s_w8 0 ;;; s_w8 0 ;;; s_w8 0 ;;; s_w8 0 ;;;
  s_wb16 1 ;;;
  s_wb16 0 ;;;
  s_wb16 0 ;;;
  (if is_mov mux then
     s_put (str "OBSS") ;;;
     s_wb32 512 ;;;
     s_wb32 512
   else
     s_wb32 0 ;;;
     s_wb32 0 ;;;
     s_wb32 0) ;;;
  s_wb16 (u16 (obs_encoder_get_width enc)) ;;;
  s_wb16 (u16 (obs_encoder_get_height enc)) ;;;
  s_wb32 4718592 ;;;
  s_wb32 4718592 ;;;
  s_wb32 0 ;;;
  s_wb16 1 ;;;
  s_put (compressor_name (obs_encoder_get_id enc)) ;;;
  s_wb16 24 ;;;
  s_wb16 (-1).

Definition is_hdr (info : video_t) : bool :=
  match colorspace info with VIDEO_CS_2100_PQ | VIDEO_CS_2100_HLG => true | _ => false end.

Definition mp4_write_clli enc : W S Z :=
  info <- deref (obs_encoder_video enc) ;;
  if negb (is_hdr info) then ret 0 else
  write_box 12 (str "clli") ;;;
  s_wb16 (u16 (env_hdr_nominal_peak env)) ;;;
  s_wb16 (u16 (env_hdr_nominal_peak env)) ;;;
  ret 12.

Definition mp4_write_mdcv enc : W S Z :=
  info <- deref (obs_encoder_video enc) ;;
  if negb (is_hdr info) then ret 0 else
  write_box 32 (str "mdcv") ;;;
  let max_lum := u32 (u32 (env_hdr_nominal_peak env) * 10000) in
  s_wb16 13250 ;;;
  s_wb16 34500 ;;;
  s_wb16 7500 ;;;
  s_wb16 3000 ;;;
  s_wb16 34000 ;;;
  s_wb16 16000 ;;;
  s_wb16 15635 ;;;
  s_wb16 16450 ;;;
  s_wb32 max_lum ;;;
  s_wb32 0 ;;;
  ret 32.

Definition mp4_write_avc1 enc : W S Z :=
  start <- serializer_get_pos ;;
  write_box 0 (str "avc1") ;;;
  mp4_write_visual_sample_entry enc ;;;
  mp4_write_avcC enc ;;;
  mp4_write_colr enc ;;;
  mp4_write_pasp ;;;
  write_box_size start.

Definition mp4_write_hvc1 enc : W S Z :=
  start <- serializer_get_pos ;;
  write_box 0 (str "hvc1") ;;;
  mp4_write_visual_sample_entry enc ;;;
  mp4_write_hvcC enc ;;;
  mp4_write_colr enc ;;;
  mp4_write_clli enc ;;;
  mp4_write_mdcv enc ;;;
  mp4_write_pasp ;;;
  write_box_size start.

Definition mp4_write_av01 enc : W S Z :=
  start <- serializer_get_pos ;;
  write_box 0 (str "av01") ;;;
  mp4_write_visual_sample_entry enc ;;;
  mp4_write_av1C enc ;;;
  mp4_write_colr enc ;;;
  mp4_write_clli enc ;;;
  mp4_write_mdcv enc ;;;
  mp4_write_pasp ;;;
  write_box_size start.

(** The codec tag is an [int] setting; its bytes are swapped on a little-endian
    machine and written in memory order. *)
Definition prores_tag enc : bytes :=
  let i := u32 (match obs_encoder_get_settings enc with
                | Some settings => set_codec_type settings
                | None => 0
                end) in
  let i := Z.lor (Z.lor (Z.land (Z.shiftr i 24) 255) (Z.land (u32 (Z.shiftl i 8)) 16711680))
                 (Z.lor (Z.land (Z.shiftr i 8) 65280) (Z.land (u32 (Z.shiftl i 24)) 4278190080)) in
  [u8 i; u8 (Z.shiftr i 8); u8 (Z.shiftr i 16); u8 (Z.shiftr i 24)].

Definition mp4_write_prores enc : W S Z :=
  start <- serializer_get_pos ;;
  write_box 0 (prores_tag enc) ;;;
  mp4_write_visual_sample_entry enc ;;;
  mp4_write_colr enc ;;;
  mp4_write_clli enc ;;;
  mp4_write_mdcv enc ;;;
  mp4_write_pasp ;;;
  write_box_size start.

(** An MPEG-4 descriptor tag and its length in four 7-bit groups. *)
Definition put_descr (tag size : Z) : W S unit :=
  s_w8 tag ;;;
  for_each [3; 2; 1] (λ i, s_w8 (u8 (Z.lor (Z.shiftr size (7 * i)) 128))) ;;;
  s_w8 (Z.land size 127).

Definition mp4_write_esds (track : mp4_track) : W S Z :=
  start <- serializer_get_pos ;;
  write_fullbox 0 (str "esds") 0 0 ;;;
  let extradata := default [] (obs_encoder_get_extra_data (trk_encoder track)) in
  let extradata_size := zlen extradata in
  let decoder_specific_info_len := if extradata_size =? 0 then 0 else extradata_size + 5 in
  put_descr 3 (3 + 5 + 13 + decoder_specific_info_len + 5 + 1) ;;;
  s_wb16 (track_id track) ;;;
  s_w8 0 ;;;
  put_descr 4 (13 + decoder_specific_info_len) ;;;
  s_w8 64 ;;;
  s_w8 21 ;;;
  let bitrate := match obs_encoder_get_settings (trk_encoder track) with
                 | Some settings =>
                     let enc_bitrate := set_bitrate settings in
                     if enc_bitrate =? 0 then 0 else u32 (i64 (enc_bitrate * 1000))
                 | None => 0
                 end in
  s_wb24 0 ;;;
  s_wb32 bitrate ;;;
  s_wb32 bitrate ;;;
  when negb (extradata_size =? 0) do (
    put_descr 5 extradata_size ;;;
    s_put extradata) ;;;
  put_descr 6 1 ;;;
  s_w8 2 ;;;
  write_box_size start.

Definition mp4_write_audio_sample_entry (track : mp4_track) (version : Z) : W S unit :=
  let is_mov := is_mov mux in
  let is_pcm := is_pcm (trk_codec track) in
  s_w8 0 ;;; s_w8 0 ;;; s_w8 0 ;;; s_w8 0 ;;; s_w8 0 ;;; s_w8 0 ;;;
  s_wb16 1 ;;;
  s_wb16 version ;;;
  s_wb16 0 ;;; s_wb16 0 ;;; s_wb16 0 ;;;
  audio <- deref (obs_encoder_audio (trk_encoder track)) ;;
  let channels := u32 (audio_output_get_channels audio) in
  let sample_rate := timescale track in
  let alac := bool_decide (trk_codec track = CODEC_ALAC) in
  if version =? 2 then
    s_wb16 3 ;;;
    s_wb16 16 ;;;
    s_wb16 65534 ;;;
    s_wb16 0 ;;;
    s_wb32 65536 ;;;
    s_wb32 72 ;;;
    s_wb64 (double_bits sample_rate) ;;;
    s_wb32 channels ;;;
    s_wb32 2130706432 ;;;
    bits <- (if is_pcm
             then frame <- deref (checked_div (sample_size track) channels) ;; ret (u32 (frame * 8))
             else ret 0) ;;
    s_wb32 bits ;;;
    s_wb32 (get_lpcm_flags (trk_codec track)) ;;;
    s_wb32 (if is_pcm then sample_size track else 0) ;;;
    s_wb32 (if is_pcm then 1 else 0)
  else
    s_wb16 channels ;;;
    s_wb16 (if negb is_mov && alac then 24 else 16) ;;;
    s_wb16 (if is_mov && negb is_pcm then -2 else 0) ;;;
    s_wb16 0 ;;;
    let sample_rate := if UINT16_MAX <? sample_rate then 0 else sample_rate in
    s_wb32 (u32 (Z.shiftl sample_rate 16)) ;;;
    when is_mov && (version =? 1) do (
      let frame_size := obs_encoder_get_frame_size (trk_encoder track) in
      s_wb32 (if is_pcm then 1 else u32 frame_size) ;;;
      bytes_per_packet <- (if is_pcm then deref (checked_div (sample_size track) channels)
                           else ret 0) ;;
      s_wb32 bytes_per_packet ;;;
      s_wb32 (if is_pcm then sample_size track else 0) ;;;
      s_wb32 2).

Definition mp4_write_chnl (track : mp4_track) : W S Z :=
  start <- serializer_get_pos ;;
  write_fullbox 0 (str "chnl") 0 0 ;;;
  info <- deref (obs_encoder_audio (trk_encoder track)) ;;
  s_w8 1 ;;;
  let '(map, defined_layout) := get_speaker_positions (speakers info) in
  (if defined_layout =? 0 then
     s_w8 0 ;;;
     s_put map
   else
     s_w8 defined_layout ;;;
     s_wb64 0) ;;;
  write_box_size start.

Definition mp4_write_mp4a (track : mp4_track) (version : Z) : W S Z :=
  start <- serializer_get_pos ;;
  write_box 0 (str "mp4a") ;;;
  mp4_write_audio_sample_entry track version ;;;
  mp4_write_esds track ;;;
  (if version =? 1 then mp4_write_chnl track ;;; ret tt else ret tt) ;;;
  write_box_size start.

Definition mp4_write_dfLa (track : mp4_track) : W S Z :=
  start <- serializer_get_pos ;;
  match obs_encoder_get_extra_data (trk_encoder track) with
  | None => ret 0
  | Some extradata =>
      write_fullbox 0 (str "dfLa") 0 0 ;;;
      s_w8 (Z.lor (Z.shiftl 1 7) 0) ;;;
      s_wb24 (u32 (zlen extradata)) ;;;
      s_put extradata ;;;
      write_box_size start
  end.

Definition mp4_write_fLaC (track : mp4_track) (version : Z) : W S Z :=
  start <- serializer_get_pos ;;
  write_box 0 (str "fLaC") ;;;
  mp4_write_audio_sample_entry track version ;;;
  mp4_write_dfLa track ;;;
  (if version =? 1 then mp4_write_chnl track ;;; ret tt else ret tt) ;;;
  write_box_size start.

Definition mp4_write_alac (track : mp4_track) (version : Z) : W S Z :=
  start <- serializer_get_pos ;;
  match obs_encoder_get_extra_data (trk_encoder track) with
  | None => ret 0
  | Some extradata =>
      write_box 0 (str "alac") ;;;
      mp4_write_audio_sample_entry track version ;;;
      s_put extradata ;;;
      (if version =? 1 then mp4_write_chnl track ;;; ret tt else ret tt) ;;;
      write_box_size start
  end.

Definition mp4_write_pcmc (track : mp4_track) : W S Z :=
  start <- serializer_get_pos ;;
  write_fullbox 0 (str "pcmC") 0 0 ;;;
  s_w8 1 ;;;
  (match trk_codec track with
   | CODEC_PCM_I16 => s_w8 16
   | CODEC_PCM_I24 => s_w8 24
   | CODEC_PCM_F32 => s_w8 32
   | _ => ret tt
   end) ;;;
  write_box_size start.

Definition mp4_write_xpcm (track : mp4_track) (version : Z) : W S Z :=
  start <- serializer_get_pos ;;
  write_box 0 (if bool_decide (trk_codec track = CODEC_PCM_F32) then str "fpcm" else str "ipcm") ;;;
  mp4_write_audio_sample_entry track version ;;;
  mp4_write_chnl track ;;;
  mp4_write_pcmc track ;;;
  write_box_size start.

Definition mp4_write_text : W S Z :=
  start <- serializer_get_pos ;;
  write_fullbox 0 (str "text") 0 0 ;;;
  s_wb32 1 ;;;
  s_put TEXT_STUB_HEADER ;;;
  write_box_size start.

(** OpusHead is little-endian, the box big-endian. *)
Definition mp4_write_dOps (track : mp4_track) : W S Z :=
  start <- serializer_get_pos ;;
  match obs_encoder_get_extra_data (trk_encoder track) with
  | None => ret 0
  | Some extradata =>
      write_box 0 (str "dOps") ;;;
      s_w8 0 ;;;
      channels <- deref (rd extradata 9) ;;
      channel_map <- deref (rd extradata 18) ;;
      s_w8 channels ;;;
      preskip <- deref (rl16 extradata 10) ;;
      s_wb16 preskip ;;;
      rate <- deref (rl32 extradata 12) ;;
      s_wb32 rate ;;;
      gain <- deref (rl16 extradata 16) ;;
      s_wb16 gain ;;;
      s_w8 channel_map ;;;
      when negb (channel_map =? 0) do (
        mapping <- deref (read_bytes 19 (2 + channels) extradata) ;;
        s_put mapping) ;;;
      write_box_size start
  end.

Definition mp4_write_Opus (track : mp4_track) (version : Z) : W S Z :=
  start <- serializer_get_pos ;;
  write_box 0 (str "Opus") ;;;
  mp4_write_audio_sample_entry track version ;;;
  mp4_write_dOps track ;;;
  (if version =? 1 then mp4_write_chnl track ;;; ret tt else ret tt) ;;;
  write_box_size start.

Definition mp4_write_wave (track : mp4_track) (tag : bytes) : W S Z :=
  start <- serializer_get_pos ;;
  write_box 0 (str "wave") ;;;
  s_wb32 12 ;;;
  s_put (str "frma") ;;;
  s_put tag ;;;
  (match trk_codec track with
   | CODEC_AAC => mp4_write_esds track ;;; ret tt
   | CODEC_ALAC =>
       match obs_encoder_get_extra_data (trk_encoder track) with
       | Some extradata => s_put extradata
       | None => ret tt
       end
   | _ => ret tt
   end) ;;;
  s_wb32 8 ;;;
  s_wb32 0 ;;;
  write_box_size start.

Definition mp4_write_chan (track : mp4_track) : W S Z :=
  start <- serializer_get_pos ;;
  info <- deref (obs_encoder_audio (trk_encoder track)) ;;
  let layout := get_mov_channel_layout (trk_codec track) (speakers info) in
  let use_bitmap := layout =? kAudioChannelLayoutTag_UseChannelBitmap in
  let bitmap := if use_bitmap then get_mov_channel_bitmap (speakers info) else 0 in
  if use_bitmap && (bitmap =? 0) then ret 0 else
  write_fullbox 0 (str "chan") 0 0 ;;;
  s_wb32 layout ;;;
  s_wb32 bitmap ;;;
  s_wb32 0 ;;;
  write_box_size start.

Definition mov_audio_tag (codec : mp4_codec) : option bytes :=
  match codec with
  | CODEC_PCM_F32 | CODEC_PCM_I16 | CODEC_PCM_I24 => Some (str "lpcm")
  | CODEC_AAC => Some (str "mp4a")
  | CODEC_ALAC => Some (str "alac")
  | _ => None
  end.

Definition mp4_write_mov_audio_tag (track : mp4_track) : W S Z :=
  start <- serializer_get_pos ;;
  audio <- deref (obs_encoder_audio (trk_encoder track)) ;;
  let sample_rate := audio_output_get_sample_rate audio in
  let channels := audio_output_get_channels audio in
  let version := if (2 <? channels) || (UINT16_MAX <? sample_rate) then 2 else 1 in
  let version := if is_pcm (trk_codec track) then 2 else version in
  match mov_audio_tag (trk_codec track) with
  | None => ret 0
  | Some tag =>
      write_box 0 tag ;;;
      mp4_write_audio_sample_entry track version ;;;
      (if version =? 1 then mp4_write_wave track tag ;;; ret tt else ret tt) ;;;
      mp4_write_chan track ;;;
      write_box_size start
  end.

Definition mp4_write_stsd (track : mp4_track) : W S Z :=
  start <- serializer_get_pos ;;
  version <- (if is_audio track && negb (is_mov mux) then
                audio <- deref (obs_encoder_audio (trk_encoder track)) ;;
                ret (if 2 <? audio_output_get_channels audio then 1 else 0)
              else ret 0) ;;
  write_fullbox 0 (str "stsd") version 0 ;;;
  s_wb32 1 ;;;
  (match trk_type track with
   | TRACK_VIDEO =>
       match trk_codec track with
       | CODEC_H264 => mp4_write_avc1 (trk_encoder track)
       | CODEC_HEVC => mp4_write_hvc1 (trk_encoder track)
       | CODEC_AV1 => mp4_write_av01 (trk_encoder track)
       | CODEC_PRORES => mp4_write_prores (trk_encoder track)
       | _ => ret 0
       end
   | TRACK_AUDIO =>
       if is_mov mux then mp4_write_mov_audio_tag track
       else
         match trk_codec track with
         | CODEC_AAC => mp4_write_mp4a track version
         | CODEC_OPUS => mp4_write_Opus track version
         | CODEC_FLAC => mp4_write_fLaC track version
         | CODEC_ALAC => mp4_write_alac track version
         | CODEC_PCM_I16 | CODEC_PCM_I24 | CODEC_PCM_F32 => mp4_write_xpcm track version
         | _ => ret 0
         end
   | TRACK_CHAPTERS => mp4_write_text
   | TRACK_UNKNOWN => ret 0
   end) ;;;
  write_box_size start.
End writers.

(** ** Shapes *)

(** An OpusHead long enough for the fields that are copied. *)
Definition opus_head_ok (d : bytes) : Prop :=
  19 ≤ zlen d ∧
  ∀ channels map, rd d 9 = Some channels → rd d 18 = Some map → map ≠ 0 → 21 + channels ≤ zlen d.

(** What the sample description of a track relies on: the encoder is attached to a
    video or audio output, and its extra data is a header the codec accepts. *)
Record entry_ok (env : mp4_env) (t : mp4_track) : Prop := {
  ok_video : is_video t = true → is_Some (obs_encoder_video (trk_encoder t));
  ok_audio : is_audio t = true →
    ∃ a, obs_encoder_audio (trk_encoder t) = Some a ∧ speakers a ≠ SPEAKERS_UNKNOWN;
  ok_extra : ∀ d, obs_encoder_get_extra_data (trk_encoder t) = Some d →
    match trk_codec t with
    | CODEC_H264 => ∃ r, obs_parse_avc_header (env_address env d) d = Some r ∧ zlen r + 8 ≤ UINT32_MAX
    | CODEC_HEVC => ∃ r, obs_parse_hevc_header (env_address env d) d = Some (Some r, zlen r) ∧ zlen r + 8 ≤ UINT32_MAX
    | CODEC_AV1 => ∃ r, obs_parse_av1_header d = Some r ∧ zlen r + 8 ≤ UINT32_MAX
    | CODEC_OPUS => opus_head_ok d
    | _ => True
    end
}.

Section skels.
Context (mux : mp4_mux) (t : mp4_track).
Let enc := trk_encoder t.

(** The box built from extra data, when there is any. *)
Definition extra_skel (sk : skel) : list skel :=
  match obs_encoder_get_extra_data enc with Some _ => [sk] | None => [] end.

(** A box that is only written for HDR video. *)
Definition hdr_skel (name : string) : list skel :=
  match obs_encoder_video enc with
  | Some info => if is_hdr info then [leaf name] else []
  | None => []
  end.

Definition chnl_skel (version : Z) : list skel := if version =? 1 then [leaf "chnl"] else [].

Definition chan_skel : list skel :=
  match obs_encoder_audio enc with
  | Some info =>
      let layout := get_mov_channel_layout (trk_codec t) (speakers info) in
      if (layout =? kAudioChannelLayoutTag_UseChannelBitmap) && (get_mov_channel_bitmap (speakers info) =? 0)
      then [] else [leaf "chan"]
  | None => []
  end.

Definition terminator : skel := Sk [0; 0; 0; 0] [].

(** The contents of [wave]; an ALAC cookie is copied after [frma]. *)
Definition wave_skel : skel :=
  Sk (str "wave")
    (match trk_codec t with
     | CODEC_AAC => [leaf "frma"; leaf "esds"; terminator]
     | CODEC_ALAC => match obs_encoder_get_extra_data enc with
                     | Some _ => [terminator]
                     | None => [leaf "frma"; terminator]
                     end
     | _ => [leaf "frma"; terminator]
     end).

(** The version of the sound description (MOV) or of [stsd] (MP4). *)
Definition mov_version : Z :=
  match obs_encoder_audio enc with
  | Some a =>
      if is_pcm (trk_codec t) then 2
      else if (2 <? audio_output_get_channels a) || (UINT16_MAX <? audio_output_get_sample_rate a)
           then 2 else 1
  | None => 0
  end.
Definition stsd_version : Z :=
  if is_audio t && negb (is_mov mux) then
    match obs_encoder_audio enc with
    | Some a => if 2 <? audio_output_get_channels a then 1 else 0
    | None => 0
    end
  else 0.

Definition mov_audio_skel : list skel :=
  match mov_audio_tag (trk_codec t) with
  | None => []
  | Some tag => [Sk tag ((if mov_version =? 1 then [wave_skel] else []) ++ chan_skel)]
  end.

(** The sample entry of the track. *)
Definition entry_skel : list skel :=
  let v := stsd_version in
  match trk_type t with
  | TRACK_VIDEO =>
      match trk_codec t with
      | CODEC_H264 => [Sk (str "avc1") (extra_skel (leaf "avcC") ++ [leaf "colr"; leaf "pasp"])]
      | CODEC_HEVC => [Sk (str "hvc1") (extra_skel (leaf "hvcC") ++ [leaf "colr"] ++ hdr_skel "clli" ++ hdr_skel "mdcv" ++ [leaf "pasp"])]
      | CODEC_AV1 => [Sk (str "av01") (extra_skel (leaf "av1C") ++ [leaf "colr"] ++ hdr_skel "clli" ++ hdr_skel "mdcv" ++ [leaf "pasp"])]
      | CODEC_PRORES => [Sk (prores_tag enc) ([leaf "colr"] ++ hdr_skel "clli" ++ hdr_skel "mdcv" ++ [leaf "pasp"])]
      | _ => []
      end
  | TRACK_AUDIO =>
      if is_mov mux then mov_audio_skel
      else
        match trk_codec t with
        | CODEC_AAC => [Sk (str "mp4a") ([leaf "esds"] ++ chnl_skel v)]
        | CODEC_OPUS => [Sk (str "Opus") (extra_skel (leaf "dOps") ++ chnl_skel v)]
        | CODEC_FLAC => [Sk (str "fLaC") (extra_skel (leaf "dfLa") ++ chnl_skel v)]
        | CODEC_ALAC => extra_skel (Sk (str "alac") (chnl_skel v))
        | CODEC_PCM_I16 | CODEC_PCM_I24 => [Sk (str "ipcm") [leaf "chnl"; leaf "pcmC"]]
        | CODEC_PCM_F32 => [Sk (str "fpcm") [leaf "chnl"; leaf "pcmC"]]
        | _ => []
        end
  | TRACK_CHAPTERS => [leaf "text"]
  | TRACK_UNKNOWN => []
  end.

Definition stsd_skel : skel := Sk (str "stsd") entry_skel.
End skels.

(** [kids]: the contained boxes of an open box, each by its shape lemma, and the end
    of the box; the shape is the list of those of the lemmas. *)
Ltac kid := eapply openk_kid; [assumption|solve [eauto with shapes]|intros _].
Ltac kids := apply openf_openk; repeat kid; apply openk_close; reflexivity.
Ltac skel_eq := cbn [app]; rewrite <- ?app_assoc; reflexivity.

Section shapes.
Context {S : Type} `{AppendSerializer S} (env : mp4_env) (mux : mp4_mux).

Lemma wskel_leaf_data name data : zlen name = 4 → zlen data + 8 ≤ UINT32_MAX →
  wskel (write_box (zlen data + 8) name ;;; s_put data ;;; ret (zlen data + 8)) [Sk name []].
Proof.
  intros Hn Hs. apply wskel_sized; [done|len_lia|].
  eapply fldn_eq; [fields|lia].
Qed.

Lemma avcC_shape t : entry_ok env t → trk_codec t = CODEC_H264 →
  wskel (mp4_write_avcC env (trk_encoder t)) (extra_skel t (leaf "avcC")).
Proof.
  intros Hok Hc. unfold mp4_write_avcC, extra_skel.
  destruct (obs_encoder_get_extra_data (trk_encoder t)) as [d|] eqn:E; [|apply wskel_ret].
  apply (ok_extra env t Hok) in E. rewrite Hc in E. destruct E as (r & E & Hr).
  eapply wskel_deref; [exact E|]. by apply wskel_leaf_data.
Qed.
Lemma hvcC_shape t : entry_ok env t → trk_codec t = CODEC_HEVC →
  wskel (mp4_write_hvcC env (trk_encoder t)) (extra_skel t (leaf "hvcC")).
Proof.
  intros Hok Hc. unfold mp4_write_hvcC, extra_skel.
  destruct (obs_encoder_get_extra_data (trk_encoder t)) as [d|] eqn:E; [|apply wskel_ret].
  apply (ok_extra env t Hok) in E. rewrite Hc in E. destruct E as (r & E & Hr).
  eapply wskel_deref; [exact E|]. by apply wskel_leaf_data.
Qed.
Lemma av1C_shape t : entry_ok env t → trk_codec t = CODEC_AV1 →
  wskel (mp4_write_av1C (trk_encoder t)) (extra_skel t (leaf "av1C")).
Proof.
  intros Hok Hc. unfold mp4_write_av1C, extra_skel.
  destruct (obs_encoder_get_extra_data (trk_encoder t)) as [d|] eqn:E; [|apply wskel_ret].
  apply (ok_extra env t Hok) in E. rewrite Hc in E. destruct E as (r & E & Hr).
  eapply wskel_deref; [exact E|]. by apply wskel_leaf_data.
Qed.

Lemma colr_shape enc : is_Some (obs_encoder_video enc) → wskel (mp4_write_colr enc) [leaf "colr"].
Proof.
  intros [info E]. unfold mp4_write_colr. rewrite E.
  apply wskel_sized; [done..|]. apply (fldn_bind 0 11); [apply (fldn_ret info)|]. intros i.
  destruct (get_colour_information i) as [[[? ?] ?] ?]. eapply fldn_eq; [fields|reflexivity].
Qed.

Lemma pasp_shape : wskel mp4_write_pasp [leaf "pasp"].
Proof. apply wskel_sized; [done..|]. eapply fldn_eq; [fields|reflexivity]. Qed.

Lemma clli_shape t : is_Some (obs_encoder_video (trk_encoder t)) →
  wskel (mp4_write_clli env (trk_encoder t)) (hdr_skel t "clli").
Proof.
  intros [info E]. unfold hdr_skel, mp4_write_clli. rewrite E.
  eapply wskel_deref; [done|]. destruct (is_hdr info); [|apply wskel_ret].
  apply wskel_sized; [done..|]. eapply fldn_eq; [fields|reflexivity].
Qed.

Lemma mdcv_shape t : is_Some (obs_encoder_video (trk_encoder t)) →
  wskel (mp4_write_mdcv env (trk_encoder t)) (hdr_skel t "mdcv").
Proof.
  intros [info E]. unfold hdr_skel, mp4_write_mdcv. rewrite E.
  eapply wskel_deref; [done|]. destruct (is_hdr info); [|apply wskel_ret].
  apply wskel_sized; [done..|]. eapply fldn_eq; [fields|reflexivity].
Qed.

Lemma visual_entry_fld enc : fld (mp4_write_visual_sample_entry mux enc).
Proof. unfold mp4_write_visual_sample_entry. fld_solve. Qed.

Hint Resolve avcC_shape hvcC_shape av1C_shape colr_shape pasp_shape clli_shape mdcv_shape : shapes.

(** A box that starts with a visual sample entry. *)
Lemma visual_box t name (k : Z → W S Z) sk : zlen name = 4 →
  (∀ b, 0 ≤ b → openf b name (k b) sk) →
  wskel (start <- serializer_get_pos ;; write_box 0 name ;;;
         mp4_write_visual_sample_entry mux (trk_encoder t) ;;; k start) [sk].
Proof.
  intros Hn K. apply wskel_box; [done|]. intros b Hb.
  apply openf_field; [done|apply visual_entry_fld|intros _; by apply K].
Qed.

Lemma avc1_shape t : entry_ok env t → is_Some (obs_encoder_video (trk_encoder t)) →
  trk_codec t = CODEC_H264 →
  wskel (mp4_write_avc1 env mux (trk_encoder t))
    [Sk (str "avc1") (extra_skel t (leaf "avcC") ++ [leaf "colr"; leaf "pasp"])].
Proof.
  intros. eapply wskel_eq; [apply visual_box; [done|]; intros; kids|skel_eq].
Qed.
Lemma hvc1_shape t : entry_ok env t → is_Some (obs_encoder_video (trk_encoder t)) →
  trk_codec t = CODEC_HEVC →
  wskel (mp4_write_hvc1 env mux (trk_encoder t))
    [Sk (str "hvc1") (extra_skel t (leaf "hvcC") ++ [leaf "colr"] ++ hdr_skel t "clli" ++
                      hdr_skel t "mdcv" ++ [leaf "pasp"])].
Proof.
  intros. eapply wskel_eq; [apply visual_box; [done|]; intros; kids|skel_eq].
Qed.
Lemma av01_shape t : entry_ok env t → is_Some (obs_encoder_video (trk_encoder t)) →
  trk_codec t = CODEC_AV1 →
  wskel (mp4_write_av01 env mux (trk_encoder t))
    [Sk (str "av01") (extra_skel t (leaf "av1C") ++ [leaf "colr"] ++ hdr_skel t "clli" ++
                      hdr_skel t "mdcv" ++ [leaf "pasp"])].
Proof.
  intros. eapply wskel_eq; [apply visual_box; [done|]; intros; kids|skel_eq].
Qed.
Lemma prores_shape t : is_Some (obs_encoder_video (trk_encoder t)) →
  wskel (mp4_write_prores env mux (trk_encoder t))
    [Sk (prores_tag (trk_encoder t)) ([leaf "colr"] ++ hdr_skel t "clli" ++ hdr_skel t "mdcv" ++ [leaf "pasp"])].
Proof.
  intros. eapply wskel_eq; [apply visual_box; [done|]; intros; kids|skel_eq].
Qed.
End shapes.

#[export] Hint Resolve avc1_shape hvc1_shape av01_shape prores_shape : shapes.

Section audio_shapes.
Context {S : Type} `{AppendSerializer S} (mux : mp4_mux) (t : mp4_track) (a : audio_t).
Hypothesis (Ha : obs_encoder_audio (trk_encoder t) = Some a).
Hypothesis (Hs : speakers a ≠ SPEAKERS_UNKNOWN).

Lemma channels_pos : u32 (audio_output_get_channels a) ≠ 0.
Proof. unfold audio_output_get_channels. by destruct (speakers a). Qed.

Lemma deref_fld {A B} (o : option A) x (k : A → W S B) : o = Some x → fld (k x) → fld (y <- deref o ;; k y).
Proof.
  intros -> K p Hp. destruct (K p Hp) as (bs & r & E). exists bs, r. by eapply emits_ext; [|exact E].
Qed.

Lemma audio_entry_fld version : fld (mp4_write_audio_sample_entry mux t version).
Proof.
  unfold mp4_write_audio_sample_entry. rewrite Ha. cbv zeta.
  do 11 (apply fld_bind; [solve [fld_solve]|intros _]).
  eapply deref_fld; [reflexivity|]. pose proof channels_pos as Hc.
  rewrite (checked_div_some _ _ Hc). destruct (version =? 2), (is_pcm (trk_codec t)); fld_solve; eauto.
Qed.

Lemma put_descr_fld tag size : fld (put_descr (S:=S) tag size).
Proof. unfold put_descr. fld_solve. Qed.

Lemma esds_shape : wskel (mp4_write_esds t) [leaf "esds"].
Proof.
  apply wskel_fullbox; [done|]. intros b Hb. cbv zeta.
  repeat first
    [ apply openf_close; reflexivity
    | apply openf_field; [assumption| |intros _; cbv zeta] ];
  first [apply put_descr_fld|solve [fld_solve]|idtac].
  destruct (negb _); [|fld_solve]. apply fld_bind; [apply put_descr_fld|intros _; fld_solve].
Qed.

Lemma chnl_shape : wskel (mp4_write_chnl t) [leaf "chnl"].
Proof.
  apply wskel_fullbox; [done|]. intros b Hb. rewrite Ha.
  apply openf_field; [done|apply fld_deref; eauto|]. intros x. box_fields.
  destruct (get_speaker_positions (speakers x)) as [map layout]. box_solve.
Qed.

Lemma opt_chnl_shape version :
  wskel (if version =? 1 then mp4_write_chnl t ;;; ret tt else ret tt) (chnl_skel version).
Proof.
  unfold chnl_skel. destruct (version =? 1); [|apply wskel_ret].
  apply (wskel_bind_ret _ (λ _, tt)), chnl_shape.
Qed.

Hint Resolve esds_shape chnl_shape opt_chnl_shape : shapes.

Lemma audio_box name version (k : Z → W S Z) sk : zlen name = 4 →
  (∀ b, 0 ≤ b → openf b name (k b) sk) →
  wskel (start <- serializer_get_pos ;; write_box 0 name ;;;
         mp4_write_audio_sample_entry mux t version ;;; k start) [sk].
Proof.
  intros Hn K. apply wskel_box; [done|]. intros b Hb.
  apply openf_field; [done|apply audio_entry_fld|intros _; by apply K].
Qed.

Lemma mp4a_shape version :
  wskel (mp4_write_mp4a mux t version) [Sk (str "mp4a") ([leaf "esds"] ++ chnl_skel version)].
Proof. eapply wskel_eq; [apply audio_box; [done|]; intros; kids|skel_eq]. Qed.

Lemma wskel_start_ret {A} (x : A) : wskel (start <- serializer_get_pos ;; ret x) [].
Proof. intros p _. exists [], x. split; [|done]. eapply (emits_seq _ _ []); [apply emits_get_pos|done|apply emits_ret]. Qed.

Lemma dfLa_shape : wskel (mp4_write_dfLa t) (extra_skel t (leaf "dfLa")).
Proof.
  unfold mp4_write_dfLa, extra_skel. destruct (obs_encoder_get_extra_data _); [|apply wskel_start_ret].
  apply wskel_fullbox; [done|]. box_solve.
Qed.
Hint Resolve dfLa_shape : shapes.

Lemma fLaC_shape version :
  wskel (mp4_write_fLaC mux t version) [Sk (str "fLaC") (extra_skel t (leaf "dfLa") ++ chnl_skel version)].
Proof. eapply wskel_eq; [apply audio_box; [done|]; intros; kids|skel_eq]. Qed.

Lemma alac_shape version :
  wskel (mp4_write_alac mux t version) (extra_skel t (Sk (str "alac") (chnl_skel version))).
Proof.
  unfold mp4_write_alac, extra_skel. destruct (obs_encoder_get_extra_data _); [|apply wskel_start_ret].
  eapply wskel_eq; [apply audio_box; [done|]; intros; apply openf_field; [done|fld_solve|intros _]; kids|skel_eq].
Qed.

Lemma pcmc_shape : wskel (mp4_write_pcmc t) [leaf "pcmC"].
Proof.
  apply wskel_fullbox; [done|]. intros b Hb. apply openf_field; [done|fld_solve|intros _].
  apply openf_field; [done|destruct (trk_codec t); fld_solve|intros _]. by apply openf_close.
Qed.
Hint Resolve pcmc_shape : shapes.

Lemma xpcm_shape version :
  wskel (mp4_write_xpcm mux t version)
    [Sk (if bool_decide (trk_codec t = CODEC_PCM_F32) then str "fpcm" else str "ipcm")
        [leaf "chnl"; leaf "pcmC"]].
Proof.
  eapply wskel_eq; [apply audio_box; [by case_bool_decide|]; intros b Hb; apply openf_openk;
    repeat kid; apply openk_close; by case_bool_decide|skel_eq].
Qed.

Lemma rd_is_some d i : 0 ≤ i < zlen d → is_Some (rd d i).
Proof. intros Hi. destruct (rd_some d i Hi) as [b ->]. eauto. Qed.

Lemma rl16_is_some d i : 0 ≤ i → i + 1 < zlen d → is_Some (rl16 d i).
Proof.
  intros. unfold rl16. destruct (rd_some d i) as [? ->]; [lia|].
  destruct (rd_some d (i + 1)) as [? ->]; [lia|]. eauto.
Qed.
Lemma rl32_is_some d i : 0 ≤ i → i + 3 < zlen d → is_Some (rl32 d i).
Proof.
  intros. unfold rl32. destruct (rd_some d i) as [? ->]; [lia|].
  destruct (rd_some d (i + 1)) as [? ->]; [lia|]. destruct (rd_some d (i + 2)) as [? ->]; [lia|].
  destruct (rd_some d (i + 3)) as [? ->]; [lia|]. simpl. eauto.
Qed.

Lemma dOps_shape : (∀ d, obs_encoder_get_extra_data (trk_encoder t) = Some d → opus_head_ok d) →
  wskel (mp4_write_dOps t) (extra_skel t (leaf "dOps")).
Proof.
  intros Hd. unfold mp4_write_dOps, extra_skel.
  destruct (obs_encoder_get_extra_data _) as [d|]; [|apply wskel_start_ret].
  destruct (Hd d eq_refl) as [Hl Hmap].
  destruct (rd_some d 9) as [channels E9]; [lia|]. destruct (rd_some d 18) as [map E18]; [lia|].
  rewrite E9, E18. apply wskel_box; [done|]. intros b Hb.
  apply openf_field; [done|fld_solve|intros _].
  do 2 (eapply openf_deref; [done|]).
  destruct (rl16_is_some d 10) as [x ->]; [lia..|]. destruct (rl32_is_some d 12) as [y ->]; [lia..|].
  destruct (rl16_is_some d 16) as [z ->]; [lia..|].
  apply openf_field; [done|fld_solve|intros _]. eapply openf_deref; [done|].
  apply openf_field; [done|fld_solve|intros _]. eapply openf_deref; [done|].
  apply openf_field; [done|fld_solve|intros _]. eapply openf_deref; [done|].
  do 2 (apply openf_field; [done|fld_solve|intros _]).
  apply openf_field; [done| |intros _; by apply openf_close].
  destruct (Z.eqb_spec map 0) as [|Nz]; cbn [negb]; [fld_solve|].
  specialize (Hmap _ _ E9 E18 Nz). eapply deref_fld; [|fld_solve].
  unfold read_bytes. by rewrite (proj2 (Z.leb_le _ _)) by lia.
Qed.

Lemma Opus_shape version : (∀ d, obs_encoder_get_extra_data (trk_encoder t) = Some d → opus_head_ok d) →
  wskel (mp4_write_Opus mux t version) [Sk (str "Opus") (extra_skel t (leaf "dOps") ++ chnl_skel version)].
Proof.
  intros Hd. pose proof (dOps_shape Hd).
  eapply wskel_eq; [apply audio_box; [done|]; intros; kids|skel_eq].
Qed.

Lemma terminator_shape : wskel (S:=S) (s_wb32 8 ;;; s_wb32 0) [terminator].
Proof.
  intros p _. exists [Box [0; 0; 0; 0] [] []], tt. split; [|done].
  eapply emits_eq; [eapply emits_seq; [eauto with emits|reflexivity|eauto with emits]|reflexivity].
Qed.

Lemma frma_shape tag : zlen tag = 4 →
  wskel (S:=S) (s_wb32 12 ;;; s_put (str "frma") ;;; s_put tag) [leaf "frma"].
Proof.
  intros Ht p _. exists [Box (str "frma") tag []], tt. split; [|done].
  eapply emits_eq; [do 2 (eapply emits_seq; [eauto with emits|reflexivity|]); eauto with emits|].
  by rewrite enc_all_one, enc_leaf, Ht.
Qed.

Lemma openk_assoc2 {A B C D} b name sks (m1 : W S A) (m2 : W S B) (m3 : W S C) (k : W S D) sk :
  openk b name sks ((m1 ;;; m2 ;;; m3) ;;; k) sk → openk b name sks (m1 ;;; m2 ;;; m3 ;;; k) sk.
Proof.
  intros O body kids Hk. destruct (O body kids Hk) as (x & r & [L R] & E). exists x, r.
  split; [|done]. split; [done|]. intros s c Hc Hs' Hp. destruct (R s c Hc Hs' Hp) as (s' & Es & H').
  exists s'. split; [|done]. etrans; [|exact Es]. unfold bind.
  destruct (m1 s) as [[? s1]|]; [|done]. by destruct (m2 s1) as [[? s2]|].
Qed.

Lemma openk_assoc1 {A B D} b name sks (m1 : W S A) (m2 : W S B) (k : W S D) sk :
  openk b name sks ((m1 ;;; m2) ;;; k) sk → openk b name sks (m1 ;;; m2 ;;; k) sk.
Proof.
  intros O body kids Hk. destruct (O body kids Hk) as (x & r & [L R] & E). exists x, r.
  split; [|done]. split; [done|]. intros s c Hc Hs' Hp. destruct (R s c Hc Hs' Hp) as (s' & Es & H').
  exists s'. split; [|done]. etrans; [|exact Es]. unfold bind. by destruct (m1 s) as [[? s1]|].
Qed.

Lemma esds_unit_shape : wskel (mp4_write_esds t ;;; ret tt) [leaf "esds"].
Proof. apply (wskel_bind_ret _ (λ _, tt)), esds_shape. Qed.

Lemma wave_close b sks : 0 ≤ b →
  openk b (str "wave") sks (s_wb32 8 ;;; s_wb32 0 ;;; write_box_size b) (Sk (str "wave") (sks ++ [terminator])).
Proof.
  intros Hb. apply openk_assoc1.
  eapply openk_kid; [done|apply terminator_shape|intros _]. by apply openk_close.
Qed.

Lemma wave_frma {A} b tag (k : W S A) sk : 0 ≤ b → zlen tag = 4 →
  openk b (str "wave") [leaf "frma"] k sk →
  openf b (str "wave") (s_wb32 12 ;;; s_put (str "frma") ;;; s_put tag ;;; k) sk.
Proof.
  intros Hb Ht K. apply openf_openk, openk_assoc2.
  eapply openk_kid; [done|by apply frma_shape|intros _; exact K].
Qed.

Lemma wave_shape tag : zlen tag = 4 → wskel (mp4_write_wave t tag) [wave_skel t].
Proof.
  intros Ht. unfold mp4_write_wave, wave_skel. apply wskel_box; [done|]. intros b Hb.
  destruct (trk_codec t) eqn:Ec;
    try (apply wave_frma; [done..|];
         eapply openk_kid; [done|apply (wskel_ret tt)|intros _; by apply wave_close]).
  - apply wave_frma; [done..|].
    eapply openk_kid; [done|apply esds_unit_shape|intros _; by apply wave_close].
  - destruct (obs_encoder_get_extra_data _) as [d|].
    + do 4 (apply openf_field; [done|fld_solve|intros _]). apply openf_openk. by apply (wave_close b []).
    + apply wave_frma; [done..|].
      eapply openk_kid; [done|apply (wskel_ret tt)|intros _; by apply wave_close].
Qed.

Lemma chan_shape : wskel (mp4_write_chan t) (chan_skel t).
Proof.
  unfold mp4_write_chan, chan_skel. rewrite Ha. eapply wskel_pre_deref; [done|]. cbv zeta.
  destruct (get_mov_channel_layout _ _ =? _) eqn:E; cbn [andb];
    [destruct (get_mov_channel_bitmap _ =? 0); [apply wskel_start_ret|]|];
    (apply wskel_fullbox; [done|]; box_solve).
Qed.

Lemma opt_wave_shape tag version : zlen tag = 4 →
  wskel (if version =? 1 then mp4_write_wave t tag ;;; ret tt else ret tt)
    (if version =? 1 then [wave_skel t] else []).
Proof.
  intros Ht. destruct (version =? 1); [|apply wskel_ret].
  by apply (wskel_bind_ret _ (λ _, tt)), wave_shape.
Qed.

Lemma mov_audio_tag_len c tag : mov_audio_tag c = Some tag → zlen tag = 4.
Proof. by destruct c; intros [= <-]. Qed.

Lemma mov_audio_shape : wskel (mp4_write_mov_audio_tag mux t) (mov_audio_skel t).
Proof.
  unfold mp4_write_mov_audio_tag, mov_audio_skel, mov_version. rewrite Ha.
  eapply wskel_pre_deref; [done|]. cbv zeta.
  set (v := if is_pcm _ then _ else _).
  destruct (mov_audio_tag (trk_codec t)) as [tag|] eqn:E; [|apply wskel_start_ret].
  apply mov_audio_tag_len in E.
  eapply wskel_eq.
  - apply audio_box; [done|]. intros b Hb. apply openf_openk.
    eapply openk_kid; [done|by apply opt_wave_shape|intros _].
    eapply openk_kid; [done|apply chan_shape|intros _]. by apply openk_close.
  - reflexivity.
Qed.
End audio_shapes.

Section stsd.
Context {S : Type} `{AppendSerializer S} (env : mp4_env) (mux : mp4_mux).

Lemma text_shape : wskel (S:=S) mp4_write_text [leaf "text"].
Proof. apply wskel_fullbox; [done|]. box_solve. Qed.

(** A version that the code computes before it opens the box. *)
Lemma stsd_pre t (k : Z → Z → W S Z) sks : entry_ok env t →
  wskel (start <- serializer_get_pos ;; k start (stsd_version mux t)) sks →
  wskel (start <- serializer_get_pos ;;
         version <- (if is_audio t && negb (is_mov mux) then
                       audio <- deref (obs_encoder_audio (trk_encoder t)) ;;
                       ret (if 2 <? audio_output_get_channels audio then 1 else 0)
                     else ret 0) ;; k start version) sks.
Proof.
  intros Hok. apply wskel_ext. intros s. unfold bind, stsd_version, serializer_get_pos.
  destruct (is_audio t) eqn:Ea, (is_mov mux); try done. simpl.
  destruct (ok_audio env t Hok Ea) as (a & -> & _). done.
Qed.

(** The entry of a track has the shape its codec calls for. *)
Lemma entry_shape t version : entry_ok env t → version = stsd_version mux t →
  wskel (match trk_type t with
   | TRACK_VIDEO =>
       match trk_codec t with
       | CODEC_H264 => mp4_write_avc1 env mux (trk_encoder t)
       | CODEC_HEVC => mp4_write_hvc1 env mux (trk_encoder t)
       | CODEC_AV1 => mp4_write_av01 env mux (trk_encoder t)
       | CODEC_PRORES => mp4_write_prores env mux (trk_encoder t)
       | _ => ret 0
       end
   | TRACK_AUDIO =>
       if is_mov mux then mp4_write_mov_audio_tag mux t
       else
         match trk_codec t with
         | CODEC_AAC => mp4_write_mp4a mux t version
         | CODEC_OPUS => mp4_write_Opus mux t version
         | CODEC_FLAC => mp4_write_fLaC mux t version
         | CODEC_ALAC => mp4_write_alac mux t version
         | CODEC_PCM_I16 | CODEC_PCM_I24 | CODEC_PCM_F32 => mp4_write_xpcm mux t version
         | _ => ret 0
         end
   | TRACK_CHAPTERS => mp4_write_text
   | TRACK_UNKNOWN => ret 0
   end) (entry_skel mux t).
Proof.
  intros Hok ->. unfold entry_skel. destruct (trk_type t) eqn:Et.
  - apply wskel_ret.
  - assert (is_Some (obs_encoder_video (trk_encoder t))) as Hv.
    { apply (ok_video env t Hok). unfold is_video. by rewrite Et. }
    destruct (trk_codec t) eqn:Ec; try apply wskel_ret; eauto with shapes.
  - destruct (ok_audio env t Hok) as (a & Ha & Hs); [unfold is_audio; by rewrite Et|].
    destruct (is_mov mux); [by eapply mov_audio_shape|].
    pose proof (ok_extra env t Hok) as Hx.
    destruct (trk_codec t) eqn:Ec; try apply wskel_ret.
    + by eapply mp4a_shape.
    + by eapply Opus_shape.
    + by eapply fLaC_shape.
    + by eapply alac_shape.
    + eapply wskel_eq; [by eapply xpcm_shape|]. by rewrite Ec.
    + eapply wskel_eq; [by eapply xpcm_shape|]. by rewrite Ec.
    + eapply wskel_eq; [by eapply xpcm_shape|]. by rewrite Ec.
  - apply text_shape.
Qed.

Lemma stsd_shape t : entry_ok env t → wskel (mp4_write_stsd env mux t) [stsd_skel mux t].
Proof.
  intros Hok. unfold mp4_write_stsd. apply stsd_pre; [done|].
  apply wskel_fullbox; [done|]. intros b Hb. apply openf_field; [done|fld_solve|intros _].
  apply openf_openk. eapply openk_kid; [done|by apply entry_shape|intros _].
  by apply openk_close.
Qed.
End stsd.
