(* ===== verification/Mp4Table.v ===== *)
(** * Sample tables: plugins/obs-outputs/mp4-mux.c, lines 1315-1675

    [stts], [stss], [ctts], [stsc], [stsz], [stco]/[co64], the roll groups and [stbl];
    readers of the tables as a player would write them, and the theorems that the
    readers get back the samples and chunks the muxer recorded. *)

From S2P Require Import Prelude Util Serializer Encoder Mp4Types Mp4Box Mp4Header Mp4Entry.

Local Open Scope Z_scope.
Local Open Scope serializer_scope.

(** [struct chunk_run]. *)
Record chunk_run := mk_run { run_first : Z; run_samples : Z }.

(** One iteration of the loop that compresses the chunks. *)
Definition push_run (runs : list chunk_run) (idx : Z) (chk : chunk) : list chunk_run :=
  match last runs with
  | Some cr => if run_samples cr =? chk_samples chk then runs
               else runs ++ [mk_run (u32 (idx + 1)) (chk_samples chk)]
  | None => runs ++ [mk_run (u32 (idx + 1)) (chk_samples chk)]
  end.

Fixpoint chunk_runs_from (runs : list chunk_run) (idx : Z) (chunks : list chunk) : list chunk_run :=
  match chunks with
  | [] => runs
  | chk :: chunks => chunk_runs_from (push_run runs idx chk) (idx + 1) chunks
  end.

Definition chunk_runs (chunks : list chunk) : list chunk_run := chunk_runs_from [] 0 chunks.

(** The loops that count the pre-roll packets of an Opus track: [(count, remaining)]. *)
Fixpoint preroll_inner (n : nat) (delta : Z) (st : Z * Z) : Z * Z :=
  match n with
  | O => st
  | S n =>
      let '(count, remaining) := st in
      if 0 <? remaining then preroll_inner n delta (u16 (count + 1), remaining - delta) else st
  end.

Fixpoint preroll_outer (ds : list sample_delta) (st : Z * Z) : Z * Z :=
  match ds with
  | [] => st
  | d :: ds =>
      if 0 <? st.2 then preroll_outer ds (preroll_inner (Z.to_nat (delta_count d)) (delta_delta d) st)
      else st
  end.

Definition opus_preroll : Z := 3840.
Definition opus_preroll_count (ds : list sample_delta) : Z := (preroll_outer ds (0, opus_preroll)).1.

Section writers.
Context {S : Type} `{SerializerOps S} (env : mp4_env) (mux : mp4_mux).

Definition mp4_write_stts (track : mp4_track) (fragmented : bool) : W S Z :=
  if fragmented then
    write_fullbox 16 (str "stts") 0 0 ;;;
    s_wb32 0 ;;;
    ret 16
  else
    start <- serializer_get_pos ;;
    write_fullbox 0 (str "stts") 0 0 ;;;
    s_wb32 (u32 (zlen (deltas track))) ;;;
    for_each (deltas track) (λ smp,
      delta <- deref (mul_div64 (delta_delta smp) (timescale track) (timebase_den track)) ;;
      s_wb32 (delta_count smp) ;;;
      s_wb32 (u32 delta)) ;;;
    write_box_size start.

Definition mp4_write_stss (track : mp4_track) : W S Z :=
  let num := u32 (zlen (sync_samples track)) in
  if num =? 0 then ret 0 else
  let size := u32 (16 + 4 * num) in
  write_fullbox size (str "stss") 0 0 ;;;
  s_wb32 num ;;;
  for_each (take (Z.to_nat num) (sync_samples track)) s_wb32 ;;;
  ret size.

Definition mp4_write_ctts (track : mp4_track) : W S Z :=
  let num := u32 (zlen (offsets track)) in
  let version := if MP4_USE_NEGATIVE_CTS (flags mux) then 1 else 0 in
  let size := u32 (16 + 8 * num) in
  write_fullbox size (str "ctts") version 0 ;;;
  s_wb32 num ;;;
  for_each (take (Z.to_nat num) (offsets track)) (λ o,
    offset <- deref (checked_quot (off_offset o * timescale track) (timebase_den track)) ;;
    s_wb32 (off_count o) ;;;
    s_wb32 (u32 offset)) ;;;
  ret size.

Definition mp4_write_stsc (track : mp4_track) (fragmented : bool) : W S Z :=
  if fragmented then
    write_fullbox 16 (str "stsc") 0 0 ;;;
    s_wb32 0 ;;;
    ret 16
  else
    let runs := chunk_runs (chunks track) in
    let num := u32 (zlen runs) in
    let size := u32 (16 + 12 * num) in
    write_fullbox size (str "stsc") 0 0 ;;;
    s_wb32 num ;;;
    for_each (take (Z.to_nat num) runs) (λ cr,
      s_wb32 (run_first cr) ;;;
      s_wb32 (run_samples cr) ;;;
      s_wb32 1) ;;;
    ret size.

Definition mp4_write_stsz (track : mp4_track) (fragmented : bool) : W S Z :=
  if fragmented then
    write_fullbox 20 (str "stsz") 0 0 ;;;
    s_wb32 0 ;;;
    s_wb32 0 ;;;
    ret 20
  else
    start <- serializer_get_pos ;;
    write_fullbox 0 (str "stsz") 0 0 ;;;
    (if negb (sample_size track =? 0) then
       s_wb32 (sample_size track) ;;;
       s_wb32 (u32 (samples track))
     else
       s_wb32 0 ;;;
       s_wb32 (u32 (zlen (sample_sizes track))) ;;;
       for_each (sample_sizes track) s_wb32) ;;;
    write_box_size start.

(** [arr[num - 1]] with an unsigned [num]: undefined without chunks. *)
Definition mp4_write_stco (track : mp4_track) (fragmented : bool) : W S Z :=
  if fragmented then
    write_fullbox 16 (str "stco") 0 0 ;;;
    s_wb32 0 ;;;
    ret 16
  else
    let arr := chunks track in
    let num := u32 (zlen arr) in
    lastchk <- deref (if num =? 0 then None else arr !! Z.to_nat (num - 1)) ;;
    let co64 := UINT32_MAX <? chk_offset lastchk in
    let size := if co64 then u32 (16 + 8 * num) else u32 (16 + 4 * num) in
    write_fullbox size (if co64 then str "co64" else str "stco") 0 0 ;;;
    s_wb32 num ;;;
    for_each (take (Z.to_nat num) arr) (λ chk,
      if co64 then s_wb64 (chk_offset chk) else s_wb32 (u32 (chk_offset chk))) ;;;
    ret size.

Definition mp4_write_sgpd_aac : W S Z :=
  start <- serializer_get_pos ;;
  write_fullbox 0 (str "sgpd") 1 0 ;;;
  s_put (str "roll") ;;;
  s_wb32 2 ;;;
  s_wb32 1 ;;;
  s_wb16 (-1) ;;;
  write_box_size start.

Definition mp4_write_sbgp_aac (track : mp4_track) : W S Z :=
  start <- serializer_get_pos ;;
  write_fullbox 0 (str "sbgp") 0 0 ;;;
  s_put (str "roll") ;;;
  s_wb32 1 ;;;
  s_wb32 (u32 (samples track)) ;;;
  s_wb32 1 ;;;
  write_box_size start.

Definition mp4_write_sbgp_sbgp_opus (track : mp4_track) : W S Z :=
  start <- serializer_get_pos ;;
  write_fullbox 0 (str "sgpd") 1 0 ;;;
  s_put (str "roll") ;;;
  s_wb32 2 ;;;
  let preroll_count := opus_preroll_count (deltas track) in
  s_wb32 1 ;;;
  s_wb16 (- preroll_count) ;;;
  size_sgpd <- write_box_size start ;;
  start <- serializer_get_pos ;;
  write_fullbox 0 (str "sbgp") 0 0 ;;;
  s_put (str "roll") ;;;
  s_wb32 2 ;;;
  s_wb32 preroll_count ;;;
  s_wb32 0 ;;;
  s_wb32 (u32 (u32 (samples track) - preroll_count)) ;;;
  s_wb32 1 ;;;
  size_sbgp <- write_box_size start ;;
  ret (u64 (size_sgpd + size_sbgp)).

Definition mp4_write_stbl (track : mp4_track) (fragmented : bool) : W S Z :=
  start <- serializer_get_pos ;;
  write_box 0 (str "stbl") ;;;
  mp4_write_stsd env mux track ;;;
  mp4_write_stts track fragmented ;;;
  (if is_video track && negb fragmented && negb (bool_decide (trk_codec track = CODEC_PRORES))
   then mp4_write_stss track else ret 0) ;;;
  (if needs_ctts track && negb fragmented then mp4_write_ctts track else ret 0) ;;;
  mp4_write_stsc track fragmented ;;;
  mp4_write_stsz track fragmented ;;;
  mp4_write_stco track fragmented ;;;
  (if negb fragmented then
     match trk_codec track with
     | CODEC_AAC => mp4_write_sgpd_aac ;;; mp4_write_sbgp_aac track
     | CODEC_OPUS => mp4_write_sbgp_sbgp_opus track
     | _ => ret 0
     end
   else ret 0) ;;;
  write_box_size start.
End writers.

(** ** Readers *)

(** Run-length expansion of [(count, value)] entries. *)
Definition expand (l : list (Z * Z)) : list Z :=
  concat (map (λ e, replicate (Z.to_nat e.1) e.2) l).

(** Samples of the [i]-th chunk (from 1): the last run that starts at or before it. *)
Definition samples_in_chunk (runs : list (Z * Z * Z)) (i : Z) : option Z :=
  (λ r, r.1.2) <$> last (filter (λ r, r.1.1 ≤ i) runs).

(** Sizes: one for all samples, or one each. *)
Definition read_stsz (payload : bytes) : list Z :=
  let size := be_val (sub 4 4 payload) in
  let count := Z.to_nat (be_val (sub 8 4 payload)) in
  if size =? 0 then read_n count 4 be_val (drop 12 payload) else replicate count size.

Definition read_chunk_offsets (name payload : bytes) : list Z :=
  read_table (if bool_decide (name = str "co64") then 8 else 4)%nat be_val payload.

(** Composition offsets are signed in version 1. *)
Definition read_ctts (payload : bytes) : list (Z * Z) :=
  map (λ e, (e.1, if be_val (take 1 payload) =? 1 then i32 e.2 else e.2)) (read_table 8 read_pair payload).

(** ** Contents *)

Definition scaled (t : mp4_track) (d : Z) : Z := (d * timescale t) `div` timebase_den t.

(** The numbers of a track that the 32-bit fields of the tables can hold. *)
Record table_ok (t : mp4_track) : Prop := {
  ok_deltas : Forall (λ d, 0 ≤ delta_count d < 2 ^ 32 ∧ 0 ≤ delta_delta d ∧ scaled t (delta_delta d) < 2 ^ 32) (deltas t);
  ok_deltas_num : zlen (deltas t) < 2 ^ 32;
  ok_sync_num : zlen (sync_samples t) < 2 ^ 28;
  ok_offsets_num : zlen (offsets t) < 2 ^ 28;
  ok_chunks_num : 0 < zlen (chunks t) < 2 ^ 28
}.

Section contents.
Context {S : Type} `{AppendSerializer S} (mux : mp4_mux) (t : mp4_track).
Hypothesis (Hok : track_ok t) (Htab : table_ok t).

Lemma stts_writes :
  writes (mp4_write_stts t false)
    (Box (str "stts") (u8 0 :: be24 0 ++ be32 (zlen (deltas t)) ++
      concat (map (λ d, be32 (delta_count d) ++ be32 (scaled t (delta_delta d))) (deltas t))) []).
Proof.
  destruct Hok, Htab as [Hd Hn _ _ _]. apply writes_fullbox; [done|]. intros b Hb.
  pose proof (zlen_nonneg (deltas t)). rewrite u32_small by lia.
  rewrite <- (app_nil_r (be32 (zlen _) ++ _)), <- app_assoc.
  apply fills_field; [done|flds|]. apply fills_field; [done| |by apply fills_close].
  apply appends_for_each. eapply Forall_impl; [exact Hd|]. intros d (Hc & Hdd & Hs).
  eapply appends_deref; [apply mul_div64_some; lia|].
  assert (0 ≤ scaled t (delta_delta d)) by (apply Z.div_pos; nia).
  assert (delta_delta d < 2 ^ 64).
  { unfold scaled in *. destruct (Z.ltb_spec (delta_delta d) (2 ^ 64)); [done|].
    assert (2 ^ 32 ≤ (delta_delta d * timescale t) `div` timebase_den t); [|lia].
    apply Z.div_le_lower_bound; nia. }
  rewrite util_mul_div64_exact by (unfold scaled in *; lia). fold (scaled t (delta_delta d)).
  eapply appends_eq; [flds|]. by wrap_small.
Qed.

Lemma concat_len {A} (l : list A) (g : A → bytes) w :
  (∀ x, zlen (g x) = w) → zlen (concat (map g l)) = w * zlen l.
Proof. intros Hg. induction l as [|x l IH]; cbn [map concat]; [len_lia|]. rewrite zlen_app, Hg, IH. len_lia. Qed.

Lemma stss_writes : sync_samples t ≠ [] →
  writes (mp4_write_stss t)
    (Box (str "stss") (u8 0 :: be24 0 ++ be32 (zlen (sync_samples t)) ++
      concat (map be32 (sync_samples t))) []).
Proof.
  intros Hne. destruct Htab as [_ _ Hn _ _]. unfold mp4_write_stss.
  assert (0 < zlen (sync_samples t)) by (destruct (sync_samples t); [done|len_lia]).
  wrap_small. rewrite (proj2 (Z.eqb_neq _ _)), zlen_to_nat, firstn_all by lia.
  pose proof (concat_len (sync_samples t) be32 4 ltac:(done)).
  apply writes_sized2; [done|len_lia|unfold UINT32_MAX; lia|flds|].
  apply appends_for_each, Forall_forall. intros x _. flds.
Qed.

(** The composition offset of an entry, in the time scale of the track. *)
Definition scaled_offset (o : sample_offset) : Z := (off_offset o * timescale t) /c timebase_den t.

Lemma ctts_writes :
  writes (mp4_write_ctts mux t)
    (Box (str "ctts") (u8 (if MP4_USE_NEGATIVE_CTS (flags mux) then 1 else 0) :: be24 0 ++
      be32 (zlen (offsets t)) ++
      concat (map (λ o, be32 (off_count o) ++ be32 (scaled_offset o)) (offsets t))) []).
Proof.
  destruct Hok, Htab as [_ _ _ Hn _]. unfold mp4_write_ctts.
  pose proof (zlen_nonneg (offsets t)). wrap_small. rewrite zlen_to_nat, firstn_all.
  pose proof (concat_len (offsets t) (λ o, be32 (off_count o) ++ be32 (scaled_offset o)) 8 ltac:(done)).
  apply writes_sized2; [done|len_lia|unfold UINT32_MAX; lia|flds|].
  apply appends_for_each, Forall_forall. intros o _.
  eapply appends_deref; [unfold checked_quot; rewrite (proj2 (Z.eqb_neq _ _)); [done|lia]|].
  eapply appends_eq; [flds|]. unfold u32. by rewrite be32_mod by lia.
Qed.

Lemma chunk_runs_len runs idx cs : zlen (chunk_runs_from runs idx cs) ≤ zlen runs + zlen cs.
Proof.
  revert runs idx; induction cs as [|c cs IH]; intros runs idx; cbn [chunk_runs_from]; [len_lia|].
  specialize (IH (push_run runs idx c) (idx + 1)).
  assert (zlen (push_run runs idx c) ≤ zlen runs + 1); [|len_lia].
  unfold push_run. destruct (last runs); [destruct (_ =? _)|]; len_lia.
Qed.

Lemma stsc_writes :
  writes (mp4_write_stsc t false)
    (Box (str "stsc") (u8 0 :: be24 0 ++ be32 (zlen (chunk_runs (chunks t))) ++
      concat (map (λ cr, be32 (run_first cr) ++ be32 (run_samples cr) ++ be32 1)
                  (chunk_runs (chunks t)))) []).
Proof.
  destruct Htab as [_ _ _ _ Hn]. unfold mp4_write_stsc.
  pose proof (chunk_runs_len [] 0 (chunks t)) as Hr. fold (chunk_runs (chunks t)) in Hr.
  set (runs := chunk_runs (chunks t)) in *.
  pose proof (zlen_nonneg runs). rewrite zlen_nil in Hr. wrap_small. rewrite zlen_to_nat, firstn_all.
  pose proof (concat_len runs (λ cr, be32 (run_first cr) ++ be32 (run_samples cr) ++ be32 1) 12 ltac:(done)).
  apply writes_sized2; [done|len_lia|unfold UINT32_MAX; lia|flds|].
  apply appends_for_each, Forall_forall. intros cr _. flds.
Qed.

Definition stsz_payload : bytes :=
  u8 0 :: be24 0 ++
    (if sample_size t =? 0 then be32 0 ++ be32 (zlen (sample_sizes t)) ++ concat (map be32 (sample_sizes t))
     else be32 (sample_size t) ++ be32 (samples t)).

Lemma stsz_writes : writes (mp4_write_stsz t false) (Box (str "stsz") stsz_payload []).
Proof.
  apply writes_fullbox; [done|]. intros b Hb.
  rewrite <- (app_nil_r (if sample_size t =? 0 then _ else _)).
  apply fills_field; [done| |by apply fills_close].
  destruct (Z.eqb_spec (sample_size t) 0) as [->|Nz]; cbn [negb].
  - apply appends_seq; [flds|]. apply appends_seq; [eapply appends_eq; [flds|by rewrite be32_u32]|].
    apply appends_for_each, Forall_forall. intros x _. flds.
  - eapply appends_eq; [flds|]. by rewrite be32_u32.
Qed.

(** Offsets that ascend, so that the last decides the width. *)
Definition offsets_fit : Prop :=
  ∃ c, last (chunks t) = Some c ∧
    Forall (λ chk, 0 ≤ chk_offset chk ≤ chk_offset c) (chunks t) ∧ chk_offset c < 2 ^ 64.

Lemma stco_writes : ∀ c, last (chunks t) = Some c →
  let long := UINT32_MAX <? chk_offset c in
  writes (mp4_write_stco t false)
    (Box (if long then str "co64" else str "stco")
      (u8 0 :: be24 0 ++ be32 (zlen (chunks t)) ++
       concat (map (λ chk, if long then be64 (chk_offset chk) else be32 (chk_offset chk)) (chunks t))) []).
Proof.
  intros c Hc. destruct Htab as [_ _ _ _ Hn]. cbv zeta. unfold mp4_write_stco.
  rewrite (u32_small (zlen (chunks t))) by lia. rewrite (proj2 (Z.eqb_neq _ _)) by lia.
  apply (writes_deref _ c).
  { rewrite <- Hc, last_lookup. f_equal. unfold zlen in *. lia. }
  cbv zeta. rewrite zlen_to_nat, firstn_all.
  destruct (UINT32_MAX <? chk_offset c).
  - pose proof (concat_len (chunks t) (λ chk, be64 (chk_offset chk)) 8 ltac:(done)). wrap_small.
    apply writes_sized2; [done|len_lia|unfold UINT32_MAX; lia|flds|].
    apply appends_for_each, Forall_forall. intros x _. flds.
  - pose proof (concat_len (chunks t) (λ chk, be32 (chk_offset chk)) 4 ltac:(done)). wrap_small.
    apply writes_sized2; [done|len_lia|unfold UINT32_MAX; lia|flds|].
    apply appends_for_each, Forall_forall. intros x _. eapply appends_eq; [flds|by rewrite be32_u32].
Qed.
End contents.

(** ** What a player reads *)

Section claims.
Context {S : Type} `{AppendSerializer S} (mux : mp4_mux) (t : mp4_track).

(** The [stts] box of the final file gives every sample its duration in the time
    scale of the track: expanding its entries yields, for each recorded delta,
    [count] samples of duration [delta * timescale / timebase_den], exactly. *)
Theorem stts_sample_durations : track_ok t → table_ok t →
  ∃ payload, writes (S:=S) (mp4_write_stts t false) (Box (str "stts") payload []) ∧
    expand (read_table 8 read_pair payload) =
      concat (map (λ d, replicate (Z.to_nat (delta_count d)) (scaled t (delta_delta d))) (deltas t)).
Proof.
  intros Hok Htab. eexists. split; [by apply stts_writes|]. destruct Hok, Htab as [Hd Hn _ _ _].
  rewrite read_table_spec by done. unfold expand. rewrite map_map. f_equal.
  apply map_ext_Forall. eapply Forall_impl; [exact Hd|]. intros d (Hc & Hdd & Hs). cbv beta.
  rewrite read_pair_spec. assert (0 ≤ scaled t (delta_delta d)) by (apply Z.div_pos; nia).
  cbn [fst snd]. by wrap_small.
Qed.

(** Composition offsets survive the [ctts] box, negative ones in version 1 too:
    each entry is read back as its count and [offset * timescale / timebase_den]
    with C's rounding towards zero. *)
Theorem ctts_sample_offsets : track_ok t → table_ok t →
  Forall (λ o, 0 ≤ off_count o < 2 ^ 32 ∧
    if MP4_USE_NEGATIVE_CTS (flags mux) then - 2 ^ 31 ≤ scaled_offset t o < 2 ^ 31
    else 0 ≤ scaled_offset t o < 2 ^ 32) (offsets t) →
  ∃ payload, writes (S:=S) (mp4_write_ctts mux t) (Box (str "ctts") payload []) ∧
    read_ctts payload = map (λ o, (off_count o, scaled_offset t o)) (offsets t).
Proof.
  intros Hok Htab Ho. eexists. split; [by apply ctts_writes|]. destruct Htab as [_ _ _ Hn _].
  unfold read_ctts. rewrite read_table_spec by (done || lia). rewrite map_map.
  apply map_ext_Forall. eapply Forall_impl; [exact Ho|]. intros o (Hc & Hs). cbv beta.
  rewrite read_pair_spec. cbn [fst snd]. rewrite (u32_small (off_count o)) by lia. f_equal.
  destruct (MP4_USE_NEGATIVE_CTS (flags mux)).
  - change (be_val (take 1 _) =? 1) with true. cbv iota.
    unfold i32, u32. rewrite Zplus_mod_idemp_l. rewrite Z.mod_small; lia.
  - change (be_val (take 1 _) =? 1) with false. cbv iota. by wrap_small.
Qed.

(** Sync samples are listed exactly: a player that reads [stss] sees the sample
    numbers the muxer recorded for keyframes. *)
Theorem stss_sync_samples : table_ok t → sync_samples t ≠ [] →
  Forall (λ n, 0 ≤ n < 2 ^ 32) (sync_samples t) →
  ∃ payload, writes (S:=S) (mp4_write_stss t) (Box (str "stss") payload []) ∧
    read_table 4 be_val payload = sync_samples t.
Proof.
  intros Htab Hne HF. eexists. split; [by apply stss_writes|]. destruct Htab as [_ _ Hn _ _].
  rewrite read_table_spec by (done || lia). etrans; [|apply map_id].
  apply map_ext_Forall. eapply Forall_impl; [exact HF|]. intros n Hn'. cbv beta in *. rewrite be32_val. by wrap_small.
Qed.

(** The runs cover the chunks processed so far, each starting at or before them. *)
Definition runs_cover (runs : list chunk_run) (cs : list chunk) : Prop :=
  Forall (λ r, 1 ≤ run_first r ≤ zlen cs) runs ∧ (cs ≠ [] → runs ≠ []) ∧
  ∀ i c, cs !! i = Some c →
    run_samples <$> last (filter (λ r, run_first r ≤ Z.of_nat i + 1) runs) = Some (chk_samples c).

Lemma filter_all {A} (P : A → Prop) `{∀ x, Decision (P x)} l : Forall P l → filter P l = l.
Proof. induction 1 as [|x l Hx _ IH]; [done|]. by rewrite filter_cons_True, IH. Qed.

Lemma filter_snoc_out {A} (P : A → Prop) `{∀ x, Decision (P x)} l x :
  ¬ P x → filter P (l ++ [x]) = filter P l.
Proof. intros N. by rewrite filter_app, filter_cons_False, app_nil_r. Qed.

Lemma push_run_cover runs cs c : zlen cs < 2 ^ 31 →
  runs_cover runs cs → runs_cover (push_run runs (zlen cs) c) (cs ++ [c]).
Proof.
  intros Hl (HF & Hne & Hlk). pose proof (zlen_nonneg cs).
  assert (∀ i, filter (λ r, run_first r ≤ Z.of_nat i + 1) runs = runs ∨ Z.of_nat i + 1 < zlen cs) as Hall.
  { intros i. destruct (decide (zlen cs ≤ Z.of_nat i + 1)); [left|right; lia].
    apply filter_all. eapply Forall_impl; [exact HF|]. simpl. lia. }
  assert (∀ r, run_first r = zlen cs + 1 → run_samples r = chk_samples c →
    runs_cover (runs ++ [r]) (cs ++ [c])) as Hnew.
  { intros r Hr Hsm. split; [|split].
    - rewrite zlen_app. apply Forall_app; split; [|constructor; [len_lia|done]].
      eapply Forall_impl; [exact HF|]. simpl. intros; len_lia.
    - intros _. by destruct runs.
    - intros i c' Hi. apply lookup_app_Some in Hi as [Hi|[Hge Hi]].
      + rewrite filter_snoc_out; [by apply Hlk|]. apply lookup_lt_Some in Hi. unfold zlen in *. lia.
      + apply list_lookup_singleton_Some in Hi as [Hi <-].
        rewrite filter_app, filter_cons_True, filter_nil, last_snoc by (unfold zlen in *; lia). simpl. by rewrite Hsm. }
  unfold push_run. destruct (last runs) as [cr|] eqn:El.
  2: { apply Hnew; [simpl; wrap_small; lia|done]. }
  destruct (Z.eqb_spec (run_samples cr) (chk_samples c)) as [E|N].
  2: { apply Hnew; [simpl; wrap_small; lia|done]. }
  split; [|split].
  - rewrite zlen_app. eapply Forall_impl; [exact HF|]. simpl. intros; len_lia.
  - intros _ ->. done.
  - intros i c' Hi. apply lookup_app_Some in Hi as [Hi|[Hge Hi]]; [by apply Hlk|].
    apply list_lookup_singleton_Some in Hi as [Hi <-].
    destruct (Hall i) as [->|?]; [|unfold zlen in *; lia]. rewrite El. simpl. by rewrite E.
Qed.

Lemma chunk_runs_cover runs pre cs : zlen (pre ++ cs) < 2 ^ 31 →
  runs_cover runs pre → runs_cover (chunk_runs_from runs (zlen pre) cs) (pre ++ cs).
Proof.
  revert runs pre; induction cs as [|c cs IH]; intros runs pre Hl Hc; cbn [chunk_runs_from].
  - by rewrite app_nil_r.
  - replace (zlen pre + 1) with (zlen (pre ++ [c])) by len_lia.
    replace (pre ++ c :: cs) with ((pre ++ [c]) ++ cs) in * by (by rewrite <- app_assoc).
    apply IH; [done|]. apply push_run_cover; [len_lia|done].
Qed.

Lemma filter_map_run (runs : list chunk_run) i :
  Forall (λ r, 0 ≤ run_first r < 2 ^ 32 ∧ 0 ≤ run_samples r < 2 ^ 32) runs →
  samples_in_chunk (map (λ r, (u32 (run_first r), u32 (run_samples r), u32 1)) runs) i =
  run_samples <$> last (filter (λ r, run_first r ≤ i) runs).
Proof.
  intros HF. unfold samples_in_chunk.
  assert (filter (λ r : Z * Z * Z, r.1.1 ≤ i) (map (λ r, (u32 (run_first r), u32 (run_samples r), u32 1)) runs) =
    map (λ r, (run_first r, run_samples r, 1)) (filter (λ r, run_first r ≤ i) runs)) as ->.
  { induction HF as [|r runs [H1 H2] _ IH]; [done|]. cbn [map].
    rewrite !(filter_cons _ _). cbn [fst].
    rewrite (u32_small (run_first r)), (u32_small (run_samples r)) by lia.
    destruct (decide (run_first r ≤ i)); by rewrite IH. }
  change (map ?f ?l) with (f <$> l). rewrite fmap_last. by destruct (last _).
Qed.

Lemma push_run_bound runs idx c :
  Forall (λ r, 0 ≤ run_first r < 2 ^ 32 ∧ 0 ≤ run_samples r < 2 ^ 32) runs → 0 ≤ chk_samples c < 2 ^ 32 →
  Forall (λ r, 0 ≤ run_first r < 2 ^ 32 ∧ 0 ≤ run_samples r < 2 ^ 32) (push_run runs idx c).
Proof.
  intros HF Hc. unfold push_run. pose proof (u32_range (idx + 1)).
  destruct (last runs); [destruct (_ =? _); [done|]|];
    (apply Forall_app; split; [done|constructor; [simpl; lia|done]]).
Qed.

Lemma chunk_runs_bound runs idx cs :
  Forall (λ r, 0 ≤ run_first r < 2 ^ 32 ∧ 0 ≤ run_samples r < 2 ^ 32) runs →
  Forall (λ c, 0 ≤ chk_samples c < 2 ^ 32) cs →
  Forall (λ r, 0 ≤ run_first r < 2 ^ 32 ∧ 0 ≤ run_samples r < 2 ^ 32) (chunk_runs_from runs idx cs).
Proof.
  intros HF Hcs. revert runs idx HF; induction Hcs as [|c cs Hc _ IH]; intros runs idx HF; [done|].
  cbn [chunk_runs_from]. apply IH. by apply push_run_bound.
Qed.

(** C34: The run-length compressed [stsc] box is lossless: a player that looks up the
    number of samples of any chunk gets the number the muxer recorded for it. *)
Theorem stsc_samples_per_chunk : table_ok t →
  Forall (λ c, 0 ≤ chk_samples c < 2 ^ 32) (chunks t) →
  ∃ payload, writes (S:=S) (mp4_write_stsc t false) (Box (str "stsc") payload []) ∧
    ∀ i c, chunks t !! i = Some c →
      samples_in_chunk (read_table 12 read_triple payload) (Z.of_nat i + 1) = Some (chk_samples c).
Proof.
  intros Htab Hc. eexists. split; [by apply stsc_writes|]. destruct Htab as [_ _ _ _ Hn].
  pose proof (chunk_runs_len [] 0 (chunks t)) as Hr. change (@zlen chunk_run []) with 0 in Hr.
  intros i c Hi. unfold chunk_runs. rewrite read_table_spec by (done || lia).
  rewrite (map_ext _ (λ r, (u32 (run_first r), u32 (run_samples r), u32 1))) by (intros; apply read_triple_spec).
  rewrite filter_map_run by (by apply chunk_runs_bound).
  destruct (chunk_runs_cover [] [] (chunks t)) as (_ & _ & Hlk); [simpl; lia| |].
  - split; [done|]. split; [done|]. intros j c' Hj. by rewrite lookup_nil in Hj.
  - by apply Hlk.
Qed.

(** Sample sizes are read back from [stsz]: one per sample, or the fixed size of
    PCM audio for every sample. *)
Theorem stsz_sample_sizes :
  0 ≤ sample_size t < 2 ^ 32 → 0 ≤ samples t < 2 ^ 32 → zlen (sample_sizes t) < 2 ^ 32 →
  Forall (λ n, 0 ≤ n < 2 ^ 32) (sample_sizes t) →
  ∃ payload, writes (S:=S) (mp4_write_stsz t false) (Box (str "stsz") payload []) ∧
    read_stsz payload =
      if sample_size t =? 0 then sample_sizes t
      else replicate (Z.to_nat (samples t)) (sample_size t).
Proof.
  intros Hs Hn Hl HF. exists (stsz_payload t). split; [by apply stsz_writes|].
  unfold read_stsz, stsz_payload. pose proof (zlen_nonneg (sample_sizes t)).
  destruct (Z.eqb_spec (sample_size t) 0) as [E|N].
  - change (sub 4 4 _) with (be32 0). change (sub 8 4 _) with (be32 (zlen (sample_sizes t))).
    change (drop 12 _) with (concat (map be32 (sample_sizes t))).
    rewrite !be32_val. wrap_small. rewrite zlen_to_nat. change (0 =? 0) with true. cbv iota.
    rewrite <- (app_nil_r (concat _)), (read_n_concat _ 4 be_val be32) by done.
    etrans; [|apply map_id].
    apply map_ext_Forall. eapply Forall_impl; [exact HF|]. intros x Hx. cbv beta in *. rewrite be32_val. by wrap_small.
  - change (sub 4 4 _) with (be32 (sample_size t)). change (sub 8 4 _) with (be32 (samples t)).
    rewrite !be32_val. wrap_small. by rewrite (proj2 (Z.eqb_neq _ _)).
Qed.

(** Chunk offsets are read back exactly, from [stco] or from the 64-bit [co64]:
    the width is chosen by the last chunk, which is enough because chunks ascend. *)
Theorem stco_chunk_offsets : table_ok t → offsets_fit t →
  ∃ name payload, writes (S:=S) (mp4_write_stco t false) (Box name payload []) ∧
    read_chunk_offsets name payload = map chk_offset (chunks t).
Proof.
  intros Htab (c & Hc & HF & Hmax). do 2 eexists. split; [by apply stco_writes|].
  destruct Htab as [_ _ _ _ Hn]. unfold read_chunk_offsets.
  destruct (Z.ltb_spec UINT32_MAX (chk_offset c)) as [Hlong|Hshort]; unfold UINT32_MAX in *.
  - rewrite bool_decide_eq_true_2 by done. rewrite read_table_spec by (done || lia).
    apply map_ext_Forall. eapply Forall_impl; [exact HF|]. intros x Hx. simpl in Hx.
    rewrite be64_val. by wrap_small.
  - rewrite bool_decide_eq_false_2 by done. rewrite read_table_spec by (done || lia).
    apply map_ext_Forall. eapply Forall_impl; [exact HF|]. intros x Hx. simpl in Hx.
    rewrite be32_val. by wrap_small.
Qed.
End claims.

(** ** Shapes *)

Section skels.
Context (mux : mp4_mux) (t : mp4_track) (fragmented : bool).

Definition stss_skel : list skel :=
  if is_video t && negb fragmented && negb (bool_decide (trk_codec t = CODEC_PRORES)) then
    match sync_samples t with [] => [] | _ => [leaf "stss"] end
  else [].

Definition ctts_skel : list skel :=
  if needs_ctts t && negb fragmented then [leaf "ctts"] else [].

Definition stco_skel : skel :=
  if fragmented then leaf "stco"
  else match last (chunks t) with
       | Some c => if UINT32_MAX <? chk_offset c then leaf "co64" else leaf "stco"
       | None => leaf "stco"
       end.

(** Roll groups: sample group description and sample to group. *)
Definition roll_skel : list skel :=
  if negb fragmented then
    match trk_codec t with
    | CODEC_AAC | CODEC_OPUS => [leaf "sgpd"; leaf "sbgp"]
    | _ => []
    end
  else [].

Definition stbl_skel : skel :=
  Sk (str "stbl") ([stsd_skel mux t] ++ [leaf "stts"] ++ stss_skel ++ ctts_skel ++
    [leaf "stsc"] ++ [leaf "stsz"] ++ [stco_skel] ++ roll_skel).
End skels.

Section shapes.
Context {S : Type} `{AppendSerializer S} (env : mp4_env) (mux : mp4_mux) (t : mp4_track).
Context (fragmented : bool).
Hypothesis (Hok : track_ok t) (Htab : fragmented = false → table_ok t).

Lemma table_stub name size m : zlen name = 4 → 12 ≤ size ≤ UINT32_MAX → fldn (size - 12) m →
  wskel (S:=S) (A:=Z) (write_fullbox size name 0 0 ;;; m) [Sk name []].
Proof. intros. by apply wskel_sized_full. Qed.

Lemma stts_shape : wskel (mp4_write_stts t fragmented) [leaf "stts"].
Proof.
  unfold mp4_write_stts. destruct fragmented eqn:E.
  - apply table_stub; [done..|]. eapply fldn_eq; [fields|reflexivity].
  - eapply writes_wskel. apply stts_writes; [done|by apply Htab].
Qed.

Lemma stss_shape :
  wskel (if is_video t && negb fragmented && negb (bool_decide (trk_codec t = CODEC_PRORES))
         then mp4_write_stss t else ret 0) (stss_skel t fragmented).
Proof.
  unfold stss_skel. destruct (is_video t && negb fragmented && _) eqn:E; [|apply wskel_ret].
  assert (fragmented = false) as F by (by destruct (is_video t), fragmented).
  destruct (sync_samples t) as [|n l] eqn:El.
  - apply (wskel_ext _ (ret 0)); [|apply wskel_ret]. intros s. unfold mp4_write_stss. by rewrite El.
  - eapply writes_wskel. apply stss_writes; [by apply Htab|by rewrite El].
Qed.

Lemma ctts_shape :
  wskel (if needs_ctts t && negb fragmented then mp4_write_ctts mux t else ret 0)
    (ctts_skel t fragmented).
Proof.
  unfold ctts_skel. destruct (needs_ctts t && negb fragmented) eqn:E; [|apply wskel_ret].
  eapply writes_wskel. apply ctts_writes; [done|]. apply Htab. by destruct (needs_ctts t), fragmented.
Qed.

Lemma stsc_shape : wskel (mp4_write_stsc t fragmented) [leaf "stsc"].
Proof.
  unfold mp4_write_stsc. destruct fragmented eqn:E.
  - apply table_stub; [done..|]. eapply fldn_eq; [fields|reflexivity].
  - eapply writes_wskel. apply stsc_writes. by apply Htab.
Qed.

Lemma stsz_shape : wskel (mp4_write_stsz t fragmented) [leaf "stsz"].
Proof.
  unfold mp4_write_stsz. destruct fragmented eqn:E.
  - apply table_stub; [done..|]. eapply fldn_eq; [fields|reflexivity].
  - eapply writes_wskel. apply stsz_writes.
Qed.

Lemma stco_shape : wskel (mp4_write_stco t fragmented) [stco_skel t fragmented].
Proof.
  unfold mp4_write_stco, stco_skel. destruct fragmented eqn:E.
  - apply table_stub; [done..|]. eapply fldn_eq; [fields|reflexivity].
  - destruct (last (chunks t)) as [c|] eqn:Ec.
    + pose proof (stco_writes (S:=S) t (Htab eq_refl) c Ec) as W. simpl in W. unfold mp4_write_stco in W.
      destruct (UINT32_MAX <? chk_offset c); by eapply writes_wskel.
    + apply last_None in Ec. pose proof (ok_chunks_num t (Htab eq_refl)) as Hc. rewrite Ec in Hc.
      change (zlen []) with 0 in Hc. lia.
Qed.

Lemma sgpd_aac_shape : wskel (S:=S) mp4_write_sgpd_aac [leaf "sgpd"].
Proof. apply wskel_fullbox; [done|]. box_solve. Qed.
Lemma sbgp_aac_shape : wskel (S:=S) (mp4_write_sbgp_aac t) [leaf "sbgp"].
Proof. apply wskel_fullbox; [done|]. box_solve. Qed.

Lemma sbgp_opus_shape : wskel (S:=S) (mp4_write_sbgp_sbgp_opus t) [leaf "sgpd"; leaf "sbgp"].
Proof.
  change [leaf "sgpd"; leaf "sbgp"] with ([leaf "sgpd"] ++ [leaf "sbgp"]).
  set (n := opus_preroll_count (deltas t)).
  apply (wskel_ext _ (bind (start <- serializer_get_pos ;;
      write_fullbox 0 (str "sgpd") 1 0 ;;; s_put (str "roll") ;;; s_wb32 2 ;;; s_wb32 1 ;;;
      s_wb16 (- n) ;;; write_box_size start) (λ size_sgpd,
      bind (start <- serializer_get_pos ;;
        write_fullbox 0 (str "sbgp") 0 0 ;;; s_put (str "roll") ;;; s_wb32 2 ;;; s_wb32 n ;;; s_wb32 0 ;;;
        s_wb32 (u32 (u32 (samples t) - n)) ;;; s_wb32 1 ;;; write_box_size start) (λ size_sbgp,
      ret (u64 (size_sgpd + size_sbgp)))))).
  { intros s. unfold mp4_write_sbgp_sbgp_opus. fold n. cbv zeta. unfold bind.
    repeat (match goal with |- context [match ?m with Some _ => _ | None => _ end] => destruct m as [[? ?]|] end;
            [|reflexivity]). reflexivity. }
  apply wskel_bind; [|intros x; apply wskel_bind_ret]; (apply wskel_fullbox; [done|]; box_solve).
Qed.

Lemma roll_shape :
  wskel (S:=S) (if negb fragmented then
     match trk_codec t with
     | CODEC_AAC => mp4_write_sgpd_aac ;;; mp4_write_sbgp_aac t
     | CODEC_OPUS => mp4_write_sbgp_sbgp_opus t
     | _ => ret 0
     end
   else ret 0) (roll_skel t fragmented).
Proof.
  unfold roll_skel. destruct (negb fragmented); [|apply wskel_ret].
  destruct (trk_codec t); try apply wskel_ret; [|apply sbgp_opus_shape].
  apply (wskel_bind _ _ [leaf "sgpd"]); [apply sgpd_aac_shape|intros _; apply sbgp_aac_shape].
Qed.

Lemma stbl_shape : entry_ok env t →
  wskel (mp4_write_stbl env mux t fragmented) [stbl_skel mux t fragmented].
Proof.
  intros Hen. eapply wskel_eq.
  - apply wskel_box; [done|]. intros b Hb. apply openf_openk.
    eapply openk_kid; [done|by apply stsd_shape|intros _].
    eapply openk_kid; [done|apply stts_shape|intros _].
    eapply openk_kid; [done|apply stss_shape|intros _].
    eapply openk_kid; [done|apply ctts_shape|intros _].
    eapply openk_kid; [done|apply stsc_shape|intros _].
    eapply openk_kid; [done|apply stsz_shape|intros _].
    eapply openk_kid; [done|apply stco_shape|intros _].
    eapply openk_kid; [done|apply roll_shape|intros _].
    by apply openk_close.
  - unfold stbl_skel. skel_eq.
Qed.
End shapes.

(** ** Examples *)

(** Four samples in two chunks, with durations 1, 1, 1 and 2 in units of 1/30 s and a
    media time scale of 60. *)
Definition ex_tables : mp4_track :=
  mk_track TRACK_VIDEO CODEC_H264 1 4 5 None 1 30 60 0 0 [] 0 [300; 20; 10; 25]
    [mk_chunk 1000 320 2; mk_chunk 5000 35 2] [mk_delta 3 1; mk_delta 1 2] true 0
    [mk_offset 1 0; mk_offset 2 (-1); mk_offset 1 1] [1; 3] [].
Definition ex_tables_mux : mp4_mux :=
  mk_mux FLAVOR_MP4 (mk_flags false false false true) 1 0 0 28 1 [ex_tables] None.

Lemma ex_tables_track_ok : track_ok ex_tables.
Proof. by split. Qed.
Lemma ex_tables_ok : table_ok ex_tables.
Proof. split; [all_bytes|by vm_compute..]. Qed.

Lemma stts_sample_durations_witness :
  ∃ payload, writes (S:=array_output_data) (mp4_write_stts ex_tables false) (Box (str "stts") payload []) ∧
    expand (read_table 8 read_pair payload) = [2; 2; 2; 4].
Proof. exact (stts_sample_durations ex_tables ex_tables_track_ok ex_tables_ok). Defined.

Lemma ctts_sample_offsets_witness :
  ∃ payload, writes (S:=array_output_data) (mp4_write_ctts ex_tables_mux ex_tables) (Box (str "ctts") payload []) ∧
    read_ctts payload = [(1, 0); (2, -2); (1, 2)].
Proof. refine (ctts_sample_offsets ex_tables_mux ex_tables ex_tables_track_ok ex_tables_ok _). all_bytes. Defined.

Lemma stss_sync_samples_witness :
  ∃ payload, writes (S:=array_output_data) (mp4_write_stss ex_tables) (Box (str "stss") payload []) ∧
    read_table 4 be_val payload = [1; 3].
Proof. refine (stss_sync_samples ex_tables ex_tables_ok _ _); [done|all_bytes]. Defined.

Lemma stsc_samples_per_chunk_witness :
  ∃ payload, writes (S:=array_output_data) (mp4_write_stsc ex_tables false) (Box (str "stsc") payload []) ∧
    ∀ i c, chunks ex_tables !! i = Some c →
      samples_in_chunk (read_table 12 read_triple payload) (Z.of_nat i + 1) = Some (chk_samples c).
Proof. refine (stsc_samples_per_chunk ex_tables ex_tables_ok _). all_bytes. Defined.

Lemma stsz_sample_sizes_witness :
  ∃ payload, writes (S:=array_output_data) (mp4_write_stsz ex_tables false) (Box (str "stsz") payload []) ∧
    read_stsz payload = [300; 20; 10; 25].
Proof. refine (stsz_sample_sizes ex_tables _ _ _ _); [done..|all_bytes]. Defined.

Lemma stco_chunk_offsets_witness :
  ∃ name payload, writes (S:=array_output_data) (mp4_write_stco ex_tables false) (Box name payload []) ∧
    read_chunk_offsets name payload = [1000; 5000].
Proof.
  refine (stco_chunk_offsets ex_tables ex_tables_ok _).
  exists (mk_chunk 5000 35 2). split; [done|]. split; [all_bytes|done].
Defined.
