(* ===== verification/Mp4Moov.v ===== *)
(** * The movie box: plugins/obs-outputs/mp4-mux.c, lines 1677-2208

    Data references, edit lists, track and movie boxes and the metadata, one
    definition per function. [moov_shape] is the contract of the whole tree. *)

From S2P Require Import Prelude Util Serializer Encoder Avc Mp4Types Mp4Box Mp4Header Mp4Entry Mp4Table.

Local Open Scope Z_scope.
Local Open Scope serializer_scope.

(** ["OBS Studio (" version ")"]. *)
Definition tool_value (env : mp4_env) : bytes :=
  str "OBS Studio (" ++ env_version_string env ++ str ")".

(** The character 0xa9 that prefixes some QuickTime tags. *)
Definition tag_a9 (s : string) : bytes := 169 :: str s.

Section writers.
Context {S : Type} `{SerializerOps S} (env : mp4_env) (mux : mp4_mux).

Definition mp4_write_url : W S Z :=
  start <- serializer_get_pos ;;
  write_fullbox 0 (str "url ") 0 1 ;;;
  write_box_size start.

(** The name is given as ["dref "]; four bytes of it are written. *)
Definition mp4_write_dref : W S Z :=
  start <- serializer_get_pos ;;
  write_fullbox 0 (take 4 (str "dref ")) 0 0 ;;;
  s_wb32 1 ;;;
  mp4_write_url ;;;
  write_box_size start.

Definition mp4_write_dinf : W S Z :=
  start <- serializer_get_pos ;;
  write_box 0 (str "dinf") ;;;
  mp4_write_dref ;;;
  write_box_size start.

Definition mp4_write_minf (track : mp4_track) (fragmented : bool) : W S Z :=
  start <- serializer_get_pos ;;
  write_box 0 (str "minf") ;;;
  (match trk_type track with
   | TRACK_VIDEO => mp4_write_vmhd
   | TRACK_CHAPTERS => mp4_write_gmhd
   | _ => mp4_write_smhd
   end) ;;;
  (if is_mov mux then mp4_write_hdlr mux None else ret 0) ;;;
  mp4_write_dinf ;;;
  mp4_write_stbl env mux track fragmented ;;;
  write_box_size start.

Definition mp4_write_mdia (track : mp4_track) (fragmented : bool) : W S Z :=
  start <- serializer_get_pos ;;
  write_box 0 (str "mdia") ;;;
  mp4_write_mdhd mux track ;;;
  mp4_write_hdlr mux (Some track) ;;;
  mp4_write_minf track fragmented ;;;
  write_box_size start.

Definition mp4_write_udta_atom (tag val : bytes) : W S Z :=
  start <- serializer_get_pos ;;
  write_box 0 tag ;;;
  s_put val ;;;
  write_box_size start.

(** The id is written when the encoder has a name; [strlen(NULL)] is undefined. *)
Definition mp4_write_track_udta (track : mp4_track) : W S Z :=
  start <- serializer_get_pos ;;
  write_box 0 (str "udta") ;;;
  let name := obs_encoder_get_name (trk_encoder track) in
  (match name with Some name => mp4_write_udta_atom (str "name") name | None => ret 0 end) ;;;
  (if MP4_WRITE_ENCODER_INFO (flags mux) then
     let id := obs_encoder_get_id (trk_encoder track) in
     (match name with
      | Some _ => id <- deref id ;; mp4_write_udta_atom (tag_a9 "enc") id
      | None => ret 0
      end) ;;;
     (match obs_encoder_get_settings (trk_encoder track) with
      | Some settings => mp4_write_udta_atom (str "json") (set_json settings)
      | None => ret 0
      end)
   else ret 0) ;;;
  write_box_size start.

(** Edit list: [(duration, delay)] of the single entry. *)
Definition elst_entry (track : mp4_track) : option (Z * Z) :=
  d ← mul_div64 (duration track) 1000 (timebase_den track);
  if is_video track && negb (MP4_USE_NEGATIVE_CTS (flags mux)) then
    let dts_offset :=
      match offsets track, packets track with
      | o :: _, _ => off_offset o
      | [], pkt :: _ => i64 (pkt_pts pkt - pkt_dts pkt)
      | [], [] => 0
      end in
    delay ← mul_div64 dts_offset (timescale track) (timebase_den track);
    Some (d, delay)
  else if is_audio track && (first_pts track <? 0) then
    delay ← mul_div64 (Z.abs (first_pts track)) (timescale track) (timebase_den track);
    priming ← mul_div64 delay 1000 (timescale track);
    Some (u64 (d - priming), delay)
  else Some (d, 0).

Definition mp4_write_elst (track : mp4_track) : W S Z :=
  start <- serializer_get_pos ;;
  write_fullbox 0 (str "elst") 0 0 ;;;
  s_wb32 1 ;;;
  entry <- deref (elst_entry track) ;;
  s_wb32 (u32 entry.1) ;;;
  s_wb32 (u32 entry.2) ;;;
  s_wb32 (Z.shiftl 1 16) ;;;
  write_box_size start.

Definition mp4_write_edts (track : mp4_track) : W S Z :=
  start <- serializer_get_pos ;;
  write_box 0 (str "edts") ;;;
  mp4_write_elst track ;;;
  write_box_size start.

Definition mp4_write_chap : W S Z :=
  start <- serializer_get_pos ;;
  write_box 0 (str "chap") ;;;
  chapter_track <- deref (chapter_track mux) ;;
  s_wb32 (track_id chapter_track) ;;;
  write_box_size start.

Definition mp4_write_tref : W S Z :=
  start <- serializer_get_pos ;;
  write_box 0 (str "tref") ;;;
  mp4_write_chap ;;;
  write_box_size start.

Definition is_chapters (t : mp4_track) : bool :=
  match trk_type t with TRACK_CHAPTERS => true | _ => false end.

Definition mp4_write_trak (track : mp4_track) (fragmented : bool) : W S Z :=
  start <- serializer_get_pos ;;
  if negb fragmented && (zlen (chunks track) =? 0) then ret 0 else
  write_box 0 (str "trak") ;;;
  mp4_write_tkhd mux track ;;;
  mp4_write_edts track ;;;
  (if bool_decide (is_Some (chapter_track mux)) && negb (is_chapters track)
   then mp4_write_tref else ret 0) ;;;
  mp4_write_mdia track fragmented ;;;
  mp4_write_track_udta track ;;;
  write_box_size start.

Definition mp4_write_trex (track_id : Z) : W S Z :=
  write_fullbox 32 (str "trex") 0 0 ;;;
  s_wb32 track_id ;;;
  s_wb32 1 ;;;
  s_wb32 0 ;;;
  s_wb32 0 ;;;
  s_wb32 0 ;;;
  ret 32.

Definition mp4_write_mvex : W S Z :=
  start <- serializer_get_pos ;;
  write_box 0 (str "mvex") ;;;
  for_each (seqZ 0 (zlen (tracks mux))) (λ track_id,
    mp4_write_trex (u32 (track_id + 1)) ;;; ret tt) ;;;
  write_box_size start.

Definition mp4_write_itunes_hdlr : W S Z :=
  write_fullbox 33 (str "hdlr") 0 0 ;;;
  s_wb32 0 ;;;
  s_put (str "mdir") ;;;
  s_put (str "appl") ;;;
  s_wb32 0 ;;;
  s_wb32 0 ;;;
  s_w8 0 ;;;
  ret 33.

Definition mp4_write_data_atom (data : bytes) : W S Z :=
  let len := zlen data in
  let size := u32 (16 + u32 len) in
  write_box size (str "data") ;;;
  s_wb32 1 ;;;
  s_wb32 0 ;;;
  s_put data ;;;
  ret size.

(** The length is a [uint16_t]: a longer string is cut. *)
Definition mp4_write_string_data_atom (name data : bytes) : W S Z :=
  start <- serializer_get_pos ;;
  let len := u16 (zlen data) in
  write_box 0 name ;;;
  s_wb16 len ;;;
  s_put [85; 196] ;;;
  s_put (take (Z.to_nat len) data) ;;;
  write_box_size start.

Definition mp4_write_ilst_item_atom (name value : bytes) : W S Z :=
  start <- serializer_get_pos ;;
  write_box 0 name ;;;
  mp4_write_data_atom value ;;;
  write_box_size start.

Definition mp4_write_ilst : W S Z :=
  start <- serializer_get_pos ;;
  write_box 0 (str "ilst") ;;;
  mp4_write_ilst_item_atom (tag_a9 "too") (tool_value env) ;;;
  write_box_size start.

Definition mp4_write_mdta_hdlr : W S Z :=
  write_fullbox 33 (str "hdlr") 0 0 ;;;
  s_wb32 0 ;;;
  s_put (str "mdta") ;;;
  s_wb32 0 ;;;
  s_wb32 0 ;;;
  s_wb32 0 ;;;
  s_w8 0 ;;;
  ret 33.

(** [meta] lists the items (name, string value) in iteration order; the count is
    patched in afterwards. *)
Definition mp4_write_mdta_keys (meta : list (bytes * bytes)) : W S Z :=
  start <- serializer_get_pos ;;
  write_fullbox 0 (str "keys") 0 0 ;;;
  count_pos <- serializer_get_pos ;;
  s_wb32 0 ;;;
  for_each meta (λ item,
    let name := item.1 in
    write_box (zlen name + 8) (str "mdta") ;;;
    s_put name) ;;;
  let count := u32 (zlen meta) in
  end_ <- serializer_get_pos ;;
  serializer_seek count_pos SERIALIZE_SEEK_START ;;;
  s_wb32 count ;;;
  serializer_seek end_ SERIALIZE_SEEK_START ;;;
  write_box_size start.

Definition write_key_entry (item : bytes * bytes) (idx : Z) : W S unit :=
  start <- serializer_get_pos ;;
  s_wb32 0 ;;;
  s_wb32 idx ;;;
  mp4_write_data_atom item.2 ;;;
  write_box_size start ;;;
  ret tt.

Fixpoint write_key_entries (meta : list (bytes * bytes)) (key_idx : Z) : W S unit :=
  match meta with
  | [] => ret tt
  | item :: meta => write_key_entry item key_idx ;;; write_key_entries meta (u32 (key_idx + 1))
  end.

Definition mp4_write_mdta_ilst (meta : list (bytes * bytes)) : W S Z :=
  start <- serializer_get_pos ;;
  write_box 0 (str "ilst") ;;;
  write_key_entries meta 1 ;;;
  write_box_size start.

Definition mp4_write_mdta_kv : W S unit :=
  let meta := [(str "tool", tool_value env)] in
  mp4_write_mdta_keys meta ;;;
  mp4_write_mdta_ilst meta ;;;
  ret tt.

Definition mp4_write_meta : W S Z :=
  start <- serializer_get_pos ;;
  write_fullbox 0 (str "meta") 0 0 ;;;
  (if MP4_USE_MDTA_KEY_VALUE (flags mux) then
     mp4_write_mdta_hdlr ;;;
     mp4_write_mdta_kv
   else
     mp4_write_itunes_hdlr ;;;
     mp4_write_ilst ;;;
     ret tt) ;;;
  write_box_size start.

Definition mp4_write_udta : W S Z :=
  start <- serializer_get_pos ;;
  write_box 0 (str "udta") ;;;
  (if is_mov mux && negb (MP4_USE_MDTA_KEY_VALUE (flags mux)) then
     mp4_write_string_data_atom (tag_a9 "swr") (tool_value env)
   else mp4_write_meta) ;;;
  write_box_size start.

Definition mp4_write_moov (fragmented : bool) : W S Z :=
  start <- serializer_get_pos ;;
  write_box 0 (str "moov") ;;;
  mp4_write_mvhd mux ;;;
  for_each (tracks mux) (λ track, mp4_write_trak track fragmented ;;; ret tt) ;;;
  (match chapter_track mux with
   | Some track => if negb fragmented then mp4_write_trak track false else ret 0
   | None => ret 0
   end) ;;;
  (if fragmented then mp4_write_mvex else ret 0) ;;;
  mp4_write_udta ;;;
  write_box_size start.
End writers.

(** ** Shapes *)

Definition hdlr_kid (mux : mp4_mux) : list skel := if is_mov mux then [leaf "hdlr"] else [].

Definition minf_skel (mux : mp4_mux) (t : mp4_track) (fragmented : bool) : skel :=
  Sk (str "minf")
    ([match trk_type t with
      | TRACK_VIDEO => leaf "vmhd"
      | TRACK_CHAPTERS => Sk (str "gmhd") [leaf "gmin"; leaf "text"]
      | _ => leaf "smhd"
      end] ++ hdlr_kid mux ++
     [Sk (str "dinf") [Sk (str "dref") [leaf "url "]]] ++ [stbl_skel mux t fragmented]).

Definition mdia_skel (mux : mp4_mux) (t : mp4_track) (fragmented : bool) : skel :=
  Sk (str "mdia") ([leaf "mdhd"] ++ [leaf "hdlr"] ++ [minf_skel mux t fragmented]).

Definition track_udta_skel (mux : mp4_mux) (t : mp4_track) : skel :=
  let name := obs_encoder_get_name (trk_encoder t) in
  Sk (str "udta")
    ((match name with Some _ => [leaf "name"] | None => [] end) ++
     (if MP4_WRITE_ENCODER_INFO (flags mux) then
        (match name with Some _ => [Sk (tag_a9 "enc") []] | None => [] end) ++
        (match obs_encoder_get_settings (trk_encoder t) with Some _ => [leaf "json"] | None => [] end)
      else [])).

Definition tref_skel (mux : mp4_mux) (t : mp4_track) : list skel :=
  if bool_decide (is_Some (chapter_track mux)) && negb (is_chapters t)
  then [Sk (str "tref") [leaf "chap"]] else [].

(** A track without data is left out of the final [moov]. *)
Definition trak_skel (mux : mp4_mux) (t : mp4_track) (fragmented : bool) : list skel :=
  if negb fragmented && (zlen (chunks t) =? 0) then []
  else [Sk (str "trak")
    ([leaf "tkhd"] ++ [Sk (str "edts") [leaf "elst"]] ++ tref_skel mux t ++
     [mdia_skel mux t fragmented] ++ [track_udta_skel mux t])].

Definition meta_skel (mux : mp4_mux) : skel :=
  Sk (str "meta")
    (if MP4_USE_MDTA_KEY_VALUE (flags mux) then
       [leaf "hdlr"; Sk (str "keys") [leaf "mdta"]; Sk (str "ilst") [Sk (be32 1) [leaf "data"]]]
     else [leaf "hdlr"; Sk (str "ilst") [Sk (tag_a9 "too") [leaf "data"]]]).

Definition udta_skel (mux : mp4_mux) : skel :=
  Sk (str "udta")
    (if is_mov mux && negb (MP4_USE_MDTA_KEY_VALUE (flags mux)) then [Sk (tag_a9 "swr") []]
     else [meta_skel mux]).

Definition moov_skel (mux : mp4_mux) (fragmented : bool) : skel :=
  Sk (str "moov")
    ([leaf "mvhd"] ++
     concat (map (λ t, trak_skel mux t fragmented) (tracks mux)) ++
     (match chapter_track mux with
      | Some t => if negb fragmented then trak_skel mux t false else []
      | None => []
      end) ++
     (if fragmented then [Sk (str "mvex") (map (λ _, leaf "trex") (tracks mux))] else []) ++
     [udta_skel mux]).

(** Everything the writers of a track rely on. *)
Record trak_ok (env : mp4_env) (mux : mp4_mux) (t : mp4_track) (fragmented : bool) : Prop := {
  ok_track : track_ok t;
  ok_entry : entry_ok env t;
  ok_tables : fragmented = false → chunks t ≠ [] → table_ok t;
  ok_id : is_Some (obs_encoder_get_name (trk_encoder t)) → is_Some (obs_encoder_get_id (trk_encoder t))
}.

Record moov_ok (env : mp4_env) (mux : mp4_mux) (fragmented : bool) : Prop := {
  ok_tracks : Forall (λ t, trak_ok env mux t fragmented) (tracks mux);
  ok_chapters : fragmented = false → ∀ t, chapter_track mux = Some t → trak_ok env mux t false;
  ok_version : zlen (env_version_string env) < 2 ^ 31
}.

Section shapes.
Context {S : Type} `{AppendSerializer S} (env : mp4_env) (mux : mp4_mux).

Lemma dinf_shape : wskel (S:=S) mp4_write_dinf [Sk (str "dinf") [Sk (str "dref") [leaf "url "]]].
Proof.
  apply wskel_box; [done|]. intros b Hb. apply openf_openk.
  eapply openk_kid; [done| |intros _; by apply openk_close].
  apply wskel_fullbox; [done|]. intros b' Hb'. apply openf_field; [done|fld_solve|intros _].
  apply openf_openk. eapply openk_kid; [done| |intros _; by apply openk_close].
  apply wskel_fullbox; [done|]. intros b'' Hb''. by apply openf_close.
Qed.

Section track.
Context (t : mp4_track) (fragmented : bool).
Hypothesis (Htrack : track_ok t) (Hentry : entry_ok env t).
Hypothesis (Htab : fragmented = false → table_ok t).
Hypothesis (Hid : is_Some (obs_encoder_get_name (trk_encoder t)) → is_Some (obs_encoder_get_id (trk_encoder t))).

Lemma minf_shape : wskel (mp4_write_minf env mux t fragmented) [minf_skel mux t fragmented].
Proof.
  eapply wskel_eq.
  - apply wskel_box; [done|]. intros b Hb. apply openf_openk.
    eapply (openk_kid _ _ _ [match trk_type t with
      | TRACK_VIDEO => leaf "vmhd"
      | TRACK_CHAPTERS => Sk (str "gmhd") [leaf "gmin"; leaf "text"]
      | _ => leaf "smhd"
      end]); [done|destruct (trk_type t); auto with shapes|intros _].
    eapply (openk_kid _ _ _ (hdlr_kid mux)); [done| |intros _].
    { unfold hdlr_kid. destruct (is_mov mux); [apply hdlr_shape|apply wskel_ret]. }
    eapply openk_kid; [done|apply dinf_shape|intros _].
    eapply openk_kid; [done|by apply stbl_shape|intros _]. by apply openk_close.
  - unfold minf_skel. skel_eq.
Qed.

Lemma mdia_shape : wskel (mp4_write_mdia env mux t fragmented) [mdia_skel mux t fragmented].
Proof.
  eapply wskel_eq.
  - apply wskel_box; [done|]. intros b Hb. apply openf_openk.
    eapply openk_kid; [done|by apply mdhd_shape|intros _].
    eapply openk_kid; [done|apply hdlr_shape|intros _].
    eapply openk_kid; [done|apply minf_shape|intros _]. by apply openk_close.
  - unfold mdia_skel. skel_eq.
Qed.

Lemma udta_atom_shape tag val : zlen tag = 4 → wskel (S:=S) (mp4_write_udta_atom tag val) [Sk tag []].
Proof. intros Hn. apply wskel_box; [done|]. box_fields. by apply openf_close. Qed.

Lemma track_udta_shape : wskel (S:=S) (mp4_write_track_udta mux t) [track_udta_skel mux t].
Proof.
  eapply wskel_eq.
  - apply wskel_box; [done|]. intros b Hb. cbv zeta. apply openf_openk.
    eapply (openk_kid _ _ _ (match obs_encoder_get_name (trk_encoder t) with Some _ => [leaf "name"] | None => [] end));
      [done| |intros _].
    { destruct (obs_encoder_get_name _); [by apply udta_atom_shape|apply wskel_ret]. }
    eapply (openk_kid _ _ _ (if MP4_WRITE_ENCODER_INFO (flags mux) then
      (match obs_encoder_get_name (trk_encoder t) with Some _ => [Sk (tag_a9 "enc") []] | None => [] end) ++
      (match obs_encoder_get_settings (trk_encoder t) with Some _ => [leaf "json"] | None => [] end)
      else [])); [done| |intros _; by apply openk_close].
    destruct (MP4_WRITE_ENCODER_INFO _); [|apply wskel_ret].
    apply wskel_bind; [|intros _].
    + destruct (obs_encoder_get_name _); [|apply wskel_ret]. destruct Hid as [i Ei]; [eauto|].
      eapply wskel_deref; [exact Ei|]. by apply udta_atom_shape.
    + destruct (obs_encoder_get_settings _); [by apply udta_atom_shape|apply wskel_ret].
  - unfold track_udta_skel. skel_eq.
Qed.

Lemma elst_entry_some : is_Some (elst_entry mux t).
Proof.
  destruct Htrack as [? ?]. unfold elst_entry.
  rewrite (mul_div64_some (duration t)) by lia. cbn [mbind option_bind].
  destruct (is_video t && _); [|destruct (is_audio t && _); [|by eexists]]; cbv zeta.
  - rewrite mul_div64_some by lia. by eexists.
  - rewrite (mul_div64_some (Z.abs _)) by lia. cbn [mbind option_bind].
    rewrite mul_div64_some by lia. by eexists.
Qed.

Lemma edts_shape : wskel (S:=S) (mp4_write_edts mux t) [Sk (str "edts") [leaf "elst"]].
Proof.
  apply wskel_box; [done|]. intros b Hb. apply openf_openk.
  eapply openk_kid; [done| |intros _; by apply openk_close].
  apply wskel_fullbox; [done|]. intros b' Hb'. apply openf_field; [done|fld_solve|intros _].
  destruct elst_entry_some as [e Ee]. eapply openf_deref; [exact Ee|]. box_solve.
Qed.

Lemma tref_shape :
  wskel (if bool_decide (is_Some (chapter_track mux)) && negb (is_chapters t)
         then mp4_write_tref mux else ret 0) (tref_skel mux t).
Proof.
  unfold tref_skel. case_bool_decide as Hc; cbn [andb]; [|apply wskel_ret].
  destruct (is_chapters t); cbn [negb]; [apply wskel_ret|]. destruct Hc as [c Ec].
  apply wskel_box; [done|]. intros b Hb. apply openf_openk.
  eapply openk_kid; [done| |intros _; by apply openk_close].
  apply wskel_box; [done|]. intros b' Hb'. eapply openf_deref; [exact Ec|]. box_solve.
Qed.
End track.

Lemma trak_shape t fragmented : trak_ok env mux t fragmented →
  wskel (mp4_write_trak env mux t fragmented) (trak_skel mux t fragmented).
Proof.
  intros [Ht He Htab Hid]. unfold mp4_write_trak, trak_skel.
  destruct (negb fragmented && (zlen (chunks t) =? 0)) eqn:E; [apply wskel_start_ret|].
  assert (fragmented = false → table_ok t) as Htab'.
  { intros F. apply Htab; [done|]. intros C. rewrite C in E. by destruct fragmented. }
  eapply wskel_eq.
  - apply wskel_box; [done|]. intros b Hb. apply openf_openk.
    eapply openk_kid; [done|by apply tkhd_shape|intros _].
    eapply openk_kid; [done|by apply edts_shape|intros _].
    eapply openk_kid; [done|apply tref_shape|intros _].
    eapply openk_kid; [done|by apply mdia_shape|intros _].
    eapply openk_kid; [done|by apply track_udta_shape|intros _]. by apply openk_close.
  - skel_eq.
Qed.

Lemma trex_shape id : wskel (S:=S) (mp4_write_trex id) [leaf "trex"].
Proof. apply wskel_sized_full; [done..|]. eapply fldn_eq; [fields|reflexivity]. Qed.

Lemma mvex_shape : wskel (S:=S) (mp4_write_mvex mux) [Sk (str "mvex") (map (λ _, leaf "trex") (tracks mux))].
Proof.
  eapply wskel_eq.
  - apply wskel_box; [done|]. intros b Hb. apply openf_openk.
    eapply (openk_kid _ _ _ (concat (map (λ _, [leaf "trex"]) (seqZ 0 (zlen (tracks mux))))));
      [done| |intros _; by apply openk_close].
    apply wskel_for_each, Forall_forall. intros i _.
    apply (wskel_bind_ret _ (λ _, tt)), trex_shape.
  - f_equal. f_equal. cbn [app].
    assert (length (seqZ 0 (zlen (tracks mux))) = length (tracks mux)) as Hl.
    { rewrite length_seqZ. unfold zlen. lia. }
    revert Hl. generalize (seqZ 0 (zlen (tracks mux))).
    induction (tracks mux) as [|t ts IH]; intros [|i l] Hl; simplify_eq/=; [done|]. f_equal. by apply IH.
Qed.

Lemma data_atom_shape data : zlen data < 2 ^ 31 + 64 → wskel (S:=S) (mp4_write_data_atom data) [leaf "data"].
Proof.
  intros Hd. unfold mp4_write_data_atom. cbv zeta. pose proof (zlen_nonneg data).
  rewrite (u32_small (zlen data)), (u32_small (16 + zlen data)) by lia.
  apply wskel_sized; [done|unfold UINT32_MAX; lia|]. eapply fldn_eq; [fields|lia].
Qed.

(** Boxes named by an index. *)
Lemma key_entry_shape item idx : zlen item.2 < 2 ^ 31 + 64 →
  wskel (S:=S) (write_key_entry item idx) [Sk (be32 idx) [leaf "data"]].
Proof.
  intros Hd p Hp.
  destruct (data_atom_shape item.2 Hd (p + 8)) as (ts & r & E & Hts); [lia|].
  exists [Box (be32 idx) [] ts], tt. split; [|simpl; by rewrite Hts].
  rewrite enc_all_one. unfold write_key_entry.
  eapply runs_bind; [apply emits_get_pos|].
  eapply (runs_seq _ [] p (be32 0)); [len_lia|eauto with emits|].
  eapply (runs_seq _ _ (p + 4) (be32 idx)); [len_lia|eauto with emits|].
  eapply (runs_seq _ _ (p + 8) (enc_all ts)); [len_lia|exact E|].
  eapply runs_bind; [|apply runs_ret].
  replace ((([] ++ be32 0) ++ be32 idx) ++ enc_all ts) with (be32 0 ++ be32 idx ++ enc_all ts)
    by (by rewrite app_nil_l, <- app_assoc).
  apply (runs_close p (be32 idx) (enc_all ts)). done.
Qed.

Lemma keys_shape meta : Forall (λ item, zlen item.1 + 8 ≤ UINT32_MAX) meta →
  wskel (S:=S) (mp4_write_mdta_keys meta) [Sk (str "keys") (map (λ _, leaf "mdta") meta)].
Proof.
  intros Hm. unfold mp4_write_mdta_keys. apply wskel_fullbox; [done|]. intros b Hb body.
  set (pre := be32 0 ++ str "keys" ++ body).
  assert (wskel (S:=S) (for_each meta (λ item, write_box (zlen item.1 + 8) (str "mdta") ;;; s_put item.1))
    (concat (map (λ _, [leaf "mdta"]) meta))) as Hk.
  { apply wskel_for_each. eapply Forall_impl; [exact Hm|]. intros item Hi. cbv beta in *.
    apply wskel_sized; [done|len_lia|]. eapply fldn_eq; [fields|lia]. }
  destruct (Hk (b + zlen (pre ++ be32 0))) as (ts & r & E & Hts); [len_lia|].
  exists (Box (str "keys") (body ++ be32 (u32 (zlen meta))) ts). eexists. split.
  - eapply runs_bind; [apply runs_get_pos|].
    eapply (runs_seq _ pre (b + zlen pre) (be32 0)); [done|eauto with emits|].
    eapply runs_seq; [reflexivity|exact E|].
    cbv zeta. eapply runs_bind; [apply runs_get_pos|]. rewrite <- app_assoc.
    apply (runs_patch b pre (be32 0) (enc_all ts) _ (be32 (u32 (zlen meta)))); [apply puts_wb32|done|].
    unfold pre. replace ((be32 0 ++ str "keys" ++ body) ++ be32 (u32 (zlen meta)) ++ enc_all ts)
      with (be32 0 ++ str "keys" ++ (body ++ be32 (u32 (zlen meta))) ++ enc_all ts)
      by (by rewrite <- !app_assoc).
    apply runs_close. done.
  - simpl. f_equal. rewrite Hts. clear. induction meta as [|? ? IH]; [done|]. simpl. by rewrite IH.
Qed.

Hypothesis (Hver : zlen (env_version_string env) < 2 ^ 31).

Lemma tool_value_len : zlen (tool_value env) < 2 ^ 31 + 64.
Proof. unfold tool_value. rewrite !zlen_app. change (zlen (str "OBS Studio (")) with 12.
  change (zlen (str ")")) with 1. lia. Qed.

Lemma meta_shape : wskel (S:=S) (mp4_write_meta env mux) [meta_skel mux].
Proof.
  pose proof tool_value_len as Ht. unfold meta_skel.
  apply wskel_fullbox; [done|]. intros b Hb. apply openf_openk.
  eapply openk_kid; [done| |intros _; by apply openk_close].
  destruct (MP4_USE_MDTA_KEY_VALUE (flags mux)).
  - apply (wskel_bind _ _ [leaf "hdlr"]); [|intros _].
    + apply wskel_sized_full; [done..|]. eapply fldn_eq; [fields|reflexivity].
    + apply (wskel_bind _ _ [Sk (str "keys") [leaf "mdta"]]); [|intros _; apply (wskel_bind_ret _ (λ _, tt))].
      * apply (keys_shape [(str "tool", tool_value env)]). constructor; [done|constructor].
      * apply wskel_box; [done|]. intros b' Hb'. apply openf_openk.
        eapply openk_kid; [done| |intros _; by apply openk_close]. cbn [write_key_entries].
        apply (wskel_bind_ret _ (λ _, tt)), key_entry_shape, Ht.
  - apply (wskel_bind _ _ [leaf "hdlr"]); [|intros _; apply (wskel_bind_ret _ (λ _, tt))].
    + apply wskel_sized_full; [done..|]. eapply fldn_eq; [fields|reflexivity].
    + apply wskel_box; [done|]. intros b' Hb'. apply openf_openk.
      eapply openk_kid; [done| |intros _; by apply openk_close].
      apply wskel_box; [done|]. intros b'' Hb''. apply openf_openk.
      eapply openk_kid; [done|by apply data_atom_shape|intros _; by apply openk_close].
Qed.

Lemma udta_shape : wskel (S:=S) (mp4_write_udta env mux) [udta_skel mux].
Proof.
  unfold udta_skel. apply wskel_box; [done|]. intros b Hb. apply openf_openk.
  eapply openk_kid; [done| |intros _; by apply openk_close].
  destruct (is_mov mux && _); [|apply meta_shape].
  apply wskel_box; [done|]. intros b' Hb'. box_solve.
Qed.

Lemma moov_shape fragmented : moov_ok env mux fragmented →
  wskel (mp4_write_moov env mux fragmented) [moov_skel mux fragmented].
Proof.
  intros [Hts Hch _]. eapply wskel_eq.
  - apply wskel_box; [done|]. intros b Hb. apply openf_openk.
    eapply openk_kid; [done|apply mvhd_shape|intros _].
    { eapply Forall_impl; [exact Hts|]. by intros t []. }
    eapply (openk_kid _ _ _ (concat (map (λ t, trak_skel mux t fragmented) (tracks mux)))); [done| |intros _].
    { apply wskel_for_each. eapply Forall_impl; [exact Hts|]. intros t Ht. cbv beta.
      apply (wskel_bind_ret _ (λ _, tt)), trak_shape, Ht. }
    eapply (openk_kid _ _ _ (match chapter_track mux with
      | Some t => if negb fragmented then trak_skel mux t false else []
      | None => []
      end)); [done| |intros _].
    { destruct (chapter_track mux) as [t|]; [|apply wskel_ret].
      destruct fragmented; [apply wskel_ret|]. by apply trak_shape, Hch. }
    eapply (openk_kid _ _ _ (if fragmented then [Sk (str "mvex") (map (λ _, leaf "trex") (tracks mux))] else []));
      [done| |intros _].
    { destruct fragmented; [apply mvex_shape|apply wskel_ret]. }
    eapply openk_kid; [done|apply udta_shape|intros _]. by apply openk_close.
  - unfold moov_skel. skel_eq.
Qed.
End shapes.

(** ** What a player sees *)

(** C29: The [moov] box is well formed: for every muxer whose tracks are usable
    ([moov_ok]), fragmented or final, the writer appends one box tree, correctly
    sized at every level, whose nesting is that of [moov_skel]: the movie header, one
    [trak] per track with its [tkhd], edit list, chapter reference, media header,
    sample description and sample tables, then [mvex] or the chapter track, then the
    metadata. A reader of boxes gets [moov] and its contents back. *)
Theorem moov_well_formed {S : Type} `{AppendSerializer S} (env : mp4_env) mux fragmented p :
  moov_ok env mux fragmented → 0 ≤ p →
  ∃ t size, emits p (mp4_write_moov (S:=S) env mux fragmented) (enc t) size ∧
    skel_of t = moov_skel mux fragmented ∧
    (zlen (enc t) < 2 ^ 32 → ∀ rest, next_box (enc t ++ rest) = Some (str "moov", box_payload t, rest)).
Proof.
  intros Hok Hp. destruct (moov_shape (S:=S) env mux) with (fragmented := fragmented) (p := p)
    as (ts & r & E & Hts); [apply Hok|done..|].
  destruct ts as [|t [|? ?]]; simplify_eq/=. exists t, r.
  rewrite <- enc_all_one. split; [done|]. split; [done|]. intros Hl rest. rewrite enc_all_one in *.
  assert (box_name t = str "moov") as En by (destruct t; unfold moov_skel in *; by simplify_eq/=).
  rewrite next_box_enc by (by rewrite ?En). by rewrite En.
Qed.

(** ** Examples *)

Definition ex_env : mp4_env := mk_env (str "31.0") 1000 (str "Start") (λ _, 0).
Definition ex_video : video_t := mk_video VIDEO_FORMAT_NV12 1920 1080 30 1 VIDEO_CS_709 VIDEO_RANGE_PARTIAL.
Definition ex_video_encoder : obs_encoder :=
  mk_encoder 1 OBS_ENCODER_VIDEO (Some (str "video")) (Some (str "obs_x264")) "h264" (Some ex_packet) None
    (Some ex_video) None None 0 0 0 0 1 30.
Definition ex_audio_encoder : obs_encoder :=
  mk_encoder 2 OBS_ENCODER_AUDIO (Some (str "audio")) (Some (str "ffmpeg_aac")) "aac" (Some [18; 16])
    (Some (mk_settings 160 0 (str "{}"))) None None (Some (mk_audio 48000 SPEAKERS_STEREO)) 0 0 0 1024 1 48000.

Definition ex_video_track : mp4_track :=
  mk_track TRACK_VIDEO CODEC_H264 1 4 5 (Some ex_video_encoder) 1 30 60 0 0 [] 0 [300; 20; 10; 25]
    [mk_chunk 1000 320 2; mk_chunk 5000 35 2] [mk_delta 3 1; mk_delta 1 2] true 0
    [mk_offset 1 0; mk_offset 2 (-1); mk_offset 1 1] [1; 3] [].
Definition ex_audio_track : mp4_track :=
  mk_track TRACK_AUDIO CODEC_AAC 2 2 2048 (Some ex_audio_encoder) 1 48000 48000 0 0 [] 0 [10; 12]
    [mk_chunk 1320 22 2] [mk_delta 2 1024] false 0 [] [] [].
Definition ex_moov_mux : mp4_mux :=
  mk_mux FLAVOR_MP4 (mk_flags true true false true) 1 0 0 28 2 [ex_video_track; ex_audio_track] None.

Lemma ex_moov_ok : moov_ok ex_env ex_moov_mux false.
Proof.
  split; [|done..]. constructor; [|constructor; [|constructor]];
    (split; [by split| |intros _ _|intros _; by eexists]).
  - split; [by eexists|done|]. intros d Ed. vm_compute in Ed. simplify_eq. eexists. split; [by vm_compute|done].
  - split; [all_bytes|by vm_compute..].
  - split; [done| |done]. intros _. by eexists.
  - split; [all_bytes|by vm_compute..].
Qed.

Lemma moov_well_formed_witness :
  ∃ t size, emits 0 (mp4_write_moov (S:=array_output_data) ex_env ex_moov_mux false) (enc t) size ∧
    skel_of t = moov_skel ex_moov_mux false ∧
    (zlen (enc t) < 2 ^ 32 → ∀ rest, next_box (enc t ++ rest) = Some (str "moov", box_payload t, rest)).
Proof. refine (moov_well_formed ex_env ex_moov_mux false 0 ex_moov_ok _). done. Defined.
