(* ===== verification/Mp4Frag.v ===== *)
(** * Movie fragments: plugins/obs-outputs/mp4-mux.c, lines 2210-2440

    [moof] and the boxes of its track fragments. [samples_mdat_offset], which the C
    code updates through a pointer, is threaded through [trun] and [traf]. *)

From S2P Require Import Prelude Util Serializer Encoder Mp4Types Mp4Box Mp4Header Mp4Entry Mp4Table.

Local Open Scope Z_scope.
Local Open Scope serializer_scope.

(** The flags [durations_match] and [sizes_match]: each iteration of the loop over
    the samples after the first assigns them, so the last one decides. *)
Fixpoint match_loop (duration sample_size : Z) (ss : list fragment_sample) (m : bool * bool) : bool * bool :=
  match ss with
  | [] => m
  | smp :: ss =>
      match_loop duration sample_size ss
        (smp_duration smp =? duration, smp_size smp =? sample_size)
  end.

(** [(duration, sample_size, durations_match, sizes_match)]. *)
Definition tfhd_defaults (track : mp4_track) : option (Z * Z * bool * bool) :=
  if negb (sample_size track =? 0) then Some (1, sample_size track, true, true)
  else
    match fragment_samples track with
    | [] => None
    | first :: rest =>
        let '(dm, sm) := match_loop (smp_duration first) (smp_size first) rest (true, true) in
        Some (smp_duration first, smp_size first, dm, sm)
    end.

(** The duration of the samples that are already written. *)
Definition tfdt_written (track : mp4_track) : Z :=
  foldl (λ d smp, u64 (d - smp_duration smp)) (duration track) (fragment_samples track).

Section writers.
Context {S : Type} `{SerializerOps S} (mux : mp4_mux).

Definition mp4_write_mfhd : W S Z :=
  write_fullbox 16 (str "mfhd") 0 0 ;;;
  s_wb32 (fragments_written mux) ;;;
  ret 16.

Definition mp4_write_tfhd (track : mp4_track) (moof_start : Z) : W S Z :=
  start <- serializer_get_pos ;;
  defaults <- deref (tfhd_defaults track) ;;
  let '(duration, sample_size, durations_match, sizes_match) := defaults in
  let flags := Z.lor BASE_DATA_OFFSET_PRESENT DEFAULT_SAMPLE_FLAGS_PRESENT in
  let flags := if durations_match then Z.lor flags DEFAULT_SAMPLE_DURATION_PRESENT else flags in
  let flags := if sizes_match then Z.lor flags DEFAULT_SAMPLE_SIZE_PRESENT else flags in
  write_fullbox 0 (str "tfhd") 0 flags ;;;
  s_wb32 (track_id track) ;;;
  s_wb64 moof_start ;;;
  when durations_match do (
    d <- (if is_video track
          then deref (mul_div64 duration (timescale track) (timebase_den track))
          else ret duration) ;;
    s_wb32 (u32 d)) ;;;
  when sizes_match do s_wb32 sample_size ;;;
  (if is_video track then s_wb32 (Z.lor SAMPLE_FLAG_DEPENDS_YES SAMPLE_FLAG_IS_NON_SYNC)
   else s_wb32 SAMPLE_FLAG_DEPENDS_NO) ;;;
  write_box_size start.

Definition mp4_write_tfdt (track : mp4_track) : W S Z :=
  write_fullbox 20 (str "tfdt") 1 0 ;;;
  duration_written <- (if is_video track
                       then deref (mul_div64 (tfdt_written track) (timescale track) (timebase_den track))
                       else ret (tfdt_written track)) ;;
  s_wb64 duration_written ;;;
  ret 20.

(** [*samples_mdat_offset += smp->size] over the samples. *)
Definition add_sizes (off : Z) (ss : list fragment_sample) : Z :=
  foldl (λ o smp, u64 (o + smp_size smp)) off ss.

(** Returns the size of the box and the updated [samples_mdat_offset]. *)
Definition mp4_write_trun (track : mp4_track) (moof_size samples_mdat_offset : Z) : W S (Z * Z) :=
  start <- serializer_get_pos ;;
  let fixed := negb (sample_size track =? 0) in
  let flags := DATA_OFFSET_PRESENT in
  let flags := if fixed then flags else Z.lor flags SAMPLE_SIZE_PRESENT in
  let flags := if is_video track
               then Z.lor (Z.lor flags FIRST_SAMPLE_FLAGS_PRESENT) SAMPLE_COMPOSITION_TIME_OFFSETS_PRESENT
               else flags in
  let version := if MP4_USE_NEGATIVE_CTS (Mp4Types.flags mux) then 1 else 0 in
  write_fullbox 0 (str "trun") version flags ;;;
  let data_offset := u64 (u32 (moof_size + 8) + samples_mdat_offset) in
  let ss := fragment_samples track in
  let total_size := add_sizes 0 ss in
  let sample_count := if fixed then total_size `div` sample_size track else zlen ss in
  s_wb32 (u32 sample_count) ;;;
  s_wb32 (u32 data_offset) ;;;
  if fixed then
    size <- write_box_size start ;;
    ret (size, u64 (samples_mdat_offset + total_size))
  else
    when is_video track do s_wb32 SAMPLE_FLAG_DEPENDS_NO ;;;
    for_each ss (λ smp,
      s_wb32 (smp_size smp) ;;;
      when is_video track do (
        offset <- deref (checked_quot (smp_offset smp * timescale track) (timebase_den track)) ;;
        s_wb32 (u32 offset))) ;;;
    size <- write_box_size start ;;
    ret (size, add_sizes samples_mdat_offset ss).

Definition mp4_write_traf (track : mp4_track) (moof_start moof_size samples_mdat_offset : Z) : W S (Z * Z) :=
  start <- serializer_get_pos ;;
  write_box 0 (str "traf") ;;;
  mp4_write_tfhd track moof_start ;;;
  mp4_write_tfdt track ;;;
  trun <- mp4_write_trun track moof_size samples_mdat_offset ;;
  size <- write_box_size start ;;
  ret (size, trun.2).

(** The loop over the tracks; those without samples are skipped. *)
Fixpoint write_trafs (ts : list mp4_track) (moof_start moof_size samples_mdat_offset : Z) : W S Z :=
  match ts with
  | [] => ret samples_mdat_offset
  | track :: ts =>
      match fragment_samples track with
      | [] => write_trafs ts moof_start moof_size samples_mdat_offset
      | _ =>
          r <- mp4_write_traf track moof_start moof_size samples_mdat_offset ;;
          write_trafs ts moof_start moof_size r.2
      end
  end.

Definition mp4_write_moof (moof_size moof_start : Z) : W S Z :=
  start <- serializer_get_pos ;;
  write_box 0 (str "moof") ;;;
  mp4_write_mfhd ;;;
  write_trafs (tracks mux) moof_start moof_size 0 ;;;
  write_box_size start.
End writers.

(** ** Contents *)

Section boxes.
Context (mux : mp4_mux).

Definition mfhd_box : box_tree := Box (str "mfhd") (u8 0 :: be24 0 ++ be32 (fragments_written mux)) [].

Definition tfhd_flags (dm sm : bool) : Z :=
  let flags := Z.lor BASE_DATA_OFFSET_PRESENT DEFAULT_SAMPLE_FLAGS_PRESENT in
  let flags := if dm then Z.lor flags DEFAULT_SAMPLE_DURATION_PRESENT else flags in
  if sm then Z.lor flags DEFAULT_SAMPLE_SIZE_PRESENT else flags.

Definition in_timescale (t : mp4_track) (d : Z) : Z :=
  if is_video t then util_mul_div64 d (timescale t) (timebase_den t) else d.

Definition tfhd_box (t : mp4_track) (moof_start : Z) : box_tree :=
  let '(d, sz, dm, sm) := default (0, 0, false, false) (tfhd_defaults t) in
  Box (str "tfhd")
    (u8 0 :: be24 (tfhd_flags dm sm) ++ be32 (track_id t) ++ be64 moof_start ++
     (if dm then be32 (in_timescale t d) else []) ++ (if sm then be32 sz else []) ++
     be32 (if is_video t then Z.lor SAMPLE_FLAG_DEPENDS_YES SAMPLE_FLAG_IS_NON_SYNC
           else SAMPLE_FLAG_DEPENDS_NO)) [].

Definition tfdt_box (t : mp4_track) : box_tree :=
  Box (str "tfdt") (u8 1 :: be24 0 ++ be64 (in_timescale t (tfdt_written t))) [].

Definition is_fixed (t : mp4_track) : bool := negb (sample_size t =? 0).

Definition trun_flags (t : mp4_track) : Z :=
  let flags := if is_fixed t then DATA_OFFSET_PRESENT else Z.lor DATA_OFFSET_PRESENT SAMPLE_SIZE_PRESENT in
  if is_video t then Z.lor (Z.lor flags FIRST_SAMPLE_FLAGS_PRESENT) SAMPLE_COMPOSITION_TIME_OFFSETS_PRESENT
  else flags.

Definition trun_entry (t : mp4_track) (smp : fragment_sample) : bytes :=
  be32 (smp_size smp) ++
  (if is_video t then be32 ((smp_offset smp * timescale t) /c timebase_den t) else []).

Definition trun_box (t : mp4_track) (moof_size off : Z) : box_tree :=
  let ss := fragment_samples t in
  Box (str "trun")
    (u8 (if MP4_USE_NEGATIVE_CTS (Mp4Types.flags mux) then 1 else 0) :: be24 (trun_flags t) ++
     be32 (if is_fixed t then add_sizes 0 ss `div` sample_size t else zlen ss) ++
     be32 (u64 (u32 (moof_size + 8) + off)) ++
     (if is_fixed t then []
      else (if is_video t then be32 SAMPLE_FLAG_DEPENDS_NO else []) ++ concat (map (trun_entry t) ss))) [].

(** [samples_mdat_offset] after the run. *)
Definition trun_next (t : mp4_track) (off : Z) : Z :=
  if is_fixed t then u64 (off + add_sizes 0 (fragment_samples t))
  else add_sizes off (fragment_samples t).

Definition traf_box (t : mp4_track) (moof_start moof_size off : Z) : box_tree :=
  Box (str "traf") [] [tfhd_box t moof_start; tfdt_box t; trun_box t moof_size off].

Definition has_samples (t : mp4_track) : bool :=
  match fragment_samples t with [] => false | _ => true end.

Fixpoint traf_boxes (ts : list mp4_track) (moof_start moof_size off : Z) : list box_tree :=
  match ts with
  | [] => []
  | t :: ts =>
      if has_samples t
      then traf_box t moof_start moof_size off :: traf_boxes ts moof_start moof_size (trun_next t off)
      else traf_boxes ts moof_start moof_size off
  end.

Fixpoint trafs_next (ts : list mp4_track) (off : Z) : Z :=
  match ts with
  | [] => off
  | t :: ts => trafs_next ts (if has_samples t then trun_next t off else off)
  end.

Definition moof_box (moof_size moof_start : Z) : box_tree :=
  Box (str "moof") [] (mfhd_box :: traf_boxes (tracks mux) moof_start moof_size 0).
End boxes.

Section contents.
Context {S : Type} `{AppendSerializer S} (mux : mp4_mux).

(** [emits] with a known second component of the result. *)
Definition writes2 {A B} (m : W S (A * B)) (t : box_tree) (x : B) : Prop :=
  ∀ p, 0 ≤ p → ∃ r, emits p m (enc t) (r, x).
Definition fills2 {A B} (b : Z) (name : bytes) (m : W S (A * B)) (bs : bytes) (x : B) : Prop :=
  ∀ body, ∃ r, runs b (be32 0 ++ name ++ body) m (enc (Box name (body ++ bs) [])) (r, x).

Lemma fills2_close {B} b name (x : B) : zlen name = 4 →
  fills2 b name (size <- write_box_size b ;; ret (size, x)) [] x.
Proof.
  intros Hn body. exists (u64 (8 + zlen body)). rewrite app_nil_r, enc_leaf.
  eapply runs_bind; [by apply runs_close|apply runs_ret].
Qed.

Lemma fills2_field {A B} b name m bs bs' (k : W S (A * B)) x :
  0 ≤ b → appends m bs → fills2 b name k bs' x → fills2 b name (m ;;; k) (bs ++ bs') x.
Proof.
  intros Hb F K body. destruct (K (body ++ bs)) as (r & R). exists r.
  eapply runs_seq; [reflexivity|apply F; len_lia|].
  rewrite <- !app_assoc in *. exact R.
Qed.

Lemma writes2_fullbox {A B} name version flags (k : Z → W S (A * B)) bs x : zlen name = 4 →
  (∀ b, 0 ≤ b → fills2 b name (k b) bs x) →
  writes2 (start <- serializer_get_pos ;; write_fullbox 0 name version flags ;;; k start)
    (Box name (u8 version :: be24 flags ++ bs) []) x.
Proof.
  intros Hn F p Hp. destruct (F p Hp (u8 version :: be24 flags)) as (r & R). exists r.
  eapply runs_bind; [apply emits_get_pos|]. unfold write_fullbox.
  eapply runs_bind; [|exact R]. rewrite app_assoc.
  eapply emits_seq; [apply emits_write_box; unfold UINT32_MAX; lia|done|].
  change (u8 version :: be24 flags) with ([u8 version] ++ be24 flags).
  eapply emits_seq; eauto with emits.
Qed.

Lemma mfhd_writes : writes (mp4_write_mfhd mux) (mfhd_box mux).
Proof. apply writes_sized_full; [done..|flds]. Qed.

(** The fields of a track fragment are defined: a time base, and a first sample. *)
Lemma tfhd_defaults_some t : has_samples t = true → is_Some (tfhd_defaults t).
Proof.
  unfold has_samples, tfhd_defaults. destruct (negb _); [eauto|].
  destruct (fragment_samples t); [done|]. destruct (match_loop _ _ _ _). eauto.
Qed.

Lemma tfhd_writes t moof_start : track_ok t → has_samples t = true →
  writes (mp4_write_tfhd t moof_start) (tfhd_box t moof_start).
Proof.
  intros [? ?] Hs. destruct (tfhd_defaults_some t Hs) as [[[[d sz] dm] sm] E].
  unfold mp4_write_tfhd, tfhd_box. rewrite E. cbn [default from_option id].
  eapply (writes_ext _ (start <- serializer_get_pos ;; _)); [intros s; reflexivity|].
  apply writes_fullbox; [done|]. intros b Hb.
  apply fills_field; [done|flds|]. apply fills_field; [done|flds|].
  apply fills_field; [done| |].
  { destruct dm; [|apply appends_ret]. unfold in_timescale. destruct (is_video t).
    - eapply appends_deref; [apply mul_div64_some; lia|]. eapply appends_eq; [flds|by rewrite be32_u32].
    - intros p Hp. eapply (emits_seq _ _ []); [apply emits_ret|reflexivity|].
      eapply emits_eq; [eauto with emits|by rewrite be32_u32]. }
  apply fills_field; [done| |].
  { destruct sm; flds. }
  rewrite <- (app_nil_r (be32 (if is_video t then _ else _))).
  apply fills_field; [done| |by apply fills_close]. destruct (is_video t); flds.
Qed.

Lemma tfdt_writes t : track_ok t → writes (mp4_write_tfdt t) (tfdt_box t).
Proof.
  intros [? ?]. unfold tfdt_box, in_timescale.
  destruct (is_video t) eqn:Ev.
  - eapply writes_ext; [|apply (writes_sized_full 20 (str "tfdt") 1 0
      (s_wb64 (util_mul_div64 (tfdt_written t) (timescale t) (timebase_den t)))); [done..|flds]].
    intros s. unfold mp4_write_tfdt. rewrite Ev. rewrite mul_div64_some by lia. done.
  - eapply writes_ext; [|apply (writes_sized_full 20 (str "tfdt") 1 0 (s_wb64 (tfdt_written t))); [done..|flds]].
    intros s. unfold mp4_write_tfdt. by rewrite Ev.
Qed.

Lemma trun_writes t moof_size off : track_ok t →
  writes2 (mp4_write_trun mux t moof_size off) (trun_box mux t moof_size off) (trun_next t off).
Proof.
  intros [? ?]. unfold mp4_write_trun, trun_box, trun_next, trun_flags, is_fixed.
  destruct (sample_size t =? 0) eqn:Ef; cbn [negb]; cbv zeta.
  - apply writes2_fullbox; [done|]. intros b Hb.
    apply fills2_field; [done|eapply appends_eq; [flds|by rewrite be32_u32]|].
    apply fills2_field; [done|eapply appends_eq; [flds|by rewrite be32_u32]|].
    apply fills2_field; [done|destruct (is_video t); flds|].
    rewrite <- (app_nil_r (concat _)).
    apply fills2_field; [done| |by apply fills2_close].
    apply appends_for_each, Forall_forall. intros smp _. unfold trun_entry.
    apply appends_seq; [flds|]. destruct (is_video t); [|flds].
    eapply appends_deref; [unfold checked_quot; rewrite (proj2 (Z.eqb_neq _ _)); [done|lia]|].
    eapply appends_eq; [flds|by rewrite be32_u32].
  - apply writes2_fullbox; [done|]. intros b Hb.
    apply fills2_field; [done|eapply appends_eq; [flds|by rewrite be32_u32]|].
    apply fills2_field; [done|eapply appends_eq; [flds|by rewrite be32_u32]|].
    by apply fills2_close.
Qed.

Lemma traf_writes t moof_start moof_size off : track_ok t → has_samples t = true →
  writes2 (mp4_write_traf mux t moof_start moof_size off) (traf_box mux t moof_start moof_size off)
    (trun_next t off).
Proof.
  intros Hok Hs p Hp. unfold mp4_write_traf, traf_box.
  destruct (tfhd_writes t moof_start Hok Hs (p + 8)) as (r1 & R1); [lia|].
  destruct (tfdt_writes t Hok (p + 8 + zlen (enc (tfhd_box t moof_start)))) as (r2 & R2); [len_lia|].
  destruct (trun_writes t moof_size off Hok
    (p + 8 + zlen (enc (tfhd_box t moof_start)) + zlen (enc (tfdt_box t)))) as (r3 & R3); [len_lia|].
  set (a := enc (tfhd_box t moof_start)) in *. set (b := enc (tfdt_box t)) in *.
  set (c := enc (trun_box mux t moof_size off)) in *.
  exists (u64 (8 + zlen ((a ++ b ++ c)))). assert (zlen (str "traf") = 4) as H4 by done.
  eapply runs_bind; [apply emits_get_pos|].
  eapply runs_bind; [apply emits_write_box; unfold UINT32_MAX; lia|].
  eapply (runs_seq _ _ (p + 8)); [len_lia|exact R1|].
  eapply (runs_seq _ _ (p + 8 + zlen a)); [len_lia|exact R2|].
  eapply (runs_seq _ _ (p + 8 + zlen a + zlen b)); [len_lia|exact R3|].
  eapply runs_bind; [|apply runs_ret].
  replace ((((be32 0 ++ str "traf") ++ a) ++ b) ++ c) with (be32 0 ++ str "traf" ++ (a ++ b ++ c))
    by (by rewrite <- !app_assoc).
  replace (enc (Box (str "traf") [] [tfhd_box t moof_start; tfdt_box t; trun_box mux t moof_size off]))
    with (be32 (8 + zlen (a ++ b ++ c)) ++ str "traf" ++ (a ++ b ++ c)).
  - by apply runs_close.
  - rewrite enc_unfold. cbn [box_payload box_name]. unfold enc_all. cbn [map concat].
    fold a b c. by rewrite app_nil_r.
Qed.

Lemma trafs_emit p ts moof_start moof_size off : 0 ≤ p → Forall track_ok ts →
  emits p (write_trafs mux ts moof_start moof_size off)
    (enc_all (traf_boxes mux ts moof_start moof_size off)) (trafs_next ts off).
Proof.
  intros Hp Hts. revert p Hp off; induction Hts as [|t ts Ht _ IH]; intros p Hp off; [apply emits_ret|].
  cbn [write_trafs traf_boxes trafs_next]. destruct (fragment_samples t) as [|x l] eqn:E.
  - assert (has_samples t = false) as -> by (unfold has_samples; by rewrite E). by apply IH.
  - assert (has_samples t = true) as Hs by (unfold has_samples; by rewrite E). rewrite Hs.
    destruct (traf_writes t moof_start moof_size off Ht Hs p Hp) as (r & R).
    unfold enc_all. cbn [map concat]. eapply emits_seq; [exact R|reflexivity|].
    apply IH. len_lia.
Qed.

Lemma moof_emit p moof_size moof_start : 0 ≤ p → Forall track_ok (tracks mux) →
  emits p (mp4_write_moof mux moof_size moof_start) (enc (moof_box mux moof_size moof_start))
    (u64 (zlen (enc (moof_box mux moof_size moof_start)))).
Proof.
  intros Hp Hts. unfold mp4_write_moof, moof_box.
  destruct (mfhd_writes (p + 8)) as (r1 & R1); [lia|]. set (a := enc (mfhd_box mux)) in *.
  pose proof (trafs_emit (p + 8 + zlen a) (tracks mux) moof_start moof_size 0 ltac:(len_lia) Hts) as R2.
  set (b := enc_all _) in R2. assert (zlen (str "moof") = 4) as H4 by done.
  assert (enc (Box (str "moof") [] (mfhd_box mux :: traf_boxes mux (tracks mux) moof_start moof_size 0))
    = be32 (8 + zlen (a ++ b)) ++ str "moof" ++ (a ++ b)) as E.
  { rewrite enc_unfold. cbn [box_payload box_name]. unfold enc_all. cbn [map concat]. done. }
  rewrite E. replace (zlen (be32 (8 + zlen (a ++ b)) ++ str "moof" ++ a ++ b)) with (8 + zlen (a ++ b)) by len_lia.
  eapply runs_bind; [apply emits_get_pos|].
  eapply runs_bind; [apply emits_write_box; unfold UINT32_MAX; lia|].
  eapply (runs_seq _ _ (p + 8)); [len_lia|exact R1|].
  eapply (runs_seq _ _ (p + 8 + zlen a)); [len_lia|exact R2|].
  replace (((be32 0 ++ str "moof") ++ a) ++ b) with (be32 0 ++ str "moof" ++ (a ++ b))
    by (by rewrite <- !app_assoc).
  by apply runs_close.
Qed.
End contents.

(** ** The size of a fragment header *)

Lemma leaf_len name fields : zlen name = 4 → zlen (enc (Box name fields [])) = 8 + zlen fields.
Proof. intros. rewrite enc_leaf. len_lia. Qed.

Lemma traf_box_len mux t s1 m1 o1 s2 m2 o2 :
  zlen (enc (traf_box mux t s1 m1 o1)) = zlen (enc (traf_box mux t s2 m2 o2)).
Proof.
  rewrite !enc_len by done. unfold traf_box. cbn [box_payload app]. unfold enc_all. cbn [map concat].
  unfold tfhd_box, trun_box.
  destruct (default _ _) as [[[d sz] dm] sm].
  rewrite !zlen_app, !leaf_len by done. destruct (is_fixed t); len_lia.
Qed.

Lemma traf_boxes_len mux ts s1 m1 o1 s2 m2 o2 :
  zlen (enc_all (traf_boxes mux ts s1 m1 o1)) = zlen (enc_all (traf_boxes mux ts s2 m2 o2)).
Proof.
  revert o1 o2; induction ts as [|t ts IH]; intros o1 o2; [done|]. cbn [traf_boxes].
  destruct (has_samples t); [|apply IH]. unfold enc_all in *. cbn [map concat].
  rewrite !zlen_app, (traf_box_len mux t s1 m1 o1 s2 m2 o2), (IH (trun_next t o1) (trun_next t o2)). done.
Qed.

Lemma moof_box_len mux m1 s1 m2 s2 :
  zlen (enc (moof_box mux m1 s1)) = zlen (enc (moof_box mux m2 s2)).
Proof.
  rewrite !enc_len by done. unfold moof_box. cbn [box_payload app]. unfold enc_all. cbn [map concat].
  rewrite !zlen_app. fold (enc_all (traf_boxes mux (tracks mux) s1 m1 0)).
  fold (enc_all (traf_boxes mux (tracks mux) s2 m2 0)).
  by rewrite (traf_boxes_len mux (tracks mux) s1 m1 0 s2 m2 0).
Qed.

(** ** What a player reads *)

Definition has_flag (f flags : Z) : bool := negb (Z.land flags f =? 0).

(** A [trun] payload: the data offset, then size and composition offset of each sample;
    [size] is the default of the track fragment. *)
Definition read_trun (size : Z) (payload : bytes) : Z * list (Z * Z) :=
  let flags := be_val (sub 1 3 payload) in
  let count := Z.to_nat (be_val (sub 4 4 payload)) in
  let entries := drop (if has_flag FIRST_SAMPLE_FLAGS_PRESENT flags then 16 else 12) payload in
  let signed o := if be_val (take 1 payload) =? 1 then i32 o else o in
  (be_val (sub 8 4 payload),
   if has_flag SAMPLE_SIZE_PRESENT flags then
     if has_flag SAMPLE_COMPOSITION_TIME_OFFSETS_PRESENT flags
     then map (λ e, (e.1, signed e.2)) (read_n count 8 read_pair entries)
     else map (λ n, (n, 0)) (read_n count 4 be_val entries)
   else replicate count (size, 0)).

(** The composition offset of a sample in the time scale of the track. *)
Definition sample_cts (t : mp4_track) (smp : fragment_sample) : Z :=
  if is_video t then (smp_offset smp * timescale t) /c timebase_den t else 0.

(** What the 32-bit fields of a run can hold. *)
Definition run_fits (mux : mp4_mux) (t : mp4_track) : Prop :=
  zlen (fragment_samples t) < 2 ^ 32 ∧
  Forall (λ s, 0 ≤ smp_size s < 2 ^ 32 ∧
    if MP4_USE_NEGATIVE_CTS (Mp4Types.flags mux) then - 2 ^ 31 ≤ sample_cts t s < 2 ^ 31
    else 0 ≤ sample_cts t s < 2 ^ 32) (fragment_samples t).

Lemma i32_u32 v : - 2 ^ 31 ≤ v < 2 ^ 31 → i32 (u32 v) = v.
Proof. intros. unfold i32, u32. rewrite Zplus_mod_idemp_l, Z.mod_small; lia. Qed.

Lemma trun_reads_back mux t moof_size off size :
  sample_size t = 0 → run_fits mux t →
  read_trun size (box_payload (trun_box mux t moof_size off)) =
    (u32 (u64 (u32 (moof_size + 8) + off)),
     map (λ s, (smp_size s, sample_cts t s)) (fragment_samples t)).
Proof.
  intros Hz (Hl & HF). unfold trun_box, trun_flags, is_fixed, trun_entry, sample_cts, run_fits in *.
  rewrite Hz. cbn [Z.eqb negb box_payload]. unfold enc_all. cbn [map concat]. rewrite app_nil_r.
  set (ss := fragment_samples t) in *. pose proof (zlen_nonneg ss).
  set (data_offset := u64 _). set (neg := MP4_USE_NEGATIVE_CTS (Mp4Types.flags mux)) in *.
  destruct (is_video t).
  - set (es := concat (map (λ smp, be32 (smp_size smp) ++ be32 ((smp_offset smp * timescale t) /c timebase_den t)) ss)).
    change (read_trun size _) with
      (be_val (be32 data_offset),
       map (λ e, (e.1, if be_val [u8 (if neg then 1 else 0)] =? 1 then i32 e.2 else e.2))
         (read_n (Z.to_nat (be_val (be32 (zlen ss)))) 8 read_pair es)).
    rewrite !be32_val, (u32_small (zlen ss)), zlen_to_nat by lia. f_equal.
    unfold es. rewrite <- (app_nil_r (concat _)), (read_n_concat ss 8 read_pair) by done. rewrite map_map.
    apply map_ext_Forall. eapply Forall_impl; [exact HF|]. intros s (Hs & Hc). cbv beta.
    rewrite read_pair_spec. cbn [fst snd]. rewrite (u32_small (smp_size s)) by lia. f_equal.
    destruct neg; [by apply i32_u32|]. change (be_val _ =? 1) with false. cbv iota. by wrap_small.
  - set (es := concat (map (λ smp, be32 (smp_size smp) ++ []) ss)).
    change (read_trun size _) with
      (be_val (be32 data_offset), map (λ n, (n, 0)) (read_n (Z.to_nat (be_val (be32 (zlen ss)))) 4 be_val es)).
    rewrite !be32_val, (u32_small (zlen ss)), zlen_to_nat by lia. f_equal.
    unfold es. rewrite <- (app_nil_r (concat _)), (read_n_concat ss 4 be_val) by done. rewrite map_map.
    apply map_ext_Forall. eapply Forall_impl; [exact HF|]. intros s (Hs & _). cbv beta.
    rewrite app_nil_r, be32_val. by wrap_small.
Qed.

(** The defaults of a track fragment are announced as valid for the whole run when
    the last sample has the duration (the size) of the first one, whatever the
    samples in between have: each iteration of the loop of [mp4_write_tfhd] overwrites
    the result of the previous one. *)
Theorem tfhd_last_sample_decides (t : mp4_track) first mid final :
  sample_size t = 0 → fragment_samples t = first :: mid ++ [final] →
  tfhd_defaults t = Some (smp_duration first, smp_size first,
    smp_duration final =? smp_duration first, smp_size final =? smp_size first).
Proof.
  intros Hz Hf. unfold tfhd_defaults. rewrite Hz, Hf. cbn [Z.eqb negb].
  assert (∀ d z l m, match_loop d z (l ++ [final]) m = (smp_duration final =? d, smp_size final =? z)) as E.
  { intros d z l. induction l as [|s l IH]; intros m; [done|]. apply IH. }
  by rewrite E.
Qed.

(** Durations 1, 2, 1: the run is announced to consist of samples of duration 1. *)
Definition ex_uneven : mp4_track :=
  mk_track TRACK_VIDEO CODEC_H264 1 3 4 None 1 30 30 0 0 [] 0 [5; 6; 7] [] [] false 0 [] []
    [mk_frag_sample 5 0 1; mk_frag_sample 6 0 2; mk_frag_sample 7 0 1].

Lemma tfhd_last_sample_decides_witness : tfhd_defaults ex_uneven = Some (1, 5, true, false).
Proof.
  exact (tfhd_last_sample_decides ex_uneven (mk_frag_sample 5 0 1) [mk_frag_sample 6 0 2]
    (mk_frag_sample 7 0 1) eq_refl eq_refl).
Defined.
