(* ===== verification/Mp4Mux.v ===== *)
(** * The muxer: plugins/obs-outputs/mp4-mux.c, lines 2442-3016

    Packet processing, fragments, track objects and the API. The file is a
    serializer [S]; temporary buffers are growable arrays. A function that changes the
    muxer returns it. Allocation, logging and reference counts are left out. *)

From S2P Require Import Prelude Util Serializer Encoder Nal NalPacket Avc Hevc RtmpAv1 Mp4Types Mp4Box Mp4Header Mp4Entry Mp4Table Mp4Moov Mp4Frag.

Local Open Scope Z_scope.
Local Open Scope serializer_scope.

(** ** Chapter packets *)

Definition mp4_create_chapter_pkt (dts_usec : Z) (name : bytes) : option encoder_packet :=
  let dts := dts_usec /c 1000 in
  let len := Z.min (zlen name) UINT16_MAX in
  '(_, ao) ←
    (s_put ref_one ;;;
     s_wb16 (u16 len) ;;;
     s_put (take (Z.to_nat len) name) ;;;
     s_put CHAPTER_PKT_FOOTER) array_output_serializer_init;
  Some (mk_packet (drop (length ref_one) (ao_bytes ao)) dts dts 1 1000 OBS_ENCODER_AUDIO false
          dts_usec 0 0 0 0 0).

(** ** Packet processing *)

(** The time base of a packet is not zero. *)
Definition packet_pts_usec (pkt : encoder_packet) : Z :=
  i64 (pkt_pts pkt * 1000000) /c pkt_timebase_den pkt.

Definition get_longest_track_duration (mux : mp4_mux) : option Z :=
  foldl (λ dur track,
    dur ← dur;
    track_dur ← mul_div64 (duration track) 1000 (timebase_den track);
    Some (if dur <? track_dur then track_dur else dur)) (Some 0) (tracks mux).

(** Run-length tables: extend the last entry or start a new one. *)
Definition push_delta (ds : list sample_delta) (delta count : Z) : list sample_delta :=
  match last ds with
  | Some d =>
      if delta_delta d =? delta
      then take (length ds - 1) ds ++ [mk_delta (u32 (delta_count d + count)) delta]
      else ds ++ [mk_delta count delta]
  | None => ds ++ [mk_delta count delta]
  end.

Definition push_offset (os : list sample_offset) (offset : Z) : list sample_offset :=
  match last os with
  | Some o =>
      if off_offset o =? offset
      then take (length os - 1) os ++ [mk_offset (u32 (off_count o + 1)) offset]
      else os ++ [mk_offset 1 offset]
  | None => os ++ [mk_offset 1 offset]
  end.

(** The sample information of a packet: size, composition offset, duration. *)
Definition sample_of (mux : mp4_mux) (track : mp4_track) (pkt next : encoder_packet) :
    fragment_sample * Z :=
  let duration := u32 (pkt_dts next - pkt_dts pkt) in
  let size := u32 (pkt_size pkt) in
  let offset := i32 (pkt_pts pkt - pkt_dts pkt) in
  if is_video track && MP4_USE_NEGATIVE_CTS (flags mux) then
    let dts_offset := match offsets track with [] => offset | _ => dts_offset track end in
    (mk_frag_sample size (i32 (offset - dts_offset)) duration, dts_offset)
  else (mk_frag_sample size offset duration, dts_offset track).

(** One iteration of the loop of [process_packets]: the updated track and [mdat_size]. *)
Definition process_packet (mux : mp4_mux) (track : mp4_track) (mdat_size : Z)
    (pkt next : encoder_packet) : mp4_track * Z :=
  let '(smp, dts_off) := sample_of mux track pkt next in
  let fixed := negb (sample_size track =? 0) in
  let sample_count := if fixed then smp_size smp `div` sample_size track else 1 in
  let delta := if fixed then 1 else smp_duration smp in
  let samples' := u64 (samples track + sample_count) in
  let video := is_video track in
  (mk_track
     (trk_type track) (trk_codec track) (track_id track)
     samples'
     (u64 (duration track + smp_duration smp))
     (trk_encoder track) (timebase_num track) (timebase_den track) (timescale track)
     (if samples track =? 0 then pkt_pts pkt else first_pts track)
     (last_pts_usec track)
     (packets track)
     (sample_size track)
     (if fixed then sample_sizes track else sample_sizes track ++ [smp_size smp])
     (chunks track)
     (push_delta (deltas track) delta sample_count)
     (if video then (if negb (smp_offset smp =? 0) then true else needs_ctts track) else needs_ctts track)
     dts_off
     (if video then push_offset (offsets track) (smp_offset smp) else offsets track)
     (if video && pkt_keyframe pkt then sync_samples track ++ [u32 samples'] else sync_samples track)
     (fragment_samples track ++ [smp]),
   u64 (mdat_size + smp_size smp)).

(** The loop up to the penultimate packet, left at the first packet that belongs to the
    next fragment. *)
Fixpoint process_loop (mux : mp4_mux) (track : mp4_track) (mdat_size : Z)
    (ps : list encoder_packet) : mp4_track * Z :=
  match ps with
  | pkt :: ((next :: _) as rest) =>
      if negb (next_frag_pts mux =? 0) && (next_frag_pts mux <=? packet_pts_usec pkt)
      then (track, mdat_size)
      else let '(track, mdat_size) := process_packet mux track mdat_size pkt next in
           process_loop mux track mdat_size rest
  | _ => (track, mdat_size)
  end.

Definition process_packets (mux : mp4_mux) (track : mp4_track) (mdat_size : Z) : mp4_track * Z :=
  process_loop mux track mdat_size (packets track).

(** [track] with its packet queue, chunks and fragment samples replaced. *)
Definition trk_set_written (track : mp4_track) (ps : list encoder_packet) (cs : list chunk)
    (fs : list fragment_sample) : mp4_track :=
  mk_track (trk_type track) (trk_codec track) (track_id track) (samples track) (duration track)
    (trk_encoder track) (timebase_num track) (timebase_den track) (timescale track)
    (first_pts track) (last_pts_usec track) ps (sample_size track) (sample_sizes track) cs
    (deltas track) (needs_ctts track) (dts_offset track) (offsets track) (sync_samples track) fs.

Definition trk_set_packets (track : mp4_track) (last_pts : Z) (ps : list encoder_packet) : mp4_track :=
  mk_track (trk_type track) (trk_codec track) (track_id track) (samples track) (duration track)
    (trk_encoder track) (timebase_num track) (timebase_den track) (timescale track)
    (first_pts track) last_pts ps (sample_size track) (sample_sizes track) (chunks track)
    (deltas track) (needs_ctts track) (dts_offset track) (offsets track) (sync_samples track)
    (fragment_samples track).

Section files.
Context {S : Type} `{SerializerOps S} (env : mp4_env).

(** [n] packets are popped and written; popping an empty queue is undefined. *)
Fixpoint write_samples (n : nat) (ps : list encoder_packet) : W S (list encoder_packet) :=
  match n, ps with
  | O, _ => ret ps
  | Datatypes.S _, [] => deref None
  | Datatypes.S n, pkt :: ps => s_put (pkt_data pkt) ;;; write_samples n ps
  end.

Definition write_packets (track : mp4_track) : W S mp4_track :=
  match packets track, fragment_samples track with
  | [], _ | _, [] => ret track
  | _, fs =>
      offset <- serializer_get_pos ;;
      rest <- write_samples (length fs) (packets track) ;;
      end_ <- serializer_get_pos ;;
      let size := u32 (end_ - offset) in
      let samples := if negb (sample_size track =? 0) then size `div` sample_size track
                     else u32 (zlen fs) in
      ret (trk_set_written track rest (chunks track ++ [mk_chunk (u64 offset) size samples]) [])
  end.

Fixpoint write_all (ts : list mp4_track) : W S (list mp4_track) :=
  match ts with
  | [] => ret []
  | t :: ts => t <- write_packets t ;; ts <- write_all ts ;; ret (t :: ts)
  end.

(** A writer run on the temporary array [aod]. *)
Definition in_array {A} (m : W array_output_data A) (aod : array_output_data) : W S (A * array_output_data) :=
  deref (m aod).

Definition mux_set (mux : mp4_mux) (frags next placeholder : Z) (ts : list mp4_track)
    (ch : option mp4_track) : mp4_mux :=
  mk_mux (flavor mux) (flags mux) frags next (creation_time mux) placeholder (track_ctr mux) ts ch.

Fixpoint process_all (mux : mp4_mux) (ts : list mp4_track) (mdat_size : Z) : list mp4_track * Z :=
  match ts with
  | [] => ([], mdat_size)
  | t :: ts =>
      let '(t, mdat_size) := process_packets mux t mdat_size in
      let '(ts, mdat_size) := process_all mux ts mdat_size in
      (t :: ts, mdat_size)
  end.

(** "Analyse packets": all tracks, then on the final flush a dummy chapter. *)
Definition analyse_packets (mux : mp4_mux) : option (mp4_mux * Z) :=
  let '(ts, mdat_size) := process_all mux (tracks mux) 8 in
  let mux := mux_set mux (fragments_written mux) (next_frag_pts mux) (placeholder_offset mux) ts (chapter_track mux) in
  match chapter_track mux with
  | Some ch =>
      if next_frag_pts mux =? 0 then
        duration ← get_longest_track_duration mux;
        pkt ← mp4_create_chapter_pkt (i64 (i64 duration * 1000)) (str "Dummy");
        let ch := trk_set_packets ch (last_pts_usec ch) (packets ch ++ [pkt]) in
        let '(ch, mdat_size) := process_packets mux ch mdat_size in
        Some (mux_set mux (fragments_written mux) (next_frag_pts mux) (placeholder_offset mux) ts (Some ch),
              mdat_size)
      else Some (mux, mdat_size)
  | None => Some (mux, mdat_size)
  end.

(** The file header, on the first flush. *)
Definition write_file_header (mux : mp4_mux) : W S mp4_mux :=
  if fragments_written mux =? 0 then
    mp4_write_ftyp mux true ;;;
    placeholder <- serializer_get_pos ;;
    mp4_write_free mux ;;;
    ret (mux_set mux (fragments_written mux) (next_frag_pts mux) (u64 placeholder) (tracks mux) (chapter_track mux))
  else ret mux.

Definition write_mdat_header (mdat_size : Z) : W S unit :=
  if UINT32_MAX <? mdat_size then
    s_wb32 1 ;;;
    s_put (str "mdat") ;;;
    s_wb64 (u64 (mdat_size + 8))
  else
    s_wb32 (u32 mdat_size) ;;;
    s_put (str "mdat").

(** From "Analyse packets and create fragment moof" on; [aod] is the temporary array. *)
Definition flush_packets (mux : mp4_mux) (aod : array_output_data) : W S mp4_mux :=
  let mux := mux_set mux (u32 (fragments_written mux + 1)) (next_frag_pts mux)
               (placeholder_offset mux) (tracks mux) (chapter_track mux) in
  analysed <- deref (analyse_packets mux) ;;
  let '(mux, mdat_size) := analysed in
  moof_start <- serializer_get_pos ;;
  r <- in_array (mp4_write_moof mux 0 moof_start) aod ;;
  let moof_size := r.1 in
  let aod := array_output_serializer_reset r.2 in
  r <- in_array (mp4_write_moof mux (u32 moof_size) moof_start) aod ;;
  s_put (ao_bytes r.2) ;;;
  write_mdat_header mdat_size ;;;
  ts <- write_all (tracks mux) ;;
  ch <- (match chapter_track mux with
         | Some ch => if next_frag_pts mux =? 0 then ch <- write_packets ch ;; ret (Some ch) else ret (Some ch)
         | None => ret None
         end) ;;
  ret (mux_set mux (fragments_written mux) 0 (placeholder_offset mux) ts ch).

Definition mp4_flush_fragment (mux : mp4_mux) : W S mp4_mux :=
  mux <- write_file_header mux ;;
  let aod := array_output_serializer_init in
  aod <- (if fragments_written mux =? 0 then
            r <- in_array (mp4_write_moov env mux true) aod ;;
            s_put (ao_bytes r.2) ;;;
            ret (array_output_serializer_reset r.2)
          else ret aod) ;;
  flush_packets mux aod.

(** ** Track objects *)

Definition track_insert_packet (track : mp4_track) (pkt : encoder_packet) : mp4_track :=
  let pts_usec := packet_pts_usec pkt in
  trk_set_packets track (if last_pts_usec track <? pts_usec then pts_usec else last_pts_usec track)
    (packets track ++ [pkt]).

Definition get_sample_size (enc : option obs_encoder) (codec : mp4_codec) : Z :=
  match obs_encoder_audio enc with
  | None => 0
  | Some audio =>
      let channels := get_audio_channels (speakers audio) in
      match codec with
      | CODEC_PCM_F32 => channels * 4
      | CODEC_PCM_I24 => channels * 3
      | CODEC_PCM_I16 => channels * 2
      | _ => 0
      end
  end.

Definition get_codec (codec : string) : mp4_codec :=
  if String.eqb codec "h264" then CODEC_H264
  else if String.eqb codec "hevc" then CODEC_HEVC
  else if String.eqb codec "av1" then CODEC_AV1
  else if String.eqb codec "prores" then CODEC_PRORES
  else if String.eqb codec "aac" then CODEC_AAC
  else if String.eqb codec "opus" then CODEC_OPUS
  else if String.eqb codec "flac" then CODEC_FLAC
  else if String.eqb codec "alac" then CODEC_ALAC
  else if String.eqb codec "pcm_s16le" then CODEC_PCM_I16
  else if String.eqb codec "pcm_s24le" then CODEC_PCM_I24
  else if String.eqb codec "pcm_f32le" then CODEC_PCM_F32
  else CODEC_UNKNOWN.

(** A zeroed track ([da_push_back_new], [bzalloc]) with the given fields. *)
Definition new_track (type : mp4_track_type) (codec : mp4_codec) (id : Z) (enc : option obs_encoder)
    (num den scale ssize : Z) : mp4_track :=
  mk_track type codec id 0 0 enc num den scale 0 0 [] ssize [] [] [] false 0 [] [] [].

Definition add_track (mux : mp4_mux) (enc : obs_encoder) : option mp4_mux :=
  let type := match obs_encoder_get_type (Some enc) with
              | OBS_ENCODER_VIDEO => TRACK_VIDEO
              | OBS_ENCODER_AUDIO => TRACK_AUDIO
              end in
  let codec := get_codec (enc_codec enc) in
  let ctr := u8 (track_ctr mux + 1) in
  track ←
    match type with
    | TRACK_VIDEO =>
        info ← obs_encoder_video (Some enc);
        Some (new_track type codec ctr (Some enc) (fps_den info) (fps_num info) (fps_num info) 0)
    | _ =>
        let sample_rate := obs_encoder_get_sample_rate (Some enc) in
        let sample_rate := if bool_decide (codec = CODEC_OPUS) then 48000 else sample_rate in
        Some (new_track type codec ctr (Some enc) 1 sample_rate sample_rate
                (get_sample_size (Some enc) codec))
    end;
  Some (mk_mux (flavor mux) (flags mux) (fragments_written mux) (next_frag_pts mux) (creation_time mux)
          (placeholder_offset mux) ctr (tracks mux ++ [track]) (chapter_track mux)).

Definition add_chapter_track (mux : mp4_mux) : mp4_mux :=
  let ctr := u8 (track_ctr mux + 1) in
  mk_mux (flavor mux) (flags mux) (fragments_written mux) (next_frag_pts mux) (creation_time mux)
    (placeholder_offset mux) ctr (tracks mux)
    (Some (new_track TRACK_CHAPTERS CODEC_TEXT ctr None 1 1000 1000 0)).

(** ** API *)

Fixpoint add_tracks (mux : mp4_mux) (encs : list (option obs_encoder)) : option mp4_mux :=
  match encs with
  | [] => Some mux
  | None :: encs => add_tracks mux encs
  | Some enc :: encs => mux ← add_track mux enc; add_tracks mux encs
  end.

(** [video] and [audio] are the encoder slots of the output, [now] the time. *)
Definition mp4_mux_create (video audio : list (option obs_encoder)) (now : Z)
    (fl : mp4_mux_flags) (fv : mp4_flavor) : option mp4_mux :=
  let creation := u64 (now + 2082844800) in
  let creation := if bool_decide (fv = FLAVOR_MOV) && (UINT32_MAX <? creation) then 0 else creation in
  mux ← add_tracks (mk_mux fv fl 0 0 creation 0 0 [] None) video;
  add_tracks mux audio.

(** The loop of [mp4_mux_submit_packet]: the index of the last track of the encoder
    and whether every track has reached the fragmentation point. *)
Fixpoint find_track (mux : mp4_mux) (ts : list mp4_track) (i : nat) (pkt : encoder_packet)
    (found : option nat) (ready : bool) : option nat * bool :=
  match ts with
  | [] => (found, ready)
  | t :: ts =>
      let ready := ready && (next_frag_pts mux <=? last_pts_usec t) in
      let found := match trk_encoder t with
                   | Some e => if enc_ptr e =? pkt_encoder pkt then Some i else found
                   | None => found
                   end in
      find_track mux ts (Datatypes.S i) pkt found ready
  end.

(** The packet as it is queued; other video codecs leave it uninitialised. *)
Definition parse_packet (track : mp4_track) (pkt : encoder_packet) : option encoder_packet :=
  match pkt_type pkt with
  | OBS_ENCODER_AUDIO => Some pkt
  | OBS_ENCODER_VIDEO =>
      match trk_codec track with
      | CODEC_H264 => obs_parse_avc_packet (env_address env (pkt_data pkt)) pkt
      | CODEC_HEVC => obs_parse_hevc_packet (env_address env (pkt_data pkt)) pkt
      | CODEC_AV1 => obs_parse_av1_packet pkt
      | CODEC_PRORES => Some pkt
      | _ => None
      end
  end.

Definition mp4_mux_submit_packet (mux : mp4_mux) (pkt : encoder_packet) : W S (bool * mp4_mux) :=
  let '(found, fragment_ready) :=
    find_track mux (tracks mux) 0 pkt None (0 <? next_frag_pts mux) in
  match found with
  | None => ret (false, mux)
  | Some i =>
      mux <- (if (fragment_ready : bool) then mp4_flush_fragment mux else ret mux) ;;
      track <- deref (tracks mux !! i) ;;
      parsed <- deref (parse_packet track pkt) ;;
      let next := match pkt_type pkt with
                  | OBS_ENCODER_VIDEO =>
                      if pkt_keyframe parsed && (0 <? pkt_pts parsed)
                      then packet_pts_usec parsed else next_frag_pts mux
                  | OBS_ENCODER_AUDIO => next_frag_pts mux
                  end in
      ret (true, mux_set mux (fragments_written mux) next (placeholder_offset mux)
                   (<[i := track_insert_packet track parsed]> (tracks mux)) (chapter_track mux))
  end.

Definition insert_chapter (mux : mp4_mux) (dts_usec : Z) (name : bytes) : option mp4_mux :=
  ch ← chapter_track mux;
  pkt ← mp4_create_chapter_pkt dts_usec name;
  Some (mux_set mux (fragments_written mux) (next_frag_pts mux) (placeholder_offset mux) (tracks mux)
          (Some (track_insert_packet ch pkt))).

(** The recursive call is for time 0 and does not recurse again. *)
Definition mp4_mux_add_chapter (mux : mp4_mux) (dts_usec : Z) (name : bytes) : option (bool * mp4_mux) :=
  if dts_usec <? 0 then Some (false, mux) else
  let mux := match chapter_track mux with None => add_chapter_track mux | Some _ => mux end in
  ch ← chapter_track mux;
  mux ← (match packets ch with
         | [] => if 0 <? dts_usec then insert_chapter mux 0 (env_start_chapter env) else Some mux
         | _ => Some mux
         end);
  mux ← insert_chapter mux dts_usec name;
  Some (true, mux).

Definition mp4_mux_finalise (mux : mp4_mux) : W S (bool * mp4_mux) :=
  let mux := mux_set mux (fragments_written mux) 0 (placeholder_offset mux) (tracks mux) (chapter_track mux) in
  mux <- mp4_flush_fragment mux ;;
  if MP4_SKIP_FINALISATION (flags mux) then ret (true, mux) else
  data_end <- serializer_get_pos ;;
  r <- in_array (mp4_write_moov env mux false) array_output_serializer_init ;;
  s_put (ao_bytes r.2) ;;;
  serializer_seek 0 SERIALIZE_SEEK_START ;;;
  mp4_write_ftyp mux false ;;;
  let data_size := u64 (data_end - placeholder_offset mux) in
  serializer_seek (i64 (placeholder_offset mux)) SERIALIZE_SEEK_START ;;;
  (if UINT32_MAX <? data_size then
     s_wb32 1 ;;;
     s_put (str "mdat") ;;;
     s_wb64 data_size
   else
     s_wb32 (u32 data_size) ;;;
     s_put (str "mdat")) ;;;
  ret (true, mux).
End files.

(** ** Processing queued packets *)

(** What [process_packets] leaves alone. *)
Definition trk_static (t : mp4_track) :=
  ((trk_type t, trk_codec t, track_id t, trk_encoder t),
   (timebase_num t, timebase_den t, timescale t, sample_size t),
   (packets t, chunks t, last_pts_usec t)).

Definition data_of (ps : list encoder_packet) : bytes := concat (map pkt_data ps).

Lemma data_of_cons p ps : data_of (p :: ps) = pkt_data p ++ data_of ps.
Proof. reflexivity. Qed.

Lemma process_packet_static mux t m p n :
  trk_static (process_packet mux t m p n).1 = trk_static t ∧
  fragment_samples (process_packet mux t m p n).1 = fragment_samples t ++ [(sample_of mux t p n).1] ∧
  smp_size (sample_of mux t p n).1 = u32 (pkt_size p) ∧
  (process_packet mux t m p n).2 = u64 (m + u32 (pkt_size p)).
Proof.
  unfold process_packet.
  assert (smp_size (sample_of mux t p n).1 = u32 (pkt_size p)) as E.
  { unfold sample_of. by destruct (is_video t && _). }
  destruct (sample_of mux t p n) as [smp off]. simpl in E. rewrite <- E. done.
Qed.

Lemma process_loop_cons mux t m p n ps :
  process_loop mux t m (p :: n :: ps) =
  if negb (next_frag_pts mux =? 0) && (next_frag_pts mux <=? packet_pts_usec p) then (t, m)
  else let '(t, m) := process_packet mux t m p n in process_loop mux t m (n :: ps).
Proof. reflexivity. Qed.

(** The samples recorded are those of a prefix of the queue, and [mdat_size] grows by
    their bytes. *)
Lemma process_loop_spec mux t m ps :
  0 ≤ m → m + zlen (data_of ps) < 2 ^ 32 →
  ∃ ss, let r := process_loop mux t m ps in
    trk_static r.1 = trk_static t ∧
    fragment_samples r.1 = fragment_samples t ++ ss ∧
    (length ss ≤ length ps)%nat ∧
    map smp_size ss = map pkt_size (take (length ss) ps) ∧
    r.2 = m + zlen (data_of (take (length ss) ps)).
Proof.
  revert t m; induction ps as [|p ps IH]; intros t m Hm Hb.
  - exists []. simpl. rewrite app_nil_r. change (zlen (data_of [])) with 0. by auto with lia.
  - assert (∃ ss, let r := (t, m) in trk_static r.1 = trk_static t ∧
      fragment_samples r.1 = fragment_samples t ++ ss ∧ (length ss ≤ length (p :: ps))%nat ∧
      map smp_size ss = map pkt_size (take (length ss) (p :: ps)) ∧
      r.2 = m + zlen (data_of (take (length ss) (p :: ps)))) as Hstop.
    { exists []. simpl. rewrite app_nil_r. change (zlen (data_of [])) with 0. by auto with lia. }
    rewrite data_of_cons, zlen_app in Hb. pose proof (zlen_nonneg (data_of ps)).
    pose proof (zlen_nonneg (pkt_data p)).
    destruct ps as [|n ps]; [exact Hstop|]. rewrite process_loop_cons.
    destruct (_ && _); [exact Hstop|].
    destruct (process_packet_static mux t m p n) as (E1 & E2 & E3 & E4).
    destruct (process_packet mux t m p n) as [t1 m1]. cbn [fst snd] in *.
    unfold pkt_size in *. rewrite (u32_small (zlen (pkt_data p))) in * by lia.
    rewrite u64_small in E4 by lia. subst m1.
    destruct (IH t1 (m + zlen (pkt_data p))) as (ss & R1 & R2 & R3 & R4 & R5); [lia|lia|].
    exists ((sample_of mux t p n).1 :: ss).
    split; [by rewrite R1|]. split; [by rewrite R2, E2, <- app_assoc|].
    split; [simpl in *; lia|]. cbn [length take map]. split; [by rewrite R4, E3|].
    rewrite R5, data_of_cons, zlen_app. lia.
Qed.

(** A track whose pending samples describe a prefix of its queue. *)
Definition matched (t : mp4_track) : Prop :=
  (length (fragment_samples t) ≤ length (packets t))%nat ∧
  map smp_size (fragment_samples t) = map pkt_size (take (length (fragment_samples t)) (packets t)).

(** The bytes of the pending samples. *)
Definition run_data (t : mp4_track) : bytes := data_of (take (length (fragment_samples t)) (packets t)).

Definition queue_bytes (ts : list mp4_track) : Z := foldr (λ t n, zlen (data_of (packets t)) + n) 0 ts.

Lemma trk_static_packets t t' : trk_static t = trk_static t' → packets t = packets t'.
Proof. unfold trk_static. congruence. Qed.

Lemma queue_bytes_nonneg ts : 0 ≤ queue_bytes ts.
Proof. induction ts as [|t ts IH]; [done|]. simpl. pose proof (zlen_nonneg (data_of (packets t))). lia. Qed.

Lemma process_all_spec mux ts m :
  Forall (λ t, fragment_samples t = []) ts → 0 ≤ m → m + queue_bytes ts < 2 ^ 32 →
  let r := process_all mux ts m in
  Forall2 (λ t t', trk_static t' = trk_static t ∧ matched t') ts r.1 ∧
  r.2 = m + zlen (concat (map run_data r.1)).
Proof.
  intros HF. revert m; induction HF as [|t ts Ht _ IH]; intros m Hm Hb.
  - simpl. change (zlen []) with 0. by auto with lia.
  - cbn [process_all queue_bytes foldr] in *. fold (queue_bytes ts) in Hb.
    pose proof (queue_bytes_nonneg ts). unfold process_packets.
    destruct (process_loop_spec mux t m (packets t)) as (ss & R1 & R2 & R3 & R4 & R5); [lia|lia|].
    destruct (process_loop mux t m (packets t)) as [t1 m1]. cbn [fst snd] in *.
    rewrite Ht in R2. simpl in R2.
    assert (run_data t1 = data_of (take (length ss) (packets t))) as Er.
    { unfold run_data. by rewrite R2, (trk_static_packets _ _ R1). }
    assert (zlen (data_of (take (length ss) (packets t))) ≤ zlen (data_of (packets t))) as Hle.
    { rewrite <- (take_drop (length ss) (packets t)) at 2. unfold data_of.
      rewrite map_app, concat_app. len_lia. }
    pose proof (zlen_nonneg (data_of (take (length ss) (packets t)))).
    specialize (IH m1). destruct (process_all mux ts m1) as [ts1 m2]. cbn [fst snd] in *.
    destruct IH as [IH1 IH2]; [lia|lia|]. split.
    + constructor; [|done]. split; [done|]. unfold matched.
      by rewrite R2, (trk_static_packets _ _ R1).
    + cbn [map concat]. rewrite zlen_app, Er. lia.
Qed.

(** ** Where the data of a run is *)

(** The tracks with samples and their offsets into the data of the fragment. *)
Fixpoint trun_offsets (ts : list mp4_track) (off : Z) : list (mp4_track * Z) :=
  match ts with
  | [] => []
  | t :: ts =>
      if has_samples t then (t, off) :: trun_offsets ts (trun_next t off) else trun_offsets ts off
  end.

Lemma traf_boxes_map mux ts st ms off :
  traf_boxes mux ts st ms off = map (λ x, traf_box mux x.1 st ms x.2) (trun_offsets ts off).
Proof.
  revert off; induction ts as [|t ts IH]; intros off; [done|]. simpl.
  destruct (has_samples t); simpl; by rewrite IH.
Qed.

Lemma add_sizes_sum o ss : 0 ≤ o → Forall (λ s, 0 ≤ smp_size s) ss →
  o + foldr (λ s n, smp_size s + n) 0 ss < 2 ^ 64 →
  add_sizes o ss = o + foldr (λ s n, smp_size s + n) 0 ss.
Proof.
  intros Ho HF. revert o Ho; induction HF as [|s ss Hs HF IH]; intros o Ho Hb; simpl in *; [lia|].
  assert (0 ≤ foldr (λ s n, smp_size s + n) 0 ss).
  { clear -HF. induction HF; simpl; lia. }
  rewrite u64_small by lia. rewrite IH by lia. lia.
Qed.

Lemma sizes_data ss ps : map smp_size ss = map pkt_size ps →
  foldr (λ s n, smp_size s + n) 0 ss = zlen (data_of ps) ∧ Forall (λ s, 0 ≤ smp_size s) ss.
Proof.
  revert ps; induction ss as [|s ss IH]; intros [|p ps] E; simplify_eq/=; [done|].
  destruct (IH ps) as [E' HF]; [done|]. rewrite E', data_of_cons, zlen_app, H. unfold pkt_size.
  split; [done|]. constructor; [rewrite H; apply zlen_nonneg|done].
Qed.

Lemma run_data_len t o : matched t → 0 ≤ o → o + zlen (run_data t) < 2 ^ 64 →
  add_sizes o (fragment_samples t) = o + zlen (run_data t).
Proof.
  intros [_ Hm] Ho Hb. apply sizes_data in Hm as [E HF]. fold (run_data t) in E.
  rewrite <- E in *. by apply add_sizes_sum.
Qed.

Lemma trun_next_run t o : matched t → 0 ≤ o → o + zlen (run_data t) < 2 ^ 64 →
  trun_next t o = o + zlen (run_data t).
Proof.
  intros Hm Ho Hb. unfold trun_next. pose proof (zlen_nonneg (run_data t)).
  destruct (is_fixed t); rewrite run_data_len by (done || lia); [|done].
  rewrite Z.add_0_l. by wrap_small.
Qed.

Lemma no_samples_no_data t : has_samples t = false → run_data t = [].
Proof. unfold has_samples, run_data. by destruct (fragment_samples t). Qed.

(** Each run finds its bytes at its offset. *)
Lemma trun_offsets_data ts off pre :
  Forall matched ts → zlen pre = off → off + zlen (concat (map run_data ts)) < 2 ^ 64 →
  Forall (λ x, 0 ≤ x.2 ∧ x.2 + zlen (run_data x.1) ≤ off + zlen (concat (map run_data ts)) ∧
      sub x.2 (zlen (run_data x.1)) (pre ++ concat (map run_data ts)) = run_data x.1)
    (trun_offsets ts off).
Proof.
  intros HF. revert off pre; induction HF as [|t ts Ht _ IH]; intros off pre Hp Hb; [constructor|].
  cbn [trun_offsets map concat] in *. rewrite zlen_app in Hb. pose proof (zlen_nonneg pre).
  pose proof (zlen_nonneg (run_data t)). pose proof (zlen_nonneg (concat (map run_data ts))).
  assert (Forall (λ x, 0 ≤ x.2 ∧
      x.2 + zlen (run_data x.1) ≤ off + (zlen (run_data t) + zlen (concat (map run_data ts))) ∧
      sub x.2 (zlen (run_data x.1)) (pre ++ run_data t ++ concat (map run_data ts)) = run_data x.1)
    (trun_offsets ts (off + zlen (run_data t)))) as Hrest.
  { specialize (IH (off + zlen (run_data t)) (pre ++ run_data t)).
    rewrite <- app_assoc in IH. eapply Forall_impl; [apply IH; [len_lia|lia]|].
    intros x. cbv beta. intros (? & ? & ?). split; [done|]. split; [lia|done]. }
  destruct (has_samples t) eqn:E.
  - constructor; [|by rewrite trun_next_run by (done || lia); rewrite zlen_app].
    cbn [fst snd]. split; [lia|]. split; [rewrite zlen_app; lia|]. subst off. apply sub_app_mid.
  - rewrite zlen_app. apply no_samples_no_data in E. rewrite E in Hrest.
    change (zlen []) with 0 in Hrest. rewrite Z.add_0_r in Hrest. by rewrite E.
Qed.

(** ** Writing the runs *)

(** The track after its run is written at [p]. *)
Definition written_chunk (p : Z) (t : mp4_track) : chunk :=
  let size := u32 (zlen (run_data t)) in
  mk_chunk (u64 p) size
    (if negb (sample_size t =? 0) then size `div` sample_size t else u32 (zlen (fragment_samples t))).

Definition written (p : Z) (t : mp4_track) : mp4_track :=
  if has_samples t
  then trk_set_written t (drop (length (fragment_samples t)) (packets t)) (chunks t ++ [written_chunk p t]) []
  else t.

Fixpoint written_all (p : Z) (ts : list mp4_track) : list mp4_track :=
  match ts with
  | [] => []
  | t :: ts => written p t :: written_all (p + zlen (run_data t)) ts
  end.

Section emission.
Context {S : Type} `{AppendSerializer S} (env : mp4_env).

Lemma emits_write_samples p n ps : (n ≤ length ps)%nat →
  emits p (write_samples (S:=S) n ps) (data_of (take n ps)) (drop n ps).
Proof.
  revert p ps; induction n as [|n IH]; intros p ps Hn; [destruct ps; apply emits_ret|].
  destruct ps as [|k ps]; simpl in Hn; [lia|]. cbn [write_samples take drop].
  rewrite data_of_cons. eapply emits_seq; [apply emits_put|reflexivity|]. apply IH. lia.
Qed.

Lemma emits_write_packets p t : matched t →
  emits p (write_packets (S:=S) t) (run_data t) (written p t).
Proof.
  intros [Hl Hm]. unfold write_packets, written, has_samples.
  destruct (packets t) as [|k ps] eqn:Ep.
  { simpl in Hl. assert (fragment_samples t = []) as E by (by destruct (fragment_samples t)).
    unfold run_data. rewrite E. apply emits_ret. }
  destruct (fragment_samples t) as [|f fs] eqn:Ef.
  { unfold run_data. rewrite Ef. apply emits_ret. }
  assert (run_data t = data_of (take (length (f :: fs)) (k :: ps))) as Er
    by (unfold run_data; by rewrite Ep, Ef).
  eapply emits_eq.
  { eapply emits_seq; [apply emits_get_pos|reflexivity|]. rewrite zlen_nil, Z.add_0_r.
    eapply emits_seq; [by apply emits_write_samples|reflexivity|].
    eapply emits_seq; [apply emits_get_pos|reflexivity|].
    rewrite <- Er. replace (p + zlen (run_data t) - p) with (zlen (run_data t)) by lia.
    unfold written_chunk. rewrite Ef. apply emits_ret. }
  simpl. rewrite !app_nil_r. done.
Qed.

Lemma emits_write_all p ts : Forall matched ts →
  emits p (write_all (S:=S) ts) (concat (map run_data ts)) (written_all p ts).
Proof.
  intros HF. revert p; induction HF as [|t ts Ht _ IH]; intros p; [apply emits_ret|].
  cbn [write_all map concat written_all]. eapply emits_seq; [by apply emits_write_packets|reflexivity|].
  rewrite <- (app_nil_r (concat _)).
  eapply emits_seq; [apply IH|reflexivity|apply emits_ret].
Qed.

Lemma emits_in_array {A} p (m : W array_output_data A) bs (a : A) :
  emits 0 m bs a → zlen bs < MAX_POS →
  emits (S:=S) p (in_array m array_output_serializer_init) [] (a, mk_array_output bs (zlen bs)).
Proof. intros E Hl. apply emits_deref. by apply emits_array. Qed.

Lemma emits_mdat_header p payload : 8 + zlen payload ≤ UINT32_MAX →
  emits (S:=S) p (write_mdat_header (8 + zlen payload) ;;; s_put payload) (enc (Box (str "mdat") payload [])) tt.
Proof.
  intros Hl. unfold write_mdat_header. rewrite (proj2 (Z.ltb_ge _ _)) by lia.
  rewrite enc_leaf. unfold UINT32_MAX in *. pose proof (zlen_nonneg payload). wrap_small.
  rewrite app_assoc. eapply emits_seq; [|reflexivity|apply emits_put].
  eapply emits_seq; [eauto with emits|reflexivity|eauto with emits].
Qed.

(** A flush without dummy chapter: no track has pending samples, and the queued data
    fits a 32-bit [mdat]. *)
Record flush_ok (mux : mp4_mux) : Prop := {
  fl_middle : chapter_track mux = None ∨ next_frag_pts mux ≠ 0;
  fl_tracks : Forall track_ok (tracks mux);
  fl_pending : Forall (λ t, fragment_samples t = []) (tracks mux);
  fl_size : 8 + queue_bytes (tracks mux) ≤ UINT32_MAX
}.

(** The muxer when the samples of the fragment are determined. *)
Definition analysed (mux : mp4_mux) : mp4_mux :=
  let mux := mux_set mux (u32 (fragments_written mux + 1)) (next_frag_pts mux) (placeholder_offset mux)
               (tracks mux) (chapter_track mux) in
  mux_set mux (fragments_written mux) (next_frag_pts mux) (placeholder_offset mux)
    (process_all mux (tracks mux) 8).1 (chapter_track mux).

Definition fragment_payload (mux : mp4_mux) : bytes := concat (map run_data (tracks (analysed mux))).

(** The size of the [moof] box, which is the same in both passes. *)
Definition moof_len (mux : mp4_mux) : Z := zlen (enc (moof_box (analysed mux) 0 0)).

Lemma flush_analysed mux : flush_ok mux →
  Forall2 (λ t t', trk_static t' = trk_static t ∧ matched t') (tracks mux) (tracks (analysed mux)) ∧
  Forall matched (tracks (analysed mux)) ∧ Forall track_ok (tracks (analysed mux)) ∧
  8 + zlen (fragment_payload mux) ≤ UINT32_MAX ∧
  analyse_packets (mux_set mux (u32 (fragments_written mux + 1)) (next_frag_pts mux)
    (placeholder_offset mux) (tracks mux) (chapter_track mux)) =
    Some (analysed mux, 8 + zlen (fragment_payload mux)).
Proof.
  intros [Hmid Hok Hpend Hsize]. unfold UINT32_MAX in *.
  set (mux0 := mux_set mux (u32 (fragments_written mux + 1)) (next_frag_pts mux) (placeholder_offset mux)
    (tracks mux) (chapter_track mux)).
  destruct (process_all_spec mux0 (tracks mux) 8) as [H1 H2]; [done|lia|lia|].
  assert (zlen (fragment_payload mux) ≤ queue_bytes (tracks mux)) as Hle.
  { unfold fragment_payload, analysed. fold mux0. cbn [tracks mux_set].
    change (tracks mux0) with (tracks mux). revert H1.
    generalize (process_all mux0 (tracks mux) 8).1. clear. generalize (tracks mux). intros ts0 ts1 H1.
    induction H1 as [|t t' ts ts' [Hs Hm] _ IH]; [done|]. cbn [map concat queue_bytes foldr].
    fold (queue_bytes ts). rewrite zlen_app. pose proof (trk_static_packets _ _ Hs) as Ep.
    assert (zlen (run_data t') ≤ zlen (data_of (packets t))); [|lia].
    unfold run_data. rewrite Ep. generalize (length (fragment_samples t')). intros n.
    rewrite <- (take_drop n (packets t)) at 2.
    unfold data_of. rewrite map_app, concat_app. len_lia. }
  split; [done|]. split; [|split; [|split; [lia|]]].
  - eapply Forall2_Forall_r; [exact H1|]. apply Forall_forall. by intros t' _ t [_ ?].
  - change (tracks (analysed mux)) with (process_all mux0 (tracks mux) 8).1.
    revert Hok H1. generalize (process_all mux0 (tracks mux) 8).1. generalize (tracks mux).
    clear. intros ts ts' Hok. revert ts'. induction Hok as [|t ts [? ?] _ IH]; intros ts' H1;
      inversion_clear H1 as [|? t' ? ts1 [Hs _] H1']; constructor; [|by apply IH].
    unfold trk_static in Hs. split; congruence.
  - unfold analyse_packets. change (tracks mux0) with (tracks mux).
    rewrite (surjective_pairing (process_all mux0 (tracks mux) 8)), H2. cbv zeta.
    change (mux_set mux0 _ _ _ _ _) with (analysed mux).
    change (8 + zlen _) with (8 + zlen (fragment_payload mux)).
    change (chapter_track (analysed mux)) with (chapter_track mux).
    change (next_frag_pts (analysed mux)) with (next_frag_pts mux).
    destruct (chapter_track mux) as [ch|]; [|done].
    destruct Hmid as [?|Hn]; [done|]. by rewrite (proj2 (Z.eqb_neq _ _)).
Qed.

(** The muxer after the fragment is written at [p]. *)
Definition flushed (p : Z) (mux : mp4_mux) : mp4_mux :=
  mux_set (analysed mux) (fragments_written (analysed mux)) 0 (placeholder_offset mux)
    (written_all (p + moof_len mux + 8) (tracks (analysed mux))) (chapter_track mux).

Lemma emits_ret_bind {A B} p (a : A) (k : A → W S B) bs r : emits p (k a) bs r → emits p (x <- ret a ;; k x) bs r.
Proof. by apply emits_ext. Qed.

Lemma emits_deref_bind {A B} p (o : option A) a (k : A → W S B) bs r :
  o = Some a → emits p (k a) bs r → emits p (x <- deref o ;; k x) bs r.
Proof. intros ->. by apply emits_ext. Qed.

Lemma emits_assoc2 {A B} p (m1 : W S unit) (m2 : A → W S unit) (a : A) (k : W S B) bs r :
  emits p ((m1 ;;; m2 a) ;;; k) bs r → emits p (m1 ;;; m2 a ;;; k) bs r.
Proof. apply emits_ext. intros s. unfold bind. by destruct (m1 s) as [[? ?]|]. Qed.

(** A step that writes nothing. *)
Lemma emits_silent {A B} p (m : W S A) (k : A → W S B) x bs r :
  emits p m [] x → emits p (k x) bs r → emits p (bind m k) bs r.
Proof.
  intros M K. rewrite <- (app_nil_l bs). eapply emits_seq; [exact M| |exact K].
  by rewrite zlen_nil, Z.add_0_r.
Qed.

Lemma flush_packets_emits mux p : flush_ok mux → 0 ≤ p → moof_len mux < 2 ^ 32 →
  emits p (flush_packets mux array_output_serializer_init)
    (enc (moof_box (analysed mux) (moof_len mux) p) ++ enc (Box (str "mdat") (fragment_payload mux) []))
    (flushed p mux).
Proof.
  intros Hf Hp Hm. pose proof (flush_analysed mux Hf) as (_ & Hmatched & Hok & Hsize & Ha).
  pose proof (zlen_nonneg (enc (moof_box (analysed mux) 0 0))) as Hm0. fold (moof_len mux) in Hm0.
  destruct Hf as [Hmid _ _ _]. unfold flush_packets. cbv zeta.
  eapply emits_deref_bind; [exact Ha|].
  eapply emits_silent; [apply emits_get_pos|].
  pose proof (moof_emit (S:=array_output_data) (analysed mux) 0 0 p ltac:(lia) Hok) as E1.
  rewrite (moof_box_len _ 0 p 0 0) in E1. fold (moof_len mux) in E1.
  eapply emits_silent.
  { apply emits_in_array; [exact E1|]. rewrite (moof_box_len _ 0 p 0 0). fold (moof_len mux). unfold MAX_POS. lia. }
  cbn [fst snd]. rewrite (u64_small (moof_len mux)), (u32_small (moof_len mux)) by lia.
  change (array_output_serializer_reset _) with array_output_serializer_init.
  pose proof (moof_emit (S:=array_output_data) (analysed mux) 0 (moof_len mux) p ltac:(lia) Hok) as E2.
  eapply emits_silent.
  { apply emits_in_array; [exact E2|].
    rewrite (moof_box_len _ (moof_len mux) p 0 0). fold (moof_len mux). unfold MAX_POS. lia. }
  cbn [fst snd ao_bytes].
  eapply emits_seq; [apply emits_put|reflexivity|].
  rewrite (moof_box_len _ (moof_len mux) p 0 0). fold (moof_len mux).
  set (q := p + moof_len mux). rewrite enc_leaf.
  eapply emits_eq.
  - eapply (emits_seq _ (q + 8) (be32 (8 + zlen (fragment_payload mux)) ++ str "mdat")).
    + unfold write_mdat_header. rewrite (proj2 (Z.ltb_ge _ _)) by lia.
      unfold UINT32_MAX in *. pose proof (zlen_nonneg (fragment_payload mux)). wrap_small.
      eapply emits_seq; [eauto with emits|reflexivity|eauto with emits].
    + done.
    + eapply emits_seq; [by apply emits_write_all|reflexivity|].
      change (chapter_track (analysed mux)) with (chapter_track mux).
      change (next_frag_pts (analysed mux)) with (next_frag_pts mux).
      eapply (emits_seq _ _ [] _ _ _ (chapter_track mux)); [|reflexivity|apply emits_ret].
      destruct (chapter_track mux) as [ch|]; [|apply emits_ret].
      destruct Hmid as [?|Hn]; [done|]. rewrite (proj2 (Z.eqb_neq _ _)) by done. apply emits_ret.
  - unfold fragment_payload. by rewrite !app_nil_r, <- app_assoc.
Qed.

(** A fragment in the middle of a recording. *)
Lemma flush_emits mux p : fragments_written mux ≠ 0 → flush_ok mux → 0 ≤ p → moof_len mux < 2 ^ 32 →
  emits p (mp4_flush_fragment env mux)
    (enc (moof_box (analysed mux) (moof_len mux) p) ++ enc (Box (str "mdat") (fragment_payload mux) []))
    (flushed p mux).
Proof.
  intros Hw Hf Hp Hm. unfold mp4_flush_fragment, write_file_header.
  rewrite (proj2 (Z.eqb_neq _ _)) by done. apply emits_ret_bind.
  rewrite (proj2 (Z.eqb_neq (fragments_written mux) 0)) by done. cbv zeta. apply emits_ret_bind.
  by apply flush_packets_emits.
Qed.

(** C22: A fragment is written so that a player finds the samples: flushing appends a
    [moof] box and an [mdat] box holding the queued packets of every track, and for
    each track run the [trun] data offset, counted from the [moof] as the [tfhd]
    base says, leads to exactly the bytes of that run in the file. *)
Theorem fragment_samples_located mux c :
  fragments_written mux ≠ 0 → flush_ok mux → moof_len mux + 8 + zlen (fragment_payload mux) < 2 ^ 32 →
  let p := zlen c in
  let moof := enc (moof_box (analysed mux) (moof_len mux) p) in
  let file := c ++ moof ++ enc (Box (str "mdat") (fragment_payload mux) []) in
  emits p (mp4_flush_fragment env mux) (drop (length c) file) (flushed p mux) ∧
  moof_box (analysed mux) (moof_len mux) p =
    Box (str "moof") []
      (mfhd_box (analysed mux) ::
       map (λ x, traf_box (analysed mux) x.1 p (moof_len mux) x.2) (trun_offsets (tracks (analysed mux)) 0)) ∧
  Forall (λ x,
      let data_offset := u64 (u32 (moof_len mux + 8) + x.2) in
      0 ≤ data_offset < 2 ^ 32 ∧
      sub (p + data_offset) (zlen (run_data x.1)) file = run_data x.1)
    (trun_offsets (tracks (analysed mux)) 0).
Proof.
  intros Hw Hf Hb. cbv zeta. pose proof (flush_analysed mux Hf) as (_ & Hmatched & _ & _ & _).
  pose proof (zlen_nonneg (enc (moof_box (analysed mux) 0 0))) as Hm0. fold (moof_len mux) in Hm0.
  pose proof (zlen_nonneg (fragment_payload mux)).
  split; [|split].
  - rewrite drop_app_length. apply flush_emits; [done|done|apply zlen_nonneg|lia].
  - unfold moof_box. by rewrite traf_boxes_map.
  - pose proof (trun_offsets_data (tracks (analysed mux)) 0 [] Hmatched eq_refl) as D.
    fold (fragment_payload mux) in D. specialize (D ltac:(lia)).
    eapply Forall_impl; [exact D|]. intros [t off]. cbn [fst snd]. intros (Ho & Hoff & Hsub).
    pose proof (zlen_nonneg (run_data t)). wrap_small. split; [lia|].
    rewrite enc_leaf, !app_assoc. rewrite app_nil_l in Hsub.
    set (pre := ((c ++ enc (moof_box (analysed mux) (moof_len mux) (zlen c))) ++
      be32 (8 + zlen (fragment_payload mux))) ++ str "mdat").
    replace (zlen c + (moof_len mux + 8 + off)) with (zlen pre + off).
    + unfold sub in *. rewrite Z2Nat.inj_add, (zlen_to_nat pre), <- drop_drop, drop_app_length by len_lia.
      exact Hsub.
    + unfold pre. rewrite !zlen_app, be32_len. change (zlen (str "mdat")) with 4.
      rewrite (moof_box_len _ (moof_len mux) (zlen c) 0 0). fold (moof_len mux). lia.
Qed.
End emission.

(** ** What a player gets from a run *)

(** The byte string cut into pieces of the given sizes. *)
Fixpoint cut (sizes : list Z) (bs : bytes) : list bytes :=
  match sizes with
  | [] => []
  | n :: ns => take (Z.to_nat n) bs :: cut ns (drop (Z.to_nat n) bs)
  end.

Lemma cut_data ps : cut (map pkt_size ps) (data_of ps) = map pkt_data ps.
Proof.
  induction ps as [|p ps IH]; [done|]. cbn [map cut]. rewrite data_of_cons.
  unfold pkt_size at 1 3. by rewrite zlen_to_nat, take_app_length, drop_app_length, IH.
Qed.

(** C25: A run is split into the packets it was made of: from the [trun] box the muxer
    writes, a player reads the data offset, one entry per packet with its composition
    offset in the time scale of the track, and sizes that cut the data of the run into
    exactly the queued packets, in order. *)
Theorem run_splits_into_packets {S : Type} `{AppendSerializer S} mux t moof_size off default_size :
  track_ok t → sample_size t = 0 → matched t → run_fits mux t →
  ∃ payload next, writes2 (S:=S) (mp4_write_trun mux t moof_size off) (Box (str "trun") payload []) next ∧
    let run := read_trun default_size payload in
    run.1 = u32 (moof_size + 8 + off) ∧
    cut (map fst run.2) (run_data t) = map pkt_data (take (length (fragment_samples t)) (packets t)) ∧
    map snd run.2 = map (sample_cts t) (fragment_samples t).
Proof.
  intros Hok Hz [Hlen Hm] Hfit. exists (box_payload (trun_box mux t moof_size off)), (trun_next t off).
  assert (trun_box mux t moof_size off = Box (str "trun") (box_payload (trun_box mux t moof_size off)) []) as E.
  { unfold trun_box at 1 2. cbn [box_payload]. unfold enc_all. cbn [map concat]. by rewrite app_nil_r. }
  split; [rewrite <- E; by apply trun_writes|]. cbv zeta. rewrite trun_reads_back by done. cbn [fst snd].
  split; [|split].
  - unfold u32, u64. rewrite mod_mod_pow by lia. by rewrite Zplus_mod_idemp_l.
  - rewrite map_map, (map_ext _ smp_size) by done. by rewrite Hm, cut_data.
  - by rewrite map_map.
Qed.

(** ** Examples *)

Definition ex_video_pkt (data : bytes) (pts dts : Z) : encoder_packet :=
  mk_packet data pts dts 1 30 OBS_ENCODER_VIDEO false 0 0 0 0 0 1.
Definition ex_audio_pkt (data : bytes) (dts : Z) : encoder_packet :=
  mk_packet data dts dts 1 48000 OBS_ENCODER_AUDIO false 0 0 0 0 0 2.

Definition ex_video_queue : mp4_track :=
  foldl track_insert_packet (new_track TRACK_VIDEO CODEC_AV1 1 None 1 30 30 0)
    [ex_video_pkt [1; 2; 3] 1 0; ex_video_pkt [4] 3 1; ex_video_pkt [5; 6] 2 2].
Definition ex_audio_queue : mp4_track :=
  foldl track_insert_packet (new_track TRACK_AUDIO CODEC_AAC 2 None 1 48000 48000 0)
    [ex_audio_pkt [10; 11] 0; ex_audio_pkt [12] 1024].
Definition ex_queues : mp4_mux :=
  mk_mux FLAVOR_MP4 (mk_flags false false false true) 1 1000000 0 28 2 [ex_video_queue; ex_audio_queue] None.

Lemma ex_queues_ok : flush_ok ex_queues.
Proof. split; [by left|repeat constructor..|done]. Qed.

Lemma fragment_samples_located_witness :
  let p := zlen [1; 2; 3; 4] in
  let moof := enc (moof_box (analysed ex_queues) (moof_len ex_queues) p) in
  let file := [1; 2; 3; 4] ++ moof ++ enc (Box (str "mdat") (fragment_payload ex_queues) []) in
  emits (S:=array_output_data) p (mp4_flush_fragment ex_env ex_queues) (drop 4 file) (flushed p ex_queues) ∧
  moof_box (analysed ex_queues) (moof_len ex_queues) p =
    Box (str "moof") []
      (mfhd_box (analysed ex_queues) ::
       map (λ x, traf_box (analysed ex_queues) x.1 p (moof_len ex_queues) x.2)
         (trun_offsets (tracks (analysed ex_queues)) 0)) ∧
  Forall (λ x,
      let data_offset := u64 (u32 (moof_len ex_queues + 8) + x.2) in
      0 ≤ data_offset < 2 ^ 32 ∧
      sub (p + data_offset) (zlen (run_data x.1)) file = run_data x.1)
    (trun_offsets (tracks (analysed ex_queues)) 0).
Proof. refine (fragment_samples_located ex_env ex_queues [1; 2; 3; 4] _ ex_queues_ok _); [done|by vm_compute]. Defined.

Definition ex_run : mp4_track := (process_packets ex_queues ex_video_queue 8).1.

Lemma run_splits_into_packets_witness :
  ∃ payload next,
    writes2 (S:=array_output_data) (mp4_write_trun ex_queues ex_run 300 0) (Box (str "trun") payload []) next ∧
    let run := read_trun 0 payload in
    run.1 = 308 ∧
    cut (map fst run.2) [1; 2; 3; 4] = [[1; 2; 3]; [4]] ∧
    map snd run.2 = [0; 1].
Proof.
  refine (run_splits_into_packets ex_queues ex_run 300 0 0 _ eq_refl _ _); [by split| |].
  - split; [by apply (bool_decide_unpack _)|done].
  - split; [done|all_bytes].
Defined.
