(* ===== verification/Mp4Track.v ===== *)
(** * The life of a track: plugins/obs-outputs/mp4-mux.c, lines 2492-2606 and 2722-2740

    [history] relates a track to the packets that were ever queued on it: what its
    sample tables, its durations, its chunks and its queue have to be. Queueing
    ([track_insert_packet]), analysing ([process_packets]) and writing
    ([write_packets]) are proved to keep the track in step with its history. *)

From S2P Require Import Prelude Util Serializer Encoder Mp4Types Mp4Box Mp4Header Mp4Entry Mp4Table Mp4Frag Mp4Mux.

Local Open Scope Z_scope.

(** ** What the packets of a track say about its samples *)

(** The distances between consecutive decode times. *)
Definition gaps (ps : list encoder_packet) : list Z :=
  zip_with (λ p q, pkt_dts q - pkt_dts p) ps (tail ps).

(** Composition offsets, less that of the first packet for negative offsets. *)
Definition cts_base (neg : bool) (ps : list encoder_packet) : Z :=
  if neg then match ps with p :: _ => pkt_pts p - pkt_dts p | [] => 0 end else 0.
Definition cts (base : Z) (p : encoder_packet) : Z := pkt_pts p - pkt_dts p - base.

(** The samples of the packets followed by another one. *)
Definition samples_of (base : Z) (ps : list encoder_packet) : list fragment_sample :=
  zip_with (λ p d, mk_frag_sample (pkt_size p) (cts base p) d) ps (gaps ps).

(** The numbers, from [i], of the keyframes. *)
Fixpoint keyframes (i : Z) (ps : list encoder_packet) : list Z :=
  match ps with
  | [] => []
  | p :: ps => if pkt_keyframe p then i :: keyframes (i + 1) ps else keyframes (i + 1) ps
  end.

Definition expand_deltas (ds : list sample_delta) : list Z :=
  concat (map (λ d, replicate (Z.to_nat (delta_count d)) (delta_delta d)) ds).
Definition expand_offsets (os : list sample_offset) : list Z :=
  concat (map (λ o, replicate (Z.to_nat (off_count o)) (off_offset o)) os).

Definition zsum (l : list Z) : Z := foldr Z.add 0 l.

(** A chunk and the packets it holds. *)
Definition chunk_of (x : Z * list encoder_packet) : chunk :=
  mk_chunk x.1 (zlen (data_of x.2)) (zlen x.2).

(** The timestamps and sizes fit the fields of the samples. *)
Record packets_ok (base : Z) (ps : list encoder_packet) : Prop := {
  pk_len : zlen ps < 2 ^ 32;
  pk_gaps : Forall (λ d, 0 ≤ d < 2 ^ 32) (gaps ps);
  pk_fit : Forall (λ p, pkt_size p < 2 ^ 32 ∧ - 2 ^ 31 ≤ pkt_pts p - pkt_dts p < 2 ^ 31 ∧
                        - 2 ^ 31 ≤ cts base p < 2 ^ 31) ps
}.

(** [n] of the packets [ps] are analysed, the chunks of [gs] are written. *)
Record history (neg : bool) (ps : list encoder_packet) (n : nat)
    (gs : list (Z * list encoder_packet)) (t : mp4_track) : Prop := {
  h_variable : sample_size t = 0;
  h_queue : packets t = drop (n - length (fragment_samples t)) ps;
  h_pending : (length (fragment_samples t) ≤ n)%nat;
  h_behind : (n ≤ length (gaps ps))%nat;
  h_samples : samples t = Z.of_nat n;
  h_duration : duration t = zsum (take n (gaps ps));
  h_sizes : sample_sizes t = map pkt_size (take n ps);
  h_deltas : expand_deltas (deltas t) = take n (gaps ps) ∧ Forall (λ d, 1 ≤ delta_count d) (deltas t);
  h_offsets : is_video t = true →
    expand_offsets (offsets t) = map (cts (cts_base neg ps)) (take n ps) ∧
    Forall (λ o, 1 ≤ off_count o) (offsets t) ∧
    (neg = true → n ≠ O → dts_offset t = cts_base neg ps);
  h_sync : sync_samples t = if is_video t then keyframes 1 (take n ps) else [];
  h_fragment : fragment_samples t =
    drop (n - length (fragment_samples t))
      (take n (samples_of (cts_base (neg && is_video t) ps) ps));
  h_chunks : chunks t = map chunk_of gs;
  h_written : concat (map snd gs) = take (n - length (fragment_samples t)) ps
}.

(** ** Lists *)

Lemma gaps_length ps : length (gaps ps) = (length ps - 1)%nat.
Proof. unfold gaps. rewrite length_zip_with. destruct ps; cbn [length tail]; lia. Qed.

Lemma gaps_snoc ps q p : last ps = Some q → gaps (ps ++ [p]) = gaps ps ++ [pkt_dts p - pkt_dts q].
Proof.
  unfold gaps. revert q; induction ps as [|x ps IH]; intros q Hl; [done|].
  destruct ps as [|y ps]; simpl in Hl; [by simplify_eq|].
  cbn [tail app zip_with] in *. by rewrite (IH q).
Qed.

(** Queueing a packet leaves the gaps before it. *)
Lemma gaps_app ps p : ∃ l, gaps (ps ++ [p]) = gaps ps ++ l.
Proof.
  destruct (last ps) as [q|] eqn:E; [rewrite (gaps_snoc _ q) by done; eauto|].
  apply last_None in E. subst. by exists [].
Qed.

Lemma take_gaps_app n ps p : (n ≤ length (gaps ps))%nat → take n (gaps (ps ++ [p])) = take n (gaps ps).
Proof. intros Hn. destruct (gaps_app ps p) as [l ->]. by apply take_app_le. Qed.

Lemma take_packets_app n ps (p : encoder_packet) : (n ≤ length (gaps ps))%nat → take n (ps ++ [p]) = take n ps.
Proof. intros Hn. rewrite gaps_length in Hn. apply take_app_le. lia. Qed.

Lemma samples_length base ps : length (samples_of base ps) = length (gaps ps).
Proof. unfold samples_of. rewrite length_zip_with, gaps_length. lia. Qed.

Lemma take_samples_app base n ps p : (n ≤ length (gaps ps))%nat →
  take n (samples_of base (ps ++ [p])) = take n (samples_of base ps).
Proof.
  intros Hn. unfold samples_of. rewrite !zip_with_take, take_gaps_app by done.
  by rewrite take_packets_app.
Qed.

Lemma cts_base_app neg ps p q : cts_base neg ((p :: ps) ++ [q]) = cts_base neg (p :: ps).
Proof. done. Qed.

Lemma gaps_cons p q ps : gaps (p :: q :: ps) = (pkt_dts q - pkt_dts p) :: gaps (q :: ps).
Proof. reflexivity. Qed.

Lemma drop_gaps n ps : drop n (gaps ps) = gaps (drop n ps).
Proof.
  revert ps; induction n as [|n IH]; intros ps; [done|].
  destruct ps as [|p [|q ps]]; [done|by destruct n|]. rewrite gaps_cons. apply IH.
Qed.

(** The [n]-th gap is that of the [n]-th packet. *)
Lemma drop_pair n ps p q l : drop n ps = p :: q :: l →
  ps !! n = Some p ∧ gaps ps !! n = Some (pkt_dts q - pkt_dts p) ∧ (n < length (gaps ps))%nat ∧
  drop (S n) ps = q :: l.
Proof.
  intros E. assert (ps !! n = Some p) as Hp by (rewrite <- (Nat.add_0_r n), <- lookup_drop, E; done).
  assert (gaps ps !! n = Some (pkt_dts q - pkt_dts p)) as Hg.
  { rewrite <- (Nat.add_0_r n), <- lookup_drop, drop_gaps, E. done. }
  split; [done|]. split; [done|]. split; [by apply lookup_lt_Some in Hg|].
  replace (S n) with (n + 1)%nat by lia. by rewrite <- drop_drop, E.
Qed.

Lemma zsum_app l k : zsum (l ++ k) = zsum l + zsum k.
Proof. induction l as [|x l IH]; simpl in *; lia. Qed.

Lemma zsum_bound l b : Forall (λ x, 0 ≤ x < b) l → 0 ≤ zsum l ≤ b * zlen l.
Proof.
  induction 1 as [|x l Hx _ IH]; [change (zlen []) with 0; cbn [zsum foldr]; lia|].
  change (zsum (x :: l)) with (x + zsum l). rewrite zlen_cons, Z.mul_add_distr_l. lia.
Qed.

Lemma keyframes_app i ps qs : keyframes i (ps ++ qs) = keyframes i ps ++ keyframes (i + zlen ps) qs.
Proof.
  revert i; induction ps as [|p ps IH]; intros i; simpl; [by rewrite Z.add_0_r|].
  rewrite IH, zlen_cons, Z.add_assoc. by destruct (pkt_keyframe p).
Qed.

Lemma last_split {A} (l : list A) x : last l = Some x → l = take (length l - 1) l ++ [x].
Proof.
  intros E. apply last_Some in E as [l' ->]. rewrite length_app. simpl.
  replace (length l' + 1 - 1)%nat with (length l') by lia. by rewrite take_app_length.
Qed.

(** ** Run-length tables *)

Lemma expand_deltas_app ds ds' : expand_deltas (ds ++ ds') = expand_deltas ds ++ expand_deltas ds'.
Proof. unfold expand_deltas. by rewrite map_app, concat_app. Qed.
Lemma expand_offsets_app os os' : expand_offsets (os ++ os') = expand_offsets os ++ expand_offsets os'.
Proof. unfold expand_offsets. by rewrite map_app, concat_app. Qed.

Lemma replicate_snoc {A} c (x : A) : 0 ≤ c → replicate (Z.to_nat (c + 1)) x = replicate (Z.to_nat c) x ++ [x].
Proof.
  intros. replace (Z.to_nat (c + 1)) with (Z.to_nat c + 1)%nat by lia. by rewrite replicate_add.
Qed.

(** Recording one more duration appends it to the expansion. *)
Lemma push_delta_expand ds d :
  Forall (λ x, 1 ≤ delta_count x) ds → zlen (expand_deltas ds) + 1 < 2 ^ 32 →
  expand_deltas (push_delta ds d 1) = expand_deltas ds ++ [d] ∧
  Forall (λ x, 1 ≤ delta_count x) (push_delta ds d 1).
Proof.
  intros HF Hb. unfold push_delta.
  assert (expand_deltas (ds ++ [mk_delta 1 d]) = expand_deltas ds ++ [d] ∧
    Forall (λ x, 1 ≤ delta_count x) (ds ++ [mk_delta 1 d])) as Hnew.
  { split; [by rewrite expand_deltas_app|]. apply Forall_app. split; [done|]. by constructor. }
  destruct (last ds) as [x|] eqn:E; [|done]. destruct (Z.eqb_spec (delta_delta x) d) as [<-|]; [|done].
  pose proof (last_split _ _ E) as Es. set (pre := take (length ds - 1) ds) in *. rewrite Es in HF, Hb |- *.
  apply Forall_app in HF as [HF Hx]. inversion_clear Hx as [|? ? Hx' _].
  rewrite !expand_deltas_app in *. rewrite zlen_app in Hb.
  assert (zlen (expand_deltas [x]) = delta_count x) as El.
  { unfold expand_deltas. cbn [map concat]. rewrite app_nil_r, zlen_replicate. lia. }
  pose proof (zlen_nonneg (expand_deltas pre)). rewrite u32_small by lia.
  split; [|apply Forall_app; split; [done|]; constructor; [simpl; lia|done]].
  rewrite <- app_assoc. f_equal. unfold expand_deltas. cbn [map concat delta_count delta_delta].
  by rewrite !app_nil_r, replicate_snoc by lia.
Qed.

Lemma push_offset_expand os o :
  Forall (λ x, 1 ≤ off_count x) os → zlen (expand_offsets os) + 1 < 2 ^ 32 →
  expand_offsets (push_offset os o) = expand_offsets os ++ [o] ∧
  Forall (λ x, 1 ≤ off_count x) (push_offset os o).
Proof.
  intros HF Hb. unfold push_offset.
  assert (expand_offsets (os ++ [mk_offset 1 o]) = expand_offsets os ++ [o] ∧
    Forall (λ x, 1 ≤ off_count x) (os ++ [mk_offset 1 o])) as Hnew.
  { split; [by rewrite expand_offsets_app|]. apply Forall_app. split; [done|]. by constructor. }
  destruct (last os) as [x|] eqn:E; [|done]. destruct (Z.eqb_spec (off_offset x) o) as [<-|]; [|done].
  pose proof (last_split _ _ E) as Es. set (pre := take (length os - 1) os) in *. rewrite Es in HF, Hb |- *.
  apply Forall_app in HF as [HF Hx]. inversion_clear Hx as [|? ? Hx' _].
  rewrite !expand_offsets_app in *. rewrite zlen_app in Hb.
  assert (zlen (expand_offsets [x]) = off_count x) as El.
  { unfold expand_offsets. cbn [map concat]. rewrite app_nil_r, zlen_replicate. lia. }
  pose proof (zlen_nonneg (expand_offsets pre)). rewrite u32_small by lia.
  split; [|apply Forall_app; split; [done|]; constructor; [simpl; lia|done]].
  rewrite <- app_assoc. f_equal. unfold expand_offsets. cbn [map concat off_count off_offset].
  by rewrite !app_nil_r, replicate_snoc by lia.
Qed.

(** ** One packet *)

Lemma trk_static_video t t' : trk_static t = trk_static t' → is_video t = is_video t'.
Proof. unfold trk_static, is_video. intros E. assert (trk_type t = trk_type t') as -> by congruence. done. Qed.

Section analyse.
Context (neg : bool) (ps : list encoder_packet) (gs : list (Z * list encoder_packet)) (mux : mp4_mux).
Hypothesis (Hneg : MP4_USE_NEGATIVE_CTS (flags mux) = neg).

(** The sample recorded for the [n]-th packet. *)
Lemma sample_of_history n t p q l :
  packets_ok (cts_base (neg && is_video t) ps) ps → history neg ps n gs t → drop n ps = p :: q :: l →
  let b := cts_base (neg && is_video t) ps in
  (sample_of mux t p q).1 = mk_frag_sample (pkt_size p) (cts b p) (pkt_dts q - pkt_dts p) ∧
  samples_of b ps !! n = Some (sample_of mux t p q).1 ∧
  (is_video t = true → neg = true → (sample_of mux t p q).2 = cts_base neg ps).
Proof.
  intros [Hlen Hg Hfit] Hh E. cbv zeta. set (b := cts_base (neg && is_video t) ps) in *.
  destruct (drop_pair _ _ _ _ _ E) as (Hp & Hgap & Hn & _).
  pose proof (proj1 (Forall_lookup _ _) Hg _ _ Hgap) as Hd. cbv beta in Hd.
  pose proof (proj1 (Forall_lookup _ _) Hfit _ _ Hp) as (Hs & Hc & Hc'). cbv beta in *.
  assert (0 ≤ pkt_size p) by apply zlen_nonneg.
  assert ((sample_of mux t p q).1 = mk_frag_sample (pkt_size p) (cts b p) (pkt_dts q - pkt_dts p) ∧
    (is_video t = true → neg = true → (sample_of mux t p q).2 = cts_base neg ps)) as [E1 E2].
  { unfold sample_of. rewrite Hneg.
    rewrite (u32_small (pkt_size p)), (u32_small (pkt_dts q - pkt_dts p)), (i32_small (pkt_pts p - pkt_dts p)) by lia.
    unfold b, cts in *. destruct (is_video t) eqn:Ev, neg; cbn [andb] in *;
      try (change (cts_base false ps) with 0; by rewrite Z.sub_0_r).
    destruct (h_offsets _ _ _ _ _ Hh Ev) as (Ho & HF & Hbase).
    destruct (decide (n = O)) as [->|Nz].
    - cbn [take map] in Ho. assert (offsets t = []) as ->.
      { destruct HF as [|o os Hc0 HF]; [done|]. exfalso. unfold expand_offsets in Ho. cbn [map concat] in Ho.
        apply app_nil in Ho as [Ho _]. destruct (Z.to_nat (off_count o)) eqn:?; [lia|done]. }
      rewrite drop_0 in E. rewrite E in *. cbn [cts_base fst snd] in *.
      by rewrite Z.sub_diag, i32_small by lia.
    - specialize (Hbase eq_refl Nz). destruct (offsets t) as [|o os].
      + exfalso. rewrite gaps_length in Hn. destruct ps as [|x ps'], n; [done..|].
        unfold expand_offsets in Ho. simpl in Ho. done.
      + rewrite Hbase. cbn [fst snd]. rewrite i32_small by lia. done. }
  split; [done|]. split; [|done]. rewrite E1. unfold samples_of.
  rewrite lookup_zip_with, Hp. cbn [mbind option_bind]. by rewrite Hgap.
Qed.

Lemma take_S_snoc {A} (l : list A) n x : l !! n = Some x → take (S n) l = take n l ++ [x].
Proof. apply take_S_r. Qed.

Lemma process_packet_history n t m p q l :
  packets_ok (cts_base (neg && is_video t) ps) ps → history neg ps n gs t → drop n ps = p :: q :: l →
  history neg ps (S n) gs (process_packet mux t m p q).1.
Proof.
  intros Hok Hh E. destruct (drop_pair _ _ _ _ _ E) as (Hp & Hgap & Hn & _).
  destruct (sample_of_history _ _ _ _ _ Hok Hh E) as (E1 & E2 & E3).
  destruct Hok as [Hlen Hg Hfit]. pose proof (proj1 (Forall_lookup _ _) Hg _ _ Hgap) as Hd.
  cbv beta in Hd. pose proof Hn as Hn'. rewrite gaps_length in Hn'.
  destruct Hh as [Hv Hq Hpend Hb Hs Hdur Hsz [Hde Hdc] Ho Hsy Hfr Hch Hwr].
  unfold process_packet. destruct (sample_of mux t p q) as [smp off]. cbn [fst snd] in *.
  rewrite Hv. cbn [Z.eqb negb]. unfold zlen in Hlen.
  assert (length (fragment_samples t ++ [smp]) = S (length (fragment_samples t))) as El
    by (rewrite length_app; simpl; lia).
  assert (smp_duration smp = pkt_dts q - pkt_dts p) as Ed by (by rewrite E1).
  assert (smp_offset smp = cts (cts_base (neg && is_video t) ps) p) as Eo by (by rewrite E1).
  assert (smp_size smp = pkt_size p) as Es by (by rewrite E1).
  assert (u64 (samples t + 1) = Z.of_nat (S n)) as Esm by (rewrite Hs, u64_small; lia).
  assert (zsum (take (S n) (gaps ps)) = duration t + smp_duration smp) as Ez.
  { rewrite (take_S_snoc _ _ _ Hgap), zsum_app, Hdur, Ed. simpl. lia. }
  assert (u64 (duration t + smp_duration smp) = zsum (take (S n) (gaps ps))) as Eu.
  { rewrite <- Ez. apply u64_small.
    assert (Forall (λ x, 0 ≤ x < 2 ^ 32) (take (S n) (gaps ps))) as HFt by (by apply Forall_take).
    pose proof (zsum_bound _ _ HFt) as Hz. unfold zlen in Hz. rewrite length_take in Hz.
    nia. }
  split; cbn [fst sample_size packets fragment_samples samples duration sample_sizes deltas offsets
    sync_samples chunks dts_offset]; rewrite ?El; rewrite ?Nat.sub_succ.
  - done.
  - done.
  - lia.
  - lia.
  - done.
  - done.
  - by rewrite Hsz, Es, (take_S_snoc _ _ _ Hp), map_app.
  - destruct (push_delta_expand (deltas t) (smp_duration smp) Hdc) as [-> ?].
    + rewrite Hde. unfold zlen. rewrite length_take. lia.
    + split; [|done]. by rewrite Hde, (take_S_snoc _ _ _ Hgap), Ed.
  - intros Ev. change (is_video _) with (is_video t) in Ev. rewrite Ev in *.
    destruct (Ho eq_refl) as (Ho1 & Ho2 & Ho3). rewrite andb_true_r in *.
    destruct (push_offset_expand (offsets t) (smp_offset smp) Ho2) as [-> ?].
    { rewrite Ho1. unfold zlen. rewrite length_map, length_take. lia. }
    split; [by rewrite Ho1, (take_S_snoc _ _ _ Hp), map_app, Eo|]. split; [done|].
    intros. by apply E3.
  - change (is_video (mk_track _ _ _ _ _ _ _ _ _ _ _ _ _ _ _ _ _ _ _ _ _)) with (is_video t).
    rewrite Hsy, (take_S_snoc _ _ _ Hp), Esm, u32_small by lia.
    destruct (is_video t); [|done]. rewrite keyframes_app. unfold zlen. rewrite length_take.
    replace (1 + Z.of_nat (n `min` length ps)) with (Z.of_nat (S n)) by lia. cbn [keyframes andb].
    destruct (pkt_keyframe p); [done|by rewrite app_nil_r].
  - change (is_video (mk_track _ _ _ _ _ _ _ _ _ _ _ _ _ _ _ _ _ _ _ _ _)) with (is_video t).
    rewrite (take_S_snoc _ _ _ E2), drop_app_le; [by rewrite <- Hfr|].
    rewrite length_take, samples_length. lia.
  - done.
  - done.
Qed.

(** All the packets that are due are analysed: the number only grows, up to the last
    packet but one when everything is due. *)
Lemma process_loop_history n t m :
  packets_ok (cts_base (neg && is_video t) ps) ps → history neg ps n gs t →
  ∃ n', (n ≤ n')%nat ∧ history neg ps n' gs (process_loop mux t m (drop n ps)).1 ∧
    trk_static (process_loop mux t m (drop n ps)).1 = trk_static t ∧
    (next_frag_pts mux = 0 → n' = length (gaps ps)).
Proof.
  remember (drop n ps) as qs eqn:E. revert n t m E.
  induction qs as [|p qs IH]; intros n t m E Hok Hh.
  { exists n. do 3 (split; [done|]). intros _. pose proof (h_behind _ _ _ _ _ Hh) as Hb.
    apply (f_equal length) in E. rewrite length_drop in E. rewrite gaps_length in *. simpl in E. lia. }
  destruct qs as [|q qs].
  { exists n. do 3 (split; [done|]). intros _. apply (f_equal length) in E.
    rewrite length_drop in E. rewrite gaps_length in *. simpl in E. lia. }
  rewrite process_loop_cons.
  destruct (negb (next_frag_pts mux =? 0) && _) eqn:Estop.
  { exists n. do 3 (split; [done|]). intros Hz. by rewrite Hz in Estop. }
  symmetry in E. pose proof (process_packet_history n t m p q qs Hok Hh E) as Hh'.
  destruct (process_packet_static mux t m p q) as (Hst & _ & _).
  destruct (process_packet mux t m p q) as [t1 m1]. cbn [fst] in *.
  assert (is_video t1 = is_video t) as Ev by (by apply trk_static_video).
  destruct (IH (S n) t1 m1) as (n' & Hn & Hh2 & Hst2 & Hall).
  - symmetry. by apply drop_pair in E as (_ & _ & _ & ->).
  - by rewrite Ev.
  - done.
  - exists n'. split; [lia|]. split; [done|]. by rewrite Hst2.
Qed.
End analyse.

(** ** Steps *)

Lemma insert_history neg ps n gs t p :
  history neg ps n gs t → history neg (ps ++ [p]) n gs (track_insert_packet t p).
Proof.
  intros [Hv Hq Hpend Hb Hs Hdur Hsz [Hde Hdc] Ho Hsy Hfr Hch Hwr].
  assert (n = O ∨ ∀ b, cts_base b (ps ++ [p]) = cts_base b ps) as Hbase.
  { destruct ps; [left; simpl in Hb; lia|by right]. }
  assert (n - length (fragment_samples t) ≤ length (gaps ps))%nat as Hk by lia.
  pose proof Hb as Hb'. rewrite gaps_length in Hb'.
  split; cbn [track_insert_packet trk_set_packets sample_size packets fragment_samples samples duration
    sample_sizes deltas offsets sync_samples chunks dts_offset];
    rewrite ?take_gaps_app, ?take_packets_app by done; try done.
  - rewrite Hq, drop_app_le; [done|]. lia.
  - destruct (gaps_app ps p) as [l ->]. rewrite length_app. lia.
  - intros Ev. destruct (Ho Ev) as (Ho1 & Ho2 & Ho3). destruct Hbase as [->|Hbase].
    + split; [by rewrite Ho1|]. by split.
    + rewrite Hbase. done.
  - change (is_video (mk_track _ _ _ _ _ _ _ _ _ _ _ _ _ _ _ _ _ _ _ _ _)) with (is_video t).
    rewrite take_samples_app by done. destruct Hbase as [->|Hbase]; [by rewrite Hfr|]. by rewrite Hbase.
Qed.

Lemma process_history neg ps n gs t mux m :
  MP4_USE_NEGATIVE_CTS (flags mux) = neg → packets_ok (cts_base (neg && is_video t) ps) ps →
  history neg ps n gs t → fragment_samples t = [] →
  ∃ n', (n ≤ n')%nat ∧ history neg ps n' gs (process_packets mux t m).1 ∧
    trk_static (process_packets mux t m).1 = trk_static t ∧
    (next_frag_pts mux = 0 → n' = length (gaps ps)).
Proof.
  intros Hneg Hok Hh Hf. unfold process_packets. rewrite (h_queue _ _ _ _ _ Hh), Hf.
  cbn [length]. rewrite Nat.sub_0_r. by apply process_loop_history.
Qed.

(** The packets of the pending samples. *)
Definition pending (t : mp4_track) : list encoder_packet :=
  take (length (fragment_samples t)) (packets t).

Definition add_group (p : Z) (t : mp4_track) (gs : list (Z * list encoder_packet)) :
    list (Z * list encoder_packet) :=
  if has_samples t then gs ++ [(p, pending t)] else gs.

Lemma written_history neg ps n gs t p :
  history neg ps n gs t → 0 ≤ p < 2 ^ 64 → zlen (run_data t) < 2 ^ 32 → Z.of_nat n < 2 ^ 32 →
  history neg ps n (add_group p t gs) (written p t).
Proof.
  intros Hh Hp Hr Hn. unfold written, add_group. destruct (has_samples t) eqn:E; [|done].
  destruct Hh as [Hv Hq Hpend Hb Hs Hdur Hsz [Hde Hdc] Ho Hsy Hfr Hch Hwr].
  pose proof Hb as Hb'. rewrite gaps_length in Hb'.
  set (k := length (fragment_samples t)) in *.
  assert (length (pending t) = k) as Hl.
  { unfold pending. fold k. rewrite Hq, length_take, length_drop. lia. }
  split; cbn [trk_set_written sample_size packets fragment_samples samples duration
    sample_sizes deltas offsets sync_samples chunks dts_offset length]; rewrite ?Nat.sub_0_r; try done.
  - rewrite Hq, drop_drop. f_equal. lia.
  - lia.
  - rewrite drop_ge; [done|]. rewrite length_take. lia.
  - rewrite map_app, Hch. f_equal. unfold written_chunk, chunk_of. cbn [map fst snd].
    rewrite Hv. cbn [Z.eqb negb]. unfold run_data in *. fold (pending t) in *. fold k in Hr |- *.
    pose proof (zlen_nonneg (data_of (pending t))). unfold zlen at 2 4. rewrite Hl. fold k.
    rewrite (u64_small p), !u32_small by lia. done.
  - rewrite map_app, concat_app. cbn [map snd concat]. rewrite Hwr, app_nil_r. unfold pending. fold k.
    rewrite Hq. rewrite <- (take_drop (n - k) (take n ps)), take_take, skipn_firstn_comm.
    f_equal; f_equal; lia.
Qed.

Lemma new_history neg type codec id enc num den scale :
  history neg [] 0 [] (new_track type codec id enc num den scale 0).
Proof. split; try done. by destruct type. Qed.

(** ** The life of a track *)

(** [life neg t0 ps t]: a track that started as [t0] is now [t], after the packets [ps]
    were queued on it, in this order. *)
Inductive life (neg : bool) (t0 : mp4_track) : list encoder_packet → mp4_track → Prop :=
| life_new : life neg t0 [] t0
| life_insert ps t p : life neg t0 ps t → life neg t0 (ps ++ [p]) (track_insert_packet t p)
| life_process ps t mux m :
    life neg t0 ps t → MP4_USE_NEGATIVE_CTS (flags mux) = neg → fragment_samples t = [] →
    life neg t0 ps (process_packets mux t m).1
| life_write ps t p :
    life neg t0 ps t → 0 ≤ p < 2 ^ 64 → zlen (run_data t) < 2 ^ 32 → life neg t0 ps (written p t).

Lemma packets_ok_app neg v ps p :
  packets_ok (cts_base (neg && v) (ps ++ [p])) (ps ++ [p]) → packets_ok (cts_base (neg && v) ps) ps.
Proof.
  intros [Hl Hg Hf]. destruct ps as [|q ps]; [done|]. rewrite cts_base_app in *.
  destruct (gaps_app (q :: ps) p) as [l E]. rewrite E in Hg.
  apply Forall_app in Hg as [Hg _]. apply Forall_app in Hf as [Hf _].
  split; [len_lia|done..].
Qed.

Lemma track_insert_video t p : is_video (track_insert_packet t p) = is_video t.
Proof. done. Qed.
Lemma written_video p t : is_video (written p t) = is_video t.
Proof. unfold written. by destruct (has_samples t). Qed.

Lemma life_history neg t0 ps t :
  history neg [] 0 [] t0 → life neg t0 ps t → packets_ok (cts_base (neg && is_video t0) ps) ps →
  is_video t = is_video t0 ∧ ∃ n gs, history neg ps n gs t.
Proof.
  intros H0. induction 1 as [|ps t p _ IH|ps t mux m _ IH Hneg Hf|ps t p _ IH Hp Hr]; intros Hok.
  - eauto.
  - destruct IH as (Ev & n & gs & Hh); [by eapply packets_ok_app|].
    split; [done|]. exists n, gs. by apply insert_history.
  - destruct (IH Hok) as (Ev & n & gs & Hh). rewrite <- Ev in Hok.
    destruct (process_history neg ps n gs t mux m Hneg Hok Hh Hf) as (n' & _ & Hh' & Hst & _).
    split; [by rewrite (trk_static_video _ _ Hst)|eauto].
  - destruct (IH Hok) as (Ev & n & gs & Hh).
    split; [by rewrite written_video|]. exists n, (add_group p t gs). apply written_history; [done..|].
    pose proof (h_behind _ _ _ _ _ Hh) as Hb. rewrite gaps_length in Hb.
    destruct Hok as [Hl _ _]. unfold zlen in Hl. lia.
Qed.

(** Decode times telescope. *)
Lemma gaps_telescope ps p0 k q : head ps = Some p0 → ps !! k = Some q →
  zsum (take k (gaps ps)) = pkt_dts q - pkt_dts p0.
Proof.
  revert ps p0; induction k as [|k IH]; intros [|p ps] p0 Hh Hk; simplify_eq/=; [lia|].
  destruct ps as [|p1 ps]; [done|]. rewrite gaps_cons. cbn [take].
  change (zsum (?x :: ?l)) with (x + zsum l). rewrite (IH (p1 :: ps) p1) by done. lia.
Qed.

Lemma tfdt_written_sum t :
  Forall (λ s, 0 ≤ smp_duration s) (fragment_samples t) →
  zsum (map smp_duration (fragment_samples t)) ≤ duration t < 2 ^ 64 →
  tfdt_written t = duration t - zsum (map smp_duration (fragment_samples t)).
Proof.
  unfold tfdt_written. intros HF. generalize (duration t).
  induction HF as [|s ss Hs HF IH]; intros z Hz; cbn [foldl map] in *.
  - simpl. lia.
  - change (zsum (?x :: ?l)) with (x + zsum l) in *.
    assert (0 ≤ zsum (map smp_duration ss)) by (clear -HF; induction HF; simpl in *; lia).
    rewrite u64_small by lia. rewrite IH by lia. lia.
Qed.

Lemma samples_of_durations base ps : map smp_duration (samples_of base ps) = gaps ps.
Proof.
  unfold samples_of, gaps. induction ps as [|p ps IH]; [done|]. destruct ps as [|q ps]; [done|].
  cbn [tail zip_with map] in *. f_equal. exact IH.
Qed.

(** C21: The sample tables of a track follow the packets queued on it, whatever the order
    of queueing, analysing and writing: for some number [n] of analysed packets, all
    but the last at most, the sizes are those of the first [n] packets, the expanded
    deltas are the distances of their decode times and add up to the duration, the
    expanded composition offsets are pts - dts (relative to the first packet for
    negative offsets), the sync samples are the numbers of the keyframes, and the
    chunks together with the pending samples hold exactly these packets in order. *)
Theorem tables_follow_packets neg type codec id enc num den scale ps t :
  life neg (new_track type codec id enc num den scale 0) ps t →
  packets_ok (cts_base (neg && bool_decide (type = TRACK_VIDEO)) ps) ps →
  ∃ (n : nat) (groups : list (Z * list encoder_packet)),
    (n = O ∨ n < length ps)%nat ∧ samples t = Z.of_nat n ∧
    sample_sizes t = map pkt_size (take n ps) ∧
    expand_deltas (deltas t) = take n (gaps ps) ∧
    duration t = zsum (expand_deltas (deltas t)) ∧
    (type = TRACK_VIDEO →
      expand_offsets (offsets t) = map (cts (cts_base neg ps)) (take n ps) ∧
      sync_samples t = keyframes 1 (take n ps)) ∧
    chunks t = map chunk_of groups ∧
    concat (map snd groups) ++ pending t = take n ps.
Proof.
  set (t0 := new_track type codec id enc num den scale 0). intros Hl Hok.
  assert (is_video t0 = bool_decide (type = TRACK_VIDEO)) as Et by (by destruct type). rewrite <- Et in Hok.
  destruct (life_history neg t0 ps t (new_history _ _ _ _ _ _ _ _) Hl Hok) as (Ev & n & gs & Hh).
  destruct Hh as [Hv Hq Hpend Hb Hs Hdur Hsz [Hde Hdc] Ho Hsy Hfr Hch Hwr].
  rewrite gaps_length in Hb. exists n, gs. split; [lia|].
  do 3 (split; [done|]). split; [by rewrite Hde|]. split; [|split; [done|]].
  - intros ->. rewrite Ev, Et in *. destruct (Ho eq_refl) as (? & _). done.
  - rewrite Hwr. unfold pending. rewrite Hq.
    rewrite <- (take_drop (n - length (fragment_samples t)) (take n ps)), take_take, skipn_firstn_comm.
    f_equal; f_equal; lia.
Qed.

(** C28: The decode time of every fragment is that of its packets: counted from the
    first packet ever queued, the base decode time written into [tfdt] plus the
    durations of the preceding samples of the run is the decode timestamp of each
    packet of the run, and of the first packet of the next one. *)
Theorem fragment_decode_times neg type codec id enc num den scale ps t first :
  life neg (new_track type codec id enc num den scale 0) ps t →
  packets_ok (cts_base (neg && bool_decide (type = TRACK_VIDEO)) ps) ps →
  head ps = Some first →
  ∀ i q, packets t !! i = Some q → (i ≤ length (fragment_samples t))%nat →
    tfdt_written t + zsum (take i (map smp_duration (fragment_samples t))) = pkt_dts q - pkt_dts first.
Proof.
  set (t0 := new_track type codec id enc num den scale 0). intros Hl Hok Hfirst i q Hi Hle.
  assert (is_video t0 = bool_decide (type = TRACK_VIDEO)) as Et by (by destruct type). rewrite <- Et in Hok.
  destruct (life_history neg t0 ps t (new_history _ _ _ _ _ _ _ _) Hl Hok) as (Ev & n & gs & Hh).
  destruct Hok as [Hlen Hg _]. destruct Hh as [_ Hq Hpend Hb _ Hdur _ _ _ _ Hfr _ _].
  rewrite gaps_length in Hb. set (k := (n - length (fragment_samples t))%nat) in *.
  assert (map smp_duration (fragment_samples t) = drop k (take n (gaps ps))) as Ed.
  { rewrite Hfr. change (map smp_duration ?l) with (smp_duration <$> l). rewrite fmap_drop, fmap_take.
    change (smp_duration <$> ?l) with (map smp_duration l). by rewrite samples_of_durations. }
  assert (Forall (λ d, 0 ≤ d < 2 ^ 32) (map smp_duration (fragment_samples t))) as HF.
  { rewrite Ed. by apply Forall_drop, Forall_take. }
  assert (zsum (take n (gaps ps)) = zsum (take k (gaps ps)) + zsum (map smp_duration (fragment_samples t))) as Es.
  { rewrite Ed, <- zsum_app. f_equal. rewrite <- (take_drop k (take n (gaps ps))) at 1. rewrite take_take.
    do 2 f_equal. lia. }
  assert (Forall (λ d, 0 ≤ d < 2 ^ 32) (take k (gaps ps))) as HFk by (by apply Forall_take).
  assert (Forall (λ d, 0 ≤ d < 2 ^ 32) (take n (gaps ps))) as HFn by (by apply Forall_take).
  pose proof (zsum_bound _ _ HF). pose proof (zsum_bound _ _ HFk). pose proof (zsum_bound _ _ HFn) as Hz.
  unfold zlen in Hz, Hlen. rewrite length_take, gaps_length in Hz.
  rewrite tfdt_written_sum; [|by eapply Forall_impl; [apply Forall_map; exact HF|]; simpl; lia|nia].
  rewrite Hdur, Es, Ed. replace (zsum (take k (gaps ps)) + _ - _) with (zsum (take k (gaps ps))) by lia.
  rewrite <- zsum_app. rewrite Hq, lookup_drop in Hi.
  rewrite <- (gaps_telescope ps first (k + i) q) by done.
  f_equal. rewrite skipn_firstn_comm, take_take, take_take_drop. do 2 f_equal. lia.
Qed.

(** ** Examples *)

Definition ex_pkt (data : bytes) (pts dts : Z) (key : bool) : encoder_packet :=
  mk_packet data pts dts 1 30 OBS_ENCODER_VIDEO key 0 0 0 0 0 1.

(** Four frames, the third a keyframe. *)
Definition ex_packets : list encoder_packet :=
  [ex_pkt [1; 2; 3] 1 0 true; ex_pkt [4] 3 1 false; ex_pkt [5; 6] 2 2 true; ex_pkt [7] 4 3 false].

Definition ex_flags : mp4_mux_flags := mk_flags false false false true.
Definition ex_mux (ts : list mp4_track) : mp4_mux := mk_mux FLAVOR_MP4 ex_flags 1 0 0 28 1 ts None.
Definition ex_new : mp4_track := new_track TRACK_VIDEO CODEC_AV1 1 None 1 30 30 0.
Definition ex_queued : mp4_track := foldl track_insert_packet ex_new ex_packets.
Definition ex_track : mp4_track := (process_packets (ex_mux []) ex_queued 8).1.

Lemma ex_life : life true ex_new ex_packets ex_track.
Proof.
  apply life_process; [|done..]. change ex_packets with
    (((([] ++ [ex_pkt [1; 2; 3] 1 0 true]) ++ [ex_pkt [4] 3 1 false]) ++ [ex_pkt [5; 6] 2 2 true]) ++ [ex_pkt [7] 4 3 false]).
  unfold ex_queued. cbn [ex_packets foldl]. do 4 apply life_insert. apply life_new.
Qed.

Lemma ex_packets_ok : packets_ok (cts_base (true && bool_decide (TRACK_VIDEO = TRACK_VIDEO)) ex_packets) ex_packets.
Proof. split; [done|all_bytes..]. Qed.

Lemma tables_follow_packets_witness :
  ∃ (n : nat) (groups : list (Z * list encoder_packet)),
    (n = O ∨ n < length ex_packets)%nat ∧ samples ex_track = Z.of_nat n ∧
    sample_sizes ex_track = map pkt_size (take n ex_packets) ∧
    expand_deltas (deltas ex_track) = take n (gaps ex_packets) ∧
    duration ex_track = zsum (expand_deltas (deltas ex_track)) ∧
    (TRACK_VIDEO = TRACK_VIDEO →
      expand_offsets (offsets ex_track) = map (cts (cts_base true ex_packets)) (take n ex_packets) ∧
      sync_samples ex_track = keyframes 1 (take n ex_packets)) ∧
    chunks ex_track = map chunk_of groups ∧
    concat (map snd groups) ++ pending ex_track = take n ex_packets.
Proof. exact (tables_follow_packets _ _ _ _ _ _ _ _ _ _ ex_life ex_packets_ok). Defined.

Lemma fragment_decode_times_witness :
  tfdt_written ex_track + zsum (take 2 (map smp_duration (fragment_samples ex_track))) = 2.
Proof.
  exact (fragment_decode_times _ _ _ _ _ _ _ _ _ _ (ex_pkt [1; 2; 3] 1 0 true) ex_life ex_packets_ok eq_refl
    2%nat (ex_pkt [5; 6] 2 2 true) eq_refl ltac:(vm_compute; repeat constructor)).
Defined.
