(* ===== verification/Mp4Api.v ===== *)
(** * The interface of the muxer: plugins/obs-outputs/mp4-mux.c, lines 2742-2950

    What [mp4_mux_create], [mp4_mux_submit_packet] and [mp4_mux_add_chapter] promise
    their caller (mp4-output.c). *)

From S2P Require Import Prelude Util Serializer FileSerializer Encoder Nal NalPacket Mp4Types Mp4Box Mp4Header Mp4Entry Mp4Table Mp4Moov Mp4Frag Mp4Mux.

Local Open Scope Z_scope.
Local Open Scope serializer_scope.

(** ** Creation *)

(** The encoders of the output, video first. *)
Definition used_encoders (encs : list (option obs_encoder)) : list obs_encoder := omap id encs.

(** The state of a track before any packet. *)
Definition fresh (t : mp4_track) : Prop :=
  packets t = [] ∧ samples t = 0 ∧ duration t = 0 ∧ sample_sizes t = [] ∧ chunks t = [] ∧ deltas t = [] ∧
  offsets t = [] ∧ sync_samples t = [] ∧ fragment_samples t = [].

Definition media_of (e : obs_encoder) : mp4_track_type :=
  match enc_type e with OBS_ENCODER_VIDEO => TRACK_VIDEO | OBS_ENCODER_AUDIO => TRACK_AUDIO end.

Lemma add_track_spec mux e :
  (enc_type e = OBS_ENCODER_VIDEO → is_Some (obs_encoder_video (Some e))) → 0 ≤ track_ctr mux < 255 →
  ∃ t, add_track mux e = Some (mk_mux (flavor mux) (flags mux) (fragments_written mux) (next_frag_pts mux)
      (creation_time mux) (placeholder_offset mux) (track_ctr mux + 1) (tracks mux ++ [t]) (chapter_track mux)) ∧
    fresh t ∧ track_id t = track_ctr mux + 1 ∧ trk_encoder t = Some e ∧ trk_type t = media_of e.
Proof.
  intros Hv Hc. unfold add_track, media_of. cbn [obs_encoder_get_type]. rewrite u8_small by lia.
  destruct (enc_type e).
  - eexists. split; [reflexivity|]. by repeat split.
  - destruct (Hv eq_refl) as [info ->]. eexists. split; [reflexivity|]. by repeat split.
Qed.

Lemma add_tracks_spec mux encs :
  Forall (λ e, enc_type e = OBS_ENCODER_VIDEO → is_Some (obs_encoder_video (Some e))) (used_encoders encs) →
  0 ≤ track_ctr mux → track_ctr mux + zlen (used_encoders encs) ≤ 255 →
  ∃ ts, add_tracks mux encs = Some (mk_mux (flavor mux) (flags mux) (fragments_written mux) (next_frag_pts mux)
      (creation_time mux) (placeholder_offset mux) (track_ctr mux + zlen (used_encoders encs))
      (tracks mux ++ ts) (chapter_track mux)) ∧
    Forall fresh ts ∧ map track_id ts = seqZ (track_ctr mux + 1) (zlen (used_encoders encs)) ∧
    map trk_encoder ts = map Some (used_encoders encs) ∧ map trk_type ts = map media_of (used_encoders encs).
Proof.
  revert mux; induction encs as [|[e|] encs IH]; intros mux HF Hc Hb.
  - exists []. split; [|by repeat split]. cbn [add_tracks]. change (zlen (used_encoders [])) with 0.
    rewrite Z.add_0_r, app_nil_r. by destruct mux.
  - change (used_encoders (Some e :: encs)) with (e :: used_encoders encs) in *.
    apply Forall_cons in HF as [He HF]. rewrite zlen_cons in *.
    pose proof (zlen_nonneg (used_encoders encs)).
    destruct (add_track_spec mux e He) as (t & Et & Hf & Hid & Henc & Hty); [lia|].
    cbn [add_tracks]. rewrite Et. cbn [mbind option_bind].
    match type of Et with _ = Some ?m => destruct (IH m HF) as (ts & E & H1 & H2 & H3 & H4) end;
      cbn [track_ctr] in *; [lia|lia|].
    exists (t :: ts). rewrite E. cbn [flavor flags fragments_written next_frag_pts creation_time
      placeholder_offset tracks chapter_track]. split; [|split; [by constructor|]].
    + rewrite <- app_assoc. do 2 f_equal. lia.
    + cbn [map]. rewrite Hid, H2, Henc, H3, Hty, H4. split; [|done].
      rewrite (seqZ_cons (track_ctr mux + 1)) by lia. f_equal. f_equal; lia.
  - by apply IH.
Qed.

(** Creating the muxer makes one track per encoder of the output, video encoders
    first, in the order of the output's slots, numbered from 1 without gaps, each
    empty; nothing is written and no fragment is scheduled. *)
Theorem mux_create_tracks video audio now fl fv :
  let encs := used_encoders (video ++ audio) in
  zlen encs ≤ 255 →
  Forall (λ e, enc_type e = OBS_ENCODER_VIDEO → is_Some (obs_encoder_video (Some e))) encs →
  ∃ mux, mp4_mux_create video audio now fl fv = Some mux ∧
    map trk_encoder (tracks mux) = map Some encs ∧ map trk_type (tracks mux) = map media_of encs ∧
    map track_id (tracks mux) = seqZ 1 (zlen encs) ∧ track_ctr mux = zlen encs ∧
    Forall fresh (tracks mux) ∧
    fragments_written mux = 0 ∧ next_frag_pts mux = 0 ∧ chapter_track mux = None ∧
    flags mux = fl ∧ flavor mux = fv.
Proof.
  cbv zeta. unfold used_encoders. rewrite omap_app, zlen_app, Forall_app. intros Hn [Hv Ha].
  fold (used_encoders video) (used_encoders audio) in *.
  pose proof (zlen_nonneg (used_encoders video)). pose proof (zlen_nonneg (used_encoders audio)).
  unfold mp4_mux_create.
  match goal with |- context [add_tracks ?m video] =>
    destruct (add_tracks_spec m video Hv) as (tv & -> & V1 & V2 & V3 & V4); cbn [track_ctr]; [lia|lia|] end.
  cbn [mbind option_bind].
  match goal with |- context [add_tracks ?m audio] =>
    destruct (add_tracks_spec m audio Ha) as (ta & -> & A1 & A2 & A3 & A4); cbn [track_ctr]; [lia|lia|] end.
  eexists. split; [reflexivity|]. cbn [tracks track_ctr fragments_written next_frag_pts chapter_track flags flavor app].
  rewrite !map_app, V2, V3, V4, A2, A3, A4. cbn [track_ctr]. split; [done|]. split; [done|].
  split; [|split; [lia|split; [by apply Forall_app|done]]].
  rewrite Z.add_0_l. rewrite <- (Z.add_comm 1). by rewrite <- seqZ_app by lia.
Qed.

(** ** Submitting packets *)

Definition encodes (pkt : encoder_packet) (t : mp4_track) : Prop :=
  ∃ e, trk_encoder t = Some e ∧ enc_ptr e = pkt_encoder pkt.

(** Every track has reached the point where the fragment ends. *)
Definition fragment_due (mux : mp4_mux) : bool :=
  (0 <? next_frag_pts mux) && forallb (λ t, next_frag_pts mux <=? last_pts_usec t) (tracks mux).

Lemma find_track_due mux ts j pkt found ready :
  (find_track mux ts j pkt found ready).2 = ready && forallb (λ t, next_frag_pts mux <=? last_pts_usec t) ts.
Proof.
  revert j found ready; induction ts as [|t ts IH]; intros j found ready; cbn [find_track forallb];
    [by rewrite andb_true_r|]. by rewrite IH, andb_assoc.
Qed.

Lemma find_track_none mux ts j pkt found ready :
  Forall (λ t, ¬ encodes pkt t) ts → (find_track mux ts j pkt found ready).1 = found.
Proof.
  intros HF. revert j found ready. induction HF as [|t ts Ht _ IH]; intros j found ready; [done|].
  cbn [find_track]. rewrite IH. destruct (trk_encoder t) as [e|] eqn:E; [|done].
  destruct (Z.eqb_spec (enc_ptr e) (pkt_encoder pkt)); [|done]. destruct Ht. by exists e.
Qed.

Lemma find_track_last mux pre t post j pkt found ready :
  encodes pkt t → Forall (λ t, ¬ encodes pkt t) post →
  (find_track mux (pre ++ t :: post) j pkt found ready).1 = Some (j + length pre)%nat.
Proof.
  intros (e & He & Hp) Hpost. revert j found ready; induction pre as [|t0 pre IH]; intros j found ready; cbn [app find_track].
  - rewrite He, Hp, Z.eqb_refl, find_track_none by done. by rewrite Nat.add_0_r.
  - rewrite IH. f_equal. simpl. lia.
Qed.

(** The end of the current fragment after the packet [q] is queued. *)
Definition next_boundary (mux : mp4_mux) (q : encoder_packet) (type : obs_encoder_type) : Z :=
  match type with
  | OBS_ENCODER_VIDEO => if pkt_keyframe q && (0 <? pkt_pts q) then packet_pts_usec q else next_frag_pts mux
  | OBS_ENCODER_AUDIO => next_frag_pts mux
  end.

Definition queue_on (mux : mp4_mux) (i : nat) (t : mp4_track) (q : encoder_packet) (next : Z) : mp4_mux :=
  mux_set mux (fragments_written mux) next (placeholder_offset mux)
    (<[i := track_insert_packet t q]> (tracks mux)) (chapter_track mux).

(** A submitted packet goes to the end of the queue of its track and of no other. It
    is refused when no track has its encoder; the file is only written when every
    track has reached the end of the current fragment, and then the fragment is
    flushed first; a video keyframe past the start sets the end of the fragment. *)
Theorem submit_packet_queues {S : Type} `{SerializerOps S} env mux pkt (s : S) :
  (Forall (λ t, ¬ encodes pkt t) (tracks mux) → mp4_mux_submit_packet env mux pkt s = Some ((false, mux), s)) ∧
  (∀ pre t post q, tracks mux = pre ++ t :: post → encodes pkt t → Forall (λ t, ¬ encodes pkt t) post →
    parse_packet env t pkt = Some q → fragment_due mux = false →
    mp4_mux_submit_packet env mux pkt s =
      Some ((true, queue_on mux (length pre) t q (next_boundary mux q (pkt_type pkt))), s)) ∧
  (∀ pre t post m1 t1 q s1, tracks mux = pre ++ t :: post → encodes pkt t → Forall (λ t, ¬ encodes pkt t) post →
    fragment_due mux = true → mp4_flush_fragment env mux s = Some (m1, s1) →
    tracks m1 !! length pre = Some t1 → parse_packet env t1 pkt = Some q →
    mp4_mux_submit_packet env mux pkt s =
      Some ((true, queue_on m1 (length pre) t1 q (next_boundary m1 q (pkt_type pkt))), s1)).
Proof.
  unfold mp4_mux_submit_packet, fragment_due.
  pose proof (find_track_due mux (tracks mux) 0 pkt None (0 <? next_frag_pts mux)) as Hdue.
  split; [|split].
  - intros HF. pose proof (find_track_none mux (tracks mux) 0 pkt None (0 <? next_frag_pts mux) HF) as Hn.
    destruct (find_track _ _ _ _ _ _) as [f r]. cbn [fst snd] in *. by subst f.
  - intros pre t post q E He Hpost Hq Hready.
    pose proof (find_track_last mux pre t post 0 pkt None (0 <? next_frag_pts mux) He Hpost) as Hn.
    rewrite <- E in Hn. destruct (find_track _ _ _ _ _ _) as [f r]. cbn [fst snd Nat.add] in *. subst f r.
    assert (tracks mux !! length pre = Some t) as El by (rewrite E; by apply list_lookup_middle).
    rewrite Hready. unfold bind, ret, deref. by rewrite El, Hq.
  - intros pre t post m1 t1 q s1 E He Hpost Hready Hfl Ht1 Hq.
    pose proof (find_track_last mux pre t post 0 pkt None (0 <? next_frag_pts mux) He Hpost) as Hn.
    rewrite <- E in Hn. destruct (find_track _ _ _ _ _ _) as [f r]. cbn [fst snd Nat.add] in *. subst f r.
    rewrite Hready. unfold bind at 1. rewrite Hfl. unfold bind, deref. by rewrite Ht1, Hq.
Qed.

(** ** Chapters *)

(** A text sample: its length, its text, and the modifiers after it. *)
Definition read_text_sample (data : bytes) : bytes * bytes :=
  let len := be_val (take 2 data) in (sub 2 len data, drop (Z.to_nat (2 + len)) data).

Definition text_sample (name : bytes) : bytes :=
  let len := Z.min (zlen name) UINT16_MAX in be16 len ++ take (Z.to_nat len) name ++ CHAPTER_PKT_FOOTER.

(** The chapter packet of [name] at [dts_usec], in milliseconds. *)
Definition chapter_packet (dts_usec : Z) (name : bytes) : encoder_packet :=
  let dts := dts_usec /c 1000 in
  mk_packet (text_sample name) dts dts 1 1000 OBS_ENCODER_AUDIO false dts_usec 0 0 0 0 0.

Lemma create_chapter_pkt_spec dts_usec name : zlen name < 2 ^ 62 →
  mp4_create_chapter_pkt dts_usec name = Some (chapter_packet dts_usec name).
Proof.
  intros Hn. unfold mp4_create_chapter_pkt, chapter_packet, text_sample.
  set (len := Z.min (zlen name) UINT16_MAX). pose proof (zlen_nonneg name).
  assert (0 ≤ len < 2 ^ 16) as Hl by (unfold len, UINT16_MAX; lia).
  assert (emits (S:=array_output_data) 0 (s_put ref_one ;;; s_wb16 (u16 len) ;;;
      s_put (take (Z.to_nat len) name) ;;; s_put CHAPTER_PKT_FOOTER)
    (ref_one ++ be16 len ++ take (Z.to_nat len) name ++ CHAPTER_PKT_FOOTER) tt) as E.
  { rewrite u16_small by lia. eapply emits_seq; [eauto with emits|reflexivity|].
    eapply emits_seq; [eauto with emits|reflexivity|].
    eapply emits_seq; [eauto with emits|reflexivity|]. eauto with emits. }
  rewrite (emits_array _ _ _ E).
  - cbn [mbind option_bind ao_bytes]. by rewrite drop_app_length.
  - rewrite !zlen_app, be16_len, zlen_take. change (zlen ref_one) with 8. change (zlen CHAPTER_PKT_FOOTER) with 12.
    unfold MAX_POS. lia.
Qed.

Definition chapter_queue (mux : mp4_mux) : list encoder_packet :=
  match chapter_track mux with Some ch => packets ch | None => [] end.

Lemma read_text_sample_spec name :
  read_text_sample (text_sample name) = (take (Z.to_nat UINT16_MAX) name, CHAPTER_PKT_FOOTER).
Proof.
  unfold text_sample. set (len := Z.min (zlen name) UINT16_MAX). pose proof (zlen_nonneg name).
  assert (0 ≤ len < 2 ^ 16) as Hl by (unfold len, UINT16_MAX; lia).
  set (txt := take (Z.to_nat len) name).
  assert (zlen txt = len) as Ht by (unfold txt; rewrite zlen_take; unfold len; lia).
  assert (txt = take (Z.to_nat UINT16_MAX) name) as <-.
  { unfold txt, len. destruct (Z.le_gt_cases (zlen name) UINT16_MAX) as [Hc|Hc].
    - rewrite Z.min_l by done. rewrite zlen_to_nat, firstn_all, firstn_all2 by (unfold zlen in *; lia). done.
    - by rewrite Z.min_r by lia. }
  unfold read_text_sample. change (take 2 (be16 len ++ txt ++ CHAPTER_PKT_FOOTER)) with (be16 len).
  rewrite be16_val, u16_small by lia. f_equal.
  - rewrite <- Ht. apply (sub_app_mid (be16 len)).
  - rewrite app_assoc. replace (Z.to_nat (2 + len)) with (length (be16 len ++ txt)) by (unfold zlen in *; rewrite length_app; simpl; lia).
    apply drop_app_length.
Qed.

(** C35: Chapters: a negative time is refused. Otherwise the chapter is queued as a text
    sample whose text reads back as the name (at most 65535 bytes of it) at the given
    time in milliseconds; the first chapter after time 0 is preceded by the
    localised start chapter at time 0, so that a chapter track always begins at 0; the
    other tracks and the file are untouched. *)
Theorem add_chapter_queues env mux dts_usec name :
  zlen name < 2 ^ 62 → zlen (env_start_chapter env) < 2 ^ 62 →
  (dts_usec < 0 → mp4_mux_add_chapter env mux dts_usec name = Some (false, mux)) ∧
  (0 ≤ dts_usec → ∃ mux', mp4_mux_add_chapter env mux dts_usec name = Some (true, mux') ∧
    chapter_queue mux' = chapter_queue mux ++
      (if bool_decide (chapter_queue mux = []) && (0 <? dts_usec)
       then [chapter_packet 0 (env_start_chapter env)] else []) ++ [chapter_packet dts_usec name] ∧
    tracks mux' = tracks mux) ∧
  read_text_sample (pkt_data (chapter_packet dts_usec name)) = (take (Z.to_nat UINT16_MAX) name, CHAPTER_PKT_FOOTER).
Proof.
  intros Hn Hs. unfold mp4_mux_add_chapter. split; [|split; [|apply read_text_sample_spec]].
  - intros Hneg. by rewrite (proj2 (Z.ltb_lt _ _)).
  - intros Hpos. rewrite (proj2 (Z.ltb_ge _ _)) by done.
    set (mux1 := match chapter_track mux with None => add_chapter_track mux | Some _ => mux end).
    assert (∃ ch, chapter_track mux1 = Some ch ∧ packets ch = chapter_queue mux ∧ tracks mux1 = tracks mux)
      as (ch & Ech & Eq & Et).
    { unfold mux1, chapter_queue. destruct (chapter_track mux) as [c|] eqn:E; [by exists c|].
      eexists. split; [reflexivity|]. done. }
    cbv zeta. rewrite Ech. cbn [mbind option_bind]. rewrite Eq. unfold insert_chapter.
    destruct (chapter_queue mux) as [|p0 ps].
    + destruct (Z.ltb_spec 0 dts_usec) as [Hgt|Hle].
      * rewrite Ech. cbn [mbind option_bind]. rewrite create_chapter_pkt_spec by done.
        cbn [mbind option_bind chapter_track mux_set]. rewrite create_chapter_pkt_spec by done.
        cbn [mbind option_bind]. eexists. split; [reflexivity|]. split; [|done].
        unfold chapter_queue. cbn [chapter_track mux_set packets track_insert_packet trk_set_packets]. by rewrite Eq.
      * cbn [mbind option_bind]. rewrite Ech. cbn [mbind option_bind]. rewrite create_chapter_pkt_spec by done.
        cbn [mbind option_bind]. eexists. split; [reflexivity|]. split; [|done].
        unfold chapter_queue. cbn [chapter_track mux_set packets track_insert_packet trk_set_packets]. by rewrite Eq.
    + cbn [mbind option_bind]. rewrite Ech. cbn [mbind option_bind]. rewrite create_chapter_pkt_spec by done.
      cbn [mbind option_bind]. eexists. split; [reflexivity|]. split; [|done].
      unfold chapter_queue. cbn [chapter_track mux_set packets track_insert_packet trk_set_packets]. by rewrite Eq.
Qed.

(** ** Examples *)

Lemma mux_create_tracks_witness :
  ∃ mux, mp4_mux_create [Some ex_video_encoder; None] [Some ex_audio_encoder] 1700000000
      (mk_flags false false false false) FLAVOR_MP4 = Some mux ∧
    map trk_encoder (tracks mux) = [Some ex_video_encoder; Some ex_audio_encoder] ∧
    map trk_type (tracks mux) = [TRACK_VIDEO; TRACK_AUDIO] ∧
    map track_id (tracks mux) = [1; 2] ∧ track_ctr mux = 2 ∧
    Forall fresh (tracks mux) ∧
    fragments_written mux = 0 ∧ next_frag_pts mux = 0 ∧ chapter_track mux = None ∧
    flags mux = mk_flags false false false false ∧ flavor mux = FLAVOR_MP4.
Proof.
  refine (mux_create_tracks [Some ex_video_encoder; None] [Some ex_audio_encoder] 1700000000
    (mk_flags false false false false) FLAVOR_MP4 _ _); [done|].
  constructor; [intros _; by eexists|]. constructor; [done|constructor].
Defined.

(** A packet of the audio encoder: nothing is due, so it is only queued. *)
Definition ex_audio_mux : mp4_mux :=
  mk_mux FLAVOR_MP4 (mk_flags false false false false) 0 0 0 0 1
    [new_track TRACK_AUDIO CODEC_AAC 1 (Some ex_audio_encoder) 1 48000 48000 0] None.

Lemma submit_packet_queues_witness :
  mp4_mux_submit_packet ex_env ex_audio_mux (ex_audio_pkt [1; 2] 1024) file_output_serializer_init =
    Some ((true, queue_on ex_audio_mux 0
      (new_track TRACK_AUDIO CODEC_AAC 1 (Some ex_audio_encoder) 1 48000 48000 0) (ex_audio_pkt [1; 2] 1024) 0),
      file_output_serializer_init).
Proof.
  refine (proj1 (proj2 (submit_packet_queues ex_env ex_audio_mux (ex_audio_pkt [1; 2] 1024) file_output_serializer_init))
    [] (new_track TRACK_AUDIO CODEC_AAC 1 (Some ex_audio_encoder) 1 48000 48000 0) [] (ex_audio_pkt [1; 2] 1024) eq_refl _ _ eq_refl eq_refl).
  - by exists ex_audio_encoder.
  - constructor.
Defined.

Lemma add_chapter_queues_witness :
  (1500000 < 0 → mp4_mux_add_chapter ex_env ex_audio_mux 1500000 (str "One") = Some (false, ex_audio_mux)) ∧
  (0 ≤ 1500000 → ∃ mux', mp4_mux_add_chapter ex_env ex_audio_mux 1500000 (str "One") = Some (true, mux') ∧
    chapter_queue mux' = [chapter_packet 0 (str "Start"); chapter_packet 1500000 (str "One")] ∧
    tracks mux' = tracks ex_audio_mux) ∧
  read_text_sample (pkt_data (chapter_packet 1500000 (str "One"))) = (str "One", CHAPTER_PKT_FOOTER).
Proof. refine (add_chapter_queues ex_env ex_audio_mux 1500000 (str "One") _ _); done. Defined.
