(* ===== verification/Mp4File.v ===== *)
(** * The finished file: plugins/obs-outputs/mp4-mux.c, [mp4_mux_finalise]

    The file header is written twice: first in its fragmented form with a
    placeholder, then over itself when the fragments are turned into the media data
    of a plain file. The contents of [ftyp] are exact here, so that its two forms can
    be shown to have the same size. *)

From S2P Require Import Prelude Util Serializer FileSerializer Encoder Mp4Types Mp4Box Mp4Header Mp4Entry Mp4Table Mp4Moov Mp4Frag Mp4Mux.

Local Open Scope Z_scope.
Local Open Scope serializer_scope.

(** ** The file type box *)

Definition has_avc1 (ts : list mp4_track) : bool :=
  match first_video_track ts with
  | Some t => bool_decide (trk_codec t = CODEC_H264)
  | None => false
  end.

Definition major_brand (mux : mp4_mux) (fragmented : bool) : bytes :=
  if MP4_USE_NEGATIVE_CTS (flags mux) then (if fragmented then str "iso6" else str "iso4") else str "isom".

Definition ftyp_fields (mux : mp4_mux) (fragmented : bool) : bytes :=
  if is_mov mux then str "qt  " ++ be32 538182144 ++ str "qt  "
  else
    let brand := major_brand mux fragmented in
    brand ++ be32 0 ++ brand ++
    (if MP4_USE_NEGATIVE_CTS (flags mux) then str "isom" else []) ++
    (if fragmented && negb (MP4_USE_NEGATIVE_CTS (flags mux)) then str "iso6" else str "obs1") ++
    str "iso2" ++ (if has_avc1 (tracks mux) then str "avc1" else []) ++ str "mp41".

Definition ftyp_box (mux : mp4_mux) (fragmented : bool) : box_tree :=
  Box (str "ftyp") (ftyp_fields mux fragmented) [].

(** The two forms of the header have the same size. *)
Lemma ftyp_box_len mux : zlen (enc (ftyp_box mux false)) = zlen (enc (ftyp_box mux true)).
Proof.
  unfold ftyp_box. rewrite !leaf_len by done. unfold ftyp_fields, major_brand.
  by destruct (is_mov mux), (MP4_USE_NEGATIVE_CTS (flags mux)), (has_avc1 (tracks mux)).
Qed.

Section ftyp.
Context {S : Type} `{AppendSerializer S} (mux : mp4_mux) (fragmented : bool).

(** The fields as the code writes them. *)
Definition write_ftyp_fields : W S unit :=
  if is_mov mux then s_put (str "qt  ") ;;; s_wb32 538182144 ;;; s_put (str "qt  ")
  else
    let negative_cts := MP4_USE_NEGATIVE_CTS (flags mux) in
    let major_brand :=
      if negative_cts then (if fragmented then str "iso6" else str "iso4") else str "isom" in
    s_put major_brand ;;;
    s_wb32 0 ;;;
    s_put major_brand ;;;
    when negb (bool_decide (major_brand = str "isom")) do s_put (str "isom") ;;;
    (if fragmented && negb (bool_decide (major_brand = str "iso6"))
     then s_put (str "iso6") else s_put (str "obs1")) ;;;
    s_put (str "iso2") ;;;
    (match first_video_track (tracks mux) with
     | Some track => when bool_decide (trk_codec track = CODEC_H264) do s_put (str "avc1")
     | None => ret tt
     end) ;;;
    s_put (str "mp41").

Lemma ftyp_split :
  mp4_write_ftyp (S:=S) mux fragmented =
  (start <- serializer_get_pos ;; write_box 0 (str "ftyp") ;;; write_ftyp_fields ;;; write_box_size start).
Proof. reflexivity. Qed.

Lemma ftyp_puts : puts write_ftyp_fields (ftyp_fields mux fragmented).
Proof.
  unfold write_ftyp_fields, ftyp_fields. destruct (is_mov mux).
  - repeat apply puts_seq; auto using puts_put with emits.
  - cbv zeta. fold (major_brand mux fragmented).
    apply puts_seq; [apply puts_put|]. apply puts_seq; [apply puts_wb32|].
    apply puts_seq; [apply puts_put|]. apply puts_seq.
    { unfold major_brand. destruct (MP4_USE_NEGATIVE_CTS _), fragmented; first [apply puts_put|apply puts_ret]. }
    apply puts_seq.
    { unfold major_brand. destruct (MP4_USE_NEGATIVE_CTS _), fragmented; apply puts_put. }
    apply puts_seq; [apply puts_put|]. apply puts_seq; [|apply puts_put].
    unfold has_avc1. destruct (first_video_track _) as [t|]; [|apply puts_ret].
    destruct (bool_decide _); [apply puts_put|apply puts_ret].
Qed.

Lemma ftyp_writes : writes (S:=S) (mp4_write_ftyp mux fragmented) (ftyp_box mux fragmented).
Proof.
  intros p Hp. rewrite ftyp_split. unfold ftyp_box.
  exists (u64 (8 + zlen (ftyp_fields mux fragmented))). rewrite enc_leaf.
  assert (zlen (str "ftyp") = 4) as H4 by done.
  eapply runs_bind; [apply emits_get_pos|].
  eapply runs_bind; [apply emits_write_box; unfold UINT32_MAX; lia|].
  eapply (runs_seq _ _ (p + 8)); [len_lia|apply emits_puts, ftyp_puts|].
  rewrite <- app_assoc. by apply runs_close.
Qed.
End ftyp.

Section rewrite_box.
Context {S : Type} `{FileSerializer S}.

(** A small box is written over bytes of the file. *)
Lemma overwrites_box name m body : zlen name = 4 → puts m body →
  overwrites (S:=S) (start <- serializer_get_pos ;; write_box 0 name ;;; m ;;; write_box_size start)
    (enc (Box name body [])).
Proof.
  intros Hn Pm s a b d Hs Hb Hmax. rewrite enc_leaf in *. rewrite !zlen_app, be32_len in Hb.
  pose proof (zlen_nonneg body). pose proof (zlen_nonneg a). pose proof (zlen_nonneg d).
  rewrite !zlen_app in Hmax.
  assert (puts (S:=S) (write_box 0 name ;;; m) ((be32 0 ++ name) ++ body)) as P.
  { apply puts_seq; [|done]. unfold write_box. change (0 <=? UINT32_MAX) with true. cbv iota.
    apply puts_seq; [apply puts_wb32|apply puts_put]. }
  destruct (P s a b d Hs) as (s1 & E1 & Hat1); [left; len_lia|].
  rewrite !zlen_app, be32_len in Hat1. set (en := zlen a + (4 + zlen name + zlen body)) in *.
  destruct (seek_to s1 _ _ (zlen a) Hat1) as (r2 & s2 & E2 & Hat2); [split; len_lia|lia|].
  assert (a ++ ((be32 0 ++ name) ++ body) ++ d = a ++ be32 0 ++ ((name ++ body) ++ d)) as Er
    by (by rewrite <- !app_assoc). rewrite Er in Hat2.
  destruct (puts_wb32 (u32 (u64 (en - zlen a))) s2 a (be32 0) ((name ++ body) ++ d) Hat2) as (s3 & E3 & Hat3); [by left|].
  destruct (seek_to s3 _ _ en Hat3) as (r4 & s4 & E4 & Hat4); [unfold en; split; len_lia|unfold en; lia|].
  exists (u64 (en - zlen a)), s4. split.
  - assert (op_get_pos s = zlen a) as Epos by (by eapply pos_at).
    assert (op_get_pos s1 = en) as Epos1 by (by eapply pos_at).
    unfold bind in E1 |- *. unfold serializer_get_pos at 1. rewrite Epos.
    destruct (write_box 0 name s) as [[[] s0]|]; [|done]. rewrite E1. cbv beta iota.
    unfold write_box_size, bind, serializer_get_pos. rewrite Epos1, E2, E3, E4. done.
  - unfold u32, u64 in Hat4. rewrite !be32_mod in Hat4 by lia.
    replace (en - zlen a) with (8 + zlen body) in Hat4 by (unfold en; lia).
    replace (zlen a + zlen (be32 (8 + zlen body) ++ name ++ body)) with en by (unfold en; len_lia).
    by rewrite <- !app_assoc in *.
Qed.

Lemma overwrites_ftyp mux fragmented :
  overwrites (S:=S) (mp4_write_ftyp mux fragmented) (enc (ftyp_box mux fragmented)).
Proof. rewrite ftyp_split. apply overwrites_box; [done|apply ftyp_puts]. Qed.
End rewrite_box.

(** ** What flushing keeps *)

Definition same_codec (t t' : mp4_track) : Prop := trk_type t' = trk_type t ∧ trk_codec t' = trk_codec t.

Lemma has_avc1_same ts ts' : Forall2 same_codec ts ts' → has_avc1 ts' = has_avc1 ts.
Proof.
  induction 1 as [|t t' ts ts' [Ht Hc] _ IH]; [done|]. unfold has_avc1, is_video in *. simpl.
  unfold is_video. rewrite Ht. destruct (trk_type t); by rewrite ?Hc.
Qed.

Lemma written_all_same p ts : Forall2 same_codec ts (written_all p ts).
Proof.
  revert p; induction ts as [|t ts IH]; intros p; cbn [written_all]; constructor; [|apply IH].
  unfold written. by destruct (has_samples t).
Qed.

Lemma flushed_same p mux : flush_ok mux → Forall2 same_codec (tracks mux) (tracks (flushed p mux)).
Proof.
  intros Hf. pose proof (flush_analysed mux Hf) as (Ha & _).
  change (tracks (flushed p mux)) with (written_all (p + moof_len mux + 8) (tracks (analysed mux))).
  generalize (p + moof_len mux + 8). induction Ha as [|t t' ts ts' [Hs _] _ IH]; intros q; [constructor|].
  cbn [written_all]. constructor; [|apply IH].
  assert (same_codec t t') as [? ?] by (unfold trk_static in Hs; split; congruence).
  unfold written. destruct (has_samples t'); by split.
Qed.

Lemma ftyp_box_flushed p mux fragmented : flush_ok mux →
  ftyp_box (flushed p mux) fragmented = ftyp_box mux fragmented.
Proof.
  intros Hf. unfold ftyp_box, ftyp_fields. by rewrite (has_avc1_same _ _ (flushed_same p mux Hf)).
Qed.

(** ** The layout of the finished file *)

Definition placeholder_box (mux : mp4_mux) : box_tree :=
  Box (if is_mov mux then str "wide" else str "free") (be64 0) [].

(** The start of a fragmented file. *)
Definition file_head (mux : mp4_mux) : bytes := enc (ftyp_box mux true) ++ enc (placeholder_box mux).

(** The muxer as [mp4_mux_finalise] flushes it. *)
Definition draining (mux : mp4_mux) : mp4_mux :=
  mux_set mux (fragments_written mux) 0 (placeholder_offset mux) (tracks mux) (chapter_track mux).

Definition fragment (p : Z) (mux : mp4_mux) : bytes :=
  enc (moof_box (analysed mux) (moof_len mux) p) ++ enc (Box (str "mdat") (fragment_payload mux) []).

(** Everything after the placeholder as one media data box, 64 bits wide if needed. *)
Definition media_data (data : bytes) : bytes :=
  if UINT32_MAX <? 16 + zlen data then be32 1 ++ str "mdat" ++ be64 (16 + zlen data) ++ data
  else enc (Box (str "mdat") (be64 0 ++ data) []).

Lemma enc_placeholder mux :
  enc (placeholder_box mux) = be32 16 ++ (if is_mov mux then str "wide" else str "free") ++ be64 0.
Proof. unfold placeholder_box. by rewrite enc_leaf. Qed.

(** Writing the new header of the media data over the placeholder. *)
Lemma overwrites_header {S : Type} `{FileSerializer S} mux s a data rest n q :
  at_pos s (a ++ enc (placeholder_box mux) ++ data ++ rest) q → q = zlen a → n = 16 + zlen data → n < 2 ^ 64 →
  ∃ s' q', (if UINT32_MAX <? n then s_wb32 1 ;;; s_put (str "mdat") ;;; s_wb64 n
            else s_wb32 (u32 n) ;;; s_put (str "mdat"))%ser s = Some (tt, s') ∧
    at_pos s' (a ++ media_data data ++ rest) q'.
Proof.
  intros Hs -> -> Hn. unfold media_data. pose proof (zlen_nonneg data).
  rewrite enc_placeholder in Hs. set (name := if is_mov mux then str "wide" else str "free") in *.
  assert (zlen name = 4) as Hl by (unfold name; by destruct (is_mov mux)).
  destruct (Z.ltb_spec UINT32_MAX (16 + zlen data)) as [Hlong|Hshort]; unfold UINT32_MAX in *.
  - destruct (puts_seq _ _ _ _ (puts_wb32 1) (puts_seq _ _ _ _ (puts_put (str "mdat")) (puts_wb64 (16 + zlen data)))
      s a (be32 16 ++ name ++ be64 0) (data ++ rest)) as (s' & E & Hs').
    + by rewrite <- !app_assoc in *.
    + left. rewrite !zlen_app, Hl. done.
    + exists s'. eexists. split; [exact E|]. rewrite <- !app_assoc in *. exact Hs'.
  - rewrite enc_leaf, u32_small by lia.
    destruct (puts_seq _ _ _ _ (puts_wb32 (16 + zlen data)) (puts_put (str "mdat"))
      s a (be32 16 ++ name) (be64 0 ++ data ++ rest)) as (s' & E & Hs').
    + by rewrite <- !app_assoc in *.
    + left. rewrite !zlen_app, Hl. done.
    + exists s'. eexists. split; [exact E|].
      replace (8 + zlen (be64 0 ++ data)) with (16 + zlen data) by len_lia.
      rewrite <- !app_assoc in *. exact Hs'.
Qed.

Lemma skel_one ts sk : map skel_of ts = [sk] → ∃ t, ts = [t] ∧ skel_of t = sk.
Proof. destruct ts as [|t [|? ?]]; intros E; [done| |done]. injection E as E. eauto. Qed.

Lemma media_data_split data : ∃ h, zlen h = 16 ∧ media_data data = h ++ data.
Proof.
  unfold media_data. pose proof (zlen_nonneg data).
  destruct (UINT32_MAX <? 16 + zlen data).
  - exists (be32 1 ++ str "mdat" ++ be64 (16 + zlen data)). by rewrite <- !app_assoc.
  - exists (be32 (8 + zlen (be64 0 ++ data)) ++ str "mdat" ++ be64 0). by rewrite enc_leaf, <- !app_assoc.
Qed.

Lemma file_head_len mux : zlen (file_head mux) = zlen (enc (ftyp_box mux false)) + 16.
Proof.
  unfold file_head. rewrite zlen_app, ftyp_box_len. f_equal. rewrite enc_placeholder. by destruct (is_mov mux).
Qed.

Section finalise.
Context {S : Type} `{FileSerializer S} (env : mp4_env).

(** From the last flush on: the final [moov] is appended and the head rewritten. *)
Lemma finalise_after_flush mux s m1 s1 data :
  mp4_flush_fragment env (draining mux) s = Some (m1, s1) → at_end s1 (file_head m1 ++ data) →
  placeholder_offset m1 = zlen (enc (ftyp_box m1 true)) → MP4_SKIP_FINALISATION (flags m1) = false →
  moov_ok env m1 false →
  ∃ moov, skel_of moov = moov_skel m1 false ∧
    (zlen (file_head m1 ++ data) + zlen (enc moov) < MAX_POS →
     ∃ s' q, mp4_mux_finalise env mux s = Some ((true, m1), s') ∧
       at_pos s' (enc (ftyp_box m1 false) ++ media_data data ++ enc moov) q).
Proof.
  intros E1 Hat1 Hpl Hskip Hmoov. set (c1 := file_head m1 ++ data) in *.
  destruct (moov_shape (S:=array_output_data) env m1) with (fragmented := false) (p := 0)
    as (ts & r & E & Hts); [apply Hmoov|done..|].
  destruct (skel_one _ _ Hts) as (moov & -> & Hsk). exists moov. split; [done|]. intros Hmax.
  rewrite enc_all_one in E. pose proof (zlen_nonneg c1). pose proof (zlen_nonneg (enc moov)).
  pose proof (emits_put (S:=S) (zlen c1) (enc moov)) as [_ Hput].
  destruct (Hput s1 c1) as (s2 & E2 & Hat2); [done|by rewrite app_nil_r|lia|].
  destruct (seek_to s2 _ _ 0 Hat2) as (r3 & s3 & E3 & Hat3); [split; len_lia|unfold MAX_POS; lia|].
  assert (c1 ++ enc moov = [] ++ enc (ftyp_box m1 true) ++ (enc (placeholder_box m1) ++ data ++ enc moov)) as Ec.
  { unfold c1, file_head. by rewrite <- !app_assoc. }
  assert (zlen (c1 ++ enc moov) < MAX_POS) as Hmax' by (rewrite zlen_app; lia).
  rewrite Ec in Hat3, Hmax'.
  destruct (overwrites_ftyp m1 false s3 [] _ _ Hat3) as (r4 & s4 & E4 & Hat4); [symmetry; apply ftyp_box_len|done|].
  rewrite app_nil_l in Hat4. pose proof (ftyp_box_len m1) as Hfl. pose proof (file_head_len m1) as Hhl.
  set (fin := enc (ftyp_box m1 false)) in *.
  assert (zlen c1 = zlen fin + 16 + zlen data) as Hlen by (unfold c1; rewrite zlen_app; lia).
  pose proof (zlen_nonneg fin). pose proof (zlen_nonneg data).
  assert (zlen c1 < MAX_POS) as Hc1m by lia. unfold MAX_POS in *.
  destruct (seek_to s4 _ _ (zlen fin) Hat4) as (r5 & s5 & E5 & Hat5); [split; len_lia|unfold MAX_POS; lia|].
  destruct (overwrites_header m1 s5 fin data (enc moov) (u64 (zlen c1 - zlen fin)) _ Hat5)
    as (s6 & q & E6 & Hat6); [done|rewrite u64_small; lia|apply u64_range|].
  exists s6, q. split; [|done].
  unfold mp4_mux_finalise. cbv zeta. fold (draining mux). unfold bind at 1. rewrite E1, Hskip.
  unfold bind at 1, serializer_get_pos. rewrite (pos_at_end _ _ Hat1).
  unfold bind at 1, in_array, deref. rewrite (emits_array _ _ _ E) by (unfold MAX_POS; lia).
  cbn [fst snd ao_bytes]. unfold bind at 1. rewrite E2. unfold bind at 1. rewrite E3.
  unfold bind at 1. rewrite E4. unfold bind at 1.
  rewrite Hpl, <- Hfl. fold fin. rewrite i64_small by lia. rewrite E5. unfold bind at 1. rewrite E6. done.
Qed.

(** C2: Finalising turns the fragmented recording into a plain file without moving any
    data: after the last fragment the file is [ftyp] in its final form, of the same
    size as the first one, one [mdat] box (with a 64-bit size beyond 4 GiB) that
    begins at the placeholder and spans the initial headers and every fragment, and
    the final [moov] box. *)
Theorem finalise_layout mux s rest :
  let p := zlen (file_head mux ++ rest) in
  let done_mux := flushed p (draining mux) in
  at_end s (file_head mux ++ rest) →
  fragments_written mux ≠ 0 → MP4_SKIP_FINALISATION (flags mux) = false →
  placeholder_offset mux = zlen (enc (ftyp_box mux true)) →
  flush_ok (draining mux) → moof_len (draining mux) < 2 ^ 32 → moov_ok env done_mux false →
  p + zlen (fragment p (draining mux)) < MAX_POS →
  ∃ moov, skel_of moov = moov_skel done_mux false ∧
    (p + zlen (fragment p (draining mux)) + zlen (enc moov) < MAX_POS →
     ∃ s' q, mp4_mux_finalise env mux s = Some ((true, done_mux), s') ∧
       at_pos s' (enc (ftyp_box mux false) ++ media_data (rest ++ fragment p (draining mux)) ++ enc moov) q).
Proof.
  cbv zeta. set (p := zlen (file_head mux ++ rest)). set (m0 := draining mux).
  intros Hs Hw Hskip Hpl Hf Hm Hmoov Hroom.
  pose proof (zlen_nonneg (file_head mux ++ rest)) as Hp. fold p in Hp.
  destruct (flush_emits (S:=S) env m0 p Hw Hf Hp Hm) as [_ Hflush].
  destruct (Hflush s (file_head mux ++ rest)) as (s1 & E1 & Hat1); [done|by rewrite app_nil_r|done|].
  fold (fragment p m0) in Hat1.
  assert (∀ b, ftyp_box (flushed p m0) b = ftyp_box mux b) as Hb by (intros b; by rewrite ftyp_box_flushed).
  assert (file_head (flushed p m0) = file_head mux) as Hh by (unfold file_head; by rewrite Hb).
  destruct (finalise_after_flush mux s (flushed p m0) s1 (rest ++ fragment p m0)) as (moov & Hsk & Hfin);
    [done|by rewrite Hh, app_assoc|by rewrite Hb|done|done|].
  exists moov. split; [done|]. intros Hmax. rewrite <- Hb. apply Hfin.
  rewrite Hh, app_assoc, zlen_app. exact Hmax.
Qed.
End finalise.

(** ** Examples *)

Definition ex_recording_track : mp4_track :=
  foldl track_insert_packet (new_track TRACK_AUDIO CODEC_AAC 1 (Some ex_audio_encoder) 1 48000 48000 0)
    [ex_audio_pkt [10; 11] 0; ex_audio_pkt [12] 1024; ex_audio_pkt [13; 14; 15] 2048].
Definition ex_recording : mp4_mux :=
  mk_mux FLAVOR_MP4 (mk_flags false false false false) 1 0 0 32 1 [ex_recording_track] None.
(** A file with some data after its head. *)
Definition ex_file : FILE := let c := file_head ex_recording ++ [1; 2; 3] in mk_FILE c (zlen c).

Lemma ex_recording_ok : flush_ok (draining ex_recording).
Proof. split; [by left|repeat constructor..|done]. Qed.

Lemma ex_done_ok : moov_ok ex_env (flushed (zlen (f_bytes ex_file)) (draining ex_recording)) false.
Proof.
  split; [|done..]. constructor; [|constructor]. split; [by split| | |intros _; by eexists].
  - split; [done| |done]. intros _. by eexists.
  - intros _ _. split; [all_bytes|by vm_compute..].
Qed.

Lemma finalise_layout_witness :
  let p := zlen (file_head ex_recording ++ [1; 2; 3]) in
  let done_mux := flushed p (draining ex_recording) in
  ∃ moov, skel_of moov = moov_skel done_mux false ∧
    (p + zlen (fragment p (draining ex_recording)) + zlen (enc moov) < MAX_POS →
     ∃ s' q, mp4_mux_finalise ex_env ex_recording ex_file = Some ((true, done_mux), s') ∧
       at_pos s' (enc (ftyp_box ex_recording false) ++
         media_data ([1; 2; 3] ++ fragment p (draining ex_recording)) ++ enc moov) q).
Proof.
  refine (finalise_layout ex_env ex_recording ex_file [1; 2; 3] _ _ _ _ ex_recording_ok _ ex_done_ok _);
    [by split|done..|by vm_compute|by vm_compute].
Defined.
