(* ===== verification/FileName.v ===== *)
(** * Names of recordings: libobs/util/platform.c and plugins/obs-outputs/mp4-output.c

    [os_generate_formatted_filename], which replaces the specifiers of a format in place,
    and the choice of a name that no file has. Paths are byte strings. The clock, the
    conversions of [strftime] and the printing of a floating-point number are given by an
    environment. *)

From S2P Require Import Prelude Encoder OptsParser.

From stdpp Require Import pretty.

Local Open Scope Z_scope.

(** A decimal number. *)
Definition decimal (z : Z) : bytes := str (pretty z).

(** [struct obs_video_info]. *)
Record obs_video_info := mk_ovi {
  ovi_fps_num : Z; ovi_fps_den : Z; base_width : Z; base_height : Z;
  output_width : Z; output_height : Z; output_format : video_format
}.

(** [strftime] is that of the current local time, [now] the time in seconds. *)
Record name_env := mk_name_env {
  strftime : bytes → bytes;
  now : Z;
  print_fps : Z → Z → bytes;
  ovi : obs_video_info
}.

Definition get_video_format_name (format : video_format) : bytes :=
  match format with
  | VIDEO_FORMAT_I420 => str "I420" | VIDEO_FORMAT_NV12 => str "NV12" | VIDEO_FORMAT_I422 => str "I422"
  | VIDEO_FORMAT_I210 => str "I210" | VIDEO_FORMAT_YVYU => str "YVYU" | VIDEO_FORMAT_YUY2 => str "YUY2"
  | VIDEO_FORMAT_UYVY => str "UYVY" | VIDEO_FORMAT_RGBA => str "RGBA" | VIDEO_FORMAT_BGRA => str "BGRA"
  | VIDEO_FORMAT_BGRX => str "BGRX" | VIDEO_FORMAT_I444 => str "I444" | VIDEO_FORMAT_I412 => str "I412"
  | VIDEO_FORMAT_Y800 => str "Y800" | VIDEO_FORMAT_BGR3 => str "BGR3" | VIDEO_FORMAT_I40A => str "I40A"
  | VIDEO_FORMAT_I42A => str "I42A" | VIDEO_FORMAT_YUVA => str "YUVA" | VIDEO_FORMAT_YA2L => str "YA2L"
  | VIDEO_FORMAT_AYUV => str "AYUV" | VIDEO_FORMAT_I010 => str "I010" | VIDEO_FORMAT_P010 => str "P010"
  | VIDEO_FORMAT_P216 => str "P216" | VIDEO_FORMAT_P416 => str "P416" | VIDEO_FORMAT_V210 => str "v210"
  | VIDEO_FORMAT_R10L => str "R10l" | VIDEO_FORMAT_NONE => str "None"
  end.

(** ** The specifiers *)

(** [astrcmp_n(s, spec, strlen(spec)) == 0]. *)
Fixpoint has_prefix (spec s : bytes) : bool :=
  match spec, s with
  | [], _ => true
  | x :: spec, y :: s => (x =? y) && has_prefix spec s
  | _ :: _, [] => false
  end.

(** The specifiers of the time, each with what [strftime] is given. *)
Definition time_spec : list (string * string) :=
  [("%CCYY", "%Y"); ("%YY", "%y"); ("%MM", "%m"); ("%DD", "%d"); ("%hh", "%H"); ("%mm", "%M"); ("%ss", "%S");
   ("%%", "%%"); ("%a", "%a"); ("%A", "%A"); ("%b", "%b"); ("%B", "%B"); ("%d", "%d"); ("%H", "%H"); ("%I", "%I");
   ("%m", "%m"); ("%M", "%M"); ("%p", "%p"); ("%S", "%S"); ("%y", "%y"); ("%Y", "%Y"); ("%z", "%z");
   ("%Z", "%Z")]%string.

Definition valid_string (s : bytes) : bool := existsb (λ c, negb (c =? 32)) s.

Definition PERCENT : Z := 37.

Section formatting.
Context (env : name_env).

(** The first specifier at the beginning of [s] that is converted to something: its length
    and the text. *)
Fixpoint time_convert (specs : list (string * string)) (s : bytes) : option (nat * bytes) :=
  match specs with
  | [] => None
  | (spec, time) :: specs =>
      if has_prefix (str spec) s && negb (is_empty (strftime env (str time)))
      then Some (length (str spec), strftime env (str time))
      else time_convert specs s
  end.

Definition info_spec : list (string * bytes) :=
  let i := ovi env in
  [("%FPS"%string, if ovi_fps_den i <=? 1 then decimal (ovi_fps_num i) else print_fps env (ovi_fps_num i) (ovi_fps_den i));
   ("%CRES"%string, decimal (base_width i) ++ str "x" ++ decimal (base_height i));
   ("%ORES"%string, decimal (output_width i) ++ str "x" ++ decimal (output_height i));
   ("%VF"%string, get_video_format_name (output_format i));
   ("%s"%string, decimal (now env))].

Fixpoint info_convert (specs : list (string * bytes)) (s : bytes) : option (nat * bytes) :=
  match specs with
  | [] => None
  | (spec, text) :: specs => if has_prefix (str spec) s then Some (length (str spec), text) else info_convert specs s
  end.

Definition replace_text (s : bytes) (pos len : nat) (new_text : bytes) : bytes :=
  take pos s ++ new_text ++ drop (pos + len) s.

Definition erase_ch (s : bytes) (pos : nat) : bytes := take pos s ++ drop (S pos) s.

(** What follows a conversion to [convert]. *)
Definition advance (sf : bytes) (pos : nat) (convert : bytes) : bytes * nat :=
  if negb (is_empty convert) then (sf, pos + length convert)%nat
  else match sf !! pos with
       | Some c => if c =? PERCENT then (erase_ch sf pos, pos) else (sf, S pos)
       | None => (sf, S pos)
       end.

(** One turn of the loop at [pos]. *)
Definition format_step (sf : bytes) (pos : nat) : bytes * nat :=
  match time_convert time_spec (drop pos sf) with
  | Some (len, convert) => advance (if valid_string convert then replace_text sf pos len convert else sf) pos convert
  | None =>
      match info_convert info_spec (drop pos sf) with
      | Some (len, convert) => advance (replace_text sf pos len convert) pos convert
      | None => advance sf pos []
      end
  end.

Fixpoint format_loop (fuel : nat) (sf : bytes) (pos : nat) : option bytes :=
  if (length sf <=? pos)%nat then Some sf else
  match fuel with
  | O => None
  | S fuel => let '(sf, pos) := format_step sf pos in format_loop fuel sf pos
  end.

(** [None] would be a loop that goes on after as many turns as the format has bytes. *)
Definition os_generate_formatted_filename (extension : option bytes) (space : bool) (format : bytes) : option bytes :=
  sf ← format_loop (length format) format 0;
  let sf := if space then sf else map (λ c, if c =? 32 then 95 else c) sf in
  let sf := match extension with Some ((_ :: _) as extension) => sf ++ str "." ++ extension | _ => sf end in
  Some (take 255 sf).
End formatting.

(** ** A name that no file has *)

(** What is before the last [c], and what follows it. *)
Definition strrchr (s : bytes) (c : Z) : option (bytes * bytes) :=
  '(post, pre) ← strchr (rev s) c; Some (rev pre, rev post).

Definition DOT : Z := 46.

Section unique.
Context (os_file_exists : bytes → bool).

Definition candidate (front ext : bytes) (space : bool) (num : Z) : bytes :=
  front ++ (if space then str " (" ++ decimal num ++ str ")" else str "_" ++ decimal num) ++ [DOT] ++ ext.

(** [None] when the fuel runs out, or the number overflows. *)
Fixpoint best_loop (fuel : nat) (front ext : bytes) (space : bool) (num : Z) : option bytes :=
  if INT_MAX <? num then None else
  match fuel with
  | O => None
  | S fuel =>
      let testpath := candidate front ext space num in
      if os_file_exists testpath then best_loop fuel front ext space (num + 1) else Some testpath
  end.

Definition find_best_filename (fuel : nat) (path : bytes) (space : bool) : option bytes :=
  if os_file_exists path then
    match strrchr path DOT with
    | None => Some path
    | Some (front, ext) => best_loop fuel front ext space 2
    end
  else Some path.
End unique.

Definition BACKSLASH : Z := 92.
Definition SLASH : Z := 47.

(** The settings and what the formatted name is. The directories of the path are created
    on the way. *)
Definition generate_filename (os_file_exists : bytes → bool) (fuel : nat) (dir filename : bytes) (space overwrite : bool) : option bytes :=
  let dst := map (λ c, if c =? BACKSLASH then SLASH else c) dir in
  let dst := if bool_decide (last dst = Some SLASH) then dst else dst ++ [SLASH] in
  let dst := dst ++ filename in
  if overwrite then Some dst else find_best_filename os_file_exists fuel dst space.

(** ** The replacements are those of a single pass *)

Section pass.
Context (env : name_env).

(** What is written for the beginning of [s], and how many bytes of [s] that takes. *)
Definition plain (s : bytes) (n : nat) : bytes * nat :=
  match s !! n with Some c => (if c =? PERCENT then [] else [c], S n) | None => ([], n) end.

Definition turn (s : bytes) : bytes * nat :=
  match time_convert env time_spec s with
  | Some (len, convert) => if valid_string convert then (convert, len) else (take (length convert) s, length convert)
  | None =>
      match info_convert (info_spec env) s with
      | Some (len, convert) => if is_empty convert then plain s len else (convert, len)
      | None => plain s 0
      end
  end.

Fixpoint one_pass (n : nat) (s : bytes) : bytes :=
  match n, s with
  | S n, _ :: _ => (turn s).1 ++ one_pass n (drop (turn s).2 s)
  | _, _ => []
  end.

Lemma time_convert_some specs s len convert : Forall (λ x, x.1 ≠ EmptyString) specs →
  time_convert env specs s = Some (len, convert) → (1 ≤ len)%nat ∧ convert ≠ [].
Proof.
  induction 1 as [|[spec time] specs Hs _ IH]; cbn [time_convert]; [done|].
  destruct (has_prefix (str spec) s && _) eqn:E; [|done]. intros [= <- <-]. apply andb_prop in E as [_ E].
  split; [|by destruct (strftime env (str time))]. destruct spec; [done|]. cbn. lia.
Qed.

Lemma info_convert_some specs s len convert : Forall (λ x, x.1 ≠ EmptyString) specs →
  info_convert specs s = Some (len, convert) → (1 ≤ len)%nat.
Proof.
  induction 1 as [|[spec text] specs Hs _ IH]; cbn [info_convert]; [done|].
  destruct (has_prefix (str spec) s) eqn:E; [|done]. intros [= <- <-]. destruct spec; [done|]. cbn. lia.
Qed.

Lemma take_drop_out out (s : bytes) n : take (length out) (out ++ s) = out ∧ drop (length out + n) (out ++ s) = drop n s.
Proof. split; [by rewrite take_app_length|]. rewrite <- drop_drop. by rewrite drop_app_length. Qed.

Lemma replace_out out s len convert : replace_text (out ++ s) (length out) len convert = out ++ convert ++ drop len s.
Proof. unfold replace_text. destruct (take_drop_out out s len) as [-> ->]. done. Qed.

(** No conversion after [n] bytes were taken out. *)
Lemma advance_plain out s n : (s !! n = None → (1 ≤ n)%nat) → (1 ≤ (plain s n).2)%nat ∧ ∃ pos,
  advance (out ++ drop n s) (length out) [] = (out ++ (plain s n).1 ++ drop (plain s n).2 s, pos) ∧
  (pos = length (out ++ (plain s n).1) ∨ drop (plain s n).2 s = [] ∧ (length (out ++ (plain s n).1) ≤ pos)%nat).
Proof.
  intros Hn. unfold advance, plain. cbn [is_empty negb].
  rewrite lookup_app_r, Nat.sub_diag, lookup_drop, Nat.add_0_r by lia. destruct (s !! n) as [c|] eqn:El; cbn [fst snd].
  - split; [lia|]. erewrite (drop_S s) by exact El. destruct (c =? PERCENT); eexists; (split; [|left; reflexivity]).
    + unfold erase_ch. rewrite app_nil_r, take_app_length. replace (S (length out)) with (length out + 1)%nat by lia.
      by rewrite (proj2 (take_drop_out out (c :: drop (S n) s) 1)).
    + rewrite length_app. cbn. f_equal. lia.
  - split; [by apply Hn|]. apply lookup_ge_None in El. rewrite drop_ge by lia. eexists. split; [done|].
    right. split; [done|]. rewrite app_nil_r. lia.
Qed.

(** A turn of the loop, with what has been written before it. *)
Lemma step_turn out s : s ≠ [] → (1 ≤ (turn s).2)%nat ∧ ∃ pos,
  format_step env (out ++ s) (length out) = (out ++ (turn s).1 ++ drop (turn s).2 s, pos) ∧
  (pos = length (out ++ (turn s).1) ∨ drop (turn s).2 s = [] ∧ (length (out ++ (turn s).1) ≤ pos)%nat).
Proof.
  intros Hs. unfold format_step, turn. rewrite drop_app_length.
  destruct (time_convert env time_spec s) as [[len convert]|] eqn:Et.
  { apply time_convert_some in Et as [Hlen Hne]; [|by repeat constructor]. unfold advance.
    assert (is_empty convert = false) as -> by (by destruct convert). cbn [negb].
    destruct (valid_string convert); cbn [fst snd].
    - split; [done|]. eexists. split; [by rewrite replace_out|]. left. by rewrite length_app.
    - assert (1 ≤ length convert)%nat by (destruct convert; [done|cbn; lia]). split; [done|].
      eexists. split; [by rewrite take_drop|]. rewrite length_app, length_take.
      destruct (decide (length convert ≤ length s)%nat); [left; lia|right].
      split; [apply drop_ge; lia|lia]. }
  destruct (info_convert (info_spec env) s) as [[len convert]|] eqn:Ei.
  - apply info_convert_some in Ei; [|by repeat constructor]. rewrite replace_out.
    destruct convert as [|c convert]; cbn [is_empty].
    + by apply advance_plain.
    + unfold advance. cbn [is_empty negb fst snd]. split; [done|]. eexists. split; [reflexivity|]. left. by rewrite length_app.
  - pose proof (advance_plain out s 0) as H. rewrite drop_0 in H. apply H. by destruct s.
Qed.

Lemma one_pass_nil n : one_pass n [] = [].
Proof. by destruct n. Qed.

Lemma format_loop_pass n out s pos : (length s ≤ n)%nat →
  pos = length out ∨ s = [] ∧ (length out ≤ pos)%nat →
  format_loop env n (out ++ s) pos = Some (out ++ one_pass n s).
Proof.
  revert out s pos. induction n as [|n IH]; intros out s pos Hn Hpos; cbn [format_loop]; rewrite length_app.
  - destruct s; [|cbn in Hn; lia]. rewrite (proj2 (Nat.leb_le _ _)); [done|]. cbn. destruct Hpos as [|[]]; lia.
  - destruct s as [|c s].
    { rewrite (proj2 (Nat.leb_le _ _)); [done|]. cbn. destruct Hpos as [|[]]; lia. }
    destruct Hpos as [->|[? _]]; [|done]. rewrite (proj2 (Nat.leb_gt _ _)) by (cbn; lia).
    destruct (step_turn out (c :: s)) as (Hk & pos & -> & Hpos); [done|].
    rewrite app_assoc, IH; [by rewrite <- app_assoc| |done].
    rewrite length_drop. cbn [length] in *. lia.
Qed.
End pass.

(** The loop that replaces the specifiers in place ends, and its result is that of one pass
    from left to right: text that was put in is never read as a specifier again. *)
Theorem formatted_filename_one_pass env extension space format :
  os_generate_formatted_filename env extension space format =
    let sf := one_pass env (length format) format in
    let sf := if space then sf else map (λ c, if c =? 32 then 95 else c) sf in
    Some (take 255 (match extension with Some ((_ :: _) as ext) => sf ++ str "." ++ ext | _ => sf end)).
Proof.
  unfold os_generate_formatted_filename. pose proof (format_loop_pass env (length format) [] format 0) as E. rewrite (app_nil_l format) in E.
  rewrite E; [done|done|by left].
Qed.

(** ** The name is new *)

Lemma decimal_inj a b : decimal a = decimal b → a = b.
Proof.
  unfold decimal, str. intros H. apply (inj pretty).
  assert (∀ l k, map (λ c, Z.of_N (Ascii.N_of_ascii c)) l = map (λ c, Z.of_N (Ascii.N_of_ascii c)) k → l = k) as Hinj.
  { induction l as [|x l IH]; intros [|y k] E; cbn in E; [done..|]. injection E as Ex El. f_equal; [|by apply IH].
    apply N2Z.inj in Ex. by rewrite <- (Ascii.ascii_N_embedding x), Ex, Ascii.ascii_N_embedding. }
  apply Hinj in H. by rewrite <- (String.string_of_list_ascii_of_string (pretty a)), H, String.string_of_list_ascii_of_string.
Qed.

Lemma candidate_inj front ext space a b : candidate front ext space a = candidate front ext space b → a = b.
Proof.
  unfold candidate. intros H. apply (inj (app front)) in H. apply (inj (λ l, l ++ [DOT] ++ ext)) in H.
  destruct space.
  - apply (inj (app (str " ("))) in H. apply (inj (λ l, l ++ str ")")) in H. by apply decimal_inj.
  - apply (inj (app (str "_"))) in H. by apply decimal_inj.
Qed.

Section fresh.
Context (files : list bytes).
Let exists_file (p : bytes) : bool := bool_decide (p ∈ files).

Lemma best_loop_found front ext space fuel num : num + Z.of_nat fuel ≤ INT_MAX →
  (∃ n, num ≤ n < num + Z.of_nat fuel ∧
    best_loop exists_file fuel front ext space num = Some (candidate front ext space n) ∧
    (candidate front ext space n ∉ files) ∧ ∀ m, num ≤ m < n → candidate front ext space m ∈ files) ∨
  ∀ m, num ≤ m < num + Z.of_nat fuel → candidate front ext space m ∈ files.
Proof.
  revert num. induction fuel as [|fuel IH]; intros num Hmax; [right; lia|]. cbn [best_loop].
  rewrite (proj2 (Z.ltb_ge _ _)) by lia. unfold exists_file at 1. case_bool_decide as Hin.
  - destruct (IH (num + 1)) as [(n & Hn & E & Hf & Hb)|Hall]; [lia|left|right].
    + exists n. split; [lia|]. split; [done|]. split; [done|]. intros m Hm.
      destruct (decide (m = num)) as [->|]; [done|]. apply Hb. lia.
    + intros m Hm. destruct (decide (m = num)) as [->|]; [done|]. apply Hall. lia.
  - left. exists num. split; [lia|]. split; [done|]. split; [done|]. lia.
Qed.

(** More names than files. *)
Lemma candidates_not_all front ext space num :
  ¬ (∀ m, num ≤ m < num + Z.of_nat (S (length files)) → candidate front ext space m ∈ files).
Proof.
  intros Hall. set (names := candidate front ext space <$> seqZ num (Z.of_nat (S (length files)))).
  assert (NoDup names) as Hnd.
  { apply NoDup_fmap_2; [|apply NoDup_seqZ]. intros a b. apply candidate_inj. }
  assert (names ⊆+ files) as Hsub.
  { apply NoDup_submseteq; [done|]. intros p Hp. apply list_elem_of_fmap in Hp as (m & -> & Hm).
    apply elem_of_seqZ in Hm. by apply Hall. }
  apply submseteq_length in Hsub. unfold names in Hsub. rewrite length_fmap, length_seqZ in Hsub. lia.
Qed.
End fresh.

(** C40: The search for a file name ends after at most one try more than there are files, with a
    name that no file has: the path itself if it is new, else the path with the smallest
    number from 2 on, put before the extension, that makes it new; a path without an
    extension is returned even when the file exists. *)
Theorem best_filename_fresh files path space :
  zlen files < INT_MAX - 3 →
  ∃ p, find_best_filename (λ p, bool_decide (p ∈ files)) (S (length files)) path space = Some p ∧
    (p ∉ files ∨ strrchr path DOT = None) ∧
    (path ∉ files → p = path) ∧
    (∀ front ext, path ∈ files → strrchr path DOT = Some (front, ext) →
      ∃ n, 2 ≤ n ∧ p = candidate front ext space n ∧
        ∀ m, 2 ≤ m < n → candidate front ext space m ∈ files).
Proof.
  intros Hmax. unfold zlen, find_best_filename in *. case_bool_decide as Hin; [|exists path; split_and!; auto; done].
  destruct (strrchr path DOT) as [[front ext]|] eqn:E; [|exists path; split_and!; auto; done].
  destruct (best_loop_found files front ext space (S (length files)) 2) as [(n & Hn & -> & Hf & Hb)|Hall]; [lia| |].
  - eexists. split; [reflexivity|]. split; [by left|]. split; [done|]. intros ? ? _ [= <- <-]. exists n.
    split_and!; [lia|done|done].
  - by apply candidates_not_all in Hall.
Qed.

Lemma best_filename_fresh_witness :
  let files := [str "a.mp4"; str "a_2.mp4"; str "b.mp4"] in
  zlen files < INT_MAX - 3 ∧
  find_best_filename (λ p, bool_decide (p ∈ files)) 4 (str "a.mp4") false = Some (str "a_3.mp4") ∧
  ∃ p, find_best_filename (λ p, bool_decide (p ∈ files)) 4 (str "a.mp4") false = Some p ∧
    (p ∉ files ∨ strrchr (str "a.mp4") DOT = None) ∧
    (str "a.mp4" ∉ files → p = str "a.mp4") ∧
    (∀ front ext, str "a.mp4" ∈ files → strrchr (str "a.mp4") DOT = Some (front, ext) →
      ∃ n, 2 ≤ n ∧ p = candidate front ext false n ∧ ∀ m, 2 ≤ m < n → candidate front ext false m ∈ files).
Proof.
  intros files. split; [done|]. split; [by vm_compute|].
  by apply (best_filename_fresh files (str "a.mp4") false).
Defined.

(** ** Examples *)

Definition ex_name_env : name_env :=
  mk_name_env (λ f, if bool_decide (f = str "%H") then str "07" else if bool_decide (f = str "%M") then str "05"
    else if bool_decide (f = str "%%") then str "%" else []) 1700000000 (λ _ _, str "29.97")
    (mk_ovi 30000 1001 1920 1080 1280 720 VIDEO_FORMAT_NV12).

Example formatted : os_generate_formatted_filename ex_name_env (Some (str "mp4")) false (str "Rec %hh-%mm %FPS%%d %x") =
  Some (str "Rec_07-05_29.97%d_x.mp4").
Proof. by vm_compute. Qed.

(** A name of more than 255 bytes loses its extension, and then no number can be added: an
    existing file is written over. *)
Example long_name_not_unique :
  let format := replicate 256 97 in
  ∃ name, os_generate_formatted_filename ex_name_env (Some (str "mp4")) false format = Some name ∧
    zlen name = 255 ∧ (DOT ∉ name) ∧
    generate_filename (λ p, bool_decide (p = str "/rec/" ++ name)) 10 (str "/rec") name false false = Some (str "/rec/" ++ name).
Proof. eexists. split; [vm_compute; reflexivity|]. split_and!; [done| |by vm_compute]. by apply (bool_decide_unpack _). Qed.
