(* ===== verification/Mp4Recording.v ===== *)
(** * A recording from start to end: plugins/obs-outputs/mp4-mux.c

    [recording] is the sequence of calls of [mp4_mux_submit_packet] an output makes.
    The invariant says where the packets of every track are: the first ones in chunks
    of the file, the others still queued. The last theorem is the contract of the muxer: the
    finalised file holds, in the chunks its sample tables list, the data of every
    packet but the last of each track. *)

From S2P Require Import Prelude Util Serializer FileSerializer Encoder Mp4Types Mp4Box Mp4Header Mp4Entry Mp4Table Mp4Moov Mp4Frag Mp4Mux Mp4Track Mp4File.

Local Open Scope Z_scope.
Local Open Scope serializer_scope.

(** ** Where the chunks are *)

(** The chunks [gs] hold their packets in the file [c], past its first [lo] bytes. *)
Definition located (lo : Z) (c : bytes) (gs : list (Z * list encoder_packet)) : Prop :=
  Forall (λ g, lo ≤ g.1 ∧ g.1 + zlen (data_of g.2) ≤ zlen c ∧
               sub g.1 (zlen (data_of g.2)) c = data_of g.2) gs.

Lemma sub_app_l {A} off n (c d : list A) : 0 ≤ off → 0 ≤ n → off + n ≤ zlen c → sub off n (c ++ d) = sub off n c.
Proof.
  intros Ho Hn Hl. unfold sub, zlen in *. rewrite drop_app_le by lia. rewrite take_app_le; [done|].
  rewrite length_drop. lia.
Qed.

Lemma located_app lo c d gs : 0 ≤ lo → located lo c gs → located lo (c ++ d) gs.
Proof.
  intros Hlo HF. eapply Forall_impl; [exact HF|]. intros g. cbv beta. intros (H1 & H2 & H3).
  pose proof (zlen_nonneg (data_of g.2)). pose proof (zlen_nonneg d).
  rewrite zlen_app, sub_app_l by lia. split; [lia|]. split; [lia|done].
Qed.

(** Rewriting the first [lo] bytes leaves the chunks. *)
Lemma located_head lo h h' d gs : zlen h = lo → zlen h' = lo → located lo (h ++ d) gs → located lo (h' ++ d) gs.
Proof.
  intros <- Hl HF. eapply Forall_impl; [exact HF|]. intros g. cbv beta. rewrite !zlen_app, Hl. intros (H1 & H2 & H3).
  split; [lia|]. split; [lia|]. etrans; [|exact H3]. unfold sub. f_equal.
  assert (length h' = length h) as El by (unfold zlen in Hl; lia).
  rewrite !drop_app_ge by (unfold zlen in *; lia). by rewrite El.
Qed.

(** ** Tracks and their histories *)

Section tracks.
Context (neg : bool) (lo : Z).

(** The history of a track whose samples are all written. *)
Definition settled (c : bytes) (ps : list encoder_packet) (t : mp4_track) : Prop :=
  ∃ n gs, history neg ps n gs t ∧ fragment_samples t = [] ∧ located lo c gs.

Definition history_ok (ps : list encoder_packet) (t : mp4_track) : Prop :=
  packets_ok (cts_base (neg && is_video t) ps) ps.

(** Analysing the queues of all tracks. *)
Lemma process_all_history mux m c H ts :
  MP4_USE_NEGATIVE_CTS (flags mux) = neg →
  Forall2 (settled c) H ts → Forall2 history_ok H ts →
  Forall2 (λ ps t, ∃ n gs, history neg ps n gs t ∧ located lo c gs ∧ history_ok ps t ∧
                           (next_frag_pts mux = 0 → n = length (gaps ps)))
    H (process_all mux ts m).1.
Proof.
  intros Hneg HF. revert m. induction HF as [|ps t H ts (n & gs & Hh & Hf & Hl) _ IH]; intros m Hok; [constructor|].
  inversion_clear Hok as [|? ? ? ? Hok1 Hok2]. cbn [process_all].
  destruct (process_history neg ps n gs t mux m Hneg Hok1 Hh Hf) as (n' & _ & Hh' & Hst & Hall).
  destruct (process_packets mux t m) as [t1 m1]. specialize (IH m1 Hok2).
  destruct (process_all mux ts m1) as [ts1 m2]. cbn [fst] in *. constructor; [|done].
  exists n', gs. split; [done|]. split; [done|]. split; [|done].
  unfold history_ok. by rewrite (trk_static_video _ _ Hst).
Qed.

(** Writing the samples of all tracks after [pre], which extends the file [c]. *)
Lemma written_all_history (P : list encoder_packet → nat → Prop) c H ts pre :
  0 ≤ lo ≤ zlen pre → (∃ d, pre = c ++ d) →
  zlen (pre ++ concat (map run_data ts)) < 2 ^ 64 → zlen (concat (map run_data ts)) < 2 ^ 32 →
  Forall2 (λ ps t, ∃ n gs, history neg ps n gs t ∧ located lo c gs ∧ history_ok ps t ∧ P ps n) H ts →
  Forall2 (λ ps t, ∃ n gs, history neg ps n gs t ∧ fragment_samples t = [] ∧
      located lo (pre ++ concat (map run_data ts)) gs ∧ P ps n) H (written_all (zlen pre) ts).
Proof.
  intros Hlo Hpre Hb1 Hb2 HF. revert pre Hlo Hpre Hb1 Hb2.
  induction HF as [|ps t H ts (n & gs & Hh & Hl & Hok & HP) _ IH]; intros pre Hlo [d ->] Hb1 Hb2; [constructor|].
  cbn [map concat written_all] in *. rewrite zlen_app in Hb2.
  pose proof (zlen_nonneg (run_data t)). pose proof (zlen_nonneg (concat (map run_data ts))).
  pose proof (zlen_nonneg (c ++ d)). rewrite !zlen_app in Hb1.
  constructor.
  - assert (Z.of_nat n < 2 ^ 32) as Hn.
    { pose proof (h_behind _ _ _ _ _ Hh) as Hb. rewrite gaps_length in Hb.
      destruct Hok as [Hlen _ _]. unfold zlen in Hlen. lia. }
    exists n, (add_group (zlen (c ++ d)) t gs). split; [|split; [|split; [|done]]].
    + apply written_history; [done|rewrite zlen_app; len_lia|lia|done].
    + unfold written. destruct (has_samples t) eqn:E; [done|]. unfold has_samples in E.
      by destruct (fragment_samples t).
    + assert (located lo ((c ++ d) ++ run_data t ++ concat (map run_data ts)) gs) as Hl'.
      { rewrite <- app_assoc. apply located_app; [lia|done]. }
      unfold add_group. destruct (has_samples t); [|done].
      apply Forall_app; split; [done|]. constructor; [|done]. cbn [fst snd].
      change (data_of (pending t)) with (run_data t). split; [lia|]. split; [rewrite (zlen_app (c ++ d)), (zlen_app (run_data t)); lia|]. apply sub_app_mid.
  - replace (zlen (c ++ d) + zlen (run_data t)) with (zlen ((c ++ d) ++ run_data t)) by (rewrite (zlen_app (c ++ d)); lia).
    rewrite app_assoc. apply IH.
    + rewrite (zlen_app (c ++ d)). lia.
    + exists (d ++ run_data t). by rewrite <- app_assoc.
    + rewrite <- app_assoc, (zlen_app (c ++ d)), (zlen_app (run_data t)), (zlen_app c). lia.
    + lia.
Qed.
End tracks.

(** ** A flush *)

Section flush.
Context {S : Type} `{AppendSerializer S} (env : mp4_env).

(** The muxer after the file header is written at [p]. *)
Definition headed (p : Z) (mux : mp4_mux) : mp4_mux :=
  if fragments_written mux =? 0
  then mux_set mux (fragments_written mux) (next_frag_pts mux) (u64 (p + zlen (enc (ftyp_box mux true))))
         (tracks mux) (chapter_track mux)
  else mux.

(** The initial [moov], run on a growable array. *)
Definition initial_moov (mux : mp4_mux) : option bytes :=
  (λ r, ao_bytes r.2) <$> mp4_write_moov env mux true array_output_serializer_init.

(** What the first flush writes before the fragment. *)
Definition first_header (p : Z) (mux : mp4_mux) : option bytes :=
  if fragments_written mux =? 0
  then moov ← initial_moov (headed p mux); Some (file_head mux ++ moov)
  else Some [].

Lemma placeholder_emits mux p : 0 ≤ p →
  emits (S:=S) p (mp4_write_free mux) (enc (placeholder_box mux)) 16.
Proof. intros _. apply free_emits. Qed.

Lemma flush_any_emits mux p hd : 0 ≤ p → first_header p mux = Some hd →
  flush_ok mux → moof_len (headed p mux) < 2 ^ 32 →
  emits (S:=S) p (mp4_flush_fragment env mux)
    (hd ++ fragment (p + zlen hd) (headed p mux)) (flushed (p + zlen hd) (headed p mux)).
Proof.
  intros Hp Hhd Hf Hm. unfold first_header, headed in *.
  destruct (Z.eqb_spec (fragments_written mux) 0) as [Ew|Nw].
  - set (mux' := mux_set mux (fragments_written mux) (next_frag_pts mux)
      (u64 (p + zlen (enc (ftyp_box mux true)))) (tracks mux) (chapter_track mux)) in *.
    unfold initial_moov in Hhd.
    destruct (mp4_write_moov env mux' true array_output_serializer_init) as [[r ao]|] eqn:Em; [|done].
    change (Some (file_head mux ++ ao_bytes ao) = Some hd) in Hhd. apply (inj Some) in Hhd. subst hd. unfold mp4_flush_fragment, write_file_header.
    rewrite Ew. cbn [Z.eqb]. rewrite <- app_assoc.
    destruct (ftyp_writes (S:=S) mux true p Hp) as (rf & Ef).
    eapply emits_seq; [|reflexivity|].
    { unfold file_head. rewrite <- (app_nil_r (enc (placeholder_box mux))).
      eapply emits_seq; [exact Ef|reflexivity|].
      eapply emits_silent; [apply emits_get_pos|].
      eapply emits_seq; [apply placeholder_emits; len_lia|reflexivity|]. rewrite <- Ew. apply emits_ret. }
    fold mux'. cbv zeta. change (fragments_written mux') with (fragments_written mux). rewrite Ew. cbn [Z.eqb].
    set (q := p + zlen (file_head mux)).
    eapply emits_seq; [|reflexivity|].
    { rewrite <- (app_nil_r (ao_bytes ao)). eapply emits_silent; [by apply emits_deref|].
      eapply emits_seq; [apply emits_put|reflexivity|apply emits_ret]. }
    cbn [snd]. change (array_output_serializer_reset ao) with array_output_serializer_init.
    replace (p + zlen (file_head mux ++ ao_bytes ao)) with (q + zlen (ao_bytes ao)) by (unfold q; len_lia).
    apply flush_packets_emits; [by destruct Hf|unfold q; len_lia|done].
  - simplify_eq. rewrite zlen_nil, Z.add_0_r. by apply flush_emits.
Qed.
End flush.

(** ** Recording *)

Section recordings.
Context {S : Type} `{FileSerializer S} (env : mp4_env) (mux0 : mp4_mux).

Let neg := MP4_USE_NEGATIVE_CTS (flags mux0).
Let lo := zlen (file_head mux0).

(** The muxer is one that started as [mux0]. *)
Definition same_mux (mux : mp4_mux) : Prop :=
  flavor mux = flavor mux0 ∧ flags mux = flags mux0 ∧ Forall2 same_codec (tracks mux0) (tracks mux).

(** There is room for a flush. *)
Record flush_fits (mux : mp4_mux) (s : S) : Prop := {
  fits_tracks : Forall track_ok (tracks mux);
  fits_queue : 8 + queue_bytes (tracks mux) ≤ UINT32_MAX;
  fits_count : fragments_written mux + 1 < 2 ^ 32;
  fits_file : ∀ c, at_end s c → ∃ hd, first_header env (zlen c) mux = Some hd ∧
    moof_len (headed (zlen c) mux) < 2 ^ 32 ∧
    zlen c + zlen hd + zlen (fragment (zlen c + zlen hd) (headed (zlen c) mux)) < MAX_POS
}.

(** [recording qs mux s]: calls of the API have led from [mux0] and an empty file to
    [mux] and [s], with the packets [qs] queued per track. *)
Inductive recording : list (list encoder_packet) → mp4_mux → S → Prop :=
| rec_start s :
    at_end s [] → fragments_written mux0 = 0 →
    Forall (λ t, ∃ type codec id enc num den scale, t = new_track type codec id enc num den scale 0) (tracks mux0) →
    recording (map (λ _, []) (tracks mux0)) mux0 s
| rec_submit qs mux s pkt i ready t q mux' s' :
    recording qs mux s →
    find_track mux (tracks mux) 0 pkt None (0 <? next_frag_pts mux) = (Some i, ready) →
    (ready = true → flush_fits mux s) →
    tracks mux !! i = Some t → parse_packet env t pkt = Some q →
    mp4_mux_submit_packet env mux pkt s = Some ((true, mux'), s') →
    recording (alter (λ ps, ps ++ [q]) i qs) mux' s'
| rec_ignored qs mux s pkt mux' s' :
    recording qs mux s →
    mp4_mux_submit_packet env mux pkt s = Some ((false, mux'), s') →
    recording qs mux' s'.

(** The file and the tracks at any time. *)
Record rec_state (qs : list (list encoder_packet)) (mux : mp4_mux) (c : bytes) : Prop := {
  rs_mux : same_mux mux;
  rs_count : 0 ≤ fragments_written mux;
  rs_empty : fragments_written mux = 0 → c = [];
  rs_head : fragments_written mux ≠ 0 →
    placeholder_offset mux = zlen (enc (ftyp_box mux0 true)) ∧ ∃ rest, c = file_head mux0 ++ rest;
  rs_tracks : Forall2 (settled neg lo c) qs (tracks mux)
}.

Lemma same_mux_head mux : same_mux mux → file_head mux = file_head mux0.
Proof.
  intros (Hfl & Hf & Ht). unfold file_head, ftyp_box, placeholder_box, ftyp_fields, major_brand, is_mov.
  by rewrite Hfl, Hf, (has_avc1_same _ _ Ht).
Qed.

Lemma same_mux_ftyp mux fragmented : same_mux mux → ftyp_box mux fragmented = ftyp_box mux0 fragmented.
Proof.
  intros (Hfl & Hf & Ht). unfold ftyp_box, ftyp_fields, major_brand, is_mov.
  by rewrite Hfl, Hf, (has_avc1_same _ _ Ht).
Qed.

Lemma same_codec_trans ts1 ts2 ts3 :
  Forall2 same_codec ts1 ts2 → Forall2 same_codec ts2 ts3 → Forall2 same_codec ts1 ts3.
Proof.
  intros H1'. revert ts3; induction H1' as [|t1 t2 ts1 ts2 [E1 E2] _ IH]; intros ts3 H2';
    inversion_clear H2' as [|? t3 ? ts3' [E3 E4] Hr]; constructor; [split; congruence|by apply IH].
Qed.

Lemma same_codec_ok qs ts ts' : Forall2 same_codec ts ts' →
  Forall2 (history_ok neg) qs ts → Forall2 (history_ok neg) qs ts'.
Proof.
  intros Hs. revert qs; induction Hs as [|t t' ts ts' [Et _] _ IH]; intros qs Hok; inversion_clear Hok; constructor.
  - unfold history_ok, is_video in *. by rewrite Et.
  - by apply IH.
Qed.

Lemma headed_keeps p mux :
  tracks (headed p mux) = tracks mux ∧ flags (headed p mux) = flags mux ∧ flavor (headed p mux) = flavor mux ∧
  next_frag_pts (headed p mux) = next_frag_pts mux ∧ fragments_written (headed p mux) = fragments_written mux.
Proof. unfold headed. by destruct (fragments_written mux =? 0). Qed.

(** The file starts with the head, once the first flush has written it. *)
Lemma header_covers qs mux c hd : rec_state qs mux c → first_header env (zlen c) mux = Some hd →
  ∃ rest, c ++ hd = file_head mux0 ++ rest.
Proof.
  intros [Hsame _ Hempty Hhead _] Ehd. destruct (Z.eqb_spec (fragments_written mux) 0) as [Ez|Nz].
  - unfold first_header in Ehd. rewrite Ez in Ehd. cbn [Z.eqb] in Ehd.
    destruct (initial_moov env (headed (zlen c) mux)) as [m|]; [|done].
    change (Some (file_head mux ++ m) = Some hd) in Ehd. apply (inj Some) in Ehd. subst hd.
    rewrite (Hempty Ez), (same_mux_head mux Hsame). eauto.
  - destruct (Hhead Nz) as (_ & rest & ->). exists (rest ++ hd). by rewrite <- app_assoc.
Qed.

Lemma header_placeholder qs mux c : rec_state qs mux c → lo < MAX_POS →
  placeholder_offset (headed (zlen c) mux) = zlen (enc (ftyp_box mux0 true)).
Proof.
  intros [Hsame _ Hempty Hhead _] Hlo. unfold headed. destruct (Z.eqb_spec (fragments_written mux) 0) as [Ez|Nz].
  - cbn [placeholder_offset mux_set]. rewrite (Hempty Ez), zlen_nil, Z.add_0_l, (same_mux_ftyp mux) by done.
    apply u64_small. pose proof (zlen_nonneg (enc (ftyp_box mux0 true))).
    assert (zlen (enc (ftyp_box mux0 true)) ≤ lo) by (unfold lo, file_head; len_lia).
    unfold MAX_POS in *. lia.
  - by destruct (Hhead Nz).
Qed.

(** The tracks after a flush of the muxer [m] at [p], the file [c] having grown to
    [c ++ hd] before and holding the fragment after. *)
Lemma flush_tracks qs m c hd :
  let p := zlen (c ++ hd) in
  same_mux m → flush_ok m → Forall2 (history_ok neg) qs (tracks mux0) →
  Forall2 (settled neg lo c) qs (tracks m) → lo ≤ p → p + zlen (fragment p m) < MAX_POS →
  Forall2 (λ ps t, ∃ n gs, history neg ps n gs t ∧ fragment_samples t = [] ∧
      located lo ((c ++ hd) ++ fragment p m) gs ∧ (next_frag_pts m = 0 → n = length (gaps ps)))
    qs (tracks (flushed p m)).
Proof.
  cbv zeta. set (p := zlen (c ++ hd)). intros (Hs1 & Hs2 & Hs3) Hf Hok Hts Hlo Hroom.
  pose proof (flush_analysed m Hf) as (_ & _ & _ & Hpay & _). unfold UINT32_MAX in Hpay.
  set (pre := (c ++ hd) ++ enc (moof_box (analysed m) (moof_len m) p) ++
    be32 (8 + zlen (fragment_payload m)) ++ str "mdat").
  assert ((c ++ hd) ++ fragment p m = pre ++ concat (map run_data (tracks (analysed m)))) as Ec.
  { unfold pre, fragment. rewrite enc_leaf. change (concat (map run_data _)) with (fragment_payload m).
    by rewrite <- !app_assoc. }
  assert (zlen pre = p + moof_len m + 8) as Epre.
  { unfold pre. rewrite !(zlen_app (c ++ hd)), !zlen_app, be32_len. change (zlen (str "mdat")) with 4.
    rewrite (moof_box_len _ (moof_len m) p 0 0). fold (moof_len m). unfold p. rewrite zlen_app. lia. }
  pose proof (zlen_nonneg (enc (moof_box (analysed m) 0 0))) as Hml. fold (moof_len m) in Hml.
  set (inc := mux_set m (u32 (fragments_written m + 1)) (next_frag_pts m) (placeholder_offset m)
    (tracks m) (chapter_track m)).
  change (tracks (flushed p m)) with (written_all (p + moof_len m + 8) (tracks (analysed m))).
  rewrite <- Epre, Ec.
  apply (written_all_history neg lo (λ ps n, next_frag_pts m = 0 → n = length (gaps ps)) c).
  - split; [apply zlen_nonneg|lia].
  - unfold pre. eexists. by rewrite <- app_assoc.
  - rewrite <- Ec, zlen_app. fold p. unfold MAX_POS in Hroom. lia.
  - change (concat (map run_data _)) with (fragment_payload m). lia.
  - change (tracks (analysed m)) with (process_all inc (tracks m) 8).1.
    apply (process_all_history neg lo inc); [unfold neg; by rewrite <- Hs2|done|by eapply same_codec_ok].
Qed.

(** A flush of a recording. *)
Lemma rec_flush qs mux s c :
  rec_state qs mux c → at_end s c → Forall2 (history_ok neg) qs (tracks mux0) → flush_fits mux s →
  (chapter_track mux = None ∨ next_frag_pts mux ≠ 0) →
  ∃ p mux1 s' c', mp4_flush_fragment env mux s = Some (flushed p mux1, s') ∧ at_end s' c' ∧
    rec_state qs (flushed p mux1) c' ∧ fragments_written (flushed p mux1) ≠ 0 ∧
    (next_frag_pts mux = 0 →
      Forall2 (λ ps t, ∃ n gs, history neg ps n gs t ∧ fragment_samples t = [] ∧ located lo c' gs ∧
          n = length (gaps ps))
        qs (tracks (flushed p mux1))).
Proof.
  intros Hst Hat Hok [Hft Hfq Hfc Hff] Hmid. destruct (Hff c Hat) as (hd & Ehd & Hmoof & Hroom).
  destruct (header_covers _ _ _ _ Hst Ehd) as (rest & Erest).
  pose proof (header_placeholder qs mux c Hst) as Hpl. destruct Hst as [Hsame Hcnt _ _ Hts].
  assert (Forall (λ t, fragment_samples t = []) (tracks mux)) as Hpend.
  { eapply Forall2_Forall_r; [exact Hts|]. apply Forall_forall. by intros ps _ t (n & gs & _ & ? & _). }
  assert (flush_ok mux) as Hfok by (by split).
  destruct (headed_keeps (zlen c) mux) as (Et1 & Efl1 & Ev1 & En1 & Ew1).
  rewrite <- (zlen_app c hd) in Hroom. set (p := zlen (c ++ hd)) in *. set (m := headed (zlen c) mux) in *.
  assert (flush_ok m) as Hfm by (unfold m, headed; destruct (fragments_written mux =? 0); by destruct Hfok).
  assert (same_mux m) as Hsm by (destruct Hsame as (? & ? & ?); split; [|split]; by rewrite ?Et1, ?Efl1, ?Ev1).
  pose proof (zlen_nonneg (fragment p m)). pose proof (zlen_nonneg c).
  assert (lo ≤ p) as Hlo by (unfold p; rewrite Erest; unfold lo; len_lia).
  destruct (flush_any_emits (S:=S) env mux (zlen c) hd ltac:(lia) Ehd Hfok Hmoof) as [_ Hrun].
  rewrite <- (zlen_app c hd) in Hrun. fold m p in Hrun.
  destruct (Hrun s c) as (s' & Erun & Hat'); [done|by rewrite app_nil_r| |].
  { rewrite zlen_app, Z.add_assoc, <- zlen_app. exact Hroom. }
  rewrite app_assoc in Hat'.
  pose proof (flush_tracks qs m c hd Hsm Hfm Hok ltac:(by rewrite Et1) Hlo Hroom) as Hfinal.
  assert (fragments_written (flushed p m) = fragments_written mux + 1) as Ew.
  { change (fragments_written (flushed p m)) with (u32 (fragments_written m + 1)).
    rewrite Ew1. apply u32_small. lia. }
  exists p, m, s'. eexists. split; [exact Erun|]. split; [exact Hat'|]. split; [|split; [lia|]].
  - split; [|lia|lia| |].
    + destruct Hsm as (? & ? & Hs). split; [done|]. split; [done|].
      eapply same_codec_trans; [exact Hs|]. by apply flushed_same.
    + intros _. split; [apply Hpl; lia|]. rewrite Erest. eexists. by rewrite <- app_assoc.
    + eapply Forall2_impl; [exact Hfinal|]. intros ps t (n & gs & ? & ? & ? & _). by exists n, gs.
  - rewrite <- En1. intros Hz. eapply Forall2_impl; [exact Hfinal|]. intros ps t (n & gs & ? & ? & ? & Hn).
    exists n, gs. auto.
Qed.

(** Queueing leaves what is in the file. *)
Lemma submit_state qs mux c i t q next :
  rec_state qs mux c → tracks mux !! i = Some t →
  rec_state (alter (λ ps, ps ++ [q]) i qs)
    (mux_set mux (fragments_written mux) next (placeholder_offset mux)
       (<[i := track_insert_packet t q]> (tracks mux)) (chapter_track mux)) c.
Proof.
  intros [(Hs1 & Hs2 & Hs3) Hcnt Hempty Hhead Hts] Hi.
  split; [|done..|].
  - split; [done|]. split; [done|]. cbn [tracks mux_set].
    apply Forall2_same_length_lookup. split; [rewrite length_insert; by eapply Forall2_length|].
    intros j t0 t' H0' H1'. apply list_lookup_insert_Some in H1' as [(<- & <- & _)|(? & H1')].
    + by destruct (Forall2_lookup_lr _ _ _ _ _ _ Hs3 H0' Hi).
    + by eapply Forall2_lookup_lr.
  - cbn [tracks mux_set]. apply Forall2_same_length_lookup.
    split; [rewrite length_alter, length_insert; by eapply Forall2_length|].
    intros j ps t' Hps Ht'. apply list_lookup_insert_Some in Ht' as [(<- & <- & _)|(Hne & Ht')].
    + rewrite list_lookup_alter_eq in Hps. apply fmap_Some in Hps as (ps0 & Hps0 & ->).
      destruct (Forall2_lookup_lr _ _ _ _ _ _ Hts Hps0 Hi) as (n & gs & Hh & Hf & Hl).
      exists n, gs. split; [by apply insert_history|]. by split.
    + rewrite list_lookup_alter_ne in Hps by done. by eapply Forall2_lookup_lr.
Qed.

Lemma history_ok_alter qs i q : Forall2 (history_ok neg) (alter (λ ps, ps ++ [q]) i qs) (tracks mux0) →
  Forall2 (history_ok neg) qs (tracks mux0).
Proof.
  intros HF. apply Forall2_same_length_lookup.
  split; [rewrite <- (length_alter (λ ps, ps ++ [q]) qs i); by eapply Forall2_length|].
  intros j ps t Hps Ht. destruct (decide (i = j)) as [<-|Hne].
  - apply (packets_ok_app neg (is_video t) ps q).
    eapply (Forall2_lookup_lr _ _ _ i (ps ++ [q]) t HF); [|done].
    rewrite list_lookup_alter_eq, Hps. done.
  - eapply (Forall2_lookup_lr _ _ _ j ps t HF); [|done]. by rewrite list_lookup_alter_ne.
Qed.

Lemma find_track_ready mux ts j pkt found ready i :
  find_track mux ts j pkt found ready = (i, true) → ready = true.
Proof.
  revert j found ready; induction ts as [|t ts IH]; intros j found ready; cbn [find_track]; [congruence|].
  intros E. apply IH in E. by destruct ready.
Qed.

Lemma parse_packet_same t t' pkt : same_codec t t' → parse_packet env t' pkt = parse_packet env t pkt.
Proof. intros [_ Hc]. unfold parse_packet. by rewrite Hc. Qed.

(** The state of every recording. *)
Lemma recording_state qs mux s :
  recording qs mux s → Forall2 (history_ok neg) qs (tracks mux0) →
  ∃ c, at_end s c ∧ rec_state qs mux c.
Proof.
  induction 1 as [s Hat Hz Hnew|qs mux s pkt i ready t q mux' s' Hr IH Hfind Hfit Hi Hq Hrun
                 |qs mux s pkt mux' s' Hr IH Hrun]; intros Hok.
  - exists []. split; [done|]. split; [|lia|done|done|].
    + split; [done|]. split; [done|]. clear. induction (tracks mux0); constructor; [by split|done].
    + clear -Hnew. induction Hnew as [|t ts (ty & co & id & e & nu & de & sc & ->) _ IH]; constructor; [|exact IH].
      exists 0%nat, []. split; [apply new_history|]. by split; [|constructor].
  - apply history_ok_alter in Hok. destruct (IH Hok) as (c & Hat & Hst).
    unfold mp4_mux_submit_packet in Hrun. rewrite Hfind in Hrun.
    destruct ready.
    + destruct (rec_flush qs mux s c Hst Hat Hok (Hfit eq_refl)) as (p & mux1 & s1 & c1 & Erun & Hat1 & Hst1 & _).
      { right. apply find_track_ready in Hfind. lia. }
      unfold bind at 1 in Hrun. rewrite Erun in Hrun.
      destruct (tracks (flushed p mux1) !! i) as [t1|] eqn:Ei; [|done].
      assert (same_codec t t1) as Hsc.
      { destruct Hst as [(_ & _ & Hs) _ _ _ _], Hst1 as [(_ & _ & Hs') _ _ _ _].
        destruct (lookup_lt_is_Some_2 (tracks mux0) i) as [t0 E0].
        { rewrite (Forall2_length _ _ _ Hs). by eapply lookup_lt_Some. }
        destruct (Forall2_lookup_lr _ _ _ _ _ _ Hs E0 Hi), (Forall2_lookup_lr _ _ _ _ _ _ Hs' E0 Ei).
        split; congruence. }
      unfold bind, deref in Hrun. rewrite (parse_packet_same t t1) in Hrun by done. rewrite Hq in Hrun.
      unfold ret in Hrun. injection Hrun as <- <-. exists c1. split; [done|]. by apply (submit_state qs (flushed p mux1) c1 i t1 q).
    + unfold bind at 1, ret at 1 in Hrun. rewrite Hi in Hrun. unfold bind, deref in Hrun. rewrite Hq in Hrun.
      unfold ret in Hrun. injection Hrun as <- <-. exists c. split; [done|]. by apply submit_state.
  - destruct (IH Hok) as (c & Hat & Hst). exists c. unfold mp4_mux_submit_packet in Hrun.
    destruct (find_track _ _ _ _ _ _) as [[i|] ready].
    + exfalso. revert Hrun. unfold bind, deref, ret. repeat case_match; congruence.
    + unfold ret in Hrun. by injection Hrun as <- <-.
Qed.

(** C1: Nothing is lost or misplaced in a recording. Whatever sequence of packets was
    submitted, with the fragments that were flushed on the way, finalising yields a
    file made of [ftyp], one [mdat] and the final [moov], in which every track finds
    all of its queued packets but the last one (whose duration is unknown): its
    sample sizes are theirs, and the chunks it lists hold their data, in order, at
    the offsets it lists. *)
Theorem recording_complete qs mux s :
  recording qs mux s → Forall2 (history_ok neg) qs (tracks mux0) →
  chapter_track mux = None → MP4_SKIP_FINALISATION (flags mux0) = false →
  flush_fits (draining mux) s →
  (∀ m1 s1, mp4_flush_fragment env (draining mux) s = Some (m1, s1) → moov_ok env m1 false) →
  ∃ m1 moov data,
    let file := enc (ftyp_box m1 false) ++ media_data data ++ enc moov in
    skel_of moov = moov_skel m1 false ∧
    (zlen file < MAX_POS →
      ∃ s' q, mp4_mux_finalise env mux s = Some ((true, m1), s') ∧ at_pos s' file q) ∧
    Forall2 (λ ps t,
      sample_sizes t = map pkt_size (take (length ps - 1) ps) ∧
      ∃ groups, chunks t = map chunk_of groups ∧
        concat (map snd groups) = take (length ps - 1) ps ∧
        Forall (λ g, sub g.1 (zlen (data_of g.2)) file = data_of g.2) groups) qs (tracks m1).
Proof.
  intros Hr Hok Hch Hskip Hfits Hmoov. destruct (recording_state qs mux s Hr Hok) as (c & Hat & Hst).
  assert (rec_state qs (draining mux) c) as Hst' by (by destruct Hst).
  destruct (rec_flush qs (draining mux) s c Hst' Hat Hok Hfits) as (p & mux1 & s1 & c1 & Erun & Hat1 & Hst1 & Hw & Hall);
    [by left|].
  set (m1 := flushed p mux1) in *. specialize (Hmoov _ _ Erun). specialize (Hall eq_refl).
  destruct Hst1 as [Hsame _ _ Hhead _]. destruct (Hhead Hw) as (Hpl & data & ->).
  rewrite <- (same_mux_head m1) in * by done. rewrite <- (same_mux_ftyp m1) in Hpl by done.
  pose proof Hsame as (_ & Hfl & _).
  destruct (finalise_after_flush env mux s m1 s1 data Erun Hat1 Hpl ltac:(by rewrite Hfl) Hmoov) as (moov & Hsk & Hfin).
  exists m1, moov, data. cbv zeta. split; [done|]. destruct (media_data_split data) as (h & Hh & Emd).
  split.
  - intros Hmax. apply Hfin. rewrite !zlen_app, file_head_len. rewrite Emd, !zlen_app in Hmax. lia.
  - eapply Forall2_impl; [exact Hall|]. intros ps t (n & gs & Hhist & Hf & Hl & ->).
    rewrite gaps_length in Hhist. destruct Hhist as [_ _ _ _ _ _ Hsz _ _ _ _ Hcs Hgr].
    rewrite Hf in Hgr. cbn [length] in Hgr. rewrite Nat.sub_0_r in Hgr.
    split; [done|]. exists gs. split; [done|]. split; [done|].
    assert (located lo ((enc (ftyp_box m1 false) ++ h) ++ data ++ enc moov) gs) as Hl'.
    { rewrite app_assoc. apply located_app; [apply zlen_nonneg|]. eapply located_head; [|  |exact Hl].
      - unfold lo. by rewrite (same_mux_head m1).
      - rewrite zlen_app, Hh, <- file_head_len. unfold lo. by rewrite (same_mux_head m1). }
    rewrite Emd. rewrite <- !app_assoc in *. eapply Forall_impl; [exact Hl'|]. by intros g (_ & _ & ?).
Qed.
End recordings.

(** ** Examples *)

(** Three audio packets, recorded to an empty file. *)
Definition ex_start : mp4_mux :=
  mk_mux FLAVOR_MP4 (mk_flags false false false false) 0 0 0 0 1
    [new_track TRACK_AUDIO CODEC_AAC 1 (Some ex_audio_encoder) 1 48000 48000 0] None.
Definition ex_submitted : list encoder_packet :=
  [ex_audio_pkt [10; 11] 0; ex_audio_pkt [12] 1024; ex_audio_pkt [13; 14; 15] 2048].
Definition ex_recorded : mp4_mux :=
  mk_mux FLAVOR_MP4 (mk_flags false false false false) 0 0 0 0 1 [ex_recording_track] None.

Lemma ex_recording_holds : recording (S:=FILE) ex_env ex_start [ex_submitted] ex_recorded file_output_serializer_init.
Proof.
  assert (∀ ps t p, recording (S:=FILE) ex_env ex_start [ps] (mk_mux FLAVOR_MP4 (mk_flags false false false false)
      0 0 0 0 1 [t] None) file_output_serializer_init →
    trk_encoder t = Some ex_audio_encoder → pkt_type p = OBS_ENCODER_AUDIO → pkt_encoder p = 2 →
    recording (S:=FILE) ex_env ex_start [ps ++ [p]] (mk_mux FLAVOR_MP4 (mk_flags false false false false)
      0 0 0 0 1 [track_insert_packet t p] None) file_output_serializer_init) as Hstep.
  { intros ps t p Hr He Ht Hp.
    eapply (rec_submit ex_env ex_start [ps] _ _ p 0 false t p); [exact Hr| |done|done|unfold parse_packet; by rewrite Ht|].
    - cbn [find_track tracks]. rewrite He, Hp. done.
    - unfold mp4_mux_submit_packet. cbn [find_track tracks]. rewrite He, Hp.
      unfold bind, ret, deref. cbn. rewrite Ht. unfold parse_packet. by rewrite Ht. }
  change [ex_submitted] with [(([] ++ [ex_audio_pkt [10; 11] 0]) ++ [ex_audio_pkt [12] 1024]) ++ [ex_audio_pkt [13; 14; 15] 2048]].
  unfold ex_recorded, ex_recording_track. cbn [foldl]. do 3 (apply Hstep; [|done..]).
  apply (rec_start ex_env ex_start); [by split|done|]. constructor; [|constructor]. do 7 eexists. done.
Qed.

Definition ex_final : mp4_mux := Eval vm_compute in
  match mp4_flush_fragment ex_env (draining ex_recorded) file_output_serializer_init with
  | Some (m, _) => m
  | None => ex_recorded
  end.

Lemma ex_final_ok : moov_ok ex_env ex_final false.
Proof.
  split; [|done..]. constructor; [|constructor]. split; [by split| | |intros _; by eexists].
  - split; [done| |done]. intros _. by eexists.
  - intros _ _. split; [all_bytes|by vm_compute..].
Qed.

Lemma ex_fits : flush_fits (S:=FILE) ex_env (draining ex_recorded) file_output_serializer_init.
Proof.
  split; [by repeat constructor|done|done|]. intros c [<- _]. eexists. split; [vm_compute; reflexivity|].
  split; vm_compute; reflexivity.
Qed.

Lemma recording_complete_witness :
  ∃ m1 moov data,
    let file := enc (ftyp_box m1 false) ++ media_data data ++ enc moov in
    skel_of moov = moov_skel m1 false ∧
    (zlen file < MAX_POS →
      ∃ s' q, mp4_mux_finalise ex_env ex_recorded file_output_serializer_init = Some ((true, m1), s') ∧
              at_pos s' file q) ∧
    Forall2 (λ ps t,
      sample_sizes t = map pkt_size (take (length ps - 1) ps) ∧
      ∃ groups, chunks t = map chunk_of groups ∧
        concat (map snd groups) = take (length ps - 1) ps ∧
        Forall (λ g, sub g.1 (zlen (data_of g.2)) file = data_of g.2) groups) [ex_submitted] (tracks m1).
Proof.
  refine (recording_complete ex_env ex_start [ex_submitted] ex_recorded file_output_serializer_init
    ex_recording_holds _ eq_refl eq_refl ex_fits _).
  - constructor; [|constructor]. split; [done|all_bytes..].
  - intros m1 s1 E. assert (fst <$> mp4_flush_fragment ex_env (draining ex_recorded) file_output_serializer_init = Some ex_final) as Ef
      by (vm_compute; reflexivity).
    rewrite E in Ef. assert (m1 = ex_final) as -> by (by injection Ef). apply ex_final_ok.
Defined.
