(* ===== verification/Mp4Output.v ===== *)
(** * The MP4 output: plugins/obs-outputs/mp4-output.c

    The state of the output, the handlers libobs and the user call, the splitting of files.
    The target of the serializer is any [SerializerOps]; opening and closing it, the
    settings, the clock and the checks of libobs before a start are given by an environment
    or by arguments. A null or freed muxer that is used is [None]. *)

From S2P Require Import Prelude Util Serializer FileSerializer Encoder OptsParser FileName Mp4Types Mp4Box Mp4Header Mp4Entry Mp4Table Mp4Moov Mp4Frag Mp4Mux.

Local Open Scope Z_scope.

Definition OBS_OUTPUT_ERROR : Z := -4.
Definition OBS_OUTPUT_ENCODE_ERROR : Z := -8.

(** ** The output *)

Record chapter := mk_chapter { chap_ts : Z; chap_name : bytes }.

(** The settings the output reads. *)
Record mp4_settings := mk_mp4_settings {
  set_max_time_sec : Z;
  set_max_size_mb : Z;
  set_split_file : bool;
  set_allow_overwrite : bool;
  set_path : bytes;
  set_directory : bytes;
  set_format : bytes;
  set_extension : bytes;
  set_allow_spaces : bool;
  set_muxer_settings : bytes
}.

(** [open_file n path buffer_size chunk_size] is [buffered_file_serializer_init] for the
    n-th file, [files n] the paths that exist then, [name_at n] what its name is made of. *)
Record mp4_output_env (S : Type) := mk_mp4_output_env {
  mux_env : mp4_env;
  out_video : list (option obs_encoder);
  out_audio : list (option obs_encoder);
  out_settings : mp4_settings;
  unnamed_chapter : bytes;
  name_at : nat → name_env;
  files : nat → list bytes;
  open_file : nat → bytes → Z → Z → option S;
  time_at : nat → Z
}.
Arguments mux_env {S}.
Arguments out_video {S}.
Arguments out_audio {S}.
Arguments out_settings {S}.
Arguments unnamed_chapter {S}.
Arguments name_at {S}.
Arguments files {S}.
Arguments open_file {S}.
Arguments time_at {S}.

(** The callbacks registered with libobs; [with_out] is that the parameter is the output. *)
Inductive out_callback := CB_BPM | CB_CHAPTERS (with_out : bool).

#[global] Instance out_callback_eq_dec : EqDecision out_callback.
Proof. solve_decision. Defined.

(** What the output tells libobs. *)
Inductive out_call := CALL_BEGIN | CALL_END | CALL_SIGNAL_STOP (code : Z) | CALL_FILE_CHANGED (next_file : bytes).

(** What the settings say. *)
Record file_conf := mk_file_conf {
  buffer_size : Z;
  chunk_size : Z;
  enable_bpm : bool;
  allow_overwrite : bool;
  mo_flags : mp4_mux_flags;
  muxer_flavor : mp4_flavor;
  split_file_enabled : bool;
  max_size : Z;
  max_time : Z
}.

(** A file that has been closed: its path, the packets submitted to its muxer, its data. *)
Record closed_file (S : Type) := mk_closed { closed_path : bytes; closed_packets : list encoder_packet; closed_data : S }.
Arguments mk_closed {S}.
Arguments closed_path {S}.
Arguments closed_packets {S}.
Arguments closed_data {S}.

(** The files; [opened] counts them, [submitted] are the packets given to [muxer]. *)
Record file_state (S : Type) := mk_file_state {
  path : bytes;
  serializer : option S;
  muxer : option mp4_mux;
  opened : nat;
  submitted : list encoder_packet;
  closed : list (closed_file S)
}.
Arguments mk_file_state {S}.
Arguments path {S}.
Arguments serializer {S}.
Arguments muxer {S}.
Arguments opened {S}.
Arguments submitted {S}.
Arguments closed {S}.

Record split_state := mk_split_state {
  split_file_ready : bool;
  manual_split : bool;
  cur_size : Z;
  start_time : Z;
  split_buffer : list encoder_packet
}.

Record mp4_output (S : Type) := mk_mp4_output {
  mo_active : bool;
  mo_stopping : bool;
  mo_stop_ts : Z;
  total_bytes : Z;
  chapter_ctr : Z;
  chapters : list chapter;
  out_conf : file_conf;
  out_files : file_state S;
  out_split : split_state;
  callbacks : list out_callback;
  out_calls : list out_call
}.
Arguments mk_mp4_output {S}.
Arguments mo_active {S}.
Arguments mo_stopping {S}.
Arguments mo_stop_ts {S}.
Arguments total_bytes {S}.
Arguments chapter_ctr {S}.
Arguments chapters {S}.
Arguments out_conf {S}.
Arguments out_files {S}.
Arguments out_split {S}.
Arguments callbacks {S}.
Arguments out_calls {S}.

Coercion out_conf : mp4_output >-> file_conf.
Coercion out_files : mp4_output >-> file_state.
Coercion out_split : mp4_output >-> split_state.

(** Updates of one field, or of one part. *)
Section updates.
Context {S : Type}.
Implicit Types st : mp4_output S.

Definition set_conf st x := mk_mp4_output (mo_active st) (mo_stopping st) (mo_stop_ts st) (total_bytes st) (chapter_ctr st)
  (chapters st) x (out_files st) (out_split st) (callbacks st) (out_calls st).
Definition set_files st (x : file_state S) := mk_mp4_output (mo_active st) (mo_stopping st) (mo_stop_ts st) (total_bytes st) (chapter_ctr st)
  (chapters st) (out_conf st) x (out_split st) (callbacks st) (out_calls st).
Definition set_split st x := mk_mp4_output (mo_active st) (mo_stopping st) (mo_stop_ts st) (total_bytes st) (chapter_ctr st)
  (chapters st) (out_conf st) (out_files st) x (callbacks st) (out_calls st).
Definition set_active st x := mk_mp4_output x (mo_stopping st) (mo_stop_ts st) (total_bytes st) (chapter_ctr st)
  (chapters st) (out_conf st) (out_files st) (out_split st) (callbacks st) (out_calls st).
Definition set_stop st x ts := mk_mp4_output (mo_active st) x ts (total_bytes st) (chapter_ctr st)
  (chapters st) (out_conf st) (out_files st) (out_split st) (callbacks st) (out_calls st).
Definition set_total st x := mk_mp4_output (mo_active st) (mo_stopping st) (mo_stop_ts st) x (chapter_ctr st)
  (chapters st) (out_conf st) (out_files st) (out_split st) (callbacks st) (out_calls st).
Definition set_chapters st ctr x := mk_mp4_output (mo_active st) (mo_stopping st) (mo_stop_ts st) (total_bytes st) ctr
  x (out_conf st) (out_files st) (out_split st) (callbacks st) (out_calls st).
Definition set_callbacks st x := mk_mp4_output (mo_active st) (mo_stopping st) (mo_stop_ts st) (total_bytes st) (chapter_ctr st)
  (chapters st) (out_conf st) (out_files st) (out_split st) x (out_calls st).
Definition call st x := mk_mp4_output (mo_active st) (mo_stopping st) (mo_stop_ts st) (total_bytes st) (chapter_ctr st)
  (chapters st) (out_conf st) (out_files st) (out_split st) (callbacks st) (out_calls st ++ [x]).

Definition set_path_file st x := let f := out_files st in
  set_files st (mk_file_state x (serializer f) (muxer f) (opened f) (submitted f) (closed f)).
Definition set_muxer st x := let f := out_files st in
  set_files st (mk_file_state (path f) (serializer f) x (opened f) (submitted f) (closed f)).
Definition set_serializer st (x : option S) := let f := out_files st in
  set_files st (mk_file_state (path f) x (muxer f) (opened f) (submitted f) (closed f)).
Definition set_manual_split st x := let s := out_split st in
  set_split st (mk_split_state (split_file_ready s) x (cur_size s) (start_time s) (split_buffer s)).
Definition set_ready st x := let s := out_split st in
  set_split st (mk_split_state x (manual_split s) (cur_size s) (start_time s) (split_buffer s)).
Definition set_cur_size st x := let s := out_split st in
  set_split st (mk_split_state (split_file_ready s) (manual_split s) x (start_time s) (split_buffer s)).
Definition set_start_time st x := let s := out_split st in
  set_split st (mk_split_state (split_file_ready s) (manual_split s) (cur_size s) x (split_buffer s)).
Definition set_split_buffer st x := let s := out_split st in
  set_split st (mk_split_state (split_file_ready s) (manual_split s) (cur_size s) (start_time s) x).
End updates.

(** ** Options *)

Definition apply_flag (value : bytes) : option bool := v ← atoi value; Some (negb (v =? 0)).

(** The options read so far: the flags, the sizes, whether BPM is enabled. *)
Definition apply_option (acc : mp4_mux_flags * (Z * Z) * bool) (o : obs_option) : option (mp4_mux_flags * (Z * Z) * bool) :=
  let '(fl, (bs, cs), bpm) := acc in
  let '(mk_option name value) := o in
  if bool_decide (name = str "skip_soft_remux") then
    v ← apply_flag value;
    Some (mk_flags (MP4_USE_MDTA_KEY_VALUE fl) (MP4_WRITE_ENCODER_INFO fl) v (MP4_USE_NEGATIVE_CTS fl), (bs, cs), bpm)
  else if bool_decide (name = str "write_encoder_info") then
    v ← apply_flag value;
    Some (mk_flags (MP4_USE_MDTA_KEY_VALUE fl) v (MP4_SKIP_FINALISATION fl) (MP4_USE_NEGATIVE_CTS fl), (bs, cs), bpm)
  else if bool_decide (name = str "use_metadata_tags") then
    v ← apply_flag value;
    Some (mk_flags v (MP4_WRITE_ENCODER_INFO fl) (MP4_SKIP_FINALISATION fl) (MP4_USE_NEGATIVE_CTS fl), (bs, cs), bpm)
  else if bool_decide (name = str "use_negative_cts") then
    v ← apply_flag value;
    Some (mk_flags (MP4_USE_MDTA_KEY_VALUE fl) (MP4_WRITE_ENCODER_INFO fl) (MP4_SKIP_FINALISATION fl) v, (bs, cs), bpm)
  else if bool_decide (name = str "buffer_size") then Some (fl, (u64 (strtoull value * 1048576), cs), bpm)
  else if bool_decide (name = str "chunk_size") then Some (fl, (bs, u64 (strtoull value * 1048576)), bpm)
  else if bool_decide (name = str "bpm") then v ← atoi value; Some (fl, (bs, cs), negb (v =? 0))
  else Some acc.

(** What the options leave alone stays as the last start set it. *)
Definition parse_custom_options (conf : file_conf) (opts_str : bytes) : option file_conf :=
  '(fl, (bs, cs), bpm) ← foldl (λ acc o, acc ← acc; apply_option acc o)
    (Some (mk_flags false false false true, (buffer_size conf, chunk_size conf), enable_bpm conf))
    (obs_parse_options (Some opts_str)).1;
  Some (mk_file_conf bs cs bpm (allow_overwrite conf) fl (muxer_flavor conf) (split_file_enabled conf)
    (max_size conf) (max_time conf)).

(** ** The handlers *)

Section output.
Context {S : Type} `{SerializerOps S} (env : mp4_output_env S).
Implicit Types st : mp4_output S.

(** [bzalloc] *)
Definition mp4_output_create_internal (flavor : mp4_flavor) : mp4_output S :=
  mk_mp4_output false false 0 0 0 [] (mk_file_conf 0 0 false false (mk_flags false false false false) flavor false 0 0)
    (mk_file_state [] None None 0 [] []) (mk_split_state false false 0 0 []) [] [].

Definition mp4_clear_chapters st : mp4_output S := set_chapters st 0 [].

(** A call of the muxer on the serializer. *)
Definition on_muxer {A} st (m : mp4_mux → W S (A * mp4_mux)) : option (A * mp4_output S) :=
  mux ← muxer st; s ← serializer st;
  '((a, mux), s) ← m mux s;
  Some (a, set_serializer (set_muxer st (Some mux)) (Some s)).

(** The chapters that are due are added at the time of the packet. *)
Fixpoint add_due_chapters (st : mp4_output S) (queue : list chapter) (chap_dts_usec cts : Z) : option (mp4_output S) :=
  match queue with
  | [] => Some (set_chapters st (chapter_ctr st) [])
  | chap :: queue' =>
      if cts <? chap_ts chap then Some (set_chapters st (chapter_ctr st) queue) else
      mux ← muxer st;
      '(_, mux) ← mp4_mux_add_chapter (mux_env env) mux chap_dts_usec (chap_name chap);
      add_due_chapters (set_muxer st (Some mux)) queue' chap_dts_usec cts
  end.

(** [cts] is that of the packet time, [None] when there is none. *)
Definition mp4_pkt_callback st (pkt : encoder_packet) (cts : option Z) : option (mp4_output S) :=
  match cts with
  | None => Some st
  | Some cts =>
      if negb (bool_decide (pkt_type pkt = OBS_ENCODER_VIDEO)) || negb (pkt_track_idx pkt =? 0) then Some st
      else add_due_chapters st (chapters st) (i64 (packet_pts_usec pkt - start_time st)) cts
  end.

Definition mp4_add_chapter_proc st (chapter_name : bytes) (video_frame_time : Z) : mp4_output S :=
  let name := match chapter_name with
              | [] => unnamed_chapter env ++ str " " ++ decimal (u64 (chapter_ctr st + 1))
              | _ => chapter_name
              end in
  set_chapters st (u64 (chapter_ctr st + 1)) (chapters st ++ [mk_chapter video_frame_time name]).

Definition split_file_proc st : mp4_output S := if split_file_enabled st then set_manual_split st true else st.

(** The name of the next file. *)
Definition next_path (n : nat) (overwrite : bool) : option bytes :=
  let s := out_settings env in
  filename ← os_generate_formatted_filename (name_at env n) (Some (set_extension s)) (set_allow_spaces s) (set_format s);
  generate_filename (λ p, bool_decide (p ∈ files env n)) (Datatypes.S (length (files env n))) (set_directory s) filename
    (set_allow_spaces s) overwrite.

(** [buffered_file_serializer_init] and [mp4_mux_create]. *)
Definition open_output st : option (mp4_output S * bool) :=
  let n := opened st in
  match open_file env n (path st) (buffer_size st) (chunk_size st) with
  | None => Some (set_files st (mk_file_state (path st) None (muxer st) (Datatypes.S n) (submitted st) (closed st)), false)
  | Some s =>
      mux ← mp4_mux_create (out_video env) (out_audio env) (time_at env n) (mo_flags st) (muxer_flavor st);
      Some (set_files st (mk_file_state (path st) (Some s) (Some mux) (Datatypes.S n) [] (closed st)), true)
  end.

(** [can_begin] and [initialized] are what libobs says. *)
Definition mp4_output_start st (can_begin initialized : bool) : option (mp4_output S * bool) :=
  if negb can_begin then Some (st, false) else
  if negb initialized then Some (st, false) else
  let st := set_stop st false (mo_stop_ts st) in
  let s := out_settings env in
  let st := set_conf st (mk_file_conf (buffer_size st) (chunk_size st) (enable_bpm st) (set_allow_overwrite s) (mo_flags st)
    (muxer_flavor st) (set_split_file s) (u64 (i64 (set_max_size_mb s * 1024 * 1024))) (i64 (set_max_time_sec s * 1000000))) in
  let st := set_start_time (set_cur_size st 0) 0 in
  st ← (if is_empty (set_path s) then p ← next_path (opened st) (allow_overwrite st); Some (set_path_file st p)
        else Some (set_path_file st (set_path s)));
  conf ← parse_custom_options (out_conf st) (set_muxer_settings s);
  let st := set_conf st conf in
  let st := if enable_bpm st then set_callbacks st (callbacks st ++ [CB_BPM]) else st in
  '(st, ok) ← open_output st;
  if negb ok then Some (st, false) else
  let st := set_callbacks st (callbacks st ++ [CB_CHAPTERS true]) in
  Some (call (set_active st true) CALL_BEGIN, true).

Definition should_split st (packet : encoder_packet) : bool :=
  if negb (bool_decide (pkt_type packet = OBS_ENCODER_VIDEO)) || (0 <? pkt_track_idx packet) then false else
  if negb (pkt_keyframe packet) then false else
  if manual_split st then true else
  if (0 <? max_size st) && (max_size st <=? u64 (cur_size st + pkt_size packet)) then true else
  if (0 <? max_time st) && (max_time st <=? i64 (pkt_dts_usec packet - start_time st)) then true else
  false.

(** The file is finalised and closed, the muxer destroyed. *)
Definition close_output st : option (mp4_output S) :=
  '(_, st) ← on_muxer st (mp4_mux_finalise (mux_env env));
  s ← serializer st;
  Some (set_files st (mk_file_state (path st) None None (opened st) []
    (closed st ++ [mk_closed (path st) (submitted st) s]))).

Definition change_file st (pkt : encoder_packet) : option (mp4_output S * bool) :=
  st ← close_output st;
  let st := mp4_clear_chapters st in
  p ← next_path (opened st) (allow_overwrite st);
  let st := set_path_file st p in
  '(st, ok) ← open_output st;
  if negb ok then Some (st, false) else
  let st := call st (CALL_FILE_CHANGED (path st)) in
  Some (set_start_time (set_cur_size st 0) (pkt_dts_usec pkt), true).

Definition mp4_output_stop st (ts : Z) : mp4_output S := set_stop st true (u64 ts / 1000).

(** [obs_output_remove_packet_callback]: the first one that is the same, parameter included. *)
Fixpoint remove_callback (cb : out_callback) (l : list out_callback) : list out_callback :=
  match l with [] => [] | x :: l => if bool_decide (x = cb) then l else x :: remove_callback cb l end.

Definition mp4_output_actual_stop st (code : Z) : option (mp4_output S) :=
  let st := set_active st false in
  let st := set_callbacks st (remove_callback (CB_CHAPTERS false) (callbacks st)) in
  let closing (st : mp4_output S) :=
    let st := if enable_bpm st then set_callbacks st (remove_callback CB_BPM (callbacks st)) else st in
    let st := call st (if negb (code =? 0) then CALL_SIGNAL_STOP code else CALL_END) in
    mp4_clear_chapters st in
  st ← close_output st;
  Some (closing st).

Definition push_back_packet st (packet : encoder_packet) : mp4_output S :=
  set_split_buffer st (split_buffer st ++ [packet]).

Definition submit_packet st (pkt : encoder_packet) : option (mp4_output S) :=
  let st := set_total st (u64 (total_bytes st + pkt_size pkt)) in
  let st := set_cur_size st (u64 (cur_size st + pkt_size pkt)) in
  '(_, st) ← on_muxer st (λ mux, mp4_mux_submit_packet (mux_env env) mux pkt);
  let f := out_files st in
  Some (set_files st (mk_file_state (path f) (serializer f) (muxer f) (opened f) (submitted f ++ [pkt]) (closed f))).

Fixpoint submit_packets (st : mp4_output S) (pkts : list encoder_packet) : option (mp4_output S) :=
  match pkts with
  | [] => Some st
  | pkt :: pkts => st ← submit_packet st pkt; submit_packets st pkts
  end.

(** What the splitting does with a packet: it keeps it, it fails to open a file, or the
    packet is to be submitted. *)
Inductive split_result := SPLIT_KEPT | SPLIT_FAILED | SPLIT_SUBMIT.

Definition split_packet st (packet : encoder_packet) : option (mp4_output S * split_result) :=
  if negb (split_file_enabled st) then Some (st, SPLIT_SUBMIT) else
  match split_buffer st with
  | first_pkt :: _ =>
      if packet_pts_usec first_pkt <=? packet_pts_usec packet then
        if negb (bool_decide (pkt_type packet = OBS_ENCODER_AUDIO)) then Some (push_back_packet st packet, SPLIT_KEPT) else
        '(st, ok) ← change_file st first_pkt;
        if (ok : bool) then Some (set_ready st true, SPLIT_SUBMIT) else Some (st, SPLIT_FAILED)
      else Some (st, SPLIT_SUBMIT)
  | [] => if should_split st packet then Some (push_back_packet st packet, SPLIT_KEPT) else Some (st, SPLIT_SUBMIT)
  end.

(** The packets kept for the new file. *)
Definition flush_split_buffer st : option (mp4_output S) :=
  if split_file_ready st then
    st ← submit_packets st (split_buffer st);
    Some (set_manual_split (set_ready (set_split_buffer st []) false) false)
  else Some st.

(** A null packet is an encoder that failed. *)
Definition mp4_output_packet st (packet : option encoder_packet) : option (mp4_output S) :=
  if negb (mo_active st) then Some st else
  match packet with
  | None => mp4_output_actual_stop st OBS_OUTPUT_ENCODE_ERROR
  | Some packet =>
      if mo_stopping st && (i64 (mo_stop_ts st) <=? pkt_sys_dts_usec packet) then mp4_output_actual_stop st 0 else
      '(st, r) ← split_packet st packet;
      match r with
      | SPLIT_KEPT => Some st
      | SPLIT_FAILED => mp4_output_actual_stop st OBS_OUTPUT_ERROR
      | SPLIT_SUBMIT =>
          st ← flush_split_buffer st;
          st ← submit_packet st packet;
          s ← serializer st;
          if op_get_pos s =? -1 then mp4_output_actual_stop st OBS_OUTPUT_ERROR else Some st
      end
  end.

Definition mp4_output_total_bytes st : Z := total_bytes st.

(** ** Events *)

(** [OUT_VIDEO_TIME] is the call of the packet callbacks. *)
Inductive mp4_out_event :=
  | OUT_START (can_begin initialized : bool)
  | OUT_STOP (ts : Z)
  | OUT_PACKET_TIME (packet : encoder_packet) (cts : option Z)
  | OUT_PACKET (packet : option encoder_packet)
  | OUT_CHAPTER (name : bytes) (video_frame_time : Z)
  | OUT_SPLIT.

Definition run_callback st (packet : encoder_packet) (cts : option Z) (cb : out_callback) : option (mp4_output S) :=
  match cb with CB_CHAPTERS true => mp4_pkt_callback st packet cts | _ => Some st end.

(** libobs does not let an output start that captures data. *)
Definition mp4_out_step st (ev : mp4_out_event) : option (mp4_output S) :=
  match ev with
  | OUT_START can_begin initialized =>
      if mo_active st && can_begin then None else fst <$> mp4_output_start st can_begin initialized
  | OUT_STOP ts => Some (mp4_output_stop st ts)
  | OUT_PACKET_TIME packet cts => foldl (λ acc cb, st ← acc; run_callback st packet cts cb) (Some st) (callbacks st)
  | OUT_PACKET packet => mp4_output_packet st packet
  | OUT_CHAPTER name video_frame_time => Some (mp4_add_chapter_proc st name video_frame_time)
  | OUT_SPLIT => Some (split_file_proc st)
  end.

Fixpoint mp4_out_run (st : mp4_output S) (evs : list mp4_out_event) : option (mp4_output S) :=
  match evs with
  | [] => Some st
  | ev :: evs => st ← mp4_out_step st ev; mp4_out_run st evs
  end.
End output.
