(* ===== verification/Mp4Split.v ===== *)
(** * The files of a recording: plugins/obs-outputs/mp4-output.c

    What the splitting of files does to the packets. The output is first shown to implement
    a pure machine, [cutter], that only has the packets of the files and those kept for the
    next one; the theorems are proved of that. *)

From S2P Require Import Prelude Util Serializer FileSerializer Encoder OptsParser FileName Mp4Types Mp4Box Mp4Header Mp4Entry Mp4Table Mp4Moov Mp4Frag Mp4Mux Mp4Output.

Local Open Scope Z_scope.

(** ** The cutter *)

(** The packets of the files before, of the current one, and those kept. *)
Record cutter := mk_cutter {
  c_files : list (list encoder_packet);
  c_cur : list encoder_packet;
  c_kept : list encoder_packet;
  c_size : Z;
  c_start : Z;
  c_manual : bool
}.

Definition is_audio_pkt (p : encoder_packet) : bool := bool_decide (pkt_type p = OBS_ENCODER_AUDIO).

(** A keyframe of the first video track. *)
Definition split_point (p : encoder_packet) : bool :=
  bool_decide (pkt_type p = OBS_ENCODER_VIDEO) && negb (0 <? pkt_track_idx p) && pkt_keyframe p.

(** The limits at a packet. *)
Definition over_size (conf : file_conf) (size : Z) (p : encoder_packet) : bool :=
  (0 <? max_size conf) && (max_size conf <=? u64 (size + pkt_size p)).
Definition over_time (conf : file_conf) (start : Z) (p : encoder_packet) : bool :=
  (0 <? max_time conf) && (max_time conf <=? i64 (pkt_dts_usec p - start)).

Definition add_size (size : Z) (p : encoder_packet) : Z := u64 (size + pkt_size p).

Definition put_packet (c : cutter) (p : encoder_packet) : cutter :=
  mk_cutter (c_files c) (c_cur c ++ [p]) (c_kept c) (add_size (c_size c) p) (c_start c) (c_manual c).
Definition keep_packet (c : cutter) (p : encoder_packet) : cutter :=
  mk_cutter (c_files c) (c_cur c) (c_kept c ++ [p]) (c_size c) (c_start c) (c_manual c).
Definition next_file (c : cutter) (k : encoder_packet) : cutter :=
  mk_cutter (c_files c ++ [c_cur c]) (c_kept c) [] (foldl add_size 0 (c_kept c)) (pkt_dts_usec k) false.
Definition finish (c : cutter) : cutter :=
  mk_cutter (c_files c ++ [c_cur c]) [] (c_kept c) (c_size c) (c_start c) (c_manual c).

Definition cut (conf : file_conf) (c : cutter) (p : encoder_packet) : cutter :=
  if negb (split_file_enabled conf) then put_packet c p else
  match c_kept c with
  | k :: _ =>
      if packet_pts_usec k <=? packet_pts_usec p
      then if is_audio_pkt p then put_packet (next_file c k) p else keep_packet c p
      else put_packet c p
  | [] =>
      if split_point p && (c_manual c || over_size conf (c_size c) p || over_time conf (c_start c) p)
      then keep_packet c p else put_packet c p
  end.

(** ** The output implements it *)

Section output.
Context {S : Type} `{SerializerOps S} (env : mp4_output_env S).
Implicit Types st : mp4_output S.

Definition cutter_of st : cutter :=
  mk_cutter (map closed_packets (closed st)) (submitted st) (split_buffer st) (cur_size st) (start_time st) (manual_split st).

(** What a packet does not change. *)
Definition same_session st st' : Prop := out_conf st' = out_conf st ∧ mo_active st' = mo_active st ∧
  mo_stopping st' = mo_stopping st ∧ mo_stop_ts st' = mo_stop_ts st.

Lemma on_muxer_files {A} st (m : mp4_mux → W S (A * mp4_mux)) a st' : on_muxer st m = Some (a, st') →
  same_session st st' ∧ cutter_of st' = cutter_of st ∧ split_file_ready st' = split_file_ready st.
Proof.
  unfold on_muxer. intros H1. apply bind_Some in H1 as (mux & _ & H1). apply bind_Some in H1 as (s & _ & H1).
  apply bind_Some in H1 as ([[a' mux'] s'] & _ & H1). by injection H1 as <- <-.
Qed.

Lemma submit_cut st p st' : submit_packet env st p = Some st' →
  same_session st st' ∧ cutter_of st' = put_packet (cutter_of st) p ∧ split_file_ready st' = split_file_ready st.
Proof.
  unfold submit_packet. intros H1. apply bind_Some in H1 as ([b st1] & E & H1). injection H1 as <-.
  apply on_muxer_files in E as (Hs & Hc & Hr). unfold same_session in *. cbn in *. split; [done|]. split; [|done].
  unfold cutter_of in *. cbn in *. injection Hc as -> -> -> -> -> ->. done.
Qed.

Lemma submits_cut st ps st' : submit_packets env st ps = Some st' →
  same_session st st' ∧ split_file_ready st' = split_file_ready st ∧ split_buffer st' = split_buffer st ∧
  cutter_of st' = foldl put_packet (cutter_of st) ps.
Proof.
  revert st. induction ps as [|p ps IH]; intros st; cbn [submit_packets foldl]; [by intros [= <-]|].
  intros H1. apply bind_Some in H1 as (st1 & E & H1). apply submit_cut in E as (Hs & Hc & Hr). apply IH in H1 as (Hs' & Hr' & Hb & Hc').
  assert (split_buffer st1 = split_buffer st) as Hb1 by (unfold cutter_of, put_packet in Hc; by injection Hc).
  unfold same_session in *. rewrite Hc', Hc. intuition congruence.
Qed.

Lemma close_cut st st' : close_output env st = Some st' →
  same_session st st' ∧ split_file_ready st' = split_file_ready st ∧ cutter_of st' = finish (cutter_of st).
Proof.
  unfold close_output. intros H1. apply bind_Some in H1 as ([b st1] & E & H1). apply bind_Some in H1 as (s & _ & H1).
  injection H1 as <-. apply on_muxer_files in E as (Hs & Hc & Hr). unfold same_session, cutter_of in *. cbn in *.
  injection Hc as Ec -> -> -> -> ->. rewrite map_app, Ec. done.
Qed.

Lemma change_file_cut st k st' : change_file env st k = Some (st', true) → split_file_ready st = false →
  same_session st st' ∧ split_file_ready st' = false ∧
  cutter_of st' = mk_cutter (c_files (cutter_of st) ++ [c_cur (cutter_of st)]) [] (split_buffer st) 0 (pkt_dts_usec k) (manual_split st).
Proof.
  unfold change_file. intros H1 Hr0. apply bind_Some in H1 as (st1 & E & H1). apply close_cut in E as (Hs & Hr & Hc).
  apply bind_Some in H1 as (p & _ & H1). apply bind_Some in H1 as ([st2 ok] & E & H1).
  unfold open_output in E. cbn in E. destruct (open_file _ _ _ _ _); [|injection E as <- <-; done].
  apply bind_Some in E as (mux & _ & E). injection E as <- <-. injection H1 as <-.
  unfold same_session, cutter_of, finish in *. cbn in *. injection Hc as -> _ -> _ _ ->. split; [done|]. split; [congruence|done].
Qed.

Lemma put_packets c ps : foldl put_packet c ps =
  mk_cutter (c_files c) (c_cur c ++ ps) (c_kept c) (foldl add_size (c_size c) ps) (c_start c) (c_manual c).
Proof.
  revert c. induction ps as [|p ps IH]; intros c; cbn [foldl]; [rewrite app_nil_r; by destruct c|].
  rewrite IH. unfold put_packet. cbn. by rewrite <- app_assoc.
Qed.

(** A packet that is neither an error nor the end. *)
Definition counts st (p : encoder_packet) : bool :=
  mo_active st && negb (mo_stopping st && (i64 (mo_stop_ts st) <=? pkt_sys_dts_usec p)).

Lemma stop_cut st code st' : mp4_output_actual_stop env st code = Some st' →
  out_conf st' = out_conf st ∧ split_file_ready st' = split_file_ready st ∧
  mo_active st' = false ∧ cutter_of st' = finish (cutter_of st).
Proof.
  unfold mp4_output_actual_stop. intros H1. apply bind_Some in H1 as (st1 & E & H1). injection H1 as <-.
  apply close_cut in E as ((Hconf & Ha & _) & Hr & Hc). cbn in *.
  destruct (enable_bpm st1); cbn; (split; [done|]; split; [done|]; split; [done|exact Hc]).
Qed.

Lemma should_split_point st p : should_split st p =
  split_point p && (manual_split st || over_size st (cur_size st) p || over_time st (start_time st) p).
Proof.
  unfold should_split, split_point, over_size, over_time. destruct (bool_decide _), (0 <? pkt_track_idx p), (pkt_keyframe p);
    cbn; try done. by destruct (manual_split st), (_ && _), (_ && _).
Qed.

Lemma split_cut st p st1 r : split_packet env st p = Some (st1, r) → split_file_ready st = false →
  match r with
  | SPLIT_FAILED => True
  | SPLIT_KEPT => same_session st st1 ∧ split_file_ready st1 = false ∧ cutter_of st1 = cut st (cutter_of st) p
  | SPLIT_SUBMIT => same_session st st1 ∧ ∀ st2, flush_split_buffer env st1 = Some st2 →
      same_session st st2 ∧ split_file_ready st2 = false ∧ put_packet (cutter_of st2) p = cut st (cutter_of st) p
  end.
Proof.
  intros H1 Hr. unfold split_packet in H1. unfold cut. destruct (split_file_enabled st); cbn [negb] in *.
  2:{ injection H1 as <- <-. split; [done|]. unfold flush_split_buffer. rewrite Hr. by intros st2 [= <-]. }
  change (c_kept (cutter_of st)) with (split_buffer st). destruct (split_buffer st) as [|k q] eqn:Eb.
  - rewrite should_split_point in H1. change (c_size (cutter_of st)) with (cur_size st). change (c_start (cutter_of st)) with (start_time st).
    change (c_manual (cutter_of st)) with (manual_split st). destruct (_ && _); injection H1 as <- <-; [done|].
    split; [done|]. unfold flush_split_buffer. rewrite Hr. by intros st2 [= <-].
  - destruct (_ <=? _).
    2:{ injection H1 as <- <-. split; [done|]. unfold flush_split_buffer. rewrite Hr. by intros st2 [= <-]. }
    unfold is_audio_pkt. destruct (bool_decide (pkt_type p = OBS_ENCODER_AUDIO)); cbn [negb] in H1; [|by injection H1 as <- <-].
    apply bind_Some in H1 as ([st2 ok] & E & H1). destruct ok; [|by injection H1 as <- <-]. injection H1 as <- <-.
    apply change_file_cut in E as (Hs & Hr2 & Hc); [|done]. split; [done|]. intros st3 E. unfold flush_split_buffer in E.
    cbn [split_file_ready out_split set_ready set_split] in E. apply bind_Some in E as (st4 & E & E'). injection E' as <-.
    apply submits_cut in E as (Hs4 & _ & Hb & Hc4). unfold same_session in *. cbn in *. split; [intuition congruence|].
    split; [done|]. f_equal. change (cutter_of (set_ready st2 true)) with (cutter_of st2) in Hc4. rewrite put_packets, Hc in Hc4.
    assert (split_buffer st2 = k :: q) as Eb2 by (unfold cutter_of in Hc; injection Hc; congruence).
    rewrite Eb2 in Hc4. unfold cutter_of, next_file in *. cbn in *. rewrite Eb in *. by injection Hc4 as -> -> _ -> -> _.
Qed.

(** A packet is a step of the cutter, after which the recording may end. *)
Lemma packet_cut st p st' : mp4_output_packet env st (Some p) = Some st' → split_file_ready st = false →
  out_conf st' = out_conf st ∧ split_file_ready st' = false ∧
  if counts st p
  then mo_active st' = true ∧ mo_stopping st' = mo_stopping st ∧ mo_stop_ts st' = mo_stop_ts st ∧
         cutter_of st' = cut st (cutter_of st) p ∨
       mo_active st' = false ∧ cutter_of st' = finish (cut st (cutter_of st) p)
  else mo_active st' = false ∧
       cutter_of st' = if mo_active st then finish (cutter_of st) else cutter_of st.
Proof.
  unfold mp4_output_packet, counts. intros H1 Hr. destruct (mo_active st) eqn:Ha; cbn [negb andb] in *; [|by injection H1 as <-].
  destruct (mo_stopping st && _); cbn [negb].
  { apply stop_cut in H1 as (? & ? & ? & ?). split; [done|]. split; [congruence|]. done. }
  apply bind_Some in H1 as ([st1 r] & E & H1). pose proof E as E'. apply split_cut in E; [|done]. destruct r.
  - injection H1 as <-. destruct E as ((? & ? & ? & ?) & ? & ?). split; [done|]. split; [done|]. left. rewrite H1. done.
  - exfalso. unfold split_packet in E'. destruct (negb _); [done|]. destruct (split_buffer st); [by destruct (should_split _ _)|].
    destruct (_ <=? _); [|done]. destruct (negb _); [done|]. apply bind_Some in E' as ([st2 ok] & Ec & E').
    destruct ok; [done|]. injection E' as <-. unfold change_file in Ec. apply bind_Some in Ec as (st3 & Ecl & Ec).
    apply bind_Some in Ec as (pp & _ & Ec). apply bind_Some in Ec as ([st4 ok] & Eo & Ec).
    unfold open_output in Eo. cbn in Eo. unfold close_output in Ecl. apply bind_Some in Ecl as ([b st5] & _ & Ecl).
    apply bind_Some in Ecl as (s & _ & Ecl). injection Ecl as <-. cbn in Eo. destruct (open_file _ _ _ _ _).
    + apply bind_Some in Eo as (m & _ & Eo). injection Eo as <- <-. done.
    + injection Eo as <- <-. injection Ec as <-. unfold mp4_output_actual_stop, close_output, on_muxer in H1. done.
  - destruct E as (Hs1 & Hfl). apply bind_Some in H1 as (st2 & E2 & H1). destruct (Hfl _ E2) as (Hs2 & Hr2 & Hc2).
    apply bind_Some in H1 as (st3 & E3 & H1). apply submit_cut in E3 as (Hs3 & Hc3 & Hr3).
    rewrite Hc2 in Hc3. apply bind_Some in H1 as (s & _ & H1). unfold same_session in *.
    destruct (_ =? _).
    + apply stop_cut in H1 as (H1 & H2 & H3 & H4). split; [intuition congruence|]. split; [congruence|].
      right. split; [done|]. by rewrite H4, Hc3.
    + injection H1 as <-. split; [intuition congruence|]. split; [congruence|]. left. split_and!; intuition congruence.
Qed.
End output.

(** ** What the files hold *)

(** The files and the one that is being written. *)
Definition all_files (c : cutter) (open : bool) : list (list encoder_packet) :=
  c_files c ++ (if open then [c_cur c] else []).

Definition is_video_pkt (p : encoder_packet) : bool := negb (is_audio_pkt p).

(** No video packet comes after a keyframe of the first track with an earlier time. *)
Definition closed_gops (ps : list encoder_packet) : Prop :=
  ∀ i j k p, ps !! i = Some k → ps !! j = Some p → (i < j)%nat → split_point k = true → is_video_pkt p = true →
    packet_pts_usec k ≤ packet_pts_usec p.

Lemma closed_gops_app ps qs : closed_gops (ps ++ qs) → closed_gops ps.
Proof. intros Hg i j k p Hi Hj. apply (Hg i j); by apply lookup_app_l_Some. Qed.

Fixpoint gops_check (ps : list encoder_packet) : bool :=
  match ps with
  | [] => true
  | k :: ps =>
      (negb (split_point k) || forallb (λ p, negb (is_video_pkt p) || (packet_pts_usec k <=? packet_pts_usec p)) ps) && gops_check ps
  end.

Lemma gops_check_ok ps : gops_check ps = true → closed_gops ps.
Proof.
  induction ps as [|x ps IH]; intros Hc; [by intros i j k p Hi|]. apply andb_prop in Hc as [Hx Hc]. specialize (IH Hc).
  intros [|i] [|j] k p Hi Hj Hlt Hk Hp; [lia| |lia|apply (IH i j); [done|done|lia|done|done]].
  cbn in Hi, Hj. injection Hi as ->. rewrite Hk in Hx. cbn in Hx. apply list_elem_of_lookup_2 in Hj.
  rewrite forallb_forall in Hx. apply list_elem_of_In in Hj. specialize (Hx p Hj). rewrite Hp in Hx. by apply Z.leb_le.
Qed.

Lemma closed_gops_last off p k : closed_gops (off ++ [p]) → k ∈ off → split_point k = true → is_video_pkt p = true →
  packet_pts_usec k ≤ packet_pts_usec p.
Proof.
  intros Hg Hin Hk Hp. apply list_elem_of_lookup_1 in Hin as [i Hi]. pose proof (lookup_lt_Some _ _ _ Hi).
  apply (Hg i (length off)); [by rewrite lookup_app_l by lia|by rewrite lookup_app_r, Nat.sub_diag by lia|lia|done..].
Qed.

Record cut_ok (conf : file_conf) (off : list encoder_packet) (open : bool) (c : cutter) : Prop := {
  o_all : concat (c_files c) ++ c_cur c ++ c_kept c ≡ₚ off;
  o_audio : filter is_audio_pkt (concat (c_files c) ++ c_cur c) = filter is_audio_pkt off;
  o_video : closed_gops off → filter is_video_pkt (concat (c_files c) ++ c_cur c ++ c_kept c) = filter is_video_pkt off;
  o_heads : ∀ i f, all_files c open !! S i = Some f → ∃ k rest, f = k :: rest ∧ split_point k = true;
  o_kept : Forall (λ p, is_video_pkt p = true) (c_kept c);
  o_first : ∀ k q, c_kept c = k :: q → split_point k = true ∧ k ∈ off;
  o_open : open = false → c_cur c = [];
  o_off : split_file_enabled conf = false → c_kept c = []
}.

Lemma filter_snoc (P : encoder_packet → bool) l p : filter P (l ++ [p]) = filter P l ++ (if P p then [p] else []).
Proof.
  rewrite filter_app. f_equal. destruct (P p) eqn:E; [by rewrite filter_cons_True by (by rewrite E)|].
  rewrite filter_cons_False; [done|rewrite E; by intros []].
Qed.

Lemma filter_none (P : encoder_packet → bool) l : Forall (λ p, P p = false) l → filter P l = [].
Proof. induction 1 as [|p l Hp _ IH]; [done|]. rewrite filter_cons_False; [done|rewrite Hp; by intros []]. Qed.

Lemma filter_kept_audio l : Forall (λ p, is_video_pkt p = true) l → filter is_audio_pkt l = [].
Proof.
  intros Hl. apply filter_none. eapply Forall_impl; [exact Hl|]. intros p Hp. unfold is_video_pkt in Hp. by destruct (is_audio_pkt p).
Qed.

(** A packet of the current file, with none kept, or of a kind or time that none kept is
    behind it. *)
Lemma cut_ok_put conf off c p : cut_ok conf off true c →
  (closed_gops (off ++ [p]) → is_video_pkt p = true → c_kept c = []) → cut_ok conf (off ++ [p]) true (put_packet c p).
Proof.
  intros [Ha Hau Hv Hh Hk Hf Ho Hoff] Hord. constructor; cbn.
  - rewrite <- Ha, <- !app_assoc. do 2 f_equiv. by rewrite Permutation_app_comm.
  - rewrite app_assoc, !filter_snoc. by rewrite Hau.
  - intros Hg. rewrite filter_snoc, <- Hv by (by eapply closed_gops_app). destruct (is_video_pkt p) eqn:Ep.
    + rewrite Hord by done. rewrite !app_nil_r, app_assoc, filter_snoc, Ep. done.
    + rewrite app_nil_r, <- app_assoc. rewrite !filter_app. cbn [app].
      rewrite filter_cons_False by (rewrite Ep; by intros []). done.
  - intros i f. unfold all_files in *. cbn. intros Hi. destruct (decide (S i < length (c_files c))%nat).
    + rewrite lookup_app_l in Hi by done. apply (Hh i). by rewrite lookup_app_l by done.
    + rewrite lookup_app_r in Hi by lia. specialize (Hh i). rewrite lookup_app_r in Hh by lia.
      destruct (S i - length (c_files c))%nat as [|m] eqn:Em; [|done]. cbn in *. injection Hi as <-.
      destruct (Hh _ eq_refl) as (k & rest & -> & ?). by exists k, (rest ++ [p]).
  - done.
  - intros k q E. destruct (Hf k q E). split; [done|]. apply elem_of_app. by left.
  - done.
  - done.
Qed.

Lemma cut_ok_keep conf off c p : cut_ok conf off true c → is_video_pkt p = true →
  (c_kept c = [] → split_point p = true) → split_file_enabled conf ≠ false → cut_ok conf (off ++ [p]) true (keep_packet c p).
Proof.
  intros [Ha Hau Hv Hh Hk Hf Ho Hoff] Ep Hs Hen. constructor; cbn.
  - rewrite <- Ha, <- !app_assoc. done.
  - rewrite filter_snoc, <- Hau. unfold is_video_pkt in Ep. destruct (is_audio_pkt p); [done|]. by rewrite app_nil_r.
  - intros Hg. rewrite filter_snoc, <- Hv, Ep by (by eapply closed_gops_app). rewrite !app_assoc, filter_snoc, Ep. done.
  - exact Hh.
  - apply Forall_app. split; [done|by repeat constructor].
  - intros k q E. destruct (c_kept c) as [|k0 q0]; cbn in E.
    + injection E as <- <-. split; [by apply Hs|]. apply elem_of_app. right. by left.
    + injection E as <- <-. destruct (Hf k0 q0 eq_refl). split; [done|]. apply elem_of_app. by left.
  - done.
  - done.
Qed.

Lemma cut_ok_next conf off c k q : cut_ok conf off true c → c_kept c = k :: q → cut_ok conf off true (next_file c k).
Proof.
  intros [Ha Hau Hv Hh Hk Hf Ho Hoff] Ek. unfold next_file. rewrite Ek in *. constructor; cbn.
  - rewrite <- Ha, concat_app. cbn. by rewrite !app_nil_r, <- app_assoc.
  - rewrite concat_app. cbn [concat]. rewrite app_nil_r.
    etrans; [apply (filter_app _ _ (k :: q))|]. by rewrite (filter_kept_audio (k :: q)), app_nil_r.
  - intros Hg. rewrite concat_app. cbn. rewrite !app_nil_r, <- app_assoc. by apply Hv.
  - intros i f. unfold all_files. cbn. intros Hi. destruct (decide (S i < length (c_files c ++ [c_cur c]))%nat).
    + rewrite lookup_app_l in Hi by done. apply (Hh i). done.
    + rewrite lookup_app_r in Hi by lia. apply list_lookup_singleton_Some in Hi as [_ <-].
      exists k, q. split; [done|]. by destruct (Hf k q eq_refl).
  - constructor.
  - done.
  - done.
  - done.
Qed.

Lemma cut_ok_finish conf off c : cut_ok conf off true c → cut_ok conf off false (finish c).
Proof.
  intros [Ha Hau Hv Hh Hk Hf Ho Hoff]. constructor; cbn.
  - rewrite <- Ha, concat_app. cbn. by rewrite app_nil_r, <- app_assoc.
  - rewrite concat_app. cbn. by rewrite !app_nil_r.
  - intros Hg. rewrite concat_app. cbn. rewrite app_nil_r, <- app_assoc. by apply Hv.
  - intros i f. unfold all_files in *. cbn. rewrite app_nil_r. apply Hh.
  - done.
  - done.
  - done.
  - done.
Qed.

Lemma split_point_video p : split_point p = true → is_video_pkt p = true.
Proof. unfold split_point, is_video_pkt, is_audio_pkt. by destruct (pkt_type p). Qed.

Lemma cut_ok_cut conf off c p : cut_ok conf off true c → cut_ok conf (off ++ [p]) true (cut conf c p).
Proof.
  intros Hc. unfold cut. destruct (split_file_enabled conf) eqn:En; cbn [negb].
  2:{ apply cut_ok_put; [done|]. intros _ _. by apply (o_off _ _ _ _ Hc). }
  destruct (c_kept c) as [|k q] eqn:Ek.
  - destruct (split_point p && _) eqn:Es; [|by apply cut_ok_put].
    apply andb_prop in Es as [Es _]. apply cut_ok_keep; [done|by apply split_point_video|done|by rewrite En].
  - destruct (Z.leb_spec (packet_pts_usec k) (packet_pts_usec p)) as [Hle|Hlt].
    + destruct (is_audio_pkt p) eqn:Ea.
      * apply cut_ok_put; [by eapply cut_ok_next|done].
      * apply cut_ok_keep; [done|by unfold is_video_pkt; rewrite Ea|congruence|by rewrite En].
    + apply cut_ok_put; [done|]. intros Hg Hp. exfalso. destruct (o_first _ _ _ _ Hc k q Ek) as [Hs Hin].
      pose proof (closed_gops_last _ _ _ Hg Hin Hs Hp). lia.
Qed.

(** ** The limits of the files *)

(** The time a file counts from. *)
Definition file_start (i : nat) (f : list encoder_packet) : Z :=
  match i, f with S _, k :: _ => pkt_dts_usec k | _, _ => 0 end.

(** The file does not go on past a keyframe at which it should have ended; those that were
    kept for it, which come before its first audio packet, are not tested. *)
Definition within_limits (conf : file_conf) (i : nat) (f : list encoder_packet) : Prop :=
  ∀ pre k post, f = pre ++ k :: post → split_point k = true → i = 0%nat ∨ Exists (λ p, is_audio_pkt p = true) pre →
    over_size conf (foldl add_size 0 pre) k = false ∧ over_time conf (file_start i f) k = false.

Record limits_ok (conf : file_conf) (open : bool) (c : cutter) : Prop := {
  q_files : ∀ i f, all_files c open !! i = Some f → within_limits conf i f;
  q_size : open = true → c_size c = foldl add_size 0 (c_cur c);
  q_start : open = true → c_start c = file_start (length (c_files c)) (c_cur c)
}.

Lemma within_snoc conf i f p : within_limits conf i f → (i ≠ 0%nat → f ≠ []) →
  (split_point p = true → over_size conf (foldl add_size 0 f) p = false ∧ over_time conf (file_start i f) p = false) →
  within_limits conf i (f ++ [p]).
Proof.
  intros Hf Hne Hp pre k post E Hk Hi.
  assert (file_start i (f ++ [p]) = file_start i f) as ->.
  { destruct i; [done|]. by destruct f; [by destruct Hne|]. }
  destruct post as [|x post _] using rev_ind.
  - apply app_inj_tail in E as [-> ->]. by apply Hp.
  - rewrite app_comm_cons, app_assoc in E. apply app_inj_tail in E as [-> _]. by apply (Hf pre k post).
Qed.

Lemma all_files_put c p i f : all_files (put_packet c p) true !! i = Some f →
  ((i < length (c_files c))%nat ∧ all_files c true !! i = Some f) ∨
  (i = length (c_files c) ∧ f = c_cur c ++ [p] ∧ all_files c true !! i = Some (c_cur c)).
Proof.
  unfold all_files. cbn. intros Hi. destruct (decide (i < length (c_files c))%nat).
  - rewrite lookup_app_l in Hi by done. left. by rewrite lookup_app_l by done.
  - rewrite lookup_app_r in Hi by lia. apply list_lookup_singleton_Some in Hi as [Hz <-]. right.
    rewrite lookup_app_r, Hz by lia. split; [lia|done].
Qed.

(** A packet that is not a keyframe past the limits. *)
Lemma limits_put conf off c p : cut_ok conf off true c → limits_ok conf true c →
  (split_point p = true → over_size conf (c_size c) p = false ∧ over_time conf (c_start c) p = false) →
  limits_ok conf true (put_packet c p).
Proof.
  intros Hc [Hf Hs Ht] Hp. rewrite Hs, Ht in Hp by done.
  assert (length (c_files c) ≠ 0%nat → c_cur c ≠ []) as Hne.
  { intros Hz. destruct (length (c_files c)) as [|n] eqn:En; [done|]. destruct (o_heads _ _ _ _ Hc n (c_cur c)) as (k & rest & -> & _); [|done].
    unfold all_files. rewrite lookup_app_r, <- En, Nat.sub_diag by lia. done. }
  constructor; cbn.
  - intros i f Hi. apply all_files_put in Hi as [[Hi Hl]|(-> & -> & Hl)]; [by apply Hf|].
    apply within_snoc; [by apply Hf|done|done].
  - intros _. by rewrite Hs, foldl_app.
  - intros _. rewrite Ht by done. destruct (length (c_files c)); [done|]. destruct (c_cur c); [by destruct Hne|done].
Qed.

Lemma limits_cut conf off c p : split_file_enabled conf = true → cut_ok conf off true c → closed_gops (off ++ [p]) →
  limits_ok conf true c → limits_ok conf true (cut conf c p).
Proof.
  intros En Hc Hg Hl. unfold cut. rewrite En. cbn [negb]. destruct (c_kept c) as [|k q] eqn:Ek.
  - destruct (split_point p && _) eqn:Es; [by destruct Hl|]. eapply limits_put; [done..|]. intros Hp. rewrite Hp in Es. cbn in Es.
    apply orb_false_iff in Es as [Es ->]. by apply orb_false_iff in Es as [_ ->].
  - destruct (Z.leb_spec (packet_pts_usec k) (packet_pts_usec p)) as [Hle|Hlt].
    + destruct (is_audio_pkt p) eqn:Ea; [|by destruct Hl].
      eapply limits_put; [by eapply cut_ok_next| |].
      * destruct Hl as [Hf Hs Ht]. constructor; cbn.
        -- intros i f. unfold all_files. cbn. intros Hi. destruct (decide (i < length (c_files c ++ [c_cur c]))%nat).
           ++ rewrite lookup_app_l in Hi by done. by apply Hf.
           ++ rewrite lookup_app_r in Hi by lia. apply list_lookup_singleton_Some in Hi as [Hz <-].
              intros pre x post E _ [->|Hex]; [rewrite length_app in *; cbn in *; lia|exfalso].
              pose proof (o_kept _ _ _ _ Hc) as Hk. rewrite E in Hk. apply Forall_app in Hk as [Hk _].
              apply Exists_exists in Hex as (y & Hy & Hay). rewrite Forall_forall in Hk. specialize (Hk y Hy).
              unfold is_video_pkt in Hk. by rewrite Hay in Hk.
        -- done.
        -- intros _. rewrite Ek, length_app. cbn. by rewrite Nat.add_comm.
      * intros Hp. apply split_point_video in Hp. unfold is_video_pkt in Hp. by rewrite Ea in Hp.
    + eapply limits_put; [done..|]. intros Hp. exfalso. destruct (o_first _ _ _ _ Hc k q Ek) as [Hs Hin].
      apply split_point_video in Hp. pose proof (closed_gops_last _ _ _ Hg Hin Hs Hp). lia.
Qed.

Lemma limits_finish conf c : limits_ok conf true c → limits_ok conf false (finish c).
Proof.
  intros [Hf _ _]. constructor; [|done..]. intros i f. unfold all_files. cbn. rewrite app_nil_r. apply Hf.
Qed.

(** ** A recording *)

Section session.
Context {S : Type} `{SerializerOps S} (env : mp4_output_env S).
Implicit Types st : mp4_output S.

(** The packets that reach the files or are kept. *)
Definition offer st (ev : mp4_out_event) : list encoder_packet :=
  match ev with OUT_PACKET (Some p) => if counts st p then [p] else [] | _ => [] end.
Fixpoint offered st (evs : list mp4_out_event) : list encoder_packet :=
  match evs with
  | [] => []
  | ev :: evs => offer st ev ++ match mp4_out_step env st ev with Some st => offered st evs | None => [] end
  end.

Definition within_session (ev : mp4_out_event) : Prop := match ev with OUT_START _ _ => False | _ => True end.

(** The events other than packets leave the files alone. *)
Lemma add_due_files st q dts cts st' : add_due_chapters env st q dts cts = Some st' →
  same_session st st' ∧ cutter_of st' = cutter_of st ∧ split_file_ready st' = split_file_ready st.
Proof.
  revert st. induction q as [|ch q IH]; intros st; cbn [add_due_chapters]; [by intros [= <-]|].
  destruct (_ <? _); [by intros [= <-]|]. intros E. apply bind_Some in E as (mux & _ & E).
  apply bind_Some in E as ([b mux'] & _ & E). by apply IH in E.
Qed.

Lemma callbacks_files st pkt cts cbs st' :
  foldl (λ acc cb, st ← acc; run_callback env st pkt cts cb) (Some st) cbs = Some st' →
  same_session st st' ∧ cutter_of st' = cutter_of st ∧ split_file_ready st' = split_file_ready st.
Proof.
  revert st. induction cbs as [|cb cbs IH]; intros st; cbn [foldl mbind option_bind]; [by intros [= <-]|].
  intros E. destruct (run_callback env st pkt cts cb) as [st1|] eqn:E1.
  2:{ exfalso. clear -E. induction cbs as [|cb cbs IH]; [done|]. by apply IH. }
  apply IH in E as (Hs & Hc & Hr). assert (same_session st st1 ∧ cutter_of st1 = cutter_of st ∧ split_file_ready st1 = split_file_ready st)
    as (Hs1 & Hc1 & Hr1).
  { clear -E1. destruct cb as [|[]]; cbn in E1; [by injection E1 as <-| |by injection E1 as <-].
    unfold mp4_pkt_callback in E1. destruct cts; [|by injection E1 as <-]. destruct (_ || _); [by injection E1 as <-|].
    by eapply add_due_files. }
  unfold same_session in *. split; [intuition congruence|]. split; congruence.
Qed.

(** By cases on the event: nothing happens to the files, a packet is cut, the recording
    ends, or both; or a split is asked for. *)
Inductive cut_event st (st' : mp4_output S) (off : list encoder_packet) : Prop :=
| ev_nothing : off = [] → mo_active st' = mo_active st → cutter_of st' = cutter_of st → cut_event st st' off
| ev_manual : off = [] → mo_active st' = mo_active st →
    cutter_of st' = mk_cutter (c_files (cutter_of st)) (c_cur (cutter_of st)) (c_kept (cutter_of st))
      (c_size (cutter_of st)) (c_start (cutter_of st)) true → cut_event st st' off
| ev_packet p : off = [p] → mo_active st = true → mo_active st' = true → cutter_of st' = cut st (cutter_of st) p → cut_event st st' off
| ev_last p : off = [p] → mo_active st = true → mo_active st' = false → cutter_of st' = finish (cut st (cutter_of st) p) →
    cut_event st st' off
| ev_end : off = [] → mo_active st = true → mo_active st' = false → cutter_of st' = finish (cutter_of st) → cut_event st st' off.

Lemma step_cut st ev st' : mp4_out_step env st ev = Some st' → within_session ev → split_file_ready st = false →
  out_conf st' = out_conf st ∧ split_file_ready st' = false ∧ cut_event st st' (offer st ev).
Proof.
  intros E Hw Hr. destruct ev as [| |pkt cts|[p|]| |]; cbn in Hw, E; try done; cbn [offer].
  - injection E as <-. split; [done|]. split; [done|]. by apply ev_nothing.
  - apply callbacks_files in E as ((? & ? & _) & ? & ?). split; [done|]. split; [congruence|]. by apply ev_nothing.
  - apply packet_cut in E as (Hcf & Hr' & Hc); [|done]. split; [done|]. split; [done|].
    destruct (counts st p) eqn:Ec.
    + assert (mo_active st = true) as Ha by (unfold counts in Ec; by apply andb_prop in Ec as [? _]).
      destruct Hc as [(? & _ & _ & ?)|[? ?]]; [by eapply ev_packet|by eapply ev_last].
    + destruct Hc as [Ha' Hc]. destruct (mo_active st) eqn:Ha; [by apply ev_end|apply ev_nothing; congruence].
  - unfold mp4_output_packet in E. destruct (mo_active st) eqn:Ha; cbn [negb] in E.
    + apply stop_cut in E as (? & ? & ? & ?). split; [done|]. split; [congruence|]. by apply ev_end.
    + injection E as <-. split; [done|]. split; [done|]. apply ev_nothing; congruence.
  - injection E as <-. split; [done|]. split; [done|]. by apply ev_nothing.
  - injection E as <-. unfold split_file_proc. destruct (split_file_enabled st); [|by split_and!; [..|apply ev_nothing]].
    split; [done|]. split; [done|]. by apply ev_manual.
Qed.

(** What holds of the files goes on holding. *)
Lemma cut_ok_step st ev st' off : mp4_out_step env st ev = Some st' → within_session ev → split_file_ready st = false →
  cut_ok st off (mo_active st) (cutter_of st) → cut_ok st' (off ++ offer st ev) (mo_active st') (cutter_of st').
Proof.
  intros E Hw Hr Hok. apply step_cut in E as (-> & _ & Hc); [|done..].
  destruct Hc as [-> -> ->| -> -> ->|p -> Ha -> ->|p -> Ha -> ->| -> Ha -> ->]; rewrite ?app_nil_r; rewrite ?Ha in Hok.
  - done.
  - by destruct Hok.
  - by apply cut_ok_cut.
  - by apply cut_ok_finish, cut_ok_cut.
  - by apply cut_ok_finish.
Qed.

Lemma session_cut st evs st' off : mp4_out_run env st evs = Some st' → Forall within_session evs → split_file_ready st = false →
  cut_ok st off (mo_active st) (cutter_of st) →
  out_conf st' = out_conf st ∧ split_file_ready st' = false ∧
  cut_ok st' (off ++ offered st evs) (mo_active st') (cutter_of st').
Proof.
  intros E Hw. revert st off E. induction Hw as [|ev evs Hev _ IH]; intros st off; cbn [mp4_out_run offered].
  { intros [= <-] Hr Hok. by rewrite app_nil_r. }
  intros E Hr Hok. destruct (mp4_out_step env st ev) as [st1|] eqn:E1; [|done]. cbn [mbind option_bind] in E.
  pose proof (cut_ok_step _ _ _ _ E1 Hev Hr Hok) as Hok1. apply step_cut in E1 as (Hcf & Hr1 & _); [|done..].
  destruct (IH st1 _ E Hr1 Hok1) as (Hcf' & Hr' & Hok'). rewrite <- app_assoc in Hok'. split_and!; [congruence|done..].
Qed.

(** What a successful start leaves. *)
Lemma start_cut st0 can_begin init st : mp4_output_start env st0 can_begin init = Some (st, true) →
  mo_active st = true ∧ mo_stopping st = false ∧ split_file_ready st = split_file_ready st0 ∧
  split_file_enabled st = set_split_file (out_settings env) ∧
  max_size st = u64 (i64 (set_max_size_mb (out_settings env) * 1024 * 1024)) ∧
  max_time st = i64 (set_max_time_sec (out_settings env) * 1000000) ∧
  cutter_of st = mk_cutter (map closed_packets (closed st0)) [] (split_buffer st0) 0 0 (manual_split st0).
Proof.
  unfold mp4_output_start. destruct (negb can_begin); [done|]. destruct (negb init); [done|]. intros E.
  apply bind_Some in E as (st1 & E1 & E). apply bind_Some in E as (conf & E2 & E). apply bind_Some in E as ([st3 ok] & E3 & E).
  destruct ok; [|done]. injection E as <-.
  assert (∀ (st4 : mp4_output S), st4 = (if enable_bpm (set_conf st1 conf) then set_callbacks (set_conf st1 conf) (callbacks (set_conf st1 conf) ++ [CB_BPM]) else set_conf st1 conf) →
    out_conf st4 = conf ∧ out_files st4 = out_files st1 ∧ out_split st4 = out_split st1 ∧ mo_stopping st4 = mo_stopping st1) as H4.
  { intros st4 ->. destruct (enable_bpm (set_conf st1 conf)); split_and!; reflexivity. }
  set (st4 := if enable_bpm (set_conf st1 conf) then _ else _) in *. specialize (H4 st4 eq_refl) as (Hc4 & Hf4 & Hs4 & Hst4).
  clearbody st4. unfold open_output in E3. destruct (open_file _ _ _ _ _); [|done]. apply bind_Some in E3 as (mux & _ & E3).
  injection E3 as <-.
  assert (split_file_enabled conf = split_file_enabled st1 ∧ max_size conf = max_size st1 ∧ max_time conf = max_time st1) as (Hc1 & Hc2 & Hc3).
  { unfold parse_custom_options in E2. apply bind_Some in E2 as ([[fl [bs cs]] bpm] & _ & E2). by injection E2 as <-. }
  assert (out_split st1 = mk_split_state (split_file_ready st0) (manual_split st0) 0 0 (split_buffer st0) ∧
    closed st1 = closed st0 ∧ mo_stopping st1 = false ∧ split_file_enabled st1 = set_split_file (out_settings env) ∧
    max_size st1 = u64 (i64 (set_max_size_mb (out_settings env) * 1024 * 1024)) ∧
    max_time st1 = i64 (set_max_time_sec (out_settings env) * 1000000)) as (Hs1 & Hf1 & Hst1 & He1 & Hx1 & Ht1).
  { destruct (is_empty _); [apply bind_Some in E1 as (pp & _ & E1)|]; by injection E1 as <-. }
  unfold cutter_of. cbn. rewrite Hc4, Hs4, Hs1, Hst4, Hf4, Hf1. cbn. split_and!; congruence.
Qed.

(** C17: A recording that is split loses and repeats no packet: the packets of its files, with
    those that are kept for the next file, are the packets it was given; the audio packets
    are in the files in their order, and so are the video packets when no group of pictures
    reaches behind its keyframe; and every file but the first begins with a keyframe of the
    first video track. *)
Theorem split_files_complete flavor can_begin init evs st0 st :
  mp4_output_start env (mp4_output_create_internal flavor) can_begin init = Some (st0, true) →
  Forall within_session evs → mp4_out_run env st0 evs = Some st →
  let files := map closed_packets (closed st) ++ (if mo_active st then [submitted st] else []) in
  concat files ++ split_buffer st ≡ₚ offered st0 evs ∧
  filter is_audio_pkt (concat files) = filter is_audio_pkt (offered st0 evs) ∧
  (closed_gops (offered st0 evs) →
   filter is_video_pkt (concat files ++ split_buffer st) = filter is_video_pkt (offered st0 evs)) ∧
  ∀ i f, files !! Datatypes.S i = Some f → ∃ k rest, f = k :: rest ∧ split_point k = true.
Proof.
  intros Hstart Hw Hrun files. apply start_cut in Hstart as (Ha & _ & Hr & _ & _ & _ & Hc).
  assert (cut_ok st0 [] (mo_active st0) (cutter_of st0)) as Hok.
  { rewrite Hc, Ha. constructor; cbn; [done|done|done|by intros [] ?|constructor|done|done|done]. }
  destruct (session_cut _ _ _ [] Hrun Hw Hr Hok) as (_ & _ & [Hall Hau Hv Hh _ _ Hopen _]).
  cbn [app] in *. assert (concat files = concat (c_files (cutter_of st)) ++ c_cur (cutter_of st)) as ->.
  { unfold files. rewrite concat_app. f_equal. destruct (mo_active st); [apply app_nil_r|]. cbn. symmetry. by apply Hopen. }
  rewrite <- !app_assoc. split; [exact Hall|]. split; [exact Hau|]. split; [exact Hv|]. exact Hh.
Qed.

Lemma limits_step st ev st' off : mp4_out_step env st ev = Some st' → within_session ev → split_file_ready st = false →
  split_file_enabled st = true → cut_ok st off (mo_active st) (cutter_of st) → closed_gops (off ++ offer st ev) →
  limits_ok st (mo_active st) (cutter_of st) → limits_ok st' (mo_active st') (cutter_of st').
Proof.
  intros E Hw Hr En Hok Hg Hl. apply step_cut in E as (-> & _ & Hc); [|done..].
  destruct Hc as [Eo -> ->|Eo -> ->|p Eo Ha -> ->|p Eo Ha -> ->|Eo Ha -> ->]; rewrite Eo in Hg; rewrite ?Ha in Hok, Hl.
  - done.
  - by destruct Hl.
  - by eapply limits_cut.
  - by eapply limits_finish, limits_cut.
  - by apply limits_finish.
Qed.

Lemma session_limits st evs st' off : mp4_out_run env st evs = Some st' → Forall within_session evs → split_file_ready st = false →
  split_file_enabled st = true → cut_ok st off (mo_active st) (cutter_of st) → closed_gops (off ++ offered st evs) →
  limits_ok st (mo_active st) (cutter_of st) → out_conf st' = out_conf st ∧ limits_ok st' (mo_active st') (cutter_of st').
Proof.
  intros E Hw. revert st off E. induction Hw as [|ev evs Hev _ IH]; intros st off; cbn [mp4_out_run offered]; [by intros [= <-]|].
  intros E Hr En Hok Hg Hl. destruct (mp4_out_step env st ev) as [st1|] eqn:E1; [|done]. cbn [mbind option_bind] in E.
  rewrite app_assoc in Hg. pose proof (cut_ok_step _ _ _ _ E1 Hev Hr Hok) as Hok1.
  pose proof (limits_step _ _ _ _ E1 Hev Hr En Hok (closed_gops_app _ _ Hg) Hl) as Hl1.
  apply step_cut in E1 as (Hcf & Hr1 & _); [|done..].
  destruct (IH st1 _ E Hr1 ltac:(by rewrite Hcf) Hok1 Hg Hl1) as [Hcf' Hl']. split; [congruence|done].
Qed.

(** C19: When files are split and no group of pictures reaches behind its keyframe, no file
    goes on at a keyframe of the first video track that would bring it to the size limit, or
    that is the time limit or more after its start; only the keyframes that were kept for
    the file itself, which come before its first audio packet, are not tested. *)
Theorem split_files_limited flavor can_begin init evs st0 st :
  mp4_output_start env (mp4_output_create_internal flavor) can_begin init = Some (st0, true) →
  set_split_file (out_settings env) = true →
  Forall within_session evs → mp4_out_run env st0 evs = Some st → closed_gops (offered st0 evs) →
  let files := map closed_packets (closed st) ++ (if mo_active st then [submitted st] else []) in
  let size_limit := u64 (i64 (set_max_size_mb (out_settings env) * 1024 * 1024)) in
  let time_limit := i64 (set_max_time_sec (out_settings env) * 1000000) in
  ∀ i f pre k post, files !! i = Some f → f = pre ++ k :: post → split_point k = true →
    i = 0%nat ∨ Exists (λ p, is_audio_pkt p = true) pre →
    (0 < size_limit → u64 (foldl add_size 0 pre + pkt_size k) < size_limit) ∧
    (0 < time_limit → i64 (pkt_dts_usec k - file_start i f) < time_limit).
Proof.
  intros Hstart Hen Hw Hrun Hg files sl tl i f pre k post Hi Ef Hk Hpre.
  apply start_cut in Hstart as (Ha & _ & Hr & He & Hsz & Htm & Hc).
  assert (cut_ok st0 [] (mo_active st0) (cutter_of st0)) as Hok.
  { rewrite Hc, Ha. constructor; cbn; [done|done|done|by intros [] ?|constructor|done|done|done]. }
  assert (limits_ok st0 (mo_active st0) (cutter_of st0)) as Hl.
  { rewrite Hc, Ha. constructor; cbn; [|done..]. intros [|[]] g; [|done..]. intros [= <-] [|] ? ? ?; done. }
  destruct (session_limits _ _ _ [] Hrun Hw Hr ltac:(congruence) Hok Hg Hl) as (Hcf & [Hf _ _]).
  destruct (Hf i f Hi pre k post Ef Hk Hpre) as [H1 H2]. rewrite Hcf in *. unfold over_size, over_time in *.
  rewrite Hsz in H1. rewrite Htm in H2. fold sl in H1. fold tl in H2. split; intros Hpos.
  - destruct (Z.ltb_spec 0 sl); [|lia]. cbn in H1. by apply Z.leb_gt in H1.
  - destruct (Z.ltb_spec 0 tl); [|lia]. cbn in H2. by apply Z.leb_gt in H2.
Qed.
End session.

(** ** A recording that is split *)

(** Video of 30 frames per second whose packets are already in the form of the file, one
    keyframe per second; audio packets of half a second. *)
Definition ex_out_video : obs_encoder :=
  mk_encoder 1 OBS_ENCODER_VIDEO (Some (str "video")) (Some (str "prores")) "prores" None None
    (Some ex_video) None None 0 0 0 0 1 30.
Definition ex_frame (n : Z) : encoder_packet :=
  mk_packet [n; n] n n 1 30 OBS_ENCODER_VIDEO (n `mod` 30 =? 0) (n * 1000000 / 30) (n * 1000000 / 30) 3 3 0 1.
Definition ex_sound (n : Z) : encoder_packet :=
  mk_packet [100 + n] (n * 24000) (n * 24000) 1 48000 OBS_ENCODER_AUDIO false (n * 500000) (n * 500000) 3 3 0 2.

(** Files of at least a second; what is there already is [/rec/a.mov]. *)
Definition ex_out_settings : mp4_settings :=
  mk_mp4_settings 1 0 true false (str "/rec/a.mov") (str "/rec") (str "a") (str "mov") false [].
Definition ex_out_env : mp4_output_env FILE :=
  mk_mp4_output_env FILE ex_env [Some ex_out_video] [Some ex_audio_encoder] ex_out_settings (str "Unnamed") (λ _, ex_name_env)
    (λ _, [str "/rec/a.mov"]) (λ _ _ _ _, Some file_output_serializer_init) (λ _, 0).

Definition ex_give (ps : list encoder_packet) : list mp4_out_event := map (λ p, OUT_PACKET (Some p)) ps.
Definition ex_packets : list encoder_packet :=
  [ex_frame 0; ex_sound 0; ex_frame 15; ex_sound 1; ex_frame 30; ex_frame 31; ex_sound 2; ex_frame 45; ex_sound 3; ex_frame 46].
Definition ex_events : list mp4_out_event := ex_give ex_packets ++ [OUT_STOP 1600000000; OUT_PACKET (Some (ex_sound 4))].
Definition ex_started : mp4_output FILE :=
  match mp4_output_start ex_out_env (mp4_output_create_internal FLAVOR_MOV) true true with Some (st, _) => st | None => mp4_output_create_internal FLAVOR_MOV end.
Definition ex_ended : mp4_output FILE := default ex_started (mp4_out_run ex_out_env ex_started ex_events).

Lemma ex_out_started : mp4_output_start ex_out_env (mp4_output_create_internal FLAVOR_MOV) true true = Some (ex_started, true).
Proof. vm_compute. reflexivity. Qed.

Lemma ex_within evs : forallb (λ ev, match ev with OUT_START _ _ => false | _ => true end) evs = true → Forall within_session evs.
Proof. intros H. rewrite forallb_forall in H. apply Forall_forall. intros ev Hin. apply list_elem_of_In in Hin. specialize (H ev Hin). by destruct ev. Qed.

Lemma ex_out_run : mp4_out_run ex_out_env ex_started ex_events = Some ex_ended.
Proof. vm_compute. reflexivity. Qed.

Example ex_two_files : map closed_packets (closed ex_ended) =
    [[ex_frame 0; ex_sound 0; ex_frame 15; ex_sound 1]; [ex_frame 30; ex_frame 31; ex_sound 2; ex_frame 45; ex_sound 3; ex_frame 46]] ∧
  map closed_path (closed ex_ended) = [str "/rec/a.mov"; str "/rec/a_2.mov"] ∧ offered ex_out_env ex_started ex_events = ex_packets.
Proof. split_and!; vm_compute; reflexivity. Qed.

Lemma split_files_complete_witness :
  mp4_out_run ex_out_env ex_started ex_events = Some ex_ended ∧
  let files := map closed_packets (closed ex_ended) ++ (if mo_active ex_ended then [submitted ex_ended] else []) in
  concat files ++ split_buffer ex_ended ≡ₚ offered ex_out_env ex_started ex_events ∧
  filter is_audio_pkt (concat files) = filter is_audio_pkt (offered ex_out_env ex_started ex_events) ∧
  (closed_gops (offered ex_out_env ex_started ex_events) →
   filter is_video_pkt (concat files ++ split_buffer ex_ended) = filter is_video_pkt (offered ex_out_env ex_started ex_events)) ∧
  ∀ i f, files !! Datatypes.S i = Some f → ∃ k rest, f = k :: rest ∧ split_point k = true.
Proof.
  split; [exact ex_out_run|].
  exact (split_files_complete ex_out_env FLAVOR_MOV true true ex_events ex_started ex_ended ex_out_started
    (ex_within ex_events eq_refl) ex_out_run).
Defined.

Lemma split_files_limited_witness :
  mp4_out_run ex_out_env ex_started ex_events = Some ex_ended ∧
  let files := map closed_packets (closed ex_ended) ++ (if mo_active ex_ended then [submitted ex_ended] else []) in
  ∀ i f pre k post, files !! i = Some f → f = pre ++ k :: post → split_point k = true →
    i = 0%nat ∨ Exists (λ p, is_audio_pkt p = true) pre →
    (0 < u64 (i64 (0 * 1024 * 1024)) → u64 (foldl add_size 0 pre + pkt_size k) < u64 (i64 (0 * 1024 * 1024))) ∧
    (0 < i64 (1 * 1000000) → i64 (pkt_dts_usec k - file_start i f) < i64 (1 * 1000000)).
Proof.
  split; [exact ex_out_run|].
  refine (split_files_limited ex_out_env FLAVOR_MOV true true ex_events ex_started ex_ended ex_out_started eq_refl
    (ex_within ex_events eq_refl) ex_out_run _).
  apply gops_check_ok. vm_compute. reflexivity.
Defined.

(** ** Where the code does not do what it means to *)

(** A recording that ends while packets are kept for the next file leaves them out, and keeps
    them: the second file of the next recording begins with them. *)
Definition ex_next : list mp4_out_event :=
  OUT_START true true :: ex_give [ex_frame 0; ex_sound 0; ex_sound 1; ex_sound 2] ++ [OUT_PACKET None].
Example kept_packets_left : ∃ st1 st2,
  mp4_out_run ex_out_env ex_started (ex_give (take 6 ex_packets) ++ [OUT_STOP 1033000000; OUT_PACKET (Some (ex_sound 3))]) = Some st1 ∧
  map closed_packets (closed st1) = [[ex_frame 0; ex_sound 0; ex_frame 15; ex_sound 1]] ∧
  split_buffer st1 = [ex_frame 30; ex_frame 31] ∧
  mp4_out_run ex_out_env st1 ex_next = Some st2 ∧
  map closed_packets (drop 1 (closed st2)) = [[ex_frame 0; ex_sound 0; ex_sound 1]; [ex_frame 30; ex_frame 31; ex_sound 2]].
Proof. eexists _, _. split; [vm_compute; reflexivity|]. split; [reflexivity|]. split; [reflexivity|]. split; vm_compute; reflexivity. Qed.

(** When the next file cannot be opened, the muxer that was destroyed is finalised. *)
Definition ex_one_file : mp4_output_env FILE :=
  mk_mp4_output_env FILE ex_env [Some ex_out_video] [Some ex_audio_encoder] ex_out_settings (str "Unnamed") (λ _, ex_name_env)
    (λ _, []) (λ n _ _ _, match n with O => Some file_output_serializer_init | _ => None end) (λ _, 0).
Example next_file_not_opened :
  mp4_out_run ex_one_file ex_started (ex_give (take 6 ex_packets)) ≠ None ∧
  mp4_out_run ex_one_file ex_started (ex_give (take 7 ex_packets)) = None.
Proof. split; [by vm_compute|vm_compute; reflexivity]. Qed.

(** The callback for chapters is registered with the output as its parameter and removed with
    a null one: it stays, and every recording registers one more. *)
Example callbacks_left :
  callbacks ex_ended = [CB_CHAPTERS true] ∧
  callbacks <$> mp4_out_run ex_out_env ex_ended [OUT_START true true] = Some [CB_CHAPTERS true; CB_CHAPTERS true].
Proof. split; vm_compute; reflexivity. Qed.

(** A chapter at the first frame of the next file is added to the file before it, past its end. *)
Example chapter_in_old_file : ∃ st,
  mp4_out_run ex_out_env ex_started (ex_give (take 4 ex_packets) ++
    [OUT_CHAPTER (str "Two") 1000; OUT_PACKET_TIME (ex_frame 30) (Some 1000); OUT_PACKET (Some (ex_frame 30))]) = Some st ∧
  split_buffer st = [ex_frame 30] ∧ chapters st = [] ∧
  (pkt_dts <$> (mux ← muxer st; ch ← chapter_track mux; last (packets ch))) = Some 1000.
Proof. eexists. split; [vm_compute; reflexivity|]. by split_and!. Qed.

(** A chapter that is added when nothing is recorded is kept for the next recording. *)
Example chapter_kept : ∃ st,
  mp4_out_run ex_out_env ex_ended [OUT_CHAPTER (str "Late") 5; OUT_START true true] = Some st ∧
  chapters st = [mk_chapter 5 (str "Late")].
Proof. eexists. split; [vm_compute; reflexivity|reflexivity]. Qed.

(** Options that are no longer given stay in force. *)
Example options_stay :
  (conf ← parse_custom_options (out_conf ex_started) (str "bpm=1 chunk_size=4");
   conf ← parse_custom_options conf [];
   Some (enable_bpm conf, chunk_size conf)) = Some (true, 4194304).
Proof. vm_compute. reflexivity. Qed.
