(* ===== verification/Mp4Files.v ===== *)
(** * What the files of the MP4 output hold: mp4-output.c with mp4-mux.c

    Every file the output closes is the finalised recording of the packets that were
    submitted to its muxer; with Mp4Recording.v, that says what its bytes are. *)

From S2P Require Import Prelude Util Serializer FileSerializer Encoder OptsParser FileName Mp4Types Mp4Box Mp4Header Mp4Entry Mp4Table Mp4Moov Mp4Frag Mp4Mux Mp4Track Mp4File Mp4Recording Mp4Output Mp4Split.

Local Open Scope Z_scope.

(** ** Where a packet goes *)

Lemma bind_inv {S A B} (m : W S A) (k : A → W S B) s r :
  bind m k s = Some r → ∃ a s1, m s = Some (a, s1) ∧ k a s1 = Some r.
Proof. unfold bind. destruct (m s) as [[a s1]|]; [|done]. eauto. Qed.

(** What decides where a packet goes and how it is parsed. *)
Definition same_route (t t' : mp4_track) : Prop := trk_encoder t' = trk_encoder t ∧ trk_codec t' = trk_codec t.

Lemma same_route_refl ts : Forall2 same_route ts ts.
Proof. induction ts; by constructor. Qed.

Lemma same_route_trans ts1 ts2 ts3 : Forall2 same_route ts1 ts2 → Forall2 same_route ts2 ts3 → Forall2 same_route ts1 ts3.
Proof.
  intros H1. revert ts3. induction H1 as [|t1 t2 ts1 ts2 [E1 E2] _ IH]; intros ts3 H2; inversion_clear H2 as [|? t3 ? ts3' [E3 E4] Hr];
    constructor; [split; congruence|by apply IH].
Qed.

Lemma process_loop_route mux t m ps : same_route t (process_loop mux t m ps).1.
Proof.
  revert t m. induction ps as [|p ps IH]; intros t m; [done|]. destruct ps as [|n ps]; [done|]. rewrite process_loop_cons.
  destruct (_ && _); [done|]. destruct (process_packet_static mux t m p n) as (Hs & _).
  destruct (process_packet mux t m p n) as [t1 m1]. specialize (IH t1 m1) as [E1 E2]. unfold trk_static in Hs. cbn [fst] in Hs.
  split; congruence.
Qed.

Lemma process_all_route mux ts m : Forall2 same_route ts (process_all mux ts m).1.
Proof.
  revert m. induction ts as [|t ts IH]; intros m; [constructor|]. cbn [process_all].
  pose proof (process_loop_route mux t m (packets t)) as Hp. unfold process_packets in *.
  destruct (process_loop mux t m (packets t)) as [t1 m1]. specialize (IH m1). destruct (process_all mux ts m1) as [ts1 m2].
  by constructor.
Qed.

Section routes.
Context {S : Type} `{SerializerOps S} (env : mp4_env).

Lemma write_packets_route (t t' : mp4_track) (s s' : S) : write_packets t s = Some (t', s') → same_route t t'.
Proof.
  unfold write_packets. destruct (packets t) as [|p ps]; [by intros [= <- <-]|]. destruct (fragment_samples t) as [|f fs]; [by intros [= <- <-]|].
  intros E. apply bind_inv in E as (a & s1 & _ & E). apply bind_inv in E as (b & s2 & _ & E). apply bind_inv in E as (c & s3 & _ & E).
  by injection E as <- <-.
Qed.

Lemma write_all_route (ts ts' : list mp4_track) (s s' : S) : write_all ts s = Some (ts', s') → Forall2 same_route ts ts'.
Proof.
  revert ts' s. induction ts as [|t ts IH]; intros ts' s; cbn [write_all]; [by intros [= <- <-]|].
  intros E. apply bind_inv in E as (t1 & s1 & Et & E). apply bind_inv in E as (ts1 & s2 & Ets & E). injection E as <- <-.
  constructor; [by eapply write_packets_route|by eapply IH].
Qed.

Lemma flush_packets_route mux ao (mux' : mp4_mux) (s s' : S) :
  flush_packets mux ao s = Some (mux', s') → Forall2 same_route (tracks mux) (tracks mux').
Proof.
  unfold flush_packets. intros E. apply bind_inv in E as ([m1 size] & s1 & Ea & E).
  assert (Forall2 same_route (tracks mux) (tracks m1)) as H1.
  { unfold deref in Ea. destruct (analyse_packets _) as [r|] eqn:Er; [|done]. injection Ea as -> <-. unfold analyse_packets in Er.
    set (mu := mux_set mux _ _ _ _ _) in Er. pose proof (process_all_route mu (tracks mu) 8) as Hp. change (tracks mu) with (tracks mux) in *.
    destruct (process_all mu (tracks mux) 8) as [ts sz]. cbn [fst] in Hp. destruct (chapter_track _); [|by injection Er as <- <-].
    destruct (_ =? 0); [|by injection Er as <- <-]. apply bind_Some in Er as (d & _ & Er). apply bind_Some in Er as (pk & _ & Er).
    destruct (process_packets _ _ _) as [ch sz']. by injection Er as <- <-. }
  do 5 (apply bind_inv in E as (? & ? & _ & E)).
  apply bind_inv in E as (ts & s7 & Ew & E). apply write_all_route in Ew. apply bind_inv in E as (ch & s8 & _ & E).
  injection E as <- <-. by eapply same_route_trans.
Qed.

Lemma flush_route mux (mux' : mp4_mux) (s s' : S) :
  mp4_flush_fragment env mux s = Some (mux', s') → Forall2 same_route (tracks mux) (tracks mux').
Proof.
  unfold mp4_flush_fragment. intros E. apply bind_inv in E as (m1 & s1 & Eh & E). apply bind_inv in E as (ao & s2 & _ & E).
  apply flush_packets_route in E. assert (tracks m1 = tracks mux) as <-; [|exact E].
  unfold write_file_header in Eh. destruct (_ =? 0); [|by injection Eh as <- <-].
  do 3 (apply bind_inv in Eh as (? & ? & _ & Eh)). by injection Eh as <- <-.
Qed.

(** The track of a packet. *)
Definition track_index (mux : mp4_mux) (ts : list mp4_track) (pkt : encoder_packet) : option nat :=
  (find_track mux ts 0 pkt None false).1.

Lemma find_track_route mux mux' ts ts' j pkt found ready ready' : Forall2 same_route ts ts' →
  (find_track mux' ts' j pkt found ready').1 = (find_track mux ts j pkt found ready).1.
Proof.
  intros Hr. revert j found ready ready'. induction Hr as [|t t' ts ts' [Ee _] _ IH]; intros j found ready ready'; [done|].
  cbn [find_track]. rewrite Ee. apply IH.
Qed.

(** A submitted packet. *)
Lemma submit_route mux pkt (b : bool) (mux' : mp4_mux) (s s' : S) :
  mp4_mux_submit_packet env mux pkt s = Some ((b, mux'), s') →
  Forall2 same_route (tracks mux) (tracks mux') ∧ b = bool_decide (is_Some (track_index mux (tracks mux) pkt)) ∧
  ∀ i, track_index mux (tracks mux) pkt = Some i → ∃ t q, tracks mux !! i = Some t ∧ parse_packet env t pkt = Some q.
Proof.
  unfold mp4_mux_submit_packet, track_index. pose proof (find_track_route mux mux (tracks mux) (tracks mux) 0 pkt None false
    (0 <? next_frag_pts mux) (same_route_refl _)) as Ei.
  destruct (find_track mux (tracks mux) 0 pkt None (0 <? next_frag_pts mux)) as [[i|] ready]; cbn [fst] in Ei; rewrite <- Ei.
  2:{ intros [= <- <- <-]. split; [apply same_route_refl|]. split; [done|]. done. }
  intros E. apply bind_inv in E as (m1 & s1 & Em & E). apply bind_inv in E as (t & s2 & Et & E). apply bind_inv in E as (q & s3 & Eq & E).
  injection E as <- <- _.
  assert (Forall2 same_route (tracks mux) (tracks m1)) as H1.
  { destruct ready; [by eapply flush_route|]. injection Em as <- <-. apply same_route_refl. }
  unfold deref in Et. destruct (tracks m1 !! i) as [t1|] eqn:Ht1; [|done]. injection Et as -> <-.
  unfold deref in Eq. destruct (parse_packet env t pkt) as [q1|] eqn:Eq1; [|done]. injection Eq as -> <-.
  split; [|split].
  - eapply same_route_trans; [exact H1|]. cbn [tracks mux_set]. apply Forall2_same_length_lookup. split; [by rewrite length_insert|].
    intros j x y Hx Hy. apply list_lookup_insert_Some in Hy as [(<- & <- & _)|(_ & Hy)]; [|by simplify_eq].
    rewrite Ht1 in Hx. by injection Hx as <-.
  - by rewrite bool_decide_true by eauto.
  - intros j [= <-]. destruct (Forall2_lookup_r _ _ _ _ _ H1 Ht1) as (t0 & Ht0 & _ & Hc).
    exists t0, q. split; [done|]. unfold parse_packet in *. by rewrite <- Hc.
Qed.
End routes.

(** ** The life of a file *)

(** No codec without a sample size of its own. *)
Definition no_pcm (encs : list (option obs_encoder)) : Prop :=
  Forall (λ e, match e with Some e => is_pcm (get_codec (enc_codec e)) = false | None => True end) encs.

Definition empty_track (t : mp4_track) : Prop := ∃ type codec id enc num den scale, t = new_track type codec id enc num den scale 0.

Lemma add_tracks_empty mux encs mux' : no_pcm encs → Forall empty_track (tracks mux) → add_tracks mux encs = Some mux' →
  Forall empty_track (tracks mux') ∧ fragments_written mux' = fragments_written mux.
Proof.
  intros Hp. revert mux. induction Hp as [|[e|] encs He _ IH]; intros mux Ht; cbn [add_tracks]; [by intros [= <-]| |by apply IH].
  intros E. apply bind_Some in E as (m1 & E1 & E). unfold add_track in E1. apply bind_Some in E1 as (t & Et & E1). injection E1 as <-.
  apply IH in E; [done|]. apply Forall_app. split; [done|]. constructor; [|constructor]. cbn [obs_encoder_get_type] in Et.
  destruct (enc_type e).
  - injection Et as <-. assert (get_sample_size (Some e) (get_codec (enc_codec e)) = 0) as ->; [|do 7 eexists; reflexivity].
    unfold get_sample_size. destruct (obs_encoder_audio (Some e)); [|done]. by destruct (get_codec (enc_codec e)).
  - apply bind_Some in Et as (info & _ & Et). injection Et as <-. do 7 eexists. reflexivity.
Qed.

Lemma create_empty video audio now fl fv mux : no_pcm (video ++ audio) → mp4_mux_create video audio now fl fv = Some mux →
  Forall empty_track (tracks mux) ∧ fragments_written mux = 0.
Proof.
  intros Hp E. apply Forall_app in Hp as [Hv Ha]. unfold mp4_mux_create in E. apply bind_Some in E as (m1 & E1 & E).
  apply add_tracks_empty in E1 as [H1 H2]; [|done|constructor]. apply add_tracks_empty in E as [H3 H4]; [|done..].
  split; [done|]. by rewrite H4, H2.
Qed.

Section files.
Context {S : Type} `{FileSerializer S} (env : mp4_output_env S).
Implicit Types st : mp4_output S.

(** The muxer of a file after some packets; chapters only if [chap]. *)
Inductive muxed (chap : bool) (mux0 : mp4_mux) (s0 : S) : list encoder_packet → mp4_mux → S → Prop :=
| muxed_nil : muxed chap mux0 s0 [] mux0 s0
| muxed_submit ps mux s p b mux' s' :
    muxed chap mux0 s0 ps mux s → mp4_mux_submit_packet (mux_env env) mux p s = Some ((b, mux'), s') →
    muxed chap mux0 s0 (ps ++ [p]) mux' s'
| muxed_chapter ps mux s dts_usec name b mux' :
    chap = true → muxed chap mux0 s0 ps mux s → mp4_mux_add_chapter (mux_env env) mux dts_usec name = Some (b, mux') →
    muxed chap mux0 s0 ps mux' s.

(** The packets of each track, as they are queued. *)
Definition queues (mux0 : mp4_mux) (ps : list encoder_packet) : list (list encoder_packet) :=
  foldl (λ qs p,
    match (i ← track_index mux0 (tracks mux0) p; t ← tracks mux0 !! i; q ← parse_packet (mux_env env) t p; Some (i, q)) with
    | Some (i, q) => alter (λ ps, ps ++ [q]) i qs
    | None => qs
    end) (map (λ _, []) (tracks mux0)) ps.

(** Every flush on the way has room. *)
Definition has_room (mux0 : mp4_mux) (s0 : S) (ps : list encoder_packet) : Prop :=
  ∀ before p after mux s i, ps = before ++ p :: after → muxed false mux0 s0 before mux s →
    find_track mux (tracks mux) 0 p None (0 <? next_frag_pts mux) = (Some i, true) → flush_fits (mux_env env) mux s.

Lemma has_room_app mux0 s0 ps qs : has_room mux0 s0 (ps ++ qs) → has_room mux0 s0 ps.
Proof. intros Hr before p after mux s i -> Hm. apply (Hr before p (after ++ qs) mux s i); [by rewrite <- app_assoc|done]. Qed.

Lemma muxed_recording mux0 s0 ps mux s : Forall empty_track (tracks mux0) → fragments_written mux0 = 0 → at_end s0 [] →
  muxed false mux0 s0 ps mux s → has_room mux0 s0 ps →
  recording (mux_env env) mux0 (queues mux0 ps) mux s ∧ Forall2 same_route (tracks mux0) (tracks mux).
Proof.
  intros Ht Hf Hs Hm. induction Hm as [|ps mux s p b mux' s' Hm IH E|]; intros Hroom; [split; [by apply rec_start|apply same_route_refl]| |done].
  destruct (IH (has_room_app _ _ _ _ Hroom)) as [Hr Hro]. destruct (submit_route _ _ _ _ _ _ _ E) as (Hro' & Hb & Hq).
  split; [|by eapply same_route_trans].
  assert (track_index mux (tracks mux) p = track_index mux0 (tracks mux0) p) as Ei by (by apply find_track_route).
  unfold queues. rewrite foldl_app. cbn [foldl]. fold (queues mux0 ps). rewrite <- Ei.
  destruct (track_index mux (tracks mux) p) as [i|] eqn:Et; cbn [mbind option_bind].
  - destruct (Hq i eq_refl) as (t & q & Hi & Eq). destruct (Forall2_lookup_r _ _ _ _ _ Hro Hi) as (t0 & Hi0 & _ & Hc).
    rewrite Hi0. assert (parse_packet (mux_env env) t0 p = Some q) as Eq0 by (unfold parse_packet in *; by rewrite <- Hc).
    cbn [mbind option_bind]. rewrite Eq0. cbn [mbind option_bind].
    rewrite bool_decide_true in Hb by eauto. subst b.
    destruct (find_track mux (tracks mux) 0 p None (0 <? next_frag_pts mux)) as [fi ready] eqn:Efi.
    assert (fi = Some i) as ->.
    { pose proof (find_track_route mux mux (tracks mux) (tracks mux) 0 p None false (0 <? next_frag_pts mux) (same_route_refl _)) as E'.
      rewrite Efi in E'. cbn in E'. unfold track_index in Et. congruence. }
    eapply rec_submit; [exact Hr|exact Efi| |exact Hi|exact Eq|exact E].
    intros ->. by apply (Hroom ps p [] mux s i).
  - rewrite bool_decide_false in Hb by (by intros []). subst b. by eapply rec_ignored.
Qed.

(** ** The files of the output *)

(** How the file at [path] was opened. *)
Definition opened_as (conf : file_conf) (path : bytes) (mux0 : mp4_mux) (s0 : S) : Prop :=
  ∃ n, open_file env n path (buffer_size conf) (chunk_size conf) = Some s0 ∧
    mp4_mux_create (out_video env) (out_audio env) (time_at env n) (mo_flags conf) (muxer_flavor conf) = Some mux0.

Definition closed_ok (chap : bool) (conf : file_conf) (f : closed_file S) : Prop :=
  ∃ mux0 s0 mux s r, opened_as conf (closed_path f) mux0 s0 ∧ muxed chap mux0 s0 (closed_packets f) mux s ∧
    mp4_mux_finalise (mux_env env) mux s = Some (r, closed_data f).

Definition current_ok (chap : bool) st : Prop :=
  ∀ mux s, muxer st = Some mux → serializer st = Some s →
    ∃ mux0 s0, opened_as st (path st) mux0 s0 ∧ muxed chap mux0 s0 (submitted st) mux s.

Record files_ok (chap : bool) st : Prop := {
  w_closed : Forall (closed_ok chap st) (closed st);
  w_current : current_ok chap st;
  w_chapters : chap = false → chapters st = []
}.

(** Changes of what the files do not depend on. *)
Record same_files st st' : Prop := {
  g_conf : out_conf st' = out_conf st;
  g_files : out_files st' = out_files st;
  g_chapters : chapters st = [] → chapters st' = []
}.

Lemma files_same chap st st' : files_ok chap st → same_files st st' → files_ok chap st'.
Proof.
  intros [Hc Ho Hch] [Ec Ef Ech]. constructor.
  - by rewrite Ec, Ef.
  - intros mux s. rewrite Ec, Ef. apply Ho.
  - auto.
Qed.

Lemma files_submit chap st p st' : files_ok chap st → submit_packet env st p = Some st' → files_ok chap st'.
Proof.
  intros [Hc Ho Hch] E. unfold submit_packet in E. apply bind_Some in E as ([b st1] & E & E1). injection E1 as <-.
  unfold on_muxer in E. apply bind_Some in E as (mux & Em & E). apply bind_Some in E as (s & Es & E).
  apply bind_Some in E as ([[b' mux'] s'] & Ex & E). injection E as <- <-. cbn in Em, Es.
  constructor; [exact Hc| |exact Hch]. intros m s1 [= <-] [= <-]. destruct (Ho mux s Em Es) as (mux0 & s0 & Hop & Hm).
  exists mux0, s0. split; [exact Hop|]. by eapply muxed_submit.
Qed.

Lemma files_submits chap st ps st' : files_ok chap st → submit_packets env st ps = Some st' → files_ok chap st'.
Proof.
  revert st. induction ps as [|p ps IH]; intros st Hok; cbn [submit_packets]; [by intros [= <-]|].
  intros E. apply bind_Some in E as (st1 & E1 & E). eapply IH; [|exact E]. by eapply files_submit.
Qed.

Lemma files_close chap st st' : files_ok chap st → close_output env st = Some st' → files_ok chap st'.
Proof.
  intros [Hc Ho Hch] E. unfold close_output in E. apply bind_Some in E as ([b st1] & E & E1).
  apply bind_Some in E1 as (s1 & Es1 & E1). injection E1 as <-.
  unfold on_muxer in E. apply bind_Some in E as (mux & Em & E). apply bind_Some in E as (s & Es & E).
  apply bind_Some in E as ([[b' mux'] s'] & Ex & E). injection E as <- <-. cbn in Es1. injection Es1 as <-.
  constructor; [|done|exact Hch]. cbn. apply Forall_app. split; [exact Hc|]. constructor; [|constructor].
  destruct (Ho mux s Em Es) as (mux0 & s0 & Hop & Hm). exists mux0, s0, mux, s, (b', mux'). by split_and!.
Qed.

Lemma files_open chap st st' ok : files_ok chap st → muxer st = None → open_output env st = Some (st', ok) → files_ok chap st'.
Proof.
  intros [Hc Ho Hch] Hn E. unfold open_output in E. destruct (open_file _ _ _ _ _) as [s0|] eqn:Eo.
  - apply bind_Some in E as (mux0 & Em & E). injection E as <- <-. constructor; [exact Hc| |exact Hch].
    intros m s [= <-] [= <-]. exists mux0, s0. split; [by exists (opened st)|constructor].
  - injection E as <- <-. constructor; [exact Hc| |exact Hch]. by intros m s.
Qed.

Lemma close_no_muxer st st' : close_output env st = Some st' → muxer st' = None.
Proof. unfold close_output. intros E. apply bind_Some in E as (r & _ & E). destruct r. apply bind_Some in E as (s & _ & E). by injection E as <-. Qed.

Lemma files_change chap st k st' ok : files_ok chap st → change_file env st k = Some (st', ok) → files_ok chap st'.
Proof.
  intros Hok E. unfold change_file in E. apply bind_Some in E as (st1 & Ec & E). pose proof (close_no_muxer _ _ Ec) as Hn.
  apply files_close with (chap := chap) in Ec; [|done]. apply bind_Some in E as (p & _ & E).
  apply bind_Some in E as ([st2 ok2] & Eo & E).
  assert (files_ok chap (set_path_file (mp4_clear_chapters st1) p)) as K1.
  { destruct Ec as [Hc _ _]. constructor; [exact Hc| |done]. intros m s Em. cbn in Em. congruence. }
  apply files_open with (chap := chap) in Eo; [|done|done]. destruct ok2; injection E as <- <-; [|done].
  eapply files_same; [exact Eo|]. by constructor.
Qed.

Lemma files_stop chap st code st' : files_ok chap st → mp4_output_actual_stop env st code = Some st' → files_ok chap st'.
Proof.
  intros Hok E. unfold mp4_output_actual_stop in E. apply bind_Some in E as (st1 & Ec & E). injection E as <-.
  apply files_close with (chap := chap) in Ec; [|eapply files_same; [exact Hok|by constructor]].
  eapply files_same; [exact Ec|]. destruct (enable_bpm st1); by constructor.
Qed.

Lemma files_packet chap st p st' : files_ok chap st → mp4_output_packet env st p = Some st' → files_ok chap st'.
Proof.
  intros Hok E. unfold mp4_output_packet in E. destruct (negb (mo_active st)); [by injection E as <-|].
  destruct p as [p|]; [|by eapply files_stop]. destruct (_ && _); [by eapply files_stop|].
  apply bind_Some in E as ([st1 r] & Es & E). assert (files_ok chap st1) as K1.
  { unfold split_packet in Es. destruct (negb _); [by injection Es as <- _|]. destruct (split_buffer st).
    - destruct (should_split st p); injection Es as <- _; [|done]. eapply files_same; [exact Hok|by constructor].
    - destruct (_ <=? _); [|by injection Es as <- _]. destruct (negb _); [injection Es as <- _; eapply files_same; [exact Hok|by constructor]|].
      apply bind_Some in Es as ([st2 ok] & Ec & Es). apply files_change with (chap := chap) in Ec; [|done].
      destruct ok; injection Es as <- _; [|done]. eapply files_same; [exact Ec|by constructor]. }
  destruct r; [by injection E as <-|by eapply files_stop|].
  apply bind_Some in E as (st2 & Ef & E). apply bind_Some in E as (st3 & Ep & E). apply bind_Some in E as (s & _ & E).
  assert (files_ok chap st2) as K2.
  { unfold flush_split_buffer in Ef. destruct (split_file_ready st1); [|by injection Ef as <-].
    apply bind_Some in Ef as (st4 & E4 & Ef). injection Ef as <-. apply files_submits with (chap := chap) in E4; [|done].
    eapply files_same; [exact E4|by constructor]. }
  apply files_submit with (chap := chap) in Ep; [|done]. destruct (_ =? _); [eapply files_stop; [exact Ep|exact E]|by injection E as <-].
Qed.

Lemma files_due chap st q dts cts st' : files_ok chap st → (chap = false → q = []) →
  add_due_chapters env st q dts cts = Some st' → files_ok chap st'.
Proof.
  revert st. induction q as [|ch q IH]; intros st Hok Hq; cbn [add_due_chapters].
  { intros [= <-]. eapply files_same; [exact Hok|by constructor]. }
  assert (chap = true) as -> by (destruct chap; [done|by specialize (Hq eq_refl)]).
  destruct (_ <? _); [intros [= <-]; destruct Hok; by constructor|].
  intros E. apply bind_Some in E as (mux & Em & E). apply bind_Some in E as ([b mux'] & Ea & E).
  eapply IH; [|done|exact E]. destruct Hok as [Hc Ho Hch]. constructor; [exact Hc| |done].
  intros m s [= <-] Es. destruct (Ho mux s Em Es) as (mux0 & s0 & Hop & Hm). exists mux0, s0. split; [exact Hop|].
  by eapply muxed_chapter.
Qed.

Lemma files_callbacks chap st pkt cts cbs st' : files_ok chap st →
  foldl (λ acc cb, st ← acc; run_callback env st pkt cts cb) (Some st) cbs = Some st' → files_ok chap st'.
Proof.
  revert st. induction cbs as [|cb cbs IH]; intros st Hok; cbn [foldl mbind option_bind]; [by intros [= <-]|].
  intros E. destruct (run_callback env st pkt cts cb) as [st1|] eqn:E1.
  2:{ exfalso. clear -E. induction cbs as [|cb cbs IH]; [done|]. by apply IH. }
  eapply IH; [|exact E]. clear -E1 Hok. destruct cb as [|[]]; cbn in E1; [by injection E1 as <-| |by injection E1 as <-].
  unfold mp4_pkt_callback in E1. destruct cts; [|by injection E1 as <-]. destruct (_ || _); [by injection E1 as <-|].
  eapply files_due; [exact Hok|by destruct Hok|exact E1].
Qed.

Definition chapter_free (ev : mp4_out_event) : Prop := match ev with OUT_CHAPTER _ _ => False | _ => True end.

Lemma files_step chap st ev st' : files_ok chap st → within_session ev → (chap = false → chapter_free ev) →
  mp4_out_step env st ev = Some st' → files_ok chap st'.
Proof.
  intros Hok Hw Hch E. destruct ev as [| |pkt cts|p| |]; cbn in Hw, E; try done.
  - injection E as <-. eapply files_same; [exact Hok|by constructor].
  - by eapply files_callbacks.
  - by eapply files_packet.
  - injection E as <-. destruct chap; [|by specialize (Hch eq_refl)]. destruct Hok. by constructor.
  - injection E as <-. unfold split_file_proc. destruct (split_file_enabled st); [|done]. eapply files_same; [exact Hok|by constructor].
Qed.

Lemma files_run chap st evs st' : files_ok chap st → Forall within_session evs → (chap = false → Forall chapter_free evs) →
  mp4_out_run env st evs = Some st' → files_ok chap st'.
Proof.
  intros Hok Hw. revert st Hok. induction Hw as [|ev evs Hev _ IH]; intros st Hok Hch; cbn [mp4_out_run]; [by intros [= <-]|].
  intros E. apply bind_Some in E as (st1 & E1 & E). eapply IH; [| |exact E].
  - eapply files_step; [exact Hok|done| |exact E1]. intros Hc. specialize (Hch Hc). by inversion Hch.
  - intros Hc. specialize (Hch Hc). by inversion Hch.
Qed.

Lemma files_start flavor can_begin init st : mp4_output_start env (mp4_output_create_internal flavor) can_begin init = Some (st, true) →
  files_ok false st.
Proof.
  unfold mp4_output_start. destruct (negb can_begin); [done|]. destruct (negb init); [done|]. intros E.
  apply bind_Some in E as (st1 & E1 & E). apply bind_Some in E as (conf & E2 & E). apply bind_Some in E as ([st3 ok] & E3 & E).
  destruct ok; [|done]. injection E as <-.
  assert (closed st1 = [] ∧ muxer st1 = None ∧ chapters st1 = []) as (Hc1 & Hm1 & Hch1).
  { destruct (is_empty _); [apply bind_Some in E1 as (pp & _ & E1)|]; by injection E1 as <-. }
  assert (files_ok false st3) as K3; [|eapply files_same; [exact K3|by constructor]].
  eapply files_open; [| |exact E3].
  - destruct (enable_bpm (set_conf st1 conf)); (constructor; [cbn; by rewrite Hc1|intros m s Em; cbn in Em; congruence|done]).
  - by destruct (enable_bpm (set_conf st1 conf)).
Qed.

(** C18: Each file of a recording without chapters is made by one muxer, created for it on an empty
    file, that was given exactly the packets of the file, in their order, and is finalised; if
    there was room for every flush, that is a recording of the packets as each track queues
    them, so that the contract of the muxer says what the bytes of the file are. *)
Theorem mp4_files_recorded flavor can_begin init evs st0 st :
  mp4_output_start env (mp4_output_create_internal flavor) can_begin init = Some (st0, true) →
  Forall within_session evs → Forall chapter_free evs → mp4_out_run env st0 evs = Some st →
  no_pcm (out_video env ++ out_audio env) →
  (∀ n path bs cs s, open_file env n path bs cs = Some s → at_end s []) →
  Forall (λ f, ∃ mux0 s0 mux s r, opened_as st (closed_path f) mux0 s0 ∧
    muxed false mux0 s0 (closed_packets f) mux s ∧
    mp4_mux_finalise (mux_env env) mux s = Some (r, closed_data f) ∧
    (has_room mux0 s0 (closed_packets f) → recording (mux_env env) mux0 (queues mux0 (closed_packets f)) mux s)) (closed st).
Proof.
  intros Hstart Hw Hch Hrun Hp Hempty. apply files_start in Hstart.
  destruct (files_run _ _ _ _ Hstart Hw (λ _, Hch) Hrun) as [Hc _ _].
  eapply Forall_impl; [exact Hc|]. intros f (mux0 & s0 & mux & s & r & Hop & Hm & Hf).
  exists mux0, s0, mux, s, r. split_and!; [done..|]. intros Hroom. destruct Hop as (n & Ho & Hcr).
  destruct (create_empty _ _ _ _ _ _ Hp Hcr) as [Ht Hz].
  by destruct (muxed_recording mux0 s0 (closed_packets f) mux s Ht Hz (Hempty _ _ _ _ _ Ho) Hm Hroom).
Qed.
End files.

Lemma mp4_files_recorded_witness :
  mp4_out_run ex_out_env ex_started ex_events = Some ex_ended ∧ length (closed ex_ended) = 2%nat ∧
  Forall (λ f, ∃ mux0 s0 mux s r, opened_as ex_out_env ex_ended (closed_path f) mux0 s0 ∧
    muxed ex_out_env false mux0 s0 (closed_packets f) mux s ∧
    mp4_mux_finalise (mux_env ex_out_env) mux s = Some (r, closed_data f) ∧
    (has_room ex_out_env mux0 s0 (closed_packets f) →
     recording (mux_env ex_out_env) mux0 (queues ex_out_env mux0 (closed_packets f)) mux s)) (closed ex_ended).
Proof.
  split; [exact ex_out_run|]. split; [vm_compute; reflexivity|].
  refine (mp4_files_recorded ex_out_env FLAVOR_MOV true true ex_events ex_started ex_ended ex_out_started
    (ex_within ex_events eq_refl) _ ex_out_run _ _).
  - repeat constructor.
  - by repeat constructor.
  - intros n path bs cs s [= <-]. by split.
Defined.
